(* ===== verification/_CoqProject ===== *)
-Q . S2P
Prelude.v
Mem.v
Riscv.v
Pmm.v
Vm.v
VmMap.v
VmCopy.v
Kernel.v
Task.v
Ipc.v
Vfs.v
Format.v
Fdt.v
Pci.v
Retire.v
Irq.v
Syscall.v
SysInv.v
Trap.v
Boot.v
Heap.v
HeapPool.v
HeapAlloc.v
HeapRuns.v
HeapOps.v
HeapMalloc.v
HeapNew.v
HeapTop.v
HeapUser.v
Req.v
NetWire.v
NetState.v
Net.v
NetTcp.v
NetCtl.v
TcpConn.v
TcpStream.v
TcpPair.v
NetDemo.v
NetInv.v
Client.v
Say.v
Progs.v
Tty.v
TtyEdit.v
TtyRun.v
TtyInv.v
FsProto.v
FatName.v
Fat16.v
FatChain.v
Fs.v
FsClient.v
Export.v
Import.v
Remote.v
RemoteImport.v
RemotePair.v
Curses.v
Terminal.v
CursesUpdate.v
CursesDraw.v
CursesKeys.v
Loader.v
Console.v
ConsoleKeys.v
Sh.v
Reports.v
MountText.v
Devs.v
Procs.v
Virtio.v
BlkDisk.v
SrvNet.v
NetCard.v
Utils.v
Editor.v
EditorText.v
EditorFile.v
