(* ===== verification/Prelude.v ===== *)
(** * rvos: a verification library

    rvos is a small operating system for 64-bit RISC-V: a kernel that gives
    each task an address space, passes messages by rendezvous and resolves
    names to server tasks, and servers that do the rest.  This library
    models the kernel, its servers, the library of its programs and the
    programs themselves as executable definitions over the data the C code
    has, and proves what they are for.

    ** The parts and where they are

    Kernel (src/src/):
    - Mem.v: byte memory; the loops of util.c.  Riscv.v: riscv.h.
    - Pmm.v (pmm.c): the page allocator, a list threaded through free pages.
    - Vm.v (vm.c): Sv39 tables in that memory: walk, map, unmap, load a
      segment, free a space, translate, copy across spaces, dump.
      VmMap.v: what mapping and unmapping do to translations.  VmCopy.v:
      what a copy does to bytes.
    - Kernel.v (task.h and the static variables of the kernel): the state.
      Task.v (task.c): identifiers, slots, the scheduler, and the invariant
      [kernel_ok] of task table and send queues.  Ipc.v (ipc.c): send and
      receive.  Vfs.v (vfs.c): mount tables and path resolution.  Retire.v:
      task_retire.  Syscall.v: task creation, SYS_SBRK and every case of
      syscall_dispatch.  Irq.v (trap.c, plic.c): alarms and device
      interrupts.  SysInv.v: that each system call keeps the invariant.
      Trap.v: strap_handler, and traps one after another.  Boot.v (kmain.c):
      smain.
    - Fdt.v (fdt.c), Pci.v (pci.c), Format.v (uart.c, the formatters of
      util.c, the page-table report): what boot reads and what is printed.

    Servers (src/src/).  Req.v is the message they all understand
    (vfs_req) and what it is for one to be well typed.
    - Tty.v, TtyEdit.v, TtyRun.v, TtyInv.v (srv_tty.c): the terminal, its
      line editor against a reference editor, its queues.  Console.v,
      ConsoleKeys.v (srv_console.c): the console in front of it.
    - FatName.v, Fat16.v, FatChain.v (fat16.c): names, the driver, chains.
      Fs.v (srv_fs.c): open files, a buffer each, over [FileSystem].
    - Virtio.v (virtio.h, srv_blk.c): queues shared with a card, the disk
      driver.  BlkDisk.v: that driver and card together are a disk.
    - The network (net_ip.c).  NetWire.v: packets and checksums.  NetState.v:
      its variables.  Net.v: ARP, IPv4, ICMP, UDP, names.  NetTcp.v: TCP, its
      timers, the frames.  NetCtl.v: the files of /net.  TcpConn.v,
      TcpStream.v: what one connection sends, and what it makes of what
      arrives.  TcpPair.v: two machines and a network between them.
      NetInv.v: the invariant of the server.  NetDemo.v: runs of it.
      SrvNet.v (srv_net.c), NetCard.v: the driver, as a wire between the
      card and the protocols.
    - Export.v, Import.v (export.c, import.c): name spaces over a connection,
      in the protocol of FsProto.v (fsproto.h).  Remote.v, RemoteImport.v,
      RemotePair.v: the two ends together.
    - Reports.v (uvfs.h, what srv_proc.c and srv_dev.c share), MountText.v
      (the listing of mounts), Procs.v (srv_proc.c), Devs.v (srv_dev.c).
    - Loader.v (loader.c, elf.h): images and arguments.  Sh.v (sh.c,
      srv_rsh.c): lines, words, the builtins, starting what is named.

    Programs (src/prog/).
    - Client.v (vfs.h, lib.h), Say.v: what a program calls.  Progs.v,
      FsClient.v: the programs that work on files, and what cp does to a file
      system.  Utils.v: the programs that measure, serve and fetch.
    - Heap.v (malloc.h): the allocator each program carries, on the bytes of
      its heap window.  HeapPool.v, HeapAlloc.v: the free list tiles the
      window with what is owned.  HeapRuns.v, HeapOps.v, HeapMalloc.v,
      HeapNew.v: runs of slots, the page map, the invariant of the whole.
      HeapTop.v, HeapUser.v: the operations as programs see them.
    - Curses.v (curses.h): the screen library.  Terminal.v: a terminal that
      obeys escape sequences.  CursesUpdate.v: what an update does to it.
      CursesDraw.v: windows and texts.  CursesKeys.v: keys out of bytes.
    - Editor.v (the editor of mc.c): its buffer, index and keys.  EditorText.v:
      a plain document, and that the editor implements it.  EditorFile.v:
      loading and saving through the file server.

    ** How the code is translated

    An integer of the machine is a [Z], with its conversions written out
    where a value can leave its width.  A structure is a record, an array a
    list, a pointer to a task its slot, a namespace the address of its page.
    The allocators' lists live in byte memory, as in the code.  A kernel
    operation is a function from state to state; drivers, servers and
    programs are programs of [prog], a state monad whose [None] is a loop
    that does not end or an access that faults, and theorems about them say
    through [wp] that a result is returned.  A program's state is its static
    variables beside the world it runs in.  In the network server time
    stands still while one event is handled, malloc may refuse at any call
    ([oom]), and a copy that overruns its buffer is a fault.  A buffer on the
    stack begins as what it held before, which is an argument ([junk],
    [stale]).

    ** Interfaces

    Components meet in classes, and laws about them are classes of their
    own.  [World] is the kernel and the servers as a program sees them,
    [FileSystem] the driver under the file server, [Terminal] what an
    update of the screen writes to, [Mail] the replies the importer sends,
    [Builder] the calls that build a task, [Shelled] those of a shell,
    [KernelView] with [KernelLaws] what /proc and /dev ask of the kernel,
    [Board] the registers of a card, [CardView] with [BlockCard] and [ncard]
    what a card does with a queue, [Protocols] with [ProtocolLaws] the
    network protocols under their driver, [Gauges] the counters of the
    kernel.  [PageSource] is what the page allocator promises to the code
    above it.  Code outside the sources is a parameter with laws: the block
    device ([BlockDev], [BlockLaws]), the kernel as the heap sees it
    ([SbrkLaws]), PCI configuration reads, the interrupt controller's
    answers, the linker's addresses ([image], [layout]).  Each class of laws
    has an instance in the library, most of them the component itself.

    ** Bounds and fuel

    Page-table recursion is structural on the three levels.  vm_copy_across
    gets as fuel the length of the copy, of which every turn moves at least
    a byte.  Loops over directories and cluster chains get fuel and diverge
    without, which only a cyclic chain needs.  Path resolution follows
    RESOLVE_HOPS binds.  Heap lists get the number of 16-byte units of the
    window, more than an acyclic list has members; the page map doubles at
    most 64 times; a run has at most 256 slots.  TCP output sends at least a
    byte a turn of what its buffer holds; a turn of reassembly frees a held
    segment or queues a byte, or none ever will ([ooo_fuel]); walks of a
    packet are bounded by its length, and the walk of the device tree gets a
    round for every four bytes of it ([fdt_walk_loop_fuel]).  A union has at most MOUNTS_MAX
    members, so that opening one takes MOUNTS_MAX + 1 rounds; a listing grows
    in LIST_ROUNDS and a buffer in GROW_ROUNDS doublings, more than a machine
    word allows; loops that drain a buffer get its length and one.  Polling
    the disk takes SPINS = 1000000 turns, the number in the code, and
    draining the card DRAIN turns, more than frames can wait.  Loops of
    programs that end when their input does take their number of rounds as
    the argument [fuel], and theorems say how much is enough.

    ** What is shown

    The invariant of task table, queues and interrupt owners holds after
    boot (Boot.v) and after every trap, as long as the file server does not
    end (Trap.v).  Mapping, unmapping and
    copying have the effect asked for and no other (VmMap.v, VmCopy.v).
    Messages arrive whole and in order (Ipc.v); a task that ends leaves
    nobody waiting for it (Retire.v).  Names resolve by longest prefix
    through unions and binds (Vfs.v).  No page is handed out twice (Pmm.v),
    and no two blocks of a program's heap overlap, whatever the program does
    (HeapUser.v).  What is encoded is decoded (FsProto.v, FatName.v), what is
    written to disk is read back, and a failed write leaves the tables alone
    (FatChain.v).  The disk driver is the disk (BlkDisk.v) and the network
    driver a wire (NetCard.v), over cards that do what the queues say.  What
    is read from a TCP connection is the beginning of what was written at the
    other end, whatever the network does (TcpPair.v), and every event the
    server handles to the end leaves it within its bounds (NetInv.v).  The
    terminal's editor is the reference editor for a client that waits for
    its lines (TtyEdit.v, TtyRun.v), its buffers are never left by messages
    of the size they may have (TtyInv.v), and every key the console took goes
    once, to a reader that asked (ConsoleKeys.v).  A copied file is the file (FsClient.v); a name
    space used from afar answers as it does at home (RemotePair.v).  /proc
    and /dev answer whatever is asked, a message at a time (Procs.v, Devs.v),
    and the listing of mounts is the mount table, for absolute names that
    fit (MountText.v).  The loader builds what was
    linked and hands over the arguments given (Loader.v), and words are what
    was typed (Sh.v).  After an update the terminal shows what was drawn,
    inside the windows it was drawn in (CursesUpdate.v, CursesDraw.v).  The
    text editor does to its buffer what a plain document does, and what it
    saves is what it loads (EditorText.v, EditorFile.v).  Each
    file ends with the cases in which the code does not do what it says,
    proved by evaluation.

    ** What is not modelled

    Assembly (entry, trap vectors, context switch) and mstart.c: registers
    arrive in the trap frame that the assembly fills.  satp and fence
    instructions, which have no effect on the tables.  A kernel object
    outside byte memory (the task table, the namespaces) cannot be
    overwritten by a stray store in this model.  The heap's lock is that of a
    task of one thread, and napms sleeps.  kprintf with a lone percent sign
    at the end of its format.  What the network server, the importer and the
    exporter print, and what servers print while they start.  The loop of
    the loader that takes over a task (loader_main).  The constant text of
    doc.c, and the demonstrations (user.c, hello.c, forever.c, threads.c,
    frag.c, bench.c), whose functions are their printing.  The panels of the
    file manager mc.c, its menus and its prompts; of its editor, the drawing.  The interrupt
    character of a connection in the theorem about two machines. *)
From stdpp Require Import base list numbers option gmap strings.
Local Open Scope Z_scope.

(** ** Fixed-width integers

    [uint64], [uint32], [uint16] and [uint8] values are [Z] in range;
    these are the C conversions to each width, and the two's complement
    conversions to [int] and [long]. *)
Definition u64 (z : Z) : Z := z mod 2 ^ 64.
Definition u32 (z : Z) : Z := z mod 2 ^ 32.
Definition u16 (z : Z) : Z := z mod 2 ^ 16.
Definition u8 (z : Z) : Z := z mod 2 ^ 8.
Definition i32 (z : Z) : Z := (z + 2 ^ 31) mod 2 ^ 32 - 2 ^ 31.
Definition i64 (z : Z) : Z := (z + 2 ^ 63) mod 2 ^ 64 - 2 ^ 63.

(** ** Field update

    A C structure is a [Record]; [r <| f := v |>] is the assignment
    [r->f = v]. *)
Class Setter {R T : Type} (proj : R → T) := set_field : T → R → R.
Arguments set_field {R T} proj {_} _ _ /.
Declare Scope rvos_scope.
Delimit Scope rvos_scope with rvos.
Notation "r <| f := v |>" := (set_field f v r)
  (at level 1, left associativity, f at level 9, v at level 200,
   format "r  <| f  :=  v |>") : rvos_scope.
Open Scope rvos_scope.

(** ** Bounded search and array helpers

    [for (i = 0; i < n; i++) if (P(i)) return i;] *)
Fixpoint find_from (P : nat → bool) (i n : nat) : option nat :=
  match n with
  | O => None
  | S n' => if P i then Some i else find_from P (S i) n'
  end.

(** A C string: the bytes before the first NUL of a buffer. *)
Fixpoint cstr (b : list Z) : list Z :=
  match b with
  | [] => []
  | c :: b' => if c =? 0 then [] else c :: cstr b'
  end.

(** The bytes of a string literal. *)
Export String.StringSyntax.
Definition str (s : string) : list Z :=
  (λ c, Z.of_nat (Ascii.nat_of_ascii c)) <$> String.list_ascii_of_string s.
#[global] Arguments str s%_string_scope.

(** ** Programs

    Code that keeps state and may loop for ever or fault is a [prog]: from
    the state to a result and a new state, or to [None] when it does not
    return. *)
Definition prog (S A : Type) : Type := S → option (A * S).
Definition pret {S A} (a : A) : prog S A := λ s, Some (a, s).
Definition pbind {S A B} (m : prog S A) (k : A → prog S B) : prog S B :=
  λ s, match m s with Some (a, s') => k a s' | None => None end.
Definition diverge {S A} : prog S A := λ _, None.
Definition gets {S A} (f : S → A) : prog S A := λ s, Some (f s, s).
Definition modify {S} (f : S → S) : prog S () := λ s, Some ((), f s).
Notation "'let*' x ':=' m 'in' k" := (pbind m (λ x, k))
  (at level 10, x pattern, m at level 100, k at level 200) : rvos_scope.

(** ** Tactics *)

(** Split every boolean test and every [match] of the goal. *)
Ltac split_ifs :=
  repeat match goal with
         | |- context [if ?b then _ else _] =>
             let E := fresh "E" in destruct b eqn:E
         end.

(** Close a goal about integers once the [mod] and [/] in it have been
    turned into their defining inequations. *)
Ltac zdiv := Z.div_mod_to_equations; nia.
Ltac ldiv := Z.div_mod_to_equations; lia.

(** Decide a closed statement about integers by evaluation. *)
Ltac by_compute := vm_compute; intuition congruence.

Create HintDb word discriminated.
Create Rewrite HintDb word.
Create HintDb rvos discriminated.

(** ** Lemmas on machine integers *)

Lemma u64_range z : 0 ≤ u64 z < 2 ^ 64.
Proof. apply Z.mod_pos_bound. lia. Qed.
Lemma u32_range z : 0 ≤ u32 z < 2 ^ 32.
Proof. apply Z.mod_pos_bound. lia. Qed.
Lemma u16_range z : 0 ≤ u16 z < 2 ^ 16.
Proof. apply Z.mod_pos_bound. lia. Qed.
Lemma u8_range z : 0 ≤ u8 z < 2 ^ 8.
Proof. apply Z.mod_pos_bound. lia. Qed.
Lemma i32_range z : - 2 ^ 31 ≤ i32 z < 2 ^ 31.
Proof. unfold i32. pose proof (Z.mod_pos_bound (z + 2 ^ 31) (2 ^ 32)). lia. Qed.

Lemma u64_small z : 0 ≤ z < 2 ^ 64 → u64 z = z.
Proof. apply Z.mod_small. Qed.
Lemma u32_small z : 0 ≤ z < 2 ^ 32 → u32 z = z.
Proof. apply Z.mod_small. Qed.
Lemma u16_small z : 0 ≤ z < 2 ^ 16 → u16 z = z.
Proof. apply Z.mod_small. Qed.
Lemma u8_small z : 0 ≤ z < 2 ^ 8 → u8 z = z.
Proof. apply Z.mod_small. Qed.
Lemma i32_small z : - 2 ^ 31 ≤ z < 2 ^ 31 → i32 z = z.
Proof. intros. unfold i32. rewrite Z.mod_small; lia. Qed.
Lemma i64_small z : - 2 ^ 63 ≤ z < 2 ^ 63 → i64 z = z.
Proof. intros. unfold i64. rewrite Z.mod_small; lia. Qed.
Lemma i32_u32 z : i32 (u32 z) = i32 z.
Proof. unfold i32, u32. rewrite Zplus_mod_idemp_l. done. Qed.
Lemma i32_u64 z : i32 (u64 z) = i32 z.
Proof.
  unfold i32, u64. f_equal.
  rewrite (Z.div_mod z (2 ^ 64)) at 2 by lia.
  replace (2 ^ 64 * (z / 2 ^ 64) + z mod 2 ^ 64 + 2 ^ 31)
    with (z mod 2 ^ 64 + 2 ^ 31 + (2 ^ 32 * (z / 2 ^ 64)) * 2 ^ 32) by lia.
  by rewrite Z_mod_plus_full.
Qed.
#[export] Hint Resolve u64_range u32_range u16_range u8_range i32_range : word.
#[export] Hint Rewrite u64_small u32_small u16_small u8_small i32_small using lia : word.

(** ** Bounded search *)

Lemma find_from_Some P i n j :
  find_from P i n = Some j →
  (i ≤ j < i + n)%nat ∧ P j = true ∧ ∀ x, (i ≤ x < j)%nat → P x = false.
Proof.
  revert i. induction n as [|n IH]; intros i; [done|]. cbn [find_from].
  destruct (P i) eqn:E.
  - intros [= <-]. split_and!; [lia|lia|done|intros; lia].
  - intros (? & ? & Hx)%IH. split_and!; [lia|lia|done|]. intros x Hlt.
    destruct (decide (x = i)) as [->|]; [done|]. apply Hx. lia.
Qed.
Lemma find_from_None P i n : find_from P i n = None → ∀ x, (i ≤ x < i + n)%nat → P x = false.
Proof.
  revert i. induction n as [|n IH]; intros i; [intros; lia|]. cbn [find_from].
  destruct (P i) eqn:E; [done|]. intros Hn x Hx. destruct (decide (x = i)) as [->|]; [done|].
  apply (IH (S i) Hn). lia.
Qed.
Lemma find_from_is P a n k : (a ≤ k < a + n)%nat → P k = true → (∀ m, (a ≤ m < k)%nat → P m = false) → find_from P a n = Some k.
Proof.
  revert a. induction n as [|n IH]; intros a Hk HP Hm; [lia|]. cbn [find_from].
  destruct (Nat.eq_dec a k) as [->|Hne]; [by rewrite HP|]. rewrite (Hm a) by lia. apply IH; [lia|done|]. intros m ?. apply Hm. lia.
Qed.

(** ** Laws of programs *)

Lemma pbind_assoc {S A B C} (m : prog S A) (k : A → prog S B) (h : B → prog S C) s :
  (let* x := m in let* y := k x in h y) s = (let* y := (let* x := m in k x) in h y) s.
Proof. unfold pbind. by destruct (m s) as [[a s1]|]. Qed.
Lemma pbind_eq {S A B} (m : prog S A) (k : A → prog S B) s a s' :
  m s = Some (a, s') → pbind m k s = k a s'.
Proof. unfold pbind. by intros ->. Qed.

(** [wp m Q s]: run from [s], [m] returns, and [Q] holds of the result and
    of the state it leaves. *)
Definition wp {S A} (m : prog S A) (Q : A → S → Prop) (s : S) : Prop :=
  match m s with Some (a, s') => Q a s' | None => False end.
Lemma wp_bind {S A B} (m : prog S A) (k : A → prog S B) Q s :
  wp m (λ a, wp (k a) Q) s → wp (pbind m k) Q s.
Proof. unfold wp, pbind. by destruct (m s) as [[a s']|]. Qed.
Lemma wp_unbind {S A B} (m : prog S A) (k : A → prog S B) Q s :
  wp (pbind m k) Q s → wp m (λ a, wp (k a) Q) s.
Proof. unfold wp, pbind. by destruct (m s) as [[a s']|]. Qed.
Lemma wp_ret {S A} (a : A) (Q : A → S → Prop) s : Q a s → wp (pret a) Q s.
Proof. done. Qed.
Lemma wp_gets {S A} (f : S → A) (Q : A → S → Prop) s : Q (f s) s → wp (gets f) Q s.
Proof. done. Qed.
Lemma wp_modify {S} (f : S → S) (Q : () → S → Prop) s : Q () (f s) → wp (modify f) Q s.
Proof. done. Qed.
Lemma wp_mono {S A} (m : prog S A) (Q R : A → S → Prop) s :
  wp m Q s → (∀ a s', Q a s' → R a s') → wp m R s.
Proof. unfold wp. destruct (m s) as [[a s']|]; auto. Qed.
Lemma wp_run {S A} (m : prog S A) Q s : wp m Q s → ∃ a s', m s = Some (a, s') ∧ Q a s'.
Proof. unfold wp. destruct (m s) as [[a s']|]; [by exists a, s'|done]. Qed.
Lemma run_wp {S A} (m : prog S A) (Q : A → S → Prop) s a s' : m s = Some (a, s') → Q a s' → wp m Q s.
Proof. unfold wp. by intros ->. Qed.

(** Masks and shifts as arithmetic. *)
Lemma land_mask a k : 0 ≤ k → Z.land a (2 ^ k - 1) = a mod 2 ^ k.
Proof. intros. rewrite <- Z.land_ones by lia. f_equal. rewrite Z.ones_equiv. lia. Qed.

(** [x & ~(2^k - 1)], in 64 bits. *)
Lemma land_lnot_mask a k :
  0 ≤ k → Z.land a (Z.lnot (2 ^ k - 1)) = a / 2 ^ k * 2 ^ k.
Proof.
  intros. rewrite <- Z.shiftr_div_pow2, <- Z.shiftl_mul_pow2 by lia.
  replace (2 ^ k - 1) with (Z.ones k) by (rewrite Z.ones_equiv; lia).
  rewrite <- Z.ldiff_land. by apply Z.ldiff_ones_r.
Qed.

(** A bitwise or of a multiple of [2^k] with a value below [2^k]. *)
Lemma lor_disjoint a b k :
  0 ≤ k → 0 ≤ b < 2 ^ k → Z.lor (a * 2 ^ k) b = a * 2 ^ k + b.
Proof.
  intros Hk Hb.
  assert (Z.land (a * 2 ^ k) b = 0) as H0.
  { apply Z.bits_inj'. intros n Hn. rewrite Z.land_spec, Z.bits_0.
    destruct (decide (n < k)).
    - by rewrite Z.mul_pow2_bits_low by lia.
    - rewrite <- (Z.mod_small b (2 ^ k)) by lia.
      rewrite Z.mod_pow2_bits_high by lia. apply andb_false_r. }
  pose proof (Z.add_lor_land (a * 2 ^ k) b). lia.
Qed.

Lemma lor_bound a b k :
  0 ≤ k → 0 ≤ a < 2 ^ k → 0 ≤ b < 2 ^ k → 0 ≤ Z.lor a b < 2 ^ k.
Proof.
  intros Hk Ha Hb. assert (Z.lor a b = Z.lor a b mod 2 ^ k) as ->.
  { rewrite <- (Z.land_ones (Z.lor a b)), Z.land_lor_distr_l, !Z.land_ones by lia.
    by rewrite !Z.mod_small. }
  apply Z.mod_pos_bound. lia.
Qed.
