(* ===== verification/Mem.v ===== *)
(** * Physical memory and the freestanding C library (src/src/util.c)

    Physical memory is a finite map from byte addresses to bytes; an
    address never written reads as zero.  [load_le] and [store_le] are
    the little-endian accesses the C compiler emits for a word, and the
    functions of util.c are the loops of the source over that memory. *)
From stdpp Require Import base list numbers option gmap.
From S2P Require Import Prelude.
Local Open Scope Z_scope.

Abbreviation memory := (gmap Z Z).

(** The byte at address [a]. *)
Definition rd8 (m : memory) (a : Z) : Z := default 0 (m !! a) mod 256.
(** Storing the low byte of [v] at address [a]. *)
Definition wr8 (m : memory) (a v : Z) : memory := <[a := v mod 256]> m.

(** An [n]-byte little-endian load and store. *)
Fixpoint load_le (n : nat) (m : memory) (a : Z) : Z :=
  match n with
  | O => 0
  | S n' => rd8 m a + 256 * load_le n' m (a + 1)
  end.
Fixpoint store_le (n : nat) (m : memory) (a v : Z) : memory :=
  match n with
  | O => m
  | S n' => store_le n' (wr8 m a v) (a + 1) (v / 256)
  end.
Definition load64 : memory → Z → Z := load_le 8.
Definition store64 : memory → Z → Z → memory := store_le 8.
Definition load32 : memory → Z → Z := load_le 4.
Definition store32 : memory → Z → Z → memory := store_le 4.

(** A run of bytes. *)
Fixpoint store_bytes (m : memory) (a : Z) (l : list Z) : memory :=
  match l with
  | [] => m
  | b :: l' => store_bytes (wr8 m a b) (a + 1) l'
  end.
Definition load_bytes (m : memory) (a : Z) (n : nat) : list Z :=
  (λ i, rd8 m (a + Z.of_nat i)) <$> seq 0 n.

(** ** util.c *)

(** [while (n--) *d++ = *s++;] *)
Fixpoint memcpy_loop (m : memory) (d s : Z) (n : nat) : memory :=
  match n with
  | O => m
  | S n' => memcpy_loop (wr8 m d (rd8 m s)) (d + 1) (s + 1) n'
  end.
Definition memcpy (m : memory) (dst src n : Z) : memory :=
  memcpy_loop m dst src (Z.to_nat n).

Fixpoint memset_loop (m : memory) (d c : Z) (n : nat) : memory :=
  match n with
  | O => m
  | S n' => memset_loop (wr8 m d c) (d + 1) c n'
  end.
Definition memset (m : memory) (dst c n : Z) : memory :=
  memset_loop m dst c (Z.to_nat n).

(** The first difference decides; [0] when there is none. *)
Fixpoint memcmp_loop (m : memory) (a b : Z) (n : nat) : Z :=
  match n with
  | O => 0
  | S n' => if rd8 m a =? rd8 m b then memcmp_loop m (a + 1) (b + 1) n'
            else rd8 m a - rd8 m b
  end.
Definition memcmp (m : memory) (a b n : Z) : Z := memcmp_loop m a b (Z.to_nat n).

(** Strings held in a buffer. [strlen] counts up to the first NUL. *)
Fixpoint strlen (s : list Z) : Z :=
  match s with
  | [] => 0
  | c :: s' => if c =? 0 then 0 else 1 + strlen s'
  end.

(** Byte by byte up to and with the NUL of [src]: the terminator is copied too, and what
    lies behind it in [dst] stays. *)
Fixpoint strcpy (dst src : list Z) : list Z :=
  match dst, src with
  | _ :: dst', c :: src' => if c =? 0 then 0 :: dst' else c :: strcpy dst' src'
  | _ :: dst', [] => 0 :: dst'
  | [], _ => []
  end.

Fixpoint str_has_prefix (s p : list Z) : bool :=
  match p with
  | [] => true
  | c :: p' =>
      match s with
      | [] => false
      | d :: s' => if d =? c then str_has_prefix s' p' else false
      end
  end.

(** Both number formatters fill [tmp] backwards and then reverse it;
    [tmp] has 24 places. *)
Definition TMP_SIZE : nat := 24.
Fixpoint utoa_tmp (room : nat) (v : Z) : list Z :=
  match room with
  | O => []
  | S room' => if v =? 0 then [] else (48 + v mod 10) :: utoa_tmp room' (v / 10)
  end.
Definition utoa (v : Z) : list Z :=
  if v =? 0 then [48] else rev (utoa_tmp TMP_SIZE v).

Definition hexdigit (d : Z) : Z := if d <? 10 then 48 + d else 87 + d.
Fixpoint xtoa_tmp (room : nat) (v : Z) : list Z :=
  match room with
  | O => []
  | S room' => if v =? 0 then []
               else hexdigit (Z.land v 15) :: xtoa_tmp room' (Z.shiftr v 4)
  end.
Definition xtoa (v : Z) : list Z :=
  if v =? 0 then [48] else rev (xtoa_tmp TMP_SIZE v).

(** ** Laws of the memory *)

Lemma rd8_range m a : 0 ≤ rd8 m a < 256.
Proof. apply Z.mod_pos_bound. lia. Qed.
#[export] Hint Resolve rd8_range : word.

Lemma rd8_wr8 m a v b : rd8 (wr8 m a v) b = if decide (a = b) then v mod 256 else rd8 m b.
Proof.
  unfold rd8, wr8. destruct (decide (a = b)) as [->|Hne].
  - rewrite lookup_insert_eq. simpl. by rewrite Zmod_mod.
  - by rewrite lookup_insert_ne.
Qed.
Lemma rd8_wr8_eq m a v : rd8 (wr8 m a v) a = v mod 256.
Proof. rewrite rd8_wr8. by destruct (decide _). Qed.
Lemma rd8_wr8_ne m a v b : a ≠ b → rd8 (wr8 m a v) b = rd8 m b.
Proof. intros. rewrite rd8_wr8. by destruct (decide _). Qed.

Lemma load_le_range n m a : 0 ≤ load_le n m a < 256 ^ Z.of_nat n.
Proof.
  revert a. induction n as [|n IH]; intros a; [simpl; lia|].
  rewrite Nat2Z.inj_succ, Z.pow_succ_r by lia. cbn [load_le].
  specialize (IH (a + 1)). pose proof (rd8_range m a). lia.
Qed.
Lemma load64_range m a : 0 ≤ load64 m a < 2 ^ 64.
Proof. exact (load_le_range 8 m a). Qed.
#[export] Hint Resolve load64_range : word.

Lemma load_le_ext n m m' a :
  (∀ x, a ≤ x < a + Z.of_nat n → rd8 m x = rd8 m' x) → load_le n m a = load_le n m' a.
Proof.
  revert a. induction n as [|n IH]; intros a H; [done|]. cbn [load_le].
  rewrite (H a) by lia. f_equal. f_equal. apply IH. intros. apply H. lia.
Qed.

Lemma rd8_store_le n m a v x :
  ¬ (a ≤ x < a + Z.of_nat n) → rd8 (store_le n m a v) x = rd8 m x.
Proof.
  revert m a v. induction n as [|n IH]; intros m a v H; [done|]. cbn [store_le].
  rewrite IH by lia. apply rd8_wr8_ne. lia.
Qed.

Lemma load_store_le n m a v : load_le n (store_le n m a v) a = v mod 256 ^ Z.of_nat n.
Proof.
  revert m a v. induction n as [|n IH]; intros m a v; [by rewrite Z.mod_1_r|].
  cbn [store_le load_le]. rewrite IH, rd8_store_le by lia.
  rewrite rd8_wr8_eq, Nat2Z.inj_succ, Z.pow_succ_r by lia.
  rewrite Z.rem_mul_r by lia. lia.
Qed.

Lemma load_store_le_ne n k m a v b :
  b + Z.of_nat n ≤ a ∨ a + Z.of_nat k ≤ b → load_le n (store_le k m a v) b = load_le n m b.
Proof. intros. apply load_le_ext. intros. apply rd8_store_le. lia. Qed.
Lemma load64_store64 m a v : 0 ≤ v < 2 ^ 64 → load64 (store64 m a v) a = v.
Proof.
  intros. unfold load64, store64. rewrite load_store_le.
  change (256 ^ Z.of_nat 8) with (2 ^ 64). by apply Z.mod_small.
Qed.
Lemma load64_store64_ne m a v b :
  b + 8 ≤ a ∨ a + 8 ≤ b → load64 (store64 m a v) b = load64 m b.
Proof. intros. apply load_le_ext. intros. apply rd8_store_le. lia. Qed.

Lemma rd8_store64 m a v x : ¬ (a ≤ x < a + 8) → rd8 (store64 m a v) x = rd8 m x.
Proof. intros. by apply rd8_store_le. Qed.

Lemma rd8_memset_loop m d c n x :
  rd8 (memset_loop m d c n) x =
    if decide (d ≤ x < d + Z.of_nat n) then c mod 256 else rd8 m x.
Proof.
  revert m d. induction n as [|n IH]; intros m d.
  - simpl. destruct (decide _); [lia|done].
  - cbn [memset_loop]. rewrite IH. rewrite rd8_wr8.
    repeat destruct (decide _); done || lia.
Qed.
Lemma rd8_memset m d c n x :
  rd8 (memset m d c n) x = if decide (d ≤ x < d + n) then c mod 256 else rd8 m x.
Proof.
  unfold memset. rewrite rd8_memset_loop.
  repeat destruct (decide _); done || lia.
Qed.
Lemma load64_memset_0 m d n a :
  d ≤ a → a + 8 ≤ d + n → load64 (memset m d 0 n) a = 0.
Proof.
  intros. transitivity (load64 (∅ : memory) a); [|done].
  apply load_le_ext. intros x Hx. rewrite rd8_memset. destruct (decide _); [done|lia].
Qed.
Lemma load64_memset_ne m d c n a :
  a + 8 ≤ d ∨ d + n ≤ a → load64 (memset m d c n) a = load64 m a.
Proof.
  intros. apply load_le_ext. intros x Hx. rewrite rd8_memset.
  destruct (decide _); [lia|done].
Qed.

Lemma rd8_memcpy_loop_out m d s n x :
  ¬ (d ≤ x < d + Z.of_nat n) → rd8 (memcpy_loop m d s n) x = rd8 m x.
Proof.
  revert m d s. induction n as [|n IH]; intros m d s H; [done|]. cbn [memcpy_loop].
  rewrite IH by lia. apply rd8_wr8_ne. lia.
Qed.
Lemma rd8_memcpy_loop_in m d s n i :
  (d + Z.of_nat n ≤ s ∨ s + Z.of_nat n ≤ d) → 0 ≤ i < Z.of_nat n →
  rd8 (memcpy_loop m d s n) (d + i) = rd8 m (s + i).
Proof.
  revert m d s i. induction n as [|n IH]; intros m d s i Hd Hi; [lia|].
  cbn [memcpy_loop]. destruct (decide (i = 0)) as [->|].
  - rewrite rd8_memcpy_loop_out by lia. rewrite !Z.add_0_r, rd8_wr8_eq.
    apply Z.mod_small, rd8_range.
  - replace (d + i) with (d + 1 + (i - 1)) by lia. rewrite IH by lia.
    rewrite rd8_wr8_ne by lia. f_equal. lia.
Qed.
