(* ===== verification/Riscv.v ===== *)
(** * Machine constants and Sv39 bit fields (src/src/riscv.h)

    The macros of riscv.h as functions on 64-bit values, and their
    arithmetic: a page-table index is nine bits of the address, a PTE
    carries a page number above ten flag bits. *)
From stdpp Require Import base list numbers option.
From S2P Require Import Prelude.
Local Open Scope Z_scope.

Definition PGSIZE : Z := 4096.
Definition PGSHIFT : Z := 12.
Definition PGROUNDUP (a : Z) : Z := Z.land (u64 (a + PGSIZE - 1)) (Z.lnot (PGSIZE - 1)).
Definition PGROUNDDOWN (a : Z) : Z := Z.land a (Z.lnot (PGSIZE - 1)).

Definition PTE_V : Z := Z.shiftl 1 0.
Definition PTE_R : Z := Z.shiftl 1 1.
Definition PTE_W : Z := Z.shiftl 1 2.
Definition PTE_X : Z := Z.shiftl 1 3.
Definition PTE_U : Z := Z.shiftl 1 4.
Definition PTE_G : Z := Z.shiftl 1 5.
Definition PTE_A : Z := Z.shiftl 1 6.
Definition PTE_D : Z := Z.shiftl 1 7.

(** [((uint64)pa >> 12) << 10] and back. *)
Definition PA2PTE (pa : Z) : Z := u64 (Z.shiftl (Z.shiftr pa 12) 10).
Definition PTE2PA (pte : Z) : Z := u64 (Z.shiftl (Z.shiftr pte 10) 12).
Definition PTE_IS_LEAF (pte : Z) : bool :=
  negb (Z.land pte (Z.lor PTE_R (Z.lor PTE_W PTE_X)) =? 0).
(** The test [pte & PTE_V]. *)
Definition PTE_VALID (pte : Z) : bool := negb (Z.land pte PTE_V =? 0).

(** The index of [va] in the table at [level]. *)
Definition PX (level va : Z) : Z := Z.land (Z.shiftr va (PGSHIFT + 9 * level)) 511.

Definition SATP_SV39 : Z := Z.shiftl 8 60.
Definition MAKE_SATP (pt : Z) : Z := Z.lor SATP_SV39 (Z.shiftr pt 12).

Definition CLINT_BASE : Z := 0x02000000.
Definition UART_BASE_PA : Z := 0x10000000.
Definition PLIC_BASE_PA : Z := 0x0c000000.
Definition PLIC_SIZE : Z := 0x400000.
Definition DMA_BASE : Z := 0x40000000.
Definition USTACK_TOP : Z := 0x30000000.
Definition USTACK_PAGES : Z := 4.
Definition UHEAP_BASE : Z := 0x28000000.
Definition UHEAP_TOP : Z := 0x2f000000.
Definition RAM_BASE : Z := 0x80000000.
Definition RAM_TOP : Z := 0x88000000.
Definition PMM_TOP : Z := 0x83000000.

Definition SSTATUS_SPIE : Z := Z.shiftl 1 5.
Definition SSTATUS_SPP : Z := Z.shiftl 1 8.

(** ** Arithmetic of the macros *)

Definition page_aligned (p : Z) : Prop := p mod PGSIZE = 0.

Lemma PGROUNDUP_eq a :
  0 ≤ a < 2 ^ 64 - PGSIZE → PGROUNDUP a = (a + PGSIZE - 1) / PGSIZE * PGSIZE.
Proof.
  intros. unfold PGROUNDUP. change (PGSIZE - 1) with (2 ^ 12 - 1).
  rewrite land_lnot_mask, u64_small by (unfold PGSIZE in *; lia). done.
Qed.
Lemma PGROUNDDOWN_eq a : PGROUNDDOWN a = a / PGSIZE * PGSIZE.
Proof. unfold PGROUNDDOWN. change (PGSIZE - 1) with (2 ^ 12 - 1). by rewrite land_lnot_mask. Qed.
Lemma PGROUNDUP_bounds a :
  0 ≤ a < 2 ^ 64 - PGSIZE →
  a ≤ PGROUNDUP a < a + PGSIZE ∧ PGROUNDUP a mod PGSIZE = 0.
Proof.
  intros. rewrite PGROUNDUP_eq by done. unfold PGSIZE in *.
  split; [ldiv|by apply Z_mod_mult].
Qed.
Lemma PGROUNDDOWN_bounds a :
  PGROUNDDOWN a ≤ a < PGROUNDDOWN a + PGSIZE ∧ PGROUNDDOWN a mod PGSIZE = 0.
Proof. rewrite PGROUNDDOWN_eq. unfold PGSIZE. split; [ldiv|by apply Z_mod_mult]. Qed.

Lemma PX_eq level va : 0 ≤ level → PX level va = va / 2 ^ (12 + 9 * level) mod 512.
Proof.
  intros. unfold PX, PGSHIFT. rewrite Z.shiftr_div_pow2 by lia.
  exact (land_mask _ 9 ltac:(lia)).
Qed.
Lemma PX_range level va : 0 ≤ level → 0 ≤ PX level va < 512.
Proof. intros. rewrite PX_eq by done. apply Z.mod_pos_bound. lia. Qed.

Lemma PA2PTE_eq pa : 0 ≤ pa < 2 ^ 64 → PA2PTE pa = pa / 4096 * 1024.
Proof.
  intros. unfold PA2PTE. rewrite Z.shiftl_mul_pow2, Z.shiftr_div_pow2 by lia.
  apply u64_small. ldiv.
Qed.
Lemma PTE2PA_eq pte : 0 ≤ pte < 2 ^ 62 → PTE2PA pte = pte / 1024 * 4096.
Proof.
  intros. unfold PTE2PA. rewrite Z.shiftl_mul_pow2, Z.shiftr_div_pow2 by lia.
  apply u64_small. ldiv.
Qed.

(** A PTE built from a page address and flags gives both back. *)
Lemma pte_build pa fl :
  0 ≤ pa < 2 ^ 56 → page_aligned pa → 0 ≤ fl < 1024 →
  Z.lor (PA2PTE pa) fl = pa / 4096 * 1024 + fl.
Proof.
  intros Hpa _ Hfl. rewrite PA2PTE_eq by lia. by apply (lor_disjoint _ _ 10).
Qed.
Lemma PTE2PA_build pa fl :
  0 ≤ pa < 2 ^ 56 → page_aligned pa → 0 ≤ fl < 1024 →
  PTE2PA (Z.lor (PA2PTE pa) fl) = pa.
Proof.
  intros Hpa Hal Hfl. rewrite pte_build by done. unfold page_aligned, PGSIZE in Hal.
  rewrite PTE2PA_eq by ldiv. ldiv.
Qed.
Lemma pte_flag pa fl k :
  0 ≤ pa < 2 ^ 56 → page_aligned pa → 0 ≤ fl < 1024 → 0 ≤ k < 1024 →
  Z.land (Z.lor (PA2PTE pa) fl) k = Z.land fl k.
Proof.
  intros Hpa Hal Hfl Hk. rewrite PA2PTE_eq by lia.
  rewrite Z.land_lor_distr_l.
  assert (Z.land (pa / 4096 * 1024) k = 0) as ->; [|apply Z.lor_0_l].
  apply Z.bits_inj'. intros n Hn. rewrite Z.land_spec, Z.bits_0.
  change 1024 with (2 ^ 10). destruct (decide (n < 10)).
  - by rewrite Z.mul_pow2_bits_low by lia.
  - rewrite <- (Z.mod_small k (2 ^ 10)) by lia.
    rewrite Z.mod_pow2_bits_high by lia. apply andb_false_r.
Qed.
Lemma pte_valid_build pa fl :
  0 ≤ pa < 2 ^ 56 → page_aligned pa → 0 ≤ fl < 1024 →
  PTE_VALID (Z.lor (PA2PTE pa) fl) = PTE_VALID fl.
Proof. intros. unfold PTE_VALID. by rewrite pte_flag. Qed.
Lemma pte_leaf_build pa fl :
  0 ≤ pa < 2 ^ 56 → page_aligned pa → 0 ≤ fl < 1024 →
  PTE_IS_LEAF (Z.lor (PA2PTE pa) fl) = PTE_IS_LEAF fl.
Proof. intros. unfold PTE_IS_LEAF. by rewrite pte_flag. Qed.
