(* ===== verification/Pmm.v ===== *)
(** * The physical page allocator (src/src/pmm.c)

    Free pages form a list threaded through their own first words.  The
    allocator's state is its three static variables together with the
    memory that holds the links.  [PageSource] is what it promises to its
    clients; the theorems show that the code keeps that promise for the
    list of free pages as abstract state. *)
From stdpp Require Import base list numbers option gmap.
From S2P Require Import Prelude Mem Riscv.
Local Open Scope Z_scope.

(** Memory, [freelist], [nfree], [ntotal]. *)
Record pmm := mkPmm { mem : memory; freelist : Z; nfree : Z; ntotal : Z }.
#[export] Instance set_mem : Setter mem := λ v s, mkPmm v (freelist s) (nfree s) (ntotal s).
#[export] Instance set_freelist : Setter freelist := λ v s, mkPmm (mem s) v (nfree s) (ntotal s).
#[export] Instance set_nfree : Setter nfree := λ v s, mkPmm (mem s) (freelist s) v (ntotal s).
#[export] Instance set_ntotal : Setter ntotal := λ v s, mkPmm (mem s) (freelist s) (nfree s) v.

Arguments set_mem _ _ /.
Arguments set_freelist _ _ /.
Arguments set_nfree _ _ /.
Arguments set_ntotal _ _ /.

(** [p % PGSIZE || p < RAM_BASE || p >= PMM_TOP] *)
Definition pmm_refuses (p : Z) : bool :=
  negb (p mod PGSIZE =? 0) || (p <? RAM_BASE) || (PMM_TOP <=? p).

Definition pmm_free (page : Z) (s : pmm) : pmm :=
  if pmm_refuses page then s
  else s <| mem := store64 (mem s) page (freelist s) |>
         <| freelist := page |>
         <| nfree := nfree s + 1 |>.

Fixpoint pmm_init_loop (fuel : nat) (p : Z) (s : pmm) : pmm :=
  match fuel with
  | O => s
  | S fuel' =>
      if p + PGSIZE <=? PMM_TOP
      then let s1 := pmm_free p s in
           pmm_init_loop fuel' (p + PGSIZE) (s1 <| ntotal := ntotal s1 + 1 |>)
      else s
  end.
(** [_end] is the first byte past the kernel image, set by the linker. *)
Definition pmm_init (_end : Z) (s : pmm) : pmm :=
  pmm_init_loop (Z.to_nat (PMM_TOP / PGSIZE)) (PGROUNDUP _end) s.

Definition pmm_alloc (s : pmm) : Z * pmm :=
  let r := freelist s in
  if r =? 0 then (0, s)
  else let s1 := s <| freelist := load64 (mem s) r |> in
       let s2 := s1 <| nfree := nfree s1 - 1 |> in
       (r, s2 <| mem := memset (mem s2) r 0 PGSIZE |>).

Definition pmm_free_count (s : pmm) : Z := nfree s.
Definition pmm_total_count (s : pmm) : Z := ntotal s.

(** ** The promise to clients *)

(** A page the allocator may hand out. *)
Definition arena_page (p : Z) : Prop := page_aligned p ∧ RAM_BASE ≤ p < PMM_TOP.

(** Two memories that agree outside one page. *)
Definition same_outside (p : Z) (m m' : memory) : Prop :=
  ∀ a, ¬ (p ≤ a < p + PGSIZE) → rd8 m' a = rd8 m a.

(** [rep s l]: state [s] holds exactly the free pages [l]. *)
Class PageSource (alloc : pmm → Z * pmm) (free : Z → pmm → pmm)
    (rep : pmm → list Z → Prop) := {
  ps_pages : ∀ s l, rep s l → NoDup l ∧ Forall arena_page l;
  ps_empty : ∀ s, rep s [] → alloc s = (0, s);
  ps_alloc : ∀ s p l, rep s (p :: l) →
    ∃ s', alloc s = (p, s') ∧ rep s' l ∧ same_outside p (mem s) (mem s') ∧
          ∀ a, p ≤ a < p + PGSIZE → rd8 (mem s') a = 0;
  ps_free : ∀ s p l, rep s l → arena_page p → p ∉ l →
    rep (free p s) (p :: l) ∧ same_outside p (mem s) (mem (free p s));
  ps_refuse : ∀ s p, ¬ arena_page p → free p s = s;
  ps_frame : ∀ s m l, rep s l →
    (∀ p a, p ∈ l → p ≤ a < p + PGSIZE → rd8 m a = rd8 (mem s) a) →
    rep (s <| mem := m |>) l }.

(** ** The linked list in memory *)

Fixpoint chain (m : memory) (head : Z) (l : list Z) : Prop :=
  match l with
  | [] => head = 0
  | p :: l' => head = p ∧ chain m (load64 m p) l'
  end.

Definition pmm_rep (s : pmm) (l : list Z) : Prop :=
  chain (mem s) (freelist s) l ∧ NoDup l ∧ Forall arena_page l ∧
  nfree s = Z.of_nat (length l).

Lemma arena_nonzero p : arena_page p → p ≠ 0.
Proof. unfold arena_page, RAM_BASE. lia. Qed.
Lemma arena_disjoint p q :
  arena_page p → arena_page q → p ≠ q → p + PGSIZE ≤ q ∨ q + PGSIZE ≤ p.
Proof. unfold arena_page, page_aligned, PGSIZE, RAM_BASE. intros. ldiv. Qed.
Lemma pmm_refuses_spec p : pmm_refuses p = false ↔ arena_page p.
Proof. unfold pmm_refuses, arena_page, page_aligned. lia. Qed.

Lemma chain_ext m m' h l :
  (∀ p, p ∈ l → load64 m p = load64 m' p) → chain m h l → chain m' h l.
Proof.
  revert h. induction l as [|p l IH]; intros h H; [done|]. intros [-> Hc].
  split; [done|]. rewrite <- (H p) by set_solver. apply IH; [set_solver|done].
Qed.

Lemma load64_agree m m' a :
  (∀ x, a ≤ x < a + 8 → rd8 m x = rd8 m' x) → load64 m a = load64 m' a.
Proof. intros H. by apply load_le_ext. Qed.

(** The code implements the interface. *)
Lemma pmm_rep_frame s m l :
  pmm_rep s l →
  (∀ p a, p ∈ l → p ≤ a < p + PGSIZE → rd8 m a = rd8 (mem s) a) →
  pmm_rep (s <| mem := m |>) l.
Proof.
  intros (Hc & Hnd & Har & Hn) H. split_and!; try done.
  eapply chain_ext; [|exact Hc]. intros p Hp. apply load64_agree. intros x Hx.
  symmetry. eapply H; [done|]. unfold PGSIZE. lia.
Qed.

Lemma pmm_alloc_rep s p l :
  pmm_rep s (p :: l) →
  ∃ s', pmm_alloc s = (p, s') ∧ pmm_rep s' l ∧ same_outside p (mem s) (mem s') ∧
        ∀ a, p ≤ a < p + PGSIZE → rd8 (mem s') a = 0.
Proof.
  intros ([Hh Hc] & Hnd & Har & Hn). subst p. inversion Har as [|? ? Hp Hl]; subst.
  inversion Hnd as [|? ? Hnotin Hnd']; subst.
  unfold pmm_alloc. rewrite (proj2 (Z.eqb_neq _ _)) by (by apply arena_nonzero).
  eexists. split; [done|]. unfold pmm_rep. simpl. split_and!.
  - eapply chain_ext; [|exact Hc]. intros q Hq. symmetry. apply load64_memset_ne.
    assert (arena_page q) by (by eapply Forall_forall).
    destruct (arena_disjoint (freelist s) q); unfold PGSIZE in *; [done..|set_solver|lia|lia].
  - done.
  - done.
  - simpl in Hn. lia.
  - intros a Ha. rewrite rd8_memset. by destruct (decide _).
  - intros a Ha. rewrite rd8_memset. by destruct (decide _).
Qed.

Lemma pmm_free_rep s p l :
  pmm_rep s l → arena_page p → p ∉ l →
  pmm_rep (pmm_free p s) (p :: l) ∧ same_outside p (mem s) (mem (pmm_free p s)).
Proof.
  intros (Hc & Hnd & Har & Hn) Hp Hnotin. unfold pmm_free.
  rewrite (proj2 (pmm_refuses_spec p)) by done. simpl.
  assert (0 ≤ freelist s < 2 ^ 64) as Hfl.
  { destruct l as [|q l]; simpl in Hc; [lia|]. destruct Hc as [Hh _].
    inversion Har as [|? ? [_ Hq] _]; subst. unfold RAM_BASE, PMM_TOP in Hq. lia. }
  unfold pmm_rep. simpl. split_and!.
  - done.
  - simpl. rewrite load64_store64 by done. eapply chain_ext; [|exact Hc].
    intros q Hq. symmetry. apply load64_store64_ne.
    assert (arena_page q) by (by eapply Forall_forall).
    destruct (arena_disjoint p q); unfold PGSIZE in *; [done..|set_solver|lia|lia].
  - by constructor.
  - by constructor.
  - simpl. lia.
  - intros a Ha. simpl. apply rd8_store_le. unfold PGSIZE in *. lia.
Qed.

#[export] Instance pmm_page_source : PageSource pmm_alloc pmm_free pmm_rep.
Proof.
  split.
  - by intros s l (_ & ? & ? & _).
  - intros s (Hc & _). simpl in Hc. unfold pmm_alloc. by rewrite Hc.
  - apply pmm_alloc_rep.
  - apply pmm_free_rep.
  - intros s p Hp. unfold pmm_free. destruct (pmm_refuses p) eqn:E; [done|].
    by apply pmm_refuses_spec in E.
  - apply pmm_rep_frame.
Qed.

(** ** Boot *)

(** The pages from [p] upwards, in the order [pmm_init] frees them. *)
Definition arena_from (p : Z) : list Z :=
  (λ i, p + Z.of_nat i * PGSIZE) <$> seq 0 (Z.to_nat ((PMM_TOP - p) / PGSIZE)).

Lemma arena_from_nil p : PMM_TOP < p + PGSIZE → arena_from p = [].
Proof.
  intros. unfold arena_from, PGSIZE in *.
  assert ((PMM_TOP - p) / 4096 ≤ 0) by ldiv.
  by replace (Z.to_nat ((PMM_TOP - p) / 4096)) with O by lia.
Qed.
Lemma arena_from_cons p :
  p + PGSIZE ≤ PMM_TOP → arena_from p = p :: arena_from (p + PGSIZE).
Proof.
  intros. unfold arena_from.
  replace (Z.to_nat ((PMM_TOP - p) / PGSIZE))
    with (S (Z.to_nat ((PMM_TOP - (p + PGSIZE)) / PGSIZE)))
    by (unfold PGSIZE in *; ldiv).
  cbn [seq fmap list_fmap]. f_equal; [lia|].
  rewrite <- fmap_S_seq, <- list_fmap_compose. apply list_fmap_ext. intros. simpl. lia.
Qed.
Lemma elem_of_arena_from p q :
  arena_page p → q ∈ arena_from p ↔ arena_page q ∧ p ≤ q.
Proof.
  unfold arena_from, arena_page, page_aligned, PGSIZE, RAM_BASE, PMM_TOP. intros [Hp Hr].
  rewrite list_elem_of_fmap. split.
  - intros (i & -> & Hi%elem_of_seq). ldiv.
  - intros [[Hq Hqr] Hle]. exists (Z.to_nat ((q - p) / 4096)).
    rewrite elem_of_seq. ldiv.
Qed.

Lemma pmm_rep_ntotal s l n : pmm_rep s l → pmm_rep (s <| ntotal := n |>) l.
Proof. by destruct s. Qed.

Lemma pmm_init_loop_spec fuel p s l :
  page_aligned p → RAM_BASE ≤ p → (PMM_TOP - p) / PGSIZE ≤ Z.of_nat fuel →
  pmm_rep s l → Forall (λ q, q < p) l →
  pmm_rep (pmm_init_loop fuel p s) (reverse (arena_from p) ++ l) ∧
  ntotal (pmm_init_loop fuel p s) = ntotal s + Z.of_nat (length (arena_from p)).
Proof.
  revert p s l. induction fuel as [|fuel IH]; intros p s l Hal Hp Hf Hrep Hlt; simpl.
  { rewrite arena_from_nil by (unfold PGSIZE in *; ldiv). simpl. split; [done|lia]. }
  destruct (p + PGSIZE <=? PMM_TOP) eqn:E.
  - rewrite arena_from_cons by lia. rewrite reverse_cons, <- app_assoc. simpl.
    destruct (pmm_free_rep s p l) as [Hrep' _]; [done|..].
    { split; [done|]. unfold PGSIZE in *. lia. }
    { rewrite Forall_forall in Hlt. intros Hin. specialize (Hlt _ Hin). lia. }
    destruct (IH (p + PGSIZE) ((pmm_free p s) <| ntotal := ntotal (pmm_free p s) + 1 |>) (p :: l))
      as [H1 H2].
    + unfold page_aligned, PGSIZE in *. ldiv.
    + unfold PGSIZE. lia.
    + unfold PGSIZE in *. ldiv.
    + by apply pmm_rep_ntotal.
    + constructor; [unfold PGSIZE; lia|]. eapply Forall_impl; [done|].
      unfold PGSIZE. simpl. intros. lia.
    + split; [done|]. simpl in H2 |- *. rewrite H2.
      assert (ntotal (pmm_free p s) = ntotal s) as -> by (unfold pmm_free; by destruct (pmm_refuses p)).
      lia.
  - rewrite arena_from_nil by lia. simpl. split; [done|lia].
Qed.

(** The allocator before boot: the static variables are zero. *)
Definition pmm_zero (m : memory) : pmm := mkPmm m 0 0 0.

Lemma pmm_zero_rep m : pmm_rep (pmm_zero m) [].
Proof. split_and!; try done; constructor. Qed.

Lemma pmm_init_rep _end m :
  RAM_BASE ≤ _end ≤ PMM_TOP - PGSIZE →
  pmm_rep (pmm_init _end (pmm_zero m)) (reverse (arena_from (PGROUNDUP _end))) ∧
  ntotal (pmm_init _end (pmm_zero m)) = Z.of_nat (length (arena_from (PGROUNDUP _end))).
Proof.
  intros H. destruct (PGROUNDUP_bounds _end) as [Hb Hm].
  { unfold RAM_BASE, PMM_TOP, PGSIZE in *. lia. }
  destruct (pmm_init_loop_spec (Z.to_nat (PMM_TOP / PGSIZE)) (PGROUNDUP _end) (pmm_zero m) [])
    as [H1 H2].
  - done.
  - lia.
  - unfold RAM_BASE, PMM_TOP, PGSIZE in *. ldiv.
  - apply pmm_zero_rep.
  - constructor.
  - rewrite app_nil_r in H1. split; [exact H1|]. unfold pmm_init. rewrite H2. simpl. lia.
Qed.

(** ** Every history of the allocator

    A client may allocate at any time and may free a page it holds; the
    second component is the set of pages handed out and not yet freed. *)
Inductive pmm_step : pmm * gset Z → pmm * gset Z → Prop :=
| step_alloc s live p s' :
    pmm_alloc s = (p, s') → p ≠ 0 → pmm_step (s, live) (s', {[p]} ∪ live)
| step_alloc_fail s live s' :
    pmm_alloc s = (0, s') → pmm_step (s, live) (s', live)
| step_free s live p :
    p ∈ live → pmm_step (s, live) (pmm_free p s, live ∖ {[p]})
| step_free_bad s live p :
    ¬ arena_page p → pmm_step (s, live) (pmm_free p s, live).

(** What the free list and the live pages are to each other. *)
Definition pmm_conserved (all : list Z) (c : pmm * gset Z) : Prop :=
  ∃ l, pmm_rep c.1 l ∧ (∀ p, p ∈ l → p ∉ c.2) ∧
       (∀ p, p ∈ all ↔ p ∈ l ∨ p ∈ c.2) ∧
       nfree c.1 + Z.of_nat (size c.2) = Z.of_nat (length all).

Lemma pmm_conserved_step all c c' :
  Forall arena_page all → pmm_conserved all c → pmm_step c c' → pmm_conserved all c'.
Proof.
  intros Hall (l & Hrep & Hdis & Hcov & Hn) Hstep.
  destruct Hstep as [s live p s' Ha Hp|s live s' Ha|s live p Hin|s live p Hbad]; simpl in *.
  - destruct l as [|q l]; [rewrite ps_empty in Ha by done; congruence|].
    destruct (ps_alloc _ _ _ Hrep) as (s'' & Ha' & Hrep' & _).
    rewrite Ha' in Ha. injection Ha as <- <-.
    assert (nfree s'' = Z.of_nat (length l)) as Hlen' by apply Hrep'.
    destruct Hrep as (_ & Hnd & _ & Hlen).
    inversion Hnd; subst. exists l. split_and!.
    + done.
    + set_solver.
    + set_solver.
    + simpl. rewrite size_union by set_solver. rewrite size_singleton.
      simpl in Hlen. rewrite Hlen in Hn. lia.
  - destruct l as [|q l].
    + rewrite ps_empty in Ha by done. simplify_eq. by exists [].
    + destruct (ps_alloc _ _ _ Hrep) as (s'' & Ha' & _).
      rewrite Ha' in Ha. injection Ha as -> _.
      destruct (ps_pages _ _ Hrep) as [_ Har]. inversion Har as [|? ? Hz]; subst.
      by apply arena_nonzero in Hz.
  - assert (arena_page p) as Hap by (eapply Forall_forall; [done|]; set_solver).
    destruct (ps_free s p l) as [Hrep' _]; [done..|set_solver|].
    exists (p :: l). split_and!; [done|set_solver|..].
    + intros q. rewrite Hcov. destruct (decide (q = p)); set_solver.
    + simpl. unfold pmm_free. rewrite (proj2 (pmm_refuses_spec p)) by done. simpl.
      rewrite size_difference by set_solver. rewrite size_singleton.
      assert (size live ≠ 0)%nat by (apply size_non_empty_iff; set_solver). lia.
  - rewrite ps_refuse by done. by exists l.
Qed.

(** ** Theorems *)

(** C20: whatever sequence of allocations and frees the kernel makes after
    boot, a page is never handed out twice without being freed in
    between: the free list and the pages in use are disjoint, together
    they are exactly the pages of the arena past the kernel image, and
    [nfree] counts the free ones. *)
Theorem pmm_history_safe _end m c :
  RAM_BASE ≤ _end ≤ PMM_TOP - PGSIZE →
  rtc pmm_step (pmm_init _end (pmm_zero m), ∅) c →
  pmm_conserved (arena_from (PGROUNDUP _end)) c.
Proof.
  intros Hend Hsteps. destruct (pmm_init_rep _end m Hend) as [Hrep _].
  assert (Forall arena_page (arena_from (PGROUNDUP _end))) as Hall.
  { destruct (ps_pages _ _ Hrep) as [_ H]. by rewrite Forall_reverse in H. }
  remember (pmm_init _end (pmm_zero m), ∅) as c0 eqn:E0.
  assert (pmm_conserved (arena_from (PGROUNDUP _end)) c0) as H0.
  { subst c0. eexists. split; [exact Hrep|]. simpl. split_and!; [set_solver|set_solver|].
    destruct Hrep as (_ & _ & _ & ->). rewrite length_reverse. apply Z.add_0_r. }
  clear E0 Hrep. induction Hsteps; [done|]. eauto using pmm_conserved_step.
Qed.

(** A history with one allocation, on an arena of two pages. *)
Lemma pmm_history_safe_witness :
  ∃ c, rtc pmm_step (pmm_init (PMM_TOP - 2 * PGSIZE) (pmm_zero ∅), ∅) c ∧
       pmm_conserved (arena_from (PGROUNDUP (PMM_TOP - 2 * PGSIZE))) c.
Proof.
  eexists. assert (rtc pmm_step (pmm_init (PMM_TOP - 2 * PGSIZE) (pmm_zero ∅), ∅)
    ((pmm_alloc (pmm_init (PMM_TOP - 2 * PGSIZE) (pmm_zero ∅))).2, {[PMM_TOP - PGSIZE]} ∪ ∅)) as Hs.
  { apply rtc_once, step_alloc; [|done]. rewrite (surjective_pairing (pmm_alloc _)) at 1.
    apply f_equal2; [vm_compute; reflexivity|reflexivity]. }
  split; [exact Hs|].
  apply (pmm_history_safe (PMM_TOP - 2 * PGSIZE) ∅); [done|exact Hs].
Defined.

(** Boot leaves exactly the arena pages at or above the kernel image
    on the free list, and both counters say so. *)
Theorem pmm_init_correct _end m :
  RAM_BASE ≤ _end ≤ PMM_TOP - PGSIZE →
  let s := pmm_init _end (pmm_zero m) in
  ∃ l, pmm_rep s l ∧ (∀ p, p ∈ l ↔ arena_page p ∧ _end ≤ p) ∧
       pmm_free_count s = pmm_total_count s ∧
       pmm_total_count s = (PMM_TOP - PGROUNDUP _end) / PGSIZE.
Proof.
  intros H. simpl. destruct (pmm_init_rep _end m H) as [Hrep Ht].
  destruct (PGROUNDUP_bounds _end) as [Hb Hm].
  { unfold RAM_BASE, PMM_TOP, PGSIZE in *. lia. }
  assert (page_aligned (PGROUNDUP _end)) as Hal by done.
  assert (PGROUNDUP _end ≤ PMM_TOP - PGSIZE) as Hle.
  { rewrite PGROUNDUP_eq by (unfold RAM_BASE, PMM_TOP, PGSIZE in *; lia).
    unfold PMM_TOP, PGSIZE in *. ldiv. }
  exists (reverse (arena_from (PGROUNDUP _end))). split_and!; [done|..].
  - intros p. rewrite elem_of_reverse, elem_of_arena_from.
    + split; intros [Hp Hge]; (split; [done|]); [lia|].
      destruct Hp as [Hp _]. unfold page_aligned, PGSIZE in *. ldiv.
    + split; [done|]. unfold RAM_BASE, PGSIZE in *. lia.
  - unfold pmm_free_count, pmm_total_count. destruct Hrep as (_ & _ & _ & ->).
    by rewrite length_reverse, Ht.
  - unfold pmm_total_count. rewrite Ht. unfold arena_from. rewrite length_fmap, length_seq.
    unfold PMM_TOP, PGSIZE in *. ldiv.
Qed.
Lemma pmm_init_correct_witness :
  pmm_total_count (pmm_init (PMM_TOP - 3 * PGSIZE + 1) (pmm_zero ∅)) = 2.
Proof.
  destruct (pmm_init_correct (PMM_TOP - 3 * PGSIZE + 1) ∅) as (l & _ & _ & _ & ->);
    [by vm_compute|reflexivity].
Defined.

(** A freed page is the next one handed out and comes back zeroed,
    with every other byte of memory and the rest of the free list as
    they were; an address that is not a page of the arena is refused
    without any effect. *)
Theorem pmm_free_alloc s p l :
  pmm_rep s l → p ∉ l →
  if decide (page_aligned p ∧ RAM_BASE ≤ p < PMM_TOP)
  then ∃ s', pmm_alloc (pmm_free p s) = (p, s') ∧ pmm_rep s' l ∧
             same_outside p (mem s) (mem s') ∧
             ∀ a, p ≤ a < p + PGSIZE → rd8 (mem s') a = 0
  else pmm_free p s = s.
Proof.
  intros Hrep Hp. destruct (decide _) as [Har|Har].
  - destruct (ps_free s p l Hrep Har Hp) as [Hrep' Ho].
    destruct (ps_alloc _ _ _ Hrep') as (s' & -> & Hr & Ho' & Hz).
    exists s'. split_and!; try done. intros a Ha. rewrite (Ho' a Ha). by apply Ho.
  - by apply ps_refuse.
Qed.
Lemma pmm_free_alloc_witness :
  ∃ s', pmm_alloc (pmm_free RAM_BASE (pmm_zero ∅)) = (RAM_BASE, s') ∧ pmm_rep s' [].
Proof.
  destruct (pmm_free_alloc (pmm_zero ∅) RAM_BASE []) as (s' & H1 & H2 & _);
    [apply pmm_zero_rep|apply not_elem_of_nil|]. by exists s'.
Defined.
