(* ===== verification/Vm.v ===== *)
(** * Sv39 page tables (src/src/vm.c)

    Page tables live in physical memory and are walked word by word, as
    the source does.  The definitions are followed by the typing
    discipline that makes them provable: every page that is a table has
    one place (address space, level, prefix of the virtual page number),
    so two walks that meet in the same entry are walks for the same
    virtual page of the same address space. *)
From stdpp Require Import base list numbers option gmap.
From S2P Require Import Prelude Mem Riscv Pmm.
Local Open Scope Z_scope.

(** ** The code *)

(** [walk], from the table [pt] at level [stop_level + d] down.  The
    result is the address of the PTE, [0] for a null pointer. *)
Fixpoint walk_from (d : nat) (pt va : Z) (alloc : bool) (stop_level : Z) (s : pmm) : Z * pmm :=
  match d with
  | O => (pt + 8 * PX stop_level va, s)
  | S d' =>
      let level := stop_level + Z.of_nat d in
      let pte := pt + 8 * PX level va in
      let e := load64 (mem s) pte in
      if PTE_VALID e then
        if PTE_IS_LEAF e then (0, s)              (* a superpage blocks the way *)
        else walk_from d' (PTE2PA e) va alloc stop_level s
      else if negb alloc then (0, s)
      else
        let '(next, s1) := pmm_alloc s in
        if next =? 0 then (0, s1)
        else
          let s2 := s1 <| mem := store64 (mem s1) pte (Z.lor (PA2PTE next) PTE_V) |> in
          walk_from d' next va alloc stop_level s2
  end.
Definition walk (pt va : Z) (alloc : bool) (stop_level : Z) (s : pmm) : Z * pmm :=
  walk_from (Z.to_nat (2 - stop_level)) pt va alloc stop_level s.

(** The size of a leaf at [level]: [PGSIZE << (9 * level)]. *)
Definition level_size (level : Z) : Z := Z.shiftl PGSIZE (9 * level).

(** The PTE that [vm_map_at] stores. *)
Definition leaf_pte (pa perm : Z) : Z :=
  Z.lor (PA2PTE pa) (Z.lor perm (Z.lor PTE_V (Z.lor PTE_A PTE_D))).

(** The [for (;;)] of [vm_map_at]: [fuel] bounds the number of rounds
    still to come after this one. *)
Fixpoint vm_map_loop (fuel : nat) (pt a last pa perm level : Z) (s : pmm) : Z * pmm :=
  let '(pte, s1) := walk pt a true level s in
  if pte =? 0 then (-1, s1)
  else
    let s2 := s1 <| mem := store64 (mem s1) pte (leaf_pte pa perm) |> in
    if a =? last then (0, s2)
    else match fuel with
         | O => (-1, s2)
         | S fuel' => vm_map_loop fuel' pt (u64 (a + level_size level)) last
                        (u64 (pa + level_size level)) perm level s2
         end.
Definition vm_map_at (pt va pa size perm level : Z) (s : pmm) : Z * pmm :=
  let psz := level_size level in
  let a := Z.land va (Z.lnot (psz - 1)) in
  let last := Z.land (u64 (va + size - 1)) (Z.lnot (psz - 1)) in
  vm_map_loop (Z.to_nat (u64 (last - a) / psz)) pt a last pa perm level s.

Definition vm_unmap_page (pt va : Z) (s : pmm) : Z * pmm :=
  let '(pte, s1) := walk pt va false 0 s in
  if (pte =? 0) || negb (PTE_VALID (load64 (mem s1) pte)) then (-1, s1)
  else
    let pa := PTE2PA (load64 (mem s1) pte) in
    let s2 := s1 <| mem := store64 (mem s1) pte 0 |> in
    (0, if pa =? va then s2 else pmm_free pa s2).

(** The loop of [vm_translate_in] with [n] levels to go: [level = n - 1]. *)
Fixpoint translate_from (n : nat) (pt va : Z) (m : memory) : Z :=
  match n with
  | O => 0
  | S n' =>
      let level := Z.of_nat n' in
      let e := load64 m (pt + 8 * PX level va) in
      if negb (PTE_VALID e) then 0
      else if PTE_IS_LEAF e then Z.lor (PTE2PA e) (Z.land va (level_size level - 1))
      else translate_from n' (PTE2PA e) va m
  end.
Definition vm_translate_in (m : memory) (pt va : Z) : Z := translate_from 3 pt va m.

(** One round copies what is left of the source page, of the destination
    page or of the request, whichever ends first. *)
Definition copy_chunk (dva sva len : Z) : Z :=
  let n := PGSIZE - sva mod PGSIZE in
  let m := PGSIZE - dva mod PGSIZE in
  let n := if m <? n then m else n in
  if len <? n then len else n.
Fixpoint vm_copy_loop (fuel : nat) (dpt dva spt sva len : Z) (m : memory) : Z * memory :=
  if len =? 0 then (0, m)
  else
    match fuel with
    | O => (-1, m)
    | S fuel' =>
        let spa := vm_translate_in m spt sva in
        let dpa := vm_translate_in m dpt dva in
        if (spa =? 0) || (dpa =? 0) then (-1, m)
        else
          let n := copy_chunk dva sva len in
          vm_copy_loop fuel' dpt (u64 (dva + n)) spt (u64 (sva + n)) (len - n)
                       (memcpy m dpa spa n)
    end.
Definition vm_copy_across (dpt dva spt sva len : Z) (m : memory) : Z * memory :=
  vm_copy_loop (Z.to_nat len) dpt dva spt sva len m.

(** One program segment, as the loader describes it (elf.h). *)
Record vmload := mkVmload
  { seg_va : Z; seg_src : Z; seg_filesz : Z; seg_memsz : Z; seg_perm : Z }.

(** [if (!perm) perm = PTE_R] after masking. *)
Definition seg_leaf_perm (perm : Z) : Z :=
  let p := Z.land perm (Z.lor PTE_R (Z.lor PTE_W PTE_X)) in
  if p =? 0 then PTE_R else p.

Fixpoint load_pages (fuel : nat) (pt a end_ perm : Z) (s : pmm) : Z * pmm :=
  match fuel with
  | O => (0, s)
  | S fuel' =>
      if a <? end_ then
        if negb (vm_translate_in (mem s) pt a =? 0)
        then load_pages fuel' pt (a + PGSIZE) end_ perm s
        else
          let '(p, s1) := pmm_alloc s in
          if p =? 0 then (-1, s1)
          else
            let '(r, s2) := vm_map_at pt a p PGSIZE (Z.lor perm PTE_U) 0 s1 in
            if r <? 0 then (-1, s2)
            else load_pages fuel' pt (a + PGSIZE) end_ perm s2
      else (0, s)
  end.
Definition vm_load_segment (pt src : Z) (seg : vmload) (s : pmm) : Z * pmm :=
  let start := PGROUNDDOWN (seg_va seg) in
  let end_ := PGROUNDUP (u64 (seg_va seg + seg_memsz seg)) in
  let perm := seg_leaf_perm (seg_perm seg) in
  let '(r, s1) := load_pages (Z.to_nat ((end_ - start) / PGSIZE)) pt start end_ perm s in
  if r <? 0 then (-1, s1)
  else if seg_filesz seg =? 0 then (0, s1)
  else
    let '(c, m) := vm_copy_across pt (seg_va seg) src (seg_src seg) (seg_filesz seg) (mem s1) in
    let s2 := s1 <| mem := m |> in
    if c <? 0 then (-1, s2) else (0, s2).

(** [free_walk]: [fuel] is the number of levels below, so a table at
    level [2] needs three. *)
Fixpoint free_walk (fuel : nat) (pt level vabase : Z) (s : pmm) : pmm :=
  match fuel with
  | O => s
  | S fuel' =>
      foldl (λ s i,
        let pte := load64 (mem s) (pt + 8 * Z.of_nat i) in
        if negb (PTE_VALID pte) then s
        else
          let va := Z.lor vabase (u64 (Z.shiftl (Z.of_nat i) (PGSHIFT + 9 * level))) in
          let pa := PTE2PA pte in
          if PTE_IS_LEAF pte then (if pa =? va then s else pmm_free pa s)
          else pmm_free pa (free_walk fuel' pa (level - 1) va s))
        s (seq 0 512)
  end.
(** The result is the new [t->pt]. *)
Definition vm_free_task (pt : Z) (s : pmm) : Z * pmm :=
  if pt =? 0 then (0, s) else (0, pmm_free pt (free_walk 3 pt 2 0 s)).

(** The kernel image, the console, the timer and the interrupt controller,
    all without [PTE_U]. *)
Definition vm_create_task_pt (_end : Z) (s : pmm) : Z * pmm :=
  let '(pt, s0) := pmm_alloc s in
  if pt =? 0 then (0, s0)
  else
    let kend := PGROUNDUP _end in
    let RWX := Z.lor PTE_R (Z.lor PTE_W PTE_X) in
    let RW := Z.lor PTE_R PTE_W in
    let '(_, s1) := vm_map_at pt RAM_BASE RAM_BASE (kend - RAM_BASE) RWX 0 s0 in
    let '(_, s2) := vm_map_at pt UART_BASE_PA UART_BASE_PA PGSIZE RW 0 s1 in
    let '(_, s3) := vm_map_at pt CLINT_BASE CLINT_BASE 0x10000 RW 0 s2 in
    let '(_, s4) := vm_map_at pt PLIC_BASE_PA PLIC_BASE_PA PLIC_SIZE RW 0 s3 in
    (pt, s4).

(** [vm_init]: the kernel table and its [satp] value.  [pci] answers
    [fdt_reg("pci@")] from the memory of that moment. *)
Definition vm_init (pci : memory → option (Z * Z)) (s : pmm) : Z * Z * pmm :=
  let '(kpt, s0) := pmm_alloc s in
  let RWX := Z.lor PTE_R (Z.lor PTE_W PTE_X) in
  let RW := Z.lor PTE_R PTE_W in
  let '(_, s1) := vm_map_at kpt RAM_BASE RAM_BASE (RAM_TOP - RAM_BASE) RWX 1 s0 in
  let '(_, s2) := vm_map_at kpt UART_BASE_PA UART_BASE_PA PGSIZE RW 0 s1 in
  let '(_, s3) := vm_map_at kpt CLINT_BASE CLINT_BASE 0x10000 RW 0 s2 in
  let '(_, s4) := vm_map_at kpt PLIC_BASE_PA PLIC_BASE_PA PLIC_SIZE RW 0 s3 in
  let '(_, s5) :=
    match pci (mem s4) with
    | Some (base, size) =>
        vm_map_at kpt base base (if size <? 0x200000 then size else 0x200000) RW 1 s4
    | None => (0, s4)
    end in
  (kpt, MAKE_SATP kpt, s5).
