(* ===== verification/VmMap.v ===== *)
(** * Mapping pages (proofs about src/src/vm.c)

    The typing discipline for page tables, and what [walk], [vm_map_at]
    and [vm_unmap_page] do to the translation of every address. *)
From stdpp Require Import base list numbers option gmap.
From S2P Require Import Prelude Mem Riscv Pmm Vm.
Local Open Scope Z_scope.

(** ** Virtual page numbers *)

(** The part of the virtual page number above the index used at [l]. *)
Definition vpn_prefix (l va : Z) : Z := va mod 2 ^ 39 / 2 ^ (12 + 9 * (l + 1)).

(** The 27 bits that select the leaf of a 4 KiB mapping. *)
Definition vpn (va : Z) : Z := va mod 2 ^ 39 / 2 ^ 12.

Lemma level_cases l : 0 ≤ l ≤ 2 → l = 0 ∨ l = 1 ∨ l = 2.
Proof. lia. Qed.
Lemma vpn_prefix_child l va :
  1 ≤ l ≤ 2 → vpn_prefix l va * 512 + PX l va = vpn_prefix (l - 1) va.
Proof.
  intros H. rewrite PX_eq by lia. unfold vpn_prefix.
  destruct (level_cases l) as [->|[->| ->]]; [lia|lia|..]; simpl; ldiv.
Qed.
Lemma vpn_prefix_top va : vpn_prefix 2 va = 0.
Proof. unfold vpn_prefix. simpl. apply Z.div_small, Z.mod_pos_bound. lia. Qed.

(** ** Typed tables *)

(** A table page belongs to one address space (named by its root), sits
    at one level and covers one prefix. *)
Record place := Place { pl_root : Z; pl_level : Z; pl_prefix : Z }.

Definition slot_addr (T i : Z) : Z := T + 8 * i.

Record table_ok (ty : gmap Z place) (fl : list Z) (m : memory) (T : Z) (p : place) : Prop := {
  tok_page : arena_page T;
  tok_used : T ∉ fl;
  tok_level : 0 ≤ pl_level p ≤ 2;
  tok_child : ∀ i e, 0 ≤ i < 512 → load64 m (slot_addr T i) = e →
    PTE_VALID e = true → PTE_IS_LEAF e = false →
    0 < pl_level p ∧
    ty !! PTE2PA e = Some (Place (pl_root p) (pl_level p - 1) (pl_prefix p * 512 + i)) }.

Definition tables_ok (ty : gmap Z place) (fl : list Z) (m : memory) : Prop :=
  ∀ T p, ty !! T = Some p → table_ok ty fl m T p.

(** A root is a typed page at level 2. *)
Definition is_root (ty : gmap Z place) (r : Z) : Prop := ty !! r = Some (Place r 2 0).

(** Table [T] is on the way from root [r] to [va] at level [l]. *)
Definition on_path (ty : gmap Z place) (r va l T : Z) : Prop :=
  ty !! T = Some (Place r l (vpn_prefix l va)).

Lemma is_root_path ty r va : is_root ty r → on_path ty r va 2 r.
Proof. unfold is_root, on_path. by rewrite vpn_prefix_top. Qed.

(** Two entries of typed tables are the same word or do not overlap. *)
Lemma slots_disjoint T T' i i' :
  arena_page T → arena_page T' → 0 ≤ i < 512 → 0 ≤ i' < 512 →
  (T = T' ∧ i = i') ∨ slot_addr T i + 8 ≤ slot_addr T' i' ∨ slot_addr T' i' + 8 ≤ slot_addr T i.
Proof.
  intros HT HT' Hi Hi'. unfold slot_addr. destruct (decide (T = T')) as [->|Hne].
  - destruct (decide (i = i')); [left|right]; lia.
  - destruct (arena_disjoint T T' HT HT' Hne); unfold PGSIZE in *; right; lia.
Qed.

Lemma slot_in_page T i a :
  0 ≤ i < 512 → slot_addr T i ≤ a < slot_addr T i + 8 → T ≤ a < T + PGSIZE.
Proof. unfold slot_addr, PGSIZE. lia. Qed.

(** ** Following pointer entries *)

(** The table reached from [T], at level [stop + d], after [d] pointer
    entries on the way to [va]. *)
Fixpoint descend (d : nat) (stop T va : Z) (m : memory) : option Z :=
  match d with
  | O => Some T
  | S d' =>
      let e := load64 m (slot_addr T (PX (stop + Z.of_nat d) va)) in
      if PTE_VALID e && negb (PTE_IS_LEAF e) then descend d' stop (PTE2PA e) va m else None
  end.

Lemma descend_step d stop T va m e :
  load64 m (slot_addr T (PX (stop + Z.of_nat (S d)) va)) = e →
  PTE_VALID e = true → PTE_IS_LEAF e = false →
  descend (S d) stop T va m = descend d stop (PTE2PA e) va m.
Proof. intros He Hv Hl. cbn [descend]. by rewrite He, Hv, Hl. Qed.

(** A walk that does not allocate follows the pointers and changes
    nothing. *)
Lemma walk_from_false d T va stop s :
  walk_from d T va false stop s =
    (match descend d stop T va (mem s) with
     | Some T' => slot_addr T' (PX stop va)
     | None => 0
     end, s).
Proof.
  revert T. induction d as [|d IH]; intros T; [done|]. cbn [walk_from descend].
  fold (slot_addr T (PX (stop + Z.of_nat (S d)) va)).
  destruct (PTE_VALID _); [|done]. destruct (PTE_IS_LEAF _); [done|]. apply IH.
Qed.

(** The translation goes on in the table that was reached. *)
Lemma translate_descend d n T T' va m :
  descend d (Z.of_nat n) T va m = Some T' →
  translate_from (d + S n) T va m = translate_from (S n) T' va m.
Proof.
  revert T. induction d as [|d IH]; intros T H; [simpl in H; by simplify_eq|].
  cbn [descend] in H. cbn [Nat.add]. change (translate_from (S ?k)) with (translate_from (S k)).
  unfold translate_from at 1; fold translate_from.
  replace (Z.of_nat (d + S n)) with (Z.of_nat n + Z.of_nat (S d)) by lia.
  fold (slot_addr T (PX (Z.of_nat n + Z.of_nat (S d)) va)).
  destruct (PTE_VALID _); [|done]. destruct (PTE_IS_LEAF _); [done|]. by apply IH.
Qed.

(** Only the indices above [stop] matter. *)
Lemma descend_px d stop T va x m :
  (∀ k, (1 ≤ k ≤ d)%nat → PX (stop + Z.of_nat k) x = PX (stop + Z.of_nat k) va) →
  descend d stop T x m = descend d stop T va m.
Proof.
  revert T. induction d as [|d IH]; intros T H; [done|]. cbn [descend].
  rewrite (H (S d)) by lia. destruct (_ && _); [|done]. apply IH. intros. apply H. lia.
Qed.

(** ** Translation depends only on the entries on the path *)

Lemma translate_ext ty fl m m' r va n T :
  tables_ok ty fl m → (n ≤ 3)%nat → on_path ty r va (Z.of_nat n - 1) T →
  (∀ l T', 0 ≤ l < Z.of_nat n → on_path ty r va l T' →
     load64 m' (slot_addr T' (PX l va)) = load64 m (slot_addr T' (PX l va))) →
  translate_from n T va m' = translate_from n T va m.
Proof.
  intros Hok. revert T. induction n as [|n IH]; intros T Hn HT Hld; [done|].
  cbn [translate_from]. fold (slot_addr T (PX (Z.of_nat n) va)).
  replace (Z.of_nat (S n) - 1) with (Z.of_nat n) in HT by lia.
  rewrite (Hld (Z.of_nat n) T) by (lia || done).
  destruct (PTE_VALID _) eqn:Ev; [|done]. destruct (PTE_IS_LEAF _) eqn:El; [done|].
  cbn [negb]. destruct (tok_child _ _ _ _ _ (Hok _ _ HT) _ _ (PX_range (Z.of_nat n) va ltac:(lia)) eq_refl Ev El)
    as [Hl Hc]. simpl in Hl, Hc.
  apply IH; [lia|..].
  - unfold on_path. rewrite vpn_prefix_child in Hc by lia. done.
  - intros. apply Hld; [lia|done].
Qed.

(** Loading any typed entry after a store to a typed entry. *)
Lemma load_slot_store ty fl m T p i T' p' i' e :
  tables_ok ty fl m → ty !! T = Some p → ty !! T' = Some p' →
  0 ≤ i < 512 → 0 ≤ i' < 512 → 0 ≤ e < 2 ^ 64 →
  load64 (store64 m (slot_addr T i) e) (slot_addr T' i') =
    if decide (T = T' ∧ i = i') then e else load64 m (slot_addr T' i').
Proof.
  intros Hok HT HT' Hi Hi' He. destruct (decide _) as [[-> ->]|Hne].
  - by apply load64_store64.
  - apply load64_store64_ne.
    destruct (slots_disjoint T T' i i'); [by eapply tok_page, Hok..|done|done|tauto|lia].
Qed.

Lemma tables_ok_store ty fl m T p i e :
  tables_ok ty fl m → ty !! T = Some p → 0 ≤ i < 512 → 0 ≤ e < 2 ^ 64 →
  (PTE_VALID e = true → PTE_IS_LEAF e = false → 0 < pl_level p ∧
   ty !! PTE2PA e = Some (Place (pl_root p) (pl_level p - 1) (pl_prefix p * 512 + i))) →
  tables_ok ty fl (store64 m (slot_addr T i) e).
Proof.
  intros Hok HT Hi He Hchild T' p' HT'. destruct (Hok _ _ HT') as [H1 H2 H3 H4].
  split; [done..|]. intros i' e' Hi' <-. rewrite (load_slot_store ty fl m T p i T' p' i' e) by done.
  destruct (decide _) as [[-> ->]|]; [|by apply H4]. simplify_eq. by apply Hchild.
Qed.

(** A store to one entry leaves alone every translation that does not
    pass through it. *)
Lemma translate_store_other ty fl m T p i e r va n T0 :
  tables_ok ty fl m → ty !! T = Some p → 0 ≤ i < 512 → 0 ≤ e < 2 ^ 64 →
  (n ≤ 3)%nat → on_path ty r va (Z.of_nat n - 1) T0 →
  ¬ (r = pl_root p ∧ vpn_prefix (pl_level p) va = pl_prefix p ∧ PX (pl_level p) va = i) →
  translate_from n T0 va (store64 m (slot_addr T i) e) = translate_from n T0 va m.
Proof.
  intros Hok HT Hi He Hn Hpath Hnot. eapply translate_ext; [done..|].
  intros l T' Hl HT'. unfold on_path in HT'.
  rewrite (load_slot_store ty fl m T p i T' _ _ e Hok HT HT') by (done || apply PX_range; lia).
  destruct (decide _) as [[-> Hii]|]; [|done]. simplify_eq. by destruct Hnot.
Qed.

(** Storing into a table at level [stop] does not divert a descent that
    stops there. *)
Lemma descend_store ty fl m d stop T r va T' p i e :
  tables_ok ty fl m → on_path ty r va (stop + Z.of_nat d) T →
  ty !! T' = Some p → pl_level p = stop → 0 ≤ i < 512 → 0 ≤ e < 2 ^ 64 →
  0 ≤ stop → stop + Z.of_nat d ≤ 2 →
  descend d stop T va (store64 m (slot_addr T' i) e) = descend d stop T va m.
Proof.
  intros Hok. revert T. induction d as [|d IH]; intros T HT HT' Hp Hi He Hs Hd; [done|].
  cbn [descend]. set (l := stop + Z.of_nat (S d)) in *. unfold on_path in HT.
  assert (0 ≤ PX l va < 512) as Hpx by (apply PX_range; lia).
  rewrite (load_slot_store ty fl m T' p i T _ _ e Hok HT' HT) by done.
  destruct (decide _) as [[-> _]|_].
  { rewrite HT in HT'. injection HT' as <-. simpl in Hp. lia. }
  destruct (PTE_VALID _) eqn:Ev; [|done]. destruct (PTE_IS_LEAF _) eqn:El; [done|]. cbn [andb negb].
  destruct (tok_child _ _ _ _ _ (Hok _ _ HT) _ _ Hpx eq_refl Ev El) as [_ Hc].
  cbn [pl_root pl_level pl_prefix] in Hc. rewrite vpn_prefix_child in Hc by lia.
  apply IH; try done; [|lia]. unfold on_path.
  by replace (stop + Z.of_nat d) with (l - 1) by lia.
Qed.

(** ** What a walk may change *)

(** Every translation in [ty] is the same in both memories. *)
Definition same_translations (ty : gmap Z place) (m m' : memory) : Prop :=
  ∀ r va n T, (n ≤ 3)%nat → on_path ty r va (Z.of_nat n - 1) T →
    translate_from n T va m' = translate_from n T va m.
(** Valid entries are not overwritten. *)
Definition entries_kept (ty : gmap Z place) (m m' : memory) : Prop :=
  ∀ T p i, ty !! T = Some p → 0 ≤ i < 512 → PTE_VALID (load64 m (slot_addr T i)) = true →
    load64 m' (slot_addr T i) = load64 m (slot_addr T i).
(** Bytes outside the tables are untouched. *)
Definition tables_frame (ty : gmap Z place) (m m' : memory) : Prop :=
  ∀ a, (∀ T p, ty !! T = Some p → ¬ (T ≤ a < T + PGSIZE)) → rd8 m' a = rd8 m a.

Lemma same_translations_trans ty ty' m1 m2 m3 :
  ty ⊆ ty' → same_translations ty m1 m2 → same_translations ty' m2 m3 →
  same_translations ty m1 m3.
Proof.
  intros Hsub H1 H2 r va n T Hn Hp. rewrite (H2 r va n T); [by eapply H1|done|].
  by eapply lookup_weaken.
Qed.
Lemma entries_kept_trans ty ty' m1 m2 m3 :
  ty ⊆ ty' → entries_kept ty m1 m2 → entries_kept ty' m2 m3 → entries_kept ty m1 m3.
Proof.
  intros Hsub H1 H2 T p i HT Hi Hv. rewrite (H2 T p i); [by eapply H1|by eapply lookup_weaken|done|].
  by rewrite (H1 T p i).
Qed.
Lemma tables_frame_trans ty ty' m1 m2 m3 :
  ty ⊆ ty' → tables_frame ty m1 m2 → tables_frame ty' m2 m3 → tables_frame ty' m1 m3.
Proof.
  intros Hsub H1 H2 a Ha. rewrite (H2 a Ha). apply H1. intros T p HT.
  eapply Ha. by eapply lookup_weaken.
Qed.

Section with_pages.
Context {rep : pmm → list Z → Prop} `{PS : !PageSource pmm_alloc pmm_free rep}.

(** The invariant of the virtual memory system: the allocator holds the
    pages [fl], and the pages in [ty] are well-typed tables. *)
Definition vm_inv (ty : gmap Z place) (fl : list Z) (s : pmm) : Prop :=
  rep s fl ∧ tables_ok ty fl (mem s).

Lemma free_page_untyped ty fl s q p : vm_inv ty fl s → q ∈ fl → ty !! q = Some p → False.
Proof. intros [_ Hok] Hq Hp. by destruct (Hok _ _ Hp). Qed.

(** A write inside the tables keeps the allocator's pages. *)
Lemma rep_tables_store ty fl s T p i e :
  vm_inv ty fl s → ty !! T = Some p → 0 ≤ i < 512 →
  rep (s <| mem := store64 (mem s) (slot_addr T i) e |>) fl.
Proof.
  intros [Hrep Hok] HT Hi. apply ps_frame; [done|]. intros q a Hq Ha.
  apply rd8_store_le. intros Hin. destruct (Hok _ _ HT) as [Hpage Hused _ _].
  destruct (ps_pages _ _ Hrep) as [_ Har].
  assert (arena_page q) as Hqp by (by eapply Forall_forall).
  pose proof (slot_in_page T i a Hi Hin).
  destruct (arena_disjoint T q Hpage Hqp); unfold PGSIZE in *; [set_solver|lia|lia].
Qed.

Lemma vm_inv_store ty fl s T p i e :
  vm_inv ty fl s → ty !! T = Some p → 0 ≤ i < 512 → 0 ≤ e < 2 ^ 64 →
  (PTE_VALID e = true → PTE_IS_LEAF e = false → 0 < pl_level p ∧
   ty !! PTE2PA e = Some (Place (pl_root p) (pl_level p - 1) (pl_prefix p * 512 + i))) →
  vm_inv ty fl (s <| mem := store64 (mem s) (slot_addr T i) e |>).
Proof.
  intros Hinv HT Hi He Hc. split; [by eapply rep_tables_store|].
  destruct Hinv as [_ Hok]. by eapply tables_ok_store.
Qed.

(** A pointer entry to a page, and what its fields read back as. *)
Lemma ptr_pte q :
  arena_page q →
  let e := Z.lor (PA2PTE q) PTE_V in
  0 ≤ e < 2 ^ 64 ∧ PTE_VALID e = true ∧ PTE_IS_LEAF e = false ∧ PTE2PA e = q.
Proof.
  intros [Hal Hr]. unfold RAM_BASE, PMM_TOP in Hr.
  assert (0 ≤ q < 2 ^ 56) as Hq by lia.
  assert (0 ≤ PTE_V < 1024) as Hv by done. split_and!.
  - rewrite pte_build by done. change PTE_V with 1. ldiv.
  - rewrite pte_build by done. change PTE_V with 1. ldiv.
  - by rewrite pte_valid_build.
  - by rewrite pte_leaf_build.
  - by apply PTE2PA_build.
Qed.

(** A fresh page given any place: it is an empty table, and no other
    table changes. *)
Lemma fresh_table ty q fl s s1 pl :
  vm_inv ty (q :: fl) s → 0 ≤ pl_level pl ≤ 2 → pmm_alloc s = (q, s1) →
  let ty' := <[q := pl]> ty in
  vm_inv ty' fl s1 ∧ ty ⊆ ty' ∧
  (∀ i, 0 ≤ i < 512 → load64 (mem s1) (slot_addr q i) = 0) ∧
  (∀ T p i, ty !! T = Some p → 0 ≤ i < 512 →
     load64 (mem s1) (slot_addr T i) = load64 (mem s) (slot_addr T i)) ∧
  same_outside q (mem s) (mem s1).
Proof.
  intros Hinv Hpl Halloc. cbn zeta.
  assert (ty !! q = None) as Hq.
  { destruct (ty !! q) eqn:E; [|done]. exfalso. eapply free_page_untyped; [done| |done]. set_solver. }
  assert (ty ⊆ <[q := pl]> ty) as Hsub by (by apply insert_subseteq).
  destruct Hinv as [Hrep Hok].
  destruct (ps_pages _ _ Hrep) as [Hnd Har]. inversion Hnd as [|? ? Hqfl _]; subst.
  inversion Har as [|? ? Hqp _]; subst.
  destruct (ps_alloc _ _ _ Hrep) as (s1' & Ha & Hrep1 & Hout & Hzero).
  rewrite Halloc in Ha. injection Ha as <-.
  assert (∀ T' p' i', ty !! T' = Some p' → 0 ≤ i' < 512 →
            load64 (mem s1) (slot_addr T' i') = load64 (mem s) (slot_addr T' i')) as Hold.
  { intros T' p' i' HT' Hi'. apply load64_agree. intros x Hx. apply Hout.
    pose proof (slot_in_page _ _ _ Hi' Hx). destruct (Hok _ _ HT') as [Hpg Hus _ _].
    destruct (arena_disjoint q T'); unfold PGSIZE in *; [done|done|set_solver|lia|lia]. }
  assert (∀ i', 0 ≤ i' < 512 → load64 (mem s1) (slot_addr q i') = 0) as Hnew.
  { intros i' Hi'. transitivity (load64 (∅ : memory) (slot_addr q i')); [|done].
    apply load64_agree. intros x Hx. rewrite Hzero; [done|]. by eapply slot_in_page. }
  split; [split; [done|]|by split_and!].
  intros T' p' [[<- <-]|[Hne HT']]%lookup_insert_Some.
  - split; [done|done|done|]. intros i' e' Hi' <-. by rewrite Hnew.
  - destruct (Hok _ _ HT') as [H1 H2 H3 H4]. split; [done|set_solver|done|].
    intros i' e' Hi' <-. rewrite (Hold T' p' i') by done. intros Hv Hlf.
    destruct (H4 i' _ Hi' eq_refl Hv Hlf) as [? Hc]. split; [done|].
    exact (lookup_weaken _ _ _ _ Hc Hsub).
Qed.

(** Hanging an empty table into an invalid entry diverts no translation. *)
Lemma pointer_to_empty ty fl m q T r l pre i e :
  tables_ok ty fl m → ty !! T = Some (Place r l pre) → 0 ≤ i < 512 →
  ty !! q = Some (Place r (l - 1) (pre * 512 + i)) → T ≠ q →
  (∀ i', 0 ≤ i' < 512 → load64 m (slot_addr q i') = 0) →
  PTE_VALID (load64 m (slot_addr T i)) = false →
  0 ≤ e < 2 ^ 64 → PTE_VALID e = true → PTE_IS_LEAF e = false → PTE2PA e = q →
  same_translations ty m (store64 m (slot_addr T i) e).
Proof.
  intros Hok HT Hi Hq HTq Hempty Hinvalid He Hv Hlf Hpa r' va' n.
  induction n as [|n IH]; intros T0 Hn Hp; [done|].
  replace (Z.of_nat (S n) - 1) with (Z.of_nat n) in Hp by lia. unfold on_path in Hp.
  assert (0 ≤ PX (Z.of_nat n) va' < 512) as Hpx by (apply PX_range; lia).
  cbn [translate_from]. fold (slot_addr T0 (PX (Z.of_nat n) va')).
  rewrite (load_slot_store ty fl m T _ i T0 _ _ e Hok HT Hp) by done.
  destruct (decide _) as [[<- Hii]|Hne].
  - (* the walk now goes one table further, into the empty one *)
    simplify_eq. rewrite Hinvalid, Hv, Hlf. cbn [negb].
    destruct n as [|n]; [done|]. cbn [translate_from].
    fold (slot_addr (PTE2PA e) (PX (Z.of_nat n) va')).
    assert (0 ≤ PX (Z.of_nat n) va' < 512) by (apply PX_range; lia).
    rewrite (load_slot_store ty fl m T _ _ (PTE2PA e) _ _ e Hok HT Hq) by done.
    destruct (decide _) as [[-> _]|_]; [congruence|]. by rewrite Hempty.
  - set (e0 := load64 m (slot_addr T0 _)). destruct (PTE_VALID e0) eqn:Ev; [|done].
    destruct (PTE_IS_LEAF e0) eqn:El; [done|]. cbn [negb].
    destruct (tok_child _ _ _ _ _ (Hok _ _ Hp) _ _ Hpx eq_refl Ev El) as [Hlv Hc].
    cbn [pl_root pl_level pl_prefix] in Hlv, Hc.
    apply IH; [lia|]. unfold on_path. by rewrite vpn_prefix_child in Hc by lia.
Qed.

(** Both steps together: a new table below [T]. *)
Lemma new_table ty q fl s s1 T r l pre i :
  vm_inv ty (q :: fl) s → ty !! T = Some (Place r l pre) → 1 ≤ l ≤ 2 → 0 ≤ i < 512 →
  PTE_VALID (load64 (mem s) (slot_addr T i)) = false →
  pmm_alloc s = (q, s1) →
  let s2 := s1 <| mem := store64 (mem s1) (slot_addr T i) (Z.lor (PA2PTE q) PTE_V) |> in
  let ty' := <[q := Place r (l - 1) (pre * 512 + i)]> ty in
  vm_inv ty' fl s2 ∧ ty ⊆ ty' ∧ same_translations ty (mem s) (mem s2) ∧
  entries_kept ty (mem s) (mem s2) ∧ tables_frame ty' (mem s) (mem s2) ∧
  load64 (mem s2) (slot_addr T i) = Z.lor (PA2PTE q) PTE_V.
Proof.
  intros Hinv HT Hl Hi Hinvalid Halloc. cbn zeta. set (e := Z.lor (PA2PTE q) PTE_V).
  destruct (fresh_table ty q fl s s1 (Place r (l - 1) (pre * 512 + i)))
    as (Hinv1 & Hsub & Hempty & Hold & Hout); [done|simpl; lia|done|].
  set (ty' := <[q := _]> ty) in *.
  assert (ty' !! q = Some (Place r (l - 1) (pre * 512 + i))) as Hq by apply lookup_insert_eq.
  destruct (tok_page _ _ _ _ _ (proj2 Hinv1 _ _ Hq)) as [Hal Hr].
  destruct (ptr_pte q (conj Hal Hr)) as (He & Hv & Hlf & Hpa). fold e in He, Hv, Hlf, Hpa.
  assert (ty' !! T = Some (Place r l pre)) as HT' by exact (lookup_weaken _ _ _ _ HT Hsub).
  assert (T ≠ q) as HTq by (intros ->; rewrite Hq in HT'; injection HT'; lia).
  cbn [mem set_field set_mem]. split_and!; [|done|..].
  - eapply vm_inv_store; [done|done|done|done|]. intros _ _. cbn [pl_root pl_level pl_prefix].
    rewrite Hpa. split; [lia|done].
  - eapply (same_translations_trans ty ty' _ (mem s1)); [done|..].
    + intros r' va' n T0 Hn Hp. eapply translate_ext; [apply Hinv|done|done|].
      intros. eapply Hold; [done|]. apply PX_range. lia.
    + eapply pointer_to_empty; try done; [apply Hinv1|]. by rewrite (Hold T _ i HT Hi).
  - intros T' p' i' HT1 Hi' Hv'.
    rewrite (load_slot_store ty' fl (mem s1) T _ i T' _ _ e (proj2 Hinv1) HT'
               (lookup_weaken _ _ _ _ HT1 Hsub)) by done.
    destruct (decide _) as [[<- <-]|]; [congruence|]. by eapply Hold.
  - intros a Ha. rewrite rd8_store64, Hout; [done|..].
    + eapply Ha. exact Hq.
    + intros Hin. pose proof (slot_in_page _ _ _ Hi Hin). by eapply Ha.
  - by apply load64_store64.
Qed.

(** ** Walking *)

(** What an allocating walk guarantees: old translations, valid entries
    and everything outside the tables are kept, and the tables it adds
    come off the free list. *)
Record walk_effect (ty ty' : gmap Z place) (fl fl' : list Z) (s s' : pmm) : Prop := {
  we_inv : vm_inv ty' fl' s';
  we_sub : ty ⊆ ty';
  we_new : ∀ T p, ty' !! T = Some p → ty !! T = Some p ∨ (T ∈ fl ∧ (T ∉ fl') ∧ pl_level p < 2);
  we_free : fl' `suffix_of` fl;
  we_trans : same_translations ty (mem s) (mem s');
  we_kept : entries_kept ty (mem s) (mem s');
  we_frame : tables_frame ty' (mem s) (mem s') }.

Lemma walk_effect_refl ty fl s : vm_inv ty fl s → walk_effect ty ty fl fl s s.
Proof. intros. split; try done. by left. Qed.

Lemma walk_effect_trans ty1 ty2 ty3 fl1 fl2 fl3 s1 s2 s3 :
  walk_effect ty1 ty2 fl1 fl2 s1 s2 → walk_effect ty2 ty3 fl2 fl3 s2 s3 →
  walk_effect ty1 ty3 fl1 fl3 s1 s3.
Proof.
  intros [I1 S1 N1 F1 T1 K1 R1] [I2 S2 N2 F2 T2 K2 R2]. split.
  - done.
  - by etrans.
  - intros T p HT. destruct (N2 T p HT) as [HT2|(Hin & Hout & Hl)].
    + destruct (N1 T p HT2) as [|(? & ? & ?)]; [by left|right]. split_and!; [done| |done].
      destruct F2 as [k ->]. set_solver.
    + right. split_and!; [|done|done]. destruct F1 as [k ->]. set_solver.
  - by etrans.
  - by eapply same_translations_trans.
  - by eapply entries_kept_trans.
  - by eapply tables_frame_trans.
Qed.

Lemma new_table_effect ty q fl s s1 T r l pre i :
  vm_inv ty (q :: fl) s → ty !! T = Some (Place r l pre) → 1 ≤ l ≤ 2 → 0 ≤ i < 512 →
  PTE_VALID (load64 (mem s) (slot_addr T i)) = false →
  pmm_alloc s = (q, s1) →
  walk_effect ty (<[q := Place r (l - 1) (pre * 512 + i)]> ty) (q :: fl) fl s
    (s1 <| mem := store64 (mem s1) (slot_addr T i) (Z.lor (PA2PTE q) PTE_V) |>).
Proof.
  intros Hinv HT Hl Hi Hv Ha.
  destruct (new_table ty q fl s s1 T r l pre i) as (H1 & H2 & H3 & H4 & H5 & _); [done..|].
  split; try done.
  - intros T' p' [[<- <-]|[_ HT']]%lookup_insert_Some; [right|by left]. simpl.
    split_and!; [set_solver| |lia]. destruct Hinv as [Hrep _].
    destruct (ps_pages _ _ Hrep) as [Hnd _]. by inversion Hnd.
  - by exists [q].
Qed.

(** A walk from a table on the path ends with a null pointer or at the
    entry for [va], in a table on the path, and the translation of [va]
    then goes through that entry. *)
Lemma walk_from_spec d T va stop ty fl s r a s' :
  vm_inv ty fl s → 0 ≤ stop → stop + Z.of_nat d ≤ 2 →
  on_path ty r va (stop + Z.of_nat d) T →
  walk_from d T va true stop s = (a, s') →
  ∃ ty' fl', walk_effect ty ty' fl fl' s s' ∧
    (a = 0 ∨ ∃ T', on_path ty' r va stop T' ∧ a = slot_addr T' (PX stop va) ∧
       descend d stop T va (mem s') = Some T').
Proof.
  revert T ty fl s. induction d as [|d IH]; intros T ty fl s Hinv Hs Hd HT Hw.
  { simpl in Hw. injection Hw as <- <-. rewrite Z.add_0_r in HT. exists ty, fl.
    split; [by apply walk_effect_refl|]. right. by exists T. }
  cbn [walk_from] in Hw. set (l := stop + Z.of_nat (S d)) in *.
  fold (slot_addr T (PX l va)) in Hw. set (e := load64 (mem s) (slot_addr T (PX l va))) in *.
  assert (0 ≤ PX l va < 512) as Hpx by (apply PX_range; lia).
  destruct (PTE_VALID e) eqn:Ev.
  - destruct (PTE_IS_LEAF e) eqn:El.
    { injection Hw as <- <-. exists ty, fl. split; [by apply walk_effect_refl|by left]. }
    destruct (tok_child _ _ _ _ _ (proj2 Hinv _ _ HT) _ _ Hpx eq_refl Ev El) as [_ Hc].
    cbn [pl_root pl_level pl_prefix] in Hc. rewrite vpn_prefix_child in Hc by lia.
    replace (l - 1) with (stop + Z.of_nat d) in Hc by lia.
    destruct (IH _ ty fl s Hinv Hs ltac:(lia) Hc Hw) as (ty' & fl' & Heff & Hres).
    exists ty', fl'. split; [done|]. destruct Hres as [|(T' & H1 & H2 & H3)]; [by left|right].
    exists T'. split_and!; [done|done|]. rewrite <- H3. apply descend_step with (e := e); [|done|done].
    eapply we_kept; done.
  - cbn [negb] in Hw. destruct fl as [|q fl].
    { rewrite (ps_empty _ (proj1 Hinv)) in Hw. injection Hw as <- <-. exists ty, [].
      split; [by apply walk_effect_refl|by left]. }
    destruct (ps_alloc _ _ _ (proj1 Hinv)) as (s1 & Ha & _). rewrite Ha in Hw.
    destruct (ps_pages _ _ (proj1 Hinv)) as [_ Har]. inversion Har as [|? ? Hqp _]; subst.
    rewrite (proj2 (Z.eqb_neq _ _) (arena_nonzero _ Hqp)) in Hw.
    pose proof (new_table_effect ty q fl s s1 T r l _ _ Hinv HT ltac:(lia) Hpx Ev Ha) as Heff.
    destruct (new_table ty q fl s s1 T r l _ _ Hinv HT ltac:(lia) Hpx Ev Ha)
      as (Hinv2 & Hsub & _ & _ & _ & Hld).
    destruct (ptr_pte q Hqp) as (_ & Hv & Hlf & Hpa).
    eapply (IH q) in Hw; [|exact Hinv2|done|lia|].
    2: { unfold on_path. rewrite lookup_insert_eq, vpn_prefix_child by lia.
         by replace (l - 1) with (stop + Z.of_nat d) by lia. }
    destruct Hw as (ty' & fl' & Heff' & Hres). exists ty', fl'.
    split; [by eapply walk_effect_trans|]. destruct Hres as [|(T' & H1 & H2 & H3)]; [by left|right].
    exists T'. split_and!; [done|done|]. rewrite <- H3.
    rewrite (descend_step _ _ _ _ _ (Z.lor (PA2PTE q) PTE_V)), Hpa; [done| |done|done].
    fold l. rewrite <- Hld. eapply we_kept; [done|..|done|by rewrite Hld].
    exact (lookup_weaken _ _ _ _ HT Hsub).
Qed.
(** ** One leaf *)

Lemma level_size_eq level : 0 ≤ level → level_size level = 2 ^ (12 + 9 * level).
Proof.
  intros. unfold level_size, PGSIZE. rewrite Z.shiftl_mul_pow2 by lia.
  change 4096 with (2 ^ 12). by rewrite <- Z.pow_add_r by lia.
Qed.

(** The aligned block of [level_size level] bytes that [va] lies in. *)
Definition region (level va : Z) : Z := va mod 2 ^ 39 / 2 ^ (12 + 9 * level).

Lemma region_px l k x va :
  0 ≤ l ≤ k → k ≤ 2 → region l x = region l va → PX k x = PX k va.
Proof.
  intros Hl Hk. rewrite !PX_eq by lia. unfold region.
  destruct (level_cases l) as [->|[->| ->]]; [lia|..];
    destruct (level_cases k) as [->|[->| ->]]; try lia; simpl; ldiv.
Qed.
Lemma region_prefix l x va :
  0 ≤ l ≤ 2 → region l x = region l va ↔ vpn_prefix l x = vpn_prefix l va ∧ PX l x = PX l va.
Proof.
  intros Hl. rewrite !PX_eq by lia. unfold region, vpn_prefix.
  destruct (level_cases l) as [->|[->| ->]]; [lia|..]; simpl; (split; [|intros []]); ldiv.
Qed.

Lemma leaf_pte_fields pa perm :
  0 ≤ pa < 2 ^ 56 → page_aligned pa → 0 ≤ perm < 256 → PTE_IS_LEAF perm = true →
  let e := leaf_pte pa perm in
  0 ≤ e < 2 ^ 64 ∧ PTE_VALID e = true ∧ PTE_IS_LEAF e = true ∧ PTE2PA e = pa.
Proof.
  intros Hpa Hal Hperm Hleaf. cbn zeta. unfold leaf_pte.
  set (f := Z.lor perm _).
  assert (0 ≤ f < 1024) as Hf.
  { pose proof (lor_bound perm 193 8 ltac:(lia) ltac:(lia) ltac:(lia)). unfold f.
    change (Z.lor PTE_V (Z.lor PTE_A PTE_D)) with 193. lia. }
  split_and!.
  - rewrite pte_build by done. ldiv.
  - rewrite pte_build by done. ldiv.
  - rewrite pte_valid_build by done. unfold PTE_VALID, f. rewrite Z.land_lor_distr_l.
    destruct (Z.lor _ _ =? 0) eqn:E; [|done]. apply Z.eqb_eq, Z.lor_eq_0_iff in E as [_ E]. done.
  - rewrite pte_leaf_build by done. unfold PTE_IS_LEAF, f in *. rewrite Z.land_lor_distr_l.
    destruct (Z.lor (Z.land _ _) _ =? 0) eqn:E; [|done].
    apply Z.eqb_eq, Z.lor_eq_0_iff in E as [E _]. by rewrite E in Hleaf.
  - by apply PTE2PA_build.
Qed.

(** What mapping may change, whatever it maps. *)
Record map_effect (ty ty' : gmap Z place) (fl fl' : list Z) (s s' : pmm) : Prop := {
  me_inv : vm_inv ty' fl' s';
  me_sub : ty ⊆ ty';
  me_new : ∀ T p, ty' !! T = Some p → ty !! T = Some p ∨ (T ∈ fl ∧ (T ∉ fl') ∧ pl_level p < 2);
  me_free : fl' `suffix_of` fl;
  me_frame : tables_frame ty' (mem s) (mem s') }.

Lemma map_effect_trans ty1 ty2 ty3 fl1 fl2 fl3 s1 s2 s3 :
  map_effect ty1 ty2 fl1 fl2 s1 s2 → map_effect ty2 ty3 fl2 fl3 s2 s3 →
  map_effect ty1 ty3 fl1 fl3 s1 s3.
Proof.
  intros [I1 S1 N1 F1 R1] [I2 S2 N2 F2 R2]. split; [done|by etrans| |by etrans|].
  - intros T p HT. destruct (N2 T p HT) as [HT2|(Hin & Hout & Hl)].
    + destruct (N1 T p HT2) as [|(? & ? & ?)]; [by left|right]. split_and!; [done| |done].
      destruct F2 as [k ->]. set_solver.
    + right. split_and!; [|done|done]. destruct F1 as [k ->]. set_solver.
  - by eapply tables_frame_trans.
Qed.

Lemma is_root_mono ty ty' r : ty ⊆ ty' → is_root ty r → is_root ty' r.
Proof. intros Hs Hr. exact (lookup_weaken _ _ _ _ Hr Hs). Qed.

Lemma map_leaf ty fl s r va level pa perm a s1 :
  vm_inv ty fl s → is_root ty r → 0 ≤ level ≤ 2 →
  0 ≤ pa < 2 ^ 56 → page_aligned pa → 0 ≤ perm < 256 → PTE_IS_LEAF perm = true →
  walk r va true level s = (a, s1) → a ≠ 0 →
  let s2 := s1 <| mem := store64 (mem s1) a (leaf_pte pa perm) |> in
  ∃ ty' fl', map_effect ty ty' fl fl' s s2 ∧
    (∀ x, region level x = region level va →
       vm_translate_in (mem s2) r x = Z.lor pa (Z.land x (level_size level - 1))) ∧
    (∀ r' x, is_root ty r' → r' ≠ r ∨ region level x ≠ region level va →
       vm_translate_in (mem s2) r' x = vm_translate_in (mem s) r' x).
Proof.
  intros Hinv Hr Hl Hpa Hal Hperm Hleaf Hw Ha. cbn zeta. cbn [mem set_field set_mem].
  destruct (leaf_pte_fields pa perm Hpa Hal Hperm Hleaf) as (He & Hev & Hel & Hepa).
  set (e := leaf_pte pa perm) in *.
  eapply (walk_from_spec _ r va level ty fl s r) in Hw; [|done|lia|lia|].
  2: { replace (level + Z.of_nat (Z.to_nat (2 - level))) with 2 by lia. by apply is_root_path. }
  destruct Hw as (ty' & fl' & [I Sub N F T K R] & [|(T' & HT' & -> & Hd)]); [done|].
  assert (0 ≤ PX level va < 512) as Hpx by (apply PX_range; lia).
  exists ty', fl'. split_and!.
  - split; [|done..|]; simpl.
    + eapply vm_inv_store; [done|exact HT'|done|done|]. congruence.
    + intros x Hx. rewrite rd8_store64; [by apply R|]. intros Hin.
      eapply Hx; [exact HT'|]. by eapply slot_in_page.
  - intros x Hx. unfold vm_translate_in.
    set (d := Z.to_nat (2 - level)) in *. set (n := Z.to_nat level).
    replace 3%nat with (d + S n)%nat by lia.
    rewrite (translate_descend d n r T' x); [|].
    + cbn [translate_from]. replace (Z.of_nat n) with level by lia.
      fold (slot_addr T' (PX level x)). rewrite (region_px level level x va) by (lia || done).
      rewrite load64_store64 by done. by rewrite Hev, Hel, Hepa.
    + replace (Z.of_nat n) with level by lia. rewrite (descend_px d level r va x).
      2: { intros k Hk. apply (region_px level); [lia|lia|done]. }
      rewrite <- Hd. eapply (descend_store ty'); [apply I| |exact HT'|done|done|done|lia|lia].
      replace (level + Z.of_nat d) with 2 by lia. apply is_root_path. by eapply is_root_mono.
  - intros r' x Hr' Hne. unfold vm_translate_in. rewrite <- (T r' x 3%nat r'); [|lia|by apply is_root_path].
    eapply translate_store_other; [apply I|exact HT'|done|done|lia|..].
    + apply is_root_path. by eapply is_root_mono.
    + cbn [pl_root pl_level pl_prefix]. intros (-> & H1 & H2).
      destruct Hne as [|Hne]; [done|]. by apply Hne, region_prefix.
Qed.
(** ** A range of leaves *)

Lemma walk_zero_effect ty fl s r va level s1 :
  vm_inv ty fl s → is_root ty r → 0 ≤ level ≤ 2 → walk r va true level s = (0, s1) →
  ∃ ty' fl', map_effect ty ty' fl fl' s s1 ∧
    (∀ r' x, is_root ty r' → vm_translate_in (mem s1) r' x = vm_translate_in (mem s) r' x).
Proof.
  intros Hinv Hr Hl Hw.
  eapply (walk_from_spec _ r va level ty fl s r) in Hw; [|done|lia|lia|].
  2: { replace (level + Z.of_nat (Z.to_nat (2 - level))) with 2 by lia. by apply is_root_path. }
  destruct Hw as (ty' & fl' & [I Sub N F T K R] & _). exists ty', fl'. split; [done|].
  intros r' x Hr'. apply (T r' x 3%nat r'); [lia|by apply is_root_path].
Qed.

(** Inside one aligned block the leaf adds the offset. *)
Lemma leaf_offset level pa a x :
  0 ≤ level ≤ 2 → pa mod level_size level = 0 → a mod level_size level = 0 →
  a ≤ x < a + level_size level →
  Z.lor pa (Z.land x (level_size level - 1)) = pa + (x - a).
Proof.
  intros Hl Hpa Ha Hx. rewrite level_size_eq in * by lia. set (k := 12 + 9 * level) in *.
  rewrite land_mask by lia. assert (0 < 2 ^ k) by (apply Z.pow_pos_nonneg; lia).
  assert (pa = pa / 2 ^ k * 2 ^ k) as Hpa' by (rewrite (Z.div_mod pa (2 ^ k)) at 1; lia).
  rewrite Hpa' at 1. rewrite lor_disjoint by (lia || apply Z.mod_pos_bound; lia).
  rewrite <- Hpa'. f_equal.
  rewrite (Z.div_mod a (2 ^ k)) in Hx |- * by lia. rewrite Ha in *.
  rewrite (Z.div_mod x (2 ^ k)) at 2 by lia.
  assert (x / 2 ^ k = a / 2 ^ k) as ->; [|lia].
  symmetry. apply Z.div_unique_pos with (x - 2 ^ k * (a / 2 ^ k)); lia.
Qed.

Lemma region_block level a x :
  0 ≤ level ≤ 2 → 0 ≤ a → a mod level_size level = 0 → a + level_size level ≤ 2 ^ 39 →
  0 ≤ x < 2 ^ 39 → region level x = region level a ↔ a ≤ x < a + level_size level.
Proof.
  intros Hl Ha Hal Htop Hx. rewrite level_size_eq in * by lia. unfold region.
  destruct (level_cases level Hl) as [->|[->| ->]]; simpl in *; split; ldiv.
Qed.

Lemma level_size_cases level :
  0 ≤ level ≤ 2 → level_size level = 2 ^ 12 ∨ level_size level = 2 ^ 21 ∨ level_size level = 2 ^ 30.
Proof.
  intros Hl. rewrite level_size_eq by lia.
  destruct (level_cases level Hl) as [->|[->| ->]]; simpl; lia.
Qed.

Lemma vm_map_loop_spec fuel r a last pa perm level ty fl s res s' :
  vm_inv ty fl s → is_root ty r → 0 ≤ level ≤ 2 →
  0 ≤ a → a mod level_size level = 0 →
  last = a + Z.of_nat fuel * level_size level → last + level_size level ≤ 2 ^ 39 →
  0 ≤ pa → pa mod level_size level = 0 → pa + (last - a) + level_size level ≤ 2 ^ 56 →
  0 ≤ perm < 256 → PTE_IS_LEAF perm = true →
  vm_map_loop fuel r a last pa perm level s = (res, s') →
  ∃ ty' fl', map_effect ty ty' fl fl' s s' ∧ (res = 0 ∨ res = -1) ∧
    (res = 0 → ∀ x, a ≤ x < last + level_size level →
       vm_translate_in (mem s') r x = pa + (x - a)) ∧
    (∀ r' x, is_root ty r' → 0 ≤ x < 2 ^ 39 →
       r' ≠ r ∨ ¬ (a ≤ x < last + level_size level) →
       vm_translate_in (mem s') r' x = vm_translate_in (mem s) r' x).
Proof.
  intros Hinv Hr Hl Ha Hal Hlast Htop Hpa Hpal Hptop Hperm Hleaf.
  assert (0 < level_size level ≤ 2 ^ 30) as Hsz by (pose proof (level_size_cases level Hl); lia).
  assert (page_aligned pa) as Hpg.
  { unfold page_aligned, PGSIZE. pose proof (level_size_cases level Hl). zdiv. }
  revert a pa ty fl s Hinv Hr Ha Hal Hlast Hpa Hpal Hptop Hpg.
  induction fuel as [|fuel IH]; intros a pa ty fl s Hinv Hr Ha Hal Hlast Hpa Hpal Hptop Hpg;
    cbn [vm_map_loop]; destruct (walk r a true level s) as [pte s1] eqn:Hw;
    destruct (pte =? 0) eqn:E0; [apply Z.eqb_eq in E0 as ->| |apply Z.eqb_eq in E0 as ->|].
  1, 3: intros [= <- <-]; destruct (walk_zero_effect ty fl s r a level s1) as (ty' & fl' & Hef & Htr);
    [done..|]; exists ty', fl'; split_and!; [done|by right|lia|]; intros; by apply Htr.
  all: apply Z.eqb_neq in E0;
    destruct (map_leaf ty fl s r a level pa perm pte s1) as (ty1 & fl1 & Hef & Hin & Hout);
    [done|done|done|lia|done|done|done|done|done|].
  - assert (a = last) as -> by lia. rewrite Z.eqb_refl. intros [= <- <-].
    exists ty1, fl1. split_and!; [done|by left|..].
    + intros _ x Hx. rewrite Hin by (apply region_block; lia). apply leaf_offset; lia.
    + intros r' x Hr' Hx Hne. apply Hout; [done|]. destruct Hne as [|Hne]; [by left|right].
      rewrite region_block by lia. done.
  - rewrite (proj2 (Z.eqb_neq a last)) by lia. rewrite !u64_small by lia. intros Hloop.
    set (s2 := s1 <| mem := _ |>) in *.
    destruct (IH (a + level_size level) (pa + level_size level) ty1 fl1 s2)
      as (ty2 & fl2 & Hef2 & Hres & Hin2 & Hout2); try done.
    + apply Hef.
    + eapply is_root_mono; [apply Hef|done].
    + lia.
    + rewrite <- Z.add_mod_idemp_l, Hal by lia. rewrite Z.add_0_l. by apply Z.mod_same; lia.
    + lia.
    + lia.
    + rewrite <- Z.add_mod_idemp_l, Hpal by lia. rewrite Z.add_0_l. by apply Z.mod_same; lia.
    + lia.
    + unfold page_aligned, PGSIZE in *. pose proof (level_size_cases level Hl). ldiv.
    + exists ty2, fl2. split_and!; [by eapply map_effect_trans|done|..].
      * intros H0 x Hx. destruct (decide (x < a + level_size level)).
        -- rewrite Hout2; [|by eapply is_root_mono; [apply Hef|]|lia|right; lia].
           rewrite Hin by (apply region_block; lia). rewrite (leaf_offset level pa a x); lia.
        -- rewrite (Hin2 H0) by lia. lia.
      * intros r' x Hr' Hx Hne. rewrite Hout2; [|by eapply is_root_mono; [apply Hef|]|done|].
        -- apply Hout; [done|]. destruct Hne as [|Hne]; [by left|right].
           rewrite region_block by lia. lia.
        -- destruct Hne as [|Hne]; [by left|right]. lia.
Qed.
Lemma vm_map_at_spec ty fl s r va pa size perm level res s' :
  vm_inv ty fl s → is_root ty r → 0 ≤ level ≤ 2 →
  0 ≤ va → va mod level_size level = 0 → 0 < size →
  va + size + level_size level ≤ 2 ^ 39 →
  0 ≤ pa < 2 ^ 55 → pa mod level_size level = 0 →
  0 ≤ perm < 256 → PTE_IS_LEAF perm = true →
  vm_map_at r va pa size perm level s = (res, s') →
  let top := va + (size + level_size level - 1) / level_size level * level_size level in
  ∃ ty' fl', map_effect ty ty' fl fl' s s' ∧ (res = 0 ∨ res = -1) ∧
    (res = 0 → ∀ x, va ≤ x < top → vm_translate_in (mem s') r x = pa + (x - va)) ∧
    (∀ r' x, is_root ty r' → 0 ≤ x < 2 ^ 39 → r' ≠ r ∨ ¬ (va ≤ x < top) →
       vm_translate_in (mem s') r' x = vm_translate_in (mem s) r' x).
Proof.
  intros Hinv Hr Hl Hva Hal Hsize Htop Hpa Hpal Hperm Hleaf Hmap. cbn zeta.
  set (psz := level_size level) in *.
  assert (∃ k, 12 ≤ k ≤ 30 ∧ psz = 2 ^ k) as (k & Hk & Hpsz).
  { destruct (level_size_cases level Hl) as [H|[H|H]]; [exists 12|exists 21|exists 30]; (split; [lia|done]). }
  assert (0 < psz ≤ 2 ^ 30) as Hpos by (pose proof (level_size_cases level Hl); lia).
  assert (∀ z, 0 ≤ z → Z.land z (Z.lnot (psz - 1)) = z / psz * psz) as Hmask.
  { intros z Hz. rewrite Hpsz. apply land_lnot_mask. lia. }
  assert (va / psz * psz = va) as Hva'.
  { rewrite (Z.div_mod va psz) at 2 by lia. lia. }
  assert ((va + size - 1) / psz * psz = va + (size + psz - 1) / psz * psz - psz) as Hlast.
  { replace (va + size - 1) with (size - 1 + va / psz * psz) by lia.
    replace (size + psz - 1) with (size - 1 + 1 * psz) by lia.
    rewrite !Z.div_add by lia. lia. }
  unfold vm_map_at in Hmap. fold psz in Hmap. rewrite (u64_small (va + size - 1)) in Hmap by lia.
  rewrite !Hmask, Hva', Hlast in Hmap by lia.
  set (n := (size + psz - 1) / psz) in *.
  assert (1 ≤ n ∧ n * psz < size + psz) as [Hn1 Hn2].
  { subst n. split; [apply Z.div_le_lower_bound; lia|].
    pose proof (Z.mul_div_le (size + psz - 1) psz). lia. }
  replace (u64 (va + n * psz - psz - va) / psz) with (n - 1) in Hmap.
  2: { assert (psz ≤ n * psz) by nia. rewrite u64_small by lia. replace (va + n * psz - psz - va) with ((n - 1) * psz) by lia.
       by rewrite Z.div_mul by lia. }
  eapply (vm_map_loop_spec _ r va) in Hmap; try done; fold psz; [|rewrite Z2Nat.id by lia; lia|lia..].
  fold psz in Hmap. replace (va + n * psz - psz + psz) with (va + n * psz) in Hmap by lia.
  exact Hmap.
Qed.

(** ** Removing a page *)

(** Giving back a page that is not a table keeps the tables. *)
Lemma vm_inv_free ty fl s p :
  vm_inv ty fl s → arena_page p → p ∉ fl → ty !! p = None →
  vm_inv ty (p :: fl) (pmm_free p s) ∧
  (∀ T pl i, ty !! T = Some pl → 0 ≤ i < 512 →
     load64 (mem (pmm_free p s)) (slot_addr T i) = load64 (mem s) (slot_addr T i)) ∧
  same_outside p (mem s) (mem (pmm_free p s)).
Proof.
  intros [Hrep Hok] Hp Hfl Hty. destruct (ps_free s p fl Hrep Hp Hfl) as [Hrep' Hout].
  assert (∀ T pl i, ty !! T = Some pl → 0 ≤ i < 512 →
     load64 (mem (pmm_free p s)) (slot_addr T i) = load64 (mem s) (slot_addr T i)) as Hld.
  { intros T pl i HT Hi. apply load64_agree. intros x Hx. apply Hout.
    pose proof (slot_in_page _ _ _ Hi Hx).
    destruct (arena_disjoint p T Hp); unfold PGSIZE in *; [by eapply tok_page, Hok|congruence|lia|lia]. }
  split_and!; [split; [done|]|done|done].
  intros T pl HT. destruct (Hok _ _ HT) as [H1 H2 H3 H4].
  split; [done| |done|].
  - rewrite elem_of_cons. intros [->|]; congruence.
  - intros i e Hi <-. rewrite (Hld T pl i) by done. by apply H4.
Qed.

(** The valid 4 KiB entry for [va], if there is one. *)
Definition small_entry (m : memory) (r va : Z) : option Z :=
  match descend 2 0 r va m with
  | Some T => let e := load64 m (slot_addr T (PX 0 va)) in
              if PTE_VALID e then Some e else None
  | None => None
  end.

(** The frame the entry names is the caller's alone to give back: it is
    shared (mapped identically, or outside the arena), or it is a page of
    the arena that is neither free nor a table. *)
Definition frame_owned (ty : gmap Z place) (fl : list Z) (va pa : Z) : Prop :=
  pa = va ∨ ¬ arena_page pa ∨ (arena_page pa ∧ (pa ∉ fl) ∧ ty !! pa = None).

Definition freed_list (fl : list Z) (va pa : Z) : list Z :=
  if (pa =? va) || pmm_refuses pa then fl else pa :: fl.

Lemma walk_small m r va s :
  mem s = m → walk r va false 0 s =
    (match descend 2 0 r va m with Some T => slot_addr T (PX 0 va) | None => 0 end, s).
Proof. intros <-. exact (walk_from_false 2 r va 0 s). Qed.

Lemma descend_typed ty fl m r va d stop T T' :
  tables_ok ty fl m → 0 ≤ stop → stop + Z.of_nat d ≤ 2 →
  on_path ty r va (stop + Z.of_nat d) T →
  descend d stop T va m = Some T' → on_path ty r va stop T'.
Proof.
  intros Hok Hs. revert T. induction d as [|d IH]; intros T Hd HT Hdesc.
  { simpl in Hdesc. simplify_eq. by rewrite Z.add_0_r in HT. }
  cbn [descend] in Hdesc. set (l := stop + Z.of_nat (S d)) in *.
  assert (0 ≤ PX l va < 512) as Hpx by (apply PX_range; lia).
  destruct (PTE_VALID _) eqn:Ev; [|done]. destruct (PTE_IS_LEAF _) eqn:El; [done|].
  destruct (tok_child _ _ _ _ _ (Hok _ _ HT) _ _ Hpx eq_refl Ev El) as [_ Hc].
  cbn [pl_root pl_level pl_prefix] in Hc. rewrite vpn_prefix_child in Hc by lia.
  eapply IH; [lia| |exact Hdesc]. unfold on_path.
  by replace (stop + Z.of_nat d) with (l - 1) by lia.
Qed.

Lemma unmap_spec ty fl s r va :
  vm_inv ty fl s → is_root ty r →
  match small_entry (mem s) r va with
  | None => vm_unmap_page r va s = (-1, s)
  | Some e =>
      frame_owned ty fl va (PTE2PA e) →
      ∃ s', vm_unmap_page r va s = (0, s') ∧
        vm_inv ty (freed_list fl va (PTE2PA e)) s' ∧
        (∀ x, region 0 x = region 0 va → vm_translate_in (mem s') r x = 0) ∧
        (∀ r' x, is_root ty r' → r' ≠ r ∨ region 0 x ≠ region 0 va →
           vm_translate_in (mem s') r' x = vm_translate_in (mem s) r' x)
  end.
Proof.
  intros Hinv Hr. unfold small_entry, vm_unmap_page. rewrite (walk_small (mem s)) by done.
  assert (0 ≤ PX 0 va < 512) as Hpx by (apply PX_range; lia).
  destruct (descend 2 0 r va (mem s)) as [T|] eqn:Hd; [|done].
  assert (on_path ty r va 0 T) as HT.
  { eapply descend_typed; [apply Hinv| | | |exact Hd]; [lia|lia|]. by apply is_root_path. }
  assert (slot_addr T (PX 0 va) ≠ 0) as Hnz.
  { destruct (tok_page _ _ _ _ _ (proj2 Hinv _ _ HT)) as [_ H]. unfold slot_addr, RAM_BASE in *. lia. }
  rewrite (proj2 (Z.eqb_neq _ _) Hnz). cbn [orb].
  set (e := load64 (mem s) (slot_addr T (PX 0 va))) in *.
  destruct (PTE_VALID e) eqn:Ev; [|done]. cbn [negb]. intros Hown.
  eexists. split; [done|]. set (s2 := s <| mem := _ |>).
  assert (vm_inv ty fl s2) as Hinv2 by (eapply vm_inv_store; [done|exact HT|done|done|done]).
  assert (∀ x, region 0 x = region 0 va → vm_translate_in (mem s2) r x = 0) as Hgone.
  { intros x Hx. change (vm_translate_in (mem s2) r x) with (translate_from (2 + 1) r x (mem s2)).
    rewrite (translate_descend 2 0 r T x).
    - cbn [translate_from]. change (Z.of_nat 0) with 0. fold (slot_addr T (PX 0 x)).
      rewrite (region_px 0 0 x va) by (lia || done). cbn [s2 mem set_field set_mem].
      by rewrite load64_store64.
    - rewrite (descend_px 2 (Z.of_nat 0) r va x).
      2: { intros k Hk. apply (region_px 0); [lia|lia|done]. }
      rewrite <- Hd. eapply (descend_store ty); [apply Hinv| |exact HT|done|done|done|lia|lia].
      by apply is_root_path. }
  assert (∀ r' x, is_root ty r' → r' ≠ r ∨ region 0 x ≠ region 0 va →
            vm_translate_in (mem s2) r' x = vm_translate_in (mem s) r' x) as Hkeep.
  { intros r' x Hr' Hne. eapply translate_store_other; [apply Hinv|exact HT|done|done|lia|..].
    - by apply is_root_path.
    - cbn [pl_root pl_level pl_prefix]. intros (-> & H1 & H2).
      destruct Hne as [|Hne]; [done|]. by apply Hne, region_prefix. }
  unfold freed_list. destruct (PTE2PA e =? va) eqn:Eva; [by split_and!|]. cbn [orb].
  destruct (pmm_refuses (PTE2PA e)) eqn:Eref.
  { rewrite ps_refuse; [by split_and!|]. rewrite <- pmm_refuses_spec. congruence. }
  apply pmm_refuses_spec in Eref. destruct Hown as [|[|(_ & Hfl & Hty)]]; [lia|done|].
  destruct (vm_inv_free ty fl s2 (PTE2PA e)) as (Hinv3 & Hld & _); [done..|].
  assert (∀ r' x, is_root ty r' → vm_translate_in (mem (pmm_free (PTE2PA e) s2)) r' x =
            vm_translate_in (mem s2) r' x) as Hsame.
  { intros r' x Hr'. eapply translate_ext; [apply Hinv2|lia|by apply is_root_path|].
    intros l T' Hl HT'. eapply Hld; [exact HT'|]. apply PX_range. lia. }
  split_and!; [done|..]; intros; rewrite Hsame by done; auto.
Qed.
End with_pages.

(** ** A small machine for the witnesses

    Six free pages, the first of which is the root of an empty address
    space. *)
Definition demo_boot : pmm := pmm_init (PMM_TOP - 6 * PGSIZE) (pmm_zero ∅).
Definition demo_root : Z := PMM_TOP - PGSIZE.
Definition demo_free : list Z :=
  (λ i, PMM_TOP - i * PGSIZE) <$> [2; 3; 4; 5; 6].
Definition demo : pmm := (pmm_alloc demo_boot).2.
Definition demo_ty : gmap Z place := {[demo_root := Place demo_root 2 0]}.

Lemma demo_inv : vm_inv (rep := pmm_rep) demo_ty demo_free demo.
Proof.
  assert (pmm_rep demo_boot (demo_root :: demo_free)) as Hrep.
  { exact (proj1 (pmm_init_rep (PMM_TOP - 6 * PGSIZE) ∅ ltac:(done))). }
  destruct (ps_alloc _ _ _ Hrep) as (s1 & Ha & _).
  assert (demo = s1) as -> by (unfold demo; by rewrite Ha).
  destruct (fresh_table (rep := pmm_rep) ∅ demo_root demo_free demo_boot s1 (Place demo_root 2 0))
    as (Hinv & _); [by split|simpl; lia|done|exact Hinv].
Qed.
Lemma demo_is_root : is_root demo_ty demo_root.
Proof. apply lookup_singleton_eq. Qed.

(** The same machine with one heap page and one stack page mapped. *)
Definition demo_heap : pmm :=
  (vm_map_at demo_root UHEAP_BASE 0x82000000 PGSIZE (Z.lor PTE_R PTE_W) 0 demo).2.
Definition demo_mapped : pmm :=
  (vm_map_at demo_root (USTACK_TOP - PGSIZE) 0x82001000 PGSIZE (Z.lor PTE_R PTE_W) 0 demo_heap).2.

Lemma demo_heap_ok :
  (vm_map_at demo_root UHEAP_BASE 0x82000000 PGSIZE (Z.lor PTE_R PTE_W) 0 demo).1 = 0.
Proof. vm_compute. reflexivity. Qed.
Lemma demo_mapped_ok :
  (vm_map_at demo_root (USTACK_TOP - PGSIZE) 0x82001000 PGSIZE (Z.lor PTE_R PTE_W) 0 demo_heap).1 = 0.
Proof. vm_compute. reflexivity. Qed.

Lemma demo_steps s s1 s2 :
  vm_inv (rep := pmm_rep) demo_ty demo_free s →
  vm_map_at demo_root UHEAP_BASE 0x82000000 PGSIZE (Z.lor PTE_R PTE_W) 0 s = (0, s1) →
  vm_map_at demo_root (USTACK_TOP - PGSIZE) 0x82001000 PGSIZE (Z.lor PTE_R PTE_W) 0 s1 = (0, s2) →
  ∃ ty fl, vm_inv (rep := pmm_rep) ty fl s2 ∧ is_root ty demo_root ∧
    (∀ T p, ty !! T = Some p → PMM_TOP - 6 * PGSIZE ≤ T) ∧
    (∀ i, 0 ≤ i < PGSIZE → vm_translate_in (mem s2) demo_root (UHEAP_BASE + i) = 0x82000000 + i) ∧
    (∀ i, 0 ≤ i < PGSIZE →
       vm_translate_in (mem s2) demo_root (USTACK_TOP - PGSIZE + i) = 0x82001000 + i).
Proof.
  intros Hinv E1 E2.
  eapply (vm_map_at_spec (rep := pmm_rep) demo_ty demo_free) in E1 as (ty1 & fl1 & M1 & _ & H1 & O1);
    [|exact Hinv|exact demo_is_root|by_compute..].
  assert (is_root ty1 demo_root) as Hroot1 by (eapply is_root_mono; [apply M1|apply demo_is_root]).
  eapply (vm_map_at_spec (rep := pmm_rep) ty1 fl1) in E2 as (ty2 & fl2 & M2 & _ & H2 & O2);
    [|apply M1|exact Hroot1|by_compute..].
  exists ty2, fl2. split_and!; [apply M2|by eapply is_root_mono; [apply M2|]|..].
  - assert (∀ T, T ∈ demo_free → PMM_TOP - 6 * PGSIZE ≤ T) as Hfree.
    { intros T HT. repeat (apply elem_of_cons in HT as [->|HT]; [by_compute|]). by apply not_elem_of_nil in HT. }
    intros T p HT. destruct (me_new _ _ _ _ _ _ M2 T p HT) as [HT1|(Hin & _)].
    + destruct (me_new _ _ _ _ _ _ M1 T p HT1) as [HT0|(Hin & _)]; [|by apply Hfree].
      unfold demo_ty in HT0. apply lookup_singleton_Some in HT0 as [<- _]. by_compute.
    + apply Hfree. destruct (me_free _ _ _ _ _ _ M1) as [k Hk].
      rewrite Hk. apply elem_of_app. by right.
  - intros i Hi. change (level_size 0) with 4096 in *. unfold PGSIZE, UHEAP_BASE, USTACK_TOP in *.
    rewrite O2 by (done || lia || right; ldiv). rewrite (H1 eq_refl) by ldiv. lia.
  - intros i Hi. change (level_size 0) with 4096 in *. unfold PGSIZE, USTACK_TOP in *.
    rewrite (H2 eq_refl) by ldiv. lia.
Qed.

Lemma pair_of_fst {A B} (p : A * B) a : p.1 = a → p = (a, p.2).
Proof. by destruct p; simpl; intros ->. Qed.

#[local] Strategy expand [demo_mapped].
#[local] Strategy -10 [demo_heap].
Lemma demo_mapped_inv :
  ∃ ty fl, vm_inv (rep := pmm_rep) ty fl demo_mapped ∧ is_root ty demo_root ∧
    (∀ T p, ty !! T = Some p → PMM_TOP - 6 * PGSIZE ≤ T) ∧
    (∀ i, 0 ≤ i < PGSIZE → vm_translate_in (mem demo_mapped) demo_root (UHEAP_BASE + i) = 0x82000000 + i) ∧
    (∀ i, 0 ≤ i < PGSIZE →
       vm_translate_in (mem demo_mapped) demo_root (USTACK_TOP - PGSIZE + i) = 0x82001000 + i).
Proof.
  exact (demo_steps _ _ _ demo_inv (pair_of_fst _ _ demo_heap_ok) (pair_of_fst _ _ demo_mapped_ok)).
Qed.

(** ** Theorems *)

(** C16: [vm_map_at] on an aligned range either fails with [-1] or maps
    the whole range: every address in it translates to the physical
    address at the same offset.  Whatever the outcome, every other
    address of this space and every address of every other space
    translates as before, bytes outside the page tables are untouched,
    the tables it adds come off the free list, and the typing invariant
    holds again. *)
Theorem vm_map_at_correct ty fl s r va pa size perm level res s' :
  vm_inv (rep := pmm_rep) ty fl s → is_root ty r → 0 ≤ level ≤ 2 →
  0 ≤ va → va mod level_size level = 0 → 0 < size →
  va + size + level_size level ≤ 2 ^ 39 →
  0 ≤ pa < 2 ^ 55 → pa mod level_size level = 0 →
  0 ≤ perm < 256 → PTE_IS_LEAF perm = true →
  vm_map_at r va pa size perm level s = (res, s') →
  let top := va + (size + level_size level - 1) / level_size level * level_size level in
  ∃ ty' fl', map_effect (rep := pmm_rep) ty ty' fl fl' s s' ∧ (res = 0 ∨ res = -1) ∧
    (res = 0 → ∀ x, va ≤ x < top → vm_translate_in (mem s') r x = pa + (x - va)) ∧
    (∀ r' x, is_root ty r' → 0 ≤ x < 2 ^ 39 → r' ≠ r ∨ ¬ (va ≤ x < top) →
       vm_translate_in (mem s') r' x = vm_translate_in (mem s) r' x).
Proof. exact (vm_map_at_spec ty fl s r va pa size perm level res s'). Qed.
Lemma vm_map_at_correct_witness :
  let '(res, s') := vm_map_at demo_root UHEAP_BASE 0x82000000 PGSIZE (Z.lor PTE_R PTE_W) 0 demo in
  res = 0 ∧ vm_translate_in (mem s') demo_root (UHEAP_BASE + 17) = 0x82000011.
Proof.
  destruct (vm_map_at demo_root UHEAP_BASE 0x82000000 PGSIZE (Z.lor PTE_R PTE_W) 0 demo)
    as [res s'] eqn:E.
  assert (res = 0) as ->.
  { change res with (res, s').1. rewrite <- E. vm_compute. reflexivity. }
  split; [done|].
  destruct (vm_map_at_correct demo_ty demo_free demo demo_root UHEAP_BASE 0x82000000 PGSIZE
    (Z.lor PTE_R PTE_W) 0 0 s') as (ty' & fl' & _ & _ & H & _);
    [exact demo_inv|exact demo_is_root|by_compute..|exact E|].
  rewrite (H eq_refl); by_compute.
Defined.

(** [vm_unmap_page] refuses an address with no 4 KiB entry and
    changes nothing; otherwise the page disappears from this address
    space and from nothing else, and its frame goes back to the
    allocator exactly when it is not identity-mapped and is a page of
    the arena. *)
Theorem vm_unmap_page_correct ty fl s r va :
  vm_inv (rep := pmm_rep) ty fl s → is_root ty r →
  match small_entry (mem s) r va with
  | None => vm_unmap_page r va s = (-1, s)
  | Some e =>
      frame_owned ty fl va (PTE2PA e) →
      ∃ s', vm_unmap_page r va s = (0, s') ∧
        vm_inv (rep := pmm_rep) ty (freed_list fl va (PTE2PA e)) s' ∧
        (∀ x, region 0 x = region 0 va → vm_translate_in (mem s') r x = 0) ∧
        (∀ r' x, is_root ty r' → r' ≠ r ∨ region 0 x ≠ region 0 va →
           vm_translate_in (mem s') r' x = vm_translate_in (mem s) r' x)
  end.
Proof. exact (unmap_spec ty fl s r va). Qed.
Lemma vm_unmap_page_correct_witness : vm_unmap_page demo_root UHEAP_BASE demo = (-1, demo).
Proof.
  pose proof (vm_unmap_page_correct demo_ty demo_free demo demo_root UHEAP_BASE
    demo_inv demo_is_root) as H.
  assert (small_entry (mem demo) demo_root UHEAP_BASE = None) as E by (vm_compute; reflexivity).
  by rewrite E in H.
Defined.
