(* ===== verification/VmCopy.v ===== *)
(** * Copying between address spaces (proofs about src/src/vm.c)

    [vm_copy_across] moves bytes page fragment by page fragment through
    physical memory.  The specification is per byte: byte [i] of the
    destination range receives byte [i] of the source range, up to the
    first byte that is unmapped on either side. *)
From stdpp Require Import base list numbers option gmap.
From S2P Require Import Prelude Mem Riscv Pmm Vm VmMap.
Local Open Scope Z_scope.

(** ** Translation inside one page *)

Lemma lor_page p x i :
  p mod 4096 = 0 → 0 ≤ i → x mod 4096 + i < 4096 → Z.lor p (x + i) = Z.lor p x + i.
Proof.
  intros Hp Hi Hx.
  assert (∀ y, Z.lor p y = Z.lor (p / 2 ^ 12) (y / 2 ^ 12) * 2 ^ 12 + y mod 2 ^ 12) as Hsplit.
  { intros y. rewrite <- (lor_disjoint _ (y mod 2 ^ 12) 12) by (lia || apply Z.mod_pos_bound; lia).
    rewrite <- Z.shiftl_mul_pow2, Z.shiftl_lor, !Z.shiftl_mul_pow2 by lia.
    replace (p / 2 ^ 12 * 2 ^ 12) with p by (change (2 ^ 12) with 4096; ldiv).
    rewrite <- Z.lor_assoc. f_equal.
    rewrite lor_disjoint by (lia || apply Z.mod_pos_bound; lia).
    rewrite (Z.div_mod y (2 ^ 12)) at 1; lia. }
  rewrite !Hsplit. change (2 ^ 12) with 4096.
  replace ((x + i) / 4096) with (x / 4096) by ldiv.
  replace ((x + i) mod 4096) with (x mod 4096 + i) by ldiv. lia.
Qed.

Lemma PTE2PA_aligned e : PTE2PA e mod 4096 = 0.
Proof.
  unfold PTE2PA, u64. rewrite Z.shiftl_mul_pow2 by lia.
  change (2 ^ 64) with (2 ^ 52 * 2 ^ 12). rewrite Z.mul_mod_distr_r by lia.
  change (2 ^ 12) with 4096. apply Z_mod_mult.
Qed.

Lemma same_page_region va i :
  0 ≤ i → va mod 4096 + i < 4096 → region 0 (va + i) = region 0 va.
Proof. intros. unfold region. simpl. ldiv. Qed.

Lemma land_mask_page va i l :
  0 ≤ l → 0 ≤ i → va mod 4096 + i < 4096 →
  Z.land (va + i) (level_size l - 1) = Z.land va (level_size l - 1) + i ∧
  Z.land va (level_size l - 1) mod 4096 = va mod 4096.
Proof.
  intros Hl Hi Hva. rewrite level_size_eq by lia. rewrite !land_mask by lia.
  replace (2 ^ (12 + 9 * l)) with (4096 * 2 ^ (9 * l)) by (by rewrite Z.pow_add_r by lia).
  assert (0 < 2 ^ (9 * l)) by (apply Z.pow_pos_nonneg; lia).
  rewrite !Z.rem_mul_r by lia.
  replace ((va + i) / 4096) with (va / 4096) by ldiv.
  replace ((va + i) mod 4096) with (va mod 4096 + i) by ldiv.
  split; [lia|]. rewrite Z.mul_comm, Z_mod_plus_full, Zmod_mod. done.
Qed.

Lemma translate_same_page n T va m i :
  (n ≤ 3)%nat → 0 ≤ i → va mod PGSIZE + i < PGSIZE → translate_from n T va m ≠ 0 →
  translate_from n T (va + i) m = translate_from n T va m + i.
Proof.
  unfold PGSIZE. intros Hn Hi Hva. revert T. induction n as [|n IH]; intros T; [done|].
  cbn [translate_from].
  rewrite (region_px 0 (Z.of_nat n) (va + i) va) by (lia || by apply same_page_region).
  destruct (PTE_VALID _); [|done]. cbn [negb]. destruct (PTE_IS_LEAF _); [|apply IH; lia].
  intros _. destruct (land_mask_page va i (Z.of_nat n)) as [-> Hm]; [lia|done|done|].
  apply lor_page; [apply PTE2PA_aligned|done|]. by rewrite Hm.
Qed.

Lemma translate_nonneg n T va m : 0 ≤ va → 0 ≤ translate_from n T va m.
Proof.
  intros Hva. revert T. induction n as [|n IH]; intros T; [done|]. cbn [translate_from].
  destruct (PTE_VALID _); [|done]. cbn [negb]. destruct (PTE_IS_LEAF _); [|done].
  apply Z.lor_nonneg. split; [apply Z.mod_pos_bound; lia|]. apply Z.land_nonneg. by left.
Qed.

(** ** The loop *)

Section copy.
Context (ty : gmap Z place) (fl : list Z) (dpt spt : Z).
Context (Hd : is_root ty dpt) (Hs : is_root ty spt).

(** The [k] leading bytes of both ranges are mapped; the destination
    bytes are distinct, are not source bytes and lie outside the page
    tables. *)
Record copy_range (m : memory) (dva sva k : Z) : Prop := {
  cr_src : ∀ i, 0 ≤ i < k → vm_translate_in m spt (sva + i) ≠ 0;
  cr_dst : ∀ i, 0 ≤ i < k → vm_translate_in m dpt (dva + i) ≠ 0;
  cr_tab : ∀ i T p, 0 ≤ i < k → ty !! T = Some p →
    ¬ (T ≤ vm_translate_in m dpt (dva + i) < T + PGSIZE);
  cr_sep : ∀ i j, 0 ≤ i < k → 0 ≤ j < k →
    vm_translate_in m dpt (dva + i) ≠ vm_translate_in m spt (sva + j);
  cr_inj : ∀ i j, 0 ≤ i < k → 0 ≤ j < k → i ≠ j →
    vm_translate_in m dpt (dva + i) ≠ vm_translate_in m dpt (dva + j) }.

(** Writing outside the tables changes no table. *)
Lemma tables_ok_outside m m' :
  tables_ok ty fl m →
  (∀ T p a, ty !! T = Some p → T ≤ a < T + PGSIZE → rd8 m' a = rd8 m a) →
  tables_ok ty fl m' ∧ ∀ r va, is_root ty r → vm_translate_in m' r va = vm_translate_in m r va.
Proof.
  intros Hok Hout.
  assert (∀ T p i, ty !! T = Some p → 0 ≤ i < 512 →
            load64 m' (slot_addr T i) = load64 m (slot_addr T i)) as Hld.
  { intros T p i HT Hi. apply load64_agree. intros x Hx. eapply Hout; [done|].
    by eapply slot_in_page. }
  split.
  - intros T p HT. destruct (Hok _ _ HT) as [H1 H2 H3 H4]. split; [done..|].
    intros i e Hi <-. rewrite (Hld T p i) by done. by apply H4.
  - intros r va Hr. eapply translate_ext; [done|lia|by apply is_root_path|].
    intros l T Hl HT. eapply Hld; [exact HT|]. apply PX_range. lia.
Qed.

Lemma copy_chunk_bounds dva sva len :
  0 < len → let n := copy_chunk dva sva len in
  0 < n ≤ len ∧ sva mod PGSIZE + n ≤ PGSIZE ∧ dva mod PGSIZE + n ≤ PGSIZE.
Proof.
  intros Hlen. cbn zeta. unfold copy_chunk. pose proof (Z.mod_pos_bound sva PGSIZE eq_refl).
  pose proof (Z.mod_pos_bound dva PGSIZE eq_refl).
  destruct (Z.ltb_spec (PGSIZE - dva mod PGSIZE) (PGSIZE - sva mod PGSIZE));
    match goal with |- context [len <? ?b] => destruct (Z.ltb_spec len b) end; lia.
Qed.

(** One round: the bytes of the chunk arrive and nothing else moves. *)
Lemma copy_round m dva sva k n :
  copy_range m dva sva k → 0 ≤ sva → 0 ≤ dva → 0 < n ≤ k →
  sva mod PGSIZE + n ≤ PGSIZE → dva mod PGSIZE + n ≤ PGSIZE →
  let d := vm_translate_in m dpt dva in
  let m' := memcpy m d (vm_translate_in m spt sva) n in
  (∀ i, 0 ≤ i < n → vm_translate_in m dpt (dva + i) = d + i) ∧
  (∀ i, 0 ≤ i < n → rd8 m' (vm_translate_in m dpt (dva + i)) =
                    rd8 m (vm_translate_in m spt (sva + i))) ∧
  (∀ a, ¬ (d ≤ a < d + n) → rd8 m' a = rd8 m a).
Proof.
  intros [Hsrc Hdst _ Hsep _] Hsva Hdva Hn Hsp Hdp. cbn zeta.
  set (d := vm_translate_in m dpt dva). set (s := vm_translate_in m spt sva).
  assert (∀ i, 0 ≤ i < n → vm_translate_in m dpt (dva + i) = d + i) as HD.
  { intros i Hi. apply translate_same_page; [lia|lia|lia|].
    specialize (Hdst 0 ltac:(lia)). by rewrite Z.add_0_r in Hdst. }
  assert (∀ i, 0 ≤ i < n → vm_translate_in m spt (sva + i) = s + i) as HS.
  { intros i Hi. apply translate_same_page; [lia|lia|lia|].
    specialize (Hsrc 0 ltac:(lia)). by rewrite Z.add_0_r in Hsrc. }
  assert (d + n ≤ s ∨ s + n ≤ d) as Hdis.
  { destruct (decide (d + n ≤ s)); [by left|]. destruct (decide (s + n ≤ d)); [by right|].
    exfalso. destruct (decide (d ≤ s)).
    - apply (Hsep (s - d) 0); [lia|lia|]. rewrite HD, HS by lia. lia.
    - apply (Hsep 0 (d - s)); [lia|lia|]. rewrite HD, HS by lia. lia. }
  split_and!; [done|..].
  - intros i Hi. rewrite HD, HS by done. unfold memcpy.
    apply rd8_memcpy_loop_in; rewrite Z2Nat.id by lia; lia.
  - intros a Ha. unfold memcpy. apply rd8_memcpy_loop_out. rewrite Z2Nat.id by lia. lia.
Qed.

Lemma vm_copy_loop_spec fuel m dva sva len k :
  tables_ok ty fl m → 0 ≤ k ≤ len → len ≤ Z.of_nat fuel →
  0 ≤ sva → 0 ≤ dva → sva + len < 2 ^ 64 → dva + len < 2 ^ 64 →
  copy_range m dva sva k →
  (k = len ∨ vm_translate_in m spt (sva + k) = 0 ∨ vm_translate_in m dpt (dva + k) = 0) →
  ∃ m', vm_copy_loop fuel dpt dva spt sva len m = (if k =? len then 0 else -1, m') ∧
    (∀ i, 0 ≤ i < k → rd8 m' (vm_translate_in m dpt (dva + i)) =
                      rd8 m (vm_translate_in m spt (sva + i))) ∧
    (∀ a, (∀ i, 0 ≤ i < k → a ≠ vm_translate_in m dpt (dva + i)) → rd8 m' a = rd8 m a).
Proof.
  revert m dva sva len k.
  induction fuel as [|fuel IH]; intros m dva sva len k Hok Hk Hf Hsva Hdva Hst Hdt Hcr Hstop;
    cbn [vm_copy_loop].
  { assert (len = 0) as -> by lia. assert (k = 0) as -> by lia. exists m. simpl.
    split_and!; [done|lia|done]. }
  destruct (Z.eqb_spec len 0) as [->|Hlen].
  { assert (k = 0) as -> by lia. exists m. split_and!; [done|lia|done]. }
  destruct (Z.eqb_spec (vm_translate_in m spt sva) 0) as [E|Es]; cbn [orb].
  { assert (k = 0) as ->.
    { destruct (decide (k = 0)); [done|]. pose proof (cr_src _ _ _ _ Hcr 0 ltac:(lia)) as H.
      by rewrite Z.add_0_r in H. }
    rewrite (proj2 (Z.eqb_neq 0 len)) by lia. exists m. split_and!; [done|lia|done]. }
  destruct (Z.eqb_spec (vm_translate_in m dpt dva) 0) as [E|Ed].
  { assert (k = 0) as ->.
    { destruct (decide (k = 0)); [done|]. pose proof (cr_dst _ _ _ _ Hcr 0 ltac:(lia)) as H.
      by rewrite Z.add_0_r in H. }
    rewrite (proj2 (Z.eqb_neq 0 len)) by lia. exists m. split_and!; [done|lia|done]. }
  destruct (copy_chunk_bounds dva sva len ltac:(lia)) as (Hn & Hnp & Hnd).
  set (n := copy_chunk dva sva len) in *.
  assert (n ≤ k) as Hnk.
  { destruct (decide (n ≤ k)); [done|]. exfalso.
    assert (vm_translate_in m spt (sva + k) = vm_translate_in m spt sva + k) as H1
      by (apply translate_same_page; [lia|lia|lia|done]).
    assert (vm_translate_in m dpt (dva + k) = vm_translate_in m dpt dva + k) as H2
      by (apply translate_same_page; [lia|lia|lia|done]).
    pose proof (translate_nonneg 3 spt sva m Hsva). pose proof (translate_nonneg 3 dpt dva m Hdva).
    unfold vm_translate_in in *. lia. }
  destruct (copy_round m dva sva k n Hcr Hsva Hdva ltac:(lia) Hnp Hnd) as (HD & Hin & Hout).
  set (m1 := memcpy m _ _ n) in *. rewrite !u64_small by lia.
  destruct (tables_ok_outside m m1 Hok) as [Hok1 Htr].
  { intros T p a HT Ha. apply Hout. intros Hda.
    apply (cr_tab _ _ _ _ Hcr (a - vm_translate_in m dpt dva) T p); [lia|done|].
    rewrite HD by lia. lia. }
  destruct (IH m1 (dva + n) (sva + n) (len - n) (k - n)) as (m' & Hrun & Hin' & Hout');
    [done|lia|lia|lia|lia|lia|lia|..].
  { destruct Hcr as [C1 C2 C3 C4 C5]. split; intros *; rewrite ?Htr, <- ?Z.add_assoc by done;
      intros; [apply C1|apply C2|eapply C3; [|done]|apply C4|apply C5]; lia. }
  { rewrite !Htr by done. replace (sva + n + (k - n)) with (sva + k) by lia.
    replace (dva + n + (k - n)) with (dva + k) by lia. lia. }
  exists m'. split_and!.
  - rewrite Hrun. f_equal. destruct (Z.eqb_spec (k - n) (len - n)), (Z.eqb_spec k len); lia.
  - intros i Hi. destruct (decide (i < n)).
    + rewrite Hout'; [apply Hin; lia|]. intros j Hj. rewrite Htr by done.
      rewrite <- Z.add_assoc. apply (cr_inj _ _ _ _ Hcr); lia.
    + replace (dva + i) with (dva + n + (i - n)) by lia.
      rewrite <- (Htr dpt) by done. rewrite Hin' by lia. rewrite Htr by done.
      replace (sva + n + (i - n)) with (sva + i) by lia. apply Hout. intros Hc.
      apply (cr_sep _ _ _ _ Hcr (vm_translate_in m spt (sva + i) - vm_translate_in m dpt dva) i);
        [lia|lia|]. rewrite HD by lia. lia.
  - intros a Ha. rewrite Hout'.
    + apply Hout. intros Hc. apply (Ha (a - vm_translate_in m dpt dva)); [lia|].
      rewrite HD by lia. lia.
    + intros i Hi. rewrite Htr by done. rewrite <- Z.add_assoc. apply Ha. lia.
Qed.
End copy.

Lemma vm_copy_across_spec ty fl dpt spt m dva sva len k :
  tables_ok ty fl m → is_root ty dpt → is_root ty spt → 0 ≤ k ≤ len →
  0 ≤ sva → 0 ≤ dva → sva + len < 2 ^ 64 → dva + len < 2 ^ 64 →
  copy_range ty dpt spt m dva sva k →
  (k = len ∨ vm_translate_in m spt (sva + k) = 0 ∨ vm_translate_in m dpt (dva + k) = 0) →
  ∃ m', vm_copy_across dpt dva spt sva len m = (if k =? len then 0 else -1, m') ∧
    (∀ i, 0 ≤ i < k → rd8 m' (vm_translate_in m dpt (dva + i)) =
                      rd8 m (vm_translate_in m spt (sva + i))) ∧
    (∀ a, (∀ i, 0 ≤ i < k → a ≠ vm_translate_in m dpt (dva + i)) → rd8 m' a = rd8 m a).
Proof.
  intros Hok Hd Hs Hk Hsva Hdva Hst Hdt Hcr Hstop.
  eapply vm_copy_loop_spec; try done. rewrite Z2Nat.id; lia.
Qed.

(** Four bytes of the demonstration machine's heap and stack. *)
Lemma demo_range :
  ∃ ty fl, tables_ok ty fl (mem demo_mapped) ∧ is_root ty demo_root ∧
    copy_range ty demo_root demo_root (mem demo_mapped) (USTACK_TOP - PGSIZE + 8) (UHEAP_BASE + 100) 4 ∧
    vm_translate_in (mem demo_mapped) demo_root (UHEAP_BASE + 101) = 0x82000065 ∧
    vm_translate_in (mem demo_mapped) demo_root (USTACK_TOP - PGSIZE + 9) = 0x82001009.
Proof.
  destruct demo_mapped_inv as (ty & fl & [_ Hok] & Hr & Hlow & Hh & Hst).
  revert Hok Hh Hst. generalize (mem demo_mapped) as m. intros m Hok Hh Hst.
  assert (∀ i, 0 ≤ i < 4 → vm_translate_in m demo_root (UHEAP_BASE + 100 + i)
            = 0x82000064 + i) as Hs.
  { intros i Hi. rewrite <- Z.add_assoc. rewrite Hh by (unfold PGSIZE; lia). lia. }
  assert (∀ i, 0 ≤ i < 4 → vm_translate_in m demo_root (USTACK_TOP - PGSIZE + 8 + i)
            = 0x82001008 + i) as Hd.
  { intros i Hi. rewrite <- Z.add_assoc. rewrite Hst by (unfold PGSIZE; lia). lia. }
  exists ty, fl. split_and!; [done|done| |exact (Hs 1 ltac:(lia))|exact (Hd 1 ltac:(lia))].
  split; intros *; [intros Hi|intros Hi|intros Hi HT|intros Hi Hj|intros Hi Hj Hne];
    rewrite ?Hs, ?Hd by lia; try lia.
  pose proof (Hlow _ _ HT). unfold PMM_TOP, PGSIZE in *. lia.
Qed.

(** ** Theorems *)

(** C17: [vm_copy_across] returns for every length and copies exactly the
    leading bytes that are mapped on both sides: it answers [0] when that
    is all of them and [-1] otherwise, byte [i] of the destination range
    then holds what byte [i] of the source range held, and no other byte
    of physical memory changes. *)
Theorem vm_copy_across_correct ty fl dpt spt m dva sva len k :
  tables_ok ty fl m → is_root ty dpt → is_root ty spt → 0 ≤ k ≤ len →
  0 ≤ sva → 0 ≤ dva → sva + len < 2 ^ 64 → dva + len < 2 ^ 64 →
  copy_range ty dpt spt m dva sva k →
  (k = len ∨ vm_translate_in m spt (sva + k) = 0 ∨ vm_translate_in m dpt (dva + k) = 0) →
  ∃ m', vm_copy_across dpt dva spt sva len m = (if k =? len then 0 else -1, m') ∧
    (∀ i, 0 ≤ i < k → rd8 m' (vm_translate_in m dpt (dva + i)) =
                      rd8 m (vm_translate_in m spt (sva + i))) ∧
    (∀ a, (∀ i, 0 ≤ i < k → a ≠ vm_translate_in m dpt (dva + i)) → rd8 m' a = rd8 m a).
Proof. exact (vm_copy_across_spec ty fl dpt spt m dva sva len k). Qed.
Lemma vm_copy_across_correct_witness :
  ∃ m', vm_copy_across demo_root (USTACK_TOP - PGSIZE + 8) demo_root (UHEAP_BASE + 100) 4
          (mem demo_mapped) = (0, m') ∧
        rd8 m' 0x82001009 = rd8 (mem demo_mapped) 0x82000065.
Proof.
  destruct demo_range as (ty & fl & Hok & Hr & Hcr & Es & Ed).
  revert Hok Hcr Es Ed. generalize (mem demo_mapped) as m. intros m Hok Hcr Es Ed.
  destruct (vm_copy_across_correct ty fl demo_root demo_root m
    (USTACK_TOP - PGSIZE + 8) (UHEAP_BASE + 100) 4 4) as (m' & Hrun & Hin & _);
    [done|done|done|lia|by_compute|by_compute|by_compute|by_compute|done|by left|].
  exists m'. split; [exact Hrun|]. specialize (Hin 1 ltac:(lia)).
  rewrite <- Es, <- Ed. exact Hin.
Defined.
