(* ===== verification/Kernel.v ===== *)
(** * The kernel's state (src/src/task.h, and the static variables of
    task.c, vfs.c and trap.c)

    One record for everything the kernel keeps between traps.  A pointer
    to a task is the index of its slot in [tasks]; a null pointer is
    [None].  Namespaces live each in a page of their own and are named by
    the address of that page. *)
From stdpp Require Import base list numbers option gmap.
From S2P Require Import Prelude Mem Riscv Pmm.
Local Open Scope Z_scope.

(** ** Contexts *)

(** The integer registers, by number, and the three CSRs saved on every
    trap.  A register never written reads as zero. *)
Record context := mkContext
  { xs : gmap nat Z; epc : Z; status : Z; satp : Z }.
#[export] Instance set_xs : Setter xs :=
  λ v s, mkContext v (epc s) (status s) (satp s).
#[export] Instance set_epc : Setter epc :=
  λ v s, mkContext (xs s) v (status s) (satp s).
#[export] Instance set_status : Setter status :=
  λ v s, mkContext (xs s) (epc s) v (satp s).
#[export] Instance set_satp : Setter satp :=
  λ v s, mkContext (xs s) (epc s) (status s) v.
Arguments set_xs _ _ /.
Arguments set_epc _ _ /.
Arguments set_status _ _ /.
Arguments set_satp _ _ /.

(** ** Tasks *)

Inductive task_state := T_UNUSED | T_RUNNABLE | T_RUNNING | T_BLOCKED.
#[export] Instance task_state_eq_dec : EqDecision task_state.
Proof. solve_decision. Defined.
(** The value of the C enumerator. *)
Definition state_code (s : task_state) : Z :=
  match s with T_UNUSED => 0 | T_RUNNABLE => 1 | T_RUNNING => 2 | T_BLOCKED => 3 end.

(** A [const char] pointer to a name: null, a literal of the kernel
    image, or the [namebuf] of a slot. *)
Inductive nameref := NameNull | NameLit (s : list Z) | NameBuf (slot : nat).

Record task := mkTask
  { ctx : context; pt : Z; state : task_state; tid : Z; gen : Z; name : nameref; namebuf : list
      Z; ns : Z; send_va : Z; send_len : Z; recv_va : Z; recv_len : Z; waiting_recv : bool;
      recv_closed : bool; recv_from : Z; irq_pending : bool; dma_next : Z; brk : Z; alarm_at :
      Z; timer_pending : bool; wait_for : Z; wait_sender : option nat; send_next : option nat }.
#[export] Instance set_ctx : Setter ctx :=
  λ v s, mkTask v (pt s) (state s) (tid s) (gen s) (name s) (namebuf s) (ns s) (send_va s)
      (send_len s) (recv_va s) (recv_len s) (waiting_recv s) (recv_closed s) (recv_from s)
      (irq_pending s) (dma_next s) (brk s) (alarm_at s) (timer_pending s) (wait_for s)
      (wait_sender s) (send_next s).
#[export] Instance set_pt : Setter pt :=
  λ v s, mkTask (ctx s) v (state s) (tid s) (gen s) (name s) (namebuf s) (ns s) (send_va s)
      (send_len s) (recv_va s) (recv_len s) (waiting_recv s) (recv_closed s) (recv_from s)
      (irq_pending s) (dma_next s) (brk s) (alarm_at s) (timer_pending s) (wait_for s)
      (wait_sender s) (send_next s).
#[export] Instance set_state : Setter state :=
  λ v s, mkTask (ctx s) (pt s) v (tid s) (gen s) (name s) (namebuf s) (ns s) (send_va s)
      (send_len s) (recv_va s) (recv_len s) (waiting_recv s) (recv_closed s) (recv_from s)
      (irq_pending s) (dma_next s) (brk s) (alarm_at s) (timer_pending s) (wait_for s)
      (wait_sender s) (send_next s).
#[export] Instance set_tid : Setter tid :=
  λ v s, mkTask (ctx s) (pt s) (state s) v (gen s) (name s) (namebuf s) (ns s) (send_va s)
      (send_len s) (recv_va s) (recv_len s) (waiting_recv s) (recv_closed s) (recv_from s)
      (irq_pending s) (dma_next s) (brk s) (alarm_at s) (timer_pending s) (wait_for s)
      (wait_sender s) (send_next s).
#[export] Instance set_gen : Setter gen :=
  λ v s, mkTask (ctx s) (pt s) (state s) (tid s) v (name s) (namebuf s) (ns s) (send_va s)
      (send_len s) (recv_va s) (recv_len s) (waiting_recv s) (recv_closed s) (recv_from s)
      (irq_pending s) (dma_next s) (brk s) (alarm_at s) (timer_pending s) (wait_for s)
      (wait_sender s) (send_next s).
#[export] Instance set_name : Setter name :=
  λ v s, mkTask (ctx s) (pt s) (state s) (tid s) (gen s) v (namebuf s) (ns s) (send_va s)
      (send_len s) (recv_va s) (recv_len s) (waiting_recv s) (recv_closed s) (recv_from s)
      (irq_pending s) (dma_next s) (brk s) (alarm_at s) (timer_pending s) (wait_for s)
      (wait_sender s) (send_next s).
#[export] Instance set_namebuf : Setter namebuf :=
  λ v s, mkTask (ctx s) (pt s) (state s) (tid s) (gen s) (name s) v (ns s) (send_va s) (send_len
      s) (recv_va s) (recv_len s) (waiting_recv s) (recv_closed s) (recv_from s) (irq_pending s)
      (dma_next s) (brk s) (alarm_at s) (timer_pending s) (wait_for s) (wait_sender s)
      (send_next s).
#[export] Instance set_ns : Setter ns :=
  λ v s, mkTask (ctx s) (pt s) (state s) (tid s) (gen s) (name s) (namebuf s) v (send_va s)
      (send_len s) (recv_va s) (recv_len s) (waiting_recv s) (recv_closed s) (recv_from s)
      (irq_pending s) (dma_next s) (brk s) (alarm_at s) (timer_pending s) (wait_for s)
      (wait_sender s) (send_next s).
#[export] Instance set_send_va : Setter send_va :=
  λ v s, mkTask (ctx s) (pt s) (state s) (tid s) (gen s) (name s) (namebuf s) (ns s) v (send_len
      s) (recv_va s) (recv_len s) (waiting_recv s) (recv_closed s) (recv_from s) (irq_pending s)
      (dma_next s) (brk s) (alarm_at s) (timer_pending s) (wait_for s) (wait_sender s)
      (send_next s).
#[export] Instance set_send_len : Setter send_len :=
  λ v s, mkTask (ctx s) (pt s) (state s) (tid s) (gen s) (name s) (namebuf s) (ns s) (send_va s)
      v (recv_va s) (recv_len s) (waiting_recv s) (recv_closed s) (recv_from s) (irq_pending s)
      (dma_next s) (brk s) (alarm_at s) (timer_pending s) (wait_for s) (wait_sender s)
      (send_next s).
#[export] Instance set_recv_va : Setter recv_va :=
  λ v s, mkTask (ctx s) (pt s) (state s) (tid s) (gen s) (name s) (namebuf s) (ns s) (send_va s)
      (send_len s) v (recv_len s) (waiting_recv s) (recv_closed s) (recv_from s) (irq_pending s)
      (dma_next s) (brk s) (alarm_at s) (timer_pending s) (wait_for s) (wait_sender s)
      (send_next s).
#[export] Instance set_recv_len : Setter recv_len :=
  λ v s, mkTask (ctx s) (pt s) (state s) (tid s) (gen s) (name s) (namebuf s) (ns s) (send_va s)
      (send_len s) (recv_va s) v (waiting_recv s) (recv_closed s) (recv_from s) (irq_pending s)
      (dma_next s) (brk s) (alarm_at s) (timer_pending s) (wait_for s) (wait_sender s)
      (send_next s).
#[export] Instance set_waiting_recv : Setter waiting_recv :=
  λ v s, mkTask (ctx s) (pt s) (state s) (tid s) (gen s) (name s) (namebuf s) (ns s) (send_va s)
      (send_len s) (recv_va s) (recv_len s) v (recv_closed s) (recv_from s) (irq_pending s)
      (dma_next s) (brk s) (alarm_at s) (timer_pending s) (wait_for s) (wait_sender s)
      (send_next s).
#[export] Instance set_recv_closed : Setter recv_closed :=
  λ v s, mkTask (ctx s) (pt s) (state s) (tid s) (gen s) (name s) (namebuf s) (ns s) (send_va s)
      (send_len s) (recv_va s) (recv_len s) (waiting_recv s) v (recv_from s) (irq_pending s)
      (dma_next s) (brk s) (alarm_at s) (timer_pending s) (wait_for s) (wait_sender s)
      (send_next s).
#[export] Instance set_recv_from : Setter recv_from :=
  λ v s, mkTask (ctx s) (pt s) (state s) (tid s) (gen s) (name s) (namebuf s) (ns s) (send_va s)
      (send_len s) (recv_va s) (recv_len s) (waiting_recv s) (recv_closed s) v (irq_pending s)
      (dma_next s) (brk s) (alarm_at s) (timer_pending s) (wait_for s) (wait_sender s)
      (send_next s).
#[export] Instance set_irq_pending : Setter irq_pending :=
  λ v s, mkTask (ctx s) (pt s) (state s) (tid s) (gen s) (name s) (namebuf s) (ns s) (send_va s)
      (send_len s) (recv_va s) (recv_len s) (waiting_recv s) (recv_closed s) (recv_from s) v
      (dma_next s) (brk s) (alarm_at s) (timer_pending s) (wait_for s) (wait_sender s)
      (send_next s).
#[export] Instance set_dma_next : Setter dma_next :=
  λ v s, mkTask (ctx s) (pt s) (state s) (tid s) (gen s) (name s) (namebuf s) (ns s) (send_va s)
      (send_len s) (recv_va s) (recv_len s) (waiting_recv s) (recv_closed s) (recv_from s)
      (irq_pending s) v (brk s) (alarm_at s) (timer_pending s) (wait_for s) (wait_sender s)
      (send_next s).
#[export] Instance set_brk : Setter brk :=
  λ v s, mkTask (ctx s) (pt s) (state s) (tid s) (gen s) (name s) (namebuf s) (ns s) (send_va s)
      (send_len s) (recv_va s) (recv_len s) (waiting_recv s) (recv_closed s) (recv_from s)
      (irq_pending s) (dma_next s) v (alarm_at s) (timer_pending s) (wait_for s) (wait_sender s)
      (send_next s).
#[export] Instance set_alarm_at : Setter alarm_at :=
  λ v s, mkTask (ctx s) (pt s) (state s) (tid s) (gen s) (name s) (namebuf s) (ns s) (send_va s)
      (send_len s) (recv_va s) (recv_len s) (waiting_recv s) (recv_closed s) (recv_from s)
      (irq_pending s) (dma_next s) (brk s) v (timer_pending s) (wait_for s) (wait_sender s)
      (send_next s).
#[export] Instance set_timer_pending : Setter timer_pending :=
  λ v s, mkTask (ctx s) (pt s) (state s) (tid s) (gen s) (name s) (namebuf s) (ns s) (send_va s)
      (send_len s) (recv_va s) (recv_len s) (waiting_recv s) (recv_closed s) (recv_from s)
      (irq_pending s) (dma_next s) (brk s) (alarm_at s) v (wait_for s) (wait_sender s)
      (send_next s).
#[export] Instance set_wait_for : Setter wait_for :=
  λ v s, mkTask (ctx s) (pt s) (state s) (tid s) (gen s) (name s) (namebuf s) (ns s) (send_va s)
      (send_len s) (recv_va s) (recv_len s) (waiting_recv s) (recv_closed s) (recv_from s)
      (irq_pending s) (dma_next s) (brk s) (alarm_at s) (timer_pending s) v (wait_sender s)
      (send_next s).
#[export] Instance set_wait_sender : Setter wait_sender :=
  λ v s, mkTask (ctx s) (pt s) (state s) (tid s) (gen s) (name s) (namebuf s) (ns s) (send_va s)
      (send_len s) (recv_va s) (recv_len s) (waiting_recv s) (recv_closed s) (recv_from s)
      (irq_pending s) (dma_next s) (brk s) (alarm_at s) (timer_pending s) (wait_for s) v
      (send_next s).
#[export] Instance set_send_next : Setter send_next :=
  λ v s, mkTask (ctx s) (pt s) (state s) (tid s) (gen s) (name s) (namebuf s) (ns s) (send_va s)
      (send_len s) (recv_va s) (recv_len s) (waiting_recv s) (recv_closed s) (recv_from s)
      (irq_pending s) (dma_next s) (brk s) (alarm_at s) (timer_pending s) (wait_for s)
      (wait_sender s) v.
Arguments set_ctx _ _ /.
Arguments set_pt _ _ /.
Arguments set_state _ _ /.
Arguments set_tid _ _ /.
Arguments set_gen _ _ /.
Arguments set_name _ _ /.
Arguments set_namebuf _ _ /.
Arguments set_ns _ _ /.
Arguments set_send_va _ _ /.
Arguments set_send_len _ _ /.
Arguments set_recv_va _ _ /.
Arguments set_recv_len _ _ /.
Arguments set_waiting_recv _ _ /.
Arguments set_recv_closed _ _ /.
Arguments set_recv_from _ _ /.
Arguments set_irq_pending _ _ /.
Arguments set_dma_next _ _ /.
Arguments set_brk _ _ /.
Arguments set_alarm_at _ _ /.
Arguments set_timer_pending _ _ /.
Arguments set_wait_for _ _ /.
Arguments set_wait_sender _ _ /.
Arguments set_send_next _ _ /.

Definition NTASK : nat := 24.
Definition zero_context : context := mkContext ∅ 0 0 0.
(** [memset(t, 0, sizeof *t)] *)
Definition zero_task : task :=
  mkTask zero_context 0 T_UNUSED 0 0 NameNull (replicate 16 0) 0 0 0 0 0 false false 0 false
    0 0 0 false 0 None None.
#[export] Instance context_inhabited : Inhabited context := populate zero_context.
#[export] Instance task_inhabited : Inhabited task := populate zero_task.

(** Register [x(r)] of a saved context. *)
Definition reg (t : task) (r : nat) : Z := default 0 (xs (ctx t) !! r).
Definition set_reg (r : nat) (v : Z) (t : task) : task :=
  t <| ctx := (ctx t) <| xs := <[r := u64 v]> (xs (ctx t)) |> |>.

(** In use, or under construction: what alloc_slot will not hand out. *)
Definition live (t : task) : bool := negb (bool_decide (state t = T_UNUSED)) || negb (pt t =?
    0).

(** ** Namespaces (vfs.c) *)

Definition VFS_PATH_MAX : nat := 128.
Definition VFS_PREFIX_MAX : nat := 16.
Definition VFS_NMOUNT : nat := 8.
Definition VFS_NNS : nat := 24.
Inductive mount_kind := MNT_SERVER | MNT_BIND.
#[export] Instance mount_kind_eq_dec : EqDecision mount_kind.
Proof. solve_decision. Defined.
(** [prefix] and [target] hold the bytes before the NUL. *)
Record mount := mkMount
  { prefix : list Z; kind : mount_kind; server : Z; target : list Z }.
#[export] Instance set_prefix : Setter prefix :=
  λ v s, mkMount v (kind s) (server s) (target s).
#[export] Instance set_kind : Setter kind :=
  λ v s, mkMount (prefix s) v (server s) (target s).
#[export] Instance set_server : Setter server :=
  λ v s, mkMount (prefix s) (kind s) v (target s).
#[export] Instance set_target : Setter target :=
  λ v s, mkMount (prefix s) (kind s) (server s) v.
Arguments set_prefix _ _ /.
Arguments set_kind _ _ /.
Arguments set_server _ _ /.
Arguments set_target _ _ /.
Record namespace := mkNamespace
  { mnt : list mount; ns_n : nat; used : bool }.
#[export] Instance set_mnt : Setter mnt :=
  λ v s, mkNamespace v (ns_n s) (used s).
#[export] Instance set_ns_n : Setter ns_n :=
  λ v s, mkNamespace (mnt s) v (used s).
#[export] Instance set_used : Setter used :=
  λ v s, mkNamespace (mnt s) (ns_n s) v.
Arguments set_mnt _ _ /.
Arguments set_ns_n _ _ /.
Arguments set_used _ _ /.

Definition zero_mount : mount := mkMount [] MNT_SERVER 0 [].
#[export] Instance mount_inhabited : Inhabited mount := populate zero_mount.
(** A zeroed page read as a namespace: empty. *)
Definition zero_ns : namespace := mkNamespace (replicate VFS_NMOUNT zero_mount) 0 false.
#[export] Instance namespace_inhabited : Inhabited namespace := populate zero_ns.

(** ** The kernel

    [nss] is the content of the pages that hold namespaces, by address;
    [console] the bytes sent to the UART so far and [plic_done] the
    completions written to the PLIC; [parked] is set once [schedule] has
    found nobody to run and spins in [wfi] for ever. *)
Definition NIRQ : nat := 32.
Record kernel := mkKernel
  { phys : pmm; tasks : list task; current : option nat; ns_pool : list Z; nss : gmap Z
      namespace; irq_owner : list (option nat); kernel_pagetable : Z; kernel_satp : Z; stimecmp
      : Z; console : list Z; plic_done : list Z; parked : bool }.
#[export] Instance set_phys : Setter phys :=
  λ v s, mkKernel v (tasks s) (current s) (ns_pool s) (nss s) (irq_owner s) (kernel_pagetable s)
      (kernel_satp s) (stimecmp s) (console s) (plic_done s) (parked s).
#[export] Instance set_tasks : Setter tasks :=
  λ v s, mkKernel (phys s) v (current s) (ns_pool s) (nss s) (irq_owner s) (kernel_pagetable s)
      (kernel_satp s) (stimecmp s) (console s) (plic_done s) (parked s).
#[export] Instance set_current : Setter current :=
  λ v s, mkKernel (phys s) (tasks s) v (ns_pool s) (nss s) (irq_owner s) (kernel_pagetable s)
      (kernel_satp s) (stimecmp s) (console s) (plic_done s) (parked s).
#[export] Instance set_ns_pool : Setter ns_pool :=
  λ v s, mkKernel (phys s) (tasks s) (current s) v (nss s) (irq_owner s) (kernel_pagetable s)
      (kernel_satp s) (stimecmp s) (console s) (plic_done s) (parked s).
#[export] Instance set_nss : Setter nss :=
  λ v s, mkKernel (phys s) (tasks s) (current s) (ns_pool s) v (irq_owner s) (kernel_pagetable
      s) (kernel_satp s) (stimecmp s) (console s) (plic_done s) (parked s).
#[export] Instance set_irq_owner : Setter irq_owner :=
  λ v s, mkKernel (phys s) (tasks s) (current s) (ns_pool s) (nss s) v (kernel_pagetable s)
      (kernel_satp s) (stimecmp s) (console s) (plic_done s) (parked s).
#[export] Instance set_kernel_pagetable : Setter kernel_pagetable :=
  λ v s, mkKernel (phys s) (tasks s) (current s) (ns_pool s) (nss s) (irq_owner s) v
      (kernel_satp s) (stimecmp s) (console s) (plic_done s) (parked s).
#[export] Instance set_kernel_satp : Setter kernel_satp :=
  λ v s, mkKernel (phys s) (tasks s) (current s) (ns_pool s) (nss s) (irq_owner s)
      (kernel_pagetable s) v (stimecmp s) (console s) (plic_done s) (parked s).
#[export] Instance set_stimecmp : Setter stimecmp :=
  λ v s, mkKernel (phys s) (tasks s) (current s) (ns_pool s) (nss s) (irq_owner s)
      (kernel_pagetable s) (kernel_satp s) v (console s) (plic_done s) (parked s).
#[export] Instance set_console : Setter console :=
  λ v s, mkKernel (phys s) (tasks s) (current s) (ns_pool s) (nss s) (irq_owner s)
      (kernel_pagetable s) (kernel_satp s) (stimecmp s) v (plic_done s) (parked s).
#[export] Instance set_plic_done : Setter plic_done :=
  λ v s, mkKernel (phys s) (tasks s) (current s) (ns_pool s) (nss s) (irq_owner s)
      (kernel_pagetable s) (kernel_satp s) (stimecmp s) (console s) v (parked s).
#[export] Instance set_parked : Setter parked :=
  λ v s, mkKernel (phys s) (tasks s) (current s) (ns_pool s) (nss s) (irq_owner s)
      (kernel_pagetable s) (kernel_satp s) (stimecmp s) (console s) (plic_done s) v.
Arguments set_phys _ _ /.
Arguments set_tasks _ _ /.
Arguments set_current _ _ /.
Arguments set_ns_pool _ _ /.
Arguments set_nss _ _ /.
Arguments set_irq_owner _ _ /.
Arguments set_kernel_pagetable _ _ /.
Arguments set_kernel_satp _ _ /.
Arguments set_stimecmp _ _ /.
Arguments set_console _ _ /.
Arguments set_plic_done _ _ /.
Arguments set_parked _ _ /.

(** [tasks[i]] *)
Definition task_at (k : kernel) (i : nat) : task := tasks k !!! i.
(** An assignment through [&tasks[i]]. *)
Definition upd (i : nat) (f : task → task) (k : kernel) : kernel :=
  k <| tasks := alter f i (tasks k) |>.

(** The allocator is one component of the state; [with_phys f k] runs one
    of its operations. *)
Definition with_phys {A} (f : pmm → A * pmm) (k : kernel) : A * kernel :=
  let '(a, p) := f (phys k) in (a, k <| phys := p |>).

(** Before [kmain] has created anything: the zeroed .bss. *)
Definition kernel_zero (p : pmm) : kernel :=
  mkKernel p (replicate NTASK zero_task) None (replicate VFS_NNS 0) ∅ (replicate NIRQ None)
    0 0 0 [] [] false.

(** ** Laws of the table *)

Lemma reg_set_reg r v t : reg (set_reg r v t) r = u64 v.
Proof. unfold reg, set_reg. simpl. by rewrite lookup_insert_eq. Qed.
Lemma reg_set_reg_ne r r' v t : r ≠ r' → reg (set_reg r v t) r' = reg t r'.
Proof. intros. unfold reg, set_reg. simpl. by rewrite lookup_insert_ne. Qed.

Lemma length_upd i f k : length (tasks (upd i f k)) = length (tasks k).
Proof. apply length_alter. Qed.
Lemma task_at_upd i f k : (i < length (tasks k))%nat → task_at (upd i f k) i = f (task_at k i).
Proof.
  intros H. unfold task_at, upd. simpl.
  destruct (lookup_lt_is_Some_2 _ _ H) as [t Ht].
  rewrite (list_lookup_total_correct _ _ t Ht). apply list_lookup_total_correct.
  by rewrite list_lookup_alter_eq, Ht.
Qed.
Lemma task_at_upd_ne i j f k : i ≠ j → task_at (upd i f k) j = task_at k j.
Proof.
  intros. unfold task_at, upd. simpl. rewrite !list_lookup_total_alt.
  by rewrite list_lookup_alter_ne.
Qed.
