(* ===== verification/Task.v ===== *)
(** * The task table (src/src/task.c: slots, identifiers, the scheduler)

    The first half is the code: handing out a slot, finding a task by its
    identifier, choosing who runs.  The second half is the invariant of
    the table.  [Q] assigns to each slot the abstract queue of senders
    blocked on it; [table_rel] says that the intrusive links of the table
    spell out exactly these queues and that every task's fields fit the
    state it is in. *)
From stdpp Require Import base list numbers option gmap.
From S2P Require Import Prelude Mem Riscv Pmm Kernel.
Local Open Scope Z_scope.

(** ** The code *)

Definition TASK_SLOT (id : Z) : Z := Z.land id 0xff.
Definition TASK_GEN (id : Z) : Z := Z.shiftr id 8.
(** [i | (gen << 8)], in an [int]. *)
Definition slot_id (i : nat) (gen : Z) : Z := Z.lor (Z.of_nat i) (i32 (Z.shiftl gen 8)).

Definition alloc_slot (k : kernel) : option nat * kernel :=
  match find_from (λ i, negb (live (task_at k i))) 0 NTASK with
  | None => (None, k)
  | Some i =>
      let g := gen (task_at k i) in
      (Some i, upd i (λ _, zero_task <| gen := g |> <| tid := slot_id i g |>) k)
  end.

Definition task_by_id (k : kernel) (id : Z) : option nat :=
  let i := TASK_SLOT id in
  if (i <? 0) || (Z.of_nat NTASK <=? i) then None
  else
    let t := task_at k (Z.to_nat i) in
    if negb (live t) then None
    else if negb (tid t =? id) then None
    else Some (Z.to_nat i).

(** The slot the caller runs in.  [current] is null only before the first
    [schedule]. *)
Definition cur_slot (k : kernel) : nat := default O (current k).
Definition cur (k : kernel) : task := task_at k (cur_slot k).

(** The loop of [schedule], rounds [i .. i + n - 1]: the first runnable
    slot.  A negative index, which C leaves undefined, selects nobody. *)
Fixpoint sched_scan (ts : list task) (start i : Z) (n : nat) : option nat :=
  match n with
  | O => None
  | S n' =>
      let idx := Z.rem (i32 (start + i)) (Z.of_nat NTASK) in
      if (0 <=? idx) && bool_decide (state (ts !!! Z.to_nat idx) = T_RUNNABLE)
      then Some (Z.to_nat idx)
      else sched_scan ts start (i + 1) n'
  end.
(** [if (current && current->state == T_RUNNING) current->state = T_RUNNABLE;] *)
Definition sched_demote (k : kernel) : kernel :=
  match current k with
  | Some c => if decide (state (task_at k c) = T_RUNNING)
              then upd c (λ t, t <| state := T_RUNNABLE |>) k else k
  | None => k
  end.
Definition schedule (k : kernel) : kernel :=
  let start := match current k with Some c => tid (task_at k c) | None => -1 end in
  let k1 := sched_demote k in
  match sched_scan (tasks k1) start 1 NTASK with
  | Some j => (upd j (λ t, t <| state := T_RUNNING |>) k1) <| current := Some j |>
  | None => k1 <| parked := true |>
  end.

(** Arithmetic about slots. *)
Ltac slot_lia := unfold NTASK in *; change (Z.of_nat 24) with 24 in *; lia.
Ltac slot_mod := unfold NTASK in *; change (Z.of_nat 24) with 24 in *; ldiv.

(** ** Identifiers *)

Lemma i32_shiftl8 g : i32 (Z.shiftl g 8) mod 256 = 0.
Proof. rewrite Z.shiftl_mul_pow2 by lia. unfold i32. ldiv. Qed.
Lemma slot_id_eq i g :
  (i < 256)%nat → slot_id i g = Z.of_nat i + i32 (Z.shiftl g 8).
Proof.
  intros Hi. unfold slot_id. set (g' := i32 (Z.shiftl g 8)).
  assert (g' = g' / 256 * 2 ^ 8) as E by (pose proof (i32_shiftl8 g) as E; fold g' in E; ldiv).
  rewrite Z.lor_comm, E, lor_disjoint by lia. lia.
Qed.
Lemma TASK_SLOT_id i g : (i < 256)%nat → TASK_SLOT (slot_id i g) = Z.of_nat i.
Proof.
  intros Hi. unfold TASK_SLOT. change 0xff with (2 ^ 8 - 1).
  rewrite land_mask, slot_id_eq by lia. pose proof (i32_shiftl8 g). ldiv.
Qed.
(** The generation is recovered as long as it fits 23 bits. *)
Lemma TASK_GEN_id i g : (i < 256)%nat → 0 ≤ g < 2 ^ 23 → TASK_GEN (slot_id i g) = g.
Proof.
  intros Hi Hg. unfold TASK_GEN. rewrite slot_id_eq, Z.shiftr_div_pow2 by lia.
  rewrite Z.shiftl_mul_pow2, i32_small by lia. ldiv.
Qed.

(** ** Queues in the table *)

(** [p] is the head of the queue whose members are [l]. *)
Fixpoint sendq (ts : list task) (p : option nat) (l : list nat) : Prop :=
  match l with
  | [] => p = None
  | i :: l' => p = Some i ∧ sendq ts (send_next (ts !!! i)) l'
  end.

(** What is true of a task that stands in somebody's queue. *)
Definition blocked_sender (t : task) : Prop :=
  state t = T_BLOCKED ∧ waiting_recv t = false ∧ wait_for t = 0.

(** The fields of the task in slot [x], given whether it is [queued] and
    whether its own queue is [empty]. *)
Record local_ok (x : nat) (queued empty : Prop) (c : option nat) (t : task) : Prop := {
  lo_queued : queued → blocked_sender t;
  lo_alone : ¬ queued → send_next t = None;
  lo_unused : state t = T_UNUSED → empty;
  lo_id : live t = true → tid t = slot_id x (gen t);
  lo_running : state t = T_RUNNING → c = Some x;
  lo_recv : waiting_recv t = true → state t = T_BLOCKED;
  lo_wait : live t = true → wait_for t ≠ 0 → state t = T_BLOCKED ∧ waiting_recv t = false }.

Definition queued (Q : nat → list nat) (x : nat) : Prop := ∃ i, (i < NTASK)%nat ∧ x ∈ Q i.

Record table_rel (ts : list task) (c : option nat) (Q : nat → list nat) : Prop := {
  tr_len : length ts = NTASK;
  tr_chain : ∀ i, (i < NTASK)%nat → sendq ts (wait_sender (ts !!! i)) (Q i);
  tr_nodup : ∀ i, (i < NTASK)%nat → NoDup (Q i);
  tr_disj : ∀ i j x, (i < NTASK)%nat → (j < NTASK)%nat → x ∈ Q i → x ∈ Q j → i = j;
  tr_member : ∀ i x, (i < NTASK)%nat → x ∈ Q i → (x < NTASK)%nat ∧ x ≠ i;
  tr_local : ∀ x, (x < NTASK)%nat → local_ok x (queued Q x) (Q x = []) c (ts !!! x) }.

(** Between traps [current] is the one running task. *)
Definition runs_current (k : kernel) : Prop :=
  parked k = false → ∃ c, current k = Some c ∧ (c < NTASK)%nat ∧ state (task_at k c) = T_RUNNING.
Definition kernel_ok (k : kernel) : Prop :=
  (∃ Q, table_rel (tasks k) (current k) Q) ∧ runs_current k.

Lemma sendq_ext ts ts' p l :
  (∀ x, x ∈ l → send_next (ts' !!! x) = send_next (ts !!! x)) →
  sendq ts p l → sendq ts' p l.
Proof.
  revert p. induction l as [|x l IH]; intros p H; [done|]. intros [-> Hq].
  split; [done|]. rewrite H by set_solver. apply IH; [set_solver|done].
Qed.
Lemma sendq_fun ts p l l' : sendq ts p l → sendq ts p l' → l = l'.
Proof.
  revert p l'. induction l as [|x l IH]; intros p l'; simpl.
  - intros ->. by destruct l' as [|y l'']; simpl; [|intros [? _]].
  - intros [-> H] H'. destruct l' as [|y l'']; simpl in H'; [done|].
    destruct H' as [[= ->] H']. f_equal. by eapply IH.
Qed.

Lemma lookup_total_alter_eq (ts : list task) x f :
  (x < length ts)%nat → alter f x ts !!! x = f (ts !!! x).
Proof.
  intros H. destruct (lookup_lt_is_Some_2 _ _ H) as [t Ht].
  rewrite (list_lookup_total_correct _ _ t Ht). apply list_lookup_total_correct.
  by rewrite list_lookup_alter_eq, Ht.
Qed.
Lemma lookup_total_alter_ne (ts : list task) x y f :
  x ≠ y → alter f x ts !!! y = ts !!! y.
Proof. intros. rewrite !list_lookup_total_alt. by rewrite list_lookup_alter_ne. Qed.
Lemma lookup_total_alter (ts : list task) x y f :
  (x < length ts)%nat →
  alter f x ts !!! y = if decide (x = y) then f (ts !!! y) else ts !!! y.
Proof.
  intros. destruct (decide (x = y)) as [<-|].
  - by apply lookup_total_alter_eq.
  - by apply lookup_total_alter_ne.
Qed.

(** A queue is shorter than the table: the loops over queues end. *)
Lemma queue_length ts c Q i :
  table_rel ts c Q → (i < NTASK)%nat → (length (Q i) < NTASK)%nat.
Proof.
  intros H Hi. assert (NoDup (i :: Q i)) as Hnd.
  { constructor; [|by eapply tr_nodup]. intros Hin.
    by destruct (tr_member _ _ _ H i i Hi Hin). }
  assert ((i :: Q i) ⊆+ seq 0 NTASK) as Hsub.
  { apply NoDup_submseteq; [done|]. intros x Hx. apply elem_of_seq.
    apply elem_of_cons in Hx as [->|Hx]; [lia|].
    destruct (tr_member _ _ _ H i x Hi Hx). lia. }
  apply submseteq_length in Hsub. rewrite length_seq in Hsub. simpl in *. lia.
Qed.

(** An update of one task that leaves its links alone. *)
Lemma table_upd ts c c' Q x f :
  table_rel ts c Q → (x < NTASK)%nat →
  (∀ y t, y ≠ x → local_ok y (queued Q y) (Q y = []) c t →
          local_ok y (queued Q y) (Q y = []) c' t) →
  wait_sender (f (ts !!! x)) = wait_sender (ts !!! x) →
  send_next (f (ts !!! x)) = send_next (ts !!! x) →
  local_ok x (queued Q x) (Q x = []) c' (f (ts !!! x)) →
  table_rel (alter f x ts) c' Q.
Proof.
  intros [Hlen Hch Hnd Hdj Hmem Hloc] Hx Hc Hw Hs Hl.
  assert (∀ y, send_next (alter f x ts !!! y) = send_next (ts !!! y)) as Hsn.
  { intros y. rewrite lookup_total_alter by lia. by destruct (decide _) as [<-|]. }
  assert (∀ y, wait_sender (alter f x ts !!! y) = wait_sender (ts !!! y)) as Hws.
  { intros y. rewrite lookup_total_alter by lia. by destruct (decide _) as [<-|]. }
  split; try done.
  - by rewrite length_alter.
  - intros i Hi. rewrite Hws. eapply sendq_ext; [|by apply Hch]. intros. apply Hsn.
  - intros y Hy. rewrite lookup_total_alter by lia. destruct (decide _) as [<-|]; [done|].
    apply Hc; [congruence|]. by apply Hloc.
Qed.

(** ** The scheduler *)

Lemma sched_scan_runnable ts start i n j :
  sched_scan ts start i n = Some j → state (ts !!! j) = T_RUNNABLE ∧ (j < NTASK)%nat.
Proof.
  revert i. induction n as [|n IH]; intros i; [done|]. cbn [sched_scan].
  destruct (_ && _) eqn:E; [|apply IH]. intros [= <-].
  apply andb_true_iff in E as [Hpos Hr]. apply bool_decide_eq_true in Hr. split; [done|].
  pose proof (Z.rem_bound_abs (i32 (start + i)) (Z.of_nat NTASK) ltac:(done)).
  slot_lia.
Qed.

(** With a start that is not negative, the scan visits the slots in cyclic
    order and stops at the first runnable one. *)
Definition slot_after (start d : Z) : nat := Z.to_nat ((start + d) mod Z.of_nat NTASK).
Lemma sched_scan_first ts start i n :
  0 ≤ start + i → start + i + Z.of_nat n < 2 ^ 31 →
  match sched_scan ts start i n with
  | Some j => ∃ d, i ≤ d < i + Z.of_nat n ∧ j = slot_after start d ∧
                   state (ts !!! j) = T_RUNNABLE ∧
                   ∀ e, i ≤ e < d → state (ts !!! slot_after start e) ≠ T_RUNNABLE
  | None => ∀ e, i ≤ e < i + Z.of_nat n → state (ts !!! slot_after start e) ≠ T_RUNNABLE
  end.
Proof.
  revert i. induction n as [|n IH]; intros i Hlo Hhi; cbn [sched_scan]; [intros; lia|].
  rewrite i32_small, Z.rem_mod_nonneg by (unfold NTASK; lia).
  fold (slot_after start i).
  rewrite (proj2 (Z.leb_le 0 _)) by (apply Z.mod_pos_bound; done). cbn [andb].
  case_bool_decide as Hr.
  - exists i. split_and!; [lia|lia|done|done|intros; lia].
  - specialize (IH (i + 1) ltac:(lia) ltac:(lia)).
    assert (∀ e, i ≤ e → e = i ∨ i + 1 ≤ e) as Hcase by lia.
    destruct (sched_scan _ _ _ _) as [j|].
    + destruct IH as (d & Hd & -> & Hst & Hbefore). exists d. split_and!; [lia|lia|done|done|].
      intros e He. destruct (Hcase e ltac:(lia)) as [->|]; [done|]. apply Hbefore. lia.
    + intros e He. destruct (Hcase e ltac:(lia)) as [->|]; [done|]. apply IH. lia.
Qed.

Lemma local_ok_none x q e c t :
  c ≠ Some x → local_ok x q e c t → local_ok x q e None t.
Proof. intros Hc [? ? ? ? Hr ? ?]. split; try done. intros Hs. by destruct Hc, Hr. Qed.
Lemma local_ok_from_none x q e c t : local_ok x q e None t → local_ok x q e c t.
Proof. intros [? ? ? ? Hr ? ?]. split; try done. intros Hs. by discriminate Hr. Qed.

(** After the demotion nobody is running. *)
Lemma sched_demote_table k Q :
  table_rel (tasks k) (current k) Q → table_rel (tasks (sched_demote k)) None Q.
Proof.
  intros H. unfold sched_demote. destruct (current k) as [c|] eqn:Ec; [|done].
  destruct (decide _) as [Hrun|Hrun]; cbn.
  - destruct (decide (c < NTASK)%nat) as [Hc|Hc].
    + pose proof (tr_local _ _ _ H c Hc) as Hl. eapply table_upd; try done.
      * intros y t Hy. apply local_ok_none. congruence.
      * destruct Hl as [L1 L2 L3 L4 L5 L6 L7]. unfold task_at in Hrun.
        split; simpl; try done; unfold blocked_sender, live in *; simpl in *.
        -- intros Hq. destruct (L1 Hq). congruence.
        -- rewrite Hrun in L4. done.
        -- intros Hw. rewrite (L6 Hw) in Hrun. done.
        -- rewrite Hrun in L7. intros Hw Hf. destruct (L7 Hw Hf). done.
    + unfold task_at in Hrun. rewrite list_lookup_total_alt, lookup_ge_None_2 in Hrun; [done|].
      rewrite (tr_len _ _ _ H). lia.
  - destruct H as [Hlen Hch Hnd Hdj Hmem Hloc]. split; try done.
    intros x Hx. specialize (Hloc x Hx). destruct (decide (c = x)) as [->|].
    + destruct Hloc. split; try done.
    + by eapply local_ok_none; [|done]; congruence.
Qed.

(** [schedule] turns any table into one where [current] runs, or parks. *)
Lemma schedule_ok k Q :
  table_rel (tasks k) (current k) Q →
  table_rel (tasks (schedule k)) (current (schedule k)) Q ∧ runs_current (schedule k).
Proof.
  intros H. apply sched_demote_table in H. unfold schedule.
  destruct (sched_scan _ _ _ _) as [j|] eqn:E; cbn.
  - apply sched_scan_runnable in E as [Hr Hj]. split.
    + eapply table_upd; try done.
      * intros y t Hy. apply local_ok_from_none.
      * destruct (tr_local _ _ _ H j Hj) as [L1 L2 L3 L4 L5 L6 L7].
        split; simpl; try done; unfold blocked_sender, live in *; simpl in *.
        -- intros Hq. destruct (L1 Hq). congruence.
        -- rewrite Hr in L4. done.
        -- intros Hw. rewrite (L6 Hw) in Hr. done.
        -- rewrite Hr in L7. intros Hw Hf. destruct (L7 Hw Hf). done.
    + intros _. exists j. split_and!; [done|done|].
      unfold task_at. cbn. rewrite lookup_total_alter_eq; [done|]. by rewrite (tr_len _ _ _ H).
  - split; [|by intros ?].
    destruct H as [Hlen Hch Hnd Hdj Hmem Hloc]. split; try done.
    intros x Hx. apply local_ok_from_none. by apply Hloc.
Qed.

(** ** Lookup by identifier *)

Lemma TASK_SLOT_range id : 0 ≤ TASK_SLOT id < 256.
Proof.
  unfold TASK_SLOT. change 0xff with (2 ^ 8 - 1). rewrite land_mask by lia.
  apply Z.mod_pos_bound. lia.
Qed.

Lemma task_by_id_Some k Q c id i :
  table_rel (tasks k) c Q →
  task_by_id k id = Some i ↔
  (i < NTASK)%nat ∧ live (task_at k i) = true ∧ id = slot_id i (gen (task_at k i)).
Proof.
  intros H. pose proof (TASK_SLOT_range id) as Hr. unfold task_by_id.
  destruct (_ || _) eqn:Eb.
  - split; [done|]. intros (Hi & _ & ->). rewrite TASK_SLOT_id in Eb by slot_lia.
    slot_lia.
  - assert (Z.to_nat (TASK_SLOT id) < NTASK)%nat as Hlt by lia.
    split.
    + destruct (live _) eqn:El; [|done]. cbn [negb].
      destruct (Z.eqb_spec (tid (task_at k (Z.to_nat (TASK_SLOT id)))) id) as [Ei|]; [|done].
      cbn [negb]. intros [= <-]. split_and!; [done|done|]. rewrite <- Ei at 1.
      by apply (tr_local _ _ _ H).
    + intros (Hi & Hl & ->). rewrite TASK_SLOT_id, Nat2Z.id by slot_lia.
      rewrite Hl. cbn [negb].
      pose proof (lo_id _ _ _ _ _ (tr_local _ _ _ H i Hi) Hl) as Ei. fold (task_at k i) in Ei.
      by rewrite Ei, Z.eqb_refl.
Qed.

Lemma slot_id_inj i g g' :
  (i < 256)%nat → 0 ≤ g < 2 ^ 23 → 0 ≤ g' < 2 ^ 23 → slot_id i g = slot_id i g' → g = g'.
Proof. intros Hi Hg Hg' E. rewrite <- (TASK_GEN_id i g), <- (TASK_GEN_id i g'), E; done. Qed.


(** A slot that is not live holds no queue and stands in none. *)
Lemma dead_slot ts c Q i :
  table_rel ts c Q → (i < NTASK)%nat → live (ts !!! i) = false →
  Q i = [] ∧ ¬ queued Q i ∧ wait_sender (ts !!! i) = None ∧ send_next (ts !!! i) = None.
Proof.
  intros H Hi Hd. destruct (tr_local _ _ _ H i Hi) as [L1 L2 L3 L4 L5 L6 L7].
  unfold live in Hd. apply orb_false_iff in Hd as [Hs _].
  apply negb_false_iff, bool_decide_eq_true in Hs.
  assert (¬ queued Q i) as Hq by (intros Hq; destruct (L1 Hq); congruence).
  split_and!; [by apply L3|done| |by apply L2].
  pose proof (tr_chain _ _ _ H i Hi) as Hc. by rewrite (L3 Hs) in Hc.
Qed.

Lemma alloc_slot_spec k Q :
  table_rel (tasks k) (current k) Q →
  match alloc_slot k with
  | (None, k') => k' = k ∧ ∀ i, (i < NTASK)%nat → live (task_at k i) = true
  | (Some i, k') =>
      (i < NTASK)%nat ∧ live (task_at k i) = false ∧
      task_at k' i = zero_task <| gen := gen (task_at k i) |>
                               <| tid := slot_id i (gen (task_at k i)) |> ∧
      k' = k <| tasks := tasks k' |> ∧
      (∀ j, j ≠ i → task_at k' j = task_at k j) ∧
      table_rel (tasks k') (current k') Q
  end.
Proof.
  intros H. unfold alloc_slot. destruct (find_from _ _ _) as [i|] eqn:E.
  - apply find_from_Some in E as (Hi & Hd & _). apply negb_true_iff in Hd.
    assert (i < NTASK)%nat as Hi' by lia.
    destruct (dead_slot _ _ _ i H Hi' Hd) as (HQ & Hq & Hw & Hs).
    split; [done|]. split; [done|]. split; [|split; [done|split]].
    + apply task_at_upd. rewrite (tr_len _ _ _ H). lia.
    + intros j Hj. by apply task_at_upd_ne.
    + eapply table_upd; try done.
  - split; [done|]. intros i Hi. specialize (find_from_None _ _ _ E i ltac:(lia)).
    by intros ->%negb_false_iff.
Qed.

(** ** Theorems *)

(** An identifier names a task exactly when its slot holds a live task
    of that very generation; an identifier of any other generation of the
    slot, kept from a task that has since been retired or not yet
    created, names nobody. *)
Theorem task_by_id_correct k id i :
  kernel_ok k →
  (task_by_id k id = Some i ↔
     (i < NTASK)%nat ∧ live (task_at k i) = true ∧ id = slot_id i (gen (task_at k i))) ∧
  (∀ g, (i < NTASK)%nat → 0 ≤ g < 2 ^ 23 → 0 ≤ gen (task_at k i) < 2 ^ 23 →
        g ≠ gen (task_at k i) → task_by_id k (slot_id i g) = None).
Proof.
  intros [[Q H] _]. split; [by eapply task_by_id_Some|].
  intros g Hi Hg Hg' Hne. destruct (task_by_id k (slot_id i g)) as [j|] eqn:E; [|done].
  apply (task_by_id_Some _ _ _ _ _ H) in E as (Hj & _ & E).
  assert (i = j) as <-.
  { apply Nat2Z.inj. unfold NTASK in *. rewrite <- (TASK_SLOT_id i g), <- (TASK_SLOT_id j (gen (task_at k j))) by slot_lia.
    by rewrite E. }
  destruct Hne. apply (slot_id_inj i); unfold NTASK in *; done || lia.
Qed.


(** Every slot still holds its first task, as after boot. *)
Definition first_generation (k : kernel) : Prop :=
  length (tasks k) = NTASK ∧ ∀ i, (i < NTASK)%nat → tid (task_at k i) = Z.of_nat i.

(** How many slots after [c] comes [j]: between 1 and [NTASK]. *)
Definition turns (c j : nat) : Z := (Z.of_nat j - Z.of_nat c - 1) mod Z.of_nat NTASK + 1.

Lemma turns_range c j : 1 ≤ turns c j ≤ 24.
Proof. unfold turns, NTASK. ldiv. Qed.
Lemma slot_after_turns c j : (j < NTASK)%nat → slot_after (Z.of_nat c) (turns c j) = j.
Proof.
  intros. unfold slot_after, turns. apply Nat2Z.inj. rewrite Z2Nat.id by slot_mod. slot_mod.
Qed.
Lemma turns_slot_after c j d :
  1 ≤ d → d < turns c j → turns (slot_after (Z.of_nat c) d) j = turns c j - d.
Proof.
  intros Hd Hlt. unfold turns, slot_after in *. rewrite Z2Nat.id by slot_mod. slot_mod.
Qed.

(** One decision: the task chosen is the first runnable one after
    [current], so a runnable [j] either runs now or has come closer. *)
Lemma schedule_advances k c j :
  first_generation k → current k = Some c → (c < NTASK)%nat → (j < NTASK)%nat →
  state (task_at k j) = T_RUNNABLE → j ≠ c →
  ∃ c', current (schedule k) = Some c' ∧ (c' < NTASK)%nat ∧ first_generation (schedule k) ∧
        state (task_at (schedule k) c') = T_RUNNING ∧
        (c' = j ∨ (state (task_at (schedule k) j) = T_RUNNABLE ∧ turns c' j < turns c j)).
Proof.
  intros [Hlen Hid] Hc Hcn Hj Hr Hne. unfold schedule. rewrite Hc, (Hid c Hcn).
  assert (length (tasks (sched_demote k)) = NTASK ∧
          (∀ i, tid (task_at (sched_demote k) i) = tid (task_at k i)) ∧
          state (task_at (sched_demote k) j) = T_RUNNABLE) as (Hlen1 & Hid1 & Hr1).
  { unfold sched_demote. rewrite Hc. destruct (decide _); [|done].
    rewrite length_upd. split_and!; [done| |].
    - intros i. destruct (decide (c = i)) as [<-|]; [by rewrite task_at_upd by slot_lia|].
      by rewrite task_at_upd_ne.
    - by rewrite task_at_upd_ne. }
  pose proof (turns_range c j). pose proof (slot_after_turns c j Hj) as Hsj.
  pose proof (sched_scan_first (tasks (sched_demote k)) (Z.of_nat c) 1 NTASK
                ltac:(lia) ltac:(slot_lia)) as Hscan.
  destruct (sched_scan _ _ _ _) as [c'|].
  - destruct Hscan as (d & Hd & -> & Hrc & Hbefore). set (c' := slot_after _ d) in *.
    assert (c' < NTASK)%nat as Hc'.
    { unfold c', slot_after. pose proof (Z.mod_pos_bound (Z.of_nat c + d) 24). slot_lia. }
    exists c'. cbn. split_and!; [done|done| | |].
    + split; [cbn; by rewrite length_alter|]. intros i Hi. rewrite <- (Hid i Hi), <- Hid1.
      unfold task_at. cbn. rewrite lookup_total_alter by slot_lia. by destruct (decide _).
    + unfold task_at. cbn. by rewrite lookup_total_alter_eq by slot_lia.
    + destruct (decide (c' = j)) as [|Hcj]; [by left|right]. split.
      * unfold task_at. cbn. by rewrite lookup_total_alter_ne.
      * assert (d < turns c j); [|unfold c'; rewrite turns_slot_after; lia].
        destruct (Z.lt_trichotomy d (turns c j)) as [|[Heq|Hlt]]; [done| |].
        { destruct Hcj. unfold c'. by rewrite Heq. }
        destruct (Hbefore (turns c j) ltac:(lia)). rewrite Hsj. exact Hr1.
  - destruct (Hscan (turns c j) ltac:(slot_lia)). rewrite Hsj. exact Hr1.
Qed.

Lemma schedule_reaches n k c j :
  first_generation k → current k = Some c → (c < NTASK)%nat → (j < NTASK)%nat →
  state (task_at k j) = T_RUNNABLE → j ≠ c → turns c j ≤ Z.of_nat n →
  ∃ m, (1 ≤ m ≤ n)%nat ∧ current (Nat.iter m schedule k) = Some j ∧
       state (task_at (Nat.iter m schedule k) j) = T_RUNNING.
Proof.
  revert k c. induction n as [|n IH]; intros k c Hg Hc Hcn Hj Hr Hne Hn.
  - pose proof (turns_range c j). lia.
  - destruct (schedule_advances k c j) as (c' & Hc' & Hcn' & Hg' & Hrun & [->|[Hr' Hlt]]); try done.
    + exists 1%nat. split; [lia|done].
    + assert (j ≠ c') by (intros ->; congruence).
      destruct (IH (schedule k) c') as (m & Hm & H1 & H2); try done; [lia|].
      exists (S m). rewrite Nat.iter_succ_r. split; [lia|done].
Qed.

(** C28: round robin.  While every slot still holds its first task, a
    runnable task is running after at most [NTASK] scheduling decisions,
    whatever the others do in between being limited to giving up the
    processor. *)
Theorem schedule_fair k c j :
  first_generation k → current k = Some c → (c < NTASK)%nat → (j < NTASK)%nat →
  state (task_at k j) = T_RUNNABLE → j ≠ c →
  ∃ m, (1 ≤ m ≤ NTASK)%nat ∧ current (Nat.iter m schedule k) = Some j ∧
       state (task_at (Nat.iter m schedule k) j) = T_RUNNING.
Proof.
  intros. eapply schedule_reaches; try done. pose proof (turns_range c j). slot_lia.
Qed.

(** Three first-generation tasks ready to run, the second one current. *)
Definition demo_tasks : list task :=
  (λ i, zero_task <| tid := Z.of_nat i |>
          <| state := if (i =? 1)%nat then T_RUNNING else if (i <? 3)%nat then T_RUNNABLE else T_UNUSED |>
          <| pt := if (i <? 3)%nat then 0x87000000 + 4096 * Z.of_nat i else 0 |>) <$> seq 0 NTASK.
Definition demo_kernel : kernel :=
  (kernel_zero (pmm_zero ∅)) <| tasks := demo_tasks |> <| current := Some 1%nat |>.

Lemma slots_forall (P : nat → Prop) :
  Forall P (seq 0 NTASK) → ∀ i, (i < NTASK)%nat → P i.
Proof. intros H i Hi. eapply Forall_forall in H; [done|]. apply elem_of_seq. lia. Qed.

Lemma schedule_fair_witness :
  ∃ m, (1 ≤ m ≤ NTASK)%nat ∧ current (Nat.iter m schedule demo_kernel) = Some 0%nat ∧
       state (task_at (Nat.iter m schedule demo_kernel) 0) = T_RUNNING.
Proof.
  apply (schedule_fair demo_kernel 1 0); [|reflexivity|slot_lia|slot_lia|reflexivity|done].
  split; [reflexivity|]. apply (slots_forall (λ i, tid (task_at demo_kernel i) = Z.of_nat i)).
  repeat constructor.
Defined.

(** The same table, but slot 20 holds its second task, identifier 276, and
    runs. *)
Definition starving_kernel : kernel :=
  upd 20 (λ t, t <| tid := slot_id 20 1 |> <| gen := 1 |> <| state := T_RUNNING |>
                 <| pt := 0x87010000 |>)
    (upd 1 (λ t, t <| state := T_RUNNABLE |>) (demo_kernel <| current := Some 20%nat |>)).

(** The search starts at [current->id], not at the slot of [current].
    With a task of a later generation running, tasks that are ready in
    other slots are never chosen, however often [schedule] is called. *)
Theorem schedule_starves n :
  let k := Nat.iter n schedule starving_kernel in
  current k = Some 20%nat ∧ state (task_at k 0) = T_RUNNABLE ∧
  state (task_at k 1) = T_RUNNABLE ∧ state (task_at k 2) = T_RUNNABLE.
Proof.
  assert (schedule starving_kernel = starving_kernel) as Hfix by (vm_compute; reflexivity).
  assert (Nat.iter n schedule starving_kernel = starving_kernel) as ->.
  { induction n as [|n IH]; [done|]. simpl. by rewrite IH. }
  done.
Qed.

(** ** Deciding the invariant

    The queues of a concrete table can be computed, and with them every
    clause of [table_rel]. *)
Fixpoint queue_from (fuel : nat) (ts : list task) (p : option nat) : list nat :=
  match fuel, p with
  | S fuel', Some i => i :: queue_from fuel' ts (send_next (ts !!! i))
  | _, _ => []
  end.
Definition table_queues (ts : list task) (i : nat) : list nat :=
  queue_from NTASK ts (wait_sender (ts !!! i)).

Definition local_check (x : nat) (queued empty : bool) (c : option nat) (t : task) : bool :=
  (negb queued || (bool_decide (state t = T_BLOCKED) && negb (waiting_recv t) && (wait_for t =? 0))) &&
  (queued || bool_decide (send_next t = None)) &&
  (negb (bool_decide (state t = T_UNUSED)) || empty) &&
  (negb (live t) || (tid t =? slot_id x (gen t))) &&
  (negb (bool_decide (state t = T_RUNNING)) || bool_decide (c = Some x)) &&
  (negb (waiting_recv t) || bool_decide (state t = T_BLOCKED)) &&
  (negb (live t) || (wait_for t =? 0) || (bool_decide (state t = T_BLOCKED) && negb (waiting_recv t))).
Definition table_check (ts : list task) (c : option nat) : bool :=
  let slots := seq 0 NTASK in
  let all := mjoin (table_queues ts <$> slots) in
  (length ts =? NTASK)%nat && bool_decide (NoDup all) &&
  forallb (λ i, (length (table_queues ts i) <? NTASK)%nat &&
                forallb (λ x, (x <? NTASK)%nat && negb (x =? i)%nat) (table_queues ts i) &&
                local_check i (bool_decide (i ∈ all)) (bool_decide (table_queues ts i = [])) c
                  (ts !!! i)) slots.

Lemma queue_from_sendq fuel ts p :
  (length (queue_from fuel ts p) < fuel)%nat → sendq ts p (queue_from fuel ts p).
Proof.
  revert p. induction fuel as [|fuel IH]; intros p; simpl; [lia|].
  destruct p as [i|]; [|done]. simpl. intros H. split; [done|]. apply IH. lia.
Qed.
Lemma local_check_sound x (q e : Prop) qb eb c t :
  (q → qb = true) → (qb = true → q) → (eb = true → e) →
  local_check x qb eb c t = true → local_ok x q e c t.
Proof.
  intros Hq Hq' He H. unfold local_check in H.
  rewrite !andb_true_iff, !orb_true_iff, !andb_true_iff, !negb_true_iff, !bool_decide_eq_true,
    !bool_decide_eq_false, !Z.eqb_eq in H.
  destruct H as ((((((H1 & H2) & H3) & H4) & H5) & H6) & H7).
  split; unfold blocked_sender.
  - intros Hx%Hq. destruct H1; [congruence|tauto].
  - intros Hx. destruct H2; [|done]. by destruct Hx; apply Hq'.
  - intros. destruct H3; [done|by apply He].
  - intros. destruct H4; [congruence|done].
  - intros. by destruct H5.
  - intros. destruct H6; [congruence|done].
  - intros. destruct H7 as [[|]|]; [congruence|done|tauto].
Qed.
Lemma join_NoDup {A} (f : nat → list A) l :
  NoDup l → NoDup (mjoin (f <$> l)) →
  (∀ i, i ∈ l → NoDup (f i)) ∧ (∀ i j x, i ∈ l → j ∈ l → x ∈ f i → x ∈ f j → i = j).
Proof.
  induction l as [|a l IH]; [intros; split; set_solver|]. simpl.
  intros [Ha Hl]%list.NoDup_cons (N1 & N2 & N3)%list.NoDup_app.
  destruct (IH Hl N3) as [I1 I2].
  assert (∀ j x, j ∈ l → x ∈ f j → x ∈ mjoin (f <$> l)) as Hin.
  { intros j x Hj Hx. apply list_elem_of_join. exists (f j). split; [done|].
    by apply list_elem_of_fmap_2. }
  split.
  - intros i [->|Hi]%elem_of_cons; [done|by apply I1].
  - intros i j x [->|Hi]%elem_of_cons [->|Hj]%elem_of_cons Hx Hx'; [done| | |by eapply I2].
    + destruct (N2 x Hx). by eapply Hin.
    + destruct (N2 x Hx'). by eapply Hin.
Qed.
Lemma table_check_sound ts c : table_check ts c = true → table_rel ts c (table_queues ts).
Proof.
  unfold table_check. rewrite !andb_true_iff, bool_decide_eq_true, Nat.eqb_eq, forallb_forall.
  intros [[Hlen Hnd] Hall].
  assert (∀ i, (i < NTASK)%nat ↔ i ∈ seq 0 NTASK) as Hseq by (intros; rewrite elem_of_seq; lia).
  destruct (join_NoDup (table_queues ts) (seq 0 NTASK) (NoDup_seq 0 NTASK) Hnd) as [N1 N2].
  assert (∀ i, (i < NTASK)%nat → In i (seq 0 NTASK)) as Hin by (intros; apply in_seq; lia).
  split; [done|..].
  - intros i Hi. specialize (Hall i (Hin i Hi)). rewrite !andb_true_iff, Nat.ltb_lt in Hall.
    apply queue_from_sendq, Hall.
  - intros i Hi%Hseq. by apply N1.
  - intros i j x Hi%Hseq Hj%Hseq. by apply N2.
  - intros i x Hi Hx. specialize (Hall i (Hin i Hi)).
    rewrite !andb_true_iff, Nat.ltb_lt, forallb_forall in Hall. destruct Hall as [[_ Hm] _].
    apply list_elem_of_In in Hx. specialize (Hm x Hx).
    rewrite andb_true_iff, Nat.ltb_lt, negb_true_iff, Nat.eqb_neq in Hm. done.
  - intros x Hx. specialize (Hall x (Hin x Hx)). rewrite !andb_true_iff in Hall.
    destruct Hall as [_ Hl]. eapply local_check_sound; [..|exact Hl].
    + intros (i & Hi & Hxi). apply bool_decide_eq_true, list_elem_of_join. exists (table_queues ts i).
      split; [done|]. by apply list_elem_of_fmap_2, Hseq.
    + intros Hc%bool_decide_eq_true. apply list_elem_of_join in Hc as (l & Hxl & Hl').
      apply list_elem_of_fmap in Hl' as (i & -> & Hi). exists i. by rewrite Hseq.
    + apply bool_decide_eq_true.
Qed.
Lemma kernel_check_ok k c :
  table_check (tasks k) (current k) = true → current k = Some c → (c < NTASK)%nat →
  state (task_at k c) = T_RUNNING → kernel_ok k.
Proof.
  intros H Hc Hn Hst. split; [exists (table_queues (tasks k)); by apply table_check_sound|].
  intros _. by exists c.
Qed.
Lemma demo_kernel_ok : kernel_ok demo_kernel.
Proof.
  apply (kernel_check_ok _ 1); [vm_compute; reflexivity|reflexivity|slot_lia|reflexivity].
Qed.
Lemma task_by_id_correct_witness :
  task_by_id demo_kernel (slot_id 2 0) = Some 2%nat ∧ task_by_id demo_kernel (slot_id 2 5) = None.
Proof.
  split.
  - apply (task_by_id_correct demo_kernel (slot_id 2 0) 2 demo_kernel_ok). split; [slot_lia|done].
  - apply (task_by_id_correct demo_kernel 0 2 demo_kernel_ok); [slot_lia|by_compute..].
Defined.
