(* ===== verification/Ipc.v ===== *)
(** * Rendezvous message passing (src/src/ipc.c)

    A sender that finds nobody waiting is threaded onto the receiver's
    queue through [send_next]; a receiver takes the first sender it
    wants.  The lemmas refine the pointer surgery to operations on lists:
    parking appends, receiving removes the first match and leaves the
    order of the others alone. *)
From stdpp Require Import base list numbers option gmap functions.
From S2P Require Import Prelude Mem Riscv Pmm Vm VmMap VmCopy Kernel Task.
Local Open Scope Z_scope.

(** ** The code *)

Definition IRQ_SENDER : Z := -2.
Definition TIMER_SENDER : Z := -3.

Definition A0 (t : task) : Z := reg t 10.
Definition A1 (t : task) : Z := reg t 11.
Definition A2 (t : task) : Z := reg t 12.
Definition set_A0 (v : Z) : task → task := set_reg 10 v.

(** [while (p->send_next) p = p->send_next;].  [fuel] bounds the number
    of steps; no queue is longer than the table. *)
Fixpoint last_sender (fuel : nat) (ts : list task) (p : nat) : nat :=
  match fuel with
  | O => p
  | S fuel' => match send_next (ts !!! p) with
               | Some p' => last_sender fuel' ts p'
               | None => p
               end
  end.
Definition enqueue_sender (recv snd : nat) (ts : list task) : list task :=
  let ts1 := alter (λ t, t <| send_next := None |>) snd ts in
  match wait_sender (ts1 !!! recv) with
  | None => alter (λ t, t <| wait_sender := Some snd |>) recv ts1
  | Some p => alter (λ t, t <| send_next := Some snd |>) (last_sender NTASK ts1 p) ts1
  end.

(** The search along a queue, carrying the element before: the first [s]
    with [P s]. *)
Fixpoint find_link (fuel : nat) (ts : list task) (P : nat → bool) (prev s : option nat)
  : option (option nat * nat) :=
  match fuel, s with
  | S fuel', Some i => if P i then Some (prev, i)
                       else find_link fuel' ts P (Some i) (send_next (ts !!! i))
  | _, _ => None
  end.
(** Taking [s] out of the queue of [recv]. *)
Definition unlink (recv : nat) (prev : option nat) (s : nat) (ts : list task) : list task :=
  let nxt := send_next (ts !!! s) in
  let ts1 := match prev with
             | Some p => alter (λ t, t <| send_next := nxt |>) p ts
             | None => alter (λ t, t <| wait_sender := nxt |>) recv ts
             end in
  alter (λ t, t <| send_next := None |>) s ts1.
Definition dequeue_sender (recv : nat) (closed : bool) (want : Z) (ts : list task)
  : option nat * list task :=
  match find_link NTASK ts (λ s, negb closed || (tid (ts !!! s) =? want)) None
          (wait_sender (ts !!! recv)) with
  | Some (prev, s) => (Some s, unlink recv prev s ts)
  | None => (None, ts)
  end.

Definition wants (dst src : task) : bool :=
  if negb (bool_decide (state dst = T_BLOCKED)) || negb (waiting_recv dst) then false
  else negb (recv_closed dst) || (recv_from dst =? tid src).

Definition deliver (snd : task) (sva slen : Z) (rcv : task) (rva rlen : Z) (k : kernel)
  : Z * kernel :=
  let n := if slen <? rlen then slen else rlen in
  if n <=? 0 then (0, k)
  else
    let '(r, m) := vm_copy_across (pt rcv) rva (pt snd) sva n (mem (phys k)) in
    let k1 := k <| phys := (phys k) <| mem := m |> |> in
    if r <? 0 then (-1, k1) else (n, k1).

Definition ipc_send (nonblock : bool) (k : kernel) : kernel :=
  let c := cur_slot k in
  let dst_id := i32 (A0 (cur k)) in
  let sva := A1 (cur k) in
  let slen := i32 (A2 (cur k)) in
  match task_by_id k dst_id with
  | None => upd c (set_A0 (-1)) k
  | Some dst =>
      let d := task_at k dst in
      if bool_decide (state d = T_UNUSED) then upd c (set_A0 (-1)) k
      else if bool_decide (dst = c) then upd c (set_A0 (-1)) k
      else if wants d (cur k) then
        let '(r, k1) := deliver (cur k) sva slen d (recv_va d) (recv_len d) k in
        if r <? 0 then upd c (set_A0 (-1)) k1
        else
          let k2 := upd dst (λ t, (set_A0 (tid (cur k)) t) <| waiting_recv := false |>
                                   <| recv_closed := false |> <| state := T_RUNNABLE |>) k1 in
          upd c (set_A0 0) k2
      else if nonblock then upd c (set_A0 (-1)) k
      else
        let k1 := upd c (λ t, t <| send_va := sva |> <| send_len := slen |>
                                <| waiting_recv := false |>) k in
        let k2 := k1 <| tasks := enqueue_sender dst c (tasks k1) |> in
        schedule (upd c (λ t, t <| state := T_BLOCKED |>) k2)
  end.

(** The tail of [ipc_recv], once no pending event has been found. *)
Definition ipc_recv_queue (closed : bool) (rva rlen want : Z) (k : kernel) : kernel :=
  let c := cur_slot k in
  match dequeue_sender c closed want (tasks k) with
  | (Some s, ts) =>
      let k1 := k <| tasks := ts |> in
      let snd := task_at k1 s in
      let '(r, k2) := deliver snd (send_va snd) (send_len snd) (task_at k1 c) rva rlen k1 in
      if r <? 0 then upd c (set_A0 (-1)) k2
      else
        let k3 := upd c (set_A0 (tid snd)) k2 in
        upd s (λ t, (set_A0 0 t) <| state := T_RUNNABLE |>) k3
  | (None, ts) =>
      schedule (upd c (λ t, t <| recv_va := rva |> <| recv_len := rlen |>
                              <| waiting_recv := true |> <| recv_closed := closed |>
                              <| recv_from := want |> <| state := T_BLOCKED |>)
                  (k <| tasks := ts |>))
  end.
Definition ipc_recv (closed : bool) (k : kernel) : kernel :=
  let c := cur_slot k in
  let t := cur k in
  let rva := if closed then A1 t else A0 t in
  let rlen := i32 (if closed then A2 t else A1 t) in
  let want := if closed then i32 (A0 t) else 0 in
  if closed then
    match task_by_id k want with
    | None => upd c (set_A0 (-1)) k
    | Some _ => ipc_recv_queue closed rva rlen want k
    end
  else if irq_pending t then
    upd c (λ t, (set_A0 IRQ_SENDER (t <| irq_pending := false |>))) k
  else if timer_pending t then
    upd c (λ t, (set_A0 TIMER_SENDER (t <| timer_pending := false |>))) k
  else ipc_recv_queue closed rva rlen want k.

Definition SYS_SEND : Z := 1.
Definition SYS_RECV : Z := 2.
Definition SYS_TRYSEND : Z := 22.
Definition SYS_RECVFROM : Z := 24.
Definition ipc_syscall (num : Z) (k : kernel) : bool * kernel :=
  if num =? SYS_SEND then (true, ipc_send false k)
  else if num =? SYS_TRYSEND then (true, ipc_send true k)
  else if num =? SYS_RECV then (true, ipc_recv false k)
  else if num =? SYS_RECVFROM then (true, ipc_recv true k)
  else (false, k).

(** ** Queues as lists *)

(** A segment of a queue, from [p] through [l] up to [q]. *)
Fixpoint lseg (ts : list task) (p : option nat) (l : list nat) (q : option nat) : Prop :=
  match l with
  | [] => p = q
  | i :: l' => p = Some i ∧ lseg ts (send_next (ts !!! i)) l' q
  end.
Lemma sendq_lseg ts p l : sendq ts p l ↔ lseg ts p l None.
Proof. revert p. induction l as [|i l IH]; intros p; simpl; [done|]. by rewrite IH. Qed.
Lemma lseg_app ts p l1 l2 q : lseg ts p (l1 ++ l2) q ↔ ∃ r, lseg ts p l1 r ∧ lseg ts r l2 q.
Proof.
  revert p. induction l1 as [|i l1 IH]; intros p; simpl; [naive_solver|].
  rewrite IH. naive_solver.
Qed.
Lemma lseg_ext ts ts' p l q :
  (∀ x, x ∈ l → send_next (ts' !!! x) = send_next (ts !!! x)) → lseg ts p l q → lseg ts' p l q.
Proof.
  revert p. induction l as [|x l IH]; intros p H; [done|]. intros [-> Hq].
  split; [done|]. rewrite H by set_solver. apply IH; [set_solver|done].
Qed.

Lemma last_sender_spec fuel ts p l z q :
  lseg ts p (l ++ [z]) None → p = Some q → (length l ≤ fuel)%nat → last_sender fuel ts q = z.
Proof.
  revert fuel p q. induction l as [|i l IH]; intros fuel p q.
  - intros [-> Hn] [= ->] _. simpl in Hn. destruct fuel; simpl; [done|]. by rewrite Hn.
  - intros [-> Hseg] [= <-] Hf. destruct fuel as [|fuel]; simpl in Hf; [lia|]. simpl.
    destruct (send_next (ts !!! i)) as [j|] eqn:E; [eapply IH; try done; lia|].
    destruct l; simpl in Hseg; by destruct Hseg.
Qed.

(** The element before [l2] in [l1 ++ l2], or [prev] if there is none. *)
Definition before (prev : option nat) (l1 : list nat) : option nat :=
  match list.last l1 with Some p => Some p | None => prev end.
Lemma find_link_spec fuel ts P prev p l :
  lseg ts p l None → (length l ≤ fuel)%nat →
  match find_link fuel ts P prev p with
  | Some (prev', s) => ∃ l1 l2, l = l1 ++ s :: l2 ∧ P s = true ∧
                        Forall (λ x, P x = false) l1 ∧ prev' = before prev l1
  | None => Forall (λ x, P x = false) l
  end.
Proof.
  revert fuel prev p. induction l as [|i l IH]; intros fuel prev p.
  - simpl. intros ->. intros _; destruct fuel; constructor.
  - intros [-> Hseg] Hf. destruct fuel as [|fuel]; simpl in Hf; [lia|]. simpl.
    destruct (P i) eqn:E.
    + exists [], l. split; [done|]. split; [done|]. by split; [constructor|].
    + specialize (IH fuel (Some i) _ Hseg ltac:(lia)).
      destruct (find_link _ _ _ _ _) as [[prev' s]|]; [|by constructor].
      destruct IH as (l1 & l2 & -> & HP & Hall & ->). exists (i :: l1), l2.
      split; [done|]. split; [done|]. split; [by constructor|].
      unfold before. destruct l1 as [|y l1]; [done|].
      change (list.last (i :: y :: l1)) with (list.last (y :: l1)).
      destruct (list.last (y :: l1)) eqn:El; [done|]. by apply list.last_None in El.
Qed.

(** ** The shape of the table alone *)

Record links (ts : list task) (Q : nat → list nat) : Prop := {
  lk_len : length ts = NTASK;
  lk_chain : ∀ i, (i < NTASK)%nat → sendq ts (wait_sender (ts !!! i)) (Q i);
  lk_nodup : ∀ i, (i < NTASK)%nat → NoDup (Q i);
  lk_disj : ∀ i j x, (i < NTASK)%nat → (j < NTASK)%nat → x ∈ Q i → x ∈ Q j → i = j;
  lk_member : ∀ i x, (i < NTASK)%nat → x ∈ Q i → (x < NTASK)%nat ∧ x ≠ i;
  lk_alone : ∀ x, (x < NTASK)%nat → ¬ queued Q x → send_next (ts !!! x) = None }.

Lemma table_links ts c Q : table_rel ts c Q → links ts Q.
Proof. intros [? ? ? ? ? Hl]. split; try done. intros x Hx. by apply Hl. Qed.
Lemma links_table ts c Q :
  links ts Q → (∀ x, (x < NTASK)%nat → local_ok x (queued Q x) (Q x = []) c (ts !!! x)) →
  table_rel ts c Q.
Proof. intros [? ? ? ? ? ?] Hl. by split. Qed.

(** Two tasks that differ at most in their links. *)
Definition relinked (t t' : task) : Prop :=
  t' = t <| wait_sender := wait_sender t' |> <| send_next := send_next t' |>.
Lemma relinked_refl t : relinked t t.
Proof. by destruct t. Qed.
Lemma relinked_trans t1 t2 t3 : relinked t1 t2 → relinked t2 t3 → relinked t1 t3.
Proof. unfold relinked. intros -> ->. by destruct t1. Qed.
Lemma relinked_alter ts x f :
  (∀ t, relinked t (f t)) → (x < length ts)%nat → ∀ y, relinked (ts !!! y) (alter f x ts !!! y).
Proof.
  intros Hf Hx y. rewrite lookup_total_alter by done.
  destruct (decide _); [apply Hf|apply relinked_refl].
Qed.

(** Removing [s] from the middle of the queue of [recv]. *)
Lemma queued_remove Q recv l1 s l2 x :
  (recv < NTASK)%nat → Q recv = l1 ++ s :: l2 → NoDup (Q recv) →
  (∀ i, (i < NTASK)%nat → s ∈ Q i → i = recv) →
  queued (<[recv := l1 ++ l2]> Q) x ↔ queued Q x ∧ x ≠ s.
Proof.
  intros Hr HQ Hnd Hdj. rewrite HQ in Hnd.
  assert ((s ∉ l1) ∧ s ∉ l2) as [Hs1 Hs2].
  { apply list.NoDup_app in Hnd as (_ & H1 & H2). apply list.NoDup_cons in H2 as [H2 _].
    split; [|done]. intros Hin. apply (H1 s Hin). set_solver. }
  split.
  - intros (i & Hi & Hx). destruct (decide (i = recv)) as [->|Hne].
    + rewrite fn_lookup_insert in Hx. split; [exists recv; rewrite HQ; set_solver|set_solver].
    + rewrite fn_lookup_insert_ne in Hx by done. split; [by exists i|].
      intros ->. by destruct Hne; apply Hdj.
  - intros [(i & Hi & Hx) Hne]. exists i. split; [done|].
    destruct (decide (i = recv)) as [->|].
    + rewrite fn_lookup_insert. rewrite HQ in Hx. set_solver.
    + by rewrite fn_lookup_insert_ne.
Qed.

Lemma unlink_relinked ts recv prev s :
  length ts = NTASK → (recv < NTASK)%nat → (s < NTASK)%nat →
  (∀ p, prev = Some p → (p < NTASK)%nat) →
  length (unlink recv prev s ts) = NTASK ∧
  ∀ y, relinked (ts !!! y) (unlink recv prev s ts !!! y).
Proof.
  intros Hlen Hr Hs Hp. unfold unlink. split; [destruct prev; by rewrite !length_alter|].
  intros y. destruct prev as [p|].
  - eapply relinked_trans; apply relinked_alter; try rewrite length_alter; try done;
      try (rewrite Hlen; auto); intros []; done.
  - eapply relinked_trans; apply relinked_alter; try rewrite length_alter; try done;
      try (rewrite Hlen; auto); intros []; done.
Qed.

(** What the assignments of [unlink] do to the links. *)
Lemma unlink_send_next ts recv prev s y :
  length ts = NTASK → (recv < NTASK)%nat → (s < NTASK)%nat →
  (∀ p, prev = Some p → (p < NTASK)%nat ∧ p ≠ s) →
  send_next (unlink recv prev s ts !!! y) =
    if decide (y = s) then None
    else if decide (prev = Some y) then send_next (ts !!! s) else send_next (ts !!! y).
Proof.
  intros Hlen Hr Hs Hp. unfold unlink. destruct prev as [p|].
  - destruct (Hp p eq_refl). rewrite lookup_total_alter by (rewrite length_alter; lia).
    destruct (decide (s = y)) as [->|]; [by rewrite decide_True|].
    rewrite (decide_False (P := y = s)) by congruence.
    rewrite lookup_total_alter by lia. destruct (decide (p = y)) as [->|].
    + by rewrite decide_True.
    + by rewrite decide_False by congruence.
  - rewrite lookup_total_alter by (rewrite length_alter; lia).
    destruct (decide (s = y)) as [->|]; [by rewrite decide_True|].
    rewrite (decide_False (P := y = s)), decide_False by congruence.
    rewrite lookup_total_alter by lia. by destruct (decide (recv = y)).
Qed.
Lemma unlink_wait_sender ts recv prev s y :
  length ts = NTASK → (recv < NTASK)%nat → (s < NTASK)%nat →
  (∀ p, prev = Some p → (p < NTASK)%nat ∧ p ≠ s) →
  wait_sender (unlink recv prev s ts !!! y) =
    if decide (y = recv ∧ prev = None) then send_next (ts !!! s) else wait_sender (ts !!! y).
Proof.
  intros Hlen Hr Hs Hp. unfold unlink. destruct prev as [p|].
  - destruct (Hp p eq_refl). rewrite decide_False by (intros [_ ?]; done).
    rewrite lookup_total_alter by (rewrite length_alter; lia).
    rewrite lookup_total_alter by lia.
    by destruct (decide (s = y)), (decide (p = y)).
  - rewrite lookup_total_alter by (rewrite length_alter; lia).
    rewrite lookup_total_alter by lia.
    destruct (decide (recv = y)) as [->|].
    + by destruct (decide (s = y)); rewrite decide_True.
    + by destruct (decide (s = y)); rewrite decide_False by (intros [-> _]; done).
Qed.

Lemma before_snoc l p : before None (l ++ [p]) = Some p.
Proof. unfold before. by rewrite list.last_snoc. Qed.

(** The place of [s] in the queue it is taken from. *)
Lemma unlink_place ts Q recv l1 s l2 :
  links ts Q → (recv < NTASK)%nat → Q recv = l1 ++ s :: l2 →
  (s < NTASK)%nat ∧ (s ∉ l1) ∧ (s ∉ l2) ∧ NoDup l1 ∧ NoDup l2 ∧ (∀ x, x ∈ l1 → x ∉ s :: l2) ∧
  (∀ p, before None l1 = Some p → p ∈ l1) ∧ (∀ p, before None l1 = Some p → (p < NTASK)%nat ∧ p ≠ s).
Proof.
  intros H Hr HQ. pose proof (lk_nodup _ _ H recv Hr) as Hnd. rewrite HQ in Hnd.
  assert (∀ x, x ∈ Q recv → (x < NTASK)%nat ∧ x ≠ recv) as Hmem by (intros; by eapply lk_member).
  apply list.NoDup_app in Hnd as (N1 & N2 & N3). apply list.NoDup_cons in N3 as [Hs2 N3].
  assert (s ∉ l1) as Hs1 by (intros Hin; apply (N2 s Hin); set_solver).
  assert (∀ p, before None l1 = Some p → p ∈ l1) as Hbef.
  { destruct l1 as [|p l1 _] using rev_ind; [done|]. rewrite before_snoc. set_solver. }
  split_and!; try done; [apply Hmem; rewrite HQ; set_solver|].
  intros p Hb%Hbef. split; [|set_solver]. apply Hmem. rewrite HQ. set_solver.
Qed.
Lemma unlink_others ts Q recv l1 s l2 i :
  links ts Q → (recv < NTASK)%nat → Q recv = l1 ++ s :: l2 → (i < NTASK)%nat → i ≠ recv →
  let ts' := unlink recv (before None l1) s ts in sendq ts' (wait_sender (ts' !!! i)) (Q i).
Proof.
  intros H Hr HQ Hi Hne. cbn zeta. destruct (unlink_place _ _ _ _ _ _ H Hr HQ) as (Hs & Hs1 & Hs2 & N1 & N3 & N2 & Hbef & Hp).
  rewrite unlink_wait_sender by (done || apply H). rewrite decide_False by (intros [? _]; done).
  eapply sendq_ext; [|by apply (lk_chain _ _ H)]. intros x Hx.
  assert (x ∉ Q recv) as Hnot by (intros Hx'; destruct Hne; by eapply (lk_disj _ _ H)).
  rewrite HQ in Hnot. rewrite unlink_send_next by (done || apply H).
  rewrite !decide_False; [done| |set_solver]. intros Hb%Hbef. set_solver.
Qed.
Lemma unlink_self ts Q recv l1 s l2 :
  links ts Q → (recv < NTASK)%nat → Q recv = l1 ++ s :: l2 →
  let ts' := unlink recv (before None l1) s ts in sendq ts' (wait_sender (ts' !!! recv)) (l1 ++ l2).
Proof.
  intros H Hr HQ. cbn zeta. destruct (unlink_place _ _ _ _ _ _ H Hr HQ) as (Hs & Hs1 & Hs2 & N1 & N3 & N2 & Hbef & Hp).
  pose proof (lk_chain _ _ H recv Hr) as Hc. rewrite HQ, sendq_lseg in Hc.
  rewrite sendq_lseg. apply lseg_app in Hc as (r & Hc1 & -> & Hc2).
  rewrite unlink_wait_sender by (done || apply H).
  apply lseg_app. exists (send_next (ts !!! s)). split.
  - destruct l1 as [|p l1 _] using rev_ind.
    + simpl. by rewrite decide_True.
    + rewrite before_snoc. rewrite decide_False by (intros [_ ?]; done).
      apply lseg_app in Hc1 as (r & Hc0 & -> & Hcp). simpl in Hcp.
      apply lseg_app. exists (Some p). split.
      * eapply lseg_ext; [|done]. intros x Hx. rewrite <- before_snoc with (l := l1).
        rewrite unlink_send_next by (done || apply H). rewrite before_snoc.
        apply list.NoDup_app in N1 as (_ & N1 & _). specialize (N1 x Hx).
        rewrite !decide_False by set_solver. done.
      * simpl. split; [done|]. rewrite <- before_snoc with (l := l1).
        rewrite unlink_send_next by (done || apply H). rewrite before_snoc.
        rewrite decide_False by set_solver. by rewrite decide_True.
  - eapply lseg_ext; [|done]. intros x Hx. rewrite unlink_send_next by (done || apply H).
    rewrite !decide_False; [done| |set_solver]. intros Hb%Hbef. apply (N2 x Hb). set_solver.
Qed.
Lemma unlink_links ts Q recv l1 s l2 :
  links ts Q → (recv < NTASK)%nat → Q recv = l1 ++ s :: l2 →
  let ts' := unlink recv (before None l1) s ts in
  links ts' (<[recv := l1 ++ l2]> Q) ∧ (∀ y, relinked (ts !!! y) (ts' !!! y)).
Proof.
  intros H Hr HQ. cbn zeta. destruct (unlink_place _ _ _ _ _ _ H Hr HQ) as (Hs & Hs1 & Hs2 & N1 & N3 & N2 & Hbef & Hp).
  pose proof (lk_nodup _ _ H recv Hr) as Hnd.
  assert (∀ i, (i < NTASK)%nat → s ∈ Q i → i = recv) as Hdj.
  { intros i Hi Hin. eapply (lk_disj _ _ H); try done. rewrite HQ. set_solver. }
  pose proof (queued_remove Q recv l1 s l2) as Hqd.
  destruct (unlink_relinked ts recv (before None l1) s (lk_len _ _ H) Hr Hs (λ p Hb, proj1 (Hp p Hb)))
    as [Hlen' Hrel]. split; [|done].
  assert (∀ i x, x ∈ (<[recv := l1 ++ l2]> Q) i → x ∈ Q i) as Hsub.
  { intros i x. destruct (decide (i = recv)) as [->|]; [rewrite fn_lookup_insert, HQ; set_solver|].
    by rewrite fn_lookup_insert_ne. }
  split; [done|..].
  - intros i Hi. destruct (decide (i = recv)) as [->|]; [rewrite fn_lookup_insert; by eapply unlink_self|].
    rewrite fn_lookup_insert_ne by done. by eapply unlink_others.
  - intros i Hi. destruct (decide (i = recv)) as [->|].
    + rewrite fn_lookup_insert. apply list.NoDup_app. split_and!; [done| |done].
      intros x Hx. specialize (N2 x Hx). set_solver.
    + rewrite fn_lookup_insert_ne by done. by apply (lk_nodup _ _ H).
  - intros i j x Hi Hj Hx%Hsub Hx'%Hsub. by eapply (lk_disj _ _ H).
  - intros i x Hi Hx%Hsub. by apply (lk_member _ _ H).
  - intros x Hx Hnq. rewrite unlink_send_next by (done || apply H).
    destruct (decide (x = s)) as [|Hne]; [done|].
    assert (¬ queued Q x) as Hnq' by (intros Hq; apply Hnq; apply Hqd; done).
    rewrite decide_False; [by apply (lk_alone _ _ H)|].
    intros Hb%Hbef. apply Hnq'. exists recv. rewrite HQ. set_solver.
Qed.

(** Appending to the queue of [recv]. *)
Lemma queued_append Q recv snd x :
  (recv < NTASK)%nat → queued (<[recv := Q recv ++ [snd]]> Q) x ↔ queued Q x ∨ x = snd.
Proof.
  intros Hr. split.
  - intros (i & Hi & Hx). destruct (decide (i = recv)) as [->|].
    + rewrite fn_lookup_insert in Hx. apply elem_of_app in Hx as [Hx|Hx]; [left; by exists recv|].
      right. set_solver.
    + rewrite fn_lookup_insert_ne in Hx by done. left. by exists i.
  - intros [(i & Hi & Hx)| ->].
    + exists i. split; [done|]. destruct (decide (i = recv)) as [->|].
      * rewrite fn_lookup_insert. set_solver.
      * by rewrite fn_lookup_insert_ne.
    + exists recv. split; [done|]. rewrite fn_lookup_insert. set_solver.
Qed.

(** Which link [enqueue_sender] writes: the last of the queue's, or the
    receiver's own. *)
Lemma enqueue_sender_fields ts Q recv snd :
  links ts Q → (recv < NTASK)%nat → (snd < NTASK)%nat → ¬ queued Q snd →
  let ts' := enqueue_sender recv snd ts in
  length ts' = NTASK ∧ (∀ y, relinked (ts !!! y) (ts' !!! y)) ∧
  (∀ y, send_next (ts' !!! y) =
          if decide (list.last (Q recv) = Some y) then Some snd else send_next (ts !!! y)) ∧
  (∀ y, wait_sender (ts' !!! y) =
          if decide (y = recv ∧ Q recv = []) then Some snd else wait_sender (ts !!! y)).
Proof.
  intros H Hr Hs Hnq. cbn zeta. unfold enqueue_sender.
  pose proof (lk_len _ _ H) as Hlen. pose proof (lk_alone _ _ H snd Hs Hnq) as Hsn.
  assert (alter (λ t, t <| send_next := None |>) snd ts = ts) as ->.
  { apply list_eq. intros i. destruct (decide (i = snd)) as [->|].
    - rewrite list_lookup_alter_eq. destruct (ts !! snd) as [t|] eqn:Et; [|done]. simpl. f_equal.
      rewrite (list_lookup_total_correct _ _ _ Et) in Hsn. destruct t. simpl in *. by subst.
    - by rewrite list_lookup_alter_ne. }
  pose proof (lk_chain _ _ H recv Hr) as Hc.
  destruct (Q recv) as [|z l _] eqn:EQ using rev_ind.
  - simpl in Hc. rewrite Hc. split_and!; [by rewrite length_alter| | |].
    + apply relinked_alter; [by intros []|lia].
    + intros y. rewrite lookup_total_alter by lia. simpl. by destruct (decide (recv = y)).
    + intros y. rewrite lookup_total_alter by lia. destruct (decide (recv = y)) as [->|].
      * by rewrite decide_True.
      * by rewrite decide_False by (intros [-> _]; done).
  - apply sendq_lseg in Hc. rewrite list.last_snoc.
    assert (z < NTASK)%nat as Hz by (apply (lk_member _ _ H recv z Hr); rewrite EQ; set_solver).
    destruct (wait_sender (ts !!! recv)) as [p|] eqn:Ew; [|by destruct l; destruct Hc].
    rewrite (last_sender_spec NTASK ts (Some p) l z p Hc eq_refl).
    2:{ assert (NoDup (Q recv)) as Hnd by (by apply H). 
        assert (Q recv ⊆+ seq 0 NTASK) as Hsub.
        { apply NoDup_submseteq; [done|]. intros x Hx. apply elem_of_seq.
          destruct (lk_member _ _ H recv x Hr Hx). lia. }
        apply submseteq_length in Hsub. rewrite EQ, length_seq, length_app in Hsub. simpl in Hsub. lia. }
    split_and!; [by rewrite length_alter| | |].
    + apply relinked_alter; [by intros []|lia].
    + intros y. rewrite lookup_total_alter by lia. destruct (decide (z = y)) as [->|].
      * by rewrite decide_True.
      * by rewrite decide_False by congruence.
    + intros y. rewrite decide_False by (intros [_ ?]; by destruct l).
      rewrite lookup_total_alter by lia. by destruct (decide (z = y)).
Qed.

Lemma enqueue_links ts Q recv snd :
  links ts Q → (recv < NTASK)%nat → (snd < NTASK)%nat → recv ≠ snd → ¬ queued Q snd →
  links (enqueue_sender recv snd ts) (<[recv := Q recv ++ [snd]]> Q) ∧
  (∀ y, relinked (ts !!! y) (enqueue_sender recv snd ts !!! y)).
Proof.
  intros H Hr Hs Hne Hnq.
  destruct (enqueue_sender_fields ts Q recv snd H Hr Hs Hnq) as (Hlen & Hrel & Hsn & Hws).
  split; [|done]. set (ts' := enqueue_sender recv snd ts) in *.
  assert (∀ y, list.last (Q recv) = Some y → y ∈ Q recv) as Hlast by apply last_Some_elem_of.
  assert (∀ i x, (i < NTASK)%nat → i ≠ recv → x ∈ Q i → x ∉ Q recv) as Hoth.
  { intros i x Hi Hir Hx Hx'. destruct Hir. by eapply (lk_disj _ _ H). }
  assert (∀ i, (i < NTASK)%nat → snd ∉ Q i) as Hsnd by (intros i Hi Hin; apply Hnq; by exists i).
  split; [done|..].
  - intros i Hi. rewrite Hws. destruct (decide (i = recv)) as [->|Hir].
    + rewrite fn_lookup_insert, sendq_lseg. pose proof (lk_chain _ _ H recv Hr) as Hc.
      apply sendq_lseg in Hc. destruct (Q recv) as [|z l _] eqn:EQ using rev_ind.
      * rewrite decide_True by done. simpl. split; [done|]. rewrite Hsn. simpl.
        by apply (lk_alone _ _ H).
      * rewrite decide_False by (intros [_ ?]; by destruct l).
        apply lseg_app in Hc as (r & Hc1 & -> & Hc2). rewrite <- app_assoc.
        pose proof (lk_nodup _ _ H recv Hr) as Hnd. rewrite EQ in Hnd.
        apply list.NoDup_app in Hnd as (_ & Hnd & _).
        assert (snd ∉ Q recv) as Hsr by (by apply Hsnd). rewrite EQ in Hsr.
        rewrite list.last_snoc in Hsn.
        apply lseg_app. exists (Some z). split.
        -- eapply lseg_ext; [|done]. intros x Hx. rewrite Hsn. rewrite decide_False; [done|].
           intros [= ->]. apply (Hnd x Hx). set_solver.
        -- simpl. rewrite !Hsn. rewrite decide_True by done. rewrite decide_False by set_solver.
           split_and!; try done. by apply (lk_alone _ _ H).
    + rewrite fn_lookup_insert_ne by done. rewrite decide_False by (intros [? _]; done).
      eapply sendq_ext; [|by apply (lk_chain _ _ H)]. intros x Hx. rewrite Hsn.
      rewrite decide_False; [done|]. intros Hl%Hlast. by eapply Hoth.
  - intros i Hi. destruct (decide (i = recv)) as [->|].
    + rewrite fn_lookup_insert. apply list.NoDup_app. split_and!; [by apply H| |by apply NoDup_singleton].
      intros x Hx ->%list_elem_of_singleton. by eapply Hsnd.
    + rewrite fn_lookup_insert_ne by done. by apply H.
  - intros i j x Hi Hj. destruct (decide (i = recv)) as [->|], (decide (j = recv)) as [->|];
      rewrite ?fn_lookup_insert, ?fn_lookup_insert_ne by done; [done|..].
    + intros [Hx|Hx%list_elem_of_singleton]%elem_of_app Hx'; subst; [by eapply (lk_disj _ _ H)|by destruct (Hsnd j)].
    + intros Hx [Hx'|Hx'%list_elem_of_singleton]%elem_of_app; subst; [by eapply (lk_disj _ _ H)|by destruct (Hsnd i)].
    + by apply (lk_disj _ _ H).
  - intros i x Hi. destruct (decide (i = recv)) as [->|].
    + rewrite fn_lookup_insert. intros [Hx|Hx%list_elem_of_singleton]%elem_of_app; subst; [by apply H|done].
    + rewrite fn_lookup_insert_ne by done. by apply H.
  - intros x Hx Hq. rewrite queued_append in Hq by done. rewrite Hsn.
    rewrite decide_False; [apply (lk_alone _ _ H); tauto|].
    intros Hl%Hlast. apply Hq. left. by exists recv.
Qed.

(** ** The abstract queues are a function of the table *)

(** The senders parked on slot [i], in order. *)
Definition queue_of (k : kernel) (i : nat) : list nat :=
  queue_from NTASK (tasks k) (wait_sender (task_at k i)).
Lemma queue_from_spec fuel ts p l :
  sendq ts p l → (length l ≤ fuel)%nat → queue_from fuel ts p = l.
Proof.
  revert fuel p. induction l as [|i l IH]; intros fuel p; [by intros ->; destruct fuel|].
  intros [-> Hq] Hf. destruct fuel as [|fuel]; simpl in *; [lia|]. f_equal. apply IH; [done|lia].
Qed.
Lemma queue_of_rel k c Q i :
  table_rel (tasks k) c Q → (i < NTASK)%nat → queue_of k i = Q i.
Proof.
  intros H Hi. apply queue_from_spec; [by apply H|].
  pose proof (queue_length _ _ _ _ H Hi). lia.
Qed.

(** ** Steps that preserve the table *)

(** The fields the invariant depends on. *)
Definition ctl (t : task) :=
  (state t, pt t =? 0, tid t, gen t, waiting_recv t, wait_for t, wait_sender t, send_next t).

Lemma local_ok_ctl x q e c t t' : ctl t' = ctl t → local_ok x q e c t → local_ok x q e c t'.
Proof.
  unfold ctl. intros [= Hs Hp Hi Hg Hr Hw Hws Hsn] [L1 L2 L3 L4 L5 L6 L7].
  unfold blocked_sender, live in *.
  split; unfold blocked_sender, live; rewrite ?Hs, ?Hp, ?Hi, ?Hg, ?Hr, ?Hw, ?Hws, ?Hsn; done.
Qed.
Lemma table_ctl ts c Q x f :
  table_rel ts c Q → ctl (f (ts !!! x)) = ctl (ts !!! x) → table_rel (alter f x ts) c Q.
Proof.
  intros H Hc. destruct (decide (x < NTASK)%nat) as [Hx|Hx].
  - unfold ctl in Hc. eapply table_upd; try done; [congruence..|].
    eapply local_ok_ctl; [exact Hc|]. by apply H.
  - assert (alter f x ts = ts) as ->; [|done]. pose proof (tr_len _ _ _ H).
    apply list_eq. intros i. destruct (decide (i = x)) as [->|].
    + rewrite list_lookup_alter_eq. by rewrite lookup_ge_None_2 by lia.
    + by rewrite list_lookup_alter_ne.
Qed.
Lemma kernel_ok_upd k x f :
  ctl (f (task_at k x)) = ctl (task_at k x) → kernel_ok k → kernel_ok (upd x f k).
Proof.
  intros Hc [[Q H] Hr]. split; [exists Q; by apply table_ctl|].
  intros Hp. destruct (Hr Hp) as (c & Hcur & Hcn & Hst). exists c. split_and!; [done|done|].
  destruct (decide (x = c)) as [->|].
  - rewrite task_at_upd by (by rewrite (tr_len _ _ _ H)). unfold ctl in Hc. congruence.
  - by rewrite task_at_upd_ne.
Qed.
Lemma kernel_ok_ext k k' :
  tasks k' = tasks k → current k' = current k → parked k' = parked k →
  kernel_ok k → kernel_ok k'.
Proof. unfold kernel_ok, runs_current, task_at. by intros -> -> ->. Qed.
Lemma ctl_set_reg r v t : ctl (set_reg r v t) = ctl t.
Proof. done. Qed.

(** A blocked task outside every queue may be made runnable. *)
Definition woken (t : task) : task := t <| state := T_RUNNABLE |> <| waiting_recv := false |> <| wait_for := 0 |>.
Lemma table_wake ts c Q x f :
  table_rel ts c Q → (x < NTASK)%nat → ¬ queued Q x → state (ts !!! x) = T_BLOCKED →
  ctl (f (ts !!! x)) = ctl (woken (ts !!! x)) → table_rel (alter f x ts) c Q.
Proof.
  intros H Hx Hq Hst Hc. destruct (tr_local _ _ _ H x Hx) as [L1 L2 L3 L4 L5 L6 L7].
  unfold ctl in Hc. simpl in Hc. injection Hc as Hs Hp Hi Hg Hr Hw Hws Hsn.
  eapply table_upd; try done.
  split; unfold blocked_sender, live in *; rewrite ?Hs, ?Hp, ?Hi, ?Hg, ?Hr, ?Hw, ?Hws, ?Hsn; try done.
  intros _. apply L4. by rewrite Hst.
Qed.
(** Such is a task that waits in a receive. *)
Lemma receiver_free ts c Q x :
  table_rel ts c Q → (x < NTASK)%nat → waiting_recv (ts !!! x) = true →
  ¬ queued Q x ∧ state (ts !!! x) = T_BLOCKED ∧ wait_for (ts !!! x) = 0.
Proof.
  intros H Hx Hw. destruct (tr_local _ _ _ H x Hx) as [L1 L2 L3 L4 L5 L6 L7].
  specialize (L6 Hw). split_and!; [|done|].
  - intros Hq. destruct (L1 Hq) as (_ & Hf & _). congruence.
  - destruct (decide (wait_for (ts !!! x) = 0)) as [|Hne]; [done|].
    destruct L7 as [_ Hf]; [unfold live; by rewrite L6|done|]. congruence.
Qed.
Lemma kernel_ok_wake k Q x f :
  kernel_ok k → table_rel (tasks k) (current k) Q → (x < NTASK)%nat → ¬ queued Q x →
  state (task_at k x) = T_BLOCKED →
  ctl (f (task_at k x)) = ctl (woken (task_at k x)) → kernel_ok (upd x f k).
Proof.
  intros [_ Hr] H Hx Hq Hst Hc. split; [exists Q; by apply table_wake|].
  intros Hp. destruct (Hr Hp) as (c & Hcur & Hcn & Hrun). exists c. split_and!; [done|done|].
  rewrite task_at_upd_ne; [done|]. intros ->. congruence.
Qed.

(** Parking the caller, and then letting somebody else run. *)
Lemma kernel_ok_block k Q x f :
  table_rel (tasks k) (current k) Q → (x < NTASK)%nat → ¬ queued Q x →
  state (task_at k x) = T_RUNNING →
  state (f (task_at k x)) = T_BLOCKED → tid (f (task_at k x)) = tid (task_at k x) →
  gen (f (task_at k x)) = gen (task_at k x) →
  wait_sender (f (task_at k x)) = wait_sender (task_at k x) →
  send_next (f (task_at k x)) = send_next (task_at k x) →
  (wait_for (f (task_at k x)) ≠ 0 → waiting_recv (f (task_at k x)) = false) →
  kernel_ok (schedule (upd x f k)) ∧
  table_rel (tasks (schedule (upd x f k))) (current (schedule (upd x f k))) Q.
Proof.
  intros H Hx Hq Hrun Hs Hi Hg Hws Hsn Hw. unfold task_at in *.
  destruct (tr_local _ _ _ H x Hx) as [L1 L2 L3 L4 L5 L6 L7].
  assert (table_rel (tasks (upd x f k)) (current (upd x f k)) Q) as H'.
  { eapply table_upd; try done. split; unfold blocked_sender, live in *;
      rewrite ?Hs, ?Hi, ?Hg, ?Hws, ?Hsn; try done; [|by intros _ ?%Hw].
    intros _. apply L4. by rewrite Hrun. }
  destruct (schedule_ok _ _ H') as [H1 H2]. split; [|done]. split; [by exists Q|done].
Qed.

(** ** The operations *)

Lemma cur_running k :
  kernel_ok k → parked k = false →
  ∃ c, current k = Some c ∧ cur_slot k = c ∧ (c < NTASK)%nat ∧ state (task_at k c) = T_RUNNING.
Proof.
  intros [_ Hr] Hp. destruct (Hr Hp) as (c & Hc & Hcn & Hst). exists c.
  unfold cur_slot. by rewrite Hc.
Qed.
Lemma running_free ts c Q x :
  table_rel ts c Q → (x < NTASK)%nat → state (ts !!! x) = T_RUNNING → ¬ queued Q x.
Proof. intros H Hx Hst Hq. destruct (lo_queued _ _ _ _ _ (tr_local _ _ _ H x Hx) Hq). congruence. Qed.

Lemma deliver_frame snd sva slen rcv rva rlen k :
  (deliver snd sva slen rcv rva rlen k).2 =
    k <| phys := phys (deliver snd sva slen rcv rva rlen k).2 |>.
Proof.
  unfold deliver. destruct (_ <=? 0); [by destruct k|].
  destruct (vm_copy_across _ _ _ _ _ _) as [r m]. by destruct (r <? 0).
Qed.
Lemma deliver_ok snd sva slen rcv rva rlen k :
  kernel_ok k → kernel_ok (deliver snd sva slen rcv rva rlen k).2.
Proof. rewrite deliver_frame. by apply kernel_ok_ext. Qed.

Lemma relinked_ctl t t' :
  relinked t t' →
  state t' = state t ∧ tid t' = tid t ∧ gen t' = gen t ∧ pt t' = pt t ∧
  waiting_recv t' = waiting_recv t ∧ wait_for t' = wait_for t.
Proof. unfold relinked. by intros ->. Qed.

(** A relinked task is fine wherever the old one was, given the same
    standing in the new queues. *)
Lemma local_ok_relinked x (q q' e e' : Prop) c t t' :
  relinked t t' → (¬ q' → send_next t' = None) → (q' → q) → (state t = T_UNUSED → e → e') →
  local_ok x q e c t → local_ok x q' e' c t'.
Proof.
  intros Hr Hn Hq He [L1 L2 L3 L4 L5 L6 L7].
  destruct (relinked_ctl _ _ Hr) as (E1 & E2 & E3 & E4 & E5 & E6).
  unfold blocked_sender, live in *.
  split; unfold blocked_sender, live; rewrite ?E1, ?E2, ?E3, ?E4, ?E5, ?E6; auto.
Qed.

(** Taking [s] out of the queue of [recv], with the local fields. *)
Lemma unlink_table ts c Q recv l1 s l2 :
  table_rel ts c Q → (recv < NTASK)%nat → Q recv = l1 ++ s :: l2 →
  let ts' := unlink recv (before None l1) s ts in
  let Q' := <[recv := l1 ++ l2]> Q in
  table_rel ts' c Q' ∧ (∀ y, relinked (ts !!! y) (ts' !!! y)) ∧
  (∀ x, queued Q' x ↔ queued Q x ∧ x ≠ s).
Proof.
  intros H Hr HQ. cbn zeta.
  destruct (unlink_links ts Q recv l1 s l2 (table_links _ _ _ H) Hr HQ) as [Hlk Hrel].
  assert (∀ i, (i < NTASK)%nat → s ∈ Q i → i = recv) as Hdj.
  { intros i Hi Hx. eapply (tr_disj _ _ _ H); [done|done|exact Hx|]. rewrite HQ. set_solver. }
  pose proof (queued_remove Q recv l1 s l2) as Hqr.
  specialize (λ x, Hqr x Hr HQ (tr_nodup _ _ _ H recv Hr) Hdj).
  split_and!; [|done|done]. apply links_table; [done|]. intros x Hx.
  eapply local_ok_relinked; [apply Hrel|by apply (lk_alone _ _ Hlk)|..|by apply H].
  - by intros [? _]%Hqr.
  - intros _ He. destruct (decide (x = recv)) as [->|].
    + rewrite HQ in He. by destruct l1.
    + by rewrite fn_lookup_insert_ne.
Qed.
(** The search finds the first match of the abstract queue. *)
Lemma find_link_queue ts c Q i P :
  table_rel ts c Q → (i < NTASK)%nat →
  match find_link NTASK ts P None (wait_sender (ts !!! i)) with
  | Some (prev, s) => ∃ l1 l2, Q i = l1 ++ s :: l2 ∧ P s = true ∧
                       Forall (λ x, P x = false) l1 ∧ prev = before None l1
  | None => Forall (λ x, P x = false) (Q i)
  end.
Proof.
  intros H Hi. apply find_link_spec.
  - apply sendq_lseg. by apply H.
  - pose proof (queue_length _ _ _ _ H Hi). lia.
Qed.

(** Receiving from the queue: the abstract effect of [dequeue_sender]. *)
Lemma dequeue_spec ts c Q recv closed want :
  table_rel ts c Q → (recv < NTASK)%nat →
  match dequeue_sender recv closed want ts with
  | (Some s, ts') => ∃ l1 l2, Q recv = l1 ++ s :: l2 ∧
      (closed = true → tid (ts !!! s) = want) ∧
      Forall (λ x, closed = true ∧ tid (ts !!! x) ≠ want) l1 ∧
      (∀ y, relinked (ts !!! y) (ts' !!! y)) ∧
      table_rel ts' c (<[recv := l1 ++ l2]> Q) ∧
      (s < NTASK)%nat ∧ s ≠ recv ∧ blocked_sender (ts' !!! s) ∧
      ¬ queued (<[recv := l1 ++ l2]> Q) s
  | (None, ts') => ts' = ts ∧ Forall (λ x, closed = true ∧ tid (ts !!! x) ≠ want) (Q recv)
  end.
Proof.
  intros H Hr. unfold dequeue_sender. set (P := λ s, negb closed || (tid (ts !!! s) =? want)).
  assert (∀ x, P x = false → closed = true ∧ tid (ts !!! x) ≠ want) as HP.
  { unfold P. intros x. destruct closed; simpl; [|done]. intros ?%Z.eqb_neq. done. }
  pose proof (find_link_queue ts c Q recv P H Hr) as Hf.
  destruct (find_link _ _ _ _ _) as [[prev s]|].
  - destruct Hf as (l1 & l2 & HQ & HPs & Hl1 & ->). exists l1, l2.
    destruct (unlink_table ts c Q recv l1 s l2 H Hr HQ) as (Htab & Hrel & Hqr).
    assert (s ∈ Q recv) as Hin by (rewrite HQ; set_solver).
    destruct (tr_member _ _ _ H recv s Hr Hin) as [Hs Hsr].
    split; [done|]. split.
    { intros ->. unfold P in HPs. simpl in HPs. by apply Z.eqb_eq. }
    split; [eapply Forall_impl; [apply HP|exact Hl1]|]. split_and!; [done|done|done|done| |].
    + destruct (relinked_ctl _ _ (Hrel s)) as (E1 & _ & _ & _ & E2 & E3).
      unfold blocked_sender. rewrite E1, E2, E3. apply (tr_local _ _ _ H s Hs). by exists recv.
    + rewrite Hqr. tauto.
  - split; [done|]. eapply Forall_impl; [apply HP|exact Hf].
Qed.

Lemma ipc_recv_queue_ok closed rva rlen want k :
  kernel_ok k → parked k = false → kernel_ok (ipc_recv_queue closed rva rlen want k).
Proof.
  intros Hok Hp. destruct (cur_running k Hok Hp) as (c & Hc & Hcs & Hcn & Hst).
  unfold ipc_recv_queue. rewrite Hcs. pose proof Hok as [[Q H] Hrun].
  pose proof (dequeue_spec _ _ _ c closed want H Hcn) as Hd.
  destruct (dequeue_sender _ _ _ _) as [[s|] ts'].
  - destruct Hd as (l1 & l2 & _ & _ & _ & Hrel & Htab & Hs & Hsc & (Hb & Hw & Hf) & Hnq).
    assert (kernel_ok (k <| tasks := ts' |>)) as Hok1.
    { split; [by eexists|]. intros _. exists c. split_and!; [done|done|].
      unfold task_at. cbn. destruct (relinked_ctl _ _ (Hrel c)) as [-> _]. done. }
    set (k1 := k <| tasks := ts' |>) in *.
    pose proof (deliver_ok (task_at k1 s) (send_va (task_at k1 s)) (send_len (task_at k1 s))
                  (task_at k1 c) rva rlen k1 Hok1) as Hok2.
    pose proof (deliver_frame (task_at k1 s) (send_va (task_at k1 s)) (send_len (task_at k1 s))
                  (task_at k1 c) rva rlen k1) as Hfr.
    destruct (deliver _ _ _ _ _ _ _) as [r k2]. cbn [snd] in *.
    destruct (r <? 0); [by apply kernel_ok_upd|].
    assert (kernel_ok (upd c (set_A0 (tid (task_at k1 s))) k2)) as Hok3 by (by apply kernel_ok_upd).
    eapply (kernel_ok_wake _ (<[c := l1 ++ l2]> Q)); [done| |done|done|..].
    + rewrite Hfr. by apply table_ctl.
    + rewrite task_at_upd_ne, Hfr by done. exact Hb.
    + rewrite task_at_upd_ne, Hfr by done. unfold ctl, woken, k1, task_at in *. simpl.
      by rewrite Hw, Hf.
  - destruct Hd as [-> _]. eapply (kernel_ok_block (k <| tasks := tasks k |>) Q); try done.
    + by eapply running_free.
    + simpl. intros Hwf. destruct (lo_wait _ _ _ _ _ (tr_local _ _ _ H c Hcn)); [|done|].
      * unfold live. fold (task_at k c). by rewrite Hst.
      * fold (task_at k c) in *. congruence.
Qed.
Lemma ipc_recv_ok closed k : kernel_ok k → parked k = false → kernel_ok (ipc_recv closed k).
Proof.
  intros Hok Hp. unfold ipc_recv. destruct closed.
  - destruct (task_by_id _ _); [by apply ipc_recv_queue_ok|by apply kernel_ok_upd].
  - destruct (irq_pending _); [by apply kernel_ok_upd|].
    destruct (timer_pending _); [by apply kernel_ok_upd|by apply ipc_recv_queue_ok].
Qed.

Lemma links_alter ts Q x f :
  links ts Q → (∀ t, wait_sender (f t) = wait_sender t ∧ send_next (f t) = send_next t) →
  links (alter f x ts) Q.
Proof.
  intros [K1 K2 K3 K4 K5 K6] Hf.
  assert (∀ y, wait_sender (alter f x ts !!! y) = wait_sender (ts !!! y) ∧
               send_next (alter f x ts !!! y) = send_next (ts !!! y)) as Hsame.
  { intros y. destruct (decide (x = y)) as [<-|]; [|by rewrite lookup_total_alter_ne].
    destruct (decide (x < length ts)%nat); [rewrite lookup_total_alter_eq by done; apply Hf|].
    rewrite !list_lookup_total_alt, list_lookup_alter_eq, lookup_ge_None_2 by lia. done. }
  split; try done; [by rewrite length_alter| |].
  - intros i Hi. rewrite (proj1 (Hsame i)). eapply sendq_ext; [|by apply K2]. intros; apply Hsame.
  - intros y Hy Hq. rewrite (proj2 (Hsame y)). by apply K6.
Qed.

(** A running task waits for nothing. *)
Lemma running_quiet ts c Q x :
  table_rel ts c Q → (x < NTASK)%nat → state (ts !!! x) = T_RUNNING →
  waiting_recv (ts !!! x) = false ∧ wait_for (ts !!! x) = 0 ∧
  tid (ts !!! x) = slot_id x (gen (ts !!! x)) ∧ ¬ queued Q x.
Proof.
  intros H Hx Hst. destruct (tr_local _ _ _ H x Hx) as [L1 L2 L3 L4 L5 L6 L7].
  assert (live (ts !!! x) = true) as Hl by (unfold live; by rewrite Hst).
  split_and!; [| |by apply L4|by eapply running_free].
  - destruct (waiting_recv _); [specialize (L6 eq_refl); congruence|done].
  - destruct (decide (wait_for (ts !!! x) = 0)) as [|Hw]; [done|].
    destruct (L7 Hl Hw). congruence.
Qed.

(** Parking: after the link writes and the change of state, the table
    satisfies the invariant with the caller at the end of the queue. *)
Lemma park_sender k Q c dst f :
  table_rel (tasks k) (current k) Q → (c < NTASK)%nat → (dst < NTASK)%nat → dst ≠ c →
  state (task_at k c) = T_RUNNING → state (task_at k dst) ≠ T_UNUSED →
  ctl (f (task_at k c)) = ctl (task_at k c) →
  let k1 := upd c f k in
  let k2 := k1 <| tasks := enqueue_sender dst c (tasks k1) |> in
  let k3 := upd c (λ t, t <| state := T_BLOCKED |>) k2 in
  table_rel (tasks k3) (current k3) (<[dst := Q dst ++ [c]]> Q).
Proof.
  intros H Hc Hd Hne Hst Hdu Hf. cbn zeta.
  assert (table_rel (tasks (upd c f k)) (current k) Q) as H1 by (by apply table_ctl).
  pose proof (task_at_upd c f k ltac:(by rewrite (tr_len _ _ _ H))) as Hcf.
  assert (state (task_at (upd c f k) c) = T_RUNNING) as Hst1.
  { rewrite Hcf. unfold ctl in Hf. congruence. }
  assert (state (task_at (upd c f k) dst) ≠ T_UNUSED) as Hdu1 by (by rewrite task_at_upd_ne).
  destruct (running_quiet _ _ _ _ H1 Hc Hst1) as (Hwr & Hwf & Hid & Hnq).
  change (current (upd c (λ t, t <| state := T_BLOCKED |>) _)) with (current k).
  set (ts1 := tasks (upd c f k)) in *.
  change (tasks (upd c (λ t, t <| state := T_BLOCKED |>) _))
    with (alter (λ t, t <| state := T_BLOCKED |>) c (enqueue_sender dst c ts1)).
  destruct (enqueue_links _ _ dst c (table_links _ _ _ H1) Hd Hc Hne Hnq) as [Hlk Hrel].
  pose proof (lk_len _ _ Hlk) as Hlen2.
  apply links_table; [by apply links_alter|].
  intros x Hx. rewrite lookup_total_alter by lia. destruct (decide (c = x)) as [<-|Hcx].
  - destruct (relinked_ctl _ _ (Hrel c)) as (E1 & E2 & E3 & E4 & E5 & E6).
    split; unfold blocked_sender, live; simpl; rewrite ?E1, ?E2, ?E3, ?E4, ?E5, ?E6; try done.
    by apply (lk_alone _ _ Hlk).
  - eapply local_ok_relinked; [apply Hrel|by apply (lk_alone _ _ Hlk)|..|by apply H1].
    + intros [?| ->]%queued_append; done.
    + intros Hun He. destruct (decide (x = dst)) as [->|]; [|by rewrite fn_lookup_insert_ne].
      by destruct Hdu1.
Qed.

(** What [schedule] leaves alone. *)
Lemma schedule_frame k x :
  state (task_at k x) = T_BLOCKED ∨ state (task_at k x) = T_UNUSED →
  task_at (schedule k) x = task_at k x.
Proof.
  intros Hst. assert (task_at (sched_demote k) x = task_at k x) as Hd.
  { unfold sched_demote. destruct (current k) as [c|]; [|done]. destruct (decide _); [|done].
    apply task_at_upd_ne. intros ->. destruct Hst; congruence. }
  unfold schedule. destruct (sched_scan _ _ _ _) as [j|] eqn:E; [|done].
  apply sched_scan_runnable in E as [Hr _]. rewrite <- Hd.
  change (task_at (upd j (λ t, t <| state := T_RUNNING |>) (sched_demote k)) x
          = task_at (sched_demote k) x).
  apply task_at_upd_ne. intros ->. unfold task_at in *. rewrite <- Hd in Hst. destruct Hst; congruence.
Qed.
Lemma schedule_phys k : phys (schedule k) = phys k.
Proof.
  unfold schedule, sched_demote.
  destruct (current k); [destruct (decide _)|]; by destruct (sched_scan _ _ _ _).
Qed.

Lemma wants_waiting d s : wants d s = true → state d = T_BLOCKED ∧ waiting_recv d = true.
Proof.
  unfold wants. destruct (bool_decide _) eqn:E; [|done]. apply bool_decide_eq_true in E.
  by destruct (waiting_recv d).
Qed.

Lemma ipc_send_ok nonblock k : kernel_ok k → parked k = false → kernel_ok (ipc_send nonblock k).
Proof.
  intros Hok Hp. destruct (cur_running k Hok Hp) as (c & Hc & Hcs & Hcn & Hst).
  pose proof Hok as [[Q H] _]. unfold ipc_send. rewrite Hcs.
  destruct (task_by_id _ _) as [dst|] eqn:Ed; [|by apply kernel_ok_upd].
  apply (task_by_id_Some _ _ _ _ _ H) in Ed as (Hd & _ & _).
  case_bool_decide as Hun; [by apply kernel_ok_upd|].
  case_bool_decide as Hdc; [by apply kernel_ok_upd|].
  destruct (wants _ _) eqn:Ew.
  - apply wants_waiting in Ew as [Hb Hw].
    destruct (receiver_free _ _ _ dst H Hd Hw) as (Hnq & _ & Hwf).
    pose proof (λ a b c d e f, deliver_ok a b c d e f k Hok) as Hok2.
    pose proof (λ a b c d e f, deliver_frame a b c d e f k) as Hfr.
    specialize (Hok2 (cur k) (A1 (cur k)) (i32 (A2 (cur k))) (task_at k dst)
                  (recv_va (task_at k dst)) (recv_len (task_at k dst))).
    specialize (Hfr (cur k) (A1 (cur k)) (i32 (A2 (cur k))) (task_at k dst)
                  (recv_va (task_at k dst)) (recv_len (task_at k dst))).
    destruct (deliver _ _ _ _ _ _ _) as [r k2]. cbn [snd] in *.
    destruct (r <? 0); [by apply kernel_ok_upd|]. apply kernel_ok_upd; [done|].
    eapply (kernel_ok_wake _ Q); [done|by rewrite Hfr|done|done|by rewrite Hfr|].
    rewrite Hfr. unfold ctl, woken, task_at in *. simpl. by rewrite Hwf.
  - destruct nonblock; [by apply kernel_ok_upd|].
    destruct (running_quiet _ _ _ _ H Hcn Hst) as (Hwr & _).
    destruct (schedule_ok _ _ (park_sender k Q c dst
      (λ t, t <| send_va := A1 (cur k) |> <| send_len := i32 (A2 (cur k)) |> <| waiting_recv := false |>)
      H Hcn Hd Hdc Hst Hun ltac:(unfold ctl, task_at in *; simpl; by rewrite Hwr))) as [H1 H2].
    split; [by eexists|done].
Qed.

Lemma ipc_syscall_ok num k :
  kernel_ok k → parked k = false → kernel_ok (ipc_syscall num k).2.
Proof.
  intros. unfold ipc_syscall.
  repeat (destruct (num =? _); [by apply ipc_send_ok || by apply ipc_recv_ok|]). done.
Qed.

(** ** Effects, branch by branch *)

(** The queues are read off a table that satisfies the invariant. *)
Lemma queues_after k k' Q Q' :
  table_rel (tasks k) (current k) Q → table_rel (tasks k') (current k') Q' →
  ∀ i, (i < NTASK)%nat → queue_of k i = Q i ∧ queue_of k' i = Q' i.
Proof. intros H H' i Hi. split; by eapply queue_of_rel. Qed.

Lemma ipc_send_parks_spec k c dst :
  kernel_ok k → parked k = false → current k = Some c →
  task_by_id k (i32 (A0 (cur k))) = Some dst → state (task_at k dst) ≠ T_UNUSED → dst ≠ c →
  wants (task_at k dst) (cur k) = false →
  let k' := ipc_send false k in
  queue_of k' dst = queue_of k dst ++ [c] ∧
  (∀ i, (i < NTASK)%nat → i ≠ dst → queue_of k' i = queue_of k i) ∧
  state (task_at k' c) = T_BLOCKED ∧ waiting_recv (task_at k' c) = false ∧
  send_va (task_at k' c) = A1 (cur k) ∧ send_len (task_at k' c) = i32 (A2 (cur k)) ∧
  phys k' = phys k.
Proof.
  intros Hok Hp Hcur Hd Hun Hdc Hw. cbn zeta.
  destruct (cur_running k Hok Hp) as (c' & Hc & Hcs & Hcn & Hst).
  assert (c' = c) as -> by congruence. pose proof Hok as [[Q H] _].
  destruct (running_quiet _ _ _ _ H Hcn Hst) as (Hwr & _ & _ & Hnq).
  unfold ipc_send. rewrite Hd, Hcs, Hw. rewrite !bool_decide_eq_false_2 by done.
  apply (task_by_id_Some _ _ _ _ _ H) in Hd as (Hd & _ & _).
  set (f := λ t, t <| send_va := A1 (cur k) |> <| send_len := i32 (A2 (cur k)) |> <| waiting_recv := false |>).
  pose proof (park_sender k Q c dst f H Hcn Hd Hdc Hst Hun
    ltac:(unfold ctl, f, task_at in *; simpl; by rewrite Hwr)) as H3. cbn zeta in H3.
  set (k1 := upd c f k) in *. set (k2 := k1 <| tasks := _ |>) in *.
  set (k3 := upd c _ k2) in *.
  destruct (schedule_ok _ _ H3) as [H4 _].
  pose proof (queues_after _ _ _ _ H H4) as HQ.
  assert (task_at k3 c = (task_at k2 c) <| state := T_BLOCKED |>) as E3.
  { apply task_at_upd. pose proof (tr_len _ _ _ H3) as Hl. unfold k3 in Hl.
    rewrite length_upd in Hl. lia. }
  assert (relinked (task_at k1 c) (task_at k2 c)) as E2.
  { apply (enqueue_links (tasks k1) Q dst c); try done. apply table_links with (c := current k).
    apply table_ctl; [done|]. unfold ctl, f, task_at in *. simpl. by rewrite Hwr. }
  assert (task_at k1 c = f (task_at k c)) as E1 by (apply task_at_upd; by rewrite (tr_len _ _ _ H)).
  split_and!.
  - destruct (HQ dst Hd) as [-> ->]. by rewrite fn_lookup_insert.
  - intros i Hi Hne. destruct (HQ i Hi) as [-> ->]. by rewrite fn_lookup_insert_ne.
  - rewrite schedule_frame; rewrite E3; [done|by left].
  - rewrite schedule_frame; rewrite E3; [|by left]. rewrite E2, E1. done.
  - rewrite schedule_frame; rewrite E3; [|by left]. rewrite E2, E1. done.
  - rewrite schedule_frame; rewrite E3; [|by left]. rewrite E2, E1. done.
  - rewrite schedule_phys. done.
Qed.

(** Both parties of an immediate rendezvous, and the bytes that moved. *)
Definition msg_len (slen rlen : Z) : Z := Z.max 0 (Z.min slen rlen).

Lemma deliver_spec ty fl snd sva slen rcv rva rlen k :
  let n := msg_len slen rlen in
  tables_ok ty fl (mem (phys k)) → is_root ty (pt rcv) → is_root ty (pt snd) →
  0 ≤ sva → 0 ≤ rva → sva + n < 2 ^ 64 → rva + n < 2 ^ 64 →
  copy_range ty (pt rcv) (pt snd) (mem (phys k)) rva sva n →
  ∃ m', deliver snd sva slen rcv rva rlen k = (n, k <| phys := (phys k) <| mem := m' |> |>) ∧
    (∀ i, 0 ≤ i < n → rd8 m' (vm_translate_in (mem (phys k)) (pt rcv) (rva + i)) =
                      rd8 (mem (phys k)) (vm_translate_in (mem (phys k)) (pt snd) (sva + i))) ∧
    (∀ a, (∀ i, 0 ≤ i < n → a ≠ vm_translate_in (mem (phys k)) (pt rcv) (rva + i)) →
          rd8 m' a = rd8 (mem (phys k)) a).
Proof.
  cbn zeta. intros Hok Hr Hs Hsva Hrva Hst Hrt Hcr. unfold deliver.
  assert (msg_len slen rlen = Z.max 0 (if slen <? rlen then slen else rlen)) as En.
  { unfold msg_len. destruct (Z.ltb_spec slen rlen); lia. }
  set (n := if slen <? rlen then slen else rlen) in *.
  destruct (Z.leb_spec n 0) as [Hn|Hn].
  - replace (msg_len slen rlen) with 0 in * by lia. exists (mem (phys k)).
    split_and!; [|intros; lia|done]. destruct k as [[] ? ? ? ? ? ? ? ? ? ?]. done.
  - replace (msg_len slen rlen) with n in * by lia.
    destruct (vm_copy_across_spec ty fl (pt rcv) (pt snd) (mem (phys k)) rva sva n n)
      as (m' & -> & Hin & Hout); try done; [lia|by left|].
    rewrite Z.eqb_refl. exists m'. split_and!; [done|done|done].
Qed.

Lemma queue_of_ext k k' i :
  (∀ x, wait_sender (task_at k' x) = wait_sender (task_at k x) ∧
        send_next (task_at k' x) = send_next (task_at k x)) →
  queue_of k' i = queue_of k i.
Proof.
  intros H. unfold queue_of. rewrite (proj1 (H i)). generalize (wait_sender (task_at k i)).
  generalize NTASK. intros n. induction n as [|n IH]; intros p; [done|].
  destruct p as [j|]; [|done]. cbn [queue_from]. f_equal. rewrite <- IH. f_equal. apply H.
Qed.
Lemma upd_links i f k x :
  (∀ t, wait_sender (f t) = wait_sender t ∧ send_next (f t) = send_next t) →
  wait_sender (task_at (upd i f k) x) = wait_sender (task_at k x) ∧
  send_next (task_at (upd i f k) x) = send_next (task_at k x).
Proof.
  intros Hf. destruct (decide (i = x)) as [->|]; [|by rewrite task_at_upd_ne].
  destruct (decide (x < length (tasks k))%nat); [rewrite task_at_upd by done; apply Hf|].
  unfold task_at, upd. simpl.
  rewrite !list_lookup_total_alt, list_lookup_alter_eq, lookup_ge_None_2 by lia. done.
Qed.

(** What the caller may rely on when it shares memory with nobody: the two
    ranges of a message are mapped and apart. *)
Record message_ok (ty : gmap Z place) (fl : list Z) (m : memory) (rcv snd : task)
    (rva sva n : Z) : Prop := {
  mo_tables : tables_ok ty fl m;
  mo_rcv : is_root ty (pt rcv);
  mo_snd : is_root ty (pt snd);
  mo_sva : 0 ≤ sva ∧ sva + n < 2 ^ 64;
  mo_rva : 0 ≤ rva ∧ rva + n < 2 ^ 64;
  mo_range : copy_range ty (pt rcv) (pt snd) m rva sva n }.
(** [n] bytes have moved from [sva] of [snd] to [rva] of [rcv], and nothing
    else has changed. *)
Definition message_moved (m m' : memory) (rcv snd : task) (rva sva n : Z) : Prop :=
  (∀ i, 0 ≤ i < n → rd8 m' (vm_translate_in m (pt rcv) (rva + i)) =
                    rd8 m (vm_translate_in m (pt snd) (sva + i))) ∧
  (∀ a, (∀ i, 0 ≤ i < n → a ≠ vm_translate_in m (pt rcv) (rva + i)) → rd8 m' a = rd8 m a).

Lemma ipc_send_delivers_spec nonblock k c dst ty fl :
  kernel_ok k → parked k = false → current k = Some c →
  task_by_id k (i32 (A0 (cur k))) = Some dst → dst ≠ c →
  wants (task_at k dst) (cur k) = true →
  let d := task_at k dst in
  let n := msg_len (i32 (A2 (cur k))) (recv_len d) in
  message_ok ty fl (mem (phys k)) d (cur k) (recv_va d) (A1 (cur k)) n →
  let k' := ipc_send nonblock k in
  message_moved (mem (phys k)) (mem (phys k')) d (cur k) (recv_va d) (A1 (cur k)) n ∧
  A0 (task_at k' dst) = u64 (tid (cur k)) ∧ state (task_at k' dst) = T_RUNNABLE ∧
  A0 (task_at k' c) = 0 ∧ state (task_at k' c) = T_RUNNING ∧ current k' = Some c ∧
  (∀ i, queue_of k' i = queue_of k i).
Proof.
  intros Hok Hp Hcur Hd Hdc Hw. cbn zeta. intros [Ht Hr Hs [Hsa Hsb] [Hra Hrb] Hcr].
  destruct (cur_running k Hok Hp) as (c' & Hc & Hcs & Hcn & Hst).
  assert (c' = c) as -> by congruence. pose proof Hok as [[Q H] _].
  destruct (wants_waiting _ _ Hw) as [Hb _].
  unfold ipc_send. rewrite Hd, Hcs, Hw. apply (task_by_id_Some _ _ _ _ _ H) in Hd as (Hd & _ & _).
  rewrite !bool_decide_eq_false_2 by (done || congruence).
  destruct (deliver_spec ty fl (cur k) (A1 (cur k)) (i32 (A2 (cur k))) (task_at k dst)
    (recv_va (task_at k dst)) (recv_len (task_at k dst)) k) as (m' & -> & Hin & Hout); try done.
  set (n := msg_len _ _) in *. rewrite (proj2 (Z.ltb_ge n 0)) by (unfold n, msg_len; lia).
  set (k1 := k <| phys := _ |>).
  set (g := λ t, (set_A0 (tid (cur k)) t) <| waiting_recv := false |> <| recv_closed := false |>
                 <| state := T_RUNNABLE |>).
  pose proof (tr_len _ _ _ H) as Hlen.
  assert (task_at (upd c (set_A0 0) (upd dst g k1)) dst = g (task_at k dst)) as E1.
  { rewrite task_at_upd_ne by done.
    by rewrite task_at_upd by (change (tasks k1) with (tasks k); lia). }
  assert (task_at (upd c (set_A0 0) (upd dst g k1)) c = set_A0 0 (task_at k c)) as E2.
  { rewrite task_at_upd by (rewrite length_upd; change (tasks k1) with (tasks k); lia).
    by rewrite task_at_upd_ne. }
  rewrite E1, E2. unfold A0, set_A0 in *. cbn [phys mem upd set_field].
  split; [by split|]. split_and!.
  - unfold g. simpl. apply reg_set_reg.
  - done.
  - by rewrite reg_set_reg.
  - done.
  - done.
  - intros i. apply queue_of_ext. intros x.
    destruct (upd_links c (set_reg 10 0) (upd dst g k1) x) as [-> ->]; [done|].
    destruct (upd_links dst g k1 x) as [-> ->]; [done|]. done.
Qed.

(** Does a receive reach the queue, or is it answered before? *)
Definition recv_want (closed : bool) (k : kernel) : Z :=
  if closed then i32 (A0 (cur k)) else 0.
Definition recv_reaches_queue (closed : bool) (k : kernel) : Prop :=
  if closed then task_by_id k (recv_want closed k) ≠ None
  else irq_pending (cur k) = false ∧ timer_pending (cur k) = false.
(** A sender that this receive passes over. *)
Definition passed_over (closed : bool) (k : kernel) (x : nat) : Prop :=
  closed = true ∧ tid (task_at k x) ≠ recv_want closed k.

Lemma ipc_recv_queue_eq closed k :
  recv_reaches_queue closed k →
  ipc_recv closed k =
    ipc_recv_queue closed (if closed then A1 (cur k) else A0 (cur k))
      (i32 (if closed then A2 (cur k) else A1 (cur k))) (recv_want closed k) k.
Proof.
  unfold ipc_recv, recv_reaches_queue, recv_want. destruct closed.
  - by destruct (task_by_id _ _).
  - by intros [-> ->].
Qed.

(** The answer of [deliver] depends on the two address spaces and the
    memory only. *)
Lemma deliver_answer snd snd' sva slen rcv rcv' rva rlen k k' :
  pt snd' = pt snd → pt rcv' = pt rcv → phys k' = phys k →
  (deliver snd' sva slen rcv' rva rlen k').1 = (deliver snd sva slen rcv rva rlen k).1.
Proof.
  intros E1 E2 E3. unfold deliver. rewrite E1, E2, E3. destruct (_ <=? 0); [done|].
  destruct (vm_copy_across _ _ _ _ _ _) as [r m]. by destruct (r <? 0).
Qed.
(** The end of a receive that has taken [s] off the queue. *)
Lemma recv_finish k1 k2 c s r :
  length (tasks k1) = NTASK → (c < NTASK)%nat → (s < NTASK)%nat → s ≠ c →
  k2 = k1 <| phys := phys k2 |> → state (task_at k1 s) = T_BLOCKED →
  let k' := if r <? 0 then upd c (set_A0 (-1)) k2
            else upd s (λ t, (set_A0 0 t) <| state := T_RUNNABLE |>)
                   (upd c (set_A0 (tid (task_at k1 s))) k2) in
  current k' = current k1 ∧ (∀ i, queue_of k' i = queue_of k1 i) ∧
  (if r <? 0
   then A0 (task_at k' c) = u64 (-1) ∧ state (task_at k' s) = T_BLOCKED
   else A0 (task_at k' c) = u64 (tid (task_at k1 s)) ∧ A0 (task_at k' s) = 0 ∧
        state (task_at k' s) = T_RUNNABLE).
Proof.
  intros Hlen Hc Hs Hne -> Hb. cbn zeta. set (k3 := k1 <| phys := _ |>).
  assert (length (tasks k3) = NTASK) as Hlen3 by done.
  destruct (r <? 0).
  - rewrite task_at_upd, task_at_upd_ne by (done || lia). unfold A0. split_and!; [done| |apply reg_set_reg|done].
    intros i. apply queue_of_ext. intros x. by apply (upd_links c (set_A0 (-1)) k3).
  - rewrite (task_at_upd s) by (rewrite length_upd; lia).
    rewrite (task_at_upd_ne s c), task_at_upd, task_at_upd_ne by (done || lia).
    unfold A0. split_and!; [done| |apply reg_set_reg|exact (reg_set_reg 10 0 (task_at k3 s))|done].
    intros i. apply queue_of_ext. intros x.
    set (g := λ t, (set_A0 0 t) <| state := T_RUNNABLE |>).
    destruct (upd_links s g (upd c (set_A0 (tid (task_at k1 s))) k3) x) as [-> ->]; [done|].
    by apply (upd_links c (set_A0 (tid (task_at k1 s))) k3).
Qed.

Lemma ipc_recv_order_spec closed k c :
  kernel_ok k → parked k = false → current k = Some c → recv_reaches_queue closed k →
  let k' := ipc_recv closed k in
  let rva := if closed then A1 (cur k) else A0 (cur k) in
  let rlen := i32 (if closed then A2 (cur k) else A1 (cur k)) in
  (∃ l1 s l2, queue_of k c = l1 ++ s :: l2 ∧ Forall (passed_over closed k) l1 ∧
     ¬ passed_over closed k s ∧ queue_of k' c = l1 ++ l2 ∧
     (∀ i, (i < NTASK)%nat → i ≠ c → queue_of k' i = queue_of k i) ∧ current k' = Some c ∧
     (let snd := task_at k s in
      if (deliver snd (send_va snd) (send_len snd) (cur k) rva rlen k).1 <? 0
      then A0 (task_at k' c) = u64 (-1) ∧ state (task_at k' s) = T_BLOCKED
      else A0 (task_at k' c) = u64 (tid snd) ∧ A0 (task_at k' s) = 0 ∧
           state (task_at k' s) = T_RUNNABLE)) ∨
  (Forall (passed_over closed k) (queue_of k c) ∧
   (∀ i, (i < NTASK)%nat → queue_of k' i = queue_of k i) ∧
   state (task_at k' c) = T_BLOCKED ∧ waiting_recv (task_at k' c) = true ∧
   recv_closed (task_at k' c) = closed ∧ phys k' = phys k).
Proof.
  intros Hok Hp Hcur Hq. cbn zeta. rewrite (ipc_recv_queue_eq _ _ Hq).
  set (rva := if closed then _ else _). set (rlen := i32 _).
  destruct (cur_running k Hok Hp) as (c' & Hc & Hcs & Hcn & Hst).
  assert (c' = c) as -> by congruence. pose proof Hok as [[Q H] _].
  unfold ipc_recv_queue. unfold cur. rewrite Hcs.
  pose proof (dequeue_spec _ _ _ c closed (recv_want closed k) H Hcn) as Hd.
  destruct (dequeue_sender _ _ _ _) as [[s|] ts'].
  - left. destruct Hd as (l1 & l2 & HQ & Hs & Hl1 & Hrel & Htab & Hsn & Hsc & (Hb & _) & _).
    exists l1, s, l2. set (k1 := k <| tasks := ts' |>).
    assert (∀ x, relinked (task_at k x) (task_at k1 x)) as Hrel1 by exact Hrel.
    assert (send_va (task_at k1 s) = send_va (task_at k s) ∧
            send_len (task_at k1 s) = send_len (task_at k s) ∧
            tid (task_at k1 s) = tid (task_at k s)) as (E1 & E2 & E3) by (by rewrite (Hrel1 s)).
    rewrite <- E1, <- E2, <- E3.
    rewrite <- (deliver_answer (task_at k s) (task_at k1 s) (send_va (task_at k1 s))
      (send_len (task_at k1 s)) (task_at k c) (task_at k1 c) rva rlen k k1)
      by (done || (rewrite (Hrel1 _); done)).
    pose proof (deliver_frame (task_at k1 s) (send_va (task_at k1 s)) (send_len (task_at k1 s))
                  (task_at k1 c) rva rlen k1) as Hfr.
    destruct (deliver _ _ _ _ _ _ _) as [r k2]. cbn [fst snd] in *.
    destruct (recv_finish k1 k2 c s r (tr_len _ _ _ Htab) Hcn Hsn Hsc Hfr Hb) as (F1 & F2 & F3).
    pose proof (queues_after k k1 _ _ H Htab) as HQ'.
    split_and!; [by rewrite (proj1 (HQ' c Hcn))|done| | | | |].
    + intros [Hcl Hne]. by apply Hne, Hs.
    + rewrite F2, (proj2 (HQ' c Hcn)). by rewrite fn_lookup_insert.
    + intros i Hi Hic. rewrite F2, (proj2 (HQ' i Hi)), (proj1 (HQ' i Hi)).
      by rewrite fn_lookup_insert_ne.
    + rewrite F1. done.
    + exact F3.
  - right. destruct Hd as [-> Hall].
    destruct (running_quiet _ _ _ _ H Hcn Hst) as (_ & Hwf & _ & Hnq).
    set (g := λ t, t <| recv_va := rva |> <| recv_len := rlen |> <| waiting_recv := true |>
                     <| recv_closed := closed |> <| recv_from := recv_want closed k |>
                     <| state := T_BLOCKED |>).
    destruct (kernel_ok_block (k <| tasks := tasks k |>) Q c g H Hcn Hnq Hst) as [_ Htab];
      try done.
    assert (task_at (upd c g (k <| tasks := tasks k |>)) c = g (task_at k c)) as Eg.
    { rewrite task_at_upd; [done|]. by rewrite <- (tr_len _ _ _ H) in Hcn. }
    pose proof (queues_after k _ _ _ H Htab) as HQ'.
    rewrite schedule_frame by (rewrite Eg; by left). rewrite Eg.
    split_and!; [by rewrite (proj1 (HQ' c Hcn))| |done|done|done|].
    + intros i Hi. rewrite (proj1 (HQ' i Hi)). exact (proj2 (HQ' i Hi)).
    + by rewrite schedule_phys.
Qed.

(** ** Demonstration tables *)

(** The demonstration kernel with the caller, slot 1, asking for [a0],
    [a1] and [a2], and slot 2 in state [f]. *)
Definition demo_call (a0 a1 a2 : Z) (f : task → task) : kernel :=
  upd 2 f (upd 1 (λ t, set_reg 12 a2 (set_reg 11 a1 (set_reg 10 a0 t)) <| pt := demo_root |>)
             (demo_kernel <| phys := demo_mapped |>)).
(** Slot 2 in an open receive, in the same address space. *)
Definition demo_receiving (t : task) : task :=
  t <| pt := demo_root |> <| state := T_BLOCKED |> <| waiting_recv := true |>
    <| recv_va := USTACK_TOP - PGSIZE + 8 |> <| recv_len := 4 |>.
(** Slot 2 parked as a sender on slot 1, with a message at address [va]. *)
Definition demo_parked (va : Z) (k : kernel) : kernel :=
  upd 1 (λ t, t <| wait_sender := Some 2%nat |>)
    (upd 2 (λ t, t <| state := T_BLOCKED |> <| send_va := va |> <| send_len := 4 |>) k).

(** Each of them satisfies the invariant. *)
Ltac demo_ok := apply (kernel_check_ok _ 1); [vm_compute; reflexivity|reflexivity|slot_lia|reflexivity].
Lemma demo_send_ok : kernel_ok (demo_call 2 (UHEAP_BASE + 100) 4 id).
Proof. demo_ok. Qed.
Lemma demo_deliver_ok : kernel_ok (demo_call 2 (UHEAP_BASE + 100) 4 demo_receiving).
Proof. demo_ok. Qed.
Definition demo_lost : kernel := demo_parked 0 (demo_call (UHEAP_BASE + 100) 4 0 id).
Lemma demo_lost_ok : kernel_ok demo_lost.
Proof. demo_ok. Qed.

(** ** Theorems *)

Lemma singleton_split (x : nat) l1 s l2 : [x] = l1 ++ s :: l2 → l1 ++ l2 = [].
Proof. destruct l1 as [|y [|z l1]]; simpl; intros [=]; by subst. Qed.

(** A blocking send to a task that is not waiting for it parks the
    caller at the end of that task's queue and nowhere else, keeps the
    message where it is, and leaves memory alone; the table invariant
    holds afterwards. *)
Theorem ipc_send_parks k c dst :
  kernel_ok k → parked k = false → current k = Some c →
  task_by_id k (i32 (A0 (cur k))) = Some dst → state (task_at k dst) ≠ T_UNUSED → dst ≠ c →
  wants (task_at k dst) (cur k) = false →
  let k' := ipc_send false k in
  kernel_ok k' ∧ queue_of k' dst = queue_of k dst ++ [c] ∧
  (∀ i, (i < NTASK)%nat → i ≠ dst → queue_of k' i = queue_of k i) ∧
  state (task_at k' c) = T_BLOCKED ∧ waiting_recv (task_at k' c) = false ∧
  send_va (task_at k' c) = A1 (cur k) ∧ send_len (task_at k' c) = i32 (A2 (cur k)) ∧
  phys k' = phys k.
Proof. intros. split; [by apply ipc_send_ok|by apply ipc_send_parks_spec]. Qed.
Lemma ipc_send_parks_witness :
  queue_of (ipc_send false (demo_call 2 (UHEAP_BASE + 100) 4 id)) 2 = [1%nat].
Proof.
  destruct (ipc_send_parks (demo_call 2 (UHEAP_BASE + 100) 4 id) 1 2) as (_ & H & _);
    [exact demo_send_ok|reflexivity|reflexivity|vm_compute; reflexivity|done|done|vm_compute; reflexivity|].
  rewrite H. vm_compute. reflexivity.
Defined.

(** A send to a task that waits for it completes at once: as many
    bytes as both sides allow move from the sender's address space to the
    receiver's and no other byte changes; the receiver becomes runnable
    with the sender's identifier as its answer, the sender's own call
    returns 0 and it keeps running, and no queue changes. *)
Theorem ipc_send_delivers nonblock k c dst ty fl :
  kernel_ok k → parked k = false → current k = Some c →
  task_by_id k (i32 (A0 (cur k))) = Some dst → dst ≠ c →
  wants (task_at k dst) (cur k) = true →
  let d := task_at k dst in
  let n := msg_len (i32 (A2 (cur k))) (recv_len d) in
  message_ok ty fl (mem (phys k)) d (cur k) (recv_va d) (A1 (cur k)) n →
  let k' := ipc_send nonblock k in
  message_moved (mem (phys k)) (mem (phys k')) d (cur k) (recv_va d) (A1 (cur k)) n ∧
  A0 (task_at k' dst) = u64 (tid (cur k)) ∧ state (task_at k' dst) = T_RUNNABLE ∧
  A0 (task_at k' c) = 0 ∧ state (task_at k' c) = T_RUNNING ∧ current k' = Some c ∧
  (∀ i, queue_of k' i = queue_of k i).
Proof. exact (ipc_send_delivers_spec nonblock k c dst ty fl). Qed.
Lemma ipc_send_delivers_witness :
  let k' := ipc_send true (demo_call 2 (UHEAP_BASE + 100) 4 demo_receiving) in
  state (task_at k' 2) = T_RUNNABLE ∧ A0 (task_at k' 2) = 1 ∧ A0 (task_at k' 1) = 0.
Proof.
  destruct demo_range as (ty & fl & Hok & Hr & Hcr & _).
  destruct (ipc_send_delivers true (demo_call 2 (UHEAP_BASE + 100) 4 demo_receiving) 1 2 ty fl)
    as (_ & H1 & H2 & H3 & _);
    [exact demo_deliver_ok|reflexivity|reflexivity|vm_compute; reflexivity|done|vm_compute; reflexivity| |].
  - assert (task_at (demo_call 2 (UHEAP_BASE + 100) 4 demo_receiving) 2 =
            demo_receiving (task_at demo_kernel 2)) as -> by (vm_compute; reflexivity).
    assert (A1 (cur (demo_call 2 (UHEAP_BASE + 100) 4 demo_receiving)) = UHEAP_BASE + 100) as ->
      by (vm_compute; reflexivity).
    assert (msg_len (i32 (A2 (cur (demo_call 2 (UHEAP_BASE + 100) 4 demo_receiving))))
              (recv_len (demo_receiving (task_at demo_kernel 2))) = 4) as -> by (vm_compute; reflexivity).
    assert (pt (cur (demo_call 2 (UHEAP_BASE + 100) 4 demo_receiving)) = demo_root) as Ep
      by (vm_compute; reflexivity).
    change (mem (phys (demo_call 2 (UHEAP_BASE + 100) 4 demo_receiving))) with (mem demo_mapped).
    split; [exact Hok|exact Hr|rewrite Ep; exact Hr|by_compute|by_compute|].
    rewrite Ep. exact Hcr.
  - split_and!; [exact H2| |exact H3]. rewrite H1. vm_compute. reflexivity.
Defined.

(** C18: a receive that is not answered by a pending interrupt or alarm
    takes the earliest parked sender it accepts - any sender when open,
    the named one when closed - and leaves every other sender in place
    and in order; with no acceptable sender it blocks and touches no
    queue and no memory.  The caller's answer is the sender's identifier
    and the sender's call returns 0, unless the copy fails: then the
    caller gets -1 and the sender stays blocked, in no queue at all. *)
Theorem ipc_recv_order closed k c :
  kernel_ok k → parked k = false → current k = Some c → recv_reaches_queue closed k →
  let k' := ipc_recv closed k in
  let rva := if closed then A1 (cur k) else A0 (cur k) in
  let rlen := i32 (if closed then A2 (cur k) else A1 (cur k)) in
  (∃ l1 s l2, queue_of k c = l1 ++ s :: l2 ∧ Forall (passed_over closed k) l1 ∧
     ¬ passed_over closed k s ∧ queue_of k' c = l1 ++ l2 ∧
     (∀ i, (i < NTASK)%nat → i ≠ c → queue_of k' i = queue_of k i) ∧ current k' = Some c ∧
     (let snd := task_at k s in
      if (deliver snd (send_va snd) (send_len snd) (cur k) rva rlen k).1 <? 0
      then A0 (task_at k' c) = u64 (-1) ∧ state (task_at k' s) = T_BLOCKED
      else A0 (task_at k' c) = u64 (tid snd) ∧ A0 (task_at k' s) = 0 ∧
           state (task_at k' s) = T_RUNNABLE)) ∨
  (Forall (passed_over closed k) (queue_of k c) ∧
   (∀ i, (i < NTASK)%nat → queue_of k' i = queue_of k i) ∧
   state (task_at k' c) = T_BLOCKED ∧ waiting_recv (task_at k' c) = true ∧
   recv_closed (task_at k' c) = closed ∧ phys k' = phys k).
Proof. exact (ipc_recv_order_spec closed k c). Qed.
Lemma ipc_recv_order_witness :
  queue_of (ipc_recv false demo_lost) 1 = [] ∧ queue_of demo_lost 1 = [2%nat].
Proof.
  assert (queue_of demo_lost 1 = [2%nat]) as E by (vm_compute; reflexivity).
  split; [|exact E].
  destruct (ipc_recv_order false demo_lost 1) as [(l1 & s & l2 & HQ & Hl1 & _ & HQ' & _)|[Hall _]];
    [exact demo_lost_ok|reflexivity|reflexivity|split; vm_compute; reflexivity|..].
  - rewrite E in HQ. rewrite HQ'. exact (singleton_split _ _ _ _ HQ).
  - rewrite E in Hall. exfalso. apply Forall_inv in Hall as [Hf _]. discriminate Hf.
Defined.

(** A receive whose copy fails consumes the parked sender without
    releasing it.  Here slot 2 holds out a message at an unmapped address:
    the receive answers -1, and slot 2 is left blocked while standing in
    nobody's queue, so that no later receive can ever complete its send. *)
Theorem ipc_recv_strands_sender :
  let k' := ipc_recv false demo_lost in
  kernel_ok demo_lost ∧ A0 (task_at k' 1) = u64 (-1) ∧ state (task_at k' 2) = T_BLOCKED ∧
  waiting_recv (task_at k' 2) = false ∧ wait_for (task_at k' 2) = 0 ∧
  forallb (λ i, bool_decide (2%nat ∉ queue_of k' i)) (seq 0 NTASK) = true.
Proof. split; [exact demo_lost_ok|]. vm_compute. done. Qed.
