(* ===== verification/Vfs.v ===== *)
(** * Namespaces (src/src/vfs.c)

    A namespace is a table of at most [VFS_NMOUNT] entries in a page of
    its own.  The definitions shift entries of the array one by one, as
    the source does; the lemmas show that mounting, binding and
    unmounting are insertion into and deletion from an ordered list, that
    resolution picks the longest matching name and walks its union in
    table order, and that the sweep frees exactly the namespaces no live
    task refers to. *)
From stdpp Require Import base list numbers option gmap.
From S2P Require Import Prelude Mem Riscv Pmm VmMap Kernel Task.
Local Open Scope Z_scope.

(** ** The code: the pool *)

(** [ns_pool[i]], a page address or [0]. *)
Definition pool_at (k : kernel) (i : nat) : Z := ns_pool k !!! i.
Definition ns_get (i : nat) (k : kernel) : Z * kernel :=
  if pool_at k i =? 0 then
    let '(p, k1) := with_phys pmm_alloc k in
    let k2 := k1 <| ns_pool := <[i := p]> (ns_pool k1) |> in
    if p =? 0 then (0, k2)
    else (p, k2 <| nss := <[p := zero_ns]> (nss k2) |>)
  else (pool_at k i, k).
Definition vfs_root_ns (k : kernel) : Z * kernel := ns_get 0 k.
Definition cur_ns (k : kernel) : Z * kernel :=
  match current k with
  | Some c => if negb (ns (task_at k c) =? 0) then (ns (task_at k c), k) else ns_get 0 k
  | None => ns_get 0 k
  end.
(** The namespace at address [p]. *)
Definition ns_at (k : kernel) (p : Z) : namespace := default zero_ns (nss k !! p).
Definition ns_put (p : Z) (n : namespace) (k : kernel) : kernel :=
  k <| nss := <[p := n]> (nss k) |>.

Definition vfs_ns_clone (k : kernel) : Z * kernel :=
  match current k with
  | None => (-1, k)
  | Some c =>
      let '(mine, k1) := cur_ns k in
      match find_from (λ i, pool_at k1 i =? 0) 1 (VFS_NNS - 1) with
      | None => (-1, k1)
      | Some i =>
          let '(p, k2) := ns_get i k1 in
          if p =? 0 then (-1, k2)
          else
            let k3 := ns_put p ((ns_at k2 mine) <| used := true |>) k2 in
            (0, upd c (λ t, t <| ns := p |>) k3)
      end
  end.

Definition vfs_ns_inuse (k : kernel) : Z :=
  foldl (λ n i, n + (if pool_at k i =? 0 then 0 else 1)) 1 (seq 1 (VFS_NNS - 1)).

(** Some live task stands in the namespace at [p]. *)
Definition ns_live (k : kernel) (p : Z) : bool :=
  existsb (λ t, live (task_at k t) && (ns (task_at k t) =? p)) (seq 0 NTASK).
Definition gc_slot (k : kernel) (i : nat) : kernel :=
  let p := pool_at k i in
  if p =? 0 then k
  else if ns_live k p then k
  else
    let k1 := k <| phys := pmm_free p (phys k) |> <| nss := delete p (nss k) |> in
    k1 <| ns_pool := <[i := 0]> (ns_pool k1) |>.
Definition vfs_ns_gc (k : kernel) : kernel := foldl gc_slot k (seq 1 (VFS_NNS - 1)).

(** ** The code: one table *)

(** Strings are the bytes before the NUL. *)
Fixpoint streq (a b : list Z) : bool :=
  match a, b with
  | [], [] => true
  | x :: a', y :: b' => (x =? y) && streq a' b'
  | _, _ => false
  end.

Definition mnt_at (n : namespace) (i : nat) : mount := mnt n !!! i.
(** [for (k = i; k + 1 < n; k++) mnt[k] = mnt[k + 1];] for [c] rounds. *)
Fixpoint shift_down_loop (k c : nat) (m : list mount) : list mount :=
  match c with
  | O => m
  | S c' => shift_down_loop (S k) c' (<[k := m !!! S k]> m)
  end.
Definition shift_down (i : nat) (n : namespace) : namespace :=
  n <| mnt := shift_down_loop i (ns_n n - 1 - i) (mnt n) |> <| ns_n := (ns_n n - 1)%nat |>.
(** The loop that drops every entry called [name], from index [i] on;
    [fuel] bounds the entries left to look at. *)
Fixpoint remove_named (fuel : nat) (name : list Z) (i : nat) (n : namespace) : bool * namespace :=
  match fuel with
  | O => (false, n)
  | S fuel' =>
      if (i <? ns_n n)%nat then
        if streq (prefix (mnt_at n i)) name
        then (true, (remove_named fuel' name i (shift_down i n)).2)
        else remove_named fuel' name (S i) n
      else (false, n)
  end.

Definition MREPL : Z := 0.
Definition MBEFORE : Z := 1.
Definition MAFTER : Z := 2.

(** [for (i = n - 1; i >= 0; i--)]: the last entry called [name]. *)
Fixpoint last_named (n : nat) (name : list Z) (ns : namespace) : option nat :=
  match n with
  | O => None
  | S i => if streq (prefix (mnt_at ns i)) name then Some i else last_named i name ns
  end.
Fixpoint shift_up_loop (k c : nat) (m : list mount) : list mount :=
  match c with
  | O => m
  | S c' => shift_up_loop (k - 1) c' (<[k := m !!! (k - 1)%nat]> m)
  end.
(** The index that is now free for the new entry, or [None]. *)
Definition insert_at (ns : namespace) (name : list Z) (flags : Z) : option nat * namespace :=
  let ns1 := if flags =? MREPL then (remove_named (ns_n ns) name 0 ns).2 else ns in
  if (VFS_NMOUNT <=? ns_n ns1)%nat then (None, ns1)
  else
    let at_ :=
      if flags =? MAFTER then
        match last_named (ns_n ns1) name ns1 with Some i => S i | None => ns_n ns1 end
      else if flags =? MBEFORE then
        match find_from (λ i, streq (prefix (mnt_at ns1 i)) name) 0 (ns_n ns1) with
        | Some i => i | None => ns_n ns1 end
      else ns_n ns1 in
    let ns2 := ns1 <| mnt := shift_up_loop (ns_n ns1) (ns_n ns1 - at_) (mnt ns1) |> in
    (Some at_, ns2 <| ns_n := S (ns_n ns2) |>).

(** A write through a null namespace is outside the model, which stops
    there. *)
Definition null_ns (k : kernel) : Z * kernel := (-1, k <| parked := true |>).

(** Filling the entry that [insert_at] has made room for. *)
Definition put_mount (name : list Z) (flags : Z) (m : mount) (k : kernel) : Z * kernel :=
  let '(p, k1) := cur_ns k in
  if p =? 0 then null_ns k1
  else
    match insert_at (ns_at k1 p) name flags with
    | (None, n) => (-1, ns_put p n k1)
    | (Some i, n) => (0, ns_put p (n <| mnt := <[i := m]> (mnt n) |>) k1)
    end.
Definition vfs_mount (name : list Z) (server_task flags : Z) (k : kernel) : Z * kernel :=
  put_mount name flags (mkMount name MNT_SERVER server_task []) k.
Definition vfs_bind (old new : list Z) (flags : Z) (k : kernel) : Z * kernel :=
  put_mount new flags (mkMount new MNT_BIND (-1) old) k.
Definition vfs_unmount (name : list Z) (k : kernel) : Z * kernel :=
  let '(p, k1) := cur_ns k in
  if p =? 0 then null_ns k1
  else
    let '(found, n) := remove_named (ns_n (ns_at k1 p)) name 0 (ns_at k1 p) in
    (if found then 0 else -1, ns_put p n k1).

(** ** The code: resolution *)

Definition SLASH : Z := 47.
(** [s[i]], where reading the NUL of a string gives [0]. *)
Definition char_at (s : list Z) (i : nat) : Z := default 0 (s !! i).

Definition prefix_matches (path prefix : list Z) : bool :=
  let l := length prefix in
  if (l =? 0)%nat then false
  else if (char_at prefix (l - 1) =? SLASH) && (length path =? l - 1)%nat
          && str_has_prefix prefix path then true
  else if negb (str_has_prefix path prefix) then false
  else if char_at prefix (l - 1) =? SLASH then true
  else let c := char_at path l in (c =? 0) || (c =? SLASH).

(** The first loop of [nth_match]: [any] and [bestlen] as one option. *)
Fixpoint best_len (ns : namespace) (path : list Z) (i c : nat) (best : option nat) : option nat :=
  match c with
  | O => best
  | S c' =>
      let pre := prefix (mnt_at ns i) in
      let best' := if prefix_matches path pre then
                     match best with
                     | None => Some (length pre)
                     | Some b => if (b <? length pre)%nat then Some (length pre) else Some b
                     end
                   else best in
      best_len ns path (S i) c' best'
  end.
(** The second: the [nth] entry that matches with that length. *)
Fixpoint pick_nth (ns : namespace) (path : list Z) (best : nat) (i c : nat) (nth k : Z) : option nat :=
  match c with
  | O => None
  | S c' =>
      let pre := prefix (mnt_at ns i) in
      if negb (prefix_matches path pre) then pick_nth ns path best (S i) c' nth k
      else if negb (length pre =? best)%nat then pick_nth ns path best (S i) c' nth k
      else if k =? nth then Some i
      else pick_nth ns path best (S i) c' nth (k + 1)
  end.
Definition nth_match (ns : namespace) (path : list Z) (nth : Z) : option nat :=
  match best_len ns path 0 (ns_n ns) None with
  | None => None
  | Some best => pick_nth ns path best 0 (ns_n ns) nth 0
  end.

Definition RESOLVE_HOPS : nat := 4.
(** A name copied into a buffer of [VFS_PATH_MAX] bytes. *)
Definition path_fit (s : list Z) : list Z := take (VFS_PATH_MAX - 1) s.
(** The name that a bind makes of [buf]: the target, and what follows the
    prefix, without a doubled slash between the two. *)
Definition bind_next (m : mount) (buf : list Z) : list Z :=
  let head := path_fit (target m) in
  let rest := cstr (drop (length (prefix m)) buf) in
  let rest := if (0 <? length head)%nat && (char_at head (length head - 1) =? SLASH)
                 && (char_at rest 0 =? SLASH) then drop 1 rest else rest in
  path_fit (head ++ rest).
(** [buf] is the whole array: what lies behind the NUL can matter. *)
Fixpoint resolve_hops (ns : namespace) (fuel : nat) (first : bool) (nth cap : Z) (buf : list Z)
  : Z * option (list Z) :=
  match fuel with
  | O => (-1, None)
  | S fuel' =>
      match nth_match ns (cstr buf) (if first then nth else 0) with
      | None => (-1, None)
      | Some i =>
          let m := mnt_at ns i in
          match kind m with
          | MNT_SERVER => (server m, Some (take (Z.to_nat (cap - 1)) (cstr buf)))
          | MNT_BIND => resolve_hops ns fuel' false nth cap (strcpy buf (bind_next m buf))
          end
      end
  end.
(** [junk] is what the stack held where [buf] now is. *)
Definition path_buf (junk path : list Z) : list Z :=
  strcpy (take VFS_PATH_MAX (junk ++ replicate VFS_PATH_MAX 0)) (path_fit path).
Definition vfs_resolve (junk path : list Z) (cap nth : Z) (k : kernel)
  : Z * option (list Z) * kernel :=
  let '(p, k1) := cur_ns k in
  if p =? 0 then (-1, None, (null_ns k1).2)
  else (resolve_hops (ns_at k1 p) RESOLVE_HOPS true nth cap (path_buf junk path), k1).

(** ** The code: the listing *)

Definition mount_line (m : mount) : list Z :=
  match kind m with
  | MNT_BIND => prefix m ++ str " -> " ++ target m ++ [10]
  | MNT_SERVER => prefix m ++ str " -> task " ++ utoa (u64 (server m)) ++ [10]
  end.
Fixpoint dump_loop (ns : namespace) (cap : Z) (i c : nat) (out : list Z) : list Z :=
  match c with
  | O => out
  | S c' => if Z.of_nat (length out) <? cap - 32
            then dump_loop ns cap (S i) c' (out ++ mount_line (mnt_at ns i)) else out
  end.
(** The bytes written to [out], whose length is the answer. *)
Definition vfs_dump_mounts_of (task_id cap : Z) (k : kernel) : list Z * kernel :=
  let '(p, k1) :=
    match task_by_id k task_id with
    | Some t => if negb (ns (task_at k t) =? 0) then (ns (task_at k t), k) else ns_get 0 k
    | None => ns_get 0 k
    end in
  if p =? 0 then ([], k1)
  else
    let out := dump_loop (ns_at k1 p) cap 0 (ns_n (ns_at k1 p)) [] in
    if Z.of_nat (length out) <? cap - 40 then
      (out ++ str "-- namespaces " ++ utoa (u64 (vfs_ns_inuse k1)) ++ str " of "
           ++ utoa (Z.of_nat VFS_NNS) ++ str " in use" ++ [10], k1)
    else (out, k1).

(** ** Tables as lists *)

Definition entries (n : namespace) : list mount := take (ns_n n) (mnt n).
Definition ns_wf (n : namespace) : Prop :=
  length (mnt n) = VFS_NMOUNT ∧ (ns_n n ≤ VFS_NMOUNT)%nat.

Lemma streq_eq a b : streq a b = true ↔ a = b.
Proof.
  revert b. induction a as [|x a IH]; intros [|y b]; simpl; try done.
  rewrite andb_true_iff, Z.eqb_eq, IH. naive_solver.
Qed.
Lemma streq_ne a b : streq a b = false ↔ a ≠ b.
Proof. rewrite <- streq_eq. by destruct (streq a b). Qed.

Lemma entries_length n : ns_wf n → length (entries n) = ns_n n.
Proof. intros [H1 H2]. unfold entries. rewrite length_take. lia. Qed.
Lemma entries_lookup n i : (i < ns_n n)%nat → entries n !! i = mnt n !! i.
Proof. intros. apply lookup_take_lt. lia. Qed.
Lemma entries_mnt_at n i :
  ns_wf n → (i < ns_n n)%nat → entries n !! i = Some (mnt_at n i).
Proof.
  intros [H1 H2] Hi. rewrite entries_lookup by done. unfold mnt_at.
  destruct (lookup_lt_is_Some_2 (mnt n) i ltac:(lia)) as [m Hm].
  by rewrite (list_lookup_total_correct _ _ _ Hm).
Qed.

Lemma lookup_total_lookup {A} `{Inhabited A} (l : list A) i :
  (i < length l)%nat → l !! i = Some (l !!! i).
Proof.
  intros Hi. destruct (lookup_lt_is_Some_2 l i Hi) as [x Hx].
  by rewrite (list_lookup_total_correct _ _ _ Hx).
Qed.

Lemma shift_down_loop_length k c m : length (shift_down_loop k c m) = length m.
Proof. revert k m. induction c as [|c IH]; intros k m; simpl; [done|]. by rewrite IH, length_insert. Qed.
Lemma shift_down_loop_lookup k c m j :
  (k + c < length m)%nat →
  shift_down_loop k c m !! j = if decide (k ≤ j < k + c)%nat then m !! S j else m !! j.
Proof.
  revert k m. induction c as [|c IH]; intros k m Hlen; simpl.
  - destruct (decide _); [lia|done].
  - rewrite IH by (rewrite length_insert; lia).
    destruct (decide (S k ≤ j < S k + c)%nat), (decide (k ≤ j < k + S c)%nat); try lia.
    + by rewrite list_lookup_insert_ne by lia.
    + replace j with k by lia. rewrite list_lookup_insert_eq by lia.
      by rewrite lookup_total_lookup by lia.
    + by rewrite list_lookup_insert_ne by lia.
Qed.
Lemma shift_down_spec i n :
  ns_wf n → (i < ns_n n)%nat →
  ns_wf (shift_down i n) ∧
  entries (shift_down i n) = take i (entries n) ++ drop (S i) (entries n).
Proof.
  intros Hwf Hi. pose proof Hwf as [H1 H2]. unfold shift_down. split.
  - split; simpl; [by rewrite shift_down_loop_length|lia].
  - apply list_eq. intros j. unfold entries at 1. simpl.
    destruct (decide (j < ns_n n - 1)%nat) as [Hj|Hj].
    + rewrite lookup_take_lt, shift_down_loop_lookup by lia.
      destruct (decide (i ≤ j < _)%nat).
      * rewrite lookup_app_r by (rewrite length_take, entries_length by done; lia).
        rewrite length_take, entries_length, lookup_drop by done.
        rewrite entries_lookup by lia. f_equal. lia.
      * rewrite lookup_app_l by (rewrite length_take, entries_length by done; lia).
        rewrite lookup_take_lt, entries_lookup by lia. done.
    + rewrite !lookup_ge_None_2; [done| |].
      * rewrite length_app, length_take, length_drop, entries_length by done. lia.
      * rewrite length_take, shift_down_loop_length. lia.
Qed.

Lemma remove_named_spec fuel name i n :
  ns_wf n → (ns_n n - i ≤ fuel)%nat → (i ≤ ns_n n)%nat →
  let r := remove_named fuel name i n in
  ns_wf r.2 ∧
  entries r.2 = take i (entries n) ++ filter (λ m, prefix m ≠ name) (drop i (entries n)) ∧
  r.1 = existsb (λ m, streq (prefix m) name) (drop i (entries n)).
Proof.
  cbn zeta. revert i n. induction fuel as [|fuel IH]; intros i n Hwf Hf Hi; simpl.
  - rewrite drop_ge, app_nil_r, take_ge by (rewrite entries_length by done; lia). done.
  - destruct (Nat.ltb_spec i (ns_n n)) as [Hlt|Hge].
    2:{ simpl. rewrite drop_ge, app_nil_r, take_ge by (rewrite entries_length by done; lia). done. }
    pose proof (entries_mnt_at n i Hwf Hlt) as Hm.
    rewrite (drop_S _ _ _ Hm). rewrite filter_cons. simpl.
    destruct (streq _ name) eqn:E.
    + apply streq_eq in E. rewrite decide_False by (intros Hne; by destruct Hne).
      destruct (shift_down_spec i n Hwf Hlt) as [Hwf' He].
      assert (length (take i (entries n)) = i) as Hli.
      { rewrite length_take, entries_length by done. lia. }
      destruct (IH i (shift_down i n)) as (W & E1 & _); [done|simpl; lia|simpl; lia|].
      cbn [snd fst]. split_and!; [done| |done]. rewrite E1, He.
      rewrite take_app_le, take_take, drop_app_ge, Hli, Nat.sub_diag, drop_0 by lia.
      by rewrite Nat.min_id.
    + apply streq_ne in E. rewrite decide_True by done.
      destruct (IH (S i) n) as (W & E1 & E2); [done|lia|lia|].
      split_and!; [done| |by rewrite E2].
      rewrite E1. rewrite (take_S_r _ _ _ Hm), <- app_assoc. done.
Qed.

Lemma shift_up_loop_length k c m : length (shift_up_loop k c m) = length m.
Proof. revert k m. induction c as [|c IH]; intros k m; simpl; [done|]. by rewrite IH, length_insert. Qed.
Lemma shift_up_loop_lookup k c m j :
  (k < length m)%nat → (c ≤ k)%nat →
  shift_up_loop k c m !! j = if decide (k - c < j ≤ k)%nat then m !! (j - 1)%nat else m !! j.
Proof.
  revert k m. induction c as [|c IH]; intros k m Hlen Hc; simpl.
  - destruct (decide _); [lia|done].
  - rewrite IH by (rewrite ?length_insert; lia).
    destruct (decide (k - 1 - c < j ≤ k - 1)%nat), (decide (k - S c < j ≤ k)%nat); try lia.
    + by rewrite list_lookup_insert_ne by lia.
    + replace j with k by lia. rewrite list_lookup_insert_eq by lia.
      by rewrite lookup_total_lookup by lia.
    + by rewrite list_lookup_insert_ne by lia.
Qed.

(** Where a new entry called [name] stands among the entries [es]. *)
Definition called (name : list Z) (m : mount) : Prop := prefix m = name.
Definition placed (flags : Z) (name : list Z) (l1 l2 : list mount) : Prop :=
  if flags =? MAFTER then
    Forall (λ m, ¬ called name m) l2 ∧ (l2 = [] ∨ ∃ m l, l1 = l ++ [m] ∧ called name m)
  else if flags =? MBEFORE then
    Forall (λ m, ¬ called name m) l1 ∧ (l2 = [] ∨ ∃ m l, l2 = m :: l ∧ called name m)
  else l2 = [].
(** What is left of the table before the new entry goes in. *)
Definition kept (flags : Z) (name : list Z) (es : list mount) : list mount :=
  if flags =? MREPL then filter (λ m, prefix m ≠ name) es else es.

Lemma last_named_spec n name ns :
  match last_named n name ns with
  | Some i => (i < n)%nat ∧ prefix (mnt_at ns i) = name ∧
              ∀ j, (i < j < n)%nat → prefix (mnt_at ns j) ≠ name
  | None => ∀ j, (j < n)%nat → prefix (mnt_at ns j) ≠ name
  end.
Proof.
  induction n as [|n IH]; simpl; [intros; lia|]. destruct (streq _ name) eqn:E.
  - apply streq_eq in E. split_and!; [lia|done|intros; lia].
  - apply streq_ne in E. destruct (last_named n name ns) as [i|].
    + destruct IH as (Hi & Hn & Hafter). split_and!; [lia|done|]. intros j Hj.
      destruct (decide (j = n)) as [->|]; [done|]. apply Hafter. lia.
    + intros j Hj. destruct (decide (j = n)) as [->|]; [done|]. apply IH. lia.
Qed.

(** The chosen index splits the table the way the flags ask for. *)
Lemma insert_index flags name n :
  ns_wf n →
  let at_ :=
    if flags =? MAFTER then
      match last_named (ns_n n) name n with Some i => S i | None => ns_n n end
    else if flags =? MBEFORE then
      match find_from (λ i, streq (prefix (mnt_at n i)) name) 0 (ns_n n) with
      | Some i => i | None => ns_n n end
    else ns_n n in
  (at_ ≤ ns_n n)%nat ∧ placed flags name (take at_ (entries n)) (drop at_ (entries n)).
Proof.
  intros Hwf. cbn zeta. pose proof (entries_length n Hwf) as Hlen. unfold placed.
  assert (∀ j m, (entries n !! j = Some m) → (j < ns_n n)%nat ∧ m = mnt_at n j) as Hat.
  { intros j m Hj. assert (j < ns_n n)%nat as Hlt by (apply lookup_lt_Some in Hj; lia).
    rewrite (entries_mnt_at n j Hwf Hlt) in Hj. split; [done|congruence]. }
  assert (drop (ns_n n) (entries n) = []) as Hend by (apply drop_ge; lia).
  destruct (flags =? MAFTER); [|destruct (flags =? MBEFORE)].
  - pose proof (last_named_spec (ns_n n) name n) as H.
    destruct (last_named (ns_n n) name n) as [i|]; [|rewrite Hend; split; [lia|]; split; [constructor|by left]].
    destruct H as (Hi & Hn & Hafter). split; [lia|]. split.
    + apply Forall_lookup. intros j m Hj. rewrite lookup_drop in Hj. apply Hat in Hj as [Hj ->].
      apply Hafter. lia.
    + right. exists (mnt_at n i), (take i (entries n)). split; [|done].
      by apply take_S_r, entries_mnt_at.
  - destruct (find_from _ 0 (ns_n n)) as [i|] eqn:E.
    + apply find_from_Some in E as (Hi & Hn & Hbefore). apply streq_eq in Hn. split; [lia|]. split.
      * apply Forall_lookup. intros j m Hj. apply lookup_take_Some in Hj as [Hj Hji].
        apply Hat in Hj as [Hj ->]. apply streq_ne, Hbefore. lia.
      * right. exists (mnt_at n i), (drop (S i) (entries n)). split; [|done].
        apply drop_S, entries_mnt_at; [done|lia].
    + rewrite Hend. split; [lia|]. split; [|by left]. rewrite take_ge by lia.
      apply Forall_lookup. intros j m [Hj ->]%Hat. apply streq_ne.
      exact (find_from_None _ _ _ E j ltac:(lia)).
  - by rewrite Hend.
Qed.

Lemma make_room at_ n new :
  ns_wf n → (ns_n n < VFS_NMOUNT)%nat → (at_ ≤ ns_n n)%nat →
  let n' := n <| mnt := <[at_ := new]> (shift_up_loop (ns_n n) (ns_n n - at_) (mnt n)) |>
              <| ns_n := S (ns_n n) |> in
  ns_wf n' ∧ entries n' = take at_ (entries n) ++ new :: drop at_ (entries n).
Proof.
  intros Hwf Hlt Hat. pose proof Hwf as [H1 H2]. cbn zeta. split.
  - split; simpl; [by rewrite length_insert, shift_up_loop_length|lia].
  - pose proof (entries_length n Hwf) as Hlen.
    assert (length (take at_ (entries n)) = at_) as Hta by (rewrite length_take; lia).
    apply list_eq. intros j. unfold entries at 1. simpl.
    destruct (decide (j < S (ns_n n))%nat) as [Hj|Hj].
    + rewrite lookup_take_lt by lia. destruct (decide (j = at_)) as [->|Hne].
      * rewrite list_lookup_insert_eq by (rewrite shift_up_loop_length; lia).
        rewrite lookup_app_r, Hta, Nat.sub_diag by lia. done.
      * rewrite list_lookup_insert_ne, shift_up_loop_lookup by lia.
        destruct (decide (_ < j ≤ _)%nat).
        -- rewrite lookup_app_r, Hta by lia. destruct (j - at_)%nat as [|d] eqn:Ed; [lia|].
           simpl. rewrite lookup_drop, entries_lookup by lia. f_equal. lia.
        -- rewrite lookup_app_l, lookup_take_lt, entries_lookup by lia. done.
    + rewrite !lookup_ge_None_2; [done| |].
      * rewrite length_app, Hta. simpl. rewrite length_drop. lia.
      * rewrite length_take, length_insert, shift_up_loop_length. lia.
Qed.

Lemma kept_spec flags name n :
  ns_wf n →
  let n1 := if flags =? MREPL then (remove_named (ns_n n) name 0 n).2 else n in
  ns_wf n1 ∧ entries n1 = kept flags name (entries n).
Proof.
  intros Hwf. unfold kept. destruct (flags =? MREPL); [|done].
  destruct (remove_named_spec (ns_n n) name 0 n Hwf) as (W & E & _); [lia|lia|].
  by rewrite drop_0 in E.
Qed.

(** [insert_at] and the assignment that follows it, as one list update. *)
Lemma insert_at_spec n name flags new :
  ns_wf n →
  match insert_at n name flags with
  | (None, n') => ns_wf n' ∧ entries n' = kept flags name (entries n) ∧
                  length (entries n') = VFS_NMOUNT
  | (Some i, n1) =>
      let n' := n1 <| mnt := <[i := new]> (mnt n1) |> in
      ns_wf n' ∧ ∃ l1 l2, kept flags name (entries n) = l1 ++ l2 ∧
        entries n' = l1 ++ new :: l2 ∧ placed flags name l1 l2
  end.
Proof.
  intros Hwf. unfold insert_at. destruct (kept_spec flags name n Hwf) as [W E].
  set (n1 := if flags =? MREPL then _ else _) in *.
  destruct (Nat.leb_spec VFS_NMOUNT (ns_n n1)) as [Hfull|Hroom].
  - split_and!; [done|done|]. rewrite entries_length by done. destruct W as [_ W]. lia.
  - destruct (insert_index flags name n1 W) as [Hle Hpl]. set (at_ := if flags =? MAFTER then _ else _) in *.
    destruct (make_room at_ n1 new W Hroom Hle) as [W' E']. split; [exact W'|].
    exists (take at_ (entries n1)), (drop at_ (entries n1)). rewrite <- E.
    split_and!; [by rewrite take_drop|exact E'|done].
Qed.

(** ** Matching *)

Lemma str_has_prefix_spec s p : str_has_prefix s p = true ↔ ∃ rest, s = p ++ rest.
Proof.
  revert s. induction p as [|c p IH]; intros s.
  - split; [by exists s|by destruct s].
  - destruct s as [|d s]; simpl; [split; [done|by intros [? ?]]|].
    destruct (Z.eqb_spec d c) as [->|Hne].
    + rewrite IH. split; intros [rest ?]; exists rest; simplify_eq; done.
    + split; [done|]. intros [rest ?]. simplify_eq.
Qed.

(** A name matches when it ends where a component of the path ends, or
    when it is the path with a slash added. *)
Definition name_matches (path pre : list Z) : Prop :=
  pre ≠ [] ∧ (pre = path ++ [SLASH] ∨
    ∃ rest, path = pre ++ rest ∧
      (list.last pre = Some SLASH ∨ rest = [] ∨ head rest = Some SLASH)).

Lemma char_at_last (s : list Z) : s ≠ [] → list.last s = Some (char_at s (length s - 1)).
Proof.
  destruct s as [|c s _] using rev_ind; [done|]. intros _. rewrite list.last_snoc.
  unfold char_at. rewrite length_app. simpl. rewrite Nat.add_sub, lookup_app_r by lia.
  by rewrite Nat.sub_diag.
Qed.

Lemma prefix_matches_spec path pre :
  Forall (λ c, c ≠ 0) path → prefix_matches path pre = true ↔ name_matches path pre.
Proof.
  intros Hnz. unfold prefix_matches, name_matches.
  destruct (Nat.eqb_spec (length pre) 0) as [Hl|Hl].
  { apply nil_length_inv in Hl. subst. split; [done|by intros [? _]]. }
  assert (pre ≠ []) as Hne by (by intros ->). rewrite (char_at_last pre Hne).
  assert ((char_at pre (length pre - 1) =? SLASH) && (length path =? length pre - 1)%nat
            && str_has_prefix pre path = true ↔ pre = path ++ [SLASH]) as Hdir.
  { rewrite !andb_true_iff, Z.eqb_eq, Nat.eqb_eq, str_has_prefix_spec. split.
    - intros [[Hc Hlen] [rest ->]]. rewrite length_app in *.
      destruct rest as [|c [|d rest]]; simpl in *; [lia| |lia].
      unfold char_at in Hc. rewrite lookup_app_r in Hc by lia.
      replace (length path + 1 - 1 - length path)%nat with 0%nat in Hc by lia.
      simpl in Hc. by subst.
    - intros ->. rewrite length_app. simpl. rewrite Nat.add_sub. split_and!; [|done|by eexists].
      unfold char_at. by rewrite lookup_app_r, Nat.sub_diag by lia. }
  destruct (_ && _).
  { apply proj1 in Hdir. split; [|done]. intros _. split; [done|left; by apply Hdir]. }
  assert (pre ≠ path ++ [SLASH]) as Hnd by (intros E; by apply Hdir in E).
  destruct (str_has_prefix path pre) eqn:Ep; cbn [negb].
  2:{ split; [done|]. intros [_ [|(rest & -> & _)]]; [done|].
      assert (str_has_prefix (pre ++ rest) pre = true) by (apply str_has_prefix_spec; by eexists).
      congruence. }
  apply str_has_prefix_spec in Ep as [rest ->].
  assert (char_at (pre ++ rest) (length pre) = default 0 (head rest)) as Hc.
  { unfold char_at. rewrite lookup_app_r, Nat.sub_diag by lia. by destruct rest. }
  rewrite Hc. apply Forall_app in Hnz as [_ Hnz].
  destruct (Z.eqb_spec (char_at pre (length pre - 1)) SLASH) as [->|Hs].
  { split; [|done]. intros _. split; [done|]. right. exists rest. split; [done|by left]. }
  rewrite orb_true_iff, !Z.eqb_eq. split.
  - intros H. split; [done|]. right. exists rest. split; [done|]. right.
    destruct rest as [|d rest]; [by left|right]. simpl in *. inversion Hnz; subst.
    destruct H; [done|by subst].
  - intros [_ [|(rest' & Hr & H)]]; [done|]. apply app_inv_head in Hr as <-.
    destruct H as [[= ?]|[->|H]]; [done|by left|right]. by rewrite H.
Qed.

(** Two names of the same length that match one path are the same name:
    the members of a union. *)
Lemma name_matches_same path p1 p2 :
  name_matches path p1 → name_matches path p2 → length p1 = length p2 → p1 = p2.
Proof.
  intros [_ [->|(r1 & -> & _)]] [_ [->|(r2 & E & _)]] Hl; rewrite ?length_app in *; simpl in *; try done.
  - rewrite E in Hl. rewrite length_app in Hl. lia.
  - lia.
  - apply app_inj_1 in E; [by destruct E|done].
Qed.

(** ** Choosing the entry *)

Definition matching (path : list Z) (es : list mount) : list mount :=
  filter (λ m, prefix_matches path (prefix m) = true) es.
Definition union_of (path : list Z) (b : nat) (es : list mount) : list mount :=
  filter (λ m, length (prefix m) = b) (matching path es).

Lemma best_len_spec ns path i c best :
  ns_wf ns → (i + c ≤ ns_n ns)%nat →
  match best_len ns path i c best with
  | None => best = None ∧ matching path (take c (drop i (entries ns))) = []
  | Some b =>
      (best = Some b ∨ ∃ m, m ∈ matching path (take c (drop i (entries ns))) ∧ length (prefix m) = b) ∧
      (∀ b', best = Some b' → (b' ≤ b)%nat) ∧
      ∀ m, m ∈ matching path (take c (drop i (entries ns))) → (length (prefix m) ≤ b)%nat
  end.
Proof.
  intros Hwf. revert i best. induction c as [|c IH]; intros i best Hc; simpl.
  - destruct best as [b|]; [|done]. split_and!; [by left|intros; simplify_eq; lia|].
    intros m Hm. by apply not_elem_of_nil in Hm.
  - pose proof (entries_mnt_at ns i Hwf ltac:(lia)) as Hm. rewrite (drop_S _ _ _ Hm).
    cbn [take]. unfold matching. rewrite filter_cons. fold (matching path (take c (drop (S i) (entries ns)))).
    set (pre := prefix (mnt_at ns i)).
    specialize (IH (S i) (if prefix_matches path pre then
      match best with None => Some (length pre)
      | Some b => if (b <? length pre)%nat then Some (length pre) else Some b end else best) ltac:(lia)).
    destruct (prefix_matches path pre) eqn:Ep.
    + rewrite decide_True by done. destruct (best_len _ _ _ _ _) as [b|].
      * destruct IH as (H1 & H2 & H3). 
        assert (length pre ≤ b)%nat as Hpre.
        { destruct best as [b0|]; [destruct (Nat.ltb_spec b0 (length pre))|]; specialize (H2 _ eq_refl); lia. }
        split_and!.
        -- destruct H1 as [H1|(m & Hin & Hl)]; [|right; exists m; set_solver].
           destruct best as [b0|]; [destruct (Nat.ltb_spec b0 (length pre))|]; injection H1 as <-;
             [right; exists (mnt_at ns i); set_solver|by left|right; exists (mnt_at ns i); set_solver].
        -- intros b' ->. destruct (Nat.ltb_spec b' (length pre)); specialize (H2 _ eq_refl); lia.
        -- intros m [->|Hin]%elem_of_cons; [done|by apply H3].
      * destruct IH as [H1 _]. destruct best as [b0|]; [destruct (Nat.ltb_spec b0 (length pre))|]; done.
    + rewrite decide_False by done. exact IH.
Qed.

Lemma pick_nth_spec ns path b i c nth k :
  ns_wf ns → (i + c ≤ ns_n ns)%nat →
  match pick_nth ns path b i c nth k with
  | Some j => ∃ m, entries ns !! j = Some m ∧ k ≤ nth ∧
                   union_of path b (take c (drop i (entries ns))) !! Z.to_nat (nth - k) = Some m
  | None => nth < k ∨ Z.of_nat (length (union_of path b (take c (drop i (entries ns))))) ≤ nth - k
  end.
Proof.
  intros Hwf. revert i k. induction c as [|c IH]; intros i k Hc; simpl.
  - unfold union_of, matching. simpl. lia.
  - pose proof (entries_mnt_at ns i Hwf ltac:(lia)) as Hm. rewrite (drop_S _ _ _ Hm). cbn [take].
    unfold union_of, matching. rewrite filter_cons.
    destruct (prefix_matches path (prefix (mnt_at ns i))) eqn:Ep; cbn [negb].
    2:{ rewrite decide_False by done. apply IH. lia. }
    rewrite decide_True by done. rewrite filter_cons.
    destruct (Nat.eqb_spec (length (prefix (mnt_at ns i))) b) as [El|El]; cbn [negb].
    2:{ rewrite decide_False by done. apply IH. lia. }
    rewrite decide_True by done.
    fold (matching path (take c (drop (S i) (entries ns)))).
    fold (union_of path b (take c (drop (S i) (entries ns)))).
    destruct (Z.eqb_spec k nth) as [->|Hk].
    + exists (mnt_at ns i). split_and!; [done|lia|]. by rewrite Z.sub_diag.
    + specialize (IH (S i) (k + 1) ltac:(lia)). destruct (pick_nth _ _ _ _ _ _ _) as [j|].
      * destruct IH as (m & H1 & H2 & H3). exists m. split_and!; [done|lia|].
        replace (Z.to_nat (nth - k)) with (S (Z.to_nat (nth - (k + 1)))) by lia. done.
      * simpl. lia.
Qed.

(** The entries whose name is the longest that matches. *)
Definition longest (path : list Z) (es : list mount) (m : mount) : Prop :=
  m ∈ matching path es ∧ ∀ m', m' ∈ matching path es → (length (prefix m') ≤ length (prefix m))%nat.
Lemma nth_match_spec ns path nth :
  ns_wf ns →
  match nth_match ns path nth with
  | Some i => ∃ m, entries ns !! i = Some m ∧ longest path (entries ns) m ∧ 0 ≤ nth ∧
                   union_of path (length (prefix m)) (entries ns) !! Z.to_nat nth = Some m
  | None => matching path (entries ns) = [] ∨ nth < 0 ∨
            ∃ m, longest path (entries ns) m ∧
                 Z.of_nat (length (union_of path (length (prefix m)) (entries ns))) ≤ nth
  end.
Proof.
  intros Hwf. unfold nth_match.
  pose proof (best_len_spec ns path 0 (ns_n ns) None Hwf ltac:(lia)) as Hb.
  rewrite drop_0, take_ge in Hb by (rewrite entries_length by done; lia).
  destruct (best_len _ _ _ _ _) as [b|]; [|left; tauto].
  destruct Hb as ([?|(m0 & Hin & Hl)] & _ & Hmax); [done|].
  assert (longest path (entries ns) m0) as Hm0 by (split; [done|]; by rewrite Hl).
  pose proof (pick_nth_spec ns path b 0 (ns_n ns) nth 0 Hwf ltac:(lia)) as Hp.
  rewrite drop_0, take_ge in Hp by (rewrite entries_length by done; lia).
  rewrite Z.sub_0_r in Hp. destruct (pick_nth _ _ _ _ _ _ _) as [j|].
  - destruct Hp as (m & Hj & Hn & Hu). exists m.
    assert (m ∈ union_of path b (entries ns)) as Hmu by (by eapply list_elem_of_lookup_2).
    apply list_elem_of_filter in Hmu as [Hlm Hmm]. rewrite Hlm.
    split_and!; [done| |done|done]. split; [done|]. by rewrite Hlm.
  - destruct Hp as [|Hp]; [auto|]. right. right. exists m0. by rewrite Hl.
Qed.

(** ** Resolution without the buffer *)

Definition no_nul (s : list Z) : Prop := Forall (λ c, c ≠ 0) s.
Lemma cstr_no_nul b : no_nul (cstr b).
Proof.
  induction b as [|c b IH]; simpl; [constructor|].
  destruct (Z.eqb_spec c 0); [constructor|by constructor].
Qed.
Lemma cstr_id s : no_nul s → cstr s = s.
Proof.
  induction 1 as [|c s Hc _ IH]; simpl; [done|]. rewrite (proj2 (Z.eqb_neq c 0) Hc). by rewrite IH.
Qed.
Lemma cstr_strcpy buf s :
  no_nul s → (length s < length buf)%nat →
  cstr (strcpy buf s) = s ∧ length (strcpy buf s) = length buf.
Proof.
  revert buf. induction s as [|c s IH]; intros buf Hs Hl; destruct buf as [|b buf]; simpl in Hl; try lia.
  - done.
  - inversion Hs as [|? ? Hc Hs']; subst. simpl. rewrite (proj2 (Z.eqb_neq c 0) Hc). simpl.
    rewrite (proj2 (Z.eqb_neq c 0) Hc). destruct (IH buf Hs' ltac:(lia)) as [-> ->]. done.
Qed.
Lemma cstr_drop buf pre rest :
  cstr buf = pre ++ rest → cstr (drop (length pre) buf) = rest.
Proof.
  revert buf. induction pre as [|c pre IH]; intros buf H; simpl; [by rewrite drop_0|].
  destruct buf as [|d buf]; [done|]. simpl in *. destruct (d =? 0); [done|].
  injection H as -> H. by apply IH.
Qed.
Lemma no_nul_take n s : no_nul s → no_nul (take n s).
Proof. apply Forall_take. Qed.
Lemma no_nul_drop n s : no_nul s → no_nul (drop n s).
Proof. apply Forall_drop. Qed.

(** The strings of a table, and binds whose name does not end in a slash. *)
Definition ns_strings (ns : namespace) : Prop :=
  ∀ m, m ∈ entries ns → no_nul (prefix m) ∧ no_nul (target m).
Definition binds_clean (ns : namespace) : Prop :=
  ∀ m, m ∈ entries ns → kind m = MNT_BIND → list.last (prefix m) ≠ Some SLASH.

(** What resolution is to do, on names and entries alone.  The members of
    the union that a path falls in: the entries whose name matches and is
    as long as any that does, in the order of the table. *)
#[export] Instance name_matches_dec path pre : Decision (name_matches path pre).
Proof.
  assert (Decision (∃ rest, path = pre ++ rest ∧
            (list.last pre = Some SLASH ∨ rest = [] ∨ head rest = Some SLASH))) as D.
  { destruct (decide (path = pre ++ drop (length pre) path)) as [E|E].
    - destruct (decide (list.last pre = Some SLASH ∨ drop (length pre) path = [] ∨
                        head (drop (length pre) path) = Some SLASH)) as [H|H]; [left; by eexists|right].
      intros (rest & -> & Hr). apply H. by rewrite drop_app_length.
    - right. intros (rest & -> & _). apply E. by rewrite drop_app_length. }
  unfold name_matches. apply _.
Defined.
Definition members (path : list Z) (es : list mount) : list mount :=
  filter (λ m, name_matches path (prefix m) ∧
    Forall (λ m', name_matches path (prefix m') → (length (prefix m') ≤ length (prefix m))%nat) es) es.
(** The name a bind makes: its target, cut to what the buffer holds, and
    the rest of the path without a doubled slash between them, cut again. *)
Definition rebased (target rest : list Z) : list Z :=
  let t := take 127 target in
  take 127 (t ++ if decide (list.last t = Some SLASH ∧ head rest = Some SLASH) then tail rest else rest).
Fixpoint resolve_names (es : list mount) (hops : nat) (nth cap : Z) (path : list Z) : Z * option (list Z) :=
  match hops with
  | O => (-1, None)
  | S hops' =>
      match (if decide (0 ≤ nth) then members path es !! Z.to_nat nth else None) with
      | None => (-1, None)
      | Some m =>
          match kind m with
          | MNT_SERVER => (server m, Some (take (Z.to_nat (cap - 1)) path))
          | MNT_BIND => resolve_names es hops' 0 cap (rebased (target m) (drop (length (prefix m)) path))
          end
      end
  end.

Lemma filter_agree {A} (P R : A → Prop) `{!∀ x, Decision (P x)} `{!∀ x, Decision (R x)} (l : list A) :
  (∀ x, x ∈ l → P x ↔ R x) → filter P l = filter R l.
Proof.
  induction l as [|x l IH]; intros Ha; [done|]. rewrite !filter_cons, IH by set_solver.
  assert (P x ↔ R x) by (apply Ha; set_solver). do 2 case_decide; tauto.
Qed.
Lemma members_longest path es m :
  no_nul path → longest path es m → members path es = union_of path (length (prefix m)) es.
Proof.
  intros Hn [Hm Hmax]. apply list_elem_of_filter in Hm as [Hp Hin]. unfold union_of, matching.
  rewrite list_filter_filter. apply filter_agree. intros x Hx.
  rewrite list.Forall_forall. setoid_rewrite <- (prefix_matches_spec path _ Hn). split.
  - intros [Hpx Hall]. split; [|done]. specialize (Hall m Hin Hp).
    assert (x ∈ matching path es) as Hxm%Hmax by (by apply list_elem_of_filter). lia.
  - intros [Hl Hpx]. split; [done|]. intros y Hy Hpy. rewrite Hl. apply Hmax. by apply list_elem_of_filter.
Qed.
Lemma members_none path es : no_nul path → matching path es = [] → members path es = [].
Proof.
  intros Hn Hm. apply elem_of_nil_inv. intros x [[Hx _] Hin]%list_elem_of_filter.
  apply (not_elem_of_nil x). rewrite <- Hm. apply list_elem_of_filter. by rewrite prefix_matches_spec.
Qed.
(** The code's search picks the member asked for. *)
Lemma nth_match_members ns path nth :
  ns_wf ns → no_nul path →
  (if decide (0 ≤ nth) then members path (entries ns) !! Z.to_nat nth else None) =
    mnt_at ns <$> nth_match ns path nth.
Proof.
  intros Hwf Hn. pose proof (nth_match_spec ns path nth Hwf) as Hm.
  destruct (nth_match ns path nth) as [i|]; cbn [fmap option_fmap option_map].
  - destruct Hm as (m & Hi & Hl & H0 & Hu). rewrite decide_True, (members_longest _ _ m), Hu by done.
    assert (i < ns_n ns)%nat as Hlt by (apply lookup_lt_Some in Hi; by rewrite entries_length in Hi).
    rewrite (entries_mnt_at ns i Hwf Hlt) in Hi. congruence.
  - case_decide as H0; [|done]. destruct Hm as [He|[?|(m & Hl & Hle)]]; [|lia|].
    + by rewrite members_none.
    + rewrite (members_longest _ _ m) by done. apply lookup_ge_None. lia.
Qed.

Lemma bind_next_no_nul m buf : no_nul (target m) → no_nul (bind_next m buf).
Proof.
  intros H. unfold bind_next. apply no_nul_take, Forall_app. split; [by apply no_nul_take|].
  pose proof (cstr_no_nul (drop (length (prefix m)) buf)).
  destruct (_ && _); [by apply no_nul_drop|done].
Qed.
Lemma path_fit_length s : (length (path_fit s) < VFS_PATH_MAX)%nat.
Proof. unfold path_fit. rewrite length_take. unfold VFS_PATH_MAX. lia. Qed.

(** A bind whose name really begins the path makes the name it should,
    and reads nothing past the end of the path. *)
Lemma bind_next_rebased m buf :
  name_matches (cstr buf) (prefix m) → list.last (prefix m) ≠ Some SLASH →
  bind_next m buf = rebased (target m) (drop (length (prefix m)) (cstr buf)).
Proof.
  intros [_ [E|(rest & E & _)]] Hns; [rewrite E, list.last_snoc in Hns; done|].
  unfold bind_next, rebased, path_fit. rewrite (cstr_drop _ _ _ E), E, drop_app_length. cbn zeta.
  change (VFS_PATH_MAX - 1)%nat with 127%nat. do 2 f_equal. generalize (take 127 (target m)) as t. intros t.
  assert (char_at rest 0 = SLASH ↔ head rest = Some SLASH) as Hh by (destruct rest; unfold char_at; naive_solver).
  destruct (decide (t = [])) as [->|Ht]; [by rewrite decide_False by naive_solver|].
  rewrite (char_at_last t Ht). destruct (Nat.ltb_spec 0 (length t)); [|by destruct t; [|simpl in *; lia]].
  destruct (Z.eqb_spec (char_at t (length t - 1)) SLASH), (Z.eqb_spec (char_at rest 0) SLASH);
    destruct (decide _) as [[[=] Hr]|Hd]; try done; try (by destruct rest); try (by apply Hh in Hr).
  destruct Hd. split; [by f_equal|by apply Hh].
Qed.

Lemma resolve_hops_names ns fuel first nth cap buf :
  ns_wf ns → ns_strings ns → binds_clean ns → length buf = VFS_PATH_MAX →
  resolve_hops ns fuel first nth cap buf =
    resolve_names (entries ns) fuel (if first then nth else 0) cap (cstr buf).
Proof.
  intros Hwf Hstr Hcl. revert first buf. induction fuel as [|fuel IH]; intros first buf Hlen; [done|].
  cbn [resolve_hops resolve_names]. rewrite (nth_match_members ns) by (done || apply cstr_no_nul).
  pose proof (nth_match_spec ns (cstr buf) (if first then nth else 0) Hwf) as Hm.
  destruct (nth_match _ _ _) as [i|]; [|done]. cbn [fmap option_fmap option_map].
  destruct Hm as (m & Hi & [Hin _] & _).
  assert (i < ns_n ns)%nat as Hlt.
  { apply lookup_lt_Some in Hi. by rewrite entries_length in Hi. }
  rewrite (entries_mnt_at ns i Hwf Hlt) in Hi. injection Hi as Hi. rewrite Hi.
  apply list_elem_of_filter in Hin as [Hpm Hin]. destruct (kind m) eqn:Ek; [done|].
  destruct (Hstr m Hin) as [_ Ht].
  assert (bind_next m buf = rebased (target m) (drop (length (prefix m)) (cstr buf))) as E.
  { apply bind_next_rebased; [|by apply Hcl]. apply prefix_matches_spec; [apply cstr_no_nul|done]. }
  destruct (cstr_strcpy buf (bind_next m buf)) as [E1 E2];
    [by apply bind_next_no_nul|rewrite Hlen; apply path_fit_length|].
  rewrite IH by (by rewrite E2). by rewrite E1, E.
Qed.

Lemma path_buf_spec junk path :
  no_nul path → length (path_buf junk path) = VFS_PATH_MAX ∧ cstr (path_buf junk path) = path_fit path.
Proof.
  intros Hp. unfold path_buf.
  assert (length (take VFS_PATH_MAX (junk ++ replicate VFS_PATH_MAX 0)) = VFS_PATH_MAX) as Hl.
  { rewrite length_take, length_app, length_replicate. unfold VFS_PATH_MAX. lia. }
  destruct (cstr_strcpy (take VFS_PATH_MAX (junk ++ replicate VFS_PATH_MAX 0)) (path_fit path)) as [E1 E2].
  - by apply no_nul_take.
  - rewrite Hl. apply path_fit_length.
  - by rewrite E1, E2, Hl.
Qed.

(** ** The caller's own table *)

(** The caller has a namespace, well formed. *)
Record own_ns (k : kernel) (c : nat) (p : Z) : Prop := {
  on_cur : current k = Some c;
  on_ns : ns (task_at k c) = p;
  on_nonzero : p ≠ 0;
  on_wf : ns_wf (ns_at k p) }.
Lemma own_cur_ns k c p : own_ns k c p → cur_ns k = (p, k).
Proof.
  intros [Hc Hn Hp _]. unfold cur_ns. rewrite Hc, Hn. by rewrite (proj2 (Z.eqb_neq p 0) Hp).
Qed.

Lemma ns_at_put p n k : ns_at (ns_put p n k) p = n.
Proof. unfold ns_at, ns_put. simpl. by rewrite lookup_insert_eq. Qed.
Lemma put_mount_spec k c p name flags new :
  own_ns k c p →
  let '(r, k') := put_mount name flags new k in
  ns_wf (ns_at k' p) ∧ k' = k <| nss := <[p := ns_at k' p]> (nss k) |> ∧
  ((r = 0 ∧ ∃ l1 l2, kept flags name (entries (ns_at k p)) = l1 ++ l2 ∧
      entries (ns_at k' p) = l1 ++ new :: l2 ∧ placed flags name l1 l2) ∨
   (r = -1 ∧ entries (ns_at k' p) = kept flags name (entries (ns_at k p)) ∧
      length (entries (ns_at k' p)) = VFS_NMOUNT)).
Proof.
  intros H. unfold put_mount. rewrite (own_cur_ns _ _ _ H). destruct H as [_ _ Hp Hwf].
  rewrite (proj2 (Z.eqb_neq p 0) Hp).
  pose proof (insert_at_spec (ns_at k p) name flags new Hwf) as Hi.
  destruct (insert_at _ _ _) as [[i|] n].
  - destruct Hi as [W (l1 & l2 & H1 & H2 & H3)]. rewrite !ns_at_put. split_and!; [done|done|].
    left. split; [done|]. by exists l1, l2.
  - destruct Hi as (W & H1 & H2). rewrite !ns_at_put. split_and!; [done|done|]. by right.
Qed.

Lemma unmount_spec k c p name :
  own_ns k c p →
  let '(r, k') := vfs_unmount name k in
  ns_wf (ns_at k' p) ∧ k' = k <| nss := <[p := ns_at k' p]> (nss k) |> ∧
  entries (ns_at k' p) = filter (λ m, prefix m ≠ name) (entries (ns_at k p)) ∧
  (r = if existsb (λ m, streq (prefix m) name) (entries (ns_at k p)) then 0 else -1).
Proof.
  intros H. unfold vfs_unmount. rewrite (own_cur_ns _ _ _ H). destruct H as [_ _ Hp Hwf].
  rewrite (proj2 (Z.eqb_neq p 0) Hp).
  destruct (remove_named_spec (ns_n (ns_at k p)) name 0 (ns_at k p) Hwf) as (W & E1 & E2); [lia|lia|].
  rewrite drop_0 in E1, E2. destruct (remove_named _ _ _ _) as [found n]. cbn [fst snd] in *.
  rewrite !ns_at_put. subst found. done.
Qed.

(** A name just mounted with [MREPL] is the only member of its union. *)
Lemma union_singleton path new es :
  no_nul path → prefix new = path → path ≠ [] →
  (∀ m, m ∈ es → prefix m ≠ path ∧ prefix m ≠ path ++ [SLASH]) →
  longest path (es ++ [new]) new ∧ union_of path (length path) (es ++ [new]) = [new].
Proof.
  intros Hnz Hn Hne Hes.
  assert (prefix_matches path (prefix new) = true) as Hm.
  { apply prefix_matches_spec; [done|]. rewrite Hn. split; [done|]. right. exists [].
    rewrite app_nil_r. split; [done|]. right. by left. }
  assert (∀ m, m ∈ es → prefix_matches path (prefix m) = true → (length (prefix m) < length path)%nat) as Hlt.
  { intros m Hin [_ [E|(rest & E & _)]]%prefix_matches_spec; [|..|done].
    - by destruct (Hes m Hin).
    - destruct rest as [|d rest].
      + rewrite app_nil_r in E. by destruct (Hes m Hin).
      + apply (f_equal length) in E. rewrite length_app in E. simpl in E. lia. }
  split.
  - split.
    + apply list_elem_of_filter. split; [done|]. set_solver.
    + intros m [Hmm Hin]%list_elem_of_filter. rewrite Hn.
      apply elem_of_app in Hin as [Hin|Hin%list_elem_of_singleton]; [|by subst].
      specialize (Hlt m Hin Hmm). lia.
  - unfold union_of, matching. rewrite !filter_app.
    assert (filter (λ m, length (prefix m) = length path)
              (filter (λ m, prefix_matches path (prefix m) = true) es) = []) as ->.
    { apply elem_of_nil_inv. intros m [Hl [Hmm Hin]%list_elem_of_filter]%list_elem_of_filter.
      specialize (Hlt m Hin Hmm). lia. }
    cbn. rewrite decide_True by done. cbn. by rewrite decide_True by (by rewrite Hn).
Qed.

(** ** The sweep *)

Lemma filter_ext_in {A} (f g : A → bool) (l : list A) :
  (∀ x, x ∈ l → f x = g x) → filter (λ x, f x = true) l = filter (λ x, g x = true) l.
Proof.
  induction l as [|x l IH]; intros H; [done|]. rewrite !filter_cons, (H x), IH by set_solver. done.
Qed.

Lemma ns_live_ext k k' p : tasks k' = tasks k → ns_live k' p = ns_live k p.
Proof. unfold ns_live, task_at. by intros ->. Qed.
Lemma ns_live_spec k p :
  ns_live k p = true ↔ ∃ t, (t < NTASK)%nat ∧ live (task_at k t) = true ∧ ns (task_at k t) = p.
Proof.
  unfold ns_live. rewrite existsb_exists. split.
  - intros (t & Ht & [Hl Hn]%andb_true_iff). apply in_seq in Ht. apply Z.eqb_eq in Hn.
    exists t. split_and!; [lia|done|done].
  - intros (t & Ht & Hl & <-). exists t. split; [apply in_seq; lia|]. by rewrite Hl, Z.eqb_refl.
Qed.

(** Slot [i] of the pool holds a namespace that nobody alive uses. *)
Definition dead_ns (k : kernel) (i : nat) : bool :=
  negb (pool_at k i =? 0) && negb (ns_live k (pool_at k i)).
Definition dead_pages (k : kernel) (l : list nat) : list Z :=
  pool_at k <$> filter (λ i, dead_ns k i = true) l.

Lemma gc_slot_spec k i :
  (i < length (ns_pool k))%nat →
  gc_slot k i =
    (if dead_ns k i then
       k <| phys := pmm_free (pool_at k i) (phys k) |> <| nss := delete (pool_at k i) (nss k) |>
         <| ns_pool := <[i := 0]> (ns_pool k) |>
     else k).
Proof.
  intros Hi. unfold gc_slot, dead_ns. destruct (pool_at k i =? 0); [done|]. simpl.
  by destruct (ns_live k (pool_at k i)).
Qed.
Lemma gc_slot_dead k i j :
  (i < length (ns_pool k))%nat → j ≠ i → pool_at (gc_slot k i) j = pool_at k j ∧
    dead_ns (gc_slot k i) j = dead_ns k j.
Proof.
  intros Hi Hj. assert (pool_at (gc_slot k i) j = pool_at k j) as E.
  { rewrite gc_slot_spec by done. destruct (dead_ns k i); [|done]. unfold pool_at. simpl.
    by rewrite list_lookup_total_insert_ne. }
  split; [done|]. unfold dead_ns. rewrite E. f_equal. f_equal. apply ns_live_ext.
  rewrite gc_slot_spec by done. by destruct (dead_ns k i).
Qed.
Lemma gc_loop_spec l k :
  NoDup l → (∀ i, i ∈ l → (i < length (ns_pool k))%nat) →
  let k' := foldl gc_slot k l in
  tasks k' = tasks k ∧ current k' = current k ∧ parked k' = parked k ∧
  (∀ j, pool_at k' j = if decide (j ∈ l ∧ dead_ns k j = true) then 0 else pool_at k j) ∧
  (∀ p, ns_live k p = true → nss k' !! p = nss k !! p) ∧
  phys k' = foldl (λ s p, pmm_free p s) (phys k) (dead_pages k l).
Proof.
  cbn zeta. revert k. induction l as [|i l IH]; intros k Hnd Hl; simpl.
  - split_and!; done.
  - apply list.NoDup_cons in Hnd as [Hi Hnd].
    assert (i < length (ns_pool k))%nat as Hil by (apply Hl; set_solver).
    assert (length (ns_pool (gc_slot k i)) = length (ns_pool k) ∧ tasks (gc_slot k i) = tasks k ∧
            current (gc_slot k i) = current k ∧ parked (gc_slot k i) = parked k) as (G1 & G2 & G3 & G4).
    { rewrite gc_slot_spec by done. destruct (dead_ns k i); simpl; by rewrite ?length_insert. }
    destruct (IH (gc_slot k i) Hnd) as (I1 & I2 & I3 & I4 & I5 & I6).
    { intros j Hj. rewrite G1. apply Hl. set_solver. }
    split_and!; [congruence|congruence|congruence|..].
    + intros j. rewrite I4. destruct (decide (j = i)) as [->|Hne].
      * rewrite decide_False by tauto. rewrite gc_slot_spec by done.
        destruct (dead_ns k i) eqn:Ed.
        -- rewrite decide_True by (split; [set_solver|done]). unfold pool_at. simpl.
           by rewrite list_lookup_total_insert_eq.
        -- by rewrite decide_False by (intros [_ ?]; done).
      * destruct (gc_slot_dead k i j Hil Hne) as [E1 E2]. rewrite E1, E2.
        destruct (decide (j ∈ l ∧ _)), (decide (j ∈ i :: l ∧ _)); set_solver.
    + intros p Hp. rewrite I5 by (by rewrite (ns_live_ext k)). rewrite gc_slot_spec by done.
      destruct (dead_ns k i) eqn:Ed; [|done]. simpl. apply lookup_delete_ne. intros <-.
      unfold dead_ns in Ed. rewrite Hp in Ed. simpl in Ed. by rewrite andb_false_r in Ed.
    + rewrite I6. unfold dead_pages. rewrite filter_cons.
      assert (filter (λ j, dead_ns (gc_slot k i) j = true) l = filter (λ j, dead_ns k j = true) l ∧
              (∀ L : list nat, (∀ j, j ∈ L → j ∈ l) → pool_at (gc_slot k i) <$> L = pool_at k <$> L)) as [-> E2].
      { split.
        - apply filter_ext_in. intros j Hj.
          by rewrite (proj2 (gc_slot_dead k i j Hil ltac:(set_solver))).
        - intros L HL. apply list_fmap_ext. intros n j Hj. apply gc_slot_dead; [done|].
          intros ->. apply Hi, HL. by eapply list_elem_of_lookup_2. }
      rewrite E2 by (intros j Hj; by apply list_elem_of_filter in Hj as [_ ?]).
      rewrite (gc_slot_spec k i Hil). destruct (dead_ns k i).
      * by rewrite decide_True by done.
      * by rewrite decide_False by done.
Qed.

Lemma free_pages D s fl :
  pmm_rep s fl → NoDup D → Forall arena_page D → (∀ p, p ∈ D → p ∉ fl) →
  pmm_rep (foldl (λ s p, pmm_free p s) s D) (rev D ++ fl).
Proof.
  revert s fl. induction D as [|p D IH]; intros s fl Hs Hnd Har Hout; simpl; [done|].
  apply list.NoDup_cons in Hnd as [Hp Hnd]. inversion Har; subst.
  rewrite <- app_assoc. apply IH; [|done|done|].
  - apply (ps_free (PageSource := pmm_page_source)); [done|done|]. apply Hout. set_solver.
  - intros q Hq. specialize (Hout q). set_solver.
Qed.

(** ** Cloning *)

Lemma clone_spec k c mine i q fl :
  own_ns k c mine → (c < length (tasks k))%nat →
  find_from (λ i, pool_at k i =? 0) 1 (VFS_NNS - 1) = Some i → (i < length (ns_pool k))%nat →
  pmm_rep (phys k) (q :: fl) → (mine ∉ q :: fl) →
  let '(r, k') := vfs_ns_clone k in
  r = 0 ∧ ns (task_at k' c) = q ∧ ns_at k' q = (ns_at k mine) <| used := true |> ∧
  pool_at k' i = q ∧ (∀ p, p ≠ q → nss k' !! p = nss k !! p) ∧
  (∀ t, t ≠ c → task_at k' t = task_at k t) ∧ current k' = current k ∧ pmm_rep (phys k') fl.
Proof.
  intros Hown Hc Hf Hi Hrep Hmine. pose proof (own_cur_ns _ _ _ Hown) as Hcn.
  destruct Hown as [Hcur _ _ Hwf]. unfold vfs_ns_clone. rewrite Hcur, Hcn, Hf.
  destruct (pmm_alloc_rep _ _ _ Hrep) as (s' & Ha & Hrep' & _).
  assert (q ≠ 0) as Hq.
  { apply arena_nonzero. destruct Hrep as (_ & _ & Har & _). by inversion Har. }
  apply find_from_Some in Hf as (_ & Hz & _). unfold ns_get. rewrite Hz.
  unfold with_phys. rewrite Ha. rewrite (proj2 (Z.eqb_neq q 0) Hq).
  rewrite (proj2 (Z.eqb_neq q 0) Hq).
  set (k2 := _ <| nss := _ |>).
  assert (ns_at k2 mine = ns_at k mine) as ->.
  { unfold ns_at, k2. simpl. rewrite lookup_insert_ne by set_solver. done. }
  split_and!; [done|..].
  - by rewrite task_at_upd.
  - unfold ns_at. simpl. by rewrite lookup_insert_eq.
  - unfold pool_at. simpl. by rewrite list_lookup_total_insert_eq.
  - intros p Hp. simpl. by rewrite !lookup_insert_ne.
  - intros t Ht. by rewrite task_at_upd_ne.
  - done.
  - done.
Qed.

(** ** Demonstration namespaces *)

(** The root namespace of the boot: a filesystem and two directories. *)
Definition demo_ns : namespace :=
  zero_ns <| mnt := [mkMount (str "/") MNT_SERVER 0 []; mkMount (str "/dev/") MNT_SERVER 2 [];
                     mkMount (str "/proc/") MNT_SERVER 1 []] ++ replicate 5 zero_mount |>
          <| ns_n := 3%nat |>.
Definition demo_ns_page : Z := 0x86000000.
(** Slot 1 runs in it; the allocator has the pages of [demo_boot]. *)
Definition demo_vfs : kernel :=
  upd 1 (λ t, t <| ns := demo_ns_page |>)
    (demo_kernel <| phys := demo_boot |> <| ns_pool := <[0%nat := demo_ns_page]> (replicate VFS_NNS 0) |>
                 <| nss := {[demo_ns_page := demo_ns]} |>).
Lemma demo_own : own_ns demo_vfs 1 demo_ns_page.
Proof. split; [reflexivity|reflexivity|done|]. split; vm_compute; lia. Qed.
Lemma demo_vfs_pages : pmm_rep (phys demo_vfs) (demo_root :: demo_free) ∧ demo_ns_page ∉ demo_root :: demo_free.
Proof.
  split; [exact (proj1 (pmm_init_rep (PMM_TOP - 6 * PGSIZE) ∅ ltac:(done)))|].
  intros H. repeat (apply elem_of_cons in H as [H|H]; [vm_compute in H; discriminate H|]).
  by apply not_elem_of_nil in H.
Qed.

(** ** Theorems *)

(** Mounting or binding a name, with any of Plan 9's three flags,
    inserts one entry into the caller's table and nothing else changes
    anywhere.  [MREPL] first drops every entry of that name and appends;
    [MBEFORE] goes in front of the first entry of that name, [MAFTER]
    behind the last one, and both at the end when there is none.  The
    call fails, with -1, exactly when the table is then full. *)
Theorem vfs_mount_bind_correct k c p name old srv flags bind :
  own_ns k c p →
  let new := if bind : bool then mkMount name MNT_BIND (-1) old else mkMount name MNT_SERVER srv [] in
  let '(r, k') := if bind then vfs_bind old name flags k else vfs_mount name srv flags k in
  ns_wf (ns_at k' p) ∧ k' = k <| nss := <[p := ns_at k' p]> (nss k) |> ∧
  ((r = 0 ∧ ∃ l1 l2, kept flags name (entries (ns_at k p)) = l1 ++ l2 ∧
      entries (ns_at k' p) = l1 ++ new :: l2 ∧ placed flags name l1 l2) ∨
   (r = -1 ∧ entries (ns_at k' p) = kept flags name (entries (ns_at k p)) ∧
      length (entries (ns_at k' p)) = VFS_NMOUNT)).
Proof.
  intros H. cbn zeta. destruct bind.
  - exact (put_mount_spec k c p name flags (mkMount name MNT_BIND (-1) old) H).
  - exact (put_mount_spec k c p name flags (mkMount name MNT_SERVER srv []) H).
Qed.
Lemma vfs_mount_bind_correct_witness :
  let k' := (vfs_bind (str "/net") (str "/dev/") MBEFORE demo_vfs).2 in
  ns_wf (ns_at k' demo_ns_page) ∧
  entries (ns_at k' demo_ns_page) !! 1%nat = Some (mkMount (str "/dev/") MNT_BIND (-1) (str "/net")).
Proof.
  pose proof (vfs_mount_bind_correct demo_vfs 1 demo_ns_page (str "/dev/") (str "/net") 0 MBEFORE true
    demo_own) as H. cbn zeta beta iota in H.
  destruct (vfs_bind _ _ _ _) as [r k'] eqn:E. destruct H as (H & _). split; [exact H|].
  assert (k' = (vfs_bind (str "/net") (str "/dev/") MBEFORE demo_vfs).2) as -> by (by rewrite E).
  vm_compute. reflexivity.
Defined.

(** Unmounting takes every entry of that name out of the caller's
    table, keeps the others in order, touches nothing else, and answers 0
    exactly when there was one. *)
Theorem vfs_unmount_correct k c p name :
  own_ns k c p →
  let '(r, k') := vfs_unmount name k in
  ns_wf (ns_at k' p) ∧ k' = k <| nss := <[p := ns_at k' p]> (nss k) |> ∧
  entries (ns_at k' p) = filter (λ m, prefix m ≠ name) (entries (ns_at k p)) ∧
  (r = if existsb (λ m, streq (prefix m) name) (entries (ns_at k p)) then 0 else -1).
Proof. exact (unmount_spec k c p name). Qed.
Lemma vfs_unmount_correct_witness :
  (vfs_unmount (str "/dev/") demo_vfs).1 = 0 ∧ (vfs_unmount (str "/dev") demo_vfs).1 = -1.
Proof.
  pose proof (vfs_unmount_correct demo_vfs 1 demo_ns_page (str "/dev/") demo_own) as H1.
  pose proof (vfs_unmount_correct demo_vfs 1 demo_ns_page (str "/dev") demo_own) as H2.
  destruct (vfs_unmount (str "/dev/") demo_vfs) as [r1 k1], (vfs_unmount (str "/dev") demo_vfs) as [r2 k2].
  destruct H1 as (_ & _ & _ & ->), H2 as (_ & _ & _ & ->). split; vm_compute; reflexivity.
Defined.

(** A lookup considers exactly the names that end where a component
    of the path ends (or that are the path with a slash added), the
    longest of them decides, all entries it may return carry that one
    name, and they are numbered in table order; there is no answer only
    when nothing matches or the union has no such member. *)
Theorem nth_match_correct ns path nth :
  ns_wf ns → no_nul path →
  (∀ pre, prefix_matches path pre = true ↔ name_matches path pre) ∧
  match nth_match ns path nth with
  | Some i => ∃ m, entries ns !! i = Some m ∧ longest path (entries ns) m ∧ 0 ≤ nth ∧
                   union_of path (length (prefix m)) (entries ns) !! Z.to_nat nth = Some m ∧
                   (∀ m', m' ∈ union_of path (length (prefix m)) (entries ns) → prefix m' = prefix m)
  | None => matching path (entries ns) = [] ∨ nth < 0 ∨
            ∃ m, longest path (entries ns) m ∧
                 Z.of_nat (length (union_of path (length (prefix m)) (entries ns))) ≤ nth
  end.
Proof.
  intros Hwf Hnz. split; [intros; by apply prefix_matches_spec|].
  pose proof (nth_match_spec ns path nth Hwf) as H. destruct (nth_match _ _ _) as [i|]; [|exact H].
  destruct H as (m & H1 & H2 & H3 & H4). exists m. split_and!; try done.
  intros m' [Hl [Hm' _]%list_elem_of_filter]%list_elem_of_filter.
  destruct H2 as [[Hm _]%list_elem_of_filter _].
  eapply name_matches_same; [by apply prefix_matches_spec..|done].
Qed.
Lemma nth_match_correct_witness :
  nth_match demo_ns (str "/dev/tty") 0 = Some 1%nat ∧
  longest (str "/dev/tty") (entries demo_ns) (mkMount (str "/dev/") MNT_SERVER 2 []).
Proof.
  assert (nth_match demo_ns (str "/dev/tty") 0 = Some 1%nat) as E by (vm_compute; reflexivity).
  split; [exact E|].
  destruct (nth_match_correct demo_ns (str "/dev/tty") 0) as [_ H].
  - split; vm_compute; lia.
  - repeat (constructor; [done|]). constructor.
  - rewrite E in H. destruct H as (m & Hm & Hl & _). injection Hm as <-. exact Hl.
Defined.

(** C25: resolving a name without NULs, in a namespace whose strings have
    none and whose binds are not named with a trailing slash (for those see
    [vfs_resolve_reads_junk]): of the entries whose name ends where a
    component of the path ends, the longest names decide; of these, in the
    order of the table, the caller's member is taken - the first one in
    later steps.  A server answers with the name as it then stands, a bind
    puts its target in place of the head of the path, and after four steps
    or with no such member the answer is -1.  What the stack held where the
    buffer is plays no part, and the kernel is not changed. *)
Theorem vfs_resolve_correct k c p junk path cap nth :
  own_ns k c p → no_nul path → ns_strings (ns_at k p) → binds_clean (ns_at k p) →
  vfs_resolve junk path cap nth k =
    (resolve_names (entries (ns_at k p)) 4 nth cap (take 127 path), k).
Proof.
  intros Hown Hnz Hs Hb. unfold vfs_resolve. rewrite (own_cur_ns _ _ _ Hown).
  destruct Hown as [_ _ Hp Hwf]. rewrite (proj2 (Z.eqb_neq p 0) Hp).
  destruct (path_buf_spec junk path Hnz) as [Hl Hc].
  by rewrite resolve_hops_names, Hc.
Qed.
Lemma demo_ns_strings : ns_strings demo_ns ∧ binds_clean demo_ns.
Proof.
  split; intros m Hm;
    repeat (apply elem_of_cons in Hm as [->|Hm];
            [try done; split; repeat (constructor; [done|]); constructor|]);
    by apply not_elem_of_nil in Hm.
Qed.
(** The same with "/mnt" standing for "/dev/", and slot 1 in it. *)
Definition demo_bound_ns : namespace :=
  zero_ns <| mnt := [mkMount (str "/") MNT_SERVER 0 []; mkMount (str "/dev/") MNT_SERVER 2 [];
                     mkMount (str "/mnt") MNT_BIND (-1) (str "/dev/")] ++ replicate 5 zero_mount |>
          <| ns_n := 3%nat |>.
Definition demo_bound : kernel := demo_vfs <| nss := {[demo_ns_page := demo_bound_ns]} |>.
Lemma demo_bound_own : own_ns demo_bound 1 demo_ns_page.
Proof. split; try done. split; vm_compute; lia. Qed.
Lemma demo_bound_clean : ns_strings demo_bound_ns ∧ binds_clean demo_bound_ns.
Proof.
  split; intros m Hm;
    repeat (apply elem_of_cons in Hm as [->|Hm];
            [try done; split; repeat (constructor; [done|]); constructor|]);
    by apply not_elem_of_nil in Hm.
Qed.
Lemma vfs_resolve_correct_witness :
  vfs_resolve [1; 2; 3] (str "/mnt/tty") 128 0 demo_bound = (2, Some (str "/dev/tty"), demo_bound).
Proof.
  rewrite (vfs_resolve_correct demo_bound 1 demo_ns_page);
    [f_equal; vm_compute; reflexivity|exact demo_bound_own| |apply demo_bound_clean|apply demo_bound_clean].
  repeat (constructor; [done|]). constructor.
Defined.

(** Round trip.  Once [vfs_mount] with [MREPL] has put a server
    behind a name, that very name resolves to that server and is handed
    on unchanged, unless the name with a slash added is mounted too. *)
Theorem mount_then_resolve k c p name srv k' junk :
  own_ns k c p → no_nul name → name ≠ [] → (length name < VFS_PREFIX_MAX)%nat →
  ns_strings (ns_at k p) → (∀ m, m ∈ entries (ns_at k p) → prefix m ≠ name ++ [SLASH]) →
  vfs_mount name srv MREPL k = (0, k') →
  vfs_resolve junk name (Z.of_nat VFS_PATH_MAX) 0 k' = (srv, Some name, k').
Proof.
  intros Hown Hnz Hne Hlen Hstr Hsl Hm.
  pose proof (put_mount_spec k c p name MREPL (mkMount name MNT_SERVER srv []) Hown) as H.
  unfold vfs_mount in Hm. rewrite Hm in H. destruct H as (Hwf & Hk & [(_ & l1 & l2 & E1 & E2 & E3)|[? _]]); [|done].
  change (placed MREPL name l1 l2) with (l2 = []) in E3. subst l2. rewrite app_nil_r in E1.
  destruct Hown as [Hc Hn Hp Hwf0].
  assert (own_ns k' c p) as Hown' by (split; [by rewrite Hk|by rewrite Hk|done|done]).
  unfold vfs_resolve. rewrite (own_cur_ns _ _ _ Hown'), (proj2 (Z.eqb_neq p 0) Hp).
  destruct (path_buf_spec junk name Hnz) as [Hl Hcs].
  assert (path_fit name = name) as Hfit by (apply take_ge; unfold VFS_PATH_MAX, VFS_PREFIX_MAX in *; lia).
  rewrite Hfit in Hcs. cbn [RESOLVE_HOPS resolve_hops]. rewrite Hcs.
  destruct (union_singleton name (mkMount name MNT_SERVER srv []) l1 Hnz eq_refl Hne) as [Hlong Hun].
  { intros m Hin. rewrite <- E1 in Hin. apply list_elem_of_filter in Hin as [Hpm Hin].
    split; [done|by apply Hsl]. }
  pose proof (nth_match_spec (ns_at k' p) name 0 Hwf) as Hnm. rewrite E2 in Hnm.
  destruct (nth_match _ _ _) as [i|].
  - destruct Hnm as (m & Hi & [Hin Hmax] & _ & Hu).
    assert (length (prefix m) = length name) as Hlm.
    { destruct Hlong as [Hin0 Hmax0]. specialize (Hmax _ Hin0). specialize (Hmax0 _ Hin). simpl in *. lia. }
    rewrite Hlm, Hun in Hu. injection Hu as <-.
    assert (mnt_at (ns_at k' p) i = mkMount name MNT_SERVER srv []) as ->.
    { rewrite <- E2, entries_mnt_at in Hi; [by injection Hi|done|].
      apply lookup_lt_Some in Hi. by rewrite entries_length in Hi. }
    cbn [kind server]. rewrite take_ge; [done|]. unfold VFS_PATH_MAX, VFS_PREFIX_MAX in *. lia.
  - destruct Hnm as [Hn0|[?|(m & [Hin Hmax] & Hle)]]; [|lia|].
    + destruct Hlong as [Hin0 _]. rewrite Hn0 in Hin0. by apply not_elem_of_nil in Hin0.
    + assert (length (prefix m) = length name) as Hlm.
      { destruct Hlong as [Hin0 Hmax0]. specialize (Hmax _ Hin0). specialize (Hmax0 _ Hin). simpl in *. lia. }
      rewrite Hlm, Hun in Hle. simpl in Hle. lia.
Qed.
Lemma mount_then_resolve_witness :
  let k' := (vfs_mount (str "/net") 5 MREPL demo_vfs).2 in
  vfs_resolve [7] (str "/net") (Z.of_nat VFS_PATH_MAX) 0 k' = (5, Some (str "/net"), k').
Proof.
  cbn zeta. apply (mount_then_resolve demo_vfs 1 demo_ns_page (str "/net") 5);
    [exact demo_own|repeat (constructor; [done|]); constructor|done|vm_compute; lia
    |apply demo_ns_strings| |vm_compute; reflexivity].
  intros m Hm. repeat (apply elem_of_cons in Hm as [->|Hm]; [done|]). by apply not_elem_of_nil in Hm.
Defined.

(** [vfs_ns_clone] gives the caller a copy of its table in a fresh
    page and moves only the caller into it, so that whatever the caller
    mounts or binds afterwards leaves the table it came from as it was. *)
Theorem vfs_ns_clone_isolates k c mine i q fl name srv flags :
  own_ns k c mine → (c < length (tasks k))%nat →
  find_from (λ i, pool_at k i =? 0) 1 (VFS_NNS - 1) = Some i → (i < length (ns_pool k))%nat →
  pmm_rep (phys k) (q :: fl) → (mine ∉ q :: fl) →
  let '(r, k1) := vfs_ns_clone k in
  let '(_, k2) := vfs_mount name srv flags k1 in
  r = 0 ∧ own_ns k1 c q ∧ entries (ns_at k1 q) = entries (ns_at k mine) ∧
  (∀ t, t ≠ c → task_at k1 t = task_at k t) ∧
  ns_at k2 mine = ns_at k mine ∧ (∀ p, p ≠ q → nss k2 !! p = nss k !! p).
Proof.
  intros Hown Hc Hf Hi Hrep Hmine.
  pose proof (clone_spec k c mine i q fl Hown Hc Hf Hi Hrep Hmine) as H.
  destruct (vfs_ns_clone k) as [r k1].
  destruct H as (-> & Hn & Hat & _ & Hoth & Htask & Hcur & _).
  destruct Hown as [Hcu _ _ Hwf].
  assert (own_ns k1 c q) as Hown1.
  { split; [congruence|done| |by rewrite Hat]. apply arena_nonzero.
    destruct Hrep as (_ & _ & Har & _). by inversion Har. }
  pose proof (put_mount_spec k1 c q name flags (mkMount name MNT_SERVER srv []) Hown1) as H2.
  unfold vfs_mount. destruct (put_mount _ _ _ _) as [r2 k2]. destruct H2 as (_ & Hk2 & _).
  assert (∀ p, p ≠ q → nss k2 !! p = nss k !! p) as Hall.
  { intros p Hp. rewrite Hk2. simpl. rewrite lookup_insert_ne by done. by apply Hoth. }
  split_and!; [done|done|by rewrite Hat|done| |done].
  unfold ns_at. rewrite Hall; [done|]. set_solver.
Qed.
Lemma vfs_ns_clone_isolates_witness :
  let '(r, k1) := vfs_ns_clone demo_vfs in
  let '(_, k2) := vfs_mount (str "/dev/") 9 MREPL k1 in
  r = 0 ∧ ns_at k2 demo_ns_page = demo_ns.
Proof.
  destruct demo_vfs_pages as [Hrep Hout].
  pose proof (vfs_ns_clone_isolates demo_vfs 1 demo_ns_page 1 demo_root demo_free (str "/dev/") 9 MREPL
    demo_own ltac:(vm_compute; lia) ltac:(vm_compute; reflexivity) ltac:(vm_compute; lia) Hrep Hout) as H.
  destruct (vfs_ns_clone demo_vfs) as [r k1], (vfs_mount _ _ _ k1) as [r2 k2].
  destruct H as (H1 & _ & _ & _ & H2 & _). split; [exact H1|exact H2].
Defined.

(** The sweep takes exactly the private namespaces that no live task
    refers to: their pool slots are emptied and their pages go back to
    the allocator; a namespace a live task refers to keeps its slot and
    its content, and no task changes. *)
Theorem vfs_ns_gc_correct k fl :
  length (ns_pool k) = VFS_NNS →
  let slots := seq 1 (VFS_NNS - 1) in
  let dead := dead_pages k slots in
  pmm_rep (phys k) fl → NoDup dead → Forall arena_page dead → (∀ p, p ∈ dead → p ∉ fl) →
  let k' := vfs_ns_gc k in
  tasks k' = tasks k ∧ pmm_rep (phys k') (rev dead ++ fl) ∧
  (∀ i, pool_at k' i = if decide (i ∈ slots ∧ dead_ns k i = true) then 0 else pool_at k i) ∧
  (∀ t, (t < NTASK)%nat → live (task_at k t) = true →
        nss k' !! ns (task_at k t) = nss k !! ns (task_at k t)) ∧
  (∀ i, i ∈ slots → pool_at k' i ≠ 0 → ns_live k' (pool_at k' i) = true).
Proof.
  intros Hlen. cbn zeta. intros Hrep Hnd Har Hout. unfold vfs_ns_gc.
  destruct (gc_loop_spec (seq 1 (VFS_NNS - 1)) k) as (H1 & _ & _ & H4 & H5 & H6).
  { apply NoDup_seq. }
  { intros i Hi. apply elem_of_seq in Hi. rewrite Hlen. unfold VFS_NNS in *. lia. }
  split_and!; [done| |done| |].
  - rewrite H6. by apply free_pages.
  - intros t Ht Hl. apply H5, ns_live_spec. by exists t.
  - intros i Hi. rewrite H4. destruct (decide _) as [|Hnd']; [done|]. intros Hp.
    rewrite (ns_live_ext k) by done. unfold dead_ns in Hnd'.
    rewrite (proj2 (Z.eqb_neq _ 0) Hp) in Hnd'. simpl in Hnd'.
    destruct (ns_live k (pool_at k i)); [done|]. by destruct Hnd'.
Qed.
Lemma vfs_ns_gc_correct_witness :
  tasks (vfs_ns_gc demo_vfs) = tasks demo_vfs ∧ pmm_rep (phys (vfs_ns_gc demo_vfs)) (demo_root :: demo_free).
Proof.
  assert (dead_pages demo_vfs (seq 1 (VFS_NNS - 1)) = []) as E by (vm_compute; reflexivity).
  destruct (vfs_ns_gc_correct demo_vfs (demo_root :: demo_free)) as (H1 & H2 & _);
    [reflexivity|apply demo_vfs_pages|rewrite E; constructor|rewrite E; constructor
    |rewrite E; intros p Hp; by apply not_elem_of_nil in Hp|].
  rewrite E in H2. split; [exact H1|exact H2].
Defined.

(** A bind named with a trailing slash is found for the path without
    the slash as well, and the remainder of the path is then read one
    byte past the end of the string: what the stack held there becomes
    part of the name that is looked up. *)
Theorem vfs_resolve_reads_junk :
  ∃ n path j1 j2, ns_wf n ∧ ns_strings n ∧ no_nul path ∧
    resolve_hops n RESOLVE_HOPS true 0 128 (path_buf j1 path) = (7, Some (str "/net")) ∧
    resolve_hops n RESOLVE_HOPS true 0 128 (path_buf j2 path) = (7, Some (str "/netAB")).
Proof.
  exists (zero_ns <| mnt := [mkMount (str "/") MNT_SERVER 7 []; mkMount (str "/dev/") MNT_BIND (-1) (str "/net")]
                            ++ replicate 6 zero_mount |> <| ns_n := 2%nat |>),
    (str "/dev"), (replicate 128 0), (str "xxxxxAB" ++ replicate 121 0).
  split; [split; vm_compute; lia|]. split.
  { intros m Hm. repeat (apply elem_of_cons in Hm as [->|Hm];
      [split; repeat (constructor; [done|]); constructor|]). by apply not_elem_of_nil in Hm. }
  split; [repeat (constructor; [done|]); constructor|]. split; vm_compute; reflexivity.
Qed.

Definition long_ns : namespace :=
  zero_ns <| mnt := replicate 8 (mkMount (str "/a") MNT_BIND (-1) (replicate 127 97)) |> <| ns_n := 8%nat |>.
(** The listing guards each line by 32 free bytes, but one line can
    need far more: a table within all its limits produces more bytes than
    the 512 of the caller's buffer. *)
Theorem vfs_dump_overflows :
  ns_wf long_ns ∧ Forall (λ m, length (target m) < VFS_PATH_MAX ∧ length (prefix m) < VFS_PREFIX_MAX)%nat
                    (entries long_ns) ∧
  512 < Z.of_nat (length (dump_loop long_ns 512 0 (ns_n long_ns) [])).
Proof.
  split; [split; vm_compute; lia|]. split; [|vm_compute; reflexivity].
  repeat constructor; vm_compute; lia.
Qed.
