(* ===== verification/Format.v ===== *)
(** * Text on the console and in reports (src/src/uart.c, the number
    formatting of src/src/util.c, and the page-table report of
    src/src/vm.c) *)
From stdpp Require Import base list numbers option gmap.
From S2P Require Import Prelude Mem Riscv Pmm Vm.
Local Open Scope Z_scope.

(** ** The console *)

(** [uart_putc] sends a carriage return before each newline; the wait for
    the transmitter to be ready leaves no trace in the output. *)
Definition uart_putc (c : Z) (out : list Z) : list Z :=
  if u8 c =? 10 then out ++ [13; 10] else out ++ [u8 c].
Definition uart_puts (s out : list Z) : list Z := foldl (λ o c, uart_putc c o) out s.

(** [print_uint]: [buf] is filled backwards, 32 places. *)
Fixpoint uint_digits (fuel : nat) (v base : Z) : list Z :=
  match fuel with
  | O => []
  | S fuel' => if v =? 0 then [] else hexdigit (v mod base) :: uint_digits fuel' (v / base) base
  end.
Definition print_uint (v base : Z) (out : list Z) : list Z :=
  uart_puts (if v =? 0 then [48] else rev (uint_digits 64 v base)) out.
(** A signed number: the minus sign and the magnitude, in 64 bits. *)
Definition print_int (v : Z) (out : list Z) : list Z :=
  if v <? 0 then print_uint (u64 (- v)) 10 (uart_putc 45 out) else print_uint v 10 out.

(** A variable argument: a string or an integer register. *)
Inductive karg := KStr (s : list Z) | KInt (v : Z).
Definition karg_int (a : option karg) : Z := match a with Some (KInt v) => v | _ => 0 end.
Definition karg_str (a : option karg) : list Z := match a with Some (KStr s) => s | _ => [] end.

Definition CH_PERCENT : Z := 37.
Fixpoint kprintf (fmt : list Z) (ap : list karg) (out : list Z) : list Z :=
  match fmt with
  | [] => out
  | c :: fmt' =>
      if negb (c =? CH_PERCENT) then kprintf fmt' ap (uart_putc c out)
      else match fmt' with
           | [] => uart_putc 0 (uart_putc CH_PERCENT out)
           | d :: fmt2 =>
               let a := head ap in
               if d =? 99 (* c *) then kprintf fmt2 (tail ap) (uart_putc (karg_int a) out)
               else if d =? 115 (* s *) then kprintf fmt2 (tail ap) (uart_puts (karg_str a) out)
               else if d =? 100 (* d *) then kprintf fmt2 (tail ap) (print_int (i32 (karg_int a)) out)
               else if d =? 117 (* u *) then kprintf fmt2 (tail ap) (print_uint (u32 (karg_int a)) 10 out)
               else if d =? 120 (* x *) then kprintf fmt2 (tail ap) (print_uint (u32 (karg_int a)) 16 out)
               else if d =? 108 (* l *) then
                 match fmt2 with
                 | [] => out
                 | k :: fmt3 =>
                     if k =? 100 then kprintf fmt3 (tail ap) (print_int (i64 (karg_int a)) out)
                     else kprintf fmt3 (tail ap)
                            (print_uint (u64 (karg_int a)) (if k =? 120 then 16 else 10) out)
                 end
               else if d =? 112 (* p *) then
                 kprintf fmt2 (tail ap) (print_uint (u64 (karg_int a)) 16 (uart_puts (str "0x") out))
               else if d =? CH_PERCENT then kprintf fmt2 ap (uart_putc CH_PERCENT out)
               else kprintf fmt2 ap (uart_putc d (uart_putc CH_PERCENT out))
           end
  end.

(** ** A page-table walk as text *)

Definition put_hex (v : Z) : list Z := str "0x" ++ xtoa v.
Definition put_perm (pte : Z) : list Z :=
  [if Z.land pte PTE_R =? 0 then 45 else 114; if Z.land pte PTE_W =? 0 then 45 else 119;
   if Z.land pte PTE_X =? 0 then 45 else 120; if Z.land pte PTE_U =? 0 then 45 else 117].
(** The loop of [vm_dump_walk_in] with [n] levels to go. *)
Fixpoint dump_levels (n : nat) (m : memory) (pt va : Z) : list Z :=
  match n with
  | O => []
  | S n' =>
      let level := Z.of_nat n' in
      let pte := load64 m (pt + 8 * PX level va) in
      let line := str "  L" ++ utoa level ++ str " idx " ++ utoa (PX level va)
                    ++ str " pte " ++ put_hex pte in
      if negb (PTE_VALID pte) then line ++ str "  invalid -> unmapped" ++ [10]
      else if PTE_IS_LEAF pte then
        line ++ str "  leaf " ++ put_perm pte ++ str " pa "
             ++ put_hex (Z.lor (PTE2PA pte) (Z.land va (level_size level - 1)))
             ++ (if level =? 0 then str " (4KiB)" else if level =? 1 then str " (2MiB superpage)"
                 else str " (1GiB superpage)") ++ [10]
      else line ++ str "  -> table " ++ put_hex (PTE2PA pte) ++ [10] ++ dump_levels n' m (PTE2PA pte) va
  end.
Definition vm_dump_walk_in (m : memory) (pt va cap : Z) : list Z :=
  if cap <? 400 then [] else str "va " ++ put_hex va ++ [10] ++ dump_levels 3 m pt va.

(** ** Numbers read back *)

(** The number that a string of digits stands for. *)
Definition digit_val (c : Z) : Z := if c <? 58 then c - 48 else c - 87.
Definition number_of (base : Z) (s : list Z) : Z := foldl (λ n c, n * base + digit_val c) 0 s.

Lemma number_of_snoc base s c : number_of base (s ++ [c]) = number_of base s * base + digit_val c.
Proof. unfold number_of. by rewrite foldl_app. Qed.

Lemma digit_val_hexdigit d : 0 ≤ d < 16 → digit_val (hexdigit d) = d.
Proof.
  intros Hd. unfold digit_val, hexdigit. destruct (Z.ltb_spec d 10).
  - destruct (Z.ltb_spec (48 + d) 58); lia.
  - destruct (Z.ltb_spec (87 + d) 58); lia.
Qed.

Lemma utoa_tmp_value room v :
  0 ≤ v < 10 ^ Z.of_nat room → number_of 10 (rev (utoa_tmp room v)) = v.
Proof.
  revert v. induction room as [|room IH]; intros v Hv; [change (10 ^ Z.of_nat 0) with 1 in Hv; assert (v = 0) as -> by lia; done|].
  cbn [utoa_tmp].
  destruct (Z.eqb_spec v 0) as [->|Hne]; [done|]. cbn [rev]. rewrite number_of_snoc.
  rewrite Nat2Z.inj_succ, Z.pow_succ_r in Hv by lia. rewrite IH by ldiv.
  unfold digit_val. destruct (Z.ltb_spec (48 + v mod 10) 58); ldiv.
Qed.
Lemma xtoa_tmp_value room v :
  0 ≤ v < 16 ^ Z.of_nat room → number_of 16 (rev (xtoa_tmp room v)) = v.
Proof.
  revert v. induction room as [|room IH]; intros v Hv; [change (16 ^ Z.of_nat 0) with 1 in Hv; assert (v = 0) as -> by lia; done|].
  cbn [xtoa_tmp].
  destruct (Z.eqb_spec v 0) as [->|Hne]; [done|]. cbn [rev]. rewrite number_of_snoc.
  rewrite Nat2Z.inj_succ, Z.pow_succ_r in Hv by lia.
  rewrite Z.shiftr_div_pow2 by lia. change (2 ^ 4) with 16. rewrite IH by ldiv.
  change 15 with (2 ^ 4 - 1). rewrite land_mask by lia. change (2 ^ 4) with 16.
  rewrite digit_val_hexdigit by ldiv. ldiv.
Qed.
Lemma utoa_tmp_length room n v :
  0 ≤ v < 10 ^ Z.of_nat n → (length (utoa_tmp room v) ≤ n)%nat.
Proof.
  revert n v. induction room as [|room IH]; intros n v Hv; [simpl; lia|]. cbn [utoa_tmp].
  destruct (Z.eqb_spec v 0); [simpl; lia|]. destruct n as [|n]; [simpl in Hv; lia|].
  rewrite Nat2Z.inj_succ, Z.pow_succ_r in Hv by lia. simpl. apply le_n_S, IH. ldiv.
Qed.
Lemma xtoa_tmp_length room n v :
  0 ≤ v < 16 ^ Z.of_nat n → (length (xtoa_tmp room v) ≤ n)%nat.
Proof.
  revert n v. induction room as [|room IH]; intros n v Hv; [simpl; lia|]. cbn [xtoa_tmp].
  destruct (Z.eqb_spec v 0); [simpl; lia|]. destruct n as [|n]; [simpl in Hv; lia|].
  rewrite Nat2Z.inj_succ, Z.pow_succ_r in Hv by lia. simpl. apply le_n_S, IH.
  rewrite Z.shiftr_div_pow2 by lia. change (2 ^ 4) with 16. ldiv.
Qed.

Lemma utoa_bound v : 0 ≤ v < 2 ^ 64 → (length (utoa v) ≤ 20)%nat.
Proof.
  intros Hv. unfold utoa. destruct (v =? 0); [simpl; lia|]. rewrite length_rev.
  apply utoa_tmp_length. split; [lia|]. transitivity (2 ^ 64); [lia|]. vm_compute. done.
Qed.
Lemma xtoa_bound v : 0 ≤ v < 2 ^ 64 → (length (xtoa v) ≤ 16)%nat.
Proof.
  intros Hv. unfold xtoa. destruct (v =? 0); [simpl; lia|]. rewrite length_rev.
  apply xtoa_tmp_length. change (16 ^ Z.of_nat 16) with (2 ^ 64). lia.
Qed.

(** Both number formatters print every 64-bit value so that it reads
    back as that value, without leading zeros running past their 24-byte
    scratch buffer: at most 20 decimal and 16 hexadecimal digits. *)
Theorem utoa_xtoa_correct v :
  0 ≤ v < 2 ^ 64 →
  number_of 10 (utoa v) = v ∧ (length (utoa v) ≤ 20)%nat ∧
  number_of 16 (xtoa v) = v ∧ (length (xtoa v) ≤ 16)%nat.
Proof.
  intros Hv. split_and!; [|by apply utoa_bound| |by apply xtoa_bound].
  - unfold utoa. destruct (Z.eqb_spec v 0) as [->|]; [done|]. apply utoa_tmp_value.
    split; [lia|]. transitivity (2 ^ 64); [lia|]. vm_compute. done.
  - unfold xtoa. destruct (Z.eqb_spec v 0) as [->|]; [done|]. apply xtoa_tmp_value.
    split; [lia|]. transitivity (2 ^ 64); [lia|]. vm_compute. done.
Qed.
Lemma utoa_xtoa_correct_witness :
  number_of 10 (utoa 18446744073709551615) = 18446744073709551615 ∧ utoa 205 = str "205" ∧ xtoa 205 = str "cd".
Proof. split; [apply (utoa_xtoa_correct 18446744073709551615); lia|split; reflexivity]. Defined.

(** ** The report fits *)

Lemma utoa_short v : 0 ≤ v < 1000 → (length (utoa v) ≤ 3)%nat.
Proof.
  intros Hv. unfold utoa. destruct (v =? 0); [simpl; lia|]. rewrite length_rev.
  apply utoa_tmp_length. done.
Qed.
Lemma put_hex_bound v : 0 ≤ v < 2 ^ 64 → (length (put_hex v) ≤ 18)%nat.
Proof.
  intros Hv. unfold put_hex. rewrite length_app. pose proof (xtoa_bound v Hv).
  change (length (str "0x")) with 2%nat. lia.
Qed.
Lemma leaf_pa_range pte va level :
  0 ≤ va < 2 ^ 64 → 0 ≤ pte < 2 ^ 64 → 0 ≤ Z.lor (PTE2PA pte) (Z.land va level) < 2 ^ 64.
Proof.
  intros Hva Hp. apply lor_bound; [lia|split; [apply Z.mod_pos_bound; lia|]|].
  - apply Z.mod_pos_bound. lia.
  - split; [apply Z.land_nonneg; lia|]. destruct (Z.eq_dec (Z.land va level) 0) as [->|Hne]; [lia|].
    apply Z.log2_lt_cancel. assert (0 ≤ Z.land va level) by (apply Z.land_nonneg; lia).
    destruct (Z.le_gt_cases 0 level).
    + eapply Z.le_lt_trans; [apply Z.log2_land; lia|]. eapply Z.le_lt_trans; [apply Z.le_min_l|].
      rewrite Z.log2_pow2 by lia. destruct (Z.eq_dec va 0) as [->|]; [done|].
      apply Z.log2_lt_pow2; lia.
    + rewrite Z.log2_pow2 by lia. apply Z.log2_lt_pow2; [lia|].
      eapply Z.le_lt_trans; [|exact (proj2 Hva)]. 
      apply Z.ldiff_le; [lia|]. rewrite Z.ldiff_land. apply Z.bits_inj'. intros n Hn.
      rewrite !Z.land_spec, Z.lnot_spec, Z.bits_0 by lia.
      by destruct (Z.testbit va n), (Z.testbit level n).
Qed.

Lemma dump_levels_bound n m pt va :
  (n ≤ 3)%nat → 0 ≤ va < 2 ^ 64 → (length (dump_levels n m pt va) ≤ 90 * n)%nat.
Proof.
  intros Hn Hva. revert pt. induction n as [|n IH]; intros pt; [simpl; lia|].
  cbn [dump_levels]. set (e := load64 m _).
  assert (0 ≤ e < 2 ^ 64) as He by apply load64_range.
  assert (length (utoa (Z.of_nat n)) ≤ 3)%nat as H1 by (apply utoa_short; lia).
  assert (0 ≤ PX (Z.of_nat n) va < 512) as Hpx by (apply PX_range; lia).
  assert (length (utoa (PX (Z.of_nat n) va)) ≤ 3)%nat as H2 by (apply utoa_short; lia).
  pose proof (put_hex_bound e He) as H3.
  assert (0 ≤ PTE2PA e < 2 ^ 64) as Hpa by (apply Z.mod_pos_bound; lia).
  pose proof (put_hex_bound _ Hpa) as H4.
  pose proof (put_hex_bound _ (leaf_pa_range e va (level_size (Z.of_nat n) - 1) Hva He)) as H5.
  set (l1 := length (utoa (Z.of_nat n))) in *. set (l2 := length (utoa (PX (Z.of_nat n) va))) in *.
  destruct (PTE_VALID e); cbn [negb].
  - destruct (PTE_IS_LEAF e).
    + assert (length (if (Z.of_nat n =? 0)%Z then str " (4KiB)" else if (Z.of_nat n =? 1)%Z
        then str " (2MiB superpage)" else str " (1GiB superpage)") ≤ 17)%nat as H6.
      { destruct (_ =? 0)%Z; [vm_compute; lia|]. destruct (_ =? 1)%Z; vm_compute; lia. }
      rewrite !length_app. cbn [length put_perm]. fold l1 l2.
      change (length (str "  L")) with 3%nat. change (length (str " idx ")) with 5%nat.
      change (length (str " pte ")) with 5%nat. change (length (str "  leaf ")) with 7%nat.
      change (length (str " pa ")) with 4%nat. lia.
    + specialize (IH ltac:(lia) (PTE2PA e)). rewrite !length_app. fold l1 l2. cbn [length].
      change (length (str "  L")) with 3%nat. change (length (str " idx ")) with 5%nat.
      change (length (str " pte ")) with 5%nat. change (length (str "  -> table ")) with 11%nat. lia.
  - rewrite !length_app. fold l1 l2. cbn [length].
    change (length (str "  L")) with 3%nat. change (length (str " idx ")) with 5%nat.
    change (length (str " pte ")) with 5%nat.
    change (length (str "  invalid -> unmapped")) with 21%nat. lia.
Qed.

(** The report of a page-table walk, whatever the tables hold, fits
    the 400 bytes that [vm_dump_walk_in] asks its caller for. *)
Theorem vm_dump_walk_fits m pt va cap :
  0 ≤ va < 2 ^ 64 → Z.of_nat (length (vm_dump_walk_in m pt va cap)) ≤ 400.
Proof.
  intros Hva. unfold vm_dump_walk_in. destruct (cap <? 400); [simpl; lia|].
  pose proof (dump_levels_bound 3 m pt va ltac:(lia) Hva). pose proof (put_hex_bound va Hva).
  rewrite !length_app. change (length (str "va ")) with 3%nat. cbn [length]. lia.
Qed.
Lemma vm_dump_walk_fits_witness :
  Z.of_nat (length (vm_dump_walk_in ∅ 0x87fff000 0x4000000000 512)) ≤ 400.
Proof. apply (vm_dump_walk_fits ∅ 0x87fff000 0x4000000000 512). lia. Defined.
