(* ===== verification/Fdt.v ===== *)
(** * The flattened device tree (src/src/fdt.c)

    The tree is a stream of big-endian tokens in memory; one loop walks
    it and hands every node and property to a callback.  Three callbacks
    answer the kernel's questions: where a device is, how many there are,
    and what the tree looks like as text. *)
From stdpp Require Import base list numbers option gmap.
From S2P Require Import Prelude Mem Format.
Local Open Scope Z_scope.

(** ** Reading *)

Definition FDT_MAGIC : Z := 0xd00dfeed.
Definition FDT_BEGIN : Z := 1.
Definition FDT_END_NODE : Z := 2.
Definition FDT_PROP : Z := 3.
Definition FDT_NOP : Z := 4.

Definition be32 (m : memory) (p : Z) : Z :=
  Z.lor (Z.shiftl (rd8 m p) 24)
    (Z.lor (Z.shiftl (rd8 m (p + 1)) 16) (Z.lor (Z.shiftl (rd8 m (p + 2)) 8) (rd8 m (p + 3)))).
Definition be64 (m : memory) (p : Z) : Z := Z.lor (Z.shiftl (be32 m p) 32) (be32 m (p + 4)).

(** The string at [p]: every byte that is not zero has been written, so
    it is no longer than the memory is large. *)
Fixpoint read_str_loop (fuel : nat) (m : memory) (p : Z) : list Z :=
  match fuel with
  | O => []
  | S fuel' => if rd8 m p =? 0 then [] else rd8 m p :: read_str_loop fuel' m (p + 1)
  end.
Definition read_str (m : memory) (p : Z) : list Z := read_str_loop (S (size m)) m p.

(** [hdr], [fstruct] and [fstrings]; all zero until [fdt_init] succeeds. *)
Record fdt := mkFdt { fhdr : Z; fstruct : Z; fstrings : Z }.
Definition fdt_none : fdt := mkFdt 0 0 0.
(** Offsets of the header's fields. *)
Definition off_struct : Z := 8.
Definition off_strings : Z := 12.
Definition size_struct : Z := 36.
Definition fdt_init (m : memory) (dtb_pa : Z) (f : fdt) : Z * fdt :=
  if dtb_pa =? 0 then (-1, f)
  else if negb (be32 m dtb_pa =? FDT_MAGIC) then (-1, f)
  else (0, mkFdt dtb_pa (dtb_pa + be32 m (dtb_pa + off_struct))
             (dtb_pa + be32 m (dtb_pa + off_strings))).

(** ** The walk *)

(** A callback: node, property (none when a node begins), where the value
    is, its length, the depth; [true] stops the walk. *)
Definition fdt_fn (A : Type) : Type :=
  list Z → option (list Z) → Z → Z → Z → A → bool * A.

Section walk.
Context {A : Type} (fn : fdt_fn A) (m : memory) (f : fdt).

(** [names] is the array of the names of the open nodes, eight of at most
    39 bytes.  The second result says whether a name was written outside
    it: [depth] goes below zero when more nodes end than began.  The name is
    then taken to be where it was written, and nothing else to be hit. *)
Fixpoint fdt_walk_loop (fuel : nat) (p end_ : Z) (node : list Z) (names : list (list Z)) (depth : Z)
    (wild : bool) (arg : A) : A * bool :=
  match fuel with
  | O => (arg, wild)
  | S fuel' =>
      if p <? end_ then
        let tok := be32 m p in
        let p := p + 4 in
        if tok =? FDT_BEGIN then
          let nm := read_str m p in
          let l := Z.of_nat (length nm) in
          let '(node, names, wild) :=
            if depth <? 8 then
              if depth <? 0 then (take 39 nm, names, true)
              else (take 39 nm, <[Z.to_nat depth := take 39 nm]> names, wild)
            else (node, names, wild) in
          let depth := depth + 1 in
          let '(stop, arg) := fn node None 0 0 depth arg in
          if stop then (arg, wild)
          else fdt_walk_loop fuel' (p + Z.land (l + 4) (Z.lnot 3)) end_ node names depth wild arg
        else if tok =? FDT_END_NODE then
          let depth := depth - 1 in
          let node := if (0 <? depth) && (depth <=? 8)
                      then names !!! Z.to_nat (depth - 1) else [] in
          fdt_walk_loop fuel' p end_ node names depth wild arg
        else if tok =? FDT_PROP then
          let len := be32 m p in
          let noff := be32 m (p + 4) in
          let p := p + 8 in
          let '(stop, arg) := fn node (Some (read_str m (fstrings f + noff))) p (i32 len) depth arg in
          if stop then (arg, wild)
          else fdt_walk_loop fuel' (p + Z.land (u32 (len + 3)) (Z.lnot 3)) end_ node names depth wild arg
        else if tok =? FDT_NOP then fdt_walk_loop fuel' p end_ node names depth wild arg
        else (arg, wild)
      else (arg, wild)
  end.
(** Every round moves [p] by at least four bytes. *)
Definition fdt_walk (arg : A) : A * bool :=
  if fstruct f =? 0 then (arg, false)
  else
    let n := be32 m (fhdr f + size_struct) in
    fdt_walk_loop (Z.to_nat (n / 4 + 1)) (fstruct f) (fstruct f + n) [] (replicate 8 []) 0 false arg.
End walk.

(** ** The questions *)

Fixpoint name_has_prefix (name prefix : list Z) : bool :=
  match prefix with
  | [] => true
  | c :: prefix' =>
      match name with
      | [] => false
      | d :: name' => if d =? c then name_has_prefix name' prefix' else false
      end
  end.
Fixpoint fdt_streq (a b : list Z) : bool :=
  match a, b with
  | [], [] => true
  | x :: a', y :: b' => (x =? y) && fdt_streq a' b'
  | _, _ => false
  end.

Record look := mkLook { lprefix : list Z; want : Z; seen : Z; base : Z; lsize : Z; lirq : Z; found : bool }.
Definition look_fn (m : memory) : fdt_fn look := λ node prop val len depth L,
  if negb (name_has_prefix node (lprefix L)) then (false, L)
  else match prop with
       | None => if found L then (true, L)
                 else (false, mkLook (lprefix L) (want L) (seen L + 1) (base L) (lsize L) (lirq L) (found L))
       | Some prop =>
           if negb (seen L - 1 =? want L) then (false, L)
           else if fdt_streq prop (str "reg") && (16 <=? len)
                then (false, mkLook (lprefix L) (want L) (seen L) (be64 m val) (be64 m (val + 8)) (lirq L) true)
           else if fdt_streq prop (str "interrupts") && (4 <=? len)
                then (false, mkLook (lprefix L) (want L) (seen L) (base L) (lsize L) (i32 (be32 m val)) (found L))
           else (false, L)
       end.
(** Base, size and interrupt of the [n]-th node whose name begins so. *)
Definition fdt_reg_n (m : memory) (f : fdt) (prefix : list Z) (n : Z) : option (Z * Z * Z) :=
  let L := (fdt_walk (look_fn m) m f (mkLook prefix n 0 0 0 0 false)).1 in
  if found L then Some (base L, lsize L, lirq L) else None.
Definition fdt_reg (m : memory) (f : fdt) (prefix : list Z) : option (Z * Z) :=
  '(b, s, _) ← fdt_reg_n m f prefix 0; Some (b, s).

Definition count_fn (prefix : list Z) : fdt_fn Z := λ node prop val len depth n,
  match prop with
  | None => if name_has_prefix node prefix then (false, n + 1) else (false, n)
  | Some _ => (false, n)
  end.
Definition fdt_count (m : memory) (f : fdt) (prefix : list Z) : Z :=
  (fdt_walk (count_fn prefix) m f 0).1.

(** ** The tree as text

    [out] is the text written so far; its length is [R->o]. *)
Definition put (cap : Z) (s out : list Z) : list Z :=
  out ++ take (Z.to_nat (cap - 1) - length out) s.
Fixpoint hex_digits (fuel : nat) (v : Z) : list Z :=
  match fuel with
  | O => []
  | S fuel' => if v =? 0 then [] else hexdigit (Z.land v 15) :: hex_digits fuel' (Z.shiftr v 4)
  end.
Definition puthex (cap v : Z) (out : list Z) : list Z :=
  if v =? 0 then put cap (str "0") out
  else put cap (rev (hex_digits 16 v)) (put cap (str "0x") out).
(** [for (i = a; i < depth && i < 8; i++) put(R, "  ");] *)
Definition indent (cap a depth : Z) (out : list Z) : list Z :=
  Nat.iter (Z.to_nat (Z.min depth 8 - a)) (put cap (str "  ")) out.
(** The bytes of a string list, with its separators shown as blanks. *)
Definition put_compatible (m : memory) (cap val len : Z) (out : list Z) : list Z :=
  let bytes := (λ i, let b := rd8 m (val + Z.of_nat i) in if b =? 0 then 32 else b)
                 <$> seq 0 (Z.to_nat len) in
  out ++ take (Z.to_nat (cap - 2) - length out) bytes.
(** [char n[16]]: the digits of a number and their NUL; [true] when they are
    too many for it. *)
Definition NUMBUF : nat := 16.
Definition put_digits (cap v : Z) (out : list Z) : list Z * bool :=
  let n := utoa v in
  (put cap n out, (NUMBUF <? length n + 1)%nat).
(** The text so far, and whether a number has left its buffer. *)
Definition render_fn (m : memory) (cap : Z) : fdt_fn (list Z * bool) := λ node prop val len depth '(out, wild),
  if cap - 96 <? Z.of_nat (length out) then (true, (out, wild))
  else match prop with
       | None =>
           let out := indent cap 1 depth out in
           let out := put cap (match node with [] => str "/" | _ => node end) out in
           (false, (put cap [10] out, wild))
       | Some prop =>
           let is_reg := fdt_streq prop (str "reg") in
           let is_irq := fdt_streq prop (str "interrupts") in
           let is_comp := fdt_streq prop (str "compatible") in
           if negb is_reg && negb is_irq && negb is_comp then (false, (out, wild))
           else
             let out := put cap (str " ") (put cap prop (indent cap 0 depth out)) in
             let '(out, over) :=
               if is_comp then (put_compatible m cap val len out, false)
               else if is_reg && (16 <=? len) then
                 (puthex cap (be64 m (val + 8)) (put cap (str " + ") (puthex cap (be64 m val) out)), false)
               else if is_irq && (4 <=? len) then put_digits cap (be32 m val) out
               else
                 let '(out, over) := put_digits cap (u64 len) (put cap (str "(") out) in
                 (put cap (str " bytes)") out, over) in
             (false, (put cap [10] out, wild || over))
       end.
(** The text, and whether something was written outside its array. *)
Definition fdt_render (m : memory) (f : fdt) (cap : Z) : list Z * bool :=
  if fstruct f =? 0 then (put cap (str "no device tree: a1 was zero at boot" ++ [10]) [], false)
  else
    let '(out, over, wild) := fdt_walk (render_fn m cap) m f ([], false) in
    (out, over || wild).

(** ** Bounds *)

Lemma put_length cap s out :
  (length out ≤ Z.to_nat (cap - 1))%nat → (length (put cap s out) ≤ Z.to_nat (cap - 1))%nat.
Proof. intros. unfold put. rewrite length_app, length_take. lia. Qed.
#[export] Hint Resolve put_length : rvos.
Lemma indent_length cap a depth out :
  (length out ≤ Z.to_nat (cap - 1))%nat → (length (indent cap a depth out) ≤ Z.to_nat (cap - 1))%nat.
Proof. intros H. unfold indent. generalize (Z.to_nat (Z.min depth 8 - a)) as n.
  intros n. induction n as [|n IH]; simpl; [done|by apply put_length]. Qed.
Lemma puthex_length cap v out :
  (length out ≤ Z.to_nat (cap - 1))%nat → (length (puthex cap v out) ≤ Z.to_nat (cap - 1))%nat.
Proof. intros. unfold puthex. destruct (v =? 0); auto with rvos. Qed.
Lemma put_compatible_length m cap val len out :
  (length out ≤ Z.to_nat (cap - 1))%nat →
  (length (put_compatible m cap val len out) ≤ Z.to_nat (cap - 1))%nat.
Proof. intros. unfold put_compatible. rewrite length_app, length_take. lia. Qed.
#[export] Hint Resolve indent_length puthex_length put_compatible_length : rvos.

Lemma render_fn_length m cap node prop val len depth a :
  (length a.1 ≤ Z.to_nat (cap - 1))%nat →
  (length (render_fn m cap node prop val len depth a).2.1 ≤ Z.to_nat (cap - 1))%nat.
Proof.
  destruct a as [out wild]. cbn [fst]. intros H. unfold render_fn. destruct (_ <? _); [done|].
  destruct prop as [prop|]; [|simpl; auto with rvos].
  destruct (negb _ && _ && _); [done|]. unfold put_digits.
  destruct (fdt_streq prop (str "compatible")); [cbn [snd fst]; auto 9 with rvos|].
  destruct (_ && (16 <=? len)); [cbn [snd fst]; auto 9 with rvos|].
  destruct (_ && (4 <=? len)); cbn [snd fst]; auto 9 with rvos.
Qed.

(** An invariant of the callback's state is an invariant of the walk. *)
Lemma fdt_walk_inv {A} (fn : fdt_fn A) m f (P : A → Prop) arg :
  (∀ node prop val len depth a, P a → P (fn node prop val len depth a).2) →
  P arg → P (fdt_walk fn m f arg).1.
Proof.
  intros Hfn Harg. unfold fdt_walk. destruct (_ =? 0); [done|].
  generalize (Z.to_nat (be32 m (fhdr f + size_struct) / 4 + 1)) as fuel.
  generalize (fstruct f + be32 m (fhdr f + size_struct)) as end_. intros end_ fuel.
  generalize (fstruct f) as p, ([] : list Z) as node, (replicate 8 ([] : list Z)) as names, 0 as depth, false as wild.
  revert arg Harg. induction fuel as [|fuel IH]; intros arg Harg p node names depth wild; [done|].
  cbn [fdt_walk_loop]. destruct (p <? end_); [|done].
  destruct (_ =? FDT_BEGIN).
  { destruct (if depth <? 8 then _ else _) as [[node' names'] wild'].
    pose proof (Hfn node' None 0 0 (depth + 1) arg Harg) as H.
    destruct (fn _ _ _ _ _ _) as [[] a]; [done|by apply IH]. }
  destruct (_ =? FDT_END_NODE); [by apply IH|].
  destruct (_ =? FDT_PROP).
  { pose proof (Hfn node (Some (read_str m (fstrings f + be32 m (p + 4 + 4)))) (p + 4 + 8)
                  (i32 (be32 m (p + 4))) depth arg Harg) as H.
    destruct (fn _ _ _ _ _ _) as [[] a]; [done|by apply IH]. }
  destruct (_ =? FDT_NOP); [by apply IH|done].
Qed.

(** ** Trees that stay inside the arrays *)

Lemma be32_range m p : 0 ≤ be32 m p < 2 ^ 32.
Proof.
  assert (∀ a, 0 ≤ rd8 m a < 2 ^ 8) as Hb by (intros a; apply Z.mod_pos_bound; lia).
  assert (∀ a b k, 0 ≤ a < 2 ^ 8 → 0 ≤ k → 0 ≤ b < 2 ^ k → 0 ≤ Z.lor (Z.shiftl a k) b < 2 ^ (8 + k)) as Hl.
  { intros a b k Ha Hk Hbk. rewrite Z.shiftl_mul_pow2, lor_disjoint, Z.pow_add_r by lia. nia. }
  unfold be32. apply (Hl _ _ 24); [apply Hb|lia|]. apply (Hl _ _ 16); [apply Hb|lia|].
  apply (Hl _ _ 8); [apply Hb|lia|]. apply Hb.
Qed.

(** A stream of tokens from [p] on, with [depth] nodes open, that ends only
    nodes it began and has no property of two gigabytes or more. *)
Definition round4 (n : Z) : Z := 4 * ((n + 3) / 4).
Inductive tree_at (m : memory) (end_ : Z) : Z → nat → Prop :=
  | tree_done p d : end_ ≤ p → tree_at m end_ p d
  | tree_begin p d :
      be32 m p = 1 → tree_at m end_ (p + 4 + round4 (Z.of_nat (length (read_str m (p + 4))) + 1)) (S d) →
      tree_at m end_ p d
  | tree_end p d : be32 m p = 2 → tree_at m end_ (p + 4) d → tree_at m end_ p (S d)
  | tree_prop p d :
      be32 m p = 3 → be32 m (p + 4) < 2 ^ 31 → tree_at m end_ (p + 12 + round4 (be32 m (p + 4))) d →
      tree_at m end_ p d
  | tree_nop p d : be32 m p = 4 → tree_at m end_ (p + 4) d → tree_at m end_ p d
  | tree_stop p d : be32 m p ∉ [1; 2; 3; 4] → tree_at m end_ p d.
Definition tree_ok (m : memory) (f : fdt) : Prop :=
  tree_at m (fstruct f + be32 m (fhdr f + size_struct)) (fstruct f) 0.

Lemma round4_land n : Z.land (n + 3) (Z.lnot 3) = round4 n.
Proof. change (Z.lnot 3) with (Z.lnot (2 ^ 2 - 1)). rewrite land_lnot_mask by lia. change (2 ^ 2) with 4. unfold round4. lia. Qed.

(** On such a tree the walk writes no name outside the array, and every
    length it hands out is a natural number. *)
Lemma fdt_walk_loop_tame {A} (fn : fdt_fn A) m f (P : A → Prop) end_ fuel :
  (∀ node prop val len depth a, 0 ≤ len < 2 ^ 31 → P a → P (fn node prop val len depth a).2) →
  ∀ arg, P arg → ∀ p node names d, tree_at m end_ p d →
  let r := fdt_walk_loop fn m f fuel p end_ node names (Z.of_nat d) false arg in P r.1 ∧ r.2 = false.
Proof.
  intros Hfn.
  induction fuel as [|fuel IH]; intros arg Harg p node names d Ht; cbn zeta; [done|].
  cbn [fdt_walk_loop]. destruct (Z.ltb_spec p end_); [|done]. unfold FDT_BEGIN, FDT_END_NODE, FDT_PROP, FDT_NOP.
  inversion Ht as [|? ? E Hn|? d' E Hn|? ? E Hlen Hn|? ? E Hn|? ? E]; subst; [lia| | | | |].
  - rewrite E. cbn [Z.eqb Pos.eqb]. destruct (Z.ltb_spec (Z.of_nat d) 0); [lia|].
    set (nm := read_str m (p + 4)) in *.
    assert (∀ node' names', let r := let '(stop, arg) := fn node' None 0 0 (Z.of_nat d + 1) arg in
              if stop then (arg, false)
              else fdt_walk_loop fn m f fuel (p + 4 + Z.land (Z.of_nat (length nm) + 4) (Z.lnot 3)) end_ node' names'
                     (Z.of_nat d + 1) false arg in P r.1 ∧ r.2 = false) as Hgo.
    { intros node' names'. pose proof (Hfn node' None 0 0 (Z.of_nat d + 1) arg ltac:(lia) Harg) as H1.
      destruct (fn node' None _ _ _ _) as [[] a]; [done|]. cbn [snd] in H1.
      replace (Z.of_nat (length nm) + 4) with (Z.of_nat (length nm) + 1 + 3) by lia. rewrite round4_land.
      replace (Z.of_nat d + 1) with (Z.of_nat (S d)) by lia. by apply IH. }
    destruct (Z.of_nat d <? 8); apply Hgo.
  - rewrite E. cbn [Z.eqb Pos.eqb]. replace (Z.of_nat (S d') - 1) with (Z.of_nat d') by lia. by apply IH.
  - rewrite E. cbn [Z.eqb Pos.eqb]. pose proof (be32_range m (p + 4)) as Hr.
    rewrite i32_small by lia.
    pose proof (Hfn node (Some (read_str m (fstrings f + be32 m (p + 4 + 4)))) (p + 4 + 8) (be32 m (p + 4)) (Z.of_nat d) arg
                  ltac:(lia) Harg) as H1.
    destruct (fn _ _ _ _ _ _) as [[] a]; [done|]. cbn [snd] in H1. rewrite u32_small, round4_land by lia.
    replace (p + 4 + 8) with (p + 12) by lia. by apply IH.
  - rewrite E. cbn [Z.eqb Pos.eqb]. by apply IH.
  - rewrite !not_elem_of_cons in E. destruct E as (E1 & E2 & E3 & E4 & _).
    by rewrite (proj2 (Z.eqb_neq _ _) E1), (proj2 (Z.eqb_neq _ _) E2), (proj2 (Z.eqb_neq _ _) E3), (proj2 (Z.eqb_neq _ _) E4).
Qed.
Lemma fdt_walk_tame {A} (fn : fdt_fn A) m f (P : A → Prop) arg :
  (∀ node prop val len depth a, 0 ≤ len < 2 ^ 31 → P a → P (fn node prop val len depth a).2) →
  P arg → tree_ok m f → P (fdt_walk fn m f arg).1 ∧ (fdt_walk fn m f arg).2 = false.
Proof.
  intros Hfn Harg Ht. unfold fdt_walk. destruct (_ =? 0); [done|].
  apply (fdt_walk_loop_tame fn m f P _ _ Hfn arg Harg _ [] (replicate 8 []) 0 Ht).
Qed.
(** The rounds given to the walk are enough: more change nothing. *)
Lemma fdt_walk_loop_fuel {A} (fn : fdt_fn A) m f end_ n1 n2 p node names depth wild arg :
  end_ - p < 4 * Z.of_nat n1 → end_ - p < 4 * Z.of_nat n2 →
  fdt_walk_loop fn m f n1 p end_ node names depth wild arg = fdt_walk_loop fn m f n2 p end_ node names depth wild arg.
Proof.
  assert (∀ x, 0 ≤ x → 0 ≤ Z.land x (Z.lnot 3)) as Hl by (intros x Hx; apply Z.land_nonneg; by left).
  revert n2 p node names depth wild arg. induction n1 as [|n1 IH]; intros [|n2] p node names depth wild arg H1 H2;
    cbn [fdt_walk_loop]; [done|by destruct (Z.ltb_spec p end_); [lia|]..|].
  destruct (p <? end_); [|done]. destruct (_ =? FDT_BEGIN).
  { destruct (if depth <? 8 then _ else _) as [[node' names'] wild']. destruct (fn _ _ _ _ _ _) as [[] a]; [done|].
    specialize (Hl (Z.of_nat (length (read_str m (p + 4))) + 4) ltac:(lia)). apply IH; lia. }
  destruct (_ =? FDT_END_NODE); [apply IH; lia|]. destruct (_ =? FDT_PROP).
  { destruct (fn _ _ _ _ _ _) as [[] a]; [done|].
    specialize (Hl (u32 (be32 m (p + 4) + 3)) ltac:(apply Z.mod_pos_bound; lia)). apply IH; lia. }
  destruct (_ =? FDT_NOP); [apply IH; lia|done].
Qed.

Lemma put_digits_fits cap v out : 0 ≤ v < 2 ^ 32 → (put_digits cap v out).2 = false.
Proof.
  intros Hv. unfold put_digits, NUMBUF. cbn [snd]. apply Nat.ltb_ge.
  assert (length (utoa v) ≤ 10)%nat; [|lia]. unfold utoa. destruct (v =? 0); [simpl; lia|]. rewrite length_rev.
  apply utoa_tmp_length. split; [lia|]. transitivity (2 ^ 32); [lia|]. vm_compute. done.
Qed.
Lemma render_fn_tame m cap node prop val len depth a :
  0 ≤ len < 2 ^ 31 → a.2 = false → (render_fn m cap node prop val len depth a).2.2 = false.
Proof.
  destruct a as [out wild]. cbn [snd]. intros Hlen ->. unfold render_fn. destruct (_ <? _); [done|].
  destruct prop as [prop|]; [|done]. destruct (negb _ && _ && _); [done|].
  destruct (fdt_streq prop (str "compatible")); [done|]. destruct (_ && (16 <=? len)); [done|].
  destruct (_ && (4 <=? len)).
  - destruct (put_digits _ _ _) as [o w] eqn:E. cbn. pose proof (put_digits_fits cap (be32 m val)) as H.
    apply (f_equal snd) in E. rewrite H in E by apply be32_range. by subst.
  - rewrite u64_small by lia. destruct (put_digits _ _ _) as [o w] eqn:E. cbn. pose proof (put_digits_fits cap len) as H.
    apply (f_equal snd) in E. rewrite H in E by lia. by subst.
Qed.


(** Big-endian words, and a tree of the given tokens whose strings are
    "reg" and "compatible". *)
Definition be (v : Z) : list Z := [v / 2 ^ 24; v / 2 ^ 16; v / 2 ^ 8; v].
Definition tree_of (tokens : list Z) : memory :=
  store_bytes (store_bytes (store_bytes ∅ 36 (be (Z.of_nat (length tokens)))) 0x1000 tokens) 0x800 (str "reg" ++ [0] ++ str "compatible").
Definition tree_fdt : fdt := mkFdt 0 0x1000 0x800.
(** The root with a node "uart", whose "reg" has two numbers. *)
Definition demo_tokens : list Z :=
  be 1 ++ be 0 ++ be 1 ++ str "uart" ++ be 0 ++ be 3 ++ be 16 ++ be 0 ++ be 0 ++ be 0x10000000 ++ be 0 ++ be 256 ++ be 2 ++ be 2 ++ be 9.
Lemma demo_tree_ok : tree_ok (tree_of demo_tokens) tree_fdt.
Proof.
  unfold tree_ok. assert (be32 (tree_of demo_tokens) (fhdr tree_fdt + size_struct) = 60) as -> by (by vm_compute).
  change (fstruct tree_fdt + 60) with 0x103c. change (fstruct tree_fdt) with 0x1000.
  apply tree_begin; [by vm_compute|].
  match goal with |- tree_at _ _ ?p _ => let q := eval vm_compute in p in change p with q end.
  apply tree_begin; [by vm_compute|].
  match goal with |- tree_at _ _ ?p _ => let q := eval vm_compute in p in change p with q end.
  apply tree_prop; [by vm_compute|by vm_compute|].
  match goal with |- tree_at _ _ ?p _ => let q := eval vm_compute in p in change p with q end.
  apply tree_end; [by vm_compute|]. apply tree_end; [by vm_compute|].
  apply tree_stop. apply (bool_decide_unpack _). by vm_compute.
Qed.

(** A node that ends without having begun: the next name is written in
    front of the array. *)
Theorem unmatched_end_overruns :
  (fdt_render (tree_of (be 2 ++ be 1 ++ str "uar" ++ [0])) tree_fdt 2048).2 = true.
Proof. vm_compute. reflexivity. Qed.
(** A property whose length has its top bit set is shown with twenty digits
    and a NUL in a buffer of sixteen. *)
Theorem negative_length_overruns :
  fdt_render (tree_of (be 1 ++ be 0 ++ be 3 ++ be (2 ^ 32 - 1) ++ be 0)) tree_fdt 2048 =
    (str "/" ++ [10] ++ str "  reg (18446744073709551615 bytes)" ++ [10], true).
Proof. vm_compute. reflexivity. Qed.
