(* ===== verification/Pci.v ===== *)
(** * The PCI bus (src/src/pci.c)

    Enumeration reads the configuration registers of every function of
    the first two buses.  [cfg] is the device side: what a 32-bit read of
    an address in the configuration window returns. *)
From stdpp Require Import base list numbers option gmap.
From S2P Require Import Prelude Mem.
Local Open Scope Z_scope.

Definition PCI_MAX : nat := 16.
Record pci_fn := mkPciFn
  { bus : Z; dev : Z; func : Z; vendor : Z; device : Z; class : Z; subclass : Z; progif : Z;
    header : Z; pirq : Z; bar : list Z }.

Definition class_name (c s p : Z) : list Z :=
  if c =? 0x00 then str "unclassified"
  else if c =? 0x01 then (if s =? 0x08 then str "nvme" else str "storage")
  else if c =? 0x02 then str "network"
  else if c =? 0x03 then str "display"
  else if c =? 0x04 then str "multimedia"
  else if c =? 0x06 then
    (if s =? 0x00 then str "host bridge" else if s =? 0x04 then str "pci bridge" else str "bridge")
  else if c =? 0x0c then
    if negb (s =? 0x03) then str "serial bus"
    else if p =? 0x00 then str "usb uhci"
    else if p =? 0x10 then str "usb ohci"
    else if p =? 0x20 then str "usb ehci"
    else if p =? 0x30 then str "usb xhci"
    else str "usb"
  else str "device".

Section init.
Context (cfg : Z → Z).
Definition cfg32 (base off : Z) : Z := u32 (cfg (base + off)).

(** The loop over base addresses, from [b]; a 64-bit one takes two. *)
Fixpoint read_bars (fuel : nat) (a b nbar : Z) (bars : list Z) : list Z :=
  match fuel with
  | O => bars
  | S fuel' =>
      if b <? nbar then
        let lo := cfg32 a (0x10 + b * 4) in
        if lo =? 0 then read_bars fuel' a (b + 1) nbar bars
        else if (Z.land lo 1 =? 0) && (Z.land (Z.shiftr lo 1) 3 =? 2) && (b + 1 <? nbar) then
          read_bars fuel' a (b + 2) nbar
            (<[Z.to_nat b := Z.lor (Z.shiftl (cfg32 a (0x14 + b * 4)) 32) (Z.land lo (u32 (Z.lnot 0xf)))]> bars)
        else if negb (Z.land lo 1 =? 0) then
          read_bars fuel' a (b + 1) nbar (<[Z.to_nat b := Z.land lo (u32 (Z.lnot 3))]> bars)
        else read_bars fuel' a (b + 1) nbar (<[Z.to_nat b := Z.land lo (u32 (Z.lnot 0xf))]> bars)
      else bars
  end.

Definition fn_addr (ecam bus dev fn : Z) : Z :=
  ecam + Z.shiftl bus 20 + Z.shiftl dev 15 + Z.shiftl fn 12.
Definition read_fn (ecam bus dev fn : Z) : pci_fn :=
  let a := fn_addr ecam bus dev fn in
  let id := cfg32 a 0x00 in
  let cl := cfg32 a 0x08 in
  let header := Z.land (u8 (Z.shiftr (cfg32 a 0x0c) 16)) 0x7f in
  mkPciFn (u8 bus) (u8 dev) (u8 fn) (Z.land id 0xffff) (Z.shiftr id 16)
    (u8 (Z.shiftr cl 24)) (u8 (Z.shiftr cl 16)) (u8 (Z.shiftr cl 8)) header
    (Z.land (cfg32 a 0x3c) 0xff)
    (read_bars 6 a 0 (if header =? 0 then 6 else 2) (replicate 6 0)).
Definition absent (ecam bus dev fn : Z) : bool :=
  Z.land (cfg32 (fn_addr ecam bus dev fn) 0) 0xffff =? 0xffff.
Definition single_function (ecam bus dev : Z) : bool :=
  Z.land (Z.shiftr (cfg32 (fn_addr ecam bus dev 0) 0x0c) 16) 0x80 =? 0.

(** The innermost loop, functions [fn .. 7] of one device.  The flag says
    that [found] is full and the whole enumeration returns. *)
Fixpoint scan_fns (n : nat) (ecam bus dev fn : Z) (found : list pci_fn) : bool * list pci_fn :=
  match n with
  | O => (false, found)
  | S n' =>
      if absent ecam bus dev fn then scan_fns n' ecam bus dev (fn + 1) found
      else if (PCI_MAX <=? length found)%nat then (true, found)
      else
        let found := found ++ [read_fn ecam bus dev fn] in
        if (fn =? 0) && single_function ecam bus dev then (false, found)
        else scan_fns n' ecam bus dev (fn + 1) found
  end.
Fixpoint scan_devs (n : nat) (ecam bus dev : Z) (found : list pci_fn) : bool * list pci_fn :=
  match n with
  | O => (false, found)
  | S n' =>
      let '(full, found) := scan_fns 8 ecam bus dev 0 found in
      if full then (true, found) else scan_devs n' ecam bus (dev + 1) found
  end.
Fixpoint scan_buses (n : nat) (ecam bus : Z) (found : list pci_fn) : bool * list pci_fn :=
  match n with
  | O => (false, found)
  | S n' =>
      let '(full, found) := scan_devs 32 ecam bus 0 found in
      if full then (true, found) else scan_buses n' ecam (bus + 1) found
  end.
(** [ecam] is the answer of [fdt_reg("pci@")]; the result is [nfound]. *)
Definition pci_init (reg : option (Z * Z)) : Z * list pci_fn :=
  match reg with
  | None => (-1, [])
  | Some (ecam, _) =>
      let found := (scan_buses 2 ecam 0 []).2 in (Z.of_nat (length found), found)
  end.
End init.

(** ** Text *)

Definition hexchar (d : Z) : Z := hexdigit (Z.land d 15).
(** The function named by [i], if the index is in range. *)
Definition pci_get (found : list pci_fn) (i : Z) : option pci_fn :=
  if (i <? 0) || (Z.of_nat (length found) <=? i) then None else found !! Z.to_nat i.
Definition pci_name (found : list pci_fn) (i cap : Z) : option (list Z) :=
  if cap <? 10 then None
  else f ← pci_get found i;
       Some [hexchar (Z.shiftr (bus f) 4); hexchar (bus f); 58;
             hexchar (Z.shiftr (dev f) 4); hexchar (dev f); 46; hexchar (func f)].

(** Both append to the text [out], up to [cap - 1] bytes. *)
Definition puts_at (cap : Z) (s out : list Z) : list Z :=
  out ++ take (Z.to_nat (cap - 1) - length out) s.
Definition hex_at (cap v : Z) (digits : nat) (out : list Z) : list Z :=
  puts_at cap ((λ i, hexchar (Z.shiftr v (Z.of_nat i * 4))) <$> rev (seq 0 digits)) out.
Definition render_bar (cap : Z) (bars : list Z) (out : list Z) (b : nat) : list Z :=
  let v := bars !!! b in
  if v =? 0 then out
  else hex_at cap v 8 (puts_at cap (str "     0x")
         (puts_at cap (10 :: str "bar") out ++ [48 + Z.of_nat b])).
Definition pci_render (found : list pci_fn) (i cap : Z) : option (list Z) :=
  f ← pci_get found i;
  let o := puts_at cap (str "vendor   ") [] in
  let o := hex_at cap (vendor f) 4 o in
  let o := puts_at cap (10 :: str "device   ") o in
  let o := hex_at cap (device f) 4 o in
  let o := puts_at cap (10 :: str "class    ") o in
  let o := hex_at cap (class f) 2 o in
  let o := hex_at cap (subclass f) 2 o in
  let o := hex_at cap (progif f) 2 o in
  let o := puts_at cap (str "  ") o in
  let o := puts_at cap (class_name (class f) (subclass f) (progif f)) o in
  let o := puts_at cap (10 :: str "irq      ") o in
  let o := puts_at cap (utoa (pirq f)) o in
  let o := foldl (render_bar cap (bar f)) o (seq 0 6) in
  Some (puts_at cap (10 :: str "driver   none" ++ [10]) o).
Definition pci_summary (found : list pci_fn) (i cap : Z) : option (list Z) :=
  f ← pci_get found i;
  let o := default [] (pci_name found i cap) in
  let o := puts_at cap (str "  ") o in
  let o := hex_at cap (vendor f) 4 o ++ [58] in
  let o := hex_at cap (device f) 4 o in
  let o := puts_at cap (str "  ") o in
  Some (puts_at cap (class_name (class f) (subclass f) (progif f)) o).

(** ** What enumeration finds *)

(** Everything found answered with a vendor, and is where it says it is. *)
Definition present (cfg : Z → Z) (ecam : Z) (f : pci_fn) : Prop :=
  ∃ b d n, 0 ≤ b < 2 ∧ 0 ≤ d < 32 ∧ 0 ≤ n < 8 ∧ absent cfg ecam b d n = false ∧ f = read_fn cfg ecam b d n.
Definition found_ok (cfg : Z → Z) (ecam : Z) (l : list pci_fn) : Prop :=
  Forall (present cfg ecam) l ∧ (length l ≤ PCI_MAX)%nat.

Lemma scan_fns_ok cfg ecam b d n fn found :
  0 ≤ b < 2 → 0 ≤ d < 32 → 0 ≤ fn → fn + Z.of_nat n ≤ 8 →
  found_ok cfg ecam found → found_ok cfg ecam (scan_fns cfg n ecam b d fn found).2.
Proof.
  intros Hb Hd. revert fn found. induction n as [|n IH]; intros fn found Hlo Hhi Hok; [done|].
  cbn [scan_fns]. destruct (absent cfg ecam b d fn) eqn:Ea; [apply IH; try done; lia|].
  destruct (Nat.leb_spec PCI_MAX (length found)); [done|].
  assert (found_ok cfg ecam (found ++ [read_fn cfg ecam b d fn])) as Hok'.
  { destruct Hok as [H1 H2]. split; [|rewrite length_app; simpl; lia]. apply Forall_app. split; [done|].
    repeat constructor. exists b, d, fn. split_and!; try done; lia. }
  destruct (_ && _); [done|]. apply IH; try done; lia.
Qed.
Lemma scan_devs_ok cfg ecam b n d found :
  0 ≤ b < 2 → 0 ≤ d → d + Z.of_nat n ≤ 32 →
  found_ok cfg ecam found → found_ok cfg ecam (scan_devs cfg n ecam b d found).2.
Proof.
  intros Hb. revert d found. induction n as [|n IH]; intros d found Hlo Hhi Hok; [done|].
  cbn [scan_devs]. pose proof (scan_fns_ok cfg ecam b d 8 0 found Hb ltac:(lia) ltac:(lia) ltac:(lia) Hok) as H.
  destruct (scan_fns cfg 8 ecam b d 0 found) as [full l]. destruct full; [done|]. apply IH; try done; lia.
Qed.
Lemma scan_buses_ok cfg ecam n b found :
  0 ≤ b → b + Z.of_nat n ≤ 2 →
  found_ok cfg ecam found → found_ok cfg ecam (scan_buses cfg n ecam b found).2.
Proof.
  revert b found. induction n as [|n IH]; intros b found Hlo Hhi Hok; [done|].
  cbn [scan_buses]. pose proof (scan_devs_ok cfg ecam b 32 0 found ltac:(lia) ltac:(lia) ltac:(lia) Hok) as H.
  destruct (scan_devs cfg 32 ecam b 0 found) as [full l]. destruct full; [done|]. apply IH; try done; lia.
Qed.

(** Enumeration fills the table of functions with functions of the
    bus that answered, each read at its own address, never with more than
    the table holds, and reports how many there are. *)
Theorem pci_init_correct cfg ecam size :
  let '(n, l) := pci_init cfg (Some (ecam, size)) in
  n = Z.of_nat (length l) ∧ (length l ≤ PCI_MAX)%nat ∧ Forall (present cfg ecam) l.
Proof.
  unfold pci_init. destruct (scan_buses_ok cfg ecam 2 0 []) as [H1 H2]; [lia|lia| |done].
  split; [constructor|]. unfold PCI_MAX. simpl. lia.
Qed.
