(* ===== verification/Retire.v ===== *)
(** * The end of a task (src/src/task.c: task_retire)

    Retiring a task wakes whoever was blocked on it, takes it off the
    queue it may be standing in, gives its address space back unless a
    thread still runs in it, and sweeps the namespaces.  The table
    invariant survives, provided the task is not the one with identifier
    0: waiters for "nobody" and waiters for task 0 look the same. *)
From stdpp Require Import base list numbers option gmap functions.
From S2P Require Import Prelude Mem Riscv Pmm Vm VmMap VmCopy Kernel Task Ipc Vfs.
Local Open Scope Z_scope.

(** ** The code *)

(** The loop over the queue of the dying task: their sends fail. *)
Definition fail_sender (t : task) : task :=
  (set_reg 10 (-1) t) <| state := T_RUNNABLE |> <| send_next := None |>.
Fixpoint wake_senders (fuel : nat) (s : option nat) (ts : list task) : list task :=
  match fuel, s with
  | S fuel', Some i => wake_senders fuel' (send_next (ts !!! i)) (alter fail_sender i ts)
  | _, _ => ts
  end.

(** [for (s = tasks[i].wait_sender; s; prev = s, s = s->send_next) if (s == t)] *)
Definition leave_queue (t : nat) (ts : list task) (i : nat) : list task :=
  match find_link NTASK ts (λ s, (s =? t)%nat) None (wait_sender (ts !!! i)) with
  | Some (prev, s) => unlink i prev s ts
  | None => ts
  end.

(** One round of the loop over waiters, for the task with identifier [id]. *)
Definition wake_waiter (id : Z) (u : task) : task :=
  let u1 :=
    if bool_decide (state u = T_BLOCKED) && (wait_for u =? id)
    then (set_reg 10 0 (u <| wait_for := 0 |>)) <| state := T_RUNNABLE |> else u in
  if bool_decide (state u1 = T_BLOCKED) && waiting_recv u1 && recv_closed u1 && (recv_from u1 =? id)
  then (set_reg 10 (-1) (u1 <| waiting_recv := false |> <| recv_closed := false |>))
         <| state := T_RUNNABLE |>
  else u1.

(** Does another task stand in this address space? *)
Definition pt_shared (k : kernel) (t : nat) : bool :=
  existsb (λ i, negb (i =? t)%nat && (pt (task_at k i) =? pt (task_at k t)) && live (task_at k i))
    (seq 0 NTASK).

(** Everyone who is blocked on [t], or in front of whom it stands. *)
Definition retire_wakes (t : nat) (k : kernel) : kernel :=
  let k1 := k <| tasks := wake_senders NTASK (wait_sender (task_at k t)) (tasks k) |> in
  let k2 := upd t (λ u, u <| wait_sender := None |> <| waiting_recv := false |>) k1 in
  let k3 := k2 <| tasks := foldl (leave_queue t) (tasks k2) (seq 0 NTASK) |> in
  let id := tid (task_at k3 t) in
  k3 <| tasks := foldl (λ ts i, alter (wake_waiter id) i ts) (tasks k3) (seq 0 NTASK) |>.
(** Its address space, its slot and its namespace. *)
Definition retire_release (t : nat) (k : kernel) : kernel :=
  let k1 :=
    if pt_shared k t then upd t (λ u, u <| pt := 0 |>) k
    else
      let '(p, k') := with_phys (vm_free_task (pt (task_at k t))) k in
      upd t (λ u, u <| pt := p |>) k' in
  let k2 := upd t (λ u, u <| state := T_UNUSED |> <| gen := i32 (gen u + 1) |>) k1 in
  vfs_ns_gc k2.
Definition task_retire (t : nat) (k : kernel) : kernel := retire_release t (retire_wakes t k).

(** ** The four phases *)

(** Phase one: the senders. *)
Lemma wake_senders_spec fuel ts p l y :
  sendq ts p l → NoDup l → (∀ x, x ∈ l → (x < length ts)%nat) → (length l ≤ fuel)%nat →
  wake_senders fuel p ts !!! y = (if decide (y ∈ l) then fail_sender (ts !!! y) else ts !!! y) ∧
  length (wake_senders fuel p ts) = length ts.
Proof.
  revert fuel ts p. induction l as [|i l IH]; intros fuel ts p Hq Hnd Hlt Hf.
  - simpl in Hq. subst. destruct fuel; (split; [|done]);
      (destruct (decide _) as [H0|]; [by apply not_elem_of_nil in H0|done]).
  - destruct Hq as [-> Hq]. apply list.NoDup_cons in Hnd as [Hi Hnd].
    destruct fuel as [|fuel]; simpl in Hf; [lia|]. cbn [wake_senders].
    assert (i < length ts)%nat as Hil by (apply Hlt; set_solver).
    destruct (IH fuel (alter fail_sender i ts) (send_next (ts !!! i))) as [E1 E2].
    + eapply sendq_ext; [|exact Hq]. intros x Hx. rewrite lookup_total_alter_ne; [done|].
      intros ->. done.
    + done.
    + intros x Hx. rewrite length_alter. apply Hlt. set_solver.
    + lia.
    + rewrite E1, E2, length_alter. split; [|done]. rewrite lookup_total_alter by done.
      destruct (decide (i = y)) as [->|].
      * rewrite decide_False by done. by rewrite decide_True by set_solver.
      * destruct (decide (y ∈ l)), (decide (y ∈ i :: l)); set_solver.
Qed.

Definition drop_queue (u : task) : task := u <| wait_sender := None |> <| waiting_recv := false |>.
Lemma queued_clear Q t x :
  (t < NTASK)%nat → queued (<[t := []]> Q) x ↔ ∃ i, (i < NTASK)%nat ∧ i ≠ t ∧ x ∈ Q i.
Proof.
  intros Ht. split.
  - intros (i & Hi & Hx). destruct (decide (i = t)) as [->|].
    + rewrite fn_lookup_insert in Hx. by apply not_elem_of_nil in Hx.
    + rewrite fn_lookup_insert_ne in Hx by done. by exists i.
  - intros (i & Hi & Hne & Hx). exists i. by rewrite fn_lookup_insert_ne.
Qed.

(** Slot [x] once the queue of [t] has been dropped. *)
Lemma dropped_local (ts ts2 : list task) c Q t x :
  table_rel ts c Q → (t < NTASK)%nat → (x < NTASK)%nat →
  (∀ y, y ≠ t → ts2 !!! y = if decide (y ∈ Q t) then fail_sender (ts !!! y) else ts !!! y) →
  ts2 !!! t = drop_queue (ts !!! t) →
  local_ok x (queued (<[t := []]> Q) x) ((<[t := []]> Q) x = []) c (ts2 !!! x).
Proof.
  intros H Ht Hx Hy Htt. pose proof (tr_local _ _ _ H x Hx) as [L1 L2 L3 L4 L5 L6 L7].
  assert (t ∉ Q t) as Htq by (intros Hin; by destruct (tr_member _ _ _ H t t Ht Hin)).
  assert (queued (<[t:=[]]> Q) x → queued Q x) as Hqq.
  { intros (i & Hi & _ & Hin)%queued_clear; [by exists i|done]. }
  assert (¬ queued (<[t:=[]]> Q) x → (x ∉ Q t) → ¬ queued Q x) as Hnq.
  { intros Hn Hxt (i & Hi & Hin). apply Hn, queued_clear; [done|]. exists i. split_and!; [done| |done].
    by intros ->. }
  destruct (decide (x = t)) as [->|Hxt].
  - rewrite Htt, fn_lookup_insert. unfold drop_queue. split; unfold blocked_sender, live in *; simpl; try done.
    + intros Hq. destruct (L1 (Hqq Hq)) as (? & ? & ?). done.
    + intros Hn. apply L2. by apply Hnq.
    + intros Hl Hwf. by destruct (L7 Hl Hwf).
  - rewrite Hy, fn_lookup_insert_ne by done. destruct (decide (x ∈ Q t)) as [Hin|Hin].
    + destruct (L1 ltac:(by exists t)) as (B1 & B2 & B3).
      unfold fail_sender. split; unfold blocked_sender, live in *; simpl; try done.
      * intros (i & Hi & Hne & Hxi)%queued_clear; [|done]. destruct Hne. by eapply (tr_disj _ _ _ H).
      * intros _. apply L4. by rewrite B1.
      * congruence.
    + split; try done; auto.
Qed.
Lemma dropped_table (ts ts2 : list task) c Q t :
  table_rel ts c Q → (t < NTASK)%nat → length ts2 = NTASK →
  (∀ y, y ≠ t → ts2 !!! y = if decide (y ∈ Q t) then fail_sender (ts !!! y) else ts !!! y) →
  ts2 !!! t = drop_queue (ts !!! t) → table_rel ts2 c (<[t := []]> Q).
Proof.
  intros H Ht Hlen Hy Htt.
  assert (∀ i x, (i < NTASK)%nat → i ≠ t → x ∈ Q i → send_next (ts2 !!! x) = send_next (ts !!! x)) as Hsn.
  { intros i x Hi Hne Hx. destruct (decide (x = t)) as [->|]; [by rewrite Htt|]. rewrite Hy by done.
    rewrite decide_False; [done|]. intros Hx'. destruct Hne. by eapply (tr_disj _ _ _ H). }
  split; [done|..|intros x Hx; by eapply dropped_local].
  - intros i Hi. destruct (decide (i = t)) as [->|Hne].
    + rewrite fn_lookup_insert, Htt. done.
    + rewrite fn_lookup_insert_ne by done.
      assert (wait_sender (ts2 !!! i) = wait_sender (ts !!! i)) as -> by (rewrite Hy by done; by destruct (decide _)).
      eapply sendq_ext; [|by apply H]. intros x Hx. by eapply Hsn.
  - intros i Hi. destruct (decide (i = t)) as [->|]; [rewrite fn_lookup_insert; constructor|].
    rewrite fn_lookup_insert_ne by done. by apply H.
  - intros i j x Hi Hj. destruct (decide (i = t)) as [->|], (decide (j = t)) as [->|];
      rewrite ?fn_lookup_insert, ?fn_lookup_insert_ne by done.
    + done.
    + by intros ?%not_elem_of_nil.
    + by intros _ ?%not_elem_of_nil.
    + by apply (tr_disj _ _ _ H).
  - intros i x Hi. destruct (decide (i = t)) as [->|].
    { rewrite fn_lookup_insert. by intros ?%not_elem_of_nil. }
    rewrite fn_lookup_insert_ne by done. by apply H.
Qed.
Lemma phase_senders ts c Q t :
  table_rel ts c Q → (t < NTASK)%nat →
  let ts1 := wake_senders NTASK (wait_sender (ts !!! t)) ts in
  let ts2 := alter drop_queue t ts1 in
  (∀ y, y ≠ t → ts2 !!! y = if decide (y ∈ Q t) then fail_sender (ts !!! y) else ts !!! y) ∧
  ts2 !!! t = drop_queue (ts !!! t) ∧ table_rel ts2 c (<[t := []]> Q).
Proof.
  intros H Ht. cbn zeta. pose proof (tr_len _ _ _ H) as Hlen.
  pose proof (λ y, wake_senders_spec NTASK ts (wait_sender (ts !!! t)) (Q t) y (tr_chain _ _ _ H t Ht)
    (tr_nodup _ _ _ H t Ht)) as Hw.
  assert (∀ x, x ∈ Q t → (x < length ts)%nat) as Hlt.
  { intros x Hx. rewrite Hlen. by apply (tr_member _ _ _ H t x Ht). }
  pose proof (queue_length _ _ _ _ H Ht) as Hql.
  specialize (λ y, Hw y Hlt ltac:(lia)). set (ts1 := wake_senders _ _ _) in *.
  assert (t ∉ Q t) as Htq by (intros Hin; by destruct (tr_member _ _ _ H t t Ht Hin)).
  assert (length ts1 = NTASK) as Hlen1 by (by rewrite (proj2 (Hw t))).
  assert (∀ y, y ≠ t → alter drop_queue t ts1 !!! y =
            if decide (y ∈ Q t) then fail_sender (ts !!! y) else ts !!! y) as Hy.
  { intros y Hy. rewrite lookup_total_alter_ne by done. apply Hw. }
  assert (alter drop_queue t ts1 !!! t = drop_queue (ts !!! t)) as Htt.
  { rewrite lookup_total_alter_eq by lia. f_equal. rewrite (proj1 (Hw t)). by rewrite decide_False. }
  split_and!; [done|done|]. apply (dropped_table ts); try done. by rewrite length_alter.
Qed.

(** Phase two: out of every queue. *)
Lemma leave_queue_spec t ts c Q i :
  table_rel ts c Q → (i < NTASK)%nat →
  ∃ Q', table_rel (leave_queue t ts i) c Q' ∧ (∀ y, relinked (ts !!! y) (leave_queue t ts i !!! y)) ∧
    (t ∉ Q' i) ∧ (∀ j x, x ∈ Q' j → x ∈ Q j) ∧ (∀ x, x ≠ t → queued Q x → queued Q' x).
Proof.
  intros H Hi. unfold leave_queue. pose proof (find_link_queue ts c Q i (λ s, (s =? t)%nat) H Hi) as Hf.
  destruct (find_link _ _ _ _ _) as [[prev s]|].
  - destruct Hf as (l1 & l2 & HQ & Hs%Nat.eqb_eq & _ & ->). subst s.
    destruct (unlink_table ts c Q i l1 t l2 H Hi HQ) as (Htab & Hrel & Hq).
    exists (<[i := l1 ++ l2]> Q). split_and!; [done|done|..].
    + intros Hin. assert (queued (<[i := l1 ++ l2]> Q) t) as Hqt by (by exists i).
      apply Hq in Hqt as [_ ?]. done.
    + intros j x. destruct (decide (j = i)) as [->|]; [|by rewrite fn_lookup_insert_ne].
      rewrite fn_lookup_insert, HQ. set_solver.
    + intros x Hx Hqx. by apply Hq.
  - exists Q. split_and!; [done|intros; apply relinked_refl| |done|done].
    intros Hin. rewrite list.Forall_forall in Hf. specialize (Hf t Hin). by rewrite Nat.eqb_refl in Hf.
Qed.
Lemma phase_queues t ts c Q l :
  table_rel ts c Q → (∀ i, i ∈ l → (i < NTASK)%nat) →
  ∃ Q', table_rel (foldl (leave_queue t) ts l) c Q' ∧
    (∀ y, relinked (ts !!! y) (foldl (leave_queue t) ts l !!! y)) ∧
    (∀ i, i ∈ l → t ∉ Q' i) ∧ (∀ j x, x ∈ Q' j → x ∈ Q j) ∧ (∀ x, x ≠ t → queued Q x → queued Q' x).
Proof.
  revert ts Q. induction l as [|i l IH]; intros ts Q H Hl; simpl.
  - exists Q. split_and!; [done|intros; apply relinked_refl|set_solver|done|done].
  - destruct (leave_queue_spec t ts c Q i H) as (Q1 & H1 & R1 & N1 & S1 & K1); [apply Hl; set_solver|].
    destruct (IH _ _ H1) as (Q2 & H2 & R2 & N2 & S2 & K2); [intros; apply Hl; set_solver|].
    exists Q2. split_and!; [done| | | |auto].
    + intros y. eapply relinked_trans; [apply R1|apply R2].
    + intros j [->|Hj]%elem_of_cons; [|by apply N2]. intros Hin. by apply N1, S2.
    + intros j x Hx. by apply S1, S2.
Qed.

(** Phase three: those who waited for this very task. *)
Lemma wake_waiter_table id ts c Q i :
  table_rel ts c Q → (i < NTASK)%nat → id ≠ 0 → table_rel (alter (wake_waiter id) i ts) c Q.
Proof.
  intros H Hi Hid. destruct (tr_local _ _ _ H i Hi) as [L1 L2 L3 L4 L5 L6 L7].
  set (u := ts !!! i) in *. destruct (decide (state u = T_BLOCKED ∧ wait_for u = id)) as [[Hb Hw]|Hn].
  - destruct L7 as [_ Hr]; [unfold live; by rewrite Hb|congruence|].
    apply table_wake; [done|done| |done|].
    + intros Hq. destruct (L1 Hq) as (_ & _ & ?). congruence.
    + fold u. unfold wake_waiter. rewrite (bool_decide_eq_true_2 (state u = T_BLOCKED) Hb), Hw, Z.eqb_refl.
      cbn. unfold ctl, woken. simpl. by rewrite Hr.
  - assert (bool_decide (state u = T_BLOCKED) && (wait_for u =? id) = false) as E1.
    { apply andb_false_iff. rewrite bool_decide_eq_false, Z.eqb_neq.
      destruct (decide (state u = T_BLOCKED)); [right; tauto|by left]. }
    destruct (waiting_recv u) eqn:Ew.
    + destruct (receiver_free _ _ _ _ H Hi Ew) as (Hq & Hb & Hf). fold u in Hb, Hf.
      destruct (recv_closed u && (recv_from u =? id)) eqn:E2.
      * apply table_wake; [done|done|done|done|]. fold u. unfold wake_waiter. rewrite E1, Ew.
        rewrite (bool_decide_eq_true_2 (state u = T_BLOCKED) Hb). cbn [andb]. rewrite E2.
        unfold ctl, woken. simpl. by rewrite Hf.
      * apply table_ctl; [done|]. fold u. unfold wake_waiter. rewrite E1, Ew.
        rewrite (bool_decide_eq_true_2 (state u = T_BLOCKED) Hb). cbn [andb]. by rewrite E2.
    + apply table_ctl; [done|]. fold u. unfold wake_waiter. rewrite E1, Ew.
      by rewrite andb_false_r, andb_false_l.
Qed.
Lemma phase_waiters id ts c Q l :
  table_rel ts c Q → id ≠ 0 → (∀ i, i ∈ l → (i < NTASK)%nat) → NoDup l →
  let ts' := foldl (λ ts i, alter (wake_waiter id) i ts) ts l in
  table_rel ts' c Q ∧ ∀ y, ts' !!! y = if decide (y ∈ l) then wake_waiter id (ts !!! y) else ts !!! y.
Proof.
  cbn zeta. intros H Hid. revert ts H. induction l as [|i l IH]; intros ts H Hl Hnd; simpl.
  - done.
  - apply list.NoDup_cons in Hnd as [Hi Hnd]. assert (i < NTASK)%nat as Hin by (apply Hl; set_solver).
    destruct (IH (alter (wake_waiter id) i ts)) as [E1 E2].
    + by apply wake_waiter_table.
    + intros j Hj. apply Hl. set_solver.
    + done.
    + split; [done|]. intros y. rewrite E2. rewrite lookup_total_alter by (rewrite (tr_len _ _ _ H); lia).
      destruct (decide (i = y)) as [->|].
      * rewrite decide_False by done. by rewrite decide_True by set_solver.
      * destruct (decide (y ∈ l)), (decide (y ∈ i :: l)); set_solver.
Qed.

(** What the waking does to one task, and what it leaves alone. *)
Lemma wake_waiter_keeps id u :
  tid (wake_waiter id u) = tid u ∧ gen (wake_waiter id u) = gen u ∧ pt (wake_waiter id u) = pt u ∧
  ns (wake_waiter id u) = ns u ∧
  (waiting_recv u = false → waiting_recv (wake_waiter id u) = false) ∧
  (state u ≠ T_BLOCKED → wake_waiter id u = u).
Proof.
  unfold wake_waiter. destruct (bool_decide (state u = T_BLOCKED)) eqn:E.
  - apply bool_decide_eq_true in E. rewrite E. cbn [andb].
    destruct (wait_for u =? id); simpl; [done|].
    rewrite E. rewrite bool_decide_eq_true_2 by done. cbn [andb].
    destruct (waiting_recv u) eqn:W, (recv_closed u), (recv_from u =? id); simpl; done.
  - cbn [andb]. rewrite E. done.
Qed.

(** Phase four: the slot itself. *)
Lemma phase_slot ts c Q t f :
  table_rel ts c Q → (t < NTASK)%nat → ¬ queued Q t → Q t = [] → waiting_recv (ts !!! t) = false →
  state (f (ts !!! t)) = T_UNUSED → pt (f (ts !!! t)) = 0 →
  wait_sender (f (ts !!! t)) = wait_sender (ts !!! t) → send_next (f (ts !!! t)) = send_next (ts !!! t) →
  waiting_recv (f (ts !!! t)) = waiting_recv (ts !!! t) →
  table_rel (alter f t ts) c Q.
Proof.
  intros H Ht Hq HQ Hw Hs Hp Hws Hsn Hwr. destruct (tr_local _ _ _ H t Ht) as [L1 L2 L3 L4 L5 L6 L7].
  eapply table_upd; try done.
  assert (live (f (ts !!! t)) = false) as Hd by (unfold live; by rewrite Hs, Hp).
  split; unfold blocked_sender; rewrite ?Hd, ?Hs, ?Hws, ?Hsn, ?Hwr; try done. by rewrite Hw.
Qed.

(** The state after phase three, and what the end of [task_retire] makes
    of it. *)
Definition retire_tasks (t : nat) (k : kernel) : list task :=
  let ts2 := alter drop_queue t (wake_senders NTASK (wait_sender (task_at k t)) (tasks k)) in
  let ts3 := foldl (leave_queue t) ts2 (seq 0 NTASK) in
  foldl (λ ts i, alter (wake_waiter (tid (ts3 !!! t))) i ts) ts3 (seq 0 NTASK).
Definition free_slot (u : task) : task :=
  u <| pt := 0 |> <| state := T_UNUSED |> <| gen := i32 (gen u + 1) |>.

Lemma alter_compose {A} (f g : A → A) i (l : list A) : alter f i (alter g i l) = alter (f ∘ g) i l.
Proof.
  apply list_eq. intros j. destruct (decide (j = i)) as [->|].
  - rewrite !list_lookup_alter_eq. by destruct (l !! i).
  - by rewrite !list_lookup_alter_ne.
Qed.

Lemma vfs_ns_gc_frame k :
  length (ns_pool k) = VFS_NNS →
  tasks (vfs_ns_gc k) = tasks k ∧ current (vfs_ns_gc k) = current k ∧ parked (vfs_ns_gc k) = parked k.
Proof.
  intros H. unfold vfs_ns_gc.
  destruct (gc_loop_spec (seq 1 (VFS_NNS - 1)) k) as (E1 & E2 & E3 & _); [apply NoDup_seq| |done].
  intros i Hi. apply elem_of_seq in Hi. rewrite H. unfold VFS_NNS in *. lia.
Qed.
Lemma retire_release_eq t k :
  length (ns_pool k) = VFS_NNS →
  tasks (retire_release t k) = alter free_slot t (tasks k) ∧
  current (retire_release t k) = current k ∧ parked (retire_release t k) = parked k.
Proof.
  intros Hpool. unfold retire_release. destruct (pt_shared k t).
  - set (k2 := upd t _ _). destruct (vfs_ns_gc_frame k2 Hpool) as (-> & -> & ->).
    split_and!; [|done|done]. unfold k2. cbn. by rewrite alter_compose.
  - unfold with_phys. assert ((vm_free_task (pt (task_at k t)) (phys k)).1 = 0) as Hz.
    { unfold vm_free_task. by destruct (_ =? 0). }
    destruct (vm_free_task _ _) as [p s]. cbn [fst] in Hz. subst p.
    set (k2 := upd t _ _). destruct (vfs_ns_gc_frame k2 Hpool) as (-> & -> & ->).
    split_and!; [|done|done]. unfold k2. cbn. by rewrite alter_compose.
Qed.

(** ** Retirement as a whole *)

(** What becomes of another task [u]; [waits] says whether it was parked
    on the dying one. *)
Definition survivor (id : Z) (waits : bool) (u : task) : task :=
  wake_waiter id (if waits then fail_sender u else u).

Lemma relinked_wake id u v : relinked u v → relinked (wake_waiter id u) (wake_waiter id v).
Proof.
  intros E. assert (∀ w n, wake_waiter id (u <| wait_sender := w |> <| send_next := n |>) =
                   (wake_waiter id u) <| wait_sender := w |> <| send_next := n |>) as H.
  { intros w n. unfold wake_waiter. cbn.
    destruct (bool_decide (state u = T_BLOCKED) && (wait_for u =? id)); cbn.
    - done.
    - by destruct (bool_decide (state u = T_BLOCKED) && waiting_recv u && recv_closed u && (recv_from u =? id)). }
  unfold relinked in E. rewrite E, H. unfold relinked. done.
Qed.
Lemma retire_wakes_frame t k :
  current (retire_wakes t k) = current k ∧ parked (retire_wakes t k) = parked k ∧
  ns_pool (retire_wakes t k) = ns_pool k.
Proof. split_and!; reflexivity. Qed.
Lemma retire_wakes_spec t k Q :
  table_rel (tasks k) (current k) Q → (t < NTASK)%nat → live (task_at k t) = true → tid (task_at k t) ≠ 0 →
  let k' := retire_wakes t k in
  ∃ Q', table_rel (tasks k') (current k') Q' ∧ ¬ queued Q' t ∧ Q' t = [] ∧
    waiting_recv (task_at k' t) = false ∧
    gen (task_at k' t) = gen (task_at k t) ∧ tid (task_at k' t) = tid (task_at k t) ∧
    ∀ y, (y < NTASK)%nat → y ≠ t →
      relinked (survivor (tid (task_at k t)) (bool_decide (y ∈ Q t)) (task_at k y)) (task_at k' y).
Proof.
  intros H Ht Hl Hid. cbn zeta.
  destruct (phase_senders (tasks k) (current k) Q t H Ht) as (A1 & A2 & A3).
  set (ts2 := alter drop_queue t _) in *.
  destruct (phase_queues t ts2 (current k) _ (seq 0 NTASK) A3) as (Q' & B1 & B2 & B3 & B4 & B5).
  { intros i Hi. apply elem_of_seq in Hi. lia. }
  set (ts3 := foldl (leave_queue t) ts2 (seq 0 NTASK)) in *.
  assert (tid (ts3 !!! t) = tid (task_at k t)) as Hid3.
  { destruct (relinked_ctl _ _ (B2 t)) as (_ & -> & _). by rewrite A2. }
  destruct (phase_waiters (tid (ts3 !!! t)) ts3 (current k) Q' (seq 0 NTASK) B1) as [C1 C2].
  { by rewrite Hid3. }
  { intros i Hi. apply elem_of_seq in Hi. lia. }
  { apply NoDup_seq. }
  change (tasks (retire_wakes t k)) with
    (foldl (λ ts i, alter (wake_waiter (tid (ts3 !!! t))) i ts) ts3 (seq 0 NTASK)).
  change (current (retire_wakes t k)) with (current k).
  assert (∀ y, (y < NTASK)%nat → task_at (retire_wakes t k) y = wake_waiter (tid (task_at k t)) (ts3 !!! y)) as D.
  { intros y Hy. rewrite <- Hid3.
    change (task_at (retire_wakes t k) y) with
      (foldl (λ ts i, alter (wake_waiter (tid (ts3 !!! t))) i ts) ts3 (seq 0 NTASK) !!! y).
    rewrite C2. rewrite decide_True; [done|]. apply elem_of_seq. lia. }
  destruct (wake_waiter_keeps (tid (task_at k t)) (ts3 !!! t)) as (K1 & K2 & _ & _ & K5 & _).
  destruct (relinked_ctl _ _ (B2 t)) as (_ & _ & R3 & _ & R5 & _).
  exists Q'. split_and!; [done|..].
  - intros (i & Hi & Hx). apply (B3 i); [|done]. apply elem_of_seq. lia.
  - apply elem_of_nil_inv. intros x Hx. apply B4 in Hx. rewrite fn_lookup_insert in Hx.
    by apply not_elem_of_nil in Hx.
  - rewrite D by done. apply K5. rewrite R5, A2. done.
  - rewrite D, K2, R3, A2 by done. done.
  - rewrite D, K1 by done. done.
  - intros y Hy Hne. rewrite D by done. unfold survivor.
    assert (relinked (if bool_decide (y ∈ Q t) then fail_sender (task_at k y) else task_at k y) (ts3 !!! y)) as E.
    { specialize (B2 y). rewrite (A1 y Hne) in B2. case_bool_decide as Hin.
      - by rewrite decide_True in B2.
      - by rewrite decide_False in B2. }
    by apply relinked_wake.
Qed.

Lemma task_retire_spec t k Q :
  table_rel (tasks k) (current k) Q → length (ns_pool k) = VFS_NNS →
  (t < NTASK)%nat → live (task_at k t) = true → tid (task_at k t) ≠ 0 →
  let k' := task_retire t k in
  ∃ Q', table_rel (tasks k') (current k') Q' ∧ ¬ queued Q' t ∧ Q' t = [] ∧
    current k' = current k ∧ parked k' = parked k ∧
    live (task_at k' t) = false ∧ gen (task_at k' t) = i32 (gen (task_at k t) + 1) ∧
    ∀ y, (y < NTASK)%nat → y ≠ t →
      relinked (survivor (tid (task_at k t)) (bool_decide (y ∈ Q t)) (task_at k y)) (task_at k' y).
Proof.
  intros H Hpool Ht Hl Hid. cbn zeta. unfold task_retire.
  destruct (retire_wakes_spec t k Q H Ht Hl Hid) as (Q' & W1 & W2 & W3 & W4 & W5 & W6 & W7).
  destruct (retire_wakes_frame t k) as (C1 & C2 & C3).
  revert W1 W2 W3 W4 W5 W6 W7 C1 C2 C3. generalize (retire_wakes t k) as k1.
  intros k1 W1 W2 W3 W4 W5 W6 W7 C1 C2 C3. rewrite <- C3 in Hpool.
  destruct (retire_release_eq t k1 Hpool) as (E1 & E2 & E3).
  pose proof (tr_len _ _ _ W1) as Hlen.
  assert (task_at (retire_release t k1) t = free_slot (task_at k1 t)) as Et.
  { unfold task_at. rewrite E1. apply lookup_total_alter_eq. lia. }
  exists Q'. rewrite E1, E2, E3, Et.
  split; [by apply (phase_slot _ _ _ _ free_slot W1 Ht W2 W3 W4)|].
  split; [done|]. split; [done|]. split; [done|]. split; [done|]. split; [done|]. split.
  - unfold free_slot. simpl. by rewrite W5.
  - intros y Hy Hne. assert (task_at (retire_release t k1) y = task_at k1 y) as ->; [|by apply W7].
    unfold task_at. rewrite E1. by apply lookup_total_alter_ne.
Qed.

Lemma task_retire_ok t k :
  kernel_ok k → length (ns_pool k) = VFS_NNS → (t < NTASK)%nat → live (task_at k t) = true →
  tid (task_at k t) ≠ 0 → current k ≠ Some t → kernel_ok (task_retire t k).
Proof.
  intros [[Q H] Hr] Hpool Ht Hl Hid Hc.
  destruct (task_retire_spec t k Q H Hpool Ht Hl Hid) as (Q' & T1 & _ & _ & T4 & T5 & _ & _ & T8).
  split; [by exists Q'|]. unfold runs_current. rewrite T4, T5. intros Hp.
  destruct (Hr Hp) as (c & Hcur & Hcn & Hst). exists c. split_and!; [done|done|].
  assert (c ≠ t) as Hct by congruence. destruct (relinked_ctl _ _ (T8 c Hcn Hct)) as [-> _].
  rewrite bool_decide_eq_false_2.
  - unfold survivor. destruct (wake_waiter_keeps (tid (task_at k t)) (task_at k c)) as (_ & _ & _ & _ & _ & ->);
      [done|]. congruence.
  - intros Hin. apply (running_free _ _ _ _ H Hcn Hst). by exists t.
Qed.

(** ** Theorems *)

(** Whom the end of task [id] concerns: a task waiting for it to end, and
    a task that will hear from nobody else. *)
Definition awaits (id : Z) (u : task) : Prop := state u = T_BLOCKED ∧ wait_for u = id.
Definition hears_only (id : Z) (u : task) : Prop :=
  state u = T_BLOCKED ∧ waiting_recv u = true ∧ recv_closed u = true ∧ recv_from u = id.
#[export] Instance awaits_dec id u : Decision (awaits id u).
Proof. unfold awaits. apply _. Defined.
#[export] Instance hears_only_dec id u : Decision (hears_only id u).
Proof. unfold hears_only. apply _. Defined.
(** A task that runs on with [v] in register a0. *)
Definition answered (v : Z) (u : task) : task := (set_reg 10 v u) <| state := T_RUNNABLE |>.

Lemma survivor_queued id u : relinked (answered (-1) u) (survivor id true u).
Proof.
  unfold survivor. destruct (wake_waiter_keeps id (fail_sender u)) as (_ & _ & _ & _ & _ & ->); [done|].
  by destruct u.
Qed.
Lemma survivor_awaits id u : awaits id u → survivor id false u = answered 0 (u <| wait_for := 0 |>).
Proof.
  intros [Hb Hw]. unfold survivor, wake_waiter. rewrite (bool_decide_eq_true_2 _ Hb), Hw, Z.eqb_refl. done.
Qed.
Lemma survivor_hears id u :
  hears_only id u → wait_for u ≠ id →
  survivor id false u = answered (-1) (u <| waiting_recv := false |> <| recv_closed := false |>).
Proof.
  intros (Hb & Hr & Hc & Hf) Hw. unfold survivor, wake_waiter.
  rewrite (proj2 (Z.eqb_neq _ _) Hw), andb_false_r, (bool_decide_eq_true_2 _ Hb), Hr, Hc, Hf, Z.eqb_refl. done.
Qed.
Lemma survivor_other id u : ¬ awaits id u → ¬ hears_only id u → survivor id false u = u.
Proof.
  unfold awaits, hears_only. intros Ha Hh. unfold survivor, wake_waiter.
  destruct (bool_decide_reflect (state u = T_BLOCKED)) as [Hb|Hb]; [|by rewrite (bool_decide_eq_false_2 _ Hb)].
  destruct (Z.eqb_spec (wait_for u) id); [naive_solver|]. simpl. rewrite (bool_decide_eq_true_2 _ Hb). simpl.
  destruct (waiting_recv u) eqn:E1, (recv_closed u) eqn:E2, (Z.eqb_spec (recv_from u) id); simpl; naive_solver.
Qed.
Lemma answered_free id v u : ¬ awaits id (answered v u) ∧ ¬ hears_only id (answered v u).
Proof. split; [intros [? _]|intros [? _]]; done. Qed.
Lemma relinked_free id u v :
  relinked u v → ¬ awaits id u ∧ ¬ hears_only id u → ¬ awaits id v ∧ ¬ hears_only id v.
Proof. unfold relinked. intros ->. unfold awaits, hears_only. done. Qed.

(** What retirement does to another task, case by case. *)
Lemma retire_others t k Q y :
  table_rel (tasks k) (current k) Q → (t < NTASK)%nat → tid (task_at k t) ≠ 0 → (y < NTASK)%nat →
  let id := tid (task_at k t) in
  let u := task_at k y in
  ∀ u', relinked (survivor id (bool_decide (y ∈ Q t)) u) u' →
  (y ∈ Q t → relinked (answered (-1) u) u') ∧
  (awaits id u → relinked (answered 0 (u <| wait_for := 0 |>)) u') ∧
  (hears_only id u →
     relinked (answered (-1) (u <| waiting_recv := false |> <| recv_closed := false |>)) u') ∧
  (y ∉ Q t → ¬ awaits id u → ¬ hears_only id u → relinked u u').
Proof.
  intros H Ht Hid Hy. cbn zeta. intros u' T8.
  pose proof (tr_local _ _ _ H y Hy) as L. fold (task_at k y) in L.
  assert (y ∈ Q t → ¬ awaits (tid (task_at k t)) (task_at k y) ∧ ¬ hears_only (tid (task_at k t)) (task_at k y)) as Hq.
  { intros Hin. destruct (lo_queued _ _ _ _ _ L) as (_ & Hr & Hw); [by exists t|].
    unfold awaits, hears_only. rewrite Hr, Hw. split; [by intros [_ ?]; destruct Hid|by intros (_ & ? & _)]. }
  split_and!.
  - intros Hin. rewrite bool_decide_eq_true_2 in T8 by done.
    eapply relinked_trans; [apply survivor_queued|exact T8].
  - intros Ha. rewrite bool_decide_eq_false_2, (survivor_awaits _ _ Ha) in T8 by naive_solver. done.
  - intros Hh. rewrite bool_decide_eq_false_2, (survivor_hears _ _ Hh) in T8; [done| |naive_solver].
    intros Hw. destruct Hh as (Hb & Hr & _).
    destruct (lo_wait _ _ _ _ _ L) as [_ ?]; [unfold live; by rewrite Hb|congruence|congruence].
  - intros Hn Ha Hh. rewrite bool_decide_eq_false_2, (survivor_other _ _ Ha Hh) in T8 by done. done.
Qed.
(** Afterwards nobody waits for the dead task. *)
Lemma retire_nobody_waits t k Q y u' :
  table_rel (tasks k) (current k) Q → (t < NTASK)%nat → tid (task_at k t) ≠ 0 → (y < NTASK)%nat →
  relinked (survivor (tid (task_at k t)) (bool_decide (y ∈ Q t)) (task_at k y)) u' →
  ¬ awaits (tid (task_at k t)) u' ∧ ¬ hears_only (tid (task_at k t)) u'.
Proof.
  intros H Ht Hid Hy T8. destruct (retire_others t k Q y H Ht Hid Hy u' T8) as (C1 & C2 & C3 & C4).
  destruct (decide (y ∈ Q t)); [eapply relinked_free; [by apply C1|apply answered_free]|].
  destruct (decide (awaits (tid (task_at k t)) (task_at k y)));
    [eapply relinked_free; [by apply C2|apply answered_free]|].
  destruct (decide (hears_only (tid (task_at k t)) (task_at k y)));
    [eapply relinked_free; [by apply C3|apply answered_free]|].
  eapply relinked_free; [by apply C4|done].
Qed.
(** The identifier of the dead task names nobody. *)
Lemma retired_id_names_nobody t k k' Q Q' :
  table_rel (tasks k) (current k) Q → table_rel (tasks k') (current k') Q' → (t < NTASK)%nat →
  live (task_at k t) = true → live (task_at k' t) = false → task_by_id k' (tid (task_at k t)) = None.
Proof.
  intros H T1 Ht Hl T6. destruct (task_by_id k' _) as [i|] eqn:E; [|done].
  apply (task_by_id_Some _ _ _ _ _ T1) in E as (Hi & Hli & E).
  pose proof (lo_id _ _ _ _ _ (tr_local _ _ _ H t Ht) Hl) as Hidt. fold (task_at k t) in Hidt.
  rewrite Hidt in E. assert (t = i) as <-; [|congruence]. apply Nat2Z.inj.
  rewrite <- (TASK_SLOT_id t (gen (task_at k t))), <- (TASK_SLOT_id i (gen (task_at k' i))) by slot_lia.
  by rewrite E.
Qed.

(** C19: retiring a task frees its slot and leaves nobody waiting for it:
    a sender parked on it becomes runnable and its send answers -1, a task
    waiting for its end becomes runnable with answer 0, a task blocked in
    a receive that hears only it becomes runnable with answer -1, and
    afterwards nobody waits for it in either way; everybody else is left
    as it was, except that the dead task has left its queue.  The slot's
    generation moves on, so the old identifier names nobody, and the table
    invariant holds.  The task with identifier 0 is excepted: see
    [retire_task0_wakes_senders]. *)
Theorem task_retire_correct t k :
  kernel_ok k → length (ns_pool k) = VFS_NNS → (t < NTASK)%nat → live (task_at k t) = true →
  tid (task_at k t) ≠ 0 →
  let id := tid (task_at k t) in
  let k' := task_retire t k in
  (∃ Q', table_rel (tasks k') (current k') Q' ∧ ¬ queued Q' t ∧ Q' t = []) ∧
  (current k ≠ Some t → kernel_ok k') ∧
  task_by_id k' id = None ∧ live (task_at k' t) = false ∧
  gen (task_at k' t) = i32 (gen (task_at k t) + 1) ∧
  (∀ y, (y < NTASK)%nat → y ≠ t →
     let u := task_at k y in
     let u' := task_at k' y in
     (y ∈ queue_of k t → relinked (answered (-1) u) u') ∧
     (awaits id u → relinked (answered 0 (u <| wait_for := 0 |>)) u') ∧
     (hears_only id u →
        relinked (answered (-1) (u <| waiting_recv := false |> <| recv_closed := false |>)) u') ∧
     (y ∉ queue_of k t → ¬ awaits id u → ¬ hears_only id u → relinked u u')) ∧
  (∀ y, (y < NTASK)%nat → ¬ awaits id (task_at k' y) ∧ ¬ hears_only id (task_at k' y)).
Proof.
  intros Hok Hpool Ht Hl Hid. cbn zeta. pose proof Hok as [[Q H] _].
  destruct (task_retire_spec t k Q H Hpool Ht Hl Hid) as (Q' & T1 & T2 & T3 & T4 & T5 & T6 & T7 & T8).
  rewrite (queue_of_rel k _ Q t H Ht). split_and!; [by exists Q'| | |done|done| |].
  - intros Hc. by apply task_retire_ok.
  - by apply (retired_id_names_nobody t k _ Q Q').
  - intros y Hy Hyt. apply (retire_others t k Q); try done. by apply T8.
  - intros y Hy. destruct (decide (y = t)) as [->|Hyt].
    + assert (state (task_at (task_retire t k) t) = T_UNUSED) as E.
      { revert T6. unfold live. by case_bool_decide. }
      unfold awaits, hears_only. rewrite E. by split; intros [? _].
    + apply (retire_nobody_waits t k Q y); try done. by apply T8.
Qed.
(** A caller in slot 1 with a sender parked on it; slot 0 waits for the
    caller to end and slot 3 listens to nobody else. *)
Definition demo_retire : kernel :=
  upd 3 (λ t, t <| state := T_BLOCKED |> <| tid := 3 |> <| waiting_recv := true |> <| recv_closed := true |> <| recv_from := 1 |>)
    (upd 0 (λ t, t <| state := T_BLOCKED |> <| wait_for := 1 |>) (demo_parked 0 (demo_call 0 0 0 id))).
Lemma demo_retire_ok : kernel_ok demo_retire.
Proof. demo_ok. Qed.
Lemma task_retire_correct_witness :
  let k' := task_retire 1 demo_retire in
  (state (task_at k' 2) = T_RUNNABLE ∧ A0 (task_at k' 2) = u64 (-1)) ∧
  (state (task_at k' 0) = T_RUNNABLE ∧ A0 (task_at k' 0) = u64 0) ∧
  (state (task_at k' 3) = T_RUNNABLE ∧ A0 (task_at k' 3) = u64 (-1)) ∧ task_by_id k' 1 = None.
Proof.
  destruct (task_retire_correct 1 demo_retire) as (_ & _ & H1 & _ & _ & H2 & _);
    [exact demo_retire_ok|reflexivity|slot_lia|reflexivity|done|].
  assert (queue_of demo_retire 1 = [2%nat]) as E by (vm_compute; reflexivity). cbn zeta in *.
  assert (∀ v u u', relinked (answered v u) u' → state u' = T_RUNNABLE ∧ A0 u' = u64 v) as Ha.
  { intros v u u' ->. split; [done|]. exact (reg_set_reg 10 v u). }
  split; [|split; [|split; [|exact H1]]].
  - destruct (H2 2%nat) as (D & _); [slot_lia|done|]. rewrite E in D. exact (Ha _ _ _ (D (list_elem_of_here _ _))).
  - destruct (H2 0%nat) as (_ & D & _); [slot_lia|done|]. apply (Ha _ _ _ (D ltac:(split_and!; reflexivity))).
  - destruct (H2 3%nat) as (_ & _ & D & _); [slot_lia|done|]. apply (Ha _ _ _ (D ltac:(split_and!; reflexivity))).
Defined.

(** A runnable task in a queue contradicts the invariant. *)
Lemma runnable_in_queue k Q i x :
  table_rel (tasks k) (current k) Q → (i < NTASK)%nat → (x < NTASK)%nat →
  queue_of k i = [x] → state (task_at k x) = T_RUNNABLE → False.
Proof.
  intros H Hi Hx Hq Hs. rewrite (queue_of_rel _ _ Q i H Hi) in Hq.
  destruct (lo_queued _ _ _ _ _ (tr_local _ _ _ H x Hx)) as [Hb _].
  - exists i. rewrite Hq. split; [done|apply list_elem_of_here].
  - unfold task_at in Hs. congruence.
Qed.

(** The task with identifier 0 runs; slot 2 is parked on slot 1. *)
Definition demo_task0 : kernel :=
  upd 0 (λ t, t <| state := T_RUNNING |>)
    (upd 1 (λ t, t <| state := T_RUNNABLE |>)
       (demo_parked 0 (demo_call 0 0 0 id) <| current := Some 0%nat |>)).

(** When the task with identifier 0 is retired, every blocked task
    that waits for no task at all is taken for one of its waiters.  A
    sender parked on a third task is made runnable with answer 0 although
    its message was never received, and it still stands in that task's
    queue: the table invariant is lost. *)
Theorem retire_task0_wakes_senders :
  let k' := task_retire 0 demo_task0 in
  kernel_ok demo_task0 ∧ state (task_at demo_task0 2) = T_BLOCKED ∧ wait_for (task_at demo_task0 2) = 0 ∧
  state (task_at k' 2) = T_RUNNABLE ∧ A0 (task_at k' 2) = 0 ∧ queue_of k' 1 = [2%nat] ∧
  ¬ ∃ Q, table_rel (tasks k') (current k') Q.
Proof.
  split.
  { apply (kernel_check_ok _ 0); [vm_compute; reflexivity|reflexivity|slot_lia|reflexivity]. }
  assert (queue_of (task_retire 0 demo_task0) 1 = [2%nat]) as Hq by (vm_compute; reflexivity).
  assert (state (task_at (task_retire 0 demo_task0) 2) = T_RUNNABLE) as Hs by (vm_compute; reflexivity).
  split_and!; [reflexivity|reflexivity|exact Hs|vm_compute; reflexivity|exact Hq|].
  intros [Q H]. exact (runnable_in_queue _ Q 1 2 H ltac:(slot_lia) ltac:(slot_lia) Hq Hs).
Qed.
