(* ===== verification/Irq.v ===== *)
(** * Alarms and interrupts (src/src/trap.c, src/src/plic.c)

    Waking a task for an alarm or an interrupt looks to it like the
    arrival of a message.  The time and the PLIC's answers are inputs. *)
From stdpp Require Import base list numbers option gmap functions.
From S2P Require Import Prelude Mem Riscv Pmm Vm VmMap VmCopy Kernel Task Ipc.
Local Open Scope Z_scope.

(** ** The PLIC: a list of register writes *)

Definition PLIC_BASE : Z := 0x0c000000.
Definition PLIC_PRIORITY (irq : Z) : Z := PLIC_BASE + 4 * irq.
Definition PLIC_SENABLE (hart : Z) : Z := PLIC_BASE + 0x2080 + hart * 0x100.
Definition PLIC_STHRESH (hart : Z) : Z := PLIC_BASE + 0x201000 + hart * 0x2000.
Definition PLIC_SCLAIM (hart : Z) : Z := PLIC_BASE + 0x201004 + hart * 0x2000.
Definition UART0_IRQ : Z := 10.
Definition VIRTIO_IRQ_BASE : Z := 1.
Definition virtio_irqs : list Z := (λ i, VIRTIO_IRQ_BASE + Z.of_nat i) <$> seq 0 8.
Definition plic_init : list (Z * Z) :=
  (PLIC_PRIORITY UART0_IRQ, 1) :: ((λ i, (PLIC_PRIORITY i, 1)) <$> virtio_irqs).
Definition plic_init_hart : list (Z * Z) :=
  [(PLIC_SENABLE 0, foldl (λ en i, Z.lor en (Z.shiftl 1 i)) (Z.shiftl 1 UART0_IRQ) virtio_irqs);
   (PLIC_STHRESH 0, 0)].
(** The interrupt numbers written back to the claim register. *)
Definition plic_complete (irq : Z) (k : kernel) : kernel :=
  k <| plic_done := plic_done k ++ [u32 irq] |>.
(** [claim] is what the claim register returns. *)
Definition plic_claim (claim : Z) : Z := i32 claim.

(** ** The timer *)

Definition TICK : Z := 500000.
Definition timer_rearm (now : Z) (k : kernel) : kernel := k <| stimecmp := u64 (now + TICK) |>.

(** One round of [alarms_check]. *)
Definition alarm_task (now : Z) (t : task) : task :=
  if bool_decide (state t = T_UNUSED) || (alarm_at t =? 0) || (now <? alarm_at t) then t
  else
    let t := t <| alarm_at := 0 |> in
    if bool_decide (state t = T_BLOCKED) && waiting_recv t
    then (set_reg 10 TIMER_SENDER t) <| waiting_recv := false |> <| state := T_RUNNABLE |>
    else t <| timer_pending := true |>.
Definition alarms_check (now : Z) (k : kernel) : kernel :=
  foldl (λ k i, upd i (alarm_task now) k) k (seq 0 NTASK).

(** ** Interrupt ownership *)

Definition irq_register (irq : Z) (t : nat) (k : kernel) : Z * kernel :=
  if (irq <=? 0) || (Z.of_nat NIRQ <=? irq) then (-1, k)
  else (0, k <| irq_owner := <[Z.to_nat irq := Some t]> (irq_owner k) |>).
Definition owner_at (k : kernel) (irq : Z) : option nat := irq_owner k !!! Z.to_nat irq.
Definition irq_ack (irq : Z) (k : kernel) : Z * kernel :=
  if (irq <=? 0) || (Z.of_nat NIRQ <=? irq) || negb (bool_decide (owner_at k irq = current k))
  then (-1, k) else (0, plic_complete irq k).

Definition irq_task (t : task) : task :=
  if bool_decide (state t = T_BLOCKED) && waiting_recv t
  then (set_reg 10 IRQ_SENDER t) <| waiting_recv := false |> <| state := T_RUNNABLE |>
  else t <| irq_pending := true |>.
Definition device_interrupt (claim : Z) (k : kernel) : kernel :=
  let irq := plic_claim claim in
  if irq =? 0 then k
  else
    let t := if (0 <? irq) && (irq <? Z.of_nat NIRQ) then owner_at k irq else None in
    match t with
    | None => plic_complete irq k
    | Some t => if bool_decide (state (task_at k t) = T_UNUSED) then plic_complete irq k
                else upd t irq_task k
    end.

(** ** The table invariant *)

Lemma wake_or_flag_ok k x f :
  kernel_ok k → (x < NTASK)%nat →
  (state (task_at k x) = T_BLOCKED → waiting_recv (task_at k x) = true →
     ctl (f (task_at k x)) = ctl (task_at k x) ∨
     ctl (f (task_at k x)) = ctl ((task_at k x) <| waiting_recv := false |> <| state := T_RUNNABLE |>)) →
  (¬ (state (task_at k x) = T_BLOCKED ∧ waiting_recv (task_at k x) = true) →
     ctl (f (task_at k x)) = ctl (task_at k x)) →
  kernel_ok (upd x f k).
Proof.
  intros Hok Hx Hw Hn. pose proof Hok as [[Q H] _].
  destruct (decide (state (task_at k x) = T_BLOCKED ∧ waiting_recv (task_at k x) = true)) as [[Hb Hr]|Hd].
  - destruct (Hw Hb Hr) as [E|E]; [by apply kernel_ok_upd|].
    destruct (receiver_free _ _ _ x H Hx Hr) as (Hq & _ & Hf).
    eapply kernel_ok_wake; try done. rewrite E. unfold ctl, woken, task_at in *. simpl. by rewrite Hf.
  - apply kernel_ok_upd; [by apply Hn|done].
Qed.
Lemma alarm_task_ok now k x : kernel_ok k → (x < NTASK)%nat → kernel_ok (upd x (alarm_task now) k).
Proof.
  intros Hok Hx. apply wake_or_flag_ok; [done|done|..]; unfold alarm_task.
  - intros Hb Hr. destruct (_ || _); [by left|]. right. cbn.
    rewrite (bool_decide_eq_true_2 _ Hb), Hr. done.
  - intros Hn. destruct (_ || _); [done|]. cbn.
    destruct (bool_decide (state (task_at k x) = T_BLOCKED)) eqn:Eb; [|done].
    apply bool_decide_eq_true in Eb. destruct (waiting_recv (task_at k x)) eqn:Er; [by destruct Hn|].
    cbn. unfold ctl. cbn. by rewrite ?Er.
Qed.
Lemma alarms_check_ok now k : kernel_ok k → kernel_ok (alarms_check now k).
Proof.
  unfold alarms_check. assert (∀ i, i ∈ seq 0 NTASK → (i < NTASK)%nat) as Hl.
  { intros i Hi. apply elem_of_seq in Hi. lia. }
  revert Hl. generalize (seq 0 NTASK) as l. intros l. revert k.
  induction l as [|i l IH]; intros k Hl Hok; simpl; [done|].
  apply IH; [intros; apply Hl; set_solver|]. apply alarm_task_ok; [done|]. apply Hl. set_solver.
Qed.
Lemma irq_task_ok k x : kernel_ok k → (x < NTASK)%nat → kernel_ok (upd x irq_task k).
Proof.
  intros Hok Hx. apply wake_or_flag_ok; [done|done|..]; unfold irq_task.
  - intros Hb Hr. right. rewrite (bool_decide_eq_true_2 _ Hb), Hr. done.
  - intros Hn. destruct (bool_decide (state (task_at k x) = T_BLOCKED)) eqn:Eb; [|done].
    apply bool_decide_eq_true in Eb. destruct (waiting_recv (task_at k x)) eqn:Er; [by destruct Hn|].
    cbn. unfold ctl. cbn. by rewrite ?Er.
Qed.
(** Owners are slots of the table. *)
Definition owners_ok (k : kernel) : Prop :=
  length (irq_owner k) = NIRQ ∧ Forall (λ o, ∀ t, o = Some t → (t < NTASK)%nat) (irq_owner k).
Lemma owner_slot k irq t : owners_ok k → owner_at k irq = Some t → (t < NTASK)%nat.
Proof.
  intros [_ H] Ho. unfold owner_at in Ho. rewrite list_lookup_total_alt in Ho.
  destruct (irq_owner k !! Z.to_nat irq) as [o|] eqn:E; [|done]. simpl in Ho. subst o.
  rewrite Forall_lookup in H. by eapply H.
Qed.
Lemma device_interrupt_ok claim k : kernel_ok k → owners_ok k → kernel_ok (device_interrupt claim k).
Proof.
  intros Hok Ho. unfold device_interrupt. destruct (_ =? 0); [done|].
  destruct (_ && _); [|by apply (kernel_ok_ext k)].
  destruct (owner_at k (plic_claim claim)) as [t|] eqn:E; [|by apply (kernel_ok_ext k)].
  case_bool_decide; [by apply (kernel_ok_ext k)|]. apply irq_task_ok; [done|]. by eapply owner_slot.
Qed.

(** ** What an alarm does *)

Lemma alarms_lookup now l k x :
  NoDup l → (∀ i, i ∈ l → (i < length (tasks k))%nat) →
  task_at (foldl (λ k i, upd i (alarm_task now) k) k l) x =
    if decide (x ∈ l) then alarm_task now (task_at k x) else task_at k x.
Proof.
  revert k. induction l as [|i l IH]; intros k Hnd Hl; simpl; [done|].
  apply list.NoDup_cons in Hnd as [Hi Hnd].
  rewrite IH; [|done|intros j Hj; rewrite length_upd; apply Hl; set_solver].
  destruct (decide (i = x)) as [->|].
  - rewrite decide_False by done. rewrite decide_True by set_solver. apply task_at_upd, Hl. set_solver.
  - rewrite task_at_upd_ne by done. destruct (decide (x ∈ l)), (decide (x ∈ i :: l)); set_solver.
Qed.
(** A timer tick serves every alarm that is due and no other.  The
    alarm is spent; a task that waits in a receive is made runnable with
    the timer as the apparent sender, any other task finds the event
    pending; tasks whose alarm is not due are untouched, and the table
    invariant holds. *)
Theorem alarms_check_correct now k x :
  kernel_ok k → (x < NTASK)%nat →
  let t := task_at k x in
  let t' := task_at (alarms_check now k) x in
  kernel_ok (alarms_check now k) ∧
  (if bool_decide (state t ≠ T_UNUSED ∧ alarm_at t ≠ 0 ∧ alarm_at t ≤ now) then
     alarm_at t' = 0 ∧
     (if bool_decide (state t = T_BLOCKED ∧ waiting_recv t = true)
      then state t' = T_RUNNABLE ∧ A0 t' = u64 TIMER_SENDER ∧ waiting_recv t' = false
      else state t' = state t ∧ timer_pending t' = true)
   else t' = t).
Proof.
  intros Hok Hx. cbn zeta. split; [by apply alarms_check_ok|].
  assert (task_at (alarms_check now k) x = alarm_task now (task_at k x)) as ->.
  { pose proof Hok as [[Q H] _]. pose proof (tr_len _ _ _ H) as Hlen.
    unfold alarms_check. rewrite alarms_lookup; [|apply NoDup_seq|intros i Hi; apply elem_of_seq in Hi; lia].
    rewrite decide_True; [done|]. apply elem_of_seq. lia. }
  unfold alarm_task. set (t := task_at k x).
  case_bool_decide as Hdue; case_bool_decide as Hun; cbn [orb]; try tauto.
  - destruct Hdue as (_ & Ha & Hn). rewrite (proj2 (Z.eqb_neq _ 0) Ha), (proj2 (Z.ltb_ge _ _) Hn). cbn.
    destruct (decide (state t = T_BLOCKED ∧ waiting_recv t = true)) as [[Hb Hr]|Hbr].
    + rewrite (bool_decide_eq_true_2 (_ ∧ _) (conj Hb Hr)), (bool_decide_eq_true_2 _ Hb), Hr. cbn.
      split_and!; try done. exact (reg_set_reg 10 TIMER_SENDER t).
    + rewrite (bool_decide_eq_false_2 (_ ∧ _) Hbr).
      destruct (bool_decide (state t = T_BLOCKED)) eqn:Eb; [|done]. apply bool_decide_eq_true in Eb.
      destruct (waiting_recv t) eqn:Er; [by destruct Hbr|done].
  - destruct (Z.eqb_spec (alarm_at t) 0) as [|Ha]; [done|]. destruct (Z.ltb_spec now (alarm_at t)); [done|].
    destruct Hdue. split_and!; [done|done|lia].
Qed.
Lemma alarms_check_correct_witness :
  let k := demo_call 0 0 0 (λ t, demo_receiving t <| alarm_at := 1000 |>) in
  A0 (task_at (alarms_check 1000 k) 2) = u64 TIMER_SENDER.
Proof.
  cbn zeta. set (k := demo_call _ _ _ _).
  destruct (alarms_check_correct 1000 k 2) as [_ H]; [unfold k; demo_ok|slot_lia|].
  assert (bool_decide (state (task_at k 2) ≠ T_UNUSED ∧ alarm_at (task_at k 2) ≠ 0 ∧
            alarm_at (task_at k 2) ≤ 1000) = true) as E1 by (vm_compute; reflexivity).
  assert (bool_decide (state (task_at k 2) = T_BLOCKED ∧ waiting_recv (task_at k 2) = true) = true) as E2
    by (vm_compute; reflexivity).
  rewrite E1, E2 in H. exact (proj1 (proj2 (proj2 H))).
Defined.

Definition demo_closed : kernel :=
  demo_call 0 0 0 (λ t, demo_receiving t <| recv_closed := true |> <| recv_from := 1 |> <| alarm_at := 1000 |>).
(** A closed receive is not closed to the clock.  Slot 2 waits for a
    message from slot 1 and from nobody else, with an alarm set; when the
    alarm is due its receive is answered by the timer, although an open
    receive is the one that is meant to find it. *)
Theorem alarm_breaks_closed_receive :
  let k' := alarms_check 1000 demo_closed in
  kernel_ok demo_closed ∧ recv_closed (task_at demo_closed 2) = true ∧
  recv_from (task_at demo_closed 2) = 1 ∧
  state (task_at k' 2) = T_RUNNABLE ∧ A0 (task_at k' 2) = u64 TIMER_SENDER ∧
  timer_pending (task_at k' 2) = false.
Proof. split; [demo_ok|]. vm_compute. done. Qed.
