(* ===== verification/Syscall.v ===== *)
(** * System calls (src/src/task.c: task_create, task_create_user,
    task_new_empty, the heap page, SYS_SBRK, syscall_dispatch)

    Building tasks and heaps first, then the dispatcher with every case of
    it. *)
From stdpp Require Import base list numbers option gmap.
From S2P Require Import Prelude Mem Riscv Pmm Vm VmMap VmCopy Kernel Task Ipc Vfs Fdt Pci Format Retire Irq.
Local Open Scope Z_scope.

(** What the linker and the compiler decide: the end of the kernel image,
    the user text, and where the kernel's own buffers are. *)
Record layout := mkLayout
  { L_end : Z; L_utext_start : Z; L_utext_end : Z;
    L_kout : Z; L_ti : Z; L_mounts : Z; L_info : Z; L_dma : Z; L_devinfo : Z; L_doc : Z;
    L_seg : Z; L_si : Z; L_pgdump : Z; L_junk : list Z }.

(** [vm_map_at(t->pt, ...)], answer dropped. *)
Definition map_in (t : nat) (va pa size perm level : Z) (k : kernel) : kernel :=
  (with_phys (vm_map_at (pt (task_at k t)) va pa size perm level) k).2.

Definition map_heap_page (t : nat) (perm : Z) (k : kernel) : kernel :=
  let '(p, k1) := with_phys pmm_alloc k in
  if p =? 0 then k1
  else upd t (λ u, u <| brk := UHEAP_BASE + PGSIZE |>) (map_in t UHEAP_BASE p PGSIZE perm 0 k1).

(** One page of the stack.  The answer of [pmm_alloc] is not checked. *)
Definition map_stack_page (t : nat) (perm : Z) (k : kernel) (i : nat) : kernel :=
  let '(p, k1) := with_phys pmm_alloc k in
  map_in t (USTACK_TOP - (Z.of_nat i + 1) * PGSIZE) p PGSIZE perm 0 k1.
Definition map_stack (t : nat) (perm : Z) (k : kernel) : kernel :=
  foldl (map_stack_page t perm) k (seq 0 (Z.to_nat USTACK_PAGES)).

Definition RW : Z := Z.lor PTE_R PTE_W.
Definition RWU : Z := Z.lor RW PTE_U.
Definition RXU : Z := Z.lor (Z.lor PTE_R PTE_X) PTE_U.

Section create.
Context (L : layout).

Definition task_create (nm : list Z) (entry : Z) (k : kernel) : option nat * kernel :=
  match alloc_slot k with
  | (None, k0) => (None, k0)
  | (Some t, k0) =>
      let '(p, k1) := with_phys (vm_create_task_pt (L_end L)) k0 in
      let k2 := upd t (λ u, u <| pt := p |>) k1 in
      let k3 := map_heap_page t RW (map_stack t RW k2) in
      let k4 := upd t (λ u, let u := set_reg 2 USTACK_TOP u in
                            u <| ctx := (ctx u) <| satp := MAKE_SATP (pt u) |> <| epc := entry |>
                                          <| status := Z.lor SSTATUS_SPP SSTATUS_SPIE |> |>
                              <| state := T_RUNNABLE |> <| name := NameLit nm |>) k3 in
      let '(n, k5) := vfs_root_ns k4 in
      (Some t, upd t (λ u, u <| ns := n |>) k5)
  end.

(** The page at [va] again, now with [PTE_U]. *)
Definition remap_user (t : nat) (k : kernel) (va : Z) : kernel :=
  map_in t va (vm_translate_in (mem (phys k)) (pt (task_at k t)) va) PGSIZE RWU 0 k.
(** A failing [task_create] is not checked for: its null result is then
    dereferenced, which ends the model. *)
Definition task_create_user (nm : list Z) (entry data_start data_end : Z) (k : kernel)
  : option nat * kernel :=
  match task_create nm entry k with
  | (None, k1) => (None, k1 <| parked := true |>)
  | (Some t, k1) =>
      let k2 := map_in t (L_utext_start L) (L_utext_start L)
                  (u64 (L_utext_end L - L_utext_start L)) RXU 0 k1 in
      let k3 := if data_start <? data_end
                then map_in t data_start data_start (data_end - data_start) RWU 0 k2 else k2 in
      let k4 := foldl (λ k i, remap_user t k (USTACK_TOP - (Z.of_nat i + 1) * PGSIZE)) k3
                  (seq 0 (Z.to_nat USTACK_PAGES)) in
      let k5 := remap_user t k4 UHEAP_BASE in
      (Some t, upd t (λ u, u <| ctx := (ctx u) <| status := SSTATUS_SPIE |> |>) k5)
  end.

(** [nm] is the caller's string; fifteen bytes of it are kept. *)
Definition set_name (t : nat) (nm : list Z) (u : task) : task :=
  u <| namebuf := take 16 (take 15 nm ++ [0] ++ drop (S (length (take 15 nm))) (namebuf u)) |>
    <| name := NameBuf t |>.
Definition task_new_empty (nm : list Z) (k : kernel) : option nat * kernel :=
  match alloc_slot k with
  | (None, k0) => (None, k0)
  | (Some t, k0) =>
      let '(p, k1) := with_phys (vm_create_task_pt (L_end L)) k0 in
      let k2 := upd t (λ u, u <| pt := p |>) k1 in
      if p =? 0 then (None, k2)
      else
        let k3 := map_heap_page t RWU (map_stack t RWU k2) in
        let k4 := upd t (λ u, set_name t nm (u <| ctx := (ctx u) <| satp := MAKE_SATP (pt u) |> |>)) k3 in
        let '(n, k5) := match current k4 with
                        | Some c => (ns (task_at k4 c), k4)
                        | None => vfs_root_ns k4
                        end in
        (Some t, upd t (λ u, u <| ns := n |> <| state := T_UNUSED |>) k5)
  end.
End create.

(** ** The heap *)

(** [for (; a < PGROUNDUP(want); a += PGSIZE)]: where it stopped. *)
Fixpoint sbrk_grow (fuel : nat) (pt a top : Z) (s : pmm) : Z * pmm :=
  match fuel with
  | O => (a, s)
  | S fuel' =>
      if a <? top then
        let '(p, s1) := pmm_alloc s in
        if p =? 0 then (a, s1)
        else
          let '(r, s2) := vm_map_at pt a p PGSIZE RWU 0 s1 in
          if r <? 0 then (a, pmm_free p s2) else sbrk_grow fuel' pt (a + PGSIZE) top s2
      else (a, s)
  end.
(** [for (; b < top; b += PGSIZE) vm_unmap_page(pt, b);] *)
Fixpoint sbrk_unmap (fuel : nat) (pt b top : Z) (s : pmm) : pmm :=
  match fuel with
  | O => s
  | S fuel' => if b <? top then sbrk_unmap fuel' pt (b + PGSIZE) top (vm_unmap_page pt b s).2 else s
  end.
Definition pages_between (a b : Z) : nat := Z.to_nat ((b - a + PGSIZE - 1) / PGSIZE).

(** [for (i ...) if (tasks[i].pt == current->pt && tasks[i].state != T_UNUSED)
    tasks[i].brk = want;] *)
Definition share_brk (want : Z) (p : Z) (u : task) : task :=
  if (pt u =? p) && negb (bool_decide (state u = T_UNUSED)) then u <| brk := want |> else u.
(** The common end of [SYS_SBRK]. *)
Definition sbrk_finish (c : nat) (old want : Z) (k : kernel) : kernel :=
  let k1 := foldl (λ k i, upd i (share_brk want (pt (task_at k c))) k) k (seq 0 NTASK) in
  upd c (λ u, set_reg 10 old (u <| brk := want |>)) k1.
Definition sys_sbrk (k0 : kernel) : kernel :=
  let c := cur_slot k0 in
  let d := i64 (reg (cur k0) 10) in
  let k := if brk (cur k0) =? 0 then upd c (λ u, u <| brk := UHEAP_BASE |>) k0 else k0 in
  let old := brk (cur k) in
  let want := u64 (old + u64 d) in
  let p := pt (cur k) in
  let fail k := upd c (set_reg 10 (-1)) k in
  if 0 <? d then
    if (UHEAP_TOP <? want) || (want <? old) then fail k
    else
      let a0 := PGROUNDUP old in
      let top := PGROUNDUP want in
      let '(a, s) := sbrk_grow (pages_between a0 top) p a0 top (phys k) in
      let k1 := k <| phys := s |> in
      if a <? top then
        fail (k1 <| phys := sbrk_unmap (pages_between a0 a) p a0 a (phys k1) |>)
      else sbrk_finish c old want k1
  else if d <? 0 then
    let want := if want <? UHEAP_BASE + PGSIZE then UHEAP_BASE + PGSIZE else want in
    let a0 := PGROUNDUP want in
    let top := PGROUNDUP old in
    sbrk_finish c old want (k <| phys := sbrk_unmap (pages_between a0 top) p a0 top (phys k) |>)
  else sbrk_finish c old want k.

(** ** System calls (src/src/task.c: syscall_dispatch)

    One definition per call, and the dispatcher.  A buffer of the kernel
    that is copied to or from a task lives in memory at an address the
    compiler chose ([layout]); the copy goes through both page tables, as
    in the source.  [now] is the time the hardware reports. *)

(** The numbers of syscall.h that ipc.c does not handle. *)
Definition SYS_YIELD : Z := 0.
Definition SYS_PUTC : Z := 3.
Definition SYS_PGDUMP : Z := 4.
Definition SYS_RESOLVE : Z := 5.
Definition SYS_TASKINFO : Z := 6.
Definition SYS_MOUNTS : Z := 7.
Definition SYS_MEMINFO : Z := 8.
Definition SYS_BIND : Z := 9.
Definition SYS_NSCLONE : Z := 10.
Definition SYS_NEWTASK : Z := 11.
Definition SYS_VMLOAD : Z := 12.
Definition SYS_START : Z := 13.
Definition SYS_EXIT : Z := 14.
Definition SYS_IRQ_REG : Z := 15.
Definition SYS_IRQ_ACK : Z := 16.
Definition SYS_DMA_ALLOC : Z := 17.
Definition SYS_ALARM : Z := 18.
Definition SYS_ALIVE : Z := 19.
Definition SYS_MOUNT : Z := 20.
Definition SYS_UNMOUNT : Z := 21.
Definition SYS_WAIT : Z := 23.
Definition SYS_SBRK : Z := 25.
Definition SYS_KILL : Z := 26.
Definition SYS_DEVINFO : Z := 27.
Definition SYS_SELF : Z := 28.
Definition SYS_THREAD : Z := 29.
Definition DEVINFO_TREE : Z := 0.
Definition DEVINFO_NAME : Z := 1.
Definition DEVINFO_PCI : Z := 2.
Definition DEVINFO_KERNEL : Z := 3.

(** The answer in [a0]. *)
Definition ret (v : Z) (k : kernel) : kernel := upd (cur_slot k) (set_reg 10 v) k.
Definition arg (k : kernel) (i : nat) : Z := reg (cur k) (10 + i).

(** ** Moving bytes *)

(** [copy_string_in]: at most [cap - 1] bytes, up to a NUL or a hole. *)
Fixpoint copy_string_loop (n : nat) (m : memory) (p va : Z) : list Z :=
  match n with
  | O => []
  | S n' =>
      let pa := vm_translate_in m p va in
      if pa =? 0 then []
      else if rd8 m pa =? 0 then [] else rd8 m pa :: copy_string_loop n' m p (u64 (va + 1))
  end.
Definition copy_string_in (va : Z) (cap : nat) (k : kernel) : list Z :=
  copy_string_loop (cap - 1) (mem (phys k)) (pt (cur k)) va.

(** A kernel object written at [a]. *)
Definition poke (a : Z) (bytes : list Z) (k : kernel) : kernel :=
  k <| phys := (phys k) <| mem := store_bytes (mem (phys k)) a bytes |> |>.
Definition copy_out (dva sva n : Z) (k : kernel) : kernel :=
  k <| phys := (phys k) <| mem := (vm_copy_across (pt (cur k)) dva (kernel_pagetable k) sva n
                                     (mem (phys k))).2 |> |>.
Definition copy_in (dva sva n : Z) (k : kernel) : kernel :=
  k <| phys := (phys k) <| mem := (vm_copy_across (kernel_pagetable k) dva (pt (cur k)) sva n
                                     (mem (phys k))).2 |> |>.
(** [if (n > cap) n = cap; if (n > 0) vm_copy_across(...);] *)
Definition reply_text (a : Z) (text : list Z) (out cap : Z) (k : kernel) : Z * kernel :=
  let n := Z.of_nat (length text) in
  let n := if cap <? n then cap else n in
  (n, if 0 <? n then copy_out out a n (poke a text k) else poke a text k).
(** Little-endian fields of a structure. *)
Definition le_bytes (n : nat) (v : Z) : list Z :=
  (λ i, Z.land (Z.shiftr v (8 * Z.of_nat i)) 255) <$> seq 0 n.

Section syscalls.
Context (L : layout) (dt : fdt) (found : list pci_fn).

(** ** Namespaces *)

Definition sys_resolve (k : kernel) : kernel :=
  let kpath := copy_string_in (arg k 0) VFS_PATH_MAX k in
  let '(srv, kout, k1) := vfs_resolve (L_junk L) kpath (Z.of_nat VFS_PATH_MAX) (i32 (arg k 3)) k in
  let out := arg k 1 in
  let cap := i32 (arg k 2) in
  let k2 :=
    match kout with
    | Some name =>
        let k2 := poke (L_kout L) (name ++ [0]) k1 in
        if (0 <=? srv) && negb (out =? 0) then
          let n := Z.of_nat (length name) + 1 in
          let n := if cap <? n then cap else n in
          if 0 <? n then copy_out out (L_kout L) n k2 else k2
        else k2
    | None => k1
    end in
  ret srv k2.
Definition sys_mounts (k : kernel) : kernel :=
  let tid0 := i32 (arg k 0) in
  let tid := if tid0 <? 0 then tid (cur k) else tid0 in
  let out := arg k 1 in
  let cap := i32 (arg k 2) in
  let '(text, k1) := vfs_dump_mounts_of tid 512 k in
  let '(n, k2) := reply_text (L_mounts L) text out cap k1 in
  ret n k2.
Definition sys_unmount (k : kernel) : kernel :=
  let '(r, k1) := vfs_unmount (copy_string_in (arg k 0) VFS_PREFIX_MAX k) k in ret r k1.
Definition sys_mount (k : kernel) : kernel :=
  let '(r, k1) := vfs_mount (copy_string_in (arg k 0) VFS_PREFIX_MAX k) (i32 (arg k 1)) (i32 (arg k 2)) k in
  ret r k1.
Definition sys_bind (k : kernel) : kernel :=
  let '(r, k1) := vfs_bind (copy_string_in (arg k 0) VFS_PATH_MAX k)
                    (copy_string_in (arg k 1) VFS_PREFIX_MAX k) (i32 (arg k 2)) k in
  ret r k1.
Definition sys_nsclone (k : kernel) : kernel := let '(r, k1) := vfs_ns_clone k in ret r k1.

(** ** Questions about the system *)

Definition name_str (k : kernel) (t : task) : list Z :=
  match name t with
  | NameNull => []
  | NameLit s => s
  | NameBuf i => cstr (namebuf (task_at k i))
  end.
(** [ti.ipc], [ti.peer] and [ti.msglen]. *)
Definition ipc_info (k : kernel) (idx : nat) : Z * Z * Z :=
  let t := task_at k idx in
  if negb (bool_decide (state t = T_BLOCKED)) then (0, -1, 0)
  else if waiting_recv t then
    (if recv_closed t then (2, recv_from t, 0) else (1, -1, 0))
  else if negb (wait_for t =? 0) then (4, wait_for t, 0)
  else if negb (alarm_at t =? 0) then (5, -1, 0)
  else
    let peer := foldl (λ peer i, if bool_decide (idx ∈ queue_of k i) then tid (task_at k i) else peer)
                  (-1) (seq 0 NTASK) in
    (3, peer, send_len t).
Definition sys_taskinfo (k : kernel) : kernel :=
  let idx := i32 (arg k 0) in
  let out := arg k 1 in
  if (idx <? 0) || (Z.of_nat NTASK <=? idx) || bool_decide (state (task_at k (Z.to_nat idx)) = T_UNUSED)
  then ret (-1) k
  else
    let i := Z.to_nat idx in
    let t := task_at k i in
    let '(ipc, peer, msglen) := ipc_info k i in
    let nm := take 15 (name_str k t) in
    let k1 := poke (L_ti L) (le_bytes 4 (tid t) ++ le_bytes 4 (state_code (state t))
                ++ le_bytes 4 (if bool_decide (i = cur_slot k) then 1 else 0)) k in
    let k2 := poke (L_ti L + 12) (nm ++ [0]) k1 in
    let k3 := poke (L_ti L + 28) (le_bytes 4 ipc ++ le_bytes 4 peer ++ le_bytes 4 msglen
                ++ le_bytes 4 (Z.of_nat (length (queue_of k i)))) k2 in
    ret 0 (copy_out out (L_ti L) 44 k3).
Definition sys_meminfo (k : kernel) : kernel :=
  let k1 := poke (L_info L) (le_bytes 4 (pmm_free_count (phys k)) ++ le_bytes 4 (pmm_total_count (phys k))) k in
  ret 0 (copy_out (arg k 0) (L_info L) 8 k1).
Definition sys_devinfo (k : kernel) : kernel :=
  let what := i32 (arg k 0) in
  let index := i32 (arg k 1) in
  let out := arg k 2 in
  let cap := i32 (arg k 3) in
  if what =? DEVINFO_KERNEL then
    let total := Z.of_nat (length (read_str (mem (phys k)) (L_doc L))) in
    if (index <? 0) || (total <=? index) then ret 0 k
    else
      let n := total - index in
      let n := if cap <? n then cap else n in
      ret n (copy_out out (L_doc L + index) (u64 n) k)
  else
    let text :=
      if what =? DEVINFO_TREE then Some (fdt_render (mem (phys k)) dt 2048).1
      else if what =? DEVINFO_NAME then pci_name found index 2048
      else if what =? DEVINFO_PCI then pci_render found index 2048
      else None in
    match text with
    | None => ret (if cap <? -1 then cap else -1) k
    | Some text => let '(n, k1) := reply_text (L_devinfo L) text out cap k in ret n k1
    end.
Definition sys_pgdump (k : kernel) : kernel :=
  let t := i32 (arg k 0) in
  let va := arg k 1 in
  let out := arg k 2 in
  let cap := i32 (arg k 3) in
  let p := if (0 <=? t) && (t <? Z.of_nat NTASK) && negb (pt (task_at k (Z.to_nat t)) =? 0)
           then pt (task_at k (Z.to_nat t)) else kernel_pagetable k in
  let '(n, k1) := reply_text (L_pgdump L) (vm_dump_walk_in (mem (phys k)) p va 512) out cap k in
  ret n k1.

(** ** Waiting and time *)

Definition sys_wait (k : kernel) : kernel :=
  let t := i32 (arg k 0) in
  match task_by_id k t with
  | None => ret 0 k
  | Some _ => schedule (upd (cur_slot k) (λ u, u <| wait_for := t |> <| state := T_BLOCKED |>) k)
  end.
Definition sys_alive (k : kernel) : kernel :=
  ret (match task_by_id k (i32 (arg k 0)) with Some _ => 1 | None => 0 end) k.
Definition sys_alarm (now : Z) (k : kernel) : kernel :=
  let ms := i32 (arg k 0) in
  let k1 := upd (cur_slot k) (λ u, u <| alarm_at := if 0 <? ms then u64 (now + ms * 10000) else 0 |>) k in
  ret 0 k1.

(** ** Drivers *)

Definition sys_dma_alloc (k : kernel) : kernel :=
  let '(p, k1) := with_phys pmm_alloc k in
  if p =? 0 then ret (-1) k1
  else
    let c := cur_slot k1 in
    let k2 := if dma_next (cur k1) =? 0 then upd c (λ u, u <| dma_next := DMA_BASE |>) k1 else k1 in
    let va := dma_next (cur k2) in
    let k3 := map_in c va p PGSIZE RWU 0 k2 in
    let k4 := upd c (λ u, u <| dma_next := u64 (va + PGSIZE) |>) k3 in
    let k5 := poke (L_dma L) (le_bytes 8 va ++ le_bytes 8 p) k4 in
    ret 0 (copy_out (arg k 0) (L_dma L) 16 k5).
Definition sys_irq_reg (k : kernel) : kernel :=
  let '(r, k1) := irq_register (i32 (arg k 0)) (cur_slot k) k in ret r k1.
Definition sys_irq_ack (k : kernel) : kernel :=
  let '(r, k1) := irq_ack (i32 (arg k 0)) k in ret r k1.

(** ** Tasks *)

Definition sys_exit (k : kernel) : kernel := schedule (task_retire (cur_slot k) k).
Definition sys_thread (k : kernel) : kernel :=
  let entry := arg k 0 in
  let sp := arg k 1 in
  let a := arg k 2 in
  match alloc_slot k with
  | (None, k0) => ret (-1) k0
  | (Some t, k0) =>
      if (entry =? 0) || (sp =? 0) then ret (-1) k0
      else
        let me := cur k0 in
        let k1 := upd t (λ u, set_reg 10 a (set_reg 2 sp
                    (u <| pt := pt me |>
                       <| ctx := (ctx u) <| satp := satp (ctx me) |> <| epc := entry |>
                                         <| status := SSTATUS_SPIE |> |>
                       <| ns := ns me |> <| brk := brk me |> <| name := name me |>
                       <| state := T_RUNNABLE |>))) k0 in
        ret (tid (task_at k1 t)) k1
  end.
Definition sys_self (k : kernel) : kernel := ret (tid (cur k)) k.
Definition sys_kill (k : kernel) : kernel :=
  match task_by_id k (i32 (arg k 0)) with
  | None => ret (-1) k
  | Some t => if bool_decide (t = cur_slot k) || bool_decide (t = O) then ret (-1) k
              else ret 0 (task_retire t k)
  end.
Definition sys_newtask (k : kernel) : kernel :=
  let nm := copy_string_in (arg k 0) 16 k in
  match task_new_empty L nm k with
  | (Some t, k1) => ret (tid (task_at k1 t)) k1
  | (None, k1) => ret (-1) k1
  end.
(** A task that may still be built: not slot 0, not started, with an
    address space. *)
Definition buildable (k : kernel) (id : Z) : option nat :=
  match task_by_id k id with
  | None => None
  | Some t => if bool_decide (t = O) || negb (bool_decide (state (task_at k t) = T_UNUSED))
                 || (pt (task_at k t) =? 0) then None else Some t
  end.
Definition read_vmload (m : memory) (a : Z) : vmload :=
  mkVmload (load64 m a) (load64 m (a + 8)) (load64 m (a + 16)) (load64 m (a + 24)) (load64 m (a + 32)).
Definition sys_vmload (k : kernel) : kernel :=
  match buildable k (i32 (arg k 0)) with
  | None => ret (-1) k
  | Some t =>
      let k1 := copy_in (L_seg L) (arg k 1) 40 k in
      let seg := read_vmload (mem (phys k1)) (L_seg L) in
      let '(r, k2) := with_phys (vm_load_segment (pt (task_at k1 t)) (pt (cur k1)) seg) k1 in
      ret r k2
  end.
Definition sys_start (k : kernel) : kernel :=
  match buildable k (i32 (arg k 0)) with
  | None => ret (-1) k
  | Some t =>
      let k1 := copy_in (L_si L) (arg k 1) 32 k in
      let m := mem (phys k1) in
      let si i := load64 m (L_si L + 8 * i) in
      let k2 := upd t (λ u, (set_reg 11 (si 3) (set_reg 10 (si 2)
                   (set_reg 2 (if si 1 =? 0 then USTACK_TOP else si 1)
                     (u <| ctx := (ctx u) <| epc := si 0 |> <| status := SSTATUS_SPIE |> |>))))
                   <| state := T_RUNNABLE |>) k1 in
      ret 0 k2
  end.

Definition sys_putc (k : kernel) : kernel := k <| console := uart_putc (arg k 0) (console k) |>.
Definition bad_syscall (num : Z) (k : kernel) : kernel :=
  k <| console := kprintf (str "[warn] task %s: bad syscall %ld" ++ [10])
                    [KStr (name_str k (cur k)); KInt num] (console k) |>.

(** ** The dispatcher *)

Definition syscall_dispatch (now num : Z) (k : kernel) : kernel :=
  if num =? SYS_YIELD then schedule k
  else if num =? SYS_PUTC then sys_putc k
  else if num =? SYS_RESOLVE then sys_resolve k
  else if num =? SYS_TASKINFO then sys_taskinfo k
  else if num =? SYS_MOUNTS then sys_mounts k
  else if num =? SYS_MEMINFO then sys_meminfo k
  else if num =? SYS_UNMOUNT then sys_unmount k
  else if num =? SYS_MOUNT then sys_mount k
  else if num =? SYS_BIND then sys_bind k
  else if num =? SYS_NSCLONE then sys_nsclone k
  else if num =? SYS_WAIT then sys_wait k
  else if num =? SYS_ALIVE then sys_alive k
  else if num =? SYS_ALARM then sys_alarm now k
  else if num =? SYS_DMA_ALLOC then sys_dma_alloc k
  else if num =? SYS_IRQ_REG then sys_irq_reg k
  else if num =? SYS_IRQ_ACK then sys_irq_ack k
  else if num =? SYS_EXIT then sys_exit k
  else if num =? SYS_SBRK then sys_sbrk k
  else if num =? SYS_DEVINFO then sys_devinfo k
  else if num =? SYS_THREAD then sys_thread k
  else if num =? SYS_SELF then sys_self k
  else if num =? SYS_KILL then sys_kill k
  else if num =? SYS_NEWTASK then sys_newtask k
  else if num =? SYS_VMLOAD then sys_vmload k
  else if num =? SYS_START then sys_start k
  else if num =? SYS_PGDUMP then sys_pgdump k
  else
    let '(handled, k1) := ipc_syscall num k in
    if handled then k1 else bad_syscall num k1.
End syscalls.
