(* ===== verification/SysInv.v ===== *)
(** * Every system call keeps the kernel's invariant

    [sys_ok] is the invariant between traps: the task table is consistent
    ([kernel_ok]), the namespace pool has its size and every interrupt
    belongs to a slot of the table.  [quiet] describes the many steps
    that do not touch the table at all. *)
From stdpp Require Import base list numbers option gmap functions.
From S2P Require Import Prelude Mem Riscv Pmm Vm VmMap VmCopy Kernel Task Ipc Vfs Fdt Pci Format.
From S2P Require Import Retire Irq Syscall.
Local Open Scope Z_scope.

Record sys_ok (k : kernel) : Prop := {
  so_table : kernel_ok k;
  so_pool : length (ns_pool k) = VFS_NNS;
  so_owners : owners_ok k }.

(** ** Steps outside the table *)

Record quiet (k k' : kernel) : Prop := {
  qt_tasks : tasks k' = tasks k;
  qt_current : current k' = current k;
  qt_owners : irq_owner k' = irq_owner k;
  qt_pool : length (ns_pool k') = length (ns_pool k);
  qt_parked : parked k' = parked k ∨ parked k' = true }.
#[export] Instance quiet_preorder : PreOrder quiet.
Proof.
  split.
  - intros k. split; auto.
  - intros k1 k2 k3 [A1 A2 A3 A4 A5] [B1 B2 B3 B4 B5]. split; [congruence..|].
    destruct B5 as [->|]; auto.
Qed.

Lemma quiet_ok k k' : quiet k k' → sys_ok k → sys_ok k'.
Proof.
  intros [Q1 Q2 Q3 Q4 Q5] [[T R] P O]. split; [split|congruence|].
  - destruct T as [Q T]. exists Q. by rewrite Q1, Q2.
  - intros Hp. destruct Q5 as [E|E]; [|congruence]. rewrite E in Hp.
    destruct (R Hp) as (c & Hc & Hn & Hs). exists c. unfold task_at in *. by rewrite Q1, Q2.
  - unfold owners_ok in *. by rewrite Q3.
Qed.

Lemma quiet_phys k p : quiet k (k <| phys := p |>).
Proof. split; auto. Qed.
Lemma quiet_with_phys {A} (f : pmm → A * pmm) k : quiet k (with_phys f k).2.
Proof. unfold with_phys. destruct (f (phys k)). apply quiet_phys. Qed.
Lemma quiet_poke a l k : quiet k (poke a l k).
Proof. apply quiet_phys. Qed.
Lemma quiet_copy_out d s n k : quiet k (copy_out d s n k).
Proof. apply quiet_phys. Qed.
Lemma quiet_copy_in d s n k : quiet k (copy_in d s n k).
Proof. apply quiet_phys. Qed.
Lemma quiet_map_in t va pa size perm level k : quiet k (map_in t va pa size perm level k).
Proof. apply quiet_with_phys. Qed.
Lemma quiet_reply a text out cap k : quiet k (reply_text a text out cap k).2.
Proof.
  unfold reply_text. cbn [snd]. destruct (0 <? _); [|apply quiet_poke].
  etrans; [apply quiet_poke|apply quiet_copy_out].
Qed.
Lemma quiet_nss k n : quiet k (k <| nss := n |>).
Proof. split; auto. Qed.
Lemma quiet_ns_get i k : quiet k (ns_get i k).2.
Proof.
  unfold ns_get. destruct (_ =? 0); [|done].
  pose proof (quiet_with_phys pmm_alloc k) as H. destruct (with_phys pmm_alloc k) as [p k1]. cbn [snd] in H.
  assert (quiet k1 (k1 <| ns_pool := <[i := p]> (ns_pool k1) |>)) as H1.
  { split; auto. simpl. apply length_insert. }
  destruct (p =? 0); cbn [snd]; [by etrans|]. etrans; [done|]. etrans; [done|]. apply quiet_nss.
Qed.
Lemma quiet_cur_ns k : quiet k (cur_ns k).2.
Proof.
  unfold cur_ns. destruct (current k) as [c|]; [|apply quiet_ns_get].
  destruct (negb _); [done|apply quiet_ns_get].
Qed.
Lemma quiet_null_ns k : quiet k (null_ns k).2.
Proof. split; auto. Qed.
Lemma quiet_put_mount name flags m k : quiet k (put_mount name flags m k).2.
Proof.
  unfold put_mount. pose proof (quiet_cur_ns k) as H. destruct (cur_ns k) as [p k1]. cbn [snd] in H.
  destruct (p =? 0); [etrans; [done|apply quiet_null_ns]|].
  destruct (insert_at _ _ _) as [[i|] n]; (etrans; [done|]; apply quiet_nss).
Qed.
Lemma quiet_unmount name k : quiet k (vfs_unmount name k).2.
Proof.
  unfold vfs_unmount. pose proof (quiet_cur_ns k) as H. destruct (cur_ns k) as [p k1]. cbn [snd] in H.
  destruct (p =? 0); [etrans; [done|apply quiet_null_ns]|].
  destruct (remove_named _ _ _ _) as [f n]. etrans; [done|]. apply quiet_nss.
Qed.
Lemma quiet_resolve junk path cap nth k : quiet k (vfs_resolve junk path cap nth k).2.
Proof.
  unfold vfs_resolve. pose proof (quiet_cur_ns k) as H. destruct (cur_ns k) as [p k1]. cbn [snd] in H.
  destruct (p =? 0); [etrans; [done|apply quiet_null_ns]|done].
Qed.
Lemma quiet_dump_mounts t cap k : quiet k (vfs_dump_mounts_of t cap k).2.
Proof.
  unfold vfs_dump_mounts_of.
  set (r := match task_by_id k t with Some _ => _ | None => _ end).
  assert (quiet k r.2) as H.
  { unfold r. destruct (task_by_id k t); [|apply quiet_ns_get]. destruct (negb _); [done|apply quiet_ns_get]. }
  destruct r as [p k1]. cbn [snd] in H. destruct (p =? 0); [done|]. by destruct (_ <? _).
Qed.
#[export] Hint Resolve quiet_phys quiet_with_phys quiet_poke quiet_copy_out quiet_copy_in quiet_map_in
  quiet_reply quiet_nss quiet_ns_get quiet_cur_ns quiet_null_ns quiet_put_mount quiet_unmount
  quiet_resolve quiet_dump_mounts : rvos.

(** ** Steps on one task *)

Lemma sys_ok_upd k x f :
  ctl (f (task_at k x)) = ctl (task_at k x) → sys_ok k → sys_ok (upd x f k).
Proof. intros Hc [T P O]. split; [by apply kernel_ok_upd|done|done]. Qed.
Lemma ret_ok v k : sys_ok k → sys_ok (ret v k).
Proof. by apply sys_ok_upd. Qed.
Lemma schedule_pool k : ns_pool (schedule k) = ns_pool k ∧ irq_owner (schedule k) = irq_owner k.
Proof.
  unfold schedule, sched_demote.
  destruct (current k); [destruct (decide _)|]; by destruct (sched_scan _ _ _ _).
Qed.
Lemma sys_ok_schedule k :
  (∃ Q, table_rel (tasks k) (current k) Q) → length (ns_pool k) = VFS_NNS → owners_ok k →
  sys_ok (schedule k).
Proof.
  intros [Q H] P O. destruct (schedule_ok k Q H) as [H1 H2]. destruct (schedule_pool k) as [E1 E2].
  split; [split; [by exists Q|done]|by rewrite E1|]. unfold owners_ok in *. by rewrite E2.
Qed.

(** A slot under construction, or just handed out, may be filled in and
    made runnable. *)
Definition raw_slot (t : nat) (u : task) : Prop :=
  state u = T_UNUSED ∧ tid u = slot_id t (gen u) ∧ wait_for u = 0.
Lemma build_ok k t f :
  sys_ok k → (t < NTASK)%nat → raw_slot t (task_at k t) →
  let u := task_at k t in
  tid (f u) = tid u → gen (f u) = gen u → waiting_recv (f u) = waiting_recv u → wait_for (f u) = wait_for u →
  wait_sender (f u) = wait_sender u → send_next (f u) = send_next u →
  state (f u) = T_UNUSED ∨ state (f u) = T_RUNNABLE →
  sys_ok (upd t f k).
Proof.
  intros [[[Q H] R] P O] Ht (Hs & Hi & Hw). cbn zeta. intros E1 E2 E3 E4 E5 E6 E7.
  destruct (tr_local _ _ _ H t Ht) as [L1 L2 L3 L4 L5 L6 L7]. unfold task_at in *.
  assert (¬ queued Q t) as Hq by (intros Hq; destruct (L1 Hq); congruence).
  assert (waiting_recv (tasks k !!! t) = false) as Hr.
  { destruct (waiting_recv (tasks k !!! t)) eqn:E; [|done]. specialize (L6 eq_refl). congruence. }
  split; [split| |done].
  - exists Q. eapply table_upd; try done.
    split; unfold blocked_sender; rewrite ?E1, ?E2, ?E3, ?E4, ?E6; try done; try congruence.
    + intros _. by apply L3.
    + intros Hrun. destruct E7; congruence.
  - intros Hp. destruct (R Hp) as (c & Hc & Hcn & Hrun). exists c. split_and!; [done|done|].
    rewrite task_at_upd_ne; [done|]. intros ->. unfold task_at in Hrun. congruence.
  - done.
Qed.
Lemma alloc_slot_ok k :
  sys_ok k →
  match alloc_slot k with
  | (Some t, k') => sys_ok k' ∧ (t < NTASK)%nat ∧ raw_slot t (task_at k' t) ∧ current k' = current k
  | (None, k') => k' = k
  end.
Proof.
  intros [[[Q H] R] P O]. pose proof (alloc_slot_spec k Q H) as Ha.
  destruct (alloc_slot k) as [[t|] k']; [|by destruct Ha].
  destruct Ha as (Ht & Hd & Et & Ek & Eo & Htab).
  split; [|split; [done|split; [rewrite Et; done|by rewrite Ek]]].
  split; [split; [by exists Q|]|by rewrite Ek|by rewrite Ek].
  rewrite Ek. intros Hp. destruct (R Hp) as (c & Hc & Hcn & Hrun). exists c.
  split_and!; [done|done|]. change (state (task_at k' c) = T_RUNNING).
  rewrite Eo; [done|]. intros ->. unfold live in Hd. by rewrite Hrun in Hd.
Qed.

(** ** Call by call *)

Lemma quiet_gc k : quiet k (vfs_ns_gc k).
Proof.
  unfold vfs_ns_gc. generalize (seq 1 (VFS_NNS - 1)) as l. intros l. revert k.
  induction l as [|i l IH]; intros k; simpl; [done|]. etrans; [|apply IH].
  unfold gc_slot. destruct (_ =? 0); [done|]. destruct (ns_live _ _); [done|].
  split; auto. simpl. apply length_insert.
Qed.
Lemma retire_pool t k :
  length (ns_pool (task_retire t k)) = length (ns_pool k) ∧ irq_owner (task_retire t k) = irq_owner k.
Proof.
  destruct (retire_wakes_frame t k) as (_ & _ & E).
  assert (irq_owner (retire_wakes t k) = irq_owner k) as Eo by reflexivity.
  unfold task_retire. rewrite <- E, <- Eo. generalize (retire_wakes t k) as k1. intros k1.
  unfold retire_release. destruct (pt_shared k1 t).
  - set (k2 := upd t _ _). destruct (quiet_gc k2) as [_ _ Ho Hp _]. by rewrite Hp, Ho.
  - pose proof (quiet_with_phys (vm_free_task (pt (task_at k1 t))) k1) as [_ _ Ho1 Hp1 _].
    destruct (with_phys _ k1) as [p k']. cbn [snd] in *.
    set (k2 := upd t _ _). destruct (quiet_gc k2) as [_ _ Ho Hp _]. rewrite Hp, Ho.
    unfold k2. cbn. by rewrite Hp1, Ho1.
Qed.
Lemma retire_sys_ok t k :
  sys_ok k → (t < NTASK)%nat → live (task_at k t) = true → tid (task_at k t) ≠ 0 →
  current k ≠ Some t → sys_ok (task_retire t k).
Proof.
  intros [T P O] Ht Hl Hid Hc. destruct (retire_pool t k) as [E1 E2].
  split; [by apply task_retire_ok|by rewrite E1|]. unfold owners_ok in *. by rewrite E2.
Qed.
Lemma exit_sys_ok t k :
  sys_ok k → (t < NTASK)%nat → live (task_at k t) = true → tid (task_at k t) ≠ 0 →
  sys_ok (schedule (task_retire t k)).
Proof.
  intros [[[Q H] R] P O] Ht Hl Hid. destruct (retire_pool t k) as [E1 E2].
  destruct (task_retire_spec t k Q H P Ht Hl Hid) as (Q' & T1 & _).
  apply sys_ok_schedule; [by exists Q'|by rewrite E1|]. unfold owners_ok in *. by rewrite E2.
Qed.

Lemma ns_clone_ok k : sys_ok k → sys_ok (vfs_ns_clone k).2.
Proof.
  intros Hok. unfold vfs_ns_clone. destruct (current k) as [c|]; [|done].
  pose proof (quiet_cur_ns k) as H1. destruct (cur_ns k) as [mine k1]. cbn [snd] in H1.
  apply (quiet_ok _ _ H1) in Hok. destruct (find_from _ _ _) as [i|]; [|done].
  pose proof (quiet_ns_get i k1) as H2. destruct (ns_get i k1) as [p k2]. cbn [snd] in H2.
  apply (quiet_ok _ _ H2) in Hok. destruct (p =? 0); [done|]. cbn [snd].
  apply sys_ok_upd; [done|]. eapply quiet_ok; [apply quiet_nss|done].
Qed.

(** A slot being filled stays raw through steps outside the table and
    through [f]s that keep the fields [raw_slot] looks at. *)
Lemma raw_quiet k k' t : quiet k k' → raw_slot t (task_at k t) → raw_slot t (task_at k' t).
Proof. intros [E _ _ _ _]. unfold task_at. by rewrite E. Qed.
Lemma raw_upd k t f :
  sys_ok k → (t < NTASK)%nat → raw_slot t (task_at k t) → (∀ u, ctl (f u) = ctl u) →
  raw_slot t (task_at (upd t f k) t).
Proof.
  intros [[[Q H] _] _ _] Ht Hr Hf. rewrite task_at_upd by (rewrite (tr_len _ _ _ H); done).
  specialize (Hf (task_at k t)). unfold ctl in Hf. injection Hf as E1 E2 E3 E4 E5 E6 E7 E8.
  unfold raw_slot in *. by rewrite E1, E3, E4, E6.
Qed.
Lemma map_heap_page_ok t perm k :
  sys_ok k → (t < NTASK)%nat → raw_slot t (task_at k t) →
  sys_ok (map_heap_page t perm k) ∧ raw_slot t (task_at (map_heap_page t perm k) t).
Proof.
  intros Hok Ht Hr. unfold map_heap_page. pose proof (quiet_with_phys pmm_alloc k) as H1.
  destruct (with_phys pmm_alloc k) as [p k1]. cbn [snd] in H1.
  destruct (p =? 0); [by eauto using quiet_ok, raw_quiet|].
  assert (quiet k (map_in t UHEAP_BASE p PGSIZE perm 0 k1)) as H2 by (etrans; [done|apply quiet_map_in]).
  pose proof (quiet_ok _ _ H2 Hok). pose proof (raw_quiet _ _ _ H2 Hr).
  split; [by apply sys_ok_upd|by apply raw_upd].
Qed.
Lemma quiet_map_stack t perm k : quiet k (map_stack t perm k).
Proof.
  unfold map_stack. generalize (seq 0 (Z.to_nat USTACK_PAGES)) as l. intros l. revert k.
  induction l as [|i l IH]; intros k; simpl; [done|]. etrans; [|apply IH].
  unfold map_stack_page. pose proof (quiet_with_phys pmm_alloc k) as H.
  destruct (with_phys pmm_alloc k) as [p k1]. etrans; [exact H|apply quiet_map_in].
Qed.
Lemma raw_set_pt k t p :
  sys_ok k → (t < NTASK)%nat → raw_slot t (task_at k t) →
  sys_ok (upd t (λ u, u <| pt := p |>) k) ∧ raw_slot t (task_at (upd t (λ u, u <| pt := p |>) k) t).
Proof.
  intros Hok Ht Hr. split; [apply build_ok; try done; left; apply Hr|].
  destruct Hok as [[[Q H] _] _ _]. by rewrite task_at_upd by (rewrite (tr_len _ _ _ H); done).
Qed.
Lemma task_new_empty_ok L nm k : sys_ok k → sys_ok (task_new_empty L nm k).2.
Proof.
  intros Hok. unfold task_new_empty. pose proof (alloc_slot_ok k Hok) as Ha.
  destruct (alloc_slot k) as [[t|] k0]; [|by subst]. destruct Ha as (Hok0 & Ht & Hr & _).
  pose proof (quiet_with_phys (vm_create_task_pt (L_end L)) k0) as H1.
  destruct (with_phys _ k0) as [p k1]. cbn [snd] in H1.
  destruct (raw_set_pt k1 t p (quiet_ok _ _ H1 Hok0) Ht (raw_quiet _ _ _ H1 Hr)) as [Hok2 Hr2].
  destruct (p =? 0); [done|]. set (k2 := upd t _ k1) in *.
  pose proof (quiet_map_stack t RWU k2) as H3.
  destruct (map_heap_page_ok t RWU (map_stack t RWU k2)) as [Hok3 Hr3];
    [by eapply quiet_ok|done|by eapply raw_quiet|].
  revert Hok3 Hr3. generalize (map_heap_page t RWU (map_stack t RWU k2)) as k3. intros k3 Hok3 Hr3.
  clear k2 H3 Hok2 Hr2. set (k4 := upd t _ k3).
  assert (sys_ok k4) as Hok4 by (by apply sys_ok_upd).
  assert (raw_slot t (task_at k4 t)) as Hr4 by (by apply raw_upd).
  set (r := match current k4 with Some _ => _ | None => _ end).
  assert (quiet k4 r.2) as H5 by (unfold r; destruct (current k4); [done|apply quiet_ns_get]).
  destruct r as [n k5]. cbn [snd] in *. apply build_ok; try done; [by eapply quiet_ok|by eapply raw_quiet|by left].
Qed.

Lemma share_brk_loop_ok c want l k :
  sys_ok k → sys_ok (foldl (λ k i, upd i (share_brk want (pt (task_at k c))) k) k l).
Proof.
  revert k. induction l as [|i l IH]; intros k Hok; simpl; [done|].
  apply IH, sys_ok_upd; [|done]. unfold share_brk. by destruct (_ && _).
Qed.
Lemma sbrk_finish_ok c old want k : sys_ok k → sys_ok (sbrk_finish c old want k).
Proof.
  intros Hok. unfold sbrk_finish. cbn zeta. apply (share_brk_loop_ok c want (seq 0 NTASK)) in Hok.
  revert Hok. generalize (foldl (λ k i, upd i (share_brk want (pt (task_at k c))) k) k (seq 0 NTASK)) as k1.
  intros k1 Hok. by apply sys_ok_upd.
Qed.
Lemma sbrk_ok k : sys_ok k → sys_ok (sys_sbrk k).
Proof.
  intros Hok. unfold sys_sbrk.
  assert (sys_ok (if brk (cur k) =? 0 then upd (cur_slot k) (λ u, u <| brk := UHEAP_BASE |>) k else k)) as Hok1.
  { destruct (_ =? 0); [by apply sys_ok_upd|done]. }
  set (k1 := if brk (cur k) =? 0 then _ else _) in *. destruct (0 <? _).
  - destruct (_ || _); [by apply sys_ok_upd|]. destruct (sbrk_grow _ _ _ _ _) as [a s].
    destruct (a <? _).
    + apply sys_ok_upd; [done|]. eapply quiet_ok; [|exact Hok1].
      etrans; [apply quiet_phys|apply quiet_phys].
    + apply sbrk_finish_ok. eapply quiet_ok; [apply quiet_phys|done].
  - destruct (_ <? 0); [|by apply sbrk_finish_ok].
    apply sbrk_finish_ok. eapply quiet_ok; [apply quiet_phys|done].
Qed.

(** The IPC calls touch neither the pool nor the owners. *)
Lemma ipc_pool num k :
  ns_pool (ipc_syscall num k).2 = ns_pool k ∧ irq_owner (ipc_syscall num k).2 = irq_owner k.
Proof.
  assert (∀ a b c d e f k, ns_pool (deliver a b c d e f k).2 = ns_pool k ∧
            irq_owner (deliver a b c d e f k).2 = irq_owner k) as Hd.
  { intros. rewrite deliver_frame. done. }
  assert (∀ nb, ns_pool (ipc_send nb k) = ns_pool k ∧ irq_owner (ipc_send nb k) = irq_owner k) as Hs.
  { intros nb. unfold ipc_send. destruct (task_by_id _ _) as [dst|]; [|done].
    case_bool_decide; [done|]. case_bool_decide; [done|]. destruct (wants _ _).
    - specialize (Hd (cur k) (A1 (cur k)) (i32 (A2 (cur k))) (task_at k dst)
                    (recv_va (task_at k dst)) (recv_len (task_at k dst)) k).
      destruct (deliver _ _ _ _ _ _ _) as [r k1]. by destruct (r <? 0).
    - destruct nb; [done|]. cbn zeta. set (k3 := upd (cur_slot k) (λ t, t <| state := T_BLOCKED |>) _).
      by destruct (schedule_pool k3) as [-> ->]. }
  assert (∀ cl a b w, ns_pool (ipc_recv_queue cl a b w k) = ns_pool k ∧
            irq_owner (ipc_recv_queue cl a b w k) = irq_owner k) as Hq.
  { intros. unfold ipc_recv_queue. destruct (dequeue_sender _ _ _ _) as [[s|] ts].
    - cbn zeta. set (k1 := k <| tasks := ts |>).
      specialize (Hd (task_at k1 s) (send_va (task_at k1 s)) (send_len (task_at k1 s))
                    (task_at k1 (cur_slot k)) a b k1).
      destruct (deliver _ _ _ _ _ _ _) as [r k2]. by destruct (r <? 0).
    - set (k3 := upd _ _ _). by destruct (schedule_pool k3) as [-> ->]. }
  assert (∀ cl, ns_pool (ipc_recv cl k) = ns_pool k ∧ irq_owner (ipc_recv cl k) = irq_owner k) as Hr.
  { intros []; unfold ipc_recv.
    - destruct (task_by_id _ _); [apply Hq|done].
    - destruct (irq_pending _); [done|]. destruct (timer_pending _); [done|apply Hq]. }
  unfold ipc_syscall. repeat (destruct (num =? _); [apply Hs || apply Hr|]). done.
Qed.
Lemma ipc_syscall_sys_ok num k : sys_ok k → parked k = false → sys_ok (ipc_syscall num k).2.
Proof.
  intros [T P O] Hp. destruct (ipc_pool num k) as [E1 E2].
  split; [by apply ipc_syscall_ok|by rewrite E1|]. unfold owners_ok in *. by rewrite E2.
Qed.

Section dispatch.
Context (L : layout) (dt : fdt) (found : list pci_fn).

(** [ret] after steps outside the table. *)
Lemma ret_quiet v k k' : quiet k k' → sys_ok k → sys_ok (ret v k').
Proof. intros. by eapply ret_ok, quiet_ok. Qed.

Lemma wait_ok k : sys_ok k → parked k = false → sys_ok (sys_wait k).
Proof.
  intros Hok Hp. unfold sys_wait. destruct (task_by_id _ _); [|by apply ret_ok].
  destruct Hok as [T P O]. destruct (cur_running k T Hp) as (c & Hc & -> & Hcn & Hst).
  destruct T as [[Q H] R]. destruct (running_quiet _ _ _ _ H Hcn Hst) as (Hw & _ & _ & Hq).
  set (f := λ u, u <| wait_for := i32 (arg k 0) |> <| state := T_BLOCKED |>).
  destruct (kernel_ok_block k Q c f H Hcn Hq Hst) as [T' _]; try done.
  destruct (schedule_pool (upd c f k)) as [E1 E2].
  split; [done|by rewrite E1|]. unfold owners_ok in *. by rewrite E2.
Qed.
Lemma dma_alloc_ok k : sys_ok k → sys_ok (sys_dma_alloc L k).
Proof.
  intros Hok. unfold sys_dma_alloc. pose proof (quiet_with_phys pmm_alloc k) as H1.
  destruct (with_phys pmm_alloc k) as [p k1]. cbn [snd] in H1. apply (quiet_ok _ _ H1) in Hok.
  destruct (p =? 0); [by apply ret_ok|].
  set (k2 := if dma_next (cur k1) =? 0 then _ else _).
  assert (sys_ok k2) as Hok2 by (unfold k2; destruct (_ =? 0); [by apply sys_ok_upd|done]).
  eapply ret_quiet; [|apply sys_ok_upd; [|eapply quiet_ok; [apply quiet_map_in|exact Hok2]]].
  - etrans; [apply quiet_poke|apply quiet_copy_out].
  - done.
Qed.
Lemma irq_reg_ok k : sys_ok k → parked k = false → sys_ok (sys_irq_reg k).
Proof.
  intros Hok Hp. unfold sys_irq_reg, irq_register. destruct (_ || _); [by apply ret_ok|].
  apply ret_ok. destruct Hok as [T P [O1 O2]].
  destruct (cur_running k T Hp) as (c & Hc & -> & Hcn & _).
  split; [by apply (kernel_ok_ext k)|done|]. split; [by rewrite <- O1; apply length_insert|].
  apply Forall_insert; [done|]. intros t [= <-]. done.
Qed.
Lemma irq_ack_ok k : sys_ok k → sys_ok (sys_irq_ack k).
Proof.
  intros Hok. unfold sys_irq_ack, irq_ack. destruct (_ || _ || _); [by apply ret_ok|].
  eapply ret_quiet; [|exact Hok]. split; auto.
Qed.
Lemma thread_ok k : sys_ok k → sys_ok (sys_thread k).
Proof.
  intros Hok. unfold sys_thread. pose proof (alloc_slot_ok k Hok) as Ha.
  destruct (alloc_slot k) as [[t|] k0]; [|subst; by apply ret_ok]. destruct Ha as (Hok0 & Ht & Hr & _).
  destruct (_ || _); [by apply ret_ok|]. apply ret_ok. apply build_ok; try done. by right.
Qed.
Lemma kill_ok k : sys_ok k → parked k = false → sys_ok (sys_kill k).
Proof.
  intros Hok Hp. unfold sys_kill. destruct (task_by_id _ _) as [t|] eqn:E; [|by apply ret_ok].
  destruct (bool_decide (t = cur_slot k)) eqn:Ec; [by apply ret_ok|].
  destruct (bool_decide (t = 0%nat)) eqn:E0; cbn [orb]; [by apply ret_ok|].
  apply bool_decide_eq_false in Ec, E0. apply ret_ok. pose proof Hok as [[[Q H] R] P O].
  apply (task_by_id_Some _ _ _ _ _ H) in E as (Ht & Hl & _).
  apply retire_sys_ok; [done|done|done| |].
  - pose proof (lo_id _ _ _ _ _ (tr_local _ _ _ H t Ht) Hl) as Hid. unfold task_at. rewrite Hid.
    intros Hz. apply (f_equal TASK_SLOT) in Hz. rewrite TASK_SLOT_id in Hz by slot_lia.
    change (TASK_SLOT 0) with 0 in Hz. lia.
  - intros Hc. unfold cur_slot in Ec. by rewrite Hc in Ec.
Qed.
Lemma buildable_raw k id t :
  sys_ok k → buildable k id = Some t → (t < NTASK)%nat ∧ raw_slot t (task_at k t).
Proof.
  intros [[[Q H] R] P O]. unfold buildable. destruct (task_by_id _ _) as [t'|] eqn:E; [|done].
  destruct (_ || _ || _) eqn:Eb; [done|]. intros [= <-].
  apply orb_false_iff in Eb as [Eb _]. apply orb_false_iff in Eb as [_ Es].
  apply negb_false_iff, bool_decide_eq_true in Es.
  apply (task_by_id_Some _ _ _ _ _ H) in E as (Ht & Hl & _). split; [done|].
  pose proof (tr_local _ _ _ H t' Ht) as [_ _ _ L4 _ _ L7]. unfold task_at in *.
  split_and!; [done|by apply L4|]. destruct (decide (wait_for (tasks k !!! t') = 0)) as [|Hw]; [done|].
  destruct (L7 Hl Hw). congruence.
Qed.
Lemma start_ok k : sys_ok k → sys_ok (sys_start L k).
Proof.
  intros Hok. unfold sys_start. destruct (buildable _ _) as [t|] eqn:E; [|by apply ret_ok].
  apply buildable_raw in E as [Ht Hr]; [|done]. cbn zeta. apply ret_ok.
  pose proof (quiet_copy_in (L_si L) (arg k 1) 32 k) as H1. revert H1.
  generalize (copy_in (L_si L) (arg k 1) 32 k) as k1. intros k1 H1.
  apply build_ok; try done; [by eapply quiet_ok|by eapply raw_quiet|by right].
Qed.
Lemma vmload_ok k : sys_ok k → sys_ok (sys_vmload L k).
Proof.
  intros Hok. unfold sys_vmload. destruct (buildable _ _) as [t|]; [|by apply ret_ok]. cbn zeta.
  pose proof (quiet_copy_in (L_seg L) (arg k 1) 40 k) as H1. revert H1.
  generalize (copy_in (L_seg L) (arg k 1) 40 k) as k1. intros k1 H1.
  pose proof (quiet_with_phys (vm_load_segment (pt (task_at k1 t)) (pt (cur k1))
                (read_vmload (mem (phys k1)) (L_seg L))) k1) as H2.
  destruct (with_phys _ k1) as [r k2]. eapply ret_quiet; [|exact Hok]. by etrans.
Qed.
Lemma devinfo_ok k : sys_ok k → sys_ok (sys_devinfo L dt found k).
Proof.
  intros Hok. unfold sys_devinfo. destruct (_ =? DEVINFO_KERNEL).
  - destruct (_ || _); [by apply ret_ok|]. eapply ret_quiet; [apply quiet_copy_out|done].
  - cbn zeta. destruct (if _ =? DEVINFO_TREE then _ else _) as [text|]; [|by apply ret_ok].
    pose proof (quiet_reply (L_devinfo L) text (arg k 2) (i32 (arg k 3)) k) as H.
    destruct (reply_text _ _ _ _ _) as [n k1]. by eapply ret_quiet.
Qed.
Lemma resolve_ok k : sys_ok k → sys_ok (sys_resolve L k).
Proof.
  intros Hok. unfold sys_resolve. cbn zeta.
  pose proof (quiet_resolve (L_junk L) (copy_string_in (arg k 0) VFS_PATH_MAX k) (Z.of_nat VFS_PATH_MAX)
                (i32 (arg k 3)) k) as H1.
  destruct (vfs_resolve _ _ _ _ _) as [[srv kout] k1]. cbn [snd] in H1.
  eapply ret_quiet; [|exact Hok]. etrans; [exact H1|]. destruct kout as [nm|]; [|done].
  pose proof (quiet_poke (L_kout L) (nm ++ [0]) k1) as H2.
  destruct (_ && _); [|done]. destruct (0 <? _); [|done]. etrans; [exact H2|apply quiet_copy_out].
Qed.
Lemma taskinfo_ok k : sys_ok k → sys_ok (sys_taskinfo L k).
Proof.
  intros Hok. unfold sys_taskinfo. destruct (_ || _ || _); [by apply ret_ok|].
  destruct (ipc_info _ _) as [[ipc peer] msglen]. eapply ret_quiet; [|exact Hok].
  etrans; [apply quiet_poke|]. etrans; [apply quiet_poke|]. etrans; [apply quiet_poke|apply quiet_copy_out].
Qed.

Lemma mounts_ok k : sys_ok k → sys_ok (sys_mounts L k).
Proof.
  intros Hok. unfold sys_mounts. cbn zeta. set (t := if i32 (arg k 0) <? 0 then tid (cur k) else i32 (arg k 0)).
  pose proof (quiet_dump_mounts t 512 k) as H1. destruct (vfs_dump_mounts_of t 512 k) as [text k1].
  pose proof (quiet_reply (L_mounts L) text (arg k 1) (i32 (arg k 2)) k1) as H2.
  destruct (reply_text _ _ _ _ _) as [n k2]. eapply ret_quiet; [|exact Hok]. by etrans.
Qed.
Lemma unmount_ok k : sys_ok k → sys_ok (sys_unmount k).
Proof.
  intros Hok. unfold sys_unmount. pose proof (quiet_unmount (copy_string_in (arg k 0) VFS_PREFIX_MAX k) k) as H1.
  destruct (vfs_unmount _ _) as [r k1]. by eapply ret_quiet.
Qed.
Lemma put_mount_ok nm flags m k : sys_ok k → sys_ok (let '(r, k1) := put_mount nm flags m k in ret r k1).
Proof.
  intros Hok. pose proof (quiet_put_mount nm flags m k) as H1.
  destruct (put_mount _ _ _ _) as [r k1]. by eapply ret_quiet.
Qed.
Lemma nsclone_ok k : sys_ok k → sys_ok (sys_nsclone k).
Proof.
  intros Hok. unfold sys_nsclone. pose proof (ns_clone_ok k Hok) as H1.
  destruct (vfs_ns_clone k) as [r k1]. by apply ret_ok.
Qed.
Lemma sys_exit_ok k : sys_ok k → parked k = false → tid (cur k) ≠ 0 → sys_ok (sys_exit k).
Proof.
  intros Hok Hp Hex. destruct (cur_running k (so_table _ Hok) Hp) as (c & Hc & Hcs & Hcn & Hst).
  unfold sys_exit. unfold cur in Hex. rewrite Hcs in *.
  apply exit_sys_ok; [done|done|unfold live; by rewrite Hst|done].
Qed.
Lemma newtask_ok k : sys_ok k → sys_ok (sys_newtask L k).
Proof.
  intros Hok. unfold sys_newtask. cbn zeta. set (nm := copy_string_in _ _ _).
  pose proof (task_new_empty_ok L nm k Hok) as H1. destruct (task_new_empty L nm k) as [[t|] k1]; by apply ret_ok.
Qed.
Lemma pgdump_ok k : sys_ok k → sys_ok (sys_pgdump L k).
Proof.
  intros Hok. unfold sys_pgdump. cbn zeta. match goal with |- context [vm_dump_walk_in _ ?q _ _] => set (p := q) end.
  pose proof (quiet_reply (L_pgdump L) (vm_dump_walk_in (mem (phys k)) p (arg k 1) 512) (arg k 2)
                (i32 (arg k 3)) k) as H1.
  destruct (reply_text _ _ _ _ _) as [n k1]. by eapply ret_quiet.
Qed.

(** Every call keeps the invariant, except that the task with identifier
    0 must not exit. *)
Lemma syscall_dispatch_ok now num k :
  sys_ok k → parked k = false → (num = SYS_EXIT → tid (cur k) ≠ 0) →
  sys_ok (syscall_dispatch L dt found now num k).
Proof.
  intros Hok Hp Hex. unfold syscall_dispatch.
  destruct (num =? SYS_YIELD); [apply sys_ok_schedule; apply Hok|].
  destruct (num =? SYS_PUTC); [eapply quiet_ok; [|exact Hok]; split; auto|].
  destruct (num =? SYS_RESOLVE); [by apply resolve_ok|].
  destruct (num =? SYS_TASKINFO); [by apply taskinfo_ok|].
  destruct (num =? SYS_MOUNTS); [by apply mounts_ok|].
  destruct (num =? SYS_MEMINFO).
  { eapply ret_quiet; [|exact Hok]. etrans; [apply quiet_poke|apply quiet_copy_out]. }
  destruct (num =? SYS_UNMOUNT); [by apply unmount_ok|].
  destruct (num =? SYS_MOUNT); [by apply put_mount_ok|].
  destruct (num =? SYS_BIND); [by apply put_mount_ok|].
  destruct (num =? SYS_NSCLONE); [by apply nsclone_ok|].
  destruct (num =? SYS_WAIT); [by apply wait_ok|].
  destruct (num =? SYS_ALIVE); [by apply ret_ok|].
  destruct (num =? SYS_ALARM); [apply ret_ok; by apply sys_ok_upd|].
  destruct (num =? SYS_DMA_ALLOC); [by apply dma_alloc_ok|].
  destruct (num =? SYS_IRQ_REG); [by apply irq_reg_ok|].
  destruct (num =? SYS_IRQ_ACK); [by apply irq_ack_ok|].
  destruct (Z.eqb_spec num SYS_EXIT) as [E|_]; [by apply sys_exit_ok; auto|].
  destruct (num =? SYS_SBRK); [by apply sbrk_ok|].
  destruct (num =? SYS_DEVINFO); [by apply devinfo_ok|].
  destruct (num =? SYS_THREAD); [by apply thread_ok|].
  destruct (num =? SYS_SELF); [by apply ret_ok|].
  destruct (num =? SYS_KILL); [by apply kill_ok|].
  destruct (num =? SYS_NEWTASK); [by apply newtask_ok|].
  destruct (num =? SYS_VMLOAD); [by apply vmload_ok|].
  destruct (num =? SYS_START); [by apply start_ok|].
  destruct (num =? SYS_PGDUMP); [by apply pgdump_ok|].
  pose proof (ipc_syscall_sys_ok num k Hok Hp) as H1.
  destruct (ipc_syscall num k) as [handled k1]. destruct handled; [done|].
  eapply quiet_ok; [|exact H1]. split; auto.
Qed.
End dispatch.
