(* ===== verification/Trap.v ===== *)
(** * Traps (src/src/trap.c: strap_handler; src/src/entry.S)

    The supervisor trap vector saves the running task's registers,
    [strap_handler] decides what happened, and whoever is current
    afterwards is resumed.  What the hardware supplies at a trap - the
    cause, the faulting address, the time, the claim register and the
    saved registers - is the input [trap_in]. *)
From stdpp Require Import base list numbers option gmap functions relations.
From S2P Require Import Prelude Mem Riscv Pmm Vm VmMap VmCopy Kernel Task Ipc Vfs Fdt Pci Format.
From S2P Require Import Retire Irq Syscall SysInv.
Local Open Scope Z_scope.

Definition CAUSE_INT : Z := Z.shiftl 1 63.
Definition IRQ_S_TIMER : Z := 5.
Definition IRQ_S_EXTERNAL : Z := 9.
Definition EXC_INST_PAGE_FAULT : Z := 12.
Definition EXC_LOAD_PAGE_FAULT : Z := 13.
Definition EXC_STORE_PAGE_FAULT : Z := 15.
Definition EXC_ECALL_U : Z := 8.
Definition EXC_ECALL_S : Z := 9.

Definition cause_name (c : Z) : list Z :=
  if c =? EXC_INST_PAGE_FAULT then str "instruction page fault"
  else if c =? EXC_LOAD_PAGE_FAULT then str "load page fault"
  else if c =? EXC_STORE_PAGE_FAULT then str "store page fault"
  else if c =? 2 then str "illegal instruction"
  else if c =? 5 then str "load access fault"
  else if c =? 7 then str "store access fault"
  else str "exception".

(** One trap: the registers and memory the task left behind, and the
    answers of the hardware. *)
Record trap_in := mkTrapIn
  { ti_xs : gmap nat Z; ti_epc : Z; ti_status : Z; ti_mem : memory;
    ti_scause : Z; ti_stval : Z; ti_time : Z; ti_claim : Z }.

Definition is_interrupt (scause : Z) : bool := negb (Z.land scause CAUSE_INT =? 0).
Definition is_ecall (scause : Z) : bool := (scause =? EXC_ECALL_S) || (scause =? EXC_ECALL_U).

(** The three lines printed about a fault. *)
Definition report_fault (i : trap_in) (k : kernel) : kernel :=
  let who := match current k with Some _ => name_str k (cur k) | None => str "?" end in
  let pc := match current k with Some _ => epc (ctx (cur k)) | None => 0 end in
  let out := kprintf ([10] ++ str "[trap] %s in task '%s'" ++ [10])
               [KStr (cause_name (ti_scause i)); KStr who] (console k) in
  let out := kprintf (str "       scause=%ld  stval=0x%lx  sepc=0x%lx" ++ [10])
               [KInt (ti_scause i); KInt (ti_stval i); KInt pc] out in
  k <| console := kprintf (str "       -> the MMU refused it; retiring the task" ++ [10; 10]) [] out |>.

Section trap.
Context (L : layout) (dt : fdt) (found : list pci_fn).

Definition strap_handler (i : trap_in) (k : kernel) : kernel :=
  let scause := ti_scause i in
  if is_interrupt scause then
    if Z.land scause 0xff =? IRQ_S_TIMER then
      schedule (alarms_check (ti_time i) (timer_rearm (ti_time i) k))
    else if Z.land scause 0xff =? IRQ_S_EXTERNAL then device_interrupt (ti_claim i) k
    else k
  else if is_ecall scause then
    let k1 := upd (cur_slot k) (λ t, t <| ctx := (ctx t) <| epc := u64 (epc (ctx t) + 4) |> |>) k in
    syscall_dispatch L dt found (ti_time i) (reg (cur k1) 17) k1
  else
    let k1 := report_fault i k in
    schedule (match current k1 with Some c => task_retire c k1 | None => k1 end).

(** [_strap]: the task ran - its registers and the memory are whatever it
    made of them - and everything but [satp] is saved into its context. *)
Definition save_regs (i : trap_in) (t : task) : task :=
  t <| ctx := (ctx t) <| xs := ti_xs i |> <| epc := ti_epc i |> <| status := ti_status i |> |>.
Definition trap_save (i : trap_in) (k : kernel) : kernel :=
  (upd (cur_slot k) (save_regs i) k)
    <| phys := (phys k) <| mem := ti_mem i |> |>.

(** What ends the current task: its own exit, or a fault. *)
Definition ends_current (i : trap_in) : bool :=
  negb (is_interrupt (ti_scause i)) &&
  (if is_ecall (ti_scause i) then default 0 (ti_xs i !! 17%nat) =? SYS_EXIT else true).

(** One trap of the machine.  Nothing happens once the kernel has parked,
    and the file server - the only task with identifier 0 - is not
    allowed to end. *)
Inductive trap : kernel → kernel → Prop :=
  | trap_taken i k :
      parked k = false →
      (ends_current i = true → tid (cur k) ≠ 0) →
      trap k (strap_handler i (trap_save i k)).

(** ** The invariant *)

Lemma trap_save_ok i k : sys_ok k → sys_ok (trap_save i k).
Proof.
  intros Hok. unfold trap_save. eapply quiet_ok; [apply quiet_phys|]. by apply sys_ok_upd.
Qed.
Lemma report_quiet i k : quiet k (report_fault i k).
Proof. split; auto. Qed.
Lemma device_interrupt_pool claim k :
  ns_pool (device_interrupt claim k) = ns_pool k ∧ irq_owner (device_interrupt claim k) = irq_owner k.
Proof.
  unfold device_interrupt. destruct (_ =? 0); [done|]. destruct (if _ : bool then _ else _) as [t|]; [|done].
  by destruct (bool_decide _).
Qed.
Lemma alarms_check_pool now k :
  ns_pool (alarms_check now k) = ns_pool k ∧ irq_owner (alarms_check now k) = irq_owner k.
Proof.
  unfold alarms_check. generalize (seq 0 NTASK) as l. intros l. revert k.
  induction l as [|x l IH]; intros k; simpl; [done|]. by destruct (IH (upd x (alarm_task now) k)).
Qed.

Lemma strap_handler_ok i k :
  sys_ok k → parked k = false →
  (is_interrupt (ti_scause i) = false →
   (if is_ecall (ti_scause i) then reg (cur k) 17 = SYS_EXIT else True) → tid (cur k) ≠ 0) →
  sys_ok (strap_handler i k).
Proof.
  intros Hok Hp Hend. pose proof Hok as [T P O]. unfold strap_handler. cbn zeta.
  destruct (is_interrupt _) eqn:Ei; [|specialize (Hend eq_refl); destruct (is_ecall _) eqn:Ee].
  - destruct (_ =? IRQ_S_TIMER).
    + set (k1 := timer_rearm _ _). assert (kernel_ok k1) as T1 by (by apply (kernel_ok_ext k)).
      apply (alarms_check_ok (ti_time i)) in T1. destruct (alarms_check_pool (ti_time i) k1) as [E1 E2].
      apply sys_ok_schedule; [apply T1|by rewrite E1|]. unfold owners_ok in *. by rewrite E2.
    + destruct (_ =? IRQ_S_EXTERNAL); [|done]. destruct (device_interrupt_pool (ti_claim i) k) as [E1 E2].
      split; [by apply device_interrupt_ok|by rewrite E1|]. unfold owners_ok in *. by rewrite E2.
  - set (k1 := upd _ _ k).
    assert (sys_ok k1) as Hok1 by (by apply sys_ok_upd).
    destruct (cur_running k T Hp) as (c & Hc & Hcs & Hcn & Hst).
    assert (cur k1 = (cur k) <| ctx := (ctx (cur k)) <| epc := u64 (epc (ctx (cur k)) + 4) |> |>) as E.
    { unfold cur, k1. change (cur_slot (upd _ _ k)) with (cur_slot k). rewrite Hcs.
      destruct T as [[Q H] _]. rewrite task_at_upd; [done|]. by rewrite (tr_len _ _ _ H). }
    apply syscall_dispatch_ok; [done|done|]. rewrite E. intros Hx. by apply Hend.
  - specialize (Hend I). pose proof (quiet_ok _ _ (report_quiet i k) Hok) as Hok1.
    assert (current (report_fault i k) = current k ∧ tasks (report_fault i k) = tasks k) as [E1 E2] by done.
    revert Hok1 E1 E2. generalize (report_fault i k) as k1. intros k1 Hok1 E1 E2.
    destruct (cur_running k T Hp) as (c & Hc & Hcs & Hcn & Hst). rewrite E1, Hc.
    unfold cur in Hend. rewrite Hcs in Hend. unfold task_at in *. rewrite <- E2 in *.
    apply exit_sys_ok; [done|done|unfold live, task_at; by rewrite Hst|done].
Qed.
Lemma trap_ok k k' : trap k k' → sys_ok k → sys_ok k'.
Proof.
  intros [i k0 Hp Hend] Hok. apply strap_handler_ok; [by apply trap_save_ok|done|].
  destruct (cur_running k0 (so_table _ Hok) Hp) as (c & Hc & Hcs & Hcn & _).
  assert (cur (trap_save i k0) = save_regs i (cur k0)) as E.
  { unfold cur. change (cur_slot (trap_save i k0)) with (cur_slot k0). rewrite Hcs.
    change (task_at (trap_save i k0) c) with (task_at (upd (cur_slot k0) (save_regs i) k0) c). rewrite Hcs.
    destruct (so_table _ Hok) as [[Q H] _]. rewrite task_at_upd; [done|]. by rewrite (tr_len _ _ _ H). }
  rewrite E. intros Hi Hx. apply Hend. unfold ends_current. rewrite Hi. cbn [negb andb].
  destruct (is_ecall _); [|done]. unfold reg in Hx. simpl in Hx. rewrite Hx. done.
Qed.
Lemma traps_ok k k' : rtc trap k k' → sys_ok k → sys_ok k'.
Proof. induction 1; eauto using trap_ok. Qed.
End trap.

(** ** Properties *)


Definition demo_layout : layout := mkLayout RAM_BASE 0 0 0 0 0 0 0 0 0 0 0 0 [].
Definition demo_tick : trap_in := mkTrapIn ∅ 0 0 ∅ (Z.lor CAUSE_INT IRQ_S_TIMER) 0 77 0.
Definition demo_fault : trap_in := mkTrapIn ∅ 0 0 ∅ EXC_LOAD_PAGE_FAULT 0x10001000 78 0.
Definition demo_ticked : kernel :=
  strap_handler demo_layout fdt_none [] demo_tick (trap_save demo_tick demo_kernel).
Definition demo_faulted : kernel :=
  strap_handler demo_layout fdt_none [] demo_fault (trap_save demo_fault demo_ticked).
Lemma demo_sys_ok : sys_ok demo_kernel.
Proof.
  split; [apply demo_kernel_ok|done|]. split; [done|].
  apply Forall_replicate. by intros t [=].
Qed.
