(* ===== verification/Boot.v ===== *)
(** * Booting (src/src/kmain.c: smain; task.c: scheduler_start; trap.c: timer_init)

    [smain] takes the machine from zeroed memory to the first task.  What
    the linker decides is an [image], what the hardware answers a
    [machine]. *)
From stdpp Require Import base list numbers option gmap functions.
From S2P Require Import Prelude Mem Riscv Pmm Vm VmMap VmCopy Kernel Task Ipc Vfs Fdt Pci Format.
From S2P Require Import Retire Irq Syscall SysInv.
Local Open Scope Z_scope.

(** Entry points and data sections by name, and the .bss of each program. *)
Record image := mkImage
  { I_layout : layout; I_entry : list Z → Z; I_data : list Z → Z * Z; I_bss : list (Z * Z) }.
(** Memory at power-on, the device tree, PCI configuration space, the time. *)
Record machine := mkMachine { M_mem : memory; M_dtb : Z; M_cfg : Z → Z; M_time : Z }.

Definition scheduler_start (k : kernel) : kernel := schedule (k <| current := None |>).
Definition timer_init (now : Z) (k : kernel) : kernel := timer_rearm now k.
Definition print (fmt : list Z) (args : list karg) (k : kernel) : kernel :=
  k <| console := kprintf fmt args (console k) |>.
Definition line (s : list Z) : list Z := s ++ [10].

Definition VIRTIO_MMIO_BASE : Z := 0x10001000.
Definition VIRTIO_MMIO_STRIDE : Z := 0x1000.
Definition VIRTIO_MMIO_SLOTS : Z := 8.
(** servers.h *)
Definition FS_TASK_ID : Z := 0.
Definition CONSOLE_TASK_ID : Z := 1.
Definition PROC_TASK_ID : Z := 2.
Definition NULL_TASK_ID : Z := 3.
Definition SHELL_TASK_ID : Z := 4.
Definition SANDBOX_TASK_ID : Z := 5.
Definition SNOOPER_TASK_ID : Z := 6.
Definition USER_TASK_ID : Z := 7.
Definition PEEKER_TASK_ID : Z := 8.
Definition LOADER_TASK_ID : Z := 9.
Definition SH_TASK_ID : Z := 10.
Definition NET_TASK_ID : Z := 11.
Definition IDLE_TASK_ID : Z := 12.
Definition RSH_TASK_ID : Z := 13.
Definition BENCH_TASK_ID : Z := 14.
Definition PONG_TASK_ID : Z := 15.

(** One line of the list of tasks: a user program with its data section,
    or a kernel task. *)
Inductive spawn := User (nm sec : list Z) | Kern (nm : list Z).
Definition spawn_name (s : spawn) : list Z := match s with User nm _ => nm | Kern nm => nm end.
Definition boot_tasks : list spawn :=
  [User (str "fs") (str "ufs"); User (str "console") (str "umisc"); User (str "proc") (str "uproc");
   User (str "null") (str "umisc"); Kern (str "shell"); Kern (str "sandbox"); Kern (str "snooper");
   User (str "user") (str "umisc"); User (str "peeker") (str "umisc"); User (str "loader") (str "uload");
   User (str "sh") (str "ush"); User (str "net") (str "unet"); Kern (str "idle");
   User (str "rsh") (str "ursh"); User (str "bench") (str "umisc"); User (str "pong") (str "umisc")].
Definition late_tasks : list spawn := [User (str "dev") (str "udev"); User (str "tty") (str "utty")].

Section boot.
Context (I : image) (M : machine).

Definition clear_bss (m : memory) : memory :=
  foldl (λ m '(a, b), memset m a 0 (b - a)) m (I_bss I).

(** "Ask the machine what it is." *)
Definition boot_tree (k : kernel) : fdt * kernel :=
  let m := mem (phys k) in
  let '(r, f) := fdt_init m (M_dtb M) fdt_none in
  if r =? 0 then
    let k := print (line (str "[boot] device tree at 0x%lx")) [KInt (M_dtb M)] k in
    let k := match fdt_reg_n m f (str "serial@") 0 with
             | Some (b, _, irq) => print (line (str "       serial   0x%lx irq %d")) [KInt b; KInt irq] k
             | None => k end in
    let k := match fdt_reg m f (str "plic@") with
             | Some (b, s) => print (line (str "       plic     0x%lx + 0x%lx")) [KInt b; KInt s] k
             | None => k end in
    let k := match fdt_reg m f (str "pci@") with
             | Some (b, s) => print (line (str "       pci ecam 0x%lx + 0x%lx")) [KInt b; KInt s] k
             | None => k end in
    (f, print (line (str "       virtio slots: %d")) [KInt (fdt_count m f (str "virtio_mmio@"))] k)
  else (f, print (line (str "[boot] no device tree; the constants stand")) [] k).
Definition boot_memory (f : fdt) (k : kernel) : kernel :=
  let k := k <| phys := pmm_init (L_end (I_layout I)) (phys k) |> in
  let '(kpt, ksatp, s) := vm_init (λ m, fdt_reg m f (str "pci@")) (phys k) in
  let k := k <| phys := s |> <| kernel_pagetable := kpt |> <| kernel_satp := ksatp |> in
  print (line (str "[boot] Sv39 on, kernel satp=0x%lx, %d pages free"))
    [KInt ksatp; KInt (pmm_free_count (phys k))] k.
Definition boot_pci (f : fdt) (k : kernel) : list pci_fn * kernel :=
  let '(n, found) := pci_init (M_cfg M) (fdt_reg (mem (phys k)) f (str "pci@")) in
  if 0 <? n then
    let k := print (line (str "[boot] pci: %d functions on the bus")) [KInt n] k in
    (found, foldl (λ k i, print (line (str "       %s"))
                            [KStr (default [] (pci_summary found (Z.of_nat i) 80))] k)
              k (seq 0 (Z.to_nat n)))
  else (found, print (line (str "[boot] pci: nothing on the bus")) [] k).

Definition spawn_task (k : kernel) (s : spawn) : option nat * kernel :=
  match s with
  | User nm sec => task_create_user (I_layout I) nm (I_entry I nm) (I_data I sec).1 (I_data I sec).2 k
  | Kern nm => task_create (I_layout I) nm (I_entry I nm) k
  end.
Definition spawn_all (l : list spawn) (k : kernel) : list (option nat) * kernel :=
  foldl (λ '(r, k) s, let '(t, k') := spawn_task k s in (r ++ [t], k')) ([], k) l.
(** [vm_map_at(t->pt, pa, pa, size, PTE_R | PTE_W | PTE_U, 0);] *)
Definition give_device (t : option nat) (pa size : Z) (k : kernel) : kernel :=
  match t with Some t => map_in t pa pa size RWU 0 k | None => k <| parked := true |> end.
Definition mount (name : list Z) (server : Z) (k : kernel) : kernel := (vfs_mount name server MREPL k).2.
Definition id_or (t : option nat) (other : Z) (k : kernel) : Z :=
  match t with Some t => tid (task_at k t) | None => other end.

Definition boot_mounts (devt ttyt : option nat) (k : kernel) : kernel :=
  let k := mount (str "/") FS_TASK_ID k in
  let k := mount (str "/proc/") PROC_TASK_ID k in
  let k := mount (str "/net/") NET_TASK_ID k in
  let k := mount (str "/dev/") (id_or devt CONSOLE_TASK_ID k) k in
  let k := mount (str "/dev/console") CONSOLE_TASK_ID k in
  let k := mount (str "/doc/") (id_or devt PROC_TASK_ID k) k in
  let k := match ttyt with Some t => mount (str "/tty/") (tid (task_at k t)) k | None => k end in
  mount (str "/dev/rawcons") CONSOLE_TASK_ID k.

(** Everything up to [scheduler_start]: the device tree, the functions
    found on the bus and the kernel. *)
Definition smain_setup : fdt * list pci_fn * kernel :=
  let k := kernel_zero (pmm_zero (M_mem M)) in
  let rule := line (str "=============================================") in
  let k := print (10 :: rule) [] k in
  let k := print (str "  rvos " ++ [0xe2; 0x80; 0x94] ++ line (str " educational RISC-V microkernel")) [] k in
  let k := print (line (str "  stage 11: the servers are user programs")) [] k in
  let k := print rule [] k in
  let k := k <| phys := (phys k) <| mem := clear_bss (mem (phys k)) |> |> in
  let '(f, k) := boot_tree k in
  let k := boot_memory f k in
  let '(found, k) := boot_pci f k in
  let k := timer_init (M_time M) k in
  let k := print (line (str "[boot] PLIC up; UART irq %d routed to S-mode")) [KInt UART0_IRQ] k in
  let '(ids, k) := spawn_all boot_tasks k in
  let virtio := VIRTIO_MMIO_STRIDE * VIRTIO_MMIO_SLOTS in
  let k := give_device (ids !!! 0%nat) VIRTIO_MMIO_BASE virtio k in
  let k := give_device (ids !!! 1%nat) UART_BASE_PA PGSIZE k in
  let k := give_device (ids !!! 11%nat) VIRTIO_MMIO_BASE virtio k in
  let '(late, k) := spawn_all late_tasks k in
  let k := boot_mounts (late !!! 0%nat) (late !!! 1%nat) k in
  (f, found, print (line (str "[boot] 4 user servers, 3 kernel apps, 2 user programs, %d pages."))
               [KInt (pmm_free_count (phys k))] k).
Definition smain : kernel := scheduler_start smain_setup.2.
End boot.

(** ** The table while booting *)

(** Slot [i] as [task_create] leaves it. *)
Record booted (i : nat) (nm : list Z) (t : task) : Prop := {
  bt_state : state t = T_RUNNABLE;
  bt_id : tid t = Z.of_nat i;
  bt_gen : gen t = 0;
  bt_name : name t = NameLit nm;
  bt_recv : waiting_recv t = false;
  bt_wait : wait_for t = 0;
  bt_senders : wait_sender t = None;
  bt_next : send_next t = None }.
(** The first slots hold the tasks created so far, in order. *)
Record boot_rel (names : list (list Z)) (k : kernel) : Prop := {
  br_len : length (tasks k) = NTASK;
  br_made : ∀ i nm, names !! i = Some nm → booted i nm (task_at k i);
  br_rest : ∀ i, (length names ≤ i)%nat → task_at k i = zero_task;
  br_current : current k = None;
  br_pool : length (ns_pool k) = VFS_NNS;
  br_owners : owners_ok k }.

Lemma boot_quiet names k k' : quiet k k' → boot_rel names k → boot_rel names k'.
Proof.
  intros [E1 E2 E3 E4 _] [B1 B2 B3 B4 B5 B6].
  split; unfold task_at, owners_ok in *; rewrite ?E1, ?E2, ?E3, ?E4; done.
Qed.
Lemma boot_upd names k i f :
  (∀ nm, names !! i = Some nm → ∀ t, booted i nm t → booted i nm (f t)) → (i < length names)%nat →
  (length names ≤ NTASK)%nat → boot_rel names k → boot_rel names (upd i f k).
Proof.
  intros Hf Hi Hn [B1 B2 B3 B4 B5 B6]. split; try done.
  - by rewrite length_upd.
  - intros j nm Hj. destruct (decide (j = i)) as [->|Hne].
    + rewrite task_at_upd by lia. by apply Hf, B2.
    + rewrite task_at_upd_ne by done. by apply B2.
  - intros j Hj. rewrite task_at_upd_ne by lia. by apply B3.
Qed.

(** Appending one task: its slot was zero and now holds [t]. *)
Lemma boot_snoc names k k' nm :
  (length names < NTASK)%nat → boot_rel names k →
  booted (length names) nm (task_at k' (length names)) →
  (∀ j, j ≠ length names → task_at k' j = task_at k j) → length (tasks k') = NTASK →
  current k' = None → length (ns_pool k') = VFS_NNS → owners_ok k' →
  boot_rel (names ++ [nm]) k'.
Proof.
  intros Hn [B1 B2 B3 B4 B5 B6] Hb Ho Hl Hc Hp Hw. split; try done.
  - intros i nm' Hi. apply lookup_snoc_Some in Hi as [[Hlt Hi]|[-> <-]]; [|done].
    rewrite Ho by lia. by apply B2.
  - intros i Hi. rewrite length_app in Hi. simpl in Hi. rewrite Ho by lia. apply B3. lia.
Qed.

Lemma find_from_first P n x :
  (x < n)%nat → P x = true → (∀ j, (j < x)%nat → P j = false) → find_from P 0 n = Some x.
Proof.
  intros Hx HP Hb. destruct (find_from P 0 n) as [y|] eqn:E.
  - apply find_from_Some in E as (Hy & HPy & Hby). f_equal.
    destruct (lt_eq_lt_dec x y) as [[Hlt|Heq]|Hgt]; [|done|].
    + rewrite Hby in HP by lia. done.
    + rewrite Hb in HPy by lia. done.
  - rewrite (find_from_None _ _ _ E x) in HP by lia. done.
Qed.
(** The first free slot is the next one. *)
Lemma boot_alloc_slot names k :
  (length names < NTASK)%nat → boot_rel names k →
  alloc_slot k = (Some (length names),
    upd (length names) (λ _, zero_task <| gen := 0 |> <| tid := slot_id (length names) 0 |>) k).
Proof.
  intros Hn [B1 B2 B3 B4 B5 B6]. unfold alloc_slot.
  rewrite (find_from_first _ _ (length names) Hn); [by rewrite B3 by lia|by rewrite B3 by lia|].
  intros j Hj. destruct (lookup_lt_is_Some_2 names j) as [nm Hnm]; [lia|].
  unfold live. by rewrite (bt_state _ _ _ (B2 _ _ Hnm)).
Qed.

(** A slot being filled: [t] sits where the next task goes. *)
Definition filling (n : nat) (k k' : kernel) : Prop :=
  (∀ j, j ≠ n → task_at k' j = task_at k j) ∧ length (tasks k') = NTASK ∧
  current k' = None ∧ length (ns_pool k') = VFS_NNS ∧ owners_ok k'.
Lemma filling_quiet n k k1 k2 : filling n k k1 → quiet k1 k2 → filling n k k2.
Proof.
  intros (F1 & F2 & F3 & F4 & F5) [E1 E2 E3 E4 _]. unfold filling, task_at, owners_ok in *.
  by rewrite E1, E2, E3, E4.
Qed.
Lemma filling_upd n k k1 f : filling n k k1 → filling n k (upd n f k1).
Proof.
  intros (F1 & F2 & F3 & F4 & F5). split_and!; try done; [|by rewrite length_upd].
  intros j Hj. rewrite task_at_upd_ne by done. by apply F1.
Qed.
(** What must be true of the task itself on the way. *)
Definition fresh_task (n : nat) (t : task) : Prop :=
  tid t = Z.of_nat n ∧ gen t = 0 ∧ waiting_recv t = false ∧ wait_for t = 0 ∧
  wait_sender t = None ∧ send_next t = None.
Lemma fresh_quiet n k k' : quiet k k' → fresh_task n (task_at k n) → fresh_task n (task_at k' n).
Proof. intros [E _ _ _ _]. unfold task_at. by rewrite E. Qed.
Lemma fresh_upd n k f :
  (n < length (tasks k))%nat → (∀ t, fresh_task n t → fresh_task n (f t)) →
  fresh_task n (task_at k n) → fresh_task n (task_at (upd n f k) n).
Proof. intros Hn Hf Ht. rewrite task_at_upd by done. auto. Qed.
Lemma map_heap_page_filling n perm k0 k :
  (n < NTASK)%nat → filling n k0 k → fresh_task n (task_at k n) →
  filling n k0 (map_heap_page n perm k) ∧ fresh_task n (task_at (map_heap_page n perm k) n).
Proof.
  intros Hn Hf Ht. unfold map_heap_page. pose proof (quiet_with_phys pmm_alloc k) as H1.
  destruct (with_phys pmm_alloc k) as [p k1]. cbn [snd] in H1.
  destruct (p =? 0); [by eauto using filling_quiet, fresh_quiet|].
  assert (quiet k (map_in n UHEAP_BASE p PGSIZE perm 0 k1)) as H2 by (etrans; [done|apply quiet_map_in]).
  pose proof (filling_quiet _ _ _ _ Hf H2) as Hf2. pose proof (fresh_quiet _ _ _ H2 Ht) as Ht2.
  split; [by apply filling_upd|]. apply fresh_upd; [|done|done]. destruct Hf2 as (_ & -> & _). done.
Qed.

Lemma task_create_boot L names nm e k :
  (length names < NTASK)%nat → boot_rel names k →
  (task_create L nm e k).1 = Some (length names) ∧ boot_rel (names ++ [nm]) (task_create L nm e k).2.
Proof.
  intros Hn Hb. unfold task_create. rewrite (boot_alloc_slot names) by done.
  set (n := length names) in *. set (k0 := upd n _ k).
  assert (filling n k k0) as F0.
  { apply filling_upd. destruct Hb as [B1 B2 B3 B4 B5 B6]. split_and!; done. }
  assert (fresh_task n (task_at k0 n)) as T0.
  { unfold k0. rewrite task_at_upd by (rewrite (br_len _ _ Hb); done). unfold fresh_task.
    split_and!; try done. cbn. apply Z.lor_0_r. }
  clearbody k0. pose proof (quiet_with_phys (vm_create_task_pt (L_end L)) k0) as H1.
  destruct (with_phys _ k0) as [p k1]. cbn [snd] in H1.
  pose proof (filling_quiet _ _ _ _ F0 H1) as F1. pose proof (fresh_quiet _ _ _ H1 T0) as T1.
  set (k2 := upd n _ k1). assert (filling n k k2) as F2 by (by apply filling_upd).
  assert (fresh_task n (task_at k2 n)) as T2.
  { apply fresh_upd; [|done|done]. destruct F1 as (_ & -> & _). done. }
  clearbody k2. pose proof (quiet_map_stack n RW k2) as H3.
  destruct (map_heap_page_filling n RW k (map_stack n RW k2) Hn) as [F3 T3];
    [by eapply filling_quiet|by eapply fresh_quiet|].
  revert F3 T3. generalize (map_heap_page n RW (map_stack n RW k2)) as k3. intros k3 F3 T3.
  set (k4 := upd n _ k3). assert (filling n k k4) as F4 by (by apply filling_upd).
  assert (booted n nm (task_at k4 n)) as T4.
  { unfold k4. rewrite task_at_upd by (destruct F3 as (_ & -> & _); done).
    destruct T3 as (? & ? & ? & ? & ? & ?). by split. }
  clearbody k4. pose proof (quiet_ns_get 0 k4) as H5. unfold vfs_root_ns.
  destruct (ns_get 0 k4) as [ns5 k5]. cbn [snd fst] in *. split; [done|].
  pose proof (filling_quiet _ _ _ _ F4 H5) as F5.
  destruct (filling_upd n k k5 (λ u, u <| ns := ns5 |>) F5) as (G1 & G2 & G3 & G4 & G5).
  apply (boot_snoc names k); try done. rewrite task_at_upd by (destruct F5 as (_ & -> & _); done).
  destruct H5 as [E _ _ _ _]. unfold task_at in *. rewrite E. by destruct T4.
Qed.
Lemma task_create_user_boot L names nm e a b k :
  (length names < NTASK)%nat → boot_rel names k →
  (task_create_user L nm e a b k).1 = Some (length names) ∧
  boot_rel (names ++ [nm]) (task_create_user L nm e a b k).2.
Proof.
  intros Hn Hb. unfold task_create_user.
  destruct (task_create_boot L names nm e k Hn Hb) as [E1 B1].
  destruct (task_create L nm e k) as [r k1]. cbn [fst snd] in *. subst r. set (n := length names) in *.
  split; [done|]. cbn [snd].
  assert (∀ k va, quiet k (remap_user n k va)) as Hr by (intros; apply quiet_map_in).
  set (k2 := map_in n (L_utext_start L) _ _ _ _ k1).
  set (k3 := if a <? b then _ else _). set (k4 := foldl _ k3 _).
  assert (quiet k1 k3) as Q3.
  { transitivity k2; [apply quiet_map_in|]. unfold k3. destruct (a <? b); [apply quiet_map_in|done]. }
  assert (quiet k3 k4) as Q4.
  { unfold k4. generalize (seq 0 (Z.to_nat USTACK_PAGES)) as l. generalize k3. intros k5 l. revert k5.
    induction l as [|i l IH]; intros k5; simpl; [done|]. etrans; [apply Hr|apply IH]. }
  apply boot_upd; rewrite ?length_app; simpl; [|lia|lia|].
  - intros nm' _ t []. by split.
  - eapply boot_quiet; [apply Hr|]. eapply boot_quiet; [exact Q4|]. by eapply boot_quiet.
Qed.
Lemma spawn_task_boot I names s k :
  (length names < NTASK)%nat → boot_rel names k →
  (spawn_task I k s).1 = Some (length names) ∧ boot_rel (names ++ [spawn_name s]) (spawn_task I k s).2.
Proof. destruct s; [apply task_create_user_boot|apply task_create_boot]. Qed.
Lemma spawn_all_boot I l names k :
  (length names + length l ≤ NTASK)%nat → boot_rel names k →
  (spawn_all I l k).1 = Some <$> seq (length names) (length l) ∧
  boot_rel (names ++ (spawn_name <$> l)) (spawn_all I l k).2.
Proof.
  induction l as [|s l IH] using rev_ind; intros Hl Hb.
  - simpl. by rewrite app_nil_r.
  - rewrite length_app in Hl. simpl in Hl. destruct IH as [E B]; [lia|done|].
    unfold spawn_all in *. rewrite foldl_snoc. destruct (foldl _ _ l) as [r k1]. cbn [fst snd] in *.
    destruct (spawn_task_boot I (names ++ (spawn_name <$> l)) s k1) as [E1 B1];
      [by rewrite length_app, length_fmap; lia|done|].
    destruct (spawn_task I k1 s) as [t k2]. cbn [fst snd] in *.
    rewrite length_app, Nat.add_1_r, seq_S, fmap_app, E, E1, length_app, length_fmap. split; [done|].
    by rewrite fmap_app, (assoc_L (++)).
Qed.
Lemma quiet_print fmt args k : quiet k (print fmt args k).
Proof. split; auto. Qed.
Lemma quiet_mount nm s k : quiet k (mount nm s k).
Proof. apply quiet_put_mount. Qed.
Lemma quiet_boot_mounts d t k : quiet k (boot_mounts d t k).
Proof.
  unfold boot_mounts. cbn zeta. do 6 (etrans; [apply quiet_mount|]).
  etrans; [|apply quiet_mount]. destruct t; [apply quiet_mount|done].
Qed.
Lemma quiet_give_device t pa size k : quiet k (give_device t pa size k).
Proof. destruct t; [apply quiet_map_in|]. split; auto. Qed.
Lemma quiet_boot_tree M k : quiet k (boot_tree M k).2.
Proof.
  unfold boot_tree. destruct (fdt_init _ _ _) as [r f]. destruct (r =? 0); [|apply quiet_print].
  cbn [snd]. etrans; [apply quiet_print|]. etrans; [|apply quiet_print].
  etrans; [|case_match; [case_match; apply quiet_print|reflexivity]].
  etrans; [|case_match; [case_match; apply quiet_print|reflexivity]].
  case_match; [|reflexivity]. repeat case_match. apply quiet_print.
Qed.
Lemma quiet_boot_memory I f k : quiet k (boot_memory I f k).
Proof.
  unfold boot_memory. destruct (vm_init _ _) as [[kpt ksatp] s].
  etrans; [|apply quiet_print]. split; auto.
Qed.
Lemma quiet_boot_pci M f k : quiet k (boot_pci M f k).2.
Proof.
  unfold boot_pci. destruct (pci_init _ _) as [n found]. destruct (0 <? n); [|apply quiet_print].
  cbn [snd]. set (k0 := print _ _ k). transitivity k0; [apply quiet_print|]. generalize k0.
  generalize (seq 0 (Z.to_nat n)) as l. induction l as [|i l IH]; intros k1; simpl; [done|].
  etrans; [apply quiet_print|apply IH].
Qed.

Lemma smain_setup_boot I M :
  boot_rel (spawn_name <$> boot_tasks ++ late_tasks) (smain_setup I M).2.
Proof.
  unfold smain_setup. cbn zeta. set (k0 := print _ _ (print _ _ _)).
  assert (boot_rel [] k0) as B0.
  { split; [done|by intros i nm| |done|done|].
    - intros i _. change (replicate NTASK zero_task !!! i = zero_task).
      rewrite list_lookup_total_alt. destruct (_ !! i) eqn:E; [|done].
      by apply lookup_replicate in E as [-> _].
    - split; [done|]. apply Forall_replicate. by intros t [=]. }
  clearbody k0. set (k1 := k0 <| phys := _ |>).
  assert (boot_rel [] k1) as B1 by (eapply boot_quiet; [apply quiet_phys|done]). clearbody k1.
  pose proof (boot_quiet _ _ _ (quiet_boot_tree M k1) B1) as B2.
  destruct (boot_tree M k1) as [f k2]. cbn [snd] in B2.
  pose proof (boot_quiet _ _ _ (quiet_boot_memory I f k2) B2) as B3.
  revert B3. generalize (boot_memory I f k2) as k3. intros k3 B3.
  pose proof (boot_quiet _ _ _ (quiet_boot_pci M f k3) B3) as B4.
  destruct (boot_pci M f k3) as [found k4]. cbn [snd] in B4.
  set (k5 := print _ _ (timer_init _ k4)).
  assert (boot_rel [] k5) as B5 by (eapply boot_quiet; [|exact B4]; split; auto). clearbody k5.
  destruct (spawn_all_boot I boot_tasks [] k5) as [_ B6]; [vm_compute; lia|done|].
  destruct (spawn_all I boot_tasks k5) as [ids k6]. cbn [snd app] in B6.
  set (k7 := give_device _ _ _ (give_device _ _ _ (give_device _ _ _ _))).
  assert (boot_rel (spawn_name <$> boot_tasks) k7) as B7.
  { unfold k7. do 3 (eapply boot_quiet; [apply quiet_give_device|]). done. }
  clearbody k7. destruct (spawn_all_boot I late_tasks (spawn_name <$> boot_tasks) k7) as [_ B8]; [vm_compute; lia|done|].
  destruct (spawn_all I late_tasks k7) as [late k8]. cbn [snd] in B8 |- *. rewrite fmap_app.
  eapply boot_quiet; [apply quiet_print|]. by eapply boot_quiet; [apply quiet_boot_mounts|].
Qed.
(** A table of freshly made tasks satisfies the invariant, with empty queues. *)
Lemma boot_table names k :
  (length names ≤ NTASK)%nat → boot_rel names k → table_rel (tasks k) None (λ _, []).
Proof.
  intros Hn [B1 B2 B3 B4 B5 B6].
  assert (∀ i, (i < NTASK)%nat → task_at k i = zero_task ∨ ∃ nm, booted i nm (task_at k i)) as Hi.
  { intros i Hi. destruct (names !! i) as [nm|] eqn:E; [right; eauto|left].
    apply B3. by apply lookup_ge_None. }
  split; [done| |intros; constructor|by intros i j x _ _ ?%elem_of_nil|by intros i x _ ?%elem_of_nil|].
  - intros i Hl. change (tasks k !!! i) with (task_at k i).
    destruct (Hi i Hl) as [->|[nm []]]; [done|]. rewrite bt_senders0. done.
  - intros x Hl. change (tasks k !!! x) with (task_at k x).
    destruct (Hi x Hl) as [->|[nm []]].
    + split; try done. intros (i & _ & ?%elem_of_nil). done.
    + split; try congruence; [by intros (i & _ & ?%elem_of_nil)|].
      intros _. rewrite bt_id0, bt_gen0. symmetry. apply Z.lor_0_r.
Qed.

(** ** Properties *)

(** With nobody current the scan starts at slot 0. *)
Lemma scheduler_start_first names k nm :
  (length names ≤ NTASK)%nat → boot_rel names k → names !! 0%nat = Some nm →
  scheduler_start k = upd 0 (λ t, t <| state := T_RUNNING |>) (k <| current := None |>) <| current := Some 0%nat |>.
Proof.
  intros Hn Hb H0. unfold scheduler_start, schedule, sched_demote.
  set (k0 := k <| current := None |>). change (current k0) with (@None nat). cbv iota.
  assert (sched_scan (tasks k0) (-1) 1 NTASK = Some 0%nat) as ->; [|done].
  unfold NTASK. cbn [sched_scan]. change (Z.to_nat (Z.rem (i32 (-1 + 1)) (Z.of_nat 24))) with 0%nat.
  change (0 <=? Z.rem (i32 (-1 + 1)) (Z.of_nat 24)) with true.
  pose proof (bt_state _ _ _ (br_made _ _ Hb _ _ H0)) as Hs. unfold task_at in Hs.
  change (tasks k0) with (tasks k). by rewrite (bool_decide_eq_true_2 (state (tasks k !!! 0%nat) = T_RUNNABLE) Hs).
Qed.

(** Who each constant of servers.h stands for. *)
Definition servers_h : list (Z * list Z) :=
  [(FS_TASK_ID, str "fs"); (CONSOLE_TASK_ID, str "console"); (PROC_TASK_ID, str "proc");
   (NULL_TASK_ID, str "null"); (SHELL_TASK_ID, str "shell"); (SANDBOX_TASK_ID, str "sandbox");
   (SNOOPER_TASK_ID, str "snooper"); (USER_TASK_ID, str "user"); (PEEKER_TASK_ID, str "peeker");
   (LOADER_TASK_ID, str "loader"); (SH_TASK_ID, str "sh"); (NET_TASK_ID, str "net");
   (IDLE_TASK_ID, str "idle"); (RSH_TASK_ID, str "rsh"); (BENCH_TASK_ID, str "bench");
   (PONG_TASK_ID, str "pong")].
(** The task in slot [z] is called [nm], carries [z] as its identifier,
    and is ready to run - running already if it is the first. *)
Definition in_its_slot (k : kernel) (z : Z) (nm : list Z) : Prop :=
  let t := task_at k (Z.to_nat z) in
  tid t = z ∧ name t = NameLit nm ∧ state t = (if decide (z = 0) then T_RUNNING else T_RUNNABLE).
Lemma boot_in_its_slot names k z nm :
  (length names ≤ NTASK)%nat → boot_rel names k → names !! Z.to_nat z = Some nm → 0 ≤ z →
  in_its_slot (upd 0 (λ t, t <| state := T_RUNNING |>) (k <| current := None |>) <| current := Some 0%nat |>) z nm.
Proof.
  intros Hn Hb Hi Hz. pose proof (br_made _ _ Hb _ _ Hi) as [E1 E2 _ E4 _ _ _ _].
  pose proof (br_len _ _ Hb) as Hl. unfold in_its_slot. cbn zeta.
  set (k1 := k <| current := None |>). change (task_at (_ <| current := Some 0%nat |>) (Z.to_nat z)) with
    (task_at (upd 0 (λ t, t <| state := T_RUNNING |>) k1) (Z.to_nat z)).
  destruct (decide (z = 0)) as [->|Hne].
  - rewrite task_at_upd by (unfold k1; cbn; rewrite Hl; slot_lia). done.
  - rewrite task_at_upd_ne by lia. rewrite Z2Nat.id in E2 by done. done.
Qed.

(** C15: booting ends with the first task, the file server, running and
    the kernel's invariant established, whatever the machine holds (a device
    tree that ends more nodes than it begins is walked as if the write in
    front of the array of names hit nothing, see Fdt.v); each
    of the sixteen constants of servers.h is the identifier of the task it
    names, which is ready to run in the slot of that number, and the two
    tasks servers.h does not name, dev and tty, follow in slots 16 and 17. *)
Theorem smain_correct I M :
  sys_ok (smain I M) ∧ parked (smain I M) = parked (smain_setup I M).2 ∧ current (smain I M) = Some 0%nat ∧
  (∀ id nm, (id, nm) ∈ servers_h → in_its_slot (smain I M) id nm) ∧
  in_its_slot (smain I M) 16 (str "dev") ∧ in_its_slot (smain I M) 17 (str "tty").
Proof.
  pose proof (smain_setup_boot I M) as Hb. unfold smain. revert Hb. generalize (smain_setup I M).2 as k.
  intros k Hb. set (names := spawn_name <$> boot_tasks ++ late_tasks) in *.
  assert (length names ≤ NTASK)%nat as Hn by (vm_compute; lia).
  split; [apply sys_ok_schedule; [|apply Hb|apply Hb]; exists (λ _, []); exact (boot_table names k Hn Hb)|].
  rewrite (scheduler_start_first names k (str "fs")) by done. split_and!; [done|done| | |].
  - intros id nm Hin.
    assert (Forall (λ p, names !! Z.to_nat p.1 = Some p.2 ∧ 0 ≤ p.1) servers_h) as Hall by (by repeat constructor).
    destruct (proj1 (list.Forall_forall _ _) Hall _ Hin) as [Hi Hz]. by apply (boot_in_its_slot names).
  - by apply (boot_in_its_slot names).
  - by apply (boot_in_its_slot names).
Qed.
