(* ===== verification/Heap.v ===== *)
(** * The user heap (src/src/malloc.h)

    The allocator runs unprivileged on the heap window of its task and is
    modelled byte for byte there: [uspace] is the window's memory with the
    break, and every access goes through [ld] and [st], which fault outside
    the mapped part.  The kernel's share, [sys_sbrk], is an interface: the
    operations take it as a parameter and [SbrkLaws] says what they rely on.

    Every C loop over a list is bounded by [heap_fuel], the number of
    16-byte units of the window; a list that is longer has a cycle. *)
From stdpp Require Import base list numbers option gmap.
From S2P Require Import Prelude Mem Riscv.
Local Open Scope Z_scope.

Record uspace := mkUspace { um : memory; ubrk : Z; uframes : Z }.

Definition mapped (a n : Z) (s : uspace) : bool := (UHEAP_BASE <=? a) && (a + n <=? ubrk s).
Definition ld (n : nat) (a : Z) : prog uspace Z := λ s,
  if mapped a (Z.of_nat n) s then Some (load_le n (um s) a, s) else None.
Definition st (n : nat) (a v : Z) : prog uspace () := λ s,
  if mapped a (Z.of_nat n) s then Some ((), mkUspace (store_le n (um s) a v) (ubrk s) (uframes s)) else None.
Definition heap_fuel (s : uspace) : nat := S (Z.to_nat ((ubrk s - UHEAP_BASE) / 16)).

Definition MHEAP_MAGIC : Z := 0x6d616c6c6f633031.
Definition MALIGN (x : Z) : Z := Z.land (u64 (x + 15)) (Z.lnot 15).
Definition NCLASS : nat := 16.
Definition MAXSMALL : Z := 512.
Definition MRUNHDR : Z := 32.
Definition m__class : list Z :=
  [16; 32; 48; 64; 80; 96; 112; 128; 160; 192; 224; 256; 320; 384; 448; 512].
Definition MHDR : Z := MALIGN 16.
Definition MMIN : Z := MHDR + 16.
Definition MTRIM : Z := 16 * PGSIZE.

(** Fields: of the heap's own header at the bottom of the window, of a
    block, of a run. *)
Definition h_lock : Z := UHEAP_BASE.
Definition h_magic : Z := UHEAP_BASE + 8.
Definition h_free : Z := UHEAP_BASE + 16.
Definition h_top : Z := UHEAP_BASE + 24.
Definition h_runs (c : Z) : Z := UHEAP_BASE + 32 + 8 * c.
Definition h_dir : Z := UHEAP_BASE + 160.
Definition h_dirlen : Z := UHEAP_BASE + 168.
Definition h_run_pages : Z := UHEAP_BASE + 176.
Definition sizeof_mheap : Z := 184.
Definition b_size (b : Z) : Z := b.
Definition b_next (b : Z) : Z := b + 8.
Definition r_next (r : Z) : Z := r.
Definition r_slots (r : Z) : Z := r + 8.
Definition r_cls (r : Z) : Z := r + 16.
Definition r_used (r : Z) : Z := r + 18.

Definition SBRK_FAILED : Z := u64 (-1).

(** The lock: a task of one thread finds it free or spins for ever. *)
Definition m__lock : prog uspace () :=
  let* v := ld 4 h_lock in
  let* _ := st 4 h_lock 1 in
  if v =? 0 then pret () else diverge.
Definition m__unlock : prog uspace () := st 4 h_lock 0.

Fixpoint m__copy (d s : Z) (n : nat) : prog uspace () :=
  match n with
  | O => pret ()
  | S n' => let* v := ld 1 s in let* _ := st 1 d v in m__copy (d + 1) (s + 1) n'
  end.
Fixpoint m__zero (d : Z) (n : nat) : prog uspace () :=
  match n with
  | O => pret ()
  | S n' => let* _ := st 1 d 0 in m__zero (d + 1) n'
  end.

(** ** The free list *)

(** [while (cur && cur < b) { prev = cur; cur = cur->next; }] *)
Fixpoint insert_scan (n : nat) (b prev cur : Z) : prog uspace (Z * Z) :=
  if (cur =? 0) || (b <=? cur) then pret (prev, cur)
  else match n with
       | O => diverge
       | S n' => let* next := ld 8 (b_next cur) in insert_scan n' b cur next
       end.
(** [if (prev) prev->next = x; else h->free = x;] *)
Definition set_link (prev x : Z) : prog uspace () :=
  if prev =? 0 then st 8 h_free x else st 8 (b_next prev) x.
(** Join [b] to the block [c] that begins where it ends. *)
Definition join (b c : Z) : prog uspace () :=
  let* bs := ld 8 (b_size b) in
  let* cs := ld 8 (b_size c) in
  let* _ := st 8 (b_size b) (u64 (bs + cs)) in
  let* cn := ld 8 (b_next c) in
  st 8 (b_next b) cn.
Definition touches (b c : Z) : prog uspace bool :=
  let* bs := ld 8 (b_size b) in pret (u64 (b + bs) =? c).
Definition m__insert (b size : Z) : prog uspace () :=
  let* _ := st 8 (b_size b) size in
  let* n := gets heap_fuel in
  let* head := ld 8 h_free in
  let* (prev, cur) := insert_scan n b 0 head in
  let* _ := st 8 (b_next b) cur in
  let* _ := set_link prev b in
  let* _ := (if cur =? 0 then pret ()
             else let* t := touches b cur in if t then join b cur else pret ()) in
  if prev =? 0 then pret ()
  else let* t := touches prev b in if t then join prev b else pret ().

Section sbrk.
Context (sys_sbrk : Z → prog uspace Z).

(** [while (last->next) last = last->next;] *)
Fixpoint last_block (n : nat) (last : Z) : prog uspace Z :=
  let* next := ld 8 (b_next last) in
  if next =? 0 then pret last
  else match n with O => diverge | S n' => last_block n' next end.
Definition m__trim : prog uspace () :=
  let* head := ld 8 h_free in
  if head =? 0 then pret ()
  else
    let* n := gets heap_fuel in
    let* last := last_block n head in
    let* size := ld 8 (b_size last) in
    let* top := ld 8 h_top in
    if negb (u64 (last + size) =? top) then pret ()
    else
      let from := PGROUNDUP (u64 (last + MHDR)) in
      let from := if from <? UHEAP_BASE + PGSIZE then UHEAP_BASE + PGSIZE else from in
      if (top <=? from) || (top - from <? MTRIM) then pret ()
      else
        let* r := sys_sbrk (i64 (- (top - from))) in
        if r =? SBRK_FAILED then pret ()
        else
          let* _ := st 8 h_top from in
          st 8 (b_size last) (from - last).

(** [for (int i = 0; i < NCLASS; i++) h->runs[i] = 0;] *)
Fixpoint clear_runs (n : nat) (i : Z) : prog uspace () :=
  match n with
  | O => pret ()
  | S n' => let* _ := st 8 (h_runs i) 0 in clear_runs n' (i + 1)
  end.
Definition m__heap : prog uspace () :=
  let* magic := ld 8 h_magic in
  if magic =? MHEAP_MAGIC then pret ()
  else
    let* _ := st 8 h_magic MHEAP_MAGIC in
    let* _ := st 8 h_free 0 in
    let* _ := st 8 h_top (UHEAP_BASE + PGSIZE) in
    let* _ := st 8 h_dir 0 in
    let* _ := st 8 h_dirlen 0 in
    let* _ := st 8 h_run_pages 0 in
    let* _ := clear_runs NCLASS 0 in
    let first := UHEAP_BASE + MALIGN sizeof_mheap in
    let* top := ld 8 h_top in
    m__insert first (top - first).

Definition m__grow (need : Z) : prog uspace Z :=
  let n := PGROUNDUP need in
  let* p := sys_sbrk (i64 n) in
  if p =? SBRK_FAILED then pret (-1)
  else
    let* _ := st 8 h_top (u64 (p + n)) in
    let* _ := m__insert p n in
    pret 0.

(** The search both allocators make twice, growing the heap in between. *)
Fixpoint passes (k : nat) (scan : prog uspace (option Z)) (need : Z) : prog uspace Z :=
  match k with
  | O => pret 0
  | S k' =>
      let* r := scan in
      match r with
      | Some p => pret p
      | None => let* g := m__grow need in if g <? 0 then pret 0 else passes k' scan need
      end
  end.

(** Take [want] bytes of the block [b]: the rest stays on the list when it
    is worth it. *)
Definition take_block (prev b size want : Z) : prog uspace () :=
  if MMIN <=? size - want then
    let rest := b + want in
    let* _ := st 8 (b_size rest) (size - want) in
    let* next := ld 8 (b_next b) in
    let* _ := st 8 (b_next rest) next in
    let* _ := set_link prev rest in
    st 8 (b_size b) want
  else let* next := ld 8 (b_next b) in set_link prev next.
Fixpoint big_scan (n : nat) (want prev b : Z) : prog uspace (option Z) :=
  if b =? 0 then pret None
  else
    let* size := ld 8 (b_size b) in
    if size <? want then
      match n with
      | O => diverge
      | S n' => let* next := ld 8 (b_next b) in big_scan n' want b next
      end
    else let* _ := take_block prev b size want in pret (Some (b + MHDR)).
Definition m__big (n : Z) : prog uspace Z :=
  let want := MALIGN (u64 (n + MHDR)) in
  if want <? n then pret 0
  else passes 2 (let* f := gets heap_fuel in
                 let* head := ld 8 h_free in
                 big_scan f want 0 head) want.

(** Where [m__page] would cut a page out of the block [start, end). *)
Definition page_in (start end_ : Z) : option Z :=
  let page := PGROUNDUP start in
  let lead := page - start in
  let page := if negb (lead =? 0) && (lead <? MMIN) then page + PGSIZE else page in
  if end_ <? page + PGSIZE then None
  else
    let tail := end_ - (page + PGSIZE) in
    if negb (tail =? 0) && (tail <? MMIN) then None else Some page.
(** Cut [page] out of the block [b], keeping what lies before and behind. *)
Definition take_page (prev b size page : Z) : prog uspace () :=
  let lead := page - b in
  let tail := b + size - (page + PGSIZE) in
  let t := page + PGSIZE in
  let* _ :=
    (if tail =? 0 then pret ()
     else
       let* _ := st 8 (b_size t) tail in
       let* next := ld 8 (b_next b) in
       st 8 (b_next t) next) in
  if lead =? 0 then
    let* rest := (if tail =? 0 then ld 8 (b_next b) else pret t) in
    set_link prev rest
  else
    let* _ := st 8 (b_size b) lead in
    if tail =? 0 then pret () else st 8 (b_next b) t.
Fixpoint page_scan (n : nat) (prev b : Z) : prog uspace (option Z) :=
  if b =? 0 then pret None
  else
    let* size := ld 8 (b_size b) in
    match page_in b (b + size) with
    | None =>
        match n with
        | O => diverge
        | S n' => let* next := ld 8 (b_next b) in page_scan n' b next
        end
    | Some page => let* _ := take_page prev b size page in pret (Some page)
    end.
Definition m__page : prog uspace Z :=
  passes 2 (let* f := gets heap_fuel in
            let* head := ld 8 h_free in
            page_scan f 0 head) PGSIZE.

(** ** Runs of small slots *)

Definition page_of (p : Z) : Z := PGROUNDDOWN p.
Definition page_idx (page : Z) : Z := u64 (page - UHEAP_BASE) / PGSIZE.
(** [idx < h->dirlen && h->dir[idx]]: the entry of the page map, [0] when
    the page is not covered. *)
Definition dir_entry (idx : Z) : prog uspace Z :=
  let* dirlen := ld 8 h_dirlen in
  if idx <? dirlen then let* dir := ld 8 h_dir in ld 1 (dir + idx) else pret 0.

(** [while ( *pp && *pp != r) pp = &( *pp)->next; if ( *pp) *pp = r->next;] *)
Fixpoint unlink_run (n : nat) (pp r : Z) : prog uspace () :=
  let* v := ld 8 pp in
  if v =? 0 then pret ()
  else if v =? r then let* next := ld 8 (r_next r) in st 8 pp next
  else match n with O => diverge | S n' => unlink_run n' (r_next v) r end.

(** A slot goes back to its run; [true] when that was the last one in use. *)
Definition free_slot_in (r p : Z) : prog uspace bool :=
  let* slots := ld 8 (r_slots r) in
  let* _ := (if slots =? 0 then
               let* cls := ld 2 (r_cls r) in
               let* head := ld 8 (h_runs cls) in
               let* _ := st 8 (r_next r) head in
               st 8 (h_runs cls) r
             else pret ()) in
  let* slots := ld 8 (r_slots r) in
  let* _ := st 8 p slots in
  let* _ := st 8 (r_slots r) p in
  let* used := ld 2 (r_used r) in
  let* _ := st 2 (r_used r) (u16 (used - 1)) in
  pret (u16 (used - 1) =? 0).
(** An empty run gives its page back to the pool. *)
Definition release_run (r idx : Z) : prog uspace () :=
  let* cls := ld 2 (r_cls r) in
  let* f := gets heap_fuel in
  let* _ := unlink_run f (h_runs cls) r in
  let* dir := ld 8 h_dir in
  let* _ := st 1 (dir + idx) 0 in
  let* n := ld 8 h_run_pages in
  let* _ := st 8 h_run_pages (u64 (n - 1)) in
  let* _ := m__insert r PGSIZE in
  m__trim.
Definition m__free (p : Z) : prog uspace () :=
  if p =? 0 then pret ()
  else
    let* _ := m__heap in
    let page := page_of p in
    let idx := page_idx page in
    let* e := dir_entry idx in
    if e =? 0 then
      let b := p - MHDR in
      let* size := ld 8 (b_size b) in
      let* _ := m__insert b size in
      m__trim
    else
      let* empty := free_slot_in page p in
      if empty then release_run page idx else pret ().

(** [while (want <= idx) want *= 2;] *)
Fixpoint dir_want (n : nat) (want idx : Z) : prog uspace Z :=
  if want <=? idx then
    match n with O => diverge | S n' => dir_want n' (u64 (want * 2)) idx end
  else pret want.
(** [for (i = 0; i < want; i++) d[i] = i < h->dirlen ? h->dir[i] : 0;] *)
Fixpoint dir_copy (n : nat) (i d : Z) : prog uspace () :=
  match n with
  | O => pret ()
  | S n' => let* v := dir_entry i in let* _ := st 1 (d + i) v in dir_copy n' (i + 1) d
  end.
Definition m__dir_cover (page : Z) : prog uspace Z :=
  let idx := page_idx page in
  let* dirlen := ld 8 h_dirlen in
  if idx <? dirlen then pret (i32 idx)
  else
    let* want := dir_want 64 (if dirlen =? 0 then 4 * MAXSMALL else u64 (dirlen * 2)) idx in
    let* d := m__big want in
    if d =? 0 then pret (-1)
    else
      let* _ := dir_copy (Z.to_nat want) 0 d in
      let* dir := ld 8 h_dir in
      let* _ := (if dir =? 0 then pret () else m__free dir) in
      let* _ := st 8 h_dir d in
      let* _ := st 8 h_dirlen want in
      pret (i32 idx).

(** [for (p = page + PGSIZE - sz; p >= page + MRUNHDR; p -= sz)] *)
Fixpoint thread_slots (n : nat) (page sz p : Z) : prog uspace () :=
  match n with
  | O => pret ()
  | S n' =>
      if p <? page + MRUNHDR then pret ()
      else
        let* slots := ld 8 (r_slots page) in
        let* _ := st 8 p slots in
        let* _ := st 8 (r_slots page) p in
        thread_slots n' page sz (p - sz)
  end.
Definition class_size (c : Z) : Z := m__class !!! Z.to_nat c.
Definition m__newrun (c : Z) : prog uspace Z :=
  let* page := m__page in
  if page =? 0 then pret 0
  else
    let* idx := m__dir_cover page in
    if idx <? 0 then let* _ := m__insert page PGSIZE in pret 0
    else
      let* dir := ld 8 h_dir in
      let* _ := st 1 (dir + idx) (u8 (c + 1)) in
      let* head := ld 8 (h_runs c) in
      let* _ := st 8 (r_next page) head in
      let* _ := st 2 (r_cls page) c in
      let* _ := st 2 (r_used page) 0 in
      let* _ := st 8 (r_slots page) 0 in
      let sz := class_size c in
      let* _ := thread_slots 256 page sz (page + PGSIZE - sz) in
      let* _ := st 8 (h_runs c) page in
      let* n := ld 8 h_run_pages in
      let* _ := st 8 h_run_pages (u64 (n + 1)) in
      pret page.

(** [while (m__class[c] < n) c++;] *)
Fixpoint class_from (l : list Z) (c n : Z) : Z :=
  match l with
  | [] => c
  | sz :: l' => if sz <? n then class_from l' (c + 1) n else c
  end.
Definition class_for (n : Z) : Z := class_from m__class 0 n.
Definition take_slot (r c : Z) : prog uspace Z :=
  let* p := ld 8 (r_slots r) in
  let* next := ld 8 p in
  let* _ := st 8 (r_slots r) next in
  let* used := ld 2 (r_used r) in
  let* _ := st 2 (r_used r) (u16 (used + 1)) in
  let* slots := ld 8 (r_slots r) in
  let* _ := (if slots =? 0 then let* nx := ld 8 (r_next r) in st 8 (h_runs c) nx else pret ()) in
  pret p.
Definition m__malloc (n : Z) : prog uspace Z :=
  if n =? 0 then pret 0
  else
    let* _ := m__heap in
    if MAXSMALL <? n then m__big n
    else
      let c := class_for n in
      let* r := ld 8 (h_runs c) in
      let* r := (if r =? 0 then m__newrun c else pret r) in
      if r =? 0 then pret 0 else take_slot r c.

(** What the block or slot at [p] can hold. *)
Definition usable (p : Z) : prog uspace Z :=
  let* e := dir_entry (page_idx (page_of p)) in
  if e =? 0 then let* size := ld 8 (b_size (p - MHDR)) in pret (u64 (size - MHDR))
  else pret (class_size (e - 1)).
Definition m__realloc (p n : Z) : prog uspace Z :=
  if p =? 0 then m__malloc n
  else if n =? 0 then let* _ := m__free p in pret 0
  else
    let* _ := m__heap in
    let* have := usable p in
    if n <=? have then pret p
    else
      let* q := m__malloc n in
      if q =? 0 then pret 0
      else
        let* _ := m__copy q p (Z.to_nat have) in
        let* _ := m__free p in
        pret q.

(** ** The four that anybody calls *)

Definition malloc (n : Z) : prog uspace Z :=
  let* _ := m__lock in let* p := m__malloc n in let* _ := m__unlock in pret p.
Definition free (p : Z) : prog uspace () :=
  let* _ := m__lock in let* _ := m__free p in m__unlock.
Definition realloc (p n : Z) : prog uspace Z :=
  let* _ := m__lock in let* q := m__realloc p n in let* _ := m__unlock in pret q.
Definition calloc (n size : Z) : prog uspace Z :=
  let total := u64 (n * size) in
  if negb (n =? 0) && negb (total / n =? size) then pret 0
  else
    let* p := malloc total in
    let* _ := (if p =? 0 then pret () else m__zero p (Z.to_nat total)) in
    pret p.

(** ** Statistics *)

Record mstat := mkMstat
  { st_taken : Z; st_idle : Z; st_largest : Z; st_pieces : Z;
    st_run_bytes : Z; st_run_free : Z; st_runs : Z }.
Fixpoint stat_free (n : nat) (b idle largest pieces : Z) : prog uspace (Z * Z * Z) :=
  if b =? 0 then pret (idle, largest, pieces)
  else match n with
       | O => diverge
       | S n' =>
           let* size := ld 8 (b_size b) in
           let* next := ld 8 (b_next b) in
           stat_free n' next (u64 (idle + size)) (if largest <? size then size else largest) (pieces + 1)
       end.
Fixpoint stat_run (n : nat) (c r acc : Z) : prog uspace Z :=
  if r =? 0 then pret acc
  else match n with
       | O => diverge
       | S n' =>
           let* used := ld 2 (r_used r) in
           let* next := ld 8 (r_next r) in
           stat_run n' c next (u64 (acc + ((PGSIZE - MRUNHDR) / class_size c - used) * class_size c))
       end.
Fixpoint stat_classes (k : nat) (c acc : Z) : prog uspace Z :=
  match k with
  | O => pret acc
  | S k' =>
      let* f := gets heap_fuel in
      let* r := ld 8 (h_runs c) in
      let* acc := stat_run f c r acc in
      stat_classes k' (c + 1) acc
  end.
Definition malloc_stat : prog uspace mstat :=
  let* _ := m__lock in
  let* _ := m__heap in
  let* top := ld 8 h_top in
  let* f := gets heap_fuel in
  let* head := ld 8 h_free in
  let* (x, pieces) := stat_free f head 0 0 0 in
  let* runs := ld 8 h_run_pages in
  let* free := stat_classes NCLASS 0 0 in
  let* _ := m__unlock in
  pret (mkMstat (top - UHEAP_BASE) x.1 x.2 pieces (u64 (runs * PGSIZE)) free (i32 runs)).
End sbrk.

(** ** What the heap relies on *)

(** The break of a window, page-aligned and inside it. *)
Definition brk_ok (s : uspace) : Prop :=
  page_aligned (ubrk s) ∧ UHEAP_BASE + PGSIZE ≤ ubrk s ≤ UHEAP_TOP.

(** SYS_SBRK as its caller sees it: growing by whole pages fails and
    changes nothing, or answers with the old break, from which the new pages
    begin; shrinking to a break above the first page always succeeds.  What
    stays mapped keeps its content. *)
Class SbrkLaws (sys_sbrk : Z → prog uspace Z) := {
  sbrk_grow : ∀ d s, brk_ok s → 0 < d < 2 ^ 63 → page_aligned d →
    sys_sbrk d s = Some (SBRK_FAILED, s) ∨
    ∃ s', sys_sbrk d s = Some (ubrk s, s') ∧ ubrk s' = ubrk s + d ∧ ubrk s' ≤ UHEAP_TOP ∧
          ∀ x, x < ubrk s → rd8 (um s') x = rd8 (um s) x;
  sbrk_shrink : ∀ d s, brk_ok s → 0 < d → page_aligned d → UHEAP_BASE + PGSIZE ≤ ubrk s - d →
    ∃ s', sys_sbrk (- d) s = Some (ubrk s, s') ∧ ubrk s' = ubrk s - d ∧
          ∀ x, x < ubrk s' → rd8 (um s') x = rd8 (um s) x }.

(** The system call on a window of its own, with task.c's conditions; a
    page costs one frame. *)
Definition window_sbrk (d : Z) : prog uspace Z := λ s,
  let old := ubrk s in
  let want := u64 (old + u64 d) in
  if 0 <? d then
    if (UHEAP_TOP <? want) || (want <? old) || (uframes s <? d / PGSIZE) then Some (SBRK_FAILED, s)
    else Some (old, mkUspace (um s) want (uframes s - d / PGSIZE))
  else if d <? 0 then
    let want := if want <? UHEAP_BASE + PGSIZE then UHEAP_BASE + PGSIZE else want in
    Some (old, mkUspace (um s) want (uframes s + (old - want) / PGSIZE))
  else Some (old, s).
#[export] Instance window_sbrk_laws : SbrkLaws window_sbrk.
Proof.
  split; intros d s [Ha Hb] Hd Hp; unfold UHEAP_BASE, UHEAP_TOP, PGSIZE in *.
  - unfold window_sbrk. rewrite (proj2 (Z.ltb_lt 0 d)), !u64_small by (rewrite ?u64_small by lia; lia).
    destruct (_ || _) eqn:E; [by left|]. right. eexists. split; [reflexivity|].
    apply orb_false_iff in E as [[E%Z.ltb_ge _]%orb_false_iff _]. done.
  - intros Hw. unfold window_sbrk, u64. rewrite Zplus_mod_idemp_r, (Z.mod_small (ubrk s + - d)) by lia.
    rewrite (proj2 (Z.ltb_ge 0 (- d))), (proj2 (Z.ltb_lt (- d) 0)) by lia. unfold UHEAP_BASE, PGSIZE.
    destruct (_ <? _) eqn:E; [apply Z.ltb_lt in E; lia|].
    eexists. split; [reflexivity|]. simpl. split; [lia|done].
Qed.
