(* ===== verification/HeapPool.v ===== *)
(** * The heap's pool of blocks: invariant and correctness (malloc.h)

    The pool is the part of malloc.h below the runs: the address-ordered
    free list with its insertion, first fit, page cutting, growth and
    trimming.  Its invariant counts, for every byte of the window, the free
    and the owned pieces that cover it: the two lists tile the heap exactly,
    so that pieces never overlap and none is lost. *)
From stdpp Require Import base list numbers option gmap sorting.
From S2P Require Import Prelude Mem Riscv Heap.
Local Open Scope Z_scope.
Local Arguments load_le : simpl never.
Local Arguments store_le : simpl never.

(** ** Pieces of the window *)

Abbreviation extent := (Z * Z)%type.
Definition inside (x : Z) (e : extent) : bool := (e.1 <=? x) && (x <? e.1 + e.2).
Fixpoint cover (l : list extent) (x : Z) : Z :=
  match l with
  | [] => 0
  | e :: l' => (if inside x e then 1 else 0) + cover l' x
  end.
(** The free list in order of address, [g] apart at least. *)
Fixpoint ordered (g lo : Z) (l : list extent) : Prop :=
  match l with
  | [] => True
  | (a, sz) :: l' => lo + g ≤ a ∧ 16 ≤ sz ∧ ordered g (a + sz) l'
  end.
Fixpoint end_of (lo : Z) (l : list extent) : Z :=
  match l with [] => lo | (a, sz) :: l' => end_of (a + sz) l' end.
Definition unit_ok (e : extent) : Prop := e.1 mod 16 = 0 ∧ e.2 mod 16 = 0 ∧ 16 ≤ e.2.

Definition heap_first : Z := UHEAP_BASE + 192.

(** ** The free list in memory *)

(** The blocks [l], each linked to the next and the last one to [e]. *)
Definition head_or (l : list extent) (e : Z) : Z := match l with [] => e | (a, _) :: _ => a end.
Fixpoint chain_to (m : memory) (l : list extent) (e : Z) : Prop :=
  match l with
  | [] => True
  | (a, sz) :: l' => load_le 8 m a = sz ∧ load_le 8 m (a + 8) = head_or l' e ∧ chain_to m l' e
  end.
(** The same, hanging from the word at [cell]. *)
Definition seg (m : memory) (cell : Z) (l : list extent) (e : Z) : Prop :=
  load_le 8 m cell = head_or l e ∧ chain_to m l e.
(** The word that holds the link out of [l]. *)
Fixpoint last_cell (cell : Z) (l : list extent) : Z :=
  match l with [] => cell | (a, _) :: l' => last_cell (a + 8) l' end.
Definition link_of (prev : Z) : Z := if prev =? 0 then h_free else b_next prev.

(** Inserting a piece, joined with what it touches. *)
Definition join_right (a sz : Z) (l : list extent) : list extent :=
  match l with
  | (b, t) :: l' => if a + sz =? b then (a, sz + t) :: l' else (a, sz) :: l
  | [] => [(a, sz)]
  end.
Fixpoint finsert (a sz : Z) (l : list extent) : list extent :=
  match l with
  | [] => [(a, sz)]
  | (b, t) :: l' =>
      if b <? a then
        if b + t =? a then join_right b (t + sz) l' else (b, t) :: finsert a sz l'
      else join_right a sz l
  end.

(** ** The invariant *)

Record pool (F A : list extent) (s : uspace) : Prop := {
  pl_brk : brk_ok s;
  pl_top : load_le 8 (um s) h_top = ubrk s;
  pl_list : seg (um s) h_free F 0;
  pl_order : ordered 1 (heap_first - 1) F;
  pl_tiles : ∀ x, cover F x + cover A x = if decide (heap_first ≤ x < ubrk s) then 1 else 0;
  pl_units : Forall unit_ok (F ++ A) }.

(** The bytes that are not the pool's to write: the owned pieces, and the
    fields of the heap's header that belong to the runs. *)
Definition foreign (A : list extent) (x : Z) : Prop :=
  0 < cover A x ∨ UHEAP_BASE ≤ x < h_free ∨ h_top + 8 ≤ x < heap_first.
Definition kept (A : list extent) (s s' : uspace) : Prop :=
  ∀ x, foreign A x → rd8 (um s') x = rd8 (um s) x.

(** ** Lemmas on pieces *)

Lemma cover_nonneg l x : 0 ≤ cover l x.
Proof. induction l as [|e l IH]; simpl; [lia|]. destruct (inside x e); lia. Qed.
Lemma cover_app l1 l2 x : cover (l1 ++ l2) x = cover l1 x + cover l2 x.
Proof. induction l1 as [|e l IH]; simpl; [lia|]. rewrite IH. lia. Qed.
#[export] Instance cover_perm : Proper ((≡ₚ) ==> eq ==> eq) cover.
Proof. intros l l' H x ? <-. induction H; simpl; lia. Qed.
Lemma inside_spec x e : inside x e = true ↔ e.1 ≤ x < e.1 + e.2.
Proof. unfold inside. rewrite andb_true_iff, Z.leb_le, Z.ltb_lt. lia. Qed.
Lemma cover_elem l e x : e ∈ l → e.1 ≤ x < e.1 + e.2 → 1 ≤ cover l x.
Proof.
  intros (l1 & l2 & ->)%list_elem_of_split Hx%inside_spec.
  rewrite cover_app. simpl. rewrite Hx. pose proof (cover_nonneg l1 x). pose proof (cover_nonneg l2 x). lia.
Qed.
Lemma cover_split l a s t x :
  0 ≤ s → 0 ≤ t → cover ((a, s + t) :: l) x = cover ((a, s) :: (a + s, t) :: l) x.
Proof.
  intros. simpl. unfold inside. simpl.
  repeat match goal with |- context [?p <=? ?q] => destruct (Z.leb_spec p q)
                       | |- context [?p <? ?q] => destruct (Z.ltb_spec p q) end; simpl; lia.
Qed.
Lemma ordered_app g lo l1 l2 : ordered g lo (l1 ++ l2) ↔ ordered g lo l1 ∧ ordered g (end_of lo l1) l2.
Proof.
  revert lo. induction l1 as [|[a sz] l IH]; intros lo; simpl; [tauto|]. rewrite IH. tauto.
Qed.
Lemma ordered_weaken g g' lo lo' l : g' ≤ g → lo' + g' ≤ lo + g → ordered g lo l → ordered g' lo' l.
Proof.
  intros Hg. revert lo lo'. induction l as [|[a sz] l IH]; intros lo lo' Hlo; [done|].
  intros (? & ? & H). split_and!; [lia|done|]. apply (IH (a + sz)); [lia|done].
Qed.
Lemma end_of_app lo l1 l2 : end_of lo (l1 ++ l2) = end_of (end_of lo l1) l2.
Proof. revert lo. induction l1 as [|[a sz] l IH]; intros lo; simpl; [done|]. by rewrite IH. Qed.
Lemma ordered_end g lo l : 0 ≤ g → ordered g lo l → lo + 16 * Z.of_nat (length l) ≤ end_of lo l.
Proof.
  intros Hg. revert lo. induction l as [|[a sz] l IH]; intros lo; [simpl; lia|].
  intros (? & ? & H). specialize (IH _ H). cbn [end_of length]. lia.
Qed.
Lemma ordered_elem g lo l e : 0 ≤ g → ordered g lo l → e ∈ l → lo ≤ e.1 ∧ 16 ≤ e.2 ∧ e.1 + e.2 ≤ end_of lo l.
Proof.
  intros Hg. revert lo. induction l as [|[a sz] l IH]; intros lo; [by intros _ ?%not_elem_of_nil|].
  intros (? & ? & H) [->|Hin]%elem_of_cons; simpl.
  - pose proof (ordered_end _ _ _ Hg H). lia.
  - specialize (IH _ H Hin). lia.
Qed.

(** ** Lemmas on the list in memory *)

Lemma head_or_app l1 l2 e : head_or (l1 ++ l2) e = head_or l1 (head_or l2 e).
Proof. by destruct l1 as [|[]]. Qed.
Lemma chain_to_app m l1 l2 e : chain_to m (l1 ++ l2) e ↔ chain_to m l1 (head_or l2 e) ∧ chain_to m l2 e.
Proof.
  induction l1 as [|[a sz] l IH]; simpl; [tauto|]. rewrite IH, head_or_app. tauto.
Qed.
Lemma chain_to_ext m m' l e :
  (∀ f x, f ∈ l → f.1 ≤ x < f.1 + 16 → rd8 m' x = rd8 m x) → chain_to m l e → chain_to m' l e.
Proof.
  induction l as [|[a sz] l IH]; intros Hx; [done|]. intros (H1 & H2 & H3).
  pose proof (Hx (a, sz)) as Ha. simpl in Ha.
  split_and!; [| |apply IH; [|done]; intros f x Hf; apply Hx; set_solver].
  - rewrite <- H1. apply load_le_ext. intros x Hr. apply Ha; [set_solver|lia].
  - rewrite <- H2. apply load_le_ext. intros x Hr. apply Ha; [set_solver|lia].
Qed.
Lemma last_cell_app c l1 l2 : last_cell c (l1 ++ l2) = last_cell (last_cell c l1) l2.
Proof. revert c. induction l1 as [|[a sz] l IH]; intros c; simpl; auto. Qed.
Lemma last_cell_range g lo c l :
  0 ≤ g → ordered g lo l → c + 8 ≤ lo → last_cell c l = c ∨ lo + 8 ≤ last_cell c l ∧ last_cell c l + 8 ≤ end_of lo l.
Proof.
  intros Hg. revert lo c. induction l as [|[a sz] l IH]; intros lo c; [by left|].
  intros (? & ? & H) Hc. right. simpl. destruct l as [|[b t] l].
  - simpl. lia.
  - destruct (IH (a + sz) (a + 8) H) as [E|E]; [lia| |lia].
    rewrite E. pose proof (ordered_end _ _ _ Hg H). cbn [length] in *. lia.
Qed.
(** Changing the link out of a segment. *)
Lemma relink m lo c l e e' :
  seg m c l e → ordered 0 lo l → c + 8 ≤ lo → 0 ≤ e' < 2 ^ 64 →
  seg (store_le 8 m (last_cell c l) e') c l e'.
Proof.
  intros [H1 H2] Ho Hc He. revert lo c H1 Ho Hc. induction l as [|[a sz] l IH]; intros lo c H1 Ho Hc.
  - split; [|done]. simpl. rewrite load_store_le. by apply Z.mod_small.
  - destruct H2 as (H2 & H3 & H4), Ho as (? & ? & Ho). simpl in *.
    destruct (IH H4 (a + 16) (a + 8) H3) as [K1 K2];
      [eapply ordered_weaken; [..|exact Ho]; lia|lia|].
    pose proof (last_cell_range 0 (a + 16) (a + 8) l ltac:(lia)
                  ltac:(eapply ordered_weaken; [..|exact Ho]; lia) ltac:(lia)) as Hl.
    split; [|split_and!; [|done|done]]; rewrite load_store_le_ne by lia; done.
Qed.
Lemma seg_ext m m' c l e :
  (∀ x, c ≤ x < c + 8 → rd8 m' x = rd8 m x) →
  (∀ f x, f ∈ l → f.1 ≤ x < f.1 + 16 → rd8 m' x = rd8 m x) → seg m c l e → seg m' c l e.
Proof.
  intros Hc Hf [H1 H2]. split; [|by eapply chain_to_ext].
  rewrite <- H1. apply load_le_ext. auto.
Qed.
Lemma seg_split m c l1 l2 e : seg m c (l1 ++ l2) e ↔ seg m c l1 (head_or l2 e) ∧ chain_to m l2 e.
Proof. unfold seg. rewrite head_or_app, chain_to_app. tauto. Qed.

(** ** Access rules *)

Definition set_um (s : uspace) (m : memory) : uspace := mkUspace m (ubrk s) (uframes s).
Lemma ld_eq n a s :
  UHEAP_BASE ≤ a → a + Z.of_nat n ≤ ubrk s → ld n a s = Some (load_le n (um s) a, s).
Proof.
  intros H1 H2. unfold ld, mapped. by rewrite (proj2 (Z.leb_le _ _) H1), (proj2 (Z.leb_le _ _) H2).
Qed.
Lemma wp_ld n a Q s :
  UHEAP_BASE ≤ a → a + Z.of_nat n ≤ ubrk s → Q (load_le n (um s) a) s → wp (ld n a) Q s.
Proof.
  intros H1 H2 HQ. unfold wp. by rewrite ld_eq.
Qed.
Lemma wp_st n a v Q s :
  UHEAP_BASE ≤ a → a + Z.of_nat n ≤ ubrk s → Q () (set_um s (store_le n (um s) a v)) → wp (st n a v) Q s.
Proof.
  intros H1 H2 HQ. unfold wp, st, mapped.
  by rewrite (proj2 (Z.leb_le _ _) H1), (proj2 (Z.leb_le _ _) H2).
Qed.

(** Addresses of the header as offsets, for linear arithmetic. *)
Ltac heap_unfold :=
  unfold heap_first, h_lock, h_magic, h_free, h_top, h_runs, h_dir, h_dirlen, h_run_pages, sizeof_mheap, b_size,
    b_next, r_next, r_slots, r_cls, r_used, UHEAP_BASE, UHEAP_TOP, PGSIZE, MRUNHDR in *.
Ltac heap_lia := heap_unfold; unfold set_um in *; cbn [ubrk um] in *; simpl Z.of_nat in *; lia.
(** One step of a straight-line program. *)
Ltac wp_step :=
  match goal with
  | |- wp (pbind _ _) _ _ => apply wp_bind
  | |- wp (ld _ _) _ _ => apply wp_ld; [heap_lia|heap_lia|]
  | |- wp (st _ _ _) _ _ => apply wp_st; [heap_lia|heap_lia|]
  | |- wp (pret _) _ _ => apply wp_ret
  | |- wp (gets _) _ _ => apply wp_gets
  end; cbv beta.
Ltac wp_steps := repeat wp_step.

(** ** Facts that follow from the invariant *)

Lemma exists_last' {T} (l : list T) : l = [] ∨ ∃ l' x, l = l' ++ [x].
Proof. induction l as [|x l _] using rev_ind; eauto. Qed.

Definition apart (e f : extent) : Prop := e.1 + e.2 ≤ f.1 ∨ f.1 + f.2 ≤ e.1.

Section facts.
Context (F A : list extent) (s : uspace) (P : pool F A s).

Lemma unit_in e : e ∈ F ++ A → unit_ok e.
Proof. intros He. pose proof (pl_units _ _ _ P) as H. rewrite Forall_forall in H. auto. Qed.
Lemma piece_range e : e ∈ F ++ A → heap_first ≤ e.1 ∧ e.1 + e.2 ≤ ubrk s.
Proof.
  intros He. destruct (unit_in e He) as (_ & _ & Hs).
  assert (∀ x, e.1 ≤ x < e.1 + e.2 → heap_first ≤ x < ubrk s) as H.
  { intros x Hx. pose proof (cover_elem _ _ _ He Hx) as Hc. rewrite cover_app, (pl_tiles _ _ _ P) in Hc.
    by destruct (decide _). }
  pose proof (H e.1). pose proof (H (e.1 + e.2 - 1)). lia.
Qed.
Lemma free_apart e f : e ∈ F → f ∈ A → apart e f.
Proof.
  intros He Hf. unfold apart.
  destruct (unit_in e) as (_ & _ & Hs); [set_solver|]. destruct (unit_in f) as (_ & _ & Ht); [set_solver|].
  destruct (decide (e.1 + e.2 ≤ f.1)); [by left|]. destruct (decide (f.1 + f.2 ≤ e.1)); [by right|]. exfalso.
  pose proof (cover_elem _ _ (Z.max e.1 f.1) He ltac:(lia)).
  pose proof (cover_elem _ _ (Z.max e.1 f.1) Hf ltac:(lia)).
  pose proof (pl_tiles _ _ _ P (Z.max e.1 f.1)). destruct (decide _); lia.
Qed.
Lemma free_foreign e x : e ∈ F → e.1 ≤ x < e.1 + e.2 → ¬ foreign A x.
Proof.
  intros He Hx. pose proof (cover_elem _ _ _ He Hx). pose proof (pl_tiles _ _ _ P x).
  destruct (piece_range e) as [? ?]; [set_solver|]. unfold foreign. destruct (decide _); heap_lia.
Qed.
Lemma pool_length : (length F < heap_fuel s)%nat.
Proof.
  pose proof (pl_order _ _ _ P) as Ho. pose proof (ordered_end 1 _ _ ltac:(lia) Ho) as H.
  assert (end_of (heap_first - 1) F ≤ ubrk s).
  { destruct (exists_last' F) as [HF|(l & [a z] & HF)]; rewrite HF.
    - destruct (pl_brk _ _ _ P). simpl. heap_lia.
    - destruct (piece_range (a, z)) as [_ ?]; [set_solver|]. by rewrite end_of_app. }
  unfold heap_fuel. heap_unfold. apply Nat2Z.inj_lt. rewrite Nat2Z.inj_succ, Z2Nat.id by ldiv. ldiv.
Qed.
End facts.

(** ** Insertion *)

Lemma split_free lo l b sz :
  ordered 1 lo l → (∀ e, e ∈ l → apart e (b, sz)) → 16 ≤ sz →
  ∃ l1 l2, l = l1 ++ l2 ∧ (∀ e, e ∈ l1 → e.1 + e.2 ≤ b) ∧ (∀ e, e ∈ l2 → b + sz ≤ e.1).
Proof.
  revert lo. induction l as [|[a t] l IH]; intros lo Ho Hap Hs; [exists [], []; set_solver|].
  destruct Ho as (? & ? & Ho). destruct (Hap (a, t)) as [H1|H1]; [set_solver|..]; simpl in *.
  - destruct (IH _ Ho) as (l1 & l2 & -> & K1 & K2); [set_solver|done|].
    exists ((a, t) :: l1), l2. split_and!; [done| |done]. intros e [->|]%elem_of_cons; auto.
  - exists [], ((a, t) :: l). split_and!; [done|set_solver|]. intros e [->|He]%elem_of_cons; [done|].
    pose proof (ordered_elem 1 _ _ _ ltac:(lia) Ho He). lia.
Qed.
Lemma cover_join_right l a z x :
  0 ≤ z → (∀ e, e ∈ l → 0 ≤ e.2) → cover (join_right a z l) x = cover ((a, z) :: l) x.
Proof.
  intros Hz Hl. destruct l as [|[b t] l]; [done|]. simpl join_right.
  destruct (Z.eqb_spec (a + z) b) as [<-|]; [|done]. apply cover_split; [done|]. apply (Hl (a + z, t)). set_solver.
Qed.
Lemma cover_finsert l a z x :
  0 ≤ z → (∀ e, e ∈ l → 0 ≤ e.2) → cover (finsert a z l) x = cover ((a, z) :: l) x.
Proof.
  intros Hz. induction l as [|[b t] l IH]; intros Hl; [done|]. cbn [finsert].
  assert (0 ≤ t) by (apply (Hl (b, t)); set_solver).
  destruct (Z.ltb_spec b a); [|by apply cover_join_right].
  destruct (Z.eqb_spec (b + t) a) as [<-|].
  - rewrite cover_join_right; [|lia|set_solver]. rewrite cover_split by done. simpl. lia.
  - simpl. rewrite IH by set_solver. simpl. lia.
Qed.
Lemma ordered_join_right lo l a z :
  lo + 1 ≤ a → 16 ≤ z → ordered 0 (a + z) l → ordered 1 lo l → ordered 1 lo (join_right a z l).
Proof.
  intros Ha Hz H0 H1. destruct l as [|[b t] l]; [simpl; lia|]. simpl in *.
  destruct (Z.eqb_spec (a + z) b) as [<-|]; simpl.
  - split_and!; [lia..|]. replace (a + (z + t)) with (a + z + t) by lia. tauto.
  - split_and!; [lia..|tauto|tauto].
Qed.
Lemma ordered_finsert lo l a z :
  ordered 1 lo l → lo + 1 ≤ a → (∀ e, e ∈ l → apart e (a, z)) → 16 ≤ z → ordered 1 lo (finsert a z l).
Proof.
  intros Ho Hlo Hap Hz. revert lo Ho Hlo. induction l as [|[b t] l IH]; intros lo Ho Hlo; [simpl; lia|].
  destruct Ho as (Hb & Ht & Ho). destruct (Hap (b, t)) as [H1|H1]; [set_solver|..]; simpl in H1; cbn [finsert].
  - rewrite (proj2 (Z.ltb_lt b a)) by lia. destruct (Z.eqb_spec (b + t) a) as [E|].
    + assert (ordered 0 (b + (t + z)) l) as Ho'.
      { destruct l as [|[c u] l']; [done|]. destruct (Hap (c, u)) as [H2|H2]; [set_solver|..]; simpl in *; [lia|].
        destruct Ho as (? & ? & Ho). split_and!; [lia|lia|]. eapply ordered_weaken; [..|exact Ho]; lia. }
      apply ordered_join_right; [lia|lia|done|]. eapply ordered_weaken; [..|exact Ho]; lia.
    + split_and!; [lia|lia|]. apply IH; [set_solver|done|lia].
  - rewrite (proj2 (Z.ltb_ge b a)) by lia. apply ordered_join_right; [lia|done|..].
    + split_and!; [lia|lia|]. eapply ordered_weaken; [..|exact Ho]; lia.
    + by split_and!.
Qed.
Lemma units_join_right l a z : unit_ok (a, z) → Forall unit_ok l → Forall unit_ok (join_right a z l).
Proof.
  intros Hu Hl. destruct l as [|[b t] l]; [by constructor|]. apply list.Forall_cons in Hl as [Hb Hl]. simpl.
  destruct (Z.eqb_spec (a + z) b) as [<-|]; repeat constructor; try done; unfold unit_ok in *; simpl in *;
    destruct Hu as (? & ? & ?), Hb as (? & ? & ?); try lia; ldiv.
Qed.
Lemma units_finsert l a z : unit_ok (a, z) → Forall unit_ok l → Forall unit_ok (finsert a z l).
Proof.
  intros Hu. induction l as [|[b t] l IH]; intros Hl; [by constructor|].
  pose proof Hl as [Hb Hl']%list.Forall_cons. cbn [finsert].
  destruct (b <? a); [|by apply units_join_right].
  destruct (Z.eqb_spec (b + t) a) as [<-|].
  - apply units_join_right; [|done]. unfold unit_ok in *; simpl in *.
    destruct Hu as (? & ? & ?), Hb as (? & ? & ?). split_and!; [lia|ldiv|lia].
  - constructor; auto.
Qed.

Fixpoint last_addr (prev : Z) (l : list extent) : Z :=
  match l with [] => prev | (a, _) :: l' => last_addr a l' end.
Lemma link_last prev l : (∀ e, e ∈ l → e.1 ≠ 0) → link_of (last_addr prev l) = last_cell (link_of prev) l.
Proof.
  revert prev. induction l as [|[a z] l IH]; intros prev Hl; [done|]. simpl. rewrite IH by set_solver.
  f_equal. unfold link_of. by rewrite (proj2 (Z.eqb_neq a 0)) by (apply (Hl (a, z)); set_solver).
Qed.
Lemma wp_set_link prev v Q s :
  UHEAP_BASE ≤ link_of prev → link_of prev + 8 ≤ ubrk s →
  Q () (set_um s (store_le 8 (um s) (link_of prev) v)) → wp (set_link prev v) Q s.
Proof. unfold set_link, link_of. intros. destruct (prev =? 0); by apply wp_st. Qed.

(** Addresses of blocks, as the code tests them. *)
Definition block_addr (s : uspace) (e : extent) : Prop := heap_first ≤ e.1 ∧ 16 ≤ e.2 ∧ e.1 + e.2 ≤ ubrk s.
Lemma insert_scan_spec n b l1 l2 prev s :
  chain_to (um s) (l1 ++ l2) 0 → (∀ e, e ∈ l1 → block_addr s e ∧ e.1 < b) →
  (∀ e, e ∈ l2 → block_addr s e ∧ b ≤ e.1) → (length l1 ≤ n)%nat →
  insert_scan n b prev (head_or (l1 ++ l2) 0) s = Some ((last_addr prev l1, head_or l2 0), s).
Proof.
  revert l1 prev. induction n as [|n IH]; intros l1 prev Hc H1 H2 Hn; destruct l1 as [|[a z] l1]; simpl in Hn; try lia.
  1,2: assert ((head_or l2 0 =? 0) || (b <=? head_or l2 0) = true) as E;
    [destruct l2 as [|[c t] l2]; [done|]; destruct (H2 (c, t)); [set_solver|]; simpl in *;
     rewrite (proj2 (Z.leb_le b c)) by done; by rewrite orb_true_r
    |simpl; by rewrite E].
  destruct Hc as (_ & Hnx & Hc). destruct (H1 (a, z)) as [(Ha & Hz & He) Hb]; [set_solver|]. simpl in *.
  rewrite (proj2 (Z.eqb_neq a 0)), (proj2 (Z.leb_gt b a)) by heap_lia. simpl.
  rewrite (pbind_eq _ _ _ _ _ (ld_eq 8 (b_next a) s ltac:(heap_lia) ltac:(heap_lia))).
  unfold b_next. rewrite Hnx. apply IH; [done| |done|lia]. intros f Hf. apply H1, elem_of_cons. by right.
Qed.

(** Merging two neighbours of the list. *)
Lemma wp_join lo l1 b bs d ds l2 Q s :
  seg (um s) h_free (l1 ++ (b, bs) :: (d, ds) :: l2) 0 →
  ordered 0 lo (l1 ++ (b, bs) :: (d, ds) :: l2) → heap_first ≤ lo →
  (∀ e, e ∈ l1 ++ (b, bs) :: (d, ds) :: l2 → e.1 + e.2 ≤ ubrk s) → ubrk s ≤ UHEAP_TOP →
  (∀ m', seg m' h_free (l1 ++ (b, bs + ds) :: l2) 0 →
     (∀ x, ¬ (b ≤ x < b + 16) → rd8 m' x = rd8 (um s) x) → Q () (set_um s m')) →
  wp (join b d) Q s.
Proof.
  intros [H1 H2] Ho Hlo Hin Htop HQ.
  apply ordered_app in Ho as [Ho1 (Hb & Hbs & Hd & Hds & Ho2)].
  pose proof (ordered_end 0 _ _ ltac:(lia) Ho1) as Hend.
  pose proof (Hin (b, bs) ltac:(set_solver)). pose proof (Hin (d, ds) ltac:(set_solver)). simpl in *.
  apply chain_to_app in H2 as [H2 (H3 & H4 & H5 & H6 & H7)]. simpl in H4.
  unfold join. wp_steps.
  unfold b_size, b_next. simpl. rewrite H3, H5, (u64_small (bs + ds)) by heap_lia.
  rewrite (load_store_le_ne 8 8 _ b) by heap_lia. rewrite H6. unfold set_um. simpl.
  assert (0 ≤ head_or l2 0 < 2 ^ 64) as Hh.
  { destruct l2 as [|[c t] l2]; [simpl; lia|]. pose proof (Hin (c, t) ltac:(set_solver)). simpl in *. heap_lia. }
  apply HQ.
  - assert (∀ l x, ¬ (b ≤ x < b + 16) →
      rd8 (store_le 8 (store_le 8 (um s) b (bs + ds)) (b + 8) l) x = rd8 (um s) x) as Hx.
    { intros l x Hx. rewrite !rd8_store_le by lia. done. }
    apply seg_split. simpl. split; [split|split_and!].
    + rewrite !load_store_le_ne by heap_lia. by rewrite H1, head_or_app.
    + eapply chain_to_ext; [|exact H2]. intros f x Hf Hr. apply Hx.
      pose proof (ordered_elem 0 _ _ _ ltac:(lia) Ho1 Hf). lia.
    + rewrite load_store_le_ne by lia. rewrite load_store_le. apply Z.mod_small. change (256 ^ Z.of_nat 8) with (2 ^ 64). heap_lia.
    + rewrite load_store_le. apply Z.mod_small. done.
    + eapply chain_to_ext; [|exact H7]. intros f x Hf Hr. apply Hx.
      pose proof (ordered_elem 0 _ _ _ ltac:(lia) Ho2 Hf). lia.
  - intros x Hx. rewrite !rd8_store_le by lia. done.
Qed.

Lemma finsert_far l1 l2 b z :
  (∀ e, e ∈ l1 → e.1 < b ∧ e.1 + e.2 < b) → finsert b z (l1 ++ l2) = l1 ++ finsert b z l2.
Proof.
  induction l1 as [|[a t] l IH]; intros Hl; [done|].
  destruct (Hl (a, t)); [set_solver|]. simpl in *.
  rewrite (proj2 (Z.ltb_lt a b)), (proj2 (Z.eqb_neq (a + t) b)) by lia. f_equal. apply IH. set_solver.
Qed.
Lemma finsert_near l b z : (∀ e, e ∈ l → b + z ≤ e.1) → 16 ≤ z → finsert b z l = join_right b z l.
Proof.
  intros Hl Hz. destruct l as [|[a t] l]; [done|]. specialize (Hl (a, t) ltac:(set_solver)). simpl in *.
  by rewrite (proj2 (Z.ltb_ge a b)) by lia.
Qed.

(** The three stores that link [b] in between [l1] and [l2]. *)
Lemma insert_linked m lo l1 l2 b z :
  seg m h_free (l1 ++ l2) 0 → ordered 0 lo (l1 ++ (b, z) :: l2) → heap_first ≤ lo →
  b < 2 ^ 63 → z < 2 ^ 63 → 0 ≤ head_or l2 0 < 2 ^ 64 →
  seg (store_le 8 (store_le 8 (store_le 8 m b z) (b + 8) (head_or l2 0)) (last_cell h_free l1) b)
      h_free (l1 ++ (b, z) :: l2) 0.
Proof.
  intros [H1 H2]%seg_split Ho Hlo Hb Hz Hh. apply ordered_app in Ho as [Ho1 (Hb1 & Hz1 & Ho2)].
  pose proof (ordered_end 0 _ _ ltac:(lia) Ho1) as Hend.
  pose proof (last_cell_range 0 lo h_free l1 ltac:(lia) Ho1 ltac:(heap_lia)) as Hlast.
  set (m2 := store_le 8 (store_le 8 m b z) (b + 8) (head_or l2 0)).
  assert (∀ x, ¬ (b ≤ x < b + 16) → rd8 m2 x = rd8 m x) as Hx.
  { intros x Hx. unfold m2. rewrite !rd8_store_le by lia. done. }
  assert (seg m2 h_free l1 (head_or l2 0)) as K1.
  { eapply seg_ext; [..|exact H1].
    - intros x Hr. apply Hx. heap_lia.
    - intros f x Hf Hr. apply Hx. pose proof (ordered_elem 0 _ _ _ ltac:(lia) Ho1 Hf). lia. }
  apply seg_split. simpl. split; [|split_and!].
  - eapply relink; [exact K1|exact Ho1|heap_lia|heap_lia].
  - rewrite load_store_le_ne by heap_lia. unfold m2. rewrite load_store_le_ne, load_store_le by lia.
    apply Z.mod_small. change (256 ^ Z.of_nat 8) with (2 ^ 64). lia.
  - rewrite load_store_le_ne by heap_lia. unfold m2. rewrite load_store_le. by apply Z.mod_small.
  - eapply chain_to_ext; [|exact H2]. intros f x Hf Hr.
    pose proof (ordered_elem 0 _ _ _ ltac:(lia) Ho2 Hf). rewrite rd8_store_le by heap_lia. apply Hx. lia.
Qed.

Lemma wp_touches b c Q s :
  UHEAP_BASE ≤ b → b + 8 ≤ ubrk s → ubrk s ≤ UHEAP_TOP → b + load_le 8 (um s) b ≤ ubrk s →
  Q (b + load_le 8 (um s) b =? c) s → wp (touches b c) Q s.
Proof.
  intros. unfold touches. wp_steps. unfold b_size. rewrite u64_small; [done|].
  pose proof (load_le_range 8 (um s) b). heap_lia.
Qed.

Definition in_range (s : uspace) (l : list extent) : Prop := ∀ e, e ∈ l → e.1 + e.2 ≤ ubrk s.
(** Joining the block after [l1] with the one to its right. *)
Lemma wp_join_right lo l1 b z l2 Q s :
  seg (um s) h_free (l1 ++ (b, z) :: l2) 0 → ordered 0 lo (l1 ++ (b, z) :: l2) → heap_first ≤ lo →
  in_range s (l1 ++ (b, z) :: l2) → ubrk s ≤ UHEAP_TOP →
  (∀ m', seg m' h_free (l1 ++ join_right b z l2) 0 →
     (∀ x, ¬ (b ≤ x < b + 16) → rd8 m' x = rd8 (um s) x) → Q () (set_um s m')) →
  wp (if head_or l2 0 =? 0 then pret ()
      else let* t := touches b (head_or l2 0) in if t then join b (head_or l2 0) else pret ()) Q s.
Proof.
  intros Hseg Ho Hlo Hin Htop HQ.
  assert (wp (pret ()) Q s ∨ ∃ c t l3, l2 = (c, t) :: l3 ∧ b + z = c) as D.
  { destruct l2 as [|[c t] l3]; [left|destruct (decide (b + z = c)); [right; eauto|left]].
    all: apply wp_ret; replace s with (set_um s (um s)) by (by destruct s); apply HQ; [|done].
    - exact Hseg.
    - simpl. by rewrite (proj2 (Z.eqb_neq (b + z) c)). }
  pose proof Ho as [Ho1 (Hb & Hz & Ho2)]%ordered_app. pose proof (ordered_end 0 _ _ ltac:(lia) Ho1) as Hend.
  pose proof (Hin (b, z) ltac:(set_solver)) as Hr. simpl in Hr.
  pose proof Hseg as [_ (Hld & _)]%seg_split.
  destruct (Z.eqb_spec (head_or l2 0) 0) as [E|E].
  - destruct D as [D|(c & t & l3 & -> & Hc)]; [done|]. simpl in *. heap_lia.
  - apply wp_bind, wp_touches; rewrite ?Hld; [heap_lia..|].
    destruct (Z.eqb_spec (b + z) (head_or l2 0)) as [Hc|Hc]; destruct D as [D|(c & t & l3 & -> & Hc')]; try done.
    + destruct l2 as [|[c t] l3]; [done|]. simpl in *. subst c. eapply wp_join; [exact Hseg|exact Ho|done..|].
      intros m' Hm. apply HQ. by rewrite Z.eqb_refl.
    + simpl in *. subst c. eapply wp_join; [exact Hseg|exact Ho|done..|].
      intros m' Hm. apply HQ. by rewrite Z.eqb_refl.
Qed.

(** The same to the left: [l1] ends with the block before [b]. *)
Lemma wp_join_left lo l1 b z l2 Q s :
  seg (um s) h_free (l1 ++ (b, z) :: l2) 0 → ordered 0 lo (l1 ++ (b, z) :: l2) → heap_first ≤ lo →
  in_range s (l1 ++ (b, z) :: l2) → ubrk s ≤ UHEAP_TOP →
  (∀ m' l', seg m' h_free l' 0 →
     (l' = l1 ++ (b, z) :: l2 ∧ (∀ e, e ∈ l1 → e.1 + e.2 ≠ b) ∨
      ∃ l p t, l1 = l ++ [(p, t)] ∧ p + t = b ∧ l' = l ++ (p, t + z) :: l2) →
     (∀ x, (∀ e, e ∈ l1 → ¬ (e.1 ≤ x < e.1 + 16)) → rd8 m' x = rd8 (um s) x) → Q () (set_um s m')) →
  wp (if last_addr 0 l1 =? 0 then pret ()
      else let* t := touches (last_addr 0 l1) b in if t then join (last_addr 0 l1) b else pret ()) Q s.
Proof.
  intros Hseg Ho Hlo Hin Htop HQ. pose proof Ho as [Ho1 (Hb & Hz & Ho2)]%ordered_app.
  assert ((∀ e, e ∈ l1 → e.1 + e.2 ≠ b) → wp (pret ()) Q s) as Hnone.
  { intros Hne. apply wp_ret. replace s with (set_um s (um s)) by (by destruct s). eapply HQ; eauto. }
  destruct (exists_last' l1) as [->|(l & [p t] & ->)]; [apply Hnone; set_solver|].
  assert (last_addr 0 (l ++ [(p, t)]) = p) as ->.
  { clear. generalize 0. induction l as [|[a u] l IH]; intros y; [done|]. apply IH. }
  apply ordered_app in Ho1 as [Ho1 (Hp & Ht & _)]. rewrite end_of_app in Hb. simpl in Hb.
  pose proof (ordered_end 0 _ _ ltac:(lia) Ho1) as Hend.
  pose proof (Hin (p, t) ltac:(set_solver)) as Hr. simpl in Hr.
  rewrite <- app_assoc in Hseg, Ho, Hin. simpl in Hseg, Ho, Hin.
  pose proof Hseg as [_ (Hld & _)]%seg_split.
  rewrite (proj2 (Z.eqb_neq p 0)) by heap_lia. apply wp_bind, wp_touches; rewrite ?Hld; [heap_lia..|].
  destruct (Z.eqb_spec (p + t) b) as [Hc|Hc].
  - subst b. eapply wp_join; [exact Hseg|exact Ho|done..|]. intros m' Hm Hx.
    eapply HQ; [exact Hm|right; eauto 10|].
    intros x Hne. apply Hx. apply (Hne (p, t)). set_solver.
  - apply Hnone. intros e [He|He%list_elem_of_singleton]%elem_of_app; [|by subst e].
    pose proof (ordered_elem 0 _ _ _ ltac:(lia) Ho1 He). lia.
Qed.

Lemma own_foreign F A e s x : pool F (e :: A) s → e.1 ≤ x < e.1 + e.2 → ¬ foreign A x.
Proof.
  intros P Hx. destruct (piece_range _ _ _ P e) as [? ?]; [set_solver|].
  pose proof (pl_tiles _ _ _ P x) as Ht. simpl in Ht.
  rewrite (proj2 (inside_spec x e) Hx) in Ht. pose proof (cover_nonneg F x).
  unfold foreign. destruct (decide _); heap_lia.
Qed.
Lemma foreign_cons A e x : foreign A x → foreign (e :: A) x.
Proof. unfold foreign. simpl. destruct (inside x e); lia. Qed.
Lemma foreign_free A x : h_free ≤ x < h_top + 8 → cover A x = 0 → ¬ foreign A x.
Proof. unfold foreign. intros. heap_lia. Qed.
Lemma header_uncovered F A s x : pool F A s → x < heap_first → cover A x = 0.
Proof.
  intros P Hx. pose proof (pl_tiles _ _ _ P x). pose proof (cover_nonneg F x). pose proof (cover_nonneg A x).
  destruct (decide _); lia.
Qed.

Lemma ordered_mid lo l1 l2 b z :
  ordered 1 lo (l1 ++ l2) → (∀ e, e ∈ l1 → e.1 + e.2 ≤ b) → (∀ e, e ∈ l2 → b + z ≤ e.1) →
  lo + 1 ≤ b → 16 ≤ z → ordered 0 (lo + 1) (l1 ++ (b, z) :: l2).
Proof.
  intros [Ho1 Ho2]%ordered_app H1 H2 Hlo Hz. apply ordered_app. split_and!.
  - eapply ordered_weaken; [..|exact Ho1]; lia.
  - split_and!; [|done|].
    + destruct (exists_last' l1) as [->|(l & [p t] & ->)]; [simpl; lia|].
      rewrite end_of_app. specialize (H1 (p, t) ltac:(set_solver)). simpl in *. lia.
    + destruct l2 as [|[c t] l2]; [done|]. destruct Ho2 as (? & ? & Ho2).
      specialize (H2 (c, t) ltac:(set_solver)). simpl in *. split_and!; [lia|done|].
      eapply ordered_weaken; [..|exact Ho2]; lia.
Qed.
Lemma end_of_weaken lo lo' l : l ≠ [] → end_of lo l = end_of lo' l.
Proof. by destruct l as [|[]]. Qed.

Lemma join_right_form a z l :
  ∃ z' l3, join_right a z l = (a, z') :: l3 ∧
    ∀ p t, p + t = a → join_right p (t + z) l = (p, t + z') :: l3.
Proof.
  destruct l as [|[c u] l]; simpl; [by exists z, []|]. destruct (Z.eqb_spec (a + z) c) as [<-|Hne].
  - exists (z + u), l. split; [done|]. intros p t <-. rewrite (proj2 (Z.eqb_eq _ _)) by lia. do 2 f_equal. lia.
  - exists z, ((c, u) :: l). split; [done|]. intros p t <-. by rewrite (proj2 (Z.eqb_neq _ _)) by lia.
Qed.
(** What the two joins leave is what [finsert] describes. *)
Lemma finsert_result lo l1 l2 b z z' l3 l' :
  ordered 0 lo l1 → (∀ e, e ∈ l1 → e.1 + e.2 ≤ b) → (∀ e, e ∈ l2 → b + z ≤ e.1) → 16 ≤ z →
  join_right b z l2 = (b, z') :: l3 →
  (∀ p t, p + t = b → join_right p (t + z) l2 = (p, t + z') :: l3) →
  (l' = l1 ++ (b, z') :: l3 ∧ (∀ e, e ∈ l1 → e.1 + e.2 ≠ b) ∨
   ∃ l p t, l1 = l ++ [(p, t)] ∧ p + t = b ∧ l' = l ++ (p, t + z') :: l3) →
  l' = finsert b z (l1 ++ l2).
Proof.
  intros Ho H1 H2 Hz Hj Hj' Hres.
  assert (∀ e, e ∈ l1 → 16 ≤ e.2) as Hs by (intros e He; apply (ordered_elem 0 _ _ _ ltac:(lia) Ho He)).
  destruct Hres as [[-> Hne]|(l & p & t & -> & Hb & ->)].
  - rewrite finsert_far, finsert_near, Hj; [done..|].
    intros e He. pose proof (H1 e He). pose proof (Hne e He). pose proof (Hs e He). lia.
  - rewrite <- app_assoc. apply ordered_app in Ho as [Ho (Hp & Ht & _)]. simpl. rewrite finsert_far; cycle 1.
    { intros e He. pose proof (ordered_elem 0 _ _ _ ltac:(lia) Ho He). lia. }
    simpl. rewrite (proj2 (Z.ltb_lt p b)), (proj2 (Z.eqb_eq (p + t) b)) by lia. by rewrite Hj'.
Qed.
Lemma join_right_elem a z l e : e ∈ join_right a z l → e ∈ l ∨ e.1 = a ∧ (e.2 = z ∨ ∃ u, (a + z, u) ∈ l ∧ e.2 = z + u).
Proof.
  destruct l as [|[c u] l]; simpl; [intros ->%list_elem_of_singleton; auto|].
  destruct (Z.eqb_spec (a + z) c) as [<-|]; rewrite !elem_of_cons; intros Hc; [|set_solver].
  destruct Hc as [->|]; [|set_solver]. right. simpl. split; [done|]. right. exists u. set_solver.
Qed.

Lemma join_right_ok s lo l1 b z l2 :
  ordered 0 lo (l1 ++ (b, z) :: l2) → in_range s (l1 ++ (b, z) :: l2) →
  ordered 0 lo (l1 ++ join_right b z l2) ∧ in_range s (l1 ++ join_right b z l2).
Proof.
  intros Ho Hin. split.
  - apply ordered_app in Ho as [Ho1 (Hb & Hz & Ho2)]. apply ordered_app. split; [done|].
    destruct l2 as [|[c u] l2']; simpl; [by split_and!|]. destruct Ho2 as (? & ? & ?).
    destruct (Z.eqb_spec (b + z) c) as [<-|]; simpl; [|by split_and!].
    split_and!; [lia|lia|]. by replace (b + (z + u)) with (b + z + u) by lia.
  - intros e [He|He]%elem_of_app; [apply Hin; set_solver|].
    pose proof (Hin (b, z) ltac:(set_solver)) as Hb. simpl in Hb.
    apply join_right_elem in He as [He|[E1 [E2|(u & Hu & E2)]]]; [apply Hin; set_solver|lia|].
    rewrite E1, E2. assert ((b + z) + u ≤ ubrk s) by (apply (Hin (b + z, u)); set_solver). lia.
Qed.

(** Where an owned piece belongs in the list. *)
Lemma insert_place F A b z s :
  pool F ((b, z) :: A) s →
  ∃ l1 l2, F = l1 ++ l2 ∧ (∀ e, e ∈ l1 → e.1 + e.2 ≤ b) ∧ (∀ e, e ∈ l2 → b + z ≤ e.1) ∧
    ordered 0 heap_first (l1 ++ (b, z) :: l2) ∧ in_range s (l1 ++ (b, z) :: l2) ∧
    (∀ e, e ∈ l1 ++ l2 → block_addr s e) ∧ 0 ≤ head_or l2 0 < 2 ^ 64.
Proof.
  intros P. pose proof (pl_order _ _ _ P) as Ho. destruct (pl_brk _ _ _ P) as [Hal Hbrk].
  destruct (unit_in _ _ _ P (b, z)) as (_ & _ & Hz); [set_solver|]. simpl in Hz.
  destruct (piece_range _ _ _ P (b, z)) as [Hb1 Hb2]; [set_solver|]. simpl in Hb1, Hb2.
  destruct (split_free _ _ b z Ho) as (l1 & l2 & HF & H1 & H2);
    [intros e He; apply (free_apart _ _ _ P); set_solver|done|].
  assert (∀ e, e ∈ l1 ++ l2 → block_addr s e) as Hba.
  { intros e He. rewrite <- HF in He. unfold block_addr. destruct (piece_range _ _ _ P e); [set_solver|].
    destruct (unit_in _ _ _ P e) as (_ & _ & ?); [set_solver|]. done. }
  exists l1, l2. split_and!; try done.
  - replace heap_first with (heap_first - 1 + 1) by lia. apply ordered_mid; [by rewrite <- HF|done|done|lia|done].
  - intros e He. apply (piece_range _ _ _ P). set_solver.
  - destruct l2 as [|[c t] l4]; [simpl; lia|]. destruct (Hba (c, t)) as (? & ? & ?); [set_solver|]. simpl in *. heap_lia.
  - destruct l2 as [|[c t] l4]; [simpl; lia|]. destruct (Hba (c, t)) as (? & ? & ?); [set_solver|]. simpl in *. heap_lia.
Qed.

(** What [m__insert] does to memory: the list becomes [finsert b z F], and
    only the headers of the blocks and the head of the list are written. *)
Lemma insert_memory F A b z s :
  pool F ((b, z) :: A) s →
  wp (m__insert b z) (λ _ s', ∃ m, s' = set_um s m ∧ seg m h_free (finsert b z F) 0 ∧
    ∀ x, (∀ e, e ∈ (b, z) :: F → ¬ (e.1 ≤ x < e.1 + 16)) → ¬ (h_free ≤ x < h_free + 8) → rd8 m x = rd8 (um s) x) s.
Proof.
  intros P. destruct (insert_place _ _ _ _ _ P) as (l1 & l2 & HF & H1 & H2 & Ho & Hin & Hba & Hh).
  destruct (pl_brk _ _ _ P) as [Hal Hbrk]. pose proof Ho as [Ho1 (Hb & Hz & _)]%ordered_app.
  pose proof (ordered_end 0 _ _ ltac:(lia) Ho1) as Hend. pose proof (Hin (b, z) ltac:(set_solver)) as Hbz. simpl in Hbz.
  assert (last_cell h_free l1 = h_free ∨ ∃ e, e ∈ l1 ∧ last_cell h_free l1 = e.1 + 8) as Hlc.
  { destruct (exists_last' l1) as [->|(l & e & ->)]; [by left|]. right. exists e. split; [set_solver|].
    rewrite last_cell_app. by destruct e. }
  assert (link_of (last_addr 0 l1) = last_cell h_free l1) as Hlink.
  { apply (link_last 0). intros e He. destruct (Hba e) as (? & ? & ?); [set_solver|heap_lia]. }
  pose proof (last_cell_range 0 _ h_free _ ltac:(lia) Ho1 ltac:(heap_lia)) as Hlr.
  pose proof (pl_list _ _ _ P) as Hseg. rewrite HF in Hseg.
  pose proof (insert_linked _ _ _ _ _ z Hseg Ho ltac:(lia) ltac:(heap_lia) ltac:(heap_lia) Hh) as Hseg3.
  unfold m__insert. wp_steps. unfold b_size. simpl um.
  rewrite load_store_le_ne by heap_lia. rewrite (proj1 Hseg). eapply run_wp.
  { apply (insert_scan_spec _ _ l1 l2).
    - simpl. eapply chain_to_ext; [|exact (proj2 Hseg)]. intros f x Hf Hx. destruct (Hba f Hf) as (? & ? & ?).
      apply rd8_store_le. apply elem_of_app in Hf as [Hf|Hf]; [pose proof (H1 f Hf)|pose proof (H2 f Hf)]; heap_lia.
    - intros e He. split; [apply Hba; set_solver|]. pose proof (H1 e He). destruct (Hba e) as (? & ? & ?); [set_solver|lia].
    - intros e He. split; [apply Hba; set_solver|]. pose proof (H2 e He). lia.
    - pose proof (pool_length _ _ _ P) as Hn. rewrite HF, length_app in Hn. change (heap_fuel (set_um s _)) with (heap_fuel s). lia. }
  cbv beta iota. wp_steps. apply wp_set_link; rewrite Hlink; [heap_lia..|]. unfold b_next, set_um. simpl.
  apply wp_bind. eapply wp_join_right; [exact Hseg3|exact Ho|lia|done|simpl; lia|]. simpl.
  intros m4 Hseg4 Hm4. destruct (join_right_ok _ _ _ _ _ _ Ho Hin) as [Ho4 Hin4].
  destruct (join_right_form b z l2) as (z' & l3 & Hj & Hj'). rewrite Hj in *.
  eapply wp_join_left; [exact Hseg4|exact Ho4|lia|exact Hin4|simpl; lia|].
  intros m5 l' Hseg5 Hl' Hm5. simpl in Hm5.
  pose proof (finsert_result _ _ _ _ _ _ _ _ Ho1 H1 H2 Hz Hj Hj' Hl') as ->. rewrite <- HF in Hseg5.
  exists m5. split_and!; [done|done|]. intros x Hout Hfree. rewrite Hm5; [|intros e He; apply Hout; set_solver].
  pose proof (Hout (b, z) ltac:(set_solver)) as Hob. simpl in Hob. rewrite Hm4, !rd8_store_le; [done|lia|lia| |lia].
  destruct Hlc as [->|(e & He & ->)]; [done|]. pose proof (Hout e ltac:(set_solver)). lia.
Qed.

Lemma m__insert_spec F A b z s :
  pool F ((b, z) :: A) s →
  wp (m__insert b z) (λ _ s', pool (finsert b z F) A s' ∧ kept A s s' ∧ ubrk s' = ubrk s) s.
Proof.
  intros P. eapply wp_mono; [by eapply insert_memory|]. intros [] s' (m & -> & Hseg & Hm).
  assert (∀ e, e ∈ (b, z) :: F → heap_first ≤ e.1 ∧ 16 ≤ e.2) as Hpos.
  { intros e He. destruct (piece_range _ _ _ P e); [set_solver|].
    destruct (unit_in _ _ _ P e) as (_ & _ & ?); [set_solver|lia]. }
  pose proof (Hpos (b, z) ltac:(set_solver)) as Hb. simpl in Hb.
  pose proof (pl_units _ _ _ P) as [HuF [Hu HuA]%list.Forall_cons]%list.Forall_app.
  split_and!; [split|..]; simpl.
  - exact (pl_brk _ _ _ P).
  - rewrite <- (pl_top _ _ _ P). apply load_le_ext. intros x Hx. apply Hm; [|heap_lia].
    intros e He. pose proof (Hpos e He). heap_lia.
  - done.
  - apply ordered_finsert; [exact (pl_order _ _ _ P)|lia| |lia]. intros e He. apply (free_apart _ _ _ P); set_solver.
  - intros x. rewrite cover_finsert; [|lia|intros e He; destruct (Hpos e); [apply elem_of_cons; by right|lia]].
    pose proof (pl_tiles _ _ _ P x) as Ht. simpl in Ht |- *. lia.
  - apply list.Forall_app. split; [by apply units_finsert|done].
  - intros x Hx. simpl. apply Hm.
    + intros e He Hr. pose proof (Hpos e He). apply elem_of_cons in He as [->|He].
      * eapply (own_foreign _ _ _ _ x P); [simpl in *; lia|done].
      * eapply (free_foreign _ _ _ P e x He); [lia|by apply foreign_cons].
    + destruct Hx as [Hx|Hx]; [|heap_lia]. intros Hr.
      pose proof (header_uncovered _ _ _ x P ltac:(heap_lia)) as Hc. simpl in Hc.
      destruct (inside x (b, z)); lia.
  - done.
Qed.
