(* ===== verification/HeapAlloc.v ===== *)
(** * The heap's pool: growth, trimming and the two searches (malloc.h)

    Each operation of the pool keeps the invariant of HeapPool.v, writes
    nothing that belongs to an owned piece, and hands out a piece of its
    own.  The kernel's [sbrk] is used through its laws only. *)
From stdpp Require Import base list numbers option gmap.
From S2P Require Import Prelude Mem Riscv Heap HeapPool.
Local Open Scope Z_scope.
Local Arguments load_le : simpl never.
Local Arguments store_le : simpl never.

(** Membership in a list given by its parts. *)
Ltac elem :=
  first [tauto | first [rewrite elem_of_app | rewrite elem_of_cons | rewrite list_elem_of_singleton]; elem].

(** ** Replacing one block of the list *)

Lemma seg_relink m m' lo c l e e' :
  seg m c l e → ordered 0 lo l → c + 8 ≤ lo →
  (∀ x, ¬ (last_cell c l ≤ x < last_cell c l + 8) → x < end_of lo l → rd8 m' x = rd8 m x) →
  load_le 8 m' (last_cell c l) = e' → seg m' c l e'.
Proof.
  intros [H1 H2]. revert lo c H1. induction l as [|[a z] l IH]; intros lo c H1 Ho Hc Hx He; [by split|].
  destruct H2 as (H2 & H3 & H4), Ho as (Ha & Hz & Ho).
  pose proof (ordered_end 0 _ _ ltac:(lia) Ho) as Hend.
  assert (ordered 0 (a + 16) l) as Ho' by (eapply ordered_weaken; [..|exact Ho]; lia).
  assert (end_of (a + 16) l ≤ end_of (a + z) l) by (destruct l as [|[]]; simpl; lia).
  pose proof (last_cell_range 0 (a + 16) (a + 8) l ltac:(lia) Ho' ltac:(lia)) as Hl. simpl in Hx, He.
  assert (∀ y, y + 8 ≤ last_cell (a + 8) l → y + 8 ≤ end_of (a + z) l → load_le 8 m' y = load_le 8 m y) as Hld.
  { intros y Hy1 Hy2. apply load_le_ext. intros x Hr. apply Hx; lia. }
  destruct (IH H4 (a + 16) (a + 8) H3 Ho' ltac:(lia)) as [K1 K2]; [intros x ? ?; apply Hx; lia|done|].
  split; [|split_and!; [|done|done]].
  - rewrite Hld by lia. done.
  - rewrite Hld by lia. done.
Qed.

Lemma splice m m' l1 b z new l4 :
  seg m h_free (l1 ++ (b, z) :: l4) 0 → ordered 0 heap_first (l1 ++ (b, z) :: l4) →
  load_le 8 m' (last_cell h_free l1) = head_or new (head_or l4 0) → chain_to m' new (head_or l4 0) →
  (∀ x, ¬ (b ≤ x < b + z) → ¬ (last_cell h_free l1 ≤ x < last_cell h_free l1 + 8) → rd8 m' x = rd8 m x) →
  seg m' h_free (l1 ++ new ++ l4) 0.
Proof.
  intros [Hs (_ & _ & H4)]%seg_split [Ho1 (Hb & Hz & Ho4)]%ordered_app Hl Hnew Hx.
  pose proof (last_cell_range 0 _ h_free _ ltac:(lia) Ho1 ltac:(heap_lia)) as Hlr.
  pose proof (ordered_end 0 _ _ ltac:(lia) Ho1) as Hend.
  apply seg_split. rewrite head_or_app. split.
  - eapply seg_relink; [exact Hs|exact Ho1|heap_lia| |done]. intros x ? ?. apply Hx; lia.
  - apply chain_to_app. split; [done|]. eapply chain_to_ext; [|exact H4]. intros f x Hf Hr.
    pose proof (ordered_elem 0 _ _ _ ltac:(lia) Ho4 Hf). apply Hx; heap_lia.
Qed.

Lemma pool_order0 F A s : pool F A s → ordered 0 heap_first F.
Proof. intros P. eapply ordered_weaken; [..|exact (pl_order _ _ _ P)]; lia. Qed.
Lemma link_free l1 e l4 A s x :
  pool (l1 ++ e :: l4) A s → last_cell h_free l1 ≤ x < last_cell h_free l1 + 8 → ¬ foreign A x.
Proof.
  intros P Hx. destruct (exists_last' l1) as [->|(l & [p t] & ->)]; simpl in Hx.
  - apply foreign_free; [heap_lia|]. eapply header_uncovered; [done|heap_lia].
  - rewrite last_cell_app in Hx. simpl in Hx. eapply (free_foreign _ _ _ P (p, t)); [elem|].
    destruct (unit_in _ _ _ P (p, t)) as (_ & _ & ?); [elem|]. simpl in *. lia.
Qed.

(** The block [b] is replaced by what is left of it, [new], and by what
    becomes somebody's own. *)
Lemma pool_splice l1 b z l4 new own A s m' :
  pool (l1 ++ (b, z) :: l4) A s →
  ordered 1 (b - 1) new → end_of b new ≤ b + z →
  (∀ x, cover new x + cover own x = if inside x (b, z) then 1 else 0) → Forall unit_ok (new ++ own) →
  load_le 8 m' (last_cell h_free l1) = head_or new (head_or l4 0) → chain_to m' new (head_or l4 0) →
  (∀ x, ¬ (b ≤ x < b + z) → ¬ (last_cell h_free l1 ≤ x < last_cell h_free l1 + 8) → rd8 m' x = rd8 (um s) x) →
  pool (l1 ++ new ++ l4) (own ++ A) (set_um s m') ∧ kept A s (set_um s m').
Proof.
  intros P Hon Hen Hcov Hu Hl Hnew Hx. destruct (piece_range _ _ _ P (b, z)) as [Hb1 Hb2]; [elem|]. simpl in Hb1, Hb2.
  pose proof (pool_order0 _ _ _ P) as Ho0. pose proof Ho0 as [Ho1 _]%ordered_app.
  pose proof (last_cell_range 0 _ h_free _ ltac:(lia) Ho1 ltac:(heap_lia)) as Hlr.
  pose proof (pl_order _ _ _ P) as [Ho2 (Hb & Hz & Ho4)]%ordered_app.
  pose proof (pl_units _ _ _ P) as [[HuF [_ Hu4]%list.Forall_cons]%list.Forall_app HuA]%list.Forall_app.
  split; [split|].
  - exact (pl_brk _ _ _ P).
  - simpl. rewrite <- (pl_top _ _ _ P). apply load_le_ext. intros x Hr. apply Hx; heap_lia.
  - simpl. eapply splice; [exact (pl_list _ _ _ P)|done..].
  - apply ordered_app. split; [done|]. apply ordered_app. split.
    + eapply ordered_weaken; [..|exact Hon]; lia.
    + assert (ordered 1 (b + z) l4) as Ho5 by done. destruct new as [|e new]; simpl.
      * eapply ordered_weaken; [..|exact Ho5]; lia.
      * destruct e. eapply ordered_weaken; [..|exact Ho5]; simpl in Hen; lia.
  - intros x. simpl. pose proof (pl_tiles _ _ _ P x) as Ht. specialize (Hcov x).
    rewrite !cover_app in *. simpl in *. lia.
  - rewrite !list.Forall_app in *. tauto.
  - intros x Hf. simpl. apply Hx.
    + intros Hr. eapply (free_foreign _ _ _ P (b, z)); [elem|done|done].
    + intros Hr. by eapply link_free.
Qed.

(** ** First fit *)

Lemma MHDR_16 : MHDR = 16. Proof. reflexivity. Qed.
Lemma MMIN_32 : MMIN = 32. Proof. reflexivity. Qed.

Lemma load_store_64 m a v : 0 ≤ v < 2 ^ 64 → load_le 8 (store_le 8 m a v) a = v.
Proof. exact (load64_store64 m a v). Qed.
Lemma cover_one x a z : cover [(a, z)] x = if inside x (a, z) then 1 else 0.
Proof. simpl. lia. Qed.
Lemma inside_split x a s t :
  0 ≤ s → 0 ≤ t → (if inside x (a, s + t) then 1 else 0) =
    (if inside x (a, s) then 1 else 0) + (if inside x (a + s, t) then 1 else 0).
Proof. intros. pose proof (cover_split [] a s t x) as H1. simpl in H1. lia. Qed.

(** Facts about the block that a search stops at. *)
Record found (l1 : list extent) (b z : Z) (l4 : list extent) (A : list extent) (s : uspace) : Prop := {
  fo_pool : pool (l1 ++ (b, z) :: l4) A s;
  fo_unit : b mod 16 = 0 ∧ z mod 16 = 0 ∧ 16 ≤ z;
  fo_range : heap_first ≤ b ∧ b + z ≤ ubrk s ∧ ubrk s ≤ UHEAP_TOP;
  fo_next : load_le 8 (um s) (b + 8) = head_or l4 0;
  fo_next_range : 0 ≤ head_or l4 0 < 2 ^ 64;
  fo_link : link_of (last_addr 0 l1) = last_cell h_free l1;
  fo_link_range : UHEAP_BASE ≤ last_cell h_free l1 ∧ last_cell h_free l1 + 8 ≤ b }.
Lemma found_block l1 b z l4 A s : pool (l1 ++ (b, z) :: l4) A s → found l1 b z l4 A s.
Proof.
  intros P. destruct (piece_range _ _ _ P (b, z)) as [? ?]; [elem|]. destruct (pl_brk _ _ _ P) as [_ ?]. simpl in *.
  pose proof (pool_order0 _ _ _ P) as [Ho1 (Hb & _)]%ordered_app.
  pose proof (ordered_end 0 _ _ ltac:(lia) Ho1) as Hend.
  pose proof (last_cell_range 0 _ h_free _ ltac:(lia) Ho1 ltac:(heap_lia)) as Hlr.
  pose proof (pl_list _ _ _ P) as [_ (_ & Hn & _)]%seg_split.
  split; [done|..|done| | |].
  - destruct (unit_in _ _ _ P (b, z)) as (? & ? & ?); [elem|]. done.
  - heap_lia.
  - rewrite <- Hn. apply (load_le_range 8).
  - apply (link_last 0). intros e He. destruct (piece_range _ _ _ P e); [elem|heap_lia].
  - heap_lia.
Qed.

Lemma take_block_spec l1 b z l4 A want s :
  pool (l1 ++ (b, z) :: l4) A s → want ≤ z → 32 ≤ want → want mod 16 = 0 →
  wp (take_block (last_addr 0 l1) b z want)
     (λ _ s', ∃ F sz, pool F ((b, sz) :: A) s' ∧ want ≤ sz ∧ load_le 8 (um s') b = sz ∧
        kept A s s' ∧ ubrk s' = ubrk s) s.
Proof.
  intros P Hle Hw Hm. destruct (found_block _ _ _ _ _ _ P) as [_ (? & ? & ?) (? & ? & ?) Hn Hnr Hl [? ?]].
  unfold take_block. rewrite MMIN_32. destruct (Z.leb_spec 32 (z - want)).
  - wp_steps. apply wp_set_link; rewrite Hl; [heap_lia..|]. wp_steps.
    unfold b_size, b_next, set_um. simpl. rewrite load_store_le_ne by heap_lia. rewrite Hn.
    set (m' := store_le 8 _ b want).
    destruct (pool_splice l1 b z l4 [(b + want, z - want)] [(b, want)] A s m') as [K1 K2]; try done.
    + simpl. lia.
    + simpl. lia.
    + intros x. rewrite !cover_one. pose proof (inside_split x b want (z - want)) as E.
      replace (want + (z - want)) with z in E by lia. lia.
    + repeat constructor; simpl; try lia; ldiv.
    + unfold m'. rewrite load_store_le_ne by lia. simpl. apply load_store_64. clear m'. heap_lia.
    + simpl. split_and!; [..|done]; unfold m'; clear m'.
      * rewrite !load_store_le_ne by lia. apply load_store_64. heap_lia.
      * rewrite !load_store_le_ne by lia. by apply load_store_64.
    + intros x ? ?. unfold m'. rewrite !rd8_store_le by lia. done.
    + eexists _, want. split; [exact K1|]. split_and!; [lia| |exact K2|done].
      simpl. unfold m'; clear m' K1 K2. apply load_store_64. heap_lia.
  - wp_steps. apply wp_set_link; rewrite Hl; [heap_lia..|]. unfold b_next. rewrite Hn.
    set (m' := store_le 8 _ _ _).
    destruct (pool_splice l1 b z l4 [] [(b, z)] A s m') as [K1 K2]; try done.
    + simpl. lia.
    + intros x. rewrite cover_one. simpl. lia.
    + by repeat constructor.
    + unfold m'. simpl. by apply load_store_64.
    + intros x ? ?. unfold m'. rewrite !rd8_store_le by lia. done.
    + eexists _, z. split; [exact K1|]. split_and!; [done| |exact K2|done].
      simpl. unfold m'. rewrite load_store_le_ne by lia.
      pose proof (pl_list _ _ _ P) as [_ (Hz & _)]%seg_split. done.
Qed.

(** A search walks past the blocks that do not fit. *)
Lemma big_scan_walk n want prev l3 l4 s :
  chain_to (um s) (l3 ++ l4) 0 → (∀ e, e ∈ l3 → block_addr s e ∧ e.2 < want) → (length l3 ≤ n)%nat →
  big_scan n want prev (head_or (l3 ++ l4) 0) s =
  big_scan (n - length l3) want (last_addr prev l3) (head_or l4 0) s.
Proof.
  revert n prev. induction l3 as [|[a z] l3 IH]; intros n prev Hc H3 Hn; [by rewrite Nat.sub_0_r|].
  destruct n as [|n]; [simpl in Hn; lia|]. destruct Hc as (Hz & Hnx & Hc).
  destruct (H3 (a, z)) as [(? & ? & ?) Hs]; [elem|]. simpl in *.
  rewrite (proj2 (Z.eqb_neq a 0)) by heap_lia.
  rewrite (pbind_eq _ _ _ _ _ (ld_eq 8 (b_size a) s ltac:(heap_lia) ltac:(heap_lia))).
  unfold b_size, b_next. rewrite Hz, (proj2 (Z.ltb_lt z want)) by lia.
  rewrite (pbind_eq _ _ _ _ _ (ld_eq 8 (a + 8) s ltac:(heap_lia) ltac:(heap_lia))).
  rewrite Hnx. apply IH; [done| |lia]. intros e He. apply H3. elem.
Qed.
Lemma first_fit (p : extent → bool) (l : list extent) :
  (∀ e, e ∈ l → p e = false) ∨ ∃ l1 e l2, l = l1 ++ e :: l2 ∧ p e = true ∧ ∀ f, f ∈ l1 → p f = false.
Proof.
  induction l as [|e l IH]; [left; by intros e ?%not_elem_of_nil|]. destruct (p e) eqn:E.
  - right. exists [], e, l. split_and!; [done|done|by intros f ?%not_elem_of_nil].
  - destruct IH as [IH|(l1 & f & l2 & -> & H1 & H2)].
    + left. intros f [->|Hf]%elem_of_cons; auto.
    + right. exists (e :: l1), f, l2. split_and!; [done|done|]. intros g [->|Hg]%elem_of_cons; auto.
Qed.
Lemma pool_block F A s e : pool F A s → e ∈ F → block_addr s e.
Proof.
  intros P He. destruct (piece_range _ _ _ P e); [elem|].
  destruct (unit_in _ _ _ P e) as (_ & _ & ?); [elem|]. done.
Qed.

Lemma big_scan_spec F A want s :
  pool F A s → 32 ≤ want → want mod 16 = 0 →
  wp (let* f := gets heap_fuel in let* head := ld 8 h_free in big_scan f want 0 head)
     (λ r s', match r with
        | None => s' = s ∧ ∀ e, e ∈ F → e.2 < want
        | Some p => ∃ F' sz, pool F' ((p - 16, sz) :: A) s' ∧ want ≤ sz ∧ load_le 8 (um s') (p - 16) = sz ∧
                             kept A s s' ∧ ubrk s' = ubrk s
        end) s.
Proof.
  intros P Hw Hm. destruct (pl_brk _ _ _ P) as [_ Hbrk]. wp_steps. rewrite (proj1 (pl_list _ _ _ P)).
  pose proof (pool_length _ _ _ P) as Hn.
  destruct (first_fit (λ e, want <=? e.2) F) as [Hno|(l1 & [b z] & l4 & HF & Hb & Hno)].
  - assert (∀ e, e ∈ F → e.2 < want) as Hs by (intros e He; apply Z.leb_gt; auto).
    replace (head_or F 0) with (head_or (F ++ []) 0) by (by rewrite app_nil_r).
    unfold wp. rewrite big_scan_walk; [|rewrite app_nil_r; exact (proj2 (pl_list _ _ _ P))| |lia].
    + simpl. destruct (heap_fuel s - length F)%nat; done.
    + intros e He. split; [by eapply pool_block|auto].
  - subst F. rewrite length_app in Hn. simpl in Hn. apply Z.leb_le in Hb. simpl in Hb.
    unfold wp. rewrite big_scan_walk; [|exact (proj2 (pl_list _ _ _ P))| |lia].
    2: { intros e He. split; [eapply pool_block; [exact P|elem]|by apply Z.leb_gt, Hno]. }
    destruct (found_block _ _ _ _ _ _ P) as [_ _ (? & ? & ?) _ _ _ _].
    destruct (unit_in _ _ _ P (b, z)) as (_ & _ & Hz); [elem|]. simpl in Hz.
    destruct (heap_fuel s - length l1)%nat as [|n] eqn:En; [lia|]. simpl.
    rewrite (proj2 (Z.eqb_neq b 0)) by heap_lia.
    rewrite (pbind_eq _ _ _ _ _ (ld_eq 8 (b_size b) s ltac:(heap_lia) ltac:(heap_lia))).
    pose proof (pl_list _ _ _ P) as [_ (Hld & _)]%seg_split. unfold b_size. rewrite Hld.
    rewrite (proj2 (Z.ltb_ge z want)) by lia. apply (wp_bind (take_block _ _ _ _)).
    eapply wp_mono; [by apply (take_block_spec l1 b z l4)|]. intros [] s' (F' & sz & H'). apply wp_ret.
    exists F', sz. rewrite MHDR_16. by replace (b + 16 - 16) with b by lia.
Qed.

(** ** Growth *)

Lemma kept_refl A s : kept A s s. Proof. by intros x. Qed.
Lemma kept_trans A s1 s2 s3 : kept A s1 s2 → kept A s2 s3 → kept A s1 s3.
Proof. intros H1 H2 x Hx. by rewrite H2, H1. Qed.
Lemma kept_cons A e s s' : kept (e :: A) s s' → kept A s s'.
Proof. intros H x Hx. by apply H, foreign_cons. Qed.
Lemma finsert_has a z l :
  0 ≤ z → (∀ e, e ∈ l → 0 ≤ e.2) → ∃ e, e ∈ finsert a z l ∧ e.1 ≤ a ∧ a + z ≤ e.1 + e.2.
Proof.
  intros Hz Hl. assert (∀ b t l, 0 ≤ t → (∀ e, e ∈ l → 0 ≤ e.2) → ∃ e, e ∈ join_right b t l ∧ e.1 = b ∧ t ≤ e.2) as Hj.
  { intros b t [|[c u] l'] Ht Hl'; simpl; [exists (b, t); split_and!; [elem|done|simpl; lia]|].
    destruct (b + t =? c); [exists (b, t + u)|exists (b, t)]; (split_and!; [elem|done|simpl]).
    - pose proof (Hl' (c, u) ltac:(elem)). simpl in *. lia.
    - lia. }
  induction l as [|[b t] l IH]; cbn [finsert]; [exists (a, z); split_and!; [elem|simpl; lia..]|].
  pose proof (Hl (b, t) ltac:(elem)) as Ht. simpl in Ht. destruct (Z.ltb_spec b a).
  - destruct (Z.eqb_spec (b + t) a).
    + destruct (Hj b (t + z) l) as (f & Hf & ? & ?); [lia|intros; apply Hl; elem|]. exists f. split_and!; [done|lia..].
    + destruct IH as (e & He & ?); [intros; apply Hl; elem|]. exists e. split; [elem|done].
  - destruct (Hj a z ((b, t) :: l)) as (e & He & ? & ?); [lia|done|]. exists e. split_and!; [done|lia..].
Qed.

Section sbrk.
Context (sys_sbrk : Z → prog uspace Z) `{!SbrkLaws sys_sbrk}.

(** The window as the kernel leaves it, its new pages an owned piece. *)
Lemma pool_grown F A s s' n :
  pool F A s → 0 < n → page_aligned n → ubrk s' = ubrk s + n → ubrk s' ≤ UHEAP_TOP →
  (∀ x, x < ubrk s → rd8 (um s') x = rd8 (um s) x) →
  pool F ((ubrk s, n) :: A) (set_um s' (store_le 8 (um s') h_top (ubrk s'))) ∧
  kept A s (set_um s' (store_le 8 (um s') h_top (ubrk s'))).
Proof.
  intros P Hn Ha Hb Ht Hx. destruct (pl_brk _ _ _ P) as [Hal Hbrk]. unfold page_aligned in *.
  assert (∀ x, x < ubrk s → ¬ (h_top ≤ x < h_top + 8) →
    rd8 (store_le 8 (um s') h_top (ubrk s')) x = rd8 (um s) x) as Hx'.
  { intros x ? ?. rewrite rd8_store_le by heap_lia. by apply Hx. }
  split; [split|]; simpl.
  - split; simpl; [|lia]. rewrite Hb. unfold page_aligned. heap_unfold. ldiv.
  - apply load_store_64. heap_lia.
  - eapply seg_ext; [..|exact (pl_list _ _ _ P)].
    + intros x Hr. apply Hx'; heap_lia.
    + intros f y Hf Hr. destruct (pool_block _ _ _ _ P Hf) as (? & ? & ?). apply Hx'; heap_lia.
  - exact (pl_order _ _ _ P).
  - intros x. pose proof (pl_tiles _ _ _ P x) as Htl. rewrite Hb. unfold inside. simpl.
    destruct (Z.leb_spec (ubrk s) x), (Z.ltb_spec x (ubrk s + n)); simpl;
      repeat destruct (decide _); heap_lia.
  - pose proof (pl_units _ _ _ P) as [HuF HuA]%list.Forall_app. apply list.Forall_app. split; [done|].
    constructor; [|done]. split_and!; simpl; heap_unfold; ldiv.
  - intros x Hf. simpl. apply Hx'; destruct Hf as [Hf|Hf]; try heap_lia.
    + pose proof (pl_tiles _ _ _ P x). pose proof (cover_nonneg F x). destruct (decide _); lia.
    + intros Hr. pose proof (header_uncovered _ _ _ x P ltac:(heap_lia)). lia.
Qed.

Lemma m__grow_spec F A need s :
  pool F A s → 0 < need ≤ 2 ^ 62 →
  wp (m__grow sys_sbrk need) (λ r s',
    (r = -1 ∧ s' = s ∧ sys_sbrk (PGROUNDUP need) s = Some (SBRK_FAILED, s)) ∨
    (r = 0 ∧ ∃ n, need ≤ n ∧ n mod PGSIZE = 0 ∧ n = PGROUNDUP need ∧
       pool (finsert (ubrk s) n F) A s' ∧ kept A s s' ∧ ubrk s' = ubrk s + n)) s.
Proof.
  intros P Hneed. destruct (pl_brk _ _ _ P) as [Hal Hbrk].
  destruct (PGROUNDUP_bounds need) as [Hn Hm]; [heap_lia|]. unfold m__grow. set (n := PGROUNDUP need) in *.
  rewrite i64_small by heap_lia. apply wp_bind.
  destruct (sbrk_grow n s (pl_brk _ _ _ P)) as [E|(s' & E & Eb & Et & Hx)]; [heap_lia|done|..]; (eapply run_wp; [exact E|]).
  - rewrite Z.eqb_refl. apply wp_ret. left. done.
  - rewrite (proj2 (Z.eqb_neq (ubrk s) SBRK_FAILED)) by (unfold SBRK_FAILED, u64; heap_unfold; ldiv).
    destruct (pool_grown F A s s' n P) as [P' K]; [heap_lia|done..|].
    wp_steps. rewrite u64_small by heap_lia. rewrite <- Eb.
    eapply wp_mono; [by apply (m__insert_spec F A)|]. intros [] s2 (P2 & K2 & Eb2). apply wp_ret. right.
    split; [done|]. exists n. split_and!; try done; [lia|by eapply kept_trans|]. by rewrite Eb2.
Qed.

Lemma MALIGN_eq x : 0 ≤ x < 2 ^ 64 - 16 → MALIGN x = (x + 15) / 16 * 16.
Proof.
  intros. unfold MALIGN. change 15 with (2 ^ 4 - 1) at 2. rewrite land_lnot_mask by lia.
  by rewrite u64_small by lia.
Qed.
Lemma pool_pos F A s e : pool F A s → e ∈ F → 0 ≤ e.2.
Proof. intros P He. destruct (pool_block _ _ _ _ P He) as (? & ? & ?). lia. Qed.

(** [m__big] gives out a piece of at least the size asked for, with its
    header in front, or, when the kernel has no more pages, nothing at all. *)
Lemma m__big_spec F A n s :
  pool F A s → MAXSMALL < n ≤ 2 ^ 61 →
  wp (m__big sys_sbrk n) (λ p s',
    (p = 0 ∧ s' = s ∧ sys_sbrk (PGROUNDUP (MALIGN (n + 16))) s = Some (SBRK_FAILED, s)) ∨
    ∃ F' sz, pool F' ((p - 16, sz) :: A) s' ∧ n + 16 ≤ sz ∧ load_le 8 (um s') (p - 16) = sz ∧ kept A s s') s.
Proof.
  intros P Hn. unfold MAXSMALL in Hn. unfold m__big. rewrite MHDR_16, u64_small by lia.
  set (want := MALIGN (n + 16)).
  assert (n + 16 ≤ want ≤ 2 ^ 62 ∧ want mod 16 = 0) as [Hw Hm].
  { unfold want. rewrite MALIGN_eq by lia. split; [ldiv|by apply Z_mod_mult]. }
  rewrite (proj2 (Z.ltb_ge want n)) by lia. cbn [passes].
  apply wp_bind. eapply wp_mono; [apply (big_scan_spec F A); [done|lia|done]|].
  intros [p|] s1 H1; [destruct H1 as (F' & sz & P' & Hsz & Hld & K & _); apply wp_ret; right;
    exists F', sz; split_and!; [done|lia|done|done]|]. destruct H1 as [-> Hno].
  apply wp_bind. eapply wp_mono; [apply (m__grow_spec F A); [done|lia]|].
  intros g s2 [(-> & -> & Href)|(-> & k & Hk & _ & _ & P2 & K2 & _)]; [by apply wp_ret; left|].
  cbn [Z.ltb Z.compare]. apply wp_bind. eapply wp_mono; [eapply (big_scan_spec _ A); [exact P2|lia|done]|].
  intros [p|] s3 H3.
  - destruct H3 as (F' & sz & P' & Hsz & Hld & K & _). apply wp_ret. right. exists F', sz.
    split_and!; [done|lia|done|by eapply kept_trans].
  - destruct H3 as [-> Hno2]. exfalso.
    destruct (finsert_has (ubrk s) k F) as (e & He & ? & ?); [lia|intros; by apply (pool_pos F A s)|].
    specialize (Hno2 e He). lia.
Qed.

(** ** Pages *)

Lemma page_in_spec b z page :
  heap_first ≤ b → b mod 16 = 0 → z mod 16 = 0 → 16 ≤ z → b + z ≤ UHEAP_TOP → page_in b (b + z) = Some page →
  page mod PGSIZE = 0 ∧ b ≤ page ∧ page + PGSIZE ≤ b + z ∧
  (page = b ∨ b + 32 ≤ page) ∧ (page + PGSIZE = b + z ∨ page + PGSIZE + 32 ≤ b + z).
Proof.
  intros Hb H1 H2 Hz Ht. unfold page_in. rewrite MMIN_32.
  destruct (PGROUNDUP_bounds b) as [Hr Hm]; [heap_lia|]. unfold PGSIZE in *.
  cbv zeta. set (p := if negb (PGROUNDUP b - b =? 0) && _ then _ else _).
  assert (p mod 4096 = 0 ∧ (p = b ∨ b + 32 ≤ p)) as [Hp1 Hp2].
  { unfold p. destruct (Z.eqb_spec (PGROUNDUP b - b) 0), (Z.ltb_spec (PGROUNDUP b - b) 32); simpl;
      (split; [try done; ldiv|lia]). }
  clearbody p. destruct (Z.ltb_spec (b + z) (p + 4096)); [done|].
  destruct (Z.eqb_spec (b + z - (p + 4096)) 0), (Z.ltb_spec (b + z - (p + 4096)) 32); simpl; try done;
    intros [= <-]; (split_and!; [done|lia..]).
Qed.

(** What a page cut out of [b, b + z) leaves on the list. *)
Definition page_rest (b z page : Z) : list extent :=
  (if page - b =? 0 then [] else [(b, page - b)]) ++
  (if b + z - (page + PGSIZE) =? 0 then [] else [(page + PGSIZE, b + z - (page + PGSIZE))]).
Lemma page_rest_ok b z page :
  b mod 16 = 0 → z mod 16 = 0 → page mod PGSIZE = 0 → b ≤ page → page + PGSIZE ≤ b + z →
  (page = b ∨ b + 32 ≤ page) → (page + PGSIZE = b + z ∨ page + PGSIZE + 32 ≤ b + z) →
  ordered 1 (b - 1) (page_rest b z page) ∧ end_of b (page_rest b z page) ≤ b + z ∧
  (∀ x, cover (page_rest b z page) x + cover [(page, PGSIZE)] x = if inside x (b, z) then 1 else 0) ∧
  Forall unit_ok (page_rest b z page ++ [(page, PGSIZE)]).
Proof.
  intros H1 H2 H3 H4 H5 H6 H7. unfold page_rest, PGSIZE in *. split_and!.
  - destruct (Z.eqb_spec (page - b) 0), (Z.eqb_spec (b + z - (page + 4096)) 0); simpl; lia.
  - destruct (Z.eqb_spec (page - b) 0), (Z.eqb_spec (b + z - (page + 4096)) 0); simpl; lia.
  - intros x. unfold inside. destruct (Z.eqb_spec (page - b) 0), (Z.eqb_spec (b + z - (page + 4096)) 0); simpl;
      unfold inside; simpl;
      repeat match goal with |- context [?p <=? ?q] => destruct (Z.leb_spec p q)
                           | |- context [?p <? ?q] => destruct (Z.ltb_spec p q) end; simpl; lia.
  - destruct (Z.eqb_spec (page - b) 0), (Z.eqb_spec (b + z - (page + 4096)) 0); simpl; repeat constructor; simpl;
      try lia; try done; ldiv.
Qed.

Lemma take_page_spec l1 b z l4 A page s :
  pool (l1 ++ (b, z) :: l4) A s → page_in b (b + z) = Some page →
  wp (take_page (last_addr 0 l1) b z page)
     (λ _ s', ∃ F, pool F ((page, PGSIZE) :: A) s' ∧ kept A s s' ∧ ubrk s' = ubrk s) s.
Proof.
  intros P Hpg. destruct (found_block _ _ _ _ _ _ P) as [_ (? & ? & ?) (? & ? & ?) Hn Hnr Hl [? ?]].
  destruct (page_in_spec b z page) as (Hp & Hle & Hend & Hlead & Htail); [done..|lia|done|].
  destruct (page_rest_ok b z page) as (R1 & R2 & R3 & R4); [done..|].
  assert (∀ m', load_le 8 m' (last_cell h_free l1) = head_or (page_rest b z page) (head_or l4 0) →
    chain_to m' (page_rest b z page) (head_or l4 0) →
    (∀ x, ¬ (b ≤ x < b + z) → ¬ (last_cell h_free l1 ≤ x < last_cell h_free l1 + 8) → rd8 m' x = rd8 (um s) x) →
    ∃ F, pool F ((page, PGSIZE) :: A) (set_um s m') ∧ kept A s (set_um s m') ∧ ubrk (set_um s m') = ubrk s) as Hdone.
  { intros m' M1 M2 M3. destruct (pool_splice l1 b z l4 _ [(page, PGSIZE)] A s m' P R1 R2 R3 R4 M1 M2 M3) as [K1 K2].
    eexists. split; [exact K1|done]. }
  assert (load_le 8 (um s) (last_cell h_free l1) = b) as Hlb.
  { pose proof (pl_list _ _ _ P) as [Hs _]%seg_split. clear -Hs. destruct Hs as [H1 H2]. simpl in *. revert H1 H2.
    generalize h_free. induction l1 as [|[a t] l IH]; intros c H1 H2; [done|]. destruct H2 as (_ & H2 & H3). by apply IH. }
  unfold take_page, page_rest in *. clear R1 R2 R3 R4. unfold PGSIZE in *.
  destruct (Z.eqb_spec (page - b) 0) as [E1|E1], (Z.eqb_spec (b + z - (page + 4096)) 0) as [E2|E2]; simpl in Hdone.
  - wp_steps. apply wp_set_link; rewrite Hl; [heap_lia..|]. unfold b_next. rewrite Hn. apply Hdone; [|done|].
    + by apply load_store_64.
    + intros x ? ?. by rewrite rd8_store_le by lia.
  - wp_steps. apply wp_set_link; rewrite Hl; [heap_lia..|]. unfold b_size, b_next, set_um in *. simpl.
    rewrite load_store_le_ne by heap_lia. rewrite Hn. apply Hdone.
    + apply load_store_64. heap_lia.
    + split_and!; [..|done].
      * rewrite !load_store_le_ne by heap_lia. apply load_store_64. heap_lia.
      * rewrite !load_store_le_ne by heap_lia. by apply load_store_64.
    + intros x ? ?. by rewrite !rd8_store_le by lia.
  - wp_steps. unfold b_size. apply Hdone.
    + rewrite load_store_le_ne by heap_lia. done.
    + split_and!; [..|done].
      * apply load_store_64. heap_lia.
      * by rewrite load_store_le_ne by heap_lia.
    + intros x ? ?. by rewrite !rd8_store_le by lia.
  - wp_steps. unfold b_size, b_next, set_um in *. simpl. rewrite load_store_le_ne by heap_lia. rewrite Hn. apply Hdone.
    + rewrite !load_store_le_ne by heap_lia. done.
    + split_and!; [..|done].
      * rewrite load_store_le_ne by heap_lia. apply load_store_64. heap_lia.
      * apply load_store_64. heap_lia.
      * rewrite !load_store_le_ne by heap_lia. apply load_store_64. heap_lia.
      * rewrite !load_store_le_ne by heap_lia. by apply load_store_64.
    + intros x ? ?. by rewrite !rd8_store_le by lia.
Qed.

Lemma page_scan_walk n prev l3 l4 s :
  chain_to (um s) (l3 ++ l4) 0 → (∀ e, e ∈ l3 → block_addr s e ∧ page_in e.1 (e.1 + e.2) = None) →
  (length l3 ≤ n)%nat →
  page_scan n prev (head_or (l3 ++ l4) 0) s = page_scan (n - length l3) (last_addr prev l3) (head_or l4 0) s.
Proof.
  revert n prev. induction l3 as [|[a z] l3 IH]; intros n prev Hc H3 Hn; [by rewrite Nat.sub_0_r|].
  destruct n as [|n]; [simpl in Hn; lia|]. destruct Hc as (Hz & Hnx & Hc).
  destruct (H3 (a, z)) as [(? & ? & ?) Hs]; [elem|]. simpl in *.
  rewrite (proj2 (Z.eqb_neq a 0)) by heap_lia.
  rewrite (pbind_eq _ _ _ _ _ (ld_eq 8 (b_size a) s ltac:(heap_lia) ltac:(heap_lia))).
  unfold b_size, b_next. rewrite Hz, Hs.
  rewrite (pbind_eq _ _ _ _ _ (ld_eq 8 (a + 8) s ltac:(heap_lia) ltac:(heap_lia))).
  rewrite Hnx. apply IH; [done| |lia]. intros e He. apply H3. elem.
Qed.
Lemma page_scan_spec F A s :
  pool F A s →
  wp (let* f := gets heap_fuel in let* head := ld 8 h_free in page_scan f 0 head)
     (λ r s', match r with
        | None => s' = s
        | Some page => page mod PGSIZE = 0 ∧ ∃ F', pool F' ((page, PGSIZE) :: A) s' ∧ kept A s s'
        end) s.
Proof.
  intros P. destruct (pl_brk _ _ _ P) as [_ Hbrk]. wp_steps. rewrite (proj1 (pl_list _ _ _ P)).
  pose proof (pool_length _ _ _ P) as Hn.
  destruct (first_fit (λ e, bool_decide (is_Some (page_in e.1 (e.1 + e.2)))) F)
    as [Hno|(l1 & [b z] & l4 & HF & Hb & Hno)].
  - replace (head_or F 0) with (head_or (F ++ []) 0) by (by rewrite app_nil_r).
    unfold wp. rewrite page_scan_walk; [|rewrite app_nil_r; exact (proj2 (pl_list _ _ _ P))| |lia].
    + simpl. destruct (heap_fuel s - length F)%nat; done.
    + intros e He. split; [by eapply pool_block|]. apply eq_None_not_Some. by apply (proj1 (bool_decide_eq_false _)), Hno.
  - subst F. rewrite length_app in Hn. simpl in Hn. apply bool_decide_eq_true in Hb as [page Hpg]. simpl in Hpg.
    unfold wp. rewrite page_scan_walk; [|exact (proj2 (pl_list _ _ _ P))| |lia].
    2: { intros e He. split; [eapply pool_block; [exact P|elem]|].
         apply eq_None_not_Some. by apply (proj1 (bool_decide_eq_false _)), Hno. }
    destruct (found_block _ _ _ _ _ _ P) as [_ (? & ? & ?) (? & ? & ?) _ _ _ _].
    destruct (page_in_spec b z page) as (Hp & _); [done..|lia|done|].
    destruct (heap_fuel s - length l1)%nat as [|n] eqn:En; [lia|]. simpl.
    rewrite (proj2 (Z.eqb_neq b 0)) by heap_lia.
    rewrite (pbind_eq _ _ _ _ _ (ld_eq 8 (b_size b) s ltac:(heap_lia) ltac:(heap_lia))).
    pose proof (pl_list _ _ _ P) as [_ (Hld & _)]%seg_split. unfold b_size. rewrite Hld, Hpg.
    apply (wp_bind (take_page _ _ _ _)).
    eapply wp_mono; [by apply (take_page_spec l1 b z l4)|]. intros [] s' (F' & P' & K & _). apply wp_ret.
    split; [done|]. by exists F'.
Qed.

(** [m__page] gives out a page, or nothing. *)
Lemma page_passes_spec k F A s :
  pool F A s →
  wp (passes sys_sbrk k (let* f := gets heap_fuel in let* head := ld 8 h_free in page_scan f 0 head) PGSIZE)
    (λ p s', kept A s s' ∧
      (p = 0 ∧ (∃ F', pool F' A s') ∨ p mod PGSIZE = 0 ∧ ∃ F', pool F' ((p, PGSIZE) :: A) s')) s.
Proof.
  revert F s. induction k as [|k IH]; intros F s P; cbn [passes].
  { apply wp_ret. split; [apply kept_refl|]. left. eauto. }
  apply wp_bind. eapply wp_mono; [by apply (page_scan_spec F A)|].
  intros [p|] s1 H1; [destruct H1 as (Hp & F' & P' & K); apply wp_ret; split; [done|right; eauto]|]. subst s1.
  apply wp_bind. eapply wp_mono; [apply (m__grow_spec F A); [done|unfold PGSIZE; lia]|].
  intros g s2 [(-> & -> & _)|(-> & n & _ & _ & _ & P2 & K2 & _)].
  - apply wp_ret. split; [apply kept_refl|]. left. eauto.
  - cbn [Z.ltb Z.compare]. eapply wp_mono; [by eapply IH|]. intros p s3 [K3 H3].
    split; [by eapply kept_trans|done].
Qed.
Lemma m__page_spec F A s :
  pool F A s →
  wp (m__page sys_sbrk) (λ p s', kept A s s' ∧
    (p = 0 ∧ (∃ F', pool F' A s') ∨ p mod PGSIZE = 0 ∧ ∃ F', pool F' ((p, PGSIZE) :: A) s')) s.
Proof. apply page_passes_spec. Qed.

(** ** Trimming *)

Lemma last_block_spec n l a z s :
  chain_to (um s) (l ++ [(a, z)]) 0 → (∀ e, e ∈ l ++ [(a, z)] → block_addr s e) → (length l ≤ n)%nat →
  last_block n (head_or (l ++ [(a, z)]) 0) s = Some (a, s).
Proof.
  revert n. induction l as [|[b t] l IH]; intros n Hc Ha Hn.
  - destruct Hc as (_ & Hnx & _). destruct (Ha (a, z)) as (? & ? & ?); [elem|].
    destruct n; simpl in *; rewrite (pbind_eq _ _ _ _ _ (ld_eq 8 (b_next a) s ltac:(heap_lia) ltac:(heap_lia)));
      unfold b_next; rewrite Hnx; done.
  - destruct n as [|n]; [simpl in Hn; lia|]. destruct Hc as (_ & Hnx & Hc).
    destruct (Ha (b, t)) as (? & ? & ?); [elem|]. simpl in *.
    rewrite (pbind_eq _ _ _ _ _ (ld_eq 8 (b_next b) s ltac:(heap_lia) ltac:(heap_lia))).
    unfold b_next. rewrite Hnx. rewrite (proj2 (Z.eqb_neq (head_or (l ++ [(a, z)]) 0) 0)).
    + apply IH; [done| |lia]. intros e He. apply Ha. elem.
    + assert (∃ e, e ∈ l ++ [(a, z)] ∧ e.1 = head_or (l ++ [(a, z)]) 0) as (e & He & E).
      { destruct l as [|[c u] l]; [exists (a, z)|exists (c, u)]; (split; [elem|done]). }
      rewrite <- E. destruct (Ha e) as (? & ? & ?); [apply elem_of_cons; by right|]. heap_lia.
Qed.

(** Trimming gives whole pages at the end of the last free block back. *)
Lemma pool_shrunk F l a z A s s' from :
  pool F A s → F = l ++ [(a, z)] → a + z = ubrk s → page_aligned from → UHEAP_BASE + PGSIZE ≤ from →
  a + 16 ≤ from < ubrk s → ubrk s' = from → (∀ x, x < from → rd8 (um s') x = rd8 (um s) x) →
  let m' := store_le 8 (store_le 8 (um s') h_top from) a (from - a) in
  pool (l ++ [(a, from - a)]) A (set_um s' m') ∧ kept A s (set_um s' m').
Proof.
  intros P -> Haz Hal Hb Hf Hb' Hx m'. destruct (found_block _ _ _ _ _ _ P) as [_ (? & ? & ?) (? & ? & ?) Hn _ _ [? ?]].
  destruct (pl_brk _ _ _ P) as [_ Hbrk]. unfold page_aligned in *.
  assert (∀ x, x < from → ¬ (h_top ≤ x < h_top + 8) → ¬ (a ≤ x < a + 8) → rd8 m' x = rd8 (um s) x) as Hm'.
  { intros x ? ? ?. unfold m'. rewrite !rd8_store_le by heap_lia. by apply Hx. }
  assert (from mod 16 = 0) as H16 by (clear -Hal; heap_unfold; ldiv).
  assert (∀ x, cover A x ≠ 0 → x < from ∧ ¬ (a ≤ x < a + z)) as Hown.
  { intros x Hx0. pose proof (pl_tiles _ _ _ P x) as Ht. rewrite cover_app in Ht. simpl in Ht.
    pose proof (cover_nonneg l x). pose proof (cover_nonneg A x).
    unfold inside in Ht. simpl in Ht. destruct (Z.leb_spec a x), (Z.ltb_spec x (a + z)), (decide _); simpl in Ht; lia. }
  pose proof (pool_order0 _ _ _ P) as [Ho0 _]%ordered_app.
  split; [split|].
  - split; simpl; [by rewrite Hb'|lia].
  - simpl. unfold m'. rewrite load_store_le_ne by heap_lia. rewrite Hb'. apply load_store_64. heap_lia.
  - simpl. pose proof (pl_list _ _ _ P) as [Hs _]%seg_split. apply seg_split. split.
    + eapply seg_ext; [..|exact Hs].
      * intros x Hr. apply Hm'; heap_lia.
      * intros f x Hfl Hr. pose proof (ordered_elem 0 _ _ _ ltac:(lia) Ho0 Hfl).
        pose proof (pool_order0 _ _ _ P) as [_ (? & _)]%ordered_app. apply Hm'; heap_lia.
    + split_and!; [..|done]; simpl.
      * unfold m'. apply load_store_64. heap_lia.
      * transitivity (load_le 8 (um s) (a + 8)); [|done]. apply load_le_ext. intros x Hr. apply Hm'; heap_lia.
  - pose proof (pl_order _ _ _ P) as [Ho1 (? & _)]%ordered_app. apply ordered_app. split; [done|].
    split_and!; [lia|lia|done].
  - intros x. simpl. pose proof (pl_tiles _ _ _ P x) as Ht. rewrite cover_app in *. simpl in *.
    unfold inside in *. simpl in *. rewrite Hb'.
    pose proof (cover_nonneg l x). pose proof (cover_nonneg A x).
    destruct (Z.leb_spec a x), (Z.ltb_spec x (a + z)), (Z.ltb_spec x (a + (from - a))); simpl in *;
      repeat destruct (decide _); lia.
  - pose proof (pl_units _ _ _ P) as [[HuF _]%list.Forall_app HuA]%list.Forall_app.
    rewrite !list.Forall_app. split_and!; [done| |done]. constructor; [|done]. split_and!; simpl; [done|ldiv|lia].
  - intros x Hf'. simpl. destruct (decide (cover A x = 0)) as [E|E].
    + destruct Hf' as [?|Hf']; [lia|]. apply Hm'; heap_lia.
    + destruct (Hown x E). apply Hm'; [done| |lia].
      intros Hr. apply E. eapply header_uncovered; [exact P|heap_lia].
Qed.

Lemma m__trim_spec F A s :
  pool F A s → wp (m__trim sys_sbrk) (λ _ s', (∃ F', pool F' A s') ∧ kept A s s') s.
Proof.
  intros P. destruct (pl_brk _ _ _ P) as [Hal Hbrk].
  assert (wp (pret ()) (λ _ s', (∃ F', pool F' A s') ∧ kept A s s') s) as Hdone.
  { apply wp_ret. split; [eauto|apply kept_refl]. }
  unfold m__trim. wp_steps. rewrite (proj1 (pl_list _ _ _ P)).
  destruct (exists_last' F) as [->|(l & [a z] & HF)]; [done|].
  destruct (_ =? 0); [done|]. pose proof (pool_length _ _ _ P) as Hn. pose proof (pl_list _ _ _ P) as Hs. subst F.
  rewrite length_app in Hn. simpl in Hn.
  destruct (found_block _ _ _ _ _ _ P) as [_ (? & ? & ?) (? & ? & ?) _ _ _ [? ?]].
  wp_steps. eapply run_wp; [apply last_block_spec; [exact (proj2 Hs)|intros; by eapply pool_block|lia]|].
  wp_steps. rewrite (pl_top _ _ _ P). unfold b_size. pose proof Hs as [_ (Hz & _)]%seg_split. rewrite Hz.
  rewrite u64_small by heap_lia. destruct (Z.eqb_spec (a + z) (ubrk s)) as [E|]; [|done]. cbn [negb].
  rewrite MHDR_16, u64_small by heap_lia.
  destruct (PGROUNDUP_bounds (a + 16)) as [Hr Hm]; [heap_lia|].
  set (from := if PGROUNDUP (a + 16) <? _ then _ else _).
  assert (page_aligned from ∧ UHEAP_BASE + PGSIZE ≤ from ∧ a + 16 ≤ from) as (Hf1 & Hf2 & Hf3).
  { unfold from, page_aligned. destruct (Z.ltb_spec (PGROUNDUP (a + 16)) (UHEAP_BASE + PGSIZE)); [|by (split_and!; lia)].
    split_and!; [done|lia|lia]. }
  clearbody from. destruct (_ || _) eqn:Eo; [done|]. apply orb_false_iff in Eo as [Eo%Z.leb_gt _].
  rewrite i64_small by heap_lia. apply wp_bind.
  destruct (sbrk_shrink (ubrk s - from) s (pl_brk _ _ _ P)) as (s' & Es & Eb & Hx).
  { lia. } { unfold page_aligned in *. heap_unfold. ldiv. } { lia. }
  eapply run_wp; [exact Es|].
  rewrite (proj2 (Z.eqb_neq (ubrk s) SBRK_FAILED)) by (unfold SBRK_FAILED, u64; heap_unfold; ldiv).
  replace (ubrk s - (ubrk s - from)) with from in Eb by lia.
  destruct (pool_shrunk _ l a z A s s' from P eq_refl) as [K1 K2]; try done; [rewrite <- Eb; done|].
  wp_steps. split; [eexists; exact K1|exact K2].
Qed.
End sbrk.
