(* ===== verification/HeapRuns.v ===== *)
(** * The heap's runs and the whole heap (malloc.h)

    On top of the pool: the pages carved into slots of one size, the lists
    of runs with room, and the page map that tells [free] what a pointer
    points into.  [heap] is the invariant of the whole; every operation is
    proved to keep it. *)
From stdpp Require Import base list numbers option gmap fin_maps.
From S2P Require Import Prelude Mem Riscv Heap HeapPool HeapAlloc.
Local Open Scope Z_scope.
Local Arguments load_le : simpl never.
Local Arguments store_le : simpl never.

(** ** What the heap holds *)

(** [g_big]: blocks given out by [m__big], size by address of the header.
    [g_run]: runs by page, with the class and the free slots in the order of
    their list.  [g_dir]: the block of the page map and the map's length. *)
Record ghost := mkGhost
  { g_big : gmap Z Z; g_run : gmap Z (Z * list Z); g_dir : option (Z * Z * Z) }.

Definition dir_extent (d : option (Z * Z * Z)) : list extent :=
  match d with Some (a, z, _) => [(a, z)] | None => [] end.
Definition run_extents (R : gmap Z (Z * list Z)) : list extent :=
  (λ x, (x.1, PGSIZE)) <$> map_to_list R.
Definition owned (g : ghost) : list extent :=
  map_to_list (g_big g) ++ dir_extent (g_dir g) ++ run_extents (g_run g).

(** A list threaded through the first words of its members. *)
Fixpoint threaded (m : memory) (head : Z) (l : list Z) : Prop :=
  match l with
  | [] => head = 0
  | p :: l' => head = p ∧ threaded m (load_le 8 m p) l'
  end.

Definition nslots (c : Z) : Z := (PGSIZE - MRUNHDR) / class_size c.
Definition run_slots (page c : Z) : list Z :=
  (λ k, page + PGSIZE - Z.of_nat k * class_size c) <$> seq 1 (Z.to_nat (nslots c)).

Record run_ok (m : memory) (page c : Z) (fr : list Z) : Prop := {
  rk_page : page mod PGSIZE = 0;
  rk_class : 0 ≤ c < Z.of_nat NCLASS;
  rk_cls : load_le 2 m (r_cls page) = c;
  rk_used : load_le 2 m (r_used page) = nslots c - Z.of_nat (length fr);
  rk_slots : threaded m (load_le 8 m (r_slots page)) fr;
  rk_nodup : NoDup fr;
  rk_in : ∀ p, p ∈ fr → p ∈ run_slots page c }.

(** The runs of class [c] that have room, in the order of their list. *)
Definition class_list (m : memory) (R : gmap Z (Z * list Z)) (c : Z) (L : list Z) : Prop :=
  threaded m (load_le 8 m (h_runs c)) L ∧ NoDup L ∧
  ∀ p, p ∈ L ↔ ∃ fr, R !! p = Some (c, fr) ∧ fr ≠ [].

(** The page map: class + 1 for the page of a run, 0 for any other. *)
Definition dir_ok (m : memory) (R : gmap Z (Z * list Z)) (d : option (Z * Z * Z)) : Prop :=
  match d with
  | None => load_le 8 m h_dir = 0 ∧ load_le 8 m h_dirlen = 0 ∧ R = ∅
  | Some (a, z, n) =>
      load_le 8 m h_dir = a + 16 ∧ load_le 8 m h_dirlen = n ∧ load_le 8 m a = z ∧ MAXSMALL < n ∧ n + 16 ≤ z ∧
      (∀ p c fr, R !! p = Some (c, fr) → page_idx p < n ∧ rd8 m (a + 16 + page_idx p) = c + 1) ∧
      (∀ i, 0 ≤ i < n → R !! (UHEAP_BASE + i * PGSIZE) = None → rd8 m (a + 16 + i) = 0)
  end.

(** All that is not the pool's or the page map's. *)
Record rest (g : ghost) (m : memory) : Prop := {
  rs_magic : load_le 8 m h_magic = MHEAP_MAGIC;
  rs_big : ∀ a z, g_big g !! a = Some z → load_le 8 m a = z ∧ 32 ≤ z;
  rs_run : ∀ p c fr, g_run g !! p = Some (c, fr) → run_ok m p c fr;
  rs_lists : ∀ c, 0 ≤ c < Z.of_nat NCLASS → ∃ L, class_list m (g_run g) c L;
  rs_pages : load_le 8 m h_run_pages = Z.of_nat (size (g_run g)) }.

(** The heap, with pieces [X] set aside in the middle of an operation. *)
Record heap_with (X : list extent) (g : ghost) (s : uspace) : Prop := {
  hp_pool : ∃ F, pool F (X ++ owned g) s;
  hp_rest : rest g (um s);
  hp_dir : dir_ok (um s) (g_run g) (g_dir g) }.
Abbreviation heap := (heap_with []).

(** What the program holds: the payload of each big block and every slot
    that is not free. *)
Definition run_live (x : Z * (Z * list Z)) : list extent :=
  (λ p, (p, class_size x.2.1)) <$> filter (.∉ x.2.2) (run_slots x.1 x.2.1).
Definition live (g : ghost) : list extent :=
  ((λ x, (x.1 + 16, x.2 - 16)) <$> map_to_list (g_big g)) ++ (map_to_list (g_run g) ≫= run_live).

(** ** Framing *)

Lemma threaded_ext m m' h l :
  (∀ p, p ∈ l → load_le 8 m' p = load_le 8 m p) → threaded m h l → threaded m' h l.
Proof.
  revert h. induction l as [|p l IH]; intros h Hp; [done|]. intros [-> Ht]. split; [done|].
  rewrite Hp by elem. apply IH; [|done]. intros q Hq. apply Hp. elem.
Qed.
Lemma elem_run_extents R p x : R !! p = Some x → (p, PGSIZE) ∈ run_extents R.
Proof. intros H. apply list_elem_of_fmap. exists (p, x). split; [done|]. by apply elem_of_map_to_list. Qed.
Lemma in_foreign A e x : e ∈ A → e.1 ≤ x < e.1 + e.2 → foreign A x.
Proof. intros He Hx. left. pose proof (cover_elem _ _ _ He Hx). lia. Qed.

(** Classes. *)
Lemma class_size_ok c :
  0 ≤ c < Z.of_nat NCLASS → 16 ≤ class_size c ≤ MAXSMALL ∧ class_size c mod 16 = 0 ∧ 0 < nslots c < 2 ^ 16.
Proof.
  intros Hc. assert (∃ n, (n < NCLASS)%nat ∧ c = Z.of_nat n) as (n & Hn & ->) by (exists (Z.to_nat c); lia).
  unfold NCLASS in Hn. do 16 (destruct n as [|n]; [by_compute|]). lia.
Qed.
Lemma elem_run_slots page c p :
  0 ≤ c < Z.of_nat NCLASS →
  p ∈ run_slots page c ↔ ∃ k, 1 ≤ k ≤ nslots c ∧ p = page + PGSIZE - k * class_size c.
Proof.
  intros Hc. destruct (class_size_ok c Hc) as (_ & _ & Hn). unfold run_slots.
  rewrite list_elem_of_fmap. split.
  - intros (k & -> & Hk%elem_of_seq). exists (Z.of_nat k). split; [lia|done].
  - intros (k & Hk & ->). exists (Z.to_nat k). rewrite elem_of_seq. split; [f_equal; lia|lia].
Qed.
Lemma slot_range page c p :
  0 ≤ c < Z.of_nat NCLASS → p ∈ run_slots page c → page + MRUNHDR ≤ p ∧ p + class_size c ≤ page + PGSIZE.
Proof.
  intros Hc (k & Hk & ->)%elem_run_slots; [|done]. destruct (class_size_ok c Hc) as (Hs & _ & _).
  unfold nslots, MRUNHDR, PGSIZE in *.
  assert (k * class_size c ≤ 4096 - 32) by (pose proof (Z.mul_div_le (4096 - 32) (class_size c)); nia). nia.
Qed.

Lemma load_1 m a : load_le 1 m a = rd8 m a.
Proof. unfold load_le. lia. Qed.

(** [agree A m m']: nothing foreign to the pool has changed. *)
Definition agree (A : list extent) (m m' : memory) : Prop := ∀ x, foreign A x → rd8 m' x = rd8 m x.
Lemma agree_load n A m m' e a :
  agree A m m' → e ∈ A → e.1 ≤ a → a + Z.of_nat n ≤ e.1 + e.2 → load_le n m' a = load_le n m a.
Proof. intros H He H1 H2. apply load_le_ext. intros x Hx. apply H. eapply in_foreign; [exact He|lia]. Qed.
Lemma agree_header n A m m' a :
  agree A m m' → (UHEAP_BASE ≤ a ∧ a + Z.of_nat n ≤ h_free) ∨ (h_top + 8 ≤ a ∧ a + Z.of_nat n ≤ heap_first) →
  load_le n m' a = load_le n m a.
Proof. intros H Ha. apply load_le_ext. intros x Hx. apply H. right. lia. Qed.

Section frame.
Context (X : list extent) (g : ghost) (m m' : memory) (H : agree (X ++ owned g) m m').

Lemma big_owned a z : g_big g !! a = Some z → (a, z) ∈ X ++ owned g.
Proof. intros Hb. unfold owned. apply elem_of_map_to_list in Hb. elem. Qed.
Lemma run_owned p x : g_run g !! p = Some x → (p, PGSIZE) ∈ X ++ owned g.
Proof. intros Hr%elem_run_extents. unfold owned. elem. Qed.
Lemma dir_owned a z n : g_dir g = Some (a, z, n) → (a, z) ∈ X ++ owned g.
Proof. intros Hd. unfold owned. rewrite Hd. simpl. elem. Qed.

Lemma run_frame p c fr : g_run g !! p = Some (c, fr) → run_ok m p c fr → run_ok m' p c fr.
Proof.
  intros Hr [K1 K2 K3 K4 K5 K6 K7]. pose proof (run_owned p _ Hr) as Ho.
  assert (∀ n a, p ≤ a → a + Z.of_nat n ≤ p + PGSIZE → load_le n m' a = load_le n m a) as Hl.
  { intros n a ? ?. eapply agree_load; [exact H|exact Ho|done..]. }
  split; try done.
  - rewrite Hl by heap_lia. done.
  - rewrite Hl by heap_lia. done.
  - rewrite Hl by heap_lia. eapply threaded_ext; [|exact K5]. intros q Hq. apply Hl.
    + pose proof (slot_range p c q K2 (K7 q Hq)). unfold MRUNHDR in *. lia.
    + pose proof (slot_range p c q K2 (K7 q Hq)). destruct (class_size_ok c K2). simpl. lia.
Qed.
Lemma rest_frame : rest g m → rest g m'.
Proof.
  intros [K1 K2 K3 K4 K5]. split.
  - rewrite <- K1. eapply agree_header; [exact H|heap_lia].
  - intros a z Hb. destruct (K2 a z Hb) as [<- Hz]. split; [|done].
    eapply agree_load; [exact H|by apply big_owned|simpl; lia..].
  - intros p c fr Hr. eapply run_frame; [exact Hr|auto].
  - intros c Hc. destruct (K4 c Hc) as (L & T & N & HL). exists L. split_and!; [|done|done].
    assert (load_le 8 m' (h_runs c) = load_le 8 m (h_runs c)) as ->.
    { eapply agree_header; [exact H|]. unfold NCLASS in Hc. heap_lia. }
    eapply threaded_ext; [|exact T]. intros p (fr & Hr & _)%HL.
    eapply agree_load; [exact H|by eapply run_owned|simpl; heap_lia..].
  - rewrite <- K5. eapply agree_header; [exact H|heap_lia].
Qed.
Lemma dir_frame : dir_ok m (g_run g) (g_dir g) → dir_ok m' (g_run g) (g_dir g).
Proof.
  unfold dir_ok. destruct (g_dir g) as [[[a z] n]|] eqn:E; intros Hd.
  - destruct Hd as (D1 & D2 & D3 & D4 & D5 & D6 & D7). pose proof (dir_owned _ _ _ E) as Ho. unfold MAXSMALL in *.
    assert (∀ i, 0 ≤ i < n → rd8 m' (a + 16 + i) = rd8 m (a + 16 + i)) as Hb.
    { intros i Hi. apply H. eapply in_foreign; [exact Ho|simpl; lia]. }
    split_and!; [| | |done|done| |].
    + rewrite <- D1. eapply agree_header; [exact H|heap_lia].
    + rewrite <- D2. eapply agree_header; [exact H|heap_lia].
    + rewrite <- D3. eapply agree_load; [exact H|exact Ho|simpl; lia..].
    + intros p c fr Hr. destruct (D6 p c fr Hr) as [Hi Hc]. split; [done|]. rewrite Hb; [done|].
      split; [|done]. unfold page_idx. apply Z.div_pos; [apply u64_range|unfold PGSIZE; lia].
    + intros i Hi Hr. rewrite Hb by done. auto.
  - destruct Hd as (D1 & D2 & D3). split_and!; [..|done].
    + rewrite <- D1. eapply agree_header; [exact H|heap_lia].
    + rewrite <- D2. eapply agree_header; [exact H|heap_lia].
Qed.
End frame.

(** The pool does not mind what changes elsewhere. *)
Lemma pool_frame F A s s' :
  pool F A s → ubrk s' = ubrk s → (∀ x, ¬ foreign A x → rd8 (um s') x = rd8 (um s) x) → pool F A s'.
Proof.
  intros P Hb Hx. assert (∀ x, h_free ≤ x < h_top + 8 → rd8 (um s') x = rd8 (um s) x) as Hh.
  { intros x Hr. apply Hx. apply foreign_free; [done|]. eapply header_uncovered; [exact P|heap_lia]. }
  destruct (pl_brk _ _ _ P) as [? ?]. split.
  - split; [by rewrite Hb|by rewrite Hb].
  - rewrite Hb, <- (pl_top _ _ _ P). apply load_le_ext. intros x Hr. apply Hh. heap_lia.
  - eapply seg_ext; [..|exact (pl_list _ _ _ P)].
    + intros x Hr. apply Hh. heap_lia.
    + intros f x Hf Hr. apply Hx. eapply (free_foreign _ _ _ P f); [done|].
      destruct (pool_block _ _ _ _ P Hf) as (? & ? & ?). lia.
  - exact (pl_order _ _ _ P).
  - rewrite Hb. exact (pl_tiles _ _ _ P).
  - exact (pl_units _ _ _ P).
Qed.
Lemma pool_perm F A A' s : A ≡ₚ A' → pool F A s → pool F A' s.
Proof.
  intros Hp [K1 K2 K3 K4 K5 K6]. split; try done; [intros x; by rewrite <- Hp|]. by rewrite <- Hp.
Qed.
Lemma agree_mono A A' m m' : (∀ x, foreign A' x → foreign A x) → agree A m m' → agree A' m m'.
Proof. intros Hf H x Hx. by apply H, Hf. Qed.
Lemma foreign_mono A A' x : (∀ y, cover A y ≤ cover A' y) → foreign A x → foreign A' x.
Proof. intros Hc. unfold foreign. specialize (Hc x). lia. Qed.

(** ** Pieces owned by different parties *)

Lemma run_extents_insert R p x : R !! p = None → run_extents (<[p := x]> R) ≡ₚ (p, PGSIZE) :: run_extents R.
Proof. intros H. unfold run_extents. by rewrite (map_to_list_insert R p x H). Qed.
Lemma run_extents_delete R p x : R !! p = Some x → run_extents R ≡ₚ (p, PGSIZE) :: run_extents (delete p R).
Proof. intros H. rewrite <- (insert_delete_id R p x) at 1 by done. apply run_extents_insert, lookup_delete_eq. Qed.
Lemma run_extents_update R p x y : R !! p = Some x → run_extents (<[p := y]> R) ≡ₚ run_extents R.
Proof.
  intros H. rewrite (run_extents_delete R p x H), <- insert_delete_eq. apply run_extents_insert, lookup_delete_eq.
Qed.

Lemma pair_apart l A e f :
  (∀ x, cover A x ≤ 1) → A ≡ₚ e :: f :: l → 16 ≤ e.2 → 16 ≤ f.2 → apart e f.
Proof.
  intros Hc Hp He Hf. unfold apart.
  destruct (decide (e.1 + e.2 ≤ f.1)); [by left|]. destruct (decide (f.1 + f.2 ≤ e.1)); [by right|]. exfalso.
  specialize (Hc (Z.max e.1 f.1)). rewrite Hp in Hc. simpl in Hc. pose proof (cover_nonneg l (Z.max e.1 f.1)).
  rewrite !(proj2 (inside_spec _ _)) in Hc by lia. lia.
Qed.
Lemma cover_le_1 F A s x : pool F A s → cover A x ≤ 1.
Proof. intros P. pose proof (pl_tiles _ _ _ P x). pose proof (cover_nonneg F x). destruct (decide _); lia. Qed.

Section parties.
Context (F X : list extent) (g : ghost) (s : uspace) (P : pool F (X ++ owned g) s).

(** Whatever else is owned stays clear of the page of a run. *)
Lemma run_apart p x e :
  g_run g !! p = Some x →
  e ∈ X ++ map_to_list (g_big g) ++ dir_extent (g_dir g) ++ run_extents (delete p (g_run g)) → apart (p, PGSIZE) e.
Proof.
  intros Hr He.
  assert (X ++ owned g ≡ₚ (p, PGSIZE) :: X ++ map_to_list (g_big g) ++ dir_extent (g_dir g) ++ run_extents (delete p (g_run g))) as Hp.
  { unfold owned. rewrite (run_extents_delete _ _ _ Hr). solve_Permutation. }
  pose proof (unit_in _ _ _ P e) as Hu.
  apply list_elem_of_split in He as (l1 & l2 & He). rewrite He in Hp.
  eapply (pair_apart (l1 ++ l2)); [intros y; by eapply cover_le_1| |unfold PGSIZE; simpl; lia|].
  - rewrite Hp. constructor. symmetry. apply Permutation_middle.
  - apply Hu. rewrite elem_of_app. right. rewrite Hp. elem.
Qed.
Lemma run_range p x : g_run g !! p = Some x → heap_first ≤ p ∧ p + PGSIZE ≤ ubrk s ∧ ubrk s ≤ UHEAP_TOP.
Proof.
  intros Hr. destruct (piece_range _ _ _ P (p, PGSIZE)) as [? ?]; [apply elem_of_app; right; by eapply run_owned|].
  destruct (pl_brk _ _ _ P) as [_ ?]. simpl in *. lia.
Qed.
End parties.

(** ** Changing one run *)

Definition set_run (g : ghost) (p : Z) (x : Z * list Z) : ghost :=
  mkGhost (g_big g) (<[p := x]> (g_run g)) (g_dir g).

Section update.
Context (X : list extent) (g : ghost) (s : uspace) (p c : Z) (fr : list Z) (m' : memory).
Context (H : heap_with X g s) (Hr : g_run g !! p = Some (c, fr)).
Context (Hx : ∀ x, ¬ (p ≤ x < p + PGSIZE) → ¬ (h_runs c ≤ x < h_runs c + 8) → rd8 m' x = rd8 (um s) x).

Lemma run_class : 0 ≤ c < Z.of_nat NCLASS.
Proof. exact (rk_class _ _ _ _ (rs_run _ _ (hp_rest _ _ _ H) _ _ _ Hr)). Qed.
Lemma h_runs_range : h_top + 8 ≤ h_runs c ∧ h_runs c + 8 ≤ h_dir.
Proof. pose proof run_class as Hc. unfold NCLASS in Hc. heap_lia. Qed.
(** Loads that the change does not reach. *)
Lemma load_header n a :
  a + Z.of_nat n ≤ heap_first → a + Z.of_nat n ≤ h_runs c ∨ h_runs c + 8 ≤ a → load_le n m' a = load_le n (um s) a.
Proof.
  intros H1 H2. destruct (hp_pool _ _ _ H) as [F P]. destruct (run_range _ _ _ _ P _ _ Hr) as [? _].
  apply load_le_ext. intros x Hr'. apply Hx; lia.
Qed.
Lemma load_piece n e a :
  e ∈ X ++ map_to_list (g_big g) ++ dir_extent (g_dir g) ++ run_extents (delete p (g_run g)) →
  e.1 ≤ a → a + Z.of_nat n ≤ e.1 + e.2 → load_le n m' a = load_le n (um s) a.
Proof.
  intros He H1 H2. destruct (hp_pool _ _ _ H) as [F P]. pose proof (run_apart _ _ _ _ P _ _ _ Hr He) as Ha.
  assert (e ∈ X ++ owned g) as Ho.
  { unfold owned. rewrite (run_extents_delete _ _ _ Hr). clear -He. revert He. rewrite !elem_of_app, elem_of_cons. tauto. }
  destruct (piece_range _ _ _ P e) as [? ?]; [apply elem_of_app; by right|]. pose proof h_runs_range.
  apply load_le_ext. intros x Hr'. destruct Ha; simpl in *; apply Hx; heap_lia.
Qed.
Lemma other_run q y : g_run g !! q = Some y → q ≠ p →
  (q, PGSIZE) ∈ X ++ map_to_list (g_big g) ++ dir_extent (g_dir g) ++ run_extents (delete p (g_run g)).
Proof.
  intros Hq Hne. rewrite !elem_of_app. right. right. right. eapply (elem_run_extents _ _ y).
  by rewrite lookup_delete_ne.
Qed.
Lemma run_kept q c' fr' : g_run g !! q = Some (c', fr') → q ≠ p → run_ok m' q c' fr'.
Proof.
  intros Hq Hne. destruct (rs_run _ _ (hp_rest _ _ _ H) _ _ _ Hq) as [K1 K2 K3 K4 K5 K6 K7].
  pose proof (other_run q _ Hq Hne) as Ho.
  assert (∀ n a, q ≤ a → a + Z.of_nat n ≤ q + PGSIZE → load_le n m' a = load_le n (um s) a) as Hl.
  { intros n a ? ?. by eapply load_piece. }
  split; try done.
  - rewrite Hl by heap_lia. done.
  - rewrite Hl by heap_lia. done.
  - rewrite Hl by heap_lia. eapply threaded_ext; [|exact K5]. intros z Hz.
    pose proof (slot_range q c' z K2 (K7 z Hz)). destruct (class_size_ok c' K2). apply Hl; unfold MRUNHDR in *; simpl; lia.
Qed.
Lemma list_kept c' L y :
  0 ≤ c' < Z.of_nat NCLASS → c' ≠ c → y.1 = c → class_list (um s) (g_run g) c' L → class_list m' (<[p := y]> (g_run g)) c' L.
Proof.
  intros Hc Hne Hy (T & N & HL).
  assert (∀ q, q ∈ L → q ≠ p) as Hnp by (intros q (f & Hq & _)%HL ->; congruence).
  split_and!; [|done|].
  - rewrite load_header; [|unfold NCLASS in Hc; heap_lia|heap_lia]. eapply threaded_ext; [|exact T]. intros q Hq.
    pose proof Hq as (f & Hf & _)%HL. eapply load_piece; [eapply other_run; [exact Hf|auto]|simpl; unfold PGSIZE; lia..].
  - intros q. rewrite HL. split; intros (f & Hf & Hn); exists f; (split; [|done]).
    + rewrite lookup_insert_ne; [done|]. intros <-. apply Hne. congruence.
    + destruct (decide (q = p)) as [->|]; [rewrite lookup_insert_eq in Hf; destruct y; simpl in *; congruence|].
      by rewrite lookup_insert_ne in Hf.
Qed.
Lemma dir_kept y : y.1 = c → dir_ok m' (<[p := y]> (g_run g)) (g_dir g).
Proof.
  intros Hy. pose proof (hp_dir _ _ _ H) as Hd. unfold dir_ok in *. pose proof h_runs_range.
  destruct (g_dir g) as [[[a z] n]|] eqn:E; [|destruct Hd as (_ & _ & Hd); by rewrite Hd in Hr].
  destruct Hd as (D1 & D2 & D3 & D4 & D5 & D6 & D7). unfold MAXSMALL in *.
  assert ((a, z) ∈ X ++ map_to_list (g_big g) ++ dir_extent (g_dir g) ++ run_extents (delete p (g_run g))) as Ho
    by (rewrite E; simpl; elem).
  assert (∀ i, 0 ≤ i < n → rd8 m' (a + 16 + i) = rd8 (um s) (a + 16 + i)) as Hb.
  { intros i Hi. pose proof (load_piece 1 (a, z) (a + 16 + i) Ho ltac:(simpl; lia) ltac:(simpl; lia)) as Hl.
    by rewrite !load_1 in Hl. }
  split_and!; [| | |done|done| |].
  - rewrite load_header; [done|heap_lia..].
  - rewrite load_header; [done|heap_lia..].
  - rewrite <- D3. eapply load_piece; [exact Ho|simpl; lia..].
  - intros q c' f Hq. assert (∃ f', g_run g !! q = Some (c', f')) as [f' Hq'].
    { destruct (decide (q = p)) as [->|]; [rewrite lookup_insert_eq in Hq; exists fr; destruct y; simpl in *; congruence|].
      rewrite lookup_insert_ne in Hq by done. eauto. }
    destruct (D6 _ _ _ Hq') as [Hi Hv]. split; [done|]. rewrite Hb; [done|]. split; [|done].
    unfold page_idx. apply Z.div_pos; [apply u64_range|unfold PGSIZE; lia].
  - intros i Hi Hn. apply lookup_insert_None in Hn as [Hn _]. rewrite Hb by done. auto.
Qed.
Lemma heap_update_run fr' :
  run_ok m' p c fr' → (∃ L, class_list m' (<[p := (c, fr')]> (g_run g)) c L) →
  heap_with X (set_run g p (c, fr')) (set_um s m').
Proof.
  intros Hok [L HL]. destruct (hp_pool _ _ _ H) as [F P]. pose proof h_runs_range.
  destruct (hp_rest _ _ _ H) as [K1 K2 K3 K4 K5]. split; [exists F|split|by apply dir_kept]; simpl.
  - eapply (pool_perm _ (X ++ owned g)).
    { unfold owned. simpl. by rewrite (run_extents_update _ _ _ _ Hr). }
    eapply pool_frame; [exact P|done|]. intros x Hf. simpl. apply Hx.
    + intros Hp. apply Hf. eapply in_foreign; [by eapply run_owned|done].
    + intros Hp. apply Hf. right. heap_lia.
  - rewrite load_header; [done|heap_lia..].
  - intros a z Hb. destruct (K2 a z Hb) as [Hld Hz]. split; [|done].
    transitivity (load_le 8 (um s) a); [|done]. eapply (load_piece _ (a, z)); [|simpl; lia..]. apply elem_of_map_to_list in Hb. elem.
  - intros q c' f Hq. destruct (decide (q = p)) as [->|Hne].
    + rewrite lookup_insert_eq in Hq. by simplify_eq.
    + rewrite lookup_insert_ne in Hq by done. by apply run_kept.
  - intros c' Hc'. destruct (decide (c' = c)) as [->|Hne]; [eauto|]. destruct (K4 c' Hc') as [L' HL'].
    exists L'. by apply list_kept.
  - rewrite load_header, K5; [|heap_lia..]. by rewrite map_size_insert_Some by eauto.
Qed.
End update.
