(* ===== verification/HeapOps.v ===== *)
(** * The heap's operations on runs (malloc.h)

    Taking and returning a slot, making and releasing a run, and the page
    map, each proved to keep the invariant [heap_with] of HeapRuns.v. *)
From stdpp Require Import base list numbers option gmap fin_maps.
From S2P Require Import Prelude Mem Riscv Heap HeapPool HeapAlloc HeapRuns.
Local Open Scope Z_scope.
Local Arguments load_le : simpl never.
Local Arguments store_le : simpl never.

(** ** Slots *)

Lemma slot_apart page c p q :
  0 ≤ c < Z.of_nat NCLASS → p ∈ run_slots page c → q ∈ run_slots page c → p ≠ q →
  p + class_size c ≤ q ∨ q + class_size c ≤ p.
Proof.
  intros Hc (k & Hk & ->)%elem_run_slots (j & Hj & ->)%elem_run_slots Hne; [|done..].
  destruct (class_size_ok c Hc) as (Hs & _). assert (k ≠ j) by (intros ->; done).
  destruct (decide (k < j)); [right|left]; nia.
Qed.
Lemma slot_nonzero page c p : 0 ≤ c < Z.of_nat NCLASS → 0 < page → p ∈ run_slots page c → p ≠ 0.
Proof. intros Hc Hp Hs. pose proof (slot_range _ _ _ Hc Hs). unfold MRUNHDR in *. lia. Qed.
Lemma length_run_slots page c : 0 ≤ c < Z.of_nat NCLASS → Z.of_nat (length (run_slots page c)) = nslots c.
Proof. intros Hc. destruct (class_size_ok c Hc) as (_ & _ & ?). unfold run_slots. rewrite length_fmap, length_seq. lia. Qed.
Lemma run_slots_NoDup page c : 0 ≤ c < Z.of_nat NCLASS → NoDup (run_slots page c).
Proof.
  intros Hc. destruct (class_size_ok c Hc) as (? & _). apply NoDup_fmap; [|apply NoDup_seq].
  intros i j E. nia.
Qed.
Lemma threaded_head m h l : threaded m h l → h = default 0 (head l).
Proof. destruct l; [done|by intros [-> _]]. Qed.
Lemma length_free m p c fr : run_ok m p c fr → 0 ≤ nslots c - Z.of_nat (length fr) < 2 ^ 16.
Proof.
  intros K. pose proof (rk_class _ _ _ _ K) as Hc. destruct (class_size_ok c Hc) as (_ & _ & ?).
  rewrite <- (rk_used _ _ _ _ K). apply (load_le_range 2).
Qed.

(** ** Loads after stores, and the shape of the goals they leave *)

Ltac ld_ne := rewrite load_store_le_ne by heap_lia.
Lemma load_store_small n m a v : 0 ≤ v < 256 ^ Z.of_nat n → load_le n (store_le n m a v) a = v.
Proof. intros. rewrite load_store_le. by apply Z.mod_small. Qed.

(** ** A run, and the list it stands in, when one slot moves *)

Lemma run_pop m m' r c p fr :
  run_ok m r c (p :: fr) → load_le 2 m' (r_cls r) = load_le 2 m (r_cls r) →
  load_le 2 m' (r_used r) = load_le 2 m (r_used r) + 1 → load_le 8 m' (r_slots r) = load_le 8 m p →
  (∀ q, q ∈ fr → load_le 8 m' q = load_le 8 m q) → run_ok m' r c fr.
Proof.
  intros [K1 K2 K3 K4 [_ K5] K6 K7] E1 E2 E3 E4. apply list.NoDup_cons in K6 as [_ K6].
  split; [done|done|congruence| | |done|intros q Hq; apply K7; elem].
  - rewrite E2, K4. simpl. lia.
  - rewrite E3. by eapply threaded_ext.
Qed.
Lemma run_push m m' r c p fr :
  run_ok m r c fr → p ∈ run_slots r c → p ∉ fr → load_le 2 m' (r_cls r) = load_le 2 m (r_cls r) →
  load_le 2 m' (r_used r) = load_le 2 m (r_used r) - 1 → load_le 8 m' (r_slots r) = p →
  load_le 8 m' p = load_le 8 m (r_slots r) →
  (∀ q, q ∈ fr → load_le 8 m' q = load_le 8 m q) → run_ok m' r c (p :: fr).
Proof.
  intros [K1 K2 K3 K4 K5 K6 K7] Hp Hn E1 E2 E3 E4 E5. split; [done|done|congruence|..].
  - rewrite E2, K4. simpl. lia.
  - rewrite E3. split; [done|]. rewrite E4. by eapply threaded_ext.
  - by apply list.NoDup_cons.
  - intros q [->|Hq]%elem_of_cons; auto.
Qed.

Lemma class_list_drop m m' R c r L :
  class_list m R c (r :: L) → load_le 8 m' (h_runs c) = load_le 8 m r →
  (∀ q, q ∈ L → load_le 8 m' q = load_le 8 m q) → class_list m' (<[r := (c, [])]> R) c L.
Proof.
  intros ((_ & T) & [Nr N]%list.NoDup_cons & HL) E Hq. split_and!; [rewrite E; by eapply threaded_ext|done|].
  intros q. split.
  - intros Hin. destruct (proj1 (HL q) ltac:(elem)) as (f & Hf & ?). exists f. split; [|done].
    rewrite lookup_insert_ne; [done|]. by intros <-.
  - intros (f & Hf & Hn). destruct (decide (q = r)) as [->|]; [rewrite lookup_insert_eq in Hf; congruence|].
    rewrite lookup_insert_ne in Hf by done. assert (q ∈ r :: L) as [?|?]%elem_of_cons by (apply HL; eauto); done.
Qed.
Lemma class_list_keep m m' R c r fr fr' L :
  class_list m R c L → R !! r = Some (c, fr) → fr ≠ [] → fr' ≠ [] →
  load_le 8 m' (h_runs c) = load_le 8 m (h_runs c) →
  (∀ q, q ∈ L → load_le 8 m' q = load_le 8 m q) → class_list m' (<[r := (c, fr')]> R) c L.
Proof.
  intros (T & N & HL) Hr Hf Hf' E Hq. split_and!; [rewrite E; by eapply threaded_ext|done|].
  intros q. rewrite HL. destruct (decide (q = r)) as [->|Hne].
  - rewrite lookup_insert_eq, Hr. split; intros (f & E1 & ?); [by exists fr'|by exists fr].
  - by rewrite lookup_insert_ne.
Qed.
Lemma class_list_push m m' R c r fr' L :
  class_list m R c L → R !! r = Some (c, []) ∨ R !! r = None → fr' ≠ [] →
  load_le 8 m' (h_runs c) = r → load_le 8 m' r = load_le 8 m (h_runs c) →
  (∀ q, q ∈ L → load_le 8 m' q = load_le 8 m q) → class_list m' (<[r := (c, fr')]> R) c (r :: L).
Proof.
  intros (T & N & HL) Hr Hf' E1 E2 Hq.
  assert (r ∉ L) as Hnr by (intros (f & Hf & Hn)%HL; destruct Hr; congruence).
  split_and!; [rewrite E1; split; [done|rewrite E2; by eapply threaded_ext]|by apply list.NoDup_cons|].
  intros q. rewrite elem_of_cons, HL. destruct (decide (q = r)) as [->|Hne].
  - rewrite lookup_insert_eq. split; [intros _; eauto|by left].
  - rewrite lookup_insert_ne by done. split; [intros [|]; done|by right].
Qed.

Section ops.
Context (sys_sbrk : Z → prog uspace Z) `{!SbrkLaws sys_sbrk}.

(** What a run says about its first free slot. *)
Lemma run_head X g s r c p fr :
  heap_with X g s → g_run g !! r = Some (c, p :: fr) →
  load_le 8 (um s) (r_slots r) = p ∧ load_le 8 (um s) p = default 0 (head fr) ∧
  r + MRUNHDR ≤ p ∧ p + 16 ≤ r + PGSIZE.
Proof.
  intros H Hr. destruct (rs_run _ _ (hp_rest _ _ _ H) _ _ _ Hr) as [K1 K2 K3 K4 [K5 K5'] K6 K7].
  pose proof (slot_range r c p K2 (K7 p ltac:(elem))). destruct (class_size_ok c K2) as (? & _).
  split_and!; [done|exact (threaded_head _ _ _ K5')|lia|lia].
Qed.
(** The members of a class list are pages away from [r]. *)
Lemma class_list_apart X g s r x c L q :
  heap_with X g s → g_run g !! r = Some x → class_list (um s) (g_run g) c L → q ∈ L → q ≠ r →
  heap_first ≤ q ∧ (r + PGSIZE ≤ q ∨ q + PGSIZE ≤ r).
Proof.
  intros H Hr (_ & _ & HL) Hq Hne. destruct (hp_pool _ _ _ H) as [F P].
  destruct (proj1 (HL q) Hq) as (f & Hf & _). destruct (run_range _ _ _ _ P _ _ Hf) as (? & _). split; [done|].
  exact (run_apart _ _ _ _ P _ _ _ Hr (other_run X g r q _ Hf Hne)).
Qed.

Lemma take_slot_spec X g s r c p fr L :
  heap_with X g s → g_run g !! r = Some (c, p :: fr) → class_list (um s) (g_run g) c (r :: L) →
  wp (take_slot r c) (λ q s', q = p ∧ heap_with X (set_run g r (c, fr)) s' ∧
    ∀ x, heap_first ≤ x → ¬ (r ≤ x < r + MRUNHDR) → rd8 (um s') x = rd8 (um s) x) s.
Proof.
  intros H Hr HL. destruct (hp_pool _ _ _ H) as [F P].
  destruct (run_range _ _ _ _ P _ _ Hr) as (R1 & R2 & R3). pose proof (run_class _ _ _ _ _ _ H Hr) as Hc.
  destruct (h_runs_range _ _ _ _ _ _ H Hr) as [Hh1 Hh2].
  pose proof (rs_run _ _ (hp_rest _ _ _ H) _ _ _ Hr) as K.
  destruct (run_head _ _ _ _ _ _ _ H Hr) as (E1 & E2 & S1 & S2).
  pose proof (length_free _ _ _ _ K) as Hu. pose proof (rk_used _ _ _ _ K) as K4. simpl length in Hu, K4.
  destruct (class_size_ok c Hc) as (_ & _ & Hn).
  assert (0 ≤ default 0 (head fr) < 2 ^ 64) as Hd by (rewrite <- E2; apply (load_le_range 8)).
  assert (∀ q, q ∈ L → heap_first ≤ q ∧ (r + PGSIZE ≤ q ∨ q + PGSIZE ≤ r)) as HLq.
  { intros q Hq. eapply class_list_apart; [exact H|exact Hr|exact HL|elem|].
    intros ->. destruct HL as (_ & [? _]%list.NoDup_cons & _). done. }
  unfold MRUNHDR in *. unfold take_slot. wp_steps. rewrite E1. wp_steps. rewrite E2. unfold set_um. simpl um.
  rewrite (load_store_le_ne 2 8), (load_store_le_ne 8 2), load_store_64, K4, (u16_small (_ + 1)) by heap_lia.
  set (m2 := store_le 2 _ _ _).
  assert (∀ m', (∀ n a, heap_first ≤ a → load_le n m' a = load_le n m2 a) → run_ok m' r c fr) as Hrun.
  { intros m' Hm'. eapply run_pop; [exact K|rewrite Hm' by heap_lia; unfold m2..|].
    - ld_ne. ld_ne. done.
    - rewrite load_store_small, K4; [lia|]. change (256 ^ Z.of_nat 2) with (2 ^ 16). lia.
    - rewrite (load_store_le_ne 8 2), load_store_64 by heap_lia. done.
    - intros q Hq. pose proof (slot_range r c q Hc (rk_in _ _ _ _ K q ltac:(elem))). unfold MRUNHDR in *.
      rewrite Hm' by heap_lia. unfold m2. ld_ne. ld_ne. done. }
  destruct (Z.eqb_spec (default 0 (head fr)) 0) as [E0|E0].
  - assert (fr = []) as ->.
    { destruct fr as [|q fr]; [done|]. pose proof (slot_range r c q Hc (rk_in _ _ _ _ K q ltac:(elem))).
      change (q = 0) in E0. heap_lia. }
    wp_steps. split; [done|]. split; [|simpl; intros x ? ?; unfold m2; by rewrite !rd8_store_le by heap_lia].
    apply (heap_update_run X g s r c _ _ H Hr); [|apply Hrun; intros n a Ha; by ld_ne|exists L].
    + intros x ? ?. simpl. unfold m2. by rewrite !rd8_store_le by heap_lia.
    + eapply class_list_drop; [exact HL| |].
      * rewrite load_store_small by apply (load_le_range 8). simpl. unfold m2. ld_ne. ld_ne. done.
      * intros q Hq. destruct (HLq q Hq). simpl. unfold m2. do 3 ld_ne. done.
  - wp_steps. split; [done|]. split; [|simpl; intros x ? ?; unfold m2; by rewrite !rd8_store_le by heap_lia].
    apply (heap_update_run X g s r c _ _ H Hr); [|by apply Hrun|exists (r :: L)].
    + intros x ? ?. unfold m2. by rewrite !rd8_store_le by heap_lia.
    + eapply class_list_keep; [exact HL|exact Hr|done|by destruct fr| |].
      * unfold m2. do 2 ld_ne. done.
      * intros q [->|Hq]%elem_of_cons; [|destruct (HLq q Hq)]; unfold m2; do 2 ld_ne; done.
Qed.

(** Nothing of the heap but the run of [r] and slot [p] in it. *)
Definition only_run (r p : Z) (s s' : uspace) : Prop :=
  ∀ x, heap_first ≤ x → ¬ (r ≤ x < r + MRUNHDR) → ¬ (p ≤ x < p + 8) → rd8 (um s') x = rd8 (um s) x.

Lemma free_slot_in_spec X g s r c p fr :
  heap_with X g s → g_run g !! r = Some (c, fr) → p ∈ run_slots r c → p ∉ fr →
  wp (free_slot_in r p) (λ e s', e = (nslots c =? Z.of_nat (S (length fr))) ∧
    heap_with X (set_run g r (c, p :: fr)) s' ∧ only_run r p s s') s.
Proof.
  intros H Hr Hp Hpf. destruct (hp_pool _ _ _ H) as [F P].
  destruct (run_range _ _ _ _ P _ _ Hr) as (R1 & R2 & R3). pose proof (run_class _ _ _ _ _ _ H Hr) as Hc.
  destruct (h_runs_range _ _ _ _ _ _ H Hr) as [Hh1 Hh2]. pose proof (rs_run _ _ (hp_rest _ _ _ H) _ _ _ Hr) as K.
  pose proof (slot_range r c p Hc Hp) as Hpr. destruct (class_size_ok c Hc) as (Hcs & _ & Hn).
  pose proof (length_free _ _ _ _ K) as Hu. pose proof (rk_used _ _ _ _ K) as K4.
  assert (0 < nslots c - Z.of_nat (length fr)) as Hpos.
  { assert (length fr < length (run_slots r c))%nat as Hlt; [|rewrite <- (length_run_slots r c Hc); lia].
    apply (submseteq_length (p :: fr)). apply NoDup_submseteq; [apply list.NoDup_cons; split; [done|exact (rk_nodup _ _ _ _ K)]|].
    intros q [->|Hq]%elem_of_cons; [done|by apply (rk_in _ _ _ _ K)]. }
  assert (∀ q, q ∈ fr → r + 32 ≤ q ∧ (p + 16 ≤ q ∨ q + 16 ≤ p)) as Hfr.
  { intros q Hq. pose proof (rk_in _ _ _ _ K q Hq) as Hq'. pose proof (slot_range r c q Hc Hq').
    destruct (slot_apart r c p q Hc Hp Hq'); [by intros ->|heap_lia..]. }
  destruct (rs_lists _ _ (hp_rest _ _ _ H) c Hc) as [L HL].
  pose proof (threaded_head _ _ _ (rk_slots _ _ _ _ K)) as Eh. pose proof (rk_cls _ _ _ _ K) as Ecls.
  assert (0 ≤ default 0 (head fr) < 2 ^ 64) as Hd by (rewrite <- Eh; apply (load_le_range 8)).
  set (m1 := if decide (fr = []) then store_le 8 (store_le 8 (um s) (r_next r) (load_le 8 (um s) (h_runs c))) (h_runs c) r
             else um s).
  assert (∀ n a, a + Z.of_nat n ≤ r ∨ r + 8 ≤ a → a + Z.of_nat n ≤ h_runs c ∨ h_runs c + 8 ≤ a →
    load_le n m1 a = load_le n (um s) a) as Hm1.
  { intros n a ? ?. unfold m1. destruct (decide _); [|done]. by rewrite !load_store_le_ne by heap_lia. }
  unfold free_slot_in. do 3 wp_step. rewrite Eh.
  apply (wp_mono _ (λ _ s', s' = set_um s m1)).
  { unfold m1. destruct (decide (fr = [])) as [->|Hne].
    - simpl. wp_steps. rewrite Ecls. wp_steps. done.
    - destruct fr as [|q fr]; [done|]. destruct (Hfr q); [elem|]. change (default 0 (head (q :: fr))) with q.
      rewrite (proj2 (Z.eqb_neq q 0)) by heap_lia. wp_steps. by destruct s. }
  intros [] s1 ->. wp_steps. unfold set_um. simpl um.
  rewrite (Hm1 8%nat (r_slots r)), Eh by heap_lia. rewrite !(load_store_le_ne 2), Hm1, K4 by heap_lia.
  rewrite (u16_small (_ - 1)) by lia. set (m' := store_le 2 _ _ _).
  assert (run_ok m' r c (p :: fr)) as Hrun.
  { eapply run_push; [exact K|done|done|unfold m'..|].
    - do 3 ld_ne. apply Hm1; heap_lia.
    - rewrite load_store_small, K4; [done|]. change (256 ^ Z.of_nat 2) with (2 ^ 16). lia.
    - ld_ne. apply load_store_64. heap_lia.
    - do 2 ld_ne. rewrite Eh. by apply load_store_64.
    - intros q Hq. destruct (Hfr q Hq). unfold m'. do 3 ld_ne. apply Hm1; heap_lia. }
  split_and!; [destruct (Z.eqb_spec (nslots c) (Z.of_nat (S (length fr)))), (Z.eqb_spec (nslots c - Z.of_nat (length fr) - 1) 0); done || lia| |].
  - apply (heap_update_run X g s r c _ _ H Hr); [|done|].
    + intros x ? ?. unfold m'. rewrite !rd8_store_le by heap_lia. unfold m1. destruct (decide _); [|done].
      by rewrite !rd8_store_le by heap_lia.
    + unfold m1 in m'. destruct (decide (fr = [])) as [->|Hne].
      * assert (∀ q, q ∈ L → heap_first ≤ q ∧ (r + PGSIZE ≤ q ∨ q + PGSIZE ≤ r)) as HLq.
        { intros q Hq. eapply class_list_apart; [exact H|exact Hr|exact HL|done|].
          intros ->. destruct HL as (_ & _ & HL). apply HL in Hq as (f & Hf & ?). congruence. }
        exists (r :: L). eapply class_list_push; [exact HL|by left|done|unfold m'..].
        { do 3 ld_ne. apply load_store_64. heap_lia. }
        { do 4 ld_ne. apply load_store_small, (load_le_range 8). }
        { intros q Hq. destruct (HLq q Hq). unfold m'. do 5 ld_ne. done. }
      * exists L. eapply class_list_keep; [exact HL|exact Hr|done|done|unfold m'; by do 3 ld_ne|].
        intros q Hq. destruct (decide (q = r)) as [->|Hqr]; [unfold m'; by do 3 ld_ne|].
        destruct (class_list_apart _ _ _ _ _ _ _ _ H Hr HL Hq Hqr). unfold m'. by do 3 ld_ne.
  - intros x ? ? ?. simpl. unfold m'. rewrite !rd8_store_le by heap_lia. unfold m1.
    destruct (decide _); [|done]. by rewrite !rd8_store_le by heap_lia.
Qed.

(** ** Taking a run off its list *)

Fixpoint zlast (cell : Z) (l : list Z) : Z := match l with [] => cell | q :: l' => zlast q l' end.
Lemma zlast_in cell l : zlast cell l = cell ∧ l = [] ∨ zlast cell l ∈ l.
Proof.
  revert cell. induction l as [|q l IH]; intros cell; [by left|]. right. simpl.
  destruct (IH q) as [[-> ->]|?]; elem.
Qed.
Lemma unlink_run_spec n cell r L1 L2 s :
  threaded (um s) (load_le 8 (um s) cell) (L1 ++ r :: L2) → (r ∉ L1) → (length L1 ≤ n)%nat →
  (∀ q, q ∈ cell :: L1 ++ r :: L2 → UHEAP_BASE ≤ q ∧ q + 8 ≤ ubrk s) → (∀ q, q ∈ L1 ++ [r] → q ≠ 0) →
  wp (unlink_run n cell r) (λ _ s', s' = set_um s (store_le 8 (um s) (zlast cell L1) (load_le 8 (um s) r))) s.
Proof.
  revert n cell. induction L1 as [|q L1 IH]; intros n cell [E T] Hr Hn Hm Hz; destruct n as [|n]; simpl in Hn; try lia;
    simpl unlink_run; destruct (Hm cell) as [? ?]; try elem; destruct (Hm r) as [? ?]; try elem; wp_steps; rewrite E.
  1,2: rewrite (proj2 (Z.eqb_neq r 0)), Z.eqb_refl by (apply Hz; elem); wp_steps; done.
  rewrite (proj2 (Z.eqb_neq q 0)), (proj2 (Z.eqb_neq q r)); [|intros ->; apply Hr; elem|apply Hz; elem].
  apply IH; [done| |lia| |]; unfold r_next.
  - intros Hq. apply Hr. elem.
  - intros y Hy. apply Hm. apply elem_of_cons. by right.
  - intros y Hy. apply Hz. apply elem_of_cons. by right.
Qed.
Lemma threaded_unlink m m' cell L1 r L2 :
  threaded m (load_le 8 m cell) (L1 ++ r :: L2) → NoDup (cell :: L1 ++ r :: L2) →
  (∀ q, q ∈ cell :: L1 ++ L2 → q ≠ zlast cell L1 → load_le 8 m' q = load_le 8 m q) →
  load_le 8 m' (zlast cell L1) = load_le 8 m r → threaded m' (load_le 8 m' cell) (L1 ++ L2).
Proof.
  revert cell. induction L1 as [|q L1 IH]; intros cell [E T] N Hq El; simpl in *.
  - rewrite El. eapply threaded_ext; [|exact T]. intros q Hin. apply Hq; [elem|]. intros ->.
    apply list.NoDup_cons in N as [N _]. apply N. elem.
  - apply list.NoDup_cons in N as [Nc N]. split.
    + rewrite <- E. apply Hq; [elem|]. intros ->. apply Nc.
      destruct (zlast_in q L1) as [[-> _]|Hz]; elem.
    + apply IH; [done|done| |done]. intros y Hy. apply Hq. apply elem_of_cons. by right.
Qed.
Lemma class_list_remove m m' R c r L1 L2 :
  class_list m R c (L1 ++ r :: L2) → NoDup (h_runs c :: L1 ++ r :: L2) →
  (∀ q, q ∈ h_runs c :: L1 ++ L2 → q ≠ zlast (h_runs c) L1 → load_le 8 m' q = load_le 8 m q) →
  load_le 8 m' (zlast (h_runs c) L1) = load_le 8 m r → class_list m' (delete r R) c (L1 ++ L2).
Proof.
  intros (T & N & HL) N' Hq El. split_and!; [by eapply threaded_unlink|..].
  - rewrite <- Permutation_middle in N. by apply list.NoDup_cons in N as [_ N].
  - rewrite <- Permutation_middle in N. apply list.NoDup_cons in N as [Nr _].
    intros q. destruct (decide (q = r)) as [->|Hne].
    + rewrite lookup_delete_eq. split; [done|by intros (f & ? & _)].
    + rewrite lookup_delete_ne, <- HL by done. elem || (rewrite !elem_of_app, elem_of_cons; tauto).
Qed.

(** ** The page map *)

Lemma page_idx_ok p :
  p mod PGSIZE = 0 → UHEAP_BASE ≤ p < 2 ^ 42 → UHEAP_BASE + page_idx p * PGSIZE = p ∧ 0 ≤ page_idx p < 2 ^ 30.
Proof. intros Hp Hr. unfold page_idx. rewrite u64_small by heap_lia. heap_unfold. split; ldiv. Qed.
Lemma dir_apart F X g s a z n e :
  pool F (X ++ owned g) s → g_dir g = Some (a, z, n) →
  e ∈ X ++ map_to_list (g_big g) ++ run_extents (g_run g) → apart (a, z) e.
Proof.
  intros P Hd He.
  assert (X ++ owned g ≡ₚ (a, z) :: X ++ map_to_list (g_big g) ++ run_extents (g_run g)) as Hp.
  { unfold owned. rewrite Hd. simpl. solve_Permutation. }
  pose proof (unit_in _ _ _ P) as Hu. apply list_elem_of_split in He as (l1 & l2 & He). rewrite He in Hp.
  eapply (pair_apart (l1 ++ l2)); [intros y; by eapply cover_le_1|..].
  - rewrite Hp. constructor. symmetry. apply Permutation_middle.
  - apply (Hu (a, z)). rewrite elem_of_app. right. rewrite Hp. elem.
  - apply Hu. rewrite elem_of_app. right. rewrite Hp. elem.
Qed.

(** ** Giving up a run *)

Definition del_run (g : ghost) (r : Z) : ghost := mkGhost (g_big g) (delete r (g_run g)) (g_dir g).

Section drop.
Context (X : list extent) (g : ghost) (s : uspace) (r c : Z) (fr : list Z) (cell a z n : Z) (m' : memory).
Context (H : heap_with X g s) (Hr : g_run g !! r = Some (c, fr)) (Hd : g_dir g = Some (a, z, n)).
Context (Hcell : cell = h_runs c ∨ ∃ f, cell ≠ r ∧ g_run g !! cell = Some (c, f)).
Context (Hx : ∀ x, ¬ (cell ≤ x < cell + 8) → x ≠ a + 16 + page_idx r → ¬ (h_run_pages ≤ x < h_run_pages + 8) →
                   rd8 m' x = rd8 (um s) x).

Lemma drop_idx : 0 ≤ page_idx r < n ∧ MAXSMALL < n ∧ n + 16 ≤ z ∧ UHEAP_BASE + page_idx r * PGSIZE = r.
Proof.
  pose proof (hp_dir _ _ _ H) as D. unfold dir_ok in D. rewrite Hd in D. destruct D as (_ & _ & _ & D4 & D5 & D6 & _).
  destruct (D6 _ _ _ Hr) as [D _]. destruct (hp_pool _ _ _ H) as [F P]. destruct (run_range _ _ _ _ P _ _ Hr) as (? & ? & ?).
  destruct (page_idx_ok r) as [? ?]; [exact (rk_page _ _ _ _ (rs_run _ _ (hp_rest _ _ _ H) _ _ _ Hr))|heap_lia|]. lia.
Qed.
Lemma drop_cell : h_top + 8 ≤ cell ∧ cell + 8 ≤ h_dir ∨ heap_first ≤ cell.
Proof.
  destruct (hp_pool _ _ _ H) as [F P]. destruct Hcell as [E|(f & _ & Hf)].
  - left. rewrite E. exact (h_runs_range _ _ _ _ _ _ H Hr).
  - right. by destruct (run_range _ _ _ _ P _ _ Hf).
Qed.
Lemma drop_dir_range : heap_first ≤ a ∧ a + z ≤ ubrk s.
Proof.
  destruct (hp_pool _ _ _ H) as [F P]. apply (piece_range _ _ _ P (a, z)). apply elem_of_app. right. by eapply dir_owned.
Qed.
Lemma drop_header k x :
  x + Z.of_nat k ≤ h_run_pages → (x + Z.of_nat k ≤ cell ∨ cell + 8 ≤ x) → load_le k m' x = load_le k (um s) x.
Proof.
  intros H1 H2. pose proof drop_dir_range. pose proof drop_idx. pose proof drop_cell.
  apply load_le_ext. intros y Hy. apply Hx; heap_lia.
Qed.
(** A load from an owned piece that avoids the cell and the map. *)
Lemma drop_load k e x :
  e ∈ X ++ map_to_list (g_big g) ++ run_extents (g_run g) → e.1 ≤ x → x + Z.of_nat k ≤ e.1 + e.2 →
  x + Z.of_nat k ≤ cell ∨ cell + 8 ≤ x → load_le k m' x = load_le k (um s) x.
Proof.
  intros He H1 H2 H3. destruct (hp_pool _ _ _ H) as [F P]. pose proof (dir_apart _ _ _ _ _ _ _ _ P Hd He) as Ha.
  assert (e ∈ F ++ X ++ owned g) as Ho by (unfold owned; clear -He; rewrite !elem_of_app in *; tauto).
  destruct (piece_range _ _ _ P e Ho). pose proof drop_idx. apply load_le_ext. intros y Hy.
  apply Hx; [lia| |heap_lia]. destruct Ha; simpl in *; unfold MAXSMALL in *; lia.
Qed.
(** Two different runs, or a run and the cell. *)
Lemma drop_run_apart q y : g_run g !! q = Some y → q ≠ cell → q + PGSIZE ≤ cell ∨ cell + 8 ≤ q.
Proof.
  intros Hq Hne. destruct (hp_pool _ _ _ H) as [F P]. destruct (run_range _ _ _ _ P _ _ Hq) as (? & ? & ?).
  destruct Hcell as [E|(f & _ & Hf)].
  - right. destruct (h_runs_range _ _ _ _ _ _ H Hr). heap_lia.
  - destruct (run_apart _ _ _ _ P _ _ _ Hf (other_run X g cell q _ Hq Hne)); simpl in *; heap_lia.
Qed.
Lemma drop_run_ok q c' f : g_run g !! q = Some (c', f) → run_ok m' q c' f.
Proof.
  intros Hq. destruct (rs_run _ _ (hp_rest _ _ _ H) _ _ _ Hq) as [K1 K2 K3 K4 K5 K6 K7].
  assert ((q, PGSIZE) ∈ X ++ map_to_list (g_big g) ++ run_extents (g_run g)) as Ho.
  { rewrite !elem_of_app. right. right. by eapply elem_run_extents. }
  assert (∀ k x, q + 8 ≤ x → x + Z.of_nat k ≤ q + PGSIZE → load_le k m' x = load_le k (um s) x) as Hl.
  { intros k x ? ?. apply (drop_load k _ x Ho); simpl; [lia|lia|].
    destruct (decide (q = cell)); [lia|]. destruct (drop_run_apart q _ Hq); [done|lia..]. }
  split; try done.
  - rewrite Hl by heap_lia. done.
  - rewrite Hl by heap_lia. done.
  - rewrite Hl by heap_lia. eapply threaded_ext; [|exact K5]. intros y Hy.
    pose proof (slot_range q c' y K2 (K7 y Hy)). destruct (class_size_ok c' K2). apply Hl; heap_lia.
Qed.
Lemma drop_dir_ok : rd8 m' (a + 16 + page_idx r) = 0 → dir_ok m' (delete r (g_run g)) (g_dir g).
Proof.
  intros Hz. pose proof (hp_dir _ _ _ H) as D. unfold dir_ok in *. rewrite Hd in *.
  destruct D as (D1 & D2 & D3 & D4 & D5 & D6 & D7). unfold MAXSMALL in *.
  destruct (hp_pool _ _ _ H) as [F P]. pose proof drop_dir_range. pose proof drop_cell. destruct drop_idx as (Hi & _ & _ & Hri).
  assert (a + z ≤ cell ∨ cell + 8 ≤ a) as Hac.
  { destruct Hcell as [E|(f & _ & Hf)]; [destruct (h_runs_range _ _ _ _ _ _ H Hr); heap_lia|].
    destruct (dir_apart _ _ _ _ _ _ _ (cell, PGSIZE) P Hd); [rewrite !elem_of_app; right; right; by eapply elem_run_extents|..];
      simpl in *; heap_lia. }
  assert (∀ i, 0 ≤ i < n → i ≠ page_idx r → rd8 m' (a + 16 + i) = rd8 (um s) (a + 16 + i)) as Hb.
  { intros i ? ?. apply Hx; heap_lia. }
  split_and!; [| | |done|done| |].
  - rewrite drop_header; [done|heap_lia..].
  - rewrite drop_header; [done|heap_lia..].
  - rewrite <- D3. apply load_le_ext. intros x ?. apply Hx; heap_lia.
  - intros p c' f [Hne Hp]%lookup_delete_Some. destruct (D6 _ _ _ Hp) as [Hip Hv]. split; [done|].
    destruct (run_range _ _ _ _ P _ _ Hp) as (? & ? & ?).
    destruct (page_idx_ok p) as [? ?]; [exact (rk_page _ _ _ _ (rs_run _ _ (hp_rest _ _ _ H) _ _ _ Hp))|heap_lia|].
    rewrite Hb; [done|lia|]. intros E. apply Hne. rewrite <- Hri, <- E. done.
  - intros i Hin Hn'. destruct (decide (i = page_idx r)) as [->|]; [done|]. rewrite Hb by done. apply D7; [done|].
    rewrite lookup_delete_ne in Hn'; [done|]. intros E. rewrite <- Hri in E. unfold PGSIZE in E. lia.
Qed.
Lemma heap_drop_run L' :
  rd8 m' (a + 16 + page_idx r) = 0 → load_le 8 m' h_run_pages = Z.of_nat (size (g_run g)) - 1 →
  class_list m' (delete r (g_run g)) c L' → heap_with ((r, PGSIZE) :: X) (del_run g r) (set_um s m').
Proof.
  intros Hz Hp HL. destruct (hp_pool _ _ _ H) as [F P]. destruct (hp_rest _ _ _ H) as [K1 K2 K3 K4 K5].
  pose proof drop_cell. pose proof drop_dir_range. destruct drop_idx as (? & ? & ? & ?).
  split; [exists F|split|by apply drop_dir_ok]; simpl.
  - eapply (pool_perm _ (X ++ owned g)).
    { unfold owned. simpl. rewrite (run_extents_delete _ _ _ Hr). solve_Permutation. }
    eapply pool_frame; [exact P|done|]. intros x Hf. simpl. apply Hx.
    + intros ?. apply Hf. destruct Hcell as [E|(f & _ & Hq)]; [destruct (h_runs_range _ _ _ _ _ _ H Hr); right; heap_lia|].
      eapply in_foreign; [by eapply run_owned|simpl; heap_lia].
    + intros ->. apply Hf. eapply in_foreign; [by eapply dir_owned|]. simpl. unfold MAXSMALL in *. lia.
    + intros ?. apply Hf. right. heap_lia.
  - rewrite drop_header; [done|heap_lia..].
  - intros b y Hb. destruct (K2 b y Hb) as [Hld Hy]. split; [|done]. transitivity (load_le 8 (um s) b); [|done].
    assert ((b, y) ∈ X ++ map_to_list (g_big g) ++ run_extents (g_run g)) as Ho.
    { apply elem_of_map_to_list in Hb. rewrite !elem_of_app. tauto. }
    apply (drop_load _ _ _ Ho); simpl; [lia|lia|].
    assert ((b, y) ∈ F ++ X ++ owned g) as Ho' by (unfold owned; clear -Ho; rewrite !elem_of_app in *; tauto).
    destruct (piece_range _ _ _ P _ Ho') as [? ?]. simpl in *.
    destruct Hcell as [E|(f & _ & Hq)]; [destruct (h_runs_range _ _ _ _ _ _ H Hr); heap_lia|].
    destruct (run_apart _ _ _ _ P _ _ (b, y) Hq) as [?|?]; simpl in *; [|heap_lia..].
    apply elem_of_map_to_list in Hb. rewrite !elem_of_app. tauto.
  - intros q c' f [Hne Hq]%lookup_delete_Some. by apply drop_run_ok.
  - intros c' Hc'. destruct (decide (c' = c)) as [->|Hne]; [by exists L'|]. destruct (K4 c' Hc') as (L & T & N & HL').
    exists L. split_and!; [|done|].
    + rewrite drop_header; [|unfold NCLASS in Hc'; heap_lia|].
      * eapply threaded_ext; [|exact T]. intros q (f & Hq & _)%HL'.
        eapply (drop_load _ (q, PGSIZE)); [rewrite !elem_of_app; right; right; by eapply elem_run_extents|simpl; heap_lia..|].
        destruct (drop_run_apart q _ Hq); [|simpl; heap_lia..].
        intros ->. destruct Hcell as [E|(f' & _ & Hq')]; [|congruence].
        destruct (h_runs_range _ _ _ _ _ _ H Hr), (run_range _ _ _ _ P _ _ Hq) as (? & ? & ?). heap_lia.
      * destruct Hcell as [E|(f & _ & Hq)]; [rewrite E; heap_lia|].
        destruct (run_range _ _ _ _ P _ _ Hq) as (? & ? & ?). unfold NCLASS in Hc'. heap_lia.
    + intros q. rewrite HL'. split; intros (f & Hq & ?); exists f; (split; [|done]).
      * rewrite lookup_delete_ne; [done|]. intros ->. congruence.
      * by apply lookup_delete_Some in Hq as [_ Hq].
  - rewrite Hp. rewrite map_size_delete_Some by eauto. assert (size (g_run g) ≠ 0)%nat; [|lia].
    intros E%map_size_empty_inv. by rewrite E in Hr.
Qed.
End drop.

(** ** The program's bytes *)

Definition payload (g : ghost) (x : Z) : Prop :=
  (∃ a z, g_big g !! a = Some z ∧ a + 16 ≤ x < a + z) ∨
  (∃ r c fr p, g_run g !! r = Some (c, fr) ∧ p ∈ run_slots r c ∧ (p ∉ fr) ∧ p ≤ x < p + class_size c).
Definition same_payload (g : ghost) (s s' : uspace) : Prop := ∀ x, payload g x → rd8 (um s') x = rd8 (um s) x.
Lemma same_payload_trans g s1 s2 s3 : same_payload g s1 s2 → same_payload g s2 s3 → same_payload g s1 s3.
Proof. intros H1 H2 x Hx. by rewrite H2, H1. Qed.

Section payload.
Context (X : list extent) (g : ghost) (s : uspace) (H : heap_with X g s).

Lemma payload_owned x : payload g x → ∃ e, e ∈ map_to_list (g_big g) ++ run_extents (g_run g) ∧ e.1 ≤ x < e.1 + e.2.
Proof.
  intros [(a & z & Hb & Hx)|(r & c & fr & p & Hr & Hp & _ & Hx)].
  - exists (a, z). apply elem_of_map_to_list in Hb. split; [elem|simpl; lia].
  - exists (r, PGSIZE). split; [apply elem_of_app; right; by eapply elem_run_extents|].
    pose proof (slot_range r c p (run_class _ _ _ _ _ _ H Hr) Hp). simpl. heap_lia.
Qed.
Lemma payload_foreign x : payload g x → foreign (X ++ owned g) x.
Proof.
  intros (e & He & Hx)%payload_owned. eapply in_foreign; [|exact Hx]. unfold owned. clear -He.
  rewrite !elem_of_app in *. tauto.
Qed.
Lemma payload_first x : payload g x → heap_first ≤ x.
Proof.
  intros (e & He & Hx)%payload_owned. destruct (hp_pool _ _ _ H) as [F P].
  destruct (piece_range _ _ _ P e); [unfold owned; clear -He; rewrite !elem_of_app in *; tauto|lia].
Qed.
(** Inside the page of a run, the program holds slots that are not free. *)
Lemma payload_run r c fr x :
  g_run g !! r = Some (c, fr) → payload g x → r ≤ x < r + PGSIZE →
  ∃ p, p ∈ run_slots r c ∧ (p ∉ fr) ∧ p ≤ x < p + class_size c.
Proof.
  intros Hr Hpx Hx. destruct (hp_pool _ _ _ H) as [F P].
  destruct Hpx as [(a & z & Hb & Hxa)|(q & c' & f & p & Hq & Hp & Hpf & Hxp)].
  - destruct (run_apart _ _ _ _ P _ _ (a, z) Hr); simpl in *; [|lia..].
    apply elem_of_map_to_list in Hb. rewrite !elem_of_app. tauto.
  - destruct (decide (q = r)) as [->|Hne]; [simplify_eq; eauto|].
    pose proof (slot_range q c' p (run_class _ _ _ _ _ _ H Hq) Hp).
    destruct (run_apart _ _ _ _ P _ _ _ Hr (other_run X g r q _ Hq Hne)); simpl in *; heap_lia.
Qed.
Lemma payload_header r y x : g_run g !! r = Some y → payload g x → ¬ (r ≤ x < r + MRUNHDR).
Proof.
  destruct y as [c fr]. intros Hr Hp Hx. destruct (payload_run r c fr x Hr Hp) as (p & Hin & _ & ?); [heap_lia|].
  pose proof (slot_range r c p (run_class _ _ _ _ _ _ H Hr) Hin). lia.
Qed.
Lemma payload_slot r c fr p x :
  g_run g !! r = Some (c, fr) → p ∈ fr → payload g x → ¬ (p ≤ x < p + 16).
Proof.
  intros Hr Hp Hpx Hx. pose proof (run_class _ _ _ _ _ _ H Hr) as Hc.
  pose proof (rk_in _ _ _ _ (rs_run _ _ (hp_rest _ _ _ H) _ _ _ Hr) p Hp) as Hin.
  pose proof (slot_range r c p Hc Hin). destruct (class_size_ok c Hc) as (? & _).
  destruct (payload_run r c fr x Hr Hpx) as (q & Hq & Hqf & ?); [heap_lia|].
  destruct (slot_apart r c p q Hc Hin Hq); [by intros ->|lia..].
Qed.
Lemma payload_dir a z n x : g_dir g = Some (a, z, n) → payload g x → ¬ (a ≤ x < a + z).
Proof.
  intros Hd (e & He & Hx)%payload_owned Hx'. destruct (hp_pool _ _ _ H) as [F P].
  destruct (dir_apart _ _ _ _ _ _ _ e P Hd); [|simpl in *; lia..].
  clear -He. rewrite !elem_of_app in *. tauto.
Qed.
End payload.

(** ** An empty run goes back to the pool *)

Lemma pool_to_heap X g s s' :
  heap_with X g s → (∃ F, pool F (X ++ owned g) s') → kept (X ++ owned g) s s' →
  heap_with X g s' ∧ same_payload g s s'.
Proof.
  intros H P K. split; [split; [done|..]|].
  - eapply rest_frame; [exact K|exact (hp_rest _ _ _ H)].
  - eapply dir_frame; [exact K|exact (hp_dir _ _ _ H)].
  - intros x Hx. apply K. by eapply payload_foreign.
Qed.
(** A piece that was set aside goes back to the pool. *)
Lemma insert_back X g s e :
  heap_with (e :: X) g s → wp (m__insert e.1 e.2) (λ _ s', heap_with X g s' ∧ same_payload g s s') s.
Proof.
  intros H. destruct (hp_pool _ _ _ H) as [F P].
  eapply wp_mono; [apply (m__insert_spec F (X ++ owned g)); by destruct e|]. intros [] s1 (P1 & K1 & _).
  split; [split; [by eexists|..]|].
  - eapply rest_frame; [exact K1|exact (hp_rest _ _ _ H)].
  - eapply dir_frame; [exact K1|exact (hp_dir _ _ _ H)].
  - intros x Hx. apply K1. destruct (payload_owned _ _ _ H x Hx) as (f & Hf & ?).
    eapply in_foreign; [|done]. unfold owned. clear -Hf. rewrite !elem_of_app in *. tauto.
Qed.
Lemma give_back X g s e :
  heap_with (e :: X) g s →
  wp (let* _ := m__insert e.1 e.2 in m__trim sys_sbrk) (λ _ s', heap_with X g s' ∧ same_payload g s s') s.
Proof.
  intros H. apply wp_bind. eapply wp_mono; [by apply (insert_back X g)|]. intros [] s1 [H1 S1].
  destruct (hp_pool _ _ _ H1) as [F P]. eapply wp_mono; [by eapply m__trim_spec|]. intros [] s2 [P2 K2].
  destruct (pool_to_heap X g s1 s2 H1 P2 K2) as [H2 S2]. split; [done|]. by eapply same_payload_trans.
Qed.

(** There are no more runs than the window has room for. *)
Lemma runs_length X g s L :
  heap_with X g s → NoDup L → (∀ p, p ∈ L → is_Some (g_run g !! p)) → (length L < heap_fuel s)%nat.
Proof.
  intros H N HL. destruct (hp_pool _ _ _ H) as [F P]. destruct (pl_brk _ _ _ P) as [_ Hbrk].
  assert (∀ p, p ∈ L → UHEAP_BASE + page_idx p * PGSIZE = p ∧ 0 ≤ page_idx p < (ubrk s - UHEAP_BASE) / 16) as Hp.
  { intros p [[c fr] Hf]%HL. destruct (run_range _ _ _ _ P _ _ Hf) as (? & ? & ?).
    destruct (page_idx_ok p) as [E ?]; [exact (rk_page _ _ _ _ (rs_run _ _ (hp_rest _ _ _ H) _ _ _ Hf))|heap_lia|].
    split; [done|]. heap_unfold. ldiv. }
  assert (NoDup (Z.to_nat ∘ page_idx <$> L)) as N'.
  { apply NoDup_fmap_2_strong; [|done]. intros p q Hin Hin' E. simpl in E.
    destruct (Hp p Hin) as [F1 ?], (Hp q Hin') as [F2 ?]. rewrite <- F1, <- F2. assert (page_idx p = page_idx q) as -> by lia. done. }
  unfold heap_fuel. apply Nat.lt_succ_r. rewrite <- (length_seq (Z.to_nat ((ubrk s - UHEAP_BASE) / 16)) 0).
  rewrite <- (length_fmap (Z.to_nat ∘ page_idx) L). apply submseteq_length, NoDup_submseteq; [done|].
  intros i (p & -> & Hin)%list_elem_of_fmap. apply elem_of_seq. destruct (Hp p Hin). simpl. lia.
Qed.
Lemma class_list_length X g s c L :
  heap_with X g s → class_list (um s) (g_run g) c L → (length L < heap_fuel s)%nat.
Proof.
  intros H (_ & N & HL). eapply runs_length; [exact H|done|]. intros p (f & Hf & _)%HL. eauto.
Qed.
Lemma run_count X g s : heap_with X g s → Z.of_nat (size (g_run g)) < 2 ^ 28.
Proof.
  intros H. destruct (hp_pool _ _ _ H) as [F P]. destruct (pl_brk _ _ _ P) as [_ ?].
  assert (length (map_to_list (g_run g)).*1 < heap_fuel s)%nat as Hl.
  { eapply runs_length; [exact H|apply NoDup_fst_map_to_list|]. intros p ([q y] & -> & Hy)%list_elem_of_fmap.
    apply elem_of_map_to_list in Hy. eauto. }
  rewrite length_fmap, length_map_to_list in Hl. unfold heap_fuel in Hl.
  assert (0 ≤ (ubrk s - UHEAP_BASE) / 16 < 2 ^ 27) by (heap_unfold; ldiv). lia.
Qed.
Lemma run_count_pos (R : gmap Z (Z * list Z)) r y : R !! r = Some y → 1 ≤ Z.of_nat (size R).
Proof. intros Hr. assert (size R ≠ 0)%nat; [|lia]. intros E%map_size_empty_inv. by rewrite E in Hr. Qed.
Lemma release_run_spec X g s r c fr :
  heap_with X g s → g_run g !! r = Some (c, fr) → fr ≠ [] →
  wp (release_run sys_sbrk r (page_idx r))
     (λ _ s', heap_with X (del_run g r) s' ∧ same_payload (del_run g r) s s') s.
Proof.
  intros H Hr Hfr. destruct (hp_pool _ _ _ H) as [F P]. destruct (run_range _ _ _ _ P _ _ Hr) as (R1 & R2 & R3).
  pose proof (rs_run _ _ (hp_rest _ _ _ H) _ _ _ Hr) as K. pose proof (rk_class _ _ _ _ K) as Hc.
  destruct (rs_lists _ _ (hp_rest _ _ _ H) c Hc) as [L HL]. pose proof (class_list_length _ _ _ _ _ H HL) as Hlen.
  assert (r ∈ L) as (L1 & L2 & ->)%list_elem_of_split by (apply HL; eauto).
  pose proof HL as (T & N & HLe). rewrite length_app in Hlen.
  assert ((r ∉ L1) ∧ r ∉ L2) as [Hr1 Hr2].
  { apply list.NoDup_app in N as (_ & N1 & [N2 _]%list.NoDup_cons). split; [|done]. intros Hin. apply (N1 r Hin). elem. }
  destruct (g_dir g) as [[[a z] n]|] eqn:Hd; cycle 1.
  { pose proof (hp_dir _ _ _ H) as D. rewrite Hd in D. destruct D as (_ & _ & D). by rewrite D in Hr. }
  pose proof (hp_dir _ _ _ H) as D. unfold dir_ok in D. rewrite Hd in D. destruct D as (D1 & D2 & _).
  destruct (drop_idx _ _ _ _ _ _ _ _ _ H Hr Hd) as (I1 & I2 & I3 & _). destruct (drop_dir_range _ _ _ _ _ _ H Hd) as [A1 A2].
  destruct (h_runs_range _ _ _ _ _ _ H Hr) as [Hh1 Hh2]. unfold MAXSMALL in I2.
  assert (∀ q, q ∈ L1 ++ r :: L2 → heap_first ≤ q ∧ q + PGSIZE ≤ ubrk s) as Hq.
  { intros q (f & Hf & _)%HLe. by destruct (run_range _ _ _ _ P _ _ Hf) as (? & ? & ?). }
  assert (∀ q y, g_run g !! q = Some y → q + PGSIZE ≤ a ∨ a + z ≤ q) as Hdir.
  { intros q y Hy. destruct (dir_apart _ _ _ _ _ _ _ (q, PGSIZE) P Hd) as [?|?]; [|by right|by left].
    rewrite !elem_of_app. right. right. by eapply elem_run_extents. }
  set (cell := zlast (h_runs c) L1).
  assert (cell = h_runs c ∨ ∃ f, cell ≠ r ∧ g_run g !! cell = Some (c, f)) as Hcell.
  { destruct (zlast_in (h_runs c) L1) as [[E _]|Hin]; [by left|]. right.
    destruct (proj1 (HLe cell) ltac:(elem)) as (f & Hf & _). exists f. split; [|done]. intros E. by rewrite <- E in Hr1. }
  pose proof (drop_cell _ _ _ _ _ _ _ H Hr Hcell) as Hcr.
  unfold release_run. wp_steps. rewrite (rk_cls _ _ _ _ K). eapply wp_mono.
  { eapply (unlink_run_spec _ _ _ L1 L2); [exact T|done|lia| |].
    - intros q [->|Hin]%elem_of_cons; [heap_lia|]. destruct (Hq q Hin). heap_lia.
    - intros q Hin. destruct (Hq q); [clear -Hin; rewrite !elem_of_app, ?list_elem_of_singleton, ?elem_of_cons in *; tauto|heap_lia]. }
  intros [] s1 ->. fold cell. assert (cell + 8 ≤ ubrk s) as Hcb.
  { destruct Hcell as [->|(f & _ & Hf)]; [heap_lia|]. destruct (run_range _ _ _ _ P _ _ Hf) as (? & ? & ?). heap_lia. }
  apply wp_bind, wp_ld; [heap_lia..|]. simpl um. rewrite load_store_le_ne by heap_lia. rewrite D1.
  wp_steps. unfold set_um. simpl um.
  rewrite (load_store_le_ne 8 1), (load_store_le_ne 8 8), (rs_pages _ _ (hp_rest _ _ _ H)) by heap_lia.
  pose proof (run_count _ _ _ H) as Hsz. pose proof (run_count_pos _ _ _ Hr) as Hpos. rewrite u64_small by lia.
  set (m' := store_le 8 _ h_run_pages _).
  assert (heap_with ((r, PGSIZE) :: X) (del_run g r) (set_um s m')) as H'.
  { eapply (heap_drop_run X g s r c fr cell a z n m' H Hr Hd Hcell).
    - intros x ? ? ?. unfold m'. by rewrite !rd8_store_le by (simpl Z.of_nat; lia).
    - unfold m'. rewrite rd8_store_le by heap_lia. rewrite <- load_1. by rewrite load_store_small.
    - unfold m'. apply load_store_64. lia.
    - eapply (class_list_remove (um s)); [exact HL| |fold cell..].
      + apply list.NoDup_cons. split; [|done]. intros Hin. destruct (Hq _ Hin). heap_lia.
      + intros q [->|Hin]%elem_of_cons Hne.
        * unfold m'. destruct Hcell as [E|(f & _ & Hf)]; [by rewrite E in Hne|].
          destruct (run_range _ _ _ _ P _ _ Hf) as (? & ? & ?). do 3 ld_ne. done.
        * destruct (proj1 (HLe q)) as (f & Hf & _); [clear -Hin; rewrite !elem_of_app, ?elem_of_cons in *; tauto|].
          destruct (run_range _ _ _ _ P _ _ Hf) as (? & ? & ?). destruct (Hdir q _ Hf).
          1,2: destruct (drop_run_apart X g s r c fr cell H Hr Hcell q _ Hf Hne); unfold m'; do 3 ld_ne; done.
      + unfold m'. destruct Hcell as [E|(f & _ & Hf)]; [|destruct (run_range _ _ _ _ P _ _ Hf) as (? & ? & ?); destruct (Hdir _ _ Hf)].
        all: do 2 ld_ne; apply load_store_small, (load_le_range 8). }
  apply (wp_unbind (m__insert r PGSIZE) (λ _, m__trim sys_sbrk)).
  eapply wp_mono; [apply (give_back X (del_run g r) (set_um s m') (r, PGSIZE) H')|].
  intros [] s' [H2 S2]. split; [done|]. intros x Hx. rewrite S2 by done.
  pose proof (payload_first _ _ _ H' x Hx). pose proof (payload_dir _ _ _ H' a z n x Hd Hx).
  assert (¬ (cell ≤ x < cell + 8)).
  { destruct Hcell as [E|(f & Hne & Hf)]; [rewrite E; heap_lia|]. intros ?.
    eapply (payload_header _ _ _ H' cell (c, f) x); [simpl; by rewrite lookup_delete_ne by done|done|heap_lia]. }
  simpl. unfold m'. rewrite !rd8_store_le by heap_lia. done.
Qed.
End ops.
