(* ===== verification/HeapMalloc.v ===== *)
(** * The page map and freeing (malloc.h)

    The page map: reading, growing and replacing it; giving a block or a
    slot back. *)
From stdpp Require Import base list numbers option gmap fin_maps.
From S2P Require Import Prelude Mem Riscv Heap HeapPool HeapAlloc HeapRuns HeapOps.
Local Open Scope Z_scope.
Local Arguments load_le : simpl never.
Local Arguments store_le : simpl never.

Definition add_big (g : ghost) (b z : Z) : ghost := mkGhost (<[b := z]> (g_big g)) (g_run g) (g_dir g).
Definition del_big (g : ghost) (b : Z) : ghost := mkGhost (delete b (g_big g)) (g_run g) (g_dir g).
Definition set_dir (g : ghost) (d : option (Z * Z * Z)) : ghost := mkGhost (g_big g) (g_run g) d.

(** ** Moving pieces between owners *)

Lemma big_extents_insert (B : gmap Z Z) b z : B !! b = None → map_to_list (<[b := z]> B) ≡ₚ (b, z) :: map_to_list B.
Proof. apply map_to_list_insert. Qed.
Lemma big_extents_delete (B : gmap Z Z) b z : B !! b = Some z → map_to_list B ≡ₚ (b, z) :: map_to_list (delete b B).
Proof. intros. symmetry. by apply map_to_list_delete. Qed.

Lemma heap_take_big X g s b z :
  heap_with X g s → g_big g !! b = Some z → heap_with ((b, z) :: X) (del_big g b) s.
Proof.
  intros H Hb. destruct (hp_pool _ _ _ H) as [F P]. destruct (hp_rest _ _ _ H) as [K1 K2 K3 K4 K5].
  split; [exists F|split; try done|exact (hp_dir _ _ _ H)].
  - eapply pool_perm; [|exact P]. unfold owned. simpl. rewrite (big_extents_delete _ _ _ Hb). solve_Permutation.
  - intros a y Hy. simpl in Hy. apply lookup_delete_Some in Hy as [_ Hy]. auto.
Qed.
Lemma heap_give_big X g s b z :
  heap_with ((b, z) :: X) g s → load_le 8 (um s) b = z → 32 ≤ z →
  g_big g !! b = None ∧ heap_with X (add_big g b z) s.
Proof.
  intros H Hl Hz. destruct (hp_pool _ _ _ H) as [F P]. destruct (hp_rest _ _ _ H) as [K1 K2 K3 K4 K5].
  assert (g_big g !! b = None) as Hn.
  { apply eq_None_not_Some. intros [y Hy]. pose proof (K2 _ _ Hy) as [? ?].
    pose proof (cover_le_1 _ _ _ b P) as Hc. unfold owned in Hc. simpl in Hc. rewrite cover_app, cover_app in Hc.
    rewrite (proj2 (inside_spec b (b, z))) in Hc by (simpl; lia).
    apply elem_of_map_to_list in Hy. pose proof (cover_elem _ _ b Hy). simpl in *.
    pose proof (cover_nonneg X b). pose proof (cover_nonneg (dir_extent (g_dir g) ++ run_extents (g_run g)) b). lia. }
  split; [done|]. split; [exists F|split; try done|exact (hp_dir _ _ _ H)].
  - eapply pool_perm; [|exact P]. unfold owned. simpl. rewrite (big_extents_insert _ _ z Hn). solve_Permutation.
  - intros a y Hy. simpl in Hy. apply lookup_insert_Some in Hy as [[-> ->]|[_ Hy]]; auto.
Qed.

(** Writing inside a piece that is set aside. *)
Lemma heap_write X e g s m' :
  heap_with (e :: X) g s → (∀ x, ¬ (e.1 ≤ x < e.1 + e.2) → rd8 m' x = rd8 (um s) x) →
  heap_with (e :: X) g (set_um s m') ∧ same_payload g s (set_um s m').
Proof.
  intros H Hx. destruct (hp_pool _ _ _ H) as [F P].
  assert (agree (X ++ owned g) (um s) m') as Ha.
  { intros x Hf. apply Hx. intros He. eapply (own_foreign F (X ++ owned g) e s x); done. }
  split; [split|].
  - exists F. eapply pool_frame; [exact P|done|]. intros x Hf. apply Hx. intros He. apply Hf.
    eapply in_foreign; [|exact He]. elem.
  - eapply rest_frame; [exact Ha|exact (hp_rest _ _ _ H)].
  - eapply dir_frame; [exact Ha|exact (hp_dir _ _ _ H)].
  - intros x Hp. apply Ha. destruct (payload_owned _ _ _ H x Hp) as (f & Hf & ?).
    eapply in_foreign; [|done]. unfold owned. clear -Hf. rewrite !elem_of_app in *. tauto.
Qed.

(** ** What a pointer points into *)

Definition code (R : gmap Z (Z * list Z)) (i : Z) : Z :=
  match R !! (UHEAP_BASE + i * PGSIZE) with Some (c, _) => c + 1 | None => 0 end.
Lemma m__heap_spec X g s Q : heap_with X g s → Q () s → wp m__heap Q s.
Proof.
  intros H HQ. destruct (hp_pool _ _ _ H) as [F P]. destruct (pl_brk _ _ _ P) as [_ ?].
  unfold m__heap. wp_steps. by rewrite (rs_magic _ _ (hp_rest _ _ _ H)), Z.eqb_refl.
Qed.
Lemma dir_entry_spec X g s i Q :
  heap_with X g s → 0 ≤ i < 2 ^ 28 → Q (code (g_run g) i) s → wp (dir_entry i) Q s.
Proof.
  intros H Hi HQ. destruct (hp_pool _ _ _ H) as [F P]. destruct (pl_brk _ _ _ P) as [_ ?].
  assert (page_idx (UHEAP_BASE + i * PGSIZE) = i) as Hpi.
  { destruct (page_idx_ok (UHEAP_BASE + i * PGSIZE)) as [E _]; [heap_unfold; ldiv|heap_lia|]. heap_lia. }
  unfold dir_entry. wp_steps. pose proof (hp_dir _ _ _ H) as D. unfold dir_ok in D. unfold code in HQ.
  destruct (g_dir g) as [[[a z] n]|] eqn:Hd.
  - destruct D as (D1 & D2 & D3 & D4 & D5 & D6 & D7). rewrite D2. unfold MAXSMALL in *.
    destruct (piece_range _ _ _ P (a, z)) as [? ?]; [apply elem_of_app; right; by eapply dir_owned|]. simpl in *.
    destruct (Z.ltb_spec i n).
    + wp_steps. rewrite D1. wp_steps. rewrite load_1. destruct (g_run g !! _) as [[c fr]|] eqn:E.
      * destruct (D6 _ _ _ E) as [_ Ev]. rewrite Hpi in Ev. by rewrite Ev.
      * by rewrite (D7 i ltac:(lia) E).
    + wp_steps. destruct (g_run g !! _) as [[c fr]|] eqn:E; [|done].
      destruct (D6 _ _ _ E) as [Hlt _]. rewrite Hpi in Hlt. lia.
  - destruct D as (D1 & D2 & D3). rewrite D2, (proj2 (Z.ltb_ge i 0)) by lia. wp_steps. by rewrite D3 in HQ.
Qed.
Lemma page_of_ok F A s e p :
  pool F A s → e ∈ A → e.1 ≤ p < e.1 + e.2 →
  page_of p ≤ p < page_of p + PGSIZE ∧ page_of p mod PGSIZE = 0 ∧
  UHEAP_BASE + page_idx (page_of p) * PGSIZE = page_of p ∧ 0 ≤ page_idx (page_of p) < 2 ^ 28.
Proof.
  intros P He Hp. destruct (piece_range _ _ _ P e) as [? ?]; [elem|]. destruct (pl_brk _ _ _ P) as [_ ?].
  unfold page_of. destruct (PGROUNDDOWN_bounds p) as [? Hm]. split; [done|]. split; [done|].
  destruct (page_idx_ok (PGROUNDDOWN p)) as [E ?]; [done|..].
  - clear -H H0 H1 H2 Hm Hp. heap_unfold. split; [|lia]. ldiv.
  - split; [done|]. heap_lia.
Qed.
(** A piece that is not a run does not lie in the page of one. *)
Lemma not_in_run X g s e p :
  heap_with X g s → e ∈ X ++ map_to_list (g_big g) ++ dir_extent (g_dir g) → e.1 ≤ p < e.1 + e.2 →
  code (g_run g) (page_idx (page_of p)) = 0.
Proof.
  intros H He Hp. destruct (hp_pool _ _ _ H) as [F P].
  destruct (page_of_ok F (X ++ owned g) s e p P) as (Hr & _ & E & _); [|done|].
  { unfold owned. clear -He. rewrite !elem_of_app in *. tauto. }
  unfold code. rewrite E. destruct (g_run g !! page_of p) as [[c fr]|] eqn:Er; [|done]. exfalso.
  destruct (run_apart _ _ _ _ P _ _ e Er); [clear -He; rewrite !elem_of_app in *; tauto|simpl in *; lia..].
Qed.
Lemma in_run X g s r c fr p :
  heap_with X g s → g_run g !! r = Some (c, fr) → p ∈ run_slots r c →
  page_of p = r ∧ 0 ≤ page_idx r < 2 ^ 28 ∧ code (g_run g) (page_idx r) = c + 1.
Proof.
  intros H Hr Hp. destruct (hp_pool _ _ _ H) as [F P]. pose proof (run_class _ _ _ _ _ _ H Hr) as Hc.
  pose proof (slot_range r c p Hc Hp). destruct (class_size_ok c Hc) as (? & _).
  destruct (page_of_ok F (X ++ owned g) s (r, PGSIZE) p P) as (I1 & I2 & E & I3); [by eapply run_owned|simpl; heap_lia|].
  pose proof (rk_page _ _ _ _ (rs_run _ _ (hp_rest _ _ _ H) _ _ _ Hr)) as Hm.
  assert (page_of p = r) as Ep.
  { clear -H0 H1 I1 I2 Hm. heap_unfold. revert I1 I2. generalize (page_of p). intros q ? ?. ldiv. }
  rewrite Ep in *. split_and!; [done|lia|lia|]. unfold code. by rewrite E, Hr.
Qed.

Section ops.
Context (sys_sbrk : Z → prog uspace Z) `{!SbrkLaws sys_sbrk}.

(** ** free *)

(** A pointer behind a block header. *)
Lemma m__free_block X g s b z Q :
  heap_with X g s → (b, z) ∈ X ++ map_to_list (g_big g) ++ dir_extent (g_dir g) → 32 ≤ z →
  load_le 8 (um s) b = z → wp (m__insert b z) (λ _, wp (m__trim sys_sbrk) Q) s → wp (m__free sys_sbrk (b + 16)) Q s.
Proof.
  intros H He Hz Hl HQ. destruct (hp_pool _ _ _ H) as [F P].
  assert ((b, z) ∈ X ++ owned g) as Ho by (unfold owned; clear -He; rewrite !elem_of_app in *; tauto).
  destruct (piece_range _ _ _ P (b, z)) as [? ?]; [apply elem_of_app; by right|].
  destruct (page_of_ok F (X ++ owned g) s (b, z) (b + 16) P Ho) as (_ & _ & _ & Hi); [simpl in *; lia|]. simpl in *.
  unfold m__free. rewrite (proj2 (Z.eqb_neq (b + 16) 0)) by heap_lia.
  apply wp_bind. eapply m__heap_spec; [exact H|]. apply wp_bind. eapply dir_entry_spec; [exact H|done|].
  rewrite (not_in_run _ _ _ (b, z) (b + 16) H He) by (simpl; lia). cbn [Z.eqb]. rewrite MHDR_16.
  replace (b + 16 - 16) with b by lia. wp_steps. unfold b_size. by rewrite Hl.
Qed.
Lemma m__free_big X g s b z :
  heap_with X g s → g_big g !! b = Some z →
  wp (m__free sys_sbrk (b + 16)) (λ _ s', heap_with X (del_big g b) s' ∧ same_payload (del_big g b) s s') s.
Proof.
  intros H Hb. destruct (rs_big _ _ (hp_rest _ _ _ H) _ _ Hb) as [Hl Hz].
  eapply m__free_block; [exact H| |done|done|].
  - apply elem_of_map_to_list in Hb. rewrite !elem_of_app. tauto.
  - apply (wp_unbind (m__insert b z) (λ _, m__trim sys_sbrk)).
    apply (give_back sys_sbrk X (del_big g b) s (b, z)). by apply heap_take_big.
Qed.
Lemma del_set_run g r x : del_run (set_run g r x) r = del_run g r.
Proof. unfold del_run, set_run. simpl. by rewrite delete_insert_eq. Qed.
Definition freed_slot (g : ghost) (r c p : Z) (fr : list Z) : ghost :=
  if nslots c =? Z.of_nat (S (length fr)) then del_run g r else set_run g r (c, p :: fr).
Lemma m__free_slot X g s r c fr p :
  heap_with X g s → g_run g !! r = Some (c, fr) → p ∈ run_slots r c → p ∉ fr →
  wp (m__free sys_sbrk p) (λ _ s', heap_with X (freed_slot g r c p fr) s' ∧ same_payload (freed_slot g r c p fr) s s') s.
Proof.
  intros H Hr Hp Hpf. destruct (in_run _ _ _ _ _ _ _ H Hr Hp) as (E1 & E2 & E3).
  destruct (hp_pool _ _ _ H) as [F P]. destruct (run_range _ _ _ _ P _ _ Hr) as (? & ? & ?).
  pose proof (run_class _ _ _ _ _ _ H Hr) as Hc. pose proof (slot_range r c p Hc Hp).
  unfold m__free. rewrite (proj2 (Z.eqb_neq p 0)) by heap_lia. rewrite E1.
  apply wp_bind. eapply m__heap_spec; [exact H|]. apply wp_bind. eapply dir_entry_spec; [exact H|done|].
  rewrite E3, (proj2 (Z.eqb_neq (c + 1) 0)) by lia. apply wp_bind.
  eapply wp_mono; [by apply (free_slot_in_spec X g s r c p fr)|]. intros e s1 (-> & Hh1 & O1).
  assert (same_payload (set_run g r (c, p :: fr)) s s1) as S1.
  { intros x Hx. apply O1; [by eapply payload_first| |].
    - eapply payload_header; [exact Hh1|simpl; by rewrite lookup_insert_eq|done].
    - pose proof (payload_slot _ _ _ Hh1 r c (p :: fr) p x) as Hs. simpl in Hs.
      rewrite lookup_insert_eq in Hs. specialize (Hs eq_refl ltac:(elem) Hx). lia. }
  unfold freed_slot. destruct (_ =? _); [|by apply wp_ret].
  eapply wp_mono; [eapply (release_run_spec _ X _ s1 r c (p :: fr)); [exact Hh1|simpl; by rewrite lookup_insert_eq|done]|].
  intros [] s2 [Hh2 S2]. rewrite del_set_run in *. split; [done|]. intros x Hx. rewrite S2 by done. apply S1.
  destruct Hx as [Hx|(q & c' & f & p' & Hq & Hx)]; [by left|right]. exists q, c', f, p'. split; [|done].
  simpl in *. apply lookup_delete_Some in Hq as [Hne Hq]. by rewrite lookup_insert_ne.
Qed.

(** ** The page map grows *)

Lemma dir_want_spec n w idx (s : uspace) :
  0 < w → 0 ≤ idx < 2 ^ 30 → idx < w * 2 ^ Z.of_nat n →
  wp (dir_want n w idx) (λ w' s', s' = s ∧ idx < w' ∧ w ≤ w' ≤ Z.max w (2 * idx)) s.
Proof.
  revert w. induction n as [|n IH]; intros w Hw Hi Hlt; simpl dir_want.
  - change (2 ^ Z.of_nat 0) with 1 in Hlt. rewrite (proj2 (Z.leb_gt w idx)) by lia. wp_steps. split; [done|lia].
  - rewrite Nat2Z.inj_succ, Z.pow_succ_r in Hlt by lia.
    destruct (Z.leb_spec w idx); [|wp_steps; split; [done|lia]].
    rewrite u64_small by lia. eapply wp_mono; [apply IH; [lia|done|lia]|]. intros w' s' (-> & ? & ?). split; [done|lia].
Qed.
Lemma dir_copy_spec n i d z X g s :
  heap_with ((d, z) :: X) g s → 0 ≤ i → i + Z.of_nat n + 16 ≤ z → i + Z.of_nat n < 2 ^ 28 →
  wp (dir_copy n i (d + 16)) (λ _ s', heap_with ((d, z) :: X) g s' ∧ same_payload g s s' ∧
    (∀ j, i ≤ j < i + Z.of_nat n → rd8 (um s') (d + 16 + j) = code (g_run g) j) ∧
    (∀ x, ¬ (d + 16 + i ≤ x < d + 16 + i + Z.of_nat n) → rd8 (um s') x = rd8 (um s) x) ∧ ubrk s' = ubrk s) s.
Proof.
  revert i s. induction n as [|n IH]; intros i s H Hi Hz Hb; simpl dir_copy.
  { apply wp_ret. split_and!; [done|by intros x|lia|done|done]. }
  destruct (hp_pool _ _ _ H) as [F P].
  destruct (piece_range _ _ _ P (d, z)) as [? ?]; [elem|]. simpl in *.
  apply wp_bind. eapply dir_entry_spec; [exact H|lia|].
  assert (0 ≤ code (g_run g) i < 256) as Hc.
  { unfold code. destruct (g_run g !! _) as [[c fr]|] eqn:E; [|lia].
    pose proof (rk_class _ _ _ _ (rs_run _ _ (hp_rest _ _ _ H) _ _ _ E)). unfold NCLASS in *. lia. }
  apply wp_bind. apply wp_st; [heap_lia..|]. set (m1 := store_le 1 _ _ _).
  destruct (heap_write X (d, z) g s m1 H) as [Hh1 S1].
  { intros x Hx. simpl in Hx. unfold m1. by rewrite rd8_store_le by lia. }
  eapply wp_mono; [apply (IH (i + 1) (set_um s m1) Hh1); lia|]. intros [] s' (Hh2 & S2 & V2 & O2 & B2).
  split_and!; [done|by eapply same_payload_trans| | |by rewrite B2].
  - intros j Hj. destruct (decide (j = i)) as [->|]; [|apply V2; lia].
    rewrite O2 by lia. simpl. unfold m1. rewrite <- load_1. by apply load_store_small.
  - intros x Hx. rewrite O2 by lia. simpl. unfold m1. by rewrite rd8_store_le by lia.
Qed.

(** The map's two words in the header are nobody else's. *)
Lemma rest_dir_words F X g d s m' :
  pool F (X ++ owned g) s → rest g (um s) →
  (∀ x, ¬ (h_dir ≤ x < h_dirlen + 8) → rd8 m' x = rd8 (um s) x) → rest (set_dir g d) m'.
Proof.
  intros P [K1 K2 K3 K4 K5] Hx.
  assert (∀ n a, a + Z.of_nat n ≤ h_dir ∨ h_dirlen + 8 ≤ a → load_le n m' a = load_le n (um s) a) as Hl.
  { intros n a Ha. apply load_le_ext. intros x ?. apply Hx. lia. }
  split; simpl.
  - rewrite Hl; [done|heap_lia].
  - intros a z Hb. destruct (K2 a z Hb) as [E ?]. split; [|done].
    destruct (piece_range _ _ _ P (a, z)) as [? ?]; [apply elem_of_app; right; by apply big_owned|]. simpl in *.
    rewrite Hl; [done|heap_lia].
  - intros p c fr Hr. destruct (run_range _ _ _ _ P _ _ Hr) as (? & ? & ?). destruct (K3 _ _ _ Hr) as [R1 R2 R3 R4 R5 R6 R7].
    split; try done; rewrite ?Hl by heap_lia; try done. eapply threaded_ext; [|exact R5]. intros q Hq.
    pose proof (slot_range p c q R2 (R7 q Hq)). apply Hl. heap_lia.
  - intros c Hc. destruct (K4 c Hc) as (L & T & N & HL). exists L. split_and!; [|done|done].
    rewrite Hl by (unfold NCLASS in Hc; heap_lia). eapply threaded_ext; [|exact T]. intros q (f & Hf & _)%HL.
    destruct (run_range _ _ _ _ P _ _ Hf) as (? & ? & ?). apply Hl. heap_lia.
  - rewrite Hl; [done|heap_lia].
Qed.
Lemma install_dir X g s d sz w :
  (∃ F, pool F ((d, sz) :: X ++ owned (set_dir g None)) s) → rest (set_dir g None) (um s) →
  load_le 8 (um s) d = sz → MAXSMALL < w < 2 ^ 28 → w + 16 ≤ sz →
  (∀ j, 0 ≤ j < w → rd8 (um s) (d + 16 + j) = code (g_run g) j) →
  (∀ p y, g_run g !! p = Some y → 0 ≤ page_idx p < w ∧ UHEAP_BASE + page_idx p * PGSIZE = p) →
  let m' := store_le 8 (store_le 8 (um s) h_dir (d + 16)) h_dirlen w in
  heap_with X (set_dir g (Some (d, sz, w))) (set_um s m').
Proof.
  intros [F P] Hrs Hl Hw Hsz Hv Hidx m'. unfold MAXSMALL in *.
  destruct (piece_range _ _ _ P (d, sz)) as [? ?]; [elem|]. destruct (pl_brk _ _ _ P) as [_ ?]. simpl in *.
  assert (∀ x, ¬ (h_dir ≤ x < h_dirlen + 8) → rd8 m' x = rd8 (um s) x) as Hx.
  { intros x ?. unfold m'. by rewrite !rd8_store_le by heap_lia. }
  split; simpl.
  - exists F. eapply (pool_perm _ ((d, sz) :: X ++ owned (set_dir g None))); [unfold owned; simpl; solve_Permutation|].
    eapply pool_frame; [exact P|done|]. intros x Hf. apply Hx. intros ?. apply Hf. right. heap_lia.
  - apply (rest_dir_words F ((d, sz) :: X) (set_dir g None) _ s m'); done.
  - assert (∀ j, 0 ≤ j < w → rd8 m' (d + 16 + j) = code (g_run g) j) as Hv'.
    { intros j Hj. rewrite Hx by heap_lia. auto. }
    split_and!; [| | |unfold MAXSMALL; lia|done| |].
    + unfold m'. rewrite load_store_le_ne by heap_lia. apply load_store_64. heap_lia.
    + unfold m'. apply load_store_64. lia.
    + rewrite <- Hl. apply load_le_ext. intros x ?. apply Hx. heap_lia.
    + intros p c fr Hr. destruct (Hidx _ _ Hr) as [? E]. split; [lia|]. rewrite Hv' by done. unfold code. by rewrite E, Hr.
    + intros i Hi Hn. rewrite Hv' by done. unfold code. by rewrite Hn.
Qed.

(** A piece fresh out of the pool is set aside. *)
Lemma heap_fresh X e g s s' F :
  heap_with X g s → pool F (e :: X ++ owned g) s' → kept (X ++ owned g) s s' →
  heap_with (e :: X) g s' ∧ same_payload g s s'.
Proof.
  intros H P K. split; [split|].
  - by exists F.
  - eapply rest_frame; [exact K|exact (hp_rest _ _ _ H)].
  - eapply dir_frame; [exact K|exact (hp_dir _ _ _ H)].
  - intros x Hx. apply K. by eapply payload_foreign.
Qed.
Lemma dirlen_bound X g s :
  heap_with X g s → 0 ≤ load_le 8 (um s) h_dirlen < 2 ^ 27 ∧
  (∀ p y, g_run g !! p = Some y → 0 ≤ page_idx p < load_le 8 (um s) h_dirlen ∧ UHEAP_BASE + page_idx p * PGSIZE = p) ∧
  (load_le 8 (um s) h_dirlen = 0 ∨ MAXSMALL < load_le 8 (um s) h_dirlen).
Proof.
  intros H. destruct (hp_pool _ _ _ H) as [F P]. destruct (pl_brk _ _ _ P) as [_ ?].
  pose proof (hp_dir _ _ _ H) as D. unfold dir_ok in D. destruct (g_dir g) as [[[a z] n]|] eqn:Hd.
  - destruct D as (D1 & D2 & D3 & D4 & D5 & D6 & D7). rewrite D2. unfold MAXSMALL in *.
    destruct (piece_range _ _ _ P (a, z)) as [? ?]; [apply elem_of_app; right; by eapply dir_owned|]. simpl in *.
    split_and!; [heap_lia|heap_lia| |lia]. intros p [c fr] Hr. destruct (D6 _ _ _ Hr) as [? _].
    destruct (run_range _ _ _ _ P _ _ Hr) as (? & ? & ?).
    destruct (page_idx_ok p) as [E ?]; [exact (rk_page _ _ _ _ (rs_run _ _ (hp_rest _ _ _ H) _ _ _ Hr))|heap_lia|].
    split; [lia|done].
  - destruct D as (D1 & D2 & D3). rewrite D2, D3. split_and!; [lia|lia| |lia]. intros p y Hp. done.
Qed.
(** The old map, if there was one, goes back to the pool. *)
Lemma free_old_dir X g s :
  heap_with X g s →
  wp (let* dir := ld 8 h_dir in if dir =? 0 then pret () else m__free sys_sbrk dir)
     (λ _ s', (∃ F, pool F (X ++ owned (set_dir g None)) s') ∧ kept (X ++ owned (set_dir g None)) s s') s.
Proof.
  intros H. destruct (hp_pool _ _ _ H) as [F P]. destruct (pl_brk _ _ _ P) as [_ ?]. wp_steps.
  pose proof (hp_dir _ _ _ H) as D. unfold dir_ok in D. destruct (g_dir g) as [[[a z] n]|] eqn:Hd.
  - destruct D as (D1 & _ & D3 & D4 & D5 & _). rewrite D1. unfold MAXSMALL in *.
    destruct (piece_range _ _ _ P (a, z)) as [? ?]; [apply elem_of_app; right; by eapply dir_owned|]. simpl in *.
    rewrite (proj2 (Z.eqb_neq (a + 16) 0)) by heap_lia.
    eapply (m__free_block X g s a z); [exact H|rewrite Hd; simpl; elem|lia|done|].
    assert (pool F ((a, z) :: X ++ owned (set_dir g None)) s) as P'.
    { eapply pool_perm; [|exact P]. unfold owned. rewrite Hd. simpl. solve_Permutation. }
    eapply wp_mono; [by apply m__insert_spec|]. intros [] s1 (P1 & K1 & _).
    eapply wp_mono; [by eapply m__trim_spec|]. intros [] s2 [P2 K2]. split; [done|]. by eapply kept_trans.
  - destruct D as (D1 & _ & _). rewrite D1. simpl. wp_steps. split; [|apply kept_refl]. exists F.
    eapply pool_perm; [|exact P]. unfold owned. by rewrite Hd.
Qed.
Lemma m__dir_cover_spec X g s page :
  heap_with X g s → page mod PGSIZE = 0 → UHEAP_BASE ≤ page ≤ UHEAP_TOP →
  wp (m__dir_cover sys_sbrk page) (λ i s', same_payload g s s' ∧
    ((i = -1 ∧ heap_with X g s') ∨
     (i = page_idx page ∧ ∃ a z n, page_idx page < n ∧ heap_with X (set_dir g (Some (a, z, n))) s'))) s.
Proof.
  intros H Hm Hr. destruct (hp_pool _ _ _ H) as [F P]. destruct (pl_brk _ _ _ P) as [_ Hbrk].
  destruct (page_idx_ok page) as [Ep Hp]; [done|heap_lia|].
  assert (page_idx page < 2 ^ 20) as Hp' by heap_lia. destruct (dirlen_bound _ _ _ H) as (B1 & B2 & B3).
  unfold m__dir_cover. wp_steps. set (n0 := load_le 8 (um s) h_dirlen) in *.
  rewrite (i32_small (page_idx page)) by lia. destruct (Z.ltb_spec (page_idx page) n0).
  { wp_steps. split; [by intros x|]. right. split; [done|].
    pose proof (hp_dir _ _ _ H) as D. unfold dir_ok in D. destruct (g_dir g) as [[[a z] n]|] eqn:Hd.
    - destruct D as (_ & D2 & _). exists a, z, n. split; [lia|]. destruct g. simpl in *. by rewrite <- Hd.
    - destruct D as (_ & D2 & _). lia. }
  unfold MAXSMALL in *. set (w0 := if n0 =? 0 then _ else _).
  assert (512 < w0 < 2 ^ 28 ∧ 2 * n0 ≤ w0) as Hw0.
  { unfold w0. destruct (Z.eqb_spec n0 0); [lia|]. rewrite u64_small by lia. lia. }
  apply wp_bind. eapply wp_mono; [apply dir_want_spec; [lia|lia|change (2 ^ Z.of_nat 64) with (2 ^ 64); lia]|].
  intros w s' (-> & Hw1 & Hw2). assert (512 < w < 2 ^ 28 ∧ n0 ≤ w) as [Hw Hn0] by lia. clearbody w0.
  apply wp_bind. eapply wp_mono; [apply (m__big_spec _ F (X ++ owned g)); [done|unfold MAXSMALL; lia]|].
  intros p s1 [(-> & -> & _)|(F1 & sz & P1 & Hsz & Hl1 & K1)].
  { simpl. wp_steps. split; [by intros x|by left]. }
  destruct (heap_fresh _ _ _ _ _ _ H P1 K1) as [Hh1 S1].
  destruct (piece_range _ _ _ P1 (p - 16, sz)) as [? ?]; [elem|]. simpl in *.
  rewrite (proj2 (Z.eqb_neq p 0)) by heap_lia.
  apply wp_bind. replace p with (p - 16 + 16) at 1 by lia.
  eapply wp_mono; [apply (dir_copy_spec (Z.to_nat w) 0 (p - 16) sz X g s1 Hh1); lia|].
  intros [] s2 (Hh2 & S2 & V2 & O2 & B2'). replace (p - 16 + 16) with p in * by lia.
  apply wp_bind. eapply wp_mono.
  { apply (wp_unbind (ld 8 h_dir) (λ dir, if dir =? 0 then pret () else m__free sys_sbrk dir)).
    apply (free_old_dir _ _ _ Hh2). }
  intros dir s2' Hf. apply wp_bind. eapply wp_mono; [exact Hf|]. clear Hf. intros [] s3 [[F3 P3] K3].
  destruct (pl_brk _ _ _ P3) as [_ Hb3].
  assert (∀ x, p - 16 ≤ x < p - 16 + sz → rd8 (um s3) x = rd8 (um s2) x) as Hblk.
  { intros x Hx. apply K3. eapply (in_foreign _ (p - 16, sz)); [elem|done]. }
  wp_steps. split.
  - intros x Hx. pose proof (payload_first _ _ _ Hh2 x Hx). simpl. rewrite !rd8_store_le by heap_lia.
    rewrite K3, S2, S1; [done..|]. destruct (payload_owned _ _ _ H x Hx) as (e & He & ?).
    eapply in_foreign; [|done]. unfold owned. clear -He. simpl. rewrite elem_of_cons, !elem_of_app in *. tauto.
  - right. split; [done|]. exists (p - 16), sz, w. split; [done|].
    pose proof (install_dir X g s3 (p - 16) sz w) as HI. replace (p - 16 + 16) with p in HI by lia.
    apply HI; [by exists F3|..]; clear HI.
    + eapply rest_frame; [exact K3|]. destruct (hp_pool _ _ _ Hh2) as [F2 P2].
      eapply (rest_dir_words F2 ((p - 16, sz) :: X) g None s2); [exact P2|exact (hp_rest _ _ _ Hh2)|done].
    + transitivity (load_le 8 (um s1) (p - 16)); [|done]. apply load_le_ext. intros x Hx.
      rewrite Hblk by lia. apply O2. lia.
    + unfold MAXSMALL. lia.
    + lia.
    + intros j Hj. rewrite Hblk by lia. apply V2. lia.
    + intros q y Hq. destruct (B2 q y Hq). split; [lia|done].
Qed.
End ops.
