(* ===== verification/HeapNew.v ===== *)
(** * Making a run (malloc.h: m__newrun) *)
From stdpp Require Import base list numbers option gmap fin_maps.
From S2P Require Import Prelude Mem Riscv Heap HeapPool HeapAlloc HeapRuns HeapOps HeapMalloc.
Local Open Scope Z_scope.
Local Arguments load_le : simpl never.
Local Arguments store_le : simpl never.

Lemma head_apart F A e f s : pool F (e :: A) s → f ∈ A → apart e f.
Proof.
  intros P Hf. pose proof (unit_in _ _ _ P) as Hu. apply list_elem_of_split in Hf as (l1 & l2 & E).
  rewrite E in P, Hu. eapply (pair_apart (l1 ++ l2)); [intros y; by eapply cover_le_1|..].
  - constructor. symmetry. apply Permutation_middle.
  - apply Hu. elem.
  - apply Hu. elem.
Qed.

(** ** A page set aside becomes a run *)

Lemma aside_dir X g s p a z n :
  heap_with ((p, PGSIZE) :: X) g s → g_dir g = Some (a, z, n) →
  MAXSMALL < n ∧ n + 16 ≤ z ∧ heap_first ≤ a ∧ a + z ≤ ubrk s ∧ (a + z ≤ p ∨ p + PGSIZE ≤ a).
Proof.
  intros H Hd. destruct (hp_pool _ _ _ H) as [F P]. pose proof (hp_dir _ _ _ H) as D. unfold dir_ok in D. rewrite Hd in D.
  destruct D as (_ & _ & _ & D4 & D5 & _).
  destruct (piece_range _ _ _ P (a, z)) as [? ?]; [apply elem_of_app; right; by eapply dir_owned|].
  destruct (dir_apart _ _ _ _ _ _ _ (p, PGSIZE) P Hd); [elem|simpl in *; tauto..].
Qed.
Lemma aside_page X g s p :
  heap_with ((p, PGSIZE) :: X) g s → heap_first ≤ p ∧ p + PGSIZE ≤ ubrk s ∧ ubrk s ≤ UHEAP_TOP.
Proof.
  intros H. destruct (hp_pool _ _ _ H) as [F P]. destruct (pl_brk _ _ _ P) as [_ ?].
  destruct (piece_range _ _ _ P (p, PGSIZE)) as [? ?]; [elem|]. simpl in *. lia.
Qed.

Section add.
Context (X : list extent) (g : ghost) (s : uspace) (p c a z n : Z) (m' : memory).
Context (H : heap_with ((p, PGSIZE) :: X) g s) (Hc : 0 ≤ c < Z.of_nat NCLASS).
Context (Hd : g_dir g = Some (a, z, n)) (Hi : 0 ≤ page_idx p < n) (Hpi : UHEAP_BASE + page_idx p * PGSIZE = p).
Context (Hx : ∀ x, ¬ (p ≤ x < p + PGSIZE) → ¬ (h_runs c ≤ x < h_runs c + 8) → x ≠ a + 16 + page_idx p →
                   ¬ (h_run_pages ≤ x < h_run_pages + 8) → rd8 m' x = rd8 (um s) x).

Lemma add_header k x :
  x + Z.of_nat k ≤ heap_first → x + Z.of_nat k ≤ h_runs c ∨ h_runs c + 8 ≤ x →
  x + Z.of_nat k ≤ h_run_pages ∨ h_run_pages + 8 ≤ x → load_le k m' x = load_le k (um s) x.
Proof.
  intros H1 H2 H3. pose proof (aside_dir _ _ _ _ _ _ _ H Hd) as (? & ? & ? & _). destruct (aside_page _ _ _ _ H) as (? & _). unfold MAXSMALL in *.
  apply load_le_ext. intros y Hy. apply Hx; lia.
Qed.
Lemma add_load k e x :
  e ∈ X ++ map_to_list (g_big g) ++ run_extents (g_run g) → e.1 ≤ x → x + Z.of_nat k ≤ e.1 + e.2 →
  load_le k m' x = load_le k (um s) x.
Proof.
  intros He H1 H2. destruct (hp_pool _ _ _ H) as [F P].
  assert (apart (a, z) e) as A1 by (apply (dir_apart _ _ _ _ _ _ _ e P Hd); rewrite elem_of_app, elem_of_cons in *; tauto).
  assert (e ∈ X ++ owned g) as Ho by (unfold owned; clear -He; rewrite !elem_of_app in *; tauto).
  pose proof (head_apart F (X ++ owned g) _ e s P Ho) as A2.
  destruct (piece_range _ _ _ P e) as [? ?]; [apply elem_of_app; right; apply elem_of_cons; by right|]. destruct (aside_dir _ _ _ _ _ _ _ H Hd) as (? & ? & ? & ? & _).
  unfold NCLASS, MAXSMALL in *. apply load_le_ext. intros y Hy. destruct A1, A2; simpl in *; apply Hx; heap_lia.
Qed.
Lemma add_fresh : g_run g !! p = None.
Proof.
  destruct (hp_pool _ _ _ H) as [F P]. apply eq_None_not_Some. intros [y Hy].
  destruct (head_apart F (X ++ owned g) _ (p, PGSIZE) s P); [by eapply run_owned|simpl in *; heap_lia..].
Qed.
Lemma add_run_ok q c' f : g_run g !! q = Some (c', f) → run_ok m' q c' f.
Proof.
  intros Hq. destruct (rs_run _ _ (hp_rest _ _ _ H) _ _ _ Hq) as [K1 K2 K3 K4 K5 K6 K7].
  assert (∀ k x, q ≤ x → x + Z.of_nat k ≤ q + PGSIZE → load_le k m' x = load_le k (um s) x) as Hl.
  { intros k x ? ?. apply (add_load k (q, PGSIZE)); [rewrite !elem_of_app; right; right; by eapply elem_run_extents|done..]. }
  split; try done.
  - rewrite Hl by heap_lia. done.
  - rewrite Hl by heap_lia. done.
  - rewrite Hl by heap_lia. eapply threaded_ext; [|exact K5]. intros y Hy.
    pose proof (slot_range q c' y K2 (K7 y Hy)). destruct (class_size_ok c' K2). apply Hl; heap_lia.
Qed.
Lemma add_dir_ok fr : rd8 m' (a + 16 + page_idx p) = c + 1 → dir_ok m' (<[p := (c, fr)]> (g_run g)) (g_dir g).
Proof.
  intros Hv. pose proof (hp_dir _ _ _ H) as D. unfold dir_ok in *. rewrite Hd in *.
  destruct D as (D1 & D2 & D3 & D4 & D5 & D6 & D7). destruct (hp_pool _ _ _ H) as [F P].
  destruct (aside_dir _ _ _ _ _ _ _ H Hd) as (? & ? & ? & ? & ?). destruct (aside_page _ _ _ _ H) as (? & ? & ?). unfold MAXSMALL, NCLASS in *.
  assert (∀ i, 0 ≤ i < n → i ≠ page_idx p → rd8 m' (a + 16 + i) = rd8 (um s) (a + 16 + i)) as Hb.
  { intros i ? ?. apply Hx; heap_lia. }
  split_and!; [| | |done|done| |].
  - rewrite add_header; [done|heap_lia..].
  - rewrite add_header; [done|heap_lia..].
  - rewrite <- D3. apply load_le_ext. intros x ?. apply Hx; heap_lia.
  - intros q c' f Hq. destruct (decide (q = p)) as [->|Hne].
    + rewrite lookup_insert_eq in Hq. simplify_eq. split; [lia|done].
    + rewrite lookup_insert_ne in Hq by done. destruct (D6 _ _ _ Hq) as [Hlt Ev]. split; [done|].
      destruct (run_range _ _ _ _ P _ _ Hq) as (? & ? & ?).
      destruct (page_idx_ok q) as [Eq ?]; [exact (rk_page _ _ _ _ (rs_run _ _ (hp_rest _ _ _ H) _ _ _ Hq))|heap_lia|].
      rewrite Hb; [done|lia|]. intros E. apply Hne. rewrite <- Eq, E. done.
  - intros i Hin Hn. apply lookup_insert_None in Hn as [Hn Hne]. rewrite Hb; [by apply D7|done|].
    intros ->. by apply Hne.
Qed.
Lemma heap_add_run fr L' :
  rd8 m' (a + 16 + page_idx p) = c + 1 → load_le 8 m' h_run_pages = Z.of_nat (size (g_run g)) + 1 →
  run_ok m' p c fr → class_list m' (<[p := (c, fr)]> (g_run g)) c L' →
  heap_with X (set_run g p (c, fr)) (set_um s m').
Proof.
  intros Hv Hp Hok HL. destruct (hp_pool _ _ _ H) as [F P]. destruct (hp_rest _ _ _ H) as [K1 K2 K3 K4 K5].
  destruct (aside_dir _ _ _ _ _ _ _ H Hd) as (? & ? & ? & ? & ?). destruct (aside_page _ _ _ _ H) as (? & ? & ?). pose proof add_fresh as Hn.
  unfold MAXSMALL in *. split; [exists F|split|by apply add_dir_ok]; simpl.
  - eapply (pool_perm _ (((p, PGSIZE) :: X) ++ owned g)).
    { unfold owned. simpl. rewrite (run_extents_insert _ _ (c, fr) Hn). solve_Permutation. }
    eapply pool_frame; [exact P|done|]. intros x Hf. simpl. apply Hx.
    + intros ?. apply Hf. eapply (in_foreign _ (p, PGSIZE)); [elem|done].
    + intros ?. apply Hf. right. unfold NCLASS in *. heap_lia.
    + intros ->. apply Hf. eapply in_foreign; [by eapply dir_owned|]. simpl. lia.
    + intros ?. apply Hf. right. heap_lia.
  - rewrite add_header; [done|unfold NCLASS in *; heap_lia..].
  - intros b y Hb. destruct (K2 b y Hb) as [Hld Hy]. split; [|done]. transitivity (load_le 8 (um s) b); [|done].
    apply (add_load _ (b, y)); [|simpl; lia..]. apply elem_of_map_to_list in Hb. rewrite !elem_of_app. tauto.
  - intros q c' f Hq. destruct (decide (q = p)) as [->|Hne].
    + rewrite lookup_insert_eq in Hq. by simplify_eq.
    + rewrite lookup_insert_ne in Hq by done. by apply add_run_ok.
  - intros c' Hc'. destruct (decide (c' = c)) as [->|Hne]; [by exists L'|]. destruct (K4 c' Hc') as (L & T & N & HL').
    exists L. split_and!; [|done|].
    + rewrite add_header; [|unfold NCLASS in *; heap_lia..]. eapply threaded_ext; [|exact T]. intros q (f & Hq & _)%HL'.
      apply (add_load _ (q, PGSIZE)); [rewrite !elem_of_app; right; right; by eapply elem_run_extents|simpl; heap_lia..].
    + intros q. rewrite HL'. split; intros (f & Hq & ?); exists f; (split; [|done]).
      * rewrite lookup_insert_ne; [done|]. intros <-. congruence.
      * destruct (decide (q = p)) as [->|]; [rewrite lookup_insert_eq in Hq; congruence|]. by rewrite lookup_insert_ne in Hq.
  - rewrite Hp. rewrite map_size_insert_None by done. lia.
Qed.
End add.

(** ** Threading the slots *)

Definition slot (page c : Z) (k : nat) : Z := page + PGSIZE - Z.of_nat k * class_size c.
Lemma run_slots_slot page c : run_slots page c = slot page c <$> seq 1 (Z.to_nat (nslots c)).
Proof. done. Qed.
Lemma thread_slots_spec page c k n s :
  0 ≤ c < Z.of_nat NCLASS → heap_first ≤ page → page + PGSIZE ≤ ubrk s → ubrk s ≤ UHEAP_TOP →
  (k ≤ Z.to_nat (nslots c))%nat → (Z.to_nat (nslots c) - k ≤ n)%nat →
  threaded (um s) (load_le 8 (um s) (r_slots page)) (rev (slot page c <$> seq 1 k)) →
  wp (thread_slots n page (class_size c) (slot page c (S k))) (λ _ s', ∃ m', s' = set_um s m' ∧
    threaded m' (load_le 8 m' (r_slots page)) (rev (run_slots page c)) ∧
    ∀ x, ¬ (page + 8 ≤ x < page + 16) → ¬ (page + MRUNHDR ≤ x < page + PGSIZE) → rd8 m' x = rd8 (um s) x) s.
Proof.
  intros Hc Hp1 Hp2 Hp3. destruct (class_size_ok c Hc) as (Hcs & _ & Hn). revert k s Hp2 Hp3.
  induction n as [|n IH]; intros k s Hp2 Hp3 Hk Hf T.
  { apply wp_ret. exists (um s). split; [by destruct s|]. split; [|done]. rewrite run_slots_slot. by replace (Z.to_nat (nslots c)) with k by lia. }
  simpl thread_slots. destruct (decide (k = Z.to_nat (nslots c))) as [->|Hne].
  { assert (slot page c (S (Z.to_nat (nslots c))) < page + MRUNHDR) as Hlt.
    { unfold slot, MRUNHDR, nslots in *. rewrite Nat2Z.inj_succ, Z2Nat.id by lia. unfold PGSIZE, MRUNHDR in *.
      pose proof (Z.mul_succ_div_gt (4096 - 32) (class_size c)). nia. }
    rewrite (proj2 (Z.ltb_lt _ _) Hlt). apply wp_ret. exists (um s). split; [by destruct s|]. split; [|done]. exact T. }
  assert (slot page c (S k) ∈ run_slots page c) as Hin.
  { apply elem_run_slots; [done|]. exists (Z.of_nat (S k)). split; [lia|done]. }
  pose proof (slot_range page c _ Hc Hin) as Hr. unfold MAXSMALL in *.
  rewrite (proj2 (Z.ltb_ge _ _)) by lia. wp_steps. unfold set_um. simpl um.
  set (m1 := store_le 8 (store_le 8 (um s) _ _) _ _).
  replace (slot page c (S k) - class_size c) with (slot page c (S (S k))) by (unfold slot; lia).
  assert (∀ x, ¬ (page + 8 ≤ x < page + 16) → ¬ (page + MRUNHDR ≤ x < page + PGSIZE) → rd8 m1 x = rd8 (um s) x) as Hm1.
  { intros x ? ?. unfold m1. by rewrite !rd8_store_le by heap_lia. }
  assert (threaded m1 (load_le 8 m1 (r_slots page)) (rev (slot page c <$> seq 1 (S k)))) as T1.
  { rewrite seq_S, fmap_app, rev_app_distr. simpl. split; [unfold m1; apply load_store_64; heap_lia|].
    assert (load_le 8 m1 (slot page c (S k)) = load_le 8 (um s) (r_slots page)) as ->.
    { unfold m1. ld_ne. apply load_store_small, (load_le_range 8). }
    eapply threaded_ext; [|exact T]. intros q Hq. rewrite list_elem_of_In, <- in_rev, <- list_elem_of_In in Hq.
    apply list_elem_of_fmap in Hq as (j & -> & Hj%elem_of_seq). unfold m1.
    assert (slot page c (S k) + class_size c ≤ slot page c j) by (unfold slot; nia). do 2 ld_ne. done. }
  eapply wp_mono; [apply (IH (S k) (set_um s m1)); [done|done|lia|lia|exact T1]|].
  intros [] s' (m' & -> & T' & O'). exists m'. split_and!; [done|done|]. intros x ? ?. rewrite O' by done. by apply Hm1.
Qed.

Section ops.
Context (sys_sbrk : Z → prog uspace Z) `{!SbrkLaws sys_sbrk}.

Lemma full_run m page c :
  0 ≤ c < Z.of_nat NCLASS → page mod PGSIZE = 0 → load_le 2 m (r_cls page) = c → load_le 2 m (r_used page) = 0 →
  threaded m (load_le 8 m (r_slots page)) (rev (run_slots page c)) → run_ok m page c (rev (run_slots page c)).
Proof.
  intros Hc Hp H1 H2 H3. split; try done.
  - rewrite length_rev, (length_run_slots page c Hc). lia.
  - apply NoDup_ListNoDup, NoDup_rev, NoDup_ListNoDup. by apply run_slots_NoDup.
  - intros q Hq. by rewrite list_elem_of_In, <- in_rev, <- list_elem_of_In in Hq.
Qed.

Lemma m__newrun_spec X g s c :
  heap_with X g s → 0 ≤ c < Z.of_nat NCLASS →
  wp (m__newrun sys_sbrk c) (λ r s', same_payload g s s' ∧
    ((r = 0 ∧ ∃ d, heap_with X (set_dir g d) s') ∨
     (r ≠ 0 ∧ g_run g !! r = None ∧ ∃ d L, heap_with X (set_run (set_dir g d) r (c, rev (run_slots r c))) s' ∧
       class_list (um s') (<[r := (c, rev (run_slots r c))]> (g_run g)) c (r :: L)))) s.
Proof.
  intros H Hc. destruct (hp_pool _ _ _ H) as [F P]. unfold m__newrun.
  apply wp_bind. eapply wp_mono; [by apply (m__page_spec _ F (X ++ owned g))|].
  intros p s1 [K1 [[-> [F1 P1]]|[Hp [F1 P1]]]].
  { cbn [Z.eqb]. wp_steps. destruct (pool_to_heap X g s s1 H (ex_intro _ F1 P1) K1) as [H1 S1]. split; [done|]. left.
    split; [done|]. exists (g_dir g). by destruct g. }
  destruct (heap_fresh _ _ _ _ _ _ H P1 K1) as [H1 S1].
  destruct (piece_range _ _ _ P1 (p, PGSIZE)) as [Hr1 Hr2]; [elem|]. destruct (pl_brk _ _ _ P1) as [_ Hb1]. simpl in Hr1, Hr2.
  rewrite (proj2 (Z.eqb_neq p 0)) by heap_lia.
  apply wp_bind. eapply wp_mono; [apply (m__dir_cover_spec _ ((p, PGSIZE) :: X) g s1 p); [done|done|heap_lia]|].
  intros i s2 [S2 [[-> H2]|(-> & a & z & n & Hn & H2)]].
  { cbn [Z.ltb Z.compare]. apply wp_bind. eapply wp_mono; [apply (insert_back X g s2 (p, PGSIZE) H2)|]. intros [] s3 [H3 S3]. wp_steps.
    split; [intros x Hx; by rewrite S3, S2, S1|]. left. split; [done|]. exists (g_dir g). by destruct g. }
  set (g' := set_dir g (Some (a, z, n))) in *.
  destruct (page_idx_ok p) as [Ep Hpi]; [done|heap_lia|]. rewrite (proj2 (Z.ltb_ge (page_idx p) 0)) by lia.
  destruct (aside_dir _ _ _ _ _ _ _ H2 eq_refl) as (A1 & A2 & A3 & A4 & A5). destruct (aside_page _ _ _ _ H2) as (Q1 & Q2 & Q3).
  pose proof (hp_dir _ _ _ H2) as D. destruct D as (D1 & _). unfold MAXSMALL, NCLASS in *.
  pose proof (rs_lists _ _ (hp_rest _ _ _ H2) c Hc) as [L HL].
  wp_steps. rewrite D1. wp_steps. unfold set_um. cbn [um ubrk uframes].
  rewrite (load_store_le_ne 8 1), (u8_small (c + 1)) by heap_lia.
  set (m1 := store_le 8 _ (r_slots p) 0).
  assert (∀ k x, x + Z.of_nat k ≤ p ∨ p + 32 ≤ x → x + Z.of_nat k ≤ a + 16 + page_idx p ∨ a + 16 + page_idx p + 1 ≤ x →
    load_le k m1 x = load_le k (um s2) x) as Hm1.
  { intros k x ? ?. unfold m1. rewrite !load_store_le_ne by heap_lia. done. }
  replace (p + PGSIZE - class_size c) with (slot p c 1) by (unfold slot; lia).
  pose proof (class_size_ok c Hc) as (Hcs & _ & Hns). unfold MAXSMALL in *.
  eapply wp_mono.
  { apply (thread_slots_spec p c 0 256 (mkUspace m1 (ubrk s2) (uframes s2))); [exact Hc|exact Q1|exact Q2|exact Q3|lia|..].
    - assert (nslots c ≤ 256); [|lia]. unfold nslots. apply Z.div_le_upper_bound; heap_lia.
    - cbn [um]. unfold m1. apply load_store_64. lia. }
  intros [] s3 (m3 & -> & T3 & O3). cbn [um ubrk uframes set_um] in *.
  wp_steps. unfold set_um. cbn [um ubrk uframes].
  pose proof (run_count _ _ _ H2) as Hcnt.
  assert (∀ k x, x + Z.of_nat k ≤ p ∨ p + PGSIZE ≤ x ∨ (p ≤ x ∧ x + Z.of_nat k ≤ p + 8) ∨ (p + 16 ≤ x ∧ x + Z.of_nat k ≤ p + 32) →
    load_le k m3 x = load_le k m1 x) as Hm3.
  { intros k x Hkx. apply load_le_ext. intros y Hy. apply O3; heap_lia. }
  rewrite (load_store_le_ne 8 8), Hm3, Hm1, (rs_pages _ _ (hp_rest _ _ _ H2)) by heap_lia.
  rewrite u64_small by lia. set (m' := store_le 8 (store_le 8 m3 (h_runs c) p) h_run_pages _).
  assert (∀ k x, heap_first ≤ x → load_le k m' x = load_le k m3 x) as Hm'.
  { intros k x ?. unfold m'. by rewrite !load_store_le_ne by heap_lia. }
  assert (∀ x, ¬ (p ≤ x < p + PGSIZE) → ¬ (h_runs c ≤ x < h_runs c + 8) → x ≠ a + 16 + page_idx p →
    ¬ (h_run_pages ≤ x < h_run_pages + 8) → rd8 m' x = rd8 (um s2) x) as Hx.
  { intros x ? ? ? ?. unfold m'. rewrite !rd8_store_le by heap_lia. rewrite O3 by heap_lia. unfold m1.
    by rewrite !rd8_store_le by heap_lia. }
  assert (run_ok m' p c (rev (run_slots p c))) as Hrun.
  { apply full_run; [exact Hc|done|..].
    - rewrite Hm', Hm3 by heap_lia. unfold m1. do 2 ld_ne. apply load_store_small. change (256 ^ Z.of_nat 2) with 65536. lia.
    - rewrite Hm', Hm3 by heap_lia. unfold m1. ld_ne. by apply load_store_small.
    - rewrite Hm' by heap_lia. eapply threaded_ext; [|exact T3]. intros q Hq. apply Hm'.
      rewrite list_elem_of_In, <- in_rev, <- list_elem_of_In in Hq. pose proof (slot_range p c q Hc Hq). heap_lia. }
  assert (class_list m' (<[p := (c, rev (run_slots p c))]> (g_run g)) c (p :: L)) as HL'.
  { assert (∀ q, q ∈ L → heap_first ≤ q ∧ (q + PGSIZE ≤ p ∨ p + PGSIZE ≤ q) ∧ (q + PGSIZE ≤ a ∨ a + z ≤ q)) as HLq.
    { intros q Hq. destruct HL as (_ & _ & HL). apply HL in Hq as (f & Hf & _). destruct (hp_pool _ _ _ H2) as [F2 P2].
      destruct (run_range _ _ _ _ P2 _ _ Hf) as (? & _). split; [done|]. split.
      - destruct (head_apart F2 (X ++ owned g') _ (q, PGSIZE) s2 P2); [by eapply run_owned|simpl in *; heap_lia..].
      - destruct (dir_apart _ _ _ _ _ _ _ (q, PGSIZE) P2 eq_refl); [|simpl in *; heap_lia..].
        rewrite !elem_of_app. right. right. by eapply elem_run_extents. }
    eapply (class_list_push (um s2) m' (g_run g)); [exact HL|right; exact (add_fresh _ _ _ _ H2)| | | |].
    - intros E. pose proof (length_run_slots p c Hc) as El. apply (f_equal length) in E. rewrite length_rev in E. simpl in E. lia.
    - unfold m'. ld_ne. apply load_store_64. heap_lia.
    - rewrite Hm', Hm3 by heap_lia. unfold m1. do 3 ld_ne. apply load_store_small, (load_le_range 8).
    - intros q Hq. destruct (HLq q Hq) as (? & ? & ?). rewrite Hm', Hm3, Hm1 by heap_lia. done. }
  split; [|right; split_and!; [heap_lia|exact (add_fresh _ _ _ _ H2)|]].
  - intros x Hx'. transitivity (rd8 (um s2) x); [|by rewrite S2, S1].
    pose proof (payload_first _ _ _ H2 x Hx'). apply Hx; [|heap_lia| |heap_lia].
    + destruct (payload_owned _ _ _ H x Hx') as (e & He & ?). destruct (hp_pool _ _ _ H2) as [F2 P2].
      destruct (head_apart F2 (X ++ owned g') _ e s2 P2); [|simpl in *; lia..].
      unfold owned, g'. clear -He. simpl. rewrite !elem_of_app, ?elem_of_cons in *. tauto.
    + pose proof (payload_dir _ _ _ H2 a z n x eq_refl Hx'). lia.
  - exists (Some (a, z, n)), L. split; [|exact HL'].
    eapply (heap_add_run X g' s2 p c a z n m' H2 Hc eq_refl); [lia|done|done| |..|exact Hrun|exact HL'].
    + unfold m'. rewrite !rd8_store_le by heap_lia. rewrite O3 by heap_lia. unfold m1. rewrite !rd8_store_le by heap_lia.
      rewrite <- load_1. apply load_store_small. change (256 ^ Z.of_nat 1) with 256. lia.
    + unfold m'. apply load_store_64. lia.
Qed.
End ops.
