(* ===== verification/HeapTop.v ===== *)
(** * The four operations of the heap (malloc.h)

    What the program holds, told by [live]; that the program may write into
    it and the lock may change without the heap noticing; the first call on
    an untouched window; and what [m__malloc], [m__free] and the size lookup
    of [m__realloc] do to [live] and to the bytes that are held. *)
From stdpp Require Import base list numbers option gmap fin_maps relations.
From S2P Require Import Prelude Mem Riscv Heap HeapPool HeapAlloc HeapRuns HeapOps HeapMalloc HeapNew.
Local Open Scope Z_scope.
Local Arguments load_le : simpl never.
Local Arguments store_le : simpl never.
Local Arguments thread_slots : simpl never.
Local Arguments m__malloc : simpl never.
Local Arguments m__free : simpl never.

(** ** What the program holds *)

Lemma payload_live g x : payload g x ↔ ∃ e, e ∈ live g ∧ e.1 ≤ x < e.1 + e.2.
Proof.
  unfold payload, live. split.
  - intros [(a & z & Hb & Hx)|(r & c & fr & p & Hr & Hp & Hf & Hx)].
    + exists (a + 16, z - 16). split; [|simpl; lia]. apply elem_of_app. left. apply list_elem_of_fmap.
      exists (a, z). split; [done|]. by apply elem_of_map_to_list.
    + exists (p, class_size c). split; [|done]. apply elem_of_app. right. apply list_elem_of_bind.
      exists (r, (c, fr)). split; [|by apply elem_of_map_to_list]. apply list_elem_of_fmap. exists p. split; [done|].
      by apply list_elem_of_filter.
  - intros (e & [He|He]%elem_of_app & Hx).
    + apply list_elem_of_fmap in He as ([a z] & -> & Hb). apply elem_of_map_to_list in Hb. simpl in *.
      left. exists a, z. split; [done|lia].
    + apply list_elem_of_bind in He as ([r [c fr]] & He & Hr). apply elem_of_map_to_list in Hr.
      apply list_elem_of_fmap in He as (p & -> & [Hf Hp]%list_elem_of_filter). right. exists r, c, fr, p. done.
Qed.

Lemma live_set_dir g d : live (set_dir g d) = live g. Proof. done. Qed.
Lemma live_add_big g b z : g_big g !! b = None → live (add_big g b z) ≡ₚ (b + 16, z - 16) :: live g.
Proof. intros Hn. unfold live. simpl. by rewrite (big_extents_insert _ _ z Hn). Qed.
Lemma live_del_big g b z : g_big g !! b = Some z → live g ≡ₚ (b + 16, z - 16) :: live (del_big g b).
Proof. intros Hb. unfold live. simpl. by rewrite (big_extents_delete _ _ _ Hb). Qed.
Lemma runs_live_insert (R : gmap Z (Z * list Z)) r y :
  R !! r = None → (map_to_list (<[r := y]> R) ≫= run_live) ≡ₚ run_live (r, y) ++ (map_to_list R ≫= run_live).
Proof. intros Hn. by rewrite (map_to_list_insert R r y Hn). Qed.
Lemma live_run g r y : g_run g !! r = Some y → live g ≡ₚ run_live (r, y) ++ live (del_run g r).
Proof.
  intros Hr. unfold live. simpl. rewrite <- (insert_delete_id (g_run g) r y Hr) at 1.
  rewrite runs_live_insert by apply lookup_delete_eq. solve_Permutation.
Qed.
Lemma live_set_run g r y : live (set_run g r y) ≡ₚ run_live (r, y) ++ live (del_run g r).
Proof. rewrite (live_run (set_run g r y) r y) by apply lookup_insert_eq. by rewrite del_set_run. Qed.

Lemma run_live_pop r c p fr :
  0 ≤ c < Z.of_nat NCLASS → p ∈ run_slots r c → p ∉ fr →
  run_live (r, (c, fr)) ≡ₚ (p, class_size c) :: run_live (r, (c, p :: fr)).
Proof.
  intros Hc Hp Hf. unfold run_live. simpl. pose proof (run_slots_NoDup r c Hc) as N.
  assert (filter (.∉ fr) (run_slots r c) ≡ₚ p :: filter (.∉ p :: fr) (run_slots r c)) as ->; [|done].
  apply NoDup_Permutation.
  - by apply NoDup_filter.
  - apply list.NoDup_cons. split; [|by apply NoDup_filter]. intros [Hn _]%list_elem_of_filter. apply Hn. elem.
  - intros q. rewrite elem_of_cons, !list_elem_of_filter, not_elem_of_cons.
    destruct (decide (q = p)) as [->|]; tauto.
Qed.
Lemma run_live_none r c fr : (∀ q, q ∈ run_slots r c → q ∈ fr) → run_live (r, (c, fr)) = [].
Proof.
  intros H. unfold run_live. simpl. assert (filter (.∉ fr) (run_slots r c) = []) as ->; [|done].
  induction (run_slots r c) as [|q l IH]; [done|]. rewrite filter_cons_False.
  - apply IH. intros x Hx. apply H. elem.
  - intros Hn. apply Hn, H. elem.
Qed.
(** A run with as many free slots as it has slots holds nothing. *)
Lemma run_all_free r c fr :
  0 ≤ c < Z.of_nat NCLASS → NoDup fr → (∀ q, q ∈ fr → q ∈ run_slots r c) → nslots c = Z.of_nat (length fr) →
  ∀ q, q ∈ run_slots r c → q ∈ fr.
Proof.
  intros Hc N Hin Hl q Hq. assert (fr ≡ₚ run_slots r c) as ->; [|done].
  apply submseteq_length_Permutation; [apply NoDup_submseteq; done|].
  pose proof (length_run_slots r c Hc). lia.
Qed.

(** ** Writes that the heap does not see *)

Section writes.
Context (g : ghost) (s : uspace) (H : heap g s).

Lemma big_apart a z b y : g_big g !! a = Some z → g_big g !! b = Some y → a ≠ b → apart (a, z) (b, y).
Proof.
  intros Ha Hb Hne. destruct (hp_pool _ _ _ H) as [F P].
  destruct (rs_big _ _ (hp_rest _ _ _ H) _ _ Ha) as [_ ?], (rs_big _ _ (hp_rest _ _ _ H) _ _ Hb) as [_ ?].
  eapply (pair_apart (map_to_list (delete b (delete a (g_big g))) ++ dir_extent (g_dir g) ++ run_extents (g_run g)));
    [intros x; by eapply cover_le_1| |simpl; lia..].
  unfold owned. simpl. rewrite (big_extents_delete _ _ _ Ha), (big_extents_delete (delete a (g_big g)) b y); [done|].
  by rewrite lookup_delete_ne.
Qed.
Lemma payload_block a z x : g_big g !! a = Some z → payload g x → ¬ (a ≤ x < a + 16).
Proof.
  intros Ha Hp Hx. destruct (hp_pool _ _ _ H) as [F P].
  destruct (rs_big _ _ (hp_rest _ _ _ H) _ _ Ha) as [_ ?].
  destruct Hp as [(b & y & Hb & ?)|(r & c & fr & p & Hr & Hp & _ & ?)].
  - destruct (decide (a = b)) as [->|Hne]; [lia|]. destruct (big_apart _ _ _ _ Ha Hb Hne); simpl in *; lia.
  - pose proof (slot_range r c p (run_class _ _ _ _ _ _ H Hr) Hp).
    destruct (run_apart _ _ _ _ P _ _ (a, z) Hr); [apply elem_of_map_to_list in Ha; rewrite !elem_of_app; tauto|..];
      simpl in *; heap_lia.
Qed.

(** The program writes into what it holds. *)
Lemma heap_poke m' : (∀ x, ¬ payload g x → rd8 m' x = rd8 (um s) x) → heap g (set_um s m').
Proof.
  intros Hx. destruct (hp_pool _ _ _ H) as [F P]. destruct (hp_rest _ _ _ H) as [K1 K2 K3 K4 K5].
  assert (∀ n a, (∀ x, a ≤ x < a + Z.of_nat n → ¬ payload g x) → load_le n m' a = load_le n (um s) a) as Hl.
  { intros n a Ha. apply load_le_ext. auto. }
  assert (∀ n a, a + Z.of_nat n ≤ heap_first → load_le n m' a = load_le n (um s) a) as Hh.
  { intros n a Ha. apply Hl. intros x ? Hp. pose proof (payload_first _ _ _ H x Hp). lia. }
  split; [exists F|split|].
  - eapply pool_frame; [exact P|done|]. intros x Hf. apply Hx. intros Hp. apply Hf.
    by eapply (payload_foreign [] g s H).
  - simpl. rewrite Hh; [done|heap_lia].
  - intros a z Hb. destruct (K2 a z Hb) as [E ?]. split; [|done]. simpl. rewrite Hl; [done|].
    intros x ? Hp. eapply payload_block; [exact Hb|exact Hp|lia].
  - intros r c fr Hr. destruct (K3 _ _ _ Hr) as [R1 R2 R3 R4 R5 R6 R7].
    assert (∀ n a, r ≤ a → a + Z.of_nat n ≤ r + MRUNHDR → load_le n m' a = load_le n (um s) a) as Hrl.
    { intros n a ? ?. apply Hl. intros x ? Hp. eapply (payload_header _ _ _ H); [exact Hr|exact Hp|lia]. }
    split; try done; simpl; rewrite ?Hrl by heap_lia; try done. eapply threaded_ext; [|exact R5].
    intros q Hq. apply Hl. intros x ? Hp. eapply (payload_slot _ _ _ H); [exact Hr|exact Hq|exact Hp|lia].
  - intros c Hc. destruct (K4 c Hc) as (L & T & N & HL). exists L. split_and!; [|done|done]. simpl.
    rewrite Hh by (unfold NCLASS in Hc; heap_lia). eapply threaded_ext; [|exact T]. intros q (f & Hf & _)%HL.
    apply Hl. intros x ? Hp. eapply (payload_header _ _ _ H); [exact Hf|exact Hp|heap_lia].
  - simpl. rewrite Hh; [done|heap_lia].
  - pose proof (hp_dir _ _ _ H) as D. unfold dir_ok in *. simpl. destruct (g_dir g) as [[[a z] n]|] eqn:Hd.
    + destruct D as (D1 & D2 & D3 & D4 & D5 & D6 & D7). unfold MAXSMALL in *.
      assert (∀ x, a ≤ x < a + z → rd8 m' x = rd8 (um s) x) as Hd'.
      { intros x ?. apply Hx. intros Hp. by eapply (payload_dir _ _ _ H _ _ _ _ Hd Hp). }
      split_and!; [rewrite Hh; [done|heap_lia]..| |done|done| |].
      * rewrite <- D3. apply load_le_ext. intros x ?. apply Hd'. lia.
      * intros p c fr Hr. destruct (D6 _ _ _ Hr) as [? E]. split; [done|]. rewrite Hd'; [done|].
        assert (0 ≤ page_idx p) by (apply Z.div_pos; [apply u64_range|unfold PGSIZE; lia]). lia.
      * intros i Hi Hn. rewrite Hd' by lia. auto.
    + destruct D as (D1 & D2 & D3). split_and!; [rewrite Hh; [done|heap_lia]..|done].
Qed.
(** The lock word is nobody else's. *)
Lemma heap_lock m' : (∀ x, ¬ (h_lock ≤ x < h_lock + 4) → rd8 m' x = rd8 (um s) x) → heap g (set_um s m').
Proof.
  intros Hx. destruct (hp_pool _ _ _ H) as [F P]. destruct (hp_rest _ _ _ H) as [K1 K2 K3 K4 K5].
  assert (∀ n a, h_magic ≤ a → load_le n m' a = load_le n (um s) a) as Hl.
  { intros n a Ha. apply load_le_ext. intros x ?. apply Hx. heap_lia. }
  split; [exists F|split|].
  - eapply pool_frame; [exact P|done|]. intros x Hf. apply Hx. intros ?. apply Hf. right. heap_lia.
  - simpl. rewrite Hl; [done|heap_lia].
  - intros a z Hb. destruct (piece_range _ _ _ P (a, z)) as [? ?]; [apply elem_of_app; right; by apply (big_owned [])|].
    simpl in *. rewrite Hl by heap_lia. auto.
  - intros r c fr Hr. destruct (run_range _ _ _ _ P _ _ Hr) as (? & ? & ?). destruct (K3 _ _ _ Hr) as [R1 R2 R3 R4 R5 R6 R7].
    split; try done; simpl; rewrite ?Hl by heap_lia; try done. eapply threaded_ext; [|exact R5].
    intros q Hq. pose proof (slot_range r c q R2 (R7 q Hq)). apply Hl. heap_lia.
  - intros c Hc. destruct (K4 c Hc) as (L & T & N & HL). exists L. split_and!; [|done|done]. simpl.
    rewrite Hl by (unfold NCLASS in Hc; heap_lia). eapply threaded_ext; [|exact T]. intros q (f & Hf & _)%HL.
    destruct (run_range _ _ _ _ P _ _ Hf) as (? & ? & ?). apply Hl. heap_lia.
  - simpl. rewrite Hl; [done|heap_lia].
  - pose proof (hp_dir _ _ _ H) as D. unfold dir_ok in *. simpl. destruct (g_dir g) as [[[a z] n]|] eqn:Hd.
    + destruct D as (D1 & D2 & D3 & D4 & D5 & D6 & D7).
      destruct (piece_range _ _ _ P (a, z)) as [? ?]; [apply elem_of_app; right; by eapply (dir_owned [])|]. simpl in *.
      split_and!; [rewrite Hl; [done|heap_lia]..|done|done| |].
      * intros p c fr Hr. destruct (D6 _ _ _ Hr) as [? E]. split; [done|].
        assert (0 ≤ page_idx p) by (apply Z.div_pos; [apply u64_range|unfold PGSIZE; lia]). rewrite Hx by heap_lia. done.
      * intros i Hi Hn. rewrite Hx by heap_lia. auto.
    + destruct D as (D1 & D2 & D3). split_and!; [rewrite Hl; [done|heap_lia]..|done].
Qed.
End writes.

(** ** The first call *)

Definition no_blocks : ghost := mkGhost ∅ ∅ None.
(** The window as the kernel hands it out: one page that carries no heap. *)
Definition fresh (s : uspace) : Prop := ubrk s = UHEAP_BASE + PGSIZE ∧ load_le 8 (um s) h_magic ≠ MHEAP_MAGIC.

Lemma clear_runs_spec n i s :
  0 ≤ i → i + Z.of_nat n ≤ Z.of_nat NCLASS → UHEAP_BASE + PGSIZE ≤ ubrk s →
  wp (clear_runs n i) (λ _ s', ∃ m', s' = set_um s m' ∧
    (∀ c, i ≤ c < i + Z.of_nat n → load_le 8 m' (h_runs c) = 0) ∧
    ∀ x, ¬ (h_runs i ≤ x < h_runs i + 8 * Z.of_nat n) → rd8 m' x = rd8 (um s) x) s.
Proof.
  unfold NCLASS. revert i s. induction n as [|n IH]; intros i s Hi Hn Hb.
  { apply wp_ret. exists (um s). split; [by destruct s|]. split; [lia|done]. }
  simpl clear_runs. wp_steps. eapply wp_mono; [apply IH; [lia|lia|done]|].
  intros [] s' (m' & -> & Hc & Ho). simpl in *. exists m'. split; [done|]. split.
  - intros c Hcr. destruct (decide (c = i)) as [->|]; [|apply Hc; lia].
    transitivity (load_le 8 (store_le 8 (um s) (h_runs i) 0) (h_runs i)); [|by apply load_store_64].
    apply load_le_ext. intros x Hx. apply Ho. heap_lia.
  - intros x Hx. rewrite Ho by heap_lia. apply rd8_store_le. heap_lia.
Qed.
Lemma m__heap_init s : fresh s → wp m__heap (λ _ s', heap no_blocks s') s.
Proof.
  intros [Hb Hm]. unfold m__heap. wp_steps. rewrite (proj2 (Z.eqb_neq _ _) Hm). wp_steps.
  unfold set_um. cbn [um ubrk uframes]. set (m0 := store_le 8 _ h_run_pages 0).
  eapply wp_mono; [apply (clear_runs_spec NCLASS 0 (mkUspace m0 (ubrk s) (uframes s))); [done|done|simpl; lia]|].
  intros [] s' (m1 & -> & Hc & Ho). cbn [um ubrk uframes set_um] in *. unfold NCLASS in *.
  assert (∀ a, h_lock ≤ a → a + 8 ≤ h_runs 0 ∨ h_dir ≤ a → load_le 8 m1 a = load_le 8 m0 a) as Hl.
  { intros a ? ?. apply load_le_ext. intros x ?. apply Ho. heap_lia. }
  wp_steps. unfold set_um. cbn [um ubrk uframes].
  assert (load_le 8 m1 h_top = UHEAP_BASE + PGSIZE) as Htop.
  { rewrite Hl by heap_lia. unfold m0. do 3 ld_ne. apply load_store_64. heap_lia. }
  rewrite Htop. change (UHEAP_BASE + MALIGN sizeof_mheap) with heap_first.
  set (s1 := mkUspace m1 (ubrk s) (uframes s)).
  assert (pool [] [(heap_first, UHEAP_BASE + PGSIZE - heap_first)] s1) as P.
  { split; simpl; unfold s1; simpl.
    - split; simpl; [by rewrite Hb|rewrite Hb; heap_lia].
    - by rewrite Htop.
    - split; [|done]. simpl. rewrite Hl by heap_lia. unfold m0. do 4 ld_ne. by apply load_store_64.
    - done.
    - intros x. rewrite Hb. unfold inside. simpl. destruct (Z.leb_spec heap_first x), (Z.ltb_spec x (heap_first + (UHEAP_BASE + PGSIZE - heap_first))), (decide _); simpl; lia.
    - repeat constructor; by_compute. }
  eapply wp_mono; [by apply (m__insert_spec [] [])|]. intros [] s2 (P2 & K2 & _).
  split; [by eexists|split|]; simpl.
  - rewrite (agree_header _ _ _ _ _ K2) by heap_lia. simpl. rewrite Hl by heap_lia. unfold m0. do 5 ld_ne.
    apply load_store_64. unfold MHEAP_MAGIC. lia.
  - done.
  - done.
  - intros c Hcr. unfold NCLASS in Hcr. exists []. split_and!; [|constructor|].
    + simpl. rewrite (agree_header _ _ _ _ _ K2) by heap_lia. apply Hc. lia.
    + intros p. split; [by intros ?%not_elem_of_nil|by intros (f & Hf & _)].
  - rewrite (agree_header _ _ _ _ _ K2) by heap_lia. simpl. rewrite Hl by heap_lia. unfold m0. by apply load_store_64.
  - split_and!; [..|done]; rewrite (agree_header _ _ _ _ _ K2) by heap_lia; simpl; rewrite Hl by heap_lia; unfold m0.
    + do 2 ld_ne. by apply load_store_64.
    + ld_ne. by apply load_store_64.
Qed.

(** In order, or not yet begun. *)
Definition ready (g : ghost) (s : uspace) : Prop := heap g s ∨ fresh s ∧ g = no_blocks.
Lemma m__heap_ready g s : ready g s → wp m__heap (λ _ s', heap g s' ∧ same_payload g s s') s.
Proof.
  intros [H|[Hf ->]].
  - eapply m__heap_spec; [exact H|]. split; [done|by intros x].
  - eapply wp_mono; [by apply m__heap_init|]. intros [] s' H. split; [done|].
    intros x [(a & z & Hb & _)|(r & c & fr & p & Hr & _)]; simpl in *; done.
Qed.

(** Laying the heap out asks the kernel for nothing. *)
Definition stays {A} (f : prog uspace A) : Prop :=
  ∀ s a s', f s = Some (a, s') → ubrk s' = ubrk s ∧ uframes s' = uframes s.
Lemma stays_ret {A} (a : A) : stays (pret a). Proof. by intros s b s' [= <- <-]. Qed.
Lemma stays_gets {A} (f : uspace → A) : stays (gets f). Proof. by intros s b s' [= <- <-]. Qed.
Lemma stays_diverge {A} : stays (@diverge uspace A). Proof. done. Qed.
Lemma stays_ld n a : stays (ld n a).
Proof. intros s b s'. unfold ld. destruct (mapped _ _ _); [|done]. by intros [= <- <-]. Qed.
Lemma stays_st n a v : stays (st n a v).
Proof. intros s b s'. unfold st. destruct (mapped _ _ _); [|done]. by intros [= <- <-]. Qed.
Lemma stays_bind {A B} (f : prog uspace A) (k : A → prog uspace B) : stays f → (∀ a, stays (k a)) → stays (pbind f k).
Proof.
  intros Hf Hk s b s'. unfold pbind. destruct (f s) as [[a s1]|] eqn:E; [|done]. intros E'.
  destruct (Hf _ _ _ E) as [<- <-]. by eapply Hk.
Qed.
Create HintDb stays.
#[local] Hint Resolve stays_ret stays_gets stays_diverge stays_ld stays_st : stays.
Ltac stays := repeat first [solve [auto with stays] | apply stays_bind; [|intros ?] | case_match].
Lemma insert_scan_stays n b prev cur : stays (insert_scan n b prev cur).
Proof. revert prev cur. induction n as [|n IH]; intros prev cur; simpl; stays. Qed.
Lemma clear_runs_stays n i : stays (clear_runs n i).
Proof. revert i. induction n as [|n IH]; intros i; simpl; stays. Qed.
#[local] Hint Resolve insert_scan_stays clear_runs_stays : stays.
Lemma m__insert_stays b z : stays (m__insert b z).
Proof. unfold m__insert, set_link, touches, join. stays. Qed.
#[local] Hint Resolve m__insert_stays : stays.
Lemma m__heap_stays : stays m__heap.
Proof. unfold m__heap. stays. Qed.
Lemma wp_stays {A} (f : prog uspace A) Q s :
  stays f → wp f Q s → wp f (λ a s', Q a s' ∧ ubrk s' = ubrk s ∧ uframes s' = uframes s) s.
Proof. intros Hf Hw. unfold wp in *. destruct (f s) as [[a s']|] eqn:E; [|done]. split; [done|]. by eapply Hf. Qed.

(** ** malloc *)

Lemma class_for_ok n :
  0 < n ≤ MAXSMALL → 0 ≤ class_for n < Z.of_nat NCLASS ∧ n ≤ class_size (class_for n).
Proof.
  unfold MAXSMALL. intros Hn. unfold class_for, m__class. cbn [class_from].
  repeat match goal with |- context [?a <? n] => destruct (Z.ltb_spec a n) end; unfold NCLASS, class_size; simpl; lia.
Qed.
Lemma slot_aligned r c p : r mod PGSIZE = 0 → 0 ≤ c < Z.of_nat NCLASS → p ∈ run_slots r c → p mod 16 = 0.
Proof.
  intros Hr Hc (k & _ & ->)%elem_run_slots; [|done]. destruct (class_size_ok c Hc) as (_ & Hm & _). unfold PGSIZE in *.
  apply Z.mod_divide in Hm as [y Hy]; [|lia]. rewrite Hy. apply Z.mod_divide; [lia|].
  apply Z.mod_divide in Hr as [w Hw]; [|lia]. exists (w * 256 + 256 - k * y). lia.
Qed.

Section ops.
Context (sys_sbrk : Z → prog uspace Z) `{!SbrkLaws sys_sbrk}.

(** The outcome of an allocation of [n] bytes. *)
Definition allocated (g : ghost) (n p : Z) (g' : ghost) : Prop :=
  (p = 0 ∧ live g' ≡ₚ live g) ∨ (p ≠ 0 ∧ p mod 16 = 0 ∧ ∃ k, n ≤ k ∧ live g' ≡ₚ (p, k) :: live g).

Lemma malloc_big g s n :
  heap g s → MAXSMALL < n ≤ 2 ^ 61 →
  wp (m__big sys_sbrk n) (λ p s', (∃ g', heap g' s' ∧ same_payload g s s' ∧ allocated g n p g') ∧
    (p = 0 → sys_sbrk (PGROUNDUP (MALIGN (n + 16))) s = Some (SBRK_FAILED, s))) s.
Proof.
  intros H Hn. destruct (hp_pool _ _ _ H) as [F P].
  eapply wp_mono; [by apply (m__big_spec _ F (owned g))|].
  intros p s' [(-> & -> & Hk)|(F' & sz & P' & Hsz & Hl & K)].
  - split; [|done]. exists g. split_and!; [done|by intros x|by left].
  - destruct (heap_fresh [] _ _ _ _ _ H P' K) as [H' S]. unfold MAXSMALL in *.
    destruct (heap_give_big [] g s' (p - 16) sz H' Hl ltac:(lia)) as [Hn' H2].
    destruct (piece_range _ _ _ P' (p - 16, sz)) as [? ?]; [elem|].
    destruct (unit_in _ _ _ P' (p - 16, sz)) as (Hu & _); [elem|]. simpl in *.
    split; [|heap_lia]. exists (add_big g (p - 16) sz). split_and!; [done|done|]. right. split_and!; [heap_lia|ldiv|].
    exists (sz - 16). split; [lia|]. rewrite (live_add_big _ _ _ Hn'). by replace (p - 16 + 16) with p by lia.
Qed.
(** A run with room gives out a slot. *)
Lemma malloc_slot g s n c r fr L :
  heap g s → g_run g !! r = Some (c, fr) → fr ≠ [] → class_list (um s) (g_run g) c (r :: L) → n ≤ class_size c →
  wp (take_slot r c) (λ p s', ∃ g', heap g' s' ∧ same_payload g s s' ∧ allocated g n p g') s.
Proof.
  intros H Hr Hf HL Hn. destruct fr as [|p fr]; [done|]. pose proof (run_class _ _ _ _ _ _ H Hr) as Hc.
  pose proof (rs_run _ _ (hp_rest _ _ _ H) _ _ _ Hr) as K. pose proof (rk_in _ _ _ _ K p ltac:(elem)) as Hp.
  destruct (hp_pool _ _ _ H) as [F P]. destruct (run_range _ _ _ _ P _ _ Hr) as (? & ? & ?).
  pose proof (rk_nodup _ _ _ _ K) as [Hpf _]%list.NoDup_cons.
  eapply wp_mono; [by eapply take_slot_spec|]. intros q s' (-> & H' & O).
  exists (set_run g r (c, fr)). split_and!; [done| |].
  - intros x Hx. apply O; [exact (payload_first _ _ _ H x Hx)|exact (payload_header _ _ _ H r _ x Hr Hx)].
  - right. split_and!; [pose proof (slot_range r c p Hc Hp); heap_lia|by eapply slot_aligned; [exact (rk_page _ _ _ _ K)|..]|].
    exists (class_size c). split; [done|]. rewrite live_set_run, (live_run g r _ Hr), (run_live_pop r c p fr) by done. done.
Qed.
Lemma same_payload_live g g' s s' : live g' ≡ₚ live g → same_payload g s s' → same_payload g' s s'.
Proof.
  intros Hl Hs x Hx. apply Hs. apply payload_live. apply payload_live in Hx as (e & He & ?). exists e.
  split; [by rewrite <- Hl|done].
Qed.
Lemma malloc_small g s n :
  heap g s → 0 < n ≤ MAXSMALL →
  wp (let* r := ld 8 (h_runs (class_for n)) in
      let* r := (if r =? 0 then m__newrun sys_sbrk (class_for n) else pret r) in
      if r =? 0 then pret 0 else take_slot r (class_for n))
    (λ p s', ∃ g', heap g' s' ∧ same_payload g s s' ∧ allocated g n p g') s.
Proof.
  intros H0 Hn. destruct (class_for_ok n) as [Hc Hsz]; [lia|]. set (c := class_for n) in *. clearbody c.
  destruct (rs_lists _ _ (hp_rest _ _ _ H0) c Hc) as [L HL]. pose proof HL as (T & _ & HLe).
  destruct (hp_pool _ _ _ H0) as [F P]. destruct (pl_brk _ _ _ P) as [_ ?].
  apply wp_bind. apply wp_ld; [unfold NCLASS in Hc; heap_lia..|]. rewrite (threaded_head _ _ _ T). destruct L as [|r L].
  - cbn [head default from_option Z.eqb]. apply wp_bind. eapply wp_mono; [by apply (m__newrun_spec _ [] g s c)|].
    intros r s1 [S1 [(-> & d & Hh1)|(Hr0 & Hrn & d & L & Hh1 & HL1)]].
    { cbn [Z.eqb]. apply wp_ret. exists (set_dir g d). split_and!; [done|done|by left]. }
    rewrite (proj2 (Z.eqb_neq r 0) Hr0).
    assert (live (set_run (set_dir g d) r (c, rev (run_slots r c))) ≡ₚ live g) as Hlive.
    { rewrite live_set_run, run_live_none; [|intros q Hq; by rewrite list_elem_of_In, <- in_rev, <- list_elem_of_In].
      unfold live. simpl. by rewrite delete_id. }
    eapply wp_mono; [eapply (malloc_slot _ s1 n c r); [exact Hh1|simpl; by rewrite lookup_insert_eq| |exact HL1|done]|].
    + intros E. pose proof (length_run_slots r c Hc) as El. destruct (class_size_ok c Hc) as (_ & _ & ?).
      apply (f_equal length) in E. rewrite length_rev in E. simpl in E. lia.
    + intros p s2 (g2 & Hh2 & S2 & A2). exists g2. split_and!; [done| |].
      * eapply same_payload_trans; [exact S1|]. eapply same_payload_live; [|exact S2]. by symmetry.
      * destruct A2 as [[-> E]|(? & ? & k & ? & E)]; [left|right]; (split; [done|]); [by rewrite E|].
        split; [done|]. exists k. split; [done|]. by rewrite E, Hlive.
  - destruct (proj1 (HLe r)) as (fr & Hr & Hfr); [elem|]. destruct (run_range _ _ _ _ P _ _ Hr) as (? & _).
    change (default 0 (head (r :: L))) with r. rewrite (proj2 (Z.eqb_neq r 0)) by heap_lia.
    apply wp_bind, wp_ret. rewrite (proj2 (Z.eqb_neq r 0)) by heap_lia. by eapply (malloc_slot g s n c r fr L).
Qed.
(** The kernel would not give the heap room for [n] bytes more. *)
Definition refused (n : Z) (s : uspace) : Prop :=
  ∃ s1, ubrk s1 = ubrk s ∧ uframes s1 = uframes s ∧ sys_sbrk (PGROUNDUP (MALIGN (n + 16))) s1 = Some (SBRK_FAILED, s1).
Lemma m__malloc_spec g s n :
  ready g s → 0 ≤ n ≤ 2 ^ 61 →
  wp (m__malloc sys_sbrk n) (λ p s', (∃ g', ready g' s' ∧ same_payload g s s' ∧ allocated g n p g') ∧
    (p = 0 → MAXSMALL < n → refused n s)) s.
Proof.
  intros H Hn. unfold m__malloc. destruct (Z.eqb_spec n 0).
  { apply wp_ret. split; [exists g; split_and!; [done|by intros x|by left]|unfold MAXSMALL; lia]. }
  apply wp_bind. eapply wp_mono; [apply wp_stays; [apply m__heap_stays|by apply m__heap_ready]|].
  intros [] s0 [[H0 S0] B0]. destruct (Z.ltb_spec MAXSMALL n).
  - eapply wp_mono; [apply malloc_big; [exact H0|lia]|]. intros p s' [(g' & H' & S' & A') R].
    split; [exists g'; split_and!; [by left|by eapply same_payload_trans|done]|].
    intros Hp _. exists s0. split_and!; [apply B0..|auto].
  - eapply wp_mono; [apply (malloc_small g s0 n H0); lia|]. intros p s' (g' & H' & S' & A').
    split; [exists g'; split_and!; [by left|by eapply same_payload_trans|done]|lia].
Qed.

(** ** free *)

Lemma live_cases g p k :
  (p, k) ∈ live g ↔ (∃ z, g_big g !! (p - 16) = Some z ∧ k = z - 16) ∨
    (∃ r c fr, g_run g !! r = Some (c, fr) ∧ p ∈ run_slots r c ∧ (p ∉ fr) ∧ k = class_size c).
Proof.
  unfold live. rewrite elem_of_app. split.
  - intros [He|He].
    + apply list_elem_of_fmap in He as ([a z] & E & Hb). apply elem_of_map_to_list in Hb. simplify_eq/=.
      left. exists z. by replace (a + 16 - 16) with a by lia.
    + apply list_elem_of_bind in He as ([r [c fr]] & He & Hr). apply elem_of_map_to_list in Hr.
      apply list_elem_of_fmap in He as (q & E & [Hf Hp]%list_elem_of_filter). simplify_eq/=. right. by exists r, c, fr.
  - intros [(z & Hb & ->)|(r & c & fr & Hr & Hp & Hf & ->)]; [left|right].
    + apply list_elem_of_fmap. exists (p - 16, z). simpl. split; [f_equal; lia|]. by apply elem_of_map_to_list.
    + apply list_elem_of_bind. exists (r, (c, fr)). split; [|by apply elem_of_map_to_list].
      apply list_elem_of_fmap. exists p. split; [done|]. by apply list_elem_of_filter.
Qed.
Lemma m__free_spec g s p k :
  heap g s → (p, k) ∈ live g →
  wp (m__free sys_sbrk p) (λ _ s', ∃ g', heap g' s' ∧ live g ≡ₚ (p, k) :: live g' ∧ same_payload g' s s') s.
Proof.
  intros H [(z & Hb & ->)|(r & c & fr & Hr & Hp & Hf & ->)]%live_cases.
  - replace p with (p - 16 + 16) at 1 by lia. eapply wp_mono; [by apply (m__free_big _ [] g s (p - 16) z)|].
    intros [] s' [H' S']. exists (del_big g (p - 16)). split_and!; [done| |done].
    rewrite (live_del_big _ _ _ Hb). by replace (p - 16 + 16) with p by lia.
  - pose proof (run_class _ _ _ _ _ _ H Hr) as Hc. pose proof (rs_run _ _ (hp_rest _ _ _ H) _ _ _ Hr) as K.
    eapply wp_mono; [by apply (m__free_slot _ [] g s r c fr p)|]. intros [] s' [H' S'].
    exists (freed_slot g r c p fr). split_and!; [done| |done].
    rewrite (live_run _ _ _ Hr), (run_live_pop r c p fr) by done. unfold freed_slot.
    destruct (Z.eqb_spec (nslots c) (Z.of_nat (S (length fr)))) as [E|]; [|by rewrite live_set_run].
    rewrite run_live_none; [done|]. apply run_all_free; [done|apply list.NoDup_cons; split; [done|exact (rk_nodup _ _ _ _ K)]|..|done].
    intros q [->|Hq]%elem_of_cons; [done|]. by apply (rk_in _ _ _ _ K).
Qed.
Lemma usable_spec g s p k Q : heap g s → (p, k) ∈ live g → Q k s → wp (usable p) Q s.
Proof.
  intros H Hl HQ. destruct (hp_pool _ _ _ H) as [F P]. destruct (pl_brk _ _ _ P) as [_ ?].
  unfold usable. apply live_cases in Hl as [(z & Hb & ->)|(r & c & fr & Hr & Hp & Hf & ->)].
  - destruct (rs_big _ _ (hp_rest _ _ _ H) _ _ Hb) as [El Hz]. pose proof (big_owned [] g _ _ Hb) as Ho.
    destruct (piece_range _ _ _ P (p - 16, z)) as [? ?]; [apply elem_of_app; by right|].
    destruct (page_of_ok F ([] ++ owned g) s (p - 16, z) p P Ho) as (_ & _ & _ & Hi); [simpl in *; lia|]. simpl in *.
    apply wp_bind. eapply dir_entry_spec; [exact H|done|].
    rewrite (not_in_run [] g s (p - 16, z) p H); [|apply elem_of_map_to_list in Hb; simpl; elem|simpl; lia].
    cbn [Z.eqb]. rewrite MHDR_16. wp_steps. unfold b_size. rewrite El, u64_small by heap_lia. done.
  - destruct (in_run _ _ _ _ _ _ _ H Hr Hp) as (E1 & E2 & E3). pose proof (run_class _ _ _ _ _ _ H Hr) as Hc.
    apply wp_bind. rewrite E1. eapply dir_entry_spec; [exact H|done|]. rewrite E3.
    rewrite (proj2 (Z.eqb_neq (c + 1) 0)) by lia. wp_steps. by replace (c + 1 - 1) with c by lia.
Qed.

(** ** Held blocks do not overlap *)

Lemma cover_zero l x : (∀ e, e ∈ l → inside x e = false) → cover l x = 0.
Proof. induction l as [|e l IH]; intros He; [done|]. simpl. rewrite He, IH; [done|intros; apply He; elem|elem]. Qed.
Lemma cover_slots (l : list Z) sz page x :
  NoDup l → (∀ p q, p ∈ l → q ∈ l → p ≠ q → p + sz ≤ q ∨ q + sz ≤ p) →
  (∀ p, p ∈ l → page ≤ p ∧ p + sz ≤ page + PGSIZE) →
  cover ((λ p, (p, sz)) <$> l) x ≤ if inside x (page, PGSIZE) then 1 else 0.
Proof.
  induction l as [|p l IH]; intros N Hd Hr; [simpl; destruct (inside _ _); lia|]. apply list.NoDup_cons in N as [Hp N].
  rewrite fmap_cons. cbn [cover]. specialize (IH N ltac:(intros; apply Hd; elem) ltac:(intros; apply Hr; elem)).
  destruct (inside x (p, sz)) eqn:E; [|lia]. apply inside_spec in E. simpl in E.
  assert (inside x (page, PGSIZE) = true) as ->.
  { apply inside_spec. destruct (Hr p); [elem|]. simpl. lia. }
  rewrite cover_zero; [lia|].
  intros e (q & -> & Hq)%list_elem_of_fmap. apply not_true_is_false. intros E'%inside_spec.
  simpl in E'. destruct (Hd p q); [elem|elem| |lia|lia]. by intros ->.
Qed.
Lemma cover_payloads l x : cover ((λ e, (e.1 + 16, e.2 - 16)) <$> l) x ≤ cover l x.
Proof.
  induction l as [|[a z] l IH]; [done|]. rewrite fmap_cons. cbn [cover fst snd]. unfold inside. cbn [fst snd].
  destruct (Z.leb_spec (a + 16) x), (Z.ltb_spec x (a + 16 + (z - 16))), (Z.leb_spec a x), (Z.ltb_spec x (a + z)); simpl; lia.
Qed.
Lemma cover_runs m l x :
  (∀ r c fr, (r, (c, fr)) ∈ l → run_ok m r c fr) → cover (l ≫= run_live) x ≤ cover ((λ y, (y.1, PGSIZE)) <$> l) x.
Proof.
  induction l as [|[r [c fr]] l IH]; intros Hok; [done|]. rewrite fmap_cons, bind_cons, cover_app. cbn [cover].
  pose proof (IH ltac:(intros; apply Hok; elem)) as Hl.
  pose proof (Hok r c fr ltac:(elem)) as K. pose proof (rk_class _ _ _ _ K) as Hc.
  assert (cover (run_live (r, (c, fr))) x ≤ if inside x (r, PGSIZE) then 1 else 0) as Hs; [|cbn [fst]; lia].
  apply (cover_slots _ _ r); [apply NoDup_filter; by apply run_slots_NoDup|..].
  - intros p q [_ Hp]%list_elem_of_filter [_ Hq]%list_elem_of_filter. by apply (slot_apart r).
  - intros p [_ Hp]%list_elem_of_filter. pose proof (slot_range r c p Hc Hp). unfold MRUNHDR in *. cbn [fst snd]. lia.
Qed.
Lemma live_cover g s x : heap g s → 0 ≤ cover (live g) x ≤ if decide (heap_first ≤ x < ubrk s) then 1 else 0.
Proof.
  intros H. destruct (hp_pool _ _ _ H) as [F P]. split; [apply cover_nonneg|].
  assert (cover (live g) x ≤ cover (owned g) x) as Hle.
  { unfold live, owned, run_extents. rewrite !cover_app. pose proof (cover_nonneg (dir_extent (g_dir g)) x).
    pose proof (cover_payloads (map_to_list (g_big g)) x).
    assert (cover (map_to_list (g_run g) ≫= run_live) x ≤ cover ((λ y, (y.1, PGSIZE)) <$> map_to_list (g_run g)) x); [|lia].
    apply (cover_runs (um s)). intros r c fr Hr%elem_of_map_to_list. by apply (rs_run _ _ (hp_rest _ _ _ H)). }
  pose proof (pl_tiles _ _ _ P x). pose proof (cover_nonneg F x). simpl in *. lia.
Qed.
End ops.
