(* ===== verification/HeapUser.v ===== *)
(** * The heap as its users see it (malloc.h)

    [holds s l]: the heap is in order and the program holds the blocks [l],
    each with its address and what is known of its bytes.  The lemmas say
    what malloc, calloc, realloc and free do to [l]; [exec] runs a program
    of such calls and of stores into held blocks, and the theorems at the
    end are about every such program, from the first call on an untouched
    window on. *)
From stdpp Require Import base list numbers option gmap fin_maps.
From S2P Require Import Prelude Mem Riscv Heap HeapPool HeapAlloc HeapRuns HeapOps HeapMalloc HeapNew HeapTop.
Local Open Scope Z_scope.
Local Arguments load_le : simpl never.
Local Arguments store_le : simpl never.
Local Arguments m__malloc : simpl never.
Local Arguments m__free : simpl never.

(** An address and the bytes from there on; [None] is a byte nobody has
    written yet. *)
Abbreviation block := (Z * list (option Z))%type.
Definition extent_of (b : block) : extent := (b.1, Z.of_nat (length b.2)).
Definition content_ok (m : memory) (b : block) : Prop :=
  ∀ i v, b.2 !! i = Some (Some v) → rd8 m (b.1 + Z.of_nat i) = v.
(** The block [b] lies in the room [e] that the heap gave. *)
Definition fits (e : extent) (b : block) : Prop :=
  e.1 = b.1 ∧ 0 < Z.of_nat (length b.2) ≤ e.2 ∧ b.1 mod 16 = 0.
Definition holds (s : uspace) (l : list block) : Prop :=
  ∃ g la, ready g s ∧ load_le 4 (um s) h_lock = 0 ∧ live g ≡ₚ la ∧ Forall2 fits la l ∧ Forall (content_ok (um s)) l.

(** What that means for the program: its blocks are aligned, lie inside
    the mapped part of the window, do not overlap and keep their bytes. *)
Definition blocks_ok (s : uspace) (l : list block) : Prop :=
  (∀ b, b ∈ l → b.1 mod 16 = 0 ∧ UHEAP_BASE < b.1 ∧ b.1 + Z.of_nat (length b.2) ≤ ubrk s ∧ content_ok (um s) b) ∧
  (∀ i j b c, i ≠ j → l !! i = Some b → l !! j = Some c → apart (extent_of b) (extent_of c)).

(** ** From [holds] to blocks *)

Lemma cover_fits la l x : Forall2 fits la l → cover (extent_of <$> l) x ≤ cover la x.
Proof.
  induction 1 as [|e b la l (E & Hn & _) _ IH]; [done|]. rewrite fmap_cons. cbn [cover].
  destruct (inside x (extent_of b)) eqn:Hb; [|destruct (inside x e); lia].
  apply inside_spec in Hb. unfold extent_of in Hb. simpl in Hb.
  assert (inside x e = true) as -> by (apply inside_spec; lia). lia.
Qed.
Lemma cover_pair l i j e f x :
  i ≠ j → l !! i = Some e → l !! j = Some f → e.1 ≤ x < e.1 + e.2 → f.1 ≤ x < f.1 + f.2 → 2 ≤ cover l x.
Proof.
  intros Hne Hi Hj He Hf. pose proof (delete_Permutation _ _ _ Hi) as Hp. rewrite Hp. cbn [cover].
  rewrite (proj2 (inside_spec x e) He). cut (1 ≤ cover (delete i l) x); [lia|]. apply (cover_elem _ f); [|done].
  destruct (decide (j < i)%nat).
  - apply list_elem_of_lookup. exists j. by rewrite list_lookup_delete_lt.
  - apply list_elem_of_lookup. exists (j - 1)%nat. rewrite list_lookup_delete_ge by lia. by replace (S (j - 1)) with j by lia.
Qed.
Lemma live_fresh s g : ready g s → live g = [] ∨ heap g s.
Proof. intros [H|[_ ->]]; [by right|by left]. Qed.
Lemma holds_blocks s l : holds s l → blocks_ok s l.
Proof.
  intros (g & la & R & _ & Hl & Hf & Hc).
  assert (∀ x, cover (extent_of <$> l) x ≤ if decide (heap_first ≤ x < ubrk s) then 1 else 0) as Hx.
  { intros x. etransitivity; [by apply cover_fits|]. destruct (live_fresh _ _ R) as [E|H].
    - rewrite E in Hl. apply Permutation_nil_l in Hl as <-. simpl. destruct (decide _); lia.
    - rewrite <- Hl. eapply live_cover; [exact H]. }
  split.
  - intros b Hb. apply list_elem_of_lookup in Hb as [i Hi]. destruct (Forall2_lookup_r _ _ _ _ _ Hf Hi) as (e & _ & E & Hn & Ha).
    pose proof (proj1 (Forall_lookup _ _) Hc i b Hi) as Hcb. simpl in Hcb.
    assert (∀ x, b.1 ≤ x < b.1 + Z.of_nat (length b.2) → heap_first ≤ x < ubrk s) as Hin.
    { intros x Hr. pose proof (Hx x). pose proof (cover_elem (extent_of <$> l) (extent_of b) x) as Hcv.
      destruct (decide _); [done|]. exfalso.
      assert (extent_of b ∈ extent_of <$> l) as Hm by (apply list_elem_of_fmap; exists b; split; [done|by eapply list_elem_of_lookup_2]).
      specialize (Hcv Hm Hr). lia. }
    pose proof (Hin b.1). pose proof (Hin (b.1 + Z.of_nat (length b.2) - 1)). split_and!; [done|heap_lia|lia|done].
  - intros i j b c Hne Hi Hj. unfold apart.
    destruct (Forall2_lookup_r _ _ _ _ _ Hf Hi) as (e & _ & _ & Hn & _), (Forall2_lookup_r _ _ _ _ _ Hf Hj) as (f & _ & _ & Hn' & _).
    unfold extent_of. cbn [fst snd].
    destruct (decide (b.1 + Z.of_nat (length b.2) ≤ c.1)); [by left|].
    destruct (decide (c.1 + Z.of_nat (length c.2) ≤ b.1)); [by right|]. exfalso.
    pose proof (cover_pair (extent_of <$> l) i j (extent_of b) (extent_of c) (Z.max b.1 c.1) Hne) as H2.
    rewrite !list_lookup_fmap, Hi, Hj in H2. unfold extent_of in H2. cbn [fst snd] in H2.
    specialize (H2 eq_refl eq_refl ltac:(lia) ltac:(lia)). pose proof (Hx (Z.max b.1 c.1)) as H3. unfold extent_of in H3. destruct (decide _); lia.
Qed.

(** ** The lock *)

Section ops.
Context (sys_sbrk : Z → prog uspace Z) `{!SbrkLaws sys_sbrk}.

Definition off_lock (s s' : uspace) : Prop :=
  ubrk s' = ubrk s ∧ uframes s' = uframes s ∧ ∀ x, ¬ (h_lock ≤ x < h_lock + 4) → rd8 (um s') x = rd8 (um s) x.
Lemma ready_brk g s : ready g s → UHEAP_BASE + PGSIZE ≤ ubrk s.
Proof.
  intros [H|[[-> _] _]]; [|lia]. destruct (hp_pool _ _ _ H) as [F P]. destruct (pl_brk _ _ _ P) as [_ ?]. lia.
Qed.
Lemma ready_off_lock g s s' : ready g s → off_lock s s' → ready g s'.
Proof.
  intros R (Eb & Ef & Ex). destruct R as [H|[[H1 H2] ->]].
  - left. replace s' with (set_um s (um s')) by (unfold set_um; rewrite <- Eb, <- Ef; by destruct s').
    by apply heap_lock.
  - right. split; [split; [by rewrite Eb|]|done]. rewrite (load_le_ext 8 (um s') (um s)); [done|].
    intros x Hx. apply Ex. heap_lia.
Qed.
Lemma off_lock_payload g s s' : ready g s → off_lock s s' → same_payload g s s'.
Proof.
  intros R (_ & _ & Ex) x Hx. apply Ex. destruct R as [H|[_ ->]].
  - pose proof (payload_first _ _ _ H x Hx). heap_lia.
  - exfalso. apply payload_live in Hx as (e & He & _). by apply not_elem_of_nil in He.
Qed.
Lemma st_lock_spec g v s :
  ready g s → 0 ≤ v < 2 ^ 32 → wp (st 4 h_lock v) (λ _ s', off_lock s s' ∧ load_le 4 (um s') h_lock = v) s.
Proof.
  intros R Hv. pose proof (ready_brk _ _ R). apply wp_st; [heap_lia|heap_lia|]. split.
  - split_and!; [done|done|]. intros x Hx. simpl. apply rd8_store_le. heap_lia.
  - simpl. rewrite load_store_le. rewrite Z.mod_small; [done|simpl; lia].
Qed.
(** A body run under the lock. *)
Lemma wp_locked {A} (f : prog uspace A) g s (Q : A → uspace → Prop) :
  ready g s → load_le 4 (um s) h_lock = 0 →
  (∀ s1, off_lock s s1 → ready g s1 → same_payload g s s1 →
     wp f (λ a s2, ∃ g', ready g' s2 ∧
       ∀ s3, off_lock s2 s3 → ready g' s3 → same_payload g' s2 s3 → load_le 4 (um s3) h_lock = 0 → Q a s3) s1) →
  wp (let* _ := m__lock in let* a := f in let* _ := m__unlock in pret a) Q s.
Proof.
  intros R Hl Hf. apply wp_bind. unfold m__lock. pose proof (ready_brk _ _ R).
  apply wp_bind. apply wp_ld; [heap_lia|heap_lia|]. rewrite Hl. cbn [Z.eqb]. apply wp_bind.
  eapply wp_mono; [apply (st_lock_spec g 1 s R); lia|]. intros [] s1 [O1 _]. apply wp_ret. apply wp_bind.
  eapply wp_mono; [apply Hf; [done|by eapply ready_off_lock|by apply off_lock_payload]|].
  intros a s2 (g' & R' & HQ). apply wp_bind. unfold m__unlock.
  eapply wp_mono; [apply (st_lock_spec g' 0 s2 R'); lia|]. intros [] s3 [O3 E3]. apply wp_ret.
  apply HQ; [done|by eapply ready_off_lock|by apply off_lock_payload|done].
Qed.

(** ** The operations *)

Lemma content_kept g la l s s' :
  live g ≡ₚ la → Forall2 fits la l → same_payload g s s' → Forall (content_ok (um s)) l → Forall (content_ok (um s')) l.
Proof.
  intros Hl Hf Hs Hc. apply Forall_lookup. intros i b Hi j v Hv.
  rewrite <- (proj1 (Forall_lookup _ _) Hc i b Hi j v Hv). apply Hs, payload_live.
  destruct (Forall2_lookup_r _ _ _ _ _ Hf Hi) as (e & He & E & Hn & _). exists e.
  split; [rewrite Hl; by eapply list_elem_of_lookup_2|]. apply lookup_lt_Some in Hv. lia.
Qed.
Lemma content_unknown m p n : content_ok m (p, replicate n None).
Proof. intros i v [Hv _]%lookup_replicate. done. Qed.

Definition bytes (n : Z) : list (option Z) := replicate (Z.to_nat n) None.

Lemma malloc_holds s l n :
  holds s l → 0 ≤ n ≤ 2 ^ 61 →
  wp (malloc sys_sbrk n) (λ p s', (p = 0 ∧ holds s' l ∧ (MAXSMALL < n → refused sys_sbrk n s)) ∨
    (p ≠ 0 ∧ 0 < n ∧ holds s' ((p, bytes n) :: l))) s.
Proof.
  intros (g & la & R & Hk & Hl & Hf & Hc) Hn. unfold malloc. apply (wp_locked _ g); [done..|].
  intros s1 (B1 & B1' & _) R1 S1. destruct (Z.eq_dec n 0) as [->|Hn0].
  { apply wp_ret. exists g. split; [done|]. intros s3 _ R3 S3 K3. left. split_and!; [done| |unfold MAXSMALL; lia].
    exists g, la. split_and!; [done..|]. by do 2 (eapply (content_kept g la); [done|done|done|]). }
  eapply wp_mono; [by apply m__malloc_spec|]. intros p s2 [(g' & R2 & S2 & A2) Hr].
  exists g'. split; [done|]. intros s3 _ R3 S3 K3. destruct A2 as [[-> E]|(Hp & Ha & k & Hk' & E)].
  - left. split_and!; [done| |].
    + exists g', la. split_and!; [done|done|by rewrite E|done|].
      eapply (content_kept g la); [exact Hl|done|eapply same_payload_live; [|exact S3]; by symmetry|].
      by do 2 (eapply (content_kept g la); [done|done|done|]).
    + intros Hm. destruct (Hr eq_refl Hm) as (s0 & E1 & E2 & E3). exists s0. split_and!; [congruence..|done].
  - right. split_and!; [done|lia|]. exists g', ((p, k) :: la). split_and!; [done|done|by rewrite E, Hl|..].
    + constructor; [|done]. split; [done|split; [|done]]. unfold bytes. simpl. rewrite length_replicate. lia.
    + constructor; [apply content_unknown|].
      assert (same_payload g s2 s3) as S3'.
      { intros x Hx. apply S3, payload_live. apply payload_live in Hx as (e & He & ?). exists e. split; [rewrite E; elem|done]. }
      by do 3 (eapply (content_kept g la); [done|done|done|]).
Qed.

Lemma wp_free p Q s :
  wp (let* _ := m__lock in let* a := m__free sys_sbrk p in let* _ := m__unlock in pret a) Q s → wp (free sys_sbrk p) Q s.
Proof.
  intros H. unfold free. apply wp_unbind in H. apply wp_bind. eapply wp_mono; [exact H|]. intros [] s1 H1.
  apply wp_unbind in H1. apply wp_bind. eapply wp_mono; [exact H1|]. intros [] s2 H2.
  apply wp_unbind in H2. eapply wp_mono; [exact H2|]. intros [] s3 H3. exact H3.
Qed.
Lemma free_null s l : holds s l → wp (free sys_sbrk 0) (λ _ s', holds s' l) s.
Proof.
  intros (g & la & R & Hk & Hl & Hf & Hc). apply wp_free, (wp_locked _ g); [done..|].
  intros s1 _ R1 S1. apply wp_ret. exists g. split; [done|]. intros s3 _ R3 S3 K3.
  exists g, la. split_and!; [done..|]. by do 2 (eapply (content_kept g la); [done|done|done|]).
Qed.
(** A block that is held is held by a heap in order. *)
Lemma held_block g la l s i b :
  ready g s → live g ≡ₚ la → Forall2 fits la l → l !! i = Some b →
  heap g s ∧ ∃ k, la !! i = Some (b.1, k) ∧ (b.1, k) ∈ live g ∧ 0 < Z.of_nat (length b.2) ≤ k ∧ b.1 mod 16 = 0.
Proof.
  intros R Hl Hf Hi. destruct (Forall2_lookup_r _ _ _ _ _ Hf Hi) as ([p k] & He & E & Hn & Ha). simpl in *. subst p.
  assert ((b.1, k) ∈ live g) as Hin by (rewrite Hl; by eapply list_elem_of_lookup_2).
  split; [|by exists k]. destruct R as [H|[_ ->]]; [done|]. by apply not_elem_of_nil in Hin.
Qed.
Lemma live_delete g' g la i e :
  live g ≡ₚ la → la !! i = Some e → live g ≡ₚ e :: live g' → live g' ≡ₚ delete i la.
Proof. intros Hl Hi E. apply (Permutation_cons_inv (a := e)). rewrite <- E, Hl. by apply delete_Permutation. Qed.
Lemma m__free_holds g la l s1 i b :
  ready g s1 → live g ≡ₚ la → Forall2 fits la l → Forall (content_ok (um s1)) l → l !! i = Some b →
  wp (m__free sys_sbrk b.1) (λ _ s2, ∃ g', ready g' s2 ∧ live g' ≡ₚ delete i la ∧ Forall (content_ok (um s2)) (delete i l)) s1.
Proof.
  intros R Hl Hf Hc Hi. destruct (held_block _ _ _ _ _ _ R Hl Hf Hi) as (H & k & Hk & Hin & Hn & Ha).
  eapply wp_mono; [by apply (m__free_spec _ g s1 b.1 k)|]. intros [] s2 (g' & H' & E & S2).
  pose proof (live_delete _ _ _ _ _ Hl Hk E) as Hl'. exists g'. split_and!; [by left|done|].
  eapply content_kept; [exact Hl'|by apply Forall2_delete|exact S2|by apply Forall_delete].
Qed.
Lemma free_holds s l i b :
  holds s l → l !! i = Some b → wp (free sys_sbrk b.1) (λ _ s', holds s' (delete i l)) s.
Proof.
  intros (g & la & R & Hk & Hl & Hf & Hc) Hi. apply wp_free, (wp_locked _ g); [done..|].
  intros s1 _ R1 S1. eapply wp_mono; [eapply m__free_holds; [exact R1|exact Hl|exact Hf| |exact Hi]|].
  - by eapply (content_kept g la).
  - intros [] s2 (g' & R2 & Hl2 & Hc2). exists g'. split; [done|]. intros s3 _ R3 S3 K3.
    exists g', (delete i la). split_and!; [done..|by apply Forall2_delete|].
    eapply content_kept; [exact Hl2|by apply Forall2_delete|exact S3|done].
Qed.

(** ** Copying and clearing *)

Lemma m__copy_spec n d a s :
  UHEAP_BASE ≤ d → d + Z.of_nat n ≤ ubrk s → UHEAP_BASE ≤ a → a + Z.of_nat n ≤ ubrk s →
  d + Z.of_nat n ≤ a ∨ a + Z.of_nat n ≤ d →
  wp (m__copy d a n) (λ _ s', ∃ m', s' = set_um s m' ∧
    (∀ i, 0 ≤ i < Z.of_nat n → rd8 m' (d + i) = rd8 (um s) (a + i)) ∧
    ∀ x, ¬ (d ≤ x < d + Z.of_nat n) → rd8 m' x = rd8 (um s) x) s.
Proof.
  revert d a s. induction n as [|n IH]; intros d a s H1 H2 H3 H4 H5.
  { apply wp_ret. exists (um s). split; [by destruct s|]. split; [lia|done]. }
  cbn [m__copy]. wp_steps. eapply wp_mono; [apply (IH (d + 1) (a + 1)); simpl; lia|].
  intros [] s' (m' & -> & Hc & Ho). exists m'. split; [done|]. cbn [um set_um] in *. split.
  - intros i Hi. destruct (Z.eq_dec i 0) as [->|].
    + rewrite !Z.add_0_r, Ho, load_1 by lia. rewrite <- load_1, load_store_le.
      rewrite Z.mod_small; [done|]. pose proof (rd8_range (um s) a). simpl. lia.
    + replace (d + i) with (d + 1 + (i - 1)) by lia. rewrite Hc by lia. rewrite rd8_store_le by lia. f_equal. lia.
  - intros x Hx. rewrite Ho by lia. apply rd8_store_le. lia.
Qed.
Lemma m__zero_spec n d s :
  UHEAP_BASE ≤ d → d + Z.of_nat n ≤ ubrk s →
  wp (m__zero d n) (λ _ s', ∃ m', s' = set_um s m' ∧
    (∀ x, d ≤ x < d + Z.of_nat n → rd8 m' x = 0) ∧ ∀ x, ¬ (d ≤ x < d + Z.of_nat n) → rd8 m' x = rd8 (um s) x) s.
Proof.
  revert d s. induction n as [|n IH]; intros d s H1 H2.
  { apply wp_ret. exists (um s). split; [by destruct s|]. split; [lia|done]. }
  cbn [m__zero]. wp_steps. eapply wp_mono; [apply (IH (d + 1)); simpl; lia|].
  intros [] s' (m' & -> & Hc & Ho). exists m'. split; [done|]. cbn [um set_um] in *. split.
  - intros x Hx. destruct (Z.eq_dec x d) as [->|]; [|apply Hc; lia].
    rewrite Ho by lia. rewrite <- load_1, load_store_le. done.
  - intros x Hx. rewrite Ho by lia. apply rd8_store_le. lia.
Qed.

(** The program, or the allocator for it, writes into one held block. *)
Lemma holds_write s l i b bs m' :
  holds s l → l !! i = Some b → length bs = length b.2 →
  (∀ x, ¬ (b.1 ≤ x < b.1 + Z.of_nat (length b.2)) → rd8 m' x = rd8 (um s) x) → content_ok m' (b.1, bs) →
  holds (set_um s m') (<[i := (b.1, bs)]> l).
Proof.
  intros Hh Hi El Hx Hb. destruct (holds_blocks _ _ Hh) as [Hin Hap]. destruct Hh as (g & la & R & Hk & Hl & Hf & Hc).
  destruct (held_block _ _ _ _ _ _ R Hl Hf Hi) as (H & k & Hk' & Hlv & Hn & Ha).
  destruct (Hin b) as (_ & Hlo & _); [by eapply list_elem_of_lookup_2|].
  assert (heap_first ≤ b.1) as Hfst.
  { eapply payload_first; [exact H|]. apply payload_live. exists (b.1, k). split; [done|simpl; lia]. }
  exists g, la. split_and!.
  - left. apply heap_poke; [done|]. intros x Hp. apply Hx. intros Hr. apply Hp, payload_live. exists (b.1, k).
    split; [done|]. simpl. lia.
  - simpl. rewrite <- Hk. apply load_le_ext. intros x Hr. apply Hx. heap_lia.
  - done.
  - rewrite <- (list_insert_id la i (b.1, k) Hk'). apply Forall2_insert; [done|]. split; [done|split; [simpl; lia|done]].
  - apply Forall_lookup. intros j c Hj. destruct (decide (i = j)) as [<-|Hne].
    + rewrite list_lookup_insert_eq in Hj by (by eapply lookup_lt_Some). by simplify_eq.
    + rewrite list_lookup_insert_ne in Hj by done. intros o v Hv. simpl. rewrite Hx.
      * by eapply (proj1 (Forall_lookup _ _) Hc).
      * apply lookup_lt_Some in Hv. destruct (Hap i j b c Hne Hi Hj); unfold extent_of in *; simpl in *; lia.
Qed.

(** ** realloc *)

Lemma insert_perm {T} (l : list T) i x : is_Some (l !! i) → <[i := x]> l ≡ₚ x :: delete i l.
Proof.
  revert i. induction l as [|y l IH]; intros [|i] [z Hz]; simplify_eq/=; [done|].
  rewrite IH by (by eexists). constructor.
Qed.
Definition resized (n : Z) (b : block) : list (option Z) := resize (Z.to_nat n) None b.2.
Lemma lookup_resized n b j v : resized n b !! j = Some (Some v) → b.2 !! j = Some (Some v).
Proof.
  unfold resized. destruct (decide (j < Z.to_nat n)%nat); [|by rewrite lookup_resize_old by lia].
  destruct (decide (j < length b.2)%nat); [by rewrite lookup_resize|by rewrite lookup_resize_new by lia].
Qed.
Lemma content_resized m n b : content_ok m b → content_ok m (b.1, resized n b).
Proof. intros Hc j v Hv%lookup_resized. by apply Hc. Qed.
(** What [realloc] leaves: [la] is the room given, [l] the blocks. *)
Definition resettled (g : ghost) (la : list extent) (l : list block) (i : nat) (b : block) (n q : Z) (s' : uspace) : Prop :=
  ∃ g' k, ready g' s' ∧ n ≤ k ∧ q ≠ 0 ∧ q mod 16 = 0 ∧ live g' ≡ₚ <[i := (q, k)]> la ∧
    Forall (content_ok (um s')) (<[i := (q, resized n b)]> l).
Section grown.
Context (g : ghost) (la : list extent) (l : list block) (i : nat) (b : block).
Context (Hl : live g ≡ₚ la) (Hf : Forall2 fits la l) (Hi : l !! i = Some b).

(** The new block is apart from every old one. *)
Lemma new_block_apart g2 q k2 s x : heap g2 s → live g2 ≡ₚ (q, k2) :: live g → payload g x → ¬ (q ≤ x < q + k2).
Proof.
  intros H E (e & He & Hx)%payload_live Hq. pose proof (live_cover g2 s x H) as Hc. rewrite E in Hc. cbn [cover] in Hc.
  rewrite (proj2 (inside_spec x (q, k2)) Hq) in Hc. pose proof (cover_elem _ _ _ He Hx). destruct (decide _); lia.
Qed.
Lemma move_block g2 q k k2 n s :
  heap g2 s → live g2 ≡ₚ (q, k2) :: live g → la !! i = Some (b.1, k) → q ≠ 0 → q mod 16 = 0 → k < n → n ≤ k2 →
  0 < Z.of_nat (length b.2) ≤ k → Forall (content_ok (um s)) l →
  wp (let* _ := m__copy q b.1 (Z.to_nat k) in let* _ := m__free sys_sbrk b.1 in pret q)
    (λ r s', r = q ∧ resettled g la l i b n q s') s.
Proof.
  intros H E Hk Hq Ha Hkn Hnk Hn Hc.
  assert ((b.1, k) ∈ live g) as Hin by (rewrite Hl; by eapply list_elem_of_lookup_2).
  assert (∀ e x, e ∈ live g2 → e.1 ≤ x < e.1 + e.2 → heap_first ≤ x < ubrk s) as Hwin.
  { intros e x He Hx. pose proof (live_cover g2 s x H). pose proof (cover_elem _ _ _ He Hx). destruct (decide _); lia. }
  assert (∀ x, q ≤ x < q + k2 → heap_first ≤ x < ubrk s) as Hwq by (intros x; apply (Hwin (q, k2)); rewrite E; elem).
  assert (∀ x, b.1 ≤ x < b.1 + k → heap_first ≤ x < ubrk s) as Hwb by (intros x; apply (Hwin (b.1, k)); rewrite E; elem).
  assert (∀ x, b.1 ≤ x < b.1 + k → ¬ (q ≤ x < q + k2)) as Hap.
  { intros x Hx. eapply (new_block_apart g2); [done..|]. apply payload_live. by exists (b.1, k). }
  pose proof (Hwq q). pose proof (Hwq (q + k2 - 1)). pose proof (Hwb b.1). pose proof (Hwb (b.1 + k - 1)).
  pose proof (Hap b.1). pose proof (Hap q). apply wp_bind.
  eapply wp_mono; [apply (m__copy_spec (Z.to_nat k) q b.1 s); heap_lia|]. intros [] s3 (m3 & -> & Hcp & Ho).
  assert (heap g2 (set_um s m3)) as Hh3.
  { apply heap_poke; [done|]. intros x Hx. apply Ho. intros ?. apply Hx, payload_live. exists (q, k2).
    split; [rewrite E; elem|simpl; lia]. }
  assert (same_payload g s (set_um s m3)) as S3.
  { intros x Hx. apply Ho. pose proof (new_block_apart g2 q k2 s x H E Hx). lia. }
  apply wp_bind. eapply wp_mono; [apply (m__free_spec _ g2 _ b.1 k Hh3); rewrite E; elem|].
  intros [] s4 (g4 & Hh4 & E4 & S4). apply wp_ret. split; [done|]. exists g4, k2.
  assert (live g4 ≡ₚ <[i := (q, k2)]> la) as Hl4.
  { apply (Permutation_cons_inv (a := (b.1, k))). rewrite <- E4, E, insert_perm, Hl by (by eexists).
    rewrite (delete_Permutation _ _ _ Hk) at 1. apply Permutation_swap. }
  split_and!; [by left|done..|].
  eapply content_kept; [exact Hl4| |exact S4|].
  - apply Forall2_insert; [done|]. split; [done|]. split; [|done]. simpl. unfold resized. rewrite length_resize. lia.
  - apply Forall_insert; [by eapply (content_kept g la)|]. intros j v Hv. simpl in *.
    apply lookup_resized in Hv as Hb.
    rewrite Hcp by (apply lookup_lt_Some in Hb; lia).
    exact (proj1 (Forall_lookup _ _) Hc i b Hi j v Hb).
Qed.
Lemma m__realloc_spec s n :
  ready g s → Forall (content_ok (um s)) l → 0 < n ≤ 2 ^ 61 →
  wp (m__realloc sys_sbrk b.1 n) (λ q s', (q = 0 ∧ ∃ g', ready g' s' ∧ live g' ≡ₚ la ∧ Forall (content_ok (um s')) l) ∨
    resettled g la l i b n q s') s.
Proof.
  intros R Hc Hn. destruct (held_block _ _ _ _ _ _ R Hl Hf Hi) as (H & k & Hk & Hin & Hlen & Ha).
  pose proof (live_cover g s b.1 H) as Hcv. pose proof (cover_elem _ (b.1, k) b.1 Hin ltac:(simpl; lia)) as Hce.
  assert (b.1 ≠ 0) as Hb0 by (destruct (decide _); heap_lia). clear Hcv Hce.
  unfold m__realloc. rewrite (proj2 (Z.eqb_neq b.1 0)), (proj2 (Z.eqb_neq n 0)) by lia.
  apply wp_bind. eapply m__heap_spec; [exact H|]. apply wp_bind. eapply usable_spec; [exact H|exact Hin|].
  destruct (Z.leb_spec n k).
  { apply wp_ret. right. exists g, k. split_and!; [done..| |].
    - rewrite list_insert_id by done. done.
    - apply Forall_insert; [done|]. apply content_resized. exact (proj1 (Forall_lookup _ _) Hc i b Hi). }
  apply wp_bind. eapply wp_mono; [apply (m__malloc_spec _ g s n); [done|lia]|].
  intros q s2 [(g2 & R2 & S2 & A2) _]. destruct A2 as [[-> E]|(Hq & Hqa & k2 & Hk2 & E)].
  - cbn [Z.eqb]. apply wp_ret. left. split; [done|]. exists g2. split_and!; [done|by rewrite E|by eapply (content_kept g la)].
  - rewrite (proj2 (Z.eqb_neq q 0) Hq). eapply wp_mono; [eapply (move_block g2 q k k2 n s2)|]; try done.
    + destruct (live_fresh _ _ R2) as [E0|]; [|done]. rewrite E0 in E. by apply Permutation_nil_cons in E.
    + by eapply (content_kept g la).
    + intros r s' [-> Hr]. by right.
Qed.
End grown.
Lemma realloc_holds s l i b n :
  holds s l → l !! i = Some b → 0 < n ≤ 2 ^ 61 →
  wp (realloc sys_sbrk b.1 n) (λ q s', (q = 0 ∧ holds s' l) ∨ (q ≠ 0 ∧ holds s' (<[i := (q, resized n b)]> l))) s.
Proof.
  intros (g & la & R & Hk & Hl & Hf & Hc) Hi Hn. unfold realloc. apply (wp_locked _ g); [done..|].
  intros s1 _ R1 S1. eapply wp_mono; [eapply m__realloc_spec; [exact Hl|exact Hf|exact Hi|exact R1| |exact Hn]|].
  { by eapply (content_kept g la). }
  intros q s2 [(-> & g' & R2 & Hl2 & Hc2)|(g' & k & R2 & Hnk & Hq & Ha & Hl2 & Hc2)]; exists g'; (split; [done|]);
    intros s3 _ R3 S3 K3.
  - left. split; [done|]. exists g', la. split_and!; [done..|]. by eapply (content_kept g' la).
  - assert (Forall2 fits (<[i := (q, k)]> la) (<[i := (q, resized n b)]> l)) as Hf2.
    { apply Forall2_insert; [done|]. split; [done|]. split; [|done]. simpl. unfold resized. rewrite length_resize. lia. }
    right. split; [done|]. exists g', (<[i := (q, k)]> la). split_and!; [done..|]. by eapply content_kept.
Qed.
(** A size of nothing frees, a null pointer allocates. *)
Lemma realloc_zero s l i b :
  holds s l → l !! i = Some b → wp (realloc sys_sbrk b.1 0) (λ q s', q = 0 ∧ holds s' (delete i l)) s.
Proof.
  intros Hh Hi. destruct (holds_blocks _ _ Hh) as [Hb _].
  destruct (Hb b) as (_ & Hlo & _); [by eapply list_elem_of_lookup_2|].
  pose proof (free_holds s l i b Hh Hi) as Hw. unfold realloc, m__realloc, free in *.
  rewrite (proj2 (Z.eqb_neq b.1 0)) by heap_lia. cbn [Z.eqb].
  apply wp_unbind in Hw. apply wp_bind. eapply wp_mono; [exact Hw|]. intros [] s1 Hh1.
  apply wp_unbind in Hh1. do 2 apply wp_bind. eapply wp_mono; [exact Hh1|]. intros [] s2 Hh2.
  apply wp_ret, wp_bind. eapply wp_mono; [exact Hh2|]. intros [] s3 Hh3. by apply wp_ret.
Qed.
Lemma realloc_null n : realloc sys_sbrk 0 n = malloc sys_sbrk n.
Proof. done. Qed.

(** ** calloc *)

Lemma calloc_holds s l n sz :
  holds s l → 0 ≤ n < 2 ^ 64 → 0 ≤ sz < 2 ^ 64 → n * sz ≤ 2 ^ 61 ∨ 2 ^ 64 ≤ n * sz →
  wp (calloc sys_sbrk n sz) (λ p s', (p = 0 ∧ holds s' l) ∨
    (p ≠ 0 ∧ n * sz ≤ 2 ^ 61 ∧ holds s' ((p, replicate (Z.to_nat (n * sz)) (Some 0)) :: l))) s.
Proof.
  intros Hh Hn Hz Hb. unfold calloc. destruct Hb as [Hb|Hb].
  - rewrite (u64_small (n * sz)) by nia.
    assert (negb (n =? 0) && negb (n * sz / n =? sz) = false) as ->.
    { destruct (Z.eqb_spec n 0); [done|]. rewrite Z.mul_comm, Z.div_mul by done. by rewrite Z.eqb_refl. }
    apply wp_bind. eapply wp_mono; [apply (malloc_holds s l (n * sz)); [done|nia]|].
    intros p s1 [(-> & Hh1 & _)|(Hp & Hpos & Hh1)]; apply wp_bind; [cbn [Z.eqb]; apply wp_ret, wp_ret; by left|].
    rewrite (proj2 (Z.eqb_neq p 0) Hp). destruct (holds_blocks _ _ Hh1) as [Hw _].
    destruct (Hw (p, bytes (n * sz))) as (_ & Hlo & Hhi & _); [elem|]. unfold bytes in *. simpl in Hlo, Hhi.
    rewrite length_replicate in Hhi.
    eapply wp_mono; [apply (m__zero_spec (Z.to_nat (n * sz)) p s1); lia|]. intros [] s2 (m2 & -> & Hz2 & Ho2).
    apply wp_ret. right. split_and!; [done|done|].
    eapply (holds_write s1 _ 0 _ _ m2 Hh1 eq_refl); simpl; rewrite ?length_replicate; [done|done|].
    intros j v [Hv Hj]%lookup_replicate. simplify_eq. apply Hz2. simpl. lia.
  - assert (negb (n =? 0) && negb (u64 (n * sz) / n =? sz) = true) as ->; [|apply wp_ret; by left].
    destruct (Z.eqb_spec n 0) as [->|]; [lia|]. apply negb_true_iff, Z.eqb_neq. intros E.
    pose proof (u64_range (n * sz)). unfold u64 in *.
    assert (n * sz ≤ (n * sz) mod 2 ^ 64); [rewrite <- E at 1; apply Z.mul_div_le; lia|lia].
Qed.

(** ** Programs *)

(** A call, or a store into a held block; blocks are named by their place
    in the list of those held. *)
Inductive call :=
  | Malloc (n : Z)
  | Calloc (n sz : Z)
  | Realloc (i : nat) (n : Z)
  | Free (i : nat)
  | Store (i : nat) (off : nat) (v : Z).
Definition call_ok (c : call) : Prop :=
  match c with
  | Malloc n | Realloc _ n => 0 ≤ n ≤ 2 ^ 61
  | Calloc n sz => 0 ≤ n < 2 ^ 64 ∧ 0 ≤ sz < 2 ^ 64 ∧ (n * sz ≤ 2 ^ 61 ∨ 2 ^ 64 ≤ n * sz)
  | Free _ | Store _ _ _ => True
  end.
(** Run it; [None] is a fault or a loop without end. *)
Definition exec_call (c : call) (s : uspace) (l : list block) : option (uspace * list block) :=
  match c with
  | Malloc n =>
      '(p, s') ← malloc sys_sbrk n s; Some (s', if p =? 0 then l else (p, bytes n) :: l)
  | Calloc n sz =>
      '(p, s') ← calloc sys_sbrk n sz s;
      Some (s', if p =? 0 then l else (p, replicate (Z.to_nat (n * sz)) (Some 0)) :: l)
  | Realloc i n =>
      match l !! i with
      | None => Some (s, l)
      | Some b =>
          '(q, s') ← realloc sys_sbrk b.1 n s;
          Some (s', if n =? 0 then delete i l else if q =? 0 then l else <[i := (q, resized n b)]> l)
      end
  | Free i =>
      match l !! i with
      | None => Some (s, l)
      | Some b => '(_, s') ← free sys_sbrk b.1 s; Some (s', delete i l)
      end
  | Store i off v =>
      match l !! i with
      | None => Some (s, l)
      | Some b =>
          if (off <? length b.2)%nat then
            '(_, s') ← st 1 (b.1 + Z.of_nat off) v s; Some (s', <[i := (b.1, <[off := Some (u8 v)]> b.2)]> l)
          else Some (s, l)
      end
  end.
Fixpoint exec (cs : list call) (s : uspace) (l : list block) : option (uspace * list block) :=
  match cs with
  | [] => Some (s, l)
  | c :: cs' => '(s', l') ← exec_call c s l; exec cs' s' l'
  end.

Lemma store_holds s l i b off v :
  holds s l → l !! i = Some b → (off < length b.2)%nat →
  wp (st 1 (b.1 + Z.of_nat off) v) (λ _ s', holds s' (<[i := (b.1, <[off := Some (u8 v)]> b.2)]> l)) s.
Proof.
  intros Hh Hi Ho. destruct (holds_blocks _ _ Hh) as [Hw _].
  destruct (Hw b) as (_ & Hlo & Hhi & Hc); [by eapply list_elem_of_lookup_2|]. apply wp_st; [lia|lia|].
  eapply (holds_write s l i b); [done|done|apply length_insert|..].
  - intros x Hx. apply rd8_store_le. simpl. lia.
  - intros j w Hj. simpl in *. destruct (decide (j = off)) as [->|Hne].
    + rewrite list_lookup_insert_eq in Hj by done. simplify_eq. rewrite <- load_1, load_store_le. done.
    + rewrite list_lookup_insert_ne in Hj by done. rewrite rd8_store_le by (simpl; lia). by apply Hc.
Qed.
Lemma exec_call_holds c s l :
  holds s l → call_ok c → ∃ s' l', exec_call c s l = Some (s', l') ∧ holds s' l'.
Proof.
  intros Hh Hc. destruct c as [n|n sz|i n|i|i off v]; simpl in Hc |- *.
  - destruct (wp_run _ _ _ (malloc_holds s l n Hh Hc)) as (p & s' & -> & Hp). simpl. do 2 eexists. split; [done|].
    destruct Hp as [(-> & H' & _)|(Hp & _ & H')]; [done|]. by rewrite (proj2 (Z.eqb_neq p 0) Hp).
  - destruct Hc as (H1 & H2 & H3). destruct (wp_run _ _ _ (calloc_holds s l n sz Hh H1 H2 H3)) as (p & s' & -> & Hp).
    simpl. do 2 eexists. split; [done|].
    destruct Hp as [(-> & H')|(Hp & _ & H')]; [done|]. by rewrite (proj2 (Z.eqb_neq p 0) Hp).
  - destruct (l !! i) as [b|] eqn:Hi; [|by exists s, l]. destruct (Z.eqb_spec n 0) as [->|].
    + destruct (wp_run _ _ _ (realloc_zero s l i b Hh Hi)) as (q & s' & -> & _ & H'). by exists s', (delete i l).
    + destruct (wp_run _ _ _ (realloc_holds s l i b n Hh Hi ltac:(lia))) as (q & s' & -> & Hq). simpl.
      do 2 eexists. split; [done|]. destruct Hq as [(-> & H')|(Hq & H')]; [done|]. by rewrite (proj2 (Z.eqb_neq q 0) Hq).
  - destruct (l !! i) as [b|] eqn:Hi; [|by exists s, l].
    destruct (wp_run _ _ _ (free_holds s l i b Hh Hi)) as ([] & s' & -> & H'). by exists s', (delete i l).
  - destruct (l !! i) as [b|] eqn:Hi; [|by exists s, l]. destruct (Nat.ltb_spec off (length b.2)); [|by exists s, l].
    destruct (wp_run _ _ _ (store_holds s l i b off v Hh Hi ltac:(lia))) as ([] & s' & -> & H'). simpl. eauto.
Qed.
Lemma exec_holds cs s l :
  holds s l → Forall call_ok cs → ∃ s' l', exec cs s l = Some (s', l') ∧ holds s' l'.
Proof.
  revert s l. induction cs as [|c cs IH]; intros s l Hh Hc; [by exists s, l|]. apply list.Forall_cons in Hc as [Hc Hcs].
  destruct (exec_call_holds c s l Hh Hc) as (s1 & l1 & E & Hh1). simpl. rewrite E. by apply IH.
Qed.
Lemma holds_fresh s : fresh s → load_le 4 (um s) h_lock = 0 → holds s [].
Proof. intros Hf Hl. exists no_blocks, []. split_and!; [by right|done..|constructor|constructor]. Qed.

(** C2: Whatever a program does with malloc, calloc, realloc, free and
    stores into the blocks it holds, from the first call on an untouched
    window on: no call faults or loops, the blocks held are aligned to 16,
    lie in the mapped window, never overlap, and each byte reads as what was
    last put there - by a store, by calloc's clearing, or carried over by
    realloc. *)
Theorem heap_history cs s :
  fresh s → load_le 4 (um s) h_lock = 0 → Forall call_ok cs →
  ∃ s' l', exec cs s [] = Some (s', l') ∧ blocks_ok s' l'.
Proof.
  intros Hf Hl Hc. destruct (exec_holds cs s [] (holds_fresh s Hf Hl) Hc) as (s' & l' & E & Hh).
  exists s', l'. split; [done|by apply holds_blocks].
Qed.

(** C22: After any history, malloc of more than 512 bytes comes back
    empty-handed only when the kernel refuses to extend the break by the
    request and its header, rounded up to pages. *)
Theorem malloc_fails_only_when_refused cs s n s' l' :
  fresh s → load_le 4 (um s) h_lock = 0 → Forall call_ok cs → exec cs s [] = Some (s', l') → MAXSMALL < n ≤ 2 ^ 61 →
  ∃ p s'', malloc sys_sbrk n s' = Some (p, s'') ∧ (p = 0 → refused sys_sbrk n s').
Proof.
  intros Hf Hl Hc E Hn. destruct (exec_holds cs s [] (holds_fresh s Hf Hl) Hc) as (? & ? & E' & Hh). simplify_eq.
  unfold MAXSMALL in *. destruct (wp_run _ _ _ (malloc_holds s' l' n Hh ltac:(lia))) as (p & s'' & Em & Hp).
  exists p, s''. split; [done|]. intros ->. destruct Hp as [(_ & _ & Hr)|(? & _)]; [|done]. apply Hr. unfold MAXSMALL. lia.
Qed.
End ops.

(** ** Examples *)

Definition fresh_window (frames : Z) : uspace := mkUspace ∅ (UHEAP_BASE + PGSIZE) frames.
Lemma fresh_window_ok frames : fresh (fresh_window frames) ∧ load_le 4 (um (fresh_window frames)) h_lock = 0.
Proof. by split. Qed.
Definition demo_calls : list call :=
  [Malloc 40; Store 0 3 77; Calloc 5 200; Realloc 1 600; Malloc 40; Free 1; Store 1 599 9; Realloc 1 8].
Lemma demo_calls_ok : Forall call_ok demo_calls.
Proof. repeat constructor; simpl; lia. Qed.

Lemma heap_history_witness :
  ∃ s' l', exec window_sbrk demo_calls (fresh_window 64) [] = Some (s', l') ∧ blocks_ok s' l'.
Proof. apply heap_history; [apply _|apply fresh_window_ok..|apply demo_calls_ok]. Defined.
(** What the program above ends with: the third block, and the first one
    cut back to eight bytes after its move, the stored byte still there. *)
Definition held_after (cs : list call) : option (list block) := snd <$> exec window_sbrk cs (fresh_window 64) [].
Example demo_held :
  held_after demo_calls =
  Some [(UHEAP_BASE + 0x1040, bytes 40); (UHEAP_BASE + 0xce0, [None; None; None; Some 77; None; None; None; None])].
Proof. vm_compute. reflexivity. Qed.

Lemma malloc_fails_only_when_refused_witness :
  ∃ p s'', malloc window_sbrk 100000 (fresh_window 3) = Some (p, s'') ∧ (p = 0 → refused window_sbrk 100000 (fresh_window 3)).
Proof.
  apply (malloc_fails_only_when_refused window_sbrk [] (fresh_window 3) 100000 (fresh_window 3) []);
    [apply fresh_window_ok..|constructor|reflexivity|unfold MAXSMALL; lia].
Defined.

(** ** Where it goes wrong *)

Definition crumb_calls : list call := [Malloc 7968; Malloc 70000; Free 0].
Definition after_crumb : option (Z * Z * Z) :=
  exec window_sbrk crumb_calls (fresh_window 1000) [] ≫= λ '(s, _),
    '(p, s') ← malloc window_sbrk 16 s; Some (p, uframes s, uframes s').

(** With the last free block cut to the sixteen bytes before the break, the
    page that [m__page] asks for joins them, and neither it nor a second one
    yields a page: a small request fails with 999 frames to spare, and two
    of them are gone. *)
Theorem small_malloc_fails_with_memory_left : after_crumb = Some (0, 999, 997).
Proof. vm_compute. reflexivity. Qed.

(** Asked for 2^63 bytes, [m__grow] turns the size into a negative number
    and asks the kernel to shrink the heap; 2^62 is refused as it should. *)
Definition no_shrinking (d : Z) : prog uspace Z := λ s, if d <? 0 then None else Some (SBRK_FAILED, s).
Theorem huge_malloc_shrinks :
  malloc no_shrinking (2 ^ 63) (fresh_window 8) = None ∧ fst <$> malloc no_shrinking (2 ^ 62) (fresh_window 8) = Some 0.
Proof. vm_compute. done. Qed.

(** Rounding to a class costs up to nine tenths of the size. *)
Theorem class_rounding :
  class_size (class_for 129) = 160 ∧ class_size (class_for 257) = 320 ∧ class_size (class_for 17) = 32.
Proof. vm_compute. done. Qed.
