(* ===== verification/Req.v ===== *)
(** * Requests and what every server shares (src/src/vfs.h, ulib.c)

    A request travels by value; [path] and [data] are the bytes of the two
    buffers it carries, [path] up to its NUL. *)
From stdpp Require Import base list numbers option.
From S2P Require Import Prelude Mem.
Local Open Scope Z_scope.

(** Field update for a record given by its eta expansion. *)
Ltac setter eta proj :=
  lazymatch eval pattern proj in eta with
  | ?G _ => let t := eval cbv beta in (λ v s, G (λ _, v) s) in exact t
  end.

Record vfs_req := mkReq
  { op : Z; fd : Z; path : list Z; len : Z; ioctl_cmd : Z; result : Z; data : list Z }.
Ltac set_vfs_req proj :=
  setter (λ s, mkReq (op s) (fd s) (path s) (len s) (ioctl_cmd s) (result s) (data s)) proj.
#[export] Instance set_op : Setter op. Proof. set_vfs_req op. Defined.
#[export] Instance set_fd : Setter fd. Proof. set_vfs_req fd. Defined.
#[export] Instance set_path : Setter path. Proof. set_vfs_req path. Defined.
#[export] Instance set_len : Setter len. Proof. set_vfs_req len. Defined.
#[export] Instance set_ioctl_cmd : Setter ioctl_cmd. Proof. set_vfs_req ioctl_cmd. Defined.
#[export] Instance set_result : Setter result. Proof. set_vfs_req result. Defined.
#[export] Instance set_data : Setter data. Proof. set_vfs_req data. Defined.
Arguments set_op _ _ /.
Arguments set_fd _ _ /.
Arguments set_path _ _ /.
Arguments set_len _ _ /.
Arguments set_ioctl_cmd _ _ /.
Arguments set_result _ _ /.
Arguments set_data _ _ /.

(** ** Operations and generic commands *)

Definition VFS_DATA_MAX : Z := 512.
Definition VFS_OPEN : Z := 1.
Definition VFS_READ : Z := 2.
Definition VFS_WRITE : Z := 3.
Definition VFS_IOCTL : Z := 4.
Definition VFS_CLOSE : Z := 5.
Definition VFS_CREATE : Z := 6.

Definition IOCTL_GETSIZE : Z := 1.
Definition IOCTL_REMOVE : Z := 2.
Definition IOCTL_MKDIR : Z := 3.
Definition IOCTL_PING : Z := 4.
Definition IOCTL_INTR : Z := 5.
Definition IOCTL_DOC : Z := 6.
Definition IOCTL_HOLDS : Z := 7.
Definition IOCTL_CONF : Z := 8.
Definition IOCTL_TTYMODE : Z := 9.

Definition vfs_reply_text (r : vfs_req) (text : list Z) : vfs_req :=
  let t := take (Z.to_nat VFS_DATA_MAX) text in
  r <| data := t ++ drop (length t) (data r) |> <| result := Z.of_nat (length t) |>.
Definition vfs_doc_reply (r : vfs_req) (text : list Z) : vfs_req :=
  let off := if 0 <? len r then Z.to_nat (len r) else 0%nat in
  if (length text <=? off)%nat then r <| result := 0 |>
  else
    let t := take (Z.to_nat VFS_DATA_MAX) (drop off text) in
    r <| data := t ++ drop (length t) (data r) |> <| result := Z.of_nat (length t) |>.

(** ** Text *)

Definition uutoa (v : Z) : list Z := if v =? 0 then [48] else rev (utoa_tmp 24 v).
(** The digits at the start of a text as a number, each step at the width of
    the variable, and what follows them. *)
Definition is_digit (b : Z) : bool := (48 <=? b) && (b <=? 57).
Fixpoint digits (wrap : Z → Z) (t : list Z) (v : Z) : Z * list Z :=
  match t with
  | b :: t' => if is_digit b then digits wrap t' (wrap (v * 10 + (b - 48))) else (v, t)
  | [] => (v, [])
  end.

(** ** Types of the members *)

Definition int_ok (z : Z) : Prop := - 2 ^ 31 <= z < 2 ^ 31.
Definition byte_ok (b : Z) : Prop := 0 <= b < 256.
Definition char_ok (b : Z) : Prop := 0 < b < 256.
(** What the C type of a request admits: the path is what stands before its
    NUL. *)
Record req_typed (r : vfs_req) : Prop := mkTyped
  { t_op : int_ok (op r); t_fd : int_ok (fd r); t_len : int_ok (len r); t_result : int_ok (result r);
    t_cmd : 0 <= ioctl_cmd r < 2 ^ 64; t_path : (length (path r) < 128)%nat ∧ Forall char_ok (path r);
    t_data : length (data r) = 512%nat ∧ Forall byte_ok (data r) }.
Lemma typed_result r v : req_typed r → int_ok v → req_typed (r <| result := v |>).
Proof. intros [] ?. by constructor. Qed.
Lemma typed_data r d : req_typed r → length d = 512%nat → Forall byte_ok d → req_typed (r <| data := d |>).
Proof. intros [] ??. by constructor. Qed.
(** A text put at the front of the data. *)
Lemma typed_front r t v :
  req_typed r → (length t <= 512)%nat → Forall byte_ok t → int_ok v →
  req_typed (r <| data := t ++ drop (length t) (data r) |> <| result := v |>).
Proof.
  intros Hr Hl Ht Hv. apply typed_result; [|done]. destruct (t_data r Hr) as [Hd Hb].
  apply typed_data; [done| |].
  - rewrite length_app, length_drop. lia.
  - apply list.Forall_app. split; [done|]. by apply Forall_drop.
Qed.
Lemma reply_text_typed r t : req_typed r → Forall byte_ok t → req_typed (vfs_reply_text r t).
Proof.
  intros Hr Ht. unfold vfs_reply_text. apply typed_front; [done| |by apply Forall_take|].
  - rewrite length_take. unfold VFS_DATA_MAX. lia.
  - unfold int_ok. rewrite length_take. unfold VFS_DATA_MAX. lia.
Qed.
Lemma doc_reply_typed r t : req_typed r → Forall byte_ok t → req_typed (vfs_doc_reply r t).
Proof.
  intros Hr Ht. unfold vfs_doc_reply. cbv zeta. destruct (length t <=? _)%nat; [by apply typed_result|].
  apply typed_front; [done| |by apply Forall_take, Forall_drop|].
  - rewrite length_take. unfold VFS_DATA_MAX. lia.
  - unfold int_ok. rewrite length_take. unfold VFS_DATA_MAX. lia.
Qed.
