(* ===== verification/NetWire.v ===== *)
(** * Packets on the wire (src/src/net_ip.c)

    Big-endian fields, the Internet checksum and the headers the stack
    writes and reads.  A packet is the list of its bytes; a header is built
    in one piece, with its checksum field filled in last, as the code does.

    The theorems: a header that carries its checksum sums to zero, the
    receiver finds in it what the sender put there, and a change of any
    sixteen-bit word is noticed. *)
From stdpp Require Import base list numbers option.
From S2P Require Import Prelude.
Local Open Scope Z_scope.

(** ** Fields *)

Definition put16 (v : Z) : list Z := [u8 (Z.shiftr v 8); u8 v].
Definition put32 (v : Z) : list Z := [u8 (Z.shiftr v 24); u8 (Z.shiftr v 16); u8 (Z.shiftr v 8); u8 v].
Definition byte_at (p : list Z) (k : nat) : Z := nth k p 0.
Definition get16 (p : list Z) : Z := Z.lor (Z.shiftl (byte_at p 0) 8) (byte_at p 1).
Definition get32 (p : list Z) : Z :=
  Z.lor (Z.lor (Z.lor (Z.shiftl (byte_at p 0) 24) (Z.shiftl (byte_at p 1) 16)) (Z.shiftl (byte_at p 2) 8)) (byte_at p 3).

(** ** The checksum *)

Fixpoint sum16 (p : list Z) (sum : Z) : Z :=
  match p with
  | [] => sum
  | [a] => u32 (sum + Z.shiftl a 8)
  | a :: b :: p' => sum16 p' (u32 (sum + Z.lor (Z.shiftl a 8) b))
  end.
(** [while (sum >> 16) ...]: two turns are enough for 32 bits. *)
Fixpoint fold_loop (n : nat) (sum : Z) : Z :=
  if Z.shiftr sum 16 =? 0 then sum
  else match n with
       | O => sum
       | S n' => fold_loop n' (u32 (Z.land sum 0xffff + Z.shiftr sum 16))
       end.
Definition fold (sum : Z) : Z := Z.land (Z.lnot (fold_loop 3 sum)) 0xffff.
Definition pseudo_hdr (proto : Z) (src dst : list Z) (len : Z) : list Z := src ++ dst ++ [0; u8 proto] ++ put16 len.
Definition l4_checksum (proto : Z) (src dst seg : list Z) : Z :=
  fold (sum16 seg (sum16 (pseudo_hdr proto src dst (Z.of_nat (length seg))) 0)).

(** ** Headers *)

Definition ETH_ARP : Z := 0x0806.
Definition ETH_IPV4 : Z := 0x0800.
Definition IP_ICMP : Z := 1.
Definition IP_TCP : Z := 6.
Definition IP_UDP : Z := 17.
Definition TCP_FIN : Z := 0x01.
Definition TCP_SYN : Z := 0x02.
Definition TCP_RST : Z := 0x04.
Definition TCP_PSH : Z := 0x08.
Definition TCP_ACK : Z := 0x10.

Definition eth_hdr (dst_mac net_mac : list Z) (type : Z) : list Z := dst_mac ++ net_mac ++ put16 type.
Definition arp_packet (op : Z) (sha spa tha tpa : list Z) : list Z :=
  put16 1 ++ put16 ETH_IPV4 ++ [6; 4] ++ put16 op ++ sha ++ spa ++ tha ++ tpa.
Definition ip_hdr_with (me dst : list Z) (proto id len sum : Z) : list Z :=
  [0x45; 0] ++ put16 (20 + len) ++ put16 id ++ put16 0 ++ [64; u8 proto] ++ put16 sum ++ me ++ dst.
Definition ip_hdr (me dst : list Z) (proto id len : Z) : list Z :=
  ip_hdr_with me dst proto id len (fold (sum16 (ip_hdr_with me dst proto id len 0) 0)).
Definition udp_with (sport dport : Z) (data : list Z) (sum : Z) : list Z :=
  put16 sport ++ put16 dport ++ put16 (8 + Z.of_nat (length data)) ++ put16 sum ++ data.
Definition udp_packet (me dst : list Z) (sport dport : Z) (data : list Z) : list Z :=
  udp_with sport dport data (l4_checksum IP_UDP me dst (udp_with sport dport data 0)).
(** An echo request turned around: type 0, the rest as it came. *)
Definition echo_with (ic : list Z) (sum : Z) : list Z := [0; byte_at ic 1] ++ put16 sum ++ drop 4 ic.
Definition echo_reply (ic : list Z) : list Z := echo_with ic (fold (sum16 (echo_with ic 0) 0)).
Definition tcp_with (sport dport seq ack flags wnd : Z) (data : list Z) (mss sum : Z) : list Z :=
  let hlen := if mss =? 0 then 20 else 24 in
  put16 sport ++ put16 dport ++ put32 seq ++ put32 ack ++ [u8 (Z.shiftl (hlen / 4) 4); u8 flags] ++ put16 wnd ++
  put16 sum ++ put16 0 ++ (if mss =? 0 then [] else [2; 4] ++ put16 mss) ++ data.
Definition tcp_packet (me dst : list Z) (sport dport seq ack flags wnd : Z) (data : list Z) (mss : Z) : list Z :=
  tcp_with sport dport seq ack flags wnd data mss
    (l4_checksum IP_TCP me dst (tcp_with sport dport seq ack flags wnd data mss 0)).

(** ** What the sum is *)

Abbreviation bytes := (Forall (λ b, 0 ≤ b < 256)).
(** The sum without a word size. *)
Fixpoint words (p : list Z) : Z :=
  match p with
  | [] => 0
  | [a] => 256 * a
  | a :: b :: p' => 256 * a + b + words p'
  end.
Lemma pairs_ind (P : list Z → Prop) :
  P [] → (∀ a, P [a]) → (∀ a b p, P p → P (a :: b :: p)) → ∀ p, P p.
Proof.
  intros H0 H1 H2 p. cut (P p ∧ ∀ a, P (a :: p)); [tauto|]. induction p as [|b p [IH1 IH2]]; split; auto.
Qed.
Lemma word_eq a b : 0 ≤ b < 256 → Z.lor (Z.shiftl a 8) b = 256 * a + b.
Proof. intros. rewrite Z.shiftl_mul_pow2, (lor_disjoint a b 8) by lia. lia. Qed.
Lemma words_bound p : bytes p → 0 ≤ words p ≤ 65535 * Z.of_nat (length p).
Proof.
  induction p as [|a|a b p IH] using pairs_ind; intros Hp; simpl; [lia|inversion_clear Hp; lia|].
  inversion_clear Hp as [|? ? Ha Hp']. inversion_clear Hp' as [|? ? Hb Hp]. specialize (IH Hp). simpl length. lia.
Qed.
Lemma sum16_words p s :
  bytes p → 0 ≤ s → s + 65535 * Z.of_nat (length p) < 2 ^ 32 → sum16 p s = s + words p.
Proof.
  revert s. induction p as [|a|a b p IH] using pairs_ind; intros s Hp Hs Hl; simpl in *; [lia| |].
  - inversion_clear Hp. rewrite Z.shiftl_mul_pow2, u32_small by lia. lia.
  - inversion_clear Hp as [|? ? Ha Hp']. inversion_clear Hp' as [|? ? Hb Hp]. rewrite word_eq by done.
    rewrite u32_small by lia. rewrite IH; [lia|done|lia|lia].
Qed.
(** Words add up over pieces of even length. *)
Lemma words_app p q : Nat.Even (length p) → words (p ++ q) = words p + words q.
Proof.
  induction p as [|a|a b p IH] using pairs_ind; intros Hp; simpl in *; [done|by apply Nat.even_spec in Hp|].
  rewrite IH; [lia|]. apply Nat.even_spec. apply Nat.even_spec in Hp. done.
Qed.

(** Folding keeps the sum modulo 65535 and ends below 65536. *)
Lemma fold_loop_spec n s :
  (2 ≤ n)%nat → 0 ≤ s < 2 ^ 32 →
  0 ≤ fold_loop n s < 2 ^ 16 ∧ fold_loop n s mod 65535 = s mod 65535 ∧ (fold_loop n s = 0 ↔ s = 0).
Proof.
  assert (∀ s, 0 ≤ s < 2 ^ 32 → Z.land s 0xffff + Z.shiftr s 16 = s - 65535 * (s / 65536)) as Hstep.
  { intros x Hx. change 0xffff with (2 ^ 16 - 1). rewrite land_mask, Z.shiftr_div_pow2 by lia. change (2 ^ 16) with 65536. ldiv. }
  assert (∀ n s, 0 ≤ s < 2 ^ 16 → fold_loop n s = s) as Hdone.
  { intros k x Hx. destruct k; simpl; rewrite Z.shiftr_div_pow2, Z.div_small by lia; done. }
  intros Hn Hs. destruct n as [|[|n]]; [lia|lia|]. cbn [fold_loop].
  destruct (Z.eqb_spec (Z.shiftr s 16) 0) as [E|E]; rewrite Z.shiftr_div_pow2 in E by lia; change (2 ^ 16) with 65536 in *.
  { split_and!; [ldiv|ldiv|done|done]. }
  rewrite Hstep by done. set (t := s - 65535 * (s / 65536)).
  assert (0 < t ≤ 131070 ∧ t mod 65535 = s mod 65535) as [Ht Et].
  { unfold t. split; [ldiv|]. rewrite <- (Z_mod_plus_full s (- (s / 65536)) 65535). f_equal. lia. }
  clearbody t. rewrite u32_small by lia.
  destruct (Z.eqb_spec (Z.shiftr t 16) 0) as [E'|E']; rewrite Z.shiftr_div_pow2 in E' by lia; change (2 ^ 16) with 65536 in *.
  { split_and!; [ldiv|ldiv|done|split; ldiv]. }
  rewrite Hstep by lia. assert (t / 65536 = 1) as -> by ldiv. rewrite u32_small by ldiv.
  rewrite Hdone by (change (2 ^ 16) with 65536; ldiv). split_and!; [ldiv|ldiv| |split; ldiv].
  rewrite <- Et. by rewrite <- (Z_mod_plus_full t (-1) 65535).
Qed.
Lemma fold_eq s : 0 ≤ s < 2 ^ 32 → fold s = 65535 - fold_loop 3 s.
Proof.
  intros Hs. unfold fold. destruct (fold_loop_spec 3 s ltac:(lia) Hs) as (Hr & _).
  change (Z.land ?x 0xffff) with (Z.land x (2 ^ 16 - 1)). rewrite land_mask by lia. unfold Z.lnot. change (2 ^ 16) with 65536 in *.
  rewrite <- (Z_mod_plus_full _ 1 65536). rewrite Z.mod_small; lia.
Qed.
Lemma fold_zero s : 0 ≤ s < 2 ^ 32 → fold s = 0 ↔ 0 < s ∧ s mod 65535 = 0.
Proof.
  intros Hs. rewrite fold_eq by done. destruct (fold_loop_spec 3 s ltac:(lia) Hs) as (Hr & Em & Ez).
  change (2 ^ 16) with 65536 in *. split.
  - intros E. assert (fold_loop 3 s = 65535) as E' by lia. rewrite E' in Em, Ez. split; [lia|]. by rewrite <- Em.
  - intros [Hp Hm]. rewrite Hm in Em. assert (fold_loop 3 s ≠ 0) by lia. ldiv.
Qed.
(** Adding its checksum to a sum makes it verify. *)
Lemma fold_fill s : 0 ≤ s < 2 ^ 31 → fold (s + fold s) = 0 ∧ 0 ≤ fold s < 2 ^ 16.
Proof.
  intros Hs. rewrite (fold_eq s) by lia. destruct (fold_loop_spec 3 s ltac:(lia) ltac:(lia)) as (Hr & Em & Ez).
  change (2 ^ 16) with 65536 in *. split; [|lia]. apply fold_zero; [lia|]. split; [lia|].
  rewrite <- (Z_mod_plus_full _ (-1) 65535).
  replace (s + (65535 - fold_loop 3 s) + -1 * 65535) with (s - fold_loop 3 s) by lia.
  rewrite Zminus_mod, Em, Z.sub_diag. done.
Qed.

(** ** Packets that verify *)

Lemma put16_length v : length (put16 v) = 2%nat. Proof. done. Qed.
Lemma wire_put16_bytes v : bytes (put16 v). Proof. repeat constructor; apply u8_range. Qed.
Lemma wire_put32_bytes v : bytes (put32 v). Proof. repeat constructor; apply u8_range. Qed.
Lemma words_put16 v p : words (put16 v ++ p) = v mod 2 ^ 16 + words p.
Proof. simpl. unfold u8. rewrite Z.shiftr_div_pow2 by lia. ldiv. Qed.
Lemma wire_get16_put16 v p : 0 ≤ v < 2 ^ 16 → get16 (put16 v ++ p) = v.
Proof.
  intros. unfold get16, byte_at. simpl. rewrite word_eq by apply u8_range. unfold u8.
  rewrite Z.shiftr_div_pow2 by lia. ldiv.
Qed.
Lemma wire_get32_put32 v p : 0 ≤ v < 2 ^ 32 → get32 (put32 v ++ p) = v.
Proof.
  intros. unfold get32, byte_at. simpl. rewrite !Z.shiftl_mul_pow2 by lia.
  pose proof (u8_range (Z.shiftr v 24)). pose proof (u8_range (Z.shiftr v 16)). pose proof (u8_range (Z.shiftr v 8)).
  pose proof (u8_range v).
  rewrite (lor_disjoint _ (u8 (Z.shiftr v 16) * 2 ^ 16) 24) by lia.
  replace (u8 (Z.shiftr v 24) * 2 ^ 24 + u8 (Z.shiftr v 16) * 2 ^ 16)
    with ((u8 (Z.shiftr v 24) * 256 + u8 (Z.shiftr v 16)) * 2 ^ 16) by lia.
  rewrite (lor_disjoint _ (u8 (Z.shiftr v 8) * 2 ^ 8) 16) by lia.
  replace ((u8 (Z.shiftr v 24) * 256 + u8 (Z.shiftr v 16)) * 2 ^ 16 + u8 (Z.shiftr v 8) * 2 ^ 8)
    with (((u8 (Z.shiftr v 24) * 256 + u8 (Z.shiftr v 16)) * 256 + u8 (Z.shiftr v 8)) * 2 ^ 8) by lia.
  rewrite (lor_disjoint _ (u8 v) 8) by lia. unfold u8. rewrite !Z.shiftr_div_pow2 by lia. ldiv.
Qed.

(** A packet of the shape [front ++ put16 sum ++ back], the front of even
    length, summed on top of [s0]. *)
Section filled.
Context (front back : list Z) (s0 : Z).
Context (Hf : bytes front) (Hb : bytes back) (He : Nat.Even (length front)).
Context (Hs : 0 ≤ s0) (Hl : s0 + 65535 * Z.of_nat (length front + 2 + length back) < 2 ^ 31).

Lemma filled_sum v : sum16 (front ++ put16 v ++ back) s0 = s0 + words front + v mod 2 ^ 16 + words back.
Proof.
  rewrite sum16_words; [rewrite words_app, words_put16 by done; lia| |done|].
  - apply Forall_app_2; [done|]. apply Forall_app_2; [apply wire_put16_bytes|done].
  - rewrite !length_app, put16_length. lia.
Qed.
Lemma filled_verifies :
  fold (sum16 (front ++ put16 (fold (sum16 (front ++ put16 0 ++ back) s0)) ++ back) s0) = 0.
Proof.
  rewrite !filled_sum. change (0 mod 2 ^ 16) with 0. pose proof (words_bound _ Hf). pose proof (words_bound _ Hb).
  set (s := s0 + words front + 0 + words back). destruct (fold_fill s) as [E Hr]; [unfold s; lia|].
  rewrite Z.mod_small by done. rewrite <- E. f_equal. unfold s. lia.
Qed.
End filled.
Lemma pseudo_hdr_sum proto src dst n :
  bytes src → bytes dst → length src = 4%nat → length dst = 4%nat →
  0 ≤ sum16 (pseudo_hdr proto src dst n) 0 ≤ 65535 * 12.
Proof.
  intros Hs Hd Ls Ld. assert (bytes (pseudo_hdr proto src dst n)) as Hb.
  { repeat (apply Forall_app_2; [done|]). apply Forall_app_2; [repeat constructor; try lia; apply u8_range|apply wire_put16_bytes]. }
  assert (length (pseudo_hdr proto src dst n) = 12%nat) as Hl by (unfold pseudo_hdr; rewrite !length_app, Ls, Ld; done).
  rewrite sum16_words by (try done; rewrite Hl; lia). pose proof (words_bound _ Hb). rewrite Hl in *. lia.
Qed.
Lemma l4_filled proto src dst front back :
  bytes src → bytes dst → length src = 4%nat → length dst = 4%nat →
  bytes front → bytes back → Nat.Even (length front) → Z.of_nat (length front + 2 + length back) ≤ 32000 →
  l4_checksum proto src dst (front ++ put16 (l4_checksum proto src dst (front ++ put16 0 ++ back)) ++ back) = 0.
Proof.
  intros Hs Hd Ls Ld Hf Hb He Hl. unfold l4_checksum.
  assert (∀ v, length (front ++ put16 v ++ back) = (length front + 2 + length back)%nat) as El.
  { intros v. rewrite !length_app, put16_length. lia. }
  rewrite !El. pose proof (pseudo_hdr_sum proto src dst (Z.of_nat (length front + 2 + length back)) Hs Hd Ls Ld).
  apply filled_verifies; try done; lia.
Qed.

Lemma put_u8 a b : bytes [u8 a; u8 b]. Proof. repeat constructor; apply u8_range. Qed.
Lemma bytes_app p q : bytes p → bytes q → bytes (p ++ q). Proof. apply Forall_app_2. Qed.
Lemma bytes_nil : bytes []. Proof. constructor. Qed.
Create HintDb wire.
#[export] Hint Resolve wire_put16_bytes wire_put32_bytes put_u8 bytes_app bytes_nil Forall_drop Forall_take : wire.
Ltac wire := repeat first
  [ apply bytes_app | apply Forall_cons_2; [first [lia|apply u8_range]|] | solve [auto with wire] | case_match ].

Lemma ip_hdr_spec me dst proto id len :
  bytes me → bytes dst → length me = 4%nat → length dst = 4%nat →
  fold (sum16 (ip_hdr me dst proto id len) 0) = 0 ∧ length (ip_hdr me dst proto id len) = 20%nat.
Proof.
  intros Hm Hd Lm Ld. split; [|unfold ip_hdr, ip_hdr_with; rewrite !length_app, Lm, Ld; done].
  set (front := [0x45; 0] ++ put16 (20 + len) ++ put16 id ++ put16 0 ++ [64; u8 proto]).
  assert (∀ v, ip_hdr_with me dst proto id len v = front ++ put16 v ++ me ++ dst) as E.
  { intros v. unfold front, ip_hdr_with. by rewrite <- !app_assoc. }
  unfold ip_hdr. rewrite !E. apply filled_verifies; [unfold front; wire|wire|by exists 5%nat|done|].
  rewrite length_app, Lm, Ld. done.
Qed.
(** Every IPv4 header the stack builds passes the check the stack makes
    of a header it receives. *)
Theorem ip_hdr_verifies me dst proto id len :
  bytes me → bytes dst → length me = 4%nat → length dst = 4%nat →
  fold (sum16 (ip_hdr me dst proto id len) 0) = 0 ∧ length (ip_hdr me dst proto id len) = 20%nat.
Proof. apply ip_hdr_spec. Qed.

(** A segment as the receiver reads it. *)
Definition seg_hlen (t : list Z) : Z := Z.shiftr (byte_at t 12) 4 * 4.

Lemma tcp_packet_spec me dst sport dport seq ack flags wnd data mss :
  bytes me → bytes dst → bytes data → length me = 4%nat → length dst = 4%nat → Z.of_nat (length data) ≤ 1460 →
  0 ≤ sport < 2 ^ 16 → 0 ≤ dport < 2 ^ 16 → 0 ≤ seq < 2 ^ 32 → 0 ≤ ack < 2 ^ 32 → 0 ≤ flags < 2 ^ 8 → 0 ≤ wnd < 2 ^ 16 →
  let t := tcp_packet me dst sport dport seq ack flags wnd data mss in
  l4_checksum IP_TCP me dst t = 0 ∧
  get16 t = sport ∧ get16 (drop 2 t) = dport ∧ get32 (drop 4 t) = seq ∧ get32 (drop 8 t) = ack ∧
  byte_at t 13 = flags ∧ get16 (drop 14 t) = wnd ∧
  seg_hlen t = (if mss =? 0 then 20 else 24) ∧ drop (Z.to_nat (seg_hlen t)) t = data.
Proof.
  intros Hm Hd Hb Lm Ld Ln Hsp Hdp Hse Hac Hfl Hwn t. split.
  - set (front := put16 sport ++ put16 dport ++ put32 seq ++ put32 ack ++
      [u8 (Z.shiftl ((if mss =? 0 then 20 else 24) / 4) 4); u8 flags] ++ put16 wnd).
    set (back := put16 0 ++ (if mss =? 0 then [] else [2; 4] ++ put16 mss) ++ data).
    assert (∀ v, tcp_with sport dport seq ack flags wnd data mss v = front ++ put16 v ++ back) as E.
    { intros v. unfold front, back, tcp_with. by rewrite <- !app_assoc. }
    unfold t, tcp_packet. rewrite !E. apply l4_filled; try done; [unfold front; wire|unfold back; wire|by exists 8%nat|].
    unfold front, back. destruct (mss =? 0); simpl; lia.
  - assert (seg_hlen t = if mss =? 0 then 20 else 24) as Eh.
    { unfold t, tcp_packet, tcp_with, seg_hlen, byte_at. destruct (mss =? 0); done. }
    rewrite Eh. unfold t, tcp_packet, tcp_with. split_and!.
    + by apply wire_get16_put16.
    + by apply (wire_get16_put16 dport).
    + by apply (wire_get32_put32 seq).
    + by apply (wire_get32_put32 ack).
    + unfold byte_at. simpl. by apply u8_small.
    + by apply (wire_get16_put16 wnd).
    + done.
    + destruct (mss =? 0); done.
Qed.
(** C27: A TCP segment the stack builds passes the receiver's checksum, and
    the receiver reads from it the ports, numbers, flags, window and data it
    was built from. *)
Theorem tcp_packet_correct me dst sport dport seq ack flags wnd data mss :
  bytes me → bytes dst → bytes data → length me = 4%nat → length dst = 4%nat → Z.of_nat (length data) ≤ 1460 →
  0 ≤ sport < 2 ^ 16 → 0 ≤ dport < 2 ^ 16 → 0 ≤ seq < 2 ^ 32 → 0 ≤ ack < 2 ^ 32 → 0 ≤ flags < 2 ^ 8 → 0 ≤ wnd < 2 ^ 16 →
  let t := tcp_packet me dst sport dport seq ack flags wnd data mss in
  l4_checksum IP_TCP me dst t = 0 ∧
  get16 t = sport ∧ get16 (drop 2 t) = dport ∧ get32 (drop 4 t) = seq ∧ get32 (drop 8 t) = ack ∧
  byte_at t 13 = flags ∧ get16 (drop 14 t) = wnd ∧
  seg_hlen t = (if mss =? 0 then 20 else 24) ∧ drop (Z.to_nat (seg_hlen t)) t = data.
Proof. apply tcp_packet_spec. Qed.

(** The checksum notices a change of any one aligned sixteen-bit word,
    except between the two spellings of zero. *)
Theorem checksum_detects proto src dst front w w' back :
  bytes src → bytes dst → length src = 4%nat → length dst = 4%nat → bytes front → bytes back →
  Nat.Even (length front) → Z.of_nat (length front + 2 + length back) ≤ 32000 →
  0 ≤ w < 2 ^ 16 → 0 ≤ w' < 2 ^ 16 → w mod 65535 ≠ w' mod 65535 →
  l4_checksum proto src dst (front ++ put16 w ++ back) = 0 → l4_checksum proto src dst (front ++ put16 w' ++ back) ≠ 0.
Proof.
  intros Hs Hd Ls Ld Hf Hb He Hl Hw Hw' Hne. unfold l4_checksum.
  assert (∀ v, length (front ++ put16 v ++ back) = (length front + 2 + length back)%nat) as El.
  { intros v. rewrite !length_app, put16_length. lia. }
  rewrite !El. pose proof (pseudo_hdr_sum proto src dst (Z.of_nat (length front + 2 + length back)) Hs Hd Ls Ld) as Hp.
  set (s0 := sum16 (pseudo_hdr _ _ _ _) 0) in *. clearbody s0.
  pose proof (words_bound _ Hf). pose proof (words_bound _ Hb).
  rewrite !filled_sum, !(Z.mod_small _ (2 ^ 16)) by (try done; lia). rewrite !fold_zero by lia.
  intros [_ E] [_ E']. apply Hne.
  replace (s0 + words front + w + words back) with (w + (s0 + words front + words back)) in E by lia.
  replace (s0 + words front + w' + words back) with (w' + (s0 + words front + words back)) in E' by lia.
  rewrite <- E' in E. clear E'. revert E. generalize (s0 + words front + words back). intros x E. ldiv.
Qed.

(** ** Examples *)

Lemma ip_hdr_verifies_witness :
  fold (sum16 (ip_hdr [10; 0; 2; 15] [10; 0; 2; 2] 6 1 40) 0) = 0 ∧ length (ip_hdr [10; 0; 2; 15] [10; 0; 2; 2] 6 1 40) = 20%nat.
Proof. apply ip_hdr_verifies; try reflexivity; repeat constructor; lia. Defined.
Lemma tcp_packet_correct_witness :
  l4_checksum IP_TCP [10; 0; 2; 15] [10; 0; 2; 2]
    (tcp_packet [10; 0; 2; 15] [10; 0; 2; 2] 40001 7 (2 ^ 32 - 1) 99 TCP_ACK 2048 [104; 105] 0) = 0.
Proof.
  apply (tcp_packet_correct [10; 0; 2; 15] [10; 0; 2; 2] 40001 7 (2 ^ 32 - 1) 99 TCP_ACK 2048 [104; 105] 0);
    try reflexivity; try (unfold TCP_ACK; simpl; lia); repeat constructor; lia.
Defined.
Lemma checksum_detects_witness : l4_checksum 17 [10; 0; 2; 15] [10; 0; 2; 2] (put16 8 ++ put16 0xe7d2) ≠ 0.
Proof.
  apply (checksum_detects 17 [10; 0; 2; 15] [10; 0; 2; 2] [] 7 8 (put16 0xe7d2)); try reflexivity; try lia; try solve [wire];
    [by exists 0%nat|vm_compute; congruence].
Defined.
