(* ===== verification/NetState.v ===== *)
(** * The network server's state (src/src/net_ip.c)

    Connections live in a table of pointers; a pointer to one is its slot.
    A step of the server is a [prog] over [net]: [None] is the use of an
    empty slot, or a loop that does not end. *)
From stdpp Require Import base list numbers option.
From S2P Require Import Prelude Req NetWire.
Local Open Scope Z_scope.

(** A request received but not answered: who waits, on which descriptor, for
    how much. *)
Record parked := mkParked
  { pk_used : bool; pk_task : Z; pk_fd : Z; pk_len : Z }.
Ltac set_parked proj :=
  setter (λ s, mkParked (pk_used s) (pk_task s) (pk_fd s) (pk_len s)) proj.
#[export] Instance set_pk_used : Setter pk_used. Proof. set_parked pk_used. Defined.
#[export] Instance set_pk_task : Setter pk_task. Proof. set_parked pk_task. Defined.
#[export] Instance set_pk_fd : Setter pk_fd. Proof. set_parked pk_fd. Defined.
#[export] Instance set_pk_len : Setter pk_len. Proof. set_parked pk_len. Defined.
Arguments set_pk_used _ _ /.
Arguments set_pk_task _ _ /.
Arguments set_pk_fd _ _ /.
Arguments set_pk_len _ _ /.

Record arpent := mkArpent
  { ae_ip : list Z; ae_mac : list Z; ae_used : bool }.
Ltac set_arpent proj :=
  setter (λ s, mkArpent (ae_ip s) (ae_mac s) (ae_used s)) proj.
#[export] Instance set_ae_ip : Setter ae_ip. Proof. set_arpent ae_ip. Defined.
#[export] Instance set_ae_mac : Setter ae_mac. Proof. set_arpent ae_mac. Defined.
#[export] Instance set_ae_used : Setter ae_used. Proof. set_arpent ae_used. Defined.
Arguments set_ae_ip _ _ /.
Arguments set_ae_mac _ _ /.
Arguments set_ae_used _ _ /.

Inductive tcp_state :=
  | T_FREE | T_LISTEN | T_SYN_SENT | T_SYN_RCVD | T_ESTABLISHED | T_FIN_WAIT_1
  | T_FIN_WAIT_2 | T_CLOSING | T_TIME_WAIT | T_CLOSE_WAIT | T_LAST_ACK.
#[export] Instance tcp_state_eq_dec : EqDecision tcp_state.
Proof. solve_decision. Defined.

(** A segment held aside; [len] is the length of [h_data]. *)
Record held := mkHeld
  { h_seq : Z; h_used : bool; h_data : list Z }.
Ltac set_held proj :=
  setter (λ s, mkHeld (h_seq s) (h_used s) (h_data s)) proj.
#[export] Instance set_h_seq : Setter h_seq. Proof. set_held h_seq. Defined.
#[export] Instance set_h_used : Setter h_used. Proof. set_held h_used. Defined.
#[export] Instance set_h_data : Setter h_data. Proof. set_held h_data. Defined.
Arguments set_h_seq _ _ /.
Arguments set_h_used _ _ /.
Arguments set_h_data _ _ /.

(** A connection.  [snd_buf] and [rxq] are the bytes in use of the two
    buffers: [snd_len] and [rxq_len] are their lengths. *)
Record tcb := mkTcb
  { state : tcp_state; raddr : list Z; lport : Z; rport : Z; iss : Z; snd_una : Z; snd_nxt : Z;
    snd_base : Z; snd_wnd : Z; snd_buf : list Z; snd_fin : bool; fin_sent : bool;
    peer_mss : Z; cwnd : Z; ssthresh : Z; rto : Z; srtt : Z; rttvar : Z; rtt_seq : Z;
    rtt_at : Z; rtt_timing : bool; rt_tries : Z; rt_at : Z; rt_pending : Z; dupacks : Z;
    irs : Z; rcv_nxt : Z; rxq : list Z; ooo : list held; tw_at : Z; reader : parked;
    opener : parked; accepted : bool; refs : list (bool * Z); is_client : bool;
    intr_task : Z; intr_fired : bool }.
Ltac set_tcb proj :=
  setter (λ s, mkTcb (state s) (raddr s) (lport s) (rport s) (iss s) (snd_una s) (snd_nxt s)
    (snd_base s) (snd_wnd s) (snd_buf s) (snd_fin s) (fin_sent s) (peer_mss s) (cwnd s)
    (ssthresh s) (rto s) (srtt s) (rttvar s) (rtt_seq s) (rtt_at s) (rtt_timing s) (rt_tries s)
    (rt_at s) (rt_pending s) (dupacks s) (irs s) (rcv_nxt s) (rxq s) (ooo s) (tw_at s) (reader
    s) (opener s) (accepted s) (refs s) (is_client s) (intr_task s) (intr_fired s)) proj.
#[export] Instance set_state : Setter state. Proof. set_tcb state. Defined.
#[export] Instance set_raddr : Setter raddr. Proof. set_tcb raddr. Defined.
#[export] Instance set_lport : Setter lport. Proof. set_tcb lport. Defined.
#[export] Instance set_rport : Setter rport. Proof. set_tcb rport. Defined.
#[export] Instance set_iss : Setter iss. Proof. set_tcb iss. Defined.
#[export] Instance set_snd_una : Setter snd_una. Proof. set_tcb snd_una. Defined.
#[export] Instance set_snd_nxt : Setter snd_nxt. Proof. set_tcb snd_nxt. Defined.
#[export] Instance set_snd_base : Setter snd_base. Proof. set_tcb snd_base. Defined.
#[export] Instance set_snd_wnd : Setter snd_wnd. Proof. set_tcb snd_wnd. Defined.
#[export] Instance set_snd_buf : Setter snd_buf. Proof. set_tcb snd_buf. Defined.
#[export] Instance set_snd_fin : Setter snd_fin. Proof. set_tcb snd_fin. Defined.
#[export] Instance set_fin_sent : Setter fin_sent. Proof. set_tcb fin_sent. Defined.
#[export] Instance set_peer_mss : Setter peer_mss. Proof. set_tcb peer_mss. Defined.
#[export] Instance set_cwnd : Setter cwnd. Proof. set_tcb cwnd. Defined.
#[export] Instance set_ssthresh : Setter ssthresh. Proof. set_tcb ssthresh. Defined.
#[export] Instance set_rto : Setter rto. Proof. set_tcb rto. Defined.
#[export] Instance set_srtt : Setter srtt. Proof. set_tcb srtt. Defined.
#[export] Instance set_rttvar : Setter rttvar. Proof. set_tcb rttvar. Defined.
#[export] Instance set_rtt_seq : Setter rtt_seq. Proof. set_tcb rtt_seq. Defined.
#[export] Instance set_rtt_at : Setter rtt_at. Proof. set_tcb rtt_at. Defined.
#[export] Instance set_rtt_timing : Setter rtt_timing. Proof. set_tcb rtt_timing. Defined.
#[export] Instance set_rt_tries : Setter rt_tries. Proof. set_tcb rt_tries. Defined.
#[export] Instance set_rt_at : Setter rt_at. Proof. set_tcb rt_at. Defined.
#[export] Instance set_rt_pending : Setter rt_pending. Proof. set_tcb rt_pending. Defined.
#[export] Instance set_dupacks : Setter dupacks. Proof. set_tcb dupacks. Defined.
#[export] Instance set_irs : Setter irs. Proof. set_tcb irs. Defined.
#[export] Instance set_rcv_nxt : Setter rcv_nxt. Proof. set_tcb rcv_nxt. Defined.
#[export] Instance set_rxq : Setter rxq. Proof. set_tcb rxq. Defined.
#[export] Instance set_ooo : Setter ooo. Proof. set_tcb ooo. Defined.
#[export] Instance set_tw_at : Setter tw_at. Proof. set_tcb tw_at. Defined.
#[export] Instance set_reader : Setter reader. Proof. set_tcb reader. Defined.
#[export] Instance set_opener : Setter opener. Proof. set_tcb opener. Defined.
#[export] Instance set_accepted : Setter accepted. Proof. set_tcb accepted. Defined.
#[export] Instance set_refs : Setter refs. Proof. set_tcb refs. Defined.
#[export] Instance set_is_client : Setter is_client. Proof. set_tcb is_client. Defined.
#[export] Instance set_intr_task : Setter intr_task. Proof. set_tcb intr_task. Defined.
#[export] Instance set_intr_fired : Setter intr_fired. Proof. set_tcb intr_fired. Defined.
Arguments set_state _ _ /.
Arguments set_raddr _ _ /.
Arguments set_lport _ _ /.
Arguments set_rport _ _ /.
Arguments set_iss _ _ /.
Arguments set_snd_una _ _ /.
Arguments set_snd_nxt _ _ /.
Arguments set_snd_base _ _ /.
Arguments set_snd_wnd _ _ /.
Arguments set_snd_buf _ _ /.
Arguments set_snd_fin _ _ /.
Arguments set_fin_sent _ _ /.
Arguments set_peer_mss _ _ /.
Arguments set_cwnd _ _ /.
Arguments set_ssthresh _ _ /.
Arguments set_rto _ _ /.
Arguments set_srtt _ _ /.
Arguments set_rttvar _ _ /.
Arguments set_rtt_seq _ _ /.
Arguments set_rtt_at _ _ /.
Arguments set_rtt_timing _ _ /.
Arguments set_rt_tries _ _ /.
Arguments set_rt_at _ _ /.
Arguments set_rt_pending _ _ /.
Arguments set_dupacks _ _ /.
Arguments set_irs _ _ /.
Arguments set_rcv_nxt _ _ /.
Arguments set_rxq _ _ /.
Arguments set_ooo _ _ /.
Arguments set_tw_at _ _ /.
Arguments set_reader _ _ /.
Arguments set_opener _ _ /.
Arguments set_accepted _ _ /.
Arguments set_refs _ _ /.
Arguments set_is_client _ _ /.
Arguments set_intr_task _ _ /.
Arguments set_intr_fired _ _ /.

(** An open control or status file; [len] is the length of [pf_buf]. *)
Record pfile := mkPfile
  { pf_used : bool; pf_owner : Z; pf_off : Z; pf_buf : list Z }.
Ltac set_pfile proj :=
  setter (λ s, mkPfile (pf_used s) (pf_owner s) (pf_off s) (pf_buf s)) proj.
#[export] Instance set_pf_used : Setter pf_used. Proof. set_pfile pf_used. Defined.
#[export] Instance set_pf_owner : Setter pf_owner. Proof. set_pfile pf_owner. Defined.
#[export] Instance set_pf_off : Setter pf_off. Proof. set_pfile pf_off. Defined.
#[export] Instance set_pf_buf : Setter pf_buf. Proof. set_pfile pf_buf. Defined.
Arguments set_pf_used _ _ /.
Arguments set_pf_owner _ _ /.
Arguments set_pf_off _ _ /.
Arguments set_pf_buf _ _ /.

(** The static variables of the server, then its surroundings: the time,
    the tasks that live and those that wait to receive, the answers malloc
    will give ([true]: no), the frames sent, the alarm last asked for (0: none),
    the tasks killed and the replies delivered. *)
Record net := mkNet
  { net_mac : list Z; me_ip : list Z; arp_cache : list arpent; ip_id : Z; dns_id : Z;
    dns_waiter : parked; dns_name : list Z; dns_at : Z; retry_at : Z; dns_tries : Z;
    tcbs : list (option tcb); next_port : Z; drop_next : bool; hold_seg : list Z;
    hold_sip : list Z; reorder_armed : bool; pfd : list pfile; demo_done : bool; ticks : Z;
    alive : list Z; waiting : list Z; oom : list bool; wire : list (list Z); alarm : Z;
    killed : list Z; replies : list (Z * vfs_req) }.
Ltac set_net proj :=
  setter (λ s, mkNet (net_mac s) (me_ip s) (arp_cache s) (ip_id s) (dns_id s) (dns_waiter s)
    (dns_name s) (dns_at s) (retry_at s) (dns_tries s) (tcbs s) (next_port s) (drop_next s)
    (hold_seg s) (hold_sip s) (reorder_armed s) (pfd s) (demo_done s) (ticks s) (alive s)
    (waiting s) (oom s) (wire s) (alarm s) (killed s) (replies s)) proj.
#[export] Instance set_net_mac : Setter net_mac. Proof. set_net net_mac. Defined.
#[export] Instance set_me_ip : Setter me_ip. Proof. set_net me_ip. Defined.
#[export] Instance set_arp_cache : Setter arp_cache. Proof. set_net arp_cache. Defined.
#[export] Instance set_ip_id : Setter ip_id. Proof. set_net ip_id. Defined.
#[export] Instance set_dns_id : Setter dns_id. Proof. set_net dns_id. Defined.
#[export] Instance set_dns_waiter : Setter dns_waiter. Proof. set_net dns_waiter. Defined.
#[export] Instance set_dns_name : Setter dns_name. Proof. set_net dns_name. Defined.
#[export] Instance set_dns_at : Setter dns_at. Proof. set_net dns_at. Defined.
#[export] Instance set_retry_at : Setter retry_at. Proof. set_net retry_at. Defined.
#[export] Instance set_dns_tries : Setter dns_tries. Proof. set_net dns_tries. Defined.
#[export] Instance set_tcbs : Setter tcbs. Proof. set_net tcbs. Defined.
#[export] Instance set_next_port : Setter next_port. Proof. set_net next_port. Defined.
#[export] Instance set_drop_next : Setter drop_next. Proof. set_net drop_next. Defined.
#[export] Instance set_hold_seg : Setter hold_seg. Proof. set_net hold_seg. Defined.
#[export] Instance set_hold_sip : Setter hold_sip. Proof. set_net hold_sip. Defined.
#[export] Instance set_reorder_armed : Setter reorder_armed. Proof. set_net reorder_armed. Defined.
#[export] Instance set_pfd : Setter pfd. Proof. set_net pfd. Defined.
#[export] Instance set_demo_done : Setter demo_done. Proof. set_net demo_done. Defined.
#[export] Instance set_ticks : Setter ticks. Proof. set_net ticks. Defined.
#[export] Instance set_alive : Setter alive. Proof. set_net alive. Defined.
#[export] Instance set_waiting : Setter waiting. Proof. set_net waiting. Defined.
#[export] Instance set_oom : Setter oom. Proof. set_net oom. Defined.
#[export] Instance set_wire : Setter wire. Proof. set_net wire. Defined.
#[export] Instance set_alarm : Setter alarm. Proof. set_net alarm. Defined.
#[export] Instance set_killed : Setter killed. Proof. set_net killed. Defined.
#[export] Instance set_replies : Setter replies. Proof. set_net replies. Defined.
Arguments set_net_mac _ _ /.
Arguments set_me_ip _ _ /.
Arguments set_arp_cache _ _ /.
Arguments set_ip_id _ _ /.
Arguments set_dns_id _ _ /.
Arguments set_dns_waiter _ _ /.
Arguments set_dns_name _ _ /.
Arguments set_dns_at _ _ /.
Arguments set_retry_at _ _ /.
Arguments set_dns_tries _ _ /.
Arguments set_tcbs _ _ /.
Arguments set_next_port _ _ /.
Arguments set_drop_next _ _ /.
Arguments set_hold_seg _ _ /.
Arguments set_hold_sip _ _ /.
Arguments set_reorder_armed _ _ /.
Arguments set_pfd _ _ /.
Arguments set_demo_done _ _ /.
Arguments set_ticks _ _ /.
Arguments set_alive _ _ /.
Arguments set_waiting _ _ /.
Arguments set_oom _ _ /.
Arguments set_wire _ _ /.
Arguments set_alarm _ _ /.
Arguments set_killed _ _ /.
Arguments set_replies _ _ /.

Abbreviation is_state c x := (bool_decide (state c = x)).

Definition NTCB : nat := 128.
Definition RXQ : Z := 2048.
Definition SNDBUF : Z := 2048.
Definition MSS : Z := 1024.
Definition NOOO : nat := 3.
Definition NREF : nat := 3.
Definition OOOSEG : Z := 1200.
Definition NARP : nat := 4.
Definition NPFD : nat := 4.
Definition RTO_MIN : Z := 200.
Definition RTO_MAX : Z := 8000.
Definition RTO_INITIAL : Z := 300.
Definition RTO_TRIES : Z := 5.
Definition TIME_WAIT_MS : Z := 2000.
Definition RETRY_MS : Z := 20.

Definition no_parked : parked := mkParked false 0 0 0.
Definition no_held : held := mkHeld 0 false [].
(** What [umemset(c, 0, sizeof ( *c))] leaves. *)
Definition zero_tcb : tcb :=
  mkTcb T_FREE [0; 0; 0; 0] 0 0 0 0 0 0 0 [] false false 0 0 0 0 0 0 0 0 false 0 0 0 0 0 0 []
    (replicate NOOO no_held) 0 no_parked no_parked false (replicate NREF (false, 0)) false 0 false.

(** ** Connections by slot *)

Definition tcb_at (i : nat) : prog net tcb := λ s,
  match tcbs s !! i with Some (Some c) => Some (c, s) | _ => None end.
Definition put_tcb (i : nat) (c : tcb) : prog net () := λ s,
  match tcbs s !! i with Some (Some _) => Some ((), s <| tcbs := <[i := Some c]> (tcbs s) |>) | _ => None end.
Definition on_tcb (i : nat) (f : tcb → tcb) : prog net () := let* c := tcb_at i in put_tcb i (f c).
(** Run [f] over the slots from [i] on. *)
Fixpoint each_slot (n i : nat) (f : nat → prog net ()) : prog net () :=
  match n with O => pret () | S n' => let* _ := f i in each_slot n' (S i) f end.

(** ** The surroundings *)

Definition unow_ms (s : net) : Z := ticks s / 10000.
Definition net_transmit (f : list Z) : prog net () := modify (λ s, s <| wire := wire s ++ [f] |>).
Definition sys_alarm (ms : Z) : prog net () := modify (λ s, s <| alarm := ms |>).
Definition sys_alive (t : Z) (s : net) : bool := bool_decide (t ∈ alive s).
Definition sys_kill (t : Z) : prog net () := modify (λ s, s <| killed := killed s ++ [t] |>).
Definition mem_alloc : prog net bool := λ s,
  match oom s with [] => Some (true, s) | b :: l => Some (negb b, s <| oom := l |>) end.
(** A reply reaches a task that waits for one, and is refused otherwise. *)
Definition net_reply (to : Z) (r : vfs_req) : prog net bool := λ s,
  if bool_decide (to ∈ waiting s)
  then Some (true, s <| replies := replies s ++ [(to, r)] |> <| waiting := filter (.≠ to) (waiting s) |>)
  else Some (false, s).
