(* ===== verification/Net.v ===== *)
(** * The network stack (src/src/net_ip.c)

    ARP, IPv4, ICMP, UDP, the resolver and TCP, down to the frames handed
    to the driver.  What the server prints on the console has no part in
    its behaviour and is left out.  Time stands still while one event is
    handled.  Reading past the end of a short packet gives zeros. *)
From stdpp Require Import base list numbers option.
From S2P Require Import Prelude Mem Req NetWire NetState.
Local Open Scope Z_scope.

(** ** Addresses *)

Definition me_mask : list Z := [255; 255; 255; 0].
Definition gw_ip : list Z := [10; 0; 2; 2].
Definition dns_ip : list Z := [10; 0; 2; 3].
Definition UDP_PORT : Z := 9999.
Definition TCP_PORT : Z := 9998.
Definition LISTEN_PORT : Z := 7.
Definition ip_eq (a b : list Z) : bool := bool_decide (a = b).
Definition on_link (me ip : list Z) : bool :=
  forallb (λ i, Z.land (Z.lxor (byte_at ip i) (byte_at me i)) (byte_at me_mask i) =? 0) (seq 0 4).

Fixpoint arp_lookup (l : list arpent) (ip : list Z) : option (list Z) :=
  match l with
  | [] => None
  | e :: l' => if ae_used e && ip_eq (ae_ip e) ip then Some (ae_mac e) else arp_lookup l' ip
  end.
(** The entry that has the address gets the new hardware address... *)
Fixpoint arp_replace (l : list arpent) (ip mac : list Z) : option (list arpent) :=
  match l with
  | [] => None
  | e :: l' => if ae_used e && ip_eq (ae_ip e) ip then Some (e <| ae_mac := mac |> :: l')
               else cons e <$> arp_replace l' ip mac
  end.
(** ...or the first entry that is free takes both. *)
Fixpoint arp_fill (l : list arpent) (ip mac : list Z) : list arpent :=
  match l with
  | [] => []
  | e :: l' => if ae_used e then e :: arp_fill l' ip mac else mkArpent ip mac true :: l'
  end.
Definition arp_learn (l : list arpent) (ip mac : list Z) : list arpent :=
  match arp_replace l ip mac with Some l' => l' | None => arp_fill l ip mac end.

Definition bcast : list Z := replicate 6 255.
Definition arp_request (target : list Z) : prog net () :=
  let* s := gets id in
  net_transmit (eth_hdr bcast (net_mac s) ETH_ARP ++ arp_packet 1 (net_mac s) (me_ip s) (replicate 6 0) target).
Definition arp_reply (tip tmac : list Z) : prog net () :=
  let* s := gets id in
  net_transmit (eth_hdr tmac (net_mac s) ETH_ARP ++ arp_packet 2 (net_mac s) (me_ip s) tmac tip).

(** The Ethernet and IP headers for a payload of [len] bytes, or a question
    for the hardware address of the next hop. *)
Definition ip_begin (dst : list Z) (proto len : Z) : prog net (option (list Z)) :=
  let* s := gets id in
  let hop := if on_link (me_ip s) dst then dst else gw_ip in
  match arp_lookup (arp_cache s) hop with
  | None => let* _ := arp_request hop in pret None
  | Some mac =>
      let* _ := modify (λ s, s <| ip_id := u32 (ip_id s + 1) |>) in
      pret (Some (eth_hdr mac (net_mac s) ETH_IPV4 ++ ip_hdr (me_ip s) dst proto (ip_id s) len))
  end.

Definition ip_src (ip : list Z) : list Z := take 4 (drop 12 ip).
Definition ip_dst (ip : list Z) : list Z := take 4 (drop 16 ip).
(** [static uint8 out[1600]]: an answer that does not fit overruns it. *)
Definition OUT_MAX : Z := 1600.
Definition icmp_input (ip : list Z) (ihl tot : Z) : prog net () :=
  let ic := take (Z.to_nat (tot - ihl)) (drop (Z.to_nat ihl) ip) in
  if tot - ihl <? 8 then pret ()
  else if negb (byte_at ic 0 =? 8) then pret ()
  else
    let* o := ip_begin (ip_src ip) IP_ICMP (tot - ihl) in
    match o with
    | None => pret ()
    | Some h => if OUT_MAX <? 34 + (tot - ihl) then diverge else net_transmit (h ++ echo_reply ic)
    end.

Definition udp_send (dst : list Z) (sport dport : Z) (d : list Z) : prog net Z :=
  let* o := ip_begin dst IP_UDP (8 + Z.of_nat (length d)) in
  match o with
  | None => pret (-1)
  | Some h =>
      let* me := gets me_ip in
      let* _ := net_transmit (h ++ udp_packet me dst sport dport d) in
      pret (Z.of_nat (length d))
  end.

(** ** Timers *)

Definition sooner (t best : Z) : Z := if negb (t =? 0) && ((best =? 0) || (t <? best)) then t else best.
Fixpoint soonest (l : list (option tcb)) (best : Z) : Z :=
  match l with
  | [] => best
  | Some c :: l' => soonest l' (if is_state c T_FREE then best else sooner (tw_at c) (sooner (rt_at c) best))
  | None :: l' => soonest l' best
  end.
Definition timers_rearm : prog net () :=
  let* s := gets id in
  let now := unow_ms s in
  let best := soonest (tcbs s) (sooner (retry_at s) (dns_at s)) in
  if best =? 0 then sys_alarm 0
  else sys_alarm (if now <? best then i32 (best - now) else 1).

(** ** Answers to parked requests *)

Definition FD_STATUS0 : Z := 1.
Definition FD_CTL0 : Z := 8.
Definition FD_CONN0 : Z := 16.

Definition app_ip (a : list Z) : list Z :=
  uutoa (byte_at a 0) ++ [46] ++ uutoa (byte_at a 1) ++ [46] ++ uutoa (byte_at a 2) ++ [46] ++ uutoa (byte_at a 3).

(** The answer, [n] bytes of [d] when that is positive, is copied into a
    request on the stack, which has room for [VFS_DATA_MAX]. *)
Definition reply_read (p : parked) (d : list Z) (n : Z) : prog net parked :=
  if VFS_DATA_MAX <? n then diverge
  else
    let* ok := net_reply (pk_task p) (mkReq VFS_READ (pk_fd p) [] (pk_len p) 0 n (take (Z.to_nat n) d)) in
    pret (if ok : bool then p <| pk_used := false |> else p).
Definition reply_done (task f o res : Z) : prog net bool := net_reply task (mkReq o f [] 0 0 res []).
Definition ctl_answer (p : parked) (text : list Z) (ip : option (list Z)) : prog net parked :=
  let pi := pk_fd p - FD_CTL0 in
  if (pi <? 0) || (Z.of_nat NPFD <=? pi) then pret (p <| pk_used := false |>)
  else
    let ans := text ++ match ip with Some a => app_ip a ++ [10] | None => [] end in
    let* _ := modify (λ s, s <| pfd := alter (λ f, f <| pf_buf := ans |> <| pf_off := 0 |>) (Z.to_nat pi) (pfd s) |>) in
    let* ok := reply_done (pk_task p) (pk_fd p) VFS_WRITE (pk_len p) in
    pret (if ok : bool then p <| pk_used := false |> else p).
(** [if (dns_waiter.used) ctl_answer(&dns_waiter, ...)] *)
Definition dns_answer (text : list Z) (ip : option (list Z)) : prog net () :=
  let* w := gets dns_waiter in
  if pk_used w then let* w' := ctl_answer w text ip in modify (λ s, s <| dns_waiter := w' |>) else pret ().

(** ** The resolver *)

Definition DNS_PORT : Z := 53.
Definition DNS_MY_PORT : Z := 30053.
Definition DNS_TIMEOUT : Z := 1000.
Definition DNS_TRIES : Z := 3.

(** The characters before the next dot. *)
Fixpoint label (name : list Z) : list Z :=
  match name with [] => [] | c :: n' => if c =? 46 then [] else c :: label n' end.
Fixpoint dns_encode_loop (n : nat) (name : list Z) : list Z :=
  match name, n with
  | [], _ | _, O => [0]
  | _, S n' =>
      let l := label name in
      let rest := drop (length l) name in
      u8 (Z.of_nat (length l)) :: l ++ dns_encode_loop n' (match rest with [] => [] | _ :: r => r end)
  end.
Definition dns_encode (name : list Z) : list Z := dns_encode_loop (length name) name.
Definition dns_query (id : Z) (name : list Z) : list Z :=
  put16 id ++ put16 0x0100 ++ put16 1 ++ put16 0 ++ put16 0 ++ put16 0 ++ dns_encode name ++ put16 1 ++ put16 1.
Definition dns_send (name : list Z) : prog net () :=
  let* _ := modify (λ s, s <| dns_id := Z.land (ticks s) 0xffff |>) in
  let* id := gets dns_id in
  let* _ := udp_send dns_ip DNS_MY_PORT DNS_PORT (dns_query id name) in
  pret ().

(** What follows one name, spelled out or a pointer. *)
Fixpoint dns_skip_loop (n : nat) (p : list Z) : list Z :=
  match p, n with
  | [], _ | _, O => []
  | b :: p', S n' =>
      if Z.land b 0xc0 =? 0xc0 then drop 1 p'
      else if b =? 0 then p'
      else dns_skip_loop n' (drop (Z.to_nat b) p')
  end.
Definition dns_skip (p : list Z) : list Z := dns_skip_loop (length p) p.
Fixpoint dns_questions (qd : nat) (p : list Z) : list Z :=
  match qd, p with
  | O, _ | _, [] => p
  | S qd', _ => dns_questions qd' (drop 4 (dns_skip p))
  end.
Inductive dns_outcome := DnsBroken | DnsAddress (ip : list Z) | DnsNone.
Fixpoint dns_answers (an : nat) (p : list Z) : dns_outcome :=
  match an, p with
  | O, _ | _, [] => DnsNone
  | S an', _ =>
      let p := dns_skip p in
      if (length p <? 10)%nat then DnsBroken
      else
        let rdlen := Z.to_nat (get16 (drop 8 p)) in
        let rd := drop 10 p in
        if (length rd <? rdlen)%nat then DnsBroken
        else if (get16 p =? 1) && (rdlen =? 4)%nat then DnsAddress (take 4 rd)
        else dns_answers an' (drop rdlen rd)
  end.
Definition dns_input (m : list Z) : prog net () :=
  let* s := gets id in
  if (length m <? 12)%nat || negb (get16 m =? dns_id s) || (dns_at s =? 0) then pret ()
  else
    let finish text ip :=
      let* _ := modify (λ s, s <| dns_at := 0 |>) in
      let* _ := dns_answer text ip in
      timers_rearm in
    if negb (Z.land (get16 (drop 2 m)) 0xf =? 0) then finish (str "error no such name" ++ [10]) None
    else
      let p := dns_questions (Z.to_nat (get16 (drop 4 m))) (drop 12 m) in
      match dns_answers (Z.to_nat (get16 (drop 6 m))) p with
      | DnsBroken => pret ()
      | DnsAddress ip => finish (str "ok ") (Some ip)
      | DnsNone => finish (str "error no address" ++ [10]) None
      end.
Definition udp_input (u : list Z) : prog net () :=
  if (length u <? 8)%nat then pret ()
  else if get16 (drop 2 u) =? DNS_MY_PORT then dns_input (drop 8 u)
  else pret ().
