(* ===== verification/NetTcp.v ===== *)
(** * TCP (src/src/net_ip.c)

    The connection table, output, reassembly, acknowledgements, the state
    machine of [tcp_segment] and the retransmission timer, and around them
    what wakes parked readers and what takes a frame from the driver. *)
From stdpp Require Import base list numbers option.
From S2P Require Import Prelude Mem Req NetWire NetState Net.
Local Open Scope Z_scope.

(** ** Sequence numbers *)

Definition seq_lt (a b : Z) : bool := i32 (a - b) <? 0.
Definition seq_le (a b : Z) : bool := i32 (a - b) <=? 0.
Definition seq_gt (a b : Z) : bool := 0 <? i32 (a - b).

(** ** The connection table *)

Fixpoint free_slot (l : list (option tcb)) (i : nat) : option nat :=
  match l with [] => None | None :: _ => Some i | Some _ :: l' => free_slot l' (S i) end.
Definition fresh_tcb : tcb :=
  zero_tcb <| peer_mss := 536 |> <| rto := RTO_INITIAL |> <| srtt := -1 |> <| cwnd := 2 * MSS |> <| ssthresh := 64 * 1024 |>.
Definition tcb_alloc : prog net (option nat) :=
  let* s := gets id in
  match free_slot (tcbs s) 0 with
  | None => pret None
  | Some i =>
      let* c := mem_alloc in
      if negb c then pret None
      else
        let* b := mem_alloc in
        let* q := mem_alloc in
        if negb b || negb q then pret None
        else
          let* _ := modify (λ s, s <| tcbs := <[i := Some fresh_tcb]> (tcbs s) |>) in
          pret (Some i)
  end.
Definition tcb_free (i : nat) : prog net () :=
  let* _ := tcb_at i in modify (λ s, s <| tcbs := <[i := None]> (tcbs s) |>).
(** The exact four-tuple, or the last listener on the port. *)
Fixpoint find_tcb (l : list (option tcb)) (i : nat) (listener : option nat) (ra : list Z) (rp lp : Z) : option nat :=
  match l with
  | [] => listener
  | None :: l' => find_tcb l' (S i) listener ra rp lp
  | Some c :: l' =>
      if is_state c T_FREE || negb (lport c =? lp) then find_tcb l' (S i) listener ra rp lp
      else if is_state c T_LISTEN then find_tcb l' (S i) (Some i) ra rp lp
      else if (rport c =? rp) && ip_eq (raddr c) ra then Some i
      else find_tcb l' (S i) listener ra rp lp
  end.
Definition tcb_find (ra : list Z) (rp lp : Z) (s : net) : option nat := find_tcb (tcbs s) 0 None ra rp lp.
Definition gen_iss (s : net) : Z := u32 (ticks s / 40).

(** ** Building and sending a segment *)

Definition rcv_window (c : tcb) : Z := let room := RXQ - Z.of_nat (length (rxq c)) in if 0 <? room then room else 0.
Definition tcp_build (dip : list Z) (sport dport seq ack flags wnd : Z) (d : list Z) (mss : Z) : prog net (option (list Z)) :=
  let hlen := if mss =? 0 then 20 else 24 in
  let* o := ip_begin dip IP_TCP (hlen + Z.of_nat (length d)) in
  match o with
  | None => pret None
  | Some h => let* me := gets me_ip in pret (Some (h ++ tcp_packet me dip sport dport seq ack flags wnd d mss))
  end.
Definition has (flags bit : Z) : bool := negb (Z.land flags bit =? 0).
(** [true] when the segment was built, [false] for the -1 of an unknown
    hardware address. *)
Definition seg_xmit (i : nat) (flags seq : Z) (d : list Z) : prog net bool :=
  let* c := tcb_at i in
  let mss := if has flags TCP_SYN then MSS else 0 in
  let* f := tcp_build (raddr c) (lport c) (rport c) seq (rcv_nxt c) flags (rcv_window c) d mss in
  match f with
  | None =>
      let* _ := (if (length d =? 0)%nat then
                   let* now := gets unow_ms in
                   let* _ := on_tcb i (λ c, c <| rt_pending := flags |> <| rt_at := now + RTO_INITIAL |>) in
                   timers_rearm
                 else pret ()) in
      pret false
  | Some frame =>
      let* _ := on_tcb i (λ c, c <| rt_pending := 0 |>) in
      let* drop := gets drop_next in
      if drop && (negb (length d =? 0)%nat || has flags (Z.lor TCP_SYN TCP_FIN))
      then let* _ := modify (λ s, s <| drop_next := false |>) in pret true
      else let* _ := net_transmit frame in pret true
  end.

Definition timer_start (i : nat) : prog net () :=
  let* c := tcb_at i in
  if rt_at c =? 0 then
    let* now := gets unow_ms in
    let* _ := put_tcb i (c <| rt_at := now + rto c |>) in
    timers_rearm
  else pret ().
Definition timer_stop (i : nat) : prog net () :=
  let* _ := on_tcb i (λ c, c <| rt_at := 0 |> <| rt_tries := 0 |>) in
  timers_rearm.

(** ** Output *)

(** One segment of data after another while there is something to send and
    room for it; [n] bounds the turns by the bytes of the buffer. *)
Fixpoint output_loop (n : nat) (i : nat) (usable : Z) : prog net () :=
  let* c := tcb_at i in
  let off := i32 (snd_nxt c - snd_base c) in
  let avail := Z.of_nat (length (snd_buf c)) - off in
  if (off <? 0) || (avail <=? 0) || (usable =? 0) then pret ()
  else
    let k := Z.min (Z.min avail (peer_mss c)) usable in
    let* ok := seg_xmit i (Z.lor TCP_ACK TCP_PSH) (snd_nxt c) (take (Z.to_nat k) (drop (Z.to_nat off) (snd_buf c))) in
    if negb ok then pret ()
    else
      let* now := gets unow_ms in
      let* _ := on_tcb i (λ c, if rtt_timing c then c
                               else c <| rtt_timing := true |> <| rtt_seq := u32 (snd_nxt c + k - 1) |> <| rtt_at := now |>) in
      let* _ := on_tcb i (λ c, c <| snd_nxt := u32 (snd_nxt c + k) |>) in
      let* _ := timer_start i in
      match n with O => diverge | S n' => output_loop n' i (usable - k) end.
Definition output_fin (i : nat) : prog net () :=
  let* c := tcb_at i in
  if snd_fin c && negb (fin_sent c) && (snd_nxt c =? u32 (snd_base c + Z.of_nat (length (snd_buf c)))) then
    let* ok := seg_xmit i (Z.lor TCP_ACK TCP_FIN) (snd_nxt c) [] in
    if negb ok then pret ()
    else
      let* _ := on_tcb i (λ c, c <| fin_sent := true |> <| snd_nxt := u32 (snd_nxt c + 1) |>) in
      timer_start i
  else pret ().
Definition usable_window (c : tcb) : Z :=
  let inflight := u32 (snd_nxt c - snd_una c) in
  let allowed := if snd_wnd c <? cwnd c then snd_wnd c else cwnd c in
  if inflight <? allowed then allowed - inflight else 0.
Definition output_syn (i : nat) (c : tcb) : prog net () :=
  if seq_lt (snd_nxt c) (snd_base c) then
    let f := Z.lor TCP_SYN (if is_state c T_SYN_RCVD then TCP_ACK else 0) in
    let* ok := seg_xmit i f (iss c) [] in
    if negb ok then pret ()
    else
      let* _ := on_tcb i (λ c, c <| snd_nxt := snd_base c |>) in
      timer_start i
  else pret ().
Definition tcp_output (i : nat) : prog net () :=
  let* c := tcb_at i in
  if is_state c T_SYN_SENT || is_state c T_SYN_RCVD then output_syn i c
  else if is_state c T_FREE || is_state c T_LISTEN || is_state c T_TIME_WAIT then pret ()
  else
    let* _ := output_loop (length (snd_buf c)) i (usable_window c) in
    output_fin i.
Definition send_ack (i : nat) : prog net () :=
  let* c := tcb_at i in
  let* _ := seg_xmit i TCP_ACK (snd_nxt c) [] in
  pret ().
(** [d] is the buffer of the request, [len] what the request says of it. *)
Definition tcp_write (i : nat) (d : list Z) (len : Z) : prog net Z :=
  let* c := tcb_at i in
  let room := SNDBUF - Z.of_nat (length (snd_buf c)) in
  let n := if len <? room then len else room in
  if n <=? 0 then pret 0
  else if Z.of_nat (length d) <? n then diverge
  else
    let* _ := put_tcb i (c <| snd_buf := snd_buf c ++ take (Z.to_nat n) d |>) in
    let* _ := tcp_output i in
    pret n.

(** ** Round-trip time *)

Definition clamp_rto (r : Z) : Z :=
  let r := if r <? RTO_MIN then RTO_MIN else r in if RTO_MAX <? r then RTO_MAX else r.
Definition rtt_update (m : Z) (c : tcb) : tcb :=
  let m := if m <? 1 then 1 else m in
  let c := if srtt c <? 0 then c <| srtt := m |> <| rttvar := m ÷ 2 |>
           else
             let err := Z.abs (m - srtt c) in
             c <| rttvar := (3 * rttvar c + err) ÷ 4 |> <| srtt := (7 * srtt c + m) ÷ 8 |> in
  c <| rto := clamp_rto (srtt c + 4 * rttvar c) |>.

(** ** Opening and closing *)

Definition tcp_listen (port : Z) : prog net (option nat) :=
  let* o := tcb_alloc in
  match o with
  | None => pret None
  | Some i => let* _ := on_tcb i (λ c, c <| state := T_LISTEN |> <| lport := port |>) in pret (Some i)
  end.
(** The send side of a connection that begins. *)
Definition open_send (n : Z) (c : tcb) : tcb :=
  c <| iss := n |> <| snd_una := n |> <| snd_nxt := n |> <| snd_base := u32 (n + 1) |>.
Definition tcp_connect (ip : list Z) (port : Z) : prog net (option nat) :=
  let* o := tcb_alloc in
  match o with
  | None => pret None
  | Some i =>
      let* s := gets id in
      let* _ := modify (λ s, s <| next_port := u32 (next_port s + 1) |>) in
      let* _ := on_tcb i (λ c, open_send (gen_iss s)
        (c <| raddr := ip |> <| lport := next_port s |> <| rport := port |> <| state := T_SYN_SENT |>)) in
      let* _ := tcp_output i in
      pret (Some i)
  end.
Definition tcp_close (i : nat) : prog net () :=
  let* c := tcb_at i in
  match state c with
  | T_ESTABLISHED =>
      let* _ := put_tcb i (c <| snd_fin := true |> <| state := T_FIN_WAIT_1 |>) in tcp_output i
  | T_CLOSE_WAIT =>
      let* _ := put_tcb i (c <| snd_fin := true |> <| state := T_LAST_ACK |>) in tcp_output i
  | T_LISTEN | T_SYN_SENT => let* _ := tcb_free i in timers_rearm
  | _ => pret ()
  end.

(** ** Reassembly *)

Definition TCP_INTR : Z := 3.
Fixpoint index_of (b : Z) (l : list Z) (k : nat) : option nat :=
  match l with [] => None | c :: l' => if c =? b then Some k else index_of b l' (S k) end.
(** Where the interrupt character is, if somebody is to be interrupted by
    it; he is killed. *)
Definition intr_check (i : nat) (d : list Z) : prog net (option nat) :=
  let* c := tcb_at i in
  if 0 <? intr_task c then
    match index_of TCP_INTR d 0 with
    | None => pret None
    | Some k =>
        let* live := gets (sys_alive (intr_task c)) in
        let* _ := (if live : bool then sys_kill (intr_task c) else pret ()) in
        let* _ := put_tcb i (c <| intr_task := 0 |> <| intr_fired := true |>) in
        pret (Some k)
    end
  else pret None.
Definition rcv_accept (i : nat) (d : list Z) : prog net Z :=
  let* cut := intr_check i d in
  let* c := tcb_at i in
  let room := RXQ - Z.of_nat (length (rxq c)) in
  let n := if Z.of_nat (length d) <? room then Z.of_nat (length d) else room in
  if n <=? 0 then pret 0
  else
    let got := take (Z.to_nat n) d in
    let kept := match cut with
                | Some k => if (k <? Z.to_nat n)%nat then take k got ++ drop (S k) got else got
                | None => got
                end in
    let* _ := put_tcb i (c <| rxq := rxq c ++ kept |>) in
    pret n.

(** One look at the held segment [k]; [true] if something was done. *)
Definition ooo_try (i k : nat) : prog net bool :=
  let* c := tcb_at i in
  let h := nth k (ooo c) no_held in
  let l := Z.of_nat (length (h_data h)) in
  if negb (h_used h) then pret false
  else if seq_gt (h_seq h) (rcv_nxt c) then pret false
  else if seq_le (u32 (h_seq h + l)) (rcv_nxt c) then
    let* _ := put_tcb i (c <| ooo := <[k := mkHeld (h_seq h) false []]> (ooo c) |>) in
    pret true
  else
    let skip := i32 (rcv_nxt c - h_seq h) in
    let* n := rcv_accept i (drop (Z.to_nat skip) (h_data h)) in
    let* _ := on_tcb i (λ c, c <| rcv_nxt := u32 (rcv_nxt c + n) |>) in
    let* _ := (if n =? l - skip then on_tcb i (λ c, c <| ooo := <[k := mkHeld (h_seq h) false []]> (ooo c) |>) else pret ()) in
    pret true.
Fixpoint ooo_round (n i k : nat) : prog net bool :=
  match n with
  | O => pret false
  | S n' => let* a := ooo_try i k in let* b := ooo_round n' i (S k) in pret (a || b)
  end.
(** [for (progress = 1; progress; )]: every turn but the last one frees a
    held segment or takes a byte into the queue, or nothing ever will. *)
Fixpoint ooo_loop (n i : nat) : prog net () :=
  let* progress := ooo_round NOOO i 0 in
  if negb progress then pret ()
  else match n with O => diverge | S n' => ooo_loop n' i end.
Definition ooo_fuel : nat := Z.to_nat RXQ + NOOO + 1.
Definition ooo_drain (i : nat) : prog net () := ooo_loop ooo_fuel i.
Fixpoint free_held (l : list held) (k : nat) : option nat :=
  match l with [] => None | h :: l' => if h_used h then free_held l' (S k) else Some k end.
Definition ooo_store (i : nat) (seq : Z) (d : list Z) : prog net () :=
  let d := take (Z.to_nat OOOSEG) d in
  let* c := tcb_at i in
  if existsb (λ h, h_used h && (h_seq h =? seq)) (ooo c) then pret ()
  else
    match free_held (ooo c) 0 with
    | None => pret ()
    | Some k =>
        let* room := mem_alloc in
        if negb room then pret ()
        else put_tcb i (c <| ooo := <[k := mkHeld seq true d]> (ooo c) |>)
    end.
Definition rcv_data (i : nat) (seq : Z) (d : list Z) : prog net () :=
  let* c := tcb_at i in
  if seq_le (u32 (seq + Z.of_nat (length d))) (rcv_nxt c) then pret ()
  else
    let '(seq, d) := if seq_lt seq (rcv_nxt c) then (rcv_nxt c, drop (Z.to_nat (i32 (rcv_nxt c - seq))) d) else (seq, d) in
    if seq =? rcv_nxt c then
      let* n := rcv_accept i d in
      let* _ := on_tcb i (λ c, c <| rcv_nxt := u32 (rcv_nxt c + n) |>) in
      ooo_drain i
    else ooo_store i seq d.

(** ** Input *)

(** A segment as [tcp_segment] reads it. *)
Record segment := mkSegment
  { g_flags : Z; g_seq : Z; g_ack : Z; g_sport : Z; g_dport : Z; g_wnd : Z; g_opts : list Z; g_data : list Z }.
Definition read_segment (t : list Z) : segment :=
  mkSegment (byte_at t 13) (get32 (drop 4 t)) (get32 (drop 8 t)) (get16 t) (get16 (drop 2 t)) (get16 (drop 14 t))
    (drop 20 (take (Z.to_nat (seg_hlen t)) t)) (drop (Z.to_nat (seg_hlen t)) t).

(** A reset for the segment [g] that came from [dip]. *)
Definition tcp_reset (dip : list Z) (g : segment) : prog net () :=
  let fl := g_flags g in
  let '(rseq, rack, rflags) :=
    if has fl TCP_ACK then (g_ack g, 0, TCP_RST)
    else (0, u32 (g_seq g + Z.of_nat (length (g_data g)) + (if has fl (Z.lor TCP_SYN TCP_FIN) then 1 else 0)),
          Z.lor TCP_RST TCP_ACK) in
  let* f := tcp_build dip (g_dport g) (g_sport g) rseq rack rflags 0 [] 0 in
  match f with None => pret () | Some frame => net_transmit frame end.

Fixpoint options_loop (n : nat) (o : list Z) (c : tcb) : tcb :=
  match n, o with
  | O, _ | _, [] => c
  | S n', 0 :: _ => c
  | S n', 1 :: o' => options_loop n' o' c
  | S n', k :: l :: o' =>
      if l <? 2 then c
      else
        let m := get16 o' in
        let c := if (k =? 2) && (l =? 4) && (2 <=? length o')%nat && (128 <=? m) && (m <=? 1460)
                 then c <| peer_mss := m |> else c in
        options_loop n' (drop (Z.to_nat l) o) c
  | S n', [_] => c
  end.
Definition parse_options (o : list Z) (c : tcb) : tcb := options_loop (length o) o c.

Definition all_acked (c : tcb) : bool := snd_una c =? snd_nxt c.
Definition enter_time_wait (i : nat) : prog net () :=
  let* now := gets unow_ms in
  let* _ := on_tcb i (λ c, c <| state := T_TIME_WAIT |> <| rt_at := 0 |> <| tw_at := now + TIME_WAIT_MS |>) in
  timers_rearm.
(** Half of what was in flight, at least two segments. *)
Definition half_flight (c : tcb) : Z :=
  let flight := u32 (snd_nxt c - snd_una c) in
  if 2 * MSS <? flight / 2 then flight / 2 else 2 * MSS.
(** Back to the oldest byte that is not acknowledged. *)
Definition go_back (c : tcb) : tcb := c <| snd_nxt := snd_una c |> <| fin_sent := false |> <| rtt_timing := false |>.
Definition drop_acked (ack : Z) (c : tcb) : tcb :=
  if seq_gt ack (snd_base c) then
    let d := i32 (ack - snd_base c) in
    let len := Z.of_nat (length (snd_buf c)) in
    let d := if len <? d then len else d in
    if 0 <? d then c <| snd_buf := drop (Z.to_nat d) (snd_buf c) |> <| snd_base := u32 (snd_base c + d) |> else c
  else c.
Definition grow_cwnd (c : tcb) : tcb :=
  let w := if cwnd c <? ssthresh c then cwnd c + MSS
           else cwnd c + MSS * MSS / (if cwnd c =? 0 then MSS else cwnd c) in
  c <| cwnd := if 65535 <? w then 65535 else w |>.
Definition dup_ack (i : nat) (ack : Z) : prog net () :=
  let* c := tcb_at i in
  if (ack =? snd_una c) && negb (snd_una c =? snd_nxt c) then
    let c := c <| dupacks := dupacks c + 1 |> in
    let* _ := put_tcb i c in
    if dupacks c =? 3 then
      let* _ := put_tcb i (go_back (c <| ssthresh := half_flight c |> <| cwnd := half_flight c |>)) in
      tcp_output i
    else pret ()
  else pret ().
Definition ack_input (i : nat) (ack : Z) : prog net () :=
  let* c := tcb_at i in
  if seq_gt ack (snd_nxt c) then pret ()
  else if seq_le ack (snd_una c) then dup_ack i ack
  else
    let* now := gets unow_ms in
    let c := c <| dupacks := 0 |> in
    let c := if rtt_timing c && seq_le (rtt_seq c) (u32 (ack - 1))
             then (rtt_update (i32 (now - rtt_at c)) c) <| rtt_timing := false |> else c in
    let c := grow_cwnd ((drop_acked ack c) <| snd_una := ack |>) in
    let* _ := put_tcb i c in
    if all_acked c then timer_stop i
    else
      let* _ := put_tcb i (c <| rt_at := now + rto c |> <| rt_tries := 0 |>) in
      timers_rearm.

Definition abort_waiters (i : nat) (why : list Z) : prog net () :=
  let* c := tcb_at i in
  let* _ := (if pk_used (opener c) then let* p := ctl_answer (opener c) why None in on_tcb i (λ c, c <| opener := p |>)
             else pret ()) in
  if pk_used (reader c) then let* p := reply_read (reader c) [] 0 in on_tcb i (λ c, c <| reader := p |>) else pret ().
Definition ref_count (c : tcb) : Z := Z.of_nat (length (filter (λ r, r.1 = true) (refs c))).

(** LISTEN *)
Definition seg_listen (sip : list Z) (g : segment) : prog net () :=
  if has (g_flags g) TCP_RST then pret ()
  else if negb (has (g_flags g) TCP_SYN) then tcp_reset sip g
  else
    let* o := tcb_alloc in
    match o with
    | None => pret ()
    | Some n =>
        let* s := gets id in
        let* _ := on_tcb n (λ c, parse_options (g_opts g) (open_send (gen_iss s)
          (c <| raddr := sip |> <| lport := g_dport g |> <| rport := g_sport g |> <| irs := g_seq g |>
             <| rcv_nxt := u32 (g_seq g + 1) |> <| snd_wnd := g_wnd g |> <| state := T_SYN_RCVD |>))) in
        tcp_output n
    end.
(** SYN-SENT *)
Definition seg_syn_sent (i : nat) (sip : list Z) (g : segment) : prog net () :=
  if negb (has (g_flags g) TCP_SYN) then pret ()
  else
    let* _ := on_tcb i (λ c, parse_options (g_opts g)
      (c <| irs := g_seq g |> <| rcv_nxt := u32 (g_seq g + 1) |> <| snd_wnd := g_wnd g |>)) in
    let* c := tcb_at i in
    if has (g_flags g) TCP_ACK then
      if seq_le (g_ack g) (iss c) || seq_gt (g_ack g) (snd_nxt c) then tcp_reset sip g
      else
        let* _ := ack_input i (g_ack g) in
        let* _ := on_tcb i (λ c, c <| state := T_ESTABLISHED |>) in
        send_ack i
    else
      let* _ := put_tcb i (c <| state := T_SYN_RCVD |> <| snd_nxt := iss c |>) in
      tcp_output i.
(** The switch over the state; [true] to go on with the data. *)
Definition seg_state (i : nat) (g : segment) : prog net bool :=
  let* c := tcb_at i in
  let acked := fin_sent c && all_acked c in
  match state c with
  | T_SYN_RCVD =>
      if negb (has (g_flags g) TCP_ACK) then pret false
      else let* _ := put_tcb i (c <| state := T_ESTABLISHED |>) in pret true
  | T_FIN_WAIT_1 =>
      let* _ := (if acked then put_tcb i (c <| state := T_FIN_WAIT_2 |>) else pret ()) in pret true
  | T_CLOSING =>
      if acked then let* _ := enter_time_wait i in pret false else pret true
  | T_LAST_ACK =>
      if acked then let* _ := tcb_free i in let* _ := timers_rearm in pret false else pret true
  | T_TIME_WAIT =>
      let* _ := (if has (g_flags g) TCP_FIN then send_ack i else pret ()) in pret false
  | _ => pret true
  end.
(** [true] to go on with the FIN. *)
Definition seg_data (i : nat) (g : segment) : prog net bool :=
  if (length (g_data g) =? 0)%nat then pret true
  else
    let* c := tcb_at i in
    let before := rcv_nxt c in
    let* _ := rcv_data i (g_seq g) (g_data g) in
    let* _ := send_ack i in
    let* c := tcb_at i in
    pret (negb ((before =? rcv_nxt c) && negb (g_seq g =? before))).
Definition seg_fin (i : nat) (g : segment) : prog net () :=
  let* c := tcb_at i in
  if has (g_flags g) TCP_FIN && (u32 (g_seq g + Z.of_nat (length (g_data g))) =? rcv_nxt c) then
    let* _ := put_tcb i (c <| rcv_nxt := u32 (rcv_nxt c + 1) |>) in
    match state c with
    | T_ESTABLISHED =>
        let* _ := on_tcb i (λ c, c <| state := T_CLOSE_WAIT |>) in
        let* _ := send_ack i in
        let* c := tcb_at i in
        if ref_count c =? 0 then tcp_close i else pret ()
    | T_FIN_WAIT_1 =>
        let* _ := send_ack i in
        let* c := tcb_at i in
        if fin_sent c && all_acked c then enter_time_wait i
        else on_tcb i (λ c, c <| state := T_CLOSING |>)
    | T_FIN_WAIT_2 => let* _ := send_ack i in enter_time_wait i
    | _ => pret ()
    end
  else pret ().
Definition seg_rest (i : nat) (g : segment) : prog net () :=
  let* _ := (if has (g_flags g) TCP_ACK then
               let* _ := on_tcb i (λ c, c <| snd_wnd := g_wnd g |>) in ack_input i (g_ack g)
             else pret ()) in
  let* go := seg_state i g in
  if negb go then pret ()
  else
    let* go := seg_data i g in
    if negb go then pret () else seg_fin i g.
Definition tcp_segment (sip t : list Z) : prog net () :=
  let* s := gets id in
  if (seg_hlen t <? 20) || (Z.of_nat (length t) <? seg_hlen t) then pret ()
  else if negb (l4_checksum IP_TCP sip (me_ip s) t =? 0) then pret ()
  else
    let g := read_segment t in
    match tcb_find sip (g_sport g) (g_dport g) s with
    | None => if has (g_flags g) TCP_RST then pret () else tcp_reset sip g
    | Some i =>
        let* c := tcb_at i in
        if is_state c T_LISTEN then seg_listen sip g
        else if has (g_flags g) TCP_RST then
          let* _ := abort_waiters i (str "error refused" ++ [10]) in
          let* _ := tcb_free i in
          timers_rearm
        else if is_state c T_SYN_SENT then seg_syn_sent i sip g
        else seg_rest i g
    end.

(** ** Waking those who wait *)

Definition conn_eof (c : tcb) : bool :=
  (length (rxq c) =? 0)%nat &&
  (is_state c T_CLOSE_WAIT || is_state c T_LAST_ACK || is_state c T_CLOSING || is_state c T_TIME_WAIT).
Definition conn_drop (i : nat) (n : Z) : prog net () :=
  let* c := tcb_at i in
  if n <=? 0 then pret ()
  else
    let* _ := put_tcb i (c <| rxq := drop (Z.to_nat n) (rxq c) |>) in
    if (rcv_window c =? 0) && is_state c T_ESTABLISHED then send_ack i else pret ().
(** The first bytes of the queue, for a buffer of [VFS_DATA_MAX] bytes. *)
Definition conn_take (i : nat) (want : Z) : prog net (list Z) :=
  let* c := tcb_at i in
  let n := if Z.of_nat (length (rxq c)) <? want then Z.of_nat (length (rxq c)) else want in
  if n <=? 0 then pret []
  else if VFS_DATA_MAX <? n then diverge
  else let* _ := conn_drop i n in pret (take (Z.to_nat n) (rxq c)).
Definition ok_slot (i : nat) : list Z := str "ok " ++ uutoa (Z.of_nat i) ++ [10].
(** One connection of the first loop; [true] when a reply was refused. *)
Definition wake_conn (i : nat) : prog net bool :=
  let* s := gets id in
  match nth i (tcbs s) None with
  | None => pret false
  | Some c =>
      if is_state c T_FREE then pret false
      else
        let* _ := (if pk_used (opener c) && negb (is_state c T_SYN_SENT) && negb (is_state c T_SYN_RCVD)
                   then let* p := ctl_answer (opener c) (ok_slot i) None in on_tcb i (λ c, c <| opener := p |>)
                   else pret ()) in
        if negb (pk_used (reader c)) then pret false
        else if negb (length (rxq c) =? 0)%nat then
          let have := Z.of_nat (length (rxq c)) in
          let n := if have <? pk_len (reader c) then have else pk_len (reader c) in
          let* p := reply_read (reader c) (rxq c) n in
          let* _ := on_tcb i (λ c, c <| reader := p |>) in
          if pk_used p then pret true else let* _ := conn_drop i n in pret false
        else if conn_eof c then
          let* p := reply_read (reader c) [] 0 in
          let* _ := on_tcb i (λ c, c <| reader := p |>) in
          pret false
        else pret false
  end.
Fixpoint wake_conns (n i : nat) : prog net bool :=
  match n with
  | O => pret false
  | S n' => let* a := wake_conn i in let* b := wake_conns n' (S i) in pret (a || b)
  end.
(** The first connection on the port that is up and that nobody was given. *)
Fixpoint unclaimed (l : list (option tcb)) (k i : nat) (port : Z) : option nat :=
  match l with
  | [] => None
  | Some c :: l' =>
      if negb (k =? i)%nat && (lport c =? port) && is_state c T_ESTABLISHED && negb (accepted c) then Some k
      else unclaimed l' (S k) i port
  | None :: l' => unclaimed l' (S k) i port
  end.
Definition wake_accept (i : nat) : prog net bool :=
  let* s := gets id in
  match nth i (tcbs s) None with
  | None => pret false
  | Some l =>
      if negb (is_state l T_LISTEN) || negb (pk_used (reader l)) then pret false
      else
        match unclaimed (tcbs s) 0 i (lport l) with
        | None => pret false
        | Some k =>
            let* p := ctl_answer (reader l) (ok_slot k) None in
            let* _ := on_tcb i (λ c, c <| reader := p |>) in
            if pk_used p then pret true
            else let* _ := on_tcb k (λ c, c <| accepted := true |>) in pret false
        end
  end.
Fixpoint wake_accepts (n i : nat) : prog net bool :=
  match n with
  | O => pret false
  | S n' => let* a := wake_accept i in let* b := wake_accepts n' (S i) in pret (a || b)
  end.
Definition net_wakeups : prog net () :=
  let* a := wake_conns NTCB 0 in
  let* b := wake_accepts NTCB 0 in
  let* s := gets id in
  let now := unow_ms s in
  if a || b then
    let* _ := modify (λ s, s <| retry_at := now + RETRY_MS |>) in timers_rearm
  else if negb (retry_at s =? 0) && (retry_at s <=? now) then
    let* _ := modify (λ s, s <| retry_at := 0 |>) in timers_rearm
  else pret ().

(** ** The reordering hook *)

Definition carries_data (t : list Z) : bool := seg_hlen t <? Z.of_nat (length t).
Definition hold_back (sip t : list Z) (s : net) : bool :=
  reorder_armed s && carries_data t && (Z.of_nat (length t) <=? 2048) && (get16 (drop 2 t) =? LISTEN_PORT) &&
  match tcb_find sip (get16 t) (get16 (drop 2 t)) s with
  | Some i => match nth i (tcbs s) None with Some c => is_state c T_ESTABLISHED | None => false end
  | None => false
  end.
Definition tcp_input (sip t : list Z) : prog net () :=
  let* s := gets id in
  if hold_back sip t s then
    modify (λ s, s <| reorder_armed := false |> <| hold_seg := t |> <| hold_sip := sip |>)
  else
    let overtakes := carries_data t || has (byte_at t 13) TCP_FIN in
    let* _ := tcp_segment sip t in
    let* _ := (if negb (length (hold_seg s) =? 0)%nat && overtakes then
                 let* _ := modify (λ s, s <| hold_seg := [] |>) in
                 tcp_segment (hold_sip s) (hold_seg s)
               else pret ()) in
    net_wakeups.

(** ** The clock *)

(** The tasks that hold a connection and have died. *)
Definition drop_dead (s : net) (c : tcb) : tcb :=
  let dead p := pk_used p && negb (sys_alive (pk_task p) s) in
  c <| reader := if dead (reader c) then (reader c) <| pk_used := false |> else reader c |>
    <| opener := if dead (opener c) then (opener c) <| pk_used := false |> else opener c |>
    <| refs := (λ r, if r.1 && negb (sys_alive r.2 s) then (false, r.2) else r) <$> refs c |>.
Definition reap_slot (i : nat) : prog net () :=
  let* s := gets id in
  match nth i (tcbs s) None with
  | None => pret ()
  | Some c =>
      if is_state c T_FREE then pret ()
      else
        let c' := drop_dead s c in
        let* _ := put_tcb i c' in
        if (0 <? ref_count c) && (ref_count c' =? 0) then tcp_close i else pret ()
  end.
Definition reap_dead_clients : prog net () :=
  let* _ := modify (λ s, s <| pfd := (λ f, if pf_used f && negb (sys_alive (pf_owner f) s) then f <| pf_used := false |> else f) <$> pfd s |>) in
  each_slot NTCB 0 reap_slot.
Definition dns_retry (now : Z) : prog net () :=
  let* s := gets id in
  if (dns_at s =? 0) || (now <? dns_at s) then pret ()
  else
    let* _ := modify (λ s, s <| dns_tries := dns_tries s + 1 |>) in
    if DNS_TRIES <=? dns_tries s + 1 then
      let* _ := modify (λ s, s <| dns_at := 0 |>) in dns_answer (str "error no answer" ++ [10]) None
    else
      let* _ := dns_send (dns_name s) in
      modify (λ s, s <| dns_at := now + DNS_TIMEOUT |>).
Definition timer_or (i : nat) (at_ : Z) : prog net () :=
  on_tcb i (λ c, if rt_at c =? 0 then c <| rt_at := at_ |> else c).
(** The retransmission timer of the connection [i] has run out. *)
Definition retransmit (i : nat) (now : Z) : prog net () :=
  let* c := tcb_at i in
  let r := if RTO_MAX <? rto c * 2 then RTO_MAX else rto c * 2 in
  let* _ := put_tcb i ((go_back (c <| ssthresh := half_flight c |> <| cwnd := MSS |> <| rto := r |>)) <| rt_at := 0 |>) in
  let* _ := tcp_output i in
  let* _ := on_tcb i (λ c', c' <| rt_tries := rt_tries c |>) in
  timer_or i (now + r).
Definition send_pending (i : nat) (now : Z) : prog net () :=
  let* c := tcb_at i in
  let* _ := put_tcb i (c <| rt_pending := 0 |> <| rt_at := 0 |>) in
  let* _ := (if has (rt_pending c) TCP_SYN then tcp_output i else send_ack i) in
  timer_or i (now + rto c).
Definition timeout_slot (now : Z) (i : nat) : prog net () :=
  let* s := gets id in
  match nth i (tcbs s) None with
  | None => pret ()
  | Some c =>
      if is_state c T_FREE then pret ()
      else if negb (tw_at c =? 0) && (tw_at c <=? now) then tcb_free i
      else if (rt_at c =? 0) || (now <? rt_at c) then pret ()
      else
        let* _ := put_tcb i (c <| rt_tries := rt_tries c + 1 |>) in
        if RTO_TRIES <? rt_tries c + 1 then
          let* _ := abort_waiters i (str "error unreachable" ++ [10]) in tcb_free i
        else if negb (rt_pending c =? 0) then send_pending i now
        else retransmit i now
  end.
Definition net_timeout : prog net () :=
  let* now := gets unow_ms in
  let* _ := reap_dead_clients in
  let* _ := net_wakeups in
  let* _ := dns_retry now in
  let* _ := each_slot NTCB 0 (timeout_slot now) in
  timers_rearm.

(** ** Frames *)

Definition demo_start : prog net () :=
  let* done := gets demo_done in
  if done : bool then pret ()
  else
    let* _ := modify (λ s, s <| demo_done := true |>) in
    let* _ := udp_send gw_ip 40000 UDP_PORT (str "hello from rvos over udp" ++ [10]) in
    let* o := tcp_connect gw_ip TCP_PORT in
    match o with None => pret () | Some i => on_tcb i (λ c, c <| is_client := true |>) end.
Definition demo_arp_ready (ip : list Z) : prog net () := if ip_eq ip gw_ip then demo_start else pret ().
Definition net_start : prog net () := let* _ := arp_request gw_ip in arp_request dns_ip.
Definition arp_input (a : list Z) : prog net () :=
  let* s := gets id in
  let op := get16 (drop 6 a) in
  let sha := take 6 (drop 8 a) in
  let spa := take 4 (drop 14 a) in
  let tpa := take 4 (drop 24 a) in
  let learn := modify (λ s, s <| arp_cache := arp_learn (arp_cache s) spa sha |>) in
  if (length a <? 28)%nat then pret ()
  else if negb (get16 a =? 1) || negb (get16 (drop 2 a) =? ETH_IPV4) then pret ()
  else if (op =? 1) && ip_eq tpa (me_ip s) then let* _ := learn in arp_reply spa sha
  else if op =? 2 then let* _ := learn in demo_arp_ready spa
  else pret ().
Definition net_input (f : list Z) : prog net () :=
  let* s := gets id in
  let len := Z.of_nat (length f) in
  if len <? 14 then pret ()
  else
    let type := get16 (drop 12 f) in
    let ip := drop 14 f in
    if type =? ETH_ARP then arp_input ip
    else if negb (type =? ETH_IPV4) || (len <? 34) then pret ()
    else
      let ihl := Z.land (byte_at ip 0) 0x0f * 4 in
      let tot := get16 (drop 2 ip) in
      if (ihl <? 20) || (tot <? ihl) || (len - 14 <? tot) then pret ()
      else if negb (fold (sum16 (take (Z.to_nat ihl) ip) 0) =? 0) then pret ()
      else if negb (ip_eq (ip_dst ip) (me_ip s)) then pret ()
      else
        let body := take (Z.to_nat (tot - ihl)) (drop (Z.to_nat ihl) ip) in
        let proto := byte_at ip 9 in
        if proto =? IP_TCP then tcp_input (ip_src ip) body
        else if proto =? IP_UDP then udp_input body
        else if proto =? IP_ICMP then icmp_input ip ihl tot
        else pret ().
