(* ===== verification/NetCtl.v ===== *)
(** * The network as files (src/src/net_ip.c)

    What is behind /net: the commands of the control file, the reports, and
    the reads, writes and closes of a connection.  A string is the list of
    its bytes before the NUL.  A copy out of or into a buffer that is too
    short is a fault. *)
From stdpp Require Import base list numbers option.
From S2P Require Import Prelude Mem Req NetWire NetState Net NetTcp.
Local Open Scope Z_scope.

(** ** Text *)

Definition state_name (x : tcp_state) : list Z :=
  match x with
  | T_LISTEN => str "listen"
  | T_SYN_SENT => str "syn-sent"
  | T_SYN_RCVD => str "syn-rcvd"
  | T_ESTABLISHED => str "established"
  | T_FIN_WAIT_1 => str "fin-wait-1"
  | T_FIN_WAIT_2 => str "fin-wait-2"
  | T_CLOSING => str "closing"
  | T_TIME_WAIT => str "time-wait"
  | T_CLOSE_WAIT => str "close-wait"
  | T_LAST_ACK => str "last-ack"
  | T_FREE => str "free"
  end.
Definition app_field (t : list Z) (width : nat) : list Z := t ++ replicate (width - length t) 32.
Definition NL : list Z := [10].
Definition hex2 (b : Z) : list Z := [hexdigit (Z.shiftr b 4); hexdigit (Z.land b 15)].
Definition app_mac (m : list Z) : list Z :=
  hex2 (byte_at m 0) ++ [58] ++ hex2 (byte_at m 1) ++ [58] ++ hex2 (byte_at m 2) ++ [58] ++
  hex2 (byte_at m 3) ++ [58] ++ hex2 (byte_at m 4) ++ [58] ++ hex2 (byte_at m 5).

Definition status_arp (e : arpent) : list Z :=
  if ae_used e then str "arp      " ++ app_ip (ae_ip e) ++ str " -> " ++ app_mac (ae_mac e) ++ NL else [].
Definition status_conn (i : nat) (c : tcb) : list Z :=
  str "tcp " ++ uutoa (Z.of_nat i) ++ [32] ++ app_field (state_name (state c)) 13 ++ [58] ++ uutoa (lport c) ++
  (if is_state c T_LISTEN then []
   else str " <-> " ++ app_ip (raddr c) ++ [58] ++ uutoa (rport c) ++
        NL ++ str "        rx " ++ uutoa (Z.of_nat (length (rxq c))) ++
        str "  unacked " ++ uutoa (u32 (snd_nxt c - snd_una c)) ++ str "  srtt " ++
        (if srtt c <? 0 then str "-" else uutoa (srtt c) ++ str "ms") ++
        str "  rto " ++ uutoa (rto c) ++ str "ms  cwnd " ++ uutoa (cwnd c)) ++ NL.
(** A connection is left out when the text has come within 120 bytes of the
    end of the buffer. *)
Fixpoint status_conns (l : list (option tcb)) (i : nat) (o : list Z) (cap : Z) : list Z :=
  match l with
  | [] => o
  | Some c :: l' =>
      status_conns l' (S i)
        (if is_state c T_FREE || (cap - 120 <? Z.of_nat (length o)) then o else o ++ status_conn i c) cap
  | None :: l' => status_conns l' (S i) o cap
  end.
Definition net_status (s : net) (cap : Z) : list Z :=
  let o := str "mac      " ++ app_mac (net_mac s) ++ NL ++ str "address  " ++ app_ip (me_ip s) ++
           str "/24" ++ NL ++ str "gateway  " ++ app_ip gw_ip ++ NL ++ (arp_cache s ≫= status_arp) in
  status_conns (tcbs s) 0 o cap.

Definition conn_of (f : Z) (s : net) : option (nat * tcb) :=
  let i := f - FD_CONN0 in
  if (i <? 0) || (Z.of_nat NTCB <=? i) then None
  else match nth (Z.to_nat i) (tcbs s) None with
       | Some c => if is_state c T_FREE then None else Some (Z.to_nat i, c)
       | None => None
       end.
Fixpoint first_client (l : list (option tcb)) (i : nat) : option nat :=
  match l with
  | [] => None
  | Some c :: l' => if negb (is_state c T_FREE) && is_client c then Some i else first_client l' (S i)
  | None :: l' => first_client l' (S i)
  end.
Definition client_slot (s : net) : option nat := first_client (tcbs s) 0.

(** ** Parsing *)

Definition is_space (b : Z) : bool := (b =? 32) || (b =? 9).
Fixpoint skip_spaces (t : list Z) : list Z :=
  match t with b :: t' => if is_space b then skip_spaces t' else t | [] => [] end.
Definition parse_uint (t : list Z) : option (Z * list Z) :=
  match t with b :: _ => if is_digit b then Some (digits u32 t 0) else None | [] => None end.
Definition path_slot (p : list Z) : Z :=
  match drop 9 p with
  | b :: _ =>
      if is_digit b then let '(v, _) := digits i32 (drop 9 p) 0 in if v <? Z.of_nat NTCB then v else -1 else -1
  | [] => -1
  end.
Fixpoint parse_ip_loop (n : nat) (t : list Z) : option (list Z * list Z) :=
  match n with
  | O => Some ([], t)
  | S n' =>
      match parse_uint t with
      | None => None
      | Some (v, t') =>
          if 255 <? v then None
          else
            match n' with
            | O => Some ([u8 v], t')
            | S _ =>
                match t' with
                | 46 :: t'' => match parse_ip_loop n' t'' with Some (ip, r) => Some (u8 v :: ip, r) | None => None end
                | _ => None
                end
            end
      end
  end.
Definition parse_ip (t : list Z) : option (list Z * list Z) := parse_ip_loop 4 t.
(** What follows [word] and its spaces. *)
Fixpoint word_is (t word : list Z) : option (list Z) :=
  match word, t with
  | w :: word', b :: t' => if b =? w then word_is t' word' else None
  | _ :: _, [] => None
  | [], b :: _ => if is_space b then Some (skip_spaces t) else None
  | [], [] => Some []
  end.

(** ** References *)

Fixpoint ref_put (l : list (bool * Z)) (task : Z) : option (list (bool * Z)) :=
  match l with
  | [] => None
  | (false, _) :: l' => Some ((true, task) :: l')
  | r :: l' => cons r <$> ref_put l' task
  end.
Definition ref_add (i : nat) (task : Z) : prog net bool :=
  let* c := tcb_at i in
  match ref_put (refs c) task with
  | None => pret false
  | Some l => let* _ := put_tcb i (c <| refs := l |>) in pret true
  end.
Fixpoint ref_take (l : list (bool * Z)) (task : Z) : list (bool * Z) :=
  match l with
  | [] => []
  | r :: l' => if r.1 && (r.2 =? task) then (false, r.2) :: l' else r :: ref_take l' task
  end.
Definition ref_drop (i : nat) (task : Z) : prog net () := on_tcb i (λ c, c <| refs := ref_take (refs c) task |>).

(** ** The control file *)

Definition set_pfd (pi : nat) (text : list Z) : prog net () :=
  modify (λ s, s <| pfd := alter (λ f, f <| pf_buf := text |> <| pf_off := 0 |>) pi (pfd s) |>).
(** A command that is answered at once, with [text]. *)
Definition ctl_says (pi : nat) (text : list Z) : prog net bool := let* _ := set_pfd pi text in pret true.
(** [while (s[k] && s[k] != ' ' && k < room)] *)
Fixpoint word_upto (room : nat) (t : list Z) : list Z :=
  match room, t with
  | S r, b :: t' => if b =? 32 then [] else b :: word_upto r t'
  | _, _ => []
  end.
Definition ctl_resolve (pi : nat) (from f wlen : Z) (t : list Z) : prog net bool :=
  let* s := gets id in
  if (length t =? 0)%nat then ctl_says pi (str "error syntax" ++ NL)
  else if negb (dns_at s =? 0) then ctl_says pi (str "error resolver busy" ++ NL)
  else
    let name := word_upto 63 t in
    let* _ := modify (λ s, s <| dns_name := name |> <| dns_waiter := mkParked true from f wlen |> <| dns_tries := 0 |>) in
    let* _ := dns_send name in
    let* _ := modify (λ s, s <| dns_at := unow_ms s + DNS_TIMEOUT |>) in
    let* _ := timers_rearm in
    pret false.
Definition ctl_connect (pi : nat) (from f wlen : Z) (t : list Z) : prog net bool :=
  match parse_ip t with
  | None => ctl_says pi (str "error syntax" ++ NL)
  | Some (ip, p) =>
      match parse_uint (skip_spaces p) with
      | None => ctl_says pi (str "error syntax" ++ NL)
      | Some (port, _) =>
          let* o := tcp_connect ip port in
          match o with
          | None => ctl_says pi (str "error no free connection" ++ NL)
          | Some i =>
              let* _ := ref_add i from in
              let* _ := on_tcb i (λ c, c <| opener := mkParked true from f wlen |>) in
              pret false
          end
      end
  end.
Definition ctl_listen (pi : nat) (from : Z) (t : list Z) : prog net bool :=
  match parse_uint t with
  | None => ctl_says pi (str "error syntax" ++ NL)
  | Some (port, _) =>
      let* o := tcp_listen port in
      match o with
      | None => ctl_says pi (str "error no free connection" ++ NL)
      | Some i => let* _ := ref_add i from in ctl_says pi (ok_slot i)
      end
  end.
(** The connection a command names by its slot. *)
Definition slot_named (t : list Z) (s : net) : option (nat * tcb) :=
  match parse_uint t with
  | Some (v, _) =>
      if v <? Z.of_nat NTCB then
        match nth (Z.to_nat v) (tcbs s) None with Some c => Some (Z.to_nat v, c) | None => None end
      else None
  | None => None
  end.
Definition ctl_accept (pi : nat) (from f wlen : Z) (t : list Z) : prog net bool :=
  let* s := gets id in
  match slot_named t s with
  | None => ctl_says pi (str "error not a listener" ++ NL)
  | Some (i, l) =>
      if negb (is_state l T_LISTEN) then ctl_says pi (str "error not a listener" ++ NL)
      else if pk_used (reader l) then ctl_says pi (str "error already accepting" ++ NL)
      else
        let* _ := put_tcb i (l <| reader := mkParked true from f wlen |>) in
        let* _ := net_wakeups in
        pret false
  end.
Definition ctl_address (pi : nat) (t : list Z) : prog net bool :=
  match parse_ip t with
  | None => ctl_says pi (str "error syntax" ++ NL)
  | Some (ip, _) => let* _ := modify (λ s, s <| me_ip := ip |>) in ctl_says pi (str "ok" ++ NL)
  end.
Definition ctl_close (pi : nat) (t : list Z) : prog net bool :=
  let* s := gets id in
  match slot_named t s with
  | None => ctl_says pi (str "error no such connection" ++ NL)
  | Some (i, c) =>
      if is_state c T_FREE then ctl_says pi (str "error no such connection" ++ NL)
      else let* _ := tcp_close i in ctl_says pi (str "ok" ++ NL)
  end.
(** [true] when the answer is in the file, [false] when the caller waits. *)
Definition ctl_command (pi : nat) (from f wlen : Z) (cmd : list Z) : prog net bool :=
  let t := skip_spaces cmd in
  match word_is t (str "resolve") with
  | Some t' => ctl_resolve pi from f wlen t'
  | None =>
  match word_is t (str "connect") with
  | Some t' => ctl_connect pi from f wlen t'
  | None =>
  match word_is t (str "listen") with
  | Some t' => ctl_listen pi from t'
  | None =>
  match word_is t (str "accept") with
  | Some t' => ctl_accept pi from f wlen t'
  | None =>
  match word_is t (str "address") with
  | Some t' => ctl_address pi t'
  | None =>
  match word_is t (str "close") with
  | Some t' => ctl_close pi t'
  | None => ctl_says pi (str "error unknown command" ++ NL)
  end end end end end end.

(** ** Directories *)

Definition net_is_name (p name : list Z) : bool :=
  bool_decide (p = name) || bool_decide (p = name ++ [47]).
Fixpoint dir_conns (l : list (option tcb)) (i : nat) (o : list Z) (cap : Z) : list Z :=
  match l with
  | [] => o
  | x :: l' =>
      if Z.of_nat (length o) <? cap - 24 then
        match x with
        | Some c => if is_state c T_FREE then dir_conns l' (S i) o cap
                    else dir_conns l' (S i) (o ++ str "- 0 " ++ uutoa (Z.of_nat i) ++ NL) cap
        | None => dir_conns l' (S i) o cap
        end
      else o
  end.
Definition net_dir (p : list Z) (s : net) (cap : Z) : list Z :=
  if net_is_name p (str "/net") then
    take (Z.to_nat (cap - 1)) (str "- 0 ctl" ++ NL ++ str "- 0 status" ++ NL ++ str "d 0 tcp" ++ NL)
  else dir_conns (tcbs s) 0 [] cap.

(** ** Requests *)

Fixpoint free_pfd (l : list pfile) (i : nat) : option nat :=
  match l with [] => None | f :: l' => if pf_used f then free_pfd l' (S i) else Some i end.
(** Open a control file, a report or a listing: its text is made now. *)
Definition open_file (base : Z) (from : Z) (text : list Z) (r : vfs_req) : prog net vfs_req :=
  let* s := gets id in
  match free_pfd (pfd s) 0 with
  | None => pret (r <| result := -1 |>)
  | Some i =>
      if VFS_DATA_MAX <? Z.of_nat (length text) then diverge
      else
        let* _ := modify (λ s, s <| pfd := <[i := mkPfile true from 0 text]> (pfd s) |>) in
        pret (r <| result := base + Z.of_nat i |>)
  end.
Definition open_conn (o : option nat) (from : Z) (r : vfs_req) : prog net vfs_req :=
  match o with
  | None => pret (r <| result := -1 |>)
  | Some i => let* ok := ref_add i from in pret (r <| result := if ok : bool then FD_CONN0 + Z.of_nat i else -1 |>)
  end.
Definition net_open (from : Z) (r : vfs_req) : prog net vfs_req :=
  let* s := gets id in
  let p := path r in
  if net_is_name p (str "/net") || net_is_name p (str "/net/tcp") then
    open_file FD_STATUS0 from (net_dir p s VFS_DATA_MAX) r
  else if str_has_prefix p (str "/net/status") then open_file FD_STATUS0 from (net_status s VFS_DATA_MAX) r
  else if str_has_prefix p (str "/net/ctl") then open_file FD_CTL0 from [] r
  else if str_has_prefix p (str "/net/tcp/") then
    let i := path_slot p in
    open_conn (if i <? 0 then None
               else match nth (Z.to_nat i) (tcbs s) None with
                    | Some c => if is_state c T_FREE then None else Some (Z.to_nat i)
                    | None => None
                    end) from r
  else if str_has_prefix p (str "/net/tcp") then open_conn (client_slot s) from r
  else pret (r <| result := -1 |>).

Definition holds_conn (task : Z) (i : nat) (c : tcb) : list Z :=
  if existsb (λ x, x.1 && (x.2 =? task)) (refs c) then
    str "/net/tcp/" ++ uutoa (Z.of_nat i) ++ str "  " ++ state_name (state c) ++
    (if rport c =? 0 then [] else str "  " ++ app_ip (raddr c) ++ [58] ++ uutoa (rport c)) ++ NL
  else [].
Fixpoint holds_conns (task : Z) (l : list (option tcb)) (i : nat) (o : list Z) : list Z :=
  match l with
  | [] => o
  | x :: l' =>
      if Z.of_nat (length o) <? VFS_DATA_MAX - 64 then
        holds_conns task l' (S i)
          (match x with Some c => if is_state c T_FREE then o else o ++ holds_conn task i c | None => o end)
      else o
  end.
Fixpoint holds_files (task : Z) (l : list pfile) (o : list Z) : list Z :=
  match l with
  | [] => o
  | f :: l' =>
      if Z.of_nat (length o) <? VFS_DATA_MAX - 32 then
        holds_files task l' (if pf_used f && (pf_owner f =? task) then o ++ str "/net/ctl or status" ++ NL else o)
      else o
  end.

Section texts.
(** The two descriptions the server gives of itself. *)
Context (net_doc net_conf : list Z).

Definition net_ioctl (r : vfs_req) : prog net vfs_req :=
  let* s := gets id in
  if ioctl_cmd r =? IOCTL_PING then pret (r <| result := 0 |>)
  else if ioctl_cmd r =? IOCTL_DOC then pret (vfs_doc_reply r net_doc)
  else if ioctl_cmd r =? IOCTL_CONF then pret (vfs_doc_reply r net_conf)
  else if ioctl_cmd r =? IOCTL_HOLDS then
    pret (vfs_reply_text r (holds_files (len r) (pfd s) (holds_conns (len r) (tcbs s) 0 [])))
  else if ioctl_cmd r =? IOCTL_INTR then
    match conn_of (fd r) s with
    | None => pret (r <| result := -1 |>)
    | Some (i, c) =>
        let* _ := put_tcb i (c <| intr_task := if 0 <? len r then len r else 0 |> <| intr_fired := false |>) in
        pret (r <| result := if 0 <? len r then 0 else if intr_fired c then 1 else 0 |>)
    end
  else pret (r <| result := -1 |>).

Definition is_pfd (f : Z) : option nat :=
  if (FD_STATUS0 <=? f) && (f <? FD_STATUS0 + Z.of_nat NPFD) then Some (Z.to_nat (f - FD_STATUS0))
  else if (FD_CTL0 <=? f) && (f <? FD_CTL0 + Z.of_nat NPFD) then Some (Z.to_nat (f - FD_CTL0))
  else None.
(** [None] when the caller waits. *)
Definition read_file (i : nat) (r : vfs_req) : prog net (option vfs_req) :=
  let* s := gets id in
  let f := nth i (pfd s) (mkPfile false 0 0 []) in
  if negb (pf_used f) then pret (Some (r <| result := -1 |>))
  else
    let left := Z.of_nat (length (pf_buf f)) - pf_off f in
    let n := if len r <? left then len r else left in
    if n <=? 0 then pret (Some (r <| result := 0 |>))
    else
      let t := take (Z.to_nat n) (drop (Z.to_nat (pf_off f)) (pf_buf f)) in
      let* _ := modify (λ s, s <| pfd := <[i := f <| pf_off := pf_off f + n |>]> (pfd s) |>) in
      pret (Some (r <| data := t ++ drop (length t) (data r) |> <| result := n |>)).
Definition read_conn (from : Z) (r : vfs_req) : prog net (option vfs_req) :=
  let* s := gets id in
  match conn_of (fd r) s with
  | None => pret (Some (r <| result := -1 |>))
  | Some (i, _) =>
      let* t := conn_take i (len r) in
      let* c := tcb_at i in
      if negb (length t =? 0)%nat then
        pret (Some (r <| data := t ++ drop (length t) (data r) |> <| result := Z.of_nat (length t) |>))
      else if conn_eof c then pret (Some (r <| result := 0 |>))
      else if pk_used (reader c) then pret (Some (r <| result := -1 |>))
      else let* _ := put_tcb i (c <| reader := mkParked true from (fd r) (len r) |>) in pret None
  end.
(** The line of a write to the control file: up to a NUL or the end of the
    line. *)
Definition ctl_line (d : list Z) (n : nat) : list Z :=
  cstr ((λ b, if (b =? 10) || (b =? 13) then 0 else b) <$> take n d).
Definition write_req (from : Z) (r : vfs_req) : prog net (option vfs_req) :=
  let* s := gets id in
  if (FD_CTL0 <=? fd r) && (fd r <? FD_CTL0 + Z.of_nat NPFD) then
    let n := if len r <? VFS_DATA_MAX then len r else VFS_DATA_MAX in
    if n <? 0 then diverge
    else
      let* done := ctl_command (Z.to_nat (fd r - FD_CTL0)) from (fd r) (len r) (ctl_line (data r) (Z.to_nat n)) in
      pret (if done : bool then Some (r <| result := len r |>) else None)
  else
    match conn_of (fd r) s with
    | None => pret (Some (r <| result := -1 |>))
    | Some (i, c) =>
        if is_state c T_ESTABLISHED || is_state c T_CLOSE_WAIT then
          let* n := tcp_write i (data r) (len r) in pret (Some (r <| result := n |>))
        else pret (Some (r <| result := -1 |>))
    end.
Definition close_req (from : Z) (r : vfs_req) : prog net vfs_req :=
  let* s := gets id in
  let* _ :=
    match is_pfd (fd r) with
    | Some i => modify (λ s, s <| pfd := alter (λ f, f <| pf_used := false |>) i (pfd s) |>)
    | None =>
        match conn_of (fd r) s with
        | None => pret ()
        | Some (i, _) =>
            let* _ := ref_drop i from in
            let* c := tcb_at i in
            if ref_count c =? 0 then tcp_close i else pret ()
        end
    end in
  pret (r <| result := 0 |>).
Definition net_vfs (from : Z) (r : vfs_req) : prog net (option vfs_req) :=
  let* _ := reap_dead_clients in
  let* _ := net_wakeups in
  if op r =? VFS_OPEN then let* r' := net_open from r in pret (Some r')
  else if op r =? VFS_IOCTL then let* r' := net_ioctl r in pret (Some r')
  else if op r =? VFS_READ then match is_pfd (fd r) with Some i => read_file i r | None => read_conn from r end
  else if op r =? VFS_WRITE then write_req from r
  else if op r =? VFS_CLOSE then let* r' := close_req from r in pret (Some r')
  else pret (Some (r <| result := -1 |>)).
End texts.
