(* ===== verification/TcpConn.v ===== *)
(** * One TCP connection: what the server does to it (net_ip.c)

    The lemmas about output.  Whatever [tcp_output] is called for - a write,
    an acknowledgement, a timeout - it ends, it changes nothing of the
    receive side and nothing of the buffer, and every segment it puts on the
    wire carries bytes of what the program wrote, at the place their
    sequence number says. *)
From stdpp Require Import base list numbers option.
From S2P Require Import Prelude Mem Req NetWire NetState Net NetTcp.
Local Open Scope Z_scope.

(** ** Steps on one slot *)

(** Hardware addresses have six bytes. *)
Definition macs_ok (s : net) : Prop := length (net_mac s) = 6%nat ∧ Forall (λ e, length (ae_mac e) = 6%nat) (arp_cache s).
Definition at_slot (s : net) (i : nat) (c : tcb) : Prop := tcbs s !! i = Some (Some c) ∧ macs_ok s.
Definition with_tcb (i : nat) (c : tcb) (s : net) : net := s <| tcbs := <[i := Some c]> (tcbs s) |>.
Lemma wp_tcb_at i c Q s : at_slot s i c → Q c s → wp (tcb_at i) Q s.
Proof. unfold at_slot, wp, tcb_at. by intros [-> _]. Qed.
Lemma wp_put_tcb i c c' Q s : at_slot s i c → Q () (with_tcb i c' s) → wp (put_tcb i c') Q s.
Proof. unfold at_slot, wp, put_tcb. by intros [-> _]. Qed.
Lemma wp_on_tcb i c f Q s : at_slot s i c → Q () (with_tcb i (f c) s) → wp (on_tcb i f) Q s.
Proof. intros H HQ. apply wp_bind. eapply wp_tcb_at; [exact H|]. by eapply wp_put_tcb. Qed.

(** One step of a straight-line program; the slot it reads is known. *)
Ltac net_step :=
  match goal with
  | |- wp (pbind _ _) _ _ => apply wp_bind
  | |- wp (pret _) _ _ => apply wp_ret
  | |- wp (gets _) _ _ => apply wp_gets
  | |- wp (modify _) _ _ => apply wp_modify
  | |- wp (tcb_at _) _ _ => eapply wp_tcb_at; [eassumption|]
  | |- wp (put_tcb _ _) _ _ => eapply wp_put_tcb; [eassumption|]
  | |- wp (on_tcb _ _) _ _ => eapply wp_on_tcb; [eassumption|]
  end; cbv beta.
Ltac net_steps := repeat net_step.

(** What an operation on the slot [i] leaves: the connection is now [c'],
    every other slot, the addresses, the clock and the environment are as
    before, and the frames sent satisfy [P]. *)
Record effect (P : list Z → Prop) (i : nat) (c' : tcb) (s s' : net) : Prop := {
  ef_tcbs : tcbs s' = <[i := Some c']> (tcbs s);
  ef_me : me_ip s' = me_ip s;
  ef_mac : net_mac s' = net_mac s;
  ef_arp : arp_cache s' = arp_cache s;
  ef_ticks : ticks s' = ticks s;
  ef_env : alive s' = alive s ∧ waiting s' = waiting s ∧ pfd s' = pfd s ∧ hold_seg s' = hold_seg s;
  ef_wire : ∃ fs, wire s' = wire s ++ fs ∧ Forall P fs }.

Section effects.
Context (P : list Z → Prop) (i : nat).

Lemma effect_at c c' s s' : at_slot s i c → effect P i c' s s' → at_slot s' i c'.
Proof.
  unfold at_slot, macs_ok. intros [H M] E. rewrite (ef_tcbs _ _ _ _ _ E), (ef_mac _ _ _ _ _ E), (ef_arp _ _ _ _ _ E).
  split; [|done]. apply list_lookup_insert_eq. by eapply lookup_lt_Some.
Qed.
Lemma effect_refl c s : at_slot s i c → effect P i c s s.
Proof.
  intros [H _]. split; try done; [by rewrite list_insert_id|]. exists []. by rewrite app_nil_r.
Qed.
Lemma effect_put c c' s : at_slot s i c → effect P i c' s (with_tcb i c' s).
Proof. intros H. split; try done. exists []. simpl. by rewrite app_nil_r. Qed.
Lemma effect_trans c1 c2 s s1 s2 : effect P i c1 s s1 → effect P i c2 s1 s2 → effect P i c2 s s2.
Proof.
  intros [T1 M1 A1 B1 K1 (V1 & V1' & V1'' & V1''') (f1 & W1 & F1)] [T2 M2 A2 B2 K2 (V2 & V2' & V2'' & V2''') (f2 & W2 & F2)].
  split; try congruence.
  - by rewrite T2, T1, list_insert_insert_eq.
  - split_and!; congruence.
  - exists (f1 ++ f2). rewrite W2, W1, app_assoc. split; [done|]. by apply Forall_app_2.
Qed.
Lemma timers_rearm_effect c s : at_slot s i c → wp timers_rearm (λ _ s', effect P i c s s') s.
Proof.
  intros [H _]. unfold timers_rearm, sys_alarm. apply wp_bind, wp_gets.
  destruct (_ =? 0); apply wp_modify; (split; try done; [simpl; by rewrite list_insert_id|exists []; simpl; by rewrite app_nil_r]).
Qed.
End effects.

(** ** What may be sent *)

(** The frames of the connection between [me] and [peer]: questions for a
    hardware address, and segments whose flags satisfy [Fl] and whose data
    satisfies [G]. *)
Definition seg_frame (me peer mac nmac : list Z) (id lp rp seq ack flags wnd : Z) (d : list Z) (mss : Z) : list Z :=
  (eth_hdr mac nmac ETH_IPV4 ++ ip_hdr me peer IP_TCP id ((if mss =? 0 then 20 else 24) + Z.of_nat (length d))) ++
  tcp_packet me peer lp rp seq ack flags wnd d mss.
Inductive sends (me peer : list Z) (lp rp : Z) (Fl : Z → Prop) (G : Z → list Z → Prop) : list Z → Prop :=
  | sends_arp nmac target :
      length nmac = 6%nat →
      sends me peer lp rp Fl G
        (eth_hdr bcast nmac ETH_ARP ++ arp_packet 1 nmac me (replicate 6 0) target)
  | sends_seg mac nmac id seq ack flags wnd d mss :
      length mac = 6%nat → length nmac = 6%nat →
      0 ≤ seq < 2 ^ 32 → 0 ≤ ack < 2 ^ 32 → 0 ≤ flags < 2 ^ 8 → 0 ≤ wnd < 2 ^ 16 →
      Fl flags → d = [] ∨ G seq d →
      sends me peer lp rp Fl G (seg_frame me peer mac nmac id lp rp seq ack flags wnd d mss).

(** A connection whose numbers are in range. *)
Record tcb_wf (c : tcb) : Prop := {
  wf_una : 0 ≤ snd_una c < 2 ^ 32;
  wf_nxt : 0 ≤ snd_nxt c < 2 ^ 32;
  wf_base : 0 ≤ snd_base c < 2 ^ 32;
  wf_rcv : 0 ≤ rcv_nxt c < 2 ^ 32;
  wf_iss : 0 ≤ iss c < 2 ^ 32;
  wf_mss : 128 ≤ peer_mss c ≤ 1460;
  wf_buf : Z.of_nat (length (snd_buf c)) ≤ SNDBUF;
  wf_rxq : Z.of_nat (length (rxq c)) ≤ RXQ }.

(** The parts of a connection that output changes: the timers and how far
    it has sent. *)
Definition out_rel (c c' : tcb) : Prop :=
  ∃ sn fs rp ra rt rs rat, 0 ≤ sn < 2 ^ 32 ∧
    c' = c <| snd_nxt := sn |> <| fin_sent := fs |> <| rt_pending := rp |> <| rt_at := ra |>
           <| rtt_timing := rt |> <| rtt_seq := rs |> <| rtt_at := rat |>.
Lemma out_rel_refl c : tcb_wf c → out_rel c c.
Proof.
  intros H. exists (snd_nxt c), (fin_sent c), (rt_pending c), (rt_at c), (rtt_timing c), (rtt_seq c), (rtt_at c).
  split; [exact (wf_nxt _ H)|]. by destruct c.
Qed.
Lemma out_rel_trans c1 c2 c3 : out_rel c1 c2 → out_rel c2 c3 → out_rel c1 c3.
Proof.
  intros (sn & fs & rp & ra & rt & rs & rat & _ & ->) (sn' & fs' & rp' & ra' & rt' & rs' & rat' & H & ->).
  exists sn', fs', rp', ra', rt', rs', rat'. split; [done|]. reflexivity.
Qed.
Lemma out_rel_wf c c' : tcb_wf c → out_rel c c' → tcb_wf c'.
Proof. intros [] (sn & fs & rp & ra & rt & rs & rat & H & ->). split; simpl; done. Qed.

(** ** Sending one segment *)

Ltac at_slot := first [eassumption | eapply effect_at; [|eassumption]; at_slot].

Section out.
Context (Fl : Z → Prop) (base : Z) (w : list Z) (i : nat).

(** The data of a segment is the bytes of [w] that its number says. *)
Definition genuine (seq : Z) (d : list Z) : Prop :=
  ∃ k, seq = u32 (base + Z.of_nat k) ∧ d = take (length d) (drop k w) ∧ (k + length d ≤ length w)%nat ∧
       Z.of_nat (length d) ≤ 1460.
(** The buffer is the end of [w], and [snd_base] numbers its first byte. *)
Definition send_ok (c : tcb) : Prop :=
  ∃ a, (a ≤ length w)%nat ∧ snd_buf c = drop a w ∧ snd_base c = u32 (base + Z.of_nat a).
Definition conn_sends (me : list Z) (c : tcb) : list Z → Prop := sends me (raddr c) (lport c) (rport c) Fl genuine.
(** The flags output may set in this state of the connection are allowed. *)
Definition may_send (c : tcb) : Prop :=
  Fl TCP_ACK ∧ Fl (Z.lor TCP_ACK TCP_PSH) ∧ (snd_fin c = true → Fl (Z.lor TCP_ACK TCP_FIN)) ∧
  (state c = T_SYN_SENT → Fl TCP_SYN) ∧ (state c = T_SYN_RCVD → Fl (Z.lor TCP_SYN TCP_ACK)).

(** The segment went out, was dropped by the test hook, or was not built;
    of the connection only the timer has changed. *)
Definition xmit_rel (c c' : tcb) : Prop := ∃ rp ra, c' = c <| rt_pending := rp |> <| rt_at := ra |>.
Lemma xmit_out c c' : tcb_wf c → xmit_rel c c' → out_rel c c'.
Proof.
  intros H (rp & ra & ->). exists (snd_nxt c), (fin_sent c), rp, ra, (rtt_timing c), (rtt_seq c), (rtt_at c).
  split; [exact (wf_nxt _ H)|]. by destruct c.
Qed.
Lemma rcv_window_range c : tcb_wf c → 0 ≤ rcv_window c < 2 ^ 16.
Proof. intros H. unfold rcv_window, RXQ. destruct (Z.ltb_spec 0 (2048 - Z.of_nat (length (rxq c)))); lia. Qed.

Lemma arp_lookup_mac l ip mac : Forall (λ e, length (ae_mac e) = 6%nat) l → arp_lookup l ip = Some mac → length mac = 6%nat.
Proof.
  induction 1 as [|e l He _ IH]; simpl; [done|]. destruct (_ && _); [|done]. by intros [= <-].
Qed.
Lemma seg_xmit_spec c flags seq d s :
  at_slot s i c → tcb_wf c → 0 ≤ seq < 2 ^ 32 → 0 ≤ flags < 2 ^ 8 → Fl flags → d = [] ∨ genuine seq d →
  wp (seg_xmit i flags seq d) (λ _ s', ∃ c', effect (conn_sends (me_ip s) c) i c' s s' ∧ xmit_rel c c') s.
Proof.
  intros H W Hs Hf Hfl Hd. unfold seg_xmit, tcp_build, ip_begin. net_steps. cbv [id].
  destruct (arp_lookup _ _) as [mac|] eqn:Harp.
  - do 4 net_step. change (at_slot (s <| ip_id := u32 (ip_id s + 1) |>) i c) in H. net_steps.
    match goal with |- wp (if ?b then _ else _) _ _ => destruct b end; unfold net_transmit; net_steps;
      exists (c <| rt_pending := 0 |>); (split; [split; try done|exists 0, (rt_at c); by destruct c]).
    + exists []. simpl. by rewrite app_nil_r.
    + eexists [_]. split; [reflexivity|]. constructor; [|constructor]. simpl me_ip. simpl net_mac.
      apply sends_seg; [by eapply arp_lookup_mac; [apply H|]|apply H|done|exact (wf_rcv _ W)|done|by apply rcv_window_range|done|done].
  - unfold arp_request, net_transmit. do 6 net_step. cbv [id]. net_steps.
    set (s1 := s <| wire := _ |>). assert (effect (conn_sends (me_ip s) c) i c s s1) as E1.
    { split; try done; [simpl; by rewrite list_insert_id by apply H|]. eexists [_]. split; [reflexivity|]. constructor; [|constructor]. constructor. apply H. }
    assert (at_slot s1 i c) as A1 by done. clearbody s1.
    destruct (length d =? 0)%nat; [|net_steps; exists c; split; [done|]; exists (rt_pending c), (rt_at c); by destruct c].
    net_steps. set (c2 := c <| rt_pending := flags |> <| rt_at := unow_ms s1 + RTO_INITIAL |>).
    pose proof (effect_put (conn_sends (me_ip s) c) i c c2 s1 A1) as E2.
    eapply wp_mono; [apply (timers_rearm_effect (conn_sends (me_ip s) c) i c2); by eapply effect_at|].
    intros [] s3 E3. net_steps. exists c2. split; [|by exists flags, (unow_ms s1 + RTO_INITIAL)].
    eapply effect_trans; [exact E1|]. by eapply effect_trans.
Qed.

(** ** Output *)

Lemma i32_sub_add x y k : 0 ≤ i32 (x - y) + k < 2 ^ 31 → 0 ≤ i32 (x - y) → i32 (u32 (x + k) - y) = i32 (x - y) + k.
Proof. unfold i32, u32. intros. ldiv. Qed.
Lemma u32_add_i32 x y : 0 ≤ x < 2 ^ 32 → u32 (y + i32 (x - y)) = x.
Proof. unfold i32, u32. intros. ldiv. Qed.
Lemma send_ok_out c c' : out_rel c c' → send_ok c → send_ok c'.
Proof. intros (sn & fs & rp & ra & rt & rs & rat & _ & ->). done. Qed.
Lemma conn_sends_out me me' c c' : me' = me → out_rel c c' → conn_sends me' c' = conn_sends me c.
Proof. intros -> (sn & fs & rp & ra & rt & rs & rat & _ & ->). done. Qed.

(** [outputs c s m]: the operation [m] on the slot ends, having sent only
    what it may and changed only the timers and how far it has sent. *)
Definition outputs {A} (c : tcb) (s : net) (m : prog net A) : Prop :=
  wp m (λ _ s', ∃ c', effect (conn_sends (me_ip s) c) i c' s s' ∧ out_rel c c') s.
Lemma outputs_ret {A} c s (a : A) : at_slot s i c → tcb_wf c → outputs c s (pret a).
Proof. intros H W. apply wp_ret. exists c. split; [by apply effect_refl|by apply out_rel_refl]. Qed.
Lemma outputs_step {A} c c1 s s1 (m : prog net A) :
  effect (conn_sends (me_ip s) c) i c1 s s1 → out_rel c c1 → outputs c1 s1 m →
  wp m (λ _ s', ∃ c', effect (conn_sends (me_ip s) c) i c' s s' ∧ out_rel c c') s1.
Proof.
  intros E R O. eapply wp_mono; [exact O|]. intros a s' (c' & E' & R'). exists c'.
  rewrite (conn_sends_out (me_ip s) _ c c1) in E' by (try done; apply (ef_me _ _ _ _ _ E)).
  split; [by eapply effect_trans|by eapply out_rel_trans].
Qed.
Lemma timer_start_spec c s :
  at_slot s i c → wp (timer_start i) (λ _ s', ∃ c', effect (conn_sends (me_ip s) c) i c' s s' ∧ xmit_rel c c') s.
Proof.
  intros H. unfold timer_start. net_steps. destruct (_ =? 0).
  - net_steps. set (c1 := c <| rt_at := _ |>). pose proof (effect_put (conn_sends (me_ip s) c) i c c1 s H) as E1.
    eapply wp_mono; [apply (timers_rearm_effect (conn_sends (me_ip s) c) i c1); by eapply effect_at|].
    intros [] s2 E2. exists c1. split; [by eapply effect_trans|]. exists (rt_pending c), (unow_ms s + rto c). by destruct c.
  - net_steps. exists c. split; [by apply effect_refl|]. exists (rt_pending c), (rt_at c). by destruct c.
Qed.
Lemma timer_start_outputs c s : at_slot s i c → tcb_wf c → outputs c s (timer_start i).
Proof.
  intros H W. eapply wp_mono; [by apply timer_start_spec|]. intros [] s' (c' & E & X). exists c'. split; [done|by apply xmit_out].
Qed.
(** A segment goes out, then the rest if it could be built. *)
Lemma xmit_then {A} c flags seq d s (k : bool → prog net A) :
  at_slot s i c → tcb_wf c → 0 ≤ seq < 2 ^ 32 → 0 ≤ flags < 2 ^ 8 → Fl flags → d = [] ∨ genuine seq d →
  (∀ ok s1 c1, at_slot s1 i c1 → xmit_rel c c1 → outputs c1 s1 (k ok)) →
  outputs c s (let* ok := seg_xmit i flags seq d in k ok).
Proof.
  intros H W Hs Hf Hfl Hd Hk. apply wp_bind. eapply wp_mono; [by apply seg_xmit_spec|].
  intros ok s1 (c1 & E1 & X1). eapply outputs_step; [exact E1|by apply xmit_out|].
  apply Hk; [by eapply effect_at|done].
Qed.
(** An update of what output may change, then the rest. *)
Lemma put_then {A} c f s (m : prog net A) :
  at_slot s i c → out_rel c (f c) → (∀ s1, at_slot s1 i (f c) → outputs (f c) s1 m) →
  outputs c s (let* _ := on_tcb i f in m).
Proof.
  intros H R O. apply wp_bind. eapply wp_on_tcb; [exact H|].
  eapply outputs_step; [by eapply effect_put|done|]. apply O. eapply effect_at; [exact H|]. by apply (effect_put (λ _, True) i c).
Qed.
Lemma genuine_slice c off k :
  send_ok c → tcb_wf c → off = i32 (snd_nxt c - snd_base c) → 0 ≤ off → 0 < k →
  k ≤ Z.of_nat (length (snd_buf c)) - off → k ≤ 1460 →
  genuine (snd_nxt c) (take (Z.to_nat k) (drop (Z.to_nat off) (snd_buf c))).
Proof.
  intros (a & Ha & Eb & En) W Eo Ho Hk Hl Hm. exists (a + Z.to_nat off)%nat.
  assert (length (snd_buf c) = (length w - a)%nat) as Elen by (rewrite Eb; apply length_drop).
  assert (length (take (Z.to_nat k) (drop (Z.to_nat off) (snd_buf c))) = Z.to_nat k) as Et.
  { rewrite length_take, length_drop. lia. }
  rewrite Et. split_and!; [|by rewrite Eb, drop_drop|lia|lia].
  rewrite <- (u32_add_i32 (snd_nxt c) (snd_base c)) by exact (wf_nxt _ W). rewrite <- Eo, En.
  unfold u32. rewrite Zplus_mod_idemp_l. f_equal. lia.
Qed.
Lemma output_loop_outputs n usable c s :
  at_slot s i c → tcb_wf c → send_ok c → Fl (Z.lor TCP_ACK TCP_PSH) → 0 ≤ usable →
  (0 ≤ i32 (snd_nxt c - snd_base c) → Z.of_nat (length (snd_buf c)) - i32 (snd_nxt c - snd_base c) ≤ Z.of_nat n) →
  outputs c s (output_loop n i usable).
Proof.
  revert usable c s. induction n as [|n IH]; intros usable c s H W O Hfl Hu Hn; unfold outputs; cbn [output_loop]; net_steps;
    set (off := i32 (snd_nxt c - snd_base c)) in *; set (len := Z.of_nat (length (snd_buf c))) in *;
    (destruct ((off <? 0) || (len - off <=? 0) || (usable =? 0)) eqn:E; [by apply outputs_ret|]);
    apply orb_false_iff in E as [[E1%Z.ltb_ge E2%Z.leb_gt]%orb_false_iff E3%Z.eqb_neq]; [exfalso; lia|].
  pose proof (wf_mss _ W) as Hmss. pose proof (wf_buf _ W) as Hbuf. unfold SNDBUF in Hbuf. fold len in Hbuf.
  set (k := Z.min (Z.min (len - off) (peer_mss c)) usable). assert (0 < k ≤ len - off ∧ k ≤ 1460 ∧ k ≤ usable) as Hk by lia.
  apply xmit_then; [done|done|exact (wf_nxt _ W)|done|done|right; apply genuine_slice; try done; lia|].
  intros ok s1 c1 A1 X1. pose proof (out_rel_wf _ _ W (xmit_out _ _ W X1)) as W1.
  destruct ok; [|by apply outputs_ret]. cbn [negb]. unfold outputs. do 2 net_step.
  destruct X1 as (rp & ra & ->). clearbody k.
  apply put_then; [done| |intros s2 A2].
  { destruct (rtt_timing _); [by apply out_rel_refl|]. do 4 eexists. exists true. do 2 eexists.
    split; [exact (wf_nxt _ W1)|]. by destruct c. }
  match type of A2 with at_slot _ _ ?x => set (c2 := x) in * end.
  assert (snd_nxt c2 = snd_nxt c ∧ snd_base c2 = snd_base c ∧ snd_buf c2 = snd_buf c) as (N2 & B2 & L2) by (unfold c2; by destruct (rtt_timing _)).
  assert (tcb_wf c2) as W2 by (unfold c2; destruct (rtt_timing _); destruct W1; split; done).
  assert (send_ok c2) as O2 by (destruct O as (a & ? & ? & ?); exists a; split_and!; congruence).
  clearbody c2. apply put_then; [done| |intros s3 A3].
  { exists (u32 (snd_nxt c2 + k)), (fin_sent c2), (rt_pending c2), (rt_at c2), (rtt_timing c2), (rtt_seq c2), (rtt_at c2).
    split; [apply u32_range|]. by destruct c2. }
  match type of A3 with at_slot _ _ ?x => set (c3 := x) in * end.
  assert (tcb_wf c3) as W3 by (destruct W2; split; try done; apply u32_range).
  apply wp_bind. eapply wp_mono; [by apply timer_start_spec|]. intros [] s4 (c4 & E4 & X4).
  eapply outputs_step; [exact E4|by apply xmit_out|]. destruct X4 as (rp4 & ra4 & ->).
  assert (i32 (u32 (snd_nxt c2 + k) - snd_base c2) = off + k) as Eoff.
  { rewrite N2, B2. unfold off. apply i32_sub_add; unfold off in *; lia. }
  apply IH; [by eapply effect_at|destruct W3; split; done|done|done|lia|].
  intros _. simpl. rewrite Eoff, L2. fold len. lia.
Qed.
Lemma outputs_bind {A B} c s (m : prog net A) (k : A → prog net B) :
  at_slot s i c → outputs c s m → (∀ a s1 c1, at_slot s1 i c1 → out_rel c c1 → outputs c1 s1 (k a)) →
  outputs c s (let* a := m in k a).
Proof.
  intros H O Hk. apply wp_bind. eapply wp_mono; [exact O|]. intros a s1 (c1 & E1 & R1).
  eapply outputs_step; [exact E1|done|]. apply Hk; [by eapply effect_at|done].
Qed.
Lemma output_fin_outputs c s : at_slot s i c → tcb_wf c → may_send c → outputs c s (output_fin i).
Proof.
  intros H W (_ & _ & M & _). unfold output_fin, outputs. net_steps. destruct (snd_fin c); [|by apply outputs_ret].
  cbn [andb]. destruct (_ && _); [|by apply outputs_ret].
  apply xmit_then; [done|done|exact (wf_nxt _ W)|done|by apply M|by left|]. intros ok s1 c1 A1 X1.
  pose proof (out_rel_wf _ _ W (xmit_out _ _ W X1)) as W1. destruct ok; [|by apply outputs_ret]. cbn [negb].
  apply put_then; [done| |intros s2 A2].
  - exists (u32 (snd_nxt c1 + 1)), true, (rt_pending c1), (rt_at c1), (rtt_timing c1), (rtt_seq c1), (rtt_at c1).
    split; [apply u32_range|]. by destruct c1.
  - apply timer_start_outputs; [done|]. destruct W1. split; try done. apply u32_range.
Qed.
Lemma output_syn_outputs c s :
  at_slot s i c → tcb_wf c → may_send c → is_state c T_SYN_SENT || is_state c T_SYN_RCVD = true → outputs c s (output_syn i c).
Proof.
  intros H W (_ & _ & _ & M1 & M2) Hst. unfold output_syn. destruct (seq_lt _ _); [|by apply outputs_ret].
  apply xmit_then; [done|done|exact (wf_iss _ W)|by destruct (is_state c T_SYN_RCVD)| |by left|].
  { destruct (decide (state c = T_SYN_RCVD)); [rewrite bool_decide_true by done; auto|].
    rewrite (bool_decide_false (state c = T_SYN_RCVD)), orb_false_r in * by done. apply M1. by apply bool_decide_eq_true in Hst. }
  intros ok s1 c1 A1 X1.
  pose proof (out_rel_wf _ _ W (xmit_out _ _ W X1)) as W1. destruct ok; [|by apply outputs_ret]. cbn [negb].
  apply put_then; [done| |intros s2 A2].
  - exists (snd_base c1), (fin_sent c1), (rt_pending c1), (rt_at c1), (rtt_timing c1), (rtt_seq c1), (rtt_at c1).
    split; [exact (wf_base _ W1)|]. by destruct c1.
  - apply timer_start_outputs; [done|]. destruct W1. by split.
Qed.
Lemma usable_window_nonneg c : 0 ≤ usable_window c.
Proof. unfold usable_window. repeat case_match; try lia; rewrite ?Z.ltb_lt in *; lia. Qed.
Lemma may_send_out c c' : out_rel c c' → may_send c → may_send c'.
Proof. intros (sn & fs & rp & ra & rt & rs & rat & _ & ->). done. Qed.
Lemma tcp_output_outputs c s : at_slot s i c → tcb_wf c → send_ok c → may_send c → outputs c s (tcp_output i).
Proof.
  intros H W O M. unfold tcp_output, outputs. net_steps. destruct (_ || _) eqn:E; [by apply output_syn_outputs|].
  destruct (is_state c T_FREE || _ || _); [by apply outputs_ret|].
  apply outputs_bind; [done| |intros [] s1 c1 A1 R1; apply output_fin_outputs; [done|by eapply out_rel_wf|by eapply may_send_out]].
  apply output_loop_outputs; try done; [apply M|apply usable_window_nonneg|lia].
Qed.
Lemma send_ack_outputs c s : at_slot s i c → tcb_wf c → may_send c → outputs c s (send_ack i).
Proof.
  intros H W M. unfold send_ack, outputs. do 2 net_step.
  apply xmit_then; [done|done|exact (wf_nxt _ W)|done|apply M|by left|]. intros ok s1 c1 A1 X1.
  apply outputs_ret; [done|]. by eapply out_rel_wf, xmit_out.
Qed.
End out.

(** ** Acknowledgements *)

Section acks.
Context (Fl : Z → Prop) (base : Z) (w : list Z) (i : nat).

(** The send side may move on, the receive side stays. *)
Definition recv_same (c c' : tcb) : Prop :=
  rcv_nxt c' = rcv_nxt c ∧ rxq c' = rxq c ∧ ooo c' = ooo c ∧ intr_task c' = intr_task c ∧ irs c' = irs c.
(** Who it talks to and how far open it is. *)
Definition same_peer (c c' : tcb) : Prop :=
  raddr c' = raddr c ∧ lport c' = lport c ∧ rport c' = rport c ∧ state c' = state c ∧ snd_fin c' = snd_fin c ∧ tw_at c' = tw_at c.
Record conn_ok (c : tcb) : Prop := { co_wf : tcb_wf c; co_send : send_ok base w c; co_may : may_send Fl c }.

(** [advances c s m]: [m] ends, keeps the connection in order, its peer and
    its receive side, and sends only what it may. *)
Definition advances {A} (c : tcb) (s : net) (m : prog net A) : Prop :=
  wp m (λ _ s', ∃ c', effect (conn_sends Fl base w (me_ip s) c) i c' s s' ∧ conn_ok c' ∧ recv_same c c' ∧ same_peer c c') s.
Lemma recv_same_refl c : recv_same c c. Proof. done. Qed.
Lemma recv_same_trans c1 c2 c3 : recv_same c1 c2 → recv_same c2 c3 → recv_same c1 c3.
Proof. intros (? & ? & ? & ? & ?) (? & ? & ? & ? & ?). split_and!; congruence. Qed.
Lemma same_peer_trans c1 c2 c3 : same_peer c1 c2 → same_peer c2 c3 → same_peer c1 c3.
Proof. intros (? & ? & ? & ? & ? & ?) (? & ? & ? & ? & ? & ?). split_and!; congruence. Qed.
Lemma conn_sends_peer me me' c c' : me' = me → same_peer c c' → conn_sends Fl base w me' c' = conn_sends Fl base w me c.
Proof. intros -> (E1 & E2 & E3 & _). unfold conn_sends. by rewrite E1, E2, E3. Qed.
Lemma outputs_advances {A} c s (m : prog net A) : conn_ok c → outputs Fl base w i c s m → advances c s m.
Proof.
  intros [W O M] H. eapply wp_mono; [exact H|]. intros a s' (c' & E & R). exists c'. split_and!; [done| |..].
  - split; [by eapply out_rel_wf|by eapply send_ok_out|by eapply may_send_out].
  - all: by destruct R as (sn & fs & rp & ra & rt & rs & rat & _ & ->).
  - by destruct R as (sn & fs & rp & ra & rt & rs & rat & _ & ->).
Qed.
Lemma advances_ret {A} c s (a : A) : at_slot s i c → conn_ok c → advances c s (pret a).
Proof. intros H K. apply outputs_advances; [done|]. apply outputs_ret; [done|by destruct K]. Qed.
Lemma advances_step {A} c c1 s s1 (m : prog net A) :
  effect (conn_sends Fl base w (me_ip s) c) i c1 s s1 → recv_same c c1 → same_peer c c1 → advances c1 s1 m →
  wp m (λ _ s', ∃ c', effect (conn_sends Fl base w (me_ip s) c) i c' s s' ∧ conn_ok c' ∧ recv_same c c' ∧ same_peer c c') s1.
Proof.
  intros E R P O. eapply wp_mono; [exact O|]. intros a s' (c' & E' & K' & R' & P'). exists c'.
  rewrite (conn_sends_peer (me_ip s) _ c c1) in E' by (try done; apply (ef_me _ _ _ _ _ E)).
  split_and!; [by eapply effect_trans|done|by eapply recv_same_trans|by eapply same_peer_trans].
Qed.
(** An update of the send side, then the rest. *)
Lemma put_advances {A} c c1 s (m : prog net A) :
  at_slot s i c → recv_same c c1 → same_peer c c1 → (∀ s1, at_slot s1 i c1 → advances c1 s1 m) →
  advances c s (let* _ := put_tcb i c1 in m).
Proof.
  intros H R P O. apply wp_bind. eapply wp_put_tcb; [exact H|].
  eapply advances_step; [by eapply effect_put|done|done|]. apply O. eapply effect_at; [exact H|]. by apply (effect_put (λ _, True) i c).
Qed.
Lemma on_advances {A} c f s (m : prog net A) :
  at_slot s i c → recv_same c (f c) → same_peer c (f c) → (∀ s1, at_slot s1 i (f c) → advances (f c) s1 m) →
  advances c s (let* _ := on_tcb i f in m).
Proof.
  intros H R P O. apply wp_bind. eapply wp_on_tcb; [exact H|].
  eapply advances_step; [by eapply effect_put|done|done|]. apply O. eapply effect_at; [exact H|]. by apply (effect_put (λ _, True) i c).
Qed.
Lemma advances_bind {A B} c s (m : prog net A) (k : A → prog net B) :
  at_slot s i c → advances c s m →
  (∀ a s1 c1, at_slot s1 i c1 → conn_ok c1 → recv_same c c1 → same_peer c c1 → advances c1 s1 (k a)) →
  advances c s (let* a := m in k a).
Proof.
  intros H O Hk. apply wp_bind. eapply wp_mono; [exact O|]. intros a s1 (c1 & E1 & K1 & R1 & P1).
  eapply advances_step; [exact E1|done|done|]. apply Hk; [by eapply effect_at|done..].
Qed.
Lemma rearm_advances c s : at_slot s i c → conn_ok c → advances c s timers_rearm.
Proof.
  intros H K. eapply wp_mono; [by apply (timers_rearm_effect (conn_sends Fl base w (me_ip s) c) i c)|].
  intros [] s' E. exists c. done.
Qed.

Lemma drop_acked_ok ack c : conn_ok c → conn_ok (drop_acked ack c).
Proof.
  intros [W (a & Ha & Eb & En) M]. unfold drop_acked. destruct (seq_gt _ _); [|by split; [|exists a|]].
  set (len := Z.of_nat (length (snd_buf c))). set (d := if len <? _ then len else _).
  destruct (Z.ltb_spec 0 d) as [Hd|]; [|by split; [|exists a|]].
  assert (d ≤ len) as Hl by (unfold d; destruct (Z.ltb_spec len (i32 (ack - snd_base c))); lia). clearbody d.
  assert (length (snd_buf c) = (length w - a)%nat) as Elen by (rewrite Eb; apply length_drop). unfold len in Hl. split; [..|done].
  - destruct W. split; try done; simpl; [apply u32_range|]. rewrite length_drop. unfold SNDBUF in *. lia.
  - exists (a + Z.to_nat d)%nat. simpl. split_and!; [lia|by rewrite Eb, drop_drop|].
    rewrite En. unfold u32. rewrite Zplus_mod_idemp_l. f_equal. lia.
Qed.
Lemma go_back_ok c : conn_ok c → conn_ok (go_back c).
Proof. intros [W O M]. split; [|done|done]. destruct W. by split. Qed.
(** Settle [conn_ok] after an update of fields it does not mention. *)
Ltac conn_ok H := let O := fresh in let M := fresh in destruct H as [[] O M]; split; [by split|exact O|exact M].
Lemma dup_ack_advances ack c s : at_slot s i c → conn_ok c → advances c s (dup_ack i ack).
Proof.
  intros H K. unfold dup_ack, advances. net_steps. destruct (_ && _); [|by apply advances_ret].
  apply put_advances; [done|done|done|intros s1 A1].
  assert (conn_ok (c <| dupacks := dupacks c + 1 |>)) as K1 by conn_ok K.
  destruct (_ =? 3); [|by apply advances_ret].
  apply put_advances; [done|done|done|intros s2 A2].
  assert (∀ c' x y, conn_ok c' → conn_ok (go_back (c' <| ssthresh := x |> <| cwnd := y |>))) as Hg.
  { intros c' x y Hc. conn_ok Hc. }
  apply outputs_advances; [by apply Hg|]. apply tcp_output_outputs; [done|by apply Hg..].
Qed.
Lemma rtt_update_ok m c : conn_ok c → conn_ok (rtt_update m c).
Proof. intros K. unfold rtt_update. destruct (srtt c <? 0); conn_ok K. Qed.
Lemma rtt_update_same m c : recv_same c (rtt_update m c) ∧ same_peer c (rtt_update m c).
Proof. unfold rtt_update. by destruct (srtt c <? 0). Qed.
Lemma drop_acked_same ack c : recv_same c (drop_acked ack c) ∧ same_peer c (drop_acked ack c).
Proof. unfold drop_acked. by repeat case_match. Qed.
Lemma timer_stop_advances c s : at_slot s i c → conn_ok c → advances c s (timer_stop i).
Proof.
  intros H K. unfold timer_stop. apply on_advances; [done|done|done|]. intros s1 A1. apply rearm_advances; [done|conn_ok K].
Qed.
(** What an acknowledgement of new bytes does to the connection. *)
Definition acked (ack now : Z) (c : tcb) : tcb :=
  let c := c <| dupacks := 0 |> in
  let c := if rtt_timing c && seq_le (rtt_seq c) (u32 (ack - 1))
           then (rtt_update (i32 (now - rtt_at c)) c) <| rtt_timing := false |> else c in
  grow_cwnd ((drop_acked ack c) <| snd_una := ack |>).
Lemma acked_ok ack now c :
  conn_ok c → 0 ≤ ack < 2 ^ 32 → conn_ok (acked ack now c) ∧ recv_same c (acked ack now c) ∧ same_peer c (acked ack now c).
Proof.
  intros K Ha. unfold acked.
  set (c1 := if _ && _ then _ else _). assert (conn_ok c1 ∧ recv_same c c1 ∧ same_peer c c1) as (K1 & R1 & P1).
  { unfold c1. destruct (_ && _); [|split_and!; [conn_ok K|done|done]].
    assert (conn_ok (c <| dupacks := 0 |>)) as K0 by conn_ok K.
    pose proof (rtt_update_ok (i32 (now - rtt_at (c <| dupacks := 0 |>))) _ K0) as K'.
    destruct (rtt_update_same (i32 (now - rtt_at (c <| dupacks := 0 |>))) (c <| dupacks := 0 |>)) as [R' P'].
    split_and!; [conn_ok K'|done|done]. }
  clearbody c1. pose proof (drop_acked_ok ack c1 K1) as K2. destruct (drop_acked_same ack c1) as [R2 P2].
  set (c2 := drop_acked ack c1) in *. clearbody c2. split_and!.
  - destruct K2 as [[] O2 M2]. split; [by split|exact O2|exact M2].
  - by apply (recv_same_trans _ c1); [|apply (recv_same_trans _ c2)].
  - by apply (same_peer_trans _ c1); [|apply (same_peer_trans _ c2)].
Qed.
Lemma ack_input_advances ack c s :
  at_slot s i c → conn_ok c → 0 ≤ ack < 2 ^ 32 → advances c s (ack_input i ack).
Proof.
  intros H K Ha. unfold ack_input, advances. do 2 net_step. destruct (seq_gt _ _); [by apply advances_ret|].
  destruct (seq_le _ _); [by apply dup_ack_advances|]. do 2 net_step.
  change (grow_cwnd _) with (acked ack (unow_ms s) c). destruct (acked_ok ack (unow_ms s) c K Ha) as (K1 & R1 & P1).
  set (c1 := acked ack (unow_ms s) c) in *. clearbody c1. apply put_advances; [done|done|done|intros s1 A1].
  destruct (all_acked c1); [by apply timer_stop_advances|].
  apply put_advances; [done|done|done|intros s2 A2]. apply rearm_advances; [done|conn_ok K1].
Qed.
(** The retransmission timer. *)
Lemma on_tcb_advances c f s :
  at_slot s i c → conn_ok (f c) → recv_same c (f c) → same_peer c (f c) → advances c s (on_tcb i f).
Proof. intros H K R P. eapply wp_on_tcb; [exact H|]. exists (f c). split_and!; [by eapply effect_put|done..]. Qed.
Lemma timer_or_advances x c s : at_slot s i c → conn_ok c → advances c s (timer_or i x).
Proof.
  intros H K. apply on_tcb_advances; [done|..]; destruct (rt_at c =? 0); try done. conn_ok K.
Qed.
Lemma retransmit_advances now c s : at_slot s i c → conn_ok c → advances c s (retransmit i now).
Proof.
  intros H K. unfold retransmit, advances. do 2 net_step.
  match goal with |- context [put_tcb i ?x] => set (c1 := x) end.
  assert (conn_ok c1) as K1 by conn_ok K. apply put_advances; [done|done|done|intros s1 A1].
  apply advances_bind; [done|apply outputs_advances; [done|]; apply tcp_output_outputs; [done|by destruct K1..]|].
  intros [] s2 c2 A2 K2 R2 P2. apply on_advances; [done|done|done|intros s3 A3].
  apply timer_or_advances; [done|conn_ok K2].
Qed.
Lemma send_pending_advances now c s : at_slot s i c → conn_ok c → advances c s (send_pending i now).
Proof.
  intros H K. unfold send_pending, advances. do 2 net_step.
  match goal with |- context [put_tcb i ?x] => set (c1 := x) end.
  assert (conn_ok c1) as K1 by conn_ok K. apply put_advances; [done|done|done|intros s1 A1].
  apply advances_bind; [done| |intros [] s2 c2 A2 K2 R2 P2; by apply timer_or_advances].
  apply outputs_advances; [done|]. destruct K1. destruct (has _ _); [by apply tcp_output_outputs|by apply send_ack_outputs].
Qed.
End acks.
