(* ===== verification/TcpStream.v ===== *)
(** * TCP as a stream (net_ip.c)

    The receive side: whatever order the segments of a stream come in,
    however often, cut and held aside, the bytes in the read queue are the
    next bytes of the stream.  With a peer that stays inside the window it
    was offered every segment is dealt with ([total]); with any other peer
    the same holds of every segment that is dealt with at all. *)
From stdpp Require Import base list numbers option.
From S2P Require Import Prelude Mem Req NetWire NetState Net NetTcp TcpConn.
Local Open Scope Z_scope.

(** ** Sequence numbers of a stream *)

Section numbers.
Context (B : Z).
Definition num (k : nat) : Z := u32 (B + Z.of_nat k).
Lemma num_range k : 0 ≤ num k < 2 ^ 32. Proof. apply u32_range. Qed.
Lemma num_add k l : u32 (num k + Z.of_nat l) = num (k + l).
Proof. unfold num, u32. rewrite Zplus_mod_idemp_l. f_equal. lia. Qed.
Lemma num_diff a b : Z.of_nat a < 2 ^ 31 → Z.of_nat b < 2 ^ 31 → i32 (num a - num b) = Z.of_nat a - Z.of_nat b.
Proof. intros. unfold num, i32, u32. ldiv. Qed.
Lemma num_inj a b : Z.of_nat a < 2 ^ 31 → Z.of_nat b < 2 ^ 31 → num a = num b → a = b.
Proof. intros Ha Hb E. pose proof (num_diff a b Ha Hb) as D. rewrite E, Z.sub_diag in D. change (i32 0) with 0 in D. lia. Qed.
Section small.
Context (a b : nat) (Ha : Z.of_nat a < 2 ^ 31) (Hb : Z.of_nat b < 2 ^ 31).
Lemma num_gt : seq_gt (num a) (num b) = (b <? a)%nat.
Proof. unfold seq_gt. rewrite num_diff by done. destruct (Nat.ltb_spec b a); [apply Z.ltb_lt|apply Z.ltb_ge]; lia. Qed.
Lemma num_le : seq_le (num a) (num b) = (a <=? b)%nat.
Proof. unfold seq_le. rewrite num_diff by done. destruct (Nat.leb_spec a b); [apply Z.leb_le|apply Z.leb_gt]; lia. Qed.
Lemma num_lt : seq_lt (num a) (num b) = (a <? b)%nat.
Proof. unfold seq_lt. rewrite num_diff by done. destruct (Nat.ltb_spec a b); [apply Z.ltb_lt|apply Z.ltb_ge]; lia. Qed.
End small.
End numbers.

(** ** Total and partial correctness *)

Definition wpx {A} (total : bool) (m : prog net A) (Q : A → net → Prop) (s : net) : Prop :=
  match m s with Some (a, s') => Q a s' | None => total = false end.
Section wpx.
Context (total : bool).
Lemma wpx_of {A} (m : prog net A) Q s : wp m Q s → wpx total m Q s.
Proof. unfold wp, wpx. by destruct (m s) as [[a s']|]. Qed.
Lemma wpx_bind {A B} (m : prog net A) (k : A → prog net B) Q s :
  wpx total m (λ a, wpx total (k a) Q) s → wpx total (pbind m k) Q s.
Proof. unfold wpx, pbind. by destruct (m s) as [[a s']|]. Qed.
Lemma wpx_mono {A} (m : prog net A) (Q R : A → net → Prop) s :
  wpx total m Q s → (∀ a s', Q a s' → R a s') → wpx total m R s.
Proof. unfold wpx. destruct (m s) as [[a s']|]; auto. Qed.
End wpx.
Lemma wpx_total {A} (m : prog net A) Q s : wpx true m Q s → wp m Q s.
Proof. unfold wp, wpx. by destruct (m s) as [[a s']|]. Qed.
Ltac netx_step :=
  match goal with
  | |- wpx _ (pbind _ _) _ _ => apply wpx_bind
  | |- wpx _ (pret _) _ _ => apply wpx_of; net_step
  | |- wpx _ (gets _) _ _ => apply wpx_of; net_step
  | |- wpx _ (modify _) _ _ => apply wpx_of; net_step
  | |- wpx _ (tcb_at _) _ _ => apply wpx_of; net_step
  | |- wpx _ (put_tcb _ _) _ _ => apply wpx_of; net_step
  | |- wpx _ (on_tcb _ _) _ _ => apply wpx_of; net_step
  end; cbv beta.
Ltac netx_steps := repeat netx_step.

(** ** The read queue and the stream *)

Section stream.
Context (total : bool) (B : Z) (stream : list Z) (Hstream : Z.of_nat (length stream) < 2 ^ 31).

Definition slice (k n : nat) : list Z := take n (drop k stream).
Lemma slice_length k n : (k + n ≤ length stream)%nat → length (slice k n) = n.
Proof. intros. unfold slice. rewrite length_take, length_drop. lia. Qed.
Lemma slice_drop j k n : drop j (slice k n) = slice (k + j) (n - j).
Proof. unfold slice. by rewrite skipn_firstn_comm, drop_drop. Qed.
Lemma slice_take j k n : (j ≤ n)%nat → take j (slice k n) = slice k j.
Proof. intros. unfold slice. rewrite take_take. f_equal. lia. Qed.
Lemma take_slice r n : take r stream ++ slice r n = take (r + n) stream.
Proof. apply take_take_drop. Qed.

(** The bytes of [d] are those of the stream from [k] on, and - for total
    correctness - the peer was entitled to send them when [t] bytes had been
    read. *)
Definition piece (t k : nat) (seq : Z) (d : list Z) : Prop :=
  seq = num B k ∧ d = slice k (length d) ∧ (k + length d ≤ length stream)%nat ∧
  (total = true → Z.of_nat (k + length d) ≤ Z.of_nat t + RXQ).
Definition held_ok (t : nat) (h : held) : Prop := h_used h = true → ∃ k, piece t k (h_seq h) (h_data h).

(** [taken] has been read, the queue holds what follows, [r] bytes are in. *)
Record recv_ok (taken : list Z) (r : nat) (c : tcb) : Prop := {
  rc_len : (r ≤ length stream)%nat;
  rc_nxt : rcv_nxt c = num B r;
  rc_bytes : taken ++ rxq c = take r stream;
  rc_intr : intr_task c = 0;
  rc_ooo : Forall (held_ok (length taken)) (ooo c);
  rc_slots : length (ooo c) = NOOO;
  rc_room : Z.of_nat (length (rxq c)) ≤ RXQ }.

(** What reception may change. *)
Definition recv_rel (c c' : tcb) : Prop := ∃ n q o, 0 ≤ n < 2 ^ 32 ∧ c' = c <| rcv_nxt := n |> <| rxq := q |> <| ooo := o |>.
Lemma recv_rel_trans c1 c2 c3 : recv_rel c1 c2 → recv_rel c2 c3 → recv_rel c1 c3.
Proof. intros (n & q & o & _ & ->) (n' & q' & o' & H & ->). exists n', q', o'. done. Qed.
Lemma recv_rel_refl c : 0 ≤ rcv_nxt c < 2 ^ 32 → recv_rel c c.
Proof. intros H. exists (rcv_nxt c), (rxq c), (ooo c). split; [done|]. by destruct c. Qed.
Lemma recv_ok_range taken r c : recv_ok taken r c → 0 ≤ rcv_nxt c < 2 ^ 32.
Proof. intros K. rewrite (rc_nxt _ _ _ K). apply num_range. Qed.

Section receive.
Context (P : list Z → Prop) (i : nat) (taken : list Z).

Lemma rxq_length r c : recv_ok taken r c → (length taken + length (rxq c))%nat = r.
Proof.
  intros K. pose proof (f_equal length (rc_bytes _ _ _ K)) as E. rewrite length_app, length_take in E.
  pose proof (rc_len _ _ _ K). lia.
Qed.
(** Of the bytes that come next as many are taken as there is room for. *)
Lemma rcv_accept_spec r c d s :
  at_slot s i c → recv_ok taken r c → piece (length taken) r (num B r) d →
  wp (rcv_accept i d) (λ n s', ∃ k, n = Z.of_nat k ∧ (k ≤ length d)%nat ∧ (total = true → k = length d) ∧
    effect P i (c <| rxq := rxq c ++ take k d |>) s s' ∧ Z.of_nat (length (rxq c) + k) ≤ RXQ) s.
Proof.
  intros H K (_ & Ed & Hl & Hw). pose proof (rxq_length _ _ K) as Eq. pose proof (rc_room _ _ _ K) as Hroom.
  unfold rcv_accept, intr_check. do 3 net_step. rewrite (rc_intr _ _ _ K). cbn [Z.ltb Z.compare]. net_steps.
  set (n := if _ <? _ then _ else _).
  assert (0 ≤ n ≤ Z.of_nat (length d) ∧ Z.of_nat (length (rxq c)) + n ≤ RXQ ∧ (total = true → n = Z.of_nat (length d))) as (Hn & Hq & Ht).
  { unfold n. destruct (Z.ltb_spec (Z.of_nat (length d)) (RXQ - Z.of_nat (length (rxq c)))); split_and!; try lia.
    intros E. specialize (Hw E). lia. }
  clearbody n. destruct (Z.leb_spec n 0); net_steps.
  - exists 0%nat. assert (n = 0) as -> by lia. split_and!; [done|lia|intros E; specialize (Ht E); lia| |lia].
    replace (c <| rxq := _ |>) with c by (destruct c; simpl; by rewrite app_nil_r). by apply effect_refl.
  - exists (Z.to_nat n). split_and!; [lia|lia|intros E; specialize (Ht E); lia|by eapply effect_put|lia].
Qed.
(** After them the stream has moved on. *)
Lemma recv_ok_accept r c d k :
  recv_ok taken r c → piece (length taken) r (num B r) d → (k ≤ length d)%nat → Z.of_nat (length (rxq c) + k) ≤ RXQ →
  recv_ok taken (r + k) (c <| rxq := rxq c ++ take k d |> <| rcv_nxt := u32 (rcv_nxt c + Z.of_nat k) |>).
Proof.
  intros K (_ & Ed & Hl & Hw) Hk Hq. destruct K as [K1 K2 K3 K4 K5 K6 K7].
  assert (take k d = slice r k) as Et by (rewrite Ed; by apply slice_take). split; simpl; try done.
  - lia.
  - rewrite K2. apply num_add.
  - by rewrite app_assoc, K3, Et, take_slice.
  - rewrite length_app, length_take. lia.
Qed.

Definition in_use (c : tcb) : nat := length (filter (λ h, h_used h = true) (ooo c)).
Lemma filter_unuse (l : list held) k h q :
  l !! k = Some h → h_used h = true →
  S (length (filter (λ h, h_used h = true) (<[k := mkHeld q false []]> l))) = length (filter (λ h, h_used h = true) l).
Proof.
  revert k. induction l as [|x l IH]; intros [|k] Hk Hu; simplify_eq/=.
  - rewrite !filter_cons. rewrite Hu. simpl. done.
  - rewrite !filter_cons. specialize (IH k Hk Hu). destruct (decide (h_used x = true)); simpl; lia.
Qed.
Lemma recv_ok_unhold r c k q :
  recv_ok taken r c → recv_ok taken r (c <| ooo := <[k := mkHeld q false []]> (ooo c) |>).
Proof.
  intros [K1 K2 K3 K4 K5 K6 K7]. split; simpl; try done; [|by rewrite length_insert].
  apply Forall_insert; [done|]. done.
Qed.

(** One held segment: nothing to do, or it is used up. *)
Lemma ooo_try_spec r c k s :
  at_slot s i c → recv_ok taken r c →
  wp (ooo_try i k) (λ b s', ∃ c' r', effect P i c' s s' ∧ recv_ok taken r' c' ∧ recv_rel c c' ∧ (r ≤ r')%nat ∧
    if b : bool then total = true → S (in_use c') = in_use c else c' = c) s.
Proof.
  intros H K. pose proof (rc_len _ _ _ K) as Hr. unfold ooo_try. do 2 net_step.
  assert (wp (pret false) (λ b s', ∃ c' r', effect P i c' s s' ∧ recv_ok taken r' c' ∧ recv_rel c c' ∧ (r ≤ r')%nat ∧
    if b : bool then total = true → S (in_use c') = in_use c else c' = c) s) as Hno.
  { net_steps. exists c, r. split_and!; [by apply effect_refl|done|apply recv_rel_refl; by eapply recv_ok_range|done|done]. }
  destruct (ooo c !! k) as [h|] eqn:Hk.
  2:{ rewrite nth_overflow by (by apply lookup_ge_None). exact Hno. }
  rewrite (nth_lookup_Some _ _ _ _ Hk). destruct (h_used h) eqn:Hu; [|exact Hno]. cbn [negb].
  pose proof (proj1 (Forall_lookup _ _) (rc_ooo _ _ _ K) k h Hk Hu) as (j & Ej & Ed & Hl & Hw).
  rewrite Ej, (rc_nxt _ _ _ K), num_add, num_gt, num_le by lia.
  destruct (Nat.ltb_spec r j); [exact Hno|].
  destruct (Nat.leb_spec (j + length (h_data h)) r).
  { net_steps. eexists _, r. split_and!; [by eapply effect_put|by apply recv_ok_unhold| |done|].
    - eexists (rcv_nxt c), (rxq c), _. split; [by eapply recv_ok_range|]. by destruct c.
    - intros _. unfold in_use. simpl. by apply (filter_unuse _ _ h). }
  rewrite num_diff by lia. replace (Z.to_nat (Z.of_nat r - Z.of_nat j)) with (r - j)%nat by lia.
  set (d := drop (r - j) (h_data h)).
  assert (length d = length (h_data h) - (r - j))%nat as Ld by (unfold d; apply length_drop).
  assert (piece (length taken) r (num B r) d) as Hd.
  { split_and!; [done| |lia|intros E; specialize (Hw E); lia]. rewrite Ld. unfold d. rewrite Ed at 1. rewrite slice_drop. f_equal; lia. }
  apply wp_bind. eapply wp_mono; [by apply (rcv_accept_spec r c)|]. intros n s1 (m & -> & Hm & Ht & E1 & Hq).
  pose proof (effect_at _ _ _ _ _ _ H E1) as A1. do 2 net_step.
  set (c2 := (c <| rxq := _ |>) <| rcv_nxt := _ |>).
  assert (recv_ok taken (r + m) c2) as K2 by exact (recv_ok_accept r c d m K Hd Hm Hq).
  pose proof (effect_put P i _ c2 s1 A1) as E2. pose proof (effect_at _ _ _ _ _ _ A1 E2) as A2.
  pose proof (effect_trans _ _ _ _ _ _ _ E1 E2) as E12. apply wp_bind.
  destruct (Z.eqb_spec (Z.of_nat m) (Z.of_nat (length (h_data h)) - (Z.of_nat r - Z.of_nat j))) as [E|E]; net_steps.
  - eexists _, (r + m)%nat. split_and!; [eapply effect_trans; [exact E12|by eapply effect_put]|by apply recv_ok_unhold| |lia|].
    + eexists _, _, _. split; [|reflexivity]. apply u32_range.
    + intros _. unfold in_use. simpl. by apply (filter_unuse _ _ h).
  - exists c2, (r + m)%nat. split_and!; [done|done| |lia|intros Et; specialize (Ht Et); lia].
    exists (rcv_nxt c2), (rxq c2), (ooo c). split; [apply u32_range|]. by destruct c.
Qed.
Lemma ooo_round_spec n r c k s :
  at_slot s i c → recv_ok taken r c →
  wp (ooo_round n i k) (λ b s', ∃ c' r', effect P i c' s s' ∧ recv_ok taken r' c' ∧ recv_rel c c' ∧ (r ≤ r')%nat ∧
    if b : bool then total = true → (in_use c' < in_use c)%nat else c' = c) s.
Proof.
  revert r c k s. induction n as [|n IH]; intros r c k s H K; cbn [ooo_round].
  { net_steps. exists c, r. split_and!; [by apply effect_refl|done|apply recv_rel_refl; by eapply recv_ok_range|done|done]. }
  net_step. eapply wp_mono; [by apply (ooo_try_spec r c)|]. intros a s1 (c1 & r1 & E1 & K1 & R1 & Hr1 & Ha).
  net_step. eapply wp_mono; [apply (IH r1 c1); [by eapply effect_at|done]|]. intros b s2 (c2 & r2 & E2 & K2 & R2 & Hr2 & Hb).
  net_steps. exists c2, r2. split_and!; [by eapply effect_trans|done|by eapply recv_rel_trans|lia|].
  destruct a, b; simpl in *; subst; try done; intros E; try specialize (Ha E); try specialize (Hb E); lia.
Qed.
(** With a peer that keeps to the window the loop ends: every turn but the
    last uses a held segment up. *)
Lemma ooo_loop_spec n r c s :
  at_slot s i c → recv_ok taken r c → (total = true → (in_use c ≤ n)%nat) →
  wpx total (ooo_loop n i) (λ _ s', ∃ c' r', effect P i c' s s' ∧ recv_ok taken r' c' ∧ recv_rel c c' ∧ (r ≤ r')%nat) s.
Proof.
  revert r c s. induction n as [|n IH]; intros r c s H K Hn; cbn [ooo_loop]; netx_step;
    (eapply wpx_mono; [apply wpx_of; by apply (ooo_round_spec NOOO r c)|]); intros b s1 (c1 & r1 & E1 & K1 & R1 & Hr1 & Hb);
    (destruct b; cbn [negb]; [|netx_steps; by exists c1, r1]).
  - unfold wpx, diverge. destruct total; [|done]. specialize (Hn eq_refl). specialize (Hb eq_refl). lia.
  - eapply wpx_mono; [apply (IH r1 c1); [by eapply effect_at|done|intros E; specialize (Hb E); specialize (Hn E); lia]|].
    intros [] s2 (c2 & r2 & E2 & K2 & R2 & Hr2).
    exists c2, r2. split_and!; [by eapply effect_trans|done|by eapply recv_rel_trans|lia].
Qed.
Lemma in_use_le r c : recv_ok taken r c → (in_use c ≤ ooo_fuel)%nat.
Proof.
  intros K. unfold in_use. pose proof (length_filter (λ h, h_used h = true) (ooo c)) as Hf.
  rewrite (rc_slots _ _ _ K) in Hf. unfold ooo_fuel, RXQ. change (Z.to_nat 2048) with 2048%nat. unfold NOOO in *. lia.
Qed.
Lemma free_held_Some l k j : free_held l k = Some j → (k ≤ j < k + length l)%nat.
Proof.
  revert k. induction l as [|h l IH]; intros k; simpl; [done|]. destruct (h_used h); [|intros [= ->]; lia].
  intros E%IH. lia.
Qed.
Lemma ooo_store_spec r c k d s :
  at_slot s i c → recv_ok taken r c → piece (length taken) k (num B k) d →
  wp (ooo_store i (num B k) d) (λ _ s', ∃ c', effect P i c' s s' ∧ recv_ok taken r c' ∧ recv_rel c c') s.
Proof.
  intros H K (_ & Ed & Hl & Hw). unfold ooo_store. do 2 net_step.
  assert (∃ c', effect P i c' s s ∧ recv_ok taken r c' ∧ recv_rel c c') as Hno.
  { exists c. split_and!; [by apply effect_refl|done|apply recv_rel_refl; by eapply recv_ok_range]. }
  destruct (existsb _ _); [by net_steps|]. destruct (free_held _ _) as [j|]; [|by net_steps].
  set (d' := take (Z.to_nat OOOSEG) d). assert (piece (length taken) k (num B k) d') as Hp.
  { assert (length d' ≤ length d)%nat as Hle by (unfold d'; rewrite length_take; lia).
    split_and!; [done| |lia|intros E; specialize (Hw E); lia]. unfold d' at 1. rewrite Ed. unfold d'. rewrite length_take.
    rewrite (Nat.min_comm _ (length d)). unfold slice. rewrite take_take. f_equal. lia. }
  set (c1 := c <| ooo := _ |>). assert (recv_ok taken r c1) as K1.
  { destruct K as [K1 K2 K3 K4 K5 K6 K7]. split; simpl; try done; [|by rewrite length_insert].
    apply Forall_insert; [done|]. intros _. exists k. done. }
  assert (recv_rel c c1) as R1.
  { eexists (rcv_nxt c), (rxq c), _. split; [by eapply recv_ok_range|]. by destruct c. }
  unfold mem_alloc. apply wp_bind. unfold wp at 1. destruct (oom s) as [|b l].
  - cbn [negb]. net_steps. exists c1. split_and!; [by eapply effect_put|done|done].
  - set (s1 := s <| oom := l |>). assert (effect P i c s s1) as E1.
    { split; try done; [simpl; by rewrite list_insert_id by apply H|exists []; simpl; by rewrite app_nil_r]. }
    assert (at_slot s1 i c) as A1 by done. clearbody s1. destruct b; cbn [negb].
    + net_steps. exists c. split_and!; [done|done|apply recv_rel_refl; by eapply recv_ok_range].
    + net_steps. exists c1. split_and!; [eapply effect_trans; [exact E1|by eapply effect_put]|done|done].
Qed.
(** A segment of the stream: nothing is lost or misplaced, and the bytes
    that were next are in. *)
Lemma rcv_data_spec r c k seq d s :
  at_slot s i c → recv_ok taken r c → piece (length taken) k seq d →
  wpx total (rcv_data i seq d) (λ _ s', ∃ c' r', effect P i c' s s' ∧ recv_ok taken r' c' ∧ recv_rel c c' ∧ (r ≤ r')%nat ∧
    (total = true → (k ≤ r)%nat → (k + length d ≤ r')%nat)) s.
Proof.
  intros H K Hp. pose proof Hp as (-> & Ed & Hl & Hw). pose proof (rc_len _ _ _ K) as Hr.
  unfold rcv_data. do 2 netx_step. rewrite (rc_nxt _ _ _ K), num_add, num_le, num_lt by lia.
  destruct (Nat.leb_spec (k + length d) r).
  { netx_steps. exists c, r. split_and!; [by apply effect_refl|done|apply recv_rel_refl; by eapply recv_ok_range|done|lia]. }
  assert (∀ e, piece (length taken) r (num B r) e → (r + length e = k + length d)%nat →
    wpx total (let* n := rcv_accept i e in let* _ := on_tcb i (λ c, c <| rcv_nxt := u32 (rcv_nxt c + n) |>) in ooo_drain i)
      (λ _ s', ∃ c' r', effect P i c' s s' ∧ recv_ok taken r' c' ∧ recv_rel c c' ∧ (r ≤ r')%nat ∧
        (total = true → (k ≤ r)%nat → (k + length d ≤ r')%nat)) s) as Hacc.
  { intros e He El. netx_step. eapply wpx_mono; [apply wpx_of; by apply (rcv_accept_spec r c)|].
    intros n s1 (m & -> & Hm & Ht & E1 & Hq).
    pose proof (effect_at _ _ _ _ _ _ H E1) as A1. netx_steps. pose proof (recv_ok_accept _ _ _ _ K He Hm Hq) as K2.
    match goal with |- wpx _ _ _ (with_tcb i ?x _) => set (c2 := x) in * end.
    pose proof (effect_put P i _ c2 s1 A1) as E2. pose proof (effect_at _ _ _ _ _ _ A1 E2) as A2.
    eapply wpx_mono; [apply (ooo_loop_spec ooo_fuel (r + m) c2); [done|done|intros _; by eapply in_use_le]|].
    intros [] s3 (c3 & r3 & E3 & K3 & R3 & Hr3). exists c3, r3. split_and!; [|done| |lia|intros E; specialize (Ht E); lia].
    - eapply effect_trans; [exact E1|]. by eapply effect_trans.
    - eapply recv_rel_trans; [|exact R3]. exists (rcv_nxt c2), (rxq c2), (ooo c). split; [apply u32_range|]. by destruct c. }
  destruct (Nat.ltb_spec k r).
  - rewrite Z.eqb_refl, num_diff by lia. replace (Z.to_nat (Z.of_nat r - Z.of_nat k)) with (r - k)%nat by lia.
    apply Hacc; [|rewrite length_drop; lia].
    split_and!; [done| |rewrite length_drop; lia|intros E; specialize (Hw E); rewrite length_drop; lia].
    rewrite length_drop. rewrite Ed at 1. rewrite slice_drop. f_equal; lia.
  - destruct (Z.eqb_spec (num B k) (num B r)) as [E|E].
    + apply num_inj in E; [subst k; by apply Hacc|lia|lia].
    + eapply wpx_mono; [apply wpx_of; by apply (ooo_store_spec r c)|]. intros [] s' (c' & E' & K' & R').
      exists c', r. split_and!; [done|done|done|done|]. intros _ Hk. assert (k = r) by lia. subst. done.
Qed.
End receive.
End stream.

(** C21: Reassembly keeps up with a peer that stays inside the window it was
    given.  Whatever segment of the stream comes - old, next, ahead of the
    rest, overlapping, with or without memory to hold it - the server deals
    with it and comes to an end, the read queue is again the next bytes of
    the stream, and a segment that is not ahead of the stream is in the queue
    to its last byte. *)
Theorem in_window_segment_is_taken B stream taken r c i k seq d s :
  Z.of_nat (length stream) < 2 ^ 31 → at_slot s i c → recv_ok true B stream taken r c →
  piece true B stream (length taken) k seq d →
  ∃ s' c' r', rcv_data i seq d s = Some ((), s') ∧ tcbs s' !! i = Some (Some c') ∧
    recv_ok true B stream taken r' c' ∧ taken ++ rxq c' = take r' stream ∧
    (r ≤ r')%nat ∧ ((k ≤ r)%nat → (k + length d ≤ r')%nat).
Proof.
  intros Hl H K Hp. pose proof (rcv_data_spec true B stream Hl (λ _, True) i taken r c k seq d s H K Hp) as W.
  unfold wpx in W. destruct (rcv_data i seq d s) as [[[] s']|]; [|done]. destruct W as (c' & r' & E & K' & _ & Hr & Ht).
  exists s', c', r'. split_and!; [done| |done|exact (rc_bytes _ _ _ _ _ _ K')|done|by apply Ht].
  by apply (effect_at _ _ _ _ _ _ H E).
Qed.
