(* ===== verification/TcpPair.v ===== *)
(** * Two machines and a network between them (net_ip.c)

    Two servers with an open connection between them.  The network carries
    the frames each of them sends to the other one: in any order, any number
    of times, or not at all.  Programs write, programs read, time passes,
    timers run out.  At every moment what has been read at one end is the
    beginning of what was written at the other. *)
From stdpp Require Import base list numbers option relations.
From S2P Require Import Prelude Mem Req NetWire NetState Net NetTcp TcpConn TcpStream.
Local Open Scope Z_scope.

(** One end of the connection: its address, its port, and the sequence
    number of the first byte it sends. *)
Record endpoint := mkEndpoint { e_ip : list Z; e_port : Z; e_base : Z }.
Definition endpoint_ok (x : endpoint) : Prop :=
  bytes (e_ip x) ∧ length (e_ip x) = 4%nat ∧ 0 ≤ e_port x < 2 ^ 16.

(** Segments of a connection that opens or is open both ways. *)
Definition data_flags (f : Z) : Prop := has f TCP_FIN = false ∧ has f TCP_RST = false.

(** ** Finding the connection *)

Definition same_key (c c' : tcb) : Prop :=
  state c' = state c ∧ raddr c' = raddr c ∧ lport c' = lport c ∧ rport c' = rport c.
Lemma find_tcb_same l i c c' k lis ra rp lp :
  l !! i = Some (Some c) → same_key c c' →
  find_tcb (<[i := Some c']> l) k lis ra rp lp = find_tcb l k lis ra rp lp.
Proof.
  intros Hi (E1 & E2 & E3 & E4). revert i k lis Hi. induction l as [|o l IH]; intros [|i] k lis Hi; simplify_eq/=.
  - by rewrite E1, E2, E3, E4.
  - destruct o as [c0|]; [|by apply IH]. rewrite !IH by done. done.
Qed.
Lemma effect_find P i c c' s s' ra rp lp :
  at_slot s i c → effect P i c' s s' → same_key c c' → tcb_find ra rp lp s' = tcb_find ra rp lp s.
Proof. intros [H _] E K. unfold tcb_find. rewrite (ef_tcbs _ _ _ _ _ E). by eapply find_tcb_same. Qed.

(** ** What was genuine stays genuine *)

Lemma genuine_app base w v seq d : genuine base w seq d → genuine base (w ++ v) seq d.
Proof.
  intros (k & Es & Ed & Hk & Hl). exists k. split_and!; [done| |rewrite length_app; lia|done].
  rewrite Ed at 1. rewrite drop_app_le by lia. rewrite take_app_le; [done|]. rewrite length_drop. lia.
Qed.
Lemma sends_app me peer lp rp Fl base w v f :
  sends me peer lp rp Fl (genuine base w) f → sends me peer lp rp Fl (genuine base (w ++ v)) f.
Proof.
  intros [nmac target|]; [by constructor|]. apply sends_seg; try done.
  match goal with H : _ = [] ∨ _ |- _ => destruct H as [|H]; [by left|right; by apply genuine_app] end.
Qed.
Lemma piece_app B w v t k seq d : piece false B w t k seq d → piece false B (w ++ v) t k seq d.
Proof.
  intros (E & Ed & Hl & _). split_and!; [done| |rewrite length_app; lia|done].
  rewrite Ed at 1. unfold slice. rewrite drop_app_le by lia. rewrite take_app_le; [done|]. rewrite length_drop. lia.
Qed.
Lemma recv_ok_app B w v t r c : recv_ok false B w t r c → recv_ok false B (w ++ v) t r c.
Proof.
  intros [K1 K2 K3 K4 K5 K6 K7]. split; try done; [rewrite length_app; lia|by rewrite take_app_le|].
  eapply Forall_impl; [exact K5|]. intros h Hh Hu. destruct (Hh Hu) as [k Hp]. exists k. by apply piece_app.
Qed.
Lemma genuine_piece B w t seq d : genuine B w seq d → ∃ k, piece false B w t k seq d.
Proof. intros (k & -> & Ed & Hl & _). exists k. by split_and!. Qed.
Lemma recv_ok_same tot B w t r c c' : recv_same c c' → recv_ok tot B w t r c → recv_ok tot B w t r c'.
Proof.
  intros (E1 & E2 & E3 & E4 & _) [K1 K2 K3 K4 K5 K6 K7]. split; rewrite ?E1, ?E2, ?E3, ?E4; done.
Qed.

(** ** A segment arrives *)

Section arrive.
Context (x y : endpoint) (i : nat) (w w' t : list Z) (Hw' : Z.of_nat (length w') < 2 ^ 31).

(** The slot of the end [x] of the connection to [y]: [w] has been written
    here, [w'] over there, of which [t] has been read here. *)
Definition end_ok (c : tcb) (r : nat) : Prop :=
  conn_ok data_flags (e_base x) w c ∧ recv_ok false (e_base y) w' t r c ∧
  state c = T_ESTABLISHED ∧ snd_fin c = false ∧ tw_at c = 0 ∧ raddr c = e_ip y ∧ lport c = e_port x ∧ rport c = e_port y.
Lemma end_ok_advances c c' r :
  end_ok c r → conn_ok data_flags (e_base x) w c' → recv_same c c' → same_peer c c' → end_ok c' r.
Proof.
  intros (K & R & E1 & E2 & E3 & E4 & E5 & E6) K' R' (F1 & F2 & F3 & F4 & F5 & F6).
  split_and!; [done|by eapply recv_ok_same|congruence..].
Qed.
Definition arrives {A} (c : tcb) (s : net) (m : prog net A) (Q : A → Prop) : Prop :=
  wpx false m (λ a s', Q a ∧ ∃ c' r', effect (conn_sends data_flags (e_base x) w (me_ip s) c) i c' s s' ∧ end_ok c' r') s.
Lemma arrives_advances {A} c r s (m : prog net A) :
  end_ok c r → advances data_flags (e_base x) w i c s m → arrives c s m (λ _, True).
Proof.
  intros H Ha. apply wpx_of. eapply wp_mono; [exact Ha|]. intros a s' (c' & E & K & R & P). split; [done|].
  exists c', r. split; [done|by eapply end_ok_advances].
Qed.
Lemma arrives_ret {A} c r s (a : A) (Q : A → Prop) : at_slot s i c → end_ok c r → Q a → arrives c s (pret a) Q.
Proof. intros H K HQ. apply wpx_of, wp_ret. split; [done|]. exists c, r. split; [by apply effect_refl|done]. Qed.
Lemma end_sends me me' c c' r r' :
  me' = me → end_ok c r → end_ok c' r' → conn_sends data_flags (e_base x) w me' c' = conn_sends data_flags (e_base x) w me c.
Proof.
  intros -> (_ & _ & _ & _ & _ & E1 & E2 & E3) (_ & _ & _ & _ & _ & F1 & F2 & F3). unfold conn_sends. congruence.
Qed.
Lemma arrives_bind {A B} c r s (m : prog net A) (k : A → prog net B) Q R :
  at_slot s i c → end_ok c r → arrives c s m Q → (∀ a s1 c1 r1, at_slot s1 i c1 → end_ok c1 r1 → Q a → arrives c1 s1 (k a) R) →
  arrives c s (let* a := m in k a) R.
Proof.
  intros H K Hm Hk. apply wpx_bind. eapply wpx_mono; [exact Hm|]. intros a s1 (HQ & c1 & r1 & E1 & K1).
  eapply wpx_mono; [apply (Hk a s1 c1 r1); [by eapply effect_at|done|done]|].
  intros b s2 (HR & c2 & r2 & E2 & K2). split; [done|]. exists c2, r2.
  rewrite (end_sends (me_ip s) _ c c1 r r1) in E2 by (try done; apply (ef_me _ _ _ _ _ E1)).
  split; [by eapply effect_trans|done].
Qed.
(** The data of a segment. *)
Lemma rcv_data_arrives c r s seq d :
  at_slot s i c → end_ok c r → genuine (e_base y) w' seq d → arrives c s (rcv_data i seq d) (λ _, True).
Proof.
  intros H (K & R & E) (k & Hp)%(genuine_piece _ _ (length t)).
  eapply wpx_mono; [by apply (rcv_data_spec false (e_base y) w' Hw' (conn_sends data_flags (e_base x) w (me_ip s) c) i t r c k)|].
  intros [] s' (c' & r' & E' & R' & (n & q & o & Hn & ->) & _). split; [done|]. eexists _, r'. split; [exact E'|].
  split; [|done]. destruct K as [[] O M]. split; [|exact O|exact M]. split; try done; simpl. exact (rc_room _ _ _ _ _ _ R').
Qed.
Lemma seg_data_arrives c r s g :
  at_slot s i c → end_ok c r → g_data g = [] ∨ genuine (e_base y) w' (g_seq g) (g_data g) →
  arrives c s (seg_data i g) (λ _, True).
Proof.
  intros H K Hd. unfold seg_data. destruct (length (g_data g) =? 0)%nat eqn:E; [by eapply arrives_ret|].
  destruct Hd as [Hd|Hd]; [by rewrite Hd in E|]. unfold arrives. do 2 netx_step.
  eapply (arrives_bind c r _ _ _ (λ _, True)); [done|done|by eapply rcv_data_arrives|]. intros [] s1 c1 r1 A1 K1 _.
  eapply (arrives_bind c1 r1 _ _ _ (λ _, True)); [done|done| |].
  - eapply arrives_advances; [done|]. destruct K1 as ([] & _). apply outputs_advances; [done|]. by apply send_ack_outputs.
  - intros [] s2 c2 r2 A2 K2 _. unfold arrives. do 2 netx_step. by eapply arrives_ret.
Qed.
Lemma seg_rest_arrives c r s g :
  at_slot s i c → end_ok c r → data_flags (g_flags g) → 0 ≤ g_ack g < 2 ^ 32 →
  g_data g = [] ∨ genuine (e_base y) w' (g_seq g) (g_data g) → arrives c s (seg_rest i g) (λ _, True).
Proof.
  intros H K Hf Ha Hd. unfold seg_rest.
  destruct Hf as [Hfin _]. eapply (arrives_bind c r _ _ _ (λ _, True)); [done|done| |].
  - destruct (has _ TCP_ACK); [|by eapply arrives_ret]. eapply arrives_advances; [done|]. destruct K as (K & _). apply on_advances; [done|done|done|].
    intros s1 A1. apply ack_input_advances; [done| |done]. destruct K as [[] O M]. split; [by split|exact O|exact M].
  - intros [] s1 c1 r1 A1 K1 _. eapply (arrives_bind c1 r1 _ _ _ (λ b, b = true)); [done|done| |].
    + unfold seg_state, arrives. do 2 netx_step. assert (state c1 = T_ESTABLISHED) as -> by apply K1. by eapply arrives_ret.
    + intros go s2 c2 r2 A2 K2 ->. cbn [negb]. eapply (arrives_bind c2 r2 _ _ _ (λ _, True)); [done|done|by eapply seg_data_arrives|].
      intros go s3 c3 r3 A3 K3 _. destruct go; cbn [negb]; [|by eapply arrives_ret].
      unfold seg_fin, arrives. do 2 netx_step. rewrite Hfin. cbn [andb]. by eapply arrives_ret.
Qed.
(** What the other end put on the wire. *)
Context (Hb : bytes w') (Hx : endpoint_ok x) (Hy : endpoint_ok y).
Lemma genuine_bytes base v seq d : bytes v → d = [] ∨ genuine base v seq d → bytes d ∧ Z.of_nat (length d) ≤ 1460.
Proof.
  intros Hv [->|(k & _ & -> & _ & Hl)]; [split; [constructor|simpl; lia]|]. split; [|done]. by apply Forall_take, Forall_drop.
Qed.
Lemma tcp_segment_arrives c r s seq ack flags wnd d mss :
  at_slot s i c → end_ok c r → me_ip s = e_ip x → tcb_find (e_ip y) (e_port y) (e_port x) s = Some i →
  0 ≤ seq < 2 ^ 32 → 0 ≤ ack < 2 ^ 32 → 0 ≤ flags < 2 ^ 8 → 0 ≤ wnd < 2 ^ 16 → data_flags flags →
  d = [] ∨ genuine (e_base y) w' seq d →
  arrives c s (tcp_segment (e_ip y) (tcp_packet (e_ip y) (e_ip x) (e_port y) (e_port x) seq ack flags wnd d mss)) (λ _, True).
Proof.
  intros H K Em Ef Hs Ha Hfl Hwn Hdf Hd. destruct (genuine_bytes _ _ _ _ Hb Hd) as [Hdb Hdl].
  destruct Hx as (Bx & Lx & Px), Hy as (By & Ly & Py).
  destruct (tcp_packet_spec (e_ip y) (e_ip x) (e_port y) (e_port x) seq ack flags wnd d mss)
    as (T1 & T2 & T3 & T4 & T5 & T6 & T7 & T8 & T9); try done. cbv zeta in *.
  set (t0 := tcp_packet _ _ _ _ _ _ _ _ _ _) in *.
  assert (seg_hlen t0 ≤ Z.of_nat (length t0)) as Hlen.
  { rewrite T8. unfold t0, tcp_packet, tcp_with. rewrite !length_app. destruct (mss =? 0); simpl; lia. }
  clearbody t0. unfold tcp_segment, arrives. do 2 netx_step. cbv [id]. rewrite Em, T1.
  replace ((seg_hlen t0 <? 20) || (Z.of_nat (length t0) <? seg_hlen t0)) with false
    by (symmetry; apply orb_false_iff; rewrite !Z.ltb_ge, T8; rewrite T8 in Hlen; destruct (mss =? 0); lia).
  cbn [negb Z.eqb]. unfold read_segment at 1 2. cbn [g_sport g_dport]. rewrite T2, T3, Ef. do 2 netx_step.
  assert (state c = T_ESTABLISHED) as -> by apply K. cbn [bool_decide].
  replace (has (g_flags (read_segment t0)) TCP_RST) with false
    by (unfold read_segment; cbn [g_flags]; rewrite T6; symmetry; apply Hdf).
  rewrite <- Em. apply (seg_rest_arrives c r); [done|done|unfold read_segment; cbn [g_flags]; by rewrite T6|
    unfold read_segment; cbn [g_ack]; by rewrite T5|].
  unfold read_segment. cbn [g_data g_seq]. by rewrite T4, T9.
Qed.
End arrive.

(** ** The frame on its way *)

(** A segment as it lies in its frame. *)
Lemma seg_frame_parts me peer mac nmac ipid lp rp seq ack flags wnd d mss :
  length mac = 6%nat → length nmac = 6%nat → length me = 4%nat → length peer = 4%nat →
  let f := seg_frame me peer mac nmac ipid lp rp seq ack flags wnd d mss in
  get16 (drop 12 f) = ETH_IPV4 ∧
  drop 14 f = ip_hdr me peer IP_TCP ipid ((if mss =? 0 then 20 else 24) + Z.of_nat (length d)) ++
              tcp_packet me peer lp rp seq ack flags wnd d mss ∧
  take 4 (drop 26 f) = me ∧ drop 34 f = tcp_packet me peer lp rp seq ack flags wnd d mss.
Proof.
  intros Lm Ln Le Lp f. unfold f, seg_frame. set (p := tcp_packet _ _ _ _ _ _ _ _ _ _).
  unfold eth_hdr, ip_hdr, ip_hdr_with, put16.
  do 7 (destruct mac as [|? mac]; [try discriminate|try discriminate]).
  do 7 (destruct nmac as [|? nmac]; [try discriminate|try discriminate]).
  do 5 (destruct me as [|? me]; [try discriminate|try discriminate]).
  do 5 (destruct peer as [|? peer]; [try discriminate|try discriminate]).
  split_and!; reflexivity.
Qed.
(** The frame is for this machine: it reaches the TCP input as it was made. *)
Lemma net_input_seg me peer mac nmac ipid lp rp seq ack flags wnd d mss s :
  bytes me → bytes peer → length mac = 6%nat → length nmac = 6%nat → length me = 4%nat → length peer = 4%nat →
  me_ip s = peer → Z.of_nat (length d) ≤ 1460 →
  net_input (seg_frame me peer mac nmac ipid lp rp seq ack flags wnd d mss) s =
  tcp_input me (tcp_packet me peer lp rp seq ack flags wnd d mss) s.
Proof.
  intros Bm Bp Lm Ln Le Lp Es Ld.
  destruct (seg_frame_parts me peer mac nmac ipid lp rp seq ack flags wnd d mss) as (F1 & F2 & F3 & F4); try done.
  cbv zeta in *. destruct (ip_hdr_spec me peer IP_TCP ipid ((if mss =? 0 then 20 else 24) + Z.of_nat (length d))) as [H1 H2]; try done.
  set (f := seg_frame _ _ _ _ _ _ _ _ _ _ _ _ _) in *. set (p := tcp_packet _ _ _ _ _ _ _ _ _ _) in *.
  set (n := (if mss =? 0 then 20 else 24) + Z.of_nat (length d)) in *. set (h := ip_hdr _ _ _ _ _) in *.
  assert (Z.of_nat (length p) = n) as Lpk.
  { unfold p, n, tcp_packet, tcp_with. rewrite !length_app. destruct (mss =? 0); simpl; lia. }
  assert (0 ≤ n < 2000) as Hn by (unfold n; destruct (mss =? 0); lia).
  assert (length f = (34 + length p)%nat) as Lf.
  { assert (length (drop 14 f) = (20 + length p)%nat) as E by (rewrite F2, length_app, H2; lia). rewrite length_drop in E. lia. }
  assert (byte_at (h ++ p) 0 = 0x45 ∧ byte_at (h ++ p) 9 = IP_TCP ∧ get16 (drop 2 (h ++ p)) = 20 + n) as (B0 & B9 & Bl).
  { unfold h, ip_hdr, ip_hdr_with. split_and!; [done|done|]. apply (wire_get16_put16 (20 + n)). lia. }
  assert (ip_src (h ++ p) = me ∧ ip_dst (h ++ p) = peer) as [Esrc Edst].
  { unfold h, ip_hdr, ip_hdr_with, ip_src, ip_dst. do 5 (destruct me as [|? me]; [try discriminate|try discriminate]).
    by do 5 (destruct peer as [|? peer]; [try discriminate|try discriminate]). }
  assert (take 20 (h ++ p) = h ∧ drop 20 (h ++ p) = p) as [Et Ed].
  { rewrite <- H2. split; [apply take_app_length|apply drop_app_length]. }
  clearbody f p n h. unfold net_input. unfold pbind at 1. cbn [gets]. cbv [id]. rewrite F1, F2, Lf, B0, B9, Bl, Esrc, Edst, Es.
  change (Z.land 0x45 0x0f * 4) with 20. change (Z.to_nat 20) with 20%nat. rewrite Et, Ed, H1.
  replace (Z.of_nat (34 + length p) <? 14) with false by (symmetry; apply Z.ltb_ge; lia).
  replace (Z.of_nat (34 + length p) <? 34) with false by (symmetry; apply Z.ltb_ge; lia).
  replace ((20 <? 20) || (20 + n <? 20) || (Z.of_nat (34 + length p) - 14 <? 20 + n)) with false
    by (symmetry; rewrite !orb_false_iff, !Z.ltb_ge; lia).
  rewrite take_ge by lia. unfold ip_eq. by rewrite bool_decide_true by done.
Qed.

(** ** What a program and the clock do *)

Section events.
Context (x y : endpoint) (i : nat) (w w' t : list Z).

(** A write: as much as there is room for joins the stream. *)
Lemma tcp_write_event c r s d len n s' :
  at_slot s i c → end_ok x y w w' t c r → tcp_write i d len s = Some (n, s') →
  let v := w ++ take (Z.to_nat n) d in
  ∃ c' r', effect (conn_sends data_flags (e_base x) v (me_ip s) c) i c' s s' ∧ end_ok x y v w' t c' r'.
Proof.
  intros H K E v. cut (wpx false (tcp_write i d len) (λ n s', let v := w ++ take (Z.to_nat n) d in
    ∃ c' r', effect (conn_sends data_flags (e_base x) v (me_ip s) c) i c' s s' ∧ end_ok x y v w' t c' r') s).
  { unfold wpx. by rewrite E. }
  clear E v n s'. unfold tcp_write. do 2 netx_step. set (n := if _ <? _ then _ else _).
  destruct (Z.leb_spec n 0).
  { netx_steps. simpl. rewrite app_nil_r. exists c, r. split; [by apply effect_refl|done]. }
  destruct (Z.ltb_spec (Z.of_nat (length d)) n); [done|]. do 2 netx_step.
  set (v := w ++ take (Z.to_nat n) d). set (c1 := c <| snd_buf := _ |>).
  assert (n ≤ SNDBUF - Z.of_nat (length (snd_buf c))) as Hn by (unfold n; repeat case_match; rewrite ?Z.ltb_lt, ?Z.ltb_ge in *; lia).
  clearbody n. assert (end_ok x y v w' t c1 r) as K1.
  { destruct K as ([W (a & Ha & Eb & En) M] & R & E1). split_and!; try (by apply E1); [|by destruct R].
    split; [|exists a|done].
    - destruct W. split; try done. simpl. rewrite length_app, length_take. lia.
    - simpl. unfold v. rewrite length_app, Eb, drop_app_le by done. split_and!; [lia|done|done]. }
  pose proof (effect_put (conn_sends data_flags (e_base x) v (me_ip s) c) i c c1 s H) as E1.
  assert (at_slot (with_tcb i c1 s) i c1) as A1 by (by eapply effect_at).
  netx_step. eapply wpx_mono.
  - apply (arrives_advances x y i v w' t c1 r); [done|]. destruct K1 as (K1 & _). apply outputs_advances; [done|].
    apply tcp_output_outputs; [done|by destruct K1..].
  - intros [] s2 (_ & c2 & r2 & E2 & K2). netx_step. exists c2, r2. split; [|done]. by eapply effect_trans.
Qed.
(** A read: the bytes handed out are the next ones. *)
Lemma conn_take_event c r s want d s' :
  at_slot s i c → end_ok x y w w' t c r → conn_take i want s = Some (d, s') →
  ∃ c' r', effect (conn_sends data_flags (e_base x) w (me_ip s) c) i c' s s' ∧ end_ok x y w w' (t ++ d) c' r'.
Proof.
  intros H K E. cut (wpx false (conn_take i want) (λ d s',
    ∃ c' r', effect (conn_sends data_flags (e_base x) w (me_ip s) c) i c' s s' ∧ end_ok x y w w' (t ++ d) c' r') s).
  { unfold wpx. by rewrite E. }
  clear E s' d. unfold conn_take. do 2 netx_step. set (n := if _ <? _ then _ else _).
  destruct (Z.leb_spec n 0).
  { netx_steps. rewrite app_nil_r. exists c, r. split; [by apply effect_refl|done]. }
  destruct (VFS_DATA_MAX <? n); [done|]. unfold conn_drop. do 3 netx_step.
  destruct (Z.leb_spec n 0); [lia|]. do 2 netx_step. set (c1 := c <| rxq := _ |>). set (d := take (Z.to_nat n) (rxq c)).
  assert (end_ok x y w w' (t ++ d) c1 r) as K1.
  { destruct K as ([W O M] & R & E1). split_and!; try (by apply E1).
    - split; [|done|done]. destruct W. split; try done. simpl. rewrite length_drop. lia.
    - destruct R. split; try done; simpl.
      + unfold d. by rewrite <- app_assoc, take_drop.
      + eapply Forall_impl; [done|]. intros h Hh Hu. destruct (Hh Hu) as (k & ? & ? & ? & _). exists k. by split_and!.
      + rewrite length_drop. lia. }
  pose proof (effect_put (conn_sends data_flags (e_base x) w (me_ip s) c) i c c1 s H) as E1.
  assert (at_slot (with_tcb i c1 s) i c1) as A1 by (by eapply effect_at).
  eapply wpx_mono.
  - instantiate (1 := λ _ s', True ∧ ∃ c' r', effect (conn_sends data_flags (e_base x) w (me_ip s) c) i c' (with_tcb i c1 s) s' ∧ end_ok x y w w' (t ++ d) c' r').
    destruct (_ && _); [|by eapply (arrives_ret x y i w w' (t ++ d) c1 r)].
    apply (arrives_advances x y i w w' (t ++ d) c1 r); [done|]. destruct K1 as (K1 & _). apply outputs_advances; [done|].
    apply send_ack_outputs; [done|by destruct K1..].
  - intros [] s2 (_ & c2 & r2 & E2 & K2). netx_step. exists c2, r2. split; [|done]. by eapply effect_trans.
Qed.
(** The timer, while the server has not given the connection up. *)
Lemma timeout_event c r s :
  at_slot s i c → end_ok x y w w' t c r → rt_tries c < RTO_TRIES →
  arrives x y i w w' t c s (timeout_slot (unow_ms s) i) (λ _, True).
Proof.
  intros H K Ht. pose proof K as (Kc & _ & Est & _ & Etw & _). unfold timeout_slot, arrives. do 2 netx_step.
  rewrite (nth_lookup_Some _ _ _ _ (proj1 H)), Est, Etw. cbn [bool_decide Z.eqb negb andb].
  destruct (_ || _); [by eapply arrives_ret|].
  replace (RTO_TRIES <? rt_tries c + 1) with false by (symmetry; apply Z.ltb_ge; lia).
  assert (conn_ok data_flags (e_base x) w (c <| rt_tries := rt_tries c + 1 |>)) as K1.
  { destruct Kc as [[] O M]. split; [by split|exact O|exact M]. }
  apply (arrives_advances x y i w w' t c r); [done|]. apply put_advances; [done|done|done|intros s1 A1].
  destruct (negb _); [by apply send_pending_advances|by apply retransmit_advances].
Qed.
End events.

(** ** The two machines *)

(** A machine, what its program has written and what it has read. *)
Record history := mkHistory { h_net : net; h_written : list Z; h_read : list Z }.

Section local.
Context (x y : endpoint) (i : nat).

(** What happens at the end [x], which holds the connection in its slot [i],
    when the other machine has sent the frames [sent]. *)
Inductive local (sent : list (list Z)) : history → history → Prop :=
  | local_write s w t d len n s' :
      bytes d → tcp_write i d len s = Some (n, s') →
      local sent (mkHistory s w t) (mkHistory s' (w ++ take (Z.to_nat n) d) t)
  | local_read s w t want d s' :
      conn_take i want s = Some (d, s') →
      local sent (mkHistory s w t) (mkHistory s' w (t ++ d))
  | local_segment s w t f s' :
      f ∈ sent → get16 (drop 12 f) = ETH_IPV4 →
      tcp_segment (ip_src (drop 14 f)) (drop 34 f) s = Some ((), s') →
      local sent (mkHistory s w t) (mkHistory s' w t)
  | local_timer s w t s' :
      (∀ c, tcbs s !! i = Some (Some c) → rt_tries c < RTO_TRIES) →
      timeout_slot (unow_ms s) i s = Some ((), s') →
      local sent (mkHistory s w t) (mkHistory s' w t)
  | local_elsewhere s w t s' :
      tcbs s' = tcbs s → me_ip s' = me_ip s → wire s' = wire s → macs_ok s' →
      local sent (mkHistory s w t) (mkHistory s' w t).

(** The machine holds its end in order. *)
Record side (w' : list Z) (h : history) : Prop := {
  sd_conn : ∃ c r, at_slot (h_net h) i c ∧ end_ok x y (h_written h) w' (h_read h) c r;
  sd_me : me_ip (h_net h) = e_ip x;
  sd_find : tcb_find (e_ip y) (e_port y) (e_port x) (h_net h) = Some i;
  sd_bytes : bytes (h_written h);
  sd_wire : Forall (sends (e_ip x) (e_ip y) (e_port x) (e_port y) data_flags (genuine (e_base x) (h_written h))) (wire (h_net h)) }.

Lemma end_same_key w w' t c r v v' t' c' r' : end_ok x y w w' t c r → end_ok x y v v' t' c' r' → same_key c c'.
Proof.
  intros (_ & _ & E1 & _ & _ & E2 & E3 & E4) (_ & _ & F1 & _ & _ & F2 & F3 & F4). split_and!; congruence.
Qed.
(** An effect on the slot that leaves the end in order. *)
Lemma side_effect w' s w t c r s' v u c' r' :
  side w' (mkHistory s w t) → at_slot s i c → end_ok x y w w' t c r →
  effect (conn_sends data_flags (e_base x) (w ++ v) (me_ip s) c) i c' s s' → bytes v →
  end_ok x y (w ++ v) w' u c' r' → side w' (mkHistory s' (w ++ v) u).
Proof.
  intros [_ Em Ef Hb Hw] H K E Hv K'. simpl in *. split; simpl.
  - exists c', r'. split; [by eapply effect_at|done].
  - by rewrite (ef_me _ _ _ _ _ E).
  - rewrite <- Ef. eapply effect_find; [exact H|exact E|by eapply end_same_key].
  - by apply Forall_app_2.
  - destruct (ef_wire _ _ _ _ _ E) as (fs & -> & Hfs). apply Forall_app_2.
    + eapply Forall_impl; [exact Hw|]. intros f. apply sends_app.
    + eapply Forall_impl; [exact Hfs|]. intros f. unfold conn_sends. rewrite Em.
      by destruct K as (_ & _ & _ & _ & _ & -> & -> & ->).
Qed.
Lemma side_arrives {A} w' s w t c r (m : prog net A) a s' Q :
  side w' (mkHistory s w t) → at_slot s i c → end_ok x y w w' t c r →
  arrives x y i w w' t c s m Q → m s = Some (a, s') → side w' (mkHistory s' w t).
Proof.
  intros Hs H K Ha E. unfold arrives, wpx in Ha. rewrite E in Ha. destruct Ha as (_ & c' & r' & E' & K').
  rewrite <- (app_nil_r w). rewrite <- (app_nil_r w) in E', K'. eapply side_effect; [exact Hs|done|done|exact E'|constructor|done].
Qed.
(** The connection has just been opened. *)
Record opened (h : history) : Prop := {
  op_conn : ∃ c, at_slot (h_net h) i c ∧ tcb_wf c ∧ state c = T_ESTABLISHED ∧
    raddr c = e_ip y ∧ lport c = e_port x ∧ rport c = e_port y ∧ snd_base c = e_base x ∧ rcv_nxt c = e_base y ∧
    snd_buf c = [] ∧ snd_fin c = false ∧ tw_at c = 0 ∧ rxq c = [] ∧ ooo c = replicate NOOO no_held ∧ intr_task c = 0;
  op_me : me_ip (h_net h) = e_ip x;
  op_find : tcb_find (e_ip y) (e_port y) (e_port x) (h_net h) = Some i;
  op_wire : Forall (sends (e_ip x) (e_ip y) (e_port x) (e_port y) data_flags (λ _ _, False)) (wire (h_net h));
  op_history : h_written h = [] ∧ h_read h = [] }.
Lemma opened_side h : opened h → side [] h.
Proof.
  intros [(c & H & W & E1 & E2 & E3 & E4 & E5 & E6 & E7 & E8 & E9 & E10 & E11 & E12) Em Ef Hw [Ew Er]].
  split; try done; rewrite Ew, ?Er.
  - exists c, 0%nat. split; [done|]. split_and!; try done.
    + split; [done| |split_and!; try done; congruence]. exists 0%nat. rewrite E5, E7, Z.add_0_r. split_and!; [done|done|].
      rewrite u32_small; [done|]. rewrite <- E5. apply W.
    + split; rewrite ?E6, ?E10, ?E11; try done.
      * unfold num. rewrite Z.add_0_r, u32_small; [done|]. rewrite <- E6. apply W.
      * by repeat constructor.
  - constructor.
  - eapply Forall_impl; [exact Hw|]. intros f []; [by constructor|]. apply sends_seg; try done. left. naive_solver.
Qed.
(** What the other program writes does not disturb this end. *)
Lemma side_grows w' v' h : side w' h → side (w' ++ v') h.
Proof.
  intros [(c & r & H & K & R & K') Em Ef Hb Hw]. split; try done. exists c, r. split; [done|]. split; [done|].
  split; [by apply recv_ok_app|done].
Qed.

Context (Hx : endpoint_ok x) (Hy : endpoint_ok y).
Lemma local_side w' sent h h' :
  bytes w' → Z.of_nat (length w') < 2 ^ 31 →
  Forall (sends (e_ip y) (e_ip x) (e_port y) (e_port x) data_flags (genuine (e_base y) w')) sent →
  side w' h → local sent h h' → side w' h'.
Proof.
  intros Hb Hl Hsent Hs Hstep. pose proof Hs as [(c & r & H & K) Em Ef _ _].
  destruct Hstep as [s w t d len n s' Hd E|s w t want d s' E|s w t f s' Hf Ht E|s w t s' Ht E|s w t s' E1 E2 E3 E4]; simpl in *.
  - destruct (tcp_write_event _ _ _ _ _ _ _ _ _ _ _ _ _ H K E) as (c' & r' & E' & K').
    eapply side_effect; [exact Hs|done|done|exact E'|by apply Forall_take|done].
  - destruct (conn_take_event _ _ _ _ _ _ _ _ _ _ _ _ H K E) as (c' & r' & E' & K').
    rewrite <- (app_nil_r w). rewrite <- (app_nil_r w) in E', K'. eapply side_effect; [exact Hs|done|done|exact E'|constructor|done].
  - rewrite Forall_forall in Hsent. specialize (Hsent f Hf).
    destruct Hsent as [nmac target Hn|mac nmac ipid seq ack flags wnd d mss Hm Hn Hsq Hak Hfl Hwn Hdf Hd].
    { exfalso. do 7 (destruct nmac as [|? nmac]; [try discriminate|try discriminate]). }
    destruct (seg_frame_parts (e_ip y) (e_ip x) mac nmac ipid (e_port y) (e_port x) seq ack flags wnd d mss)
      as (_ & _ & F3 & F4); try done; [apply Hy|apply Hx|]. cbv zeta in *. unfold ip_src in E. rewrite drop_drop in E.
    change (14 + 12)%nat with 26%nat in E. rewrite F3, F4 in E.
    eapply side_arrives; [exact Hs|exact H|exact K| |exact E]. by apply (tcp_segment_arrives x y i w w' t Hl Hb Hx Hy c r).
  - eapply side_arrives; [exact Hs|exact H|exact K| |exact E]. apply (timeout_event x y i w w' t c r); [done|done|apply Ht, H].
  - destruct Hs as [_ _ _ Hbw Hwr]. split; simpl in *; [|congruence| |done|by rewrite E3].
    + exists c, r. split; [split; [rewrite E1; apply H|done]|done].
    + unfold tcb_find in *. by rewrite E1.
Qed.
Lemma local_written sent h h' : local sent h h' → ∃ v, h_written h' = h_written h ++ v.
Proof. destruct 1; simpl; [by eexists|exists []; by rewrite app_nil_r..]. Qed.
(** What has been read and what waits to be read. *)
Lemma side_prefix w' h :
  side w' h → ∃ c, tcbs (h_net h) !! i = Some (Some c) ∧ h_read h ++ rxq c `prefix_of` w'.
Proof.
  intros [(c & r & [H _] & _ & R & _)]. exists c. split; [done|]. rewrite (rc_bytes _ _ _ _ _ _ R). apply prefix_take.
Qed.
End local.

Section pair.
Context (x y : endpoint) (i j : nat).

(** One event at either machine. *)
Inductive step : history * history → history * history → Prop :=
  | step_left a b a' : local i (wire (h_net b)) a a' → step (a, b) (a', b)
  | step_right a b b' : local j (wire (h_net a)) b b' → step (a, b) (a, b').

Definition pair_ok (p : history * history) : Prop :=
  side x y i (h_written p.2) p.1 ∧ side y x j (h_written p.1) p.2.
(** Less has been written than half the sequence numbers. *)
Definition pair_short (p : history * history) : Prop :=
  Z.of_nat (length (h_written p.1)) < 2 ^ 31 ∧ Z.of_nat (length (h_written p.2)) < 2 ^ 31.

Context (Hx : endpoint_ok x) (Hy : endpoint_ok y).
Lemma step_ok p q : pair_short p → pair_ok p → step p q → pair_ok q.
Proof.
  intros [L1 L2] [S1 S2] Hstep. destruct Hstep as [a b a' H|a b b' H]; simpl in *.
  - pose proof (local_side x y i Hx Hy _ _ _ _ (sd_bytes _ _ _ _ _ S2) L2 (sd_wire _ _ _ _ _ S2) S1 H) as S1'.
    split; [done|]. simpl. destruct (local_written _ _ _ _ H) as [v ->]. by apply side_grows.
  - pose proof (local_side y x j Hy Hx _ _ _ _ (sd_bytes _ _ _ _ _ S1) L1 (sd_wire _ _ _ _ _ S1) S2 H) as S2'.
    split; [|done]. simpl. destruct (local_written _ _ _ _ H) as [v ->]. by apply side_grows.
Qed.
Lemma step_short p q : step p q → pair_short q → pair_short p.
Proof.
  intros [a b a' H|a b b' H] [L1 L2]; destruct (local_written _ _ _ _ H) as [v E]; split; simpl in *;
    rewrite ?E, ?length_app in *; lia.
Qed.
Lemma steps_ok p q : rtc step p q → pair_short q → pair_ok p → pair_ok q.
Proof.
  induction 1 as [|p p' q Hs Hr IH]; intros L K; [done|]. apply IH; [done|]. eapply step_ok; [|done|done].
  eapply step_short; [exact Hs|]. clear IH K Hs. induction Hr as [|p1 p2 p3 H1 _ IH]; [done|]. eapply step_short; [exact H1|auto].
Qed.
End pair.

(** C3: TCP between two of these machines delivers a stream.  From the moment
    the connection is open, whatever the network does with the frames - delay,
    reorder, repeat, lose them - whatever the programs at the two ends write
    and read, whenever the timers run out and memory is refused: what has been
    read at one end, followed by what waits there to be read, is the beginning
    of what was written at the other end, in both directions.  (Sequence
    numbers wrap around freely on the way; less than 2^31 bytes are sent.) *)
Theorem tcp_delivers_the_stream x y i j a b a' b' :
  endpoint_ok x → endpoint_ok y → opened x y i a → opened y x j b →
  rtc (step i j) (a, b) (a', b') → pair_short (a', b') →
  ∃ c d, tcbs (h_net a') !! i = Some (Some c) ∧ tcbs (h_net b') !! j = Some (Some d) ∧
    h_read a' ++ rxq c `prefix_of` h_written b' ∧ h_read b' ++ rxq d `prefix_of` h_written a'.
Proof.
  intros Hx Hy Oa Ob Hr L.
  assert (pair_ok x y i j (a', b')) as [Sa Sb].
  { eapply steps_ok; [done|done|exact Hr|done|]. split; simpl; [destruct (op_history _ _ _ _ Ob) as [-> _]|destruct (op_history _ _ _ _ Oa) as [-> _]];
      by apply opened_side. }
  destruct (side_prefix _ _ _ _ _ Sa) as (c & Hc & Pc), (side_prefix _ _ _ _ _ Sb) as (d & Hd & Pd). by exists c, d.
Qed.
