(* ===== verification/NetDemo.v ===== *)
(** * The network stack in motion (net_ip.c)

    Concrete runs of the server: a connection opened between two machines,
    which shows that the theorems about connections apply, and the runs in
    which the server does not do what it is meant to. *)
From stdpp Require Import base list numbers option relations.
From S2P Require Import Prelude Mem Req NetWire NetState Net NetTcp NetCtl TcpConn TcpStream TcpPair.
Local Open Scope Z_scope.

(** ** Two machines *)

(** The server's variables as the program starts, on a machine with the
    hardware address [mac], at the time [now] (in ticks). *)
Definition net_boot (mac ip : list Z) (now : Z) : net :=
  mkNet mac ip (replicate NARP (mkArpent [0; 0; 0; 0] (replicate 6 0) false)) 1 0 no_parked [] 0 0 0
    (replicate NTCB None) 40001 true [] [0; 0; 0; 0] true (replicate NPFD (mkPfile false 0 0 [])) false now
    [] [] [] [] 0 [] [].
Definition run {A} (m : prog net A) (s : net) : net := match m s with Some (_, s') => s' | None => s end.
Definition result {A} (m : prog net A) (s : net) (d : A) : A := match m s with Some (a, _) => a | None => d end.

Definition mac_a : list Z := [82; 84; 0; 18; 52; 86].
Definition mac_b : list Z := [82; 85; 10; 0; 2; 2].
Definition ip_a : list Z := [10; 0; 2; 15].
Definition ip_b : list Z := [10; 0; 2; 2].
(** Both know the other's hardware address; the test hooks are off.  The
    clock of the first is such that its sequence numbers wrap around. *)
Definition ready (mac ip peer_mac peer_ip : list Z) (now : Z) : net :=
  (net_boot mac ip now) <| arp_cache := arp_learn (replicate NARP (mkArpent [0; 0; 0; 0] (replicate 6 0) false)) peer_ip peer_mac |>
    <| drop_next := false |> <| reorder_armed := false |>.
Definition last_frame (s : net) : list Z := default [] (last (wire s)).

Definition a0 : net := run (tcp_connect ip_b 5555) (ready mac_a ip_a mac_b ip_b (40 * (2 ^ 32 - 2))).
Definition b0 : net := run (tcp_listen 5555) (ready mac_b ip_b mac_a ip_a 40000).
Definition b1 : net := run (net_input (last_frame a0)) b0.
Definition a1 : net := run (net_input (last_frame b1)) a0.
Definition b2 : net := run (net_input (last_frame a1)) b1.
Definition end_a : endpoint := mkEndpoint ip_a 40001 (2 ^ 32 - 1).
Definition end_b : endpoint := mkEndpoint ip_b 5555 1001.
Definition ha : history := mkHistory a1 [] [].
Definition hb : history := mkHistory b2 [] [].

Lemma wire_a : wire a1 =
  [seg_frame ip_a ip_b mac_b mac_a 1 40001 5555 (2 ^ 32 - 2) 0 TCP_SYN 2048 [] 1024;
   seg_frame ip_a ip_b mac_b mac_a 2 40001 5555 (2 ^ 32 - 1) 1001 TCP_ACK 2048 [] 0].
Proof. vm_compute. reflexivity. Qed.
Lemma wire_b : wire b2 =
  [seg_frame ip_b ip_a mac_a mac_b 1 5555 40001 1000 (2 ^ 32 - 1) (Z.lor TCP_SYN TCP_ACK) 2048 [] 1024].
Proof. vm_compute. reflexivity. Qed.
#[export] Instance macs_ok_dec s : Decision (macs_ok s). Proof. unfold macs_ok. apply _. Defined.
Ltac sent := repeat (apply list.Forall_cons; split); try apply list.Forall_nil; try done;
  apply sends_seg; try reflexivity; try (by left); vm_compute; intuition congruence.
Ltac just_opened wire := split;
  [ eexists; split; [split; [vm_compute; reflexivity|apply (bool_decide_unpack _); vm_compute; exact I]|];
    split; [split; vm_compute; intuition congruence|]; vm_compute; repeat split
  | vm_compute; reflexivity | vm_compute; reflexivity | unfold h_net, ha, hb; rewrite wire; sent | split; reflexivity ].
Lemma opened_a : opened end_a end_b 0 ha. Proof. just_opened wire_a. Qed.
Lemma opened_b : opened end_b end_a 1 hb. Proof. just_opened wire_b. Qed.
Lemma ends_ok : endpoint_ok end_a ∧ endpoint_ok end_b.
Proof. split; (split; [repeat constructor; lia|split; [reflexivity|simpl; lia]]). Qed.

(** Three bytes are written at one end, the frame is delivered twice, and
    they are read at the other end: the number of the second byte is 0. *)
Definition hey : list Z := str "hey".
Definition a2 : net := run (tcp_write 0 hey 3) a1.
Definition b3 : net := run (tcp_segment ip_a (drop 34 (last_frame a2))) b2.
Definition b4 : net := run (tcp_segment ip_a (drop 34 (last_frame a2))) b3.
Definition b5 : net := run (conn_take 1 512) b4.
Definition ha_end : history := mkHistory a2 hey [].
Definition hb_end : history := mkHistory b5 [] hey.
Lemma hey_arrives : rtc (step 0 1) (ha, hb) (ha_end, hb_end).
Proof.
  assert (last_frame a2 ∈ wire a2) as Hin by (apply (bool_decide_unpack _); vm_compute; exact I).
  eapply rtc_l; [apply step_left, (local_write 0 _ a1 [] [] hey 3 3 a2); [repeat constructor; lia|vm_compute; reflexivity]|].
  eapply rtc_l; [apply step_right, (local_segment 1 _ b2 [] [] (last_frame a2) b3); [exact Hin|reflexivity|vm_compute; reflexivity]|].
  eapply rtc_l; [apply step_right, (local_segment 1 _ b3 [] [] (last_frame a2) b4); [exact Hin|reflexivity|vm_compute; reflexivity]|].
  apply rtc_once, step_right. apply (local_read 1 _ b4 [] [] 512 hey b5). vm_compute. reflexivity.
Qed.
Lemma tcp_delivers_the_stream_witness :
  ∃ c d, tcbs (h_net ha_end) !! 0%nat = Some (Some c) ∧ tcbs (h_net hb_end) !! 1%nat = Some (Some d) ∧
    h_read ha_end ++ rxq c `prefix_of` h_written hb_end ∧ h_read hb_end ++ rxq d `prefix_of` h_written ha_end.
Proof.
  apply (tcp_delivers_the_stream end_a end_b 0 1 ha hb ha_end hb_end).
  - apply ends_ok.
  - apply ends_ok.
  - exact opened_a.
  - exact opened_b.
  - exact hey_arrives.
  - split; vm_compute; reflexivity.
Defined.

(** The same segment seen by the receiver alone. *)
Definition conn_b2 : tcb := Eval vm_compute in default zero_tcb (nth 1 (tcbs b2) None).
Lemma at_slot_b2 : at_slot b2 1 conn_b2.
Proof. split; [vm_compute; reflexivity|apply (bool_decide_unpack _); vm_compute; exact I]. Qed.
Lemma in_window_segment_is_taken_witness :
  ∃ s' c' r', rcv_data 1 (2 ^ 32 - 1) hey b2 = Some ((), s') ∧ tcbs s' !! 1%nat = Some (Some c') ∧
    recv_ok true (2 ^ 32 - 1) hey [] r' c' ∧ [] ++ rxq c' = take r' hey ∧ (0 ≤ r')%nat ∧ ((0 ≤ 0)%nat → (0 + length hey ≤ r')%nat).
Proof.
  apply (in_window_segment_is_taken (2 ^ 32 - 1) hey [] 0 conn_b2 1 0).
  - reflexivity.
  - exact at_slot_b2.
  - split; try reflexivity; [simpl; lia|repeat constructor; discriminate|discriminate].
  - split_and!; [reflexivity|reflexivity|simpl; lia|intros _; vm_compute; congruence].
Defined.

(** ** Runs that go wrong *)

(** A peer that sends past the window it was given: a segment that comes
    ahead of the stream, then the 2048 bytes before it, which fill the read
    queue.  The held segment is next but no byte of it fits; the loop of
    [ooo_drain] counts that as progress and never ends. *)
Definition seg_from_a (seq : Z) (d : list Z) : list Z :=
  tcp_packet ip_a ip_b 40001 5555 (u32 (2 ^ 32 - 1 + seq)) 1001 (Z.lor TCP_ACK TCP_PSH) 2048 d 0.
Definition full_queue : net :=
  run (let* n := rcv_accept 1 (replicate 1024 65) in on_tcb 1 (λ c, c <| rcv_nxt := u32 (rcv_nxt c + n) |>))
    (run (tcp_input ip_a (seg_from_a 0 (replicate 1024 65)))
      (run (tcp_input ip_a (seg_from_a 2048 (str "x"))) b2)).
Lemma full_queue_round : ooo_round NOOO 1 0 full_queue = Some (true, full_queue).
Proof. vm_compute. reflexivity. Qed.
(** A peer that sends past its window stops the network server: with the
    read queue full and a held segment next in the stream, the loop of
    [ooo_drain] never ends, however long it is run. *)
Theorem reassembly_never_ends :
  (∀ n, ooo_loop n 1 full_queue = None) ∧
  tcp_input ip_a (seg_from_a 1024 (replicate 1024 65))
    (run (tcp_input ip_a (seg_from_a 0 (replicate 1024 65)))
      (run (tcp_input ip_a (seg_from_a 2048 (str "x"))) b2)) = None.
Proof.
  split; [|vm_compute; reflexivity]. intros n. induction n as [|n IH]; cbn [ooo_loop]; unfold pbind; rewrite full_queue_round; [done|exact IH].
Qed.

(** Two full segments arrive, their acknowledgements are lost.  From then on
    the network loses nothing: every time the timer runs out the frame the
    machine sends is delivered and so is the answer. *)
Definition deliver_last (p : net * net) : net * net :=
  let b := run (net_input (last_frame p.1)) p.2 in (run (net_input (last_frame b)) p.1, b).
Definition later (s : net) : net :=
  match nth 0 (tcbs s) None with Some c => s <| ticks := 10000 * rt_at c |> | None => s end.
Definition timer_round (p : net * net) : net * net := deliver_last (run net_timeout (later p.1), p.2).
Definition a_sent : net := run (tcp_write 0 (replicate 2048 66) 2048) a1.
Definition b_has : net := foldl (λ s f, run (net_input f) s) b2 (drop 2 (wire a_sent)).
Definition after_rounds (n : nat) : net * net := Nat.iter n timer_round (a_sent, b_has).
(** A connection can die although the peer has every byte and answers
    every segment.  A timeout takes [snd_nxt] back to [snd_una] and sends one
    segment; the answer acknowledges all that was received, which is past
    [snd_nxt], so [ack_input] drops it as an acknowledgement of something
    never sent.  After six such rounds the connection is given up. *)
Theorem answered_connection_dies :
  (∃ d, nth 1 (tcbs b_has) None = Some d ∧ rxq d = replicate 2048 66) ∧
  (∀ n, (n ≤ 5)%nat → ∃ c, nth 0 (tcbs (after_rounds n).1) None = Some c ∧ length (snd_buf c) = 2048%nat) ∧
  nth 0 (tcbs (after_rounds 6).1) None = None.
Proof.
  split_and!.
  - eexists. split; vm_compute; reflexivity.
  - intros n Hn. do 6 (destruct n as [|n]; [eexists; split; vm_compute; reflexivity|]). lia.
  - vm_compute. reflexivity.
Qed.

(** The port of the next outbound connection is never reduced: from the
    25535th on it does not fit in the sixteen bits of a segment. *)
Definition a_many : net := run (tcp_connect ip_b 5555) ((ready mac_a ip_a mac_b ip_b 40000) <| next_port := 65536 |>).
Definition b_answers : net := run (net_input (last_frame a_many)) b0.
Definition a_answered : net := run (net_input (last_frame b_answers)) a_many.
Definition state_of (i : nat) (s : net) : option tcp_state := state <$> nth i (tcbs s) None.
(** Once the counter of outbound ports has passed 65535 no connection can
    be opened: the SYN carries the low sixteen bits of the port, and the
    answer to them finds no connection and is reset. *)
Theorem ports_run_out :
  get16 (drop 34 (last_frame a_many)) = 0 ∧ state_of 1 b_answers = Some T_SYN_RCVD ∧
  state_of 0 a_answered = Some T_SYN_SENT ∧ byte_at (drop 34 (last_frame a_answered)) 13 = TCP_RST.
Proof. vm_compute. done. Qed.

(** Requests from a program that does not use the client library. *)
Definition b_long : net := run (net_input (last_frame (run (tcp_write 0 (replicate 1024 66) 1024) a1))) b2.
(** The server trusts the length of a request: a read of more than 512
    bytes from a connection that has them runs past the end of the request's
    buffer, and a write of negative length to the control file runs past
    everything.  A program can stop the server with either. *)
Theorem requests_overrun doc conf :
  net_vfs doc conf 7 (mkReq VFS_READ (FD_CONN0 + 1) [] 513 0 0 (replicate 512 0)) b_long = None ∧
  net_vfs doc conf 7 (mkReq VFS_WRITE FD_CTL0 [] (-1) 0 0 (replicate 512 0)) b2 = None.
Proof. vm_compute. done. Qed.

(** An echo request of more than 1566 bytes overruns the buffer the answer
    is built in; a receive buffer holds one. *)
Theorem long_ping_overruns :
  let echo := [8; 0; 0; 0] ++ replicate 1600 0 in
  let ip := ip_hdr ip_a ip_b IP_ICMP 1 1604 ++ echo in
  net_input (eth_hdr mac_b mac_a ETH_IPV4 ++ ip) b2 = None ∧ (length (eth_hdr mac_b mac_a ETH_IPV4 ++ ip) ≤ 2048 - 12)%nat.
Proof. vm_compute. split; [done|]. by apply Nat.leb_le. Qed.
