(* ===== verification/NetInv.v ===== *)
(** * What the network server never breaks (net_ip.c)

    An invariant of the whole server - the tables keep their sizes, the
    buffers of every connection stay inside their bounds, sequence numbers
    stay 32-bit, the retransmission timeout and the congestion window stay in
    their ranges, no frame outgrows the buffer it is built in - and the proof
    that every event keeps it: any frame, any request, any timeout. *)
From stdpp Require Import base list numbers option relations.
From S2P Require Import Prelude Mem Req NetWire NetState Net NetTcp NetCtl TcpConn NetDemo.
Local Open Scope Z_scope.

Abbreviation is_u32 x := (0 ≤ x < 2 ^ 32).
Record tcb_inv (c : tcb) : Prop := {
  ti_una : is_u32 (snd_una c); ti_nxt : is_u32 (snd_nxt c); ti_base : is_u32 (snd_base c);
  ti_iss : is_u32 (iss c); ti_rcv : is_u32 (rcv_nxt c);
  ti_addr : length (raddr c) = 4%nat;
  ti_mss : 128 ≤ peer_mss c ≤ 1460;
  ti_buf : Z.of_nat (length (snd_buf c)) ≤ SNDBUF;
  ti_rxq : Z.of_nat (length (rxq c)) ≤ RXQ;
  ti_ooo : length (ooo c) = NOOO;
  ti_held : Forall (λ h, Z.of_nat (length (h_data h)) ≤ OOOSEG) (ooo c);
  ti_refs : length (refs c) = NREF;
  ti_rto : RTO_MIN ≤ rto c ≤ RTO_MAX;
  ti_cwnd : MSS ≤ cwnd c < 2 ^ 31;
  ti_ssthresh : 2 * MSS ≤ ssthresh c < 2 ^ 31 }.
Record net_inv (s : net) : Prop := {
  ni_tcbs : length (tcbs s) = NTCB;
  ni_conns : Forall (λ o, match o with Some c => tcb_inv c | None => True end) (tcbs s);
  ni_pfd : length (pfd s) = NPFD;
  ni_arp : length (arp_cache s) = NARP;
  ni_macs : macs_ok s;
  ni_me : length (me_ip s) = 4%nat;
  ni_hold : Z.of_nat (length (hold_seg s)) ≤ 2048 ∧ bytes (hold_seg s) ∧ length (hold_sip s) = 4%nat;
  ni_name : (length (dns_name s) ≤ 63)%nat;
  ni_wire : Forall (λ f, Z.of_nat (length f) ≤ OUT_MAX) (wire s) }.

(** ** Keeping it *)

(** [m] keeps the invariant, and what it gives satisfies [Q]. *)
Definition keeps {A} (m : prog net A) (Q : A → Prop) : Prop :=
  ∀ s, net_inv s → match m s with Some (a, s') => net_inv s' ∧ Q a | None => True end.
Abbreviation kept m := (keeps m (λ _, True)).

Lemma kept_mono {A} (m : prog net A) (Q R : A → Prop) : keeps m Q → (∀ a, Q a → R a) → keeps m R.
Proof. intros H HQ s Hs. specialize (H s Hs). destruct (m s) as [[a s']|]; naive_solver. Qed.
Lemma keeps_bind {A B} (m : prog net A) (k : A → prog net B) Q R :
  keeps m Q → (∀ a, Q a → keeps (k a) R) → keeps (let* a := m in k a) R.
Proof.
  intros H Hk s Hs. specialize (H s Hs). unfold pbind. destruct (m s) as [[a s']|]; [|done].
  destruct H as [H1 H2]. exact (Hk a H2 s' H1).
Qed.
Lemma keeps_ret {A} (a : A) (Q : A → Prop) : Q a → keeps (pret a) Q.
Proof. intros H s Hs. done. Qed.
Lemma keeps_diverge {A} (Q : A → Prop) : keeps diverge Q.
Proof. by intros s Hs. Qed.
Lemma keeps_state : keeps (gets id) net_inv.
Proof. intros s Hs. done. Qed.
Lemma keeps_gets {A} (f : net → A) : kept (gets f).
Proof. intros s Hs. done. Qed.
Lemma keeps_modify f : (∀ s, net_inv s → net_inv (f s)) → kept (modify f).
Proof. intros H s Hs. split; [by apply H|done]. Qed.
Lemma keeps_tcb_at i : keeps (tcb_at i) tcb_inv.
Proof.
  intros s Hs. unfold tcb_at. destruct (tcbs s !! i) as [[c|]|] eqn:E; [|done..]. split; [done|].
  by apply (Forall_lookup_1 _ _ _ _ (ni_conns _ Hs) E).
Qed.
Lemma inv_slot s i o : net_inv s → (∀ c, o = Some c → tcb_inv c) → net_inv (s <| tcbs := <[i := o]> (tcbs s) |>).
Proof.
  intros [] H. split; try done; simpl; [by rewrite length_insert|]. apply Forall_insert; [done|]. destruct o; auto.
Qed.
Lemma keeps_put_tcb i c : tcb_inv c → kept (put_tcb i c).
Proof.
  intros H s Hs. unfold put_tcb. destruct (tcbs s !! i) as [[c'|]|]; [|done..]. split; [|done]. apply inv_slot; naive_solver.
Qed.
Lemma keeps_on_tcb i f : (∀ c, tcb_inv c → tcb_inv (f c)) → kept (on_tcb i f).
Proof. intros H. eapply keeps_bind; [apply keeps_tcb_at|]. intros c Hc. by apply keeps_put_tcb, H. Qed.
Lemma keeps_mem_alloc : kept mem_alloc.
Proof. intros s Hs. unfold mem_alloc. destruct (oom s); (split; [|done]); [done|]. by destruct Hs; split. Qed.
Lemma keeps_net_reply t r : kept (net_reply t r).
Proof. intros s Hs. unfold net_reply. case_bool_decide; (split; [|done]); [|done]. by destruct Hs; split. Qed.
Lemma keeps_transmit f : Z.of_nat (length f) ≤ OUT_MAX → kept (net_transmit f).
Proof. intros H. apply keeps_modify. intros s []. split; try done. simpl. apply Forall_app_2; [done|]. by apply list.Forall_singleton. Qed.

Create HintDb keeps.
#[export] Hint Resolve keeps_state | 0 : keeps.
#[export] Hint Resolve keeps_gets | 9 : keeps.
#[export] Hint Resolve keeps_tcb_at keeps_mem_alloc keeps_net_reply keeps_diverge : keeps.
(** The invariant of a connection or of the server after an update of fields
    it does not mention. *)
Ltac inv_same := let H := fresh in intros ? H; destruct H; split; simpl; first [done|apply u32_range|assumption|lia].

(** One step of a program; what it gives is put into the context. *)
Ltac kstep :=
  match goal with
  | |- keeps (pbind _ _) _ =>
      first [ eapply keeps_bind; [solve [eauto with keeps]|intros ? ?]
            | apply (keeps_bind _ _ (λ _, True)); [|intros ? _] ]
  | |- keeps (pret _) _ => apply keeps_ret
  | |- keeps (modify _) _ => apply keeps_modify
  | |- keeps (put_tcb _ _) _ => apply keeps_put_tcb
  | |- keeps (on_tcb _ _) _ => apply keeps_on_tcb
  | |- keeps (if ?b then _ else _) _ => let E := fresh "E" in destruct b eqn:E
  | |- keeps (match ?b with _ => _ end) _ => let E := fresh "E" in destruct b eqn:E
  | |- True => exact I
  | |- tcb_inv _ → _ => intros []; split; simpl; first [done|apply u32_range|lia]
  | |- ∀ _, tcb_inv _ → tcb_inv _ => inv_same
  | |- ∀ _, net_inv _ → net_inv _ => inv_same
  | _ => solve [eauto with keeps]
  end; cbv beta zeta.
Ltac ksteps := repeat kstep.
(** The connection [H] after an update. *)
Ltac tcb_same H := destruct H; split; simpl; first [done|apply u32_range|lia].

(** ** Frames *)

Lemma kept_rearm : kept timers_rearm.
Proof. unfold timers_rearm, sys_alarm. ksteps. Qed.
#[export] Hint Resolve kept_rearm : keeps.
Ltac frame := unfold eth_hdr, arp_packet, OUT_MAX; rewrite !length_app; simpl; lia.
Lemma kept_arp_request t : length t = 4%nat → kept (arp_request t).
Proof.
  intros Ht. unfold arp_request. kstep. apply keeps_transmit.
  pose proof (proj1 (ni_macs _ H)). pose proof (ni_me _ H). cbv [id]. frame.
Qed.
Lemma kept_arp_reply ip mac : length ip = 4%nat → length mac = 6%nat → kept (arp_reply ip mac).
Proof.
  intros Hi Hm. unfold arp_reply. kstep. apply keeps_transmit.
  pose proof (proj1 (ni_macs _ H)). pose proof (ni_me _ H). cbv [id]. frame.
Qed.
Lemma keeps_ip_begin dst proto n :
  length dst = 4%nat → keeps (ip_begin dst proto n) (λ o, ∀ h, o = Some h → length h = 34%nat).
Proof.
  intros Hd. unfold ip_begin. kstep. cbv [id]. match goal with |- context [arp_lookup _ ?h] => set (hop := h) end.
  assert (length hop = 4%nat) as Hh by (unfold hop; by destruct (on_link _ _)). clearbody hop. kstep.
  - kstep; [kstep; inv_same|]. kstep. intros h [= <-]. pose proof (proj1 (ni_macs _ H)). pose proof (ni_me _ H).
    pose proof (arp_lookup_mac _ _ _ (proj2 (ni_macs _ H)) E).
    unfold eth_hdr, ip_hdr, ip_hdr_with. rewrite !length_app. simpl. lia.
  - eapply keeps_bind; [by apply kept_arp_request|]. intros _ _. by kstep.
Qed.
Lemma kept_icmp ip ihl tot : (20 ≤ length ip)%nat → tot - ihl ≤ Z.of_nat (length ip) → kept (icmp_input ip ihl tot).
Proof.
  intros Hl Ht. unfold icmp_input. do 2 (kstep; [by kstep|]).
  eapply keeps_bind; [apply keeps_ip_begin; unfold ip_src; rewrite length_take, length_drop; lia|].
  intros [h|] Hh; [|by kstep]. specialize (Hh h eq_refl). kstep; [by kstep|]. apply keeps_transmit.
  apply Z.ltb_ge in E1. apply Z.ltb_ge in E. unfold echo_reply, echo_with.
  rewrite !length_app, length_drop, length_take, length_drop. simpl. lia.
Qed.
Lemma kept_udp_send dst sp dp d : length dst = 4%nat → Z.of_nat (length d) ≤ 1500 → kept (udp_send dst sp dp d).
Proof.
  intros Hd Hl. unfold udp_send. eapply keeps_bind; [by apply keeps_ip_begin|]. intros [h|] Hh; [|by kstep].
  specialize (Hh h eq_refl). kstep. eapply keeps_bind; [|intros; by kstep]. apply keeps_transmit.
  unfold udp_packet, udp_with, OUT_MAX. rewrite !length_app. simpl. lia.
Qed.

(** ** Answers and names *)

Lemma kept_pfd f i : kept (modify (λ s, s <| pfd := alter f i (pfd s) |>)).
Proof. apply keeps_modify. intros s []. split; try done. simpl. by rewrite length_alter. Qed.
Lemma kept_reply_read p d n : kept (reply_read p d n).
Proof. unfold reply_read. ksteps. Qed.
Lemma kept_ctl_answer p t ip : kept (ctl_answer p t ip).
Proof. unfold ctl_answer, reply_done. kstep; [ksteps|]. kstep; [apply kept_pfd|]. ksteps. Qed.
#[export] Hint Resolve kept_pfd kept_reply_read kept_ctl_answer : keeps.
Lemma kept_dns_answer t ip : kept (dns_answer t ip).
Proof. unfold dns_answer. ksteps. Qed.
#[export] Hint Resolve kept_dns_answer : keeps.
Lemma length_label n : (length (label n) ≤ length n)%nat.
Proof. induction n as [|c n IH]; simpl; [done|]. destruct (c =? 46); simpl; lia. Qed.
Lemma length_dns_encode_loop n name : (length (dns_encode_loop n name) ≤ 2 * length name + 1)%nat.
Proof.
  revert name. induction n as [|n IH]; intros [|c name]; cbn [dns_encode_loop]; [simpl; lia..|].
  set (l := label (c :: name)). pose proof (length_label (c :: name)) as Hl. fold l in Hl.
  cbn [length]. rewrite length_app. destruct (drop (length l) (c :: name)) as [|x r] eqn:E.
  - specialize (IH []). simpl in *. lia.
  - specialize (IH r). pose proof (f_equal length E) as El. rewrite length_drop in El. simpl in *. lia.
Qed.
Lemma kept_dns_send name : (length name ≤ 63)%nat → kept (dns_send name).
Proof.
  intros Hn. unfold dns_send. kstep; [kstep; inv_same|]. kstep. eapply keeps_bind; [|intros; by kstep].
  apply kept_udp_send; [done|]. pose proof (length_dns_encode_loop (length name) name) as Hl.
  unfold dns_query, dns_encode. rewrite !length_app. simpl. lia.
Qed.
Lemma kept_dns_input m : kept (dns_input m).
Proof. unfold dns_input. ksteps. Qed.
Lemma kept_udp_input u : kept (udp_input u).
Proof. unfold udp_input. ksteps. apply kept_dns_input. Qed.

(** ** Segments going out *)

Lemma kept_tcb_free i : kept (tcb_free i).
Proof. unfold tcb_free. kstep. kstep. intros s Hs. by apply inv_slot. Qed.
Lemma fresh_tcb_inv : tcb_inv fresh_tcb.
Proof. split; try (simpl; unfold MSS; lia); try done. by repeat constructor. Qed.
Lemma kept_tcb_alloc : kept tcb_alloc.
Proof.
  unfold tcb_alloc. ksteps. intros s Hs. apply inv_slot; [done|]. intros c [= <-]. apply fresh_tcb_inv.
Qed.
#[export] Hint Resolve kept_tcb_free kept_tcb_alloc : keeps.
Lemma keeps_tcp_build dip sp dp sq ak fl wn d mss :
  length dip = 4%nat → Z.of_nat (length d) ≤ 1460 →
  keeps (tcp_build dip sp dp sq ak fl wn d mss) (λ o, ∀ f, o = Some f → Z.of_nat (length f) ≤ OUT_MAX).
Proof.
  intros Hd Hl. unfold tcp_build. eapply keeps_bind; [by apply keeps_ip_begin|]. intros [h|] Hh; [|by kstep].
  specialize (Hh h eq_refl). kstep. kstep. intros f [= <-].
  unfold tcp_packet, tcp_with, OUT_MAX. rewrite !length_app. destruct (mss =? 0); simpl; lia.
Qed.
Lemma kept_seg_xmit i fl sq d : Z.of_nat (length d) ≤ 1460 → kept (seg_xmit i fl sq d).
Proof.
  intros Hl. unfold seg_xmit. kstep.
  eapply keeps_bind; [apply keeps_tcp_build; [apply H|done]|]. intros [f|] Hf.
  - specialize (Hf f eq_refl). kstep; [by kstep; kstep|]. kstep. kstep; [by ksteps|].
    eapply keeps_bind; [by apply keeps_transmit|]. intros. by kstep.
  - ksteps.
Qed.
Lemma kept_timer_start i : kept (timer_start i).
Proof. unfold timer_start. kstep. kstep; [|by kstep]. kstep. kstep; [kstep; tcb_same H|]. ksteps. Qed.
Lemma kept_timer_stop i : kept (timer_stop i).
Proof. unfold timer_stop. ksteps. Qed.
#[export] Hint Resolve kept_timer_start kept_timer_stop : keeps.
Lemma kept_output_loop n i u : kept (output_loop n i u).
Proof.
  revert u. induction n as [|n IH]; intros u; cbn [output_loop]; kstep; kstep; try by kstep.
  all: eapply keeps_bind; [apply kept_seg_xmit; rewrite length_take; pose proof (ti_mss _ H); lia|].
  all: intros ok _; kstep; [by kstep|]; kstep; kstep;
    [kstep; intros c Hc; destruct (rtt_timing c); [done|tcb_same Hc]|]; kstep; [kstep; kstep|]; kstep; try by kstep.
Qed.
Lemma kept_output_fin i : kept (output_fin i).
Proof.
  unfold output_fin. kstep. kstep; [|by kstep]. eapply keeps_bind; [by apply kept_seg_xmit|]. intros ok _. ksteps.
Qed.
Lemma kept_output_syn i c : kept (output_syn i c).
Proof.
  unfold output_syn. kstep; [|by kstep]. eapply keeps_bind; [by apply kept_seg_xmit|]. intros ok _. ksteps.
Qed.
#[export] Hint Resolve kept_output_loop kept_output_fin kept_output_syn : keeps.
Lemma kept_tcp_output i : kept (tcp_output i).
Proof. unfold tcp_output. ksteps. Qed.
Lemma kept_send_ack i : kept (send_ack i).
Proof. unfold send_ack. kstep. eapply keeps_bind; [by apply kept_seg_xmit|]. intros. by kstep. Qed.
#[export] Hint Resolve kept_tcp_output kept_send_ack : keeps.
Lemma kept_tcp_write i d n : kept (tcp_write i d n).
Proof.
  unfold tcp_write. kstep. match goal with |- context [if ?x <=? 0 then _ else _] => set (k := x) end.
  kstep; [by kstep|]. kstep; [by kstep|]. kstep; [kstep|by ksteps].
  assert (k ≤ SNDBUF - Z.of_nat (length (snd_buf a))) by (unfold k; case_match; lia).
  destruct H. split; simpl; try done. rewrite length_app, length_take. lia.
Qed.
#[export] Hint Resolve kept_tcp_write : keeps.

(** ** Opening, closing, reassembly *)

Lemma kept_tcp_listen p : kept (tcp_listen p).
Proof. unfold tcp_listen. ksteps. Qed.
Lemma open_send_inv n c : is_u32 n → tcb_inv c → tcb_inv (open_send n c).
Proof. intros Hn []. split; simpl; try done. apply u32_range. Qed.
Lemma kept_tcp_connect ip p : length ip = 4%nat → kept (tcp_connect ip p).
Proof.
  intros Hi. unfold tcp_connect. kstep. kstep; [|by kstep]. kstep. kstep; [kstep; inv_same|]. kstep; [|by ksteps].
  kstep. intros c []. apply open_send_inv; [apply u32_range|]. by split.
Qed.
Lemma kept_tcp_close i : kept (tcp_close i).
Proof. unfold tcp_close. kstep. kstep; try (by ksteps); (kstep; [kstep; tcb_same H|by ksteps]). Qed.
#[export] Hint Resolve kept_tcp_listen kept_tcp_connect kept_tcp_close : keeps.
Lemma kept_intr_check i d : kept (intr_check i d).
Proof. unfold intr_check, sys_kill. ksteps; tcb_same H. Qed.
#[export] Hint Resolve kept_intr_check : keeps.
Lemma kept_rcv_accept i d : kept (rcv_accept i d).
Proof.
  unfold rcv_accept. kstep. kstep. match goal with |- context [if ?x <=? 0 then _ else _] => set (k := x) end.
  kstep; [by kstep|]. kstep; [|by kstep]. kstep.
  assert (k ≤ RXQ - Z.of_nat (length (rxq a0))) by (unfold k; case_match; lia). apply Z.leb_gt in E.
  destruct H0. split; simpl; try done. rewrite length_app.
  assert (length (match a with Some k0 => if (k0 <? Z.to_nat k)%nat then take k0 (take (Z.to_nat k) d) ++ drop (S k0) (take (Z.to_nat k) d)
    else take (Z.to_nat k) d | None => take (Z.to_nat k) d end) ≤ Z.to_nat k)%nat as Hk; [|lia].
  repeat case_match; rewrite ?length_app, ?length_drop, ?length_take; lia.
Qed.
#[export] Hint Resolve kept_rcv_accept : keeps.
Lemma held_inv c k sq u d :
  Z.of_nat (length d) ≤ OOOSEG → tcb_inv c → tcb_inv (c <| ooo := <[k := mkHeld sq u d]> (ooo c) |>).
Proof. intros Hd []. split; simpl; try done; [by rewrite length_insert|by apply Forall_insert]. Qed.
Lemma kept_ooo_try i k : kept (ooo_try i k).
Proof.
  unfold ooo_try. kstep. do 2 (kstep; [by kstep|]). kstep; [kstep; [kstep; by apply held_inv|by kstep]|].
  kstep. kstep; [by kstep; kstep|]. kstep; [|by kstep]. kstep; [|by kstep]. kstep. intros c Hc. by apply held_inv.
Qed.
Lemma kept_ooo_round n i k : kept (ooo_round n i k).
Proof.
  revert k. induction n as [|n IH]; intros k; cbn [ooo_round]; [by kstep|].
  eapply keeps_bind; [apply kept_ooo_try|]. intros. eapply keeps_bind; [apply IH|]. intros. by kstep.
Qed.
Lemma kept_ooo_loop n i : kept (ooo_loop n i).
Proof.
  induction n as [|n IH]; cbn [ooo_loop]; (eapply keeps_bind; [apply kept_ooo_round|]); intros; kstep; by kstep.
Qed.
Lemma kept_ooo_store i sq d : kept (ooo_store i sq d).
Proof.
  unfold ooo_store. kstep. kstep; [by kstep|]. kstep; [|by kstep]. kstep. kstep; [by kstep|]. kstep.
  apply held_inv; [|done]. rewrite length_take. unfold OOOSEG. lia.
Qed.
#[export] Hint Resolve kept_ooo_loop kept_ooo_store : keeps.
Lemma kept_rcv_data i sq d : kept (rcv_data i sq d).
Proof.
  unfold rcv_data, ooo_drain. kstep. kstep; [by kstep|]. destruct (if seq_lt _ _ then _ else _) as [sq' d'].
  kstep; [|by ksteps]. kstep. kstep; [by kstep; kstep|]. ksteps.
Qed.
#[export] Hint Resolve kept_rcv_data : keeps.

(** ** Acknowledgements *)

Lemma kept_tcp_reset dip g : length dip = 4%nat → kept (tcp_reset dip g).
Proof.
  intros Hd. unfold tcp_reset. destruct (if has _ TCP_ACK then _ else _) as [[rs ra] rf].
  eapply keeps_bind; [by apply keeps_tcp_build|]. intros [f|] Hf; [|by kstep]. apply keeps_transmit. by apply Hf.
Qed.
Lemma options_inv n o c : tcb_inv c → tcb_inv (options_loop n o c).
Proof.
  revert o c. induction n as [|n IH]; intros o c Hc; [by destruct o|].
  destruct o as [|k o]; [done|]. cbn [options_loop].
  assert (∀ m (b : bool), (b = true → 128 ≤ m ≤ 1460) → tcb_inv (if b then c <| peer_mss := m |> else c)) as Hset.
  { intros m [] Hb; [|done]. destruct Hc. split; try done. simpl. auto. }
  destruct k as [|[p|p|]|p]; try done; try (by apply IH).
  all: destruct o as [|l o]; [done|]; destruct (l <? 2); [done|]; apply IH, Hset; rewrite !andb_true_iff, !Z.leb_le; lia.
Qed.
Lemma kept_time_wait i : kept (enter_time_wait i).
Proof. unfold enter_time_wait. ksteps. Qed.
#[export] Hint Resolve kept_time_wait : keeps.
Lemma half_flight_range c : 2 * MSS ≤ half_flight c < 2 ^ 31.
Proof.
  unfold half_flight, MSS. pose proof (u32_range (snd_nxt c - snd_una c)).
  destruct (Z.ltb_spec (2 * 1024) (u32 (snd_nxt c - snd_una c) / 2)); [|lia]. split; [lia|]. apply Z.div_lt_upper_bound; lia.
Qed.
Lemma kept_dup_ack i ak : kept (dup_ack i ak).
Proof.
  unfold dup_ack. kstep. kstep; [|by kstep]. kstep; [kstep; tcb_same H|]. kstep; [|by kstep]. kstep; [kstep|by ksteps].
  pose proof (half_flight_range (a <| dupacks := dupacks a + 1 |>)) as Hh. set (h := half_flight _) in *. clearbody h.
  unfold MSS in *. destruct H. split; try done; simpl; unfold MSS; lia.
Qed.
Lemma rtt_update_inv m c : tcb_inv c → tcb_inv (rtt_update m c).
Proof.
  intros []. assert (∀ r, RTO_MIN ≤ clamp_rto r ≤ RTO_MAX) as Hr.
  { intros r. unfold clamp_rto, RTO_MIN, RTO_MAX. repeat case_match; rewrite ?Z.ltb_lt, ?Z.ltb_ge in *; lia. }
  unfold rtt_update. destruct (srtt c <? 0); split; try done; apply Hr.
Qed.
Lemma acked_inv ak now c : is_u32 ak → tcb_inv c → tcb_inv (acked ak now c).
Proof.
  intros Ha Hc. unfold acked.
  match goal with |- context [drop_acked ak ?x] => assert (tcb_inv x) as H1; [|set (c1 := x) in *] end.
  { case_match; [|tcb_same Hc]. assert (tcb_inv (c <| dupacks := 0 |>)) as H0 by tcb_same Hc.
    pose proof (rtt_update_inv (i32 (now - rtt_at (c <| dupacks := 0 |>))) _ H0) as H1. tcb_same H1. }
  clearbody c1. assert (tcb_inv (drop_acked ak c1)) as H2.
  { unfold drop_acked. repeat case_match; try done; destruct H1; (split; simpl; try done; [apply u32_range|]);
      rewrite length_drop; unfold SNDBUF in *; lia. }
  set (c2 := drop_acked ak c1) in *. clearbody c2. destruct H2. split; try done. simpl. unfold MSS in *.
  assert (0 ≤ 1024 * 1024 / (if cwnd c2 =? 0 then 1024 else cwnd c2)) by (apply Z.div_pos; [lia|]; destruct (cwnd c2 =? 0); lia).
  repeat case_match; rewrite ?Z.ltb_lt, ?Z.ltb_ge in *; lia.
Qed.
Lemma kept_ack_input i ak : is_u32 ak → kept (ack_input i ak).
Proof.
  intros Ha. unfold ack_input. eapply keeps_bind; [apply keeps_tcb_at|]. intros c Hc. destruct (seq_gt _ _); [by kstep|].
  destruct (seq_le _ _); [apply kept_dup_ack|]. eapply keeps_bind; [apply keeps_gets|]. intros now _.
  change (grow_cwnd _) with (acked ak now c). pose proof (acked_inv ak now c Ha Hc) as H1.
  set (c1 := acked ak now c) in *. clearbody c1. kstep; [by kstep|]. kstep; [by ksteps|]. kstep; [kstep; tcb_same H1|]. ksteps.
Qed.

(** ** Input *)

Lemma kept_abort i why : kept (abort_waiters i why).
Proof. unfold abort_waiters. ksteps. Qed.
#[export] Hint Resolve kept_abort : keeps.
Lemma kept_listen sip g : length sip = 4%nat → is_u32 (g_seq g) → kept (seg_listen sip g).
Proof.
  intros Hs Hg. unfold seg_listen. kstep; [by kstep|]. kstep; [by apply kept_tcp_reset|]. kstep. kstep; [|by kstep]. kstep.
  kstep; [|by ksteps]. kstep. intros c []. apply options_inv, open_send_inv; [apply u32_range|]. split; try done. apply u32_range.
Qed.
Lemma kept_syn_sent i sip g : length sip = 4%nat → is_u32 (g_ack g) → kept (seg_syn_sent i sip g).
Proof.
  intros Hs Hg. unfold seg_syn_sent. kstep; [by kstep|].
  kstep; [kstep; intros c []; apply options_inv; split; try done; apply u32_range|]. kstep. kstep.
  - kstep; [by apply kept_tcp_reset|]. kstep; [by apply kept_ack_input|]. ksteps.
  - kstep; [kstep; tcb_same H|]. ksteps.
Qed.
Lemma kept_seg_state i g : kept (seg_state i g).
Proof. unfold seg_state. kstep. kstep; ksteps; tcb_same H. Qed.
Lemma kept_seg_data i g : kept (seg_data i g).
Proof. unfold seg_data. ksteps. Qed.
Lemma kept_seg_fin i g : kept (seg_fin i g).
Proof. unfold seg_fin. kstep. kstep; [|by kstep]. kstep; [kstep; tcb_same H|]. ksteps. Qed.
#[export] Hint Resolve kept_seg_state kept_seg_data kept_seg_fin : keeps.
Lemma kept_seg_rest i g : is_u32 (g_ack g) → kept (seg_rest i g).
Proof.
  intros Hg. unfold seg_rest. kstep; [|by ksteps]. kstep; [|by kstep]. kstep; [by kstep; inv_same|]. by apply kept_ack_input.
Qed.
Lemma byte_at_range p k : bytes p → 0 ≤ byte_at p k < 256.
Proof.
  intros Hp. unfold byte_at. destruct (decide (k < length p)%nat) as [Hk|]; [|rewrite nth_overflow by lia; lia].
  destruct (lookup_lt_is_Some_2 p k Hk) as [b Hb]. rewrite (nth_lookup_Some _ _ _ _ Hb).
  exact (Forall_lookup_1 _ _ _ _ Hp Hb).
Qed.
Lemma wire_get32_range p : bytes p → is_u32 (get32 p).
Proof.
  intros Hp. unfold get32. rewrite !Z.shiftl_mul_pow2 by lia.
  assert (∀ k, 0 ≤ byte_at p k < 256) as Hb by (intros; by apply byte_at_range).
  pose proof (Hb 0%nat). pose proof (Hb 1%nat). pose proof (Hb 2%nat). pose proof (Hb 3%nat). clear Hb.
  set (a := byte_at p 0) in *. set (b := byte_at p 1) in *. set (c := byte_at p 2) in *. set (d := byte_at p 3) in *.
  rewrite (lor_disjoint a (b * 2 ^ 16) 24) by lia.
  replace (a * 2 ^ 24 + b * 2 ^ 16) with ((a * 256 + b) * 2 ^ 16) by lia. rewrite (lor_disjoint _ (c * 2 ^ 8) 16) by lia.
  replace ((a * 256 + b) * 2 ^ 16 + c * 2 ^ 8) with (((a * 256 + b) * 256 + c) * 2 ^ 8) by lia.
  rewrite (lor_disjoint _ d 8) by lia. lia.
Qed.
Lemma kept_tcp_segment sip t : length sip = 4%nat → bytes t → kept (tcp_segment sip t).
Proof.
  intros Hs Ht. unfold tcp_segment. kstep. kstep; [by kstep|]. kstep; [by kstep|].
  assert (is_u32 (g_seq (read_segment t)) ∧ is_u32 (g_ack (read_segment t))) as [Hsq Hak].
  { unfold read_segment. cbn [g_seq g_ack]. split; apply wire_get32_range; by apply Forall_drop. }
  set (g := read_segment t) in *. clearbody g. kstep; [|kstep; [by kstep|by apply kept_tcp_reset]].
  kstep. kstep; [by apply kept_listen|]. kstep; [by ksteps|]. kstep; [by apply kept_syn_sent|by apply kept_seg_rest].
Qed.

(** ** Those who wait *)

Lemma inv_nth s i c : net_inv s → nth i (tcbs s) None = Some c → tcb_inv c.
Proof.
  intros Hs E. rewrite nth_lookup in E. destruct (tcbs s !! i) as [o|] eqn:El; simplify_eq/=.
  exact (Forall_lookup_1 _ _ _ _ (ni_conns _ Hs) El).
Qed.
Lemma kept_conn_drop i n : kept (conn_drop i n).
Proof.
  unfold conn_drop. kstep. kstep; [by kstep|]. kstep; [|by ksteps]. kstep. destruct H. split; simpl; try done.
  rewrite length_drop. lia.
Qed.
#[export] Hint Resolve kept_conn_drop : keeps.
Lemma kept_conn_take i n : kept (conn_take i n).
Proof. unfold conn_take. ksteps. Qed.
Lemma kept_wake_conn i : kept (wake_conn i).
Proof. unfold wake_conn. ksteps. Qed.
Lemma kept_wake_conns n i : kept (wake_conns n i).
Proof.
  revert i. induction n as [|n IH]; intros i; cbn [wake_conns]; [by kstep|].
  eapply keeps_bind; [apply kept_wake_conn|]. intros. eapply keeps_bind; [apply IH|]. intros. by kstep.
Qed.
Lemma kept_wake_accept i : kept (wake_accept i).
Proof. unfold wake_accept. ksteps. Qed.
Lemma kept_wake_accepts n i : kept (wake_accepts n i).
Proof.
  revert i. induction n as [|n IH]; intros i; cbn [wake_accepts]; [by kstep|].
  eapply keeps_bind; [apply kept_wake_accept|]. intros. eapply keeps_bind; [apply IH|]. intros. by kstep.
Qed.
#[export] Hint Resolve kept_conn_take kept_wake_conns kept_wake_accepts : keeps.
Lemma kept_wakeups : kept net_wakeups.
Proof. unfold net_wakeups. ksteps. Qed.
#[export] Hint Resolve kept_wakeups : keeps.
Lemma kept_tcp_input sip t : length sip = 4%nat → bytes t → kept (tcp_input sip t).
Proof.
  intros Hs Ht. unfold tcp_input. kstep. kstep.
  - kstep. intros s []. split; try done. simpl. unfold hold_back in E. rewrite !andb_true_iff, Z.leb_le in E. split_and!; [lia|done|done].
  - kstep; [by apply kept_tcp_segment|]. kstep; [|by kstep]. kstep; [|by kstep].
    kstep; [kstep; intros s [? ? ? ? ? ? (? & ? & ?) ? ?]; by split|]. apply kept_tcp_segment; apply H.
Qed.

(** ** The clock and the frames *)

Lemma kept_each_slot n i f : (∀ k, kept (f k)) → kept (each_slot n i f).
Proof.
  intros Hf. revert i. induction n as [|n IH]; intros i; cbn [each_slot]; [by kstep|].
  eapply keeps_bind; [apply Hf|]. intros _ _. apply IH.
Qed.
Lemma kept_reap_slot i : kept (reap_slot i).
Proof.
  unfold reap_slot. kstep. kstep; [|by kstep]. pose proof (inv_nth _ _ _ H E) as Hc. kstep; [by kstep|]. kstep; [|by ksteps].
  kstep. destruct Hc. split; try done. simpl. by rewrite length_fmap.
Qed.
Lemma kept_reap : kept reap_dead_clients.
Proof.
  unfold reap_dead_clients. kstep; [|apply kept_each_slot, kept_reap_slot].
  kstep. intros s []. split; try done. simpl. by rewrite length_fmap.
Qed.
#[export] Hint Resolve kept_reap : keeps.
Lemma kept_dns_retry now : kept (dns_retry now).
Proof.
  unfold dns_retry. kstep. kstep; [by kstep|]. kstep; [kstep; inv_same|]. kstep; [by ksteps|].
  kstep; [apply kept_dns_send, H|]. ksteps.
Qed.
Lemma kept_timer_or i x : kept (timer_or i x).
Proof. unfold timer_or. kstep. intros c Hc. destruct (rt_at c =? 0); [tcb_same Hc|done]. Qed.
#[export] Hint Resolve kept_dns_retry kept_timer_or : keeps.
Lemma kept_retransmit i now : kept (retransmit i now).
Proof.
  unfold retransmit. kstep. kstep; [kstep|by ksteps]. pose proof (half_flight_range a) as Hh. set (h := half_flight a) in *.
  clearbody h. destruct H. split; try done; simpl; unfold MSS, RTO_MIN, RTO_MAX in *; repeat case_match; rewrite ?Z.ltb_lt, ?Z.ltb_ge in *; lia.
Qed.
Lemma kept_send_pending i now : kept (send_pending i now).
Proof. unfold send_pending. kstep. kstep; [kstep; tcb_same H|]. ksteps. Qed.
#[export] Hint Resolve kept_retransmit kept_send_pending : keeps.
Lemma kept_timeout_slot now i : kept (timeout_slot now i).
Proof.
  unfold timeout_slot. kstep. kstep; [|by kstep]. pose proof (inv_nth _ _ _ H E) as Hc. kstep; [by kstep|].
  kstep; [by kstep|]. kstep; [by kstep|]. kstep; [kstep; tcb_same Hc|]. ksteps.
Qed.
Lemma kept_timeout : kept net_timeout.
Proof.
  unfold net_timeout. do 4 kstep. eapply keeps_bind; [apply kept_each_slot; intros; apply kept_timeout_slot|]. intros _ _. apply kept_rearm.
Qed.
Lemma kept_demo_start : kept demo_start.
Proof.
  unfold demo_start. kstep. kstep; [by kstep|]. kstep; [kstep; inv_same|].
  kstep; [apply kept_udp_send; [done|vm_compute; congruence]|]. ksteps.
Qed.
Lemma kept_arp_learn ip mac : length mac = 6%nat → kept (modify (λ s, s <| arp_cache := arp_learn (arp_cache s) ip mac |>)).
Proof.
  intros Hm. apply keeps_modify. intros s [? ? ? Hl [Hn Hf] ? ? ? ?].
  assert (length (arp_learn (arp_cache s) ip mac) = length (arp_cache s) ∧
    Forall (λ e, length (ae_mac e) = 6%nat) (arp_learn (arp_cache s) ip mac)) as [El Ef].
  { unfold arp_learn. clear Hl. destruct (arp_replace _ _ _) as [l'|] eqn:E.
    - revert l' E. induction Hf as [|e l He Hf IH]; simpl; intros l' E; [done|]. destruct (_ && _); simplify_eq/=; [by repeat constructor|].
      destruct (arp_replace l ip mac) as [l1|] eqn:E1; simplify_eq/=. destruct (IH l1 eq_refl). split; [by f_equal|by constructor].
    - clear E. induction Hf as [|e l He Hf IH]; simpl; [done|]. destruct IH. destruct (ae_used e); simpl; (split; [lia|by constructor]). }
  split; try done; simpl; congruence.
Qed.
Lemma kept_arp_input p : kept (arp_input p).
Proof.
  unfold arp_input. kstep. destruct (Nat.ltb_spec (length p) 28); [by kstep|].
  kstep; [by kstep|]. assert (length (take 6 (drop 8 p)) = 6%nat ∧ length (take 4 (drop 14 p)) = 4%nat) as [L1 L2].
  { rewrite !length_take, !length_drop. lia. }
  kstep; [|kstep; [|by kstep]]; (kstep; [by apply kept_arp_learn|]).
  - by apply kept_arp_reply.
  - unfold demo_arp_ready. kstep; [apply kept_demo_start|by kstep].
Qed.
Lemma kept_net_input f : bytes f → kept (net_input f).
Proof.
  intros Hf. unfold net_input. kstep. kstep; [by kstep|]. kstep; [apply kept_arp_input|]. kstep; [by kstep|].
  apply orb_false_iff in E1 as [_ E1]. apply Z.ltb_ge in E1. kstep; [by kstep|]. rewrite !orb_false_iff, !Z.ltb_ge in E2.
  kstep; [by kstep|]. kstep; [by kstep|]. kstep.
  - apply kept_tcp_input; [unfold ip_src; rewrite length_take, !length_drop; lia|by apply Forall_take, Forall_drop, Forall_drop].
  - kstep; [apply kept_udp_input|]. kstep; [|by kstep]. apply kept_icmp; rewrite length_drop; lia.
Qed.

(** ** Requests *)

Lemma parse_ip_loop_length n t ip r : parse_ip_loop n t = Some (ip, r) → length ip = n.
Proof.
  revert t ip r. induction n as [|n IH]; intros t ip r; cbn [parse_ip_loop]; [by intros [= <- <-]|].
  destruct (parse_uint t) as [[v t']|]; [|done]. destruct (255 <? v); [done|].
  destruct n as [|n]; [by intros [= <- <-]|]. destruct t' as [|b t'']; [done|].
  intros E. assert (∃ ip', ip = u8 v :: ip' ∧ ∃ r', parse_ip_loop (S n) t'' = Some (ip', r')) as (ip' & -> & r' & E').
  { destruct (parse_ip_loop (S n) t'') as [[ip' r']|]; repeat case_match; simplify_eq; eauto. }
  simpl. f_equal. exact (IH _ _ _ E').
Qed.
Lemma word_upto_length n t : (length (word_upto n t) ≤ n)%nat.
Proof. revert t. induction n as [|n IH]; intros [|b t]; simpl; [lia..|]. destruct (b =? 32); simpl; [lia|]. specialize (IH t). lia. Qed.
Lemma kept_ctl_says pi t : kept (ctl_says pi t).
Proof. unfold ctl_says, set_pfd. ksteps. Qed.
#[export] Hint Resolve kept_ctl_says : keeps.
Lemma kept_resolve pi from f n t : kept (ctl_resolve pi from f n t).
Proof.
  unfold ctl_resolve. pose proof (word_upto_length 63 t). kstep. kstep; [by kstep|]. kstep; [by kstep|].
  kstep; [kstep; intros s []; by split|]. kstep; [by apply kept_dns_send|]. ksteps.
Qed.
Lemma ref_put_length l t l' : ref_put l t = Some l' → length l' = length l.
Proof.
  revert l'. induction l as [|[[] u] l IH]; simpl; intros l' E; [done| |by simplify_eq].
  destruct (ref_put l t) as [l1|]; simplify_eq/=. by rewrite (IH l1).
Qed.
Lemma ref_take_length l t : length (ref_take l t) = length l.
Proof. induction l as [|r l IH]; simpl; [done|]. destruct (_ && _); simpl; congruence. Qed.
Lemma kept_ref_add i t : kept (ref_add i t).
Proof.
  unfold ref_add. kstep. kstep; [|by kstep]. kstep; [|by kstep]. kstep. apply ref_put_length in E. destruct H. split; try done. simpl. congruence.
Qed.
Lemma kept_ref_drop i t : kept (ref_drop i t).
Proof. apply keeps_on_tcb. intros c []. split; try done. simpl. by rewrite ref_take_length. Qed.
#[export] Hint Resolve kept_ref_add kept_ref_drop : keeps.
Lemma kept_connect pi from f n t : kept (ctl_connect pi from f n t).
Proof.
  unfold ctl_connect. kstep; [|by kstep]. destruct p as [ip p]. pose proof (parse_ip_loop_length _ _ _ _ E). kstep; [|by kstep].
  destruct p0. ksteps.
Qed.
Lemma kept_ctl_listen pi from t : kept (ctl_listen pi from t).
Proof. unfold ctl_listen. ksteps. Qed.
Lemma slot_named_inv t s i c : net_inv s → slot_named t s = Some (i, c) → tcb_inv c.
Proof.
  intros Hs. unfold slot_named. destruct (parse_uint t) as [[v r]|]; [|done]. destruct (v <? _); [|done].
  destruct (nth (Z.to_nat v) (tcbs s) None) as [c'|] eqn:E; [|done]. intros [= <- <-]. by eapply inv_nth.
Qed.
Lemma conn_of_inv f s i c : net_inv s → conn_of f s = Some (i, c) → tcb_inv c.
Proof.
  intros Hs. unfold conn_of. destruct (_ || _); [done|].
  destruct (nth _ (tcbs s) None) as [c'|] eqn:E; [|done]. destruct (bool_decide _); [done|]. intros [= <- <-]. by eapply inv_nth.
Qed.
Lemma kept_ctl_accept pi from f n t : kept (ctl_accept pi from f n t).
Proof.
  unfold ctl_accept. kstep. kstep; [|by kstep]. destruct p as [i l]. pose proof (slot_named_inv _ _ _ _ H E) as Hc.
  kstep; [by kstep|]. kstep; [by kstep|]. kstep; [kstep; tcb_same Hc|]. ksteps.
Qed.
Lemma kept_ctl_address pi t : kept (ctl_address pi t).
Proof.
  unfold ctl_address. kstep; [|by kstep]. destruct p as [ip p]. pose proof (parse_ip_loop_length _ _ _ _ E).
  kstep; [kstep; intros s []; by split|]. ksteps.
Qed.
Lemma kept_ctl_close pi t : kept (ctl_close pi t).
Proof. unfold ctl_close. ksteps. Qed.
#[export] Hint Resolve kept_resolve kept_connect kept_ctl_listen kept_ctl_accept kept_ctl_address kept_ctl_close : keeps.
Lemma kept_ctl_command pi from f n cmd : kept (ctl_command pi from f n cmd).
Proof. unfold ctl_command. ksteps. Qed.
#[export] Hint Resolve kept_ctl_command : keeps.
Lemma kept_open_file b from t r : kept (open_file b from t r).
Proof.
  unfold open_file. kstep. kstep; [|by kstep]. kstep; [by kstep|]. kstep; [|by kstep]. kstep.
  intros s []. split; try done. simpl. by rewrite length_insert.
Qed.
Lemma kept_open_conn o from r : kept (open_conn o from r).
Proof. unfold open_conn. ksteps. Qed.
#[export] Hint Resolve kept_open_file kept_open_conn : keeps.
Lemma kept_net_open from r : kept (net_open from r).
Proof. unfold net_open. do 2 kstep; [by kstep|]. repeat (kstep; [by kstep|]). by kstep. Qed.
Lemma kept_net_ioctl doc conf r : kept (net_ioctl doc conf r).
Proof.
  unfold net_ioctl. kstep. do 4 (kstep; [by kstep|]). kstep; [|by kstep]. kstep; [|by kstep]. destruct p as [i c].
  pose proof (conn_of_inv _ _ _ _ H E4) as Hc. kstep; [kstep; tcb_same Hc|]. ksteps.
Qed.
Lemma kept_read_file i r : kept (read_file i r).
Proof.
  unfold read_file. kstep. kstep; [by kstep|]. kstep; [by kstep|]. kstep; [|by kstep]. kstep.
  intros s []. split; try done. simpl. by rewrite length_insert.
Qed.
Lemma kept_read_conn from r : kept (read_conn from r).
Proof.
  unfold read_conn. kstep. kstep; [|by kstep]. destruct p as [i c]. kstep. kstep. kstep; [by kstep|]. kstep; [by kstep|].
  kstep; [by kstep|]. kstep; [kstep; tcb_same H1|]. ksteps.
Qed.
Lemma kept_write_req from r : kept (write_req from r).
Proof. unfold write_req. ksteps. Qed.
Lemma kept_close_req from r : kept (close_req from r).
Proof. unfold close_req. kstep. kstep; [|by ksteps]. kstep; [apply kept_pfd|by ksteps]. Qed.
#[export] Hint Resolve kept_net_open kept_net_ioctl kept_read_file kept_read_conn kept_write_req kept_close_req : keeps.
Lemma kept_net_vfs doc conf from r : kept (net_vfs doc conf from r).
Proof. unfold net_vfs. ksteps. Qed.

(** ** The server from its start *)

(** One turn of the server's loop, or a change of the world between two
    turns; the texts it describes itself with are [doc] and [conf]. *)
Inductive net_step (doc conf : list Z) : net → net → Prop :=
  | step_start s s' : net_start s = Some ((), s') → net_step doc conf s s'
  | step_frame f s s' : bytes f → net_input f s = Some ((), s') → net_step doc conf s s'
  | step_request from r o s s' : net_vfs doc conf from r s = Some (o, s') → net_step doc conf s s'
  | step_timeout s s' : net_timeout s = Some ((), s') → net_step doc conf s s'
  | step_world now live wait mem s :
      net_step doc conf s (s <| ticks := now |> <| alive := live |> <| waiting := wait |> <| oom := mem |>).
Lemma kept_net_start : kept net_start.
Proof. unfold net_start. kstep; by apply kept_arp_request. Qed.
Lemma keeps_step {A} (m : prog net A) a s s' : kept m → net_inv s → m s = Some (a, s') → net_inv s'.
Proof. intros H Hs E. specialize (H s Hs). rewrite E in H. apply H. Qed.
Lemma net_step_inv doc conf s s' : net_step doc conf s s' → net_inv s → net_inv s'.
Proof.
  intros [s1 s2 E|f s1 s2 Hf E|from r o s1 s2 E|s1 s2 E|now live wait mem s1] Hs.
  - exact (keeps_step _ _ _ _ kept_net_start Hs E).
  - exact (keeps_step _ _ _ _ (kept_net_input f Hf) Hs E).
  - exact (keeps_step _ _ _ _ (kept_net_vfs doc conf from r) Hs E).
  - exact (keeps_step _ _ _ _ kept_timeout Hs E).
  - by destruct Hs; split.
Qed.
Lemma boot_inv mac ip now : length mac = 6%nat → length ip = 4%nat → net_inv (net_boot mac ip now).
Proof.
  intros Hm Hi. split; try done; [by apply (Forall_replicate _ NTCB)|split; [done|by apply (Forall_replicate _ NARP)]|simpl; lia].
Qed.
(** After any sequence of frames, requests and timeouts that the server has
    handled to the end, the tables keep their sizes, no connection's
    send buffer or read queue outgrows its 2048 bytes and no held segment its
    1200, sequence numbers stay within 32 bits, the segment size of the peer
    within 128..1460, the retransmission timeout within 200..8000 ms, and the
    congestion window never falls below one segment.  An event that leaves a
    buffer or never ends is not one of them: [long_ping_overruns],
    [requests_overrun] and [reassembly_never_ends] of NetDemo.v. *)
Theorem net_keeps_invariant doc conf mac ip now s :
  length mac = 6%nat → length ip = 4%nat → rtc (net_step doc conf) (net_boot mac ip now) s → net_inv s.
Proof.
  intros Hm Hi Hr. assert (net_inv (net_boot mac ip now)) as H0 by (by apply boot_inv).
  induction Hr as [|s1 s2 s3 H _ IH]; [done|]. apply IH. by eapply net_step_inv.
Qed.
(** The gateway answers, and the server calls it. *)
Definition arp_answer : list Z := eth_hdr mac_a mac_b ETH_ARP ++ arp_packet 2 mac_b ip_b mac_a ip_a.
Definition booted : net := run (net_input arp_answer) (run net_start (net_boot mac_a ip_a 40000)).
Lemma net_keeps_invariant_witness : net_inv booted.
Proof.
  apply (net_keeps_invariant [] [] mac_a ip_a 40000); [reflexivity|reflexivity|].
  eapply rtc_l; [apply step_start; vm_compute; reflexivity|]. apply rtc_once.
  apply (step_frame _ _ arp_answer); [apply (bool_decide_unpack _); vm_compute; exact I|vm_compute; reflexivity].
Defined.
