(* ===== verification/Client.v ===== *)
(** * The client library (src/src/vfs.h, src/prog/lib.h)

    What a program calls to reach files: opening through a union, reading,
    writing, the console, and the copy that cp and mv share.  The kernel and
    the servers are behind [World]; the theorems of this file hold for every
    one. *)
From stdpp Require Import base list numbers option.
From S2P Require Import Prelude Mem Req.
Local Open Scope Z_scope.

(** The system calls the library makes.  [sys_call] is a send and then a
    receive from the same task: the reply, or [None] when either fails.
    [sys_resolve] is [None] when the union has no such member. *)
Class World (W : Type) := {
  sys_resolve : list Z → nat → prog W (option (Z * list Z));
  sys_call : Z → vfs_req → prog W (option vfs_req);
  sys_mounts_text : prog W (list Z);
  sys_putchar : Z → prog W ();
  sys_rest : prog W () }.

(** ** Descriptors *)

(** The server's task in the upper half, its own number in the lower. *)
Definition fd_pack (srv l : Z) : Z := Z.lor (i32 (Z.shiftl srv 16)) (Z.land l 0xffff).
Definition fd_task (f : Z) : Z := Z.shiftr f 16.
Definition fd_local (f : Z) : Z := Z.land f 0xffff.
Definition MOUNTS_MAX : nat := 8.
Definition MOUNT_NAME_MAX : Z := 16.

Section client.
Context {W : Type} `{World W}.
(** What a request on the stack holds before its fields are set, and how
    many rounds an unbounded loop is given. *)
Context (junk : vfs_req) (fuel : nat).

Definition vfs_call (dst : Z) (r : vfs_req) : prog W vfs_req :=
  let* a := sys_call dst r in
  pret (match a with Some r' => r' | None => r <| result := -1 |> end).
Definition vfs_open_at (srv : Z) (real : list Z) : prog W Z :=
  let* r := vfs_call srv (junk <| op := VFS_OPEN |> <| path := real |>) in
  pret (if result r <? 0 then -1 else fd_pack srv (result r)).
Definition vfs_create (p : list Z) : prog W Z :=
  let* x := sys_resolve p 0 in
  match x with
  | None => pret (-1)
  | Some (srv, real) =>
      let* r := vfs_call srv (junk <| op := VFS_CREATE |> <| path := real |>) in
      pret (if result r <? 0 then -1 else fd_pack srv (result r))
  end.
(** A name has at most as many members as the mount table has entries, so
    that the last of these rounds does not resolve. *)
Fixpoint vfs_open_from (n nth : nat) (p : list Z) : prog W Z :=
  match n with
  | O => diverge
  | S n' =>
      let* x := sys_resolve p nth in
      match x with
      | None => pret (-1)
      | Some (srv, real) =>
          let* f := vfs_open_at srv real in
          if 0 <=? f then pret f else vfs_open_from n' (S nth) p
      end
  end.
Definition vfs_open (p : list Z) : prog W Z := vfs_open_from (S MOUNTS_MAX) 0 p.

(** How much was read, and what. *)
Definition vfs_read (f n : Z) : prog W (Z * list Z) :=
  let n := if VFS_DATA_MAX <? n then VFS_DATA_MAX else n in
  let* r := vfs_call (fd_task f) (junk <| op := VFS_READ |> <| fd := fd_local f |> <| len := n |>) in
  if VFS_DATA_MAX <? result r then diverge
  else pret (result r, take (Z.to_nat (result r)) (data r)).
Definition vfs_write (f : Z) (d : list Z) : prog W Z :=
  let d := take (Z.to_nat VFS_DATA_MAX) d in
  let* r := vfs_call (fd_task f)
    (junk <| op := VFS_WRITE |> <| fd := fd_local f |> <| len := Z.of_nat (length d) |> <| data := d ++ drop (length d) (data junk) |>) in
  pret (result r).
Definition vfs_ioctl_arg (f cmd arg : Z) : prog W Z :=
  let* r := vfs_call (fd_task f) (junk <| op := VFS_IOCTL |> <| fd := fd_local f |> <| ioctl_cmd := cmd |> <| len := arg |>) in
  pret (result r).
Definition vfs_ioctl (f cmd : Z) : prog W Z :=
  let* r := vfs_call (fd_task f) (junk <| op := VFS_IOCTL |> <| fd := fd_local f |> <| ioctl_cmd := cmd |>) in
  pret (result r).
Definition vfs_ioctl_path_arg (p : list Z) (cmd arg : Z) : prog W Z :=
  let* x := sys_resolve p 0 in
  match x with
  | None => pret (-1)
  | Some (srv, real) =>
      let* r := vfs_call srv (junk <| op := VFS_IOCTL |> <| fd := -1 |> <| ioctl_cmd := cmd |> <| len := arg |> <| path := real |>) in
      pret (result r)
  end.
Definition vfs_ioctl_path (p : list Z) (cmd : Z) : prog W Z := vfs_ioctl_path_arg p cmd 0.
Definition vfs_close (f : Z) : prog W Z :=
  let* r := vfs_call (fd_task f) (junk <| op := VFS_CLOSE |> <| fd := fd_local f |>) in
  pret (result r).

(** ** Mounted names in a listing *)

Fixpoint upto (c : Z) (l : list Z) : list Z :=
  match l with x :: l' => if x =? c then [] else x :: upto c l' | [] => [] end.
(** Slashes off the end, of all but the first [keep] characters. *)
Fixpoint strip_slashes (n : nat) (l : list Z) : list Z :=
  match n with
  | O => l
  | S n' => if (1 <? length l)%nat && bool_decide (list.last l = Some 47) then strip_slashes n' (removelast l) else l
  end.
Definition no_slashes (l : list Z) : list Z := strip_slashes (length l) l.
Fixpoint last_slash (l : list Z) (k : nat) (found : option nat) : option nat :=
  match l with [] => found | c :: l' => last_slash l' (S k) (if c =? 47 then Some k else found) end.
(** The entry a line of the mount listing is worth in the directory [d]. *)
Definition mount_entry (d line : list Z) : option (list Z) :=
  let pre := upto 32 line in
  let p := no_slashes pre in
  match last_slash p 0 None with
  | None => None
  | Some cut =>
      if (cut =? length p - 1)%nat then None
      else if negb ((if (cut =? 0)%nat then 1 else cut) =? length d)%nat then None
      else if bool_decide (take (length d) p = d)
      then Some ([if bool_decide (list.last pre = Some 47) then 100 else 45] ++ [32; 48; 32] ++ drop (S cut) p ++ [10])
      else None
  end.
Fixpoint split_lines (l cur : list Z) : list (list Z) :=
  match l with
  | [] => match cur with [] => [] | _ => [cur] end
  | c :: l' => if c =? 10 then cur :: split_lines l' [] else split_lines l' (cur ++ [c])
  end.
Fixpoint mounts_loop (d : list Z) (ls : list (list Z)) (cap : Z) (o : list Z) : list Z :=
  match ls with
  | [] => o
  | l :: ls' =>
      if Z.of_nat (length o) <? cap - MOUNT_NAME_MAX - 8
      then mounts_loop d ls' cap (o ++ default [] (mount_entry d l)) else o
  end.
Definition vfs_mounts_in (dir : list Z) (cap : Z) : prog W (list Z) :=
  let* t := sys_mounts_text in
  pret (mounts_loop (no_slashes (take 127 dir)) (split_lines t []) cap []).

(** ** The console *)

(** What was sent is dropped from what is to be sent; [false] when the far
    end is gone. *)
Fixpoint say_flush (n : nat) (f : Z) (buf : list Z) : prog W bool :=
  if (length buf =? 0)%nat then pret true
  else
    match n with
    | O => diverge
    | S n' =>
        let* w := vfs_write f buf in
        if w <? 0 then pret false
        else if w =? 0 then let* _ := sys_rest in say_flush n' f buf
        else say_flush n' f (drop (Z.to_nat w) buf)
    end.
Fixpoint putc_all (s : list Z) : prog W () :=
  match s with [] => pret () | c :: s' => let* _ := sys_putchar c in putc_all s' end.
Definition SAY_BUF : Z := 128.
Definition say_full (s buf : list Z) : bool :=
  (SAY_BUF - 2 <? Z.of_nat (length buf)) || ((length s =? 0)%nat && negb (length buf =? 0)%nat).
Fixpoint say_loop (f : Z) (s buf : list Z) : prog W () :=
  let* ok := (if say_full s buf then say_flush fuel f buf else pret true) in
  if negb ok then putc_all s
  else
    let buf := if say_full s buf then [] else buf in
    match s with
    | [] => pret ()
    | c :: s' => say_loop f s' (buf ++ (if c =? 10 then [13] else []) ++ [c])
    end.
End client.

(** ** A program's own state

    The static variable of [vfs_say] beside the world: the descriptor plus
    one, 0 before the first call, negative when the console did not open. *)
Record client (W : Type) := mkClient { say_fd1 : Z; world : W }.
Arguments mkClient {W}. Arguments say_fd1 {W}. Arguments world {W}.
Definition calls {W A} (m : prog W A) : prog (client W) A := λ s,
  match m (world s) with Some (a, w) => Some (a, mkClient (say_fd1 s) w) | None => None end.

Section lib.
Context {W : Type} `{World W}.
Context (junk : vfs_req) (fuel : nat).

Definition say_open : prog (client W) Z := λ s,
  if say_fd1 s =? 0 then
    (let* f := calls (vfs_open junk (str "/dev/console")) in
     let x := if f <? 0 then -1 else f + 1 in
     λ s, Some (x, mkClient x (world s))) s
  else Some (say_fd1 s, s).
Definition vfs_say (s : list Z) : prog (client W) () :=
  let* x := say_open in
  if x <? 0 then calls (putc_all s) else calls (say_loop junk fuel (x - 1) s []).
Definition sayn (v : Z) : prog (client W) () := vfs_say (uutoa v).
Definition err (who what p : list Z) : prog (client W) () :=
  let* _ := vfs_say who in
  let* _ := vfs_say (str ": ") in
  let* _ := vfs_say what in
  let* _ := vfs_say [32] in
  let* _ := vfs_say p in
  vfs_say [10].

(** ** Copying *)

(** One chunk written out; [false] when a write failed. *)
Fixpoint copy_out_chunk (n : nat) (out : Z) (d : list Z) : prog W bool :=
  if (length d =? 0)%nat then pret true
  else
    match n with
    | O => diverge
    | S n' =>
        let* k := vfs_write junk out d in
        if k <? 0 then pret false
        else if k =? 0 then let* _ := sys_rest in copy_out_chunk n' out d
        else copy_out_chunk n' out (drop (Z.to_nat k) d)
    end.
(** The total, or [None] when a write failed. *)
Fixpoint pcopy_loop (n : nat) (inp out : Z) (total : Z) : prog W (option Z) :=
  match n with
  | O => diverge
  | S n' =>
      let* (k, d) := vfs_read junk inp VFS_DATA_MAX in
      if k <=? 0 then pret (Some total)
      else
        let* ok := copy_out_chunk fuel out d in
        if ok : bool then pcopy_loop n' inp out (i32 (total + k)) else pret None
  end.
Definition pcopy (src dst : list Z) : prog W Z :=
  let* inp := vfs_open junk src in
  if inp <? 0 then pret (-1)
  else
    let* out := vfs_create junk dst in
    if out <? 0 then let* _ := vfs_close junk inp in pret (-1)
    else
      let* t := pcopy_loop fuel inp out 0 in
      let* _ := vfs_close junk inp in
      let* _ := vfs_close junk out in
      pret (default (-1) t).
End lib.
