(* ===== verification/Say.v ===== *)
(** * What a program prints (vfs_say of src/src/vfs.h)

    Printing through a console that takes as much of each write as it likes,
    or goes away. *)
From stdpp Require Import base list numbers option.
From S2P Require Import Prelude Mem Req Client.
Local Open Scope Z_scope.

(** A console: what it took, how much it takes of the next writes (all when
    there is no more to say, nothing and never again when negative), and what
    came out on the serial line. *)
Record console := mkConsole { shown : list Z; takes : list Z; serial : list Z }.
Definition console_call (r : vfs_req) : prog console (option vfs_req) := λ s,
  if op r =? VFS_WRITE then
    let d := take (Z.to_nat (len r)) (data r) in
    let '(k, l) := match takes s with [] => (Z.of_nat (length d), []) | k :: l => (Z.min k (Z.of_nat (length d)), l) end in
    Some (Some (r <| result := k |>), mkConsole (shown s ++ take (Z.to_nat k) d) l (serial s))
  else Some (Some (r <| result := 0 |>), s).
#[export] Instance console_world : World console := {
  sys_resolve p n := pret (if (n =? 0)%nat then Some (1, p) else None);
  sys_call dst r := console_call r;
  sys_mounts_text := pret [];
  sys_putchar c := modify (λ s, mkConsole (shown s) (takes s) (serial s ++ [c]));
  sys_rest := pret () }.

(** Line ends as a terminal wants them. *)
Definition crlf (s : list Z) : list Z := concat ((λ c, if c =? 10 then [13; 10] else [c]) <$> s).
Lemma crlf_app a b : crlf (a ++ b) = crlf a ++ crlf b.
Proof. unfold crlf. by rewrite fmap_app, concat_app. Qed.

Section say.
Context (junk : vfs_req) (f : Z).

Lemma write_console d s :
  (0 < length d)%nat → Z.of_nat (length d) ≤ VFS_DATA_MAX →
  ∃ k l, vfs_write junk f d s = Some (k, mkConsole (shown s ++ take (Z.to_nat k) d) l (serial s)) ∧
    k ≤ Z.of_nat (length d) ∧ (length l + (length d - Z.to_nat k) < length (takes s) + length d)%nat ∧ (length l ≤ length (takes s))%nat ∧
    (Forall (λ k, 0 ≤ k) (takes s) → 0 ≤ k ∧ Forall (λ k, 0 ≤ k) l).
Proof.
  intros H0 H1. unfold vfs_write, vfs_call. rewrite (take_ge d) by (unfold VFS_DATA_MAX in *; lia). rewrite <- pbind_assoc.
  cbn [sys_call console_world]. unfold console_call, pbind, pret. cbn. rewrite Nat2Z.id, take_app_length.
  destruct (takes s) as [|k l] eqn:E; cbn.
  - exists (Z.of_nat (length d)), []. cbn [length]. split_and!; [done|lia|lia|lia|]. intros _. split; [lia|done].
  - exists (Z.min k (Z.of_nat (length d))), l. cbn [length]. split_and!; [done|lia|lia|lia|]. intros [Hk Hl]%list.Forall_cons. split; [lia|done].
Qed.
Lemma say_flush_ok n buf s :
  Z.of_nat (length buf) ≤ SAY_BUF → (length (takes s) + length buf ≤ n)%nat →
  ∃ ok a b l, say_flush junk n f buf s = Some (ok, mkConsole (shown s ++ a) l (serial s)) ∧ buf = a ++ b ∧
    (ok = true → b = []) ∧ (length l ≤ length (takes s))%nat ∧
    (Forall (λ k, 0 ≤ k) (takes s) → ok = true ∧ Forall (λ k, 0 ≤ k) l).
Proof.
  revert buf s. induction n as [|n IH]; intros buf s Hb Hn; cbn [say_flush]; destruct (Nat.eqb_spec (length buf) 0) as [E|E].
  1,3: apply nil_length_inv in E as ->; exists true, [], [], (takes s); rewrite app_nil_r; destruct s; split_and!; done.
  { lia. }
  destruct (write_console buf s) as (k & l & Hw & Hk & Hl & Hl' & Hg); [lia|unfold SAY_BUF, VFS_DATA_MAX in *; lia|].
  rewrite (pbind_eq _ _ _ _ _ Hw). destruct (Z.ltb_spec k 0) as [Hneg|Hpos].
  { exists false, [], buf, l. replace (Z.to_nat k) with 0%nat by lia. rewrite take_0. split_and!; [done|done|done|lia|].
    intros F. apply Hg in F. lia. }
  destruct (Z.eqb_spec k 0) as [->|Hk0].
  - rewrite (pbind_eq _ _ _ () _ eq_refl). cbn [Z.to_nat take] in *. rewrite app_nil_r.
    destruct (IH buf (mkConsole (shown s) l (serial s)) Hb ltac:(cbn; lia)) as (ok & a & b & l' & H1 & H2 & H3 & H4 & H5). cbn in H1, H4, H5.
    exists ok, a, b, l'. split_and!; [done|done|done|lia|]. intros F. by apply H5, Hg.
  - destruct (IH (drop (Z.to_nat k) buf) (mkConsole (shown s ++ take (Z.to_nat k) buf) l (serial s))) as (ok & a & b & l' & H1 & H2 & H3 & H4 & H5);
      [rewrite length_drop; lia|cbn; rewrite length_drop; lia|]. cbn in H1, H4, H5.
    exists ok, (take (Z.to_nat k) buf ++ a), b, l'. split_and!; [by rewrite app_assoc|by rewrite <- app_assoc, <- H2, take_drop|done|lia|].
    intros F. by apply H5, Hg.
Qed.
Lemma putc_all_ok t s : putc_all t s = Some ((), mkConsole (shown s) (takes s) (serial s ++ t)).
Proof.
  revert s. induction t as [|c t IH]; intros s; cbn [putc_all]; [rewrite app_nil_r; by destruct s|].
  rewrite (pbind_eq _ _ _ () (mkConsole (shown s) (takes s) (serial s ++ [c]))) by done. rewrite IH. cbn. by rewrite <- app_assoc.
Qed.
(** [t] is to be printed after [buf], which holds what was printed last.  It
    is all shown; or it is cut into what was shown, at most a buffer that is
    lost, and the rest, which goes to the serial line. *)
Lemma say_loop_ok fuel t buf s :
  (length (takes s) + 128 ≤ fuel)%nat → Z.of_nat (length buf) ≤ SAY_BUF →
  ∃ a lost b l, say_loop junk fuel f t buf s = Some ((), mkConsole (shown s ++ a) l (serial s ++ b)) ∧
    (∃ u, t = u ++ b ∧ buf ++ crlf u = a ++ lost) ∧ Z.of_nat (length lost) ≤ SAY_BUF ∧
    (Forall (λ k, 0 ≤ k) (takes s) → lost = [] ∧ b = [] ∧ Forall (λ k, 0 ≤ k) l) ∧ (length l ≤ length (takes s))%nat.
Proof.
  revert buf s. induction t as [|c t IH]; intros buf s Hf Hb; cbn [say_loop]; destruct (say_full _ buf) eqn:Efull.
  - destruct (say_flush_ok fuel buf s Hb) as (ok & a & b & l & H1 & H2 & H3 & H4 & H5); [unfold SAY_BUF in *; lia|].
    rewrite (pbind_eq _ _ _ _ _ H1). destruct ok; cbn [negb].
    + exists a, [], [], l. rewrite !app_nil_r. rewrite H3, app_nil_r in H2 by done. split_and!; [done|exists []; cbn; by rewrite ?app_nil_r|done| |done].
      intros F. split_and!; [done|done|by apply H5].
    + exists a, b, [], l. rewrite app_nil_r. split_and!; [done|exists []; cbn; by rewrite ?app_nil_r| |intros F; by apply H5 in F as [? _]|done].
      rewrite H2, length_app in Hb. lia.
  - unfold say_full in Efull. apply orb_false_elim in Efull as [_ Efull]. cbn in Efull.
    rewrite (pbind_eq _ _ _ _ _ eq_refl). cbn [negb]. destruct buf; [|done]. exists [], [], [], (takes s). rewrite !app_nil_r.
    split_and!; [by destruct s|by exists []|done|done|done].
  - destruct (say_flush_ok fuel buf s Hb) as (ok & a & b & l & H1 & H2 & H3 & H4 & H5); [unfold SAY_BUF in *; lia|].
    rewrite (pbind_eq _ _ _ _ _ H1). destruct ok; cbn [negb app].
    + rewrite H3, app_nil_r in H2 by done. subst a.
      destruct (IH ((if c =? 10 then [13] else []) ++ [c]) (mkConsole (shown s ++ buf) l (serial s))) as (a & lost & b' & l' & I1 & (u & I2 & I3) & I4 & I5 & I6);
        [cbn; lia|destruct (c =? 10); unfold SAY_BUF; cbn; lia|].
      cbn in I1, I5, I6. exists (buf ++ a), lost, b', l'. rewrite I1, app_assoc. split_and!; [done| |done|intros F; by apply I5, H5|lia].
      exists (c :: u). split; [by rewrite I2|]. rewrite <- app_assoc, <- I3. unfold crlf. cbn. f_equal. destruct (Z.eqb_spec c 10) as [->|]; done.
    + rewrite putc_all_ok. exists a, b, (c :: t), l. split_and!; [done|exists []; cbn; by rewrite ?app_nil_r| |intros F; by apply H5 in F as [? _]|done].
      rewrite H2, length_app in Hb. lia.
  - rewrite (pbind_eq _ _ _ _ _ eq_refl). cbn [negb]. unfold say_full in Efull. apply orb_false_elim in Efull as [Efull _]. apply Z.ltb_ge in Efull.
    destruct (IH (buf ++ (if c =? 10 then [13] else []) ++ [c]) s Hf) as (a & lost & b' & l' & I1 & (u & I2 & I3) & I4 & I5 & I6).
    { rewrite !length_app. unfold SAY_BUF in *. destruct (c =? 10); cbn; lia. }
    exists a, lost, b', l'. split_and!; [done| |done|done|done]. exists (c :: u). split; [by rewrite I2|].
    rewrite <- I3, <- app_assoc. f_equal. unfold crlf. cbn. destruct (Z.eqb_spec c 10) as [->|]; done.
Qed.
End say.

(** C10: printing is translation of line ends.  On a console that never goes
    away, however little of each write it takes, what it shows is the text
    with a carriage return before every newline; on one that does, it shows a
    beginning of that, a piece of at most 128 bytes may be lost, and the rest
    of the text goes to the serial line. *)
Theorem say_shows_crlf junk fuel t s :
  (length (takes s) + 128 ≤ fuel)%nat →
  ∃ a lost b l x, vfs_say junk fuel t (mkClient 0 s) = Some ((), mkClient x (mkConsole (shown s ++ a) l (serial s ++ b))) ∧
    (∃ u, t = u ++ b ∧ crlf u = a ++ lost) ∧ Z.of_nat (length lost) ≤ SAY_BUF ∧
    (Forall (λ k, 0 ≤ k) (takes s) → a = crlf t ∧ lost = [] ∧ b = []).
Proof.
  intros Hf. destruct (say_loop_ok junk (fd_pack 1 0) fuel t [] s Hf ltac:(done)) as (a & lost & b & l & H1 & (u & H2 & H3) & H4 & H5 & _).
  exists a, lost, b, l, (fd_pack 1 0 + 1). split_and!; [|by exists u|done|].
  - assert (say_open junk (mkClient 0 s) = Some (fd_pack 1 0 + 1, mkClient (fd_pack 1 0 + 1) s)) as Ho by reflexivity.
    unfold vfs_say. rewrite (pbind_eq _ _ _ _ _ Ho). change (fd_pack 1 0 + 1 <? 0) with false. cbn iota.
    replace (fd_pack 1 0 + 1 - 1) with (fd_pack 1 0) by lia. unfold calls. cbn [world say_fd1]. by rewrite H1.
  - intros F. destruct (H5 F) as (-> & -> & _). rewrite app_nil_r in *. cbn in H3. by subst.
Qed.
Lemma say_shows_crlf_witness :
  ∃ a lost b l x, vfs_say (mkReq 0 0 [] 0 0 0 []) 200 [104; 105; 10] (mkClient 0 (mkConsole [] [1; 0] [])) =
      Some ((), mkClient x (mkConsole ([] ++ a) l ([] ++ b))) ∧
    (∃ u, [104; 105; 10] = u ++ b ∧ crlf u = a ++ lost) ∧ Z.of_nat (length lost) ≤ SAY_BUF ∧
    (Forall (λ k, 0 ≤ k) [1; 0] → a = crlf [104; 105; 10] ∧ lost = [] ∧ b = []).
Proof. apply (say_shows_crlf (mkReq 0 0 [] 0 0 0 []) 200 [104; 105; 10] (mkConsole [] [1; 0] [])). cbn. lia. Defined.
(** A console that goes away takes with it what was in the buffer, which the
    serial line does not see. *)
Theorem say_loses_a_buffer :
  match vfs_say (mkReq 0 0 [] 0 0 0 []) 200 [104; 105; 10] (mkClient 0 (mkConsole [] [-1] [])) with
  | Some (_, c) => shown (world c) = [] ∧ serial (world c) = []
  | None => False
  end.
Proof. vm_compute. done. Qed.
