(* ===== verification/Progs.v ===== *)
(** * Programs on the disk (src/prog: cat, cp, mv, rm, mkdir, echo, wc, ls)

    Each program is what its [_start] does with the arguments after its name,
    up to [sys_exit]. *)
From stdpp Require Import base list numbers option.
From S2P Require Import Prelude Mem Req Client.
Local Open Scope Z_scope.

(** ** Counting *)

Record counts := mkCounts { c_lines : Z; c_words : Z; c_bytes : Z; c_in_word : bool }.
Definition is_blank (c : Z) : bool := (c =? 32) || (c =? 10) || (c =? 9).
Definition wc_byte (x : counts) (c : Z) : counts :=
  mkCounts (if c =? 10 then u64 (c_lines x + 1) else c_lines x)
    (if negb (is_blank c) && negb (c_in_word x) then u64 (c_words x + 1) else c_words x)
    (u64 (c_bytes x + 1)) (negb (is_blank c)).

(** ** Listing *)

Definition SEEN_MAX : Z := 512.
Definition LINE_MAX : Z := 160.
(** The names in [seen], each ended by a NUL. *)
Fixpoint seen_names (l cur : list Z) : list (list Z) :=
  match l with [] => [] | c :: l' => if c =? 0 then cur :: seen_names l' [] else seen_names l' (cur ++ [c]) end.
Definition already (seen name : list Z) : bool := bool_decide (name ∈ seen_names seen []).
Definition remember (seen name : list Z) : list Z :=
  let seen := seen ++ take (Z.to_nat (SEEN_MAX - 2) - length seen) name in
  if Z.of_nat (length seen) <? SEEN_MAX - 1 then seen ++ [0] else seen.

Section programs.
Context {W : Type} `{World W}.
Context (junk : vfs_req) (fuel : nat).
Abbreviation say := (vfs_say junk fuel).
Abbreviation complain := (err junk fuel).

(** [for (;;) { n = vfs_read(...); if (n <= 0) break; ... }] *)
Fixpoint each_chunk {A} (n : nat) (f : Z) (k : A → list Z → prog (client W) A) (a : A) : prog (client W) A :=
  match n with
  | O => diverge
  | S n' =>
      let* (got, d) := calls (vfs_read junk f VFS_DATA_MAX) in
      if got <=? 0 then pret a else let* a' := k a d in each_chunk n' f k a'
  end.
Fixpoint each {A} (l : list A) (k : A → prog (client W) ()) : prog (client W) () :=
  match l with [] => pret () | x :: l' => let* _ := k x in each l' k end.

Definition cat_one (p : list Z) : prog (client W) () :=
  let* f := calls (vfs_open junk p) in
  if f <? 0 then complain (str "cat") (str "cannot open") p
  else
    let* _ := each_chunk fuel f (λ _ d, say (cstr d)) () in
    let* _ := calls (vfs_close junk f) in pret ().
Definition cat (args : list (list Z)) : prog (client W) () :=
  match args with [] => say (str "usage: cat <path>..." ++ [10]) | _ => each args cat_one end.
Definition cp (args : list (list Z)) : prog (client W) () :=
  match args with
  | src :: dst :: _ =>
      let* k := calls (pcopy junk fuel src dst) in
      if k <? 0 then complain (str "cp") (str "failed:") src else pret ()
  | _ => say (str "usage: cp <src> <dst>" ++ [10])
  end.
Definition mv (args : list (list Z)) : prog (client W) () :=
  match args with
  | src :: dst :: _ =>
      let* k := calls (pcopy junk fuel src dst) in
      if k <? 0 then complain (str "mv") (str "cannot copy") src
      else
        let* f := calls (vfs_open junk src) in
        if f <? 0 then pret ()
        else
          let* x := calls (vfs_ioctl junk f IOCTL_REMOVE) in
          let* _ := (if x <? 0 then complain (str "mv") (str "copied, but cannot remove") src else pret ()) in
          let* _ := calls (vfs_close junk f) in pret ()
  | _ => say (str "usage: mv <src> <dst>" ++ [10])
  end.
Definition rm_one (p : list Z) : prog (client W) () :=
  let* f := calls (vfs_open junk p) in
  if f <? 0 then complain (str "rm") (str "no such file") p
  else
    let* x := calls (vfs_ioctl junk f IOCTL_REMOVE) in
    let* _ := (if x <? 0 then complain (str "rm") (str "refused") p else pret ()) in
    let* _ := calls (vfs_close junk f) in pret ().
Definition rm (args : list (list Z)) : prog (client W) () :=
  match args with [] => say (str "usage: rm <path>..." ++ [10]) | _ => each args rm_one end.
Definition mkdir (args : list (list Z)) : prog (client W) () :=
  match args with
  | [] => say (str "usage: mkdir <path>..." ++ [10])
  | _ => each args (λ p, let* x := calls (vfs_ioctl_path junk p IOCTL_MKDIR) in
                         if x <? 0 then complain (str "mkdir") (str "refused") p else pret ())
  end.
Fixpoint echo_words (first : bool) (args : list (list Z)) : prog (client W) () :=
  match args with
  | [] => say [10]
  | a :: l => let* _ := (if first then pret () else say [32]) in let* _ := say a in echo_words false l
  end.
Definition echo (args : list (list Z)) : prog (client W) () := echo_words true args.
Definition wc_one (p : list Z) : prog (client W) () :=
  let* f := calls (vfs_open junk p) in
  if f <? 0 then complain (str "wc") (str "cannot open") p
  else
    let* x := each_chunk fuel f (λ x d, pret (foldl wc_byte x d)) (mkCounts 0 0 0 false) in
    let* _ := calls (vfs_close junk f) in
    let* _ := sayn junk fuel (c_lines x) in let* _ := say [32] in
    let* _ := sayn junk fuel (c_words x) in let* _ := say [32] in
    let* _ := sayn junk fuel (c_bytes x) in let* _ := say [32; 32] in
    let* _ := say p in say [10].
Definition wc (args : list (list Z)) : prog (client W) () :=
  match args with [] => say (str "usage: wc <path>..." ++ [10]) | _ => each args wc_one end.

(** One line of a listing; the names shown so far go in and come out.  A
    line of one character reads behind its NUL, taken as empty. *)
Definition show (line seen : list Z) : prog (client W) (list Z) :=
  match line with
  | t :: _ =>
      if (t =? 100) || (t =? 45) then
        let size := upto 32 (drop 2 line) in
        let name := drop (2 + length size + 1) line in
        if already seen name then pret seen
        else
          let* _ := say name in
          let* _ := (if t =? 100 then say [47; 10]
                     else
                       let* _ := say (str "  (") in
                       let* _ := each size (λ c, say [c]) in
                       say (str " bytes)" ++ [10])) in
          pret (remember seen name)
      else let* _ := say line in let* _ := say [10] in pret seen
  | [] => let* _ := say [] in let* _ := say [10] in pret seen
  end.
Fixpoint show_lines (d line seen : list Z) : prog (client W) (list Z * list Z) :=
  match d with
  | [] => pret (line, seen)
  | c :: d' =>
      if c =? 10 then let* seen' := show (cstr line) seen in show_lines d' [] seen'
      else show_lines d' (if Z.of_nat (length line) <? LINE_MAX - 1 then line ++ [c] else line) seen
  end.
Definition ls_one (p : list Z) : prog (client W) () :=
  let* f := calls (vfs_open junk p) in
  if f <? 0 then complain (str "ls") (str "cannot open") p
  else
    let* x := each_chunk fuel f (λ x d, show_lines d x.1 x.2) ([], []) in
    let* _ := calls (vfs_close junk f) in
    let* extra := calls (vfs_mounts_in p VFS_DATA_MAX) in
    let* _ := show_lines extra [] x.2 in pret ().
Definition ls (args : list (list Z)) : prog (client W) () :=
  match args with
  | [] => ls_one [47]
  | [p] => ls_one p
  | _ => each args (λ p, let* _ := say p in let* _ := say [58; 10] in ls_one p)
  end.
End programs.

(** ** What wc counts *)

(** The maximal runs of characters that are not blank. *)
Fixpoint words_of (cur d : list Z) : list (list Z) :=
  match d with
  | [] => match cur with [] => [] | _ => [cur] end
  | c :: d' =>
      if is_blank c then match cur with [] => words_of [] d' | _ => cur :: words_of [] d' end
      else words_of (cur ++ [c]) d'
  end.
Lemma wc_bytes_ok d l w b cur :
  0 ≤ l → 0 ≤ w → 0 ≤ b → l + Z.of_nat (length d) < 2 ^ 64 → w + Z.of_nat (length d) < 2 ^ 64 → b + Z.of_nat (length d) < 2 ^ 64 →
  let x := foldl wc_byte (mkCounts l w b (negb (length cur =? 0)%nat)) d in
  c_lines x = l + Z.of_nat (length (filter (λ c, c = 10) d)) ∧
  c_words x + (if (length cur =? 0)%nat then 0 else 1) = w + Z.of_nat (length (words_of cur d)) ∧
  c_bytes x = b + Z.of_nat (length d).
Proof.
  revert l w b cur. induction d as [|c d IH]; intros l w b cur Hl Hw Hb Hl' Hw' Hb'.
  { destruct cur; cbn; split_and!; lia. }
  cbn [length] in *. cbn [foldl words_of].
  assert (wc_byte (mkCounts l w b (negb (length cur =? 0)%nat)) c =
    mkCounts (if c =? 10 then u64 (l + 1) else l) (if negb (is_blank c) && negb (negb (length cur =? 0)%nat) then u64 (w + 1) else w)
      (u64 (b + 1)) (negb (is_blank c))) as -> by done.
  rewrite !negb_involutive, (u64_small (l + 1)), (u64_small (w + 1)), (u64_small (b + 1)) by lia.
  assert (Z.of_nat (length (filter (λ c, c = 10) (c :: d))) = (if c =? 10 then 1 else 0) + Z.of_nat (length (filter (λ c, c = 10) d))) as Hf.
  { rewrite filter_cons. destruct (Z.eqb_spec c 10), (decide (c = 10)); cbn [length]; lia || done. }
  rewrite Hf. destruct (is_blank c) eqn:Eb; cbn [negb andb].
  - specialize (IH (if c =? 10 then l + 1 else l) w (b + 1) []). cbn [length Nat.eqb negb] in IH.
    destruct IH as (I1 & I2 & I3); try (case_match; lia); try lia. rewrite I1, I3.
    split_and!; [case_match; lia| |lia]. destruct cur; cbn [length Nat.eqb]; lia.
  - destruct (Nat.eqb_spec (length cur) 0) as [E|E]; cbn [andb].
    + specialize (IH l (w + 1) (b + 1) (cur ++ [c])). rewrite length_app, Nat.add_comm in IH. cbn [length Nat.add Nat.eqb negb] in IH.
      assert ((c =? 10) = false) as -> by (unfold is_blank in Eb; destruct (c =? 10), (c =? 32); done).
      destruct IH as (I1 & I2 & I3); lia.
    + specialize (IH l w (b + 1) (cur ++ [c])). rewrite length_app, Nat.add_comm in IH. cbn [length Nat.add Nat.eqb negb] in IH.
      assert ((c =? 10) = false) as -> by (unfold is_blank in Eb; destruct (c =? 10), (c =? 32); done).
      destruct IH as (I1 & I2 & I3); lia.
Qed.
(** wc counts newlines, maximal runs of non-blank characters and bytes, in
    whatever pieces the text arrives. *)
Theorem wc_counts_correct chunks :
  Z.of_nat (length (concat chunks)) < 2 ^ 64 →
  let x := foldl (foldl wc_byte) (mkCounts 0 0 0 false) chunks in
  c_lines x = Z.of_nat (length (filter (λ c, c = 10) (concat chunks))) ∧
  c_words x = Z.of_nat (length (words_of [] (concat chunks))) ∧
  c_bytes x = Z.of_nat (length (concat chunks)).
Proof.
  intros Hlen. assert (∀ l x, foldl (foldl wc_byte) x l = foldl wc_byte x (concat l)) as ->.
  { induction l as [|d l IH]; intros x; [done|]. cbn. by rewrite foldl_app. }
  destruct (wc_bytes_ok (concat chunks) 0 0 0 []) as (H1 & H2 & H3); try lia. cbn [length Nat.eqb negb] in *. split_and!; lia.
Qed.
