(* ===== verification/Tty.v ===== *)
(** * The terminal server (src/src/srv_tty.c)

    The line discipline: what is typed becomes lines, with echo and editing,
    and telnet's negotiations taken out of the stream.  A step of the server
    is a [prog] over [tty]; what runs under the server's lock is one step,
    and so is one turn of the main loop.  A copy past the end of a buffer is
    a fault. *)
From stdpp Require Import base list numbers option.
From S2P Require Import Prelude Mem Req.
Local Open Scope Z_scope.

Definition NLINE : nat := 8.
Definition TTY_LINE : Z := 256.
Definition TTY_QUEUE : Z := 1024.
Definition IAC : Z := 255.
Definition SEo : Z := 240.
Definition SBo : Z := 250.
Definition WILL : Z := 251.
Definition WONT : Z := 252.
Definition DO : Z := 253.
Definition DONT : Z := 254.
Inductive telnet_state := T_DATA | T_IAC | T_OPT | T_SB | T_SB_IAC.

(** A terminal.  [ln_buf] and [ln_q] are the bytes in use of the line being
    typed and of the queue: [len] and [qlen] are their lengths. *)
Record line := mkLine
  { ln_used : bool; ln_raw : Z; ln_owner : Z; ln_rawmode : bool; ln_dead : bool;
    ln_buf : list Z; ln_q : list Z; ln_waiter : Z; ln_req : vfs_req; ln_intr_task : Z;
    ln_intr_fired : bool; ln_tstate : telnet_state; ln_tcmd : Z; ln_after_cr : bool;
    ln_thread : Z; ln_stack : bool }.
Ltac set_line proj :=
  setter (λ s, mkLine (ln_used s) (ln_raw s) (ln_owner s) (ln_rawmode s) (ln_dead s) (ln_buf s) (ln_q
    s) (ln_waiter s) (ln_req s) (ln_intr_task s) (ln_intr_fired s) (ln_tstate s) (ln_tcmd s)
    (ln_after_cr s) (ln_thread s) (ln_stack s)) proj.
#[export] Instance set_ln_used : Setter ln_used. Proof. set_line ln_used. Defined.
#[export] Instance set_ln_raw : Setter ln_raw. Proof. set_line ln_raw. Defined.
#[export] Instance set_ln_owner : Setter ln_owner. Proof. set_line ln_owner. Defined.
#[export] Instance set_ln_rawmode : Setter ln_rawmode. Proof. set_line ln_rawmode. Defined.
#[export] Instance set_ln_dead : Setter ln_dead. Proof. set_line ln_dead. Defined.
#[export] Instance set_ln_buf : Setter ln_buf. Proof. set_line ln_buf. Defined.
#[export] Instance set_ln_q : Setter ln_q. Proof. set_line ln_q. Defined.
#[export] Instance set_ln_waiter : Setter ln_waiter. Proof. set_line ln_waiter. Defined.
#[export] Instance set_ln_req : Setter ln_req. Proof. set_line ln_req. Defined.
#[export] Instance set_ln_intr_task : Setter ln_intr_task. Proof. set_line ln_intr_task. Defined.
#[export] Instance set_ln_intr_fired : Setter ln_intr_fired. Proof. set_line ln_intr_fired. Defined.
#[export] Instance set_ln_tstate : Setter ln_tstate. Proof. set_line ln_tstate. Defined.
#[export] Instance set_ln_tcmd : Setter ln_tcmd. Proof. set_line ln_tcmd. Defined.
#[export] Instance set_ln_after_cr : Setter ln_after_cr. Proof. set_line ln_after_cr. Defined.
#[export] Instance set_ln_thread : Setter ln_thread. Proof. set_line ln_thread. Defined.
#[export] Instance set_ln_stack : Setter ln_stack. Proof. set_line ln_stack. Defined.
Arguments set_ln_used _ _ /.
Arguments set_ln_raw _ _ /.
Arguments set_ln_owner _ _ /.
Arguments set_ln_rawmode _ _ /.
Arguments set_ln_dead _ _ /.
Arguments set_ln_buf _ _ /.
Arguments set_ln_q _ _ /.
Arguments set_ln_waiter _ _ /.
Arguments set_ln_req _ _ /.
Arguments set_ln_intr_task _ _ /.
Arguments set_ln_intr_fired _ _ /.
Arguments set_ln_tstate _ _ /.
Arguments set_ln_tcmd _ _ /.
Arguments set_ln_after_cr _ _ /.
Arguments set_ln_thread _ _ /.
Arguments set_ln_stack _ _ /.

(** An open control file or listing ([struct pfile]). *)
Record tfile := mkTfile
  { tf_used : bool; tf_owner : Z; tf_buf : list Z; tf_pos : Z }.
Ltac set_tfile proj :=
  setter (λ s, mkTfile (tf_used s) (tf_owner s) (tf_buf s) (tf_pos s)) proj.
#[export] Instance set_tf_used : Setter tf_used. Proof. set_tfile tf_used. Defined.
#[export] Instance set_tf_owner : Setter tf_owner. Proof. set_tfile tf_owner. Defined.
#[export] Instance set_tf_buf : Setter tf_buf. Proof. set_tfile tf_buf. Defined.
#[export] Instance set_tf_pos : Setter tf_pos. Proof. set_tfile tf_pos. Defined.
Arguments set_tf_used _ _ /.
Arguments set_tf_owner _ _ /.
Arguments set_tf_buf _ _ /.
Arguments set_tf_pos _ _ /.

(** The static variables of the server, then its surroundings: what the
    next writes to a device will answer (all of it when the list is empty),
    the writes devices took, what the next opens answer, the paths opened,
    the descriptors closed, the refusals of malloc, the next thread identifiers, the tasks
    that live, those killed, those that do not wait for a message, and the
    replies they got. *)
Record tty := mkTty
  { lines : list line; pf : list tfile; accepts : list Z; written : list (Z * list Z);
    opens : list Z; asked : list (list Z); closed : list Z; no_stack : list bool; threads : list Z;
    tty_alive : list Z; tty_killed : list Z; tty_busy : list Z;
    answers : list (Z * vfs_req) }.
Ltac set_tty proj :=
  setter (λ s, mkTty (lines s) (pf s) (accepts s) (written s) (opens s) (asked s) (closed s) (no_stack s)
    (threads s) (tty_alive s) (tty_killed s) (tty_busy s) (answers s)) proj.
#[export] Instance set_lines : Setter lines. Proof. set_tty lines. Defined.
#[export] Instance set_pf : Setter pf. Proof. set_tty pf. Defined.
#[export] Instance set_accepts : Setter accepts. Proof. set_tty accepts. Defined.
#[export] Instance set_written : Setter written. Proof. set_tty written. Defined.
#[export] Instance set_opens : Setter opens. Proof. set_tty opens. Defined.
#[export] Instance set_asked : Setter asked. Proof. set_tty asked. Defined.
#[export] Instance set_closed : Setter closed. Proof. set_tty closed. Defined.
#[export] Instance set_no_stack : Setter no_stack. Proof. set_tty no_stack. Defined.
#[export] Instance set_threads : Setter threads. Proof. set_tty threads. Defined.
#[export] Instance set_tty_alive : Setter tty_alive. Proof. set_tty tty_alive. Defined.
#[export] Instance set_tty_killed : Setter tty_killed. Proof. set_tty tty_killed. Defined.
#[export] Instance set_tty_busy : Setter tty_busy. Proof. set_tty tty_busy. Defined.
#[export] Instance set_answers : Setter answers. Proof. set_tty answers. Defined.
Arguments set_lines _ _ /.
Arguments set_pf _ _ /.
Arguments set_accepts _ _ /.
Arguments set_written _ _ /.
Arguments set_opens _ _ /.
Arguments set_asked _ _ /.
Arguments set_closed _ _ /.
Arguments set_no_stack _ _ /.
Arguments set_threads _ _ /.
Arguments set_tty_alive _ _ /.
Arguments set_tty_killed _ _ /.
Arguments set_tty_busy _ _ /.
Arguments set_answers _ _ /.

Definition no_req : vfs_req := mkReq 0 0 [] 0 0 0 [].
Definition zero_line : line := mkLine false 0 0 false false [] [] 0 no_req 0 false T_DATA 0 false 0 false.
Definition ln_at (i : nat) : prog tty line := λ s, match lines s !! i with Some L => Some (L, s) | None => None end.
Definition put_ln (i : nat) (L : line) : prog tty () := modify (λ s, s <| lines := <[i := L]> (lines s) |>).
Definition on_ln (i : nat) (f : line → line) : prog tty () := let* L := ln_at i in put_ln i (f L).
Definition tty_sys_alive (t : Z) (s : tty) : bool := bool_decide (t ∈ tty_alive s).
Definition tty_sys_kill (t : Z) : prog tty () := modify (λ s, s <| tty_killed := tty_killed s ++ [t] |>).

(** ** The device *)

(** One [vfs_write], which takes 512 bytes at most: how many the device
    took, negative when it is gone. *)
Definition tty_vfs_write (f : Z) (d : list Z) : prog tty Z := λ s,
  let d := take (Z.to_nat VFS_DATA_MAX) d in
  let '(k, rest) := match accepts s with [] => (Z.of_nat (length d), []) | k :: l => (Z.min k (Z.of_nat (length d)), l) end in
  Some (k, s <| accepts := rest |> <| written := if 0 <? k then written s ++ [(f, take (Z.to_nat k) d)] else written s |>).
Fixpoint dev_write_loop (n i : nat) (d : list Z) : prog tty () :=
  if (length d =? 0)%nat then pret ()
  else match n with
       | O => diverge
       | S n' =>
           let* L := ln_at i in
           let* k := tty_vfs_write (ln_raw L) d in
           if k <? 0 then put_ln i (L <| ln_dead := true |>)
           else dev_write_loop n' i (drop (Z.to_nat k) d)
       end.
(** Every turn uses up an answer or writes a byte. *)
Definition dev_write (i : nat) (d : list Z) : prog tty () :=
  let* n := gets (λ s, length (accepts s)) in dev_write_loop (n + length d) i d.

(** ** The discipline *)

Definition q_put (d : list Z) (L : line) : line :=
  L <| ln_q := ln_q L ++ take (Z.to_nat (TTY_QUEUE - Z.of_nat (length (ln_q L)))) d |>.
Definition CRLF : list Z := [13; 10].
Definition line_done (i : nat) : prog tty () :=
  let* _ := on_ln i (λ L, (q_put [10] (q_put (ln_buf L) L)) <| ln_buf := [] |>) in
  dev_write i CRLF.
Definition erase_one (i : nat) : prog tty () :=
  let* L := ln_at i in
  if (length (ln_buf L) =? 0)%nat then pret ()
  else
    let* _ := put_ln i (L <| ln_buf := removelast (ln_buf L) |>) in
    dev_write i [8; 32; 8].
(** [while (L->len && P(last character)) erase_one(L)]; the line has at most
    [n] characters. *)
Fixpoint erase_while (n i : nat) (p : Z → bool) : prog tty () :=
  let* L := ln_at i in
  match list.last (ln_buf L) with
  | None => pret ()
  | Some c =>
      if p c then
        match n with O => diverge | S n' => let* _ := erase_one i in erase_while n' i p end
      else pret ()
  end.
Definition erase_line (i : nat) : prog tty () := erase_while (Z.to_nat TTY_LINE) i (λ _, true).
Definition erase_word (i : nat) : prog tty () :=
  let* _ := erase_while (Z.to_nat TTY_LINE) i (λ c, c =? 32) in
  erase_while (Z.to_nat TTY_LINE) i (λ c, negb (c =? 32)).

(** The telnet part of [feed_byte]: [true] when the byte is data. *)
Definition feed_telnet (i : nat) (c : Z) : prog tty bool :=
  let* L := ln_at i in
  let go x (b : bool) := let* _ := on_ln i (λ L, L <| ln_tstate := x |>) in pret b in
  match ln_tstate L with
  | T_IAC =>
      if c =? IAC then go T_DATA true
      else if (c =? WILL) || (c =? WONT) || (c =? DO) || (c =? DONT) then
        let* _ := put_ln i (L <| ln_tcmd := c |> <| ln_tstate := T_OPT |>) in pret false
      else if c =? SBo then go T_SB false
      else go T_DATA false
  | T_OPT =>
      let* _ := (if (ln_tcmd L =? WILL) || (ln_tcmd L =? DO)
                 then dev_write i [IAC; if ln_tcmd L =? WILL then DONT else WONT; c] else pret ()) in
      go T_DATA false
  | T_SB => if c =? IAC then go T_SB_IAC false else pret false
  | T_SB_IAC => go (if c =? SEo then T_DATA else T_SB) false
  | T_DATA => if c =? IAC then go T_IAC false else pret true
  end.
Definition feed_raw (i : nat) (c : Z) : prog tty bool :=
  let* L := ln_at i in
  if ln_after_cr L && ((c =? 0) || (c =? 10)) then
    let* _ := put_ln i (L <| ln_after_cr := false |>) in pret false
  else
    let* _ := put_ln i (q_put [c] (L <| ln_after_cr := c =? 13 |>)) in pret true.
Definition CTRL_C_ECHO : list Z := [94; 67; 13; 10].
Definition feed_cooked (i : nat) (c : Z) : prog tty bool :=
  let* L := ln_at i in
  if (c =? 13) || (c =? 10) then let* _ := line_done i in pret true
  else if c =? 0 then pret false
  else if c =? 3 then let* _ := erase_line i in let* _ := dev_write i CTRL_C_ECHO in pret false
  else if c =? 4 then
    let* _ := put_ln i (if (length (ln_buf L) =? 0)%nat then L <| ln_dead := true |>
                        else (q_put (ln_buf L) L) <| ln_buf := [] |>) in
    pret true
  else if (c =? 8) || (c =? 127) then let* _ := erase_one i in pret false
  else if c =? 21 then let* _ := erase_line i in pret false
  else if c =? 23 then let* _ := erase_word i in pret false
  else if (32 <=? c) && (Z.of_nat (length (ln_buf L)) <? TTY_LINE - 1) then
    let* _ := put_ln i (L <| ln_buf := ln_buf L ++ [c] |>) in
    let* _ := dev_write i [c] in
    pret false
  else pret false.
(** A byte that is not telnet's. *)
Definition feed_data (i : nat) (c : Z) : prog tty bool :=
  let* L := ln_at i in
  if (c =? 3) && (0 <? ln_intr_task L) then
    let* live := gets (tty_sys_alive (ln_intr_task L)) in
    let* _ := (if live : bool then tty_sys_kill (ln_intr_task L) else pret ()) in
    let* _ := put_ln i (L <| ln_intr_task := 0 |> <| ln_intr_fired := true |>) in
    let* _ := dev_write i CTRL_C_ECHO in
    let* _ := on_ln i (λ L, L <| ln_buf := [] |>) in
    pret false
  else if ln_rawmode L then feed_raw i c
  else feed_cooked i c.
Definition feed_byte (i : nat) (c : Z) : prog tty bool :=
  let* go := feed_telnet i c in
  if go : bool then feed_data i c else pret false.
Fixpoint feed_bytes (i : nat) (d : list Z) : prog tty bool :=
  match d with
  | [] => pret false
  | c :: d' => let* a := feed_byte i c in let* b := feed_bytes i d' in pret (a || b)
  end.
(** What the reader thread does with one answer of its device, [None] when
    there is none: whether the main loop is to be told, and whether the
    thread ends. *)
Definition reader (i : nat) (got : option (list Z)) : prog tty (bool * bool) :=
  let* wake :=
    match got with
    | None | Some [] =>
        let* L := ln_at i in
        let* live := gets (tty_sys_alive (ln_intr_task L)) in
        let* _ := (if (0 <? ln_intr_task L) && live then tty_sys_kill (ln_intr_task L) else pret ()) in
        let* _ := put_ln i (L <| ln_intr_task := 0 |> <| ln_dead := true |>) in
        pret true
    | Some d => feed_bytes i d
    end in
  let* L := ln_at i in
  pret (wake, ln_dead L).

(** ** Lines *)

Definition find_line (p : line → bool) (s : tty) : option nat :=
  find_from (λ k, p (nth k (lines s) zero_line)) 0 NLINE.
(** Each of these takes the next answer of the surroundings. *)
Definition tty_vfs_open (p : list Z) : prog tty Z := λ s,
  let s := s <| asked := asked s ++ [p] |> in
  match opens s with [] => Some (-1, s) | f :: l => Some (f, s <| opens := l |>) end.
Definition tty_vfs_close (f : Z) : prog tty () := modify (λ s, s <| closed := closed s ++ [f] |>).
Definition malloc_stack : prog tty bool := λ s,
  match no_stack s with [] => Some (true, s) | b :: l => Some (negb b, s <| no_stack := l |>) end.
Definition tty_sys_thread : prog tty Z := λ s,
  match threads s with [] => Some (-1, s) | t :: l => Some (t, s <| threads := l |>) end.
Definition line_new (path : list Z) (owner : Z) : prog tty (option nat) :=
  let* s := gets id in
  match (match find_line (λ L, negb (ln_used L)) s with
         | Some k => Some k
         | None => find_line (λ L, ln_used L && negb (tty_sys_alive (ln_owner L) s)) s
         end) with
  | None => pret None
  | Some i =>
      let* L := ln_at i in
      let L := zero_line <| ln_stack := ln_stack L |> <| ln_waiter := -1 |> <| ln_owner := owner |> in
      let* f := tty_vfs_open path in
      let L := L <| ln_raw := f |> in
      if f <? 0 then let* _ := put_ln i L in pret None
      else
        let* got := (if ln_stack L then pret true else malloc_stack) in
        let L := L <| ln_stack := got |> in
        if negb got then let* _ := put_ln i L in let* _ := tty_vfs_close f in pret None
        else
          let* t := tty_sys_thread in
          let* _ := put_ln i (L <| ln_used := negb (t <? 0) |> <| ln_thread := t |>) in
          if t <? 0 then let* _ := tty_vfs_close f in pret None
          else pret (Some i)
  end.
Definition line_close (i : nat) : prog tty () :=
  let* L := ln_at i in
  if negb (ln_used L) then pret ()
  else
    let* _ := tty_vfs_close (ln_raw L) in
    put_ln i (L <| ln_dead := true |> <| ln_used := false |>).

(** ** Answering *)

(** One line at most, and all of it when there is no newline. *)
Fixpoint first_line (q : list Z) : nat :=
  match q with [] => 0 | c :: q' => if c =? 10 then 1 else S (first_line q') end.
(** [take]: the answered request, with [result] set as every caller does. *)
Definition tty_take (i : nat) (r : vfs_req) : prog tty vfs_req :=
  let* L := ln_at i in
  let n := Z.of_nat (if ln_rawmode L then length (ln_q L) else first_line (ln_q L)) in
  let n := if len r <? n then len r else n in
  if 0 <? n then
    if VFS_DATA_MAX <? n then diverge
    else
      let k := Z.to_nat n in
      let* _ := put_ln i (L <| ln_q := drop k (ln_q L) |>) in
      pret (r <| data := take k (ln_q L) ++ drop k (data r) |> <| result := n |>)
  else pret (r <| result := n |>).
Definition tty_sys_send (t : Z) (r : vfs_req) : prog tty () :=
  modify (λ s, s <| answers := answers s ++ [(t, r)] |>).
Definition tty_sys_trysend (t : Z) (r : vfs_req) : prog tty bool :=
  let* busy := gets (λ s, bool_decide (t ∈ tty_busy s)) in
  if busy : bool then pret false else let* _ := tty_sys_send t r in pret true.
Definition serve_line (i : nat) : prog tty () :=
  let* L := ln_at i in
  if negb (ln_used L) || (ln_waiter L <? 0) then pret ()
  else if (length (ln_q L) =? 0)%nat && negb (ln_dead L) then pret ()
  else
    let* live := gets (tty_sys_alive (ln_waiter L)) in
    if negb live then put_ln i (L <| ln_waiter := -1 |>)
    else
      let* r := tty_take i (ln_req L) in
      let* _ := on_ln i (λ L, L <| ln_req := r |>) in
      let* ok := tty_sys_trysend (ln_waiter L) r in
      if ok : bool then on_ln i (λ L, L <| ln_waiter := -1 |>) else pret ().
Fixpoint serve_lines (i n : nat) : prog tty () :=
  match n with O => pret () | S n' => let* _ := serve_line i in serve_lines (S i) n' end.
Definition serve_parked : prog tty () := serve_lines 0 NLINE.

(** ** The files *)

Definition NPF : nat := 4.
Definition FD_PF0 : Z := 1.
Definition FD_LINE0 : Z := 16.
Definition zero_tfile : tfile := mkTfile false 0 [] 0.
Definition pf_alloc (owner : Z) : prog tty (option nat) :=
  let* s := gets id in
  let at_ k := nth k (pf s) zero_tfile in
  match (match find_from (λ k, negb (tf_used (at_ k))) 0 NPF with
         | Some k => Some k
         | None => find_from (λ k, tf_used (at_ k) && negb (tty_sys_alive (tf_owner (at_ k)) s)) 0 NPF
         end) with
  | None => pret None
  | Some k => let* _ := modify (λ s, s <| pf := <[k := mkTfile true owner [] 0]> (pf s) |>) in pret (Some k)
  end.
Fixpoint is_name (p name : list Z) : bool :=
  match name, p with
  | [], [] => true
  | [], c :: p' => (c =? 47) && (length p' =? 0)%nat
  | c :: name', d :: p' => (c =? d) && is_name p' name'
  | _ :: _, [] => false
  end.
(** A path shorter than the prefix reads the bytes behind its NUL, taken to
    be NULs too. *)
Definition path_line (p : list Z) : Z :=
  match drop 5 p with
  | c :: _ => if is_digit c then let '(v, _) := digits i32 (drop 5 p) 0 in if v <? Z.of_nat NLINE then v else -1 else -1
  | [] => -1
  end.
Fixpoint dir_lines (l : list line) (i : nat) (cap : Z) (o : list Z) : list Z :=
  match l with
  | [] => o
  | L :: l' =>
      if Z.of_nat (length o) <? cap - 16 then
        dir_lines l' (S i) cap (if ln_used L then o ++ str "- 0 " ++ uutoa (Z.of_nat i) ++ [10] else o)
      else o
  end.
Definition TTY_BUF : Z := 256.
Definition format_dir (s : tty) (cap : Z) : list Z :=
  dir_lines (lines s) 0 cap (str "- 0 ctl" ++ [10]).
(** The command is read where it lies, in the 512 bytes of the request, and
    a read past them is a fault: [None]. *)
Fixpoint ctl_spaces (t : list Z) : list Z :=
  match t with c :: t' => if c =? 32 then ctl_spaces t' else t | [] => [] end.
Fixpoint ctl_path (n : nat) (t : list Z) {struct t} : option (list Z) :=
  match t with
  | [] => None
  | c :: t' =>
      if (c =? 0) || (c =? 10) then Some []
      else match n with O => Some [] | S n' => (c ::.) <$> ctl_path n' t' end
  end.
Definition do_ctl (cmd : list Z) (from : Z) : prog tty (list Z) :=
  if bool_decide (take 3 cmd = str "new") then
    match ctl_path 127 (ctl_spaces (drop 3 cmd)) with
    | None => diverge
    | Some p =>
        let* i := line_new p from in
        pret (match i with
              | None => str "error no line" ++ [10]
              | Some i => str "ok " ++ uutoa (Z.of_nat i) ++ [10]
              end)
    end
  else if bool_decide (take 2 cmd = str "cl") then
    let v := digits i32 (ctl_spaces (drop 5 cmd)) 0 in
    if (length v.2 =? 0)%nat then diverge
    else
      let* s := gets id in
      if (v.1 <? 0) || (Z.of_nat NLINE <=? v.1) || negb (ln_used (nth (Z.to_nat v.1) (lines s) zero_line))
      then pret (str "error no such line" ++ [10])
      else let* _ := line_close (Z.to_nat v.1) in pret (str "ok" ++ [10])
  else pret (str "error syntax" ++ [10]).

(** ** The main loop *)

Definition pf_of (f : Z) : option nat :=
  if (FD_PF0 <=? f) && (f <? FD_PF0 + Z.of_nat NPF) then Some (Z.to_nat (f - FD_PF0)) else None.
Definition line_of (f : Z) (s : tty) : option nat :=
  let i := i32 (f - FD_LINE0) in
  if (i <? 0) || (Z.of_nat NLINE <=? i) || negb (ln_used (nth (Z.to_nat i) (lines s) zero_line))
  then None else Some (Z.to_nat i).
Definition put_pf (k : nat) (f : tfile) : prog tty () := modify (λ s, s <| pf := <[k := f]> (pf s) |>).
Definition tty_open (from : Z) (r : vfs_req) : prog tty vfs_req :=
  let dir := is_name (path r) (str "/tty") in
  if dir || str_has_prefix (path r) (str "/tty/ctl") then
    let* o := pf_alloc from in
    match o with
    | None => pret (r <| result := -1 |>)
    | Some k =>
        let* s := gets id in
        let* _ := (if dir then put_pf k ((nth k (pf s) zero_tfile) <| tf_buf := format_dir s TTY_BUF |>) else pret ()) in
        pret (r <| result := FD_PF0 + Z.of_nat k |>)
    end
  else
    let i := path_line (path r) in
    let* s := gets id in
    pret (r <| result := if (0 <=? i) && ln_used (nth (Z.to_nat i) (lines s) zero_line) then FD_LINE0 + i else -1 |>).
(** [None] when the reader is parked. *)
Definition tty_read (from : Z) (r : vfs_req) : prog tty (option vfs_req) :=
  let* s := gets id in
  match pf_of (fd r) with
  | Some k =>
      let f := nth k (pf s) zero_tfile in
      let n := Z.of_nat (length (tf_buf f)) - tf_pos f in
      let n := if len r <? n then len r else n in
      let n := if n <? 0 then 0 else n in
      let t := take (Z.to_nat n) (drop (Z.to_nat (tf_pos f)) (tf_buf f)) in
      let* _ := put_pf k (f <| tf_pos := tf_pos f + n |>) in
      pret (Some (r <| data := t ++ drop (length t) (data r) |> <| result := n |>))
  | None =>
      match line_of (fd r) s with
      | None => pret (Some (r <| result := -1 |>))
      | Some i =>
          let* L := ln_at i in
          if negb (length (ln_q L) =? 0)%nat || ln_dead L then let* r' := tty_take i r in pret (Some r')
          else let* _ := put_ln i (L <| ln_waiter := from |> <| ln_req := r |>) in pret None
      end
  end.
Definition tty_write (from : Z) (r : vfs_req) : prog tty vfs_req :=
  let* s := gets id in
  match pf_of (fd r) with
  | Some k =>
      let* t := do_ctl (data r) from in
      let* _ := modify (λ s, s <| pf := alter (λ f, f <| tf_buf := t |> <| tf_pos := 0 |>) k (pf s) |>) in
      pret (r <| data := t ++ drop (length t) (data r) |> <| result := Z.of_nat (length t) |>)
  | None =>
      match line_of (fd r) s with
      | None => pret (r <| result := -1 |>)
      | Some i =>
          if Z.of_nat (length (data r)) <? len r then diverge
          else let* _ := dev_write i (take (Z.to_nat (len r)) (data r)) in pret (r <| result := len r |>)
      end
  end.
Definition tty_close (r : vfs_req) : prog tty vfs_req :=
  let* _ := match pf_of (fd r) with
            | Some k => modify (λ s, s <| pf := alter (λ f, f <| tf_used := false |>) k (pf s) |>)
            | None => pret ()
            end in
  pret (r <| result := 0 |>).
Definition is_thread (from : Z) (s : tty) : bool :=
  existsb (λ L, ln_used L && (ln_thread L =? from)) (lines s).

Section texts.
(** The two descriptions the server gives of itself. *)
Context (tty_doc tty_conf : list Z).

Definition tty_ioctl (r : vfs_req) : prog tty vfs_req :=
  if ioctl_cmd r =? IOCTL_PING then pret (r <| result := 0 |>)
  else if ioctl_cmd r =? IOCTL_DOC then pret (vfs_doc_reply r tty_doc)
  else if ioctl_cmd r =? IOCTL_CONF then pret (vfs_doc_reply r tty_conf)
  else
    let* s := gets id in
    match line_of (fd r) s with
    | None => pret (r <| result := -1 |>)
    | Some i =>
        let* L := ln_at i in
        if ioctl_cmd r =? IOCTL_INTR then
          let* _ := put_ln i (L <| ln_intr_task := if 0 <? len r then len r else 0 |> <| ln_intr_fired := false |>) in
          pret (r <| result := if 0 <? len r then 0 else if ln_intr_fired L then 1 else 0 |>)
        else if ioctl_cmd r =? IOCTL_TTYMODE then
          let* _ := put_ln i (L <| ln_rawmode := negb (len r =? 0) |> <| ln_buf := [] |>) in
          pret (r <| result := 0 |>)
        else pret (r <| result := -1 |>)
    end.
(** What the main loop does with one message. *)
Definition tty_turn (from : Z) (r : vfs_req) : prog tty () :=
  let* poke := gets (is_thread from) in
  if poke : bool then serve_parked
  else
    let* a :=
      if op r =? VFS_OPEN then let* r' := tty_open from r in pret (Some r')
      else if op r =? VFS_READ then tty_read from r
      else if op r =? VFS_WRITE then let* r' := tty_write from r in pret (Some r')
      else if op r =? VFS_IOCTL then let* r' := tty_ioctl r in pret (Some r')
      else if op r =? VFS_CLOSE then let* r' := tty_close r in pret (Some r')
      else pret (Some (r <| result := -1 |>)) in
    match a with None => pret () | Some r' => tty_sys_send from r' end.
End texts.

(** The server as it comes up: no lines, no files. *)
Definition tty_up (s : tty) : tty :=
  s <| lines := repeat (zero_line <| ln_waiter := -1 |>) NLINE |> <| pf := repeat zero_tfile NPF |>.
