(* ===== verification/TtyEdit.v ===== *)
(** * Typing at a terminal: the discipline against an abstract editor

    A reference for what a terminal is to do with what is typed - an editor
    that takes keys one at a time, and a grammar of the telnet stream the
    keys arrive in - and that [feed_byte] does just that, however the stream
    is cut into reads. *)
From stdpp Require Import base list numbers option.
From S2P Require Import Prelude Mem Req Tty.
Local Open Scope Z_scope.

(** ** The editor *)

(** What is being typed, everything finished so far, and whether the end of
    the file was typed. *)
Record editor := mkEditor { typing : list Z; finished : list Z; ended : bool }.
Fixpoint drop_while (p : Z → bool) (l : list Z) : list Z :=
  match l with c :: l' => if p c then drop_while p l' else l | [] => [] end.
(** [b] without the characters at its end that satisfy [p]. *)
Definition trim (p : Z → bool) (b : list Z) : list Z := rev (drop_while p (rev b)).
Definition without_word (b : list Z) : list Z := trim (λ c, negb (c =? 32)) (trim (λ c, c =? 32) b).
Definition keystroke (e : editor) (c : Z) : editor :=
  let '(mkEditor b out x) := e in
  if (c =? 13) || (c =? 10) then mkEditor [] (out ++ b ++ [10]) x
  else if c =? 4 then mkEditor [] (out ++ b) (x || (length b =? 0)%nat)
  else if (c =? 3) || (c =? 21) then mkEditor [] out x
  else if (c =? 8) || (c =? 127) then mkEditor (removelast b) out x
  else if c =? 23 then mkEditor (without_word b) out x
  else if (32 <=? c) && (length b <? 255)%nat then mkEditor (b ++ [c]) out x
  else e.
Definition edit (keys : list Z) : editor := foldl keystroke (mkEditor [] [] false) keys.

Lemma trim_snoc p b c : trim p (b ++ [c]) = if p c then trim p b else b ++ [c].
Proof. unfold trim. rewrite rev_app_distr. simpl. destruct (p c); [done|]. simpl. by rewrite rev_involutive. Qed.
Lemma trim_length p b : (length (trim p b) ≤ length b)%nat.
Proof.
  induction b as [|c b IH] using rev_ind; [done|]. rewrite trim_snoc. destruct (p c); [|done].
  rewrite length_app. lia.
Qed.
Lemma trim_all b : trim (λ _, true) b = [].
Proof. induction b as [|c b IH] using rev_ind; [done|]. by rewrite trim_snoc. Qed.

(** ** The stream *)

(** What travels on a telnet connection: keys, the offer or refusal of an
    option, the details of one, and other commands. *)
Inductive item := Key (c : Z) | Option_ (cmd opt : Z) | Details (d : list Z) | Command (c : Z).
Definition doubled (c : Z) : list Z := if c =? IAC then [IAC; IAC] else [c].
Definition encode_item (x : item) : list Z :=
  match x with
  | Key c => doubled c
  | Option_ cmd o => [IAC; cmd; o]
  | Details d => [IAC; SBo] ++ concat (doubled <$> d) ++ [IAC; SEo]
  | Command c => [IAC; c]
  end.
Definition encode (l : list item) : list Z := concat (encode_item <$> l).
Definition is_option (c : Z) : bool := (c =? WILL) || (c =? WONT) || (c =? DO) || (c =? DONT).
Definition item_ok (x : item) : bool :=
  match x with
  | Option_ cmd _ => is_option cmd
  | Command c => negb (is_option c) && negb (c =? IAC) && negb (c =? SBo)
  | _ => true
  end.
Definition keys_of (l : list item) : list Z :=
  concat ((λ x, match x with Key c => [c] | _ => [] end) <$> l).

(** The stream byte by byte: the next state, and the key if there is one. *)
Definition decode_byte (st : telnet_state) (c : Z) : telnet_state * list Z :=
  match st with
  | T_IAC => if c =? IAC then (T_DATA, [c]) else if is_option c then (T_OPT, [])
             else if c =? SBo then (T_SB, []) else (T_DATA, [])
  | T_OPT => (T_DATA, [])
  | T_SB => (if c =? IAC then T_SB_IAC else T_SB, [])
  | T_SB_IAC => (if c =? SEo then T_DATA else T_SB, [])
  | T_DATA => if c =? IAC then (T_IAC, []) else (T_DATA, [c])
  end.
Fixpoint decode (st : telnet_state) (d : list Z) : telnet_state * list Z :=
  match d with
  | [] => (st, [])
  | c :: d' => let '(st1, k1) := decode_byte st c in let '(st2, k2) := decode st1 d' in (st2, k1 ++ k2)
  end.
Lemma decode_app st d1 d2 :
  decode st (d1 ++ d2) =
    ((decode (decode st d1).1 d2).1, (decode st d1).2 ++ (decode (decode st d1).1 d2).2).
Proof.
  revert st. induction d1 as [|c d1 IH]; intros st; simpl; [by destruct (decode st d2)|].
  destruct (decode_byte st c) as [st1 k1] eqn:E. rewrite IH.
  destruct (decode st1 d1) as [st2 k2] eqn:E2; simpl. destruct (decode st2 d2) as [st3 k3]; simpl.
  by rewrite app_assoc.
Qed.
Lemma decode_details d : decode T_SB (concat (doubled <$> d)) = (T_SB, []).
Proof.
  induction d as [|c d IH]; [done|]. cbn [fmap list_fmap concat]. rewrite decode_app.
  assert (decode T_SB (doubled c) = (T_SB, [])) as ->.
  { unfold doubled. destruct (Z.eqb_spec c IAC) as [->|Hc]; [done|].
    cbn. by rewrite (proj2 (Z.eqb_neq _ _) Hc). }
  cbn [fst snd]. by rewrite IH.
Qed.
Lemma decode_item x : item_ok x = true → decode T_DATA (encode_item x) = (T_DATA, keys_of [x]).
Proof.
  destruct x as [c|cmd o|d|c]; intros H; unfold keys_of; cbn [fmap list_fmap concat app] in *.
  - unfold encode_item, doubled. destruct (Z.eqb_spec c IAC) as [->|Hc]; [done|].
    cbn. by rewrite (proj2 (Z.eqb_neq _ _) Hc).
  - simpl in *. destruct (Z.eqb_spec cmd IAC) as [->|]; [done|]. by rewrite H.
  - cbn [encode_item]. rewrite decode_app. cbn. by rewrite decode_app, decode_details.
  - cbn in *. destruct (c =? IAC), (is_option c), (c =? SBo); try done.
Qed.
Lemma decode_encode l : forallb item_ok l = true → decode T_DATA (encode l) = (T_DATA, keys_of l).
Proof.
  induction l as [|x l IH]; [done|]. cbn [forallb]. intros [H1 H2]%andb_prop.
  unfold encode. cbn [fmap list_fmap concat]. rewrite decode_app, (decode_item x H1).
  cbn [fst snd]. fold (encode l). rewrite (IH H2). unfold keys_of. cbn. by rewrite app_nil_r.
Qed.

(** ** What the code does to its line *)

(** [s] with the line [i] now [L] and the writes [w] done. *)
Definition upd (i : nat) (L : line) (w : list (Z * list Z)) (s : tty) : tty :=
  s <| lines := <[i := L]> (lines s) |> <| written := written s ++ w |>.

Lemma upd_same i s L : lines s !! i = Some L → s = upd i L [] s.
Proof. intros H. unfold upd. destruct s; simpl in *. rewrite list_insert_id by done. by rewrite app_nil_r. Qed.

Section line.
Context (i : nat) (s : tty).
Hypothesis Hi : (i < length (lines s))%nat.
Hypothesis Hacc : accepts s = [].

Lemma ln_at_upd L w : ln_at i (upd i L w s) = Some (L, upd i L w s).
Proof. unfold ln_at. simpl. by rewrite list_lookup_insert_eq. Qed.
Lemma put_ln_upd L L' w : put_ln i L' (upd i L w s) = Some ((), upd i L' w s).
Proof. unfold put_ln, modify, upd. simpl. by rewrite list_insert_insert_eq. Qed.
Lemma on_ln_upd f L w : on_ln i f (upd i L w s) = Some ((), upd i (f L) w s).
Proof. unfold on_ln. rewrite (pbind_eq _ _ _ _ _ (ln_at_upd L w)). apply put_ln_upd. Qed.
(** A short write to a device that takes all of it. *)
Lemma dev_write_upd d L w :
  (0 < length d)%nat → Z.of_nat (length d) ≤ VFS_DATA_MAX →
  dev_write i d (upd i L w s) = Some ((), upd i L (w ++ [(ln_raw L, d)]) s).
Proof.
  intros H0 H1. destruct d as [|x d]; [simpl in H0; lia|]. unfold dev_write.
  rewrite (pbind_eq _ _ _ (length (accepts s)) (upd i L w s)) by done. rewrite Hacc. cbn [length Nat.add dev_write_loop].
  change (S (length d) =? 0)%nat with false. cbn iota. rewrite (pbind_eq _ _ _ _ _ (ln_at_upd L w)).
  rewrite (pbind_eq _ _ _ (Z.of_nat (length (x :: d))) (upd i L (w ++ [(ln_raw L, x :: d)]) s)).
  - rewrite (proj2 (Z.ltb_ge _ _)) by lia. rewrite Nat2Z.id, drop_all. by destruct (length d).
  - unfold tty_vfs_write. rewrite (take_ge (x :: d)) by (unfold VFS_DATA_MAX in *; lia).
    unfold upd. cbn -[take length Z.of_nat]. rewrite Hacc. rewrite (proj2 (Z.ltb_lt _ _)) by (simpl; lia).
    by rewrite Nat2Z.id, firstn_all, <- app_assoc.
Qed.

(** [n] characters taken off the screen. *)
Definition rubs (f : Z) (n : nat) : list (Z * list Z) := repeat (f, [8; 32; 8]) n.
Lemma erase_one_upd L w b c :
  ln_buf L = b ++ [c] →
  erase_one i (upd i L w s) = Some ((), upd i (L <| ln_buf := b |>) (w ++ rubs (ln_raw L) 1) s).
Proof.
  intros Hb. unfold erase_one. rewrite (pbind_eq _ _ _ _ _ (ln_at_upd L w)).
  rewrite Hb, length_app, Nat.add_comm. simpl. rewrite (pbind_eq _ _ _ _ _ (put_ln_upd _ _ _)).
  rewrite removelast_last. rewrite dev_write_upd by (unfold VFS_DATA_MAX; simpl; lia). done.
Qed.
Lemma erase_while_upd p n L w :
  (length (ln_buf L) ≤ n)%nat →
  erase_while n i p (upd i L w s) =
    Some ((), upd i (L <| ln_buf := trim p (ln_buf L) |>)
                (w ++ rubs (ln_raw L) (length (ln_buf L) - length (trim p (ln_buf L)))) s).
Proof.
  revert L w. induction n as [|n IH]; intros L w Hn.
  all: destruct L as [? ? ? ? ? b ? ? ? ? ? ? ? ? ? ?]; simpl in Hn |- *; rewrite (pbind_eq _ _ _ _ _ (ln_at_upd _ w)); simpl.
  - destruct b; [|simpl in Hn; lia]. simpl. rewrite app_nil_r. done.
  - destruct b as [|c b _] using rev_ind; [by rewrite app_nil_r|].
    rewrite list.last_snoc, trim_snoc. rewrite length_app in Hn |- *. simpl in Hn |- *. destruct (p c) eqn:Ec.
    + erewrite pbind_eq by (apply (erase_one_upd _ w b c); reflexivity). rewrite IH by (simpl; lia). simpl.
      rewrite <- app_assoc. unfold rubs. rewrite <- repeat_app.
      pose proof (trim_length p b).
      replace (length b + 1 - length (trim p b))%nat with (1 + (length b - length (trim p b)))%nat by lia. done.
    + rewrite length_app. simpl. rewrite Nat.sub_diag. simpl. rewrite app_nil_r. done.
Qed.

(** ** One byte *)

Definition rub (n : nat) : list Z := concat (repeat [8; 32; 8] n).
Definition is_erase (c : Z) : bool := (c =? 8) || (c =? 127).
(** What the screen is sent for a key typed after [b]. *)
Definition echo_key (b : list Z) (c : Z) : list Z :=
  if (c =? 13) || (c =? 10) then CRLF
  else if c =? 4 then []
  else if c =? 3 then rub (length b) ++ CTRL_C_ECHO
  else if c =? 21 then rub (length b)
  else if is_erase c then rub (length b - length (removelast b))
  else if c =? 23 then rub (length b - length (without_word b))
  else if (32 <=? c) && (length b <? 255)%nat then [c]
  else [].
Definition cooked (L : line) : Prop := ln_rawmode L = false ∧ ln_intr_task L = 0 ∧ (length (ln_buf L) < 256)%nat.
Definition editor_of (L : line) : editor := mkEditor (ln_buf L) [] (ln_dead L).
(** [L] after the keys that leave the editor at [e], with the telnet side at
    [st] and [t]. *)
Definition after (e : editor) (st : telnet_state) (t : Z) (L : line) : line :=
  L <| ln_buf := typing e |> <| ln_q := ln_q L ++ finished e |> <| ln_dead := ended e |>
    <| ln_tstate := st |> <| ln_tcmd := t |>.
(** The writes [w] go to [L]'s device and put [d] on its screen. *)
Definition sent (L : line) (w : list (Z * list Z)) (d : list Z) : Prop :=
  Forall (λ x, x.1 = ln_raw L) w ∧ concat w.*2 = d.
Lemma sent_rubs L n : sent L (rubs (ln_raw L) n) (rub n).
Proof.
  unfold sent, rubs, rub. split.
  - apply Forall_forall. by intros x ->%repeat_spec.
  - induction n as [|n IH]; [done|]. cbn. cbn in IH. by rewrite IH.
Qed.
Lemma sent_nil L : sent L [] [].
Proof. done. Qed.
Lemma sent_one L d : sent L [(ln_raw L, d)] d.
Proof. split; [by apply list.Forall_singleton|]. simpl. by rewrite app_nil_r. Qed.
Lemma sent_app L w1 w2 d1 d2 : sent L w1 d1 → sent L w2 d2 → sent L (w1 ++ w2) (d1 ++ d2).
Proof.
  intros [H1 E1] [H2 E2]. split; [by apply list.Forall_app|]. by rewrite fmap_app, concat_app, E1, E2.
Qed.
Lemma q_put_fits d L :
  Z.of_nat (length (ln_q L) + length d) ≤ TTY_QUEUE → q_put d L = L <| ln_q := ln_q L ++ d |>.
Proof. intros H. unfold q_put. rewrite take_ge by lia. done. Qed.
(** What feeding a byte comes to. *)
Definition fed (w : list (Z * list Z)) (L : line) (m : option (bool * tty)) (e : editor) (st : telnet_state) (d : list Z) : Prop :=
  ∃ wake t w', m = Some (wake, upd i (after e st t L) (w ++ w') s) ∧ sent L w' d ∧
    (finished e ≠ [] → wake = true).
Ltac tty_run :=
  repeat (erewrite pbind_eq by
    first [apply ln_at_upd; assumption | apply put_ln_upd; assumption | apply on_ln_upd; assumption
          | apply dev_write_upd; first [assumption | unfold VFS_DATA_MAX; simpl; lia]
          | apply erase_while_upd; first [assumption | simpl; lia]
          | reflexivity]).
(** Taking characters off the end of what is typed. *)
Lemma erased_upd L w b k wake :
  fed w L (Some (wake, upd i (L <| ln_buf := b |>) (w ++ rubs (ln_raw L) k) s))
    (mkEditor b [] (ln_dead L)) (ln_tstate L) (rub k).
Proof.
  exists wake, (ln_tcmd L), (rubs (ln_raw L) k). split_and!; [|apply sent_rubs|done].
  unfold after. destruct L; simpl. by rewrite app_nil_r.
Qed.
Lemma line_done_upd L w :
  Z.of_nat (length (ln_q L) + length (ln_buf L ++ [10])) ≤ TTY_QUEUE →
  line_done i (upd i L w s) =
    Some ((), upd i (L <| ln_q := ln_q L ++ ln_buf L ++ [10] |> <| ln_buf := [] |>) (w ++ [(ln_raw L, CRLF)]) s).
Proof.
  rewrite length_app. cbn [length]. intros H. unfold line_done. tty_run. cbn beta.
  rewrite (q_put_fits (ln_buf L)) by lia. rewrite q_put_fits by (simpl; rewrite length_app; simpl; lia).
  rewrite dev_write_upd by first [assumption | simpl; lia | unfold VFS_DATA_MAX; simpl; lia].
  simpl. by rewrite <- app_assoc.
Qed.
Lemma erase_line_upd L w :
  (length (ln_buf L) < 256)%nat →
  erase_line i (upd i L w s) = Some ((), upd i (L <| ln_buf := [] |>) (w ++ rubs (ln_raw L) (length (ln_buf L))) s).
Proof.
  intros H. unfold erase_line. rewrite erase_while_upd by (unfold TTY_LINE; lia).
  by rewrite trim_all, Nat.sub_0_r.
Qed.
Lemma erase_word_upd L w :
  (length (ln_buf L) < 256)%nat →
  erase_word i (upd i L w s) =
    Some ((), upd i (L <| ln_buf := without_word (ln_buf L) |>)
      (w ++ rubs (ln_raw L) (length (ln_buf L) - length (without_word (ln_buf L)))) s).
Proof.
  intros H. unfold erase_word. erewrite pbind_eq by (apply erase_while_upd; unfold TTY_LINE; lia).
  pose proof (trim_length (λ c, c =? 32) (ln_buf L)).
  rewrite erase_while_upd by (unfold TTY_LINE; simpl; lia). simpl. rewrite <- app_assoc. unfold rubs.
  rewrite <- repeat_app. fold (without_word (ln_buf L)).
  pose proof (trim_length (λ c, negb (c =? 32)) (trim (λ c, c =? 32) (ln_buf L))) as H2. fold (without_word (ln_buf L)) in H2.
  do 4 f_equal. f_equal. lia.
Qed.
Lemma feed_cooked_upd L w c :
  cooked L → Z.of_nat (length (ln_q L) + length (finished (keystroke (editor_of L) c))) ≤ TTY_QUEUE →
  fed w L (feed_cooked i c (upd i L w s)) (keystroke (editor_of L) c) (ln_tstate L) (echo_key (ln_buf L) c).
Proof.
  intros (Hr & Ht & Hb) Hq. unfold feed_cooked, echo_key, is_erase. tty_run.
  unfold keystroke, editor_of in *.
  destruct ((c =? 13) || (c =? 10)) eqn:E1.
  { erewrite pbind_eq by (by apply line_done_upd).
    eexists true, (ln_tcmd L), _. split_and!; [|apply sent_one|done]. by destruct L. }
  destruct (Z.eqb_spec c 0) as [->|H0].
  { exists false, (ln_tcmd L), []. split_and!; [|apply sent_nil|by intros []].
    unfold after. destruct L; simpl. by rewrite !app_nil_r. }
  destruct (Z.eqb_spec c 3) as [->|H3].
  { erewrite pbind_eq by (by apply erase_line_upd). tty_run. rewrite <- app_assoc.
    eexists false, (ln_tcmd L), _. split_and!; [|apply sent_app; [apply sent_rubs|apply sent_one]|by intros []].
    unfold after. destruct L; simpl. by rewrite app_nil_r. }
  destruct (Z.eqb_spec c 4) as [->|H4].
  { simpl in Hq. rewrite q_put_fits by done. tty_run.
    eexists true, (ln_tcmd L), []. split_and!; [|apply sent_nil|done].
    unfold after. destruct L as [? ? ? ? ? [|x b]]; simpl; rewrite !app_nil_r; [by rewrite orb_true_r|by rewrite orb_false_r]. }
  destruct ((c =? 8) || (c =? 127)) eqn:E8.
  { replace ((c =? 3) || (c =? 21)) with false by lia. replace (c =? 21) with false by lia.
    destruct (ln_buf L) as [|x b _] eqn:Eb using rev_ind.
    - unfold erase_one. rewrite <- pbind_assoc. tty_run. rewrite Eb. tty_run.
      exists false, (ln_tcmd L), []. split_and!; [|apply sent_nil|by intros []].
      unfold after. destruct L; simpl in *. by rewrite !app_nil_r, Eb.
    - erewrite pbind_eq by (by eapply erase_one_upd). rewrite removelast_last, length_app.
      replace (length b + length [x] - length b)%nat with 1%nat by (simpl; lia). apply erased_upd. }
  replace (c =? 3) with false by lia.
  destruct (Z.eqb_spec c 21) as [->|H21]; cbn [orb].
  { erewrite pbind_eq by (by apply erase_line_upd). apply erased_upd. }
  destruct (Z.eqb_spec c 23) as [->|H23].
  { erewrite pbind_eq by (by apply erase_word_upd). apply erased_upd. }
  unfold TTY_LINE. replace (Z.of_nat (length (ln_buf L)) <? 256 - 1) with (length (ln_buf L) <? 255)%nat
    by (destruct (Nat.ltb_spec (length (ln_buf L)) 255), (Z.ltb_spec (Z.of_nat (length (ln_buf L))) (256 - 1)); lia || done).
  destruct ((32 <=? c) && (length (ln_buf L) <? 255)%nat) eqn:E32.
  - tty_run. eexists false, (ln_tcmd L), _. split_and!; [|apply sent_one|by intros []].
    unfold after. destruct L; simpl. by rewrite app_nil_r.
  - exists false, (ln_tcmd L), []. split_and!; [|apply sent_nil|by intros []].
    unfold after. destruct L; simpl. by rewrite !app_nil_r.
Qed.

(** What telnet is answered: every offer is refused. *)
Definition refusal (st : telnet_state) (t c : Z) : list Z :=
  match st with
  | T_OPT => if (t =? WILL) || (t =? DO) then [IAC; if t =? WILL then DONT else WONT; c] else []
  | _ => []
  end.
Definition echo_keys (b : list Z) (ks : list Z) : list Z := match ks with [] => [] | c :: _ => echo_key b c end.
Lemma no_key (L : line) (w w' : list (Z * list Z)) st t (d : list Z) : 
  sent L w' d → fed w L (Some (false, upd i (L <| ln_tstate := st |> <| ln_tcmd := t |>) (w ++ w') s)) (editor_of L) st d.
Proof.
  intros H. exists false, t, w'. split_and!; [|done|by intros []]. unfold after. destruct L; simpl. by rewrite app_nil_r.
Qed.
Lemma feed_data_upd L w c :
  cooked L → Z.of_nat (length (ln_q L) + length (finished (keystroke (editor_of L) c))) ≤ TTY_QUEUE →
  fed w L (feed_data i c (upd i L w s)) (keystroke (editor_of L) c) (ln_tstate L) (echo_key (ln_buf L) c).
Proof.
  intros Hc Hq. destruct (Hc) as (Hr & Ht & _). unfold feed_data. tty_run.
  rewrite Ht, andb_false_r, Hr. by apply feed_cooked_upd.
Qed.
Lemma fed_tstate L w m e x st d : fed w (L <| ln_tstate := x |>) m e st d → fed w L m e st d.
Proof. by destruct L. Qed.
Lemma feed_byte_upd L w c :
  cooked L →
  let '(st, ks) := decode_byte (ln_tstate L) c in
  let e := foldl keystroke (editor_of L) ks in
  Z.of_nat (length (ln_q L) + length (finished e)) ≤ TTY_QUEUE →
  fed w L (feed_byte i c (upd i L w s)) e st (refusal (ln_tstate L) (ln_tcmd L) c ++ echo_keys (ln_buf L) ks).
Proof.
  intros Hc. destruct (decode_byte (ln_tstate L) c) as [st ks] eqn:Ed. intros e Hq.
  unfold feed_byte, feed_telnet. rewrite <- pbind_assoc. tty_run. unfold decode_byte in Ed.
  assert (∀ x b, (let* go := (let* _ := on_ln i (λ L, L <| ln_tstate := x |>) in pret b) in
                  if go : bool then feed_data i c else pret false) (upd i L w s) =
                 (if b : bool then feed_data i c else pret false) (upd i (L <| ln_tstate := x |>) w s)) as Hgo.
  { intros x b. rewrite <- pbind_assoc. by tty_run. }
  assert (∀ x, fed w L (pret false (upd i (L <| ln_tstate := x |>) w s)) (editor_of L) x []) as Hno.
  { intros x. pose proof (no_key L w [] x (ln_tcmd L) [] (sent_nil L)) as H. rewrite app_nil_r in H. by destruct L. }
  destruct (ln_tstate L) eqn:Et; cbn [refusal app] in *.
  - destruct (c =? IAC); injection Ed as <- <-.
    + rewrite Hgo. apply Hno.
    + tty_run. cbn [app echo_keys]. rewrite <- Et. by apply feed_data_upd.
  - destruct (Z.eqb_spec c IAC) as [->|]; [injection Ed as <- <-; rewrite Hgo; apply (fed_tstate L w _ _ T_DATA); by apply feed_data_upd|].
    unfold is_option in Ed. destruct ((c =? WILL) || (c =? WONT) || (c =? DO) || (c =? DONT)).
    { injection Ed as <- <-. rewrite <- pbind_assoc. tty_run.
      pose proof (no_key L w [] T_OPT c [] (sent_nil L)) as H. rewrite app_nil_r in H. by destruct L. }
    destruct (c =? SBo); injection Ed as <- <-; rewrite Hgo; apply Hno.
  - injection Ed as <- <-. rewrite app_nil_r. destruct ((ln_tcmd L =? WILL) || (ln_tcmd L =? DO)).
    + rewrite <- pbind_assoc. tty_run. rewrite <- pbind_assoc. tty_run.
      pose proof (no_key L w _ T_DATA (ln_tcmd L) _ (sent_one L [IAC; if ln_tcmd L =? WILL then DONT else WONT; c])) as H. by destruct L.
    + rewrite <- pbind_assoc. tty_run. rewrite <- pbind_assoc. tty_run. apply Hno.
  - destruct (c =? IAC); injection Ed as <- <-; [rewrite Hgo; apply Hno|].
    tty_run. rewrite <- Et. pose proof (Hno (ln_tstate L)) as H. by destruct L.
  - injection Ed as <- <-. rewrite Hgo. apply Hno.
Qed.
End line.
