(* ===== verification/TtyRun.v ===== *)
(** * A session at a terminal

    The reader thread, the main loop and a client that reads, in any order:
    the client gets the lines as the abstract editor of TtyEdit.v leaves
    them, one at a time, and the screen shows the line being typed. *)
From stdpp Require Import base list numbers option.
From S2P Require Import Prelude Mem Req Tty TtyEdit.
Local Open Scope Z_scope.

(** ** The editor, key after key *)

(** [e] with [o] finished before it. *)
Definition later (o : list Z) (e : editor) : editor := mkEditor (typing e) (o ++ finished e) (ended e).
Lemma keystroke_later o e c : keystroke (later o e) c = later o (keystroke e c).
Proof.
  destruct e as [b out x]. unfold later, keystroke; simpl.
  split_ifs; simpl; by rewrite <- ?app_assoc.
Qed.
Lemma keystrokes_later o e ks : foldl keystroke (later o e) ks = later o (foldl keystroke e ks).
Proof. revert e. induction ks as [|c ks IH]; intros e; [done|]. cbn [foldl]. by rewrite keystroke_later, IH. Qed.
Lemma finished_grows e ks : finished e `prefix_of` finished (foldl keystroke e ks).
Proof.
  destruct e as [b out x].
  replace (mkEditor b out x) with (later out (mkEditor b [] x)) by (unfold later; simpl; by rewrite app_nil_r).
  rewrite keystrokes_later. unfold later; simpl. rewrite app_nil_r. by apply prefix_app_r.
Qed.
Lemma trim_shorter b : (length (without_word b) ≤ length b)%nat.
Proof. unfold without_word. etrans; apply trim_length. Qed.
Lemma typing_bounded e c : (length (typing e) < 256)%nat → (length (typing (keystroke e c)) < 256)%nat.
Proof.
  destruct e as [b out x]. simpl. intros H. unfold keystroke. split_ifs; simpl; try lia.
  - pose proof (removelast_firstn_len b) as ->. rewrite length_take. lia.
  - pose proof (trim_shorter b). lia.
  - rewrite length_app. simpl. apply andb_prop in E4 as [_ E4%Nat.ltb_lt]. lia.
Qed.

(** ** The screen *)

(** The row the cursor is on, left and right of it, as a telnet client
    draws it; [g_skip] bytes of a command are still to come.  Rows do not
    end. *)
Record glass := mkGlass { g_left : list Z; g_right : list Z; g_skip : nat }.
Definition glass_byte (g : glass) (c : Z) : glass :=
  let '(mkGlass l r k) := g in
  match k with
  | S k' => mkGlass l r k'
  | O =>
      if c =? IAC then mkGlass l r 2
      else if c =? 8 then
        match list.last l with Some x => mkGlass (removelast l) (x :: r) 0 | None => g end
      else if c =? 13 then mkGlass [] (l ++ r) 0
      else if c =? 10 then mkGlass (repeat 32 (length l)) [] 0
      else mkGlass (l ++ [c]) (tail r) 0
  end.
Definition blank : glass := mkGlass [] [] 0.
(** The row holds [b] and the cursor stands behind it. *)
Definition shows (b : list Z) (g : glass) : Prop :=
  g_left g = b ∧ Forall (λ c, c = 32) (g_right g) ∧ g_skip g = 0%nat.
Lemma shows_type b g c : shows b g → c ≠ IAC → 32 ≤ c → shows (b ++ [c]) (foldl glass_byte g [c]).
Proof.
  destruct g as [l r k]; intros (<- & Hr & [= ->]) Hc Hp; simpl in *.
  rewrite (proj2 (Z.eqb_neq _ _) Hc). replace (c =? 8) with false by lia. replace (c =? 13) with false by lia.
  replace (c =? 10) with false by lia. split_and!; [done| |done]. simpl. by destruct Hr.
Qed.
Lemma shows_rub b c g : shows (b ++ [c]) g → shows b (foldl glass_byte g [8; 32; 8]).
Proof.
  destruct g as [l r k]; intros (H & Hr & [= ->]). simpl in *. subst l. rewrite list.last_snoc, removelast_last. simpl.
  rewrite list.last_snoc, removelast_last. split_and!; [done| |done]. by constructor.
Qed.
Lemma shows_rubs b d g : shows (b ++ d) g → shows b (foldl glass_byte g (rub (length d))).
Proof.
  revert g. induction d as [|c d IH] using rev_ind; intros g H; [by rewrite app_nil_r in H|].
  rewrite length_app, Nat.add_comm. unfold rub. cbn [length Nat.add repeat concat]. rewrite foldl_app. apply IH.
  rewrite app_assoc in H. by eapply shows_rub.
Qed.
Lemma shows_prefix b b' g :
  b' `prefix_of` b → shows b g → shows b' (foldl glass_byte g (rub (length b - length b'))).
Proof. intros [d ->] H. rewrite length_app, Nat.add_comm, Nat.add_sub. by apply shows_rubs. Qed.
Lemma shows_newline b g : shows b g → shows [] (foldl glass_byte g CRLF).
Proof. destruct g as [l r k]; intros (H & Hr & [= ->]). done. Qed.
Lemma trim_prefix p b : trim p b `prefix_of` b.
Proof.
  induction b as [|c b IH] using rev_ind; [done|]. rewrite trim_snoc. destruct (p c); [|done].
  etrans; [done|]. by apply prefix_app_r.
Qed.
Lemma removelast_prefix (b : list Z) : removelast b `prefix_of` b.
Proof. destruct b as [|c b _] using rev_ind; [done|]. rewrite removelast_last. by apply prefix_app_r. Qed.
Definition plain_key (c : Z) : bool := negb (c =? IAC) && negb (c =? 4).
Lemma shows_key b out x g c :
  plain_key c = true → shows b g → shows (typing (keystroke (mkEditor b out x) c)) (foldl glass_byte g (echo_key b c)).
Proof.
  intros [Hi%negb_true_iff%Z.eqb_neq Hd%negb_true_iff%Z.eqb_neq]%andb_prop H. unfold keystroke, echo_key, is_erase.
  destruct ((c =? 13) || (c =? 10)) eqn:E1; [by eapply shows_newline|].
  replace (c =? 4) with false by lia.
  destruct (Z.eqb_spec c 3) as [->|H3]; cbn [orb].
  { rewrite foldl_app. unfold CTRL_C_ECHO. change [94; 67; 13; 10] with ([94] ++ [67] ++ CRLF). rewrite !foldl_app.
    eapply shows_newline. apply (shows_type [94]); [|done|done]. apply (shows_type []); [|done|done].
    by apply shows_rubs. }
  destruct (Z.eqb_spec c 21) as [->|H21]; [by apply shows_rubs|].
  destruct ((c =? 8) || (c =? 127)); [by apply shows_prefix; [apply removelast_prefix|]|].
  destruct (Z.eqb_spec c 23) as [->|H23].
  { apply shows_prefix; [|done]. unfold without_word. etrans; apply trim_prefix. }
  destruct ((32 <=? c) && (length b <? 255)%nat) eqn:E32; [|done]. apply andb_prop in E32 as [?%Z.leb_le _].
  by apply shows_type.
Qed.
Lemma shows_refusal b g st t c : shows b g → shows b (foldl glass_byte g (refusal st t c)).
Proof. intros H. destruct st; try done. simpl. destruct (_ || _); [|done]. destruct g as [l r k]. by destruct H as (<- & Hr & [= ->]). Qed.

(** ** A chunk from the device *)

Lemma after_after L e1 st1 t1 e2 st2 t2 :
  after e2 st2 t2 (after e1 st1 t1 L) = after (later (finished e1) e2) st2 t2 L.
Proof. unfold after, later. destruct L; simpl. by rewrite app_assoc. Qed.
Lemma after_cooked L e st t : cooked L → (length (typing e) < 256)%nat → cooked (after e st t L).
Proof. intros (H1 & H2 & H3) H. done. Qed.
Lemma editor_after L e st t ks :
  later (finished e) (foldl keystroke (editor_of (after e st t L)) ks) = foldl keystroke e ks.
Proof.
  rewrite <- keystrokes_later. unfold later, editor_of, after; simpl. rewrite app_nil_r. by destruct e.
Qed.
Lemma decode_byte_keys st c : (length (decode_byte st c).2 ≤ 1)%nat.
Proof. destruct st; simpl; try (case_match; simpl); try lia. all: split_ifs; simpl; lia. Qed.
Section chunk.
Context (i : nat) (s : tty).
Hypothesis Hi : (i < length (lines s))%nat.
Hypothesis Hacc : accepts s = [].
Lemma feed_bytes_upd d L w :
  cooked L →
  let e := foldl keystroke (editor_of L) (decode (ln_tstate L) d).2 in
  Z.of_nat (length (ln_q L) + length (finished e)) ≤ TTY_QUEUE →
  ∃ wake t w' x,
    feed_bytes i d (upd i L w s) = Some (wake, upd i (after e (decode (ln_tstate L) d).1 t L) (w ++ w') s) ∧
    sent L w' x ∧ (finished e ≠ [] → wake = true) ∧ (length (typing e) < 256)%nat ∧
    ∀ g, forallb plain_key (decode (ln_tstate L) d).2 = true → shows (ln_buf L) g → shows (typing e) (foldl glass_byte g x).
Proof.
  revert L w. induction d as [|c d IH]; intros L w Hc e Hq.
  { exists false, (ln_tcmd L), [], []. destruct Hc as (? & ? & ?). split_and!; [|done|by intros []|done|done].
    unfold e, after. destruct L; simpl. by rewrite !app_nil_r. }
  pose proof (feed_byte_upd i s Hi Hacc L w c Hc) as H1. pose proof (decode_byte_keys (ln_tstate L) c) as Hk.
  cbn [decode] in *. destruct (decode_byte (ln_tstate L) c) as [st ks] eqn:E1.
  set (e1 := foldl keystroke (editor_of L) ks) in *. cbv zeta in H1.
  destruct (decode st d) as [st2 ks2] eqn:E2. cbn [fst snd] in *.
  assert (e = foldl keystroke e1 ks2) as He by (unfold e; by rewrite foldl_app).
  pose proof (finished_grows e1 ks2) as [more Hm]. rewrite <- He in Hm.
  rewrite Hm, length_app in Hq. destruct H1 as (wake & t & w1 & H1 & Hs & Hw); [lia|].
  assert (length (typing e1) < 256)%nat as Ht.
  { unfold e1. destruct Hc as (_ & _ & ?). destruct ks as [|k [|? ?]]; [done|by apply typing_bounded|simpl in Hk; lia]. }
  pose proof (editor_after L e1 st t ks2) as Ha. rewrite <- He in Ha.
  destruct (IH (after e1 st t L) (w ++ w1)) as (wake2 & t2 & w2 & x2 & H2 & Hs2 & Hw2 & Ht2 & Hg2);
    [by apply after_cooked| |].
  { change (ln_tstate (after e1 st t L)) with st. rewrite E2. cbn [snd]. rewrite <- Ha in Hm. unfold later in Hm. cbn [finished] in Hm.
    apply app_inv_head in Hm. rewrite Hm. change (ln_q (after e1 st t L)) with (ln_q L ++ finished e1). rewrite length_app. lia. }
  change (ln_tstate (after e1 st t L)) with st in *. change (ln_buf (after e1 st t L)) with (typing e1) in *.
  rewrite E2 in *. cbn [fst snd] in *. rewrite after_after, Ha in H2. rewrite <- Ha. cbn [later typing finished].
  eexists (wake || wake2), t2, (w1 ++ w2), _. split_and!; [|by apply sent_app| |done|].
  - cbn [feed_bytes]. rewrite (pbind_eq _ _ _ _ _ H1), (pbind_eq _ _ _ _ _ H2), <- app_assoc. by rewrite Ha.
  - intros Hne. destruct (finished e1) eqn:Ef; [rewrite Hw2 by done; apply orb_true_r|by rewrite Hw].
  - intros g Hp Hb. rewrite forallb_app in Hp. apply andb_prop in Hp as [Hp1 Hp2]. rewrite foldl_app. apply Hg2; [done|].
    rewrite foldl_app. apply (shows_refusal _ _ (ln_tstate L) (ln_tcmd L) c) in Hb. unfold e1.
    destruct ks as [|k [|? ?]]; [done| |simpl in Hk; lia]. cbn [foldl forallb] in *. apply andb_prop in Hp1 as [Hp1 _]. by apply shows_key.
Qed.
End chunk.

(** ** A session *)

(** What [cl] was answered, and what reached the device [f]. *)
Definition replies (cl : Z) (s : tty) : list (list Z) :=
  (λ a, take (Z.to_nat (result a.2)) (data a.2)) <$> filter (λ a, a.1 = cl) (answers s).
Definition received (cl : Z) (s : tty) : list Z := concat (replies cl s).
Definition screen (f : Z) (s : tty) : list Z := concat ((filter (λ x, x.1 = f) (written s)).*2).
(** A line of text, or a part of one. *)
Definition one_line (t : list Z) : Prop := ∀ a b, t = a ++ 10 :: b → b = [].

Section session.
Context (i : nat) (th cl : Z) (tty_doc tty_conf : list Z).

Definition is_read (r : vfs_req) : Prop :=
  op r = VFS_READ ∧ fd r = FD_LINE0 + Z.of_nat i ∧ (0 < len r ≤ VFS_DATA_MAX) ∧ Z.of_nat (length (data r)) = VFS_DATA_MAX.
(** A terminal with nothing typed yet, its device taking whatever it is
    given, a client that waits for its answers, and nobody parked on
    another line. *)
Record fresh (L : line) (s : tty) : Prop := {
  f_lines : length (lines s) = NLINE; f_line : lines s !! i = Some L;
  f_used : ln_used L = true; f_thread : ln_thread L = th; f_cooked : cooked L;
  f_empty : ln_buf L = [] ∧ ln_q L = []; f_dead : ln_dead L = false; f_data : ln_tstate L = T_DATA;
  f_waiter : ln_waiter L < 0;
  f_others : ∀ j L', j ≠ i → lines s !! j = Some L' → ln_waiter L' < 0 ∧ ln_thread L' ≠ cl;
  f_client : 0 ≤ cl ∧ cl ∈ tty_alive s ∧ (cl ∉ tty_busy s) ∧ cl ≠ th;
  f_accepts : accepts s = []; f_answers : answers s = []; f_written : written s = [] }.
(** What was typed when [d] has arrived. *)
Definition typed (d : list Z) : list Z := (decode T_DATA d).2.
(** [session s0 d poke s]: from [s0], after the bytes [d] came from the
    device, [s] can be reached; [poke] when the thread has told the main
    loop, which has not heard it yet.  The reader keeps within a queue of
    what is typed, nobody types the end of the file, and the client waits
    for one answer before it asks again. *)
Inductive session (s0 : tty) : list Z → bool → tty → Prop :=
| session_start : session s0 [] false s0
| session_type d s d' wake done s' :
    session s0 d false s → d' ≠ [] → ended (edit (typed (d ++ d'))) = false →
    Z.of_nat (length (finished (edit (typed (d ++ d'))))) ≤ Z.of_nat (length (received cl s)) + TTY_QUEUE →
    reader i (Some d') s = Some (wake, done, s') → session s0 (d ++ d') wake s'
| session_poke d s r s' :
    session s0 d true s → tty_turn tty_doc tty_conf th r s = Some ((), s') → session s0 d false s'
| session_read d poke s r s' :
    session s0 d poke s → is_read r → (∀ L, lines s !! i = Some L → ln_waiter L < 0) →
    tty_turn tty_doc tty_conf cl r s = Some ((), s') → session s0 d poke s'.

Record during (L0 : line) (s0 : tty) (d : list Z) (poke : bool) (s : tty) (L : line) : Prop := {
  du_lines : lines s = <[i := L]> (lines s0);
  du_line : ln_used L = true ∧ ln_thread L = th ∧ ln_raw L = ln_raw L0;
  du_cooked : cooked L; du_dead : ln_dead L = false;
  du_tstate : ln_tstate L = (decode T_DATA d).1; du_buf : ln_buf L = typing (edit (typed d));
  du_ended : ended (edit (typed d)) = false;
  du_text : received cl s ++ ln_q L = finished (edit (typed d));
  du_parked : ln_waiter L < 0 ∨ ln_waiter L = cl ∧ is_read (ln_req L) ∧ (ln_q L = [] ∨ poke = true);
  du_env : tty_alive s = tty_alive s0 ∧ tty_busy s = tty_busy s0 ∧ accepts s = [];
  du_whole : Forall one_line (replies cl s);
  du_screen : forallb plain_key (typed d) = true →
    shows (typing (edit (typed d))) (foldl glass_byte blank (screen (ln_raw L0) s)) }.

Lemma edit_more d d' : edit (typed (d ++ d')) = foldl keystroke (edit (typed d)) (decode (decode T_DATA d).1 d').2.
Proof. unfold typed, edit. rewrite decode_app. cbn [snd]. by rewrite foldl_app. Qed.
Lemma screen_upd f j L' L w x s : sent L w x → ln_raw L = f → screen f (upd j L' w s) = screen f s ++ x.
Proof.
  intros [Hw <-] Hf. unfold screen. simpl. rewrite list.filter_app, fmap_app, concat_app. f_equal. f_equal. f_equal.
  induction Hw as [|y w Hy Hw IH]; [done|]. rewrite filter_cons_True by congruence. by rewrite IH.
Qed.
Lemma replies_upd j L w s : replies cl (upd j L w s) = replies cl s.
Proof. done. Qed.
Lemma during_start L0 s0 : fresh L0 s0 → during L0 s0 [] false s0 L0.
Proof.
  intros F. destruct (f_empty _ _ F) as [Hb Hq].
  assert (replies cl s0 = []) as Hr by (unfold replies; by rewrite (f_answers _ _ F)).
  constructor; try (by destruct F); try done.
  - by rewrite list_insert_id by apply F.
  - unfold received. by rewrite Hr, Hq.
  - left. by destruct F.
  - by rewrite Hr.
  - intros _. unfold screen. by rewrite (f_written _ _ F).
Qed.
Lemma during_state L0 s0 d poke s L :
  fresh L0 s0 → during L0 s0 d poke s L → (i < length (lines s))%nat ∧ lines s !! i = Some L.
Proof.
  intros F D. rewrite (du_lines _ _ _ _ _ _ D), length_insert.
  pose proof (lookup_lt_Some _ _ _ (f_line _ _ F)). split; [done|]. by apply list_lookup_insert_eq.
Qed.
Lemma during_type L0 s0 d s L d' wake dn s' :
  fresh L0 s0 → during L0 s0 d false s L → d' ≠ [] → ended (edit (typed (d ++ d'))) = false →
  Z.of_nat (length (finished (edit (typed (d ++ d'))))) ≤ Z.of_nat (length (received cl s)) + TTY_QUEUE →
  reader i (Some d') s = Some (wake, dn, s') → ∃ L', during L0 s0 (d ++ d') wake s' L'.
Proof.
  intros F D Hd He Hq Hr. destruct (during_state _ _ _ _ _ _ F D) as [Hi Hl].
  destruct (du_env _ _ _ _ _ _ D) as (Ea & Eb & Hacc). destruct (du_line _ _ _ _ _ _ D) as (Hu & Hth & Hraw).
  set (e := foldl keystroke (editor_of L) (decode (ln_tstate L) d').2).
  assert (edit (typed (d ++ d')) = later (finished (edit (typed d))) e) as Ee.
  { rewrite edit_more. unfold e. rewrite <- keystrokes_later, (du_tstate _ _ _ _ _ _ D). f_equal.
    unfold later, editor_of. rewrite (du_buf _ _ _ _ _ _ D), (du_dead _ _ _ _ _ _ D). cbn [typing finished ended].
    rewrite app_nil_r. pose proof (du_ended _ _ _ _ _ _ D). destruct (edit (typed d)); by simplify_eq/=. }
  rewrite Ee in Hq, He. cbn [later finished ended] in Hq, He. rewrite <- (du_text _ _ _ _ _ _ D), !length_app in Hq.
  destruct (feed_bytes_upd i s Hi Hacc d' L [] (du_cooked _ _ _ _ _ _ D)) as (wk & t & w & x & Hf & Hs & Hw & Ht & Hg);
    [fold e; lia|]. fold e in Hf, Hw, Ht, Hg. rewrite <- (upd_same i s L Hl) in Hf.
  unfold reader in Hr. destruct d' as [|c d']; [done|].
  rewrite (pbind_eq _ _ _ _ _ Hf), (pbind_eq _ _ _ _ _ (ln_at_upd i s Hi _ _)) in Hr.
  injection Hr as <- _ <-. exists (after e (decode (ln_tstate L) (c :: d')).1 t L).
  constructor; try done.
  - simpl. rewrite (du_lines _ _ _ _ _ _ D). by rewrite list_insert_insert_eq.
  - by apply after_cooked; [apply D|].
  - cbn [after ln_tstate]. unfold typed. rewrite decode_app. simpl. by rewrite (du_tstate _ _ _ _ _ _ D).
  - by rewrite Ee.
  - by rewrite Ee.
  - unfold received. rewrite replies_upd, Ee. cbn [later finished]. rewrite <- (du_text _ _ _ _ _ _ D), <- app_assoc. done.
  - destruct (du_parked _ _ _ _ _ _ D) as [|(H1 & H2 & H3)]; [by left|right]. split_and!; [done|done|].
    destruct H3 as [H3|]; [|done]. cbn. rewrite H3. destruct (finished e) eqn:Ef; [by left|right; by apply Hw].
  - rewrite replies_upd. apply D.
  - rewrite Ee. unfold typed at 1. rewrite decode_app. cbn [snd]. rewrite forallb_app. intros [Hp1 Hp2]%andb_prop.
    rewrite (screen_upd _ _ _ L _ x) by done. rewrite foldl_app. apply Hg.
    + by rewrite (du_tstate _ _ _ _ _ _ D).
    + rewrite (du_buf _ _ _ _ _ _ D). by apply (du_screen _ _ _ _ _ _ D).
Qed.

(** ** The client's side *)

Definition answer (r : vfs_req) (t : list Z) : vfs_req :=
  r <| data := t ++ drop (length t) (data r) |> <| result := Z.of_nat (length t) |>.
Definition text (r : vfs_req) : list Z := take (Z.to_nat (result r)) (data r).
Lemma text_answer r t : text (answer r t) = t.
Proof. unfold text, answer. simpl. by rewrite Nat2Z.id, take_app_length. Qed.
Lemma first_line_one q n : (n ≤ first_line q)%nat → one_line (take n q).
Proof.
  revert n. induction q as [|c q IH]; intros n Hn a b E; [rewrite take_nil in E; by destruct a|].
  destruct n as [|n]; [by destruct a|]. simpl in Hn, E. destruct (Z.eqb_spec c 10) as [->|Hc].
  - assert (n = 0)%nat as -> by lia. rewrite take_0 in E. destruct a as [|? [|]]; by simplify_eq/=.
  - destruct a as [|x a]; [injection E as E _; congruence|]. injection E as _ E. apply (IH n ltac:(lia) a b E).
Qed.
Lemma first_line_length q : (first_line q ≤ length q)%nat ∧ (q ≠ [] → (0 < first_line q)%nat).
Proof. induction q as [|c q [IH _]]; [done|]. simpl. split; [case_match; lia|]. intros _. case_match; lia. Qed.
(** What one read takes: a part [t] of the queue. *)
Lemma tty_take_eq L s r :
  lines s !! i = Some L → ln_rawmode L = false → is_read r →
  ∃ t q, ln_q L = t ++ q ∧ one_line t ∧ (ln_q L ≠ [] → t ≠ []) ∧
    tty_take i r s = Some (answer r t, upd i (L <| ln_q := q |>) [] s).
Proof.
  intros Hl Hm (_ & _ & Hn & Hd). unfold tty_take. rewrite (pbind_eq _ _ _ L s) by (unfold ln_at; by rewrite Hl).
  rewrite Hm. destruct (first_line_length (ln_q L)) as [Hf Hne]. set (n := first_line (ln_q L)) in *.
  set (m := Nat.min n (Z.to_nat (len r))).
  replace (if len r <? Z.of_nat n then len r else Z.of_nat n) with (Z.of_nat m)
    by (destruct (Z.ltb_spec (len r) (Z.of_nat n)); lia).
  exists (take m (ln_q L)), (drop m (ln_q L)). rewrite take_drop. unfold VFS_DATA_MAX in *.
  assert (length (take m (ln_q L)) = m) as Hm' by (rewrite length_take; lia).
  split_and!; [done|apply first_line_one; lia|intros H; apply Hne in H; intros ?%(f_equal length); simpl in *; lia|].
  unfold answer. rewrite Hm'. destruct (Z.ltb_spec 0 (Z.of_nat m)) as [H0|H0].
  - rewrite (proj2 (Z.ltb_ge _ _)) by lia. rewrite Nat2Z.id. unfold put_ln, modify, pbind, upd. by rewrite app_nil_r || simpl.
  - assert (m = 0)%nat as -> by lia. rewrite take_0, !drop_0. simpl.
    rewrite (upd_same i s L Hl) at 1. destruct L, r; done.
Qed.

(** [cl] answered with [t], and [L] now line [i]. *)
Definition told (r : vfs_req) (L : line) (s : tty) : tty :=
  (upd i L [] s) <| answers := answers s ++ [(cl, r)] |>.
Lemma replies_told r L s : replies cl (told r L s) = replies cl s ++ [text r].
Proof. unfold replies, told. simpl. rewrite list.filter_app, fmap_app. by rewrite filter_cons_True. Qed.
Lemma received_told r L s : received cl (told r L s) = received cl s ++ text r.
Proof. unfold received. rewrite replies_told, concat_app. simpl. by rewrite app_nil_r. Qed.
(** The invariant when the client has been given a part of the queue. *)
Lemma during_told L0 s0 d poke s L r t q L' :
  during L0 s0 d poke s L → ln_q L = t ++ q → one_line t → text r = t →
  L' <| ln_waiter := ln_waiter L |> <| ln_req := ln_req L |> = L <| ln_q := q |> → ln_waiter L' < 0 →
  ∀ poke', during L0 s0 d poke' (told r L' s) L'.
Proof.
  intros D Hq Ht Hx HL Hw poke'.
  assert (ln_used L' = ln_used L ∧ ln_thread L' = ln_thread L ∧ ln_raw L' = ln_raw L ∧ ln_rawmode L' = ln_rawmode L ∧
    ln_intr_task L' = ln_intr_task L ∧ ln_buf L' = ln_buf L ∧ ln_dead L' = ln_dead L ∧ ln_tstate L' = ln_tstate L ∧ ln_q L' = q)
    as (F1 & F2 & F3 & E1 & E2 & E3 & E4 & E5 & E6) 
    by (split_and!; match goal with |- ?p L' = _ => exact (f_equal p HL) end).
  destruct D as [H1 H2 H3 H4 H5 H6 H7 H8 H9 H10 H11 H12]. constructor; try congruence.
  - simpl. rewrite H1. by rewrite list_insert_insert_eq.
  - unfold cooked in *. by rewrite E1, E2, E3.
  - rewrite received_told, Hx, <- H8, Hq, E6. by rewrite app_assoc.
  - by left.
  - done.
  - rewrite replies_told, Hx. apply list.Forall_app. split; [done|]. by apply list.Forall_singleton.
  - intros Hp. unfold told. change (screen _ _) with (screen (ln_raw L0) (upd i L' [] s)).
    rewrite (screen_upd _ _ _ L0 [] [] s) by done. rewrite app_nil_r. by apply H12.
Qed.

Lemma serve_line_idle j L s : lines s !! j = Some L → ln_waiter L < 0 → serve_line j s = Some ((), s).
Proof.
  intros Hl Hw. unfold serve_line. rewrite (pbind_eq _ _ _ L s) by (unfold ln_at; by rewrite Hl).
  rewrite (proj2 (Z.ltb_lt _ _) Hw), orb_true_r. done.
Qed.
Lemma serve_lines_idle a n s :
  (∀ j, (a ≤ j < a + n)%nat → ∃ L, lines s !! j = Some L ∧ ln_waiter L < 0) → serve_lines a n s = Some ((), s).
Proof.
  revert a. induction n as [|n IH]; intros a H; [done|]. cbn [serve_lines].
  destruct (H a ltac:(lia)) as (L & Hl & Hw). rewrite (pbind_eq _ _ _ _ _ (serve_line_idle _ _ _ Hl Hw)).
  apply IH. intros j Hj. apply H. lia.
Qed.
Lemma serve_lines_app a n m s :
  serve_lines a (n + m) s = (let* _ := serve_lines a n in serve_lines (a + n) m) s.
Proof.
  revert a s. induction n as [|n IH]; intros a s; cbn [Nat.add serve_lines]; [by rewrite Nat.add_0_r|].
  rewrite <- pbind_assoc. unfold pbind. destruct (serve_line a s) as [[[] s1]|]; [|done].
  rewrite IH. by rewrite Nat.add_succ_r.
Qed.
Lemma others_idle L0 s0 L s j :
  fresh L0 s0 → lines s = <[i := L]> (lines s0) → j ≠ i → (j < NLINE)%nat →
  ∃ L', lines s !! j = Some L' ∧ ln_waiter L' < 0.
Proof.
  intros F Hs Hj Hn. destruct (lookup_lt_is_Some_2 (lines s0) j) as [L' HL']; [by rewrite (f_lines _ _ F)|].
  exists L'. rewrite Hs, list_lookup_insert_ne by done. split; [done|]. by eapply F.
Qed.
Lemma serve_parked_eq L0 s0 L s s' L' :
  fresh L0 s0 → lines s = <[i := L]> (lines s0) → serve_line i s = Some ((), s') → lines s' = <[i := L']> (lines s0) →
  serve_parked s = Some ((), s').
Proof.
  intros F Hs Hi Hs'. assert (i < NLINE)%nat as Hn by (rewrite <- (f_lines _ _ F); by eapply lookup_lt_Some, F).
  unfold serve_parked. replace NLINE with (i + (1 + (NLINE - i - 1)))%nat by lia. rewrite serve_lines_app.
  rewrite (pbind_eq _ _ _ () s) by (apply serve_lines_idle; intros j Hj; eapply others_idle; [done|done|lia|lia]).
  cbn [Nat.add serve_lines]. rewrite (pbind_eq _ _ _ _ _ Hi).
  apply serve_lines_idle. intros j Hj. eapply others_idle; [done|done|lia|lia].
Qed.
Lemma during_poke L0 s0 d s L r s' :
  fresh L0 s0 → during L0 s0 d true s L → tty_turn tty_doc tty_conf th r s = Some ((), s') →
  ∃ L', during L0 s0 d false s' L'.
Proof.
  intros F D Ht. destruct (during_state _ _ _ _ _ _ F D) as [Hi Hl]. destruct (du_line _ _ _ _ _ _ D) as (Hu & Hth & Hraw).
  unfold tty_turn in Ht. rewrite (pbind_eq _ _ _ true s) in Ht.
  2: { unfold gets. do 2 f_equal. apply existsb_exists. exists L. split; [by eapply list_elem_of_In, list_elem_of_lookup_2|].
       rewrite Hu, Hth. by rewrite Z.eqb_refl. }
  destruct (decide (ln_waiter L < 0 ∨ ln_q L = [])) as [Hidle|Hbusy].
  { assert (serve_line i s = Some ((), s)) as Hsv.
    { destruct Hidle as [Hw|Hq]; [by eapply serve_line_idle|]. unfold serve_line.
      rewrite (pbind_eq _ _ _ L s) by (unfold ln_at; by rewrite Hl). rewrite Hq, (du_dead _ _ _ _ _ _ D). cbn. by case_match. }
    rewrite (serve_parked_eq _ _ _ _ _ _ F (du_lines _ _ _ _ _ _ D) Hsv (du_lines _ _ _ _ _ _ D)) in Ht. injection Ht as <-.
    exists L. destruct D as [? ? ? ? ? ? ? ? H9]. constructor; try done.
    destruct H9 as [|(? & ? & ?)]; [by left|]. destruct Hidle; [by left|]. right. split_and!; [done|done|by left]. }
  apply Decidable.not_or in Hbusy as [Hw Hq]. destruct (du_parked _ _ _ _ _ _ D) as [|(Hw' & Hr & _)]; [done|].
  destruct (tty_take_eq L s (ln_req L) Hl ltac:(apply D) Hr) as (t & q & Et & Hone & Hne & Htk).
  destruct (f_client _ _ F) as (Hc0 & Hca & Hcb & Hcn). destruct (du_env _ _ _ _ _ _ D) as (Ea & Eb & _).
  set (L' := L <| ln_q := q |> <| ln_req := answer (ln_req L) t |> <| ln_waiter := -1 |>).
  assert (serve_line i s = Some ((), told (answer (ln_req L) t) L' s)) as Hsv.
  { unfold serve_line. rewrite (pbind_eq _ _ _ L s) by (unfold ln_at; by rewrite Hl).
    rewrite Hu, Hw', (proj2 (Z.ltb_ge _ _)) by lia. destruct (length (ln_q L) =? 0)%nat eqn:El.
    { apply Nat.eqb_eq, nil_length_inv in El. done. }
    cbn [negb orb andb]. rewrite (pbind_eq _ _ _ true s) by (unfold gets, tty_sys_alive; by rewrite Ea, bool_decide_true).
    cbn [negb]. rewrite (pbind_eq _ _ _ _ _ Htk), (pbind_eq _ _ _ _ _ (on_ln_upd i s Hi _ _ _)).
    unfold tty_sys_trysend. rewrite <- pbind_assoc.
    rewrite (pbind_eq _ _ _ false (upd i (L <| ln_q := q |> <| ln_req := answer (ln_req L) t |>) [] s))
      by (unfold gets; simpl; by rewrite Eb, bool_decide_false).
    rewrite <- pbind_assoc. unfold tty_sys_send, modify, on_ln, ln_at, put_ln, pbind. simpl.
    rewrite list_lookup_insert_eq by done. unfold told, upd, modify. simpl. by rewrite list_insert_insert_eq. }
  rewrite (serve_parked_eq _ _ _ _ _ L' F (du_lines _ _ _ _ _ _ D) Hsv) in Ht.
  2: { simpl. rewrite (du_lines _ _ _ _ _ _ D). by rewrite list_insert_insert_eq. }
  injection Ht as <-. exists L'. eapply during_told; [done|done|done|by rewrite text_answer|by destruct L|done].
Qed.

Lemma not_thread L0 s0 L s :
  fresh L0 s0 → lines s = <[i := L]> (lines s0) → ln_thread L = th → is_thread cl s = false.
Proof.
  intros F Hs Hth. apply not_true_is_false. intros (L' & HL' & Hc)%existsb_exists.
  apply andb_prop in Hc as [_ Hc%Z.eqb_eq]. apply list_elem_of_In, list_elem_of_lookup_1 in HL' as [j Hj].
  destruct (f_client _ _ F) as (_ & _ & _ & Hn). rewrite Hs in Hj. destruct (decide (j = i)) as [->|Hji].
  - rewrite list_lookup_insert_eq in Hj by (by eapply lookup_lt_Some, F). congruence.
  - rewrite list_lookup_insert_ne in Hj by done. by destruct (f_others _ _ F j L' Hji Hj).
Qed.
Lemma during_read L0 s0 d poke s L r s' :
  fresh L0 s0 → during L0 s0 d poke s L → is_read r → ln_waiter L < 0 →
  tty_turn tty_doc tty_conf cl r s = Some ((), s') → ∃ L', during L0 s0 d poke s' L'.
Proof.
  intros F D Hr Hw Ht. destruct (during_state _ _ _ _ _ _ F D) as [Hi Hl]. destruct (du_line _ _ _ _ _ _ D) as (Hu & Hth & Hraw).
  pose proof (not_thread _ _ _ _ F (du_lines _ _ _ _ _ _ D) Hth) as Hnt.
  assert (i < NLINE)%nat as Hn by (rewrite <- (f_lines _ _ F); by eapply lookup_lt_Some, F).
  destruct (Hr) as (Hop & Hfd & _). unfold tty_turn in Ht. rewrite (pbind_eq _ _ _ false s) in Ht by (unfold gets; by rewrite Hnt).
  rewrite Hop in Ht. change (VFS_READ =? VFS_OPEN) with false in Ht. change (VFS_READ =? VFS_READ) with true in Ht. cbn iota in Ht.
  assert (tty_read cl r s = (if negb (length (ln_q L) =? 0)%nat || ln_dead L then let* r' := tty_take i r in pret (Some r')
          else let* _ := put_ln i (L <| ln_waiter := cl |> <| ln_req := r |>) in pret None) s) as Htr.
  { unfold tty_read. rewrite (pbind_eq _ _ _ s s) by done. unfold pf_of, line_of. rewrite Hfd. unfold FD_PF0, FD_LINE0, NPF, NLINE in *.
    rewrite (proj2 (Z.ltb_ge (16 + Z.of_nat i) _)) by lia. rewrite andb_false_r. replace (16 + Z.of_nat i - 16) with (Z.of_nat i) by lia.
    rewrite i32_small by lia. rewrite (proj2 (Z.ltb_ge _ 0)), (proj2 (Z.leb_gt _ _)), Nat2Z.id by lia.
    rewrite (nth_lookup_Some _ _ _ _ Hl), Hu. cbn [negb orb].
    by rewrite (pbind_eq _ _ _ L s) by (unfold ln_at; by rewrite Hl). }
  unfold pbind at 1 in Ht. rewrite Htr in Ht.
  destruct (tty_take_eq L s r Hl ltac:(apply D) Hr) as (t & q & Et & Hone & Hne & Htk).
  rewrite (du_dead _ _ _ _ _ _ D), orb_false_r in Ht. destruct (Nat.eqb_spec (length (ln_q L)) 0) as [El|El]; cbn [negb] in Ht.
  - apply nil_length_inv in El. unfold put_ln, modify, pbind in Ht. simpl in Ht. injection Ht as <-.
    exists (L <| ln_waiter := cl |> <| ln_req := r |>). destruct D as [H1 H2 H3 H4 H5 H6 H7 H8 H9 H10 H11 H12].
    constructor; try done; [simpl; rewrite H1; by rewrite list_insert_insert_eq|].
    right. split_and!; [done|done|by left].
  - rewrite (pbind_eq _ _ _ _ _ Htk) in Ht. unfold tty_sys_send, modify, pret in Ht.
    assert (s' = told (answer r t) (L <| ln_q := q |>) s) as -> by (by injection Ht as <-).
    exists (L <| ln_q := q |>). apply (during_told L0 s0 d poke s L (answer r t) t q (L <| ln_q := q |>) D Et Hone); [by rewrite text_answer|by destruct L|done].
Qed.
Lemma session_during L0 s0 d poke s :
  fresh L0 s0 → session s0 d poke s → ∃ L, during L0 s0 d poke s L.
Proof.
  intros F S. induction S as [|d s d' wake dn s' S [L D]|d s r s' S [L D]|d poke s r s' S [L D] Hr Hw].
  - exists L0. by apply during_start.
  - by eapply during_type.
  - by eapply during_poke.
  - eapply during_read; [done|done|done| |done]. by apply Hw; eapply during_state.
Qed.

(** C6: a terminal in cooked mode refines an abstract line editor, for a
    client that is always waiting when its line is complete, that never
    leaves more than the 1024 bytes of the queue unread, and as long as
    nobody types the end of the file (Ctrl-D).  Then, whatever else is typed
    - a stream of telnet items cut into reads anywhere - and however the
    reader thread, its messages to the main loop and the client's reads
    interleave, what the client has been answered followed by what is queued
    for it is exactly what the editor finished; each answer is at most one
    line; and when the main loop has heard the thread, a client that still
    waits has been given everything.  Outside these conditions lines are
    lost or joined: [line_lost_when_client_busy] and [full_queue_joins_lines]
    of TtyInv.v. *)
Theorem typed_lines_are_read_back L0 s0 items poke s :
  fresh L0 s0 → forallb item_ok items = true → session s0 (encode items) poke s →
  ∃ L, lines s !! i = Some L ∧
    received cl s ++ ln_q L = finished (edit (keys_of items)) ∧ ln_buf L = typing (edit (keys_of items)) ∧
    Forall one_line (replies cl s) ∧
    (ln_waiter L = cl → poke = false → received cl s = finished (edit (keys_of items))).
Proof.
  intros F Hok S. destruct (session_during _ _ _ _ _ F S) as [L D]. exists L.
  destruct (during_state _ _ _ _ _ _ F D) as [_ Hl]. assert (typed (encode items) = keys_of items) as <-.
  { unfold typed. by rewrite decode_encode. }
  split_and!; [done|apply D|apply D|apply D|]. intros Hw ->. rewrite <- (du_text _ _ _ _ _ _ D).
  destruct (f_client _ _ F) as (Hc & _). destruct (du_parked _ _ _ _ _ _ D) as [|(_ & _ & [->|])]; [lia| |done]. by rewrite app_nil_r.
Qed.
(** C7: the echo keeps the screen true to the line: when everything typed so
    far is ordinary keys (editing keys among them, but neither the byte 255
    nor the end-of-file key), the row the cursor is on holds exactly the line
    as edited, the cursor stands at its end and nothing but blanks follow. *)
Theorem screen_shows_the_line L0 s0 items poke s :
  fresh L0 s0 → forallb item_ok items = true → forallb plain_key (keys_of items) = true →
  session s0 (encode items) poke s →
  shows (typing (edit (keys_of items))) (foldl glass_byte blank (screen (ln_raw L0) s)).
Proof.
  intros F Hok Hp S. destruct (session_during _ _ _ _ _ F S) as [L D].
  assert (typed (encode items) = keys_of items) as E by (unfold typed; by rewrite decode_encode).
  rewrite <- E in Hp |- *. by apply (du_screen _ _ _ _ _ _ D).
Qed.
End session.

(** ** A session to look at

    The client asks first; then come an offered option, "lx", a backspace,
    "s" and Enter, cut in the middle of the option. *)
Definition demo_line : line :=
  zero_line <| ln_used := true |> <| ln_raw := 7 |> <| ln_waiter := -1 |> <| ln_thread := 100 |>.
Definition demo_tty : tty :=
  mkTty (demo_line :: repeat (zero_line <| ln_waiter := -1 |>) 7) (repeat zero_tfile 4) [] [] [] [] [] [] [] [70] [] [] [].
Definition demo_req : vfs_req := mkReq VFS_READ FD_LINE0 [] 512 0 0 (repeat 0 (Z.to_nat VFS_DATA_MAX)).
Definition demo_items : list item := [Option_ WILL 1; Key 108; Key 120; Key 8; Key 115; Key 13].
Definition next {A} (m : prog tty A) (s : tty) : tty := match m s with Some (_, s') => s' | None => s end.
Definition demo_asked : tty := next (tty_turn [] [] 70 demo_req) demo_tty.
Definition demo_half : tty := next (reader 0 (Some (take 2 (encode demo_items)))) demo_asked.
Definition demo_typed : tty := next (reader 0 (Some (drop 2 (encode demo_items)))) demo_half.
Definition demo_told : tty := next (tty_turn [] [] 100 demo_req) demo_typed.
Lemma demo_fresh : fresh 0 100 70 demo_line demo_tty.
Proof.
  constructor; try done.
  - split_and!; [done|done|simpl; lia].
  - intros j L Hj HL. do 8 (destruct j as [|j]; [first [done | by injection HL as <-]|]). done.
  - split_and!; [done|by left|by intros ?%elem_of_nil|done].
Qed.
Lemma demo_is_read : is_read 0 demo_req.
Proof. split_and!; try done. Qed.
Lemma demo_session : session 0 100 70 [] [] demo_tty (encode demo_items) false demo_told.
Proof.
  apply (session_poke _ _ _ _ _ _ _ demo_typed demo_req); [|vm_compute; reflexivity].
  change (encode demo_items) with (take 2 (encode demo_items) ++ drop 2 (encode demo_items)).
  apply (session_type _ _ _ _ _ _ _ demo_half _ true false); [|done|vm_compute; reflexivity|vm_compute; done|vm_compute; reflexivity].
  change (take 2 (encode demo_items)) with ([] ++ take 2 (encode demo_items)).
  apply (session_type _ _ _ _ _ _ _ demo_asked _ false false); [|done|vm_compute; reflexivity|vm_compute; done|vm_compute; reflexivity].
  apply (session_read _ _ _ _ _ _ _ _ demo_tty demo_req); [apply session_start|apply demo_is_read| |vm_compute; reflexivity].
  intros L [= <-]. done.
Qed.
Lemma typed_lines_are_read_back_witness :
  received 70 demo_told = [108; 115; 10] ∧
  ∃ L, lines demo_told !! 0%nat = Some L ∧
    received 70 demo_told ++ ln_q L = finished (edit (keys_of demo_items)) ∧ ln_buf L = typing (edit (keys_of demo_items)) ∧
    Forall one_line (replies 70 demo_told) ∧
    (ln_waiter L = 70 → false = false → received 70 demo_told = finished (edit (keys_of demo_items))).
Proof.
  split; [vm_compute; reflexivity|].
  exact (typed_lines_are_read_back 0 100 70 [] [] demo_line demo_tty demo_items false demo_told demo_fresh eq_refl demo_session).
Defined.
Lemma screen_shows_the_line_witness :
  shows (typing (edit (keys_of demo_items))) (foldl glass_byte blank (screen (ln_raw demo_line) demo_told)).
Proof.
  exact (screen_shows_the_line 0 100 70 [] [] demo_line demo_tty demo_items false demo_told demo_fresh eq_refl eq_refl demo_session).
Defined.
