(* ===== verification/TtyInv.v ===== *)
(** * What the terminal server never breaks

    The bounds of its tables, that no event makes it loop or fault, and the
    cases in which the server loses what was typed. *)
From stdpp Require Import base list numbers option.
From S2P Require Import Prelude Mem Req Tty.
Local Open Scope Z_scope.

(** ** The invariant *)

(** A message as a client that keeps to the protocol sends it: a length that
    fits, and the text of a command ended by a NUL. *)
Record req_ok (r : vfs_req) : Prop := {
  rq_len : len r ≤ VFS_DATA_MAX; rq_data : Z.of_nat (length (data r)) = VFS_DATA_MAX; rq_nul : 0 ∈ drop 5 (data r) }.
Record line_ok (L : line) : Prop := {
  lo_buf : Z.of_nat (length (ln_buf L)) < TTY_LINE; lo_q : Z.of_nat (length (ln_q L)) ≤ TTY_QUEUE;
  lo_req : 0 ≤ ln_waiter L → len (ln_req L) ≤ VFS_DATA_MAX }.
Record tfile_ok (f : tfile) : Prop := {
  to_buf : Z.of_nat (length (tf_buf f)) ≤ TTY_BUF; to_pos : 0 ≤ tf_pos f }.
Record tty_ok (s : tty) : Prop := {
  ty_lines : length (lines s) = NLINE; ty_each : Forall line_ok (lines s);
  ty_pf : length (pf s) = NPF; ty_file : Forall tfile_ok (pf s) }.

(** [m] returns, keeps the invariant, and gives a result in [Q]. *)
Definition safely {A} (m : prog tty A) (Q : A → Prop) : Prop :=
  ∀ s, tty_ok s → wp m (λ a s', tty_ok s' ∧ Q a) s.
Abbreviation safe m := (safely m (λ _, True)).
Lemma safely_bind {A B} (m : prog tty A) (k : A → prog tty B) Q R :
  safely m Q → (∀ a, Q a → safely (k a) R) → safely (let* a := m in k a) R.
Proof. intros Hm Hk s Hs. apply wp_bind. eapply wp_mono; [by apply Hm|]. intros a s' [H1 H2]. by apply Hk. Qed.
Lemma safely_ret {A} (a : A) (Q : A → Prop) : Q a → safely (pret a) Q.
Proof. by intros H s Hs. Qed.
Lemma safely_gets {A} (f : tty → A) : safe (gets f).
Proof. by intros s Hs. Qed.
Lemma safely_state : safely (gets id) tty_ok.
Proof. by intros s Hs. Qed.
Lemma safely_modify f : (∀ s, tty_ok s → tty_ok (f s)) → safe (modify f).
Proof. intros H s Hs. split; [by apply H|done]. Qed.
Lemma safely_mono {A} (m : prog tty A) (Q R : A → Prop) : safely m Q → (∀ a, Q a → R a) → safely m R.
Proof. intros H HQ s Hs. eapply wp_mono; [by apply H|]. naive_solver. Qed.
Lemma safely_if {A} (b : bool) (m1 m2 : prog tty A) Q :
  (b = true → safely m1 Q) → (b = false → safely m2 Q) → safely (if b then m1 else m2) Q.
Proof. destruct b; auto. Qed.
Lemma safely_run {A} (m : prog tty A) (Q : A → Prop) s : safely m Q → tty_ok s → wp m (λ _, tty_ok) s.
Proof. intros H Hs. eapply wp_mono; [by apply H|]. naive_solver. Qed.
Create HintDb tty discriminated.

Lemma ok_line s i L : tty_ok s → lines s !! i = Some L → line_ok L.
Proof. intros Hs Hl. eapply Forall_lookup_1; [apply Hs|done]. Qed.
Lemma ok_has s i : tty_ok s → (i < NLINE)%nat → ∃ L, lines s !! i = Some L ∧ line_ok L.
Proof.
  intros Hs Hi. destruct (lookup_lt_is_Some_2 (lines s) i) as [L HL]; [by rewrite (ty_lines _ Hs)|].
  exists L. split; [done|]. by eapply ok_line.
Qed.
Lemma ok_set_line s i L : tty_ok s → line_ok L → tty_ok (s <| lines := <[i := L]> (lines s) |>).
Proof. intros [H1 H2 H3 H4] HL. constructor; simpl; try done; [by rewrite length_insert|by apply Forall_insert]. Qed.
Lemma ok_set_file s k f : tty_ok s → tfile_ok f → tty_ok (s <| pf := <[k := f]> (pf s) |>).
Proof. intros [H1 H2 H3 H4] HL. constructor; simpl; try done; [by rewrite length_insert|by apply Forall_insert]. Qed.
Lemma safely_ln_at i : (i < NLINE)%nat → safely (ln_at i) line_ok.
Proof. intros Hi s Hs. destruct (ok_has s i Hs Hi) as (L & HL & Hok). unfold wp, ln_at. by rewrite HL. Qed.
Lemma safely_put i L : line_ok L → safe (put_ln i L).
Proof. intros HL. apply safely_modify. intros s Hs. by apply ok_set_line. Qed.
Lemma safely_on i f : (i < NLINE)%nat → (∀ L, line_ok L → line_ok (f L)) → safe (on_ln i f).
Proof. intros Hi Hf. eapply safely_bind; [by apply safely_ln_at|]. intros L HL. by apply safely_put, Hf. Qed.

(** ** The device *)

Definition buf_of (i : nat) (s : tty) : option (list Z) := ln_buf <$> lines s !! i.
Lemma tty_vfs_write_ok f d s :
  tty_ok s → d ≠ [] →
  wp (tty_vfs_write f d) (λ k s', tty_ok s' ∧ lines s' = lines s ∧
    (k < 0 ∨ (length (accepts s') + length (drop (Z.to_nat k) d) < length (accepts s) + length d)%nat)) s.
Proof.
  intros Hs Hd. unfold wp, tty_vfs_write, VFS_DATA_MAX. assert (0 < length d)%nat by (destruct d; [done|simpl; lia]).
  pose proof (length_take d (Z.to_nat 512)) as Hl.
  destruct (accepts s) as [|k l] eqn:Ea; (split; [|split; [done|]]).
  - by destruct Hs.
  - right. simpl. rewrite length_drop. lia.
  - by destruct Hs.
  - destruct (decide (k < 0)); [left; lia|right]. simpl. rewrite length_drop. lia.
Qed.
Lemma dev_write_loop_ok n i d s :
  tty_ok s → (i < NLINE)%nat → (length (accepts s) + length d ≤ n)%nat →
  wp (dev_write_loop n i d) (λ _ s', tty_ok s' ∧ buf_of i s' = buf_of i s) s.
Proof.
  revert d s. induction n as [|n IH]; intros d s Hs Hi Hn; cbn [dev_write_loop].
  { destruct d; [done|simpl in Hn; lia]. }
  destruct (Nat.eqb_spec (length d) 0) as [E|E]; [done|].
  destruct (ok_has s i Hs Hi) as (L & HL & Hok). apply wp_bind. unfold wp at 1, ln_at. rewrite HL.
  apply wp_bind. eapply wp_mono; [apply tty_vfs_write_ok; [done|by destruct d]|]. intros k s1 (H1 & H2 & H3).
  destruct (Z.ltb_spec k 0).
  - split; [apply ok_set_line; [done|by destruct Hok]|]. unfold buf_of. simpl. rewrite H2, HL, list_lookup_insert_eq; [done|].
    rewrite (ty_lines _ Hs). done.
  - eapply wp_mono; [apply IH; [done|done|lia]|]. intros _ s2 [H4 H5]. split; [done|]. rewrite H5. unfold buf_of. by rewrite H2.
Qed.
Lemma dev_write_ok i d s :
  tty_ok s → (i < NLINE)%nat → wp (dev_write i d) (λ _ s', tty_ok s' ∧ buf_of i s' = buf_of i s) s.
Proof. intros Hs Hi. unfold dev_write. apply wp_bind, wp_gets. by apply dev_write_loop_ok. Qed.
Lemma safely_dev_write i d : (i < NLINE)%nat → safe (dev_write i d).
Proof. intros Hi s Hs. eapply wp_mono; [by apply dev_write_ok|]. naive_solver. Qed.

(** ** The discipline *)

Lemma q_put_ok d L : line_ok L → line_ok (q_put d L).
Proof.
  intros [H1 H2 H3]. constructor; simpl; [done| |done]. rewrite length_app, length_take. unfold TTY_QUEUE in *. lia.
Qed.
Lemma line_ok_buf L b : line_ok L → Z.of_nat (length b) < TTY_LINE → line_ok (L <| ln_buf := b |>).
Proof. by intros [H1 H2 H3] Hb. Qed.
Lemma line_ok_nil L : line_ok L → line_ok (L <| ln_buf := [] |>).
Proof. intros H. by apply line_ok_buf. Qed.
#[export] Hint Resolve safely_ret safely_gets safely_ln_at safely_put safely_dev_write q_put_ok line_ok_nil : tty.
(** One step of a safe program. *)
Ltac safe_step :=
  match goal with
  | |- safely (pret _) _ => by apply safely_ret
  | |- safely (pbind (gets id) _) _ => eapply safely_bind; [apply safely_state|intros ? ?]
  | |- safely (pbind (gets _) _) _ => eapply safely_bind; [apply safely_gets|intros ? _]
  | |- safely (pbind (ln_at _) _) _ => eapply safely_bind; [by apply safely_ln_at|intros ? ?]
  | |- safely (pbind _ _) _ => eapply (safely_bind _ _ (λ _, True)); [|intros ? _]
  | |- safely (if _ then _ else _) _ => apply safely_if; intros ?
  | |- safely (dev_write _ _) _ => by apply safely_dev_write
  | |- safely (match ?x with _ => _ end) _ => destruct x eqn:?
  | |- safely (put_ln _ _) _ => apply safely_put
  end.
Ltac safe := repeat safe_step.
(** The line only changed where the invariant does not look. *)
Ltac same_line := match goal with H : line_ok _ |- line_ok _ => by destruct H end.
Lemma removelast_shorter (b : list Z) : (length (removelast b) ≤ length b - 1)%nat.
Proof. rewrite removelast_firstn_len, length_take. lia. Qed.
Lemma erase_one_ok i s b :
  tty_ok s → (i < NLINE)%nat → buf_of i s = Some b →
  wp (erase_one i) (λ _ s', tty_ok s' ∧ buf_of i s' = Some (removelast b)) s.
Proof.
  intros Hs Hi Hb. destruct (ok_has s i Hs Hi) as (L & HL & Hok). unfold buf_of in Hb. rewrite HL in Hb. injection Hb as <-.
  unfold erase_one. apply wp_bind. unfold wp at 1, ln_at. rewrite HL. destruct (Nat.eqb_spec (length (ln_buf L)) 0) as [E|E].
  { apply nil_length_inv in E. split; [done|]. unfold buf_of. by rewrite HL, E; simpl; rewrite E. }
  apply wp_bind. unfold wp at 1, put_ln, modify.
  pose proof (removelast_shorter (ln_buf L)). pose proof (lo_buf _ Hok).
  eapply wp_mono; [apply dev_write_ok; [apply ok_set_line; [done|apply line_ok_buf; [done|lia]]|done]|].
  intros _ s' [H1 H2]. split; [done|]. rewrite H2. unfold buf_of. simpl. rewrite list_lookup_insert_eq; [done|].
  by rewrite (ty_lines _ Hs).
Qed.
Lemma erase_while_ok p i n s b :
  tty_ok s → (i < NLINE)%nat → buf_of i s = Some b → (length b ≤ n)%nat →
  wp (erase_while n i p) (λ _ s', tty_ok s') s.
Proof.
  revert s b. induction n as [|n IH]; intros s b Hs Hi Hb Hn; cbn [erase_while]; apply wp_bind;
    unfold buf_of in Hb; destruct (lines s !! i) as [L|] eqn:HL; try done; injection Hb as <-; unfold wp at 1, ln_at; rewrite HL.
  - destruct (ln_buf L); [done|simpl in Hn; lia].
  - destruct (list.last (ln_buf L)) as [c|] eqn:El; [|done]. destruct (p c); [|done]. apply wp_bind.
    eapply wp_mono; [apply (erase_one_ok i s (ln_buf L)); [done|done|unfold buf_of; by rewrite HL]|].
    intros _ s' [H1 H2]. eapply IH; [done|done|done|]. pose proof (removelast_shorter (ln_buf L)).
    destruct (ln_buf L); [done|simpl in *; lia].
Qed.
Lemma safely_erase_while p i : (i < NLINE)%nat → safe (erase_while (Z.to_nat TTY_LINE) i p).
Proof.
  intros Hi s Hs. destruct (ok_has s i Hs Hi) as (L & HL & Hok). pose proof (lo_buf _ Hok).
  eapply wp_mono; [apply (erase_while_ok p i _ s (ln_buf L)); [done|done|unfold buf_of; by rewrite HL|lia]|]. done.
Qed.
Lemma safely_erase_one i : (i < NLINE)%nat → safe (erase_one i).
Proof.
  intros Hi s Hs. destruct (ok_has s i Hs Hi) as (L & HL & Hok).
  eapply wp_mono; [apply (erase_one_ok i s (ln_buf L)); [done|done|unfold buf_of; by rewrite HL]|]. naive_solver.
Qed.
Lemma safely_feed_telnet i c : (i < NLINE)%nat → safe (feed_telnet i c).
Proof.
  intros Hi. unfold feed_telnet. safe_step. cbv zeta. safe; try done; try same_line.
  all: apply safely_on; [done|]; by intros ? [].
Qed.
Lemma safely_feed_cooked i c : (i < NLINE)%nat → safe (feed_cooked i c).
Proof.
  intros Hi. unfold feed_cooked, line_done, erase_line, erase_word. safe; try (by apply safely_erase_while); try (by apply safely_erase_one).
  - apply safely_on; [done|]. intros L HL. by apply line_ok_nil, q_put_ok, q_put_ok.
  - case_match; [same_line|]. by apply line_ok_nil, q_put_ok.
  - apply line_ok_buf; [done|]. rewrite length_app. simpl. unfold TTY_LINE in *. lia.
Qed.
Lemma safely_feed_data i c : (i < NLINE)%nat → safe (feed_data i c).
Proof.
  intros Hi. unfold feed_data. safe.
  - apply safely_modify. by intros s [].
  - same_line.
  - apply safely_on; [done|]. apply line_ok_nil.
  - unfold feed_raw. safe; [same_line|]. apply q_put_ok. same_line.
  - by apply safely_feed_cooked.
Qed.
Lemma safely_feed_bytes i d : (i < NLINE)%nat → safe (feed_bytes i d).
Proof.
  intros Hi. induction d as [|c d IH]; cbn [feed_bytes]; [by safe|]. unfold feed_byte. safe; try done.
  - by apply safely_feed_telnet.
  - by apply safely_feed_data.
Qed.
Lemma safely_reader i got : (i < NLINE)%nat → safe (reader i got).
Proof.
  intros Hi. unfold reader.
  assert (safe (let* L := ln_at i in let* live := gets (tty_sys_alive (ln_intr_task L)) in
     let* _ := (if (0 <? ln_intr_task L) && live then tty_sys_kill (ln_intr_task L) else pret ()) in
     let* _ := put_ln i (L <| ln_intr_task := 0 |> <| ln_dead := true |>) in pret true)) as Hend.
  { safe; [apply safely_modify; by intros s []|same_line]. }
  safe_step; [|safe]. destruct got as [[|c d]|]; [done| |done]. by apply safely_feed_bytes.
Qed.

(** ** Lines and files *)

Lemma zero_line_ok L : ln_buf L = [] → ln_q L = [] → ln_waiter L = -1 → line_ok L.
Proof. intros H1 H2 H3. split; rewrite ?H1, ?H2, ?H3; done. Qed.
Lemma safely_open p : safe (tty_vfs_open p).
Proof. intros s []. unfold wp, tty_vfs_open. simpl. by destruct (opens s). Qed.
Lemma safely_close f : safe (tty_vfs_close f).
Proof. apply safely_modify. by intros s []. Qed.
Lemma safely_stack : safe malloc_stack.
Proof. intros s Hs. unfold wp, malloc_stack. destruct (no_stack s); [done|]. by destruct Hs. Qed.
Lemma safely_thread : safe tty_sys_thread.
Proof. intros s Hs. unfold wp, tty_sys_thread. destruct (threads s); [done|]. by destruct Hs. Qed.
Lemma safely_line_new p owner : safely (line_new p owner) (λ o, ∀ i, o = Some i → (i < NLINE)%nat).
Proof.
  unfold line_new. safe_step. case_match eqn:E; [|apply safely_ret; by intros ? [=]].
  assert (n < NLINE)%nat as Hn by (unfold find_line in E; repeat case_match; simplify_eq;
    match goal with H : find_from _ _ _ = Some _ |- _ => apply find_from_Some in H; lia end).
  eapply safely_bind; [by apply safely_ln_at|intros L HL].
  eapply safely_bind; [apply safely_open|intros f _]. apply safely_if; intros Hf.
  { eapply safely_bind; [by apply safely_put, zero_line_ok|intros _ _]. apply safely_ret. by intros ? [=]. }
  eapply (safely_bind _ _ (λ _, True)); [apply safely_if; intros _; [by apply safely_ret|apply safely_stack]|intros got _].
  apply safely_if; intros Hg.
  { eapply safely_bind; [by apply safely_put, zero_line_ok|intros _ _].
    eapply safely_bind; [apply safely_close|intros _ _]. apply safely_ret. by intros ? [=]. }
  eapply safely_bind; [apply safely_thread|intros t _].
  eapply safely_bind; [by apply safely_put, zero_line_ok|intros _ _]. apply safely_if; intros Ht.
  - eapply safely_bind; [apply safely_close|intros _ _]. apply safely_ret. by intros ? [=].
  - apply safely_ret. by intros i [= <-].
Qed.
Lemma safely_line_close i : (i < NLINE)%nat → safe (line_close i).
Proof. intros Hi. unfold line_close. safe; [apply safely_close|same_line]. Qed.
Lemma first_line_fits q : (first_line q ≤ length q)%nat.
Proof. induction q as [|c q IH]; simpl; [lia|]. case_match; lia. Qed.
Lemma safely_take i r : (i < NLINE)%nat → len r ≤ VFS_DATA_MAX → safe (tty_take i r).
Proof.
  intros Hi Hr. unfold tty_take. safe_step. cbv zeta. set (m := Z.of_nat (if ln_rawmode a then _ else _)).
  set (n := if len r <? m then len r else m).
  assert (n ≤ VFS_DATA_MAX) by (unfold n; case_match; lia).
  clearbody n. safe; [exfalso; lia|]. destruct H. constructor; simpl; try done. rewrite length_drop. lia.
Qed.
Lemma safely_send t r : safe (tty_sys_send t r).
Proof. apply safely_modify. by intros s []. Qed.
Lemma tty_take_len i r s r' s' : tty_take i r s = Some (r', s') → len r' = len r.
Proof.
  unfold tty_take, ln_at, pbind. destruct (lines s !! i) as [L|]; [|done]. cbv zeta.
  destruct (0 <? _); [|by intros [= <- _]]. destruct (VFS_DATA_MAX <? _); [done|]. by intros [= <- _].
Qed.
Lemma safely_serve_line i : (i < NLINE)%nat → safe (serve_line i).
Proof.
  intros Hi. unfold serve_line. safe_step.
  destruct (negb (ln_used a) || (ln_waiter a <? 0)) eqn:E; [by safe|].
  assert (len (ln_req a) ≤ VFS_DATA_MAX) as Hl by (apply H; lia). safe_step; [by safe|]. safe_step. safe_step; [safe; by destruct H|].
  eapply (safely_bind _ _ (λ r, len r ≤ VFS_DATA_MAX)).
  { intros s Hs. destruct (wp_run _ _ _ (safely_take i _ Hi Hl s Hs)) as (r & s' & Hr & Hok & _).
    unfold wp. rewrite Hr. split; [done|]. by rewrite (tty_take_len _ _ _ _ _ Hr). }
  intros r Hrl. safe_step; [apply safely_on; [done|]; by intros ? []|].
  unfold tty_sys_trysend. safe; try apply safely_send. all: apply safely_on; [done|]. all: intros ? []; by constructor.
Qed.
Lemma safely_serve_lines a n : (a + n ≤ NLINE)%nat → safe (serve_lines a n).
Proof.
  revert a. induction n as [|n IH]; intros a Hn; cbn [serve_lines]; [by safe|]. safe_step; [apply safely_serve_line; lia|].
  apply IH. lia.
Qed.
Lemma safely_pf_alloc o : safely (pf_alloc o) (λ k, ∀ i, k = Some i → (i < NPF)%nat).
Proof.
  unfold pf_alloc. safe_step. cbv zeta. case_match eqn:E; [|apply safely_ret; by intros ? [=]].
  eapply safely_bind; [apply safely_modify; intros s Hs; apply ok_set_file; [done|by constructor]|intros _ _].
  apply safely_ret. intros i [= <-]. repeat case_match; simplify_eq;
    match goal with H : find_from _ _ _ = Some _ |- _ => apply find_from_Some in H; lia end.
Qed.
Lemma uutoa_digit i : (i < 10)%nat → length (uutoa (Z.of_nat i)) = 1%nat.
Proof. intros Hi. do 10 (destruct i as [|i]; [done|]). lia. Qed.
Lemma dir_lines_length l i cap o :
  (i + length l < 10)%nat → (length (dir_lines l i cap o) ≤ length o + 6 * length l)%nat.
Proof.
  revert i o. induction l as [|L l IH]; intros i o Hi; cbn [dir_lines length]; [lia|]. simpl in Hi.
  destruct (_ <? _); [|lia]. etrans; [apply IH; lia|]. case_match; [|lia].
  rewrite !length_app, uutoa_digit by lia. simpl. lia.
Qed.
Lemma format_dir_fits s : tty_ok s → Z.of_nat (length (format_dir s TTY_BUF)) ≤ TTY_BUF.
Proof.
  intros Hs. unfold format_dir, TTY_BUF. pose proof (dir_lines_length (lines s) 0 256 (str "- 0 ctl" ++ [10])) as H.
  rewrite (ty_lines _ Hs) in H. unfold NLINE in H. specialize (H ltac:(lia)). change (length (str "- 0 ctl" ++ [10])) with 8%nat in H. lia.
Qed.
Lemma ok_alter_file s k g : tty_ok s → (∀ f, tfile_ok f → tfile_ok (g f)) → tty_ok (s <| pf := alter g k (pf s) |>).
Proof.
  intros [H1 H2 H3 H4] Hg. constructor; simpl; try done; [by rewrite length_alter|].
  apply Forall_alter; [done|]. intros f _ Hf. by apply Hg.
Qed.
Lemma nth_file_ok s k : tty_ok s → tfile_ok (nth k (pf s) zero_tfile).
Proof.
  intros Hs. rewrite nth_lookup. destruct (pf s !! k) as [f|] eqn:E; [|done].
  eapply Forall_lookup_1; [apply Hs|done].
Qed.
Lemma safely_tty_open from r : safe (tty_open from r).
Proof.
  unfold tty_open. cbv zeta. safe_step.
  - eapply safely_bind; [apply safely_pf_alloc|intros o Ho]. destruct o as [k|]; [|by safe].
    safe_step. safe_step; [|by safe]. safe. apply safely_modify. intros s Hs.
    apply ok_set_file; [done|]. constructor; simpl; [by apply format_dir_fits|].
    apply to_pos. by apply nth_file_ok.
  - by safe.
Qed.
Lemma zero_in_spaces t : 0 ∈ t → 0 ∈ ctl_spaces t.
Proof.
  induction t as [|c t IH]; [done|]. simpl. intros H. destruct (Z.eqb_spec c 32) as [->|]; [|done].
  apply IH. by apply elem_of_cons in H as [|].
Qed.
Lemma ctl_path_ok n t : 0 ∈ t → is_Some (ctl_path n t).
Proof.
  revert n. induction t as [|c t IH]; intros n H; [by apply elem_of_nil in H|]. simpl.
  destruct ((c =? 0) || (c =? 10)) eqn:E; [by eexists|]. destruct n as [|n]; [by eexists|].
  apply elem_of_cons in H as [<-|H]; [done|]. destruct (IH n H) as [p ->]. by eexists.
Qed.
Lemma digits_stop w t v : 0 ∈ t → (digits w t v).2 ≠ [].
Proof.
  revert v. induction t as [|c t IH]; intros v H; [by apply elem_of_nil in H|]. simpl.
  destruct (is_digit c) eqn:E; [|done]. apply IH. apply elem_of_cons in H as [<-|H]; done.
Qed.
Lemma elem_of_drop_more (x : Z) n m l : (n ≤ m)%nat → x ∈ drop m l → x ∈ drop n l.
Proof.
  intros H Hx. replace m with (n + (m - n))%nat in Hx by lia. rewrite <- drop_drop in Hx.
  rewrite <- (take_drop (m - n) (drop n l)). apply elem_of_app. by right.
Qed.
Lemma safely_do_ctl d from : 0 ∈ drop 5 d → safely (do_ctl d from) (λ t, Z.of_nat (length t) ≤ TTY_BUF).
Proof.
  intros H0. unfold do_ctl. unfold TTY_BUF. safe_step.
  - assert (0 ∈ drop 3 d) as H3 by (apply (elem_of_drop_more 0 3 5); [lia|done]).
    destruct (ctl_path_ok 127 _ (zero_in_spaces _ H3)) as [p ->].
    eapply safely_bind; [apply safely_line_new|]. intros o Ho. apply safely_ret. destruct o as [i|]; [|done].
    specialize (Ho i eq_refl). unfold NLINE in Ho. rewrite !length_app, uutoa_digit by lia. done.
  - safe_step; [|by apply safely_ret]. cbv zeta.
    pose proof (digits_stop i32 _ 0 (zero_in_spaces _ H0)) as Hd. destruct (digits _ _ _) as [v t]. cbn [fst snd] in *.
    destruct (Nat.eqb_spec (length t) 0) as [Et|_]; [by apply nil_length_inv in Et|].
    safe_step. apply safely_if; intros Hv; [by apply safely_ret|]. eapply safely_bind; [|by intros _ _; apply safely_ret].
    apply safely_line_close. apply orb_false_elim in Hv as [[?%Z.ltb_ge ?%Z.leb_gt]%orb_false_elim _]. unfold NLINE in *. lia.
Qed.
Lemma line_of_lt f s i : line_of f s = Some i → (i < NLINE)%nat.
Proof. unfold line_of. case_match eqn:E; [done|]. intros [= <-].
  apply orb_false_elim in E as [[?%Z.ltb_ge ?%Z.leb_gt]%orb_false_elim _]. unfold NLINE in *. lia. Qed.
Lemma safely_tty_write from r : req_ok r → safe (tty_write from r).
Proof.
  intros Hr. unfold tty_write. safe_step. destruct (pf_of (fd r)) as [k|].
  - eapply safely_bind; [apply safely_do_ctl, Hr|]. intros t Ht. safe.
    apply safely_modify. intros s Hs. apply ok_alter_file; [done|]. intros f Hf. by constructor.
  - destruct (line_of (fd r) a) as [i|] eqn:El; [|by safe]. safe_step.
    + exfalso. pose proof (rq_len _ Hr). pose proof (rq_data _ Hr). lia.
    + apply line_of_lt in El. by safe.
Qed.
Lemma safely_tty_read from r : req_ok r → safe (tty_read from r).
Proof.
  intros Hr. unfold tty_read. safe_step. destruct (pf_of (fd r)) as [k|].
  - cbv zeta. set (f := nth k (pf a) zero_tfile). set (n := if (if _ <? _ then _ else _) <? 0 then _ else _).
    pose proof (nth_file_ok a k H : tfile_ok f) as [Hf1 Hf2].
    assert (0 ≤ n) by (unfold n; repeat case_match; lia). clearbody n. safe.
    apply safely_modify. intros s Hs. apply ok_set_file; [done|]. constructor; simpl; [done|lia].
  - destruct (line_of (fd r) a) as [i|] eqn:El; [|by safe]. apply line_of_lt in El.
    safe_step. safe_step; [safe; apply safely_take; [done|apply Hr]|].
    safe. destruct H0. constructor; simpl; try done. intros _. apply Hr.
Qed.
Lemma safely_tty_close r : safe (tty_close r).
Proof.
  unfold tty_close. safe. apply safely_modify. intros s Hs. apply ok_alter_file; [done|]. by intros f [].
Qed.
Lemma safely_tty_ioctl doc conf r : safe (tty_ioctl doc conf r).
Proof.
  unfold tty_ioctl. do 4 (first [safe_step; [by safe|] | safe_step]). destruct (line_of (fd r) a) as [i|] eqn:El; [|by safe].
  apply line_of_lt in El. safe; [same_line|]. match goal with H : line_ok _ |- _ => destruct H end. by constructor.
Qed.

Section server.
Context (tty_doc tty_conf : list Z).

Lemma safely_turn from r : req_ok r → safe (tty_turn tty_doc tty_conf from r).
Proof.
  intros Hr. unfold tty_turn. safe_step. safe_step; [unfold serve_parked; by apply safely_serve_lines|].
  safe_step; [|safe; apply safely_send].
  safe; first [apply safely_tty_open|by apply safely_tty_read|by apply safely_tty_write|apply safely_tty_ioctl|apply safely_tty_close].
Qed.
(** What can happen to the server: a message, or an answer of the device of
    one of its lines to the thread that reads it. *)
Inductive event := Message (from : Z) (r : vfs_req) | Device (i : nat) (got : option (list Z)).
Definition event_ok (e : event) : Prop :=
  match e with Message _ r => req_ok r | Device i _ => (i < NLINE)%nat end.
Definition handle (e : event) : prog tty () :=
  match e with
  | Message from r => tty_turn tty_doc tty_conf from r
  | Device i got => let* _ := reader i got in pret ()
  end.
Fixpoint handle_all (l : list event) : prog tty () :=
  match l with [] => pret () | e :: l' => let* _ := handle e in handle_all l' end.
Lemma safely_handle e : event_ok e → safe (handle e).
Proof.
  destruct e as [from r|i got]; intros He; [by apply safely_turn|]. simpl. safe. by apply safely_reader.
Qed.

End server.

(** ** Where typing is lost *)

Definition one_line_tty (L : line) (busy : list Z) : tty :=
  mkTty (L :: repeat (zero_line <| ln_waiter := -1 |>) 7) (repeat zero_tfile 4) [] [] [] [] [] [] [] [70] [] busy [].
Definition a_line : line := zero_line <| ln_used := true |> <| ln_raw := 7 |> <| ln_waiter := -1 |> <| ln_thread := 100 |> <| ln_owner := 70 |>.
Definition ask (op fd len : Z) (d : list Z) : vfs_req :=
  mkReq op fd [] len 0 0 (d ++ repeat 0 (Z.to_nat VFS_DATA_MAX - length d)).
Definition parked_line (q : list Z) : line :=
  a_line <| ln_waiter := 70 |> <| ln_req := ask VFS_READ FD_LINE0 512 [] |> <| ln_q := q |>.
(** A parked client that is not yet waiting when the main loop has its line:
    the line leaves the queue, nothing is sent, and the client stays parked
    with nothing for it; the next line it gets is the one after. *)
Theorem line_lost_when_client_busy :
  match serve_parked (one_line_tty (parked_line [108; 115; 10]) [70]) with
  | Some (_, s) =>
      answers s = [] ∧ ln_q (nth 0 (lines s) zero_line) = [] ∧ ln_waiter (nth 0 (lines s) zero_line) = 70 ∧
      match (let* _ := reader 0 (Some [120; 13]) in serve_parked) (s <| tty_busy := [] |>) with
      | Some (_, s') => (λ a, take (Z.to_nat (result a.2)) (data a.2)) <$> answers s' = [[120; 10]]
      | None => False
      end
  | None => False
  end.
Proof. vm_compute. done. Qed.
(** One Enter of a client that sends CR LF is two lines in cooked mode. *)
Theorem crlf_is_two_lines :
  match reader 0 (Some [97; 13; 10]) (one_line_tty a_line []) with
  | Some (_, s) => ln_q (nth 0 (lines s) zero_line) = [97; 10; 10]
  | None => False
  end.
Proof. vm_compute. done. Qed.
(** A line that does not fit in the queue loses its end and its newline, and
    the next one joins it. *)
Theorem full_queue_joins_lines :
  match reader 0 (Some [97; 98; 99; 100; 13]) (one_line_tty (a_line <| ln_q := repeat 120 1022 |>) []) with
  | Some (_, s) => ln_q (nth 0 (lines s) zero_line) = repeat 120 1022 ++ [97; 98]
  | None => False
  end.
Proof. vm_compute. done. Qed.
(** Closing a line tells nobody: the reader parked on it gets no answer, and
    the last message of its thread is taken for a request and answered. *)
Definition closed_tty : tty :=
  match tty_turn [] [] 71 (ask VFS_WRITE FD_PF0 8 (str "close 0")) (one_line_tty (parked_line []) []) with
  | Some (_, s) => s
  | None => one_line_tty a_line []
  end.
Theorem close_strands_the_reader :
  (answers closed_tty).*1 = [71] ∧ ln_waiter (nth 0 (lines closed_tty) zero_line) = 70 ∧
  match tty_turn [] [] 100 (ask VFS_OPEN 0 0 []) closed_tty with
  | Some (_, s) => (answers s).*1 = [71; 100]
  | None => False
  end.
Proof. vm_compute. done. Qed.
(** The length of a read is believed: above 512 the copy runs past the
    request. *)
Theorem long_read_overruns :
  tty_turn [] [] 70 (ask VFS_READ FD_LINE0 600 []) (one_line_tty (a_line <| ln_rawmode := true |> <| ln_q := repeat 120 600 |>) []) = None.
Proof. vm_compute. done. Qed.
(** The line of a dead owner is taken over with its thread still reading:
    the old device stays open, and the new thread starts on the stack the
    old one stands on, for malloc, which would refuse, is not asked. *)
Theorem reclaimed_line_keeps_its_thread :
  match line_new [47] 71 (mkTty (repeat (a_line <| ln_stack := true |>) 8) (repeat zero_tfile 4) [] [] [9] [] [] [true] [101] [71] [] [] []) with
  | Some (o, s) =>
      o = Some 0%nat ∧ closed s = [] ∧ ln_raw (nth 0 (lines s) zero_line) = 9 ∧ ln_thread (nth 0 (lines s) zero_line) = 101
  | None => False
  end.
Proof. vm_compute. done. Qed.
