(* ===== verification/FsProto.v ===== *)
(** * The file protocol on a wire (src/src/fsproto.h)

    [fs_encode] writes a message field by field; [fs_decode] reads one
    from the front of a stream and can say "a message", "not yet" and
    "never".  Bytes are integers below 256. *)
From stdpp Require Import base list numbers option.
From S2P Require Import Prelude.
Local Open Scope Z_scope.

Definition VFS_PATH_MAX : Z := 128.
Definition VFS_DATA_MAX : Z := 512.
Definition FS_HDR : Z := 32.
Definition FS_MAXMSG : Z := FS_HDR + VFS_PATH_MAX + VFS_DATA_MAX.

(** [struct fs_msg]; the two arrays keep their full size. *)
Record fs_msg := mkMsg
  { tag : Z; kind : Z; op : Z; fd : Z; count : Z; result : Z; ioctl : Z;
    pathlen : Z; datalen : Z; path : list Z; data : list Z }.

Definition fs_put32 (v : Z) : list Z := [u8 v; u8 (Z.shiftr v 8); u8 (Z.shiftr v 16); u8 (Z.shiftr v 24)].
Definition fs_put16 (v : Z) : list Z := [u8 v; u8 (Z.shiftr v 8)].
Definition fs_get32 (p : list Z) : Z :=
  Z.lor (p !!! 0%nat) (Z.lor (Z.shiftl (p !!! 1%nat) 8)
    (Z.lor (Z.shiftl (p !!! 2%nat) 16) (Z.shiftl (p !!! 3%nat) 24))).
Definition fs_get16 (p : list Z) : Z := Z.lor (p !!! 0%nat) (Z.shiftl (p !!! 1%nat) 8).

Definition clamp (n hi : Z) : Z := let n := if n <? 0 then 0 else n in if hi <? n then hi else n.
(** The first [len] bytes of [out], or [None] for the answer -1. *)
Definition fs_encode (m : fs_msg) (cap : Z) : option (list Z) :=
  let pl := clamp (pathlen m) VFS_PATH_MAX in
  let dl := clamp (datalen m) VFS_DATA_MAX in
  let len := FS_HDR + pl + dl in
  if cap <? len then None
  else Some
    (fs_put32 len ++ fs_put16 (tag m) ++ [u8 (kind m)] ++ [u8 (op m)] ++
     fs_put32 (u32 (fd m)) ++ fs_put32 (u32 (count m)) ++ fs_put32 (u32 (result m)) ++
     fs_put32 (Z.land (ioctl m) 0xffffffff) ++ fs_put32 (Z.shiftr (ioctl m) 32) ++
     fs_put16 pl ++ fs_put16 dl ++
     take (Z.to_nat pl) (path m) ++ take (Z.to_nat dl) (data m)).

(** [for (i = 0; i < n; i++) dst[i] = src[i];] *)
Definition overwrite (n : Z) (src dst : list Z) : list Z :=
  take (Z.to_nat n) src ++ drop (Z.to_nat n) dst.

(** The answer, and [*m] afterwards: the fields are written before the
    lengths are judged, as in the source. *)
Definition fs_decode (inp : list Z) (have : Z) (m : fs_msg) : Z * fs_msg :=
  if have <? 4 then (0, m)
  else
    let len := fs_get32 inp in
    if (len <? FS_HDR) || (FS_MAXMSG <? len) then (-1, m)
    else if have <? len then (0, m)
    else
      let m1 := mkMsg (fs_get16 (drop 4 inp)) (inp !!! 6%nat) (inp !!! 7%nat)
                  (i32 (fs_get32 (drop 8 inp))) (i32 (fs_get32 (drop 12 inp)))
                  (i32 (fs_get32 (drop 16 inp)))
                  (Z.lor (fs_get32 (drop 20 inp)) (Z.shiftl (fs_get32 (drop 24 inp)) 32))
                  (fs_get16 (drop 28 inp)) (fs_get16 (drop 30 inp)) (path m) (data m) in
      if (pathlen m1 <? 0) || (VFS_PATH_MAX <? pathlen m1) || (datalen m1 <? 0)
         || (VFS_DATA_MAX <? datalen m1) || negb (FS_HDR + pathlen m1 + datalen m1 =? len)
      then (-1, m1)
      else
        (len, mkMsg (tag m1) (kind m1) (op m1) (fd m1) (count m1) (result m1) (ioctl m1)
                (pathlen m1) (datalen m1)
                (overwrite (pathlen m1) (drop (Z.to_nat FS_HDR) inp) (path m))
                (overwrite (datalen m1) (drop (Z.to_nat (FS_HDR + pathlen m1)) inp) (data m))).

(** ** Little-endian fields *)

Definition bytes (l : list Z) : Prop := Forall (λ c, 0 ≤ c < 256) l.
Lemma shift8 a k : 0 ≤ k → Z.shiftr a (8 * k) = a / 256 ^ k.
Proof. intros. rewrite Z.shiftr_div_pow2, Z.pow_mul_r by lia. done. Qed.
Lemma get16_bytes b0 b1 l : 0 ≤ b0 < 256 → 0 ≤ b1 < 256 → fs_get16 (b0 :: b1 :: l) = b0 + 256 * b1.
Proof.
  intros. unfold fs_get16. simpl. rewrite Z.lor_comm, Z.shiftl_mul_pow2 by lia.
  rewrite (lor_disjoint b1 b0 8) by lia. lia.
Qed.
Lemma get32_bytes b0 b1 b2 b3 l :
  bytes [b0; b1; b2; b3] → fs_get32 (b0 :: b1 :: b2 :: b3 :: l) = b0 + 256 * b1 + 65536 * b2 + 16777216 * b3.
Proof.
  intros H. unfold bytes in H. rewrite !list.Forall_cons in H. destruct H as (H0 & H1 & H2 & H3 & _).
  unfold fs_get32. simpl. rewrite !Z.shiftl_mul_pow2 by lia.
  rewrite (Z.lor_comm (b2 * 2 ^ 16)), (lor_disjoint b3 (b2 * 2 ^ 16) 24) by lia.
  replace (b3 * 2 ^ 24 + b2 * 2 ^ 16) with ((b3 * 256 + b2) * 2 ^ 16) by lia.
  rewrite (Z.lor_comm (b1 * 2 ^ 8)), (lor_disjoint _ (b1 * 2 ^ 8) 16) by lia.
  replace ((b3 * 256 + b2) * 2 ^ 16 + b1 * 2 ^ 8) with ((b3 * 65536 + b2 * 256 + b1) * 2 ^ 8) by lia.
  rewrite Z.lor_comm, (lor_disjoint _ b0 8) by lia. lia.
Qed.
Lemma u8_bytes z : 0 ≤ u8 z < 256.
Proof. apply u8_range. Qed.
Lemma put16_bytes v : bytes (fs_put16 v).
Proof. repeat constructor; apply u8_range. Qed.
Lemma put32_bytes v : bytes (fs_put32 v).
Proof. repeat constructor; apply u8_range. Qed.
Lemma get16_put16 v l : 0 ≤ v < 2 ^ 16 → fs_get16 (fs_put16 v ++ l) = v.
Proof.
  intros. unfold fs_put16. simpl. rewrite get16_bytes by apply u8_range.
  unfold u8. rewrite Z.shiftr_div_pow2 by lia. ldiv.
Qed.
Lemma get32_put32 v l : 0 ≤ v < 2 ^ 32 → fs_get32 (fs_put32 v ++ l) = v.
Proof.
  intros. unfold fs_put32. simpl. rewrite get32_bytes by apply put32_bytes.
  unfold u8. rewrite !Z.shiftr_div_pow2 by lia. ldiv.
Qed.
Lemma put16_get16 l : bytes l → (2 ≤ length l)%nat → fs_put16 (fs_get16 l) = take 2 l.
Proof.
  destruct l as [|b0 [|b1 l]]; simpl; intros Hb Hl; [lia|lia|].
  apply list.Forall_cons in Hb as [H0 Hb]. apply list.Forall_cons in Hb as [H1 Hb].
  rewrite get16_bytes by done. unfold fs_put16, u8. rewrite Z.shiftr_div_pow2 by lia.
  f_equal; [ldiv|f_equal; ldiv].
Qed.
Lemma put32_get32 l : bytes l → (4 ≤ length l)%nat → fs_put32 (fs_get32 l) = take 4 l.
Proof.
  destruct l as [|b0 [|b1 [|b2 [|b3 l]]]]; simpl; intros Hb Hl; try lia.
  change (bytes ([b0; b1; b2; b3] ++ l)) in Hb. apply list.Forall_app in Hb as [Hb _].
  rewrite get32_bytes by done. rewrite !list.Forall_cons in Hb. destruct Hb as (H0 & H1 & H2 & H3 & _).
  unfold fs_put32, u8. rewrite !Z.shiftr_div_pow2 by lia.
  f_equal; [ldiv|f_equal; [ldiv|f_equal; [ldiv|f_equal; ldiv]]].
Qed.

(** ** Round trips *)

(** A message whose fields fit their C types and whose lengths fit the arrays. *)
Record msg_ok (m : fs_msg) : Prop := {
  mo_tag : 0 ≤ tag m < 2 ^ 16;
  mo_kind : 0 ≤ kind m < 256;
  mo_op : 0 ≤ op m < 256;
  mo_fd : - 2 ^ 31 ≤ fd m < 2 ^ 31;
  mo_count : - 2 ^ 31 ≤ count m < 2 ^ 31;
  mo_result : - 2 ^ 31 ≤ result m < 2 ^ 31;
  mo_ioctl : 0 ≤ ioctl m < 2 ^ 64;
  mo_pathlen : 0 ≤ pathlen m ≤ VFS_PATH_MAX;
  mo_datalen : 0 ≤ datalen m ≤ VFS_DATA_MAX;
  mo_path : length (path m) = Z.to_nat VFS_PATH_MAX;
  mo_data : length (data m) = Z.to_nat VFS_DATA_MAX }.
(** [m] received over what was in [m0]. *)
Definition received (m m0 : fs_msg) : fs_msg :=
  mkMsg (tag m) (kind m) (op m) (fd m) (count m) (result m) (ioctl m) (pathlen m) (datalen m)
    (overwrite (pathlen m) (path m) (path m0)) (overwrite (datalen m) (data m) (data m0)).

Definition header (m : fs_msg) (len pl dl : Z) : list Z :=
  fs_put32 len ++ fs_put16 (tag m) ++ [u8 (kind m)] ++ [u8 (op m)] ++
  fs_put32 (u32 (fd m)) ++ fs_put32 (u32 (count m)) ++ fs_put32 (u32 (result m)) ++
  fs_put32 (Z.land (ioctl m) 0xffffffff) ++ fs_put32 (Z.shiftr (ioctl m) 32) ++
  fs_put16 pl ++ fs_put16 dl.
Lemma fs_encode_header m cap :
  fs_encode m cap =
  let pl := clamp (pathlen m) VFS_PATH_MAX in
  let dl := clamp (datalen m) VFS_DATA_MAX in
  if cap <? FS_HDR + pl + dl then None
  else Some (header m (FS_HDR + pl + dl) pl dl ++ take (Z.to_nat pl) (path m) ++ take (Z.to_nat dl) (data m)).
Proof. unfold fs_encode, header. cbn zeta. destruct (_ <? _); [done|]. by rewrite <- !(assoc_L (++)). Qed.
Lemma clamp_ok n hi : 0 ≤ n ≤ hi → clamp n hi = n.
Proof. intros. unfold clamp. cbn zeta. destruct (Z.ltb_spec n 0); [lia|]. destruct (Z.ltb_spec hi n); lia. Qed.
Lemma clamp_range n hi : 0 ≤ hi → 0 ≤ clamp n hi ≤ hi.
Proof. intros. unfold clamp. cbn zeta. destruct (Z.ltb_spec n 0); split_ifs; lia. Qed.
Lemma take_overwrite n (a b : list Z) : take n (take n a ++ b) = take n a ++ take (n - length (take n a)) b.
Proof. by rewrite take_app, take_take, Nat.min_id. Qed.
Lemma halves v : 0 ≤ v < 2 ^ 64 → Z.lor (Z.land v 0xffffffff) (Z.shiftl (Z.shiftr v 32) 32) = v.
Proof.
  intros. rewrite Z.lor_comm, Z.shiftl_mul_pow2, Z.shiftr_div_pow2 by lia.
  change 0xffffffff with (2 ^ 32 - 1). rewrite land_mask by lia.
  rewrite lor_disjoint by (try apply Z.mod_pos_bound; lia). ldiv.
Qed.

(** Reading the fields of a header back. *)
Lemma fs_decode_header m0 m len pl dl rest have :
  0 ≤ tag m < 2 ^ 16 → 0 ≤ kind m < 256 → 0 ≤ op m < 256 →
  - 2 ^ 31 ≤ fd m < 2 ^ 31 → - 2 ^ 31 ≤ count m < 2 ^ 31 → - 2 ^ 31 ≤ result m < 2 ^ 31 →
  0 ≤ ioctl m < 2 ^ 64 → 0 ≤ pl ≤ VFS_PATH_MAX → 0 ≤ dl ≤ VFS_DATA_MAX → len = FS_HDR + pl + dl →
  len ≤ have →
  fs_decode (header m len pl dl ++ rest) have m0 =
    (len, mkMsg (tag m) (kind m) (op m) (fd m) (count m) (result m) (ioctl m) pl dl
            (overwrite pl rest (path m0)) (overwrite dl (drop (Z.to_nat pl) rest) (data m0))).
Proof.
  intros Ht Hk Ho Hf Hc Hr Hi Hp Hd -> Hh. unfold FS_HDR, VFS_PATH_MAX, VFS_DATA_MAX in *.
  assert (0 ≤ Z.shiftr (ioctl m) 32 < 2 ^ 32) as Hi2.
  { rewrite Z.shiftr_div_pow2 by lia. ldiv. }
  assert (0 ≤ Z.land (ioctl m) 0xffffffff < 2 ^ 32) as Hi1.
  { change 0xffffffff with (2 ^ 32 - 1). rewrite land_mask by lia. apply Z.mod_pos_bound. lia. }
  set (H := header m _ pl dl ++ rest).
  assert (∀ k v, drop k H = fs_put32 v ++ drop (4 + k) H → 0 ≤ v < 2 ^ 32 → fs_get32 (drop k H) = v) as G32.
  { intros k v -> Hv. by apply get32_put32. }
  assert (∀ k v, drop k H = fs_put16 v ++ drop (2 + k) H → 0 ≤ v < 2 ^ 16 → fs_get16 (drop k H) = v) as G16.
  { intros k v -> Hv. by apply get16_put16. }
  pose proof (G32 0%nat (32 + pl + dl) eq_refl ltac:(lia)) as E0. rewrite drop_0 in E0.
  unfold fs_decode. destruct (Z.ltb_spec have 4); [lia|]. rewrite E0. cbn zeta.
  destruct (Z.ltb_spec (32 + pl + dl) FS_HDR); [unfold FS_HDR in *; lia|].
  destruct (Z.ltb_spec FS_MAXMSG (32 + pl + dl)); [unfold FS_MAXMSG, FS_HDR, VFS_PATH_MAX, VFS_DATA_MAX in *; lia|].
  destruct (Z.ltb_spec have (32 + pl + dl)); [lia|]. cbn [orb].
  rewrite (G16 4%nat (tag m) eq_refl), (G16 28%nat pl eq_refl), (G16 30%nat dl eq_refl) by lia.
  rewrite (G32 8%nat (u32 (fd m)) eq_refl), (G32 12%nat (u32 (count m)) eq_refl),
    (G32 16%nat (u32 (result m)) eq_refl) by apply u32_range.
  rewrite (G32 20%nat _ eq_refl Hi1), (G32 24%nat _ eq_refl Hi2), halves, !i32_u32, !i32_small by done.
  change (H !!! 6%nat) with (u8 (kind m)). change (H !!! 7%nat) with (u8 (op m)).
  rewrite !u8_small by lia. cbn [pathlen datalen].
  unfold FS_HDR, VFS_PATH_MAX, VFS_DATA_MAX.
  destruct (Z.ltb_spec pl 0), (Z.ltb_spec 128 pl), (Z.ltb_spec dl 0), (Z.ltb_spec 512 dl); try lia.
  rewrite Z.eqb_refl. cbn [orb negb tag kind op fd count result ioctl]. f_equal.
  replace (drop (Z.to_nat (32 + pl)) H) with (drop (Z.to_nat pl) rest); [done|].
  replace (Z.to_nat (32 + pl)) with (32 + Z.to_nat pl)%nat by lia. by rewrite <- drop_drop.
Qed.
Lemma header_length m len pl dl : length (header m len pl dl) = 32%nat.
Proof. done. Qed.
Lemma overwrite_take n src rest dst : overwrite n (take (Z.to_nat n) src ++ rest) dst
  = take (Z.to_nat n) src ++ take (Z.to_nat n - length (take (Z.to_nat n) src)) rest ++ drop (Z.to_nat n) dst.
Proof. unfold overwrite. by rewrite take_overwrite, <- (assoc_L (++)). Qed.
Lemma overwrite_full n src rest dst :
  (Z.to_nat n ≤ length src)%nat → overwrite n (take (Z.to_nat n) src ++ rest) dst = overwrite n src dst.
Proof.
  intros H. rewrite overwrite_take, length_take, Nat.min_l, Nat.sub_diag by lia. done.
Qed.

Lemma fs_encode_ok m cap out :
  msg_ok m → fs_encode m cap = Some out →
  let body := take (Z.to_nat (pathlen m)) (path m) ++ take (Z.to_nat (datalen m)) (data m) in
  out = header m (FS_HDR + pathlen m + datalen m) (pathlen m) (datalen m) ++ body ∧
  Z.of_nat (length out) = FS_HDR + pathlen m + datalen m.
Proof.
  intros [Ht Hk Ho Hf Hc Hr Hi Hp Hd Lp Ld]. rewrite fs_encode_header. cbn zeta.
  rewrite !clamp_ok by done. destruct (_ <? _); [done|]. intros E. apply (inj Some) in E as <-. split; [done|].
  rewrite !length_app, header_length, !length_take, Lp, Ld. unfold FS_HDR, VFS_PATH_MAX, VFS_DATA_MAX in *. lia.
Qed.
Lemma fs_roundtrip_spec m m0 cap out rest :
  msg_ok m → fs_encode m cap = Some out →
  fs_decode (out ++ rest) (Z.of_nat (length (out ++ rest))) m0 = (Z.of_nat (length out), received m m0).
Proof.
  intros Hok He. destruct (fs_encode_ok _ _ _ Hok He) as [E El]. rewrite length_app, Nat2Z.inj_add, El.
  rewrite E. destruct Hok as [Ht Hk Ho Hf Hc Hr Hi Hp Hd Lp Ld].
  rewrite <- !(assoc_L (++)), fs_decode_header by (done || lia). unfold received.
  rewrite overwrite_full by (rewrite Lp; lia).
  rewrite drop_app_length' by (rewrite length_take, Lp; lia).
  by rewrite overwrite_full by (rewrite Ld; lia).
Qed.
(** Until the last byte has arrived the answer is "not yet". *)
Lemma fs_decode_prefix m m0 cap out n :
  msg_ok m → fs_encode m cap = Some out → (n < length out)%nat →
  fs_decode (take n out) (Z.of_nat n) m0 = (0, m0).
Proof.
  intros Hok He Hn. destruct (fs_encode_ok _ _ _ Hok He) as [E El]. cbn zeta in E.
  destruct Hok as [Ht Hk Ho Hf Hc Hr Hi Hp Hd Lp Ld]. unfold FS_HDR, VFS_PATH_MAX, VFS_DATA_MAX in *.
  unfold fs_decode. destruct (Z.ltb_spec (Z.of_nat n) 4) as [|H4]; [done|].
  assert (fs_get32 (take n out) = 32 + pathlen m + datalen m) as ->.
  { do 4 (destruct n as [|n]; [lia|]). rewrite E. unfold header. rewrite <- !(assoc_L (++)).
    apply get32_put32. lia. }
  unfold FS_MAXMSG, FS_HDR, VFS_PATH_MAX, VFS_DATA_MAX.
  destruct (Z.ltb_spec (32 + pathlen m + datalen m) 32); [lia|].
  destruct (Z.ltb_spec (32 + 128 + 512) (32 + pathlen m + datalen m)); [lia|]. cbn [orb].
  destruct (Z.ltb_spec (Z.of_nat n) (32 + pathlen m + datalen m)); [done|lia].
Qed.

(** C26: a message put on the wire and read back is the message, whatever
    follows it in the stream and whatever the receiver's structure held;
    until its last byte has arrived the reader says "not yet" and leaves
    its structure alone. *)
Theorem fs_roundtrip m m0 cap out rest :
  msg_ok m → fs_encode m cap = Some out →
  fs_decode (out ++ rest) (Z.of_nat (length (out ++ rest))) m0 = (Z.of_nat (length out), received m m0) ∧
  ∀ n, (n < length out)%nat → fs_decode (take n out) (Z.of_nat n) m0 = (0, m0).
Proof. intros. split; [by eapply fs_roundtrip_spec|intros; by eapply fs_decode_prefix]. Qed.

Definition demo_msg : fs_msg :=
  mkMsg 7 1 2 (-1) 3 (-1) 0x123456789 5 3 (str "/proc" ++ replicate 123 0) (str "abc" ++ replicate 509 0).
Definition blank_msg : fs_msg := mkMsg 0 0 0 0 0 0 0 0 0 (replicate 128 0) (replicate 512 0).
Lemma fs_roundtrip_witness : ∃ out,
  fs_encode demo_msg 700 = Some out ∧
  fs_decode (out ++ [1; 2]) 42 blank_msg = (40, received demo_msg blank_msg).
Proof.
  destruct (fs_encode demo_msg 700) as [out|] eqn:E; [|vm_compute in E; discriminate E].
  exists out. split; [reflexivity|].
  destruct (fs_roundtrip demo_msg blank_msg 700 out [1; 2]) as [H _]; [split; by_compute|exact E|].
  assert (length out = 40%nat) as El by (injection E as <-; vm_compute; reflexivity).
  rewrite length_app, El in H. exact H.
Defined.

(** ** Decoding is canonical *)

Lemma get16_range l : bytes l → (2 ≤ length l)%nat → 0 ≤ fs_get16 l < 2 ^ 16.
Proof.
  destruct l as [|b0 [|b1 l]]; simpl; intros Hb Hl; [lia|lia|].
  apply list.Forall_cons in Hb as [H0 Hb]. apply list.Forall_cons in Hb as [H1 Hb].
  rewrite get16_bytes by done. lia.
Qed.
Lemma get32_range l : bytes l → (4 ≤ length l)%nat → 0 ≤ fs_get32 l < 2 ^ 32.
Proof.
  destruct l as [|b0 [|b1 [|b2 [|b3 l]]]]; simpl; intros Hb Hl; try lia.
  change (bytes ([b0; b1; b2; b3] ++ l)) in Hb. apply list.Forall_app in Hb as [Hb _].
  rewrite get32_bytes by done. rewrite !list.Forall_cons in Hb. lia.
Qed.
Lemma u32_i32 z : 0 ≤ z < 2 ^ 32 → u32 (i32 z) = z.
Proof. intros. unfold u32, i32. ldiv. Qed.
Lemma join_halves lo hi :
  0 ≤ lo < 2 ^ 32 → 0 ≤ hi →
  Z.land (Z.lor lo (Z.shiftl hi 32)) 0xffffffff = lo ∧ Z.shiftr (Z.lor lo (Z.shiftl hi 32)) 32 = hi.
Proof.
  intros. rewrite Z.lor_comm, Z.shiftl_mul_pow2, lor_disjoint, Z.shiftr_div_pow2 by lia.
  change 0xffffffff with (2 ^ 32 - 1). rewrite land_mask by lia. split; ldiv.
Qed.
(** A header cut into its fields. *)
Lemma split_header (l : list Z) :
  (32 ≤ length l)%nat →
  take 4 l ++ take 2 (drop 4 l) ++ [l !!! 6%nat] ++ [l !!! 7%nat] ++ take 4 (drop 8 l) ++ take 4 (drop 12 l) ++
  take 4 (drop 16 l) ++ take 4 (drop 20 l) ++ take 4 (drop 24 l) ++ take 2 (drop 28 l) ++ take 2 (drop 30 l)
  = take 32 l.
Proof. intros H. do 32 (destruct l as [|? l]; [simpl in H; lia|]). done. Qed.
Lemma split_body (l p d : list Z) pl dl :
  (32 + pl + dl ≤ length l)%nat →
  take 32 l ++ take pl (take pl (drop 32 l) ++ p) ++ take dl (take dl (drop (32 + pl) l) ++ d) = take (32 + pl + dl) l.
Proof.
  intros H. rewrite !take_overwrite, !length_take, !length_drop.
  replace (pl - _)%nat with 0%nat by lia. replace (dl - _)%nat with 0%nat by lia.
  rewrite !take_0, !app_nil_r, <- drop_drop. rewrite <- (take_drop 32 (take (32 + pl + dl) l)).
  rewrite take_take, Nat.min_l by lia. f_equal. rewrite <- (take_drop pl (drop 32 (take _ l))).
  rewrite !skipn_firstn_comm, !take_take. f_equal; [f_equal; lia|f_equal; lia].
Qed.

Lemma fs_decode_canonical_spec inp have m0 n m :
  bytes inp → have ≤ Z.of_nat (length inp) → fs_decode inp have m0 = (n, m) → 0 < n →
  fs_encode m FS_MAXMSG = Some (take (Z.to_nat n) inp) ∧ n ≤ have.
Proof.
  intros Hb Hh Hd Hn. unfold fs_decode in Hd. cbn zeta in Hd.
  destruct (Z.ltb_spec have 4); [injection Hd; lia|].
  destruct (Z.ltb_spec (fs_get32 inp) FS_HDR); cbn [orb] in Hd; [injection Hd; lia|].
  destruct (Z.ltb_spec FS_MAXMSG (fs_get32 inp)); [injection Hd; lia|].
  destruct (Z.ltb_spec have (fs_get32 inp)); [injection Hd; lia|].
  cbn [pathlen datalen] in Hd. destruct (_ || _) eqn:Eb; [injection Hd; lia|].
  rewrite !orb_false_iff, negb_false_iff, Z.eqb_eq, !Z.ltb_ge in Eb. destruct Eb as [[[[P0 P1] D0] D1] Hlen].
  injection Hd as <- <-. split; [|done].
  set (pl := fs_get16 (drop 28 inp)) in *. set (dl := fs_get16 (drop 30 inp)) in *.
  unfold FS_MAXMSG, FS_HDR, VFS_PATH_MAX, VFS_DATA_MAX in *.
  assert (∀ k, bytes (drop k inp)) as Hbd by (intros; by apply Forall_drop).
  assert (32 ≤ length inp)%nat as Hl by lia.
  rewrite fs_encode_header. cbn zeta. cbn [pathlen datalen].
  rewrite !clamp_ok by (unfold VFS_PATH_MAX, VFS_DATA_MAX; lia). unfold FS_HDR, VFS_PATH_MAX, VFS_DATA_MAX.
  destruct (Z.ltb_spec (32 + 128 + 512) (32 + pl + dl)); [lia|]. f_equal.
  cbn [path data]. unfold overwrite.
  assert (∀ k, (k + 4 ≤ 32)%nat → fs_put32 (fs_get32 (drop k inp)) = take 4 (drop k inp)) as P32.
  { intros k Hk. apply put32_get32; [done|rewrite length_drop; lia]. }
  assert (∀ k, (k + 4 ≤ 32)%nat → 0 ≤ fs_get32 (drop k inp) < 2 ^ 32) as R32.
  { intros k Hk. apply get32_range; [done|rewrite length_drop; lia]. }
  assert (∀ k, (k + 2 ≤ 32)%nat → fs_put16 (fs_get16 (drop k inp)) = take 2 (drop k inp)) as P16.
  { intros k Hk. apply put16_get16; [done|rewrite length_drop; lia]. }
  assert (∀ k, (k < 32)%nat → u8 (inp !!! k) = inp !!! k) as R8.
  { intros k Hk. apply u8_small. unfold bytes in Hb. rewrite list.Forall_forall in Hb. apply Hb.
    apply list_elem_of_lookup_total_2. lia. }
  destruct (join_halves (fs_get32 (drop 20 inp)) (fs_get32 (drop 24 inp))) as [J1 J2]; [apply R32; lia|apply R32; lia|].
  unfold header. cbn [tag kind op fd count result ioctl].
  rewrite !u32_i32, J1, J2, !R8, !P32 by (try apply R32; lia). unfold pl at 2, dl at 2. rewrite !P16 by lia.
  rewrite Hlen. rewrite <- (drop_0 inp) at 1 2. rewrite P32 by lia. rewrite drop_0.
  rewrite split_header by done. rewrite <- Hlen.
  replace (Z.to_nat (32 + pl + dl)) with (32 + Z.to_nat pl + Z.to_nat dl)%nat by lia.
  replace (Z.to_nat (32 + pl)) with (32 + Z.to_nat pl)%nat by lia. apply split_body. lia.
Qed.

(** The wire form is canonical: whenever the reader accepts a
    message, it consumes no more than it was given, and encoding what it
    understood gives back exactly the bytes it consumed. *)
Theorem fs_decode_canonical inp have m0 n m :
  bytes inp → have ≤ Z.of_nat (length inp) → fs_decode inp have m0 = (n, m) → 0 < n →
  fs_encode m FS_MAXMSG = Some (take (Z.to_nat n) inp) ∧ n ≤ have.
Proof. apply fs_decode_canonical_spec. Qed.

(** A ping request followed by the first byte of something else. *)
Definition demo_wire : list Z :=
  [34; 0; 0; 0; 9; 0; 0; 4; 255; 255; 255; 255; 0; 0; 0; 0; 0; 0; 0; 0; 4; 0; 0; 0; 0; 0; 0; 0; 2; 0; 0; 0;
   47; 100; 77].
Lemma fs_decode_canonical_witness :
  (fs_decode demo_wire 35 blank_msg).1 = 34 ∧
  fs_encode (fs_decode demo_wire 35 blank_msg).2 FS_MAXMSG = Some (take 34 demo_wire).
Proof.
  split; [vm_compute; reflexivity|].
  apply (fs_decode_canonical demo_wire 35 blank_msg 34).
  - repeat constructor; lia.
  - vm_compute. discriminate.
  - vm_compute. reflexivity.
  - reflexivity.
Defined.
