(* ===== verification/FatName.v ===== *)
(** * Names on a FAT volume (src/src/fat16.c)

    The padded 8.3 field, the checksum that ties long entries to it, the
    two Unicode transformation formats and the scattered units of a long
    entry.  A C string is the list of its bytes before the NUL; [char] is
    unsigned on this machine. *)
From stdpp Require Import base list numbers option sets.
From S2P Require Import Prelude.
Local Open Scope Z_scope.

Definition SPACE : Z := 32.
Definition DOT : Z := 46.
Definition LFN_CHARS : nat := 13.
Definition LFN_MAXUNITS : nat := 128.
Definition FAT_NAME_MAX : Z := 96.

Definition up (c : Z) : Z := if (97 <=? c) && (c <=? 122) then c - 32 else c.

(** [while (s[i] && s[i] != stop) i++;]: what was passed, and the rest. *)
Fixpoint until (stop : Z) (s : list Z) : list Z :=
  match s with
  | [] => []
  | c :: s' => if c =? stop then [] else c :: until stop s'
  end.
Definition from (stop : Z) (s : list Z) : list Z := drop (length (until stop s)) s.

(** ** 8.3 *)

(** The raw name field as "NAME.EXT". *)
Definition fmt_name (d : list Z) : list Z :=
  let ext := take 3 (drop 8 d) in
  until SPACE (take 8 d) ++
  (if existsb (λ c, negb (c =? SPACE)) ext then DOT :: until SPACE ext else []).

Definition pad (n : nat) (s : list Z) : list Z := s ++ replicate (n - length s) SPACE.
(** "readme.txt" as the field "README  TXT". *)
Definition to_83 (s : list Z) : list Z :=
  let ext := match from DOT s with [] => [] | _ :: e => take 3 e end in
  pad 8 (up <$> take 8 (until DOT s)) ++ pad 3 (up <$> ext).

Definition lower (c : Z) : bool := (97 <=? c) && (c <=? 122).
Definition base_char (c : Z) : bool := negb ((128 <=? c) || (c =? SPACE) || lower c).
Definition ext_char (c : Z) : bool := negb ((128 <=? c) || (c =? SPACE) || (c =? DOT) || lower c).
(** The field, if the name fits the old alphabet exactly. *)
Definition fits_83 (s : list Z) : option (list Z) :=
  let b := until DOT s in
  if negb (forallb base_char b) then None
  else if (length b =? 0)%nat || (8 <? length b)%nat then None
  else
    match from DOT s with
    | [] => Some (to_83 s)
    | _ :: e =>
        if negb (forallb ext_char e) then None
        else if (length e =? 0)%nat || (3 <? length e)%nat then None
        else Some (to_83 s)
    end.

(** Every long entry repeats this sum of the short name. *)
Definition sfn_sum (n11 : list Z) : Z :=
  foldl (λ s c, u8 (Z.shiftl (Z.land s 1) 7 + Z.shiftr s 1 + c)) 0 (take 11 n11).

(** ASCII-case-insensitive. *)
Fixpoint name_eq (a b : list Z) : bool :=
  match a, b with
  | [], [] => true
  | x :: a', y :: b' => (up x =? up y) && name_eq a' b'
  | _, _ => false
  end.

(** ** UTF-8 and UTF-16 *)

(** [while (extra--)]: the continuation bytes.  The NUL that ends the
    string is not one. *)
Fixpoint utf8_tail (extra : nat) (c : Z) (s : list Z) : option (Z * list Z) :=
  match extra with
  | O => Some (c, s)
  | S e =>
      match s with
      | [] => None
      | k :: s' => if negb (Z.land k 0xC0 =? 0x80) then None
                   else utf8_tail e (u32 (Z.lor (Z.shiftl c 6) (Z.land k 0x3F))) s'
      end
  end.
(** The lead byte: its payload and how many bytes follow. *)
Definition utf8_lead (c : Z) : option (Z * nat) :=
  if c <? 0x80 then Some (c, 0%nat)
  else if Z.land c 0xE0 =? 0xC0 then Some (Z.land c 0x1F, 1%nat)
  else if Z.land c 0xF0 =? 0xE0 then Some (Z.land c 0x0F, 2%nat)
  else if Z.land c 0xF8 =? 0xF0 then Some (Z.land c 0x07, 3%nat)
  else None.
(** [n] units have been written; each round consumes at least one byte, so
    the length of the string is enough fuel. *)
Fixpoint to_utf16_loop (fuel : nat) (s : list Z) (n max : Z) : option (list Z) :=
  match fuel, s with
  | _, [] => Some []
  | O, _ => None
  | S fuel', c0 :: s0 =>
      '(c1, extra) ← utf8_lead c0;
      '(c, s') ← utf8_tail extra c1 s0;
      if 0x10000 <=? c then
        if max <? n + 2 then None
        else
          let c := c - 0x10000 in
          l ← to_utf16_loop fuel' s' (n + 2) max;
          Some (u16 (0xD800 + Z.shiftr c 10) :: u16 (0xDC00 + Z.land c 0x3FF) :: l)
      else if max <? n + 1 then None
      else l ← to_utf16_loop fuel' s' (n + 1) max; Some (u16 c :: l)
  end.
Definition to_utf16 (s : list Z) (max : Z) : option (list Z) := to_utf16_loop (length s) s 0 max.

(** The bytes of one code point. *)
Definition utf8_emit (c : Z) : list Z :=
  if c <? 0x80 then [u8 c]
  else if c <? 0x800 then [u8 (Z.lor 0xC0 (Z.shiftr c 6)); u8 (Z.lor 0x80 (Z.land c 0x3F))]
  else if c <? 0x10000 then
    [u8 (Z.lor 0xE0 (Z.shiftr c 12)); u8 (Z.lor 0x80 (Z.land (Z.shiftr c 6) 0x3F));
     u8 (Z.lor 0x80 (Z.land c 0x3F))]
  else
    [u8 (Z.lor 0xF0 (Z.shiftr c 18)); u8 (Z.lor 0x80 (Z.land (Z.shiftr c 12) 0x3F));
     u8 (Z.lor 0x80 (Z.land (Z.shiftr c 6) 0x3F)); u8 (Z.lor 0x80 (Z.land c 0x3F))].
Definition high_surrogate (c : Z) : bool := (0xD800 <=? c) && (c <? 0xDC00).
Definition low_surrogate (c : Z) : bool := (0xDC00 <=? c) && (c <? 0xE000).
(** [n] bytes have been written. *)
Fixpoint to_utf8_loop (s : list Z) (n cap : Z) : option (list Z) :=
  match s with
  | [] => Some []
  | c :: s1 =>
      let emit c rest :=
        let b := utf8_emit c in
        if cap <=? n + Z.of_nat (length b) then None
        else l ← rest (n + Z.of_nat (length b)); Some (b ++ l) in
      match s1 with
      | d :: s2 =>
          if high_surrogate c && low_surrogate d
          then emit (0x10000 + Z.shiftl (c - 0xD800) 10 + (d - 0xDC00)) (λ n', to_utf8_loop s2 n' cap)
          else emit c (λ n', to_utf8_loop s1 n' cap)
      | [] => emit c (λ n', to_utf8_loop s1 n' cap)
      end
  end.
Definition to_utf8 (s : list Z) (cap : Z) : option (list Z) := to_utf8_loop s 0 cap.

(** ** Long entries *)

Definition lfn_off : list nat := [1; 3; 5; 7; 9; 14; 16; 18; 20; 22; 24; 28; 30]%nat.
Definition lfn_get (d : list Z) : list Z :=
  (λ o, Z.lor (d !!! o) (Z.shiftl (d !!! S o) 8)) <$> lfn_off.
Definition lfn_put (d units : list Z) : list Z :=
  foldl (λ d '(o, u), <[S o := u8 (Z.shiftr u 8)]> (<[o := u8 u]> d)) d (zip lfn_off units).

(** ** 8.3 names survive *)

Lemma until_app_stop stop a b : stop ∉ a → until stop (a ++ stop :: b) = a.
Proof.
  induction a as [|c a IH]; simpl; intros H.
  - by rewrite Z.eqb_refl.
  - destruct (Z.eqb_spec c stop) as [->|]; [set_solver|]. f_equal. apply IH. set_solver.
Qed.
Lemma until_all stop a : stop ∉ a → until stop a = a.
Proof.
  induction a as [|c a IH]; simpl; intros H; [done|].
  destruct (Z.eqb_spec c stop) as [->|]; [set_solver|]. f_equal. apply IH. set_solver.
Qed.
Lemma until_from stop s :
  (stop ∉ until stop s) ∧
  ((from stop s = [] ∧ until stop s = s) ∨ (∃ e, from stop s = stop :: e ∧ s = until stop s ++ stop :: e)).
Proof.
  unfold from. induction s as [|c s IH]; simpl; [split; [set_solver|by left]|].
  destruct (Z.eqb_spec c stop) as [->|Hne]; simpl.
  - split; [set_solver|]. right. by exists s.
  - destruct IH as [Hn IH]. split; [set_solver|]. destruct IH as [[E1 E2]|(e & E1 & E2)].
    + left. rewrite E1, E2. done.
    + right. exists e. rewrite E1. split; [done|]. by rewrite <- E2.
Qed.
Lemma until_pad n s : SPACE ∉ s → (length s ≤ n)%nat → until SPACE (pad n s) = s.
Proof.
  intros Hs Hl. unfold pad. destruct (n - length s)%nat as [|m].
  - rewrite app_nil_r. by apply until_all.
  - by apply until_app_stop.
Qed.
Lemma up_id l : forallb (λ c, negb (lower c)) l = true → up <$> l = l.
Proof.
  induction l as [|c l IH]; [done|]. intros [H1 H2]%andb_true_iff. rewrite fmap_cons, IH by done. f_equal.
  unfold up, lower in *. by destruct (_ && _).
Qed.
Lemma chars_plain (P : Z → bool) l :
  (∀ c, P c = true → c ≠ SPACE ∧ lower c = false) → forallb P l = true →
  (SPACE ∉ l) ∧ up <$> l = l.
Proof.
  intros HP Hl. assert (∀ c, c ∈ l → P c = true) as Hin.
  { intros c Hc. rewrite forallb_forall in Hl. apply Hl. by apply list_elem_of_In. }
  split; [intros Hs; by destruct (HP _ (Hin _ Hs))|]. apply up_id. apply forallb_forall.
  intros c Hc. apply list_elem_of_In, Hin, HP in Hc as [_ ->]. done.
Qed.
Lemma base_char_ok c : base_char c = true → c ≠ SPACE ∧ lower c = false.
Proof. unfold base_char. destruct (Z.eqb_spec c SPACE), (128 <=? c), (lower c); simpl; intuition congruence. Qed.
Lemma ext_char_ok c : ext_char c = true → c ≠ SPACE ∧ lower c = false.
Proof.
  unfold ext_char. destruct (Z.eqb_spec c SPACE), (128 <=? c), (c =? DOT), (lower c); simpl; intuition congruence.
Qed.
Lemma length_pad n s : (length s ≤ n)%nat → length (pad n s) = n.
Proof. intros. unfold pad. rewrite length_app, length_replicate. lia. Qed.

Lemma fmt_name_fields b e :
  length b = 8%nat → length e = 3%nat →
  fmt_name (b ++ e) = until SPACE b ++ (if existsb (λ c, negb (c =? SPACE)) e then DOT :: until SPACE e else []).
Proof.
  intros Hb He. unfold fmt_name. rewrite take_app_length', drop_app_length' by done.
  by rewrite take_ge by lia.
Qed.
Lemma fits_83_roundtrip s n11 : fits_83 s = Some n11 → length n11 = 11%nat ∧ fmt_name n11 = s.
Proof.
  unfold fits_83. cbn zeta. destruct (until_from DOT s) as [_ Hf].
  destruct (forallb base_char (until DOT s)) eqn:Hb; [|done]. cbn [negb].
  destruct (chars_plain _ _ base_char_ok Hb) as [Sb Ub].
  destruct (_ || _) eqn:Hl; [done|]. apply orb_false_iff in Hl as [Hl0 Hl8]. apply Nat.ltb_ge in Hl8.
  unfold to_83. cbn zeta. rewrite (take_ge (until DOT s)), Ub by done.
  destruct Hf as [[E1 E2]|(e & E1 & E2)]; rewrite E1.
  - intros [= <-]. rewrite fmt_name_fields by (apply length_pad; simpl; lia).
    rewrite length_app, !length_pad, until_pad by (done || simpl; lia). split; [done|].
    rewrite E2. apply app_nil_r.
  - destruct (forallb ext_char e) eqn:He; [|done]. cbn [negb].
    destruct (chars_plain _ _ ext_char_ok He) as [Se Ue].
    destruct (_ || _) eqn:Hm; [done|]. apply orb_false_iff in Hm as [Hm0 Hm3]. apply Nat.ltb_ge in Hm3.
    intros [= <-]. rewrite (take_ge e), Ue by done.
    rewrite fmt_name_fields by (by apply length_pad).
    rewrite length_app, !length_pad, !until_pad by done. split; [done|].
    rewrite E2 at 2. f_equal. destruct e as [|c e]; [done|]. simpl.
    destruct (Z.eqb_spec c SPACE) as [->|]; [set_solver|]. done.
Qed.

(** ** Unicode *)

(** A Unicode scalar value other than NUL. *)
Definition scalar (c : Z) : Prop := 0 < c < 0xD800 ∨ 0xE000 ≤ c < 0x110000.
(** The reference encodings, in arithmetic (RFC 3629, RFC 2781). *)
Definition utf8_of (c : Z) : list Z :=
  if c <? 0x80 then [c]
  else if c <? 0x800 then [0xC0 + c / 64; 0x80 + c mod 64]
  else if c <? 0x10000 then [0xE0 + c / 4096; 0x80 + c / 64 mod 64; 0x80 + c mod 64]
  else [0xF0 + c / 262144; 0x80 + c / 4096 mod 64; 0x80 + c / 64 mod 64; 0x80 + c mod 64].
Definition utf16_of (c : Z) : list Z :=
  if c <? 0x10000 then [c] else [0xD800 + (c - 0x10000) / 1024; 0xDC00 + (c - 0x10000) mod 1024].

Lemma land_low a k m : 0 ≤ k → m = 2 ^ k - 1 → Z.land a m = a mod 2 ^ k.
Proof. intros Hk ->. by apply land_mask. Qed.
(** [x | (y & 63)] with [x] clear in the low six bits. *)
Lemma lor_tag x y k : 0 ≤ k → x mod 2 ^ k = 0 → 0 ≤ y < 2 ^ k → Z.lor x y = x + y.
Proof.
  intros Hk Hx Hy. replace x with (x / 2 ^ k * 2 ^ k) by (pose proof (Z.div_mod x (2 ^ k)); lia).
  by rewrite lor_disjoint.
Qed.
(** The top bits of a byte: [x & mask] for a mask of the high bits. *)
Lemma land_high x k : 0 ≤ k < 8 → 0 ≤ x < 256 → Z.land x (256 - 2 ^ k) = x / 2 ^ k * 2 ^ k.
Proof.
  intros Hk Hx. rewrite <- land_lnot_mask by lia. apply Z.bits_inj'. intros n Hn.
  rewrite !Z.land_spec. destruct (decide (n < 8)) as [H8|H8].
  - f_equal. replace (256 - 2 ^ k) with (Z.lnot (2 ^ k - 1) mod 2 ^ 8).
    + by rewrite Z.mod_pow2_bits_low by lia.
    + unfold Z.lnot. assert (2 ^ k ≤ 2 ^ 7) by (apply Z.pow_le_mono_r; lia).
      assert (0 < 2 ^ k) by (apply Z.pow_pos_nonneg; lia).
      rewrite <- (Z_mod_plus_full _ 1), Z.mod_small; lia.
  - rewrite <- (Z.mod_small x (2 ^ 8)) by lia. rewrite Z.mod_pow2_bits_high by lia. done.
Qed.
Lemma cont_byte x : 0 ≤ x < 64 → Z.land (0x80 + x) 0xC0 = 0x80 ∧ Z.land (0x80 + x) 0x3F = x.
Proof.
  intros. change 0xC0 with (256 - 2 ^ 6). rewrite land_high, (land_low _ 6) by lia. split; ldiv.
Qed.

Lemma utf8_emit_of c : 0 ≤ c < 0x110000 → utf8_emit c = utf8_of c.
Proof.
  intros Hc. unfold utf8_emit, utf8_of.
  assert (∀ x, Z.land x 0x3F = x mod 64) as L6 by (intros; by apply (land_low _ 6)).
  rewrite !L6, !Z.shiftr_div_pow2 by lia.
  change (2 ^ 6) with 64. change (2 ^ 12) with 4096. change (2 ^ 18) with 262144.
  destruct (Z.ltb_spec c 0x80); [by rewrite u8_small by lia|].
  assert (∀ x, Z.lor 0x80 (x mod 64) = 0x80 + x mod 64) as T6.
  { intros. apply (lor_tag _ _ 6); [lia|done|apply Z.mod_pos_bound; lia]. }
  assert (∀ x, u8 (0x80 + x mod 64) = 0x80 + x mod 64) as U6.
  { intros x. apply u8_small. pose proof (Z.mod_pos_bound x 64). lia. }
  rewrite !T6, !U6.
  destruct (Z.ltb_spec c 0x800).
  { rewrite (lor_tag 0xC0 _ 5), u8_small by (done || ldiv). done. }
  destruct (Z.ltb_spec c 0x10000).
  { rewrite (lor_tag 0xE0 _ 4), u8_small by (done || ldiv). done. }
  rewrite (lor_tag 0xF0 _ 3), u8_small by (done || ldiv). done.
Qed.
Lemma utf8_tail_of x c k s :
  0 ≤ c < 2 ^ 20 → 0 ≤ x < 64 →
  utf8_tail (S k) c (0x80 + x :: s) = utf8_tail k (c * 64 + x) s.
Proof.
  intros Hc Hx. cbn [utf8_tail]. destruct (cont_byte x Hx) as [-> ->]. rewrite Z.eqb_refl. cbn [negb].
  rewrite Z.shiftl_mul_pow2 by lia. rewrite lor_disjoint by lia. by rewrite u32_small by lia.
Qed.
Lemma utf8_lead_of c t k :
  ((t = 0xC0 ∧ k = 5) ∨ (t = 0xE0 ∧ k = 4) ∨ (t = 0xF0 ∧ k = 3)) → 0 ≤ c < 2 ^ k →
  utf8_lead (t + c) = Some (c, Z.to_nat (6 - k)).
Proof.
  intros Ht Hc. unfold utf8_lead.
  change 0xE0 with (256 - 2 ^ 5). change 0xF0 with (256 - 2 ^ 4). change 0xF8 with (256 - 2 ^ 3).
  assert (0 ≤ t + c < 256) by (destruct Ht as [[-> ->]|[[-> ->]|[-> ->]]]; lia).
  rewrite !land_high, (land_low _ 5), (land_low _ 4), (land_low _ 3) by (done || lia).
  destruct Ht as [[-> ->]|[[-> ->]|[-> ->]]];
    split_ifs; try ldiv; f_equal; f_equal; ldiv.
Qed.
Lemma utf8_decode_of c s :
  0 < c < 0x110000 →
  ∃ b t, utf8_of c = b :: t ∧
    (r ← utf8_lead b; let '(c1, e) := r in utf8_tail e c1 (t ++ s)) = Some (c, s).
Proof.
  intros Hc. unfold utf8_of. destruct (Z.ltb_spec c 0x80).
  { eexists _, _. split; [done|]. unfold utf8_lead. by rewrite (proj2 (Z.ltb_lt _ _)). }
  destruct (Z.ltb_spec c 0x800).
  { eexists _, _. split; [done|]. rewrite (utf8_lead_of _ 0xC0 5) by (auto || ldiv). cbn [mbind option_bind app].
    change (Z.to_nat (6 - 5)) with 1%nat. rewrite utf8_tail_of by ldiv. cbn. do 2 f_equal. ldiv. }
  destruct (Z.ltb_spec c 0x10000).
  { eexists _, _. split; [done|]. rewrite (utf8_lead_of _ 0xE0 4) by (auto || ldiv). cbn [mbind option_bind app].
    change (Z.to_nat (6 - 4)) with 2%nat. rewrite !utf8_tail_of by ldiv. cbn. do 2 f_equal. ldiv. }
  eexists _, _. split; [done|]. rewrite (utf8_lead_of _ 0xF0 3) by (auto || ldiv). cbn [mbind option_bind app].
  change (Z.to_nat (6 - 3)) with 3%nat. rewrite !utf8_tail_of by ldiv. cbn. do 2 f_equal. ldiv.
Qed.

Lemma scalar_range c : scalar c → 0 < c < 0x110000.
Proof. unfold scalar. lia. Qed.
Lemma utf8_of_length c : (1 ≤ length (utf8_of c))%nat.
Proof. unfold utf8_of. split_ifs; simpl; lia. Qed.
Lemma utf16_units c :
  0 < c < 0x110000 →
  (if 0x10000 <=? c then [u16 (0xD800 + Z.shiftr (c - 0x10000) 10); u16 (0xDC00 + Z.land (c - 0x10000) 0x3FF)]
   else [u16 c]) = utf16_of c.
Proof.
  intros Hc. unfold utf16_of. destruct (Z.leb_spec 0x10000 c), (Z.ltb_spec c 0x10000); try lia.
  - rewrite Z.shiftr_div_pow2, (land_low _ 10) by lia. change (2 ^ 10) with 1024.
    rewrite !u16_small by ldiv. done.
  - by rewrite u16_small by lia.
Qed.
Lemma to_utf16_loop_of cps fuel n max :
  Forall scalar cps → (length (flat_map utf8_of cps) ≤ fuel)%nat → n ≤ max →
  to_utf16_loop fuel (flat_map utf8_of cps) n max =
  if n + Z.of_nat (length (flat_map utf16_of cps)) <=? max then Some (flat_map utf16_of cps) else None.
Proof.
  revert fuel n. induction cps as [|c cps IH]; intros fuel n Hs Hf Hn.
  { cbn. rewrite Z.add_0_r, (proj2 (Z.leb_le _ _)) by done. by destruct fuel. }
  apply list.Forall_cons in Hs as [Hc Hs]. apply scalar_range in Hc.
  cbn [flat_map] in *. rewrite length_app in Hf.
  destruct (utf8_decode_of c (flat_map utf8_of cps) Hc) as (b & t & Eb & Ed).
  pose proof (utf8_of_length c) as Hl. rewrite Eb in *. cbn [length] in *.
  destruct fuel as [|fuel]; [lia|]. cbn [app to_utf16_loop].
  destruct (utf8_lead b) as [[c1 e]|]; [|done]. cbn [mbind option_bind] in *. rewrite Ed. cbn [mbind option_bind].
  rewrite <- (utf16_units c Hc). destruct (0x10000 <=? c); cbn [app length].
  - destruct (Z.ltb_spec max (n + 2)); [by rewrite (proj2 (Z.leb_gt _ _)) by lia|].
    rewrite IH by (done || lia). cbn [mbind option_bind].
    replace (n + Z.of_nat (S (S (length (flat_map utf16_of cps)))))
      with (n + 2 + Z.of_nat (length (flat_map utf16_of cps))) by lia. by destruct (_ <=? max).
  - destruct (Z.ltb_spec max (n + 1)); [by rewrite (proj2 (Z.leb_gt _ _)) by lia|].
    rewrite IH by (done || lia). cbn [mbind option_bind].
    replace (n + Z.of_nat (S (length (flat_map utf16_of cps))))
      with (n + 1 + Z.of_nat (length (flat_map utf16_of cps))) by lia. by destruct (_ <=? max).
Qed.
Lemma not_surrogate c : scalar c → high_surrogate c = false.
Proof. unfold scalar, high_surrogate. intros. destruct (Z.leb_spec 0xD800 c), (Z.ltb_spec c 0xDC00); simpl; done || lia. Qed.
Lemma surrogate_pair c :
  0x10000 ≤ c < 0x110000 →
  let h := 0xD800 + (c - 0x10000) / 1024 in
  let l := 0xDC00 + (c - 0x10000) mod 1024 in
  high_surrogate h && low_surrogate l = true ∧ 0x10000 + Z.shiftl (h - 0xD800) 10 + (l - 0xDC00) = c.
Proof.
  intros Hc. cbn zeta. rewrite Z.shiftl_mul_pow2 by lia. unfold high_surrogate, low_surrogate.
  split; [|ldiv]. rewrite !andb_true_iff, !Z.leb_le, !Z.ltb_lt. ldiv.
Qed.
(** One code point at a time. *)
Lemma to_utf8_loop_cons c s n cap :
  scalar c →
  to_utf8_loop (utf16_of c ++ s) n cap =
  if cap <=? n + Z.of_nat (length (utf8_of c)) then None
  else l ← to_utf8_loop s (n + Z.of_nat (length (utf8_of c))) cap; Some (utf8_of c ++ l).
Proof.
  intros Hs. pose proof (scalar_range c Hs) as Hc. unfold utf16_of. destruct (Z.ltb_spec c 0x10000).
  - cbn [app to_utf8_loop]. rewrite (not_surrogate c Hs). rewrite <- (utf8_emit_of c) by lia. by destruct s.
  - destruct (surrogate_pair c) as [E1 E2]; [lia|]. cbn zeta in E1, E2. cbn [app to_utf8_loop].
    rewrite E1, E2. by rewrite <- (utf8_emit_of c) by lia.
Qed.
Lemma to_utf8_loop_of cps n cap :
  Forall scalar cps → n < cap →
  to_utf8_loop (flat_map utf16_of cps) n cap =
  if n + Z.of_nat (length (flat_map utf8_of cps)) <? cap then Some (flat_map utf8_of cps) else None.
Proof.
  revert n. induction cps as [|c cps IH]; intros n Hs Hn.
  { cbn. by rewrite Z.add_0_r, (proj2 (Z.ltb_lt _ _)) by done. }
  apply list.Forall_cons in Hs as [Hc Hs]. cbn [flat_map]. rewrite to_utf8_loop_cons, length_app by done.
  destruct (Z.leb_spec cap (n + Z.of_nat (length (utf8_of c)))).
  { by rewrite (proj2 (Z.ltb_ge _ _)) by lia. }
  rewrite IH by (done || lia). cbn [mbind option_bind]. rewrite Nat2Z.inj_add, Z.add_assoc. by destruct (_ <? cap).
Qed.

(** ** Properties *)

(** A name that fits the old alphabet survives the directory: the
    padded eleven-byte field made of it prints as the same name. *)
Theorem name_83_roundtrip s n11 :
  fits_83 s = Some n11 → n11 = to_83 s ∧ length n11 = 11%nat ∧ fmt_name n11 = s.
Proof.
  intros H. split; [|by apply fits_83_roundtrip]. revert H. unfold fits_83. cbn zeta.
  destruct (negb _); [done|]. destruct (_ || _); [done|]. destruct (from DOT s); [by intros [= <-]|].
  destruct (negb _); [done|]. destruct (_ || _); [done|]. by intros [= <-].
Qed.
Lemma name_83_roundtrip_witness :
  to_83 (str "README.TXT") = str "README  TXT" ∧ fmt_name (to_83 (str "README.TXT")) = str "README.TXT".
Proof.
  destruct (name_83_roundtrip (str "README.TXT") (str "README  TXT")) as (E & _ & H); [vm_compute; reflexivity|].
  split; [symmetry; exact E|]. rewrite <- E. exact H.
Defined.

(** The two converters are the Unicode transformation formats, and
    are inverse: a name in UTF-8 becomes its UTF-16 units exactly when they
    fit, and those units come back as the same bytes exactly when the
    buffer holds them and a NUL. *)
Theorem utf_roundtrip cps max cap :
  Forall scalar cps → 0 ≤ max → 0 < cap →
  let name := flat_map utf8_of cps in
  let units := flat_map utf16_of cps in
  to_utf16 name max = (if Z.of_nat (length units) <=? max then Some units else None) ∧
  to_utf8 units cap = (if Z.of_nat (length name) <? cap then Some name else None).
Proof.
  intros Hs Hm Hc. cbn zeta. unfold to_utf16, to_utf8. rewrite to_utf16_loop_of by (done || lia).
  rewrite to_utf8_loop_of by (done || lia). by rewrite !Z.add_0_l.
Qed.
(** A Latin letter, a Cyrillic one, the euro sign and an emoji. *)
Lemma utf_roundtrip_witness :
  let name := [97; 0xD0; 0x96; 0xE2; 0x82; 0xAC; 0xF0; 0x9F; 0x98; 0x80] in
  to_utf16 name 128 = Some [97; 0x416; 0x20AC; 0xD83D; 0xDE00] ∧
  to_utf8 [97; 0x416; 0x20AC; 0xD83D; 0xDE00] 96 = Some name.
Proof.
  destruct (utf_roundtrip [97; 0x416; 0x20AC; 0x1F600] 128 96) as [H1 H2].
  - repeat constructor; unfold scalar; lia.
  - lia.
  - lia.
  - split; [exact H1|exact H2].
Defined.

(** ** Long entries *)

Lemma unit_bytes u : 0 ≤ u < 2 ^ 16 → Z.lor (u8 u) (Z.shiftl (u8 (Z.shiftr u 8)) 8) = u.
Proof.
  intros. unfold u8. rewrite Z.lor_comm, Z.shiftl_mul_pow2, Z.shiftr_div_pow2 by lia.
  rewrite lor_disjoint by (try apply Z.mod_pos_bound; lia). ldiv.
Qed.
Lemma lfn_get_put d units :
  length d = 32%nat → length units = LFN_CHARS → Forall (λ u, 0 ≤ u < 2 ^ 16) units →
  lfn_get (lfn_put d units) = units.
Proof.
  intros Hd Hu Hr. unfold LFN_CHARS in Hu.
  do 32 (destruct d as [|? d]; [simpl in Hd; lia|]). destruct d; [|simpl in Hd; lia].
  do 13 (destruct units as [|? units]; [simpl in Hu; lia|]). destruct units; [|simpl in Hu; lia].
  rewrite !list.Forall_cons in Hr. destruct_and! Hr. unfold lfn_get, lfn_put. cbn.
  by rewrite !unit_bytes.
Qed.
