(* ===== verification/Fat16.v ===== *)
(** * The FAT16 file system (src/src/fat16.c)

    The driver below it is a [BlockDev]: sectors of 512 bytes that can be
    read and written, either of which may fail.  A step of the driver is a
    [prog]: it threads the state of fat16.c (the device, the geometry read
    from the boot sector, the one cached directory sector) and is [None]
    only if a loop has run out of fuel, which stands for a loop that does
    not end (a cyclic chain, see [dscan_next]). *)
From stdpp Require Import base list numbers option sets.
From S2P Require Import Prelude FatName.
Local Open Scope Z_scope.

(** blk.h.  [blk_write] answers whether it succeeded. *)
Class BlockDev (D : Type) := {
  blk_read : D → Z → option (list Z);
  blk_write : D → Z → list Z → bool * D }.

Definition SECSZ : Z := 512.
(** [fs]: the geometry of the volume. *)
Record geometry := mkGeo
  { bytes_per_sec : Z; sec_per_clus : Z; reserved : Z; num_fats : Z; root_entries : Z; sec_per_fat : Z;
    fat_start : Z; root_start : Z; root_sectors : Z; data_start : Z; fs_ok : bool }.
Record fat (D : Type) := mkFat
  { dev : D; geo : geometry; dcache_lba : Z; dcache : list Z; dcache_ok : bool }.
Arguments mkFat {D}. Arguments dev {D}. Arguments geo {D}. Arguments dcache_lba {D}.
Arguments dcache {D}. Arguments dcache_ok {D}.

(** Fields of a sector. *)
Definition rd16 (p : list Z) (o : nat) : Z := Z.lor (p !!! o) (Z.shiftl (p !!! (o + 1)%nat) 8).
Definition rd32 (p : list Z) (o : nat) : Z :=
  Z.lor (p !!! o) (Z.lor (Z.shiftl (p !!! (o + 1)%nat) 8)
    (Z.lor (Z.shiftl (p !!! (o + 2)%nat) 16) (Z.shiftl (p !!! (o + 3)%nat) 24))).
Definition wr16 (v : Z) (o : nat) (p : list Z) : list Z :=
  <[(o + 1)%nat := u8 (Z.shiftr v 8)]> (<[o := u8 v]> p).
Definition wr32 (v : Z) (o : nat) (p : list Z) : list Z :=
  <[(o + 3)%nat := u8 (Z.shiftr v 24)]> (<[(o + 2)%nat := u8 (Z.shiftr v 16)]>
    (<[(o + 1)%nat := u8 (Z.shiftr v 8)]> (<[o := u8 v]> p))).
(** [umemcpy(p + o, src, length src)] *)
Definition patch (o : nat) (src p : list Z) : list Z := take o p ++ src ++ drop (o + length src) p.

Definition LFN_ATTR : Z := 0x0F.
Definition LFN_LAST : Z := 0x40.
Definition SLOTS_PER_SEC : Z := 16.
Definition FAT_FREE : Z := 0.
Definition FAT_EOC : Z := 0xFFFF.
Definition FAT_EPOCH : Z := 0x0021.
(** A cluster number that continues a chain. *)
Definition in_chain (c : Z) : bool := (2 <=? c) && (c <? 0xFFF8).

Section device.
Context {D : Type} `{BlockDev D}.

Definition write_sector (lba : Z) (b : list Z) : prog (fat D) bool := λ s,
  let '(r, d) := blk_write (dev s) lba b in
  Some (r, mkFat d (geo s) (dcache_lba s) (dcache s) (dcache_ok s)).
Definition set_cache (lba : Z) (b : list Z) (ok : bool) : prog (fat D) () := λ s,
  Some ((), mkFat (dev s) (geo s) lba b ok).
End device.
(** A directory scan in progress. *)
Record dscan := mkDscan
  { sc_dir : Z; sc_i : Z; sc_units : list Z; sc_nunits : Z; sc_have : bool; sc_sum : Z; sc_first : Z }.
(** What a scan finds: the slot, the name, the entry, where its chain of
    long entries starts. *)
Record found_entry := mkFound { fe_idx : Z; fe_name : list Z; fe_ent : list Z; fe_chain : Z }.

(** A short name made of a long one: base, extension and number. *)
Definition last_dot (s : list Z) : option nat :=
  foldl (λ r '(i, c), if c =? DOT then Some i else r) None (imap pair s).
Definition sfn_char (c : Z) : Z := if c <? 0x80 then up c else 95.
Definition sfn_base (s : list Z) : list Z :=
  let b := match last_dot s with Some i => take i s | None => s end in
  let b := take 6 (filter (λ c, c ≠ SPACE ∧ c ≠ DOT) b) in
  match sfn_char <$> b with [] => [95] | l => l end.
Definition sfn_ext (s : list Z) : list Z :=
  match last_dot s with Some i => sfn_char <$> take 3 (drop (S i) s) | None => [] end.
Definition sfn_candidate (base ext : list Z) (n : Z) : list Z :=
  let b := take (if n <? 10 then 6 else 5) base in
  let tail := 126 :: (if 10 <=? n then [48 + n / 10] else []) ++ [48 + n mod 10] in
  pad 8 (b ++ tail) ++ pad 3 ext.

Definition set_entry (n11 : list Z) (attr first size : Z) (d : list Z) : list Z :=
  let d := patch 0 (take 11 n11) d in
  let d := <[11%nat := attr]> d in
  let d := patch 12 (replicate 14 0) d in
  let d := wr16 FAT_EPOCH 24 (wr16 FAT_EPOCH 18 (wr16 FAT_EPOCH 16 d)) in
  wr32 size 28 (wr16 first 26 d).

(** The [k]-th of [nlfn] long entries; on disk they run backwards. *)
Definition long_entry (units : list Z) (nlfn : nat) (sum : Z) (k : nat) : list Z :=
  let seq := (nlfn - k)%nat in
  let nu := length units in
  let e := replicate 32 0 in
  let e := <[0%nat := u8 (Z.lor (Z.of_nat seq) (if (k =? 0)%nat then LFN_LAST else 0))]> e in
  let e := <[13%nat := sum]> (<[11%nat := LFN_ATTR]> e) in
  let chunk := (λ i, let u := ((seq - 1) * LFN_CHARS + i)%nat in
                     if (u <? nu)%nat then units !!! u else if (u =? nu)%nat then 0 else 0xFFFF)
               <$> List.seq 0 LFN_CHARS in
  lfn_put e chunk.

Section fat16.
Context {D : Type} `{BlockDev D}.
(** What an uninitialised stack buffer holds when a read whose answer is
    ignored fails, and how many rounds an unbounded loop is given. *)
Context (junk : list Z) (fuel : nat).

(** ** The volume *)

Definition parse_boot (sec : list Z) : geometry :=
  let bps := rd16 sec 11 in
  let spc := sec !!! 13%nat in
  let res := rd16 sec 14 in
  let nf := sec !!! 16%nat in
  let re := rd16 sec 17 in
  let spf := rd16 sec 22 in
  let rstart := u32 (res + nf * spf) in
  let rsec := (re * 32 + SECSZ - 1) / SECSZ in
  mkGeo bps spc res nf re spf res rstart rsec (u32 (rstart + rsec)) ((bps =? SECSZ) && (0 <? spc)).
Definition fat16_init : prog (fat D) Z := λ s,
  let sec := default junk (blk_read (dev s) 0) in
  if negb ((sec !!! 510%nat =? 0x55) && (sec !!! 511%nat =? 0xAA)) then Some (-1, s)
  else
    let g := parse_boot sec in
    Some (if fs_ok g then 0 else -1, mkFat (dev s) g (dcache_lba s) (dcache s) (dcache_ok s)).

(** ** The allocation table *)

Definition fat_sector (g : geometry) (copy clus : Z) : Z :=
  u32 (fat_start g + copy * sec_per_fat g + clus * 2 / SECSZ).
Definition fat_offset (clus : Z) : nat := Z.to_nat (clus * 2 mod SECSZ).
Definition fat_next (clus : Z) : prog (fat D) Z :=
  gets (λ s, rd16 (default junk (blk_read (dev s) (fat_sector (geo s) 0 clus))) (fat_offset clus)).

(** Copies [f .. f + n - 1] of one entry; a copy that cannot be read ends
    the loop. *)
Fixpoint fat_set_loop (n : nat) (f clus val : Z) : prog (fat D) () :=
  match n with
  | O => pret ()
  | S n' =>
      let* sec := gets (λ s, fat_sector (geo s) f clus) in
      let* r := gets (λ s, blk_read (dev s) sec) in
      match r with
      | None => pret ()
      | Some buf =>
          let* _ := write_sector sec (wr16 val (fat_offset clus) buf) in
          fat_set_loop n' (f + 1) clus val
      end
  end.
Definition fat_set (clus val : Z) : prog (fat D) () :=
  let* n := gets (λ s, num_fats (geo s)) in fat_set_loop (Z.to_nat n) 0 clus val.

(** [for (c = ...; c < n; c++)]: the first free entry, 0 if none. *)
Fixpoint fat_alloc_loop (n : nat) (c : Z) : prog (fat D) Z :=
  match n with
  | O => pret 0
  | S n' =>
      let* r := gets (λ s, blk_read (dev s) (fat_sector (geo s) 0 c)) in
      match r with
      | None => pret 0
      | Some buf => if rd16 buf (fat_offset c) =? FAT_FREE then pret (u16 c) else fat_alloc_loop n' (c + 1)
      end
  end.
Definition fat_alloc_from (from : Z) : prog (fat D) Z :=
  let* n := gets (λ s, sec_per_fat (geo s) * SECSZ / 2) in
  let c := if from <? 2 then 2 else from in
  fat_alloc_loop (Z.to_nat (n - c)) c.

Fixpoint fat_free_loop (n : nat) (clus : Z) : prog (fat D) () :=
  if in_chain clus then
    match n with
    | O => diverge
    | S n' =>
        let* next := fat_next clus in
        let* _ := fat_set clus FAT_FREE in
        fat_free_loop n' next
    end
  else pret ().
Definition fat_free_chain (clus : Z) : prog (fat D) () := fat_free_loop fuel clus.

(** ** Directories *)

(** [k] links further along the chain, unless it ends first. *)
Fixpoint chain_skip (k : nat) (c : Z) : prog (fat D) (option Z) :=
  match k with
  | O => pret (Some c)
  | S k' => let* c' := fat_next c in if in_chain c' then chain_skip k' c' else pret None
  end.
Definition clus_lba (g : geometry) (c : Z) : Z := u32 (data_start g + u32 (c - 2) * sec_per_clus g).
Definition dir_sector (dir n : Z) : prog (fat D) (option Z) :=
  let* g := gets geo in
  if dir =? 0 then
    if root_sectors g <=? n then pret None else pret (Some (u32 (root_start g + n)))
  else
    let per := sec_per_clus g in
    let* c := chain_skip (Z.to_nat (n / per)) dir in
    pret (c ← c; Some (u32 (clus_lba g c + n mod per))).

(** The entry in slot [i]; it is left in the cache. *)
Definition slot_ptr (dir i : Z) : prog (fat D) (option (list Z)) :=
  let* l := dir_sector dir (i / SLOTS_PER_SEC) in
  match l with
  | None => pret None
  | Some lba =>
      let* hit := gets (λ s, dcache_ok s && (dcache_lba s =? lba)) in
      let entry := gets (λ s, Some (take 32 (drop (Z.to_nat (i mod SLOTS_PER_SEC * 32)) (dcache s)))) in
      if hit then entry
      else
        let* r := gets (λ s, blk_read (dev s) lba) in
        match r with
        | None => pret None
        | Some b => let* _ := set_cache lba b true in entry
        end
  end.
Definition slot_put (dir i : Z) (ent : list Z) : prog (fat D) bool :=
  let* p := slot_ptr dir i in
  match p with
  | None => pret false
  | Some _ =>
      let* s := gets id in
      let b := patch (Z.to_nat (i mod SLOTS_PER_SEC * 32)) (take 32 ent) (dcache s) in
      let* _ := set_cache (dcache_lba s) b (dcache_ok s) in
      write_sector (dcache_lba s) b
  end.

(** ** Scanning a directory *)

Definition dscan_start (dir : Z) : dscan := mkDscan dir 0 (replicate LFN_MAXUNITS 0) 0 false 0 0.
(** The slot is skipped and the collected chain, if any, forgotten. *)
Definition dscan_skip (sc : dscan) : dscan :=
  mkDscan (sc_dir sc) (u32 (sc_i sc + 1)) (sc_units sc) (sc_nunits sc) false (sc_sum sc) (sc_first sc).
(** A long entry. *)
Definition dscan_long (d : list Z) (sc : dscan) : dscan :=
  let d0 := d !!! 0%nat in
  let seq := Z.land d0 0x3F in
  let sc1 := if Z.land d0 LFN_LAST =? 0 then sc
             else mkDscan (sc_dir sc) (sc_i sc) (replicate LFN_MAXUNITS 0) 0 true (d !!! 13%nat) (sc_i sc) in
  if sc_have sc1 && (1 <=? seq) && (seq * Z.of_nat LFN_CHARS <=? Z.of_nat LFN_MAXUNITS) then
    mkDscan (sc_dir sc1) (u32 (sc_i sc1 + 1))
      (patch (Z.to_nat ((seq - 1) * Z.of_nat LFN_CHARS)) (lfn_get d) (sc_units sc1))
      (Z.max (sc_nunits sc1) (seq * Z.of_nat LFN_CHARS)) (sc_have sc1) (sc_sum sc1) (sc_first sc1)
  else dscan_skip sc1.
(** The units of the collected name. *)
Fixpoint name_units (us : list Z) : list Z :=
  match us with
  | [] => []
  | u :: us' => if (u =? 0) || (u =? 0xFFFF) then [] else u :: name_units us'
  end.
(** The long name if one was attached and survived its checksum,
    otherwise the 8.3 name. *)
Definition entry_name (sc : dscan) (d : list Z) (cap : Z) : list Z :=
  if sc_have sc && (sc_sum sc =? sfn_sum d) then
    match to_utf8 (name_units (take (Z.to_nat (sc_nunits sc)) (sc_units sc))) cap with
    | Some nm => nm
    | None => fmt_name d
    end
  else fmt_name d.

Fixpoint dscan_loop (n : nat) (cap : Z) (sc : dscan) : prog (fat D) (option found_entry * dscan) :=
  match n with
  | O => diverge
  | S n' =>
      let* p := slot_ptr (sc_dir sc) (sc_i sc) in
      match p with
      | None => pret (None, sc)
      | Some d =>
          let d0 := d !!! 0%nat in
          let attr := d !!! 11%nat in
          if d0 =? 0x00 then pret (None, sc)
          else if d0 =? 0xE5 then dscan_loop n' cap (dscan_skip sc)
          else if attr =? LFN_ATTR then dscan_loop n' cap (dscan_long d sc)
          else if negb (Z.land attr 0x08 =? 0) then dscan_loop n' cap (dscan_skip sc)
          else
            pret (Some (mkFound (sc_i sc) (entry_name sc d cap) d (if sc_have sc then sc_first sc else sc_i sc)),
                  dscan_skip sc)
      end
  end.
Definition dscan_next (cap : Z) (sc : dscan) : prog (fat D) (option found_entry * dscan) :=
  dscan_loop fuel cap sc.

(** The first entry a test accepts. *)
Fixpoint scan_loop (n : nat) (P : found_entry → bool) (sc : dscan) : prog (fat D) (option found_entry) :=
  match n with
  | O => diverge
  | S n' =>
      let* (r, sc') := dscan_next FAT_NAME_MAX sc in
      match r with
      | None => pret None
      | Some e => if P e then pret (Some e) else scan_loop n' P sc'
      end
  end.
Definition dir_lookup (dir : Z) (name : list Z) : prog (fat D) (option found_entry) :=
  scan_loop fuel (λ e, name_eq (fe_name e) name) (dscan_start dir).

(** A run of [count] free or deleted slots. *)
Fixpoint dir_run_loop (n : nat) (dir count i run begin : Z) : prog (fat D) (option Z) :=
  match n with
  | O => diverge
  | S n' =>
      let* p := slot_ptr dir i in
      match p with
      | None => pret None
      | Some d =>
          let d0 := d !!! 0%nat in
          if (d0 =? 0x00) || (d0 =? 0xE5) then
            let begin := if run =? 0 then i else begin in
            if count <=? run + 1 then pret (Some begin)
            else dir_run_loop n' dir count (u32 (i + 1)) (run + 1) begin
          else dir_run_loop n' dir count (u32 (i + 1)) 0 begin
      end
  end.
Definition dir_run (dir count : Z) : prog (fat D) (option Z) := dir_run_loop fuel dir count 0 0 0.

(** ** Making a name *)

(** [for (n = 1; n <= 99; n++)]: the first candidate that does not clash,
    or the last one. *)
Fixpoint short_name_loop (k : nat) (dir : Z) (base ext : list Z) (n : Z) : prog (fat D) (list Z) :=
  let out := sfn_candidate base ext n in
  match k with
  | O => pret out
  | S k' =>
      let* clash := scan_loop fuel (λ e, bool_decide (take 11 (fe_ent e) = out)) (dscan_start dir) in
      match clash with
      | None => pret out
      | Some _ => if n =? 99 then pret out else short_name_loop k' dir base ext (n + 1)
      end
  end.
Definition short_name_for (dir : Z) (name : list Z) : prog (fat D) (list Z) :=
  short_name_loop 99 dir (sfn_base name) (sfn_ext name) 1.

(** The entries of a new name: the long ones, then the short one. *)
Definition new_entries (n11 units : list Z) (attr first size : Z) : list (list Z) :=
  let nlfn := ((length units + LFN_CHARS - 1) / LFN_CHARS)%nat in
  (long_entry units nlfn (sfn_sum n11) <$> List.seq 0 nlfn) ++
  [set_entry n11 attr first size (replicate 32 0)].
(** [slot_put] one after the other; the first failure ends it. *)
Fixpoint put_entries (dir i : Z) (es : list (list Z)) : prog (fat D) bool :=
  match es with
  | [] => pret true
  | e :: es' => let* r := slot_put dir i e in if r then put_entries dir (i + 1) es' else pret false
  end.
Definition dir_create (dir : Z) (name : list Z) (attr first size : Z) : prog (fat D) Z :=
  let put n11 units :=
    let es := new_entries n11 units attr first size in
    let* start := dir_run dir (Z.of_nat (length es)) in
    match start with
    | None => pret (-1)
    | Some start =>
        let* r := put_entries dir start es in
        pret (if r : bool then i32 (start + Z.of_nat (length es) - 1) else -1)
    end in
  match fits_83 name with
  | Some n11 => put n11 []
  | None =>
      match to_utf16 name (Z.of_nat LFN_MAXUNITS) with
      | None | Some [] => pret (-1)
      | Some units => let* n11 := short_name_for dir name in put n11 units
      end
  end.

(** ** Paths *)

Fixpoint skip_slashes (p : list Z) : list Z :=
  match p with
  | c :: p' => if c =? 47 then skip_slashes p' else p
  | [] => []
  end.
(** One component: at most [FAT_NAME_MAX - 1] bytes up to a slash. *)
Definition component (p : list Z) : list Z := take (Z.to_nat (FAT_NAME_MAX - 1)) (until 47 p).
Definition is_dir (e : list Z) : bool := negb (Z.land (e !!! 11%nat) 0x10 =? 0).
(** [None] is -1; the directory, and the last component if there is one. *)
Fixpoint resolve_loop (n : nat) (p : list Z) (dir : Z) : prog (fat D) (option (Z * option (list Z))) :=
  match p, n with
  | [], _ => pret (Some (dir, None))
  | _, O => diverge
  | _, S n' =>
      let comp := component p in
      let p' := skip_slashes (drop (length comp) p) in
      match p' with
      | [] => pret (Some (dir, Some comp))
      | _ =>
          let* e := dir_lookup dir comp in
          match e with
          | None => pret None
          | Some e => if is_dir (fe_ent e) then resolve_loop n' p' (rd16 (fe_ent e) 26) else pret None
          end
      end
  end.
Definition resolve (path : list Z) : prog (fat D) (option (Z * option (list Z))) :=
  let* g := gets geo in
  if negb (fs_ok g) then pret None else resolve_loop (length path) (skip_slashes path) 0.
Definition as_dir (path : list Z) : prog (fat D) (option Z) :=
  let* r := resolve path in
  match r with
  | None => pret None
  | Some (dir, None) => pret (Some dir)
  | Some (dir, Some leaf) =>
      let* e := dir_lookup dir leaf in
      pret (e ← e; if is_dir (fe_ent e) then Some (rd16 (fe_ent e) 26) else None)
  end.
(** A path that names something in a directory. *)
Definition resolve_leaf (path : list Z) : prog (fat D) (option (Z * list Z)) :=
  let* r := resolve path in
  pret ('(dir, leaf) ← r; leaf ← leaf; Some (dir, leaf)).

(** ** The interface *)

Record dirent := mkDirent { de_name : list Z; de_size : Z; de_is_dir : bool }.
Fixpoint list_loop (max : nat) (sc : dscan) : prog (fat D) (list dirent) :=
  match max with
  | O => pret []
  | S max' =>
      let* (r, sc') := dscan_next FAT_NAME_MAX sc in
      match r with
      | None => pret []
      | Some e =>
          let* l := list_loop max' sc' in
          pret (mkDirent (fe_name e) (rd32 (fe_ent e) 28) (is_dir (fe_ent e)) :: l)
      end
  end.
Definition fat16_list (path : list Z) (max : nat) : prog (fat D) (option (list dirent)) :=
  let* dir := as_dir path in
  match dir with
  | None => pret None
  | Some dir => let* l := list_loop max (dscan_start dir) in pret (Some l)
  end.
Definition fat16_size (path : list Z) : prog (fat D) Z :=
  let* r := resolve_leaf path in
  match r with
  | None => pret (-1)
  | Some (dir, leaf) =>
      let* e := dir_lookup dir leaf in
      pret (match e with
            | None => -1
            | Some e => if is_dir (fe_ent e) then -1 else i32 (rd32 (fe_ent e) 28)
            end)
  end.

(** [cap - got] bytes wanted from sector [sc] on of one cluster; the
    boolean says that a read failed. *)
Fixpoint read_cluster (n : nat) (lba want : Z) : prog (fat D) (bool * list Z) :=
  match n with
  | O => pret (false, [])
  | S n' =>
      if want <=? 0 then pret (false, [])
      else
        let* r := gets (λ s, blk_read (dev s) lba) in
        match r with
        | None => pret (true, [])
        | Some b =>
            let chunk := take (Z.to_nat (Z.min SECSZ want)) b in
            let* (bad, l) := read_cluster n' (u32 (lba + 1)) (want - SECSZ) in
            pret (bad, chunk ++ l)
        end
  end.
Fixpoint read_loop (n : nat) (clus want : Z) : prog (fat D) (list Z) :=
  if in_chain clus && (0 <? want) then
    match n with
    | O => diverge
    | S n' =>
        let* g := gets geo in
        let* (bad, l) := read_cluster (Z.to_nat (sec_per_clus g)) (clus_lba g clus) want in
        if bad : bool then pret l
        else
          let* next := fat_next clus in
          let* rest := read_loop n' next (want - sec_per_clus g * SECSZ) in
          pret (l ++ rest)
    end
  else pret [].
(** The bytes delivered, or [None] for -1. *)
Definition fat16_read (path : list Z) (maxlen : Z) : prog (fat D) (option (list Z)) :=
  let* r := resolve_leaf path in
  match r with
  | None => pret None
  | Some (dir, leaf) =>
      let* e := dir_lookup dir leaf in
      match e with
      | None => pret None
      | Some e =>
          if is_dir (fe_ent e) then pret None
          else
            let size := rd32 (fe_ent e) 28 in
            if u32 maxlen <? size then pret None
            else
              let* l := read_loop (Z.to_nat size) (rd16 (fe_ent e) 26) (i32 size) in
              pret (Some l)
      end
  end.

(** ** Writing *)

(** The sectors of one cluster, zero-filled past the end of the data. *)
Definition sector_of (buf : list Z) : list Z := let c := take 512 buf in c ++ replicate (512 - length c) 0.
Fixpoint write_cluster (n : nat) (lba : Z) (buf : list Z) : prog (fat D) bool :=
  match n with
  | O => pret true
  | S n' =>
      let* r := write_sector lba (sector_of buf) in
      if r then write_cluster n' (u32 (lba + 1)) (drop 512 buf) else pret false
  end.
(** [need] clusters still to come; [None] when the disk is full or a write
    failed - the caller then frees [first]. *)
Fixpoint write_loop (need : nat) (first prev search : Z) (buf : list Z) : prog (fat D) (Z * bool) :=
  match need with
  | O => pret (first, true)
  | S need' =>
      let* c := fat_alloc_from search in
      if c =? 0 then pret (first, false)
      else
        let* _ := fat_set c FAT_EOC in
        let* _ := if prev =? 0 then pret () else fat_set prev c in
        let first := if prev =? 0 then c else first in
        let* g := gets geo in
        let* r := write_cluster (Z.to_nat (sec_per_clus g)) (clus_lba g c) buf in
        if r then write_loop need' first c (u16 (c + 1)) (drop (Z.to_nat (sec_per_clus g * SECSZ)) buf)
        else pret (first, false)
  end.
Definition clusters_for (g : geometry) (len : Z) : Z :=
  u32 (len + sec_per_clus g * SECSZ - 1) / (sec_per_clus g * SECSZ).
(** The name is pointed at the new chain, and the old chain freed only
    after that. *)
Definition commit_entry (dir : Z) (leaf : list Z) (old : option found_entry) (first len : Z)
  : prog (fat D) bool :=
  match old with
  | Some e =>
      let* r := slot_put dir (fe_idx e) (wr32 len 28 (wr16 first 26 (fe_ent e))) in
      if r : bool then
        let old_first := rd16 (fe_ent e) 26 in
        let* _ := if 2 <=? old_first then fat_free_chain old_first else pret () in
        pret true
      else pret false
  | None => let* r := dir_create dir leaf 0x20 first len in pret (0 <=? r)
  end.
(** [buf] holds [len] bytes. *)
Definition fat16_write (path : list Z) (buf : list Z) : prog (fat D) Z :=
  let len := Z.of_nat (length buf) in
  let* r := resolve_leaf path in
  match r with
  | None => pret (-1)
  | Some (dir, leaf) =>
      let* old := dir_lookup dir leaf in
      if match old with Some e => is_dir (fe_ent e) | None => false end then pret (-1)
      else
        let* g := gets geo in
        let* (first, ok) := write_loop (Z.to_nat (clusters_for g len)) 0 0 2 buf in
        let* ok := if ok : bool then commit_entry dir leaf old first len else pret false in
        if ok : bool then pret len
        else let* _ := fat_free_chain first in pret (-1)
  end.

(** Slots [i .. i + n - 1] marked free. *)
Fixpoint erase_loop (n : nat) (dir i : Z) : prog (fat D) bool :=
  match n with
  | O => pret true
  | S n' =>
      let* p := slot_ptr dir i in
      match p with
      | None => pret false
      | Some d => let* r := slot_put dir i (<[0%nat := 0xE5]> d) in
                  if r : bool then erase_loop n' dir (u32 (i + 1)) else pret false
      end
  end.
Definition dir_erase (dir chain slot : Z) : prog (fat D) bool :=
  erase_loop (Z.to_nat (slot + 1 - chain)) dir chain.
(** "." and ".." *)
Definition dot_name (s : list Z) : bool := bool_decide (s = [DOT]) || bool_decide (s = [DOT; DOT]).
Definition fat16_remove (path : list Z) : prog (fat D) Z :=
  let* r := resolve_leaf path in
  match r with
  | None => pret (-1)
  | Some (dir, leaf) =>
      let* e := dir_lookup dir leaf in
      match e with
      | None => pret (-1)
      | Some e =>
          let first := rd16 (fe_ent e) 26 in
          let* held := if is_dir (fe_ent e)
                       then scan_loop fuel (λ e, negb (dot_name (fe_name e))) (dscan_start first)
                       else pret None in
          match held with
          | Some _ => pret (-1)
          | None =>
              let* r := dir_erase dir (fe_chain e) (fe_idx e) in
              if r : bool then let* _ := fat_free_chain first in pret 0 else pret (-1)
          end
      end
  end.

Definition dot_field : list Z := DOT :: replicate 10 SPACE.
Definition dotdot_field : list Z := DOT :: DOT :: replicate 9 SPACE.
Definition fat16_mkdir (path : list Z) : prog (fat D) Z :=
  let* r := resolve_leaf path in
  match r with
  | None => pret (-1)
  | Some (dir, leaf) =>
      let* e := dir_lookup dir leaf in
      match e with
      | Some _ => pret (-1)
      | None =>
          let* c := fat_alloc_from 2 in
          if c =? 0 then pret (-1)
          else
            let* _ := fat_set c FAT_EOC in
            let* g := gets geo in
            let undo := let* _ := fat_set c FAT_FREE in pret (-1) in
            let* r := write_cluster (Z.to_nat (sec_per_clus g)) (clus_lba g c) [] in
            if negb r then undo
            else
              let* s := gets id in
              let* _ := set_cache (dcache_lba s) (dcache s) false in
              let entry n11 clus := set_entry n11 0x10 clus 0 (replicate 32 0) in
              let* r := slot_put c 0 (entry dot_field c) in
              if negb r then undo
              else
                let* r := slot_put c 1 (entry dotdot_field dir) in
                if negb r then undo
                else
                  let* r := dir_create dir leaf 0x10 c 0 in
                  if r <? 0 then undo else pret 0
      end
  end.
End fat16.
