(* ===== verification/FatChain.v ===== *)
(** * Cluster chains (src/src/fat16.c)

    What the allocation table means: every entry is kept in all copies,
    and a file written as a chain of clusters is the file read back.  The
    disk is any device that obeys [BlockLaws]. *)
From stdpp Require Import base list numbers option sets gmap.
From S2P Require Import Prelude FatName Fat16.
Local Open Scope Z_scope.

(** Sectors below [n] can be read and written, a sector that was written
    holds what was written and the others what they held.  Beyond [n] a
    request may fail. *)
Class BlockLaws (D : Type) `{BlockDev D} (n : Z) := {
  bl_read : ∀ d lba, 0 ≤ lba < n → ∃ b, blk_read d lba = Some b ∧ length b = 512%nat;
  bl_write : ∀ d lba b, 0 ≤ lba < n → length b = 512%nat → (blk_write d lba b).1 = true;
  bl_same : ∀ d lba b d', blk_write d lba b = (true, d') → length b = 512%nat → blk_read d' lba = Some b;
  bl_other : ∀ d lba b r d' l, blk_write d lba b = (r, d') → l ≠ lba → blk_read d' l = blk_read d l }.

(** A disk held in a map, every sector of it normalised to 512 bytes. *)
Abbreviation ramdisk := (gmap Z (list Z)) (only parsing).
Definition as_sector (b : list Z) : list Z := take 512 (b ++ replicate 512 0).
#[export] Instance ramdisk_dev : BlockDev ramdisk := {
  blk_read d lba := if (0 <=? lba) && (lba <? 4096) then Some (as_sector (default [] (d !! lba))) else None;
  blk_write d lba b := if (0 <=? lba) && (lba <? 4096) then (true, <[lba := b]> d) else (false, d) }.
Lemma as_sector_id b : length b = 512%nat → as_sector b = b.
Proof. intros. unfold as_sector. by apply take_app_length'. Qed.
#[export] Instance ramdisk_laws : BlockLaws ramdisk 4096.
Proof.
  assert (∀ lba, 0 ≤ lba < 4096 → (0 <=? lba) && (lba <? 4096) = true) as Hin.
  { intros. apply andb_true_iff. rewrite Z.leb_le, Z.ltb_lt. done. }
  split; unfold blk_read, blk_write, ramdisk_dev.
  - intros d lba H. rewrite (Hin _ H). eexists. split; [done|]. unfold as_sector.
    rewrite length_take, length_app, length_replicate. lia.
  - intros d lba b H _. by rewrite (Hin _ H).
  - intros d lba b d'. destruct (_ && _); [|done]. intros [= <-] Hb. f_equal.
    rewrite lookup_insert_eq. by apply as_sector_id.
  - intros d lba b r d' l. destruct (_ && (lba <? _)); intros [= <- <-] Hl; [|done].
    by rewrite lookup_insert_ne.
Qed.

(** ** Sixteen-bit fields *)

Lemma length_wr16 v o p : length (wr16 v o p) = length p.
Proof. unfold wr16. by rewrite !length_insert. Qed.
Lemma rd16_wr16 v o p : (o + 1 < length p)%nat → 0 ≤ v < 2 ^ 16 → rd16 (wr16 v o p) o = v.
Proof.
  intros Ho Hv. unfold rd16, wr16. rewrite list_lookup_total_insert_ne, list_lookup_total_insert_eq by lia.
  rewrite list_lookup_total_insert_eq by (rewrite length_insert; lia). by apply unit_bytes.
Qed.
Lemma rd16_wr16_ne v o o' p :
  (o' + 1 < o ∨ o + 1 < o')%nat → rd16 (wr16 v o p) o' = rd16 p o'.
Proof. intros Ho. unfold rd16, wr16. by rewrite !list_lookup_total_insert_ne by lia. Qed.

Section chain.
Context {D : Type} `{BlockDev D} (n : Z) `{!BlockLaws D n}.
Context (junk : list Z) (fuel : nat).

(** A volume whose tables are on the reliable part of the disk. *)
Record geometry_ok (g : geometry) : Prop := {
  go_spc : 0 < sec_per_clus g;
  go_fats : 1 ≤ num_fats g;
  go_spf : 0 < sec_per_fat g ≤ 255;
  go_start : 0 ≤ fat_start g;
  go_data : fat_start g + num_fats g * sec_per_fat g ≤ data_start g;
  go_disk : fat_start g + num_fats g * sec_per_fat g ≤ n;
  go_u32 : data_start g + 65536 * sec_per_clus g ≤ 2 ^ 32 }.
Definition entries_of (g : geometry) : Z := sec_per_fat g * 256.

(** Entry [c] of copy [f]. *)
Definition fat_entry (f c : Z) (s : fat D) : Z :=
  rd16 (default junk (blk_read (dev s) (fat_sector (geo s) f c))) (fat_offset c).
(** Sectors of the tables. *)
Definition in_fats (g : geometry) (l : Z) : Prop :=
  fat_start g ≤ l < fat_start g + num_fats g * sec_per_fat g.

Lemma fat_sector_eq g f c :
  geometry_ok g → 0 ≤ f < num_fats g → 0 ≤ c < entries_of g →
  fat_sector g f c = fat_start g + f * sec_per_fat g + c / 256 ∧ in_fats g (fat_sector g f c) ∧
  fat_offset c = Z.to_nat (c mod 256 * 2).
Proof.
  intros [G1 G2 G3 G4 G5 G6 G7] Hf Hc. unfold entries_of, fat_sector, fat_offset, in_fats, SECSZ in *.
  replace (c * 2 / 512) with (c / 256) by ldiv. replace (c * 2 mod 512) with (c mod 256 * 2) by ldiv.
  assert (0 ≤ c / 256 < sec_per_fat g) by ldiv.
  assert (f * sec_per_fat g + sec_per_fat g ≤ num_fats g * sec_per_fat g) by nia.
  assert (0 ≤ f * sec_per_fat g) by nia.
  rewrite u32_small by lia. lia.
Qed.
(** One copy at a time. *)
Lemma fat_sector_inj g f c f' c' :
  geometry_ok g → 0 ≤ f < num_fats g → 0 ≤ f' < num_fats g → 0 ≤ c < entries_of g → 0 ≤ c' < entries_of g →
  fat_sector g f c = fat_sector g f' c' → f = f' ∧ c / 256 = c' / 256.
Proof.
  intros G Hf Hf' Hc Hc' E. destruct (fat_sector_eq g f c G Hf Hc) as (E1 & _ & _).
  destruct (fat_sector_eq g f' c' G Hf' Hc') as (E2 & _ & _). rewrite E1, E2 in E.
  unfold entries_of in *. assert (0 ≤ c / 256 < sec_per_fat g) by ldiv.
  assert (0 ≤ c' / 256 < sec_per_fat g) by ldiv.
  destruct (Z.lt_trichotomy f f') as [Hl|[->|Hl]]; [exfalso|lia|exfalso].
  - assert ((f + 1) * sec_per_fat g ≤ f' * sec_per_fat g) by (apply Z.mul_le_mono_nonneg_r; lia). lia.
  - assert ((f' + 1) * sec_per_fat g ≤ f * sec_per_fat g) by (apply Z.mul_le_mono_nonneg_r; lia). lia.
Qed.

(** [s'] is [s] with other contents in the sectors [P] does not hold of. *)
Record keeps (P : Z → Prop) (s s' : fat D) : Prop := {
  k_geo : geo s' = geo s;
  k_lba : dcache_lba s' = dcache_lba s;
  k_cache : dcache s' = dcache s;
  k_ok : dcache_ok s' = dcache_ok s;
  k_sec : ∀ l, P l → blk_read (dev s') l = blk_read (dev s) l }.
#[global] Instance keeps_preorder P : PreOrder (keeps P).
Proof.
  split; [intros s; by split|]. intros s1 s2 s3 [A1 A2 A3 A4 A5] [B1 B2 B3 B4 B5].
  split; [congruence..|]. intros l Hl. rewrite B5, A5; done.
Qed.
Lemma keeps_mono (P Q : Z → Prop) s s' : (∀ l, Q l → P l) → keeps P s s' → keeps Q s s'.
Proof. intros HPQ [A1 A2 A3 A4 A5]. split; auto. Qed.

Lemma write_sector_spec lba b s :
  length b = 512%nat →
  ∃ r s', write_sector lba b s = Some (r, s') ∧ keeps (λ l, l ≠ lba) s s' ∧
    (r = true → blk_read (dev s') lba = Some b) ∧ (0 ≤ lba < n → r = true).
Proof.
  intros Hb. unfold write_sector. destruct (blk_write (dev s) lba b) as [r d'] eqn:E.
  exists r, (mkFat d' (geo s) (dcache_lba s) (dcache s) (dcache_ok s)). split; [done|]. split.
  { split; try done. intros l Hl. by eapply bl_other. }
  split; [intros ->; by eapply bl_same|].
  intros Hr. pose proof (bl_write (dev s) lba b Hr Hb) as Hw. by rewrite E in Hw.
Qed.

(** An entry depends on its sector only. *)
Lemma fat_entry_keeps P f c s s' :
  keeps P s s' → P (fat_sector (geo s) f c) → fat_entry f c s' = fat_entry f c s.
Proof. intros K HP. unfold fat_entry. rewrite (k_geo _ _ _ K), (k_sec _ _ _ K) by done. done. Qed.

Lemma fat_set_loop_spec k f clus val s :
  geometry_ok (geo s) → 0 ≤ f → f + Z.of_nat k ≤ num_fats (geo s) → 0 ≤ clus < entries_of (geo s) →
  0 ≤ val < 2 ^ 16 →
  ∃ s', fat_set_loop k f clus val s = Some ((), s') ∧ keeps (λ l, ¬ in_fats (geo s) l) s s' ∧
    ∀ f' c', 0 ≤ f' < num_fats (geo s) → 0 ≤ c' < entries_of (geo s) →
      fat_entry f' c' s' = if decide (f ≤ f' < f + Z.of_nat k ∧ c' = clus) then val else fat_entry f' c' s.
Proof.
  revert f s. induction k as [|k IH]; intros f s G Hf Hk Hc Hv.
  { exists s. split; [done|]. split; [done|]. intros f' c' _ _. rewrite decide_False by lia. done. }
  cbn [fat_set_loop]. unfold pbind at 1 2, gets.
  assert (0 ≤ f < num_fats (geo s)) as Hf0 by lia.
  destruct (fat_sector_eq (geo s) f clus G Hf0 Hc) as (Es & [Hin1 Hin2] & Eo).
  destruct (bl_read (dev s) (fat_sector (geo s) f clus)) as (b & Hb & Lb).
  { pose proof (go_disk _ G). pose proof (go_start _ G). lia. }
  rewrite Hb. unfold pbind.
  destruct (write_sector_spec (fat_sector (geo s) f clus) (wr16 val (fat_offset clus) b) s) as (r & s1 & E1 & K1 & R1 & R2).
  { by rewrite length_wr16. }
  rewrite E1. rewrite R2 in * by (pose proof (go_disk _ G); pose proof (go_start _ G); lia).
  specialize (R1 eq_refl). pose proof (k_geo _ _ _ K1) as Eg.
  destruct (IH (f + 1) s1) as (s2 & E2 & K2 & V2); rewrite ?Eg; [done|lia|lia|done|done|].
  exists s2. split; [done|]. rewrite Eg in *. split.
  { etrans; [|exact K2]. eapply keeps_mono; [|exact K1]. intros l Hl ->. apply Hl. split; lia. }
  intros f' c' Hf' Hc'. rewrite V2 by done.
  destruct (decide (fat_sector (geo s) f' c' = fat_sector (geo s) f clus)) as [Esec|Nsec].
  - destruct (fat_sector_inj _ _ _ _ _ G Hf' Hf0 Hc' Hc Esec) as [-> Ec].
    rewrite decide_False by lia.
    assert (fat_entry f c' s1 = rd16 (wr16 val (fat_offset clus) b) (fat_offset c')) as ->.
    { unfold fat_entry. rewrite Eg, Esec, R1. done. }
    destruct (fat_sector_eq (geo s) f c' G Hf' Hc') as (_ & _ & Eo').
    destruct (decide (c' = clus)) as [->|Hne].
    + rewrite decide_True by lia. apply rd16_wr16; [rewrite Eo, Lb; ldiv|done].
    + rewrite decide_False by lia. rewrite rd16_wr16_ne by (rewrite Eo, Eo'; ldiv).
      unfold fat_entry. by rewrite Esec, Hb.
  - assert (fat_entry f' c' s1 = fat_entry f' c' s) as -> by (by eapply fat_entry_keeps).
    destruct (decide (f' = f ∧ c' = clus)) as [[-> ->]|Hne]; [done|].
    destruct (decide (f + 1 ≤ f' < f + 1 + Z.of_nat k ∧ c' = clus)).
    + rewrite decide_True by lia. done.
    + rewrite decide_False; [done|]. intros [H1 ->]. apply Hne. split; [|done]. lia.
Qed.

Lemma fat_set_spec clus val s :
  geometry_ok (geo s) → 0 ≤ clus < entries_of (geo s) → 0 ≤ val < 2 ^ 16 →
  ∃ s', fat_set clus val s = Some ((), s') ∧ keeps (λ l, ¬ in_fats (geo s) l) s s' ∧
    ∀ f c, 0 ≤ f < num_fats (geo s) → 0 ≤ c < entries_of (geo s) →
      fat_entry f c s' = if decide (c = clus) then val else fat_entry f c s.
Proof.
  intros G Hc Hv. unfold fat_set, pbind, gets. pose proof (go_fats _ G).
  destruct (fat_set_loop_spec (Z.to_nat (num_fats (geo s))) 0 clus val s) as (s' & E & K & V); try (done || lia).
  exists s'. split; [done|]. split; [done|]. intros f c Hf Hc'. rewrite V by done.
  destruct (decide (c = clus)); [rewrite decide_True by lia|rewrite decide_False by lia]; done.
Qed.
Lemma fat_next_eq c s : fat_next junk c s = Some (fat_entry 0 c s, s).
Proof. done. Qed.

(** ** Finding a free entry *)

Lemma fat_alloc_loop_spec k c s :
  geometry_ok (geo s) → 0 ≤ c → c + Z.of_nat k ≤ entries_of (geo s) →
  ∃ r, fat_alloc_loop k c s = Some (r, s) ∧
    ((r = 0 ∧ ∀ x, c ≤ x < c + Z.of_nat k → fat_entry 0 x s ≠ 0) ∨
     (c ≤ r < c + Z.of_nat k ∧ fat_entry 0 r s = 0 ∧ ∀ x, c ≤ x < r → fat_entry 0 x s ≠ 0)).
Proof.
  revert c. induction k as [|k IH]; intros c G Hc Hk.
  { exists 0. split; [done|]. left. split; [done|lia]. }
  cbn [fat_alloc_loop]. unfold pbind, gets.
  destruct (fat_sector_eq (geo s) 0 c G) as (Es & [Hin1 Hin2] & Eo); [pose proof (go_fats _ G); lia|lia|].
  destruct (bl_read (dev s) (fat_sector (geo s) 0 c)) as (b & Hb & Lb).
  { pose proof (go_disk _ G). pose proof (go_start _ G). lia. }
  assert (fat_entry 0 c s = rd16 b (fat_offset c)) as Ee by (unfold fat_entry; by rewrite Hb).
  rewrite Hb. unfold FAT_FREE. destruct (Z.eqb_spec (rd16 b (fat_offset c)) 0) as [E0|E0].
  - exists (u16 c). split; [done|]. right. pose proof (go_spf _ G). unfold entries_of in *.
    rewrite u16_small by lia. split; [lia|]. split; [congruence|lia].
  - destruct (IH (c + 1) G) as (r & Er & Hr); [lia|lia|]. exists r. split; [done|].
    assert (∀ x, x = c → fat_entry 0 x s ≠ 0) as Hx by (intros x ->; congruence).
    destruct Hr as [[-> Hr]|(H1 & H2 & H3)].
    + left. split; [done|]. intros x Hx2. destruct (decide (x = c)); [by apply Hx|apply Hr; lia].
    + right. split; [lia|]. split; [done|]. intros x Hx2. destruct (decide (x = c)); [by apply Hx|apply H3; lia].
Qed.
Lemma fat_alloc_from_spec from s :
  geometry_ok (geo s) → 2 ≤ from →
  ∃ r, fat_alloc_from from s = Some (r, s) ∧
    ((r = 0 ∧ ∀ x, from ≤ x < entries_of (geo s) → fat_entry 0 x s ≠ 0) ∨
     (from ≤ r < entries_of (geo s) ∧ fat_entry 0 r s = 0 ∧ ∀ x, from ≤ x < r → fat_entry 0 x s ≠ 0)).
Proof.
  intros G Hf. unfold fat_alloc_from, pbind, gets. cbn zeta.
  destruct (Z.ltb_spec from 2); [lia|]. replace (sec_per_fat (geo s) * SECSZ / 2) with (entries_of (geo s)).
  2: { unfold entries_of, SECSZ. ldiv. }
  destruct (decide (from < entries_of (geo s))) as [Hlt|Hge].
  - destruct (fat_alloc_loop_spec (Z.to_nat (entries_of (geo s) - from)) from s G) as (r & Er & Hr); [lia|lia|].
    exists r. split; [done|]. replace (from + Z.of_nat _) with (entries_of (geo s)) in Hr by lia. done.
  - replace (Z.to_nat _) with 0%nat by lia. exists 0. split; [done|]. left. split; [done|lia].
Qed.

(** ** Data *)

(** Cluster numbers [lo <= c1 < c2 < ... < hi]. *)
Fixpoint increasing (lo hi : Z) (cs : list Z) : Prop :=
  match cs with
  | [] => True
  | c :: cs' => lo ≤ c < hi ∧ increasing (c + 1) hi cs'
  end.
Lemma increasing_in lo hi cs c : increasing lo hi cs → c ∈ cs → lo ≤ c < hi.
Proof.
  revert lo. induction cs as [|x cs IH]; intros lo; [by intros _ ?%elem_of_nil|].
  intros [Hx Hi] [->|Hc]%elem_of_cons; [done|]. specialize (IH _ Hi Hc). lia.
Qed.
(** The sectors of cluster [c]. *)
Definition in_cluster (g : geometry) (c l : Z) : Prop := clus_lba g c ≤ l < clus_lba g c + sec_per_clus g.
Lemma clus_lba_eq g c :
  geometry_ok g → 2 ≤ c < entries_of g →
  clus_lba g c = data_start g + (c - 2) * sec_per_clus g ∧ clus_lba g c + sec_per_clus g ≤ 2 ^ 32.
Proof.
  intros [G1 G2 G3 G4 G5 G6 G7] Hc. unfold clus_lba, entries_of in *.
  assert (c < 65536) by lia. assert (0 ≤ num_fats g * sec_per_fat g) by nia.
  assert ((c - 2) * sec_per_clus g + sec_per_clus g ≤ 65536 * sec_per_clus g) by nia.
  assert (0 ≤ (c - 2) * sec_per_clus g) by nia.
  rewrite (u32_small (c - 2)), u32_small by lia. lia.
Qed.
Lemma cluster_apart g c c' l :
  geometry_ok g → 2 ≤ c < entries_of g → 2 ≤ c' < entries_of g → in_cluster g c l → in_cluster g c' l → c = c'.
Proof.
  intros G Hc Hc' [H1 H2] [H3 H4]. destruct (clus_lba_eq g c G Hc) as [E _].
  destruct (clus_lba_eq g c' G Hc') as [E' _]. rewrite E, E' in *. pose proof (go_spc _ G).
  destruct (Z.lt_trichotomy c c') as [Hl|[->|Hl]]; [exfalso|done|exfalso].
  - assert ((c - 2 + 1) * sec_per_clus g ≤ (c' - 2) * sec_per_clus g) by (apply Z.mul_le_mono_nonneg_r; lia). lia.
  - assert ((c' - 2 + 1) * sec_per_clus g ≤ (c - 2) * sec_per_clus g) by (apply Z.mul_le_mono_nonneg_r; lia). lia.
Qed.
Lemma cluster_not_fat g c l : geometry_ok g → 2 ≤ c < entries_of g → in_cluster g c l → ¬ in_fats g l.
Proof.
  intros G Hc [H1 H2] [H3 H4]. destruct (clus_lba_eq g c G Hc) as [E _]. pose proof (go_data _ G).
  pose proof (go_spc _ G). assert (0 ≤ (c - 2) * sec_per_clus g) by nia. lia.
Qed.

Lemma length_sector_of b : length (sector_of b) = 512%nat.
Proof. unfold sector_of. cbn zeta. rewrite length_app, length_replicate, length_take. lia. Qed.
(** Sector [j] of the data of a cluster that starts at [buf]. *)
Definition nth_sector (buf : list Z) (j : Z) : list Z := sector_of (drop (Z.to_nat (512 * j)) buf).
Lemma write_cluster_spec k lba buf s :
  0 ≤ lba → lba + Z.of_nat k ≤ 2 ^ 32 →
  ∃ r s', write_cluster k lba buf s = Some (r, s') ∧ keeps (λ l, ¬ (lba ≤ l < lba + Z.of_nat k)) s s' ∧
    (r = true → ∀ j, 0 ≤ j < Z.of_nat k → blk_read (dev s') (lba + j) = Some (nth_sector buf j)).
Proof.
  revert lba buf s. induction k as [|k IH]; intros lba buf s Hl Hk.
  { exists true, s. split; [done|]. split; [done|lia]. }
  cbn [write_cluster]. unfold pbind.
  destruct (write_sector_spec lba (sector_of buf) s (length_sector_of buf)) as (r & s1 & E1 & K1 & R1 & _).
  rewrite E1. assert (keeps (λ l, ¬ (lba ≤ l < lba + Z.of_nat (S k))) s s1) as K1'.
  { eapply keeps_mono; [|exact K1]. intros l Hn ->. lia. }
  destruct r; [|by exists false, s1]. specialize (R1 eq_refl).
  destruct (decide (k = 0%nat)) as [->|Hk0].
  { exists true, s1. split; [done|]. split; [done|]. intros _ j Hj. replace j with 0 by lia.
    rewrite Z.add_0_r. done. }
  rewrite u32_small by lia.
  destruct (IH (lba + 1) (drop 512 buf) s1) as (r & s2 & E2 & K2 & R2); [lia|lia|].
  exists r, s2. split; [done|]. split.
  { etrans; [exact K1'|]. eapply keeps_mono; [|exact K2]. intros l Hn Hx. lia. }
  intros Hr j Hj. destruct (decide (j = 0)) as [->|Hj0].
  - rewrite Z.add_0_r, (k_sec _ _ _ K2) by lia. done.
  - replace (lba + j) with (lba + 1 + (j - 1)) by lia. rewrite R2 by (done || lia).
    unfold nth_sector. rewrite drop_drop. do 3 f_equal. lia.
Qed.

(** ** Chains *)

(** The entry of [c] in the chain [cs]. *)
Fixpoint link (cs : list Z) (c : Z) : option Z :=
  match cs with
  | [] => None
  | x :: cs' => if decide (c = x) then Some (default FAT_EOC (head cs')) else link cs' c
  end.
(** The table holds the chain [cs] over what it held in [s]. *)
Definition linked (cs : list Z) (s s' : fat D) : Prop :=
  ∀ f c, 0 ≤ f < num_fats (geo s) → 0 ≤ c < entries_of (geo s) →
    fat_entry f c s' = default (fat_entry f c s) (link cs c).
(** The clusters [cs] hold [buf], zero-filled. *)
Fixpoint file_of (g : geometry) (cs : list Z) (buf : list Z) (d : D) : Prop :=
  match cs with
  | [] => True
  | c :: cs' =>
      (∀ j, 0 ≤ j < sec_per_clus g → blk_read d (clus_lba g c + j) = Some (nth_sector buf j)) ∧
      file_of g cs' (drop (Z.to_nat (sec_per_clus g * SECSZ)) buf) d
  end.
(** Sectors that writing the clusters [cs] leaves alone. *)
Definition outside (g : geometry) (cs : list Z) (l : Z) : Prop := ¬ in_fats g l ∧ ∀ c, c ∈ cs → ¬ in_cluster g c l.

Lemma link_notin cs c : c ∉ cs → link cs c = None.
Proof.
  induction cs as [|x cs IH]; simpl; [done|]. intros Hc. rewrite decide_False by set_solver. apply IH. set_solver.
Qed.
Lemma increasing_notin lo hi cs c : increasing lo hi cs → c < lo → c ∉ cs.
Proof. intros Hi Hc Hin. pose proof (increasing_in _ _ _ _ Hi Hin). lia. Qed.
Lemma file_of_keeps g cs buf (P : Z → Prop) s s' :
  keeps P s s' → (∀ c l, c ∈ cs → in_cluster g c l → P l) → file_of g cs buf (dev s) → file_of g cs buf (dev s').
Proof.
  intros K. revert buf. induction cs as [|c cs IH]; intros buf HP; [done|]. intros [H1 H2]. split.
  - intros j Hj. rewrite (k_sec _ _ _ K); [by apply H1|]. apply (HP c); [set_solver|]. unfold in_cluster. lia.
  - apply IH; [|done]. intros c' l Hc'. apply HP. set_solver.
Qed.

(** Where the chain grows: nowhere yet, or after [prev]. *)
Definition tail_of (prev : Z) : list Z := if prev =? 0 then [] else [prev].
Definition prev_ok (prev search : Z) (s : fat D) : Prop :=
  prev = 0 ∨ (2 ≤ prev < search ∧ prev < entries_of (geo s) ∧
              ∀ f, 0 ≤ f < num_fats (geo s) → fat_entry f prev s = FAT_EOC).

(** One cluster is claimed and hung behind [prev]. *)
Lemma claim_spec prev search c s :
  geometry_ok (geo s) → prev_ok prev search s → 2 ≤ search → search ≤ c < entries_of (geo s) →
  ∃ s1, (let* _ := fat_set c FAT_EOC in if prev =? 0 then pret () else fat_set prev c) s = Some ((), s1) ∧
    keeps (λ l, ¬ in_fats (geo s) l) s s1 ∧ linked (tail_of prev ++ [c]) s s1.
Proof.
  intros G Hp Hs Hc. assert (0 ≤ FAT_EOC < 2 ^ 16) as Heoc by (unfold FAT_EOC; lia).
  assert (entries_of (geo s) ≤ 65280) as He by (pose proof (go_spf _ G); unfold entries_of; lia).
  destruct (fat_set_spec c FAT_EOC s G) as (s1 & E1 & K1 & V1); [lia|done|].
  unfold pbind. rewrite E1. unfold tail_of. destruct (Z.eqb_spec prev 0) as [->|Hp0].
  { exists s1. split; [done|]. split; [done|]. intros f x Hf Hx. rewrite V1 by done. simpl. by destruct (decide (x = c)). }
  destruct Hp as [->|(Hp1 & Hp2 & Hp3)]; [done|]. pose proof (k_geo _ _ _ K1) as Eg.
  destruct (fat_set_spec prev c s1) as (s2 & E2 & K2 & V2); rewrite ?Eg; [done|lia|lia|].
  exists s2. split; [done|]. rewrite Eg in *. split; [by etrans|].
  intros f x Hf Hx. rewrite V2, V1 by done. simpl. destruct (decide (x = prev)); [done|]. by destruct (decide (x = c)).
Qed.

Lemma linked_step prev search c cs s s1 s2 s3 :
  geo s1 = geo s → geo s2 = geo s →
  linked (tail_of prev ++ [c]) s s1 → (∀ f x, 0 ≤ f < num_fats (geo s) → 0 ≤ x < entries_of (geo s) →
    fat_entry f x s2 = fat_entry f x s1) →
  linked (c :: cs) s2 s3 → increasing (c + 1) (entries_of (geo s)) cs → prev_ok prev search s → search ≤ c →
  linked (tail_of prev ++ c :: cs) s s3.
Proof.
  intros E1 E2 L1 E12 L3 Hi Hp Hc f x Hf Hx. rewrite L3 by (by rewrite E2). rewrite E12, L1 by done.
  unfold tail_of. destruct (Z.eqb_spec prev 0) as [->|Hp0]; simpl.
  - destruct (decide (x = c)); [done|]. by destruct (link cs x).
  - destruct Hp as [->|(Hp1 & _ & _)]; [done|]. destruct (decide (x = c)) as [->|Hxc].
    + rewrite !decide_False by lia. done.
    + destruct (decide (x = prev)) as [->|]; [|by destruct (link cs x)].
      rewrite link_notin; [done|]. eapply increasing_notin; [done|lia].
Qed.

Lemma linked_nil prev search s : prev_ok prev search s → linked (tail_of prev ++ []) s s.
Proof.
  intros Hp f x Hf Hx. rewrite app_nil_r. unfold tail_of.
  destruct (Z.eqb_spec prev 0) as [|Hp0]; [done|]. simpl.
  destruct (decide (x = prev)) as [->|]; [|done]. destruct Hp as [->|(_ & _ & Hp)]; [done|]. by apply Hp.
Qed.
Lemma cluster_keeps_fats g c f x :
  geometry_ok g → 2 ≤ c < entries_of g → 0 ≤ f < num_fats g → 0 ≤ x < entries_of g →
  ¬ in_cluster g c (fat_sector g f x).
Proof. intros G Hc Hf Hx Hin. by apply (cluster_not_fat g c _ G Hc Hin), fat_sector_eq. Qed.

(** What a call of [write_loop] is worth: the clusters [cs] were free,
    form a chain behind [prev] afterwards and, if all went well, hold the
    data. *)
Definition written (need : nat) (first prev search : Z) (buf : list Z) (s : fat D)
  (r : option (Z * bool * fat D)) (cs : list Z) : Prop :=
  ∃ first' ok s', r = Some ((first', ok), s') ∧
    increasing search (entries_of (geo s)) cs ∧ (∀ c, c ∈ cs → fat_entry 0 c s = 0) ∧
    first' = (if prev =? 0 then default first (head cs) else first) ∧
    linked (tail_of prev ++ cs) s s' ∧ keeps (outside (geo s) cs) s s' ∧
    (ok = true → length cs = need ∧ file_of (geo s) cs buf (dev s')).
Lemma written_none need first prev search buf s ok :
  prev_ok prev search s → (ok = true → need = 0%nat) →
  written need first prev search buf s (Some ((first, ok), s)) [].
Proof.
  intros Hp Hok. exists first, ok, s. split; [done|]. split; [done|]. split; [by intros c ?%elem_of_nil|].
  split; [by destruct (prev =? 0)|]. split; [by eapply linked_nil|]. split; [done|].
  intros E. by rewrite (Hok E).
Qed.

(** Claiming [c] and writing its data: [s2]. *)
Lemma one_cluster_spec prev search c buf s :
  geometry_ok (geo s) → 2 ≤ search → prev_ok prev search s → search ≤ c < entries_of (geo s) →
  ∃ r s1 s2, (let* _ := fat_set c FAT_EOC in if prev =? 0 then pret () else fat_set prev c) s = Some ((), s1) ∧
    write_cluster (Z.to_nat (sec_per_clus (geo s))) (clus_lba (geo s) c) buf s1 = Some (r, s2) ∧
    geo s1 = geo s ∧ keeps (outside (geo s) [c]) s s2 ∧ linked (tail_of prev ++ [c]) s s2 ∧
    (r = true → ∀ j, 0 ≤ j < sec_per_clus (geo s) → blk_read (dev s2) (clus_lba (geo s) c + j) = Some (nth_sector buf j)).
Proof.
  intros G Hs Hp Hc. destruct (claim_spec prev search c s G Hp Hs Hc) as (s1 & E1 & K1 & L1).
  pose proof (k_geo _ _ _ K1) as Eg1. pose proof (go_spc _ G).
  destruct (clus_lba_eq (geo s) c G) as [El Eu]; [lia|].
  destruct (write_cluster_spec (Z.to_nat (sec_per_clus (geo s))) (clus_lba (geo s) c) buf s1) as (r & s2 & E2 & K2 & R2).
  { pose proof (go_start _ G). pose proof (go_data _ G). pose proof (go_spf _ G). pose proof (go_fats _ G). nia. }
  { lia. }
  rewrite Z2Nat.id in * by lia.
  assert (keeps (λ l, ¬ in_cluster (geo s) c l) s1 s2) as K2' by exact K2.
  exists r, s1, s2. split; [done|]. split; [done|]. split; [done|]. split; [|split; [|done]].
  - transitivity s1; [eapply keeps_mono; [|exact K1]; by intros l [? _]|].
    eapply keeps_mono; [|exact K2']. intros l [_ Ho]. apply Ho. set_solver.
  - intros f x Hf Hx. rewrite (fat_entry_keeps _ f x _ _ K2'); [by apply L1|]. rewrite Eg1.
    apply cluster_keeps_fats; try done. lia.
Qed.

(** After [c] comes the rest of the chain. *)
Lemma written_cons need first prev search c cs buf s s2 r :
  geometry_ok (geo s) → 2 ≤ search → prev_ok prev search s → search ≤ c < entries_of (geo s) →
  fat_entry 0 c s = 0 → keeps (outside (geo s) [c]) s s2 → linked (tail_of prev ++ [c]) s s2 →
  (∀ j, 0 ≤ j < sec_per_clus (geo s) → blk_read (dev s2) (clus_lba (geo s) c + j) = Some (nth_sector buf j)) →
  written need (if prev =? 0 then c else first) c (c + 1) (drop (Z.to_nat (sec_per_clus (geo s) * SECSZ)) buf) s2 r cs →
  written (S need) first prev search buf s r (c :: cs).
Proof.
  intros G Hs Hp Hc Hfree K2 L2 R2 (first' & ok & s3 & -> & I3 & F3 & -> & L3 & K3 & R3).
  pose proof (k_geo _ _ _ K2) as Eg2. rewrite Eg2 in *.
  exists (if prev =? 0 then c else first), ok, s3. rewrite (proj2 (Z.eqb_neq c 0)) in * by lia.
  assert (tail_of c ++ cs = c :: cs) as Et by (unfold tail_of; rewrite (proj2 (Z.eqb_neq c 0)) by lia; done).
  rewrite Et in L3. pose proof (go_fats _ G) as Gf.
  split; [done|]. split; [done|]. split; [|split; [done|split; [|split]]].
  - intros x [->|Hx]%elem_of_cons; [done|]. pose proof (increasing_in _ _ _ _ I3 Hx) as Hr.
    transitivity (fat_entry 0 x s2); [|by apply F3]. rewrite L2 by lia.
    rewrite link_notin; [done|]. intros Hin.
    apply elem_of_app in Hin as [Hin|Hin%list_elem_of_singleton]; [|lia].
    unfold tail_of in Hin. destruct (Z.eqb_spec prev 0); [by apply elem_of_nil in Hin|].
    apply list_elem_of_singleton in Hin. destruct Hp as [?|(? & _)]; lia.
  - apply (linked_step prev search c cs s s2 s2 s3); try done. lia.
  - etrans; [eapply keeps_mono; [|exact K2]|eapply keeps_mono; [|exact K3]]; intros l [Ho1 Ho2];
      (split; [done|]); intros x Hx; apply Ho2; set_solver.
  - intros Hok. destruct (R3 Hok) as [Hlen Hfile]. split; [by simpl; rewrite Hlen|]. split; [|done].
    intros j Hj. rewrite (k_sec _ _ _ K3); [by apply R2|].
    assert (in_cluster (geo s) c (clus_lba (geo s) c + j)) as Hin by (unfold in_cluster; lia).
    split; [eapply (cluster_not_fat _ c); [done|lia|done]|].
    intros x Hx Hin'. pose proof (increasing_in _ _ _ _ I3 Hx) as Hr.
    assert (x = c); [|lia]. eapply (cluster_apart (geo s)); [done|lia|lia|done|done].
Qed.
Lemma write_loop_spec need first prev search buf s :
  geometry_ok (geo s) → 2 ≤ search → prev_ok prev search s →
  ∃ cs, written need first prev search buf s (write_loop need first prev search buf s) cs.
Proof.
  revert first prev search buf s. induction need as [|need IH]; intros first prev search buf s G Hs Hp.
  { exists []. by apply written_none. }
  cbn [write_loop]. unfold pbind at 1.
  destruct (fat_alloc_from_spec search s G Hs) as (c & E & Hc). rewrite E.
  destruct Hc as [[-> _]|(Hc & Hfree & _)]; [exists []; by apply written_none|].
  destruct (Z.eqb_spec c 0) as [->|_]; [lia|].
  destruct (one_cluster_spec prev search c buf s G Hs Hp Hc) as (r & s1 & s2 & E1 & E2 & Eg1 & K2 & L2 & R2).
  rewrite pbind_assoc. unfold pbind at 1. rewrite E1. unfold pbind, gets. rewrite Eg1, E2.
  pose proof (k_geo _ _ _ K2) as Eg2. pose proof (go_spf _ G) as Gs. pose proof (go_fats _ G) as Gf.
  destruct r.
  - specialize (R2 eq_refl). rewrite u16_small by (unfold entries_of in Hc; lia).
    destruct (IH (if prev =? 0 then c else first) c (c + 1) (drop (Z.to_nat (sec_per_clus (geo s) * SECSZ)) buf) s2)
      as [cs Hcs]; [by rewrite Eg2|lia| |].
    { right. rewrite Eg2. split; [lia|]. split; [lia|]. intros f Hf. rewrite L2 by lia.
      unfold tail_of. destruct (Z.eqb_spec prev 0) as [|Hp0]; simpl; [by rewrite decide_True|].
      destruct Hp as [?|(? & _)]; [done|]. rewrite decide_False by lia. by rewrite decide_True. }
    exists (c :: cs). by eapply written_cons.
  - exists [c]. exists (if prev =? 0 then c else first), false, s2. split; [done|]. split; [by split|].
    split; [by intros x ->%list_elem_of_singleton|]. done.
Qed.

(** ** Reading back *)

Lemma take_sector_of k buf : (k ≤ length buf)%nat → (k ≤ 512)%nat → take k (sector_of buf) = take k buf.
Proof.
  intros Hk Hl. unfold sector_of. cbn zeta. rewrite take_app_le by (rewrite length_take; lia).
  rewrite take_take. f_equal. lia.
Qed.
(** [want] bytes are wanted, and [buf] is what the sectors hold of them. *)
Lemma read_cluster_spec k lba want buf s :
  0 ≤ lba → lba + Z.of_nat k ≤ 2 ^ 32 →
  (∀ j, 0 ≤ j < Z.of_nat k → blk_read (dev s) (lba + j) = Some (nth_sector buf j)) →
  (want = Z.of_nat (length buf) ∨ (want ≤ 0 ∧ buf = [])) →
  read_cluster k lba want s = Some ((false, take (512 * k) buf), s).
Proof.
  revert lba want buf. induction k as [|k IH]; intros lba want buf Hl Hk Hr Hw.
  { by rewrite Nat.mul_0_r, take_0. }
  cbn [read_cluster]. destruct (Z.leb_spec want 0) as [H0|H0].
  { destruct buf; [by rewrite take_nil|]. destruct Hw as [->|[_ ?]]; [simpl in H0; lia|done]. }
  destruct Hw as [->|[? _]]; [|lia]. unfold pbind, gets.
  pose proof (Hr 0 ltac:(lia)) as Hr0. rewrite Z.add_0_r in Hr0. rewrite Hr0. unfold nth_sector.
  rewrite Z.mul_0_r. change (Z.to_nat 0) with 0%nat. rewrite drop_0.
  assert (take (Z.to_nat (Z.min SECSZ (Z.of_nat (length buf)))) (sector_of buf) = take 512 buf) as Ech.
  { unfold SECSZ. rewrite take_sector_of by lia. destruct (decide (512 ≤ length buf)%nat); [f_equal; lia|].
    rewrite !take_ge by lia. done. }
  assert (take (512 * S k) buf = take 512 buf ++ take (512 * k) (drop 512 buf)) as Esplit.
  { rewrite <- (take_drop 512 (take (512 * S k) buf)), take_take, skipn_firstn_comm. f_equal; f_equal; lia. }
  rewrite Ech, Esplit. destruct (decide (k = 0%nat)) as [->|Hk0]; [done|].
  rewrite u32_small by lia. rewrite (IH (lba + 1) _ (drop 512 buf)); [done|lia|lia| |].
  - intros j Hj. replace (lba + 1 + j) with (lba + (j + 1)) by lia. rewrite Hr by lia. unfold nth_sector.
    rewrite drop_drop. do 3 f_equal. lia.
  - rewrite length_drop. unfold SECSZ. destruct (decide (512 ≤ length buf)%nat); [left; lia|].
    right. split; [lia|]. apply drop_ge. lia.
Qed.

(** The chain as the table of [s] has it. *)
Fixpoint chain_of (cs : list Z) (s : fat D) : Prop :=
  match cs with
  | [] => True
  | c :: cs' => fat_entry 0 c s = default FAT_EOC (head cs') ∧ chain_of cs' s
  end.
Lemma linked_chain cs s s' lo :
  1 ≤ num_fats (geo s) → linked cs s s' → 0 ≤ lo → increasing lo (entries_of (geo s)) cs → chain_of cs s'.
Proof.
  intros Hf Hl Hlo Hi.
  assert (∀ pre, (∀ c, c ∈ cs → c ∉ pre) → linked (pre ++ cs) s s' → chain_of cs s') as Hgen;
    [|apply (Hgen []); [set_solver|done]]. clear Hl.
  revert lo Hlo Hi. induction cs as [|c cs IH]; intros lo Hlo Hi pre Hpre Hl; [done|]. destruct Hi as [Hc Hi].
  assert (∀ pre, c ∉ pre → link (pre ++ c :: cs) c = Some (default FAT_EOC (head cs))) as Hlink.
  { clear. induction pre as [|x pre IH]; simpl; intros Hp; [by rewrite decide_True|].
    rewrite decide_False by set_solver. apply IH. set_solver. }
  split.
  - rewrite Hl by lia. by rewrite Hlink by (apply Hpre; set_solver).
  - apply (IH (c + 1) ltac:(lia) Hi (pre ++ [c])); [|by rewrite <- (assoc_L (++))].
    intros x Hx [Hp|Hp%list_elem_of_singleton]%elem_of_app; [by apply (Hpre x); [set_solver|]|].
    pose proof (increasing_in _ _ _ _ Hi Hx). lia.
Qed.
Lemma read_loop_spec cs k lo want buf s x :
  geometry_ok (geo s) → 2 ≤ lo → increasing lo (entries_of (geo s)) cs → chain_of cs s → file_of (geo s) cs buf (dev s) →
  (length cs ≤ k)%nat → Z.of_nat (length buf) ≤ Z.of_nat (length cs) * (sec_per_clus (geo s) * SECSZ) →
  (want = Z.of_nat (length buf) ∨ (want ≤ 0 ∧ buf = [])) →
  read_loop junk k (default x (head cs)) want s = Some (buf, s).
Proof.
  intros G. revert k lo want buf x. induction cs as [|c cs IH]; intros k lo want buf x Hlo Hi Hch Hfile Hk Hlen Hw.
  { simpl in Hlen. destruct buf; [|simpl in Hlen; lia]. simpl in *.
    assert (want ≤ 0) as Hw0 by (destruct Hw as [->|[? _]]; lia).
    destruct k; simpl; by rewrite (proj2 (Z.ltb_ge 0 want) Hw0), andb_false_r. }
  destruct Hi as [Hc Hi]. destruct Hch as [Hc0 Hch]. destruct Hfile as [Hf0 Hfile].
  pose proof (go_spc _ G) as Gs. pose proof (go_spf _ G) as Gf. change (default x (head (c :: cs))) with c.
  destruct k as [|k]; [simpl in Hk; lia|]. cbn [read_loop].
  assert (in_chain c = true) as ->.
  { unfold in_chain, entries_of in *. rewrite andb_true_iff, Z.leb_le, Z.ltb_lt. lia. }
  destruct (Z.ltb_spec 0 want) as [Hw0|Hw0]; cbn [andb].
  2: { destruct buf; [done|]. destruct Hw as [->|[_ ?]]; [simpl in Hw0; lia|done]. }
  unfold pbind at 1, gets. unfold pbind at 1. destruct (clus_lba_eq (geo s) c G) as [El Eu]; [lia|].
  rewrite (read_cluster_spec _ _ want buf s); [| |lia|by rewrite Z2Nat.id by lia|done].
  2: { pose proof (go_start _ G). pose proof (go_data _ G). pose proof (go_fats _ G). nia. }
  unfold pbind. rewrite fat_next_eq, Hc0.
  rewrite (IH k (c + 1) _ (drop (Z.to_nat (sec_per_clus (geo s) * SECSZ)) buf)); try done.
  - unfold pret. do 2 f_equal. replace (512 * Z.to_nat (sec_per_clus (geo s)))%nat
      with (Z.to_nat (sec_per_clus (geo s) * SECSZ)) by (unfold SECSZ; lia). apply take_drop.
  - lia.
  - simpl in Hk. lia.
  - rewrite length_drop. simpl in Hlen. unfold SECSZ in *. nia.
  - rewrite length_drop. destruct Hw as [->|[? _]]; [|lia]. unfold SECSZ in *.
    destruct (decide (Z.to_nat (sec_per_clus (geo s) * 512) ≤ length buf)%nat); [left; lia|].
    right. split; [lia|]. apply drop_ge. lia.
Qed.
Lemma clusters_for_enough g len :
  geometry_ok g → 0 ≤ len < 2 ^ 31 → sec_per_clus g ≤ 255 →
  0 ≤ clusters_for g len ≤ len ∧ len ≤ clusters_for g len * (sec_per_clus g * SECSZ).
Proof.
  intros G Hl Hs. pose proof (go_spc _ G). unfold clusters_for, SECSZ.
  set (cs := sec_per_clus g * 512). assert (512 ≤ cs ≤ 130560) by (unfold cs; lia).
  rewrite u32_small by lia. pose proof (Z.div_mod (len + cs - 1) cs ltac:(lia)).
  pose proof (Z.mod_pos_bound (len + cs - 1) cs ltac:(lia)).
  set (q := (len + cs - 1) / cs) in *. split; [|nia]. split; [nia|]. nia.
Qed.

(** ** Freeing *)

Lemma fat_free_loop_spec cs k lo s :
  geometry_ok (geo s) → 2 ≤ lo → increasing lo (entries_of (geo s)) cs → chain_of cs s → (length cs ≤ k)%nat →
  ∃ s', fat_free_loop junk k (default 0 (head cs)) s = Some ((), s') ∧ keeps (λ l, ¬ in_fats (geo s) l) s s' ∧
    ∀ f c, 0 ≤ f < num_fats (geo s) → 0 ≤ c < entries_of (geo s) →
      fat_entry f c s' = if decide (c ∈ cs) then 0 else fat_entry f c s.
Proof.
  revert k lo s. induction cs as [|c cs IH]; intros k lo s G Hlo Hi Hch Hk.
  { exists s. split; [by destruct k|]. split; [done|]. intros f c _ _. by rewrite decide_False by set_solver. }
  destruct Hi as [Hc Hi]. destruct Hch as [Hc0 Hch]. pose proof (go_spf _ G) as Gf. pose proof (go_fats _ G).
  change (default 0 (head (c :: cs))) with c.
  destruct k as [|k]; [simpl in Hk; lia|]. cbn [fat_free_loop].
  assert (in_chain c = true) as ->.
  { unfold in_chain, entries_of in *. rewrite andb_true_iff, Z.leb_le, Z.ltb_lt. lia. }
  unfold pbind. rewrite fat_next_eq, Hc0.
  destruct (fat_set_spec c FAT_FREE s G) as (s1 & E1 & K1 & V1); [lia|unfold FAT_FREE; lia|]. rewrite E1.
  pose proof (k_geo _ _ _ K1) as Eg.
  assert (chain_of cs s1) as Hch1.
  { assert (∀ l, (∀ x, x ∈ l → c + 1 ≤ x < entries_of (geo s)) → chain_of l s → chain_of l s1) as Hgen.
    { induction l as [|y l IHl]; [done|]. intros Hb [H1 H2]. split; [|apply IHl; [set_solver|done]].
      pose proof (Hb y ltac:(set_solver)). rewrite V1 by lia. by rewrite decide_False by lia. }
    apply Hgen; [|done]. intros x Hx. exact (increasing_in _ _ _ _ Hi Hx). }
  assert (fat_free_loop junk k (default FAT_EOC (head cs)) s1 = fat_free_loop junk k (default 0 (head cs)) s1) as ->.
  { destruct cs; [|done]. by destruct k. }
  destruct (IH k (c + 1) s1) as (s2 & E2 & K2 & V2); rewrite ?Eg; try (done || lia); [simpl in Hk; lia|].
  exists s2. split; [done|]. rewrite Eg in *. split; [by etrans|].
  intros f x Hf Hx. rewrite V2, V1 by done.
  destruct (decide (x ∈ cs)); [by rewrite decide_True by set_solver|].
  destruct (decide (x = c)); [by rewrite decide_True by set_solver|]. by rewrite decide_False by set_solver.
Qed.
End chain.

Lemma increasing_length lo hi cs : increasing lo hi cs → Z.of_nat (length cs) ≤ Z.max 0 (hi - lo).
Proof.
  revert lo. induction cs as [|c cs IH]; intros lo; [simpl; lia|]. intros [Hc Hi].
  specialize (IH _ Hi). simpl. lia.
Qed.

(** ** What a write spares

    Everything [fat16_write] does besides allocating - looking names up and
    writing directory entries - leaves the sectors of the tables alone. *)
Section spares.
Context {D : Type} `{BlockDev D} (n : Z) `{!BlockLaws D n}.
Context (junk : list Z) (fuel : nat).

(** The root directory lies behind the tables. *)
Record root_ok (g : geometry) : Prop := {
  ro_start : fat_start g + num_fats g * sec_per_fat g ≤ root_start g;
  ro_u32 : root_start g + root_sectors g ≤ 2 ^ 32 }.
(** The root, or a number a directory's first cluster can have. *)
Definition dir_ok (dir : Z) : Prop := dir = 0 ∨ 2 ≤ dir < 65536.

Record same_fats (s s' : fat D) : Prop := {
  sf_geo : geo s' = geo s;
  sf_sec : ∀ l, in_fats (geo s) l → blk_read (dev s') l = blk_read (dev s) l }.
#[global] Instance same_fats_preorder : PreOrder same_fats.
Proof.
  split; [by split|]. intros s1 s2 s3 [A1 A2] [B1 B2]. split; [congruence|].
  intros l Hl. rewrite B2, A2; [done..|by rewrite A1].
Qed.
Lemma same_fats_entry s s' f c :
  geometry_ok n (geo s) → same_fats s s' → 0 ≤ f < num_fats (geo s) → 0 ≤ c < entries_of (geo s) →
  fat_entry junk f c s' = fat_entry junk f c s.
Proof.
  intros G [E R] Hf Hc. unfold fat_entry. rewrite E, R; [done|]. by apply (fat_sector_eq n).
Qed.
Lemma same_fats_chain s s' cs lo :
  geometry_ok n (geo s) → same_fats s s' → 0 ≤ lo → increasing lo (entries_of (geo s)) cs →
  chain_of junk cs s → chain_of junk cs s'.
Proof.
  intros G Hs. assert (0 ≤ 0 < num_fats (geo s)) as H0 by (pose proof (go_fats _ _ G); lia).
  revert lo. induction cs as [|c cs IH]; intros lo Hlo; [done|]. intros [Hc Hi] [E Hch]. split.
  - by rewrite (same_fats_entry s s') by (done || lia).
  - by apply (IH (c + 1) ltac:(lia)).
Qed.

(** If [m] returns, on the volume [g], the tables are as they were and [Q]
    holds of the result. *)
Definition spares {A} (g : geometry) (m : prog (fat D) A) (Q : A → Prop) : Prop :=
  ∀ s a s', geo s = g → m s = Some (a, s') → same_fats s s' ∧ Q a.
Lemma spares_bind {A B} g (m : prog (fat D) A) (k : A → prog (fat D) B) (Q : A → Prop) R :
  spares g m Q → (∀ a, Q a → spares g (k a) R) → spares g (pbind m k) R.
Proof.
  intros Hm Hk s b s' Hg E. unfold pbind in E. destruct (m s) as [[a s1]|] eqn:Em; [|done].
  destruct (Hm s a s1 Hg Em) as [H1 HQ]. destruct (Hk a HQ s1 b s') as [H2 HR]; [by rewrite (sf_geo _ _ H1)|done|].
  split; [by etrans|done].
Qed.
Lemma spares_any {A B} g (m : prog (fat D) A) (k : A → prog (fat D) B) R :
  spares g m (λ _, True) → (∀ a, spares g (k a) R) → spares g (pbind m k) R.
Proof. intros Hm Hk. apply (spares_bind g m k (λ _, True)); [done|]. auto. Qed.
Lemma spares_ret {A} g (a : A) (Q : A → Prop) : Q a → spares g (pret a) Q.
Proof. by intros HQ s b s' _ [= <- <-]. Qed.
Lemma spares_gets {A} g (f : fat D → A) : spares g (gets f) (λ _, True).
Proof. by intros s b s' _ [= <- <-]. Qed.
Lemma spares_geo g : spares g (gets geo) (λ x, x = g).
Proof. by intros s b s' Hg [= <- <-]. Qed.
Lemma spares_cache g lba b ok : spares g (set_cache lba b ok) (λ _, True).
Proof. by intros s a s' _ [= <- <-]. Qed.
Lemma spares_diverge {A} g Q : spares g (diverge (A := A)) Q.
Proof. done. Qed.
Lemma spares_mono {A} g (m : prog (fat D) A) (Q R : A → Prop) : spares g m Q → (∀ a, Q a → R a) → spares g m R.
Proof. intros Hm HQ s a s' Hg E. destruct (Hm s a s' Hg E). auto. Qed.
Lemma spares_write g lba b : ¬ in_fats g lba → spares g (write_sector lba b) (λ _, True).
Proof.
  intros Hl s r s' Hg. unfold write_sector. destruct (blk_write (dev s) lba b) as [r' d'] eqn:E. intros [= <- <-].
  split; [|done]. split; [done|]. intros l Hin. cbn [dev]. eapply bl_other; [exact E|]. intros ->. by rewrite Hg in Hin.
Qed.

(** Looking up: nothing is written. *)
Lemma spares_chain_skip g k c :
  dir_ok c → c ≠ 0 → spares g (chain_skip junk k c) (λ r, ∀ c', r = Some c' → 2 ≤ c' < 65536).
Proof.
  intros [->|Hc]; [done|intros _]. revert c Hc. induction k as [|k IH]; intros c Hc; cbn [chain_skip].
  - apply spares_ret. by intros c' [= <-].
  - apply spares_any; [apply spares_gets|]. intros c'. unfold in_chain.
    destruct (Z.leb_spec 2 c'), (Z.ltb_spec c' 0xFFF8); cbn [andb]; [apply IH; lia|by apply spares_ret..].
Qed.
Lemma spares_chain_any g k c : spares g (chain_skip junk k c) (λ _, True).
Proof.
  revert c. induction k as [|k IH]; intros c; cbn [chain_skip]; [by apply spares_ret|].
  apply spares_any; [apply spares_gets|]. intros c'. destruct (in_chain c'); [apply IH|by apply spares_ret].
Qed.
Lemma spares_dir_sector_any g dir i : spares g (dir_sector junk dir i) (λ _, True).
Proof.
  unfold dir_sector. apply spares_any; [apply spares_gets|]. intros g'. destruct (dir =? 0); [destruct (_ <=? _); by apply spares_ret|].
  apply spares_any; [apply spares_chain_any|]. intros c. by apply spares_ret.
Qed.
Lemma spares_slot_ptr g dir i : spares g (slot_ptr junk dir i) (λ _, True).
Proof.
  unfold slot_ptr. apply spares_any; [apply spares_dir_sector_any|]. intros [lba|]; [|by apply spares_ret].
  apply spares_any; [apply spares_gets|]. intros []; [apply spares_gets|].
  apply spares_any; [apply spares_gets|]. intros [b|]; [|by apply spares_ret].
  apply spares_any; [apply spares_cache|]. intros _. apply spares_gets.
Qed.
Lemma u32_nonneg z : 0 ≤ u32 z.
Proof. apply Z.mod_pos_bound. lia. Qed.
Lemma dscan_long_i d sc : 0 ≤ sc_i (dscan_long d sc).
Proof. unfold dscan_long. cbn zeta. destruct (_ && _ && _); apply u32_nonneg. Qed.
Lemma spares_dscan g k cap sc :
  0 ≤ sc_i sc → spares g (dscan_loop junk k cap sc) (λ r, (∀ e, r.1 = Some e → 0 ≤ fe_idx e) ∧ 0 ≤ sc_i r.2).
Proof.
  revert sc. induction k as [|k IH]; intros sc Hi; cbn [dscan_loop]; [apply spares_diverge|].
  apply spares_any; [apply spares_slot_ptr|]. intros [d|]; [|by apply spares_ret].
  destruct (_ =? 0x00); [by apply spares_ret|]. destruct (_ =? 0xE5); [apply IH, u32_nonneg|].
  destruct (_ =? LFN_ATTR); [apply IH, dscan_long_i|]. destruct (negb _); [apply IH, u32_nonneg|].
  apply spares_ret. split; [by intros e [= <-]|apply u32_nonneg].
Qed.
Lemma spares_scan g k P sc :
  0 ≤ sc_i sc → spares g (scan_loop junk fuel k P sc) (λ r, ∀ e, r = Some e → 0 ≤ fe_idx e).
Proof.
  revert sc. induction k as [|k IH]; intros sc Hi; cbn [scan_loop]; [apply spares_diverge|].
  eapply spares_bind; [by apply spares_dscan|]. intros [r sc'] [Hr Hi']. cbn [fst snd] in *.
  destruct r as [e|]; [|by apply spares_ret]. destruct (P e); [|by apply IH]. apply spares_ret. intros e' [= <-]. by apply Hr.
Qed.
Lemma spares_lookup g dir name : spares g (dir_lookup junk fuel dir name) (λ r, ∀ e, r = Some e → 0 ≤ fe_idx e).
Proof. by apply spares_scan. Qed.
Lemma spares_resolve g k p dir : spares g (resolve_loop junk fuel k p dir) (λ _, True).
Proof.
  revert p dir. induction k as [|k IH]; intros p dir.
  { destruct p; [by apply spares_ret|apply spares_diverge]. }
  cbn [resolve_loop]. destruct p as [|x p]; [by apply spares_ret|]. set (q := x :: p). cbn zeta.
  destruct (skip_slashes _); [by apply spares_ret|].
  apply spares_any; [eapply spares_mono; [apply spares_lookup|done]|]. intros [e|]; [|by apply spares_ret].
  destruct (is_dir _); [apply IH|by apply spares_ret].
Qed.
Lemma spares_resolve_leaf g path : spares g (resolve_leaf junk fuel path) (λ _, True).
Proof.
  unfold resolve_leaf, resolve. apply spares_any; [|intros; by apply spares_ret].
  apply spares_any; [apply spares_gets|]. intros g'. destruct (negb _); [by apply spares_ret|apply spares_resolve].
Qed.

(** A slot of a directory is never in the tables. *)
Lemma dir_sector_outside g dir i :
  geometry_ok n g → root_ok g → dir_ok dir → 0 ≤ i →
  spares g (dir_sector junk dir i) (λ r, ∀ lba, r = Some lba → ¬ in_fats g lba).
Proof.
  intros G [R1 R2] Hd Hi. pose proof (go_start _ _ G). pose proof (go_spf _ _ G). pose proof (go_fats _ _ G).
  assert (0 ≤ num_fats g * sec_per_fat g) by nia. unfold dir_sector.
  eapply spares_bind; [apply spares_geo|]. intros ? ->. destruct (Z.eqb_spec dir 0) as [->|Hne].
  - destruct (Z.leb_spec (root_sectors g) i); apply spares_ret; [done|]. intros lba [= <-].
    rewrite u32_small by lia. unfold in_fats. lia.
  - cbn zeta. eapply spares_bind; [by apply spares_chain_skip|]. intros r Hr. apply spares_ret.
    intros lba Hl. destruct r as [c|]; [|done]. specialize (Hr c eq_refl). cbn in Hl. injection Hl as <-.
    destruct G as [G1 G2 G3 G4 G5 G6 G7]. assert (0 ≤ (c - 2) * sec_per_clus g) by nia.
    assert ((c - 2) * sec_per_clus g + sec_per_clus g ≤ 65536 * sec_per_clus g) by nia.
    pose proof (Z.mod_pos_bound i (sec_per_clus g) G1).
    unfold clus_lba. rewrite (u32_small (c - 2)), (u32_small (data_start g + _)), u32_small by lia. unfold in_fats. lia.
Qed.
Lemma slot_ptr_cached g dir i s e s' :
  geometry_ok n g → root_ok g → dir_ok dir → 0 ≤ i → geo s = g →
  slot_ptr junk dir i s = Some (Some e, s') → ¬ in_fats g (dcache_lba s').
Proof.
  intros G R Hd Hi Hg E. unfold slot_ptr, pbind at 1 in E.
  destruct (dir_sector junk dir (i / SLOTS_PER_SEC) s) as [[[lba|] s1]|] eqn:Es; [|done|done].
  destruct (dir_sector_outside g dir (i / SLOTS_PER_SEC) G R Hd ltac:(unfold SLOTS_PER_SEC; ldiv) s _ s1 Hg Es) as [_ Hl].
  specialize (Hl lba eq_refl). unfold pbind at 1, gets in E.
  destruct (dcache_ok s1 && (dcache_lba s1 =? lba)) eqn:Eh.
  - injection E as _ <-. apply andb_true_iff in Eh as [_ Eh%Z.eqb_eq]. by rewrite Eh.
  - unfold pbind in E. destruct (blk_read (dev s1) lba) as [b|]; [|done]. by injection E as _ <-.
Qed.
Lemma spares_slot_put g dir i ent :
  geometry_ok n g → root_ok g → dir_ok dir → 0 ≤ i → spares g (slot_put junk dir i ent) (λ _, True).
Proof.
  intros G R Hd Hi s r s' Hg E. unfold slot_put, pbind at 1 in E.
  destruct (slot_ptr junk dir i s) as [[p s1]|] eqn:Ep; [|done].
  destruct (spares_slot_ptr g dir i s p s1 Hg Ep) as [H1 _]. destruct p as [e|]; [|by injection E as _ <-].
  pose proof (slot_ptr_cached g dir i s e s1 G R Hd Hi Hg Ep) as Hl.
  assert (geo s1 = g) as Hg1 by (by rewrite (sf_geo _ _ H1)).
  unfold pbind at 1, gets in E. cbn zeta in E. unfold pbind, set_cache in E. change (id s1) with s1 in E.
  apply (spares_write g _ _ Hl) in E as [[H2 H3] _]; [|exact Hg1].
  split; [|done]. etrans; [exact H1|]. by split.
Qed.
Lemma spares_run g k dir count i run begin :
  0 ≤ i → 0 ≤ begin → spares g (dir_run_loop junk k dir count i run begin) (λ r, ∀ b, r = Some b → 0 ≤ b).
Proof.
  revert i run begin. induction k as [|k IH]; intros i run begin Hi Hb; cbn [dir_run_loop]; [apply spares_diverge|].
  apply spares_any; [apply spares_slot_ptr|]. intros [d|]; [|by apply spares_ret]. cbn zeta.
  assert (0 ≤ if run =? 0 then i else begin) by (by destruct (run =? 0)).
  destruct (_ || _); [|apply IH; [apply u32_nonneg|done]].
  destruct (_ <=? _); [apply spares_ret; by intros b [= <-]|apply IH; [apply u32_nonneg|done]].
Qed.
Lemma spares_put_entries g dir i es :
  geometry_ok n g → root_ok g → dir_ok dir → 0 ≤ i → spares g (put_entries junk dir i es) (λ _, True).
Proof.
  intros G R Hd. revert i. induction es as [|e es IH]; intros i Hi; cbn [put_entries]; [by apply spares_ret|].
  apply spares_any; [by apply spares_slot_put|]. intros []; [apply IH; lia|by apply spares_ret].
Qed.
Lemma spares_short_name g k dir base ext m : spares g (short_name_loop junk fuel k dir base ext m) (λ _, True).
Proof.
  revert m. induction k as [|k IH]; intros m; cbn [short_name_loop]; [by apply spares_ret|].
  apply spares_any; [eapply spares_mono; [by apply spares_scan|done]|]. intros [e|]; [|by apply spares_ret].
  destruct (_ =? 99); [by apply spares_ret|apply IH].
Qed.
Lemma spares_create g dir name attr first size :
  geometry_ok n g → root_ok g → dir_ok dir → spares g (dir_create junk fuel dir name attr first size) (λ _, True).
Proof.
  intros G R Hd. unfold dir_create. cbn zeta.
  assert (∀ es : list (list Z), spares g
    (let* start := dir_run junk fuel dir (Z.of_nat (length es)) in
     match start with
     | None => pret (-1)
     | Some start => let* r := put_entries junk dir start es in
                     pret (if r : bool then i32 (start + Z.of_nat (length es) - 1) else -1)
     end) (λ _, True)) as Hput.
  { intros es. eapply spares_bind; [by apply spares_run|]. intros [b|] Hb; [|by apply spares_ret].
    apply spares_any; [apply spares_put_entries; auto|]. intros r. by apply spares_ret. }
  destruct (fits_83 name); [apply Hput|]. destruct (to_utf16 _ _) as [[|u us]|]; [by apply spares_ret| |by apply spares_ret].
  apply spares_any; [apply spares_short_name|]. intros n11. apply Hput.
Qed.
(** An entry that could not be written leaves the tables as they were; so
    does one that was, unless it replaces a file. *)
Lemma commit_failed dir leaf old first len s s' :
  geometry_ok n (geo s) → root_ok (geo s) → dir_ok dir → (∀ e, old = Some e → 0 ≤ fe_idx e) →
  commit_entry junk fuel dir leaf old first len s = Some (false, s') → same_fats s s'.
Proof.
  intros G R Hd Hold. unfold commit_entry. destruct old as [e|].
  - unfold pbind at 1. destruct (slot_put _ _ _ _ s) as [[[] s1]|] eqn:Ep; [| |done].
    + cbn zeta. unfold pbind. destruct (2 <=? _); [|done]. by destruct (fat_free_chain _ _ _ s1) as [[[] s2]|].
    + intros [= <-]. by apply (spares_slot_put (geo s) dir _ _ G R Hd (Hold e eq_refl) s _ s1 eq_refl Ep).
  - unfold pbind. destruct (dir_create _ _ _ _ _ _ _ s) as [[r s1]|] eqn:Ec; [|done]. intros [= _ <-].
    by apply (spares_create (geo s) dir leaf 0x20 first len G R Hd s r s1 eq_refl Ec).
Qed.

(** The clusters a write took, given back: every entry as before. *)
Lemma given_back need buf s first ok s1 s2 :
  geometry_ok n (geo s) → 65536 ≤ Z.of_nat fuel →
  (∀ f c, 0 ≤ f < num_fats (geo s) → 0 ≤ c < entries_of (geo s) → fat_entry junk f c s = fat_entry junk 0 c s) →
  write_loop need 0 0 2 buf s = Some ((first, ok), s1) → same_fats s1 s2 →
  ∃ s3, fat_free_chain junk fuel first s2 = Some ((), s3) ∧
    ∀ f c, 0 ≤ f < num_fats (geo s) → 0 ≤ c < entries_of (geo s) → fat_entry junk f c s3 = fat_entry junk f c s.
Proof.
  intros G Hf Hm Ew Hs.
  destruct (write_loop_spec n junk need 0 0 2 buf s G ltac:(lia)) as (cs & first' & ok' & s1' & E & I & F & -> & L & K & R).
  { by left. }
  rewrite Ew in E. injection E as -> <- <-.
  pose proof (k_geo _ _ _ K) as Eg. cbn [Z.eqb tail_of app] in *.
  assert (chain_of junk cs s1) as Hch by (apply (linked_chain n junk cs s s1 2); [apply (go_fats _ _ G)|done|lia|done]).
  assert (geo s2 = geo s) as Eg2 by (by rewrite (sf_geo _ _ Hs)).
  apply (same_fats_chain s1 s2 cs 2) in Hch; [|by rewrite Eg|done|lia|by rewrite Eg].
  pose proof (increasing_length _ _ _ I) as Hlen. pose proof (go_spf _ _ G).
  destruct (fat_free_loop_spec n junk cs fuel 2 s2) as (s3 & E3 & K3 & V3); rewrite ?Eg2; try (done || lia).
  { unfold entries_of in *. lia. }
  exists s3. split; [exact E3|]. rewrite Eg2 in V3.
  intros f c Hf' Hc. rewrite V3 by done. destruct (decide (c ∈ cs)) as [Hin|Hni].
  - rewrite Hm by done. symmetry. by apply F.
  - rewrite (same_fats_entry s1 s2) by (by rewrite ?Eg). rewrite L by done. by rewrite (link_notin n).
Qed.
End spares.

(** ** Properties *)

Section theorems.
Context {D : Type} `{BlockDev D} (n : Z) `{!BlockLaws D n}.
Context (junk : list Z) (fuel : nat).

(** [fat_set] changes one entry of the allocation table, in every
    copy of the table, and no other sector of the disk. *)
Theorem fat_set_correct clus val (s : fat D) :
  geometry_ok n (geo s) → 0 ≤ clus < entries_of (geo s) → 0 ≤ val < 2 ^ 16 →
  ∃ s', fat_set clus val s = Some ((), s') ∧
    (∀ f c, 0 ≤ f < num_fats (geo s) → 0 ≤ c < entries_of (geo s) →
      fat_entry junk f c s' = if decide (c = clus) then val else fat_entry junk f c s) ∧
    (∀ l, ¬ in_fats (geo s) l → blk_read (dev s') l = blk_read (dev s) l).
Proof.
  intros G Hc Hv. destruct (fat_set_spec n junk clus val s G Hc Hv) as (s' & E & K & V).
  exists s'. split; [done|]. split; [done|]. apply K.
Qed.


End theorems.

(** A volume on a ram disk: one sector per cluster, two tables of one
    sector, a root directory of one. *)
Definition demo_geo : geometry := mkGeo 512 1 1 2 16 1 1 3 1 4 true.
Definition demo_vol (table : list Z) : fat ramdisk := mkFat {[1 := table; 2 := table]} demo_geo 0 [] false.
Lemma demo_geo_ok : geometry_ok 4096 demo_geo.
Proof. split; cbn; lia. Qed.
(** All clusters free. *)
Definition empty_vol : fat ramdisk := demo_vol [].

Lemma fat_set_correct_witness : ∃ s',
  fat_set 5 77 empty_vol = Some ((), s') ∧ fat_entry [] 0 5 s' = 77 ∧ fat_entry [] 1 5 s' = 77 ∧
  fat_entry [] 1 6 s' = 0.
Proof.
  destruct (fat_set_correct 4096 [] 5 77 empty_vol) as (s' & E & V & _);
    [exact demo_geo_ok|unfold entries_of; cbn; lia|lia|].
  exists s'. split; [exact E|]. unfold entries_of in V. cbn in V.
  split; [rewrite V by lia; reflexivity|]. split; [rewrite V by lia; reflexivity|].
  rewrite V by lia. reflexivity.
Defined.
Definition demo_file : list Z := Z.of_nat <$> seq 0 700.
(** Clusters from the third on lie behind the last sector of the disk. *)
Definition short_vol : fat ramdisk :=
  mkFat {[1 := replicate 512 0; 2 := replicate 512 0]} (mkGeo 512 1 1 2 16 1 1 3 1 4094 true) 0 [] false.

(** ** The whole interface, run *)

(** A directory with a long name, a file in it written, read back under
    another case, listed and removed. *)
Definition demo_session : prog (fat ramdisk) (Z * Z * option (list Z) * option (list (list Z)) * Z * option (list (list Z))) :=
  let* made := fat16_mkdir [] 2000 (str "/Docs and more") in
  let* put := fat16_write [] 2000 (str "/docs AND more/readme.txt") (str "hello") in
  let* got := fat16_read [] 2000 (str "/Docs and more/README.TXT") 100 in
  let* names := fat16_list [] 2000 (str "/Docs and more/") 10 in
  let* gone := fat16_remove [] 2000 (str "/Docs and more/README.TXT") in
  let* after := fat16_list [] 2000 (str "/Docs and more") 10 in
  pret (made, put, got, option_map (map de_name) names, gone, option_map (map de_name) after).
Example demo_session_runs :
  option_map fst (demo_session empty_vol) =
  Some (0, 5, Some (str "hello"), Some [str "."; str ".."; str "readme.txt"], 0, Some [str "."; str ".."]).
Proof. vm_compute. reflexivity. Qed.

(** [fat16_remove] on the "." of an empty directory succeeds and
    frees the directory's own cluster, while the entry that names the
    directory still points to it: the next allocation hands the same
    cluster out again. *)
Theorem remove_dot_frees_directory :
  option_map fst
    ((let* made := fat16_mkdir [] 2000 (str "/DOCS") in
      let* gone := fat16_remove [] 2000 (str "/DOCS/.") in
      let* entry := dir_lookup [] 2000 0 (str "DOCS") in
      let* next := fat_alloc_from 2 in
      pret (made, gone, option_map (λ e, rd16 (fe_ent e) 26) entry, next)) empty_vol)
  = Some (0, 0, Some 2, 2).
Proof. vm_compute. reflexivity. Qed.
