(* ===== verification/Fs.v ===== *)
(** * The file server (src/src/srv_fs.c)

    A whole file at a time: opened into a buffer, changed there, and written
    back when it is closed.  The FAT driver is behind [FileSystem]; Fat16.v
    is an instance. *)
From stdpp Require Import base list numbers option.
From S2P Require Import Prelude Mem Req FatName Fat16.
Local Open Scope Z_scope.

(** What the server calls of the driver (src/src/fat16.h).  A listing gives
    at most the entries asked for, [None] for -1. *)
Class FileSystem (D : Type) := {
  drv_init : prog D Z;
  drv_list : list Z → nat → prog D (option (list dirent));
  drv_size : list Z → prog D Z;
  drv_read : list Z → Z → prog D (option (list Z));
  drv_write : list Z → list Z → prog D Z;
  drv_remove : list Z → prog D Z;
  drv_mkdir : list Z → prog D Z }.
#[export] Instance fat16_driver {D} `{BlockDev D} (junk : list Z) (fuel : nat) : FileSystem (fat D) := {
  drv_init := fat16_init junk;
  drv_list := fat16_list junk fuel;
  drv_size := fat16_size junk fuel;
  drv_read := fat16_read junk fuel;
  drv_write := fat16_write junk fuel;
  drv_remove := fat16_remove junk fuel;
  drv_mkdir := fat16_mkdir junk fuel }.

Definition FS_MAXFD : nat := 3.
(** An open file.  [f_data] is the buffer: [f_cap] bytes of it, none when
    there is no buffer. *)
Record fs_file := mkFile
  { f_used : bool; f_owner : Z; f_size : Z; f_pos : Z; f_cap : Z; f_dirty : bool;
    f_name : list Z; f_data : list Z }.
Ltac set_fs_file proj :=
  setter (λ s, mkFile (f_used s) (f_owner s) (f_size s) (f_pos s) (f_cap s) (f_dirty s) (f_name s)
    (f_data s)) proj.
#[export] Instance set_f_used : Setter f_used. Proof. set_fs_file f_used. Defined.
#[export] Instance set_f_owner : Setter f_owner. Proof. set_fs_file f_owner. Defined.
#[export] Instance set_f_size : Setter f_size. Proof. set_fs_file f_size. Defined.
#[export] Instance set_f_pos : Setter f_pos. Proof. set_fs_file f_pos. Defined.
#[export] Instance set_f_cap : Setter f_cap. Proof. set_fs_file f_cap. Defined.
#[export] Instance set_f_dirty : Setter f_dirty. Proof. set_fs_file f_dirty. Defined.
#[export] Instance set_f_name : Setter f_name. Proof. set_fs_file f_name. Defined.
#[export] Instance set_f_data : Setter f_data. Proof. set_fs_file f_data. Defined.
Arguments set_f_used _ _ /.
Arguments set_f_owner _ _ /.
Arguments set_f_size _ _ /.
Arguments set_f_pos _ _ /.
Arguments set_f_cap _ _ /.
Arguments set_f_dirty _ _ /.
Arguments set_f_name _ _ /.
Arguments set_f_data _ _ /.

(** The static variables of the server, the answers of malloc and realloc
    that refuse, the tasks that live, and the driver. *)
Record fs (D : Type) := mkFs
  { fs_tab : list fs_file; fs_ents : nat; fs_oom : list bool; fs_alive : list Z; driver : D }.
Arguments mkFs {D}. Arguments fs_tab {D}. Arguments fs_ents {D}. Arguments fs_oom {D}.
Arguments fs_alive {D}. Arguments driver {D}.
Definition no_file : fs_file := mkFile false 0 0 0 0 false [] [].

Section server.
Context {D : Type} `{FileSystem D}.
(** A byte of memory just allocated. *)
Context (stale : Z).

Definition drive {A} (m : prog D A) : prog (fs D) A := λ s,
  match m (driver s) with
  | Some (a, d) => Some (a, mkFs (fs_tab s) (fs_ents s) (fs_oom s) (fs_alive s) d)
  | None => None
  end.
Definition get_file (i : nat) : prog (fs D) fs_file := gets (λ s, nth i (fs_tab s) no_file).
Definition put_file (i : nat) (f : fs_file) : prog (fs D) () :=
  modify (λ s, mkFs (<[i := f]> (fs_tab s)) (fs_ents s) (fs_oom s) (fs_alive s) (driver s)).
Definition set_ents (n : nat) : prog (fs D) () :=
  modify (λ s, mkFs (fs_tab s) n (fs_oom s) (fs_alive s) (driver s)).
(** Whether malloc or realloc gives memory. *)
Definition fs_mem : prog (fs D) bool := λ s,
  match fs_oom s with
  | [] => Some (true, s)
  | b :: l => Some (negb b, mkFs (fs_tab s) (fs_ents s) l (fs_alive s) (driver s))
  end.

(** ** Listings *)

Definition dir_line (e : dirent) : list Z :=
  [if de_is_dir e then 100 else 45] ++ [32] ++ uutoa (de_size e) ++ [32] ++ de_name e ++ [10].
Definition DIR_SLACK : Z := FAT_NAME_MAX + 24.
Fixpoint dir_text (l : list dirent) (cap : Z) (o : list Z) : list Z :=
  match l with
  | [] => o
  | e :: l' => if Z.of_nat (length o) <? cap - DIR_SLACK then dir_text l' cap (o ++ dir_line e) else o
  end.
(** The entries, read into an array that doubles until it is not filled. *)
Fixpoint list_all (n : nat) (path : list Z) : prog (fs D) (option (list dirent)) :=
  match n with
  | O => diverge
  | S n' =>
      let* room := gets fs_ents in
      let* got := (if (room =? 0)%nat then fs_mem else pret true) in
      if negb got then let* _ := set_ents 0 in pret None
      else
        let room := if (room =? 0)%nat then 32%nat else room in
        let* _ := set_ents room in
        let* l := drive (drv_list path room) in
        match l with
        | None => pret None
        | Some es =>
            if (length es <? room)%nat then pret (Some es)
            else
              let* got := fs_mem in
              if got : bool then let* _ := set_ents (2 * room) in list_all n' path else pret (Some es)
        end
  end.
Definition LIST_ROUNDS : nat := 32.
Definition fs_format_dir (path : list Z) (cap : Z) : prog (fs D) (option (list Z)) :=
  let* l := list_all LIST_ROUNDS path in pret ((λ es, dir_text es cap []) <$> l).

(** ** Open files *)

Definition fs_alloc : prog (fs D) (option nat) :=
  let* s := gets id in
  let at_ i := nth i (fs_tab s) no_file in
  match find_from (λ i, negb (f_used (at_ i))) 0 FS_MAXFD with
  | Some i => pret (Some i)
  | None =>
      match find_from (λ i, f_used (at_ i) && negb (bool_decide (f_owner (at_ i) ∈ fs_alive s))) 0 FS_MAXFD with
      | Some i =>
          let* _ := put_file i ((at_ i) <| f_data := [] |> <| f_cap := 0 |> <| f_used := false |> <| f_dirty := false |>) in
          pret (Some i)
      | None => pret None
      end
  end.
Definition VFS_NAME_MAX : nat := 127.
Definition fs_keep_name (p : list Z) : list Z := take VFS_NAME_MAX p.
(** Half again until it is enough. *)
Fixpoint grown (n : nat) (cap want : Z) : Z :=
  match n with O => cap | S n' => if cap <? want then grown n' (u32 (cap + cap / 2 + 1)) want else cap end.
Definition GROW_ROUNDS : nat := 64.
(** The file with room for [want] bytes, [None] when there is no memory. *)
Definition fs_room (f : fs_file) (want : Z) : prog (fs D) (option fs_file) :=
  if want <=? f_cap f then pret (Some f)
  else
    let cap := grown GROW_ROUNDS (if f_cap f =? 0 then 512 else f_cap f) want in
    if cap <? want then diverge
    else
      let* got := fs_mem in
      pret (if got : bool
            then Some (f <| f_data := f_data f ++ repeat stale (Z.to_nat cap - length (f_data f)) |> <| f_cap := cap |>)
            else None).
Definition LIST_MAX : Z := 2 ^ 20.
(** A directory: ever larger buffers until the listing fits. *)
Fixpoint open_dir (n : nat) (path : list Z) (f : fs_file) (cap : Z) : prog (fs D) (fs_file * option (list Z)) :=
  match n with
  | O => pret (f, None)
  | S n' =>
      if LIST_MAX <? cap then pret (f, None)
      else
        let* o := fs_room f cap in
        match o with
        | None => pret (f, None)
        | Some f =>
            let* t := fs_format_dir path cap in
            match t with
            | Some t => if Z.of_nat (length t) <? cap - DIR_SLACK then pret (f, Some t) else open_dir n' path f (2 * cap)
            | None => open_dir n' path f (2 * cap)
            end
        end
  end.
(** A file: a buffer of its size and a byte. *)
Definition open_file_data (path : list Z) (f : fs_file) : prog (fs D) (fs_file * option (list Z)) :=
  let* size := drive (drv_size path) in
  if size <? 0 then pret (f, None)
  else
    let* o := fs_room f (u32 (size + 1)) in
    match o with
    | None => pret (f, None)
    | Some f =>
        if size =? 0 then pret (f, Some [])
        else let* l := drive (drv_read path size) in pret (f, l)
    end.
(** [l] laid over the beginning of a buffer. *)
Definition over (l buf : list Z) : list Z := l ++ drop (length l) buf.
Definition fs_do_open (create : bool) (from : Z) (r : vfs_req) : prog (fs D) vfs_req :=
  let* o := fs_alloc in
  match o with
  | None => pret (r <| result := -1 |>)
  | Some i =>
      let* f := get_file i in
      let f := f <| f_data := [] |> <| f_cap := 0 |> in
      let* (f, t) :=
        if create then pret (f, Some [])
        else
          let* probe := drive (drv_list (path r) 0) in
          match probe with
          | Some _ => open_dir 9 (path r) f 4096
          | None => open_file_data (path r) f
          end in
      match t with
      | None => let* _ := put_file i (f <| f_data := [] |>) in pret (r <| result := -1 |>)
      | Some t =>
          let* _ := put_file i
            (mkFile true from (Z.of_nat (length t)) 0 (f_cap f) create (fs_keep_name (path r)) (over t (f_data f))) in
          pret (r <| result := Z.of_nat i |>)
      end
  end.
(** The descriptor's file. *)
Definition file_of_fd (x : Z) (s : fs D) : option (nat * fs_file) :=
  let f := nth (Z.to_nat x) (fs_tab s) no_file in
  if (x <? 0) || (Z.of_nat FS_MAXFD <=? x) || negb (f_used f) then None else Some (Z.to_nat x, f).
Definition fs_do_read (r : vfs_req) : prog (fs D) vfs_req :=
  let* o := gets (file_of_fd (fd r)) in
  match o with
  | None => pret (r <| result := -1 |>)
  | Some (i, f) =>
      let n := i32 (f_size f - f_pos f) in
      let n := if len r <? n then len r else n in
      let n := if n <? 0 then 0 else n in
      if VFS_DATA_MAX <? n then diverge
      else
        let t := take (Z.to_nat n) (drop (Z.to_nat (f_pos f)) (f_data f)) in
        let* _ := put_file i (f <| f_pos := u32 (f_pos f + n) |>) in
        pret (r <| data := over t (data r) |> <| result := n |>)
  end.
Definition fs_do_write (r : vfs_req) : prog (fs D) vfs_req :=
  let* o := gets (file_of_fd (fd r)) in
  match o with
  | None => pret (r <| result := -1 |>)
  | Some (i, f) =>
      if (len r <? 0) || (length (f_name f) =? 0)%nat then pret (r <| result := -1 |>)
      else
        let n := if VFS_DATA_MAX <? len r then VFS_DATA_MAX else len r in
        if n <=? 0 then pret (r <| result := 0 |>)
        else
          let* o := fs_room f (u32 (f_pos f + n)) in
          match o with
          | None => pret (r <| result := -1 |>)
          | Some f =>
              let d := take (Z.to_nat n) (data r) in
              let p := u32 (f_pos f + n) in
              let* _ := put_file i
                (f <| f_data := take (Z.to_nat (f_pos f)) (f_data f) ++ d ++ drop (Z.to_nat (f_pos f + n)) (f_data f) |>
                   <| f_pos := p |> <| f_size := if f_size f <? p then p else f_size f |> <| f_dirty := true |>) in
              pret (r <| result := n |>)
          end
  end.
(** Back to the disk, if it was written to. *)
Definition fs_flush (i : nat) (f : fs_file) : prog (fs D) () :=
  if f_dirty f then
    let* _ := put_file i (f <| f_dirty := false |>) in
    let* _ := drive (drv_write (f_name f) (take (Z.to_nat (f_size f)) (f_data f))) in pret ()
  else pret ().
Definition fs_do_close (r : vfs_req) : prog (fs D) vfs_req :=
  let* o := gets (file_of_fd (fd r)) in
  match o with
  | None => pret (r <| result := 0 |>)
  | Some (i, f) =>
      let* _ := fs_flush i f in
      let* f := get_file i in
      let* _ := put_file i (f <| f_data := [] |> <| f_cap := 0 |> <| f_used := false |>) in
      pret (r <| result := 0 |>)
  end.
Fixpoint holds_text (l : list fs_file) (task : Z) (o : list Z) : list Z :=
  match l with
  | [] => o
  | f :: l' =>
      if Z.of_nat (length o) <? VFS_DATA_MAX - 160 then
        holds_text l' task
          (if f_used f && (f_owner f =? task)
           then o ++ f_name f ++ [32] ++ uutoa (f_size f) ++
                (if f_dirty f then str " bytes, not yet on the disk" else str " bytes") ++ [10]
           else o)
      else o
  end.
Context (fs_doc fs_conf : list Z).
Definition fs_do_ioctl (r : vfs_req) : prog (fs D) vfs_req :=
  let* s := gets id in
  if ioctl_cmd r =? IOCTL_PING then pret (r <| result := 0 |>)
  else if ioctl_cmd r =? IOCTL_DOC then pret (vfs_doc_reply r fs_doc)
  else if ioctl_cmd r =? IOCTL_CONF then pret (vfs_doc_reply r fs_conf)
  else if ioctl_cmd r =? IOCTL_HOLDS then pret (vfs_reply_text r (holds_text (fs_tab s) (len r) []))
  else if ioctl_cmd r =? IOCTL_MKDIR then let* x := drive (drv_mkdir (path r)) in pret (r <| result := x |>)
  else
    match file_of_fd (fd r) s with
    | None => pret (r <| result := -1 |>)
    | Some (i, f) =>
        if ioctl_cmd r =? IOCTL_REMOVE then
          let* _ := put_file i (f <| f_dirty := false |>) in
          let* x := drive (drv_remove (f_name f)) in pret (r <| result := x |>)
        else if ioctl_cmd r =? IOCTL_GETSIZE then pret (r <| result := i32 (f_size f) |>)
        else pret (r <| result := -1 |>)
    end.
(** One request and its answer. *)
Definition fs_serve (from : Z) (r : vfs_req) : prog (fs D) vfs_req :=
  if op r =? VFS_OPEN then fs_do_open false from r
  else if op r =? VFS_CREATE then fs_do_open true from r
  else if op r =? VFS_READ then fs_do_read r
  else if op r =? VFS_IOCTL then fs_do_ioctl r
  else if op r =? VFS_WRITE then fs_do_write r
  else if op r =? VFS_CLOSE then fs_do_close r
  else pret (r <| result := -1 |>).
End server.
