(* ===== verification/FsClient.v ===== *)
(** * Client and file server together

    The client library over the file server over any driver: what [pcopy]
    writes is what it read, and the file goes to the driver once, when it is
    closed.  Then the cases in which mv loses a file. *)
From stdpp Require Import base list numbers option.
From S2P Require Import Prelude Mem Req FatName Fat16 Client Fs Progs.
Local Open Scope Z_scope.

(** ** Buffers *)

Lemma grown_step n cap want :
  cap < want → want ≤ 2 ^ 31 → 0 ≤ cap → grown (S n) cap want = grown n (cap + cap / 2 + 1) want.
Proof. intros H1 H2 H3. cbn [grown]. rewrite (proj2 (Z.ltb_lt _ _) H1), u32_small; [done|]. ldiv. Qed.
Lemma grown_done n cap want : want ≤ cap → grown n cap want = cap.
Proof. intros H. destruct n; [done|]. cbn [grown]. by rewrite (proj2 (Z.ltb_ge _ _) H). Qed.
Lemma grown_enough k cap want :
  0 < cap → want ≤ 2 ^ 31 → want ≤ cap * 2 ^ Z.of_nat k → want ≤ grown (2 * k) cap want ∧ cap ≤ grown (2 * k) cap want.
Proof.
  revert cap. induction k as [|k IH]; intros cap Hc Hw Hk; [simpl; lia|].
  destruct (Z.le_gt_cases want cap) as [Hd|Hd]; [rewrite grown_done by done; lia|].
  replace (2 * S k)%nat with (S (S (2 * k))) by lia. rewrite grown_step by lia.
  set (c1 := cap + cap / 2 + 1). assert (cap < c1 ∧ 3 * cap / 2 ≤ c1) as [H1 H2] by (unfold c1; ldiv).
  destruct (Z.le_gt_cases want c1) as [Hd1|Hd1]; [rewrite grown_done by done; lia|].
  rewrite grown_step by lia. set (c2 := c1 + c1 / 2 + 1). assert (2 * cap ≤ c2) by (unfold c2, c1 in *; ldiv).
  assert (want ≤ c2 * 2 ^ Z.of_nat k) as Hk2.
  { rewrite Nat2Z.inj_succ, Z.pow_succ_r in Hk by lia. nia. }
  destruct (IH c2 ltac:(lia) Hw Hk2). lia.
Qed.

Lemma grown_bound n cap want : 0 ≤ cap < 2 ^ 32 → 0 ≤ grown n cap want < 2 ^ 32.
Proof.
  revert cap. induction n as [|n IH]; intros cap Hc; [done|]. cbn [grown].
  case_match; [|done]. apply IH, u32_range.
Qed.

Section world.
Context {D : Type} `{FileSystem D}.
Context (stale : Z) (fs_doc fs_conf : list Z) (junk : vfs_req) (fuel : nat) (srv me : Z).
(** The file server answers for every name, and is task [srv]. *)
#[local] Instance fs_world : World (fs D) := {
  sys_resolve p n := pret (if (n =? 0)%nat then Some (srv, p) else None);
  sys_call dst r := if dst =? srv then let* a := fs_serve stale fs_doc fs_conf me r in pret (Some a) else pret None;
  sys_mounts_text := pret [];
  sys_putchar _ := pret ();
  sys_rest := pret () }.
Hypothesis Hsrv : 0 ≤ srv < 2 ^ 15.

Lemma pack_task i : 0 ≤ i < 2 ^ 16 → fd_task (fd_pack srv i) = srv ∧ fd_local (fd_pack srv i) = i ∧ 0 ≤ fd_pack srv i.
Proof.
  intros Hi. unfold fd_pack, fd_task, fd_local. rewrite Z.shiftl_mul_pow2 by lia. rewrite i32_small by lia.
  change 0xffff with (2 ^ 16 - 1). rewrite (land_mask i), Z.mod_small by lia. rewrite lor_disjoint by lia.
  rewrite land_mask, Z.shiftr_div_pow2 by lia. split_and!; [ldiv|ldiv|lia].
Qed.
Definition with_tab (t : list fs_file) (s : fs D) : fs D := mkFs t (fs_ents s) (fs_oom s) (fs_alive s) (driver s).
(** Slot [i] is open on [name] with [text] in it and the position at
    [pos]. *)
Record open_on (i : nat) (name text : list Z) (pos : nat) (dirty : bool) (s : fs D) : Prop := {
  oo_slot : (i < FS_MAXFD)%nat; oo_tab : length (fs_tab s) = FS_MAXFD; oo_mem : fs_oom s = [];
  oo_used : f_used (nth i (fs_tab s) no_file) = true;
  oo_size : f_size (nth i (fs_tab s) no_file) = Z.of_nat (length text);
  oo_pos : f_pos (nth i (fs_tab s) no_file) = Z.of_nat pos ∧ (pos ≤ length text)%nat;
  oo_dirty : f_dirty (nth i (fs_tab s) no_file) = dirty; oo_name : f_name (nth i (fs_tab s) no_file) = name;
  oo_cap : Z.of_nat (length (f_data (nth i (fs_tab s) no_file))) = f_cap (nth i (fs_tab s) no_file);
  oo_text : text `prefix_of` f_data (nth i (fs_tab s) no_file) }.
Lemma file_of_open i name text pos dirty s :
  open_on i name text pos dirty s → file_of_fd (Z.of_nat i) s = Some (i, nth i (fs_tab s) no_file).
Proof.
  intros O. unfold file_of_fd. rewrite Nat2Z.id, (oo_used _ _ _ _ _ _ O). pose proof (oo_slot _ _ _ _ _ _ O).
  rewrite (proj2 (Z.ltb_ge _ 0)), (proj2 (Z.leb_gt _ _)) by lia. done.
Qed.
Lemma nth_insert_same i f (t : list fs_file) : (i < FS_MAXFD)%nat → length t = FS_MAXFD → nth i (<[i := f]> t) no_file = f.
Proof. intros Hi Hl. rewrite nth_lookup, list_lookup_insert_eq by lia. done. Qed.
Lemma nth_insert_other i j f (t : list fs_file) : i ≠ j → nth j (<[i := f]> t) no_file = nth j t no_file.
Proof. intros Hi. rewrite !nth_lookup, list_lookup_insert_ne by done. done. Qed.
Lemma call_server r s r' s' :
  fs_serve stale fs_doc fs_conf me r s = Some (r', s') → vfs_call srv r s = Some (r', s').
Proof.
  intros E. unfold vfs_call. cbn [sys_call fs_world]. rewrite Z.eqb_refl. unfold pbind, pret in *. by rewrite E.
Qed.
Lemma fs_room_ok f want (s : fs D) :
  fs_oom s = [] → 0 ≤ f_cap f < 2 ^ 32 → want ≤ 2 ^ 31 → Z.of_nat (length (f_data f)) = f_cap f →
  ∃ more, fs_room stale f want s = Some (Some (f <| f_data := f_data f ++ more |> <| f_cap := f_cap f + Z.of_nat (length more) |>), s) ∧
    want ≤ f_cap f + Z.of_nat (length more) < 2 ^ 32.
Proof.
  intros Hm Hc Hw Hd. unfold fs_room. destruct (Z.leb_spec want (f_cap f)) as [Hle|Hgt].
  { exists []. simpl. rewrite Z.add_0_r, app_nil_r. split; [by destruct f|lia]. }
  set (c0 := if f_cap f =? 0 then 512 else f_cap f). assert (0 < c0 ∧ f_cap f ≤ c0 ∧ c0 < 2 ^ 32) as (H1 & H2 & H3) by (unfold c0; case_match; lia).
  pose proof (grown_enough 32 c0 want H1 Hw ltac:(lia)) as [H4 H5]. pose proof (grown_bound 64 c0 want ltac:(lia)) as H6.
  change (2 * 32)%nat with GROW_ROUNDS in *. change 64%nat with GROW_ROUNDS in H6.
  set (cap := grown GROW_ROUNDS c0 want) in *. clearbody cap. rewrite (proj2 (Z.ltb_ge _ _)) by lia.
  unfold fs_mem, pbind. rewrite Hm. exists (repeat stale (Z.to_nat cap - length (f_data f))). rewrite repeat_length.
  split; [|lia]. unfold pret. simpl. do 4 f_equal. lia.
Qed.

(** ** One read, one write *)

(** [f] after [d] has been written at the end of its text. *)
Definition wrote (f : fs_file) (text d : list Z) (f' : fs_file) : Prop :=
  f_used f' = f_used f ∧ f_owner f' = f_owner f ∧ f_name f' = f_name f ∧ f_dirty f' = true ∧
  f_size f' = Z.of_nat (length (text ++ d)) ∧ f_pos f' = Z.of_nat (length (text ++ d)) ∧
  Z.of_nat (length (f_data f')) = f_cap f' ∧ 0 ≤ f_cap f' < 2 ^ 32 ∧ (text ++ d) `prefix_of` f_data f'.
Lemma fs_do_write_end i name text dirty r d s :
  open_on i name text (length text) dirty s → name ≠ [] → d ≠ [] → Z.of_nat (length d) ≤ VFS_DATA_MAX →
  Z.of_nat (length text + length d) ≤ 2 ^ 31 → 0 ≤ f_cap (nth i (fs_tab s) no_file) < 2 ^ 32 →
  fd r = Z.of_nat i → len r = Z.of_nat (length d) → take (length d) (data r) = d →
  ∃ f', fs_do_write stale r s = Some (r <| result := Z.of_nat (length d) |>, with_tab (<[i := f']> (fs_tab s)) s) ∧
    wrote (nth i (fs_tab s) no_file) text d f'.
Proof.
  intros O Hn Hd Hdl Hlen Hcap Hfd Hl Hr. set (f := nth i (fs_tab s) no_file) in *.
  destruct (oo_pos _ _ _ _ _ _ O) as [Hp _]. pose proof (oo_size _ _ _ _ _ _ O) as Hs.
  pose proof (oo_name _ _ _ _ _ _ O) as Hname. pose proof (oo_cap _ _ _ _ _ _ O) as Hc.
  destruct (oo_text _ _ _ _ _ _ O) as [rest Ht]. fold f in Hp, Hs, Hname, Hc, Ht.
  assert (0 < length d)%nat as Hd0 by (destruct d; [done|simpl; lia]).
  destruct (fs_room_ok f (Z.of_nat (length text) + Z.of_nat (length d)) s (oo_mem _ _ _ _ _ _ O) Hcap ltac:(lia) Hc) as (more & Hm & Hb).
  unfold fs_do_write, gets. rewrite (pbind_eq _ _ _ _ _ eq_refl), Hfd, (file_of_open _ _ _ _ _ _ O). fold f.
  rewrite Hl, Hname, Hp. unfold VFS_DATA_MAX in *.
  destruct (length name =? 0)%nat eqn:En; [by apply Nat.eqb_eq, nil_length_inv in En|].
  rewrite (proj2 (Z.ltb_ge _ 0)), (proj2 (Z.ltb_ge 512 _)), (proj2 (Z.leb_gt _ 0)) by lia. cbn [orb].
  rewrite !u32_small by lia. rewrite (pbind_eq _ _ _ _ _ Hm). cbn [f_pos set_field set_f_data set_f_cap f_size].
  rewrite Hp, Hs, u32_small by lia. rewrite (proj2 (Z.ltb_lt _ _)) by lia. rewrite !Nat2Z.id, Hr.
  eexists. split; [reflexivity|]. unfold wrote. cbn.
  assert (length (f_data f) = length text + length rest)%nat as Hfd' by (rewrite Ht; apply length_app).
  rewrite (length_app text d). split_and!; try done; try lia.
  - rewrite !length_app, length_take, length_drop, length_app. lia.
  - rewrite Ht, <- app_assoc, take_app_length, app_assoc. by apply prefix_app_r.
Qed.
Lemma open_on_put i name text pos dirty name' text' pos' dirty' f' s :
  open_on i name text pos dirty s →
  f_used f' = true → f_size f' = Z.of_nat (length text') → f_pos f' = Z.of_nat pos' → (pos' ≤ length text')%nat →
  f_dirty f' = dirty' → f_name f' = name' → Z.of_nat (length (f_data f')) = f_cap f' → text' `prefix_of` f_data f' →
  open_on i name' text' pos' dirty' (with_tab (<[i := f']> (fs_tab s)) s).
Proof.
  intros O. intros. constructor; cbn; rewrite ?nth_insert_same by apply O; rewrite ?length_insert; try done; apply O.
Qed.
(** Another slot is not touched. *)
Lemma open_on_other i j name text pos dirty f' s :
  open_on i name text pos dirty s → i ≠ j → open_on i name text pos dirty (with_tab (<[j := f']> (fs_tab s)) s).
Proof.
  intros O Hij. constructor; cbn; rewrite ?nth_insert_other by done; rewrite ?length_insert; apply O.
Qed.
Lemma write_chunk i name text dirty d s :
  open_on i name text (length text) dirty s → name ≠ [] → d ≠ [] → Z.of_nat (length d) ≤ VFS_DATA_MAX →
  Z.of_nat (length text + length d) ≤ 2 ^ 31 → 0 ≤ f_cap (nth i (fs_tab s) no_file) < 2 ^ 32 →
  ∃ f', vfs_write junk (fd_pack srv (Z.of_nat i)) d s = Some (Z.of_nat (length d), with_tab (<[i := f']> (fs_tab s)) s) ∧
    open_on i name (text ++ d) (length (text ++ d)) true (with_tab (<[i := f']> (fs_tab s)) s) ∧ 0 ≤ f_cap f' < 2 ^ 32.
Proof.
  intros O Hn Hd Hdl Hlen Hcap. pose proof (oo_slot _ _ _ _ _ _ O) as Hi.
  destruct (pack_task (Z.of_nat i)) as (Et & El & _); [unfold FS_MAXFD in *; lia|].
  unfold vfs_write. rewrite take_ge by (unfold VFS_DATA_MAX in *; lia). rewrite Et, El.
  set (r := junk <| op := VFS_WRITE |> <| fd := Z.of_nat i |> <| len := Z.of_nat (length d) |> <| data := d ++ drop (length d) (data junk) |>).
  destruct (fs_do_write_end i name text dirty r d s O Hn Hd Hdl Hlen Hcap eq_refl eq_refl) as (f' & Hw & Hf'); [apply take_app_length|].
  exists f'. rewrite (pbind_eq _ _ _ _ _ (call_server r _ _ _ Hw)). destruct Hf' as (H1 & _ & H3 & H4 & H5 & H6 & H7 & H8 & H9).
  split_and!; try done; try lia. eapply open_on_put; try done; [by rewrite H1; apply O|]. rewrite H3. apply O.
Qed.
(** What is left of the text from [pos] on, at most [VFS_DATA_MAX] bytes of
    it. *)
Lemma read_chunk i name text pos dirty s :
  open_on i name text pos dirty s → Z.of_nat (length text) < 2 ^ 31 →
  let d := take (Z.to_nat VFS_DATA_MAX) (drop pos text) in
  let f := nth i (fs_tab s) no_file in
  vfs_read junk (fd_pack srv (Z.of_nat i)) VFS_DATA_MAX s =
    Some ((Z.of_nat (length d), d), with_tab (<[i := f <| f_pos := Z.of_nat (pos + length d) |>]> (fs_tab s)) s).
Proof.
  intros O Hlen d f. pose proof (oo_slot _ _ _ _ _ _ O) as Hi. destruct (oo_pos _ _ _ _ _ _ O) as [Hp Hple].
  pose proof (oo_size _ _ _ _ _ _ O) as Hs. destruct (oo_text _ _ _ _ _ _ O) as [rest Ht]. fold f in Hp, Hs, Ht.
  destruct (pack_task (Z.of_nat i)) as (Et & El & _); [unfold FS_MAXFD in *; lia|].
  assert (length d = Nat.min 512 (length text - pos)) as Hd by (unfold d, VFS_DATA_MAX; rewrite length_take, length_drop; lia).
  unfold vfs_read. rewrite Z.ltb_irrefl, Et, El. set (r := junk <| op := VFS_READ |> <| fd := Z.of_nat i |> <| len := VFS_DATA_MAX |>).
  assert (fs_do_read r s = Some (r <| data := over d (data r) |> <| result := Z.of_nat (length d) |>,
            with_tab (<[i := f <| f_pos := Z.of_nat (pos + length d) |>]> (fs_tab s)) s)) as Hr.
  { unfold fs_do_read, gets. rewrite (pbind_eq _ _ _ _ _ eq_refl). change (fd r) with (Z.of_nat i).
    rewrite (file_of_open _ _ _ _ _ _ O). fold f. rewrite Hs, Hp. change (len r) with VFS_DATA_MAX. unfold VFS_DATA_MAX in *.
    rewrite i32_small by lia.
    replace (if 512 <? _ then 512 else _) with (Z.of_nat (length d)) by (case_match; lia).
    rewrite (proj2 (Z.ltb_ge _ 0)), (proj2 (Z.ltb_ge 512 _)), !Nat2Z.id by lia.
    rewrite u32_small by lia. replace (Z.of_nat pos + Z.of_nat (length d)) with (Z.of_nat (pos + length d)) by lia.
    assert (take (length d) (drop pos (f_data f)) = d) as ->; [|done].
    rewrite Ht, drop_app_le by lia. rewrite take_app_le by (rewrite length_drop; lia).
    unfold d. by rewrite length_take, <- take_take, firstn_all. }
  rewrite (pbind_eq _ _ _ _ _ (call_server r _ _ _ Hr)). cbn [result data set_field set_result set_data].
  rewrite (proj2 (Z.ltb_ge _ _)) by (unfold VFS_DATA_MAX in *; lia). rewrite Nat2Z.id. unfold over. by rewrite take_app_length.
Qed.

(** ** The copy *)

(** Nothing but the slots [i] and [j] differs. *)
Definition frame (i j : nat) (s s' : fs D) : Prop :=
  driver s' = driver s ∧ fs_oom s' = fs_oom s ∧ fs_alive s' = fs_alive s ∧ fs_ents s' = fs_ents s ∧
  ∀ k, k ≠ i → k ≠ j → fs_tab s' !! k = fs_tab s !! k.
Lemma frame_refl i j s : frame i j s s.
Proof. done. Qed.
Lemma frame_put i j k f s0 s : frame i j s0 s → k = i ∨ k = j → frame i j s0 (with_tab (<[k := f]> (fs_tab s)) s).
Proof.
  intros (H1 & H2 & H3 & H4 & H5) Hk. split_and!; try done. intros m Hi Hj. cbn.
  rewrite list_lookup_insert_ne by naive_solver. by apply H5.
Qed.
Definition cap_ok (i : nat) (s : fs D) : Prop := 0 ≤ f_cap (nth i (fs_tab s) no_file) < 2 ^ 32.
(** What a copy is in the middle of. *)
Record copying (i j : nat) (src text dst out : list Z) (pos : nat) (s0 s : fs D) : Prop := {
  cy_in : open_on i src text pos false s; cy_out : open_on j dst out (length out) true s;
  cy_cap : cap_ok j s; cy_frame : frame i j s0 s }.
Lemma pcopy_loop_ok i j src text dst s0 n out pos total s :
  i ≠ j → dst ≠ [] → (0 < fuel)%nat → Z.of_nat (length text) < 2 ^ 31 →
  copying i j src text dst out pos s0 s → Z.of_nat (length out + (length text - pos)) < 2 ^ 31 →
  0 ≤ total → total + Z.of_nat (length text - pos) < 2 ^ 31 → (length text - pos < n)%nat →
  ∃ s', pcopy_loop junk fuel n (fd_pack srv (Z.of_nat i)) (fd_pack srv (Z.of_nat j)) total s =
      Some (Some (total + Z.of_nat (length text - pos)), s') ∧
    copying i j src text dst (out ++ drop pos text) (length text) s0 s'.
Proof.
  intros Hij Hdst Hfuel Hlen. revert out pos total s. induction n as [|n IH]; intros out pos total s C Hout Ht0 Ht Hn; [lia|].
  cbn [pcopy_loop]. pose proof (cy_in _ _ _ _ _ _ _ _ _ C) as Oi.
  destruct (oo_pos _ _ _ _ _ _ Oi) as [_ Hple]. rewrite (pbind_eq _ _ _ _ _ (read_chunk _ _ _ _ _ _ Oi Hlen)).
  set (d := take (Z.to_nat VFS_DATA_MAX) (drop pos text)).
  assert (length d = Nat.min 512 (length text - pos)) as Hd by (unfold d, VFS_DATA_MAX; rewrite length_take, length_drop; lia).
  set (f := (nth i (fs_tab s) no_file) <| f_pos := Z.of_nat (pos + length d) |>). set (s1 := with_tab (<[i := f]> (fs_tab s)) s).
  assert (open_on i src text (pos + length d) false s1) as Oi1 by (eapply open_on_put; try apply Oi; cbn; lia || done).
  assert (open_on j dst out (length out) true s1) as Oj1 by (apply open_on_other; [apply C|done]).
  assert (cap_ok j s1) as Hc1 by (unfold cap_ok; cbn; rewrite nth_insert_other by done; apply C).
  assert (frame i j s0 s1) as Hf1 by (apply frame_put; [apply C|by left]).
  destruct (Nat.eq_dec pos (length text)) as [->|Hpos].
  - assert (length d = 0)%nat as Hd0 by lia. rewrite Hd0. cbn. exists s1. rewrite Nat.sub_diag, Z.add_0_r. split; [done|].
    rewrite drop_all, app_nil_r. rewrite Hd0, Nat.add_0_r in Oi1. done.
  - assert (d ≠ []) as Hdne by (intros E; assert (length d = 0)%nat by (by rewrite E); lia).
    rewrite (proj2 (Z.leb_gt _ 0)) by lia.
    destruct (write_chunk j dst out true d s1 Oj1 Hdst Hdne) as (f' & Hw & Oj2 & Hc2); [unfold VFS_DATA_MAX; lia|lia|done|].
    set (s2 := with_tab (<[j := f']> (fs_tab s1)) s1) in *.
    assert (copy_out_chunk junk fuel (fd_pack srv (Z.of_nat j)) d s1 = Some (true, s2)) as Hco.
    { destruct fuel as [|m]; [lia|]. cbn [copy_out_chunk]. destruct (length d =? 0)%nat eqn:E0; [apply Nat.eqb_eq in E0; lia|].
      rewrite (pbind_eq _ _ _ _ _ Hw). rewrite (proj2 (Z.ltb_ge _ 0)), (proj2 (Z.eqb_neq _ 0)) by lia.
      rewrite Nat2Z.id, drop_all. by destruct m. }
    rewrite (pbind_eq _ _ _ _ _ Hco). rewrite i32_small by lia.
    destruct (IH (out ++ d) (pos + length d)%nat (total + Z.of_nat (length d)) s2) as (s' & Hs' & C'); try (rewrite ?length_app; lia).
    { constructor; [by apply open_on_other|done| |apply frame_put; [done|by right]].
      unfold cap_ok. cbn. rewrite nth_insert_same; [done|apply Oj1|apply Oj1]. }
    exists s'. rewrite Hs'. split; [do 3 f_equal; lia|].
    rewrite <- app_assoc in C'. replace (d ++ drop (pos + length d) text) with (drop pos text) in C'; [done|].
    unfold d. rewrite <- drop_drop. rewrite <- (take_drop (Z.to_nat VFS_DATA_MAX) (drop pos text)) at 1. f_equal.
    fold d. rewrite Hd. destruct (Nat.min_spec 512 (length text - pos)) as [[_ ->]|[Hge ->]]; [done|].
    rewrite !drop_ge by (rewrite length_drop; unfold VFS_DATA_MAX; lia). done.
Qed.

(** ** Opening and closing *)

(** [i] is the first slot that is not in use. *)
Definition next_free (i : nat) (s : fs D) : Prop :=
  (i < FS_MAXFD)%nat ∧ length (fs_tab s) = FS_MAXFD ∧ f_used (nth i (fs_tab s) no_file) = false ∧
  ∀ k, (k < i)%nat → f_used (nth k (fs_tab s) no_file) = true.
Lemma fs_alloc_free i s : next_free i s → fs_alloc s = Some (Some i, s).
Proof.
  intros (Hi & _ & Hu & Hb). unfold fs_alloc. rewrite (pbind_eq _ _ _ s s) by done. cbv zeta.
  rewrite (find_from_is _ 0 FS_MAXFD i); [done|lia|by rewrite Hu|]. intros m Hm. rewrite Hb by lia. done.
Qed.
(** The driver gives [text] for the file [src], and is then at [d']. *)
Definition drv_gives (src text : list Z) (d d' : D) : Prop :=
  ∃ d1 d2, drv_list src 0 d = Some (None, d1) ∧ drv_size src d1 = Some (Z.of_nat (length text), d2) ∧
    (if (length text =? 0)%nat then d' = d2 else drv_read src (Z.of_nat (length text)) d2 = Some (Some text, d')).
Definition with_driver (d : D) (s : fs D) : fs D := mkFs (fs_tab s) (fs_ents s) (fs_oom s) (fs_alive s) d.
Lemma open_file_ok i src text s d' :
  next_free i s → fs_oom s = [] → drv_gives src text (driver s) d' → Z.of_nat (length text) < 2 ^ 31 - 1 →
  ∃ f, vfs_open junk src s = Some (fd_pack srv (Z.of_nat i), with_driver d' (with_tab (<[i := f]> (fs_tab s)) s)) ∧
    f_owner f = me ∧ f_cap f < 2 ^ 32 ∧
    open_on i (take VFS_NAME_MAX src) text 0 false (with_driver d' (with_tab (<[i := f]> (fs_tab s)) s)).
Proof.
  intros Hf Hm (d1 & d2 & Hl & Hsz & Hrd) Hlen. pose proof (fs_alloc_free _ _ Hf) as Ha. destruct Hf as (Hi & Ht & _).
  set (f0 := (nth i (fs_tab s) no_file) <| f_data := [] |> <| f_cap := 0 |>).
  set (s2 := with_driver d2 s).
  destruct (fs_room_ok f0 (Z.of_nat (length text) + 1) s2 Hm) as (more & Hr & Hb); [cbn; lia|lia|done|].
  set (f1 := f0 <| f_data := f_data f0 ++ more |> <| f_cap := f_cap f0 + Z.of_nat (length more) |>) in *.
  change (f_cap f0) with 0 in Hb. rewrite Z.add_0_l in Hb.
  set (f := mkFile true me (Z.of_nat (length text)) 0 (f_cap f1) false (fs_keep_name src) (over text more)).
  set (s' := with_driver d' (with_tab (<[i := f]> (fs_tab s)) s)).
  assert (∀ r, path r = src → fs_do_open stale false me r s = Some (r <| result := Z.of_nat i |>, s')) as Ho.
  { intros r Hp. unfold fs_do_open. rewrite (pbind_eq _ _ _ _ _ Ha). unfold get_file. rewrite (pbind_eq _ _ _ _ _ eq_refl). fold f0.
    rewrite <- pbind_assoc. rewrite (pbind_eq _ _ _ None (with_driver d1 s)) by (unfold drive; by rewrite Hp, Hl).
    assert (open_file_data stale (path r) f0 (with_driver d1 s) = Some ((f1, Some text), with_driver d' s)) as Hof.
    { unfold open_file_data. rewrite (pbind_eq _ _ _ (Z.of_nat (length text)) s2) by (unfold drive; cbn; by rewrite Hp, Hsz).
      rewrite (proj2 (Z.ltb_ge _ 0)) by lia. rewrite u32_small by lia. rewrite (pbind_eq _ _ _ _ _ Hr).
      destruct (Nat.eqb_spec (length text) 0) as [E|E].
      - rewrite E. cbn. subst d'. by apply nil_length_inv in E as ->.
      - rewrite (proj2 (Z.eqb_neq _ 0)) by lia. unfold drive. rewrite Hp. unfold pbind. cbn. by rewrite Hrd. }
    rewrite (pbind_eq _ _ _ _ _ Hof). cbn [f_data f1 set_field set_f_data set_f_cap]. rewrite Hp. done. }
  exists f. destruct (pack_task (Z.of_nat i)) as (_ & _ & Hpos); [unfold FS_MAXFD in *; lia|].
  split_and!; [|done|cbn; lia|].
  - unfold vfs_open. cbn [vfs_open_from]. rewrite (pbind_eq _ _ _ (Some (srv, src)) s) by done.
    unfold vfs_open_at. rewrite <- pbind_assoc.
    set (r := junk <| op := VFS_OPEN |> <| path := src |>). rewrite (pbind_eq _ _ _ _ _ (call_server r _ _ _ (Ho r eq_refl))).
    cbn [result set_field set_result]. rewrite (proj2 (Z.ltb_ge _ 0)) by lia.
    unfold pbind, pret. by rewrite (proj2 (Z.leb_le _ _) Hpos).
  - constructor; cbn; rewrite ?length_insert, ?nth_insert_same by done; try done.
    + cbn. split; lia.
    + cbn. unfold over. rewrite length_app, length_drop. lia.
    + by apply prefix_app_r.
Qed.
Lemma create_file_ok j dst s :
  next_free j s → fs_oom s = [] →
  let f := mkFile true me 0 0 0 true (take VFS_NAME_MAX dst) [] in
  vfs_create junk dst s = Some (fd_pack srv (Z.of_nat j), with_tab (<[j := f]> (fs_tab s)) s) ∧
  open_on j (take VFS_NAME_MAX dst) [] 0 true (with_tab (<[j := f]> (fs_tab s)) s).
Proof.
  intros Hf Hm f. pose proof (fs_alloc_free _ _ Hf) as Ha. destruct Hf as (Hi & Ht & _).
  set (s' := with_tab (<[j := f]> (fs_tab s)) s).
  assert (∀ r, path r = dst → fs_do_open stale true me r s = Some (r <| result := Z.of_nat j |>, s')) as Ho.
  { intros r <-. unfold fs_do_open. rewrite (pbind_eq _ _ _ _ _ Ha). done. }
  split.
  - unfold vfs_create. rewrite (pbind_eq _ _ _ (Some (srv, dst)) s) by done.
    set (r := junk <| op := VFS_CREATE |> <| path := dst |>). rewrite (pbind_eq _ _ _ _ _ (call_server r _ _ _ (Ho r eq_refl))).
    cbn [result set_field set_result]. by rewrite (proj2 (Z.ltb_ge _ 0)) by lia.
  - constructor; cbn; rewrite ?length_insert, ?nth_insert_same by done; done.
Qed.
(** What closing does to the driver: nothing, or one write of the text. *)
Lemma close_ok i name text pos dirty s d' :
  open_on i name text pos dirty s →
  (if dirty then ∃ x, drv_write name text (driver s) = Some (x, d') else d' = driver s) →
  ∃ f, vfs_close junk (fd_pack srv (Z.of_nat i)) s = Some (0, with_driver d' (with_tab (<[i := f]> (fs_tab s)) s)) ∧ f_used f = false.
Proof.
  intros O Hd. pose proof (oo_slot _ _ _ _ _ _ O) as Hi. set (f := nth i (fs_tab s) no_file).
  destruct (pack_task (Z.of_nat i)) as (Et & El & _); [unfold FS_MAXFD in *; lia|].
  exists (f <| f_dirty := false |> <| f_data := [] |> <| f_cap := 0 |> <| f_used := false |>). split; [|done].
  unfold vfs_close. rewrite Et, El. set (r := junk <| op := VFS_CLOSE |> <| fd := Z.of_nat i |>).
  match goal with |- _ = Some (0, ?s') => set (s1 := s') end.
  assert (fs_do_close r s = Some (r <| result := 0 |>, s1)) as Hc; [|by rewrite (pbind_eq _ _ _ _ _ (call_server r _ _ _ Hc))].
  unfold fs_do_close, gets. rewrite (pbind_eq _ _ _ _ _ eq_refl). change (fd r) with (Z.of_nat i). rewrite (file_of_open _ _ _ _ _ _ O). fold f.
  unfold fs_flush. pose proof (oo_dirty _ _ _ _ _ _ O) as Hdi. fold f in Hdi. rewrite Hdi. destruct dirty.
  - destruct Hd as [x Hx]. rewrite <- pbind_assoc. unfold put_file, modify. rewrite (pbind_eq _ _ _ _ _ eq_refl).
    assert (take (Z.to_nat (f_size f)) (f_data f) = text) as Htx.
    { unfold f. rewrite (oo_size _ _ _ _ _ _ O), Nat2Z.id. destruct (oo_text _ _ _ _ _ _ O) as [rest ->]. apply take_app_length. }
    rewrite <- pbind_assoc. unfold drive, pbind. cbn. pose proof (oo_name _ _ _ _ _ _ O) as Hn. fold f in Hn. rewrite <- Hn in Hx. rewrite Htx, Hx. cbn.
    unfold get_file, gets, put_file, modify, pret. cbn. rewrite nth_insert_same by apply O. rewrite list_insert_insert_eq. done.
  - subst d'. cbn. unfold pbind, pret, get_file, gets. cbn. fold f. do 3 f_equal. unfold s1, with_driver, with_tab. cbn. do 3 f_equal.
    destruct f; cbn in *. by subst.
Qed.

(** ** cp *)

(** Slots [i] and [j] are the first two that are free. *)
Definition two_free (i j : nat) (s : fs D) : Prop :=
  next_free i s ∧ (i < j < FS_MAXFD)%nat ∧ f_used (nth j (fs_tab s) no_file) = false ∧
  ∀ k, (i < k < j)%nat → f_used (nth k (fs_tab s) no_file) = true.
Lemma second_free i j f s d :
  two_free i j s → f_used f = true → next_free j (with_driver d (with_tab (<[i := f]> (fs_tab s)) s)).
Proof.
  intros ((Hi & Ht & Hu & Hb) & Hj & Huj & Hbj) Hf. unfold next_free. cbn. rewrite length_insert, nth_insert_other by lia.
  split_and!; [lia|done|done|]. intros k Hk. destruct (decide (k = i)) as [->|Hki].
  - by rewrite nth_insert_same.
  - rewrite nth_insert_other by done. destruct (decide (k < i)%nat); [by apply Hb|]. apply Hbj. lia.
Qed.
Lemma open_on_driver i name text pos dirty d s : open_on i name text pos dirty s → open_on i name text pos dirty (with_driver d s).
Proof. by intros []. Qed.
(** C9: cp copies.  Whatever the driver, when it gives the file [src] as
    [text], the client library and the file server together hand [text] back
    to it as the file [dst] - once, whole, and unchanged, however many
    messages and buffer sizes lie between - and leave every other open file
    as it was. *)
Theorem pcopy_writes_what_it_read i j src dst text d3 x d4 s :
  two_free i j s → fs_oom s = [] → dst ≠ [] → (length dst ≤ VFS_NAME_MAX)%nat → Z.of_nat (length text) < 2 ^ 31 - 1 →
  (length text < fuel)%nat → drv_gives src text (driver s) d3 → drv_write dst text d3 = Some (x, d4) →
  ∃ s', pcopy junk fuel src dst s = Some (Z.of_nat (length text), s') ∧ driver s' = d4 ∧
    f_used (nth i (fs_tab s') no_file) = false ∧ f_used (nth j (fs_tab s') no_file) = false ∧
    ∀ k, k ≠ i → k ≠ j → fs_tab s' !! k = fs_tab s !! k.
Proof.
  intros H2 Hm Hdst Hdl Hlen Hfuel Hg Hw. destruct (H2) as (Hfi & Hj & _). pose proof Hfi as (Hi & Ht & _).
  destruct (open_file_ok i src text s d3 Hfi Hm Hg Hlen) as (f & Ho & _ & _ & Oi). set (s1 := with_driver _ _) in Ho, Oi.
  assert (f_used f = true) as Hfu by (pose proof (oo_used _ _ _ _ _ _ Oi) as E; cbn in E; by rewrite nth_insert_same in E).
  destruct (create_file_ok j dst s1 (second_free _ _ _ _ _ H2 Hfu) Hm) as [Hc Oj]. set (s2 := with_tab _ s1) in Hc, Oj.
  rewrite (take_ge dst) in Oj by lia.
  assert (copying i j (take VFS_NAME_MAX src) text dst [] 0 s1 s2) as C.
  { constructor; [by apply open_on_other; [|lia]|done| |by apply frame_put; [|right]].
    unfold cap_ok. cbn. rewrite nth_insert_same; [done|lia|]. by rewrite length_insert. }
  destruct (pcopy_loop_ok i j _ text dst s1 fuel [] 0 0 s2 ltac:(lia) Hdst ltac:(lia) ltac:(lia) C) as (s3 & Hl & C3); try (cbn; lia).
  rewrite Nat.sub_0_r, drop_0, app_nil_l in *. destruct C3 as [Oi3 Oj3 _ (Hd3 & _ & _ & _ & Hfr)]. cbn in Hd3.
  destruct (close_ok i _ text _ false s3 (driver s3) Oi3 eq_refl) as (fi & Hci & Hfi').
  set (s4 := with_driver _ _) in Hci. assert (open_on j dst text (length text) true s4) as Oj4 by (apply open_on_driver, open_on_other; [done|lia]).
  destruct (close_ok j dst text _ true s4 d4 Oj4) as (fj & Hcj & Hfj'); [exists x; cbn; by rewrite Hd3|].
  destruct (pack_task (Z.of_nat i)) as (_ & _ & Hpi); [unfold FS_MAXFD in *; lia|].
  destruct (pack_task (Z.of_nat j)) as (_ & _ & Hpj); [unfold FS_MAXFD in *; lia|].
  exists (with_driver d4 (with_tab (<[j := fj]> (fs_tab s4)) s4)). pose proof (oo_tab _ _ _ _ _ _ Oi3) as Ht3. split_and!; [|done| | |].
  - unfold pcopy. rewrite (pbind_eq _ _ _ _ _ Ho), (proj2 (Z.ltb_ge _ _) Hpi), (pbind_eq _ _ _ _ _ Hc), (proj2 (Z.ltb_ge _ _) Hpj).
    by rewrite (pbind_eq _ _ _ _ _ Hl), (pbind_eq _ _ _ _ _ Hci), (pbind_eq _ _ _ _ _ Hcj).
  - cbn. rewrite nth_insert_other by lia. by rewrite nth_insert_same.
  - cbn. rewrite nth_insert_same; [done|lia|by rewrite length_insert].
  - intros k Hki Hkj. cbn. rewrite !list_lookup_insert_ne by done. rewrite Hfr by done. cbn. by rewrite list_lookup_insert_ne.
Qed.
End world.

(** ** A disk to look at *)

(** Files by name; a full disk refuses every write. *)
Record disk := mkDisk { files : list (list Z * list Z); disk_full : bool }.
Definition on_disk (p : list Z) (d : disk) : option (list Z) := snd <$> list_find (λ x, x.1 = p) (files d) ≫= λ y, Some y.2.
Definition without (p : list Z) (d : disk) : list (list Z * list Z) := filter (λ x, x.1 ≠ p) (files d).
#[local] Instance disk_driver : FileSystem disk := {
  drv_init := pret 0;
  drv_list p n := pret (if bool_decide (p = [47]) then Some [] else None);
  drv_size p := gets (λ d, match on_disk p d with Some t => Z.of_nat (length t) | None => -1 end);
  drv_read p n := gets (on_disk p);
  drv_write p t := λ d, if disk_full d then Some (-1, d) else Some (Z.of_nat (length t), mkDisk ((p, t) :: without p d) false);
  drv_remove p := λ d, match on_disk p d with Some _ => Some (0, mkDisk (without p d) (disk_full d)) | None => Some (-1, d) end;
  drv_mkdir p := pret (-1) }.
Definition demo_junk : vfs_req := mkReq 0 0 [] 0 0 0 (repeat 7 (Z.to_nat VFS_DATA_MAX)).
Definition demo_fs (l : list (list Z * list Z)) (full : bool) : fs disk := mkFs (repeat no_file 3) 0 [] [5] (mkDisk l full).
Definition demo_text : list Z := repeat 65 (Z.to_nat 700).
Lemma pcopy_writes_what_it_read_witness :
  ∃ s', pcopy (H := fs_world 170 [] [] 4 5) demo_junk 701 (str "/a") (str "/b") (demo_fs [(str "/a", demo_text)] false) =
      Some (Z.of_nat (length demo_text), s') ∧
    driver s' = mkDisk [(str "/b", demo_text); (str "/a", demo_text)] false ∧
    f_used (nth 0 (fs_tab s') no_file) = false ∧ f_used (nth 1 (fs_tab s') no_file) = false ∧
    ∀ k, k ≠ 0%nat → k ≠ 1%nat → fs_tab s' !! k = fs_tab (demo_fs [(str "/a", demo_text)] false) !! k.
Proof.
  apply (pcopy_writes_what_it_read 170 [] [] demo_junk 701 4 5 ltac:(lia) 0 1 (str "/a") (str "/b") demo_text
           (mkDisk [(str "/a", demo_text)] false) 700 _ (demo_fs [(str "/a", demo_text)] false)).
  - split_and!; [split_and!; [unfold FS_MAXFD; lia|done|done|intros; lia]|lia|unfold FS_MAXFD; lia|done|intros; lia].
  - done.
  - done.
  - vm_compute. lia.
  - vm_compute. done.
  - vm_compute. lia.
  - exists (mkDisk [(str "/a", demo_text)] false), (mkDisk [(str "/a", demo_text)] false). vm_compute. done.
  - vm_compute. reflexivity.
Defined.

(** ** Where files and text are lost *)

Definition run_mv (src dst : list Z) (s : fs disk) : option (list (list Z * list Z)) :=
  match mv (H := fs_world 170 [] [] 4 5) demo_junk 2000 [src; dst] (mkClient (-1) s) with
  | Some (_, c) => Some (files (driver (world c)))
  | None => None
  end.
(** On a disk that is full the copy fails when it is closed, which answers 0
    all the same: mv removes the only copy. *)
Theorem mv_to_a_full_disk_loses_the_file : run_mv (str "/a") (str "/b") (demo_fs [(str "/a", demo_text)] true) = Some [].
Proof. vm_compute. reflexivity. Qed.
(** mv of a file to its own name removes it. *)
Theorem mv_onto_itself_loses_the_file : run_mv (str "/a") (str "/a") (demo_fs [(str "/a", demo_text)] false) = Some [].
Proof. vm_compute. reflexivity. Qed.
(** A server whose task identifier is 32768 or more gives descriptors that
    look like failures, which its clients then do not use or close. *)
Theorem high_task_descriptors_are_negative : fd_pack 32768 3 < 0 ∧ fd_task (fd_pack 32768 3) = - 32768.
Proof. vm_compute. done. Qed.
(** The length of a read is believed by the server: above 512 the copy runs
    past the request. *)
Theorem fs_long_read_overruns :
  fs_serve 170 [] [] 5 (demo_junk <| op := VFS_READ |> <| fd := 0 |> <| len := 600 |>)
    (mkFs [mkFile true 5 700 0 700 false (str "/a") demo_text; no_file; no_file] 0 [] [5] (mkDisk [] false)) = None.
Proof. vm_compute. reflexivity. Qed.
