(* ===== verification/Export.v ===== *)
(** * A name space handed out (src/prog/exportfs.c)

    The server end of an imported name space: requests come off a
    connection, are performed in its own name space, and the answers go back.
    What it prints is left out. *)
From stdpp Require Import base list numbers option.
From S2P Require Import Prelude Mem FsProto Req Client.
Local Open Scope Z_scope.

Definition DEFAULT_PORT : Z := 564.
Definition NFD : nat := 8.
Definition FS_REQUEST : Z := 0.
Definition FS_REPLY : Z := 1.

(** A number handed out, and what the own name space calls it. *)
Record xslot := mkSlot { x_used : bool; x_fd : Z }.
Definition no_slot : xslot := mkSlot false 0.
(** The table, the connection, and the bytes of it that are not yet a whole
    message. *)
Record exporter (W : Type) := mkExporter { tab : list xslot; x_conn : Z; x_in : list Z; x_world : W }.
Arguments mkExporter {W}. Arguments tab {W}. Arguments x_conn {W}. Arguments x_in {W}. Arguments x_world {W}.
Definition IN_MAX : Z := FS_MAXMSG * 2.

(** The message with the fields a reply changes. *)
Definition reply_msg (m : fs_msg) (r dl : Z) (d : list Z) : fs_msg :=
  mkMsg (FsProto.tag m) FS_REPLY (FsProto.op m) (FsProto.fd m) (FsProto.count m) r (FsProto.ioctl m) 0 dl (FsProto.path m) d.
(** The same with only the result changed. *)
Definition result_msg (m : fs_msg) (r : Z) : fs_msg := reply_msg m r (FsProto.datalen m) (FsProto.data m).

Section export.
Context {W : Type} `{World W}.
Context (junk : vfs_req) (stack : fs_msg) (fuel : nat).

Definition ask_x {A} (m : prog W A) : prog (exporter W) A := λ s,
  match m (x_world s) with Some (a, w) => Some (a, mkExporter (tab s) (x_conn s) (x_in s) w) | None => None end.
Definition set_slot (h : nat) (x : xslot) : prog (exporter W) () :=
  modify (λ s, mkExporter (<[h := x]> (tab s)) (x_conn s) (x_in s) (x_world s)).
Definition set_in (l : list Z) : prog (exporter W) () := modify (λ s, mkExporter (tab s) (x_conn s) l (x_world s)).
Definition set_conn (f : Z) : prog (exporter W) () := modify (λ s, mkExporter (tab s) f (x_in s) (x_world s)).

Definition tab_alloc (f : Z) : prog (exporter W) (option nat) :=
  let* t := gets tab in
  match find_from (λ i, negb (x_used (nth i t no_slot))) 0 NFD with
  | Some i => let* _ := set_slot i (mkSlot true f) in pret (Some i)
  | None => pret None
  end.
Fixpoint wr_all (n : nat) (d : list Z) : prog (exporter W) bool :=
  if (length d =? 0)%nat then pret true
  else
    match n with
    | O => diverge
    | S n' =>
        let* c := gets x_conn in
        let* k := ask_x (vfs_write junk c d) in
        if k <? 0 then pret false
        else if k =? 0 then let* _ := ask_x sys_rest in wr_all n' d
        else wr_all n' (drop (Z.to_nat k) d)
    end.

(** ** The control file of the network *)

Definition ctl (cmd : list Z) (cap : Z) : prog W (option (list Z)) :=
  let* f := vfs_open junk (str "/net/ctl") in
  if f <? 0 then pret None
  else
    let* k := vfs_write junk f cmd in
    if k <? 0 then let* _ := vfs_close junk f in pret None
    else
      let* (n, d) := vfs_read junk f (cap - 1) in
      let* _ := vfs_close junk f in
      pret (if n <=? 0 then None else Some (cstr d)).
Fixpoint skip_blanks (t : list Z) : list Z := match t with 32 :: t' => skip_blanks t' | _ => t end.
Definition slot_of (t : list Z) : option Z :=
  match t with
  | 111 :: 107 :: t' =>
      let t' := skip_blanks t' in
      let v := (digits i32 t' 0).1 in
      if is_digit (hd 0 t') && (0 <=? v) then Some v else None
  | _ => None
  end.

(** ** One request *)

Definition open_slot (m : fs_msg) : option nat :=
  if (FsProto.fd m <? 0) || (Z.of_nat NFD <=? FsProto.fd m) then None else Some (Z.to_nat (FsProto.fd m)).
(** The descriptor a request means, if it means one. *)
Definition handle (m : fs_msg) : prog (exporter W) (option (nat * Z)) :=
  let* t := gets tab in
  pret (match open_slot m with
        | Some h => if x_used (nth h t no_slot) then Some (h, x_fd (nth h t no_slot)) else None
        | None => None
        end).
Definition path_of (m : fs_msg) : list Z :=
  let n := if FsProto.pathlen m <? FsProto.VFS_PATH_MAX then FsProto.pathlen m else FsProto.VFS_PATH_MAX - 1 in
  cstr (<[Z.to_nat n := 0]> (FsProto.path m)).
Definition serve (m : fs_msg) : prog (exporter W) fs_msg :=
  let o := FsProto.op m in
  if (o =? VFS_OPEN) || (o =? VFS_CREATE) then
    let* f := ask_x (if o =? VFS_CREATE then vfs_create junk (path_of m) else vfs_open junk (path_of m)) in
    if f <? 0 then pret (result_msg m (-1))
    else
      let* h := tab_alloc f in
      match h with
      | None => let* _ := ask_x (vfs_close junk f) in pret (result_msg m (-1))
      | Some h => pret (result_msg m (Z.of_nat h))
      end
  else if o =? VFS_READ then
    let* x := handle m in
    match x with
    | None => pret (result_msg m (-1))
    | Some (_, f) =>
        let want := if VFS_DATA_MAX <? FsProto.count m then VFS_DATA_MAX else FsProto.count m in
        let* (n, d) := ask_x (vfs_read junk f want) in
        pret (reply_msg m n (if 0 <? n then n else 0) (d ++ drop (length d) (FsProto.data m)))
    end
  else if o =? VFS_WRITE then
    let* x := handle m in
    match x with
    | None => pret (result_msg m (-1))
    | Some (_, f) =>
        let* k := ask_x (vfs_write junk f (take (Z.to_nat (FsProto.datalen m)) (FsProto.data m))) in
        pret (reply_msg m k 0 (FsProto.data m))
    end
  else if o =? VFS_IOCTL then
    let* x := handle m in
    match x with
    | None => pret (result_msg m (-1))
    | Some (_, f) => let* k := ask_x (vfs_ioctl junk f (FsProto.ioctl m)) in pret (result_msg m k)
    end
  else if o =? VFS_CLOSE then
    let* x := handle m in
    match x with
    | None => pret (result_msg m (-1))
    | Some (h, f) =>
        let* _ := ask_x (vfs_close junk f) in
        let* _ := set_slot h (mkSlot false f) in
        pret (result_msg m 0)
    end
  else pret (result_msg m (-1)).

(** ** One client *)

(** Every whole message of the buffer; [false] to drop the client. *)
Fixpoint serve_all (n : nat) : prog (exporter W) bool :=
  match n with
  | O => diverge
  | S n' =>
      let* l := gets x_in in
      let '(used, m) := fs_decode l (Z.of_nat (length l)) stack in
      if used =? 0 then pret true
      else if used <? 0 then let* _ := set_in [] in pret false
      else
        let* _ := set_in (drop (Z.to_nat used) l) in
        let* m := serve m in
        match fs_encode m FS_MAXMSG with
        | None => pret false
        | Some out => let* ok := wr_all fuel out in if ok : bool then serve_all n' else pret false
        end
  end.
(** One read of the connection; [false] when the client is done. *)
Definition export_turn : prog (exporter W) bool :=
  let* c := gets x_conn in
  let* l := gets x_in in
  let* (k, d) := ask_x (vfs_read junk c (IN_MAX - Z.of_nat (length l))) in
  if k <=? 0 then pret false
  else
    let* _ := set_in (l ++ d) in
    serve_all (S (length (l ++ d))).
Fixpoint export_client (n : nat) : prog (exporter W) () :=
  match n with
  | O => diverge
  | S n' => let* more := export_turn in if more : bool then export_client n' else pret ()
  end.
Fixpoint close_slots (n i : nat) : prog (exporter W) () :=
  match n with
  | O => pret ()
  | S n' =>
      let* t := gets tab in
      let x := nth i t no_slot in
      let* _ := (if x_used x
                 then let* _ := ask_x (vfs_close junk (x_fd x)) in set_slot i (mkSlot false (x_fd x)) else pret ()) in
      close_slots n' (S i)
  end.
Fixpoint export_clients (n : nat) (lslot : Z) : prog (exporter W) () :=
  match n with
  | O => diverge
  | S n' =>
      let* a := ask_x (ctl (str "accept " ++ uutoa lslot) 64) in
      match a ≫= slot_of with
      | None => pret ()
      | Some slot =>
          let* f := ask_x (vfs_open junk (str "/net/tcp/" ++ uutoa slot)) in
          let* _ := set_conn f in
          if f <? 0 then export_clients n' lslot
          else
            let* _ := set_in [] in
            let* _ := export_client fuel in
            let* _ := close_slots NFD 0 in
            let* _ := ask_x (vfs_close junk f) in
            let* _ := set_conn (-1) in
            export_clients n' lslot
      end
  end.
Definition exportfs (args : list (list Z)) : prog (exporter W) () :=
  let port := match args with _ :: a :: _ => (digits i32 a 0).1 | _ => DEFAULT_PORT end in
  let* a := ask_x (ctl (str "listen " ++ uutoa port) 64) in
  match a ≫= slot_of with
  | None => pret ()
  | Some lslot => export_clients fuel lslot
  end.
End export.
