(* ===== verification/Import.v ===== *)
(** * Another machine's name space (src/prog/import.c)

    A task mounted like any server, which forwards what it is asked down a
    connection and hands back what comes up.  It sends and receives by itself,
    since the next message may be a client, the end of its parked read or the
    end of its write.  What it prints is left out. *)
From stdpp Require Import base list numbers option.
From S2P Require Import Prelude Mem FsProto Req Client Export.
Local Open Scope Z_scope.

(** A send that does not wait for an answer; whether it was accepted. *)
Class Mail (W : Type) := { mail_send : Z → vfs_req → prog W bool }.

Definition NPEND : nat := 4.
(** A request forwarded and not yet answered. *)
Record pending := mkPending { p_used : bool; p_tag : Z; p_client : Z; p_fd : Z; p_op : Z }.
Definition no_pending : pending := mkPending false 0 0 0 0.
Record importer_vars := mkVars
  { im_conn : Z; netsrv : Z; inbuf : list Z; outq : list Z; write_busy : bool;
    read_posted : bool; pend : list pending; next_tag : Z }.
Ltac set_importer_vars proj :=
  setter (λ s, mkVars (im_conn s) (netsrv s) (inbuf s) (outq s) (write_busy s) (read_posted s) (pend
    s) (next_tag s)) proj.
#[export] Instance set_im_conn : Setter im_conn. Proof. set_importer_vars im_conn. Defined.
#[export] Instance set_netsrv : Setter netsrv. Proof. set_importer_vars netsrv. Defined.
#[export] Instance set_inbuf : Setter inbuf. Proof. set_importer_vars inbuf. Defined.
#[export] Instance set_outq : Setter outq. Proof. set_importer_vars outq. Defined.
#[export] Instance set_write_busy : Setter write_busy. Proof. set_importer_vars write_busy. Defined.
#[export] Instance set_read_posted : Setter read_posted. Proof. set_importer_vars read_posted. Defined.
#[export] Instance set_pend : Setter pend. Proof. set_importer_vars pend. Defined.
#[export] Instance set_next_tag : Setter next_tag. Proof. set_importer_vars next_tag. Defined.
Arguments set_im_conn _ _ /.
Arguments set_netsrv _ _ /.
Arguments set_inbuf _ _ /.
Arguments set_outq _ _ /.
Arguments set_write_busy _ _ /.
Arguments set_read_posted _ _ /.
Arguments set_pend _ _ /.
Arguments set_next_tag _ _ /.
Definition vars_start : importer_vars := mkVars (-1) 0 [] [] false false (repeat no_pending NPEND) 1.
Record importer (W : Type) := mkImporter { ivars : importer_vars; i_world : W }.
Arguments mkImporter {W}. Arguments ivars {W}. Arguments i_world {W}.
Definition INBUF_MAX : Z := FS_MAXMSG * 2.
Definition OUTQ_MAX : Z := FS_MAXMSG * 2.
Definition zero_req : vfs_req := mkReq 0 0 [] 0 0 0 (repeat 0 (Z.to_nat VFS_DATA_MAX)).
Definition zero_msg : fs_msg :=
  mkMsg 0 0 0 0 0 0 0 0 0 (repeat 0 (Z.to_nat FsProto.VFS_PATH_MAX)) (repeat 0 (Z.to_nat FsProto.VFS_DATA_MAX)).

Section import.
Context {W : Type} `{World W} `{Mail W}.
Context (junk : vfs_req) (stack : fs_msg) (prefix : list Z) (fuel : nat).

Definition iget : prog (importer W) importer_vars := gets ivars.
Definition iset (f : importer_vars → importer_vars) : prog (importer W) () := modify (λ s, mkImporter (f (ivars s)) (i_world s)).
Definition ask_i {A} (m : prog W A) : prog (importer W) A := λ s,
  match m (i_world s) with Some (a, w) => Some (a, mkImporter (ivars s) w) | None => None end.

(** ** The network server *)

Definition post_read : prog (importer W) () :=
  let* v := iget in
  if read_posted v || (im_conn v <? 0) then pret ()
  else
    let* ok := ask_i (mail_send (netsrv v) (zero_req <| op := VFS_READ |> <| fd := fd_local (im_conn v) |> <| len := VFS_DATA_MAX |>)) in
    if ok : bool then iset (λ v, v <| read_posted := true |>) else pret ().
Definition kick_write : prog (importer W) () :=
  let* v := iget in
  if write_busy v || (length (outq v) =? 0)%nat || (im_conn v <? 0) then pret ()
  else
    let d := take (Z.to_nat VFS_DATA_MAX) (outq v) in
    let* ok := ask_i (mail_send (netsrv v)
      (zero_req <| op := VFS_WRITE |> <| fd := fd_local (im_conn v) |> <| len := Z.of_nat (length d) |>
        <| data := d ++ drop (length d) (data zero_req) |>)) in
    if ok : bool then iset (λ v, v <| write_busy := true |>) else pret ().
Definition write_done (n : Z) (v : importer_vars) : importer_vars :=
  let v := v <| write_busy := false |> in
  if n <=? 0 then v else v <| outq := drop (Z.to_nat n) (outq v) |>.
(** Put a message behind the others; [false] when there is no room. *)
Definition queue (m : fs_msg) : prog (importer W) bool :=
  let* v := iget in
  match fs_encode m FS_MAXMSG with
  | None => pret false
  | Some b =>
      if OUTQ_MAX <? Z.of_nat (length (outq v) + length b) then pret false
      else
        let* _ := iset (λ v, v <| outq := outq v ++ b |>) in
        let* _ := kick_write in
        pret true
  end.

(** ** Clients *)

Definition answer_req (o f r : Z) (d : list Z) : vfs_req :=
  zero_req <| op := o |> <| fd := f |> <| result := r |> <| data := d ++ drop (length d) (data zero_req) |>.
Definition answer (client o f r : Z) (d : list Z) : prog (importer W) () :=
  let* _ := ask_i (mail_send client (answer_req o f r d)) in pret ().
(** The name with the prefix taken off, as the far end is to see it. *)
Fixpoint off_prefix (q p : list Z) : option (list Z) :=
  match p, q with
  | [], _ => Some q
  | a :: p', b :: q' => if a =? b then off_prefix q' p' else None
  | _ :: _, [] => None
  end.
Definition far_path (p : list Z) : list Z :=
  let q := match off_prefix p prefix with Some q => q | None => p end in
  take (Z.to_nat FsProto.VFS_PATH_MAX) (match q with 47 :: _ => q | _ => 47 :: q end).
Definition pad_to (n : Z) (l : list Z) : list Z := l ++ repeat 0 (Z.to_nat n - length l).
(** The message for a request. *)
Definition request_msg (t : Z) (r : vfs_req) : fs_msg :=
  let p := if (op r =? VFS_OPEN) || (op r =? VFS_CREATE) then far_path (path r) else [] in
  let n := if op r =? VFS_WRITE then (if len r <? VFS_DATA_MAX then len r else VFS_DATA_MAX) else 0 in
  mkMsg t FS_REQUEST (op r) (fd r) (len r) 0 (ioctl_cmd r) (Z.of_nat (length p)) n
    (pad_to FsProto.VFS_PATH_MAX p) (pad_to FsProto.VFS_DATA_MAX (take (Z.to_nat n) (data r))).
Definition from_client (who : Z) (r : vfs_req) : prog (importer W) () :=
  let* v := iget in
  match find_from (λ i, negb (p_used (nth i (pend v) no_pending))) 0 NPEND with
  | None => answer who (op r) (fd r) (-1) []
  | Some slot =>
      if im_conn v <? 0 then answer who (op r) (fd r) (-1) []
      else
        let t := Z.land (next_tag v) 0xffff in
        let* _ := iset (λ v, v <| next_tag := u32 (next_tag v + 1) |>) in
        let* ok := queue (request_msg t r) in
        if ok : bool then iset (λ v, v <| pend := <[slot := mkPending true t who (fd r) (op r)]> (pend v) |>)
        else answer who (op r) (fd r) (-1) []
  end.
(** A reply goes to the first that waits for its tag, or to nobody. *)
Definition from_wire (m : fs_msg) : prog (importer W) () :=
  let* v := iget in
  match find_from (λ i, let x := nth i (pend v) no_pending in p_used x && (p_tag x =? FsProto.tag m)) 0 NPEND with
  | None => pret ()
  | Some i =>
      let x := nth i (pend v) no_pending in
      let* _ := iset (λ v, v <| pend := <[i := mkPending false (p_tag x) (p_client x) (p_fd x) (p_op x)]> (pend v) |>) in
      answer (p_client x) (p_op x) (p_fd x) (FsProto.result m) (take (Z.to_nat (FsProto.datalen m)) (FsProto.data m))
  end.
Fixpoint drain_in (n : nat) : prog (importer W) () :=
  match n with
  | O => diverge
  | S n' =>
      let* v := iget in
      let '(used, m) := fs_decode (inbuf v) (Z.of_nat (length (inbuf v))) stack in
      if used =? 0 then pret ()
      else if used <? 0 then iset (λ v, v <| inbuf := [] |> <| im_conn := -1 |>)
      else
        let* _ := iset (λ v, v <| inbuf := drop (Z.to_nat used) (inbuf v) |>) in
        let* _ := from_wire m in
        drain_in n'
  end.

(** ** The loop *)

(** One message; [false] when the far end is gone. *)
Definition import_turn (from : Z) (r : vfs_req) : prog (importer W) bool :=
  let* v := iget in
  if from =? netsrv v then
    if op r =? VFS_READ then
      let* _ := iset (λ v, v <| read_posted := false |>) in
      if result r <=? 0 then pret false
      else
        let room := INBUF_MAX - Z.of_nat (length (inbuf v)) in
        let n := if room <? result r then room else result r in
        let* _ := iset (λ v, v <| inbuf := inbuf v ++ take (Z.to_nat n) (data r) |>) in
        let* v := iget in
        let* _ := drain_in (S (length (inbuf v))) in
        let* v := iget in
        if im_conn v <? 0 then pret false else let* _ := post_read in pret true
    else if op r =? VFS_WRITE then
      let* _ := iset (write_done (result r)) in
      let* _ := kick_write in
      pret true
    else pret true
  else let* _ := from_client from r in pret true.
(** Whoever still waits gets an error. *)
Fixpoint abandon (n i : nat) : prog (importer W) () :=
  match n with
  | O => pret ()
  | S n' =>
      let* v := iget in
      let x := nth i (pend v) no_pending in
      let* _ := (if p_used x then
                   let* _ := iset (λ v, v <| pend := <[i := mkPending false (p_tag x) (p_client x) (p_fd x) (p_op x)]> (pend v) |>) in
                   answer (p_client x) (p_op x) (p_fd x) (-1) []
                 else pret ()) in
      abandon n' (S i)
  end.
Definition hang_up : prog (importer W) () :=
  let* _ := abandon NPEND 0 in
  let* v := iget in
  if 0 <=? im_conn v then let* _ := ask_i (vfs_close junk (im_conn v)) in pret () else pret ().

(** ** Setting up *)

Definition ok_value (a : list Z) : option (list Z) :=
  match a with 111 :: 107 :: t => Some (skip_blanks t) | _ => None end.
Fixpoint digit_run (t : list Z) : list Z :=
  match t with b :: t' => if is_digit b then b :: digit_run t' else [] | [] => [] end.
(** The connection named by the arguments is opened and read from; [false]
    when there is none. *)
Definition import_start (host port : list Z) : prog (importer W) bool :=
  let* a := ask_i (ctl junk (str "connect " ++ host ++ [32] ++ port) 80) in
  match a ≫= ok_value with
  | None => pret false
  | Some t =>
      let* f := ask_i (vfs_open junk (str "/net/tcp/" ++ digit_run t)) in
      let* _ := iset (λ v, v <| im_conn := f |>) in
      if f <? 0 then pret false
      else
        let* _ := iset (λ v, v <| netsrv := fd_task f |>) in
        let* _ := post_read in
        pret true
  end.
End import.
