(* ===== verification/Remote.v ===== *)
(** * An imported name space is the exported one (import.c and exportfs.c)

    The two programs with a connection between them that delivers bytes in
    order, in pieces of any size and at any time. *)
From stdpp Require Import base list numbers option.
From S2P Require Import Prelude Mem FsProto Req Client Export Import.
Local Open Scope Z_scope.

(** ** A stream of messages cut anywhere *)

(** What stands in the buffer of a reader: nothing of the next message, a
    part of it, or all of it and more. *)
Lemma stream_front {A} (enc : A → list Z) l buf rest :
  concat (enc <$> l) = buf ++ rest →
  (l = [] ∧ buf = [] ∧ rest = []) ∨
  ∃ x l', l = x :: l' ∧
    ((∃ buf', buf = enc x ++ buf' ∧ concat (enc <$> l') = buf' ++ rest) ∨
     ∃ n, (n < length (enc x))%nat ∧ buf = take n (enc x) ∧ length buf = n).
Proof.
  intros E. destruct l as [|x l']; [left; symmetry in E; apply app_nil in E as [-> ->]; done|right].
  exists x, l'. split; [done|]. cbn [fmap list_fmap concat] in E.
  destruct (decide (length (enc x) ≤ length buf)%nat) as [Hle|Hlt].
  - left. exists (drop (length (enc x)) buf). assert (take (length (enc x)) buf = enc x) as Et.
    { apply (f_equal (take (length (enc x)))) in E. rewrite take_app_length, take_app_le in E by lia. done. }
    split; [by rewrite <- Et at 1; rewrite take_drop|].
    apply (f_equal (drop (length (enc x)))) in E. rewrite drop_app_length, drop_app_le in E by lia. done.
  - right. exists (length buf). split_and!; [lia| |done].
    apply (f_equal (take (length buf))) in E. rewrite take_app_length, take_app_le in E by lia. done.
Qed.

(** ** The exporter's world: its name space, and the connection *)

(** What can be read, how much the next read gets, what was written, and how
    much the next writes take. *)
Record pipe := mkPipe { rx : list Z; chunk : Z; tx : list Z; gulps : list Z }.
Definition pipe_call (r : vfs_req) : prog pipe (option vfs_req) := λ p,
  if op r =? VFS_READ then
    let d := take (Z.to_nat (Z.min (chunk p) (len r))) (rx p) in
    Some (Some (r <| result := Z.of_nat (length d) |> <| data := d ++ drop (length d) (data r) |>),
          mkPipe (drop (length d) (rx p)) (chunk p) (tx p) (gulps p))
  else
    let d := take (Z.to_nat (len r)) (data r) in
    let '(k, l) := match gulps p with [] => (Z.of_nat (length d), []) | k :: l => (Z.min k (Z.of_nat (length d)), l) end in
    Some (Some (r <| result := k |>), mkPipe (rx p) (chunk p) (tx p ++ take (Z.to_nat k) d) l).
Definition lift {W A} (m : prog W A) : prog (W * pipe) A := λ s,
  match m s.1 with Some (a, w) => Some (a, (w, s.2)) | None => None end.
Definition on_pipe {W A} (m : prog pipe A) : prog (W * pipe) A := λ s,
  match m s.2 with Some (a, p) => Some (a, (s.1, p)) | None => None end.

Section remote.
Context {W : Type} `{World W}.
Context (junk : vfs_req) (stack_x stack_i : fs_msg) (prefix : list Z) (fuel : nat).
(** The descriptor of the connection in the exporter's name space. *)
Context (conn : Z).

Definition is_conn (dst : Z) (r : vfs_req) : bool :=
  (dst =? fd_task conn) && (fd r =? fd_local conn) && ((op r =? VFS_READ) || (op r =? VFS_WRITE)).
(** Waiting for the connection leaves the name space alone. *)
Instance export_world : World (W * pipe) := {
  sys_resolve p n := lift (sys_resolve p n);
  sys_call dst r := if is_conn dst r then on_pipe (pipe_call r) else lift (sys_call dst r);
  sys_mounts_text := lift sys_mounts_text;
  sys_putchar c := lift (sys_putchar c);
  sys_rest := pret () }.

Lemma lift_bind {A B} (m : prog W A) (k : A → prog W B) s :
  lift (pbind m k) s = pbind (lift m) (λ a, lift (k a)) s.
Proof. unfold lift, pbind. destruct (m s.1) as [[a w]|]; [|done]. cbn. by destruct (k a w) as [[b w']|]. Qed.
Lemma lift_ret {A} (a : A) (s : W * pipe) : lift (pret a) s = pret a s.
Proof. by destruct s. Qed.
Lemma bind_ext {S A B} (m m' : prog S A) (k k' : A → prog S B) s :
  m s = m' s → (∀ a s', k a s' = k' a s') → pbind m k s = pbind m' k' s.
Proof. unfold pbind. intros ->. intros Hk. destruct (m' s) as [[a s']|]; [apply Hk|done]. Qed.
Lemma lift_call dst r s : is_conn dst r = false → vfs_call dst r s = lift (vfs_call dst r) s.
Proof.
  intros E. unfold vfs_call. rewrite lift_bind. cbn [sys_call export_world]. rewrite E.
  apply bind_ext; [done|]. intros a s'. by rewrite lift_ret.
Qed.
Lemma not_conn_op dst r : op r ≠ VFS_READ → op r ≠ VFS_WRITE → is_conn dst r = false.
Proof. intros H1 H2. unfold is_conn. by rewrite (proj2 (Z.eqb_neq _ _) H1), (proj2 (Z.eqb_neq _ _) H2), andb_false_r. Qed.
Lemma fd_split f : f = fd_task f * 65536 + fd_local f.
Proof. unfold fd_task, fd_local. rewrite Z.shiftr_div_pow2 by lia. change 0xffff with (2 ^ 16 - 1). rewrite land_mask by lia. ldiv. Qed.
Lemma not_conn_fd r f : f ≠ conn → fd r = fd_local f → is_conn (fd_task f) r = false.
Proof.
  intros Hf Hr. unfold is_conn. destruct (Z.eqb_spec (fd_task f) (fd_task conn)) as [E1|]; [|done].
  destruct (Z.eqb_spec (fd r) (fd_local conn)) as [E2|]; [|done]. destruct Hf. rewrite (fd_split f), (fd_split conn). congruence.
Qed.
Lemma lift_open_from n k p s : vfs_open_from junk n k p s = lift (vfs_open_from junk n k p) s.
Proof.
  revert k s. induction n as [|n IH]; intros k s; cbn [vfs_open_from]; [by destruct s|]. rewrite lift_bind.
  apply bind_ext; [done|]. intros [[srv real]|] s'; [|by rewrite lift_ret]. rewrite lift_bind. apply bind_ext.
  - unfold vfs_open_at. rewrite lift_bind. apply bind_ext; [by apply lift_call, not_conn_op|]. intros r s2. by rewrite lift_ret.
  - intros f s2. destruct (0 <=? f); [by rewrite lift_ret|apply IH].
Qed.
Lemma lift_create p s : vfs_create junk p s = lift (vfs_create junk p) s.
Proof.
  unfold vfs_create. rewrite lift_bind. apply bind_ext; [done|]. intros [[srv real]|] s'; [|by rewrite lift_ret].
  rewrite lift_bind. apply bind_ext; [by apply lift_call, not_conn_op|]. intros r s2. by rewrite lift_ret.
Qed.
Lemma lift_read f n s : f ≠ conn → vfs_read junk f n s = lift (vfs_read junk f n) s.
Proof.
  intros Hf. unfold vfs_read. rewrite lift_bind. apply bind_ext; [by apply lift_call, not_conn_fd|].
  intros r s2. destruct (_ <? result r); [by destruct s2|by rewrite lift_ret].
Qed.
Lemma lift_write f d s : f ≠ conn → vfs_write junk f d s = lift (vfs_write junk f d) s.
Proof.
  intros Hf. unfold vfs_write. rewrite lift_bind. apply bind_ext; [by apply lift_call, not_conn_fd|]. intros r s2. by rewrite lift_ret.
Qed.
Lemma lift_ioctl f c s : f ≠ conn → vfs_ioctl junk f c s = lift (vfs_ioctl junk f c) s.
Proof.
  intros Hf. unfold vfs_ioctl. rewrite lift_bind. apply bind_ext; [by apply lift_call, not_conn_fd|]. intros r s2. by rewrite lift_ret.
Qed.
Lemma lift_close f s : vfs_close junk f s = lift (vfs_close junk f) s.
Proof.
  unfold vfs_close. rewrite lift_bind. apply bind_ext; [by apply lift_call, not_conn_op|]. intros r s2. by rewrite lift_ret.
Qed.

(** ** What the client would get on the spot *)

(** The exporter's table and its name space, without any network. *)
Definition local := (list xslot * W)%type.
Definition in_ns {A} (m : prog W A) : prog local A := λ s,
  match m s.2 with Some (a, w) => Some (a, (s.1, w)) | None => None end.
Definition local_slot (t : list xslot) (h : Z) : option Z :=
  if (0 <=? h) && (h <? Z.of_nat NFD) && x_used (nth (Z.to_nat h) t no_slot) then Some (x_fd (nth (Z.to_nat h) t no_slot)) else None.
Definition write_len (r : vfs_req) : Z := if len r <? VFS_DATA_MAX then len r else VFS_DATA_MAX.
(** The result and the bytes that come with it. *)
Definition local_serve (r : vfs_req) : prog local (Z * list Z) :=
  let* t := gets fst in
  if (op r =? VFS_OPEN) || (op r =? VFS_CREATE) then
    let name := take 127 (far_path prefix (path r)) in
    let* f := in_ns (if op r =? VFS_CREATE then vfs_create junk name else vfs_open junk name) in
    if f <? 0 then pret (-1, [])
    else
      match find_from (λ i, negb (x_used (nth i t no_slot))) 0 NFD with
      | Some i => let* _ := modify (λ s, (<[i := mkSlot true f]> s.1, s.2)) in pret (Z.of_nat i, [])
      | None => let* _ := in_ns (vfs_close junk f) in pret (-1, [])
      end
  else if op r =? VFS_READ then
    match local_slot t (fd r) with
    | None => pret (-1, [])
    | Some f => in_ns (vfs_read junk f (if VFS_DATA_MAX <? len r then VFS_DATA_MAX else len r))
    end
  else if op r =? VFS_WRITE then
    let d := take (Z.to_nat (write_len r)) (data r) in
    match local_slot t (fd r) with
    | None => pret (-1, d)
    | Some f => let* k := in_ns (vfs_write junk f d) in pret (k, [])
    end
  else if op r =? VFS_IOCTL then
    match local_slot t (fd r) with
    | None => pret (-1, [])
    | Some f => let* k := in_ns (vfs_ioctl junk f (ioctl_cmd r)) in pret (k, [])
    end
  else if op r =? VFS_CLOSE then
    match local_slot t (fd r) with
    | None => pret (-1, [])
    | Some f =>
        let* _ := in_ns (vfs_close junk f) in
        let* _ := modify (λ s, (<[Z.to_nat (fd r) := mkSlot false f]> s.1, s.2)) in
        pret (0, [])
    end
  else pret (-1, []).

(** A request as the structure holds it. *)
Record req_ok (r : vfs_req) : Prop := {
  ro_op : 0 ≤ op r < 256;
  ro_fd : - 2 ^ 31 ≤ fd r < 2 ^ 31;
  ro_len : - 2 ^ 31 ≤ len r < 2 ^ 31;
  ro_write : op r = VFS_WRITE → 0 ≤ len r;
  ro_cmd : 0 ≤ ioctl_cmd r < 2 ^ 64;
  ro_path : Forall (λ b, b ≠ 0) (path r);
  ro_data : length (data r) = Z.to_nat VFS_DATA_MAX }.
(** Replies in the exporter's name space are structures too, and what it
    opens is not the connection it is spoken to over. *)
Hypothesis replies_ok : ∀ dst r (w : W) a w', sys_call dst r w = Some (Some a, w') →
  - 2 ^ 31 ≤ result a < 2 ^ 31 ∧ length (data a) = Z.to_nat VFS_DATA_MAX.
Hypothesis opens_elsewhere : ∀ dst r (w : W) a w', sys_call dst r w = Some (Some a, w') →
  op r = VFS_OPEN ∨ op r = VFS_CREATE → 0 ≤ result a → fd_pack dst (result a) ≠ conn.
(** What the exporter's message holds before it is filled has the size of the
    structure. *)
Definition whole (m : fs_msg) : Prop :=
  length (FsProto.path m) = Z.to_nat FsProto.VFS_PATH_MAX ∧ length (FsProto.data m) = Z.to_nat FsProto.VFS_DATA_MAX.
Hypothesis stack_x_ok : whole stack_x.
Hypothesis stack_i_ok : whole stack_i.

Lemma pad_to_length n l : (length l ≤ Z.to_nat n)%nat → length (pad_to n l) = Z.to_nat n.
Proof. intros Hl. unfold pad_to. rewrite length_app, repeat_length. lia. Qed.
Lemma far_path_length p : (length (far_path prefix p) ≤ 128)%nat.
Proof. unfold far_path. rewrite length_take. change (Z.to_nat FsProto.VFS_PATH_MAX) with 128%nat. lia. Qed.
Lemma write_len_range r : req_ok r → op r = VFS_WRITE → 0 ≤ write_len r ≤ 512.
Proof. intros Hr Ho. pose proof (ro_write _ Hr Ho). unfold write_len, VFS_DATA_MAX. destruct (Z.ltb_spec (len r) 512); lia. Qed.
Lemma request_msg_ok t r : 0 ≤ t < 2 ^ 16 → req_ok r → msg_ok (request_msg prefix t r).
Proof.
  intros Ht Hr. unfold request_msg. fold (write_len r). set (p := if (op r =? VFS_OPEN) || (op r =? VFS_CREATE) then far_path prefix (path r) else []).
  assert (length p ≤ 128)%nat as Hp by (unfold p; destruct (_ || _); [apply far_path_length|cbn; lia]).
  set (n := if op r =? VFS_WRITE then write_len r else 0).
  assert (0 ≤ n ≤ 512) as Hn by (unfold n; destruct (Z.eqb_spec (op r) VFS_WRITE); [by apply write_len_range|lia]).
  destruct Hr. split; cbn; try done; try lia.
  - unfold FsProto.VFS_PATH_MAX. lia.
  - apply pad_to_length. unfold FsProto.VFS_PATH_MAX. lia.
  - apply pad_to_length. rewrite length_take. unfold FsProto.VFS_DATA_MAX. lia.
Qed.
Lemma call_ok dst r (w : W) a w' :
  vfs_call dst r w = Some (a, w') → - 2 ^ 31 ≤ result a < 2 ^ 31 ∧ (0 ≤ result a → length (data a) = Z.to_nat VFS_DATA_MAX) ∧
  (op r = VFS_OPEN ∨ op r = VFS_CREATE → 0 ≤ result a → fd_pack dst (result a) ≠ conn).
Proof.
  unfold vfs_call, pbind, pret. destruct (sys_call dst r w) as [[[b|] w1]|] eqn:E; [| |done]; intros [= <- <-].
  - destruct (replies_ok _ _ _ _ _ E) as [H1 H2]. split_and!; [lia|lia|done|]. intros Ho. by eapply opens_elsewhere.
  - cbn. split_and!; [lia|lia|lia|lia].
Qed.
Lemma open_from_ok n k p (w : W) f w' : vfs_open_from junk n k p w = Some (f, w') → 0 ≤ f → f ≠ conn.
Proof.
  revert k w. induction n as [|n IH]; intros k w; cbn [vfs_open_from]; [done|]. unfold pbind at 1.
  destruct (sys_resolve p k w) as [[[[srv real]|] w1]|]; [| |done]; [|unfold pret; intros [= <- <-]; lia].
  unfold pbind. destruct (vfs_open_at junk srv real w1) as [[g w2]|] eqn:E; [|done].
  destruct (Z.leb_spec 0 g) as [Hg|Hg]; [|intros E2; by eapply IH].
  unfold pret. intros [= <- <-] _. revert E. unfold vfs_open_at, pbind, pret.
  destruct (vfs_call srv _ w1) as [[a w3]|] eqn:Ec; [|done]. destruct (call_ok _ _ _ _ _ Ec) as (_ & _ & H3).
  destruct (Z.ltb_spec (result a) 0) as [Hneg|Hpos]; intros [= <- <-]; [lia|]. apply H3; [by left|done].
Qed.
Lemma create_ok p (w : W) f w' : vfs_create junk p w = Some (f, w') → 0 ≤ f → f ≠ conn.
Proof.
  unfold vfs_create, pbind, pret. destruct (sys_resolve p 0 w) as [[[[srv real]|] w1]|]; [| |done]; [|intros [= <- <-]; lia].
  destruct (vfs_call srv _ w1) as [[a w3]|] eqn:Ec; [|done]. destruct (call_ok _ _ _ _ _ Ec) as (_ & _ & H3).
  destruct (Z.ltb_spec (result a) 0) as [Hneg|Hpos]; intros [= <- <-]; [lia|]. intros _. apply H3; [by right|done].
Qed.

(** ** The exporter does the same *)

Definition as_received (t : Z) (r : vfs_req) : fs_msg := received (request_msg prefix t r) stack_x.
Lemma cstr_cut n l : (n < length l)%nat → Forall (λ b, b ≠ 0) (take n l) → cstr (<[n := 0]> l) = take n l.
Proof.
  revert n. induction l as [|b l IH]; intros [|n] Hn Hl; cbn in *; try lia; [done|].
  apply list.Forall_cons in Hl as [Hb Hl]. rewrite (proj2 (Z.eqb_neq b 0)) by done. f_equal. apply IH; [lia|done].
Qed.
Lemma off_prefix_suffix q p x : off_prefix q p = Some x → Forall (λ b, b ≠ 0) q → Forall (λ b, b ≠ 0) x.
Proof.
  revert q. induction p as [|a p IH]; intros [|b q]; cbn; try done; try (by intros [= <-]).
  destruct (a =? b); [|done]. intros E [_ Hq]%list.Forall_cons. by eapply IH.
Qed.
Lemma far_path_clean p : Forall (λ b, b ≠ 0) p → Forall (λ b, b ≠ 0) (far_path prefix p).
Proof.
  intros Hp. unfold far_path. apply Forall_take.
  assert (Forall (λ b, b ≠ 0) (match off_prefix p prefix with Some q => q | None => p end)) as Hq.
  { destruct (off_prefix p prefix) eqn:E; [by eapply off_prefix_suffix|done]. }
  set (q := match off_prefix p prefix with Some q => q | None => p end) in *. clearbody q.
  destruct q as [|b q]; [repeat constructor; lia|].
  apply list.Forall_cons in Hq as [Hb Hq]. assert (47 ≠ 0) by lia.
  repeat case_match; subst; repeat (apply list.Forall_cons; split); done.
Qed.
Lemma overwrite_length n (a b : list Z) : 0 ≤ n → (Z.to_nat n ≤ length a)%nat → (Z.to_nat n ≤ length b)%nat → length (overwrite n a b) = length b.
Proof. intros H0 Ha Hb. unfold overwrite. rewrite length_app, length_take, length_drop. lia. Qed.
Lemma take_overwrite_le n k (a b : list Z) :
  (n ≤ Z.to_nat k)%nat → (Z.to_nat k ≤ length a)%nat → take n (overwrite k a b) = take n a.
Proof. intros Hn Ha. unfold overwrite. rewrite take_app_le by (rewrite length_take; lia). by rewrite take_take, Nat.min_l by lia. Qed.
Lemma take_pad n k l : (n ≤ length l)%nat → take n (pad_to k l) = take n l.
Proof. intros Hn. unfold pad_to. by rewrite take_app_le. Qed.
Lemma received_path t r :
  req_ok r → op r = VFS_OPEN ∨ op r = VFS_CREATE → path_of (as_received t r) = take 127 (far_path prefix (path r)).
Proof.
  intros Hr Ho. unfold as_received, received, path_of, request_msg. cbn [FsProto.pathlen FsProto.path].
  replace ((op r =? VFS_OPEN) || (op r =? VFS_CREATE)) with true by (destruct Ho as [-> | ->]; done).
  set (fp := far_path prefix (path r)). pose proof (far_path_length (path r)) as Hl. fold fp in Hl. change FsProto.VFS_PATH_MAX with 128.
  destruct stack_x_ok as [Sp _]. change (Z.to_nat FsProto.VFS_PATH_MAX) with 128%nat in Sp.
  set (l := overwrite _ _ _). assert (length l = 128%nat) as Ll.
  { unfold l. rewrite overwrite_length; [done|lia|rewrite pad_to_length by (cbn; lia); lia|lia]. }
  set (n := if _ <? 128 then _ else _). assert (Z.to_nat n = Nat.min 127 (length fp)) as En.
  { unfold n. destruct (Z.ltb_spec (Z.of_nat (length fp)) 128); lia. }
  assert (take (Z.to_nat n) l = take 127 fp) as Et.
  { unfold l. rewrite take_overwrite_le, take_pad, En; [| lia|lia|rewrite pad_to_length by (cbn; lia); lia].
    destruct (decide (length fp ≤ 127)%nat); [rewrite Nat.min_r, !take_ge by lia; done|by rewrite Nat.min_l by lia]. }
  rewrite cstr_cut; [done|lia|]. rewrite Et. by apply Forall_take, far_path_clean, Hr.
Qed.
Lemma received_whole t r : req_ok r → whole (as_received t r).
Proof.
  intros Hr. destruct (request_msg_ok 0 r ltac:(lia) Hr) as [? ? ? ? ? ? ? Hp Hd Lp Ld]. destruct stack_x_ok as [Sp Sd].
  unfold as_received, received, whole. cbn [FsProto.path FsProto.data].
  change (FsProto.path (request_msg prefix t r)) with (FsProto.path (request_msg prefix 0 r)).
  change (FsProto.data (request_msg prefix t r)) with (FsProto.data (request_msg prefix 0 r)).
  change (FsProto.pathlen (request_msg prefix t r)) with (FsProto.pathlen (request_msg prefix 0 r)).
  change (FsProto.datalen (request_msg prefix t r)) with (FsProto.datalen (request_msg prefix 0 r)).
  rewrite !overwrite_length by (rewrite ?Lp, ?Ld, ?Sp, ?Sd; lia). done.
Qed.
Lemma received_data t r :
  req_ok r → let m := as_received t r in
  FsProto.datalen m = (if op r =? VFS_WRITE then write_len r else 0) ∧
  take (Z.to_nat (FsProto.datalen m)) (FsProto.data m) = (if op r =? VFS_WRITE then take (Z.to_nat (write_len r)) (data r) else []).
Proof.
  intros Hr. unfold as_received, received, request_msg. cbn [FsProto.datalen FsProto.data]. fold (write_len r).
  destruct (Z.eqb_spec (op r) VFS_WRITE) as [E|]; [|done]. split; [done|]. pose proof (write_len_range r Hr E).
  pose proof (ro_data _ Hr) as Ld. change (Z.to_nat VFS_DATA_MAX) with 512%nat in Ld.
  assert (length (take (Z.to_nat (write_len r)) (data r)) = Z.to_nat (write_len r)) as Lt by (rewrite length_take; lia).
  rewrite take_overwrite_le, take_pad, take_take, Nat.min_id; [done|lia|lia|rewrite pad_to_length; [change (Z.to_nat FsProto.VFS_DATA_MAX) with 512%nat; lia|]].
  change (Z.to_nat FsProto.VFS_DATA_MAX) with 512%nat. lia.
Qed.

Definition apart (t : list xslot) : Prop := length t = NFD ∧ ∀ h, x_used (nth h t no_slot) = true → x_fd (nth h t no_slot) ≠ conn.
Lemma apart_insert t h x : apart t → (x_used x = true → x_fd x ≠ conn) → apart (<[h := x]> t).
Proof.
  intros [Hl Ht] Hx. split; [by rewrite length_insert|]. intros g. destruct (decide (g = h)) as [->|Hne].
  - destruct (decide (h < length t)%nat).
    + rewrite (nth_lookup_Some _ _ _ x) by (by apply list_lookup_insert_eq). done.
    + rewrite list_insert_ge by lia. apply Ht.
  - rewrite nth_lookup, list_lookup_insert_ne, <- nth_lookup by done. apply Ht.
Qed.
Definition after_x (s : exporter (W * pipe)) (t : list xslot) (w : W) : exporter (W * pipe) :=
  mkExporter t (x_conn s) (x_in s) (w, (x_world s).2).
Lemma ask_lift {A} (mc : prog (W * pipe) A) (m : prog W A) s a w' :
  (∀ s, mc s = lift m s) → m (x_world s).1 = Some (a, w') → ask_x mc s = Some (a, after_x s (tab s) w').
Proof. intros E Hm. unfold ask_x. rewrite E. unfold lift. by rewrite Hm. Qed.
Lemma handle_local t r (s : exporter (W * pipe)) :
  handle (as_received t r) s = Some (match local_slot (tab s) (fd r) with Some f => Some (Z.to_nat (fd r), f) | None => None end, s).
Proof.
  unfold handle, open_slot, local_slot, pbind, gets, pret. do 2 f_equal. change (FsProto.fd (as_received t r)) with (fd r).
  destruct (Z.ltb_spec (fd r) 0), (Z.leb_spec 0 (fd r)); try lia; cbn [orb andb]; [done|].
  destruct (Z.leb_spec (Z.of_nat NFD) (fd r)), (Z.ltb_spec (fd r) (Z.of_nat NFD)); try lia; cbn [andb]; [done|].
  by destruct (x_used _).
Qed.
Lemma local_slot_apart t h f : apart t → local_slot t h = Some f → f ≠ conn.
Proof. intros [_ Ht]. unfold local_slot. destruct (_ && _) eqn:E; [|done]. apply andb_prop in E as [_ E]. intros [= <-]. by apply Ht. Qed.
(** A reply that carries [d] behind the result [n]. *)
Definition replies (m : fs_msg) (t n : Z) (d : list Z) : Prop :=
  msg_ok m ∧ FsProto.tag m = t ∧ FsProto.result m = n ∧ take (Z.to_nat (FsProto.datalen m)) (FsProto.data m) = d.
Lemma replies_msg t r n dl d x :
  0 ≤ t < 2 ^ 16 → req_ok r → - 2 ^ 31 ≤ n < 2 ^ 31 → 0 ≤ dl ≤ 512 → length d = 512%nat → take (Z.to_nat dl) d = x →
  replies (reply_msg (as_received t r) n dl d) t n x.
Proof.
  intros Ht Hr Hn Hdl Hd Hx. destruct (received_whole t r Hr) as [Wp _]. pose proof (request_msg_ok t r Ht Hr) as [? ? ? ? ? ? ? ? ? ? ?].
  split_and!; [|done|done|done]. split; cbn; try done.
Qed.
Lemma replies_result t r n :
  0 ≤ t < 2 ^ 16 → req_ok r → - 2 ^ 31 ≤ n < 2 ^ 31 →
  replies (result_msg (as_received t r) n) t n (if op r =? VFS_WRITE then take (Z.to_nat (write_len r)) (data r) else []).
Proof.
  intros Ht Hr Hn. destruct (received_data t r Hr) as [E1 E2]. apply replies_msg; try done.
  - rewrite E1. destruct (Z.eqb_spec (op r) VFS_WRITE); [by apply write_len_range|lia].
  - by destruct (received_whole t r Hr) as [_ ->].
Qed.
Lemma vfs_read_ok f n (w : W) k d w' : vfs_read junk f n w = Some ((k, d), w') →
  - 2 ^ 31 ≤ k ≤ 512 ∧ length d = Z.to_nat k.
Proof.
  unfold vfs_read, pbind, pret. destruct (vfs_call _ _ w) as [[a w1]|] eqn:E; [|done]. destruct (call_ok _ _ _ _ _ E) as (H1 & H2 & _).
  destruct (Z.ltb_spec VFS_DATA_MAX (result a)) as [|Hle]; [done|]. intros [= <- <- <-]. unfold VFS_DATA_MAX in *. split; [lia|].
  rewrite length_take. destruct (decide (0 ≤ result a)); [rewrite H2 by done; lia|lia].
Qed.
Lemma vfs_write_ok f d (w : W) k w' : vfs_write junk f d w = Some (k, w') → - 2 ^ 31 ≤ k < 2 ^ 31.
Proof.
  unfold vfs_write, pbind, pret. destruct (vfs_call _ _ w) as [[a w1]|] eqn:E; [|done]. destruct (call_ok _ _ _ _ _ E) as (H1 & _).
  by intros [= <- <-].
Qed.
Lemma vfs_ioctl_ok f c (w : W) k w' : vfs_ioctl junk f c w = Some (k, w') → - 2 ^ 31 ≤ k < 2 ^ 31.
Proof.
  unfold vfs_ioctl, pbind, pret. destruct (vfs_call _ _ w) as [[a w1]|] eqn:E; [|done]. destruct (call_ok _ _ _ _ _ E) as (H1 & _).
  by intros [= <- <-].
Qed.

Lemma int_m1 : - 2 ^ 31 ≤ -1 < 2 ^ 31.
Proof. lia. Qed.
Lemma after_x_same s : after_x s (tab s) (x_world s).1 = s.
Proof. by destruct s as [? ? ? []]. Qed.
(** Nothing but the result: no file was meant, or the operation brings no
    bytes. *)
Lemma serve_result t r s w' n :
  0 ≤ t < 2 ^ 16 → req_ok r → op r ≠ VFS_WRITE → - 2 ^ 31 ≤ n < 2 ^ 31 → apart (tab s) →
  ∃ m, pret (result_msg (as_received t r) n) (after_x s (tab s) w') = Some (m, after_x s (tab s) w') ∧ replies m t n [] ∧ apart (tab s).
Proof.
  intros Ht Hr Ho Hn Ha. exists (result_msg (as_received t r) n). split_and!; [done| |done].
  pose proof (replies_result t r n Ht Hr Hn) as HR. by rewrite (proj2 (Z.eqb_neq _ _) Ho) in HR.
Qed.
Lemma serve_refused t r s :
  0 ≤ t < 2 ^ 16 → req_ok r → op r ≠ VFS_WRITE → apart (tab s) →
  ∃ m, pret (result_msg (as_received t r) (-1)) s = Some (m, after_x s (tab s) (x_world s).1) ∧ replies m t (-1) [] ∧ apart (tab s).
Proof.
  intros Ht Hr Ho Ha. destruct (serve_result t r s (x_world s).1 (-1) Ht Hr Ho int_m1 Ha) as (m & H1 & H2). exists m.
  by rewrite after_x_same in *.
Qed.
Lemma serve_open t r s res d t' w' :
  0 ≤ t < 2 ^ 16 → req_ok r → apart (tab s) → op r = VFS_OPEN ∨ op r = VFS_CREATE →
  local_serve r (tab s, (x_world s).1) = Some ((res, d), (t', w')) →
  ∃ m, serve junk (as_received t r) s = Some (m, after_x s t' w') ∧ replies m t res d ∧ apart t'.
Proof.
  intros Ht Hr Ha Ho. unfold local_serve, serve. rewrite (pbind_eq _ _ _ (tab s) (tab s, (x_world s).1)) by done.
  change (FsProto.op (as_received t r)) with (op r). assert (op r ≠ VFS_WRITE) as Hw by (by destruct Ho as [-> | ->]).
  replace ((op r =? VFS_OPEN) || (op r =? VFS_CREATE)) with true by (destruct Ho as [-> | ->]; done). cbv zeta.
  rewrite (received_path t r Hr Ho). set (name := take 127 _). set (mo := if op r =? VFS_CREATE then vfs_create junk name else vfs_open junk name).
  unfold pbind at 1, in_ns at 1. cbn [fst snd]. destruct (mo (x_world s).1) as [[f w1]|] eqn:Em; [|done].
  rewrite (pbind_eq _ _ _ f (after_x s (tab s) w1)).
  2: { apply (ask_lift _ mo); [|done]. unfold mo. destruct (op r =? VFS_CREATE); [apply lift_create|apply lift_open_from]. }
  destruct (Z.ltb_spec f 0) as [Hf|Hf].
  { unfold pret at 1. intros [= <- <- <- <-]. by apply serve_result. }
  assert (f ≠ conn) as Hfc.
  { unfold mo in Em. destruct (op r =? VFS_CREATE); [by eapply create_ok|by eapply open_from_ok]. }
  unfold tab_alloc. rewrite <- pbind_assoc, (pbind_eq _ _ _ (tab s) (after_x s (tab s) w1)) by done.
  destruct (find_from _ 0 NFD) as [i|] eqn:Ei.
  - apply find_from_Some in Ei as (Hi & _). unfold pbind at 1 2, modify, pret at 1. intros [= <- <- <- <-]. cbn [fst snd].
    exists (result_msg (as_received t r) (Z.of_nat i)). split_and!; [done| |].
    + pose proof (replies_result t r (Z.of_nat i) Ht Hr ltac:(unfold NFD in *; lia)) as HR. by rewrite (proj2 (Z.eqb_neq _ _) Hw) in HR.
    + apply apart_insert; [done|]. done.
  - rewrite (pbind_eq (pret None) _ _ None (after_x s (tab s) w1)) by done.
    unfold pbind at 1, in_ns. cbn [fst snd]. destruct (vfs_close junk f w1) as [[z w2]|] eqn:Ec; [|done]. unfold pret at 1. intros [= <- <- <- <-].
    rewrite (pbind_eq _ _ _ z (after_x s (tab s) w2)); [by apply serve_result|].
    change (after_x s (tab s) w2) with (after_x (after_x s (tab s) w1) (tab (after_x s (tab s) w1)) w2).
    apply (ask_lift _ (vfs_close junk f)); [intros; apply lift_close|done].
Qed.
Lemma serve_file t r s res d t' w' :
  0 ≤ t < 2 ^ 16 → req_ok r → apart (tab s) → op r ≠ VFS_OPEN → op r ≠ VFS_CREATE →
  local_serve r (tab s, (x_world s).1) = Some ((res, d), (t', w')) →
  ∃ m, serve junk (as_received t r) s = Some (m, after_x s t' w') ∧ replies m t res d ∧ apart t'.
Proof.
  intros Ht Hr Ha Ho1 Ho2. unfold local_serve, serve. rewrite (pbind_eq _ _ _ (tab s) (tab s, (x_world s).1)) by done.
  change (FsProto.op (as_received t r)) with (op r). rewrite (proj2 (Z.eqb_neq _ _) Ho1), (proj2 (Z.eqb_neq _ _) Ho2). cbn [orb].
  destruct (Z.eqb_spec (op r) VFS_READ) as [Er|Er].
  { assert (op r ≠ VFS_WRITE) as Hw by (by rewrite Er). rewrite (pbind_eq _ _ _ _ _ (handle_local t r s)).
    destruct (local_slot (tab s) (fd r)) as [f|] eqn:El.
    2: { unfold pret at 1. intros [= <- <- <- <-]. by apply serve_refused. }
    unfold in_ns. cbn [fst snd]. change (FsProto.count (as_received t r)) with (len r). set (want := if _ <? len r then _ else _).
    destruct (vfs_read junk f want (x_world s).1) as [[[n x] w1]|] eqn:Em; [|done]. intros [= <- <- <- <-].
    rewrite (pbind_eq _ _ _ (n, x) (after_x s (tab s) w1)).
    2: { apply (ask_lift _ (vfs_read junk f want)); [|done]. intros. apply lift_read. by eapply local_slot_apart. }
    destruct (vfs_read_ok _ _ _ _ _ _ Em) as [Hn Hx]. destruct (received_whole t r Hr) as [_ Wd]. change (Z.to_nat FsProto.VFS_DATA_MAX) with 512%nat in Wd.
    eexists. split_and!; [done| |done]. apply replies_msg; try done; try lia.
    - destruct (Z.ltb_spec 0 n); lia.
    - rewrite length_app, length_drop, Wd. lia.
    - destruct (Z.ltb_spec 0 n); [rewrite <- Hx; by rewrite take_app_length|]. replace (Z.to_nat n) with 0%nat in Hx by lia. by destruct x. }
  destruct (Z.eqb_spec (op r) VFS_WRITE) as [Ew|Ew].
  { rewrite (pbind_eq _ _ _ _ _ (handle_local t r s)). destruct (received_data t r Hr) as [E1 E2]. rewrite Ew, Z.eqb_refl in E1, E2.
    destruct (local_slot (tab s) (fd r)) as [f|] eqn:El.
    2: { unfold pret at 1. intros [= <- <- <- <-]. eexists. rewrite after_x_same. split_and!; [done| |done].
      pose proof (replies_result t r (-1) Ht Hr int_m1) as HR. by rewrite Ew, Z.eqb_refl in HR. }
    unfold pbind at 1, in_ns. cbn [fst snd]. destruct (vfs_write junk f _ (x_world s).1) as [[k w1]|] eqn:Em; [|done]. unfold pret at 1. intros [= <- <- <- <-].
    rewrite (pbind_eq _ _ _ k (after_x s (tab s) w1)).
    2: { rewrite E2. apply (ask_lift _ (vfs_write junk f (take (Z.to_nat (write_len r)) (data r)))); [|done]. intros. apply lift_write. by eapply local_slot_apart. }
    eexists. split_and!; [done| |done]. apply replies_msg; try done; [by eapply vfs_write_ok|]. by destruct (received_whole t r Hr) as [_ ->]. }
  destruct (Z.eqb_spec (op r) VFS_IOCTL) as [Ei|Ei].
  { rewrite (pbind_eq _ _ _ _ _ (handle_local t r s)). destruct (local_slot (tab s) (fd r)) as [f|] eqn:El.
    2: { unfold pret at 1. intros [= <- <- <- <-]. by apply serve_refused. }
    change (FsProto.ioctl (as_received t r)) with (ioctl_cmd r).
    unfold pbind at 1, in_ns. cbn [fst snd]. destruct (vfs_ioctl junk f _ (x_world s).1) as [[k w1]|] eqn:Em; [|done]. unfold pret at 1. intros [= <- <- <- <-].
    rewrite (pbind_eq _ _ _ k (after_x s (tab s) w1)); [apply serve_result; try done; by eapply vfs_ioctl_ok|].
    apply (ask_lift _ (vfs_ioctl junk f (ioctl_cmd r))); [|done]. intros. apply lift_ioctl. by eapply local_slot_apart. }
  destruct (Z.eqb_spec (op r) VFS_CLOSE) as [Ec|Ec].
  { rewrite (pbind_eq _ _ _ _ _ (handle_local t r s)). destruct (local_slot (tab s) (fd r)) as [f|] eqn:El.
    2: { unfold pret at 1. intros [= <- <- <- <-]. by apply serve_refused. }
    unfold pbind at 1, in_ns. cbn [fst snd]. destruct (vfs_close junk f (x_world s).1) as [[k w1]|] eqn:Em; [|done].
    unfold pbind at 1, modify, pret at 1. intros [= <- <- <- <-]. cbn [fst snd].
    rewrite (pbind_eq _ _ _ k (after_x s (tab s) w1)) by (apply (ask_lift _ (vfs_close junk f)); [intros; apply lift_close|done]).
    eexists. split_and!; [done| |by apply apart_insert].
    pose proof (replies_result t r 0 Ht Hr ltac:(lia)) as HR. by rewrite (proj2 (Z.eqb_neq _ _) Ew) in HR. }
  unfold pret at 1. intros [= <- <- <- <-]. by apply serve_refused.
Qed.
(** Performed at the far end, a request has the result it has on the spot. *)
Lemma serve_local t r s res d t' w' :
  0 ≤ t < 2 ^ 16 → req_ok r → apart (tab s) → local_serve r (tab s, (x_world s).1) = Some ((res, d), (t', w')) →
  ∃ m, serve junk (as_received t r) s = Some (m, after_x s t' w') ∧ replies m t res d ∧ apart t'.
Proof.
  intros. destruct (decide (op r = VFS_OPEN)); [apply serve_open; auto|]. destruct (decide (op r = VFS_CREATE)); [apply serve_open; auto|].
  by apply serve_file.
Qed.

(** ** The exporter over its connection *)

Definition enc (m : fs_msg) : list Z := match fs_encode m FS_MAXMSG with Some b => b | None => [] end.
Lemma enc_some m : msg_ok m → fs_encode m FS_MAXMSG = Some (enc m).
Proof.
  intros Hm. unfold enc. rewrite fs_encode_header. cbn zeta. rewrite !clamp_ok by apply Hm.
  pose proof (mo_pathlen _ Hm). pose proof (mo_datalen _ Hm). rewrite (proj2 (Z.ltb_ge _ _)); [done|].
  unfold FS_MAXMSG, FS_HDR, FsProto.VFS_PATH_MAX, FsProto.VFS_DATA_MAX in *. lia.
Qed.
Lemma enc_length m : msg_ok m → (32 ≤ length (enc m) ≤ 672)%nat.
Proof.
  intros Hm. destruct (fs_encode_ok m _ _ Hm (enc_some m Hm)) as [_ E]. pose proof (mo_pathlen _ Hm). pose proof (mo_datalen _ Hm).
  unfold FS_HDR, FsProto.VFS_PATH_MAX, FsProto.VFS_DATA_MAX in *. lia.
Qed.
Definition the_pipe (s : exporter (W * pipe)) : pipe := (x_world s).2.
Definition with_pipe (p : pipe) (s : exporter (W * pipe)) : exporter (W * pipe) :=
  mkExporter (tab s) (x_conn s) (x_in s) ((x_world s).1, p).
Definition fits (p : pipe) : Prop := Forall (λ k, 0 ≤ k) (gulps p) ∧ (length (gulps p) + 672 ≤ fuel)%nat.
Lemma with_pipe_same s : with_pipe (the_pipe s) s = s.
Proof. by destruct s as [? ? ? []]. Qed.
Lemma conn_write d s :
  x_conn s = conn → d ≠ [] → Forall (λ k, 0 ≤ k) (gulps (the_pipe s)) →
  ∃ k l, ask_x (vfs_write junk (x_conn s) d) s =
      Some (k, with_pipe (mkPipe (rx (the_pipe s)) (chunk (the_pipe s)) (tx (the_pipe s) ++ take (Z.to_nat k) d) l) s) ∧ 0 ≤ k ∧
    (length l + (length d - Z.to_nat k) < length (gulps (the_pipe s)) + length d)%nat ∧ (length l ≤ length (gulps (the_pipe s)))%nat ∧
    Forall (λ k, 0 ≤ k) l.
Proof.
  intros Hc Hd Hg. assert (0 < length d)%nat as H0 by (destruct d; [done|cbn; lia]).
  destruct s as [t c i [w p]]. cbn in Hc. subst c. unfold ask_x, vfs_write, vfs_call, the_pipe, with_pipe in *. cbn [x_world x_conn x_in tab snd fst] in *.
  assert (0 < Z.to_nat VFS_DATA_MAX)%nat as HM by (unfold VFS_DATA_MAX; lia). set (M := Z.to_nat VFS_DATA_MAX) in *. clearbody M.
  assert (length (take M d) = Nat.min M (length d)) as He by apply length_take.
  rewrite <- pbind_assoc. cbn [sys_call export_world]. unfold is_conn. cbn. rewrite !Z.eqb_refl. cbn [andb].
  unfold pbind, on_pipe, pipe_call. cbn. rewrite Nat2Z.id, take_app_length.
  destruct (gulps p) as [|k l] eqn:E.
  - exists (Z.of_nat (length (take M d))), []. cbn [length]. rewrite !Nat2Z.id, (take_ge (take M d)) by lia. rewrite He.
    split_and!; [|lia|lia|lia|done]. cbn. do 6 f_equal. destruct (decide (length d ≤ M)%nat).
    + by rewrite Nat.min_r, !take_ge by lia.
    + by rewrite Nat.min_l by lia.
  - apply list.Forall_cons in Hg as [Hk Hl]. exists (Z.min k (Z.of_nat (length (take M d)))), l. cbn [length]. split_and!; [|lia|lia|lia|done].
    cbn. rewrite take_take. do 6 f_equal. f_equal. lia.
Qed.
Lemma wr_all_ok n d s :
  x_conn s = conn → Forall (λ k, 0 ≤ k) (gulps (the_pipe s)) → (length (gulps (the_pipe s)) + length d ≤ n)%nat →
  ∃ l, wr_all junk n d s = Some (true, with_pipe (mkPipe (rx (the_pipe s)) (chunk (the_pipe s)) (tx (the_pipe s) ++ d) l) s) ∧
    Forall (λ k, 0 ≤ k) l ∧ (length l ≤ length (gulps (the_pipe s)))%nat.
Proof.
  revert d s. induction n as [|n IH]; intros d s Hc Hg Hn; cbn [wr_all]; destruct (Nat.eqb_spec (length d) 0) as [E|E].
  1,3: apply nil_length_inv in E as ->; exists (gulps (the_pipe s)); rewrite app_nil_r; split_and!; [|done|done]; destruct s as [? ? ? [? []]]; done.
  { lia. }
  rewrite (pbind_eq _ _ _ (x_conn s) s) by done.
  destruct (conn_write d s Hc) as (k & l & Hw & Hk & Hl & Hl' & Hg'); [by intros ->|done|].
  rewrite (pbind_eq _ _ _ _ _ Hw). rewrite (proj2 (Z.ltb_ge k 0)) by done. set (s1 := with_pipe _ s) in *.
  assert (∀ r, Z.to_nat k = 0%nat ∧ r = d ∨ r = drop (Z.to_nat k) d →
    ∃ l, wr_all junk n r s1 = Some (true, with_pipe (mkPipe (rx (the_pipe s)) (chunk (the_pipe s)) (tx (the_pipe s) ++ d) l) s) ∧
    Forall (λ k, 0 ≤ k) l ∧ (length l ≤ length (gulps (the_pipe s)))%nat) as Hnext.
  { intros r Hr. assert (r = drop (Z.to_nat k) d) as -> by (destruct Hr as [[-> ->]|]; done).
    destruct (IH (drop (Z.to_nat k) d) s1) as (l2 & H1 & H2 & H3); [done|done|cbn; rewrite length_drop; lia|].
    exists l2. cbn in H1, H3. rewrite <- app_assoc, take_drop in H1. rewrite H1. split_and!; [done|done|lia]. }
  destruct (Z.eqb_spec k 0) as [->|Hk0]; [|apply Hnext; by right].
  rewrite (pbind_eq _ _ _ () s1) by done. apply Hnext. by left.
Qed.

(** A request on its way: its tag, who waits for the answer, and what it is. *)
Record forward := mkForward { f_tag : Z; f_who : Z; f_req : vfs_req }.
Definition forward_ok (x : forward) : Prop := 0 ≤ f_tag x < 2 ^ 16 ∧ req_ok (f_req x).
Definition enc_f (x : forward) : list Z := enc (request_msg prefix (f_tag x) (f_req x)).
Fixpoint local_run (l : list vfs_req) : prog local (list (Z * list Z)) :=
  match l with
  | [] => pret []
  | r :: l' => let* a := local_serve r in let* rs := local_run l' in pret (a :: rs)
  end.
(** No more than a part of the next message. *)
Definition partial {A} (e : A → list Z) (l : list A) (buf : list Z) : Prop :=
  match l with [] => buf = [] | x :: _ => (length buf < length (e x))%nat end.
Definition replied (x : forward) (m : fs_msg) (a : Z * list Z) : Prop := replies m (f_tag x) a.1 a.2.
Inductive all_replied : list forward → list fs_msg → list (Z * list Z) → Prop :=
  | replied_nil : all_replied [] [] []
  | replied_cons x m a l ms rs : replied x m a → all_replied l ms rs → all_replied (x :: l) (m :: ms) (a :: rs).
Hypothesis answers : ∀ r (st : local), req_ok r → is_Some (local_serve r st).

Lemma decode_front stack m rest :
  msg_ok m → fs_decode (enc m ++ rest) (Z.of_nat (length (enc m ++ rest))) stack = (Z.of_nat (length (enc m)), received m stack).
Proof. intros Hm. eapply fs_roundtrip_spec; [done|by apply enc_some]. Qed.
Lemma decode_part stack m n :
  msg_ok m → (n < length (enc m))%nat → fs_decode (take n (enc m)) (Z.of_nat (length (take n (enc m)))) stack = (0, stack).
Proof. intros Hm Hn. rewrite length_take, Nat.min_l by lia. eapply fs_decode_prefix; [done|by apply enc_some|done]. Qed.
Lemma forward_msg_ok x : forward_ok x → msg_ok (request_msg prefix (f_tag x) (f_req x)).
Proof. intros [Ht Hr]. by apply request_msg_ok. Qed.
Lemma serve_all_ok n q s rest :
  (length (x_in s) < n)%nat → concat (enc_f <$> q) = x_in s ++ rest → Forall forward_ok q → apart (tab s) → x_conn s = conn → fits (the_pipe s) →
  ∃ q1 q2 ms rs t' w' buf l,
    serve_all junk stack_x fuel n s =
      Some (true, mkExporter t' conn buf (w', mkPipe (rx (the_pipe s)) (chunk (the_pipe s)) (tx (the_pipe s) ++ concat (enc <$> ms)) l)) ∧
    q = q1 ++ q2 ∧ local_run (f_req <$> q1) (tab s, (x_world s).1) = Some (rs, (t', w')) ∧ all_replied q1 ms rs ∧
    concat (enc_f <$> q2) = buf ++ rest ∧ (length buf < 672)%nat ∧ partial enc_f q2 buf ∧ apart t' ∧ Forall (λ k, 0 ≤ k) l.
Proof.
  revert q s. induction n as [|n IH]; intros q s Hn Hq Hf Ha Hc Hp; [lia|]. cbn [serve_all].
  rewrite (pbind_eq _ _ _ (x_in s) s) by done.
  destruct (stream_front enc_f q (x_in s) rest Hq) as [(-> & Hb & ->)|(x & q' & -> & [(buf' & Hb & Hq')|(k & Hk & Hb & _)])].
  - rewrite Hb. cbn. exists [], [], [], [], (tab s), (x_world s).1, [], (gulps (the_pipe s)). rewrite app_nil_r.
    split_and!; try done; [|exact replied_nil|cbn; lia|apply Hp]. cbn. unfold pret. destruct s as [? ? ? [? []]]. cbn in *. by subst.
  - apply list.Forall_cons in Hf as [Hx Hf]. pose proof (forward_msg_ok x Hx) as Hm. pose proof (enc_length _ Hm) as Hl.
    rewrite Hb. unfold enc_f at 1 2. rewrite decode_front by done. unfold enc_f in Hb.
    rewrite (proj2 (Z.eqb_neq _ 0)), (proj2 (Z.ltb_ge _ 0)), Nat2Z.id, drop_app_length by lia.
    set (s1 := mkExporter (tab s) (x_conn s) buf' (x_world s)). rewrite (pbind_eq _ _ _ () s1) by done.
    destruct Hx as [Hxt Hxr]. destruct (answers (f_req x) (tab s, (x_world s).1) Hxr) as [[[res d] [t1 w1]] Hloc].
    destruct (serve_local (f_tag x) (f_req x) s1 res d t1 w1 Hxt Hxr Ha Hloc) as (m & Hserve & Hrep & Ha1).
    rewrite (pbind_eq _ _ _ _ _ Hserve). rewrite enc_some by apply Hrep. set (s2 := after_x s1 t1 w1).
    destruct (wr_all_ok fuel (enc m) s2) as (l & Hwr & Hg1 & Hg2); [done|apply Hp|pose proof (enc_length m ltac:(apply Hrep)); destruct Hp; change (the_pipe s2) with (the_pipe s); lia|].
    rewrite (pbind_eq _ _ _ _ _ Hwr). set (s3 := with_pipe _ s2) in *.
    destruct (IH q' s3) as (q1 & q2 & ms & rs & t' & w' & buf & l' & H1 & -> & H3 & H4 & H5 & H6 & H7 & H8 & H9); [|done|done|done|done| |].
    { cbn. rewrite Hb, length_app in Hn. lia. }
    { split; [done|]. cbn. change (the_pipe s2) with (the_pipe s) in Hg2. destruct Hp as [_ Hp]. lia. }
    exists (x :: q1), q2, (m :: ms), ((res, d) :: rs), t', w', buf, l'. rewrite H1. split_and!; try done.
    + cbn. by rewrite <- app_assoc.
    + cbn [fmap list_fmap local_run]. rewrite (pbind_eq _ _ _ _ _ Hloc). cbn in H3. by rewrite (pbind_eq _ _ _ _ _ H3).
    + by constructor.
  - apply list.Forall_cons in Hf as [Hx Hf]. pose proof (forward_msg_ok x Hx) as Hm. unfold enc_f in Hb, Hk. rewrite Hb, decode_part by done. cbn.
    exists [], (x :: q'), [], [], (tab s), (x_world s).1, (x_in s), (gulps (the_pipe s)). rewrite app_nil_r.
    split_and!; try done; [|exact replied_nil| | |apply Hp].
    + unfold pret. destruct s as [? ? ? [? []]]. cbn in *. by subst.
    + rewrite Hb, length_take. pose proof (enc_length _ Hm). lia.
    + cbn. unfold enc_f. rewrite Hb, length_take. lia.
Qed.
Lemma conn_read n s :
  x_conn s = conn → 0 < n → 0 < chunk (the_pipe s) ≤ Z.of_nat (length (rx (the_pipe s))) →
  ∃ d, d ≠ [] ∧ ask_x (vfs_read junk (x_conn s) n) s =
    Some ((Z.of_nat (length d), d), with_pipe (mkPipe (drop (length d) (rx (the_pipe s))) (chunk (the_pipe s)) (tx (the_pipe s)) (gulps (the_pipe s))) s) ∧
    d = take (length d) (rx (the_pipe s)) ∧ Z.of_nat (length d) ≤ n ∧ Z.of_nat (length d) ≤ 512.
Proof.
  intros Hc Hn Hk. destruct s as [t c i [w p]]. cbn in Hc. subst c. unfold the_pipe, with_pipe in *. cbn [x_world x_conn x_in tab snd fst] in *.
  set (want := if VFS_DATA_MAX <? n then VFS_DATA_MAX else n). assert (0 < want ≤ n ∧ want ≤ 512) as Hwant.
  { unfold want, VFS_DATA_MAX. destruct (Z.ltb_spec 512 n); lia. }
  set (k := Z.to_nat (Z.min (chunk p) want)). set (d := take k (rx p)). assert (length d = k) as Hd by (unfold d; rewrite length_take; lia).
  exists d. split_and!; [intros E; rewrite E in Hd; cbn in Hd; lia| |by rewrite Hd|lia|lia].
  unfold ask_x, vfs_read, vfs_call. fold want. cbn [x_world]. rewrite <- pbind_assoc. cbn [sys_call export_world]. unfold is_conn. cbn. rewrite !Z.eqb_refl. cbn [andb].
  unfold pbind, on_pipe, pipe_call. cbn. fold k d. rewrite (proj2 (Z.ltb_ge _ _)) by (unfold VFS_DATA_MAX; lia).
  unfold pret. cbn. by rewrite Nat2Z.id, take_app_length.
Qed.
Lemma export_turn_ok q s more :
  concat (enc_f <$> q) = x_in s ++ rx (the_pipe s) ++ more → (length (x_in s) < 672)%nat → Forall forward_ok q → apart (tab s) → x_conn s = conn →
  fits (the_pipe s) → 0 < chunk (the_pipe s) ≤ Z.of_nat (length (rx (the_pipe s))) →
  ∃ q1 q2 ms rs t' w' buf p',
    export_turn junk stack_x fuel s = Some (true, mkExporter t' conn buf (w', p')) ∧
    q = q1 ++ q2 ∧ local_run (f_req <$> q1) (tab s, (x_world s).1) = Some (rs, (t', w')) ∧ all_replied q1 ms rs ∧
    tx p' = tx (the_pipe s) ++ concat (enc <$> ms) ∧ concat (enc_f <$> q2) = buf ++ rx p' ++ more ∧
    (length buf < 672)%nat ∧ partial enc_f q2 buf ∧ apart t' ∧ (length (rx p') < length (rx (the_pipe s)))%nat.
Proof.
  intros Hq Hb Hf Ha Hc Hp Hk. unfold export_turn. rewrite (pbind_eq _ _ _ (x_conn s) s), (pbind_eq _ _ _ (x_in s) s) by done.
  destruct (conn_read (IN_MAX - Z.of_nat (length (x_in s))) s Hc) as (d & Hd0 & Hrd & Hd & Hd1 & Hd2); [unfold IN_MAX, FS_MAXMSG, FS_HDR, FsProto.VFS_PATH_MAX, FsProto.VFS_DATA_MAX; lia|done|].
  rewrite (pbind_eq _ _ _ _ _ Hrd). assert (0 < length d)%nat by (destruct d; [done|cbn; lia]). rewrite (proj2 (Z.leb_gt _ 0)) by lia.
  set (p1 := mkPipe (drop (length d) (rx (the_pipe s))) (chunk (the_pipe s)) (tx (the_pipe s)) (gulps (the_pipe s))) in *.
  set (s1 := mkExporter (tab s) (x_conn s) (x_in s ++ d) ((x_world s).1, p1)). rewrite (pbind_eq _ _ _ () s1) by done.
  destruct (serve_all_ok (S (length (x_in s ++ d))) q s1 (rx p1 ++ more)) as (q1 & q2 & ms & rs & t' & w' & buf & l & H1 & H2 & H3 & H4 & H5 & H6 & H7 & H8 & H9); try done.
  { cbn. lia. } { cbn. rewrite Hq. rewrite Hd at 1. rewrite <- (take_drop (length d) (rx (the_pipe s))) at 1. by rewrite <- !app_assoc. }
  exists q1, q2, ms, rs, t', w', buf. eexists. rewrite H1. split_and!; try done. cbn. rewrite length_drop. lia.
Qed.
End remote.
