(* ===== verification/RemoteImport.v ===== *)
(** * The importing end (import.c)

    What the importer does with a request, with the end of its write and with
    the bytes that arrive. *)
From stdpp Require Import base list numbers option.
From S2P Require Import Prelude Mem FsProto Req Client Export Import Remote.
Local Open Scope Z_scope.

(** What the importer has handed over: the read and the write that wait at
    the network server, and the letters to its clients. *)
Record office := mkOffice { parked_read : bool; parked_write : option (list Z); letters : list (Z * vfs_req) }.

Section importing.
Context (net : Z) (stack : fs_msg) (prefix : list Z).
Hypothesis stack_ok : whole stack.

Instance office_mail : Mail office := { mail_send dst r := λ o,
  Some (true,
    if dst =? net then
      if op r =? VFS_READ then mkOffice true (parked_write o) (letters o)
      else mkOffice (parked_read o) (Some (take (Z.to_nat (len r)) (data r))) (letters o)
    else mkOffice (parked_read o) (parked_write o) (letters o ++ [(dst, r)])) }.

(** ** Who waits *)

Definition waiter (x : forward) : pending := mkPending true (f_tag x) (f_who x) (fd (f_req x)) (op (f_req x)).
(** The used entries are the requests under way, which differ in their tags. *)
Definition awaited (l : list pending) (a : list forward) : Prop :=
  length l = NPEND ∧ filter p_used l ≡ₚ waiter <$> a ∧ NoDup (f_tag <$> a).
Lemma filter_insert {A} (P : A → bool) l i (x y : A) :
  l !! i = Some x → P x = false → P y = true → filter P (<[i := y]> l) ≡ₚ y :: filter P l.
Proof.
  revert i. induction l as [|z l IH]; intros [|i]; cbn [lookup list_lookup insert list_insert]; try done.
  - intros [= ->] Hx Hy. rewrite !filter_cons. destruct (decide (P y)) as [_|Hn]; [|by destruct Hn; rewrite Hy].
    destruct (decide (P x)) as [Hp|_]; [by rewrite Hx in Hp|done].
  - intros Hl Hx Hy. rewrite !filter_cons. destruct (decide (P z)); rewrite (IH i Hl Hx Hy); [apply Permutation_swap|done].
Qed.
Lemma filter_remove {A} (P : A → bool) l i (x y : A) :
  l !! i = Some x → P x = true → P y = false → filter P l ≡ₚ x :: filter P (<[i := y]> l).
Proof.
  intros Hl Hx Hy. rewrite <- (filter_insert P (<[i := y]> l) i y x); [|apply list_lookup_insert_eq; by eapply lookup_lt_Some|done|done].
  by rewrite list_insert_insert_eq, list_insert_id.
Qed.
Lemma awaited_add l a i x y :
  awaited l a → l !! i = Some y → p_used y = false → f_tag x ∉ f_tag <$> a → awaited (<[i := waiter x]> l) (a ++ [x]).
Proof.
  intros (Hl & Hp & Hn) Hi Hy Hx. split_and!; [by rewrite length_insert| |].
  - rewrite (filter_insert p_used l i y (waiter x)) by done. rewrite Hp, fmap_app. cbn. apply Permutation_cons_append.
  - rewrite fmap_app. cbn. apply list.NoDup_app. split_and!; [done| |apply NoDup_singleton].
    intros z Hz Hz2. apply list_elem_of_singleton in Hz2 as ->. done.
Qed.
(** The entry with the tag of the oldest request is its entry. *)
Lemma awaited_find l x a :
  awaited l (x :: a) →
  ∃ i, find_from (λ i, p_used (nth i l no_pending) && (p_tag (nth i l no_pending) =? f_tag x)) 0 NPEND = Some i ∧ l !! i = Some (waiter x) ∧
    ∀ y, p_used y = false → awaited (<[i := y]> l) a.
Proof.
  intros (Hl & Hp & Hn). cbn in Hn. apply list.NoDup_cons in Hn as [Hx Hn].
  assert (∀ y, y ∈ l → p_used y = true → p_tag y = f_tag x → y = waiter x) as Huniq.
  { intros y Hy Hu Ht. assert (y ∈ filter p_used l) as Hf by (apply list_elem_of_filter; split; [by rewrite Hu|done]).
    rewrite Hp in Hf. cbn in Hf. apply elem_of_cons in Hf as [->|Hf]; [done|]. apply list_elem_of_fmap in Hf as (z & -> & Hz).
    destruct Hx. rewrite <- Ht. cbn. by apply list_elem_of_fmap_2. }
  assert (waiter x ∈ l) as Hin.
  { assert (waiter x ∈ filter p_used l) as Hf by (rewrite Hp; cbn; left). by apply list_elem_of_filter in Hf as [_ ?]. }
  apply list_elem_of_lookup_1 in Hin as [j Hj]. pose proof (lookup_lt_Some _ _ _ Hj) as Hlt. rewrite Hl in Hlt.
  destruct (find_from _ 0 NPEND) as [i|] eqn:E.
  2: { pose proof (find_from_None _ _ _ E j ltac:(lia)) as Hno. cbn in Hno. rewrite (nth_lookup_Some _ _ _ (waiter x) Hj) in Hno. cbn in Hno. lia. }
  apply find_from_Some in E as (Hi & Hm & _). apply andb_prop in Hm as [Hu Ht]. exists i.
  assert (l !! i = Some (nth i l no_pending)) as Hli. { destruct (nth_lookup_or_length l i no_pending); [done|lia]. }
  assert (nth i l no_pending = waiter x) as Ew. { apply Huniq; [by eapply list_elem_of_lookup_2|done|lia]. }
  rewrite Ew in Hli. split_and!; [done|done|]. intros y Hy. split_and!; [by rewrite length_insert| |done].
  pose proof (filter_remove p_used l i (waiter x) y Hli eq_refl Hy) as Hr. rewrite Hp in Hr. cbn in Hr. by apply Permutation_cons_inv in Hr.
Qed.

(** ** Between two messages *)

(** The read waits at the network server; a write waits there exactly when
    there is something to write, and it carries the front of it. *)
Definition write_ok (v : importer_vars) (o : office) : Prop :=
  match parked_write o with
  | Some d => write_busy v = true ∧ d ≠ [] ∧ ∃ k, d = take k (outq v)
  | None => write_busy v = false ∧ outq v = []
  end.
Record imp_ok (v : importer_vars) (o : office) : Prop := {
  io_conn : 0 ≤ im_conn v;
  io_net : netsrv v = net;
  io_read : read_posted v = true ∧ parked_read o = true;
  io_write : write_ok v o }.

Abbreviation imp := (mkImporter (W := office)).
Lemma kick_write_ok v o :
  0 ≤ im_conn v → netsrv v = net → (parked_write o = None → write_busy v = false) →
  (∀ d, parked_write o = Some d → write_busy v = true ∧ d ≠ [] ∧ ∃ k, d = take k (outq v)) →
  ∃ b w, kick_write (imp v o) = Some ((), imp (v <| write_busy := b |>) (mkOffice (parked_read o) w (letters o))) ∧
    write_ok (v <| write_busy := b |>) (mkOffice (parked_read o) w (letters o)).
Proof.
  intros Hc Hn Hw0 Hw1. unfold kick_write. rewrite (pbind_eq _ _ _ v _) by done.
  destruct (parked_write o) as [d|] eqn:Ep.
  { destruct (Hw1 d eq_refl) as (H1 & H2 & H3). rewrite H1. cbn [orb]. exists true, (Some d). split; [|by split_and!].
    unfold pret. destruct v, o; cbn in *. by subst. }
  rewrite (Hw0 eq_refl). cbn [orb]. destruct (Nat.eqb_spec (length (outq v)) 0) as [E|E].
  { apply nil_length_inv in E. cbn [orb]. exists false, None. split; [|by split]. unfold pret. pose proof (Hw0 eq_refl). destruct v, o; cbn in *. by subst. }
  cbn [orb]. rewrite (proj2 (Z.ltb_ge _ _)) by done.
  set (d := take (Z.to_nat VFS_DATA_MAX) (outq v)).
  assert (d ≠ []) as Hd. { unfold d. intros Hd. apply (f_equal length) in Hd. rewrite length_take in Hd. unfold VFS_DATA_MAX in Hd. cbn [length] in Hd. lia. }
  exists true, (Some d). rewrite (pbind_eq _ _ _ true (imp v (mkOffice (parked_read o) (Some d) (letters o)))).
  - split; [done|]. split_and!; [done|done|]. by exists (Z.to_nat VFS_DATA_MAX).
  - unfold ask_i. cbn [mail_send office_mail i_world]. rewrite Hn, Z.eqb_refl. change (op _ =? VFS_READ) with false. cbv iota.
    change (len _) with (Z.of_nat (length d)). change (data (set_data _ _)) with (d ++ drop (length d) (data zero_req)).
    rewrite Nat2Z.id. do 4 f_equal. cbn [data set_data]. f_equal. apply take_app_length.
Qed.
Lemma post_read_ok v o :
  0 ≤ im_conn v → netsrv v = net →
  post_read (imp (v <| read_posted := false |>) o) =
    Some ((), imp (v <| read_posted := true |>) (mkOffice true (parked_write o) (letters o))).
Proof.
  intros Hc Hn. unfold post_read. rewrite (pbind_eq _ _ _ (v <| read_posted := false |>) _) by done. cbn [read_posted im_conn set_read_posted].
  cbn. rewrite (proj2 (Z.ltb_ge _ _)) by done. unfold ask_i, pbind. cbn. rewrite Hn, Z.eqb_refl. done.
Qed.
(** The refusal of a request. *)
Definition refusal (who : Z) (r : vfs_req) : Z * vfs_req := (who, answer_req (op r) (fd r) (-1) []).
Lemma answer_ok client ov f r d v o :
  client ≠ net → answer client ov f r d (imp v o) =
    Some ((), imp v (mkOffice (parked_read o) (parked_write o) (letters o ++ [(client, answer_req ov f r d)]))).
Proof. intros Hc. unfold answer, pbind, ask_i, pret. cbn. by rewrite (proj2 (Z.eqb_neq _ _) Hc). Qed.
Definition tag_of (v : importer_vars) : Z := Z.land (next_tag v) 0xffff.
Lemma tag_range v : 0 ≤ tag_of v < 2 ^ 16.
Proof. unfold tag_of. change 0xffff with (2 ^ 16 - 1). rewrite land_mask by lia. apply Z.mod_pos_bound. lia. Qed.
(** A request is forwarded, or refused. *)
Lemma from_client_ok who r v o a :
  imp_ok v o → awaited (pend v) a → who ≠ net → req_ok r → tag_of v ∉ f_tag <$> a →
  ∃ v' o', from_client prefix who r (imp v o) = Some ((), imp v' o') ∧ imp_ok v' o' ∧ inbuf v' = inbuf v ∧
    ((letters o' = letters o ∧ let x := mkForward (tag_of v) who r in
       awaited (pend v') (a ++ [x]) ∧ outq v' = outq v ++ enc (request_msg prefix (tag_of v) r)) ∨
     (letters o' = letters o ++ [refusal who r] ∧ pend v' = pend v ∧ outq v' = outq v)).
Proof.
  intros [Ic In Ir Iw] Ha Hw Hr Ht. unfold from_client. rewrite (pbind_eq _ _ _ v _) by done.
  destruct (find_from _ 0 NPEND) as [i|] eqn:Ei.
  2: { rewrite answer_ok by done. eexists _, _. split_and!; [done| |done|by right]. by split. }
  apply find_from_Some in Ei as (Hi & Hu & _). rewrite (proj2 (Z.ltb_ge _ _)) by done. fold (tag_of v).
  set (v1 := v <| next_tag := u32 (next_tag v + 1) |>). rewrite (pbind_eq _ _ _ () (imp v1 o)) by done.
  pose proof (request_msg_ok prefix (tag_of v) r (tag_range v) Hr) as Hm. unfold queue. rewrite <- pbind_assoc.
  rewrite (pbind_eq _ _ _ v1 (imp v1 o)) by done. rewrite enc_some by done. set (b := enc _).
  destruct (OUTQ_MAX <? _).
  { rewrite (pbind_eq _ _ _ false (imp v1 o)) by done. rewrite answer_ok by done. eexists _, _. split_and!; [done| |done|by right]. by split. }
  set (v2 := v1 <| outq := outq v1 ++ b |>). rewrite <- pbind_assoc. rewrite (pbind_eq _ _ _ () (imp v2 o)) by done.
  destruct (kick_write_ok v2 o Ic In) as (wb & pw & Hk & Hwok).
  { intros E. unfold write_ok in Iw. rewrite E in Iw. apply Iw. }
  { intros d E. unfold write_ok in Iw. rewrite E in Iw. destruct Iw as (W1 & W2 & k & W3). split_and!; [done|done|].
    exists (Nat.min k (length (outq v))). change (outq v2) with (outq v ++ b). rewrite take_app_le by lia. rewrite W3.
    destruct (decide (k ≤ length (outq v))%nat); [by rewrite Nat.min_l by lia|by rewrite Nat.min_r, !take_ge by lia]. }
  rewrite <- pbind_assoc, (pbind_eq _ _ _ _ _ Hk). rewrite (pbind_eq _ _ _ true _) by done.
  eexists _, _. split_and!; [done| |done|left; split_and!; [done| |done]].
  - split; cbn; [done|done|by destruct Ir|]. exact Hwok.
  - assert (pend v !! i = Some (nth i (pend v) no_pending)) as Hl by (destruct (nth_lookup_or_length (pend v) i no_pending); [done|destruct Ha; lia]).
    eapply (awaited_add (pend v) a i (mkForward (tag_of v) who r)); [done|done|by destruct (p_used _)|done].
Qed.

(** ** What arrives *)

(** The letter that answers a request with a result and its bytes. *)
Definition letter (x : Z * vfs_req) (a : Z * list Z) : Z * vfs_req := (x.1, answer_req (op x.2) (fd x.2) a.1 a.2).
Definition asked (x : forward) : Z * vfs_req := (f_who x, f_req x).
Definition post (o : office) (l : list (Z * vfs_req)) : office := mkOffice (parked_read o) (parked_write o) (letters o ++ l).
Lemma from_wire_ok x m a v o l :
  awaited (pend v) (x :: l) → f_who x ≠ net → replied x m a →
  ∃ p, from_wire (received m stack) (imp v o) = Some ((), imp (v <| pend := p |>) (post o [letter (asked x) a])) ∧ awaited p l.
Proof.
  intros Ha Hw (Hm & Ht & Hr & Hd). unfold from_wire. rewrite (pbind_eq _ _ _ v _) by done.
  change (FsProto.tag (received m stack)) with (FsProto.tag m). rewrite Ht.
  destruct (awaited_find _ _ _ Ha) as (i & -> & Hi & Hrest). rewrite (nth_lookup_Some _ _ _ _ Hi). cbn [p_tag p_client p_fd p_op waiter].
  set (y := mkPending false _ _ _ _). exists (<[i := y]> (pend v)). split; [|by apply Hrest].
  rewrite (pbind_eq _ _ _ () (imp (v <| pend := <[i := y]> (pend v) |>) o)) by done. rewrite answer_ok by done.
  change (FsProto.result (received m stack)) with (FsProto.result m). change (FsProto.datalen (received m stack)) with (FsProto.datalen m).
  assert (take (Z.to_nat (FsProto.datalen m)) (FsProto.data (received m stack)) = a.2) as ->; [|by rewrite Hr].
  rewrite <- Hd. apply take_overwrite_le; [lia|]. rewrite (mo_data _ Hm). pose proof (mo_datalen _ Hm). lia.
Qed.
Lemma drain_in_ok n v o a1 a2 ms rs rest :
  (length (inbuf v) < n)%nat → concat (enc <$> ms) = inbuf v ++ rest → all_replied a1 ms rs → awaited (pend v) (a1 ++ a2) →
  Forall (λ x, f_who x ≠ net) a1 →
  ∃ b1 b2 m1 m2 r1 r2 p buf,
    drain_in stack n (imp v o) = Some ((), imp (v <| pend := p |> <| inbuf := buf |>) (post o (zip_with letter (asked <$> b1) r1))) ∧
    a1 = b1 ++ b2 ∧ ms = m1 ++ m2 ∧ rs = r1 ++ r2 ∧ length b1 = length r1 ∧ all_replied b2 m2 r2 ∧ awaited p (b2 ++ a2) ∧
    concat (enc <$> m2) = buf ++ rest ∧ (length buf < 672)%nat ∧ partial enc m2 buf.
Proof.
  revert v o a1 ms rs. induction n as [|n IH]; intros v o a1 ms rs Hn Hc Hrep Ha Hw; [lia|]. cbn [drain_in].
  rewrite (pbind_eq _ _ _ v _) by done.
  destruct (stream_front enc ms (inbuf v) rest Hc) as [(-> & Hb & ->)|(m & ms' & -> & [(buf' & Hb & Hc')|(k & Hk & Hb & _)])].
  - inversion Hrep; subst. rewrite Hb. exists [], [], [], [], [], [], (pend v), []. cbn [app] in *. split_and!; try done; [|cbn; lia].
    cbn. unfold pret, post. cbn. rewrite app_nil_r. destruct v, o; cbn in *. by subst.
  - inversion Hrep as [|x m0 a l ms0 rs0 Hx Hl E1 E2 E3]; subst. apply list.Forall_cons in Hw as [Hwx Hw].
    pose proof Hx as (Hm & _). pose proof (enc_length _ Hm). rewrite Hb, decode_front by done.
    rewrite (proj2 (Z.eqb_neq _ 0)), (proj2 (Z.ltb_ge _ 0)) by lia. cbn [Z.to_nat].
    set (v1 := v <| inbuf := buf' |>). rewrite (pbind_eq _ _ _ () (imp v1 o)).
    2: { cbv [iset modify]. cbn [ivars i_world]. rewrite Nat2Z.id. do 3 f_equal. unfold v1. rewrite Hb, drop_app_length. done. }
    cbn [app] in Ha. destruct (from_wire_ok x m a v1 o (l ++ a2) Ha Hwx Hx) as (p & Hfw & Hp).
    rewrite (pbind_eq _ _ _ _ _ Hfw). set (v2 := v1 <| pend := p |>).
    destruct (IH v2 (post o [letter (asked x) a]) l ms' rs0) as (b1 & b2 & m1 & m2 & r1 & r2 & p' & buf & H1 & -> & -> & -> & H5 & H6 & H7 & H8 & H9 & H10); try done.
    { cbn. rewrite Hb, length_app in Hn. lia. }
    exists (x :: b1), b2, (m :: m1), m2, (a :: r1), r2, p', buf. split_and!; try done; [|cbn; by rewrite H5].
    rewrite H1. unfold post. cbn. by rewrite <- app_assoc.
  - inversion Hrep as [|x m0 a l ms0 rs0 Hx Hl E1 E2 E3]; subst. pose proof Hx as (Hm & _). pose proof (enc_length _ Hm).
    exists [], (x :: l), [], (m :: ms'), [], (a :: rs0), (pend v), (inbuf v).
    pose proof (decode_part stack m k Hm Hk) as Hdec. rewrite <- Hb in Hdec. rewrite Hdec.
    split_and!; try done; [| |cbn; rewrite Hb, length_take; lia].
    + cbn. unfold pret, post. cbn. rewrite app_nil_r. by destruct v, o.
    + rewrite Hb, length_take. lia.
Qed.
(** A reply of the network server. *)
Definition read_reply (d : list Z) : vfs_req :=
  zero_req <| op := VFS_READ |> <| result := Z.of_nat (length d) |> <| data := d ++ drop (length d) (data zero_req) |>.
Definition write_reply (n : nat) : vfs_req := zero_req <| op := VFS_WRITE |> <| result := Z.of_nat n |>.
Lemma arrival_ok v o a1 a2 ms rs rest d :
  0 ≤ im_conn v → netsrv v = net → write_ok v o → (length (inbuf v) < 672)%nat → d ≠ [] → (length d ≤ 512)%nat →
  concat (enc <$> ms) = inbuf v ++ d ++ rest → all_replied a1 ms rs → awaited (pend v) (a1 ++ a2) → Forall (λ x, f_who x ≠ net) a1 →
  ∃ v' b1 b2 m1 m2 r1 r2,
    import_turn stack prefix net (read_reply d) (imp v o) =
      Some (true, imp v' (mkOffice true (parked_write o) (letters o ++ zip_with letter (asked <$> b1) r1))) ∧
    a1 = b1 ++ b2 ∧ ms = m1 ++ m2 ∧ rs = r1 ++ r2 ∧ length b1 = length r1 ∧ all_replied b2 m2 r2 ∧ awaited (pend v') (b2 ++ a2) ∧
    concat (enc <$> m2) = inbuf v' ++ rest ∧ (length (inbuf v') < 672)%nat ∧ partial enc m2 (inbuf v') ∧
    outq v' = outq v ∧ imp_ok v' (mkOffice true (parked_write o) (letters o ++ zip_with letter (asked <$> b1) r1)).
Proof.
  intros Hc Hn Hwr Hb Hd0 Hd Hms Hrep Ha Hw. unfold import_turn. rewrite (pbind_eq _ _ _ v _) by done. rewrite Hn, Z.eqb_refl.
  change (op (read_reply d) =? VFS_READ) with true. cbv iota. set (v1 := v <| read_posted := false |>).
  rewrite (pbind_eq _ _ _ () (imp v1 o)) by done. change (result (read_reply d)) with (Z.of_nat (length d)).
  assert (0 < length d)%nat by (destruct d; [done|cbn; lia]). rewrite (proj2 (Z.leb_gt _ 0)) by lia.
  change (data (read_reply d)) with (d ++ drop (length d) (data zero_req)).
  rewrite (proj2 (Z.ltb_ge (INBUF_MAX - Z.of_nat (length (inbuf v))) _)) by (unfold INBUF_MAX, FS_MAXMSG, FS_HDR, FsProto.VFS_PATH_MAX, FsProto.VFS_DATA_MAX; lia).
  rewrite Nat2Z.id, take_app_length. set (v2 := v1 <| inbuf := inbuf v ++ d |>). rewrite (pbind_eq _ _ _ () (imp v2 o)) by done.
  rewrite (pbind_eq _ _ _ v2 (imp v2 o)) by done.
  destruct (drain_in_ok (S (length (inbuf v2))) v2 o a1 a2 ms rs rest) as (b1 & b2 & m1 & m2 & r1 & r2 & p & buf & H1 & H2 & H3 & H4 & H5 & H6 & H7 & H8 & H9 & H10); try done.
  { cbn. lia. } { cbn. by rewrite <- app_assoc. }
  rewrite (pbind_eq _ _ _ _ _ H1). set (v3 := v2 <| pend := p |> <| inbuf := buf |>). set (o3 := post o _).
  rewrite (pbind_eq _ _ _ v3 (imp v3 o3)) by done. change (im_conn v3) with (im_conn v). rewrite (proj2 (Z.ltb_ge _ 0)) by done.
  assert (v3 = v3 <| read_posted := false |>) as Ev by done. rewrite Ev. rewrite (pbind_eq _ _ _ _ _ (post_read_ok v3 o3 Hc Hn)).
  exists (v3 <| read_posted := true |>), b1, b2, m1, m2, r1, r2. split_and!; done.
Qed.
Lemma written_ok v o n d k :
  0 ≤ im_conn v → netsrv v = net → read_posted v = true ∧ parked_read o = true → parked_write o = None → d = take k (outq v) → (n ≤ length d)%nat →
  ∃ v' o', import_turn stack prefix net (write_reply n) (imp v o) = Some (true, imp v' o') ∧ imp_ok v' o' ∧
    outq v' = drop n (outq v) ∧ inbuf v' = inbuf v ∧ pend v' = pend v ∧ letters o' = letters o.
Proof.
  intros Hc Hn Hr Hp Hd Hle. unfold import_turn. rewrite (pbind_eq _ _ _ v _) by done. rewrite Hn, Z.eqb_refl.
  change (op (write_reply n) =? VFS_READ) with false. change (op (write_reply n) =? VFS_WRITE) with true. cbv iota.
  change (result (write_reply n)) with (Z.of_nat n). set (v1 := write_done (Z.of_nat n) v). rewrite (pbind_eq _ _ _ () (imp v1 o)) by done.
  assert (write_busy v1 = false ∧ outq v1 = drop n (outq v) ∧ im_conn v1 = im_conn v ∧ netsrv v1 = netsrv v ∧ inbuf v1 = inbuf v ∧ pend v1 = pend v ∧ read_posted v1 = read_posted v) as (E1 & E2 & E3 & E4 & E5 & E6 & E7).
  { unfold v1, write_done. destruct (Z.leb_spec (Z.of_nat n) 0); cbn; [|by rewrite Nat2Z.id]. assert (n = 0%nat) as -> by lia. by rewrite drop_0. }
  destruct (kick_write_ok v1 o) as (b & w & Hk & Hok); [lia|congruence|done|intros d' E; congruence|].
  rewrite (pbind_eq _ _ _ _ _ Hk). eexists _, _. split_and!; [done| |done|done|done|done]. split; cbn; [lia|congruence| |exact Hok]. by rewrite E7.
Qed.
Lemma asking_ok who r v o : netsrv v = net → who ≠ net →
  import_turn stack prefix who r (imp v o) = (let* _ := from_client prefix who r in pret true) (imp v o).
Proof. intros Hn Hw. unfold import_turn. rewrite (pbind_eq _ _ _ v _) by done. rewrite Hn, (proj2 (Z.eqb_neq _ _)) by done. done. Qed.
End importing.
