(* ===== verification/RemotePair.v ===== *)
(** * The two ends together (import.c, exportfs.c)

    Every run of the importer, the exporter and the connection between them
    answers as the exporter's name space would have answered on the spot. *)
From stdpp Require Import base list numbers option.
From S2P Require Import Prelude Mem FsProto Req Client Export Import Remote RemoteImport.
Local Open Scope Z_scope.

(** A client asks; some bytes of the waiting write are taken; some bytes
    that were sent back arrive; the exporter gets some bytes, and its writes
    are taken in these pieces. *)
Inductive event := Ask (who : Z) (r : vfs_req) | Wrote (n : nat) | Arrived (n : nat) | Served (n : nat) (g : list Z).

Section pair.
Context {W : Type} `{World W}.
Context (junk : vfs_req) (stack_x stack_i : fs_msg) (prefix : list Z) (fuel : nat) (conn net : Z).

Record system := mkSystem { importing_end : importer office; exporting_end : exporter (W * pipe) }.
Definition vars (s : system) : importer_vars := ivars (importing_end s).
Definition mail (s : system) : office := i_world (importing_end s).
Definition line (s : system) : pipe := the_pipe (exporting_end s).
Definition on_import {A} (m : prog (importer office) A) : prog system A := λ s,
  match m (importing_end s) with Some (a, i) => Some (a, mkSystem i (exporting_end s)) | None => None end.
Definition on_export {A} (m : prog (exporter (W * pipe)) A) : prog system A := λ s,
  match m (exporting_end s) with Some (a, x) => Some (a, mkSystem (importing_end s) x) | None => None end.
Definition set_mail (o : office) (s : system) : system := mkSystem (mkImporter (vars s) o) (exporting_end s).
Definition set_line (p : pipe) (s : system) : system := mkSystem (importing_end s) (with_pipe p (exporting_end s)).

Definition turn (from : Z) (r : vfs_req) : prog system bool :=
  on_import (import_turn (H0 := office_mail net) stack_i prefix from r).
Definition sys_step (e : event) : prog system bool :=
  match e with
  | Ask who r => turn who r
  | Wrote n =>
      let* o := gets mail in
      let* p := gets line in
      let* _ := modify (set_mail (mkOffice (parked_read o) None (letters o))) in
      let* _ := modify (set_line (mkPipe (rx p ++ take n (default [] (parked_write o))) (chunk p) (tx p) (gulps p))) in
      turn net (write_reply n)
  | Arrived n =>
      let* o := gets mail in
      let* p := gets line in
      let* _ := modify (set_mail (mkOffice false (parked_write o) (letters o))) in
      let* _ := modify (set_line (mkPipe (rx p) (chunk p) (drop n (tx p)) (gulps p))) in
      turn net (read_reply (take n (tx p)))
  | Served n g =>
      let* p := gets line in
      let* _ := modify (set_line (mkPipe (rx p) (Z.of_nat n) (tx p) g)) in
      on_export (export_turn (H := export_world conn) junk stack_x fuel)
  end.
Definition tags_in_use (l : list pending) : list Z := p_tag <$> filter p_used l.
(** What can happen.  A request carries a tag that no other one under way
    carries, which 65536 requests in the meantime would break. *)
Definition enabled (s : system) (e : event) : Prop :=
  match e with
  | Ask who r => who ≠ net ∧ req_ok r ∧ tag_of (vars s) ∉ tags_in_use (pend (vars s))
  | Wrote n => ∃ d, parked_write (mail s) = Some d ∧ (n ≤ length d)%nat
  | Arrived n => parked_read (mail s) = true ∧ (0 < n ≤ 512)%nat ∧ (n ≤ length (tx (line s)))%nat
  | Served n g => (0 < n ≤ length (rx (line s)))%nat ∧ Forall (λ k, 0 ≤ k) g ∧ (length g + 672 ≤ fuel)%nat
  end.
(** A run, with the letters each step writes. *)
Inductive run (s0 : system) : list (event * list (Z * vfs_req)) → system → Prop :=
  | run_start : run s0 [] s0
  | run_step tr s e s' l : run s0 tr s → enabled s e → sys_step e s = Some (true, s') → letters (mail s') = letters (mail s) ++ l →
      run s0 (tr ++ [(e, l)]) s'.
(** The requests that were not refused at once, and the letters that came of
    bytes from the far end. *)
Definition forwarded (tr : list (event * list (Z * vfs_req))) : list (Z * vfs_req) :=
  omap (λ x, match x with (Ask who r, []) => Some (who, r) | _ => None end) tr.
Definition delivered (tr : list (event * list (Z * vfs_req))) : list (Z * vfs_req) :=
  concat ((λ x, match x with (Arrived _, l) => l | _ => [] end) <$> tr).
(** Everything else that is written is a refusal. *)
Definition only_refusals (tr : list (event * list (Z * vfs_req))) : Prop :=
  Forall (λ x, match x with (Ask who r, l) => l = [] ∨ l = [refusal who r] | (Arrived _, _) => True | (_, l) => l = [] end) tr.
(** Bytes that move on the line, and how far everything still has to go: a
    request is at least 32 bytes and its reply at most 672. *)
Definition moves (e : event) : Prop := match e with Wrote n | Arrived n | Served n _ => (0 < n)%nat | Ask _ _ => False end.
Definition work (s : system) : nat :=
  (23 * length (outq (vars s)) + 22 * length (rx (line s)) + 21 * length (x_in (exporting_end s)) + length (tx (line s)))%nat.
(** The connection stands and nothing is under way. *)
Definition connected (s : system) : Prop :=
  imp_ok net (vars s) (mail s) ∧ pend (vars s) = repeat no_pending NPEND ∧ inbuf (vars s) = [] ∧ outq (vars s) = [] ∧
  x_conn (exporting_end s) = conn ∧ x_in (exporting_end s) = [] ∧ rx (line s) = [] ∧ tx (line s) = [] ∧ apart conn (tab (exporting_end s)).

Definition far_end (s : system) : local (W := W) := (tab (exporting_end s), (x_world (exporting_end s)).1).
(** Of the requests forwarded, [a] have been answered, [b] performed and [c]
    neither. *)
Record pair_state (st0 : local (W := W)) (s : system) (a b c : list forward) (ra rb : list (Z * list Z)) (ms : list fs_msg) : Prop := {
  ps_imp : imp_ok net (vars s) (mail s);
  ps_local : local_run junk prefix (f_req <$> a ++ b) st0 = Some (ra ++ rb, far_end s);
  ps_length : length a = length ra;
  ps_replied : all_replied b ms rb;
  ps_down : concat (enc <$> ms) = inbuf (vars s) ++ tx (line s);
  ps_up : concat (enc_f prefix <$> c) = x_in (exporting_end s) ++ rx (line s) ++ outq (vars s);
  ps_awaited : awaited (pend (vars s)) (b ++ c);
  ps_ok : Forall forward_ok (b ++ c);
  ps_who : Forall (λ x, f_who x ≠ net) (b ++ c);
  ps_inbuf : (length (inbuf (vars s)) < 672)%nat ∧ partial enc ms (inbuf (vars s));
  ps_xin : (length (x_in (exporting_end s)) < 672)%nat ∧ partial (enc_f prefix) c (x_in (exporting_end s));
  ps_apart : apart conn (tab (exporting_end s));
  ps_conn : x_conn (exporting_end s) = conn }.

(** ** Every step keeps it *)

Lemma local_run_app l1 l2 st rs st' :
  local_run junk prefix l1 st = Some (rs, st') →
  local_run junk prefix (l1 ++ l2) st = match local_run junk prefix l2 st' with Some (rs', st'') => Some (rs ++ rs', st'') | None => None end.
Proof.
  revert st rs. induction l1 as [|r l1 IH]; intros st rs; cbn [app local_run].
  { unfold pret. intros [= <- <-]. by destruct (local_run junk prefix l2 st) as [[? ?]|]. }
  unfold pbind, pret. destruct (local_serve junk prefix r st) as [[a st1]|]; [|done].
  destruct (local_run junk prefix l1 st1) as [[r1 st2]|] eqn:E; [|done]. intros [= <- <-]. rewrite (IH _ _ E).
  by destruct (local_run junk prefix l2 st2) as [[? ?]|].
Qed.
Lemma all_replied_app l1 m1 r1 l2 m2 r2 : all_replied l1 m1 r1 → all_replied l2 m2 r2 → all_replied (l1 ++ l2) (m1 ++ m2) (r1 ++ r2).
Proof. induction 1; intros; [done|]. constructor; [done|by apply IHall_replied]. Qed.
Lemma all_replied_length l m r : all_replied l m r → length l = length m ∧ length l = length r.
Proof. induction 1; cbn; lia. Qed.
Lemma partial_app {A} (e : A → list Z) l l' buf : partial e l buf → Forall (λ x, e x ≠ []) l' → partial e (l ++ l') buf.
Proof.
  destruct l as [|x l]; cbn; [|done]. intros -> Hl. destruct l' as [|y l']; cbn; [done|]. apply list.Forall_cons in Hl as [Hy _].
  destruct (e y); [done|cbn; lia].
Qed.
Lemma enc_f_nonempty x : forward_ok x → enc_f prefix x ≠ [].
Proof. intros Hx E. pose proof (enc_length _ (forward_msg_ok prefix x Hx)) as Hl. unfold enc_f in E. rewrite E in Hl. cbn in Hl. lia. Qed.
Lemma tags_awaited l a : awaited l a → ∀ t, t ∉ tags_in_use l → t ∉ f_tag <$> a.
Proof.
  intros (_ & Hp & _) t Ht Hin. apply Ht. unfold tags_in_use. rewrite Hp. rewrite <- list_fmap_compose. done.
Qed.

Context (st0 : local (W := W)) (s : system) (a b c : list forward) (ra rb : list (Z * list Z)) (ms : list fs_msg).
Hypothesis PS : pair_state st0 s a b c ra rb ms.

Lemma step_ask who r :
  enabled s (Ask who r) →
  ∃ s' l c', sys_step (Ask who r) s = Some (true, s') ∧ letters (mail s') = letters (mail s) ++ l ∧ pair_state st0 s' a b c' ra rb ms ∧
    ((l = [] ∧ asked <$> c' = (asked <$> c) ++ [(who, r)]) ∨ (l = [refusal who r] ∧ c' = c)).
Proof.
  intros (Hw & Hr & Ht). destruct PS as [P1 P2 P3 P4 P5 P6 P7 P8 P9 P10 P11 P12 P13]. apply (tags_awaited _ _ P7) in Ht.
  destruct (from_client_ok net prefix who r _ _ _ P1 P7 Hw Hr Ht) as (v' & o' & Hf & Hi & Hb & Hcase).
  assert (sys_step (Ask who r) s = Some (true, mkSystem (mkImporter v' o') (exporting_end s))) as Hstep.
  { cbn [sys_step]. unfold turn, on_import. destruct s as [[v o] x]. unfold vars, mail in *. cbn [ivars i_world importing_end exporting_end] in *.
    rewrite asking_ok by (done || apply P1). by rewrite (pbind_eq _ _ _ _ _ Hf). }
  destruct Hcase as [(Hl & Ha & Ho)|(Hl & Hp & Ho)].
  - set (x := mkForward (tag_of (vars s)) who r) in *.
    assert (forward_ok x) as Hx by (split; [apply tag_range|done]).
    exists (mkSystem (mkImporter v' o') (exporting_end s)), [], (c ++ [x]). rewrite app_nil_r. split_and!; [done|done| |left; split; [done|by rewrite fmap_app]].
    split; unfold vars, mail; cbn [ivars i_world importing_end exporting_end]; try done.
    + by rewrite Hb.
    + rewrite fmap_app, concat_app, P6, Ho. cbn. rewrite app_nil_r, <- !app_assoc. done.
    + by rewrite app_assoc.
    + rewrite app_assoc. apply list.Forall_app. split; [done|by apply list.Forall_singleton].
    + rewrite app_assoc. apply list.Forall_app. split; [done|by apply list.Forall_singleton].
    + by rewrite Hb.
    + destruct P11 as [? ?]. split; [done|]. apply partial_app; [done|]. apply list.Forall_singleton. by apply enc_f_nonempty.
  - exists (mkSystem (mkImporter v' o') (exporting_end s)), [refusal who r], c. split_and!; [done|done| |by right].
    split; unfold vars, mail; cbn [ivars i_world importing_end exporting_end]; try done.
    + by rewrite Hb.
    + by rewrite Ho.
    + by rewrite Hp.
    + by rewrite Hb.
Qed.
Lemma step_wrote n :
  enabled s (Wrote n) →
  ∃ s', sys_step (Wrote n) s = Some (true, s') ∧ letters (mail s') = letters (mail s) ∧ pair_state st0 s' a b c ra rb ms ∧
    (work s' + n ≤ work s)%nat.
Proof.
  intros (d & Hd & Hn). destruct PS as [P1 P2 P3 P4 P5 P6 P7 P8 P9 P10 P11 P12 P13]. destruct P1 as [I1 I2 I3 I4].
  unfold write_ok in I4. rewrite Hd in I4. destruct I4 as (_ & _ & k & Hk).
  destruct (written_ok net stack_i prefix (vars s) (mkOffice (parked_read (mail s)) None (letters (mail s))) n d k I1 I2 I3 eq_refl Hk Hn)
    as (v' & o' & Ht & Hi & Ho & Hb & Hp & Hl).
  exists (mkSystem (mkImporter v' o') (with_pipe (mkPipe (rx (line s) ++ take n d) (chunk (line s)) (tx (line s)) (gulps (line s))) (exporting_end s))).
  assert (n ≤ length (outq (vars s)))%nat as Hno by (rewrite Hk, length_take in Hn; lia).
  assert (take n d = take n (outq (vars s))) as Htd by (rewrite Hk, take_take; rewrite Hk, length_take in Hn; by rewrite Nat.min_l by lia).
  split_and!; [|done| |].
  - cbn [sys_step]. rewrite (pbind_eq _ _ _ (mail s) s), (pbind_eq _ _ _ (line s) s) by done. cbv [modify pbind]. rewrite Hd. unfold turn, on_import.
    cbn [importing_end set_line set_mail]. by rewrite Ht.
  - split; unfold vars, mail, line; cbn [ivars i_world importing_end exporting_end x_in x_conn tab the_pipe with_pipe x_world rx tx fst snd]; try done.
    + by rewrite Hb.
    + rewrite P6, Ho. rewrite <- !app_assoc. f_equal. unfold line. cbn. f_equal. by rewrite Htd, take_drop.
    + by rewrite Hp.
    + by rewrite Hb.
  - unfold work, vars at 1, line. cbn -[Nat.mul]. rewrite Ho, length_drop, length_app, Htd, length_take. fold (line s). lia.
Qed.
Lemma step_arrived n :
  enabled s (Arrived n) →
  ∃ s' b1 b2 r1 r2 m2, sys_step (Arrived n) s = Some (true, s') ∧ b = b1 ++ b2 ∧ rb = r1 ++ r2 ∧ length b1 = length r1 ∧
    letters (mail s') = letters (mail s) ++ zip_with letter (asked <$> b1) r1 ∧ pair_state st0 s' (a ++ b1) b2 c (ra ++ r1) r2 m2 ∧ (work s' + n ≤ work s)%nat.
Proof.
  intros (Hpr & Hn & Hn2). destruct PS as [P1 P2 P3 P4 P5 P6 P7 P8 P9 P10 P11 P12 P13]. destruct P1 as [I1 I2 I3 I4].
  set (d := take n (tx (line s))). set (o1 := mkOffice false (parked_write (mail s)) (letters (mail s))).
  assert (length d = n) as Hd by (unfold d; rewrite length_take; lia).
  destruct (arrival_ok net stack_i prefix (vars s) o1 b c ms rb (drop n (tx (line s))) d)
    as (v' & b1 & b2 & m1 & m2 & r1 & r2 & Ht & H2 & H3 & H4 & H5 & H6 & H7 & H8 & H9 & H10 & H11 & H12); try done.
  { apply P10. } { intros E. rewrite E in Hd. cbn in Hd. lia. } { lia. } { unfold d. by rewrite take_drop. }
  { by apply list.Forall_app in P9 as [? _]. }
  exists (mkSystem (mkImporter v' (mkOffice true (parked_write o1) (letters o1 ++ zip_with letter (asked <$> b1) r1)))
    (with_pipe (mkPipe (rx (line s)) (chunk (line s)) (drop n (tx (line s))) (gulps (line s))) (exporting_end s))), b1, b2, r1, r2, m2.
  split_and!; try done.
  - cbn [sys_step]. rewrite (pbind_eq _ _ _ (mail s) s), (pbind_eq _ _ _ (line s) s) by done. cbv [modify pbind]. unfold turn, on_import.
    cbn [importing_end set_line set_mail]. fold o1 d. by rewrite Ht.
  - split; unfold vars, mail, line; cbn [ivars i_world importing_end exporting_end x_in x_conn tab the_pipe with_pipe x_world rx tx fst snd]; try done.
    + rewrite <- !app_assoc, <- H2, <- H4. exact P2.
    + rewrite !length_app. lia.
    + by rewrite H11.
    + rewrite H2, <- app_assoc in P8. by apply list.Forall_app in P8 as [_ ?].
    + rewrite H2, <- app_assoc in P9. by apply list.Forall_app in P9 as [_ ?].
  - unfold work, vars at 1, line. cbn -[Nat.mul]. rewrite H11, length_drop. fold (line s). lia.
Qed.

Hypothesis replies_ok : ∀ dst r (w : W) x w', sys_call dst r w = Some (Some x, w') →
  - 2 ^ 31 ≤ result x < 2 ^ 31 ∧ length (data x) = Z.to_nat VFS_DATA_MAX.
Hypothesis opens_elsewhere : ∀ dst r (w : W) x w', sys_call dst r w = Some (Some x, w') →
  op r = VFS_OPEN ∨ op r = VFS_CREATE → 0 ≤ result x → fd_pack dst (result x) ≠ conn.
Hypothesis stack_ok : whole stack_x.
Hypothesis answers : ∀ r (st : local (W := W)), req_ok r → is_Some (local_serve junk prefix r st).
Lemma reply_bytes l m r : all_replied l m r → (length (concat (enc <$> m)) ≤ 672 * length l)%nat.
Proof.
  induction 1 as [|x m y l ms' rs' Hx Hl IH]; [cbn; lia|]. cbn [fmap list_fmap concat length]. rewrite length_app.
  destruct Hx as (Hm & _). pose proof (enc_length _ Hm). lia.
Qed.
Lemma request_bytes l : Forall forward_ok l → (32 * length l ≤ length (concat (enc_f prefix <$> l)))%nat.
Proof.
  induction 1 as [|x l Hx Hl IH]; [cbn; lia|]. cbn [fmap list_fmap concat length]. rewrite length_app.
  pose proof (enc_length _ (forward_msg_ok prefix x Hx)). unfold enc_f at 1. lia.
Qed.
Lemma step_served n g :
  enabled s (Served n g) →
  ∃ s' c1 c2 r1 m1, sys_step (Served n g) s = Some (true, s') ∧ c = c1 ++ c2 ∧ letters (mail s') = letters (mail s) ∧
    pair_state st0 s' a (b ++ c1) c2 ra (rb ++ r1) (ms ++ m1) ∧ (work s' < work s)%nat.
Proof.
  intros (Hn & Hg & Hf). destruct PS as [P1 P2 P3 P4 P5 P6 P7 P8 P9 P10 P11 P12 P13].
  set (x1 := with_pipe (mkPipe (rx (line s)) (Z.of_nat n) (tx (line s)) g) (exporting_end s)).
  destruct (export_turn_ok junk stack_x prefix fuel conn replies_ok opens_elsewhere stack_ok answers c x1 (outq (vars s)))
    as (c1 & c2 & m1 & r1 & t' & w' & buf & p' & Ht & -> & Hrun & Hrep & Htx & Hup & Hbuf & Hpart & Hap & Hless); try done.
  { apply P11. } { by apply list.Forall_app in P8 as [_ ?]. } { cbn. lia. }
  exists (mkSystem (importing_end s) (mkExporter t' conn buf (w', p'))), c1, c2, r1, m1. split_and!; try done.
  - cbn [sys_step]. rewrite (pbind_eq _ _ _ (line s) s) by done. cbv [modify pbind]. unfold on_export. cbn [exporting_end set_line]. fold x1. by rewrite Ht.
  - split; unfold vars, mail, line, far_end; cbn [ivars i_world importing_end exporting_end x_in x_conn tab the_pipe with_pipe x_world rx tx fst snd]; try done.
    + rewrite app_assoc, fmap_app, (local_run_app _ _ _ _ _ P2). cbn in Hrun. unfold far_end. rewrite Hrun. by rewrite app_assoc.
    + by apply all_replied_app.
    + rewrite fmap_app, concat_app, P5, Htx. by rewrite <- app_assoc.
    + by rewrite <- app_assoc.
    + by rewrite <- app_assoc.
    + by rewrite <- app_assoc.
    + destruct P10 as [P10 P10']. split; [done|]. apply partial_app; [done|]. clear -Hrep.
      induction Hrep as [|x m y l ms rs Hx Hl IH]; constructor; [|done]. destruct Hx as (Hm & _). pose proof (enc_length _ Hm) as Hlen.
      intros E. rewrite E in Hlen. cbn in Hlen. lia.
  - pose proof (reply_bytes c1 m1 r1 Hrep) as Hb. apply list.Forall_app in P8 as [_ P8]. apply list.Forall_app in P8 as [P8 _]. apply request_bytes in P8.
    apply (f_equal length) in P6, Hup. rewrite fmap_app, concat_app, !length_app in P6. rewrite !length_app in Hup.
    unfold work, line, vars. cbn -[Nat.mul]. rewrite Htx, length_app. change (rx (the_pipe x1)) with (rx (line s)) in Hless. change (tx (the_pipe x1)) with (tx (line s)).
    fold (line s) (vars s). lia.
Qed.
(** While requests wait, something can happen on the line. *)
Lemma line_moves : b ++ c ≠ [] → (672 ≤ fuel)%nat → ∃ e, moves e ∧ enabled s e.
Proof.
  intros Hbc Hf. destruct PS as [P1 P2 P3 P4 P5 P6 P7 P8 P9 P10 P11 P12 P13].
  destruct c as [|x c'] eqn:Ec.
  - rewrite app_nil_r in Hbc. destruct b as [|y b'] eqn:Eb; [done|]. inversion P4 as [|y' m z l ms' rs' Hx Hl]; subst.
    destruct P10 as [_ P10]. cbn in P10. cbn [fmap list_fmap concat] in P5. destruct (tx (line s)) as [|t ts] eqn:Et.
    { rewrite app_nil_r in P5. apply (f_equal length) in P5. rewrite length_app in P5. lia. }
    exists (Arrived 1). split; [cbn; lia|]. destruct P1 as [_ _ [_ Hr] _]. split_and!; [done|lia|lia|]. rewrite Et. cbn. lia.
  - destruct P11 as [_ P11]. cbn in P11. cbn [fmap list_fmap concat] in P6. destruct (rx (line s)) as [|t ts] eqn:Et.
    + destruct P1 as [_ _ _ Hw]. unfold write_ok in Hw. destruct (parked_write (mail s)) as [d|] eqn:Ed.
      * destruct Hw as (_ & Hd0 & _). exists (Wrote (length d)). split; [cbn; by destruct d; [|cbn; lia]|]. exists d. split; [done|lia].
      * destruct Hw as [_ Ho]. rewrite Ho, !app_nil_r in P6. apply (f_equal length) in P6. rewrite length_app in P6. lia.
    + exists (Served 1 []). split; [cbn; lia|]. split_and!; [lia|rewrite Et; cbn; lia|done|cbn; lia].
Qed.
End pair.

(** ** The theorem *)

Section theorem.
Context {W : Type} `{World W}.
Context (junk : vfs_req) (stack_x stack_i : fs_msg) (prefix : list Z) (fuel : nat) (conn net : Z).
Hypothesis replies_ok : ∀ dst r (w : W) x w', sys_call dst r w = Some (Some x, w') →
  - 2 ^ 31 ≤ result x < 2 ^ 31 ∧ length (data x) = Z.to_nat VFS_DATA_MAX.
Hypothesis opens_elsewhere : ∀ dst r (w : W) x w', sys_call dst r w = Some (Some x, w') →
  op r = VFS_OPEN ∨ op r = VFS_CREATE → 0 ≤ result x → fd_pack dst (result x) ≠ conn.
Hypothesis stack_ok : whole stack_x.
Hypothesis answers : ∀ r (st : local (W := W)), req_ok r → is_Some (local_serve junk prefix r st).

Local Abbreviation step := (sys_step junk stack_x stack_i prefix fuel conn net).
Local Abbreviation runs := (run junk stack_x stack_i prefix fuel conn net).

Lemma connected_start s : connected conn net s → pair_state junk prefix conn net (far_end s) s [] [] [] [] [] [].
Proof.
  intros (C1 & C2 & C3 & C4 & C5 & C6 & C7 & C8 & C9). split; cbn; try done.
  - constructor.
  - by rewrite C3, C8.
  - by rewrite C6, C7, C4.
  - rewrite C2. split_and!; [done|done|constructor].
  - rewrite C3. cbn. split; [lia|done].
  - rewrite C6. cbn. split; [lia|done].
Qed.
Lemma forwarded_app a b : forwarded (a ++ b) = forwarded a ++ forwarded b.
Proof. apply omap_app. Qed.
Lemma delivered_app a b : delivered (a ++ b) = delivered a ++ delivered b.
Proof. unfold delivered. by rewrite fmap_app, concat_app. Qed.
(** Any step that can be made, and what it does to the requests under way. *)
Lemma step_any st0 s a b c ra rb ms e :
  pair_state junk prefix conn net st0 s a b c ra rb ms → enabled fuel net s e →
  ∃ s' l d rd b' c' rb' ms', step e s = Some (true, s') ∧ letters (mail s') = letters (mail s) ++ l ∧ (moves e → work s' < work s)%nat ∧
    pair_state junk prefix conn net st0 s' (a ++ d) b' c' (ra ++ rd) rb' ms' ∧ length d = length rd ∧
    asked <$> (d ++ b' ++ c') = (asked <$> (b ++ c)) ++ forwarded [(e, l)] ∧ delivered [(e, l)] = zip_with letter (asked <$> d) rd ∧
    only_refusals [(e, l)].
Proof.
  intros PS He. destruct e as [who r|n|n|n g].
  - destruct (step_ask junk stack_x stack_i prefix fuel conn net st0 s a b c ra rb ms PS who r He) as (s' & l & c' & H1 & H2 & H3 & H4).
    exists s', l, [], [], b, c', rb, ms. rewrite !app_nil_r. split_and!; try done.
    + cbn [app]. rewrite !fmap_app. destruct H4 as [[-> ->]|[-> ->]]; cbn; by rewrite ?app_nil_r, ?app_assoc.
    + destruct H4 as [[-> _]|[-> _]]; constructor; auto.
  - destruct (step_wrote junk stack_x stack_i prefix fuel conn net st0 s a b c ra rb ms PS n He) as (s' & H1 & H2 & H3 & H4).
    exists s', [], [], [], b, c, rb, ms. rewrite !app_nil_r. cbn [moves]. split_and!; try done; [lia|by constructor].
  - destruct (step_arrived junk stack_x stack_i prefix fuel conn net st0 s a b c ra rb ms PS n He) as (s' & b1 & b2 & r1 & r2 & m2 & H1 & -> & -> & H4 & H5 & H6 & H7).
    exists s', (zip_with letter (asked <$> b1) r1), b1, r1, b2, c, r2, m2. cbn [moves]. split_and!; try done; [lia|by rewrite <- app_assoc; cbn; rewrite app_nil_r|cbn; by rewrite app_nil_r|by constructor].
  - destruct (step_served junk stack_x stack_i prefix fuel conn net st0 s a b c ra rb ms PS replies_ok opens_elsewhere stack_ok answers n g He) as (s' & c1 & c2 & r1 & m1 & H1 & -> & H3 & H4 & H5).
    exists s', [], [], [], (b ++ c1), c2, (rb ++ r1), (ms ++ m1). rewrite !app_nil_r. split_and!; try done; [by rewrite <- app_assoc|by constructor].
Qed.
Lemma run_state s0 tr s :
  connected conn net s0 → runs s0 tr s →
  ∃ a b c ra rb ms, pair_state junk prefix conn net (far_end s0) s a b c ra rb ms ∧ asked <$> (a ++ b ++ c) = forwarded tr ∧
    delivered tr = zip_with letter (asked <$> a) ra ∧ only_refusals tr.
Proof.
  intros C. induction 1 as [|tr s e s' l Hr IH He Hs Hl].
  { exists [], [], [], [], [], []. split_and!; [by apply connected_start|done|done|constructor]. }
  destruct IH as (a & b & c & ra & rb & ms & PS & H1 & H2 & H3).
  destruct (step_any _ _ _ _ _ _ _ _ e PS He) as (s2 & l2 & d & rd & b' & c' & rb' & ms' & S1 & S2 & _ & PS' & S4 & S5 & S6 & S7).
  rewrite Hs in S1. injection S1 as <-. rewrite Hl in S2. apply app_inv_head in S2 as <-.
  exists (a ++ d), b', c', (ra ++ rd), rb', ms'. split_and!; [done| | |].
  - rewrite forwarded_app, <- H1, <- app_assoc, !(fmap_app asked a), S5, <- app_assoc. done.
  - rewrite delivered_app, H2, S6, fmap_app, zip_with_app; [done|]. rewrite length_fmap. apply PS.
  - apply list.Forall_app. by split.
Qed.
End theorem.

(** C5: an imported name space is the exported one.  However requests come,
    bytes move in pieces and writes are taken in part: the answers that reach
    the clients are, in the order of the requests that were not refused for
    want of room, the results and bytes the same requests have on the spot at
    the far end, whose table and name space stand where those requests leave
    them; nothing else is answered but refusals; nothing gets stuck, every
    event on the line brings the work down, and while a request waits there
    is one. *)
Theorem remote_is_local {W : Type} `{World W} junk stack_x stack_i prefix fuel conn net (s0 s : system (W := W)) tr :
  (∀ dst r (w : W) x w', sys_call dst r w = Some (Some x, w') → - 2 ^ 31 ≤ result x < 2 ^ 31 ∧ length (data x) = Z.to_nat VFS_DATA_MAX) →
  (∀ dst r (w : W) x w', sys_call dst r w = Some (Some x, w') → op r = VFS_OPEN ∨ op r = VFS_CREATE → 0 ≤ result x → fd_pack dst (result x) ≠ conn) →
  whole stack_x → (∀ r (st : local (W := W)), req_ok r → is_Some (local_serve junk prefix r st)) → (672 ≤ fuel)%nat →
  connected conn net s0 → run junk stack_x stack_i prefix fuel conn net s0 tr s →
  (∃ k j rs, (k ≤ j ≤ length (forwarded tr))%nat ∧
    local_run junk prefix (take j (snd <$> forwarded tr)) (far_end s0) = Some (rs, far_end s) ∧
    delivered tr = zip_with letter (take k (forwarded tr)) (take k rs) ∧
    (k = length (forwarded tr) ∨ ∃ e, moves e ∧ enabled fuel net s e)) ∧
  only_refusals tr ∧
  ∀ e, enabled fuel net s e → ∃ s', sys_step junk stack_x stack_i prefix fuel conn net e s = Some (true, s') ∧ (moves e → work s' < work s)%nat.
Proof.
  intros H1 H2 H3 H4 Hf C R. destruct (run_state junk stack_x stack_i prefix fuel conn net H1 H2 H3 H4 s0 tr s C R) as (a & b & c & ra & rb & ms & PS & E1 & E2 & E3).
  split_and!; [|done|].
  - exists (length a), (length (a ++ b)), (ra ++ rb). rewrite <- E1. split_and!.
    + rewrite length_app. lia.
    + rewrite length_fmap, !length_app. lia.
    + rewrite <- list_fmap_compose, app_assoc, fmap_app, take_app_le, take_ge by (rewrite length_fmap; lia). apply PS.
    + rewrite E2. rewrite fmap_app, take_app_le, take_ge by (rewrite length_fmap; lia). f_equal. rewrite (ps_length _ _ _ _ _ _ _ _ _ _ _ _ PS).
      by rewrite take_app_length.
    + destruct (b ++ c) as [|x l] eqn:Ebc; [left; by rewrite app_nil_r, length_fmap|]. right.
      eapply line_moves; [exact PS|by rewrite Ebc|done].
  - intros e He. destruct (step_any junk stack_x stack_i prefix fuel conn net H1 H2 H3 H4 _ _ _ _ _ _ _ _ e PS He) as (s' & l & d & rd & b' & c' & rb' & ms' & S1 & _ & S3 & _).
    by exists s'.
Qed.

(** A name space of one server, task 5, which opens every name, reads as two
    letters, and counts what it is asked. *)
Definition two_letters (w : nat) (dst : Z) (r : vfs_req) : option (option vfs_req * nat) :=
  let n := if op r =? VFS_OPEN then (if dst =? 5 then 3 else -1) else if op r =? VFS_CREATE then -1 else if op r =? VFS_READ then 2 else 0 in
  Some (Some (r <| result := n |> <| data := [104; 105] ++ repeat 0 510 |>), S w).
#[local] Instance two_letters_world : World nat := {
  sys_resolve p n := pret (if (n =? 0)%nat then Some (5, p) else None);
  sys_call dst r := λ w, two_letters w dst r;
  sys_mounts_text := pret [];
  sys_putchar c := pret ();
  sys_rest := pret () }.
Definition demo_conn : Z := fd_pack 9 1.
Definition demo_vars : importer_vars := mkVars (fd_pack 2 0) 2 [] [] false true (repeat no_pending NPEND) 1.
Definition demo_pair : system (W := nat) :=
  mkSystem (mkImporter demo_vars (mkOffice true None [])) (mkExporter (repeat no_slot NFD) demo_conn [] (0%nat, mkPipe [] 0 [] [])).
Definition demo_ask : vfs_req := zero_req <| op := VFS_OPEN |> <| path := str "/r/README" |>.
Definition demo_step (e : event) (s : system (W := nat)) : system (W := nat) :=
  match sys_step zero_req zero_msg zero_msg (str "/r/") 700 demo_conn 2 e s with Some (_, s') => s' | None => s end.
Definition demo_asked_pair : system (W := nat) := demo_step (Ask 7 demo_ask) demo_pair.
Definition demo_sent_pair : system (W := nat) := demo_step (Wrote 39) demo_asked_pair.
Definition demo_served_pair : system (W := nat) := demo_step (Served 39 [1; 0; 5]) demo_sent_pair.
Definition demo_done_pair : system (W := nat) := demo_step (Arrived 32) demo_served_pair.
Definition demo_trace : list (event * list (Z * vfs_req)) :=
  [(Ask 7 demo_ask, []); (Wrote 39, []); (Served 39 [1; 0; 5], []); (Arrived 32, [letter (7, demo_ask) (0, [])])].
Lemma demo_run : run zero_req zero_msg zero_msg (str "/r/") 700 demo_conn 2 demo_pair demo_trace demo_done_pair.
Proof.
  change demo_trace with (((([] ++ [(Ask 7 demo_ask, [])]) ++ [(Wrote 39, [])]) ++ [(Served 39 [1; 0; 5], [])]) ++ [(Arrived 32, [letter (7, demo_ask) (0, [])])]).
  apply run_step with (s := demo_served_pair); [apply run_step with (s := demo_sent_pair); [apply run_step with (s := demo_asked_pair); [apply run_step with (s := demo_pair); [apply run_start|..]|..]|..]|..].
  all: try (vm_compute; reflexivity).
  - split_and!; [done| |vm_compute; by apply not_elem_of_nil]. split; try (vm_compute; done). repeat constructor; done.
  - eexists. split; [vm_compute; reflexivity|]. vm_compute. lia.
  - split_and!; [lia|vm_compute; lia|repeat constructor; lia|cbn; lia].
  - split_and!; [done|lia|lia|vm_compute; lia].
Qed.
Lemma two_letters_answer r (st : local (W := nat)) : is_Some (local_serve zero_req (str "/r/") r st).
Proof.
  unfold local_serve. rewrite (pbind_eq _ _ _ st.1 st) by done.
  destruct ((op r =? VFS_OPEN) || (op r =? VFS_CREATE)).
  - destruct (op r =? VFS_CREATE); [by eexists|]. cbn -[find_from]. unfold pbind, in_ns, modify, pret. cbn -[find_from]. destruct (find_from (λ i, negb (x_used (nth i st.1 no_slot))) 0 NFD); by eexists.
  - destruct (op r =? VFS_READ); [destruct (local_slot _ _); by eexists|]. destruct (op r =? VFS_WRITE); [destruct (local_slot _ _); by eexists|].
    destruct (op r =? VFS_IOCTL); [destruct (local_slot _ _); by eexists|]. destruct (op r =? VFS_CLOSE); [destruct (local_slot _ _); by eexists|]. by eexists.
Qed.
Lemma remote_is_local_witness :
  ∃ k j rs, (k ≤ j ≤ length (forwarded demo_trace))%nat ∧
    local_run zero_req (str "/r/") (take j (snd <$> forwarded demo_trace)) (far_end demo_pair) = Some (rs, far_end demo_done_pair) ∧
    delivered demo_trace = zip_with letter (take k (forwarded demo_trace)) (take k rs) ∧
    (k = length (forwarded demo_trace) ∨ ∃ e, moves e ∧ enabled 700 2 demo_done_pair e).
Proof.
  apply (remote_is_local zero_req zero_msg zero_msg (str "/r/") 700 demo_conn 2 demo_pair demo_done_pair demo_trace).
  - intros dst r w x w' [= <- _]. cbn [result data set_result set_data]. split; [|done]. cbn. repeat case_match; lia.
  - intros dst r w x w' [= <- _] Ho. cbn. destruct Ho as [-> | ->]; cbn; [|lia].
    destruct (Z.eqb_spec dst 5) as [->|]; [intros _; by vm_compute|lia].
  - by split.
  - intros r st _. apply two_letters_answer.
  - lia.
  - unfold connected. split_and!; [by split|done|done|done|done|done|done|done|].
    split; [done|]. intros h. do 9 (destruct h as [|h]; [done|]). done.
  - apply demo_run.
Defined.

(** ** Where an imported name space differs *)

(** A command given by name, as rm and mkdir give theirs, fails on imported
    files: the name is not sent, and there is no descriptor. *)
Theorem remote_command_by_name_fails {W : Type} `{World W} junk prefix r (st : local (W := W)) :
  op r = VFS_IOCTL → fd r = -1 → local_serve junk prefix r st = Some ((-1, []), st).
Proof. intros Ho Hf. unfold local_serve. rewrite (pbind_eq _ _ _ st.1 st) by done. by rewrite Ho, Hf. Qed.
(** The operation is cut to a byte on the wire: what nobody knows here is an
    open there. *)
Theorem remote_operation_is_cut : nth 7 (enc (request_msg (str "/r/") 1 (zero_req <| op := 257 |>))) 0 = VFS_OPEN.
Proof. vm_compute. done. Qed.
(** Two requests under way may carry the same tag, when 65536 have been tried
    between them; the answer to the older goes to the younger. *)
Theorem tag_reuse_misdelivers :
  let old := mkPending true 5 7 0 VFS_CLOSE in
  let v := demo_vars <| pend := <[1%nat := old]> (pend demo_vars) |> <| next_tag := 5 + 65536 |> in
  match from_client (H0 := office_mail 2) [] 8 (zero_req <| op := VFS_CLOSE |>) (mkImporter v (mkOffice true None [])) with
  | Some (_, s) =>
      match from_wire (H0 := office_mail 2) (zero_msg) s, from_wire (H0 := office_mail 2) (mkMsg 5 1 5 0 0 0 0 0 0 [] []) s with
      | Some (_, s1), Some (_, s2) => letters (i_world s1) = [] ∧ (fst <$> letters (i_world s2)) = [8]
      | _, _ => False
      end
  | None => False
  end.
Proof. vm_compute. done. Qed.
