(* ===== verification/Curses.v ===== *)
(** * The screen library (src/prog/curses.h)

    Cells, windows that draw into one virtual screen, the update that sends
    the difference between that and what the terminal is believed to show,
    and the keys made out of what comes back. *)
From stdpp Require Import base list numbers option.
From S2P Require Import Prelude Mem Req Client.
Local Open Scope Z_scope.

Definition ERR : Z := -1.
Definition OK : Z := 0.

(** ** Characters and how they look *)

Definition A_CHARTEXT : Z := 0x001fffff.
Definition A_NORMAL : Z := 0.
Definition A_BOLD : Z := 0x00200000.
Definition A_UNDERLINE : Z := 0x00400000.
Definition A_REVERSE : Z := 0x00800000.
Definition A_BLINK : Z := 0x01000000.
Definition A_DIM : Z := 0x02000000.
Definition A_COLOR : Z := 0xfc000000.
Definition A_ATTRIBUTES : Z := 0xffe00000.
Definition COLOR_PAIRS : nat := 64.
Definition COLOR_PAIR (n : Z) : Z := Z.land (u32 (Z.shiftl n 26)) A_COLOR.
Definition PAIR_NUMBER (a : Z) : Z := Z.shiftr (Z.land a A_COLOR) 26.
Definition ACS_ULCORNER : Z := 0x250c.
Definition ACS_LLCORNER : Z := 0x2514.
Definition ACS_URCORNER : Z := 0x2510.
Definition ACS_LRCORNER : Z := 0x2518.
Definition ACS_HLINE : Z := 0x2500.
Definition ACS_VLINE : Z := 0x2502.
Definition UNKNOWN : Z := 0xffffffff.

Definition KEY_DOWN : Z := 258.
Definition KEY_UP : Z := 259.
Definition KEY_LEFT : Z := 260.
Definition KEY_RIGHT : Z := 261.
Definition KEY_HOME : Z := 262.
Definition KEY_F (n : Z) : Z := 264 + n.
Definition KEY_DC : Z := 330.
Definition KEY_IC : Z := 331.
Definition KEY_NPAGE : Z := 338.
Definition KEY_PPAGE : Z := 339.
Definition KEY_END : Z := 360.
Definition KEY_RESIZE : Z := 410.

Definition MAXLINES : Z := 48.
Definition MAXCOLS : Z := 160.
Definition MAXWIN : nat := 8.
Definition CELLS : nat := Z.to_nat (MAXLINES * MAXCOLS).

(** A window: where it sits, how big it is, its cursor, what the next
    character is drawn in and what erasing leaves. *)
Record window := mkWindow
  { begy : Z; begx : Z; maxy : Z; maxx : Z; cury : Z; curx : Z; attrs : Z; bkgd : Z;
    keypad_on : bool; inuse : bool }.
Ltac set_window proj :=
  setter (λ s, mkWindow (begy s) (begx s) (maxy s) (maxx s) (cury s) (curx s) (attrs s) (bkgd s)
    (keypad_on s) (inuse s)) proj.
#[export] Instance set_begy : Setter begy. Proof. set_window begy. Defined.
#[export] Instance set_begx : Setter begx. Proof. set_window begx. Defined.
#[export] Instance set_maxy : Setter maxy. Proof. set_window maxy. Defined.
#[export] Instance set_maxx : Setter maxx. Proof. set_window maxx. Defined.
#[export] Instance set_cury : Setter cury. Proof. set_window cury. Defined.
#[export] Instance set_curx : Setter curx. Proof. set_window curx. Defined.
#[export] Instance set_attrs : Setter attrs. Proof. set_window attrs. Defined.
#[export] Instance set_bkgd : Setter bkgd. Proof. set_window bkgd. Defined.
#[export] Instance set_keypad_on : Setter keypad_on. Proof. set_window keypad_on. Defined.
#[export] Instance set_inuse : Setter inuse. Proof. set_window inuse. Defined.
Arguments set_begy _ _ /.
Arguments set_begx _ _ /.
Arguments set_maxy _ _ /.
Arguments set_maxx _ _ /.
Arguments set_cury _ _ /.
Arguments set_curx _ _ /.
Arguments set_attrs _ _ /.
Arguments set_bkgd _ _ /.
Arguments set_keypad_on _ _ /.
Arguments set_inuse _ _ /.

(** The static variables of the library. *)
Record curses := mkCurses
  { LINES : Z; COLS : Z; scr_new : list Z; scr_phy : list Z; wins : list window;
    stdscr : option nat; cur_fd : Z; telnet : bool; started : bool; visible : bool; wy : Z;
    wx : Z; cur_attr : Z; py : Z; px : Z; pairs : list (Z * Z); pushed : Z; ob : list Z }.
Ltac set_curses proj :=
  setter (λ s, mkCurses (LINES s) (COLS s) (scr_new s) (scr_phy s) (wins s) (stdscr s) (cur_fd s)
    (telnet s) (started s) (visible s) (wy s) (wx s) (cur_attr s) (py s) (px s) (pairs s)
    (pushed s) (ob s)) proj.
#[export] Instance set_LINES : Setter LINES. Proof. set_curses LINES. Defined.
#[export] Instance set_COLS : Setter COLS. Proof. set_curses COLS. Defined.
#[export] Instance set_scr_new : Setter scr_new. Proof. set_curses scr_new. Defined.
#[export] Instance set_scr_phy : Setter scr_phy. Proof. set_curses scr_phy. Defined.
#[export] Instance set_wins : Setter wins. Proof. set_curses wins. Defined.
#[export] Instance set_stdscr : Setter stdscr. Proof. set_curses stdscr. Defined.
#[export] Instance set_cur_fd : Setter cur_fd. Proof. set_curses cur_fd. Defined.
#[export] Instance set_telnet : Setter telnet. Proof. set_curses telnet. Defined.
#[export] Instance set_started : Setter started. Proof. set_curses started. Defined.
#[export] Instance set_visible : Setter visible. Proof. set_curses visible. Defined.
#[export] Instance set_wy : Setter wy. Proof. set_curses wy. Defined.
#[export] Instance set_wx : Setter wx. Proof. set_curses wx. Defined.
#[export] Instance set_cur_attr : Setter cur_attr. Proof. set_curses cur_attr. Defined.
#[export] Instance set_py : Setter py. Proof. set_curses py. Defined.
#[export] Instance set_px : Setter px. Proof. set_curses px. Defined.
#[export] Instance set_pairs : Setter pairs. Proof. set_curses pairs. Defined.
#[export] Instance set_pushed : Setter pushed. Proof. set_curses pushed. Defined.
#[export] Instance set_ob : Setter ob. Proof. set_curses ob. Defined.
Arguments set_LINES _ _ /.
Arguments set_COLS _ _ /.
Arguments set_scr_new _ _ /.
Arguments set_scr_phy _ _ /.
Arguments set_wins _ _ /.
Arguments set_stdscr _ _ /.
Arguments set_cur_fd _ _ /.
Arguments set_telnet _ _ /.
Arguments set_started _ _ /.
Arguments set_visible _ _ /.
Arguments set_wy _ _ /.
Arguments set_wx _ _ /.
Arguments set_cur_attr _ _ /.
Arguments set_py _ _ /.
Arguments set_px _ _ /.
Arguments set_pairs _ _ /.
Arguments set_pushed _ _ /.
Arguments set_ob _ _ /.

Definition zero_window : window := mkWindow 0 0 0 0 0 0 0 0 false false.
Definition curses_start : curses :=
  mkCurses 24 80 (repeat 0 CELLS) (repeat 0 CELLS) (repeat zero_window MAXWIN) None (-1) false false true 0 0
    UNKNOWN (-1) (-1) (repeat (0, 0) COLOR_PAIRS) (-1) [].
(** A pointer to a window: its number, [None] for the null pointer. *)
Definition win_at (w : option nat) (s : curses) : option window :=
  match w with
  | Some i => match wins s !! i with Some x => if inuse x then Some x else None | None => None end
  | None => None
  end.
Definition put_win (i : nat) (x : window) (s : curses) : curses := s <| wins := <[i := x]> (wins s) |>.
(** [if (!cur__ok(w)) return ERR;], and then [f]. *)
Definition with_win (w : option nat) (f : nat → window → curses → Z * curses) (s : curses) : Z * curses :=
  match w, win_at w s with Some i, Some x => f i x s | _, _ => (ERR, s) end.
(** An operation that only changes the window. *)
Definition on_win (w : option nat) (f : window → window) : curses → Z * curses :=
  with_win w (λ i x s, (OK, put_win i (f x) s)).

(** ** Windows *)

Definition newwin (nlines ncols y x : Z) (s : curses) : option nat * curses :=
  let nlines := if nlines <=? 0 then i32 (LINES s - y) else nlines in
  let ncols := if ncols <=? 0 then i32 (COLS s - x) else ncols in
  if (y <? 0) || (x <? 0) then (None, s)
  else
    match find_from (λ i, negb (inuse (nth i (wins s) zero_window))) 0 MAXWIN with
    | None => (None, s)
    | Some i => (Some i, put_win i (mkWindow y x nlines ncols 0 0 A_NORMAL 32 false true) s)
    end.
Definition delwin (w : option nat) (s : curses) : Z * curses :=
  if bool_decide (w = stdscr s) then (ERR, s) else on_win w (λ x, x <| inuse := false |>) s.
Definition mvwin (w : option nat) (y x : Z) : curses → Z * curses := on_win w (λ v, v <| begy := y |> <| begx := x |>).
Definition wresize (w : option nat) (nlines ncols : Z) : curses → Z * curses :=
  on_win w (λ v, v <| maxy := nlines |> <| maxx := ncols |>).

(** ** Putting things into the virtual screen *)

Definition wmove (w : option nat) (y x : Z) : curses → Z * curses :=
  with_win w (λ i v s,
    if (y <? 0) || (x <? 0) || (maxy v <=? y) || (maxx v <? x) then (ERR, s)
    else (OK, put_win i (v <| cury := y |> <| curx := x |>) s)).
Definition on_screen (y x : Z) (s : curses) : bool := (0 <=? y) && (y <? LINES s) && (0 <=? x) && (x <? COLS s).
Definition cell_no (y x : Z) : nat := Z.to_nat (y * MAXCOLS + x).
Definition put_cell (y x c : Z) (s : curses) : curses :=
  if on_screen y x s then s <| scr_new := <[cell_no y x := c]> (scr_new s) |> else s.
Definition attrs_or (a d : Z) : Z := if Z.land a A_ATTRIBUTES =? 0 then d else Z.land a A_ATTRIBUTES.
Definition waddch (w : option nat) (ch : Z) : curses → Z * curses :=
  with_win w (λ i v s,
    let c := Z.land ch A_CHARTEXT in
    if c =? 10 then
      (OK, put_win i (v <| curx := 0 |> <| cury := if i32 (cury v + 1) <? maxy v then i32 (cury v + 1) else cury v |>) s)
    else if c =? 13 then (OK, put_win i (v <| curx := 0 |>) s)
    else if (maxx v <=? curx v) || (maxy v <=? cury v) then (OK, s)
    else
      let s := put_cell (i32 (begy v + cury v)) (i32 (begx v + curx v)) (Z.lor c (attrs_or ch (attrs v))) s in
      (OK, put_win i (v <| curx := curx v + 1 |>) s)).
Definition mvwaddch (w : option nat) (y x ch : Z) (s : curses) : Z * curses :=
  let '(r, s) := wmove w y x s in if r =? ERR then (ERR, s) else waddch w ch s.
Definition tail_byte (k : Z) : bool := Z.land k 0xc0 =? 0x80.
Fixpoint decode_tail (n : nat) (s : list Z) (v : Z) : option Z :=
  match n with
  | O => Some v
  | S n' =>
      let k := hd 0 s in
      if tail_byte k then decode_tail n' (tail s) (u32 (Z.lor (Z.shiftl v 6) (Z.land k 0x3f))) else None
  end.
(** The character at the front of a text, and how many bytes it is. *)
Definition cur_decode (s : list Z) : Z * nat :=
  let c := hd 0 s in
  let '(n, v) := if 0xf0 <=? c then (4%nat, Z.land c 0x07) else if 0xe0 <=? c then (3%nat, Z.land c 0x0f)
                 else if 0xc0 <=? c then (2%nat, Z.land c 0x1f) else (1%nat, c) in
  match decode_tail (n - 1) (tail s) v with Some v => (v, n) | None => (c, 1%nat) end.
Fixpoint addnstr_loop (k : nat) (w : option nat) (t : list Z) (n : Z) (s : curses) : curses :=
  match k, t with
  | S k', _ :: _ =>
      if n =? 0 then s
      else
        let '(c, used) := cur_decode t in
        addnstr_loop k' w (drop used t) (if 0 <? n then n - 1 else n) (waddch w c s).2
  | _, _ => s
  end.
Definition waddnstr (w : option nat) (t : list Z) (n : Z) : curses → Z * curses :=
  with_win w (λ i v s, (OK, addnstr_loop (length t) w t n s)).
Definition waddstr (w : option nat) (t : list Z) : curses → Z * curses := waddnstr w t (-1).
Definition mvwaddnstr (w : option nat) (y x : Z) (t : list Z) (n : Z) (s : curses) : Z * curses :=
  let '(r, s) := wmove w y x s in if r =? ERR then (ERR, s) else waddnstr w t n s.
Definition mvwaddstr (w : option nat) (y x : Z) (t : list Z) : curses → Z * curses := mvwaddnstr w y x t (-1).

(** ** Attributes and colour *)

Definition wattrset (w : option nat) (a : Z) : curses → Z * curses := on_win w (λ v, v <| attrs := Z.land a A_ATTRIBUTES |>).
Definition wattron (w : option nat) (a : Z) : curses → Z * curses :=
  on_win w (λ v,
    let old := if Z.land a A_COLOR =? 0 then attrs v else Z.land (attrs v) (u32 (Z.lnot A_COLOR)) in
    v <| attrs := Z.lor old (Z.land a A_ATTRIBUTES) |>).
Definition wattroff (w : option nat) (a : Z) : curses → Z * curses :=
  on_win w (λ v, v <| attrs := Z.land (attrs v) (u32 (Z.lnot (Z.land a A_ATTRIBUTES))) |>).
Definition wbkgdset (w : option nat) (ch : Z) : curses → Z * curses := on_win w (λ v, v <| bkgd := ch |>).
Definition keypad (w : option nat) (on : bool) : curses → Z * curses := on_win w (λ v, v <| keypad_on := on |>).
Definition start_color (s : curses) : curses := s <| pairs := repeat (-1, -1) COLOR_PAIRS |>.
Definition init_pair (p f b : Z) (s : curses) : Z * curses :=
  if (p <=? 0) || (Z.of_nat COLOR_PAIRS <=? p) then (ERR, s)
  else (OK, s <| pairs := <[Z.to_nat p := (f, b)]> (pairs s) |>).

(** ** Erasing, lines, frames *)

(** [for (i = a; i < b; i++)] *)
Fixpoint for_ (n : nat) (a : Z) (f : Z → curses → curses) (s : curses) : curses :=
  match n with O => s | S n' => for_ n' (a + 1) f (f a s) end.
Definition loop (a b : Z) : (Z → curses → curses) → curses → curses := for_ (Z.to_nat (b - a)) a.
Definition werase (w : option nat) : curses → Z * curses :=
  with_win w (λ i v s,
    let fill := Z.lor (Z.land (bkgd v) A_CHARTEXT) (attrs_or (bkgd v) (attrs v)) in
    let s := loop 0 (maxy v) (λ y, loop 0 (maxx v) (λ x, put_cell (i32 (begy v + y)) (i32 (begx v + x)) fill)) s in
    (OK, put_win i (v <| cury := 0 |> <| curx := 0 |>) s)).
(** The cursor is put back where it was. *)
Definition back_to (w : option nat) (y x : Z) (s : curses) : curses := (on_win w (λ v, v <| cury := y |> <| curx := x |>) s).2.
Definition wclrtoeol (w : option nat) : curses → Z * curses :=
  with_win w (λ i v s,
    let fill := Z.lor (Z.land (bkgd v) A_CHARTEXT) (attrs v) in
    let s := loop (curx v) (maxx v) (λ x s, (waddch w fill (on_win w (λ v, v <| curx := x |>) s).2).2) s in
    (OK, back_to w (cury v) (curx v) s)).
Definition or_else (ch d : Z) : Z := if ch =? 0 then d else ch.
Definition whline (w : option nat) (ch n : Z) : curses → Z * curses :=
  with_win w (λ i v s,
    (OK, back_to w (cury v) (curx v) (loop 0 n (λ _ s, (waddch w (or_else ch ACS_HLINE) s).2) s))).
Definition wvline (w : option nat) (ch n : Z) : curses → Z * curses :=
  with_win w (λ i v s,
    let y := cury v in
    let x := curx v in
    (OK, back_to w y x (loop 0 (Z.min n (maxy v - y)) (λ k s, (mvwaddch w (y + k) x (or_else ch ACS_VLINE) s).2) s))).
Definition mvwhline (w : option nat) (y x ch n : Z) (s : curses) : Z * curses :=
  let '(r, s) := wmove w y x s in if r =? ERR then (ERR, s) else whline w ch n s.
Definition mvwvline (w : option nat) (y x ch n : Z) (s : curses) : Z * curses :=
  let '(r, s) := wmove w y x s in if r =? ERR then (ERR, s) else wvline w ch n s.
Definition wborder (w : option nat) (ls rs ts bs tl tr bl br : Z) : curses → Z * curses :=
  with_win w (λ i v s,
    let h := maxy v in
    let wd := maxx v in
    let put y x c s := (mvwaddch w y x c s).2 in
    let s := loop 1 (wd - 1) (λ x s, put (h - 1) x (or_else bs ACS_HLINE) (put 0 x (or_else ts ACS_HLINE) s)) s in
    let s := loop 1 (h - 1) (λ y s, put y (wd - 1) (or_else rs ACS_VLINE) (put y 0 (or_else ls ACS_VLINE) s)) s in
    (OK, put (h - 1) (wd - 1) (or_else br ACS_LRCORNER) (put (h - 1) 0 (or_else bl ACS_LLCORNER)
           (put 0 (wd - 1) (or_else tr ACS_URCORNER) (put 0 0 (or_else tl ACS_ULCORNER) s))))).
Definition box (w : option nat) (verch horch : Z) : curses → Z * curses := wborder w verch verch horch horch 0 0 0 0.
Definition wnoutrefresh (w : option nat) : curses → Z * curses :=
  with_win w (λ i v s,
    let y := i32 (begy v + cury v) in
    let x := i32 (begx v + curx v) in
    (OK, s <| wy := if LINES s <=? y then LINES s - 1 else y |> <| wx := if COLS s <=? x then COLS s - 1 else x |>)).
Definition curses_touchall (s : curses) : curses :=
  s <| scr_phy := repeat UNKNOWN CELLS |> <| cur_attr := UNKNOWN |> <| py := -1 |> <| px := -1 |>.
Definition cur_resize (w h : Z) (s : curses) : curses :=
  let s := if (20 <=? w) && (w <=? MAXCOLS) then s <| COLS := w |> else s in
  let s := if (5 <=? h) && (h <=? MAXLINES) then s <| LINES := h |> else s in
  let s := match stdscr s with
           | Some i => put_win i ((nth i (wins s) zero_window) <| maxy := LINES s |> <| maxx := COLS s |>) s
           | None => s
           end in
  curses_touchall s.

(** The same on the window that covers the screen. *)
Definition on_stdscr {A} (f : option nat → curses → A) (s : curses) : A := f (stdscr s) s.
Definition move (y x : Z) : curses → Z * curses := on_stdscr (λ w, wmove w y x).
Definition addch (ch : Z) : curses → Z * curses := on_stdscr (λ w, waddch w ch).
Definition mvaddch (y x ch : Z) : curses → Z * curses := on_stdscr (λ w, mvwaddch w y x ch).
Definition addnstr (t : list Z) (n : Z) : curses → Z * curses := on_stdscr (λ w, waddnstr w t n).
Definition addstr (t : list Z) : curses → Z * curses := addnstr t (-1).
Definition mvaddnstr (y x : Z) (t : list Z) (n : Z) : curses → Z * curses := on_stdscr (λ w, mvwaddnstr w y x t n).
Definition mvaddstr (y x : Z) (t : list Z) : curses → Z * curses := mvaddnstr y x t (-1).
Definition attrset (a : Z) : curses → Z * curses := on_stdscr (λ w, wattrset w a).
Definition attron (a : Z) : curses → Z * curses := on_stdscr (λ w, wattron w a).
Definition attroff (a : Z) : curses → Z * curses := on_stdscr (λ w, wattroff w a).
Definition erase : curses → Z * curses := on_stdscr werase.
Definition clrtoeol : curses → Z * curses := on_stdscr wclrtoeol.
Definition hline (ch n : Z) : curses → Z * curses := on_stdscr (λ w, whline w ch n).
Definition vline (ch n : Z) : curses → Z * curses := on_stdscr (λ w, wvline w ch n).
Definition isendwin (s : curses) : bool := negb (started s).

(** ** Bytes out *)

(** The library's variables and the world behind the console. *)
Record screen (W : Type) := mkScreen { lib : curses; outside : W }.
Arguments mkScreen {W}. Arguments lib {W}. Arguments outside {W}.
Definition OB_MAX : Z := 2048.
Definition ESC : Z := 27.

Section io.
Context {W : Type} `{World W}.
Context (junk : vfs_req) (fuel : nat).

Definition ask_w {A} (m : prog W A) : prog (screen W) A := λ s,
  match m (outside s) with Some (a, w) => Some (a, mkScreen (lib s) w) | None => None end.
Definition with_lib {A} (f : curses → A) : prog (screen W) A := gets (λ s, f (lib s)).
Definition on_lib (f : curses → curses) : prog (screen W) () := modify (λ s, mkScreen (f (lib s)) (outside s)).
(** An operation on the virtual screen. *)
Definition draw {A} (f : curses → A * curses) : prog (screen W) A := λ s,
  let '(a, c) := f (lib s) in Some (a, mkScreen c (outside s)).

Fixpoint flush_loop (n : nat) (f : Z) (d : list Z) : prog W () :=
  if (length d =? 0)%nat then pret ()
  else
    match n with
    | O => diverge
    | S n' =>
        let* k := vfs_write junk f d in
        if k <? 0 then pret ()
        else if k =? 0 then let* _ := sys_rest in flush_loop n' f d
        else flush_loop n' f (drop (Z.to_nat k) d)
    end.
Definition cur_flush : prog (screen W) () :=
  let* c := with_lib id in
  let* _ := ask_w (flush_loop fuel (cur_fd c) (ob c)) in
  on_lib (λ c, c <| ob := [] |>).
Definition cur_ch (b : Z) : prog (screen W) () :=
  let* c := with_lib id in
  let* _ := (if Z.of_nat (length (ob c)) =? OB_MAX then cur_flush else pret ()) in
  on_lib (λ c, c <| ob := ob c ++ [b] |>).
Fixpoint cur_str (t : list Z) : prog (screen W) () :=
  match t with [] => pret () | b :: t' => let* _ := cur_ch b in cur_str t' end.
(** The digits of a number, 0 for what is not positive. *)
Definition num (v : Z) : list Z := uutoa (if v <=? 0 then 0 else v).
Definition cur_num (v : Z) : prog (screen W) () := cur_str (num v).
Definition utf8 (v : Z) : list Z :=
  if v <? 0x80 then [v]
  else if v <? 0x800 then [u8 (Z.lor 0xc0 (Z.shiftr v 6)); u8 (Z.lor 0x80 (Z.land v 0x3f))]
  else if v <? 0x10000 then
    [u8 (Z.lor 0xe0 (Z.shiftr v 12)); u8 (Z.lor 0x80 (Z.land (Z.shiftr v 6) 0x3f)); u8 (Z.lor 0x80 (Z.land v 0x3f))]
  else
    [u8 (Z.lor 0xf0 (Z.shiftr v 18)); u8 (Z.lor 0x80 (Z.land (Z.shiftr v 12) 0x3f));
     u8 (Z.lor 0x80 (Z.land (Z.shiftr v 6) 0x3f)); u8 (Z.lor 0x80 (Z.land v 0x3f))].
Definition cur_utf8 (v : Z) : prog (screen W) () := cur_str (utf8 v).
Definition cup (y x : Z) : list Z := [ESC; 91] ++ num (y + 1) ++ [59] ++ num (x + 1) ++ [72].
Definition cur_goto (y x : Z) : prog (screen W) () :=
  let* c := with_lib id in
  if (py c =? y) && (px c =? x) then pret ()
  else
    let* _ := cur_str (cup y x) in
    on_lib (λ c, c <| py := y |> <| px := x |>).
(** The sequence for an attribute word, from a clean slate. *)
Definition has_bit (a m : Z) : bool := negb (Z.land a m =? 0).
Definition sgr (ps : list (Z * Z)) (a : Z) : list Z :=
  let p := PAIR_NUMBER a in
  [ESC; 91; 48] ++
  (if has_bit a A_BOLD then [59; 49] else []) ++ (if has_bit a A_DIM then [59; 50] else []) ++
  (if has_bit a A_UNDERLINE then [59; 52] else []) ++ (if has_bit a A_BLINK then [59; 53] else []) ++
  (if has_bit a A_REVERSE then [59; 55] else []) ++
  (if 0 <? p then
     let '(fg, bg) := nth (Z.to_nat p) ps (-1, -1) in
     (if 0 <=? fg then [59; 51] ++ num fg else []) ++ (if 0 <=? bg then [59; 52] ++ num bg else [])
   else []) ++ [109].
Definition cur_setattr (ch : Z) : prog (screen W) () :=
  let a := Z.land ch A_ATTRIBUTES in
  let* c := with_lib id in
  if a =? cur_attr c then pret ()
  else
    let* _ := on_lib (λ c, c <| cur_attr := a |>) in
    cur_str (sgr (pairs c) a).

(** ** The update *)

Definition CURSES_GAP : Z := 6.
Definition nw_at (c : curses) (y x : Z) : Z := nth (cell_no y x) (scr_new c) 0.
Definition ph_at (c : curses) (y x : Z) : Z := nth (cell_no y x) (scr_phy c) 0.
Definition same_cell (c : curses) (y x : Z) : bool := nw_at c y x =? ph_at c y x.
(** Where the run of differences ends, with a few identical cells allowed
    inside it: from column [j] with [n] columns to go. *)
Fixpoint run_end (n : nat) (c : curses) (y j e gap : Z) : Z :=
  match n with
  | O => e
  | S n' =>
      if same_cell c y j then if CURSES_GAP <? gap + 1 then e else run_end n' c y (j + 1) e (gap + 1)
      else run_end n' c y (j + 1) (j + 1) 0
  end.
Definition settle (y x : Z) (c : curses) : curses := c <| scr_phy := <[cell_no y x := nw_at c y x]> (scr_phy c) |>.
(** [n] cells from column [x] on. *)
Fixpoint send_cells (n : nat) (y x : Z) : prog (screen W) () :=
  match n with
  | O => pret ()
  | S n' =>
      let* c := with_lib id in
      let* _ := cur_setattr (nw_at c y x) in
      let* _ := cur_utf8 (Z.land (nw_at c y x) A_CHARTEXT) in
      let* _ := on_lib (settle y x) in
      send_cells n' y (x + 1)
  end.
(** The columns of a line from [x] up to [last], [n] of them at most. *)
Fixpoint update_row (n : nat) (y x last : Z) : prog (screen W) () :=
  match n with
  | O => pret ()
  | S n' =>
      if last <=? x then pret ()
      else
        let* c := with_lib id in
        if same_cell c y x then update_row n' y (x + 1) last
        else
          let e := run_end (Z.to_nat (last - (x + 1))) c y (x + 1) (x + 1) 0 in
          let* _ := cur_goto y x in
          let* _ := send_cells (Z.to_nat (e - x)) y x in
          let* _ := on_lib (λ c, c <| px := e |> <| py := if COLS c <=? e then -1 else py c |>) in
          update_row n' y e last
  end.
Fixpoint update_rows (n : nat) (y : Z) : prog (screen W) () :=
  match n with
  | O => pret ()
  | S n' =>
      let* c := with_lib id in
      let bottom := y =? LINES c - 1 in
      let last := if bottom then COLS c - 1 else COLS c in
      let* _ := (if bottom && (0 <? COLS c) then on_lib (settle y (COLS c - 1)) else pret ()) in
      let* _ := update_row (Z.to_nat last) y 0 last in
      update_rows n' (y + 1)
  end.
Definition doupdate : prog (screen W) Z :=
  let* c := with_lib id in
  if negb (started c) then pret ERR
  else
    let* _ := update_rows (Z.to_nat (LINES c)) 0 in
    let* _ := (if visible c then cur_goto (wy c) (wx c) else pret ()) in
    let* _ := cur_flush in
    pret OK.
Definition wrefresh (w : option nat) : prog (screen W) Z :=
  let* r := draw (wnoutrefresh w) in
  if r =? ERR then pret ERR else doupdate.

Definition refresh : prog (screen W) Z := let* c := with_lib id in wrefresh (stdscr c).

(** ** Input *)

(** One byte, [None] for ERR. *)
Definition cur_byte : prog (screen W) (option Z) :=
  let* c := with_lib id in
  let* (n, d) := ask_w (vfs_read junk (cur_fd c) 1) in
  pret (if n <=? 0 then None else Some (hd 0 d)).
Definition ungetch (ch : Z) (s : curses) : Z * curses := (OK, s <| pushed := ch |>).
(** What reading a key comes to: a key, nothing yet, or the end. *)
Inductive got := Key (k : Z) | Again | Ended.
(** The body of a subnegotiation up to IAC SE, at most eight bytes of it
    kept. *)
Fixpoint sub_loop (n : nat) (prev : Z) (p : list Z) : prog (screen W) (option (list Z)) :=
  match n with
  | O => diverge
  | S n' =>
      let* k := cur_byte in
      match k with
      | None => pret None
      | Some k =>
          if (prev =? 255) && (k =? 240) then pret (Some p)
          else sub_loop n' k (if negb (k =? 255) && (length p <? 8)%nat then p ++ [k] else p)
      end
  end.
Definition word (p : list Z) (i : nat) : Z := Z.lor (Z.shiftl (nth i p 0) 8) (nth (S i) p 0).
(** After IAC. *)
Definition get_telnet : prog (screen W) got :=
  let* b := cur_byte in
  match b with
  | None => pret Ended
  | Some b =>
      if b =? 255 then pret (Key 255)
      else if (251 <=? b) && (b <=? 254) then
        let* x := cur_byte in pret (match x with None => Ended | Some _ => Again end)
      else if b =? 250 then
        let* opt := cur_byte in
        let* p := sub_loop fuel 0 [] in
        match p with
        | None => pret Ended
        | Some p =>
            if bool_decide (opt = Some 31) && (4 <=? length p)%nat then
              let* _ := on_lib (cur_resize (word p 0) (word p 2)) in pret (Key KEY_RESIZE)
            else pret Again
        end
      else pret Again
  end.
(** The numbers of a control sequence and the letter that ends it. *)
Fixpoint csi_loop (n : nat) (p : list Z) (np : nat) : prog (screen W) (option (list Z * Z)) :=
  match n with
  | O => diverge
  | S n' =>
      let* d := cur_byte in
      match d with
      | None => pret None
      | Some d =>
          if (48 <=? d) && (d <=? 57) then csi_loop n' (<[np := i32 (nth np p 0 * 10 + (d - 48))]> p) np
          else if d =? 59 then csi_loop n' p (if (np <? 3)%nat then S np else np)
          else pret (Some (p, d))
      end
  end.
(** The keys that are [ESC \[ n ~]. *)
Definition tilde_key (n : Z) : option Z :=
  if n =? 1 then Some KEY_HOME else if n =? 2 then Some KEY_IC else if n =? 3 then Some KEY_DC
  else if n =? 4 then Some KEY_END else if n =? 5 then Some KEY_PPAGE else if n =? 6 then Some KEY_NPAGE
  else if (11 <=? n) && (n <=? 15) then Some (KEY_F (n - 10))
  else if (17 <=? n) && (n <=? 21) then Some (KEY_F (n - 11))
  else if (23 <=? n) && (n <=? 24) then Some (KEY_F (n - 12))
  else None.
Definition letter_key (d : Z) : option Z :=
  if d =? 65 then Some KEY_UP else if d =? 66 then Some KEY_DOWN else if d =? 67 then Some KEY_RIGHT
  else if d =? 68 then Some KEY_LEFT else if d =? 72 then Some KEY_HOME else if d =? 70 then Some KEY_END
  else if d =? 80 then Some (KEY_F 1) else if d =? 81 then Some (KEY_F 2) else if d =? 83 then Some (KEY_F 4)
  else None.
(** After ESC. *)
Definition get_escape : prog (screen W) got :=
  let* b := cur_byte in
  match b with
  | None => pret Ended
  | Some b =>
      if negb ((b =? 91) || (b =? 79)) then pret (Key ESC)
      else
        let* r := csi_loop fuel [0; 0; 0; 0] 0 in
        match r with
        | None => pret Ended
        | Some (p, d) =>
            if d =? 82 then let* _ := on_lib (cur_resize (nth 1 p 0) (nth 0 p 0)) in pret (Key KEY_RESIZE)
            else
              let k := if d =? 126 then tilde_key (nth 0 p 0) else letter_key d in
              pret (match k with Some k => Key k | None => Again end)
        end
  end.
Definition get_key (decode : bool) : prog (screen W) got :=
  let* c := cur_byte in
  match c with
  | None => pret Ended
  | Some c =>
      if c =? 255 then get_telnet
      else if (c =? ESC) && decode then get_escape
      else pret (Key c)
  end.
Fixpoint wgetch_loop (n : nat) (decode : bool) : prog (screen W) Z :=
  match n with
  | O => diverge
  | S n' =>
      let* r := get_key decode in
      match r with Key k => pret k | Ended => pret ERR | Again => wgetch_loop n' decode end
  end.
Definition wgetch (w : option nat) : prog (screen W) Z :=
  let* c := with_lib id in
  if 0 <=? pushed c then let* _ := on_lib (λ c, c <| pushed := -1 |>) in pret (pushed c)
  else wgetch_loop fuel (match win_at w c with Some v => keypad_on v | None => true end).

Definition getch : prog (screen W) Z := let* c := with_lib id in wgetch (stdscr c).

(** ** Modes, and the terminal this happens to have *)

Definition cur_is_connection : prog (screen W) bool :=
  let* x := ask_w (sys_resolve (str "/dev/console") 0) in
  pret (match x with Some (_, real) => str_has_prefix real (str "/net/tcp/") | None => false end).
Definition cur_rawmode (on : bool) : prog (screen W) () :=
  let* c := with_lib id in
  if telnet c then
    let v := if on then 251 else 252 in
    let* _ := cur_str [255; v; 1; 255; v; 3] in cur_flush
  else pret ().
Definition ttymode (on : Z) : prog (screen W) () :=
  let* c := with_lib id in
  let* _ := ask_w (vfs_ioctl_arg junk (cur_fd c) IOCTL_TTYMODE on) in pret ().
Definition cbreak : prog (screen W) Z := let* _ := ttymode 1 in let* _ := cur_rawmode true in pret OK.
Definition nocbreak : prog (screen W) Z := let* _ := ttymode 0 in let* _ := cur_rawmode false in pret OK.
Definition SHOW_CURSOR : list Z := [ESC; 91; 63; 50; 53; 104].
Definition HIDE_CURSOR : list Z := [ESC; 91; 63; 50; 53; 108].
Definition curs_set (v : Z) : prog (screen W) bool :=
  let* c := with_lib id in
  let on := negb (v =? 0) in
  let* _ := on_lib (λ c, c <| visible := on |>) in
  let* _ := cur_str (if on then SHOW_CURSOR else HIDE_CURSOR) in
  let* _ := cur_flush in
  pret (visible c).
Definition beep : prog (screen W) Z := let* _ := cur_ch 7 in let* _ := cur_flush in pret OK.
Definition CLEAR : list Z := [ESC; 91; 50; 74].
Definition HOME : list Z := [ESC; 91; 72].
Definition forget_cursor (c : curses) : curses := c <| cur_attr := UNKNOWN |> <| py := -1 |> <| px := -1 |>.
Definition initscr : prog (screen W) (option nat) :=
  let* f := ask_w (vfs_open junk (str "/dev/console")) in
  let* _ := on_lib (λ c, c <| cur_fd := f |>) in
  if f <? 0 then pret None
  else
    let* t := cur_is_connection in
    let* _ := on_lib (λ c, start_color (c <| telnet := t |> <| wins := (λ v, v <| inuse := false |>) <$> wins c |>)) in
    let* c := with_lib id in
    let* w := draw (newwin (LINES c) (COLS c) 0 0) in
    let* _ := on_lib (λ c, c <| stdscr := w |>) in
    match w with
    | None => pret None
    | Some i =>
        let* _ := on_lib (λ c, put_win i ((nth i (wins c) zero_window) <| keypad_on := true |>) c) in
        let* _ := on_lib (λ c, curses_touchall (c <| started := true |> <| scr_new := repeat 32 CELLS |>)) in
        let* _ := cur_str CLEAR in
        let* _ := on_lib forget_cursor in
        let* _ := (if t : bool then cur_str [255; 253; 31] else pret ()) in
        let* _ := cur_str ([ESC; 91] ++ str "999;999H" ++ [ESC; 91; 54; 110] ++ HOME) in
        let* _ := cur_flush in
        let* _ := on_lib (λ c, c <| scr_phy := repeat 32 CELLS |> <| cur_attr := A_NORMAL |>) in
        pret (Some i)
    end.
Definition RESET : list Z := [ESC; 91; 48; 109] ++ SHOW_CURSOR ++ CLEAR ++ HOME.
Definition curses_suspend : prog (screen W) () :=
  let* _ := cur_str RESET in
  let* _ := cur_flush in
  on_lib forget_cursor.
Definition curses_resume : prog (screen W) () :=
  let* _ := on_lib curses_touchall in
  let* c := with_lib id in
  let* _ := cur_str (if visible c then SHOW_CURSOR else HIDE_CURSOR) in
  cur_flush.
Definition endwin : prog (screen W) Z :=
  let* c := with_lib id in
  if negb (started c) then pret ERR
  else
    let* _ := cur_str RESET in
    let* _ := cur_flush in
    let* _ := ttymode 0 in
    let* _ := cur_rawmode false in
    let* c := with_lib id in
    let* _ := ask_w (vfs_close junk (cur_fd c)) in
    let* _ := on_lib (λ c, c <| cur_fd := -1 |> <| started := false |>) in
    pret OK.
End io.
