(* ===== verification/Terminal.v ===== *)
(** * Terminals

    What the screen library relies on of the thing it draws on, as an
    interface with laws, and one terminal, byte by byte, that keeps them. *)
From stdpp Require Import base list numbers option.
From S2P Require Import Prelude Mem Req FatName Curses.
Local Open Scope Z_scope.

(** ** What is on the glass *)

(** How a character is drawn; -1 is the terminal's own colour. *)
Record pen := mkPen { p_bold : bool; p_dim : bool; p_under : bool; p_blink : bool; p_rev : bool; p_fg : Z; p_bg : Z }.
Definition plain : pen := mkPen false false false false false (-1) (-1).
(** What an attribute word asks for. *)
Definition pen_of (ps : list (Z * Z)) (a : Z) : pen :=
  let '(fg, bg) := if 0 <? PAIR_NUMBER a then nth (Z.to_nat (PAIR_NUMBER a)) ps (-1, -1) else (-1, -1) in
  mkPen (has_bit a A_BOLD) (has_bit a A_DIM) (has_bit a A_UNDERLINE) (has_bit a A_BLINK) (has_bit a A_REVERSE)
    (if 0 <=? fg then fg else -1) (if 0 <=? bg then bg else -1).
Definition color_ok (f : Z) : bool := f <? 8.
Definition colors_ok (ps : list (Z * Z)) : bool := forallb (λ x, color_ok x.1 && color_ok x.2) ps.
(** A character that fills one cell. *)
Definition printable (c : Z) : bool :=
  (32 <=? c) && negb ((127 <=? c) && (c <? 160)) && negb ((0xd800 <=? c) && (c <? 0xe000)) && (c <? 0x110000).

(** A terminal of a size: its cells, the pen, and the cursor where it is
    certain.  Nothing is said of the bottom right corner, nor of where the
    cursor is after the last column. *)
Class Terminal (T : Type) (rows cols : Z) := {
  t_feed : T → list Z → T;
  t_cell : T → Z → Z → Z * pen;
  t_pen : T → pen;
  t_cursor : T → option (Z * Z);
  t_ready : T → Prop;
  feed_app : ∀ t a b, t_feed t (a ++ b) = t_feed (t_feed t a) b;
  feed_cup : ∀ t y x, t_ready t → 0 ≤ y < rows → 0 ≤ x < cols →
    let t' := t_feed t (cup y x) in
    t_ready t' ∧ t_cursor t' = Some (y, x) ∧ t_pen t' = t_pen t ∧ ∀ v u, t_cell t' v u = t_cell t v u;
  feed_sgr : ∀ t ps a, t_ready t → 0 ≤ a < 2 ^ 32 → colors_ok ps = true →
    let t' := t_feed t (sgr ps a) in
    t_ready t' ∧ t_cursor t' = t_cursor t ∧ t_pen t' = pen_of ps a ∧ ∀ v u, t_cell t' v u = t_cell t v u;
  feed_glyph : ∀ t c y x, t_ready t → printable c = true → t_cursor t = Some (y, x) →
    0 ≤ y < rows → 0 ≤ x < cols → ¬ (y = rows - 1 ∧ x = cols - 1) →
    let t' := t_feed t (utf8 c) in
    t_ready t' ∧ (x + 1 < cols → t_cursor t' = Some (y, x + 1)) ∧ t_pen t' = t_pen t ∧
    t_cell t' y x = (c, t_pen t) ∧ ∀ v u, (v, u) ≠ (y, x) → t_cell t' v u = t_cell t v u }.

(** ** One terminal

    Of a size, with the escape sequences the library sends; a character in
    the last column leaves the wrap pending. *)
Inductive vt_state :=
  | Ground | Esc_ | Csi (private : bool) (params : list Z) (last : Z) | Tail (more : nat) (v : Z) | Telnet (more : nat).
Record vt := mkVt { v_cell : Z → Z → Z * pen; v_y : Z; v_x : Z; v_pending : bool; v_pen : pen; v_state : vt_state }.
Definition sgr_param (q : pen) (n : Z) : pen :=
  let '(mkPen b d u k r f g) := q in
  if n =? 0 then plain
  else if n =? 1 then mkPen true d u k r f g
  else if n =? 2 then mkPen b true u k r f g
  else if n =? 4 then mkPen b d true k r f g
  else if n =? 5 then mkPen b d u true r f g
  else if n =? 7 then mkPen b d u k true f g
  else if (30 <=? n) && (n <=? 37) then mkPen b d u k r (n - 30) g
  else if (40 <=? n) && (n <=? 47) then mkPen b d u k r f (n - 40)
  else q.

Section vt.
Context (rows cols : Z).

Definition blank_cell : Z * pen := (32, plain).
Definition vt_clear : vt := mkVt (λ _ _, blank_cell) 0 0 false plain Ground.
Definition in_state (t : vt) (x : vt_state) : vt := mkVt (v_cell t) (v_y t) (v_x t) (v_pending t) (v_pen t) x.
Definition vt_newline (t : vt) : vt :=
  if v_y t =? rows - 1
  then mkVt (λ y x, if y =? rows - 1 then blank_cell else v_cell t (y + 1) x) (v_y t) (v_x t) false (v_pen t) (v_state t)
  else mkVt (v_cell t) (v_y t + 1) (v_x t) false (v_pen t) (v_state t).
Definition vt_put (t : vt) (c : Z) : vt :=
  let t := if v_pending t then (let t := vt_newline t in mkVt (v_cell t) (v_y t) 0 false (v_pen t) (v_state t)) else t in
  let cell y x := if (y =? v_y t) && (x =? v_x t) then (c, v_pen t) else v_cell t y x in
  if v_x t =? cols - 1 then mkVt cell (v_y t) (v_x t) true (v_pen t) Ground
  else mkVt cell (v_y t) (v_x t + 1) false (v_pen t) Ground.
Definition within (lo hi v : Z) : Z := Z.max lo (Z.min hi v).
Definition vt_csi (t : vt) (private : bool) (ps : list Z) (b : Z) : vt :=
  let t := in_state t Ground in
  if private then t
  else if b =? 72 then
    mkVt (v_cell t) (within 0 (rows - 1) (nth 0 ps 1 - 1)) (within 0 (cols - 1) (nth 1 ps 1 - 1)) false (v_pen t) Ground
  else if b =? 109 then mkVt (v_cell t) (v_y t) (v_x t) (v_pending t) (foldl sgr_param (v_pen t) ps) Ground
  else if (b =? 74) && (nth 0 ps 0 =? 2) then mkVt (λ _ _, (32, v_pen t)) (v_y t) (v_x t) (v_pending t) (v_pen t) Ground
  else t.
Definition vt_byte (t : vt) (b : Z) : vt :=
  match v_state t with
  | Ground =>
      if b =? 27 then in_state t Esc_
      else if b =? 255 then in_state t (Telnet 2)
      else if b =? 13 then mkVt (v_cell t) (v_y t) 0 false (v_pen t) Ground
      else if b =? 10 then vt_newline t
      else if b <? 32 then t
      else if b <? 0x80 then vt_put t b
      else if b <? 0xc0 then t
      else if b <? 0xe0 then in_state t (Tail 0 (b - 0xc0))
      else if b <? 0xf0 then in_state t (Tail 1 (b - 0xe0))
      else in_state t (Tail 2 (b - 0xf0))
  | Esc_ => in_state t (if b =? 91 then Csi false [] 0 else Ground)
  | Csi pr ps n =>
      if (48 <=? b) && (b <=? 57) then in_state t (Csi pr ps (n * 10 + (b - 48)))
      else if b =? 59 then in_state t (Csi pr (ps ++ [n]) 0)
      else if b =? 63 then in_state t (Csi true ps n)
      else vt_csi t pr (ps ++ [n]) b
  | Tail k v =>
      let v := v * 64 + b mod 64 in
      match k with O => vt_put (in_state t Ground) v | S k' => in_state t (Tail k' v) end
  | Telnet k => in_state t (match k with S (S k') => Telnet (S k') | _ => Ground end)
  end.
Definition vt_feed (t : vt) (d : list Z) : vt := foldl vt_byte t d.
Definition vt_cursor (t : vt) : option (Z * Z) := if v_pending t then None else Some (v_y t, v_x t).

Lemma vt_digits t pr ps room v :
  v_state t = Csi pr ps 0 → 0 ≤ v < 10 ^ Z.of_nat room →
  vt_feed t (rev (utoa_tmp room v)) = in_state t (Csi pr ps v).
Proof.
  intros Ht. revert v. induction room as [|room IH]; intros v Hv.
  { change (10 ^ Z.of_nat 0) with 1 in Hv. assert (v = 0) as -> by lia. destruct t; cbn in *. by subst. }
  cbn [utoa_tmp]. destruct (Z.eqb_spec v 0) as [->|Hne]; [destruct t; cbn in *; by subst|].
  rewrite Nat2Z.inj_succ, Z.pow_succ_r in Hv by lia. cbn [rev]. unfold vt_feed in *. rewrite foldl_app, IH by ldiv.
  cbn [foldl]. unfold vt_byte. cbn [v_state in_state]. replace ((48 <=? 48 + v mod 10) && (48 + v mod 10 <=? 57)) with true
    by (symmetry; apply andb_true_intro; split; apply Z.leb_le; ldiv).
  unfold in_state. cbn. do 2 f_equal. ldiv.
Qed.
Lemma vt_num t pr ps v :
  v_state t = Csi pr ps 0 → 0 ≤ v < 2 ^ 31 → vt_feed t (num v) = in_state t (Csi pr ps v).
Proof.
  intros Ht Hv. unfold num, uutoa. destruct (Z.leb_spec v 0).
  - assert (v = 0) as -> by lia. cbn. unfold vt_byte. by rewrite Ht.
  - rewrite (proj2 (Z.eqb_neq v 0)) by lia. apply vt_digits; [done|]. change (10 ^ Z.of_nat 24) with (10 ^ 24). lia.
Qed.
Lemma vt_feed_app t a b : vt_feed t (a ++ b) = vt_feed (vt_feed t a) b.
Proof. apply foldl_app. Qed.
Lemma vt_feed_cons t a b : vt_feed t (a :: b) = vt_feed (vt_byte t a) b.
Proof. done. Qed.

Hypothesis Hrows : 0 < rows < 2 ^ 30.
Hypothesis Hcols : 0 < cols < 2 ^ 30.
Definition vt_ready (t : vt) : Prop := v_state t = Ground.

Lemma vt_intro t : vt_ready t → vt_feed t [ESC; 91] = in_state t (Csi false [] 0).
Proof. intros Hr. destruct t; cbn in *. unfold vt_ready in Hr. cbn in Hr. by subst. Qed.
Lemma vt_cup t y x :
  vt_ready t → 0 ≤ y < rows → 0 ≤ x < cols → vt_feed t (cup y x) = mkVt (v_cell t) y x false (v_pen t) Ground.
Proof.
  intros Hr Hy Hx. unfold cup. rewrite !vt_feed_app, (vt_intro t Hr), (vt_num _ false [] (y + 1)) by (done || lia).
  change (vt_feed (in_state _ _) [59]) with (in_state t (Csi false [y + 1] 0)).
  rewrite (vt_num _ false [y + 1] (x + 1)) by (done || lia). cbn. unfold vt_csi, within. cbn. f_equal; lia.
Qed.

(** The parameters of the sequence for an attribute word. *)
Definition sgr_codes (ps : list (Z * Z)) (a : Z) : list Z :=
  (if has_bit a A_BOLD then [1] else []) ++ (if has_bit a A_DIM then [2] else []) ++
  (if has_bit a A_UNDERLINE then [4] else []) ++ (if has_bit a A_BLINK then [5] else []) ++
  (if has_bit a A_REVERSE then [7] else []) ++
  (if 0 <? PAIR_NUMBER a then
     let '(fg, bg) := nth (Z.to_nat (PAIR_NUMBER a)) ps (-1, -1) in
     (if 0 <=? fg then [30 + fg] else []) ++ (if 0 <=? bg then [40 + bg] else [])
   else []).
Definition code_bytes (k : Z) : list Z := if k <? 10 then [59; 48 + k] else [59; 48 + k / 10; 48 + k mod 10].
Lemma num_digit v : 0 ≤ v < 10 → num v = [48 + v].
Proof.
  intros Hv. unfold num, uutoa. destruct (Z.leb_spec v 0); [by assert (v = 0) as -> by lia|].
  rewrite (proj2 (Z.eqb_neq v 0)) by lia. cbn [utoa_tmp]. rewrite (proj2 (Z.eqb_neq v 0)), Z.div_small, Z.mod_small by lia. done.
Qed.
Lemma pair_colors ps p : colors_ok ps = true → (nth p ps (-1, -1)).1 < 8 ∧ (nth p ps (-1, -1)).2 < 8.
Proof.
  intros H. destruct (nth_in_or_default p ps (-1, -1)) as [Hin| ->]; [|cbn; lia].
  unfold colors_ok in H. rewrite forallb_forall in H. specialize (H _ Hin). apply andb_prop in H as [H1 H2].
  unfold color_ok in *. lia.
Qed.
Lemma color_bytes k f : (k = 3 ∨ k = 4) → 0 ≤ f < 8 → [59; 48 + k] ++ num f = code_bytes (10 * k + f).
Proof.
  intros Hk Hf. rewrite num_digit by lia. unfold code_bytes. rewrite (proj2 (Z.ltb_ge _ _)) by lia.
  cbn. repeat f_equal; ldiv.
Qed.
Lemma sgr_as_codes ps a :
  colors_ok ps = true → sgr ps a = [27; 91; 48] ++ concat (code_bytes <$> sgr_codes ps a) ++ [109].
Proof.
  intros Hp. unfold sgr, sgr_codes. destruct (pair_colors ps (Z.to_nat (PAIR_NUMBER a)) Hp) as [Hf Hb].
  destruct (nth _ ps _) as [fg bg]. cbn in Hf, Hb. rewrite !fmap_app, !concat_app, <- !app_assoc. f_equal.
  do 5 (f_equal; [by destruct (has_bit a _)|]). f_equal. destruct (0 <? PAIR_NUMBER a); [|done].
  rewrite fmap_app, concat_app. f_equal.
  - destruct (Z.leb_spec 0 fg); [|done]. cbn [fmap list_fmap concat]. rewrite app_nil_r. apply (color_bytes 3); lia.
  - destruct (Z.leb_spec 0 bg); [|done]. cbn [fmap list_fmap concat]. rewrite app_nil_r. apply (color_bytes 4); lia.
Qed.
Lemma vt_code t ps n k : v_state t = Csi false ps n → 0 ≤ k < 100 → vt_feed t (code_bytes k) = in_state t (Csi false (ps ++ [n]) k).
Proof.
  intros Ht Hk. unfold code_bytes, vt_feed, vt_byte. destruct (Z.ltb_spec k 10) as [Hlt|Hge]; cbn [foldl]; rewrite Ht; cbn.
  - replace ((48 <=? 48 + k) && (48 + k <=? 57)) with true by lia. unfold in_state. cbn. do 2 f_equal. lia.
  - replace ((48 <=? 48 + k / 10) && (48 + k / 10 <=? 57)) with true by (symmetry; apply andb_true_intro; split; apply Z.leb_le; ldiv).
    cbn. replace ((48 <=? 48 + k mod 10) && (48 + k mod 10 <=? 57)) with true by (symmetry; apply andb_true_intro; split; apply Z.leb_le; ldiv).
    unfold in_state. cbn. do 2 f_equal. ldiv.
Qed.
Lemma vt_codes t ps n l :
  v_state t = Csi false ps n → Forall (λ k, 0 ≤ k < 100) l →
  ∃ ps' n', vt_feed t (concat (code_bytes <$> l)) = in_state t (Csi false ps' n') ∧ ps' ++ [n'] = ps ++ [n] ++ l.
Proof.
  intros Ht Hl. revert t ps n Ht. induction Hl as [|k l Hk Hl IH]; intros t ps n Ht.
  { exists ps, n. split; [destruct t; cbn in *; by subst|done]. }
  cbn [fmap list_fmap concat]. rewrite vt_feed_app, (vt_code _ ps n k Ht Hk).
  destruct (IH (in_state t (Csi false (ps ++ [n]) k)) (ps ++ [n]) k eq_refl) as (ps' & n' & H1 & H2).
  exists ps', n'. rewrite H1, H2, <- app_assoc. done.
Qed.
Lemma sgr_codes_small ps a : colors_ok ps = true → Forall (λ k, 0 ≤ k < 100) (sgr_codes ps a).
Proof.
  intros Hp. unfold sgr_codes. destruct (pair_colors ps (Z.to_nat (PAIR_NUMBER a)) Hp) as [Hf Hb].
  destruct (nth _ ps _) as [fg bg]. cbn in Hf, Hb. rewrite !list.Forall_app. split_and!.
  1-5: destruct (has_bit a _); [apply list.Forall_singleton; lia|done].
  destruct (0 <? PAIR_NUMBER a); [|done]. rewrite list.Forall_app.
  destruct (Z.leb_spec 0 fg), (Z.leb_spec 0 bg); split; rewrite ?list.Forall_singleton; (done || lia).
Qed.
Lemma sgr_fg b d u k r f g n : 0 ≤ n < 8 → sgr_param (mkPen b d u k r f g) (30 + n) = mkPen b d u k r n g.
Proof.
  intros Hn. unfold sgr_param. rewrite !(proj2 (Z.eqb_neq _ _)) by lia. replace ((30 <=? 30 + n) && (30 + n <=? 37)) with true by lia. f_equal. lia.
Qed.
Lemma sgr_bg b d u k r f g n : 0 ≤ n < 8 → sgr_param (mkPen b d u k r f g) (40 + n) = mkPen b d u k r f n.
Proof.
  intros Hn. unfold sgr_param. rewrite !(proj2 (Z.eqb_neq _ _)) by lia.
  replace ((30 <=? 40 + n) && (40 + n <=? 37)) with false by lia. replace ((40 <=? 40 + n) && (40 + n <=? 47)) with true by lia. f_equal. lia.
Qed.
Lemma sgr_codes_look ps a q : colors_ok ps = true → foldl sgr_param q (0 :: sgr_codes ps a) = pen_of ps a.
Proof.
  intros Hp. cbn [foldl]. assert (sgr_param q 0 = plain) as -> by (by destruct q). unfold sgr_codes, pen_of.
  destruct (pair_colors ps (Z.to_nat (PAIR_NUMBER a)) Hp) as [Hf Hb]. destruct (nth _ ps _) as [fg bg]. cbn in Hf, Hb.
  rewrite !foldl_app. unfold plain.
  destruct (has_bit a A_BOLD), (has_bit a A_DIM), (has_bit a A_UNDERLINE), (has_bit a A_BLINK), (has_bit a A_REVERSE);
    cbn [foldl]; cbn -[sgr_codes]; (destruct (0 <? PAIR_NUMBER a); [|done]); rewrite foldl_app;
    destruct (Z.leb_spec 0 fg), (Z.leb_spec 0 bg); cbn [foldl]; rewrite ?sgr_fg, ?sgr_bg by lia; done.
Qed.
Lemma vt_sgr t ps a :
  vt_ready t → colors_ok ps = true →
  vt_feed t (sgr ps a) = mkVt (v_cell t) (v_y t) (v_x t) (v_pending t) (pen_of ps a) Ground.
Proof.
  intros Hr Hp. unfold vt_ready in Hr. rewrite sgr_as_codes by done. rewrite !vt_feed_app.
  assert (vt_feed t [27; 91; 48] = in_state t (Csi false [] 0)) as ->.
  { change [27; 91; 48] with ([ESC; 91] ++ [48]). by rewrite vt_feed_app, vt_intro. }
  destruct (vt_codes (in_state t (Csi false [] 0)) [] 0 (sgr_codes ps a) eq_refl (sgr_codes_small ps a Hp)) as (ps' & n' & H1 & H2).
  rewrite H1. cbn. unfold vt_csi. cbn. rewrite H2. cbn [app]. by rewrite sgr_codes_look.
Qed.

Lemma utf8_reference c : 0 ≤ c < 0x110000 → utf8 c = utf8_of c.
Proof.
  intros Hc. rewrite <- utf8_emit_of by done. unfold utf8, utf8_emit.
  destruct (Z.ltb_spec c 0x80); [by rewrite u8_small by lia|done].
Qed.
Lemma vt_tail t k v x : vt_byte (in_state t (Tail k v)) (0x80 + x mod 64) =
  match k with O => vt_put (in_state t Ground) (v * 64 + x mod 64) | S k' => in_state t (Tail k' (v * 64 + x mod 64)) end.
Proof.
  unfold vt_byte. cbn [v_state in_state]. replace ((128 + x mod 64) mod 64) with (x mod 64) by ldiv. by destruct k.
Qed.
Lemma vt_lead t n b : vt_ready t → 0xc0 ≤ b < 0xf8 →
  n = (if b <? 0xe0 then 0%nat else if b <? 0xf0 then 1%nat else 2%nat) →
  vt_byte t b = in_state t (Tail n (b - (if b <? 0xe0 then 0xc0 else if b <? 0xf0 then 0xe0 else 0xf0))).
Proof.
  intros Hr Hb ->. unfold vt_byte. rewrite Hr. rewrite !(proj2 (Z.eqb_neq b _)) by lia.
  rewrite !(proj2 (Z.ltb_ge b _)) by lia. by destruct (b <? 0xe0), (b <? 0xf0).
Qed.
Lemma vt_glyph t c : vt_ready t → printable c = true → vt_feed t (utf8 c) = vt_put t c.
Proof.
  intros Hr Hc. unfold printable in Hc. assert (0 ≤ c < 0x110000 ∧ 32 ≤ c) as [Hc1 Hc2] by lia.
  assert (in_state t Ground = t) as HG by (destruct t; unfold vt_ready in Hr; cbn in *; by subst).
  rewrite utf8_reference by done. unfold utf8_of. destruct (Z.ltb_spec c 0x80).
  { cbn. unfold vt_byte. rewrite Hr. rewrite !(proj2 (Z.eqb_neq c _)), (proj2 (Z.ltb_ge c 32)), (proj2 (Z.ltb_lt c 128)) by lia. done. }
  destruct (Z.ltb_spec c 0x800).
  { cbn [vt_feed foldl]. rewrite (vt_lead t 0) by (done || ldiv || (rewrite (proj2 (Z.ltb_lt _ _)) by ldiv; done)).
    rewrite (proj2 (Z.ltb_lt _ 0xe0)), vt_tail, HG by ldiv. f_equal. ldiv. }
  destruct (Z.ltb_spec c 0x10000).
  { cbn [vt_feed foldl]. assert (0xe0 ≤ 0xe0 + c / 4096 < 0xf0) as Hl by ldiv. set (b := 0xe0 + c / 4096) in *.
    rewrite (vt_lead t 1) by (done || lia || (rewrite (proj2 (Z.ltb_ge _ _)), (proj2 (Z.ltb_lt _ _)) by lia; done)).
    rewrite (proj2 (Z.ltb_ge _ 0xe0)), (proj2 (Z.ltb_lt _ 0xf0)), !vt_tail, HG by lia. f_equal. unfold b. ldiv. }
  cbn [vt_feed foldl]. assert (0xf0 ≤ 0xf0 + c / 262144 < 0xf8) as Hl by ldiv. set (b := 0xf0 + c / 262144) in *.
  rewrite (vt_lead t 2) by (done || lia || (rewrite !(proj2 (Z.ltb_ge _ _)) by lia; done)).
  rewrite (proj2 (Z.ltb_ge _ 0xe0)), (proj2 (Z.ltb_ge _ 0xf0)), !vt_tail, HG by lia. f_equal. unfold b. ldiv.
Qed.
#[export] Program Instance vt_terminal : Terminal vt rows cols := {
  t_feed := vt_feed; t_cell := v_cell; t_pen := v_pen; t_cursor := vt_cursor; t_ready := vt_ready }.
Next Obligation. intros. apply vt_feed_app. Qed.
Next Obligation. intros t y x Hr Hy Hx. cbv zeta. by rewrite vt_cup. Qed.
Next Obligation. intros t ps a Hr Ha Hp. cbv zeta. by rewrite vt_sgr. Qed.
Next Obligation.
  intros t c y x Hr Hc Hcur Hy Hx Hcorner. cbv zeta. rewrite vt_glyph by done. unfold vt_cursor in *. destruct (v_pending t) eqn:Ep; [done|].
  injection Hcur as Ey Ex. unfold vt_put. rewrite Ep. destruct (Z.eqb_spec (v_x t) (cols - 1)) as [E|E]; cbn; split_and!; try done.
  all: try (intros; repeat f_equal; lia).
  1,3: by rewrite Ey, Ex, !Z.eqb_refl.
  all: intros v u Hne; destruct (Z.eqb_spec v (v_y t)), (Z.eqb_spec u (v_x t)); cbn; try done; congruence.
Qed.
End vt.
