(* ===== verification/CursesUpdate.v ===== *)
(** * What the terminal shows (doupdate of src/prog/curses.h)

    The update sends the differences, and the terminal then shows the virtual
    screen, whatever terminal keeps the laws of Terminal.v. *)
From stdpp Require Import base list numbers option.
From S2P Require Import Prelude Mem Req FatName Client Say Curses Terminal.
Local Open Scope Z_scope.

(** ** Bytes reach the console in order *)

(** Everything said so far: what the console took and what waits. *)
Definition sent (s : screen console) : list Z := shown (outside s) ++ ob (lib s).
(** The variables the update changes, set aside. *)
Definition still (c : curses) : curses :=
  c <| scr_phy := [] |> <| cur_attr := 0 |> <| py := 0 |> <| px := 0 |> <| ob := [] |>.

Section update.
Context (junk : vfs_req) (fuel : nat).

(** The console takes what it is given sooner or later. *)
Definition patient (s : screen console) : Prop :=
  Z.of_nat (length (ob (lib s))) ≤ OB_MAX ∧ Forall (λ k, 0 ≤ k) (takes (outside s)) ∧
  Z.of_nat (length (takes (outside s))) + OB_MAX ≤ Z.of_nat fuel.

Lemma write_some f d s :
  d ≠ [] → Forall (λ k, 0 ≤ k) (takes s) →
  ∃ k l, vfs_write junk f d s = Some (k, mkConsole (shown s ++ take (Z.to_nat k) d) l (serial s)) ∧ 0 ≤ k ∧
    (length l + (length d - Z.to_nat k) < length (takes s) + length d)%nat ∧ (length l ≤ length (takes s))%nat ∧ Forall (λ k, 0 ≤ k) l.
Proof.
  intros Hd Hn. assert (0 < length d)%nat as H0 by (destruct d; [done|cbn; lia]).
  set (e := take (Z.to_nat VFS_DATA_MAX) d).
  assert (length e = Nat.min (Z.to_nat VFS_DATA_MAX) (length d)) as He by apply length_take.
  assert (0 < VFS_DATA_MAX) as Hm by done.
  destruct (write_console junk f e s) as (k & l & Hw & Hk & Hl & Hl' & Hg); [lia|lia|]. destruct (Hg Hn) as [Hk0 Hl0].
  exists k, l. split_and!; [|done|lia|lia|done].
  assert (vfs_write junk f d = vfs_write junk f e) as ->. { unfold vfs_write, e. by rewrite take_take, Nat.min_id. }
  rewrite Hw. unfold e. rewrite take_take. repeat f_equal. lia.
Qed.
Lemma flush_loop_ok n f d s :
  Forall (λ k, 0 ≤ k) (takes s) → (length (takes s) + length d ≤ n)%nat →
  wp (flush_loop junk n f d) (λ _ s', shown s' = shown s ++ d ∧ serial s' = serial s ∧
    Forall (λ k, 0 ≤ k) (takes s') ∧ (length (takes s') ≤ length (takes s))%nat) s.
Proof.
  revert d s. induction n as [|n IH]; intros d s Hs Hn; cbn [flush_loop]; destruct (Nat.eqb_spec (length d) 0) as [E|E].
  1,3: apply nil_length_inv in E as ->; apply wp_ret; by rewrite app_nil_r.
  { lia. }
  destruct (write_some f d s) as (k & l & Hw & Hk & Hl & Hl' & Hg); [by intros ->|done|].
  apply wp_bind. eapply run_wp; [done|]. rewrite (proj2 (Z.ltb_ge k 0)) by done.
  set (s1 := mkConsole (shown s ++ take (Z.to_nat k) d) l (serial s)).
  assert (∀ r, Z.to_nat k = 0%nat ∧ r = d ∨ r = drop (Z.to_nat k) d → wp (flush_loop junk n f r) (λ _ s', shown s' = shown s ++ d ∧ serial s' = serial s ∧
    Forall (λ k, 0 ≤ k) (takes s') ∧ (length (takes s') ≤ length (takes s))%nat) s1) as Hnext.
  { intros r Hr. assert (r = drop (Z.to_nat k) d) as -> by (destruct Hr as [[-> ->]|]; done).
    eapply wp_mono; [apply (IH _ s1); [done|cbn; rewrite length_drop; lia]|]. intros _ s' (H1 & H2 & H3 & H4). cbn in H1, H2, H4.
    rewrite H1, H2, <- app_assoc, take_drop. split_and!; [done|done|done|lia]. }
  destruct (Z.eqb_spec k 0) as [->|Hk0]; [apply wp_bind, wp_ret|]; apply Hnext; [by left|by right].
Qed.
Definition only_ob (s s' : screen console) : Prop := lib s' = (lib s) <| ob := ob (lib s') |> ∧ serial (outside s') = serial (outside s).
Lemma only_ob_trans a b c : only_ob a b → only_ob b c → only_ob a c.
Proof. intros [H1 H2] [H3 H4]. split; [rewrite H3; cbn; rewrite H1; done|congruence]. Qed.
Lemma cur_flush_ok s :
  patient s → wp (cur_flush junk fuel) (λ _ s', patient s' ∧ only_ob s s' ∧ sent s' = sent s ∧ ob (lib s') = []) s.
Proof.
  intros (H1 & H2 & H3). unfold cur_flush. apply wp_bind, wp_gets, wp_bind. unfold wp at 1, ask_w, id.
  destruct (wp_run _ _ _ (flush_loop_ok fuel (cur_fd (lib s)) (ob (lib s)) (outside s) H2 ltac:(lia))) as ([] & w & -> & F1 & F2 & F3 & F4).
  cbn. unfold wp, patient, only_ob, sent. cbn. rewrite F1, F2, app_nil_r. split_and!; [unfold OB_MAX; lia|done|lia|done|done|done|done].
Qed.
Lemma cur_ch_ok b s :
  patient s → wp (cur_ch junk fuel b) (λ _ s', patient s' ∧ only_ob s s' ∧ sent s' = sent s ++ [b]) s.
Proof.
  intros Hp. unfold cur_ch. apply wp_bind, wp_gets, wp_bind.
  apply wp_mono with (Q := λ _ s', patient s' ∧ only_ob s s' ∧ sent s' = sent s ∧ Z.of_nat (length (ob (lib s'))) < OB_MAX).
  { unfold id. destruct (Z.eqb_spec (Z.of_nat (length (ob (lib s)))) OB_MAX).
    - eapply wp_mono; [by apply cur_flush_ok|]. intros _ s' (A & B & C & D). rewrite D. split_and!; [done..|]. done.
    - apply wp_ret. split_and!; [done|split; [by destruct (lib s)|done]|done|]. destruct Hp as [? _]. lia. }
  intros _ s' ((A & A2 & A3) & B & C & D). unfold wp. cbn. unfold patient, sent in *. cbn. rewrite length_app. cbn.
  split_and!; [lia|done|lia| |by rewrite app_assoc, C]. destruct B as [B1 B2]. split; [|done]. cbn. by rewrite B1.
Qed.
Lemma cur_str_ok t s :
  patient s → wp (cur_str junk fuel t) (λ _ s', patient s' ∧ only_ob s s' ∧ sent s' = sent s ++ t) s.
Proof.
  revert s. induction t as [|b t IH]; intros s Hp; cbn [cur_str].
  { apply wp_ret. rewrite app_nil_r. split_and!; [done|split; [by destruct (lib s)|done]|done]. }
  apply wp_bind. eapply wp_mono; [by apply cur_ch_ok|]. intros _ s1 (A & B & C).
  eapply wp_mono; [by apply IH|]. intros _ s2 (D & E & F). split_and!; [done|by eapply only_ob_trans|]. by rewrite F, C, <- app_assoc.
Qed.

(** ** What the library believes about the terminal *)

Context {T : Type} {rows cols : Z} `{HT : !Terminal T rows cols} (t0 : T).

Definition in_range (y x : Z) : Prop := 0 ≤ y < rows ∧ 0 ≤ x < cols.
Definition corner (y x : Z) : Prop := y = rows - 1 ∧ x = cols - 1.
(** What a cell of the virtual screen looks like. *)
Definition seen (c : curses) (v : Z) : Z * pen := (Z.land v A_CHARTEXT, pen_of (pairs c) (Z.land v A_ATTRIBUTES)).
Definition term (s : screen console) : T := t_feed t0 (sent s).
(** A virtual screen that can be shown. *)
Record drawable (c : curses) : Prop := {
  d_lines : LINES c = rows;
  d_cols : COLS c = cols;
  d_new : length (scr_new c) = CELLS;
  d_pairs : colors_ok (pairs c) = true;
  d_cells : ∀ y x, in_range y x → 0 ≤ nw_at c y x < 2 ^ 32 ∧ printable (Z.land (nw_at c y x) A_CHARTEXT) = true;
  d_cursor : visible c = true → in_range (wy c) (wx c) }.
(** The pen and the cells the library believes are what the terminal has;
    [UNKNOWN] is believing nothing. *)
Record believed (c : curses) (t : T) : Prop := {
  b_ready : t_ready t;
  b_phy : length (scr_phy c) = CELLS;
  b_pen : cur_attr c ≠ UNKNOWN → t_pen t = pen_of (pairs c) (cur_attr c);
  b_cell : ∀ y x, in_range y x → ¬ corner y x → ph_at c y x ≠ UNKNOWN → t_cell t y x = seen c (ph_at c y x) }.
(** And so is the place of the cursor. *)
Definition placed (c : curses) (t : T) : Prop := 0 ≤ py c → t_cursor t = Some (py c, px c).

Hypothesis rows_ok : 0 < rows ≤ MAXLINES.
Hypothesis cols_ok : 0 < cols ≤ MAXCOLS.

(** Everything the update keeps. *)
Record working (c0 : curses) (s : screen console) : Prop := {
  w_still : still (lib s) = still c0;
  w_patient : patient s;
  w_believed : believed (lib s) (term s) }.

Lemma still_proj {A} (f : curses → A) c c' : (∀ d, f (still d) = f d) → still c = still c' → f c = f c'.
Proof. intros Hf E. by rewrite <- (Hf c), E, Hf. Qed.
Lemma still_nw c c' y x : still c = still c' → nw_at c y x = nw_at c' y x.
Proof. intros E. unfold nw_at. by rewrite (still_proj scr_new c c'). Qed.
Lemma sent_term s s' d : sent s' = sent s ++ d → term s' = t_feed (term s) d.
Proof. unfold term. intros ->. apply feed_app. Qed.
Lemma only_ob_still s s' : only_ob s s' → still (lib s') = still (lib s).
Proof. intros [-> _]. done. Qed.
Lemma cell_no_inj y x v u : in_range y x → in_range v u → cell_no y x = cell_no v u → y = v ∧ x = u.
Proof. unfold in_range, cell_no, MAXCOLS, MAXLINES in *. intros. lia. Qed.
Lemma cell_no_lt y x : in_range y x → (cell_no y x < CELLS)%nat.
Proof. unfold in_range, cell_no, CELLS, MAXLINES, MAXCOLS in *. intros. nia. Qed.

Lemma goto_ok c0 s y x :
  working c0 s → placed (lib s) (term s) → in_range y x →
  wp (cur_goto junk fuel y x) (λ _ s', working c0 s' ∧ t_cursor (term s') = Some (y, x) ∧ py (lib s') = y ∧ px (lib s') = x ∧
    scr_phy (lib s') = scr_phy (lib s)) s.
Proof.
  intros [Ws Wp Wb] Hpl [Hy Hx]. unfold cur_goto. apply wp_bind, wp_gets. unfold id.
  destruct ((py (lib s) =? y) && (px (lib s) =? x)) eqn:E.
  { apply andb_prop in E as [E1%Z.eqb_eq E2%Z.eqb_eq]. apply wp_ret. split_and!; [done| |done|done|done].
    rewrite Hpl by lia. by rewrite E1, E2. }
  apply wp_bind. eapply wp_mono; [by apply cur_str_ok|]. intros _ s1 (A & B & C). pose proof (sent_term _ _ _ C) as HC.
  destruct Wb as [B1 B2 B3 B4]. destruct (feed_cup (term s) y x B1 Hy Hx) as (D1 & D2 & D3 & D4). cbv zeta in *. rewrite <- HC in D1, D2, D3, D4.
  unfold wp. cbn. pose proof (only_ob_still _ _ B) as St. destruct B as [B _]. split_and!; [|done|done|done|by rewrite B].
  split; cbn.
  - transitivity (still (lib s1)); [done|by rewrite St].
  - done.
  - change (term _) with (term s1). split; cbn; [done|by rewrite B|rewrite B, D3; done|]. intros v u Hr Hc. unfold ph_at, seen in *. cbn. rewrite B. cbn.
    intros Hu. rewrite D4. by apply B4.
Qed.
Lemma land_small_attr v : 0 ≤ v < 2 ^ 32 → Z.land v A_ATTRIBUTES ≠ UNKNOWN ∧ 0 ≤ Z.land v A_ATTRIBUTES < 2 ^ 32.
Proof.
  intros Hv. split.
  - intros E. apply (f_equal (λ z, Z.testbit z 0)) in E. rewrite Z.land_spec in E. change (Z.testbit A_ATTRIBUTES 0) with false in E.
    rewrite andb_false_r in E. done.
  - assert (Z.land v A_ATTRIBUTES = Z.land v A_ATTRIBUTES mod 2 ^ 32) as ->; [|apply Z.mod_pos_bound; lia].
    rewrite <- Z.land_ones, <- Z.land_assoc by lia. done.
Qed.
Lemma setattr_ok c0 s v :
  working c0 s → 0 ≤ v < 2 ^ 32 → colors_ok (pairs (lib s)) = true →
  wp (cur_setattr junk fuel v) (λ _ s', working c0 s' ∧ t_cursor (term s') = t_cursor (term s) ∧ cur_attr (lib s') = Z.land v A_ATTRIBUTES ∧
    py (lib s') = py (lib s) ∧ px (lib s') = px (lib s) ∧ scr_phy (lib s') = scr_phy (lib s)) s.
Proof.
  intros [Ws Wp Wb] Hv Hc. unfold cur_setattr. apply wp_bind, wp_gets. unfold id.
  destruct (Z.eqb_spec (Z.land v A_ATTRIBUTES) (cur_attr (lib s))) as [E|E]; [apply wp_ret; split_and!; done|].
  apply wp_bind. set (s0 := mkScreen ((lib s) <| cur_attr := Z.land v A_ATTRIBUTES |>) (outside s)).
  apply run_wp with (a := ()) (s' := s0); [done|].
  eapply wp_mono; [by apply (cur_str_ok _ s0)|]. intros _ s1 (A & B & C). change (sent s0) with (sent s) in C. pose proof (sent_term _ _ _ C) as HC.
  destruct (land_small_attr v Hv) as [L1 L2].
  destruct Wb as [B1 B2 B3 B4]. destruct (feed_sgr (term s) (pairs (lib s)) _ B1 L2 Hc) as (D1 & D2 & D3 & D4). cbv zeta in *. rewrite <- HC in D1, D2, D3, D4.
  pose proof (only_ob_still _ _ B) as St. destruct B as [B _]. cbn in B. split_and!; [|done|by rewrite B|by rewrite B|by rewrite B|by rewrite B].
  split; [rewrite St, <- Ws; done|done|]. split; [done|by rewrite B|rewrite B; cbn; intros; done|].
  intros y x Hr Hcn. unfold ph_at, seen in *. rewrite B. cbn. intros Hu. rewrite D4. by apply B4.
Qed.

(** ** Sending what differs *)

Context (c0 : curses) (Hd : drawable c0).

Definition nw (y x : Z) : Z := nw_at c0 y x.
Lemma working_nw s y x : working c0 s → nw_at (lib s) y x = nw y x.
Proof. intros W. by apply still_nw, W. Qed.
Lemma working_proj {A} (f : curses → A) s : (∀ d, f (still d) = f d) → working c0 s → f (lib s) = f c0.
Proof. intros Hf W. apply still_proj; [done|apply W]. Qed.
Lemma working_settle s t y x :
  still (lib s) = still c0 → patient s → believed (lib s) t → in_range y x →
  t_ready (term s) → t_pen (term s) = t_pen t →
  (¬ corner y x → t_cell (term s) y x = seen c0 (nw y x)) → (∀ v u, (v, u) ≠ (y, x) → t_cell (term s) v u = t_cell t v u) →
  working c0 (mkScreen (settle y x (lib s)) (outside s)).
Proof.
  intros Ws Wp [B1 B2 B3 B4] Hr Hready Hpen Hcell Hothers. split; [done|done|]. change (term _) with (term s).
  split; cbn; [done|by rewrite length_insert|by rewrite Hpen|].
  intros v u Hvu Hc Hu. unfold ph_at, seen in *. cbn in *.
  assert (pairs (lib s) = pairs c0) as Ep by (by apply still_proj).
  destruct (decide ((v, u) = (y, x))) as [[= -> ->]|Hne].
  - rewrite (nth_lookup_Some _ _ _ (nw y x)); [by rewrite Hcell, Ep|]. rewrite list_lookup_insert_eq; [by rewrite (still_nw _ c0)|].
    rewrite B2. by apply cell_no_lt.
  - assert (cell_no y x ≠ cell_no v u) as Hn by (intros E; apply cell_no_inj in E as [-> ->]; done).
    rewrite nth_lookup, list_lookup_insert_ne, <- nth_lookup in Hu |- * by done. rewrite Hothers by done. by apply B4.
Qed.
Lemma send_one s y x :
  working c0 s → in_range y x → ¬ corner y x → t_cursor (term s) = Some (y, x) →
  wp (send_cells junk fuel 1 y x) (λ _ s', working c0 s' ∧ (x + 1 < cols → t_cursor (term s') = Some (y, x + 1)) ∧
    py (lib s') = py (lib s) ∧ px (lib s') = px (lib s) ∧ scr_phy (lib s') = <[cell_no y x := nw y x]> (scr_phy (lib s))) s.
Proof.
  intros W Hr Hc Hcur. cbn [send_cells]. apply wp_bind, wp_gets, wp_bind. unfold id. rewrite !(working_nw s) by done.
  destruct (d_cells _ Hd y x Hr) as [Hv Hp]. fold (nw y x) in Hv, Hp.
  eapply wp_mono; [apply setattr_ok; [done|done|]|].
  { rewrite (working_proj pairs) by done. apply Hd. }
  intros _ s1 (W1 & Hcur1 & Ha & Epy & Epx & Eph). rewrite Hcur in Hcur1. destruct W1 as [Ws Wp Wb].
  apply wp_bind. eapply wp_mono; [by apply cur_str_ok|]. intros _ s2 (A & B & C). pose proof (sent_term _ _ _ C) as HC.
  destruct (feed_glyph (term s1) _ y x (b_ready _ _ Wb) Hp Hcur1 ltac:(apply Hr) ltac:(apply Hr) Hc) as (D1 & D2 & D3 & D4 & D5).
  cbv zeta in *. rewrite <- HC in D1, D2, D3, D4, D5. pose proof (only_ob_still _ _ B) as St. destruct B as [B _].
  apply wp_bind. apply run_wp with (a := ()) (s' := mkScreen (settle y x (lib s2)) (outside s2)); [done|]. apply wp_ret.
  assert (still (lib s2) = still c0) as Ws2 by (by rewrite St).
  split_and!; cbn.
  - apply (working_settle s2 (term s1)); try done.
    + destruct Wb as [? ? ? ?]. rewrite B. by split.
    + intros _. rewrite D4. unfold seen. f_equal. destruct (land_small_attr _ Hv) as [L1 _].
      rewrite (b_pen _ _ Wb), Ha by (by rewrite Ha). f_equal. by apply still_proj.
  - done.
  - by rewrite B.
  - by rewrite B.
  - rewrite (still_nw _ c0) by done. rewrite B. cbn. by rewrite Eph.
Qed.
(** A cell that agrees goes on agreeing. *)
Definition agree (s : screen console) (y x : Z) : Prop := ph_at (lib s) y x = nw y x.
Definition later (s s' : screen console) : Prop := ∀ v u, in_range v u → agree s v u → agree s' v u.
Lemma later_trans a b c : later a b → later b c → later a c.
Proof. unfold later. eauto. Qed.
Lemma later_settle s s' y x :
  working c0 s → in_range y x → scr_phy (lib s') = <[cell_no y x := nw y x]> (scr_phy (lib s)) → later s s' ∧ agree s' y x.
Proof.
  intros W Hr E. assert (agree s' y x) as Ha.
  { unfold agree, ph_at. rewrite E. apply nth_lookup_Some. apply list_lookup_insert_eq. rewrite (b_phy _ _ (w_believed _ _ W)). by apply cell_no_lt. }
  split; [|done]. intros v u Hvu Hg. destruct (decide ((v, u) = (y, x))) as [[= -> ->]|Hne]; [done|].
  unfold agree, ph_at in *. rewrite E, nth_lookup, list_lookup_insert_ne, <- nth_lookup; [done|].
  intros Ec. apply cell_no_inj in Ec as [-> ->]; done.
Qed.
Lemma send_cells_ok n s y x :
  working c0 s → in_range y x → x + Z.of_nat n ≤ cols → ¬ (y = rows - 1 ∧ cols - 1 < x + Z.of_nat n) → t_cursor (term s) = Some (y, x) →
  wp (send_cells junk fuel n y x) (λ _ s', working c0 s' ∧ (x + Z.of_nat n < cols → t_cursor (term s') = Some (y, x + Z.of_nat n)) ∧
    py (lib s') = py (lib s) ∧ later s s' ∧ ∀ u, x ≤ u < x + Z.of_nat n → agree s' y u) s.
Proof.
  revert s x. induction n as [|n IH]; intros s x W Hr Hn Hb Hcur.
  { apply wp_ret. rewrite Z.add_0_r. split_and!; [done|done|done|by intros ? ? ? ?|intros; lia]. }
  assert (send_cells junk fuel (S n) y x s = (let* _ := send_cells junk fuel 1 y x in send_cells junk fuel n y (x + 1)) s) as E.
  { cbn [send_cells]. unfold with_lib, gets, pbind, id. destruct (cur_setattr _ _ _ _) as [[? s1]|]; [|done].
    by destruct (cur_utf8 _ _ _ _) as [[? s2]|]. }
  unfold wp. rewrite E. change (wp (let* _ := send_cells junk fuel 1 y x in send_cells junk fuel n y (x + 1)) (λ _ s', working c0 s' ∧
    (x + Z.of_nat (S n) < cols → t_cursor (term s') = Some (y, x + Z.of_nat (S n))) ∧
    py (lib s') = py (lib s) ∧ later s s' ∧ ∀ u, x ≤ u < x + Z.of_nat (S n) → agree s' y u) s).
  apply wp_bind. eapply wp_mono; [apply send_one; try done; unfold corner; lia|]. intros _ s1 (W1 & C1 & P1 & _ & S1).
  destruct (later_settle s s1 y x W Hr S1) as [L1 A1].
  destruct n as [|n].
  { apply wp_ret. split_and!; [done|done|done|done|]. intros u Hu. assert (u = x) as -> by lia. done. }
  assert (in_range y (x + 1)) as Hr1 by (unfold in_range in *; lia).
  eapply wp_mono; [apply (IH s1 (x + 1)); try done; [lia|lia|apply C1; unfold in_range in *; lia]|].
  intros _ s2 (W2 & C2 & P2 & L2 & A2). split_and!.
  - done.
  - intros Hl. replace (x + Z.of_nat (S (S n))) with (x + 1 + Z.of_nat (S n)) by lia. apply C2. lia.
  - congruence.
  - by eapply later_trans.
  - intros u Hu. destruct (decide (u = x)) as [->|]; [by apply L2|apply A2; lia].
Qed.

Lemma run_end_range n c y j e gap : e ≤ j → e ≤ run_end n c y j e gap ≤ j + Z.of_nat n.
Proof.
  revert j e gap. induction n as [|n IH]; intros j e gap He; cbn [run_end]; [lia|].
  destruct (same_cell c y j).
  - destruct (CURSES_GAP <? gap + 1); [lia|]. specialize (IH (j + 1) e (gap + 1)). lia.
  - specialize (IH (j + 1) (j + 1) 0). lia.
Qed.
Definition row_end (y : Z) : Z := if y =? rows - 1 then cols - 1 else cols.
Lemma update_row_ok n s y x :
  working c0 s → placed (lib s) (term s) → 0 ≤ y < rows → 0 ≤ x → row_end y - x ≤ Z.of_nat n →
  wp (update_row junk fuel n y x (row_end y)) (λ _ s', working c0 s' ∧ placed (lib s') (term s') ∧ later s s' ∧
    ∀ u, x ≤ u < row_end y → agree s' y u) s.
Proof.
  revert s x. induction n as [|n IH]; intros s x W P Hy Hx Hn; cbn [update_row].
  { apply wp_ret. split_and!; [done|done|by intros ? ? ? ?|intros; lia]. }
  destruct (Z.leb_spec (row_end y) x) as [Hle|Hlt].
  { apply wp_ret. split_and!; [done|done|by intros ? ? ? ?|intros; lia]. }
  assert (in_range y x) as Hr by (unfold in_range, row_end in *; destruct (Z.eqb_spec y (rows - 1)); lia).
  apply wp_bind, wp_gets. unfold id. destruct (same_cell (lib s) y x) eqn:E.
  { eapply wp_mono; [apply (IH s (x + 1)); try done; lia|]. intros _ s' (W' & P' & L & A). split_and!; [done|done|done|].
    intros u Hu. destruct (decide (u = x)) as [->|]; [|apply A; lia]. apply L; [done|].
    unfold same_cell in E. apply Z.eqb_eq in E. unfold agree. by rewrite <- E, working_nw. }
  set (e := run_end _ _ _ _ _ _). pose proof (run_end_range (Z.to_nat (row_end y - (x + 1))) (lib s) y (x + 1) (x + 1) 0 ltac:(lia)) as He.
  fold e in He. apply wp_bind. eapply wp_mono; [by apply goto_ok|]. intros _ s1 (W1 & C1 & Py & Px & S1).
  apply wp_bind. eapply wp_mono; [apply (send_cells_ok (Z.to_nat (e - x)) s1 y x); try done|].
  { rewrite Z2Nat.id by lia. unfold row_end in *. destruct (Z.eqb_spec y (rows - 1)); lia. }
  { rewrite Z2Nat.id by lia. unfold row_end in *. destruct (Z.eqb_spec y (rows - 1)); lia. }
  rewrite Z2Nat.id by lia. replace (x + (e - x)) with e by lia. intros _ s2 (W2 & C2 & Py2 & L2 & A2).
  set (s3 := mkScreen ((lib s2) <| px := e |> <| py := if cols <=? e then -1 else py (lib s2) |>) (outside s2)).
  apply wp_bind. apply run_wp with (a := ()) (s' := s3).
  { assert (COLS (lib s2) = cols) as Ec by (rewrite (working_proj COLS) by done; apply Hd).
    unfold s3. rewrite <- Ec. done. }
  assert (working c0 s3) as W3.
  { destruct W2 as [Ws Wp [? ? ? ?]]. split; [done|done|by split]. }
  assert (later s s3) as L3. { intros v u Hvu Hg. change (agree s2 v u). apply L2; [done|]. unfold agree, ph_at in *. by rewrite S1. }
  eapply wp_mono; [apply (IH s3 e); try done; [|lia|lia]|].
  { unfold placed. cbn. destruct (Z.leb_spec cols e); [lia|]. intros _. change (term s3) with (term s2). rewrite C2, Py2, Py by lia. done. }
  intros _ s4 (W4 & P4 & L4 & A4). split_and!; [done|done|by eapply later_trans|]. intros u Hu.
  destruct (decide (u < e)); [|apply A4; lia]. apply L4; [unfold in_range, row_end in *; destruct (Z.eqb_spec y (rows - 1)); lia|].
  change (agree s2 y u). apply A2. lia.
Qed.
Lemma update_rows_ok n s y :
  working c0 s → placed (lib s) (term s) → 0 ≤ y → y + Z.of_nat n = rows →
  wp (update_rows junk fuel n y) (λ _ s', working c0 s' ∧ placed (lib s') (term s') ∧ later s s' ∧
    ∀ v u, y ≤ v → in_range v u → agree s' v u) s.
Proof.
  revert s y. induction n as [|n IH]; intros s y W P Hy Hn; cbn [update_rows].
  { apply wp_ret. split_and!; [done|done|by intros ? ? ? ?|unfold in_range; intros; lia]. }
  apply wp_bind, wp_gets. unfold id. rewrite (working_proj LINES s), (working_proj COLS s), (d_lines _ Hd), (d_cols _ Hd) by done.
  fold (row_end y). apply wp_bind.
  apply wp_mono with (Q := λ _ s1, working c0 s1 ∧ placed (lib s1) (term s1) ∧ later s s1 ∧ (y = rows - 1 → agree s1 y (cols - 1))).
  { destruct (Z.eqb_spec y (rows - 1)) as [E|E]; cbn [andb]; [|apply wp_ret; split_and!; [done|done|by intros ? ? ? ?|lia]].
    rewrite (proj2 (Z.ltb_lt 0 cols)) by lia. apply run_wp with (a := ()) (s' := mkScreen (settle y (cols - 1) (lib s)) (outside s)); [done|].
    assert (in_range y (cols - 1)) as Hr by (unfold in_range; lia). pose proof W as [Ws Wp Wb].
    destruct (later_settle s (mkScreen (settle y (cols - 1) (lib s)) (outside s)) y (cols - 1) W Hr) as [L A].
    { cbn. by rewrite working_nw. }
    split_and!; [|done|done|done]. apply (working_settle s (term s)); try done; [apply Wb|].
    intros []. by unfold corner. }
  intros _ s1 (W1 & P1 & L1 & A1). apply wp_bind. eapply wp_mono; [apply (update_row_ok _ s1 y 0); try done; lia|].
  intros _ s2 (W2 & P2 & L2 & A2). eapply wp_mono; [apply (IH s2 (y + 1)); try done; lia|].
  intros _ s3 (W3 & P3 & L3 & A3). split_and!; [done|done|by do 2 (eapply later_trans; [done|])|].
  intros v u Hv Hr. destruct (decide (v = y)) as [->|]; [|apply A3; [lia|done]]. apply L3; [done|].
  destruct (decide (u < row_end y)) as [Hl|Hl]; [apply A2; unfold in_range in Hr; lia|]. apply L2; [done|].
  unfold row_end, in_range in *. destruct (Z.eqb_spec y (rows - 1)); [|lia]. assert (u = cols - 1) as -> by lia. by apply A1.
Qed.

(** Where everything agrees, nothing is sent. *)
Lemma update_row_idle n s y x :
  working c0 s → (∀ v u, in_range v u → agree s v u) → 0 ≤ y < rows → 0 ≤ x →
  update_row junk fuel n y x (row_end y) s = Some ((), s).
Proof.
  intros W A Hy. revert x. induction n as [|n IH]; intros x Hx; cbn [update_row]; [done|].
  destruct (Z.leb_spec (row_end y) x); [done|]. rewrite (pbind_eq _ _ _ (lib s) s) by done.
  unfold same_cell. rewrite (working_nw s), (A y x) by (done || (unfold in_range, row_end in *; destruct (Z.eqb_spec y (rows - 1)); lia)).
  rewrite Z.eqb_refl. apply IH. lia.
Qed.
Lemma update_rows_idle n s y :
  working c0 s → (∀ v u, in_range v u → agree s v u) → 0 ≤ y → y + Z.of_nat n = rows →
  update_rows junk fuel n y s = Some ((), s).
Proof.
  intros W A. revert y. induction n as [|n IH]; intros y Hy Hn; cbn [update_rows]; [done|].
  rewrite (pbind_eq _ _ _ (lib s) s) by done. rewrite (working_proj LINES s), (working_proj COLS s), (d_lines _ Hd), (d_cols _ Hd) by done.
  fold (row_end y). rewrite (pbind_eq _ _ _ () s).
  2: { destruct (Z.eqb_spec y (rows - 1)) as [->|]; [|done]. rewrite (proj2 (Z.ltb_lt 0 cols)) by lia. cbn [andb]. cbv [on_lib modify]. do 2 f_equal.
    assert (in_range (rows - 1) (cols - 1)) as Hr by (unfold in_range; lia). specialize (A _ _ Hr). unfold agree, ph_at in A.
    assert (settle (rows - 1) (cols - 1) (lib s) = lib s) as ->; [|by destruct s]. unfold settle. cbn.
    rewrite (working_nw s), <- A, list_insert_id by (done || (destruct (nth_lookup_or_length (scr_phy (lib s)) (cell_no (rows - 1) (cols - 1)) 0); [done|]; pose proof (b_phy _ _ (w_believed _ _ W)); pose proof (cell_no_lt _ _ Hr); lia)).
    by destruct (lib s). }
  rewrite (pbind_eq _ _ _ () s) by (apply update_row_idle; (done || lia)). apply IH; lia.
Qed.
Lemma nw_known y x : in_range y x → nw y x ≠ UNKNOWN.
Proof. intros Hr E. destruct (d_cells _ Hd y x Hr) as [_ Hp]. unfold nw in E. by rewrite E in Hp. Qed.
Lemma doupdate_ok s :
  working c0 s → placed (lib s) (term s) → started c0 = true →
  wp (doupdate junk fuel) (λ r s', r = OK ∧ working c0 s' ∧ placed (lib s') (term s') ∧ ob (lib s') = [] ∧
    (∀ y x, in_range y x → agree s' y x) ∧ (visible c0 = true → t_cursor (term s') = Some (wy c0, wx c0) ∧ py (lib s') = wy c0 ∧ px (lib s') = wx c0)) s.
Proof.
  intros W P Hst. unfold doupdate. apply wp_bind, wp_gets. unfold id. rewrite (working_proj started s), Hst by done. cbn [negb].
  rewrite (working_proj LINES s), (working_proj visible s), (working_proj wy s), (working_proj wx s), (d_lines _ Hd) by done.
  apply wp_bind. eapply wp_mono; [apply update_rows_ok; try done; lia|]. intros _ s1 (W1 & P1 & _ & A1). apply wp_bind.
  apply wp_mono with (Q := λ _ s2, working c0 s2 ∧ placed (lib s2) (term s2) ∧ (∀ y x, in_range y x → agree s2 y x) ∧
    (visible c0 = true → t_cursor (term s2) = Some (wy c0, wx c0) ∧ py (lib s2) = wy c0 ∧ px (lib s2) = wx c0)).
  { destruct (visible c0) eqn:Ev.
    - eapply wp_mono; [apply goto_ok; [done|done|by apply Hd]|]. intros _ s2 (W2 & C2 & Y2 & X2 & S2). split_and!; [done|..|done].
      + intros _. by rewrite C2, Y2, X2.
      + intros y x Hr. unfold agree, ph_at. rewrite S2. apply A1; [apply Hr|done].
    - apply wp_ret. split_and!; [done|done| |done]. intros y x Hr. apply A1; [apply Hr|done]. }
  intros _ s2 (W2 & P2 & A2 & V2). apply wp_bind. eapply wp_mono; [apply cur_flush_ok, W2|]. intros _ s3 (K & O & S3 & E3).
  assert (term s3 = term s2) as Et by (unfold term; by rewrite S3). pose proof (only_ob_still _ _ O) as St. destruct O as [O _].
  apply wp_ret. rewrite Et. split_and!; [done| | |done| |].
  - destruct W2 as [Ws Wp [? ? ? ?]]. split; [by rewrite St|done|]. rewrite Et, O. by split.
  - rewrite O. done.
  - intros y x Hr. unfold agree, ph_at. rewrite O. by apply A2.
  - rewrite O. done.
Qed.
Lemma doupdate_idle s :
  working c0 s → started c0 = true → ob (lib s) = [] → (∀ y x, in_range y x → agree s y x) →
  (visible c0 = true → py (lib s) = wy c0 ∧ px (lib s) = wx c0) → doupdate junk fuel s = Some (OK, s).
Proof.
  intros W Hst Hob A V. unfold doupdate. rewrite (pbind_eq _ _ _ (lib s) s) by done. rewrite (working_proj started s), Hst by done. cbn [negb].
  rewrite (working_proj LINES s), (working_proj visible s), (working_proj wy s), (working_proj wx s), (d_lines _ Hd) by done.
  rewrite (pbind_eq _ _ _ () s) by (apply update_rows_idle; try done; lia).
  rewrite (pbind_eq _ _ _ () s).
  2: { destruct (visible c0); [|done]. destruct V as [V1 V2]; [done|]. unfold cur_goto. rewrite (pbind_eq _ _ _ (lib s) s) by done.
    unfold id. by rewrite V1, V2, !Z.eqb_refl. }
  rewrite (pbind_eq _ _ _ () s); [done|]. unfold cur_flush. rewrite (pbind_eq _ _ _ (lib s) s) by done. unfold id. rewrite Hob.
  rewrite (pbind_eq _ _ _ () s); [|unfold ask_w; destruct fuel; by destruct s]. cbv [on_lib modify]. rewrite <- Hob. by destruct s as [[] ?].
Qed.
End update.

(** C11: the update shows the virtual screen.  On any terminal that keeps the
    laws of the interface, with a console that takes its bytes piecemeal but
    for ever, [doupdate] returns with everything sent: every cell of the
    terminal but the bottom right corner then shows the character and the
    look of the cell of the virtual screen, the cursor is where it was asked
    to be, what the library believes of the terminal is so again, and a
    second update sends nothing. *)
Theorem update_shows_the_screen {T : Type} {rows cols : Z} `{!Terminal T rows cols} junk fuel (t0 : T) s :
  0 < rows ≤ MAXLINES → 0 < cols ≤ MAXCOLS →
  started (lib s) = true → drawable (rows := rows) (cols := cols) (lib s) → patient fuel s →
  believed (rows := rows) (cols := cols) (lib s) (term t0 s) → placed (lib s) (term t0 s) →
  ∃ s', doupdate junk fuel s = Some (OK, s') ∧ still (lib s') = still (lib s) ∧ ob (lib s') = [] ∧
    let t := t_feed t0 (shown (outside s')) in
    believed (rows := rows) (cols := cols) (lib s') t ∧ placed (lib s') t ∧
    (∀ y x, 0 ≤ y < rows → 0 ≤ x < cols → ¬ (y = rows - 1 ∧ x = cols - 1) → t_cell t y x = seen (lib s) (nw_at (lib s) y x)) ∧
    (visible (lib s) = true → t_cursor t = Some (wy (lib s), wx (lib s))) ∧ doupdate junk fuel s' = Some (OK, s').
Proof.
  intros Hrows Hcols Hst Hd Hp Hb Hpl. assert (working fuel t0 (lib s) s) as W by (by split).
  destruct (wp_run _ _ _ (doupdate_ok junk fuel t0 Hrows Hcols (lib s) Hd s W Hpl Hst)) as (r & s' & Hrun & -> & W' & P' & O' & A' & V').
  exists s'. assert (term t0 s' = t_feed t0 (shown (outside s'))) as Et by (unfold term, sent; by rewrite O', app_nil_r).
  cbv zeta. rewrite <- Et. split_and!; [done|apply W'|done|apply W'|done| |intros V; by apply V'|].
  - intros y x Hy Hx Hc. rewrite (b_cell _ _ (w_believed _ _ _ _ W') y x); [|done|done|].
    + rewrite (A' y x) by done. unfold seen. do 2 f_equal. by apply still_proj, W'.
    + rewrite (A' y x) by done. by apply (nw_known _ Hd).
  - apply (doupdate_idle junk fuel t0 Hrows Hcols (lib s) Hd); try done. intros V. by apply V'.
Qed.
(** A screen of two lines and three columns, about which nothing is known,
    with a bold letter in the middle of the first line. *)
Definition small_screen : screen console :=
  let c := curses_touchall (start_color curses_start) in
  mkScreen (c <| LINES := 2 |> <| COLS := 3 |> <| started := true |> <| wy := 1 |>
    <| scr_new := <[1%nat := Z.lor 65 A_BOLD]> (repeat 32 CELLS) |>) (mkConsole [] [1; 0; 3] []).
#[local] Instance small_terminal : Terminal vt 2 3 := vt_terminal 2 3 ltac:(lia) ltac:(lia).
Lemma small_drawable : drawable (rows := 2) (cols := 3) (lib small_screen).
Proof.
  split; [done|done|vm_compute; done|vm_compute; done| |].
  - intros y x [Hy Hx]. assert (y = 0 ∨ y = 1) as [-> | ->] by lia; assert (x = 0 ∨ x = 1 ∨ x = 2) as [-> | [-> | ->]] by lia; vm_compute; done.
  - intros _. vm_compute. done.
Qed.
Lemma unknown_believed t : vt_ready t → believed (rows := 2) (cols := 3) (lib small_screen) t.
Proof.
  intros Ht. split; [done|vm_compute; done|done|].
  intros y x [Hy Hx] _ Hu. destruct Hu. unfold ph_at. change (scr_phy _) with (repeat UNKNOWN CELLS).
  rewrite nth_repeat_lt; [done|]. unfold cell_no, CELLS, MAXCOLS, MAXLINES. lia.
Qed.
Lemma update_shows_the_screen_witness :
  ∃ s', doupdate (mkReq 0 0 [] 0 0 0 []) 3000 small_screen = Some (OK, s') ∧ still (lib s') = still (lib small_screen) ∧ ob (lib s') = [] ∧
    let t := t_feed (vt_clear : vt) (shown (outside s')) in
    believed (rows := 2) (cols := 3) (lib s') t ∧ placed (lib s') t ∧
    (∀ y x, 0 ≤ y < 2 → 0 ≤ x < 3 → ¬ (y = 2 - 1 ∧ x = 3 - 1) → t_cell t y x = seen (lib small_screen) (nw_at (lib small_screen) y x)) ∧
    (visible (lib small_screen) = true → t_cursor t = Some (wy (lib small_screen), wx (lib small_screen))) ∧
    doupdate (mkReq 0 0 [] 0 0 0 []) 3000 s' = Some (OK, s').
Proof.
  apply update_shows_the_screen; [done|done|done|apply small_drawable| | |].
  - vm_compute. split_and!; [done|repeat constructor; done|done].
  - by apply unknown_believed.
  - intros Hp. by destruct Hp.
Defined.
(** The library believes that a new screen is drawn in plain characters, but
    sends nothing that makes it so: after a program that left the terminal in
    bold, what is meant to be plain is bold. *)
Definition bold_vt : vt := mkVt (λ _ _, blank_cell) 0 0 false (mkPen true false false false false (-1) (-1)) Ground.
Theorem initscr_trusts_the_pen :
  match initscr (mkReq 0 0 [] 0 0 0 []) 3000 (mkScreen curses_start (mkConsole [] [] [])) with
  | Some (Some _, s) => cur_attr (lib s) = A_NORMAL ∧ p_bold (v_pen (vt_feed 24 80 bold_vt (shown (outside s)))) = true
  | _ => False
  end.
Proof. vm_compute. done. Qed.
