(* ===== verification/CursesDraw.v ===== *)
(** * Drawing (the windows of src/prog/curses.h)

    Whatever is drawn in a window stays inside it and inside the screen, and
    a text lands in the cells it is meant for. *)
From stdpp Require Import base list numbers option.
From S2P Require Import Prelude Mem Req FatName Client Curses Terminal.
Local Open Scope Z_scope.

(** ** Staying inside *)

(** Everything a program does to one window short of moving or resizing it. *)
Inductive drawing :=
  | Move (y x : Z) | AddCh (c : Z) | MvAddCh (y x c : Z) | AddNStr (t : list Z) (n : Z) | MvAddNStr (y x : Z) (t : list Z) (n : Z)
  | AttrSet (a : Z) | AttrOn (a : Z) | AttrOff (a : Z) | BkgdSet (c : Z) | Keypad (on : bool)
  | Erase | ClrToEol | HLine (c n : Z) | VLine (c n : Z) | MvHLine (y x c n : Z) | MvVLine (y x c n : Z)
  | Border (ls rs ts bs tl tr bl br : Z).
Definition perform (w : option nat) (d : drawing) : curses → Z * curses :=
  match d with
  | Move y x => wmove w y x
  | AddCh c => waddch w c
  | MvAddCh y x c => mvwaddch w y x c
  | AddNStr t n => waddnstr w t n
  | MvAddNStr y x t n => mvwaddnstr w y x t n
  | AttrSet a => wattrset w a
  | AttrOn a => wattron w a
  | AttrOff a => wattroff w a
  | BkgdSet c => wbkgdset w c
  | Keypad on => keypad w on
  | Erase => werase w
  | ClrToEol => wclrtoeol w
  | HLine c n => whline w c n
  | VLine c n => wvline w c n
  | MvHLine y x c n => mvwhline w y x c n
  | MvVLine y x c n => mvwvline w y x c n
  | Border ls rs ts bs tl tr bl br => wborder w ls rs ts bs tl tr bl br
  end.
Definition perform_all (w : option nat) (ds : list drawing) (s : curses) : curses := foldl (λ s d, (perform w d s).2) s ds.

(** A place on the screen: the rectangle of a window. *)
Record place := mkPlace { p_y : Z; p_x : Z; p_h : Z; p_w : Z }.
Definition place_of (v : window) : place := mkPlace (begy v) (begx v) (maxy v) (maxx v).
Definition place_ok (p : place) : Prop :=
  - 2 ^ 31 ≤ p_y p ∧ - 2 ^ 31 ≤ p_x p ∧ p_h p < 2 ^ 31 ∧ p_w p < 2 ^ 31 ∧ p_y p + p_h p ≤ 2 ^ 31 ∧ p_x p + p_w p ≤ 2 ^ 31.
Definition within_place (p : place) (y x : Z) : Prop := p_y p ≤ y < p_y p + p_h p ∧ p_x p ≤ x < p_x p + p_w p.
Definition cursor_ok (v : window) : Prop := 0 ≤ cury v < 2 ^ 31 - 1 ∧ 0 ≤ curx v.

Section inside.
Context (i : nat) (p : place) (p_ok : place_ok p).

(** Window [i] is at [p]. *)
Definition open_at (s : curses) : Prop := ∃ v, wins s !! i = Some v ∧ inuse v = true ∧ place_of v = p ∧ cursor_ok v.
(** From [s] to [s'] only cells of [p] on the screen changed, and of the
    variables only the virtual screen and the window. *)
Definition changes_inside (s s' : curses) : Prop :=
  s' = s <| wins := wins s' |> <| scr_new := scr_new s' |> ∧ length (scr_new s') = length (scr_new s) ∧
  (∀ j, j ≠ i → wins s' !! j = wins s !! j) ∧
  ∀ k, (∀ y x, within_place p y x → on_screen y x s = true → cell_no y x ≠ k) → scr_new s' !! k = scr_new s !! k.
Definition inside (f : curses → curses) : Prop := ∀ s, open_at s → open_at (f s) ∧ changes_inside s (f s).

Lemma changes_inside_refl s : changes_inside s s.
Proof. unfold changes_inside. split_and!; [by destruct s|done..]. Qed.
Lemma changes_inside_trans a b c : changes_inside a b → changes_inside b c → changes_inside a c.
Proof.
  intros (A1 & A2 & A3 & A4) (B1 & B2 & B3 & B4). split_and!; [|congruence|intros; by rewrite B3, A3|].
  - rewrite B1. cbn. rewrite A1. done.
  - intros k Hk. rewrite B4; [by apply A4|]. intros y x Hp Ho. apply Hk; [done|].
    unfold on_screen in *. rewrite A1 in Ho. done.
Qed.
Lemma inside_id : inside (λ s, s).
Proof. intros s Hs. split; [done|apply changes_inside_refl]. Qed.
Lemma inside_comp f g : inside f → inside g → inside (λ s, g (f s)).
Proof.
  intros Hf Hg s Hs. destruct (Hf s Hs) as [H1 H2], (Hg _ H1) as [H3 H4]. split; [done|by eapply changes_inside_trans].
Qed.
Lemma inside_for n a f : (∀ k, a ≤ k < a + Z.of_nat n → inside (f k)) → inside (for_ n a f).
Proof.
  revert a. induction n as [|n IH]; intros a Hf; cbn [for_]; [apply inside_id|].
  apply (inside_comp (f a) (for_ n (a + 1) f)); [apply Hf; lia|]. apply IH. intros k Hk. apply Hf. lia.
Qed.
Lemma inside_loop a b f : (∀ k, a ≤ k < b → inside (f k)) → inside (loop a b f).
Proof. intros Hf. apply inside_for. intros k Hk. apply Hf. lia. Qed.
Lemma inside_put_cell y x c : within_place p y x → inside (put_cell y x c).
Proof.
  intros Hp s Hs. unfold put_cell. destruct (on_screen y x s) eqn:E; [|by split; [|apply changes_inside_refl]].
  split; [done|]. split_and!; cbn; [by destruct s|by rewrite length_insert|done|].
  intros k Hk. apply list_lookup_insert_ne. by apply Hk.
Qed.
Lemma put_win_inside s v v' :
  wins s !! i = Some v → inuse v' = true → place_of v' = p → cursor_ok v' → open_at (put_win i v' s) ∧ changes_inside s (put_win i v' s).
Proof.
  intros Hv Hu Hp Hc. split.
  - exists v'. split_and!; try done. cbn. apply list_lookup_insert_eq. by eapply lookup_lt_Some.
  - split_and!; cbn; [by destruct s|done| |done]. intros j Hj. by apply list_lookup_insert_ne.
Qed.
(** An operation that begins with the check of the window. *)
Lemma inside_with_win f :
  (∀ s v, wins s !! i = Some v → inuse v = true → place_of v = p → cursor_ok v → open_at (f i v s).2 ∧ changes_inside s (f i v s).2) →
  inside (λ s, (with_win (Some i) f s).2).
Proof.
  intros Hf s (v & Hv & Hu & Hp & Hc). unfold with_win, win_at. rewrite Hv, Hu. by apply Hf.
Qed.
Lemma inside_on_win f :
  (∀ v, inuse v = true → place_of v = p → cursor_ok v → inuse (f v) = true ∧ place_of (f v) = p ∧ cursor_ok (f v)) →
  inside (λ s, (on_win (Some i) f s).2).
Proof.
  intros Hf. apply inside_with_win. intros s v Hv Hu Hp Hc. destruct (Hf v Hu Hp Hc) as (A & B & C). cbn [snd]. by eapply put_win_inside.
Qed.
Lemma inside_wmove y x : inside (λ s, (wmove (Some i) y x s).2).
Proof.
  apply inside_with_win. intros s v Hv Hu Hp Hc. destruct ((y <? 0) || (x <? 0) || (maxy v <=? y) || (maxx v <? x)) eqn:E; cbn [snd].
  - split; [by exists v|apply changes_inside_refl].
  - destruct p_ok as (_ & _ & Ph & _). rewrite <- Hp in Ph. cbn in Ph. eapply put_win_inside; try done. unfold cursor_ok. cbn. lia.
Qed.
Lemma i32_in z : - 2 ^ 31 ≤ z < 2 ^ 31 → i32 z = z.
Proof. apply i32_small. Qed.
Lemma inside_waddch c : inside (λ s, (waddch (Some i) c s).2).
Proof.
  apply inside_with_win. intros s v Hv Hu Hp Hc. pose proof p_ok as (P1 & P2 & P3 & P4 & P5 & P6). rewrite <- Hp in P1, P2, P3, P4, P5, P6. cbn in *.
  unfold cursor_ok in Hc. destruct (Z.land c A_CHARTEXT =? 10).
  { cbn [snd]. eapply put_win_inside; try done. unfold cursor_ok. cbn. rewrite i32_in by lia. destruct (Z.ltb_spec (cury v + 1) (maxy v)); lia. }
  destruct (Z.land c A_CHARTEXT =? 13). { cbn [snd]. eapply put_win_inside; try done. unfold cursor_ok. cbn. lia. }
  destruct ((maxx v <=? curx v) || (maxy v <=? cury v)) eqn:E; cbn [snd]; [split; [by exists v|apply changes_inside_refl]|].
  rewrite !i32_in by lia. set (s1 := put_cell _ _ _ s).
  destruct (inside_put_cell (begy v + cury v) (begx v + curx v) (Z.lor (Z.land c A_CHARTEXT) (attrs_or c (attrs v)))) with (s := s) as [_ H2];
    [rewrite <- Hp; unfold within_place; cbn; lia|by exists v|]. fold s1 in H2.
  assert (wins s1 = wins s) as Ew by (unfold s1, put_cell; by destruct (on_screen _ _ _)).
  destruct (put_win_inside s1 v (v <| curx := curx v + 1 |>)) as [H3 H4]; try done.
  { by rewrite Ew. } { unfold cursor_ok; cbn; lia. }
  split; [done|by eapply changes_inside_trans].
Qed.
(** An operation after a move that may be refused. *)
Lemma inside_after_move y x f :
  inside (λ s, (f s).2) → inside (λ s, (let '(r, s) := wmove (Some i) y x s in if r =? ERR then (ERR, s) else f s).2).
Proof.
  intros Hf s Hs. destruct (inside_wmove y x s Hs) as [H1 H2]. destruct (wmove (Some i) y x s) as [r s1]. cbn [snd] in *.
  destruct (r =? ERR); [done|]. destruct (Hf s1 H1) as [H3 H4]. split; [done|by eapply changes_inside_trans].
Qed.
Lemma inside_addnstr k t n : inside (addnstr_loop k (Some i) t n).
Proof.
  revert t n. induction k as [|k IH]; intros t n s Hs; cbn [addnstr_loop]; [by split; [|apply changes_inside_refl]|].
  destruct t as [|b t]; [by split; [|apply changes_inside_refl]|]. destruct (n =? 0); [by split; [|apply changes_inside_refl]|].
  destruct (cur_decode (b :: t)) as [c used]. destruct (inside_waddch c s Hs) as [H1 H2].
  destruct (IH (drop used (b :: t)) (if 0 <? n then n - 1 else n) _ H1) as [H3 H4]. split; [done|by eapply changes_inside_trans].
Qed.
Lemma inside_back_to y x : 0 ≤ y < 2 ^ 31 - 1 → 0 ≤ x → inside (back_to (Some i) y x).
Proof. intros Hy Hx. apply inside_on_win. intros v A B C. split_and!; [done|done|]. unfold cursor_ok. cbn. lia. Qed.
(** What runs on the window after its check, ending with [(OK, _)]. *)
Lemma inside_body (g : window → curses → curses) :
  (∀ v, place_of v = p → cursor_ok v → inside (g v)) → inside (λ s, (with_win (Some i) (λ _ v s, (OK, g v s)) s).2).
Proof. intros Hg. apply inside_with_win. intros s v Hv Hu Hp Hc. cbn [snd]. apply (Hg v Hp Hc). by exists v. Qed.

(** The cursor is put back at the end. *)
Lemma inside_and_back v f : cursor_ok v → inside f → inside (λ s, back_to (Some i) (cury v) (curx v) (f s)).
Proof. intros [Hy Hx] Hf. apply (inside_comp f (back_to (Some i) (cury v) (curx v))); [done|by apply inside_back_to]. Qed.
Lemma inside_mvwaddch y x c : inside (λ s, (mvwaddch (Some i) y x c s).2).
Proof. apply inside_after_move, inside_waddch. Qed.
Lemma inside_whline c n : inside (λ s, (whline (Some i) c n s).2).
Proof. apply inside_body. intros v Hp Hc. apply inside_and_back; [done|]. apply inside_loop. intros. apply inside_waddch. Qed.
Lemma inside_wvline c n : inside (λ s, (wvline (Some i) c n s).2).
Proof. apply inside_body. intros v Hp Hc. apply inside_and_back; [done|]. apply inside_loop. intros. apply inside_mvwaddch. Qed.
Lemma inside_werase : inside (λ s, (werase (Some i) s).2).
Proof.
  apply inside_with_win. intros s v Hv Hu Hp Hc. cbn [snd].
  pose proof p_ok as (P1 & P2 & P3 & P4 & P5 & P6). rewrite <- Hp in P1, P2, P3, P4, P5, P6. cbn in *.
  set (f := loop 0 (maxy v) _). assert (inside f) as Hf.
  { apply inside_loop. intros y Hy. apply inside_loop. intros x Hx. rewrite !i32_in by lia.
    apply inside_put_cell. rewrite <- Hp. unfold within_place. cbn. lia. }
  destruct (Hf s ltac:(by exists v)) as [(v1 & H1 & _) H2].
  destruct (put_win_inside (f s) v1 (v <| cury := 0 |> <| curx := 0 |>)) as [H3 H4]; try done.
  split; [done|by eapply changes_inside_trans].
Qed.
Lemma inside_wclrtoeol : inside (λ s, (wclrtoeol (Some i) s).2).
Proof.
  apply inside_body. intros v Hp Hc. apply inside_and_back; [done|]. apply inside_loop. intros x Hx.
  set (fill := Z.lor _ _). apply (inside_comp (λ s, (on_win (Some i) (λ v, v <| curx := x |>) s).2) (λ s, (waddch (Some i) fill s).2)).
  - apply inside_on_win. intros u A B C. split_and!; [done|done|]. unfold cursor_ok in *. cbn. lia.
  - apply inside_waddch.
Qed.
Lemma inside_wborder ls rs ts bs tl tr bl br : inside (λ s, (wborder (Some i) ls rs ts bs tl tr bl br s).2).
Proof.
  apply inside_body. intros v Hp Hc.
  assert (∀ y x c f, inside f → inside (λ s, (mvwaddch (Some i) y x c (f s)).2)) as Hput.
  { intros y x c f Hf. apply (inside_comp f (λ s, (mvwaddch (Some i) y x c s).2)); [done|apply inside_mvwaddch]. }
  do 4 apply Hput. set (f := loop 1 (maxx v - 1) _). set (g := loop 1 (maxy v - 1) _). apply (inside_comp f g).
  - apply inside_loop. intros x Hx. apply Hput, inside_mvwaddch.
  - apply inside_loop. intros y Hy. apply Hput, inside_mvwaddch.
Qed.
Lemma perform_inside d : inside (λ s, (perform (Some i) d s).2).
Proof.
  destruct d; cbn [perform].
  - apply inside_wmove.
  - apply inside_waddch.
  - apply inside_mvwaddch.
  - apply inside_body. intros. apply inside_addnstr.
  - apply inside_after_move, inside_body. intros. apply inside_addnstr.
  - by apply inside_on_win.
  - by apply inside_on_win.
  - by apply inside_on_win.
  - by apply inside_on_win.
  - by apply inside_on_win.
  - apply inside_werase.
  - apply inside_wclrtoeol.
  - apply inside_whline.
  - apply inside_wvline.
  - apply inside_after_move, inside_whline.
  - apply inside_after_move, inside_wvline.
  - apply inside_wborder.
Qed.
Lemma perform_all_inside ds : inside (perform_all (Some i) ds).
Proof.
  induction ds as [|d ds IH]; [apply inside_id|].
  apply (inside_comp (λ s, (perform (Some i) d s).2) (perform_all (Some i) ds)); [apply perform_inside|done].
Qed.
End inside.

(** C12: drawing stays inside the window.  Whatever sequence of texts, lines,
    frames, erasures and moves a program runs in a window whose rectangle is
    within the range of [int], the window stays where it is, the other
    windows and every variable but the virtual screen stay as they were, and
    no cell changes that is not both inside the window and on the screen. *)
Theorem drawing_stays_inside i v ds s :
  wins s !! i = Some v → inuse v = true → place_ok (place_of v) → cursor_ok v →
  let s' := perform_all (Some i) ds s in
  s' = s <| wins := wins s' |> <| scr_new := scr_new s' |> ∧ length (scr_new s') = length (scr_new s) ∧
  (∃ v', wins s' !! i = Some v' ∧ inuse v' = true ∧ place_of v' = place_of v ∧ cursor_ok v') ∧
  (∀ j, j ≠ i → wins s' !! j = wins s !! j) ∧
  ∀ k, (∀ y x, begy v ≤ y < begy v + maxy v → begx v ≤ x < begx v + maxx v → on_screen y x s = true → cell_no y x ≠ k) →
    scr_new s' !! k = scr_new s !! k.
Proof.
  intros Hv Hu Hp Hc s'. destruct (perform_all_inside i (place_of v) Hp ds s) as [H1 (H2 & H3 & H4 & H5)]; [by exists v|].
  split_and!; [done|done|done|done|]. intros k Hk. apply H5. intros y x [Hy Hx] Ho. by apply Hk.
Qed.
Lemma drawing_stays_inside_witness :
  let s := (newwin 3 10 2 4 (curses_start <| stdscr := None |>)).2 in
  let s' := perform_all (Some 0%nat) [Move 1 1; AddNStr [104; 105; 10; 33] (-1); Border 0 0 0 0 0 0 0 0; Erase; VLine 0 9] s in
  scr_new s' !! 5%nat = scr_new s !! 5%nat.
Proof.
  intros s. set (v := mkWindow 2 4 3 10 0 0 A_NORMAL 32 false true).
  apply (drawing_stays_inside 0 v); [done|done| | |].
  - unfold place_ok. cbn. lia.
  - unfold cursor_ok. cbn. lia.
  - cbn. intros y x Hy Hx _. unfold cell_no, MAXCOLS. lia.
Defined.

(** ** Text *)

Lemma decode_tail_cons n x t v :
  0 ≤ v < 2 ^ 20 → 0 ≤ x < 64 → decode_tail (S n) (0x80 + x :: t) v = decode_tail n t (v * 64 + x).
Proof.
  intros Hv Hx. cbn [decode_tail hd tl]. destruct (cont_byte x Hx) as [C1 C2]. unfold tail_byte.
  change 192 with 0xC0. change 63 with 0x3F. rewrite C1, C2. cbn [Z.eqb Pos.eqb]. rewrite Z.shiftl_mul_pow2 by lia.
  rewrite (lor_disjoint v x 6), u32_small by lia. done.
Qed.
Lemma cur_decode_utf8 c t : 1 ≤ c < 0x110000 → cur_decode (utf8 c ++ t) = (c, length (utf8 c)).
Proof.
  intros Hc. rewrite utf8_reference by lia. unfold utf8_of, cur_decode.
  destruct (Z.ltb_spec c 0x80).
  { cbn [app hd tl length]. rewrite !(proj2 (Z.leb_gt _ c)) by lia. done. }
  destruct (Z.ltb_spec c 0x800).
  { cbn [app hd tl length]. rewrite (proj2 (Z.leb_gt 0xf0 _)), (proj2 (Z.leb_gt 0xe0 _)), (proj2 (Z.leb_le 0xc0 _)) by ldiv.
    rewrite (land_low _ 5) by done. cbn [Nat.sub]. rewrite decode_tail_cons by ldiv. cbn. f_equal. ldiv. }
  destruct (Z.ltb_spec c 0x10000).
  { cbn [app hd tl length]. rewrite (proj2 (Z.leb_gt 0xf0 _)), (proj2 (Z.leb_le 0xe0 _)) by ldiv.
    rewrite (land_low _ 4) by done. cbn [Nat.sub]. rewrite !decode_tail_cons by ldiv. cbn. f_equal. ldiv. }
  cbn [app hd tl length]. rewrite (proj2 (Z.leb_le 0xf0 _)) by ldiv.
  rewrite (land_low _ 3) by done. cbn [Nat.sub]. rewrite !decode_tail_cons by ldiv. cbn. f_equal. ldiv.
Qed.
Definition glyph (c : Z) : Prop := 32 ≤ c < 0x110000.
Lemma utf8_nonempty c : glyph c → (0 < length (utf8 c))%nat.
Proof. intros Hc. unfold utf8. split_ifs; cbn; lia. Qed.
(** A text is its characters, one after the other. *)
Lemma addnstr_chars k w l s :
  Forall glyph l → (length (concat (utf8 <$> l)) ≤ k)%nat →
  addnstr_loop k w (concat (utf8 <$> l)) (-1) s = foldl (λ s c, (waddch w c s).2) s l.
Proof.
  revert k s. induction l as [|c l IH]; intros k s Hl Hk; [by destruct k|].
  apply list.Forall_cons in Hl as [Hc Hl]. cbn [fmap list_fmap concat foldl] in *. rewrite length_app in Hk.
  pose proof (utf8_nonempty c Hc). pose proof (cur_decode_utf8 c (concat (utf8 <$> l)) ltac:(unfold glyph in Hc; lia)) as Hdec.
  destruct k as [|k]; [lia|]. pose proof (drop_app_length (utf8 c) (concat (utf8 <$> l))) as Hdr.
  destruct (utf8 c ++ concat (utf8 <$> l)) as [|b t] eqn:E.
  { apply (f_equal length) in E. rewrite length_app in E. cbn in E. lia. }
  cbn [addnstr_loop]. cbn [Z.eqb]. rewrite Hdec. change (0 <? -1) with false. cbn iota. rewrite Hdr. apply IH; [done|lia].
Qed.
Lemma glyph_parts c a : glyph c → Z.land c A_CHARTEXT = c ∧ attrs_or c a = a.
Proof.
  intros Hc. unfold glyph in Hc. assert (Z.land c A_CHARTEXT = c) as E.
  { change A_CHARTEXT with (Z.ones 21). rewrite Z.land_ones, Z.mod_small by lia. done. }
  split; [done|]. unfold attrs_or. rewrite <- E, <- Z.land_assoc. change (Z.land A_CHARTEXT A_ATTRIBUTES) with 0. by rewrite Z.land_0_r.
Qed.
Lemma waddch_glyph i v c s :
  wins s !! i = Some v → inuse v = true → place_ok (place_of v) → cursor_ok v → cury v < maxy v → glyph c →
  (waddch (Some i) c s).2 =
    if maxx v <=? curx v then s
    else put_win i (v <| curx := curx v + 1 |>) (put_cell (begy v + cury v) (begx v + curx v) (Z.lor c (attrs v)) s).
Proof.
  intros Hv Hu (P1 & P2 & P3 & P4 & P5 & P6) Hc Hy Hg. cbn in *. unfold cursor_ok in Hc. unfold waddch, with_win, win_at. rewrite Hv, Hu.
  destruct (glyph_parts c (attrs v) Hg) as [-> ->]. unfold glyph in Hg. rewrite !(proj2 (Z.eqb_neq c _)) by lia.
  rewrite (proj2 (Z.leb_gt (maxy v) _)), orb_false_r by done. destruct (Z.leb_spec (maxx v) (curx v)); [done|].
  rewrite !i32_in by lia. cbn [snd]. by rewrite Hu.
Qed.
Definition sized (s : curses) : Prop := LINES s ≤ MAXLINES ∧ COLS s ≤ MAXCOLS ∧ length (scr_new s) = CELLS.
Lemma nw_put_cell s y x c v u :
  sized s → on_screen v u s = true →
  nw_at (put_cell y x c s) v u = if bool_decide ((v, u) = (y, x)) then c else nw_at s v u.
Proof.
  intros (S1 & S2 & S3) Hvu. unfold put_cell, nw_at. destruct (on_screen y x s) eqn:E; cbn [scr_new set_scr_new].
  - change (scr_new (s <| scr_new := ?l |>)) with l. unfold on_screen in *. case_bool_decide as B.
    + injection B as -> ->. apply nth_lookup_Some, list_lookup_insert_eq. rewrite S3. unfold cell_no, CELLS, MAXLINES, MAXCOLS in *. nia.
    + rewrite nth_lookup, list_lookup_insert_ne, <- nth_lookup; [done|]. unfold cell_no, MAXCOLS in *. intros Ec. apply B. f_equal; lia.
  - rewrite bool_decide_false; [done|]. intros [= -> ->]. congruence.
Qed.
(** The character of the text [l] that falls on a cell. *)
Definition text_cell (v : window) (l : list Z) (y x : Z) : option Z :=
  if (y =? begy v + cury v) && (begx v + curx v <=? x) && (x <? begx v + maxx v) then l !! Z.to_nat (x - (begx v + curx v)) else None.
Lemma draw_chars i v l s :
  wins s !! i = Some v → inuse v = true → place_ok (place_of v) → cursor_ok v → cury v < maxy v → sized s → Forall glyph l →
  let s' := foldl (λ s c, (waddch (Some i) c s).2) s l in
  wins s' !! i = Some (v <| curx := Z.max (curx v) (Z.min (maxx v) (curx v + Z.of_nat (length l))) |>) ∧
  ∀ y x, on_screen y x s = true →
    nw_at s' y x = match text_cell v l y x with Some c => Z.lor c (attrs v) | None => nw_at s y x end.
Proof.
  intros Hv Hu Hp Hc Hy Hs Hl. revert v s Hv Hu Hp Hc Hy Hs. induction Hl as [|c l Hg Hl IH]; intros v s Hv Hu Hp Hc Hy Hs; cbn [foldl].
  { split; [|intros y x Hyx; unfold text_cell; by destruct (_ && _ && _)]. rewrite Hv. f_equal. cbn. rewrite Z.add_0_r.
    replace (Z.max (curx v) (Z.min (maxx v) (curx v))) with (curx v) by lia. by destruct v. }
  rewrite (waddch_glyph i v) by done. destruct (Z.leb_spec (maxx v) (curx v)) as [Hfull|Hroom].
  { destruct (IH v s Hv Hu Hp Hc Hy Hs) as [I1 I2]. split; [rewrite I1; do 2 f_equal; cbn; lia|]. intros y x Hyx. rewrite I2 by done.
    unfold text_cell. replace ((begx v + curx v <=? x) && (x <? begx v + maxx v)) with false by lia.
    rewrite <- !andb_assoc. replace ((begx v + curx v <=? x) && (x <? begx v + maxx v)) with false by lia. by rewrite andb_false_r. }
  set (v1 := v <| curx := curx v + 1 |>). set (s0 := put_cell _ _ _ s). set (s1 := put_win i v1 s0).
  assert (sized s0) as Hs0.
  { unfold s0, put_cell. destruct (on_screen _ _ s); [|done]. destruct Hs as (? & ? & ?). split_and!; [done|done|cbn; by rewrite length_insert]. }
  assert (wins s0 = wins s) as Ew by (unfold s0, put_cell; by destruct (on_screen _ _ s)).
  assert (∀ y x, on_screen y x s0 = on_screen y x s) as Eo by (intros; unfold s0, put_cell; by destruct (on_screen _ _ s)).
  destruct (IH v1 s1) as [I1 I2]; [cbn; rewrite Ew; apply list_lookup_insert_eq; by eapply lookup_lt_Some|done|done| |done|done|].
  { unfold cursor_ok in *. cbn. lia. }
  split; [rewrite I1; f_equal; unfold v1; cbn; f_equal; lia|]. intros y x Hyx. rewrite I2 by (by rewrite <- (Eo y x) in Hyx).
  change (nw_at s1 y x) with (nw_at s0 y x). unfold s0. rewrite nw_put_cell by done. unfold text_cell. cbn [begy begx cury curx maxx v1 set_curx].
  change (begy v1) with (begy v). change (begx v1) with (begx v). change (cury v1) with (cury v). change (maxx v1) with (maxx v).
  change (curx v1) with (curx v + 1). change (attrs v1) with (attrs v).
  destruct (Z.eqb_spec y (begy v + cury v)) as [->|Hn]; cbn [andb]; [|rewrite bool_decide_false by congruence; done].
  destruct (decide (x = begx v + curx v)) as [->|Hx].
  - rewrite (proj2 (Z.leb_gt (begx v + (curx v + 1)) _)) by lia. cbn [andb]. rewrite bool_decide_true by done.
    rewrite Z.leb_refl, (proj2 (Z.ltb_lt (begx v + curx v) _)) by lia. cbn [andb]. rewrite Z.sub_diag. done.
  - rewrite bool_decide_false by congruence. destruct (Z.leb_spec (begx v + curx v) x) as [Hle|Hlt].
    + rewrite (proj2 (Z.leb_le _ _)) by lia. cbn [andb]. destruct (x <? begx v + maxx v); [|done].
      replace (Z.to_nat (x - (begx v + curx v))) with (S (Z.to_nat (x - (begx v + (curx v + 1))))) by lia. done.
    + rewrite (proj2 (Z.leb_gt _ _)) by lia. done.
Qed.
(** C13: a text is drawn where the cursor is.  Adding a UTF-8 text to a window
    puts its characters, in the attributes of the window, into the cells of
    the cursor's line from the cursor on, one cell each, up to the edge of
    the window and of the screen; no other cell of the screen changes, and
    the cursor ends behind the last character or at the edge. *)
Theorem text_is_drawn i v l s :
  wins s !! i = Some v → inuse v = true → place_ok (place_of v) → cursor_ok v → cury v < maxy v → sized s →
  Forall (λ c, 32 ≤ c < 0x110000) l →
  let '(r, s') := waddstr (Some i) (concat (utf8 <$> l)) s in
  r = OK ∧ wins s' !! i = Some (v <| curx := Z.max (curx v) (Z.min (maxx v) (curx v + Z.of_nat (length l))) |>) ∧
  ∀ y x, on_screen y x s = true →
    nw_at s' y x = match text_cell v l y x with Some c => Z.lor c (attrs v) | None => nw_at s y x end.
Proof.
  intros Hv Hu Hp Hc Hy Hs Hl. unfold waddstr, waddnstr, with_win. cbn [win_at]. rewrite Hv, Hu. cbn iota. split; [done|].
  rewrite addnstr_chars by done. by apply draw_chars.
Qed.
Lemma text_is_drawn_witness :
  let s := (newwin 3 10 2 4 curses_start).2 in
  let '(r, s') := waddstr (Some 0%nat) (concat (utf8 <$> [0x416; 0x20ac; 33])) s in
  r = OK ∧ nw_at s' 2 5 = 0x20ac.
Proof.
  intros s. set (v := mkWindow 2 4 3 10 0 0 A_NORMAL 32 false true).
  pose proof (text_is_drawn 0 v [0x416; 0x20ac; 33] s eq_refl eq_refl) as H.
  destruct (waddstr (Some 0%nat) (concat (utf8 <$> [0x416; 0x20ac; 33])) s) as [r s'].
  destruct H as (H1 & _ & H3); [unfold place_ok; cbn; lia|unfold cursor_ok; cbn; lia|done|vm_compute; done|repeat constructor; lia|].
  split; [done|]. rewrite H3 by done. vm_compute. done.
Defined.
