(* ===== verification/CursesKeys.v ===== *)
(** * Keys (wgetch of src/prog/curses.h)

    Reading keys from a stream of bytes: it always ends, and what the
    terminal says of its size in between is found and obeyed. *)
From stdpp Require Import base list numbers option.
From S2P Require Import Prelude Mem Req Client Curses.
Local Open Scope Z_scope.

(** The bytes that are still to be read; reading past them is the end. *)
Record keyboard := mkKeys { typed : list Z }.
Definition keyboard_call (r : vfs_req) : prog keyboard (option vfs_req) := λ s,
  if op r =? VFS_READ then
    match typed s with
    | [] => Some (Some (r <| result := 0 |>), s)
    | b :: t => Some (Some (r <| result := 1 |> <| data := [b] |>), mkKeys t)
    end
  else Some (Some (r <| result := 0 |>), s).
#[export] Instance keyboard_world : World keyboard := {
  sys_resolve p n := pret (if (n =? 0)%nat then Some (1, p) else None);
  sys_call dst r := keyboard_call r;
  sys_mounts_text := pret [];
  sys_putchar c := pret ();
  sys_rest := pret () }.

Section keys.
Context (junk : vfs_req).

Lemma cur_byte_cons c b t : cur_byte junk (mkScreen c (mkKeys (b :: t))) = Some (Some b, mkScreen c (mkKeys t)).
Proof. reflexivity. Qed.
Lemma cur_byte_nil c : cur_byte junk (mkScreen c (mkKeys [])) = Some (None, mkScreen c (mkKeys [])).
Proof. reflexivity. Qed.

(** ** It always ends *)

Definition left (s : screen keyboard) : nat := length (typed (outside s)).
(** [m] ends where at least [k] bytes fewer are left. *)
Definition ends {A} (k : nat) (m : prog (screen keyboard) A) (s : screen keyboard) : Prop := wp m (λ _ s', (left s' + k ≤ left s)%nat) s.
Lemma ends_ret {A} (a : A) s : ends 0 (pret a) s.
Proof. apply wp_ret. lia. Qed.
Lemma ends_byte {A} k (f : option Z → prog (screen keyboard) A) s :
  (left s = 0%nat → ends k (f None) s) →
  (∀ b s', left s = S (left s') → wp (f (Some b)) (λ _ s2, (left s2 + k ≤ left s)%nat) s') →
  ends k (let* b := cur_byte junk in f b) s.
Proof.
  intros Hn Hs. destruct s as [c [[|b t]]]; unfold ends; apply wp_bind.
  - eapply run_wp; [apply cur_byte_nil|]. by apply Hn.
  - eapply run_wp; [apply cur_byte_cons|]. by apply Hs.
Qed.
Lemma ends_weaken {A} k j (m : prog (screen keyboard) A) s n : wp m (λ _ s', (left s' + k ≤ left s)%nat) s → (left s + j ≤ n + k)%nat → wp m (λ _ s', (left s' + j ≤ n)%nat) s.
Proof. intros H Hn. eapply wp_mono; [done|]. cbn. lia. Qed.
Lemma sub_loop_ends n prev p s : (left s < n)%nat → ends 0 (sub_loop junk n prev p) s.
Proof.
  revert prev p s. induction n as [|n IH]; intros prev p s Hn; [lia|]. cbn [sub_loop]. apply ends_byte; [intros; apply ends_ret|].
  intros b s' E. destruct ((prev =? 255) && (b =? 240)); [apply wp_ret; lia|]. eapply ends_weaken; [apply IH; lia|lia].
Qed.
Lemma csi_loop_ends n p np s : (left s < n)%nat → ends 0 (csi_loop junk n p np) s.
Proof.
  revert p np s. induction n as [|n IH]; intros p np s Hn; [lia|]. cbn [csi_loop]. apply ends_byte; [intros; apply ends_ret|].
  intros b s' E. split_ifs; [eapply ends_weaken; [apply IH; lia|lia]..|apply wp_ret; lia].
Qed.
Lemma get_telnet_ends fuel s : (left s < fuel)%nat → ends 0 (get_telnet junk fuel) s.
Proof.
  intros Hf. apply ends_byte; [intros; apply ends_ret|]. intros b s1 E1. split_ifs; try (apply wp_ret; lia).
  - eapply ends_weaken; [apply (ends_byte 0); [intros; apply ends_ret|intros; apply wp_ret; lia]|lia].
  - apply wp_bind. apply wp_mono with (Q := λ _ s2, (left s2 ≤ left s1)%nat).
    { destruct s1 as [c [[|b' t]]]; unfold wp; [rewrite cur_byte_nil|rewrite cur_byte_cons]; unfold left; cbn; lia. }
    intros opt s2 L2. apply wp_bind. eapply wp_mono; [apply sub_loop_ends; lia|]. intros [p|] s3 L3; [|apply wp_ret; lia].
    destruct (bool_decide (opt = Some 31) && (4 <=? length p)%nat); [|apply wp_ret; lia]. apply wp_bind. unfold wp. cbn. unfold left in *. cbn. lia.
Qed.
Lemma get_escape_ends fuel s : (left s < fuel)%nat → ends 0 (get_escape junk fuel) s.
Proof.
  intros Hf. apply ends_byte; [intros; apply ends_ret|]. intros b s1 E1. destruct (negb _); [apply wp_ret; lia|].
  apply wp_bind. eapply wp_mono; [apply csi_loop_ends; lia|]. intros [[p d]|] s2 E2; [|apply wp_ret; lia].
  destruct (d =? 82); [|apply wp_ret; lia]. apply wp_bind. unfold wp. cbn. unfold left in *. cbn. lia.
Qed.
(** What is not the end has taken a byte. *)
Lemma get_key_ends fuel decode s :
  (left s < fuel)%nat → wp (get_key junk fuel decode) (λ r s', (left s' ≤ left s)%nat ∧ (r ≠ Ended → left s' < left s)%nat) s.
Proof.
  intros Hf. unfold get_key. apply wp_bind. destruct s as [c [[|b t]]]; (eapply run_wp; [apply cur_byte_nil||apply cur_byte_cons|]).
  - apply wp_ret. done.
  - change (left (mkScreen c (mkKeys (b :: t)))) with (S (left (mkScreen c (mkKeys t)))) in *. set (s1 := mkScreen c (mkKeys t)) in *.
    cbv beta iota. destruct (b =? 255); [eapply wp_mono; [apply get_telnet_ends; lia|cbn; lia]|].
    destruct ((b =? ESC) && decode); [eapply wp_mono; [apply get_escape_ends; lia|cbn; lia]|apply wp_ret; lia].
Qed.
Lemma wgetch_loop_ends n fuel decode s : (left s < n)%nat → (left s < fuel)%nat → ends 0 (wgetch_loop junk fuel n decode) s.
Proof.
  revert s. induction n as [|n IH]; intros s Hn Hf; [lia|]. cbn [wgetch_loop]. unfold ends. apply wp_bind.
  eapply wp_mono; [by apply get_key_ends|]. intros r s1 [H1 H2]. destruct r; [apply wp_ret; lia| |apply wp_ret; lia].
  specialize (H2 ltac:(done)). eapply ends_weaken; [apply IH; lia|lia].
Qed.

(** ** The size of the terminal *)

Lemma csi_digits n room v c t p np :
  (np < length p)%nat → nth np p 0 = 0 → 0 ≤ v < 10 ^ Z.of_nat room → v < 10 ^ 8 →
  csi_loop junk (length (rev (utoa_tmp room v)) + n) p np (mkScreen c (mkKeys (rev (utoa_tmp room v) ++ t))) =
  csi_loop junk n (<[np := v]> p) np (mkScreen c (mkKeys t)).
Proof.
  intros Hnp H0. revert v n t. induction room as [|room IH]; intros v n t Hv Hs.
  { change (10 ^ Z.of_nat 0) with 1 in Hv. assert (v = 0) as -> by lia. cbn. rewrite list_insert_id; [done|]. rewrite <- H0.
    destruct (nth_lookup_or_length p np 0); [done|lia]. }
  cbn [utoa_tmp]. destruct (Z.eqb_spec v 0) as [->|Hne].
  { cbn. rewrite list_insert_id; [done|]. rewrite <- H0. destruct (nth_lookup_or_length p np 0); [done|lia]. }
  rewrite Nat2Z.inj_succ, Z.pow_succ_r in Hv by lia. cbn [rev]. rewrite length_app, <- Nat.add_assoc, <- app_assoc, IH by ldiv.
  cbn [length Nat.add app csi_loop]. rewrite (pbind_eq _ _ _ _ _ (cur_byte_cons _ _ _)).
  replace ((48 <=? 48 + v mod 10) && (48 + v mod 10 <=? 57)) with true by (symmetry; apply andb_true_intro; split; apply Z.leb_le; ldiv).
  rewrite (nth_lookup_Some _ _ _ (v / 10)) by (by apply list_lookup_insert_eq). rewrite list_insert_insert_eq, i32_small by ldiv.
  do 2 f_equal. ldiv.
Qed.
Lemma csi_num n v c t p np :
  (np < length p)%nat → nth np p 0 = 0 → 0 ≤ v < 10 ^ 8 →
  csi_loop junk (length (num v) + n) p np (mkScreen c (mkKeys (num v ++ t))) = csi_loop junk n (<[np := v]> p) np (mkScreen c (mkKeys t)).
Proof.
  intros Hnp H0 Hv. unfold num, uutoa. destruct (Z.leb_spec v 0).
  - assert (v = 0) as -> by lia. cbn. rewrite H0. done.
  - rewrite (proj2 (Z.eqb_neq v 0)) by lia. apply csi_digits; [done|done| |lia]. change (10 ^ Z.of_nat 24) with (10 ^ 24). lia.
Qed.
(** The answer to "where is the cursor", and negotiations of options. *)
Definition report (h w : Z) : list Z := [ESC; 91] ++ num h ++ [59] ++ num w ++ [82].
Definition negotiation (x : Z * Z) : list Z := [255; x.1; x.2].
Lemma get_report fuel h w c t :
  0 ≤ h < 10 ^ 8 → 0 ≤ w < 10 ^ 8 → (length (report h w) ≤ fuel)%nat →
  get_key junk fuel true (mkScreen c (mkKeys (report h w ++ t))) = Some (Key KEY_RESIZE, mkScreen (cur_resize w h c) (mkKeys t)).
Proof.
  intros Hh Hw Hf. unfold report in *. rewrite !length_app in Hf. cbn [length] in Hf. unfold get_key.
  rewrite <- !app_assoc. cbn [app]. rewrite (pbind_eq _ _ _ _ _ (cur_byte_cons _ _ _)). cbn iota. change (ESC =? 255) with false. change ((ESC =? ESC) && true) with true. cbn iota.
  unfold get_escape. rewrite (pbind_eq _ _ _ _ _ (cur_byte_cons _ _ _)). cbn iota. change (negb ((91 =? 91) || (91 =? 79))) with false. cbn iota.
  rewrite (pbind_eq _ _ _ (Some ([h; w; 0; 0], 82)) (mkScreen c (mkKeys t))); [done|].
  replace fuel with (length (num h) + (1 + (length (num w) + (1 + (fuel - (2 + length (num h) + length (num w)))))))%nat by lia.
  rewrite csi_num by (done || (cbn; lia)). cbn [Nat.add csi_loop]. rewrite (pbind_eq _ _ _ _ _ (cur_byte_cons _ _ _)). cbn iota.
  change ((48 <=? 59) && (59 <=? 57)) with false. change (59 =? 59) with true. cbn iota. change (if (0 <? 3)%nat then 1%nat else 0%nat) with 1%nat.
  rewrite csi_num by (done || (cbn; lia)). cbn [Nat.add csi_loop]. rewrite (pbind_eq _ _ _ _ _ (cur_byte_cons _ _ _)). done.
Qed.
Lemma get_negotiation fuel x c t :
  251 ≤ x.1 ≤ 254 → get_key junk fuel true (mkScreen c (mkKeys (negotiation x ++ t))) = Some (Again, mkScreen c (mkKeys t)).
Proof.
  intros Hx. unfold negotiation, get_key. cbn [app]. rewrite (pbind_eq _ _ _ _ _ (cur_byte_cons _ _ _)). cbn iota. change (255 =? 255) with true. cbn iota.
  unfold get_telnet. rewrite (pbind_eq _ _ _ _ _ (cur_byte_cons _ _ _)). cbn iota. rewrite (proj2 (Z.eqb_neq _ _)) by lia.
  replace ((251 <=? x.1) && (x.1 <=? 254)) with true by lia. by rewrite (pbind_eq _ _ _ _ _ (cur_byte_cons _ _ _)).
Qed.
Lemma wgetch_report n fuel ns h w c t :
  0 ≤ h < 10 ^ 8 → 0 ≤ w < 10 ^ 8 → Forall (λ x, 251 ≤ x.1 ≤ 254) ns → (length (report h w) ≤ fuel)%nat → (length ns < n)%nat →
  wgetch_loop junk fuel n true (mkScreen c (mkKeys (concat (negotiation <$> ns) ++ report h w ++ t))) =
    Some (KEY_RESIZE, mkScreen (cur_resize w h c) (mkKeys t)).
Proof.
  intros Hh Hw Hns Hf. revert n. induction Hns as [|x ns Hx Hns IH]; intros n Hn; (destruct n as [|n]; [cbn in Hn; lia|]); cbn [wgetch_loop].
  - cbn [fmap list_fmap concat]. change ([] ++ report h w ++ t) with (report h w ++ t). by rewrite (pbind_eq _ _ _ _ _ (get_report fuel h w c t Hh Hw Hf)).
  - cbn [fmap list_fmap concat]. rewrite <- app_assoc. rewrite (pbind_eq _ _ _ _ _ (get_negotiation fuel x c _ Hx)). apply IH. cbn in Hn. lia.
Qed.
End keys.

(** A key is always waited for with an end.  Whatever bytes come,
    [wgetch] returns a key, or [ERR] when they end. *)
Theorem wgetch_returns junk fuel w (s : screen keyboard) :
  (length (typed (outside s)) < fuel)%nat → ∃ k s', wgetch junk fuel w s = Some (k, s').
Proof.
  intros Hf. unfold wgetch. rewrite (pbind_eq _ _ _ (lib s) s) by done. destruct (0 <=? pushed _); [by eexists _, _|].
  destruct (wp_run _ _ _ (wgetch_loop_ends junk fuel fuel (match win_at w (lib s) with Some v => keypad_on v | None => true end) s Hf Hf)) as (k & s' & -> & _).
  by exists k, s'.
Qed.
Lemma wgetch_returns_witness :
  ∃ k s', wgetch (mkReq 0 0 [] 0 0 0 []) 20 None (mkScreen curses_start (mkKeys [255; 250; 31; 255; 27; 91; 240])) = Some (k, s').
Proof. apply wgetch_returns. cbn. lia. Defined.
(** C14: the terminal's size is found and obeyed.  Past any negotiation of
    options, the report of a cursor sent to the far corner is read as the
    size, and every byte behind it is left: the screen and the window that
    covers it get that size when it can be described, and nothing is believed
    of what the terminal shows. *)
Theorem size_report_is_obeyed junk fuel ns h w c t :
  0 ≤ h < 10 ^ 8 → 0 ≤ w < 10 ^ 8 → Forall (λ x, 251 ≤ x.1 ≤ 254) ns → (length (report h w) ≤ fuel)%nat → (length ns < fuel)%nat →
  pushed c < 0 →
  ∃ c', wgetch junk fuel None (mkScreen c (mkKeys (concat (negotiation <$> ns) ++ report h w ++ t))) =
      Some (KEY_RESIZE, mkScreen c' (mkKeys t)) ∧
    (5 ≤ h ≤ MAXLINES → LINES c' = h) ∧ (20 ≤ w ≤ MAXCOLS → COLS c' = w) ∧
    (∀ i v, stdscr c = Some i → wins c !! i = Some v → wins c' !! i = Some (v <| maxy := LINES c' |> <| maxx := COLS c' |>)) ∧
    scr_new c' = scr_new c ∧ Forall (λ v, v = UNKNOWN) (scr_phy c') ∧ cur_attr c' = UNKNOWN ∧ py c' = -1.
Proof.
  intros Hh Hw Hns Hf Hn Hp. exists (cur_resize w h c). split.
  { unfold wgetch. rewrite (pbind_eq _ _ _ c _) by done. rewrite (proj2 (Z.leb_gt 0 _)) by done. cbn [win_at]. by apply wgetch_report. }
  unfold cur_resize. set (c1 := if (20 <=? w) && (w <=? MAXCOLS) then c <| COLS := w |> else c).
  set (c2 := if (5 <=? h) && (h <=? MAXLINES) then c1 <| LINES := h |> else c1).
  assert (stdscr c2 = stdscr c ∧ wins c2 = wins c ∧ scr_new c2 = scr_new c) as (E1 & E2 & E3).
  { unfold c2, c1. by destruct (_ && _), (_ && _). }
  assert ((5 ≤ h ≤ MAXLINES → LINES c2 = h) ∧ (20 ≤ w ≤ MAXCOLS → COLS c2 = w)) as [S1 S2].
  { unfold c2, c1. split; intros ?.
    - replace ((5 <=? h) && (h <=? MAXLINES)) with true by lia. done.
    - replace ((20 <=? w) && (w <=? MAXCOLS)) with true by lia. by destruct ((5 <=? h) && (h <=? MAXLINES)). }
  rewrite E1. split_and!.
  - destruct (stdscr c); done.
  - destruct (stdscr c); done.
  - intros i v -> Hv. cbn. rewrite E2, (nth_lookup_Some _ _ _ v) by done. apply list_lookup_insert_eq. by eapply lookup_lt_Some.
  - by destruct (stdscr c).
  - assert (Forall (λ v, v = UNKNOWN) (repeat UNKNOWN CELLS)) as Hu by (apply list.Forall_forall; intros x Hx; by eapply repeat_spec, list_elem_of_In).
    by destruct (stdscr c).
  - by destruct (stdscr c).
  - by destruct (stdscr c).
Qed.
Lemma size_report_is_obeyed_witness :
  ∃ c', wgetch (mkReq 0 0 [] 0 0 0 []) 40 None (mkScreen (curses_start <| stdscr := Some 0%nat |>) (mkKeys (concat (negotiation <$> [(253, 1)]) ++ report 30 100 ++ [113]))) =
      Some (KEY_RESIZE, mkScreen c' (mkKeys [113])) ∧ LINES c' = 30 ∧ COLS c' = 100.
Proof.
  destruct (size_report_is_obeyed (mkReq 0 0 [] 0 0 0 []) 40 [(253, 1)] 30 100 (curses_start <| stdscr := Some 0%nat |>) [113]) as (c' & H1 & H2 & H3 & _);
    [lia|lia|repeat constructor; cbn; lia|vm_compute; lia|cbn; lia|done|].
  exists c'. split_and!; [done|apply H2; unfold MAXLINES; lia|apply H3; unfold MAXCOLS; lia].
Defined.

(** ** Where the keys fall short *)

Definition keys_after (t : list Z) : option (Z * curses * list Z) :=
  match wgetch (mkReq 0 0 [] 0 0 0 []) 40 None (mkScreen curses_start (mkKeys t)) with
  | Some (k, s) => Some (k, lib s, typed (outside s))
  | None => None
  end.
(** The byte behind an escape that does not begin a sequence is lost: [ESC q x]
    is the key escape and then [x]. *)
Theorem escape_swallows_a_key : match keys_after [27; 113; 120] with Some (k, _, t) => k = 27 ∧ t = [120] | None => False end.
Proof. vm_compute. done. Qed.
(** A window of 255 columns, whose 255 telnet doubles, is not taken for a
    size: its thirty lines are not obeyed either. *)
Theorem wide_window_loses_its_height :
  match keys_after [255; 250; 31; 0; 255; 255; 0; 30; 255; 240] with Some (k, c, _) => k = ERR ∧ LINES c = 24 | None => False end.
Proof. vm_compute. done. Qed.
(** A terminal bigger than can be described is not used up to the limit: the
    size is left as it was. *)
Theorem big_terminal_is_ignored w h c :
  MAXCOLS < w → MAXLINES < h → LINES (cur_resize w h c) = LINES c ∧ COLS (cur_resize w h c) = COLS c.
Proof.
  intros Hw Hh. unfold cur_resize. rewrite (proj2 (Z.leb_gt w _)), (proj2 (Z.leb_gt h _)), !andb_false_r by done. by destruct (stdscr c).
Qed.
