(* ===== verification/Loader.v ===== *)
(** * Starting programs (src/src/loader.c, src/src/elf.h, src/prog/spawn.h)

    A program is read whole, its headers are parsed, and the kernel is asked
    for an empty task, for its segments, and to start it with its arguments
    on its stack. *)
From stdpp Require Import base list numbers option.
From S2P Require Import Prelude Mem Riscv Req Client.
Local Open Scope Z_scope.

Definition ELF_MAGIC : Z := 0x464C457F.
Definition PT_LOAD : Z := 1.
Definition PF_X : Z := 1.
Definition PF_W : Z := 2.
Definition PF_R : Z := 4.
Definition ARG_MAX : Z := 1024.
Definition ARG_BASE : Z := USTACK_TOP - 1024.

(** [struct vmload], with the bytes from the source address on; and what a
    task begins with. *)
Record vmload := mkVmload { vl_va : Z; vl_src : list Z; vl_filesz : Z; vl_memsz : Z; vl_perm : Z }.
Record startinfo := mkStart { si_entry : Z; si_sp : Z; si_a0 : Z; si_a1 : Z }.
(** What the kernel does for whoever builds a task, and whether an
    allocation of so many bytes succeeds. *)
Class Builder (W : Type) := {
  sys_newtask : list Z → prog W Z;
  sys_vmload : Z → vmload → prog W Z;
  sys_start : Z → startinfo → prog W Z;
  heap_gives : Z → prog W bool }.

(** ** Numbers in bytes *)

Fixpoint le_of (n : nat) (v : Z) : list Z := match n with O => [] | S n' => u8 v :: le_of n' (Z.shiftr v 8) end.
Fixpoint of_le (l : list Z) : Z := match l with [] => 0 | b :: l' => b + 256 * of_le l' end.
(** [n] bytes of the image as a number; [None] outside what was read. *)
Definition peek (img : list Z) (off : Z) (n : nat) : option Z :=
  if (0 <=? off) && (off + Z.of_nat n <=? Z.of_nat (length img)) then Some (of_le (take n (drop (Z.to_nat off) img))) else None.

(** The bytes of the image from an address on, [[]] when it is not in it. *)
Definition bytes_at (img : list Z) (off : Z) : list Z := if Z.of_nat (length img) <=? off then [] else drop (Z.to_nat off) img.

(** ** The arguments *)

Definition put_at (k : nat) (l b : list Z) : list Z := take k b ++ l ++ drop (k + length l) b.
(** The block with the strings from [i] on added at [off]; [None] when they
    do not fit. *)
Fixpoint args_loop (i : nat) (args : list (list Z)) (off : Z) (blk : list Z) : option (nat * Z * list Z) :=
  match args with
  | [] => Some (i, off, blk)
  | a :: args' =>
      let l := Z.of_nat (length a) + 1 in
      if ARG_MAX <? off + l then None
      else
        let blk := put_at (Z.to_nat off) (a ++ [0]) blk in
        args_loop (S i) args' (off + l) (put_at (8 * i) (le_of 8 (ARG_BASE + off)) blk)
  end.
Definition build_args (blk : list Z) (args : list (list Z)) : option (Z * list Z) :=
  match args_loop 0 args ((Z.of_nat (length args) + 1) * 8) blk with
  | Some (i, off, blk) => Some (off, put_at (8 * i) (le_of 8 0) blk)
  | None => None
  end.
Definition elf_args : list Z → list (list Z) → option (Z * list Z) := build_args.

Section loader.
Context {W : Type} `{World W} `{Builder W}.
Context (junk : vfs_req) (stack : list Z) (fuel : nat).

(** ** The file *)

Fixpoint slurp_loop (n : nat) (f cap : Z) (buf : list Z) : prog W (option (list Z)) :=
  match n with
  | O => diverge
  | S n' =>
      let* room := (if Z.of_nat (length buf) =? cap then heap_gives (cap * 2) else pret true) in
      if negb room then pret None
      else
        let cap := if Z.of_nat (length buf) =? cap then cap * 2 else cap in
        let* (k, d) := vfs_read junk f (cap - Z.of_nat (length buf)) in
        if k <=? 0 then pret (Some buf) else slurp_loop n' f cap (buf ++ d)
  end.
Definition READ_CAP : Z := 8192.
Definition read_whole (p : list Z) : prog W (option (list Z)) :=
  let* f := vfs_open junk p in
  if f <? 0 then pret None
  else
    let* ok := heap_gives READ_CAP in
    let* b := (if ok : bool then slurp_loop fuel f READ_CAP [] else pret None) in
    let* _ := vfs_close junk f in
    pret b.
Definition elf_slurp : list Z → prog W (option (list Z)) := read_whole.

(** ** The image *)

Definition need (x : option Z) : prog W Z := match x with Some v => pret v | None => diverge end.
Definition seg_perm (flags : Z) : Z :=
  Z.lor (if Z.land flags PF_R =? 0 then 0 else PTE_R)
    (Z.lor (if Z.land flags PF_W =? 0 then 0 else PTE_W) (if Z.land flags PF_X =? 0 then 0 else PTE_X)).
(** The program headers from [i] on; [false] when one is refused. *)
Fixpoint load_segments (n : nat) (i : Z) (img : list Z) (tid phoff entsize : Z) : prog W bool :=
  match n with
  | O => pret true
  | S n' =>
      let at_ := u64 (phoff + i * entsize) in
      let* type := need (peek img at_ 4) in
      if negb (type =? PT_LOAD) then load_segments n' (i + 1) img tid phoff entsize
      else
        let* flags := need (peek img (at_ + 4) 4) in
        let* off := need (peek img (at_ + 8) 8) in
        let* va := need (peek img (at_ + 16) 8) in
        let* filesz := need (peek img (at_ + 32) 8) in
        let* memsz := need (peek img (at_ + 40) 8) in
        if Z.of_nat (length img) <? u64 (off + filesz) then pret false
        else
          let* k := sys_vmload tid (mkVmload va (bytes_at img off) filesz memsz (seg_perm flags)) in
          if k <? 0 then pret false else load_segments n' (i + 1) img tid phoff entsize
  end.
(** The argument block, when there are arguments. *)
Definition load_args (tid : Z) (args : list (list Z)) : prog W bool :=
  if (length args =? 0)%nat then pret true
  else
    match build_args stack args with
    | None => pret false
    | Some (len, blk) =>
        let* k := sys_vmload tid (mkVmload ARG_BASE blk len len (Z.lor PTE_R PTE_W)) in
        pret (negb (k <? 0))
    end.
(** A new task with the image in it, started; -1 when something failed. *)
Definition spawn_image (p img : list Z) (args : list (list Z)) : prog W Z :=
  let* magic := need (peek img 0 4) in
  if negb (magic =? ELF_MAGIC) then pret (-1)
  else
    let* tid := sys_newtask p in
    if tid <? 0 then pret (-1)
    else
      let* phoff := need (peek img 32 8) in
      let* entsize := need (peek img 54 2) in
      let* phnum := need (peek img 56 2) in
      let* ok := load_segments (Z.to_nat phnum) 0 img tid phoff entsize in
      if negb ok then pret (-1)
      else
        let* entry := need (peek img 24 8) in
        let* ok := load_args tid args in
        if negb ok then pret (-1)
        else
          let* k := sys_start tid (mkStart entry (ARG_BASE - 32) (Z.of_nat (length args)) ARG_BASE) in
          pret (if k <? 0 then -1 else tid).
Definition spawn (p : list Z) (args : list (list Z)) : prog W Z :=
  let* img := read_whole p in
  match img with
  | None => pret (-1)
  | Some [] => pret (-1)
  | Some img => spawn_image p img args
  end.
Definition prun (p : list Z) (args : list (list Z)) : prog W Z :=
  let* img := elf_slurp p in
  match img with
  | None => pret (-1)
  | Some img => if (length img =? 0)%nat then pret (-1) else spawn_image p img args
  end.
End loader.

(** ** The arguments arrive as they were given

    A program finds its arguments as C programs do: the pointer at [8*i] of
    the block, and the string it points to up to its NUL. *)
Definition argv_read (blk : list Z) (i : nat) : option (list Z) :=
  p ← peek blk (8 * Z.of_nat i) 8; Some (cstr (drop (Z.to_nat (p - ARG_BASE)) blk)).
Definition strings_size (args : list (list Z)) : Z := foldr (λ a n, Z.of_nat (length a) + 1 + n) 0 args.
Definition args_size (args : list (list Z)) : Z := 8 * (Z.of_nat (length args) + 1) + strings_size args.

Lemma bytes_at_drop img off : bytes_at img off = drop (Z.to_nat off) img.
Proof. unfold bytes_at. destruct (Z.leb_spec (Z.of_nat (length img)) off); [|done]. rewrite drop_ge; [done|lia]. Qed.
Lemma length_le_of n v : length (le_of n v) = n.
Proof. revert v. induction n as [|n IH]; intros v; [done|]. cbn. by rewrite IH. Qed.
Lemma of_le_le_of n v : 0 <= v < 2 ^ (8 * Z.of_nat n) → of_le (le_of n v) = v.
Proof.
  revert v. induction n as [|n IH]; intros v Hv; [cbn in *; lia|]. cbn [le_of of_le].
  replace (2 ^ (8 * Z.of_nat (S n))) with (256 * 2 ^ (8 * Z.of_nat n)) in Hv.
  2: { replace (8 * Z.of_nat (S n)) with (8 + 8 * Z.of_nat n) by lia. rewrite Z.pow_add_r by lia. lia. }
  rewrite Z.shiftr_div_pow2 by lia. change (2 ^ 8) with 256. rewrite IH by ldiv.
  unfold u8. change (2 ^ 8) with 256. ldiv.
Qed.

(** [n] bytes from [k]. *)
Definition slice (l : list Z) (k n : nat) : list Z := take n (drop k l).
Lemma length_put_at k l b : (k + length l <= length b)%nat → length (put_at k l b) = length b.
Proof. intros H. unfold put_at. rewrite !length_app, length_take, length_drop. lia. Qed.
Lemma slice_put_eq k l b : (k <= length b)%nat → slice (put_at k l b) k (length l) = l.
Proof.
  intros H. unfold slice, put_at.
  rewrite drop_app_length' by (rewrite length_take; lia). by rewrite take_app_length.
Qed.
Lemma slice_put_ne k l b m n :
  (k + length l <= length b)%nat → (m + n <= k ∨ k + length l <= m)%nat → slice (put_at k l b) m n = slice b m n.
Proof.
  intros H Hd. apply list_eq. intros i. unfold slice.
  destruct (decide (i < n)%nat); [|by rewrite !lookup_take_ge by lia].
  rewrite !lookup_take_lt, !lookup_drop by lia. unfold put_at. destruct Hd as [Hd|Hd].
  - rewrite lookup_app_l by (rewrite length_take; lia). by rewrite lookup_take_lt by lia.
  - rewrite lookup_app_r by (rewrite length_take; lia). rewrite lookup_app_r by (rewrite length_take; lia).
    rewrite lookup_drop, length_take. f_equal. lia.
Qed.
Lemma peek_slice b k n v :
  (k + n <= length b)%nat → 0 <= v < 2 ^ (8 * Z.of_nat n) → slice b k n = le_of n v → peek b (Z.of_nat k) n = Some v.
Proof.
  intros Hk Hv Hs. unfold peek.
  replace (_ && _) with true by (symmetry; apply andb_true_intro; split; apply Z.leb_le; lia).
  rewrite Nat2Z.id. fold (slice b k n). by rewrite Hs, of_le_le_of.
Qed.
Lemma cstr_zero a l : Forall (λ c, c ≠ 0) a → cstr (a ++ 0 :: l) = a.
Proof.
  induction 1 as [|c a Hc _ IH]; [done|]. cbn. rewrite IH. by destruct (Z.eqb_spec c 0).
Qed.
Lemma cstr_slice b k a :
  Forall (λ c, c ≠ 0) a → slice b k (length a + 1) = a ++ [0] → cstr (drop k b) = a.
Proof.
  intros Ha Hs. rewrite <- (take_drop (length a + 1) (drop k b)). fold (slice b k (length a + 1)).
  rewrite Hs, <- app_assoc. by apply cstr_zero.
Qed.
Lemma strings_size_pos args : 0 <= strings_size args.
Proof. unfold strings_size. induction args as [|a args IH]; cbn [foldr]; [lia|]. lia. Qed.

(** What the loop leaves: the pointers and strings it placed, and the rest of
    the two areas as it was. *)
Definition untouched (i n off : nat) (b b' : list Z) : Prop :=
  ∀ m k, (m + k <= 8 * i ∨ (8 * n <= m ∧ m + k <= off))%nat → slice b' m k = slice b m k.
Lemma args_loop_places args : ∀ i off blk,
  length blk = 1024%nat → Forall (Forall (λ c, c ≠ 0)) args →
  8 * (Z.of_nat (i + length args) + 1) <= off → off + strings_size args <= 1024 →
  ∃ blk', args_loop i args off blk = Some ((i + length args)%nat, off + strings_size args, blk') ∧
    length blk' = 1024%nat ∧ untouched i (i + length args) (Z.to_nat off) blk blk' ∧
    ∀ j a, args !! j = Some a → ∃ k, slice blk' (8 * (i + j)) 8 = le_of 8 (ARG_BASE + k) ∧
      off <= k < 1024 ∧ slice blk' (Z.to_nat k) (length a + 1) = a ++ [0].
Proof.
  induction args as [|a args IH]; intros i off blk Hb Hnz Hoff Hfit.
  - exists blk. cbn. rewrite Nat.add_0_r, Z.add_0_r. split_and!; [done|done| |done]. intros m k _. done.
  - apply list.Forall_cons in Hnz as [Ha Hnz]. cbn [strings_size foldr] in Hfit. fold (strings_size args) in Hfit.
    cbn [length] in Hoff. pose proof (strings_size_pos args).
    set (b1 := put_at (Z.to_nat off) (a ++ [0]) blk).
    set (b2 := put_at (8 * i) (le_of 8 (ARG_BASE + off)) b1).
    assert (length b1 = 1024%nat) as H1 by (subst b1; rewrite length_put_at; [done|rewrite length_app; cbn; lia]).
    assert (length b2 = 1024%nat) as H2 by (subst b2; rewrite length_put_at; rewrite ?length_le_of; lia).
    destruct (IH (S i) (off + (Z.of_nat (length a) + 1)) b2 H2 Hnz ltac:(lia) ltac:(lia)) as (b' & Hrun & Hlen & Hun & Hget).
    exists b'. cbn [args_loop]. unfold ARG_MAX.
    destruct (Z.ltb_spec 1024 (off + (Z.of_nat (length a) + 1))); [lia|].
    fold b1. fold b2. rewrite Hrun. cbn [length strings_size foldr]. fold (strings_size args).
    split_and!; [replace (S i + length args)%nat with (i + S (length args))%nat by lia; by rewrite <- Z.add_assoc|done| |].
    + intros m k Hm. rewrite Hun by lia. subst b2.
      rewrite slice_put_ne by (rewrite ?H1, ?length_le_of; lia).
      apply slice_put_ne; rewrite length_app; cbn; lia.
    + intros [|j] a' Hj.
      * injection Hj as <-. exists off. rewrite Nat.add_0_r. rewrite !Hun by lia. split_and!; [|lia|lia|].
        -- subst b2. rewrite <- (length_le_of 8 (ARG_BASE + off)) at 1. rewrite slice_put_eq; [done|lia].
        -- subst b2. rewrite slice_put_ne by (rewrite ?length_le_of; lia). subst b1.
           replace (length a + 1)%nat with (length (a ++ [0])) by (rewrite length_app; done). rewrite slice_put_eq; [done|lia].
      * destruct (Hget j a' Hj) as (k & ? & ? & ?). exists k. replace (i + S j)%nat with (S i + j)%nat by lia. split_and!; [done|lia|lia|done].
Qed.

Lemma arg_base_small : 0 <= ARG_BASE < 2 ^ 63.
Proof. by vm_compute. Qed.

(** C31: the argument block of a started program: when pointers and strings
    fit in a kilobyte it is built, whatever the memory held before, and the
    program finds in it exactly the arguments it was given, in order, behind
    the last a null pointer. *)
Theorem args_round_trip blk args :
  length blk = 1024%nat → Forall (Forall (λ c, c ≠ 0)) args → args_size args <= ARG_MAX →
  ∃ blk', build_args blk args = Some (args_size args, blk') ∧ length blk' = 1024%nat ∧
    (∀ i a, args !! i = Some a → argv_read blk' i = Some a) ∧
    peek blk' (8 * Z.of_nat (length args)) 8 = Some 0.
Proof.
  unfold args_size, ARG_MAX. intros Hb Hnz Hfit. pose proof (strings_size_pos args).
  destruct (args_loop_places args 0 (8 * (Z.of_nat (length args) + 1)) blk Hb Hnz ltac:(lia) ltac:(lia))
    as (b & Hrun & Hlen & Hun & Hget). cbn [Nat.add] in *.
  unfold build_args. rewrite (Z.mul_comm _ 8), Hrun. eexists. split; [done|].
  set (b' := put_at _ _ b).
  assert (length b' = 1024%nat) as Hb' by (subst b'; rewrite length_put_at; rewrite ?length_le_of; lia).
  split_and!; [done| |].
  - intros i a Hi. destruct (Hget i a Hi) as (k & Hp & Hk & Hs). apply lookup_lt_Some in Hi as Hlt.
    unfold argv_read. replace (8 * Z.of_nat i) with (Z.of_nat (8 * i)) by lia.
    rewrite (peek_slice _ _ 8 (ARG_BASE + k)).
    + change (Some (cstr (drop (Z.to_nat (ARG_BASE + k - ARG_BASE)) b')) = Some a). rewrite Z.add_simpl_l. f_equal. apply cstr_slice; [by eapply Forall_lookup_1|].
      subst b'. rewrite slice_put_ne; [done|rewrite length_le_of; lia|rewrite length_le_of; lia].
    + lia.
    + pose proof arg_base_small. lia.
    + subst b'. rewrite slice_put_ne; [done|rewrite length_le_of; lia|rewrite length_le_of; lia].
  - replace (8 * Z.of_nat (length args)) with (Z.of_nat (8 * length args)) by lia.
    apply peek_slice; [lia|done|]. subst b'. apply slice_put_eq. lia.
Qed.
Lemma args_round_trip_witness :
  ∃ blk', build_args (replicate 1024 7) [str "/BIN/HELLO.ELF"; str "alpha"; []] = Some (54, blk') ∧
    argv_read blk' 0 = Some (str "/BIN/HELLO.ELF") ∧ argv_read blk' 1 = Some (str "alpha") ∧ argv_read blk' 2 = Some [] ∧
    peek blk' 24 8 = Some 0.
Proof.
  destruct (args_round_trip (replicate 1024 7) [str "/BIN/HELLO.ELF"; str "alpha"; []]) as (b & Hb & _ & Hget & H0).
  - apply length_replicate.
  - apply (bool_decide_unpack _). vm_compute. done.
  - vm_compute. done.
  - exists b. split_and!; [exact Hb|by apply Hget|by apply Hget|by apply Hget|exact H0].
Defined.

(** Arguments that do not fit are refused, not cut. *)
Lemma args_loop_refuses args i off b : args ≠ [] → ARG_MAX < off + strings_size args → args_loop i args off b = None.
Proof.
  unfold ARG_MAX. intros Hne. revert i off b Hne. induction args as [|a args IH]; [done|]. intros i off b _ Hs.
  cbn [args_loop strings_size foldr] in *. fold (strings_size args) in Hs.
  unfold ARG_MAX in *. destruct (Z.ltb_spec 1024 (off + (Z.of_nat (length a) + 1))); [done|].
  destruct args as [|a2 args]; [cbn in Hs; lia|]. apply IH; [done|lia].
Qed.
Lemma args_refused blk args : ARG_MAX < args_size args → build_args blk args = None.
Proof.
  intros Hs. unfold build_args. rewrite args_loop_refuses; [done| |].
  - intros ->. by vm_compute in Hs.
  - unfold args_size in Hs. lia.
Qed.

(** ** What is linked is what is loaded (src/src/elf.h, src/src/loader.c)

    The bytes of an executable as elf.h lays them out, and the theorem that
    the loader asks the kernel for exactly the segments of it. *)

(** ** Structures as bytes *)

(** Widths and values of the members, in order. *)
Definition struct : Type := list (nat * Z).
Definition enc (fs : struct) : list Z := concat ((λ f, le_of f.1 f.2) <$> fs).
Definition width (fs : struct) : nat := sum_list (fst <$> fs).
Definition fits_width (f : nat * Z) : Prop := 0 <= f.2 < 2 ^ (8 * Z.of_nat f.1).

Lemma length_enc fs : length (enc fs) = width fs.
Proof. unfold width. induction fs as [|[n v] fs IH]; [done|]. cbn. rewrite length_app, length_le_of. f_equal. apply IH. Qed.
Lemma enc_split fs i n v : fs !! i = Some (n, v) → enc fs = enc (take i fs) ++ le_of n v ++ enc (drop (S i) fs).
Proof.
  intros H. rewrite <- (take_drop_middle fs i (n, v) H) at 1. unfold enc. rewrite fmap_app, concat_app. done.
Qed.
(** A member is where the widths before it put it. *)
Lemma peek_member pre fs post i n v off :
  fs !! i = Some (n, v) → fits_width (n, v) → off = Z.of_nat (length pre + width (take i fs)) →
  peek (pre ++ enc fs ++ post) off n = Some v.
Proof.
  intros Hi Hv ->. rewrite (enc_split fs i n v Hi).
  apply peek_slice; [|done|].
  - rewrite !length_app, length_enc, length_le_of. lia.
  - unfold slice. rewrite <- !app_assoc, app_assoc.
    rewrite drop_app_length' by (rewrite length_app, length_enc; lia).
    rewrite take_app_length' by (by rewrite length_le_of). done.
Qed.

Definition uint16 (v : Z) : nat * Z := (2%nat, v).
Definition uint32 (v : Z) : nat * Z := (4%nat, v).
Definition uint64 (v : Z) : nat * Z := (8%nat, v).

(** [struct elf64_ehdr] and [struct elf64_phdr]; what the loader does not
    read is arbitrary. *)
Record ehdr := mkEhdr { e_entry : Z; e_phoff : Z; e_phentsize : Z; e_phnum : Z; e_other : Z }.
Definition ehdr_struct (h : ehdr) : struct :=
  [uint32 ELF_MAGIC; (12%nat, e_other h); uint16 2; uint16 243; uint32 1; uint64 (e_entry h); uint64 (e_phoff h); uint64 0; uint32 0; uint16 64;
   uint16 (e_phentsize h); uint16 (e_phnum h); uint16 0; uint16 0; uint16 0].
Record phdr := mkPhdr { p_type : Z; p_flags : Z; p_offset : Z; p_vaddr : Z; p_paddr : Z; p_filesz : Z; p_memsz : Z; p_align : Z }.
Definition phdr_struct (p : phdr) : struct :=
  [uint32 (p_type p); uint32 (p_flags p); uint64 (p_offset p); uint64 (p_vaddr p); uint64 (p_paddr p); uint64 (p_filesz p);
   uint64 (p_memsz p); uint64 (p_align p)].

(** A linked program: where it starts, and its parts, each with its bytes. *)
Record part := mkPart { g_type : Z; g_flags : Z; g_va : Z; g_bytes : list Z; g_memsz : Z }.
Definition part_phdr (off : Z) (g : part) : phdr :=
  mkPhdr (g_type g) (g_flags g) off (g_va g) 0 (Z.of_nat (length (g_bytes g))) (g_memsz g) 16.
Fixpoint phdrs (off : Z) (gs : list part) : list phdr :=
  match gs with
  | [] => []
  | g :: gs' => part_phdr off g :: phdrs (off + Z.of_nat (length (g_bytes g))) gs'
  end.
Definition contents (gs : list part) : list Z := concat (g_bytes <$> gs).
Definition ehdr_of (entry : Z) (gs : list part) : ehdr := mkEhdr entry 64 56 (Z.of_nat (length gs)) 0.
Definition phdrs_at (gs : list part) : Z := 64 + 56 * Z.of_nat (length gs).
Definition elf_file (entry : Z) (gs : list part) : list Z :=
  enc (ehdr_struct (ehdr_of entry gs)) ++ concat ((λ p, enc (phdr_struct p)) <$> phdrs (phdrs_at gs) gs) ++ contents gs.

Definition part_ok (g : part) : Prop :=
  0 <= g_type g < 2 ^ 32 ∧ 0 <= g_flags g < 2 ^ 32 ∧ 0 <= g_va g < 2 ^ 64 ∧ 0 <= g_memsz g < 2 ^ 64.
Definition linked_ok (entry : Z) (gs : list part) : Prop :=
  0 <= entry < 2 ^ 64 ∧ Forall part_ok gs ∧ Z.of_nat (length gs) < 2 ^ 16 ∧ Z.of_nat (length (elf_file entry gs)) < 2 ^ 63.

(** ** What a builder is asked for *)

(** The kernel copies [filesz] bytes from the address it is given, and no
    more (SYS_VMLOAD). *)
Class BuilderLaws W `{Builder W} := {
  vmload_reads tid va b fz ms perm (s : W) :
    0 <= fz → sys_vmload tid (mkVmload va b fz ms perm) s = sys_vmload tid (mkVmload va (take (Z.to_nat fz) b) fz ms perm) s }.

(** The permissions of a part, from the three bits of its flags: readable
    is bit 2 there and bit 1 in a page table, writable 1 and 2, executable
    0 and 3. *)
Definition part_perm (flags : Z) : Z :=
  (if Z.testbit flags 2 then 2 else 0) + (if Z.testbit flags 1 then 4 else 0) + (if Z.testbit flags 0 then 8 else 0).
(** The block a program finds at the top of its stack: a pointer to each
    argument, a null pointer, and the strings. *)
Fixpoint arg_pointers (off : Z) (args : list (list Z)) : list Z :=
  match args with
  | [] => []
  | a :: args' => le_of 8 (USTACK_TOP - 1024 + off) ++ arg_pointers (off + Z.of_nat (length a) + 1) args'
  end.
Definition arg_strings (args : list (list Z)) : list Z := concat ((λ a, a ++ [0]) <$> args).
Definition arg_block (args : list (list Z)) : list Z :=
  arg_pointers (8 * (Z.of_nat (length args) + 1)) args ++ replicate 8 0 ++ arg_strings args.

Section linked.
Context {W : Type} `{Builder W}.

(** The loadable parts, in order, each with its bytes. *)
Fixpoint load_parts (tid : Z) (gs : list part) : prog W bool :=
  match gs with
  | [] => pret true
  | g :: gs' =>
      if negb (g_type g =? PT_LOAD) then load_parts tid gs'
      else
        let* k := sys_vmload tid (mkVmload (g_va g) (g_bytes g) (Z.of_nat (length (g_bytes g))) (g_memsz g) (part_perm (g_flags g))) in
        if k <? 0 then pret false else load_parts tid gs'
  end.
(** The arguments, when there are any and they fit in a kilobyte. *)
Definition give_args (tid : Z) (args : list (list Z)) : prog W bool :=
  if decide (args = []) then pret true
  else if decide (args_size args <= 1024) then
    let* k := sys_vmload tid (mkVmload (USTACK_TOP - 1024) (arg_block args) (args_size args) (args_size args) (2 + 4)) in
    pret (negb (k <? 0))
  else pret false.
Definition start_linked (p : list Z) (entry : Z) (gs : list part) (args : list (list Z)) : prog W Z :=
  let* tid := sys_newtask p in
  if tid <? 0 then pret (-1)
  else
    let* ok := load_parts tid gs in
    if negb ok then pret (-1)
    else
      let* ok := give_args tid args in
      if negb ok then pret (-1)
      else
        let* k := sys_start tid (mkStart entry (USTACK_TOP - 1056) (Z.of_nat (length args)) (USTACK_TOP - 1024)) in
        pret (if k <? 0 then -1 else tid).
End linked.

(** ** Proofs *)

Lemma length_phdrs gs : ∀ off, length (phdrs off gs) = length gs.
Proof. induction gs as [|g gs IH]; intros off; cbn; [done|]. by rewrite IH. Qed.
Lemma length_phdr_bytes ps : length (concat ((λ p, enc (phdr_struct p)) <$> ps)) = (56 * length ps)%nat.
Proof. induction ps as [|p ps IH]; [done|]. cbn [fmap list_fmap concat length]. rewrite length_app, length_enc, IH. cbn. lia. Qed.

(** Steps of a program that cannot fail. *)
Lemma pbind_need {W A} x v (k : Z → prog W A) s : x = Some v → (let* y := need x in k y) s = k v s.
Proof. by intros ->. Qed.
Lemma pbind_ext {W A B} (m m' : prog W A) (k k' : A → prog W B) s :
  m s = m' s → (∀ a s', k a s' = k' a s') → pbind m k s = pbind m' k' s.
Proof. unfold pbind. intros ->. destruct (m' s) as [[a s']|]; [|done]. intros Hk. apply Hk. Qed.

Lemma land_pow2 f n : 0 <= n → (Z.land f (2 ^ n) =? 0) = negb (Z.testbit f n).
Proof.
  intros Hn. destruct (Z.testbit f n) eqn:E; cbn [negb].
  - apply Z.eqb_neq. intros H0. assert (Z.testbit (Z.land f (2 ^ n)) n = true) as Ht.
    { rewrite Z.land_spec, E, Z.pow2_bits_true by done. done. }
    by rewrite H0, Z.bits_0 in Ht.
  - apply Z.eqb_eq. apply Z.bits_inj'. intros m Hm. rewrite Z.land_spec, Z.bits_0, Z.pow2_bits_eqb by done.
    destruct (Z.eqb_spec n m) as [<-|]; [by rewrite E|apply andb_false_r].
Qed.
Lemma seg_perm_part flags : seg_perm flags = part_perm flags.
Proof.
  unfold seg_perm, part_perm. change PF_R with (2 ^ 2). change PF_W with (2 ^ 1). change PF_X with (2 ^ 0).
  rewrite (land_pow2 flags 2), (land_pow2 flags 1), (land_pow2 flags 0) by lia.
  destruct (Z.testbit flags 2), (Z.testbit flags 1), (Z.testbit flags 0); reflexivity.
Qed.

Lemma slice_add l k m n : slice l k (m + n) = slice l k m ++ slice l (k + m) n.
Proof. unfold slice. rewrite <- (drop_drop l m k). generalize (drop k l). intros d. by rewrite take_take_drop. Qed.
Lemma length_arg_strings args : Z.of_nat (length (arg_strings args)) = strings_size args.
Proof.
  unfold arg_strings, strings_size. induction args as [|a args IH]; [done|].
  cbn [fmap list_fmap concat foldr]. rewrite length_app, Nat2Z.inj_add, IH, length_app. cbn [length]. lia.
Qed.
(** The pointers and the strings as the loop leaves them. *)
Lemma args_loop_block args : ∀ i off blk,
  length blk = 1024%nat → 8 * (Z.of_nat (i + length args) + 1) <= off → off + strings_size args <= 1024 →
  ∃ blk', args_loop i args off blk = Some ((i + length args)%nat, off + strings_size args, blk') ∧
    length blk' = 1024%nat ∧ untouched i (i + length args) (Z.to_nat off) blk blk' ∧
    slice blk' (8 * i) (8 * length args) = arg_pointers off args ∧
    slice blk' (Z.to_nat off) (length (arg_strings args)) = arg_strings args.
Proof.
  induction args as [|a args IH]; intros i off blk Hb Hoff Hfit.
  - exists blk. cbn. rewrite Nat.add_0_r, Z.add_0_r. split_and!; done.
  - cbn [strings_size foldr] in Hfit. fold (strings_size args) in Hfit.
    cbn [length] in Hoff. pose proof (strings_size_pos args). pose proof (length_arg_strings args) as Hls.
    set (b1 := put_at (Z.to_nat off) (a ++ [0]) blk).
    set (b2 := put_at (8 * i) (le_of 8 (ARG_BASE + off)) b1).
    assert (length b1 = 1024%nat) as H1 by (subst b1; rewrite length_put_at; [done|rewrite length_app; cbn; lia]).
    assert (length b2 = 1024%nat) as H2 by (subst b2; rewrite length_put_at; rewrite ?length_le_of; lia).
    destruct (IH (S i) (off + (Z.of_nat (length a) + 1)) b2 H2 ltac:(lia) ltac:(lia)) as (b' & Hrun & Hlen & Hun & Hp & Hs).
    exists b'. cbn [args_loop]. unfold ARG_MAX.
    destruct (Z.ltb_spec 1024 (off + (Z.of_nat (length a) + 1))); [lia|].
    fold b1. fold b2. rewrite Hrun. cbn [length strings_size foldr]. fold (strings_size args).
    split_and!; [replace (S i + length args)%nat with (i + S (length args))%nat by lia; by rewrite <- Z.add_assoc|done| | |].
    + intros m k Hm. rewrite Hun by lia. subst b2.
      rewrite slice_put_ne by (rewrite ?H1, ?length_le_of; lia).
      apply slice_put_ne; rewrite length_app; cbn; lia.
    + replace (8 * S (length args))%nat with (8 + 8 * length args)%nat by lia. rewrite slice_add.
      replace (8 * i + 8)%nat with (8 * S i)%nat by lia. rewrite Hp, Hun by lia. cbn [arg_pointers].
      rewrite Z.add_assoc. f_equal. subst b2.
      rewrite <- (length_le_of 8 (ARG_BASE + off)) at 1. rewrite slice_put_eq; [done|lia].
    + change (arg_strings (a :: args)) with ((a ++ [0]) ++ arg_strings args). rewrite length_app, slice_add.
      replace (Z.to_nat off + length (a ++ [0%Z]))%nat with (Z.to_nat (off + (Z.of_nat (length a) + 1)))
        by (rewrite length_app; cbn; lia).
      rewrite Hs, Hun by (rewrite length_app; cbn; lia). f_equal. subst b2.
      rewrite slice_put_ne by (rewrite ?H1, ?length_le_of, ?length_app; cbn; lia).
      subst b1. rewrite slice_put_eq; [done|lia].
Qed.
Lemma build_args_block blk args :
  length blk = 1024%nat → args_size args <= 1024 →
  ∃ blk', build_args blk args = Some (args_size args, blk') ∧ take (Z.to_nat (args_size args)) blk' = arg_block args.
Proof.
  unfold args_size. intros Hb Hfit. pose proof (strings_size_pos args). pose proof (length_arg_strings args) as Hls.
  destruct (args_loop_block args 0 (8 * (Z.of_nat (length args) + 1)) blk Hb ltac:(lia) ltac:(lia))
    as (b & Hrun & Hlen & _ & Hp & Hs). cbn [Nat.add] in *.
  unfold build_args. rewrite (Z.mul_comm _ 8), Hrun. eexists. split; [done|].
  set (b' := put_at _ _ b). change (take ?n b') with (slice b' 0 n).
  replace (Z.to_nat _) with (8 * length args + (8 + length (arg_strings args)))%nat by lia.
  rewrite !slice_add. unfold arg_block. f_equal; [|f_equal].
  - subst b'. rewrite slice_put_ne; [done|rewrite length_le_of; lia|rewrite length_le_of; lia].
  - subst b'. change (replicate 8 0) with (le_of 8 0). apply (slice_put_eq (8 * length args) (le_of 8 0)). lia.
  - subst b'. rewrite slice_put_ne by (rewrite length_le_of; lia).
    replace (0 + 8 * length args + 8)%nat with (Z.to_nat (8 * (Z.of_nat (length args) + 1))) by lia. done.
Qed.

Section proofs.
Context {W : Type} `{BuilderLaws W}.

(** The argument step of the loader is the one asked for. *)
Lemma load_args_given stack tid args (s : W) :
  length stack = 1024%nat → load_args stack tid args s = give_args tid args s.
Proof.
  intros Hst. unfold load_args, give_args. destruct (decide (args = [])) as [->|Hne]; [done|].
  destruct (Nat.eqb_spec (length args) 0) as [E|_]; [by apply nil_length_inv in E|].
  case_decide as Hfit.
  - destruct (build_args_block stack args Hst Hfit) as (blk & -> & Hblk).
    apply pbind_ext; [|done]. rewrite vmload_reads.
    + by rewrite Hblk.
    + unfold args_size. pose proof (strings_size_pos args). lia.
  - by rewrite args_refused by (unfold ARG_MAX; lia).
Qed.

(** The headers from the [i]th part on. *)
Lemma load_segments_linked tid img pre gs : ∀ i off mid,
  img = pre ++ concat ((λ p, enc (phdr_struct p)) <$> phdrs off gs) ++ mid ++ contents gs →
  Z.of_nat (length pre) = 64 + i * 56 → 0 <= i → Z.of_nat (length img) < 2 ^ 63 → Forall part_ok gs →
  off = 64 + i * 56 + Z.of_nat (56 * length gs + length mid) →
  ∀ s, load_segments (length gs) i img tid 64 56 s = load_parts tid gs s.
Proof.
  revert pre. induction gs as [|g gs IH]; intros pre i off mid Himg Hpre Hi Hlen Hok Hoff s; [done|].
  apply list.Forall_cons in Hok as [(Ht & Hf & Hva & Hms) Hok].
  cbn [length load_segments load_parts phdrs fmap list_fmap concat] in *.
  set (ph := part_phdr off g) in *.
  assert (length (enc (phdr_struct ph)) = 56%nat) as H56 by apply length_enc.
  assert (contents (g :: gs) = g_bytes g ++ contents gs) as Hc by done. rewrite Hc in Himg.
  assert (Z.of_nat (length img) = 64 + i * 56 + 56 + Z.of_nat (56 * length gs) + Z.of_nat (length mid) + Z.of_nat (length (g_bytes g)) + Z.of_nat (length (contents gs))) as Himl.
  { rewrite Himg, !length_app, H56, length_phdr_bytes, length_phdrs. lia. }
  assert (∀ j n v o, phdr_struct ph !! j = Some (n, v) → fits_width (n, v) → o = Z.of_nat (length pre + width (take j (phdr_struct ph))) → peek img o n = Some v) as Hpk.
  { intros j n v o. rewrite Himg, <- !app_assoc. apply peek_member. }
  assert (u64 (64 + i * 56) = 64 + i * 56) as Hat by (apply u64_small; lia). rewrite Hat.
  rewrite (pbind_need _ (g_type g)) by (apply (Hpk 0%nat); [done|done|cbn; lia]).
  assert (∀ s', load_segments (length gs) (i + 1) img tid 64 56 s' = load_parts tid gs s') as Hnext.
  { intros s'. apply (IH (pre ++ enc (phdr_struct ph)) (i + 1) (off + Z.of_nat (length (g_bytes g))) (mid ++ g_bytes g)); try done; try lia.
    - rewrite Himg, <- !app_assoc. done.
    - rewrite length_app. lia.
    - rewrite length_app. lia. }
  destruct (negb (g_type g =? PT_LOAD)); [apply Hnext|].
  rewrite (pbind_need _ (g_flags g)) by (apply (Hpk 1%nat); [done|done|cbn; lia]).
  rewrite (pbind_need _ off) by (apply (Hpk 2%nat); [done|unfold fits_width; cbn; lia|cbn; lia]).
  rewrite (pbind_need _ (g_va g)) by (apply (Hpk 3%nat); [done|done|cbn; lia]).
  rewrite (pbind_need _ (Z.of_nat (length (g_bytes g)))) by (apply (Hpk 5%nat); [done|unfold fits_width; cbn; lia|cbn; lia]).
  rewrite (pbind_need _ (g_memsz g)) by (apply (Hpk 6%nat); [done|done|cbn; lia]).
  rewrite u64_small by lia.
  destruct (Z.ltb_spec (Z.of_nat (length img)) (off + Z.of_nat (length (g_bytes g)))); [lia|].
  apply pbind_ext.
  - rewrite vmload_reads, seg_perm_part by lia. do 2 f_equal. rewrite Nat2Z.id, bytes_at_drop.
    rewrite Himg. rewrite !app_assoc, <- (app_assoc _ (g_bytes g)), drop_app_length'.
    + by rewrite take_app_length.
    + rewrite !length_app, H56, length_phdr_bytes, length_phdrs. lia.
  - intros k s'. destruct (k <? 0); [done|]. apply Hnext.
Qed.

(** C30: a program that the linker laid out as elf.h says is loaded as it was
    linked: the kernel is asked for a task, then for each loadable part, in
    order, with its bytes, address, size and the permissions of its flags,
    then - when there are arguments - for the block of pointers and strings
    at the top of the stack, and to start at the entry point with the number
    of arguments and their address; nothing more, and the first refusal, or
    arguments of more than a kilobyte, end it with -1. *)
Theorem linked_is_loaded stack p entry gs args (s : W) :
  linked_ok entry gs → length stack = 1024%nat →
  spawn_image stack p (elf_file entry gs) args s = start_linked p entry gs args s.
Proof.
  intros (Hen & Hgs & Hn & Hlen) Hst. set (h := ehdr_of entry gs).
  assert (∀ j n v o, ehdr_struct h !! j = Some (n, v) → fits_width (n, v) → o = Z.of_nat (width (take j (ehdr_struct h))) → peek (elf_file entry gs) o n = Some v) as Hpk.
  { intros j n v o. apply (peek_member []). }
  unfold spawn_image, start_linked.
  rewrite (pbind_need _ ELF_MAGIC) by (by apply (Hpk 0%nat)). cbn [negb Z.eqb Pos.eqb ELF_MAGIC].
  apply pbind_ext; [done|]. intros tid s1. destruct (tid <? 0); [done|].
  rewrite (pbind_need _ 64) by (by apply (Hpk 6%nat)).
  rewrite (pbind_need _ 56) by (by apply (Hpk 10%nat)).
  rewrite (pbind_need _ (Z.of_nat (length gs))) by (apply (Hpk 11%nat); [done|unfold fits_width; cbn; lia|done]).
  rewrite Nat2Z.id. apply pbind_ext.
  { apply (load_segments_linked tid _ (enc (ehdr_struct h)) gs 0 (phdrs_at gs) []); try done; try lia.
    unfold phdrs_at. cbn [length]. lia. }
  intros ok s2. destruct (negb ok); [done|].
  rewrite (pbind_need _ entry) by (by apply (Hpk 5%nat)).
  apply pbind_ext; [by apply load_args_given|]. intros ok' s3. destruct (negb ok'); [done|].
  by apply pbind_ext.
Qed.
End proofs.

(** ** A builder that keeps a record of what it is asked *)

Inductive asked := AskTask (name : list Z) | AskLoad (tid : Z) (v : vmload) | AskStart (tid : Z) (si : startinfo).
Definition ask (a : asked) (r : Z) : prog (list asked) Z := λ log, Some (r, log ++ [a]).
(** Reads of [filesz] bytes; tasks are numbered 20, and a segment at an
    address that is not a user address is refused. *)
#[export] Instance recorder : Builder (list asked) := {
  sys_newtask := λ p, ask (AskTask p) 20;
  sys_vmload := λ tid v,
    ask (AskLoad tid (mkVmload (vl_va v) (take (Z.to_nat (vl_filesz v)) (vl_src v)) (vl_filesz v) (vl_memsz v) (vl_perm v)))
      (if vl_va v =? 0 then -1 else 0);
  sys_start := λ tid si, ask (AskStart tid si) 0;
  heap_gives := λ _, pret true }.
#[export] Instance recorder_laws : BuilderLaws (list asked).
Proof. constructor. intros tid va b fz ms perm s Hfz. cbn. by rewrite take_take, Nat.min_id. Qed.

Definition hello : list part := [mkPart 1 5 0x200000 [19; 0; 0; 0; 115; 0; 0; 0] 8; mkPart 4 0 0 [1; 2] 2; mkPart 1 6 0x201000 [5] 4096].
Lemma linked_is_loaded_witness :
  spawn_image (replicate 1024 7) (str "/BIN/X.ELF") (elf_file 0x200004 hello) [str "x"; str "-l"] [] =
  Some (20, [AskTask (str "/BIN/X.ELF"); AskLoad 20 (mkVmload 0x200000 [19; 0; 0; 0; 115; 0; 0; 0] 8 8 (Z.lor PTE_R PTE_X));
             AskLoad 20 (mkVmload 0x201000 [5] 1 4096 (Z.lor PTE_R PTE_W));
             AskLoad 20 (mkVmload ARG_BASE (le_of 8 (ARG_BASE + 24) ++ le_of 8 (ARG_BASE + 26) ++ le_of 8 0 ++ str "x" ++ [0] ++ str "-l" ++ [0])
                           29 29 (Z.lor PTE_R PTE_W));
             AskStart 20 (mkStart 0x200004 (ARG_BASE - 32) 2 ARG_BASE)]).
Proof.
  rewrite (linked_is_loaded (replicate 1024 7) (str "/BIN/X.ELF") 0x200004 hello [str "x"; str "-l"] []).
  - vm_compute. reflexivity.
  - split_and!; [done|done| |done|by vm_compute].
    apply list.Forall_forall. intros g Hg. unfold hello in Hg. rewrite !elem_of_cons in Hg.
    destruct Hg as [->|[->|[->|Hg]]]; [done|done|done|by apply not_elem_of_nil in Hg].
  - apply length_replicate.
Defined.

(** ** Where the loader does not hold the line *)

(** A file whose parts are at [off] and claim [filesz] bytes. *)
Definition crafted (phoff off filesz : Z) : list Z :=
  enc (ehdr_struct (mkEhdr 0x200000 phoff 56 1 0)) ++ enc (phdr_struct (mkPhdr 1 4 off 0x200000 0 filesz 4096 16)).
(** The sum that is compared with the size of the file wraps: a part that
    begins before the file and ends in it is passed on, and the child is
    given bytes of the loader's heap. *)
Theorem wrapped_part_is_loaded :
  spawn_image [] [] (crafted 64 (2 ^ 64 - 8) 16) [] [] =
  Some (20, [AskTask []; AskLoad 20 (mkVmload 0x200000 [] 16 4096 PTE_R); AskStart 20 (mkStart 0x200000 (ARG_BASE - 32) 0 ARG_BASE)]).
Proof. vm_compute. reflexivity. Qed.
(** Where the headers are is not compared with the size at all. *)
Theorem headers_outside_the_file : spawn_image [] [] (crafted 4096 120 0) [] [] = None.
Proof. vm_compute. reflexivity. Qed.
(** A refusal after the task was made leaves it: it is never started and
    never ended. *)
Theorem failed_spawn_keeps_its_task :
  spawn_image [] [] (crafted 64 120 1) [] [] = Some (-1, [AskTask []]).
Proof. vm_compute. reflexivity. Qed.
