(* ===== verification/Console.v ===== *)
(** * The console and the bit bucket (src/src/srv_console.c, srv_null.c)

    The UART behind the file interface: an interrupt brings keystrokes, which
    wait in a ring until a reader takes them, or go at once to a reader that
    came first.  A turn of the server is one message of its receive loop. *)
From stdpp Require Import base list numbers option sorting.
From S2P Require Import Prelude Mem Req.
Local Open Scope Z_scope.

Definition RING : Z := 256.
Definition CON_INTR : Z := 3.
Definition CON_FD_TTY : Z := 0.
Definition CON_FD_DIR : Z := 1.
Definition con_dir : list Z := str "- 0 console" ++ [10].

(** The static variables of the server, then its surroundings: what the UART
    has received and sent, what went to the kernel's console, interrupts
    acknowledged, the tasks that live and those killed, and the replies. *)
Record cons := mkCons
  { ring : list Z; rhead : Z; rtail : Z; waiter : Z; waiting : vfs_req; intr_task : Z;
    intr_fired : bool; con_dir_pos : Z; uart_rx : list Z; uart_tx : list Z;
    con_said : list Z; acks : Z; con_alive : list Z; con_killed : list Z;
    con_sent : list (Z * vfs_req) }.
Ltac set_cons proj :=
  setter (λ s, mkCons (ring s) (rhead s) (rtail s) (waiter s) (waiting s) (intr_task s) (intr_fired
    s) (con_dir_pos s) (uart_rx s) (uart_tx s) (con_said s) (acks s) (con_alive s) (con_killed
    s) (con_sent s)) proj.
#[export] Instance set_ring : Setter ring. Proof. set_cons ring. Defined.
#[export] Instance set_rhead : Setter rhead. Proof. set_cons rhead. Defined.
#[export] Instance set_rtail : Setter rtail. Proof. set_cons rtail. Defined.
#[export] Instance set_waiter : Setter waiter. Proof. set_cons waiter. Defined.
#[export] Instance set_waiting : Setter waiting. Proof. set_cons waiting. Defined.
#[export] Instance set_intr_task : Setter intr_task. Proof. set_cons intr_task. Defined.
#[export] Instance set_intr_fired : Setter intr_fired. Proof. set_cons intr_fired. Defined.
#[export] Instance set_con_dir_pos : Setter con_dir_pos. Proof. set_cons con_dir_pos. Defined.
#[export] Instance set_uart_rx : Setter uart_rx. Proof. set_cons uart_rx. Defined.
#[export] Instance set_uart_tx : Setter uart_tx. Proof. set_cons uart_tx. Defined.
#[export] Instance set_con_said : Setter con_said. Proof. set_cons con_said. Defined.
#[export] Instance set_acks : Setter acks. Proof. set_cons acks. Defined.
#[export] Instance set_con_alive : Setter con_alive. Proof. set_cons con_alive. Defined.
#[export] Instance set_con_killed : Setter con_killed. Proof. set_cons con_killed. Defined.
#[export] Instance set_con_sent : Setter con_sent. Proof. set_cons con_sent. Defined.
Arguments set_ring _ _ /.
Arguments set_rhead _ _ /.
Arguments set_rtail _ _ /.
Arguments set_waiter _ _ /.
Arguments set_waiting _ _ /.
Arguments set_intr_task _ _ /.
Arguments set_intr_fired _ _ /.
Arguments set_con_dir_pos _ _ /.
Arguments set_uart_rx _ _ /.
Arguments set_uart_tx _ _ /.
Arguments set_con_said _ _ /.
Arguments set_acks _ _ /.
Arguments set_con_alive _ _ /.
Arguments set_con_killed _ _ /.
Arguments set_con_sent _ _ /.

Definition zero_vfs_req : vfs_req := mkReq 0 0 [] 0 0 0 (replicate 512 0).
(** The server after it has started, with the tasks that live. *)
Definition cons_start (alive : list Z) : cons :=
  mkCons (replicate 256 0) 0 0 (-1) zero_vfs_req (-1) false 0 [] [] [] 0 alive [] [].
Definition con_sys_alive (t : Z) (s : cons) : bool := bool_decide (t ∈ con_alive s).
Definition con_sys_kill (t : Z) : prog cons () :=
  modify (λ s, (s <| con_alive := filter (λ x, x ≠ t) (con_alive s) |>) <| con_killed := con_killed s ++ [t] |>).
Definition con_sys_send (to : Z) (r : vfs_req) : prog cons () := modify (λ s, s <| con_sent := con_sent s ++ [(to, r)] |>).
Definition con_uputs (t : list Z) : prog cons () := modify (λ s, s <| con_said := con_said s ++ t |>).

(** ** The UART

    The transmitter is ready for another byte sooner or later. *)

Definition con_putc (c : Z) : prog cons () :=
  modify (λ s, s <| uart_tx := uart_tx s ++ (if c =? 10 then [13] else []) ++ [c] |>).
Definition con_tryc : prog cons Z := λ s,
  match uart_rx s with
  | [] => Some (-1, s)
  | c :: l => Some (c, s <| uart_rx := l |>)
  end.

(** ** The ring *)

Definition ring_put (c : Z) : prog cons () := modify (λ s,
  let next := (rhead s + 1) mod RING in
  if next =? rtail s then s
  else (s <| ring := <[Z.to_nat (rhead s) := c]> (ring s) |>) <| rhead := next |>).
Definition ring_get : prog cons Z := λ s,
  if rtail s =? rhead s then Some (-1, s)
  else Some (nth (Z.to_nat (rtail s)) (ring s) 0, s <| rtail := (rtail s + 1) mod RING |>).

Definition is_dev_dir (p : list Z) : bool := bool_decide (p = str "/dev" ∨ p = str "/dev/").

(** ** Interrupts *)

(** A key that was struck. *)
Definition key_in (c : Z) : prog cons () :=
  let* who := gets intr_task in
  if (c =? CON_INTR) && (0 <=? who) then
    let* live := gets (con_sys_alive who) in
    let* _ := (if live then con_sys_kill who else pret ()) in
    let* _ := modify (λ s, (s <| intr_task := -1 |>) <| intr_fired := true |>) in
    con_uputs (str "^C" ++ [10])
  else ring_put c.
(** [while ((c = con_tryc()) >= 0)] *)
Fixpoint con_drain (n : nat) : prog cons () :=
  match n with
  | O => diverge
  | S n' => let* c := con_tryc in if c <? 0 then pret () else let* _ := key_in c in con_drain n'
  end.
(** The parked reader gets a key when there is one. *)
Definition serve_waiter : prog cons () :=
  let* w := gets waiter in
  let* live := gets (con_sys_alive w) in
  if (0 <=? w) && negb live then modify (λ s, s <| waiter := -1 |>)
  else if 0 <=? w then
    let* k := ring_get in
    if 0 <=? k then
      let* r := gets waiting in
      let r := (r <| data := <[0%nat := k]> (data r) |>) <| result := 1 |> in
      let* _ := modify (λ s, (s <| waiting := r |>) <| waiter := -1 |>) in
      con_sys_send w r
    else pret ()
  else pret ().
Definition con_irq : prog cons () :=
  let* n := gets (λ s, length (uart_rx s)) in
  let* _ := con_drain (S n) in
  let* _ := modify (λ s, s <| acks := acks s + 1 |>) in
  serve_waiter.

(** ** Requests *)

Fixpoint putc_bytes (l : list Z) : prog cons () :=
  match l with [] => pret () | c :: l' => let* _ := con_putc c in putc_bytes l' end.
Definition con_write (r : vfs_req) : prog cons vfs_req :=
  let* _ := putc_bytes (take (Z.to_nat (len r)) (take (Z.to_nat VFS_DATA_MAX) (data r))) in
  pret (r <| result := len r |>).
(** The listing from where the last read of it stopped. *)
Definition con_read_dir (r : vfs_req) : prog cons vfs_req :=
  let* pos := gets con_dir_pos in
  let n := Z.of_nat (length con_dir) - pos in
  let n := if len r <? n then len r else n in
  let n := if n <? 0 then 0 else n in
  let t := take (Z.to_nat n) (drop (Z.to_nat pos) con_dir) in
  let* _ := modify (λ s, s <| con_dir_pos := pos + n |>) in
  pret ((r <| data := t ++ drop (length t) (data r) |>) <| result := n |>).
(** [None]: the reader is kept. *)
Definition con_read (from : Z) (r : vfs_req) : prog cons (option vfs_req) :=
  if fd r =? CON_FD_DIR then let* r := con_read_dir r in pret (Some r)
  else
    let* c := ring_get in
    if 0 <=? c then pret (Some ((r <| data := <[0%nat := c]> (data r) |>) <| result := 1 |>))
    else
      let* w := gets waiter in
      let* live := gets (con_sys_alive w) in
      if (w <? 0) || negb live then
        let* _ := modify (λ s, (s <| waiter := from |>) <| waiting := r |>) in pret None
      else pret (Some (r <| result := 0 |>)).

Section server.
(** What the server says of itself. *)
Context (doc conf : list Z).

Definition con_ioctl (r : vfs_req) : prog cons vfs_req :=
  if ioctl_cmd r =? IOCTL_PING then pret (r <| result := 0 |>)
  else if ioctl_cmd r =? IOCTL_DOC then pret (vfs_doc_reply r doc)
  else if ioctl_cmd r =? IOCTL_CONF then pret (vfs_doc_reply r conf)
  else if ioctl_cmd r =? IOCTL_HOLDS then
    let* w := gets waiter in
    pret (vfs_reply_text r (if w =? len r then str "/dev/console  waiting for a key" ++ [10] else []))
  else if ioctl_cmd r =? IOCTL_INTR then
    let* fired := gets intr_fired in
    let* _ := modify (λ s, (s <| intr_task := if 0 <? len r then len r else -1 |>) <| intr_fired := false |>) in
    pret (r <| result := if 0 <? len r then 0 else if fired : bool then 1 else 0 |>)
  else pret (r <| result := -1 |>).
Definition con_request (from : Z) (r : vfs_req) : prog cons (option vfs_req) :=
  if op r =? VFS_OPEN then
    if is_dev_dir (path r)
    then let* _ := modify (λ s, s <| con_dir_pos := 0 |>) in pret (Some (r <| result := CON_FD_DIR |>))
    else pret (Some (r <| result := CON_FD_TTY |>))
  else if op r =? VFS_WRITE then let* r := con_write r in pret (Some r)
  else if op r =? VFS_READ then con_read from r
  else if op r =? VFS_IOCTL then let* r := con_ioctl r in pret (Some r)
  else if op r =? VFS_CLOSE then pret (Some (r <| result := 0 |>))
  else pret (Some (r <| result := -1 |>)).

(** A message: an interrupt, with the bytes the UART has received by then,
    or a request. *)
Inductive con_event := Keys (l : list Z) | Asks (from : Z) (r : vfs_req).
Definition console_turn (e : con_event) : prog cons () :=
  match e with
  | Keys l =>
      let* _ := modify (λ s, s <| uart_rx := uart_rx s ++ l |>) in con_irq
  | Asks from r =>
      let* a := con_request from r in
      match a with Some r => con_sys_send from r | None => pret () end
  end.
Fixpoint console_server (es : list con_event) : prog cons () :=
  match es with [] => pret () | e :: es' => let* _ := console_turn e in console_server es' end.
End server.

(** ** The bit bucket *)

Definition null_server (r : vfs_req) : vfs_req :=
  if op r =? VFS_OPEN then r <| result := 0 |>
  else if op r =? VFS_WRITE then r <| result := len r |>
  else if op r =? VFS_READ then r <| result := 0 |>
  else if op r =? VFS_CLOSE then r <| result := 0 |>
  else if op r =? VFS_IOCTL then r <| result := if ioctl_cmd r =? IOCTL_PING then 0 else -1 |>
  else r <| result := -1 |>.
