(* ===== verification/ConsoleKeys.v ===== *)
(** * What becomes of a keystroke (src/src/srv_console.c)

    The ring is a queue of at most 255 keys, and a keystroke goes to exactly
    one reader, in the order of typing. *)
From stdpp Require Import base list numbers option sorting.
From S2P Require Import Prelude Mem Req Console.
Local Open Scope Z_scope.

(** ** The ring as a queue *)

Definition ring_len (s : cons) : nat := Z.to_nat ((rhead s - rtail s) mod RING).
Definition slot_of_key (s : cons) (i : nat) : nat := Z.to_nat ((rtail s + Z.of_nat i) mod RING).
Definition items (s : cons) : list Z := (λ i, nth (slot_of_key s i) (ring s) 0) <$> seq 0 (ring_len s).
Record ring_ok (s : cons) : Prop := mkRingOk
  { ro_len : length (ring s) = 256%nat; ro_head : 0 <= rhead s < 256; ro_tail : 0 <= rtail s < 256;
    ro_bytes : Forall byte_ok (ring s) }.

Lemma items_length s : length (items s) = ring_len s.
Proof. unfold items. by rewrite length_fmap, length_seq. Qed.
Lemma ring_len_bound s : (ring_len s < 256)%nat.
Proof. unfold ring_len, RING. pose proof (Z.mod_pos_bound (rhead s - rtail s) 256). lia. Qed.
Lemma ring_len_zero s : ring_ok s → (rtail s =? rhead s) = true ↔ items s = [].
Proof.
  intros [? ? ? ?]. rewrite <- length_zero_iff_nil, items_length, Z.eqb_eq. unfold ring_len, RING.
  split; intros; ldiv.
Qed.

(** A key at the end, unless the ring is full. *)
Lemma ring_put_items c s s' :
  ring_ok s → byte_ok c → ring_put c s = Some ((), s') →
  ring_ok s' ∧ items s' = (if (length (items s) <? 255)%nat then items s ++ [c] else items s) ∧
  ∃ b h, s' = ((s <| ring := b |>) <| rhead := h |>).
Proof.
  intros [Hl Hh Ht Hb] Hc [= <-]. rewrite items_length. unfold RING.
  assert (((rhead s + 1) mod 256 =? rtail s) = negb (ring_len s <? 255)%nat) as ->.
  { apply eq_true_iff_eq. rewrite Z.eqb_eq, negb_true_iff, Nat.ltb_ge. unfold ring_len, RING. split; intros; ldiv. }
  destruct (Nat.ltb_spec (ring_len s) 255) as [Hr|Hr]; cbn [negb].
  2: { split; [done|]. split; [done|]. exists (ring s), (rhead s). by destruct s. }
  split; [|split; [|by do 2 eexists]].
  - constructor; cbn; [by rewrite length_insert|ldiv|done|by apply Forall_insert].
  - match goal with |- items ?x = _ => set (s' := x) end.
    assert (ring_len s' = S (ring_len s)) as Hn by (unfold ring_len, RING in *; cbn; ldiv).
    assert (slot_of_key s (ring_len s) = Z.to_nat (rhead s)) as Hs.
    { unfold slot_of_key, ring_len, RING. f_equal. ldiv. }
    unfold items. rewrite Hn, seq_S, fmap_app. cbn [fmap list_fmap Nat.add]. f_equal.
    + apply list_fmap_ext. intros k i Hi%lookup_seq. change (slot_of_key s' i) with (slot_of_key s i).
      cbn. rewrite !nth_lookup, list_lookup_insert_ne; [done|]. rewrite <- Hs.
      unfold slot_of_key, ring_len, RING in *. ldiv.
    + change (slot_of_key s' (ring_len s)) with (slot_of_key s (ring_len s)). rewrite Hs. cbn.
      rewrite nth_lookup, list_lookup_insert_eq by lia. done.
Qed.
(** The first key of the queue, when there is one. *)
Lemma ring_get_items s k s' :
  ring_ok s → ring_get s = Some (k, s') →
  ring_ok s' ∧ (∃ t, s' = s <| rtail := t |>) ∧
  match items s with [] => k = -1 ∧ s' = s | c :: l => k = c ∧ byte_ok c ∧ items s' = l end.
Proof.
  intros Hok. pose proof Hok as [Hl Hh Ht Hb]. unfold ring_get. pose proof (ring_len_zero s Hok) as Hz.
  destruct (rtail s =? rhead s) eqn:E.
  - intros [= <- <-]. rewrite (proj1 Hz eq_refl). split_and!; [done|exists (rtail s); by destruct s|done|done].
  - intros [= <- <-]. unfold RING. split; [constructor; cbn; [done|done|ldiv|done]|]. split; [by eexists|].
    assert (items s ≠ []) as Hne by (intros Hi; by apply Hz in Hi).
    destruct (ring_len s) as [|n] eqn:Hn; [by destruct (items s) eqn:Hi; [|pose proof (items_length s); rewrite Hi, Hn in *]|].
    unfold items at 1. rewrite Hn. cbn [seq fmap list_fmap].
    assert (slot_of_key s 0 = Z.to_nat (rtail s)) as -> by (unfold slot_of_key, RING; f_equal; ldiv).
    split_and!; [done| |].
    + destruct (nth_lookup_or_length (ring s) (Z.to_nat (rtail s)) 0) as [H|H]; [|lia].
      by eapply (Forall_lookup_1 _ _ _ _ Hb).
    + match goal with |- items ?x = _ => set (s' := x) end.
      assert (ring_len s' = n) as Hn' by (unfold ring_len, RING in *; cbn; ldiv).
      unfold items. rewrite Hn', <- seq_shift, <- list_fmap_compose. apply list_fmap_ext. intros j i Hi%lookup_seq. cbn.
      f_equal. unfold slot_of_key, RING. cbn. f_equal. ldiv.
Qed.

(** ** The server *)

(** The key that a reply carries, if it answers a read of the keyboard. *)
Definition key_of (r : vfs_req) : option Z :=
  if (op r =? VFS_READ) && negb (fd r =? CON_FD_DIR) && (result r =? 1) then head (data r) else None.
Definition answered (s : cons) : list Z := omap key_of (con_sent s).*2.
(** Keys given to readers, then keys still waiting. *)
Definition flow (s : cons) : list Z := answered s ++ items s.
Definition is_key_read (r : vfs_req) : Prop := op r = VFS_READ ∧ fd r ≠ CON_FD_DIR.
Record cons_ok (s : cons) : Prop := mkConsOk
  { co_ring : ring_ok s; co_waiting : req_typed (waiting s); co_reader : 0 <= waiter s → is_key_read (waiting s);
    co_dir : 0 <= con_dir_pos s <= 12; co_rx : Forall byte_ok (uart_rx s); co_sent : Forall req_typed (con_sent s).*2 }.
(** A reader is kept only while there is no key for it. *)
Definition patient (s : cons) : Prop := 0 <= waiter s → waiter s ∈ con_alive s → items s = [].
(** What handling keys leaves alone. *)
Definition only_keys (s s' : cons) : Prop :=
  con_sent s' = con_sent s ∧ waiter s' = waiter s ∧ waiting s' = waiting s ∧ con_alive s' ⊆ con_alive s.

(** Who asked what: a reply keeps all of a request but result and data. *)
Definition question (x : Z * vfs_req) : Z * (Z * Z * list Z * Z * Z) :=
  (x.1, (op x.2, fd x.2, path x.2, len x.2, ioctl_cmd x.2)).
(** The questions answered so far, and that of the reader that is kept. *)
Definition debt (s : cons) : list (Z * (Z * Z * list Z * Z * Z)) :=
  (question <$> con_sent s) ++ (if 0 <=? waiter s then [question (waiter s, waiting s)] else []).
(** Every question asked is accounted for, once, except some of tasks that
    no longer live. *)
Definition settled (asked : list (Z * (Z * Z * list Z * Z * Z))) (s s' : cons) : Prop :=
  ∃ dead, debt s ++ asked ≡ₚ debt s' ++ dead ∧ Forall (λ q, q.1 ∉ con_alive s') dead.
Lemma settled_same s s' : debt s' = debt s → settled [] s s'.
Proof. intros E. exists []. rewrite E. split; [done|constructor]. Qed.
Lemma settled_trans a b s1 s2 s3 :
  con_alive s3 ⊆ con_alive s2 → settled a s1 s2 → settled b s2 s3 → settled (a ++ b) s1 s3.
Proof.
  intros Hal (d & Hd & Fd) (e & He & Fe). exists (e ++ d). split.
  - rewrite app_assoc, Hd, <- app_assoc, (Permutation_app_comm d b), app_assoc, He. by rewrite app_assoc.
  - apply list.Forall_app. split; [done|]. eapply Forall_impl; [exact Fd|]. intros q Hq ?. by apply Hq, Hal.
Qed.
Lemma only_keys_debt s s' : only_keys s s' → debt s' = debt s.
Proof. intros (H1 & H2 & H3 & _). unfold debt. by rewrite H1, H2, H3. Qed.

(** [cons_ok] of a state that differs from a good one in other variables. *)
Lemma ring_ok_ext s s' : ring s' = ring s → rhead s' = rhead s → rtail s' = rtail s → ring_ok s → ring_ok s'.
Proof. intros H1 H2 H3 []. constructor; by rewrite ?H1, ?H2, ?H3. Qed.
Ltac still_ok := constructor; first [done|by eapply ring_ok_ext; [| | |eassumption]|idtac].
Lemma key_of_ring r c : op r = VFS_READ → fd r ≠ CON_FD_DIR → req_typed r → key_of (r <| data := <[0%nat := c]> (data r) |> <| result := 1 |>) = Some c.
Proof.
  intros Ho Hf Hr. destruct (t_data r Hr) as [Hd _]. unfold key_of. cbn. rewrite Ho. apply Z.eqb_neq in Hf. rewrite Hf.
  destruct (data r); [done|]. done.
Qed.
Lemma typed_key r c : req_typed r → byte_ok c → req_typed (r <| data := <[0%nat := c]> (data r) |> <| result := 1 |>).
Proof.
  intros Hr Hc. destruct (t_data r Hr). apply typed_result; [|by vm_compute]. apply typed_data; [done|by rewrite length_insert|by apply Forall_insert].
Qed.

(** What a keystroke adds to the queue. *)
Definition keyed (c : Z) (s s' : cons) : Prop :=
  cons_ok s' ∧ only_keys s s' ∧ uart_rx s' = uart_rx s ∧
  ∃ t, items s' = items s ++ t ∧ t `sublist_of` [c] ∧ ((length (items s) < 255)%nat → c ≠ 3 → t = [c]).
Lemma key_put_ok c s : cons_ok s → byte_ok c → wp (ring_put c) (λ _ s', keyed c s s') s.
Proof.
  intros [Hring Hw Hr Hd Hrx Hs] Hc. destruct (ring_put c s) as [[[] s']|] eqn:E; [|done].
  apply (run_wp _ _ _ _ _ E). destruct (ring_put_items c s s' Hring Hc E) as (Hok & Hi & b & h & ->).
  split; [by constructor|]. split; [by split_and!|]. split; [done|]. rewrite Hi. destruct (Nat.ltb_spec (length (items s)) 255).
  - by exists [c].
  - exists []. rewrite app_nil_r. split_and!; [done|apply sublist_nil_l|lia].
Qed.
Lemma key_in_ok c s :
  cons_ok s → byte_ok c → wp (key_in c) (λ _ s', keyed c s s') s.
Proof.
  intros Hok Hc. pose proof Hok as [Hring Hw Hr Hd Hrx Hs]. unfold key_in. apply wp_bind, wp_gets.
  destruct (Z.eqb_spec c CON_INTR) as [->|Hne]; cbn [andb]; [destruct (0 <=? intr_task s)|].
  - unfold con_sys_kill, con_uputs, wp, pbind, gets, modify, only_keys. destruct (con_sys_alive _ s); cbn.
    all: split; [by still_ok|]; split; [split_and!; try done; intros x Hx; first [by apply list_elem_of_filter in Hx as [_ ?]|done]|].
    all: split; [done|]; exists []; rewrite app_nil_r; split_and!; [done|apply sublist_nil_l|intros _ []; done].
  - by apply key_put_ok.
  - by apply key_put_ok.
Qed.

(** Keys taken in during an interrupt: some of those typed, in order, and all
    of them while there is room and none is the interrupt character. *)
Definition taken (l : list Z) (s s' : cons) : Prop :=
  cons_ok s' ∧ only_keys s s' ∧ uart_rx s' = [] ∧
  ∃ t, items s' = items s ++ t ∧ t `sublist_of` l ∧ ((length (items s) + length l <= 255)%nat → 3 ∉ l → t = l).
Lemma con_drain_ok l : ∀ n s, cons_ok s → uart_rx s = l → (length l < n)%nat → wp (con_drain n) (λ _ s', taken l s s') s.
Proof.
  induction l as [|c l IH]; intros [|n] s Hok Hl Hn; try (cbn in Hn; lia); cbn [con_drain].
  - unfold con_tryc, pbind, wp. rewrite Hl. cbn. split; [done|]. split; [by split_and!|]. split; [done|].
    exists []. rewrite app_nil_r. by split_and!.
  - pose proof (co_rx s Hok) as Hrx. rewrite Hl in Hrx. apply list.Forall_cons in Hrx as [Hc Hrx].
    assert (con_tryc s = Some (c, s <| uart_rx := l |>)) as Ht by (unfold con_tryc; by rewrite Hl).
    apply wp_bind, (run_wp _ _ _ _ _ Ht). destruct (Z.ltb_spec c 0); [unfold byte_ok in *; lia|].
    set (s1 := s <| uart_rx := l |>).
    assert (cons_ok s1) as Hok1 by (destruct Hok; by still_ok).
    apply wp_bind. eapply wp_mono; [by apply (key_in_ok c s1)|].
    intros _ s2 (Hok2 & (Hs2 & Hw2 & Hr2 & Ha2) & Hrx2 & t & Ht2 & Hsub & Hall).
    eapply wp_mono; [apply (IH n s2 Hok2 Hrx2); cbn in Hn; lia|].
    intros _ s3 (Hok3 & (Hs3 & Hw3 & Hr3 & Ha3) & Hrx3 & u & Hu & Husub & Huall).
    split; [done|]. split; [split_and!; [by rewrite Hs3|by rewrite Hw3|by rewrite Hr3|by etrans]|]. split; [done|].
    exists (t ++ u). change (items s1) with (items s) in *. rewrite Hu, Ht2, app_assoc. split; [done|]. split.
    + change (c :: l) with ([c] ++ l). by apply sublist_app.
    + cbn [length]. intros Hroom H3%not_elem_of_cons. rewrite Hall, Huall; [done| |tauto|lia|naive_solver].
      rewrite Ht2, Hall; [rewrite length_app; cbn; lia|lia|naive_solver].
Qed.
Lemma omap_snoc {A B} (f : A → option B) l x : omap f (l ++ [x]) = omap f l ++ match f x with Some y => [y] | None => [] end.
Proof. rewrite omap_app. cbn. by destruct (f x). Qed.
(** A reply that is sent, and the key in it. *)
Lemma answered_send s to r : answered (s <| con_sent := con_sent s ++ [(to, r)] |>) = answered s ++ match key_of r with Some k => [k] | None => [] end.
Proof. unfold answered. cbn. rewrite fmap_app. cbn. apply omap_snoc. Qed.

(** Serving a parked reader moves one key from the queue to it. *)
Lemma serve_waiter_ok s :
  cons_ok s → wp serve_waiter (λ _ s', cons_ok s' ∧ flow s' = flow s ∧ patient s' ∧ uart_rx s' = uart_rx s ∧ con_alive s' = con_alive s ∧ settled [] s s') s.
Proof.
  intros Hok. pose proof Hok as [Hring Hw Hr Hd Hrx Hs]. unfold serve_waiter. apply wp_bind, wp_gets, wp_bind, wp_gets.
  destruct (Z.leb_spec 0 (waiter s)) as [Hw0|]; cbn [andb].
  2: { apply wp_ret. split_and!; try done; [intros ?; lia|by apply settled_same]. }
  specialize (Hr Hw0). destruct (con_sys_alive (waiter s) s) eqn:Hal; cbn [negb].
  - destruct (ring_get s) as [[k s1]|] eqn:E; [|by unfold ring_get in E; destruct (_ =? _)].
    apply wp_bind, (run_wp _ _ _ _ _ E). destruct (ring_get_items s k s1 Hring E) as (Hok1 & [t ->] & Hi).
    destruct (items s) as [|c l] eqn:Hit.
    + destruct Hi as [-> ->]. cbn. split_and!; try done; [by intros _ _|by apply settled_same].
    + destruct Hi as (-> & Hc & Hl). destruct (Z.leb_spec 0 c); [|unfold byte_ok in *; lia].
      apply wp_bind, wp_gets. set (r := set_field result 1 _).
      assert (key_of r = Some c) as Hk by (apply key_of_ring; [apply Hr|apply Hr|done]).
      assert (req_typed r) as Hty by by apply typed_key.
      apply wp_bind. unfold modify, con_sys_send, wp. split_and!.
      * still_ok; cbn. rewrite fmap_app. apply list.Forall_app. split; [done|by apply list.Forall_singleton].
      * unfold flow. rewrite answered_send, Hk, Hit, <- app_assoc. by f_equal; cbn; f_equal.
      * intros ?. cbn in *. lia.
      * done.
      * done.
      * exists []. split; [|constructor]. unfold debt. cbn [waiter con_sent set_field set_waiter set_con_sent set_waiting].
        rewrite (proj2 (Z.leb_le _ _) Hw0), fmap_app. cbn. by rewrite !app_nil_r.
  - cbn. split_and!; [by still_ok|done| |done|done|]; [intros ?; cbn in *; lia|].
    exists [question (waiter s, waiting s)]. split.
    + unfold debt. cbn. by rewrite (proj2 (Z.leb_le _ _) Hw0), !app_nil_r.
    + apply list.Forall_singleton. cbn. by apply bool_decide_eq_false in Hal.
Qed.
Lemma con_irq_ok s :
  cons_ok s → wp con_irq (λ _ s', cons_ok s' ∧ patient s' ∧ con_alive s' ⊆ con_alive s ∧ uart_rx s' = [] ∧ settled [] s s' ∧
    ∃ t, flow s' = flow s ++ t ∧ t `sublist_of` uart_rx s ∧
      ((length (items s) + length (uart_rx s) <= 255)%nat → 3 ∉ uart_rx s → t = uart_rx s)) s.
Proof.
  intros Hok. unfold con_irq. apply wp_bind, wp_gets, wp_bind. eapply wp_mono; [by apply (con_drain_ok (uart_rx s)); [| |lia]|].
  intros _ s1 (Hok1 & (Hs1 & Hw1 & Hr1 & Ha1) & Hrx1 & t & Ht & Hsub & Hall). apply wp_bind.
  set (s2 := s1 <| acks := acks s1 + 1 |>). match goal with |- wp _ (λ _, wp serve_waiter ?Q) _ => change (wp serve_waiter Q s2) end.
  assert (cons_ok s2) as Hok2 by (destruct Hok1; by still_ok).
  eapply wp_mono; [by apply serve_waiter_ok|]. intros _ s' (Hok' & Hf & Hp & Hrx & Ha & Hset).
  assert (debt s2 = debt s) as Hdebt by (by apply (only_keys_debt s s1)).
  split_and!; [done|done|by rewrite Ha|by rewrite Hrx|unfold settled in *; by rewrite <- Hdebt|]. exists t. split_and!; [|done|done].
  rewrite Hf. unfold flow at 1. change (answered s2) with (answered s1). change (items s2) with (items s1).
  unfold flow. rewrite Ht, app_assoc. f_equal. f_equal. unfold answered. by rewrite Hs1.
Qed.

(** ** Requests *)

Definition con_dir_typed : Forall byte_ok con_dir.
Proof. apply (bool_decide_unpack _). by vm_compute. Qed.
Lemma putc_bytes_ok l s : ∃ x, putc_bytes l s = Some ((), s <| uart_tx := x |>).
Proof.
  revert s. induction l as [|c l IH]; intros s; [exists (uart_tx s); by destruct s|]. cbn [putc_bytes]. unfold con_putc, modify, pbind.
  destruct (IH (s <| uart_tx := uart_tx s ++ (if c =? 10 then [13] else []) ++ [c] |>)) as [x ->]. by exists x.
Qed.
(** An answer that is no keystroke, and what it leaves alone. *)
Definition plain_answer (s : cons) (r : vfs_req) (s' : cons) : Prop :=
  cons_ok s' ∧ req_typed r ∧ key_of r = None ∧ items s' = items s ∧ con_sent s' = con_sent s ∧
  waiter s' = waiter s ∧ con_alive s' = con_alive s ∧ uart_rx s' = uart_rx s ∧ waiting s' = waiting s.
Lemma key_of_other r v : op r ≠ VFS_READ ∨ fd r = CON_FD_DIR ∨ v ≠ 1 → key_of (r <| result := v |>) = None.
Proof.
  unfold key_of. cbn. intros H. replace (_ && _ && _) with false; [done|]. symmetry. rewrite !andb_false_iff, negb_false_iff, !Z.eqb_neq, Z.eqb_eq. tauto.
Qed.

Lemma con_read_dir_ok r s :
  cons_ok s → req_typed r → fd r = CON_FD_DIR → wp (con_read_dir r) (λ r' s', plain_answer s r' s' ∧ ∀ t, question (t, r') = question (t, r)) s.
Proof.
  intros Hok Hr Hf. pose proof Hok as [Hring Hw Hrd Hd Hrx Hs]. unfold con_read_dir. apply wp_bind, wp_gets, wp_bind. cbv zeta.
  set (n := if (_ <? 0) then 0 else _). unfold modify, wp at 1. set (s' := s <| con_dir_pos := _ |>). apply wp_ret.
  assert (0 <= n <= 12 ∧ n <= 12 - con_dir_pos s) as [Hn Hn2].
  { subst n. change (Z.of_nat (length con_dir)) with 12. destruct (Z.ltb_spec (len r) (12 - con_dir_pos s)).
    all: match goal with |- context [if ?a <? 0 then _ else _] => destruct (Z.ltb_spec a 0) end; lia. }
  set (t := take _ _). assert (length t <= 12)%nat as Ht by (subst t; rewrite length_take; lia).
  split; [|done]. split_and!; try done.
  - still_ok. cbn. lia.
  - apply typed_front; [done|lia|apply Forall_take, Forall_drop, con_dir_typed|unfold int_ok; lia].
  - unfold key_of. cbn. rewrite Hf. by destruct (op r =? VFS_READ).
Qed.
Lemma con_ioctl_ok doc conf r s :
  Forall byte_ok doc → Forall byte_ok conf → cons_ok s → req_typed r → op r = VFS_IOCTL →
  wp (con_ioctl doc conf r) (λ r' s', plain_answer s r' s' ∧ ∀ t, question (t, r') = question (t, r)) s.
Proof.
  intros Hdoc Hconf Hok Hr Ho. pose proof Hok as [Hring Hw Hrd Hd Hrx Hs].
  assert (∀ r', question (0, r') = question (0, r) → req_typed r' → ∀ s', cons_ok s' → items s' = items s → con_sent s' = con_sent s →
    waiter s' = waiter s → con_alive s' = con_alive s → uart_rx s' = uart_rx s → waiting s' = waiting s →
    plain_answer s r' s' ∧ ∀ t, question (t, r') = question (t, r)) as Hpl.
  { intros r' [= Ho' ????] ? s' ???????. split; [split_and!; try done|].
    - unfold key_of. by rewrite Ho', Ho.
    - intros t. unfold question. cbn. congruence. }
  unfold con_ioctl.
  destruct (_ =? IOCTL_PING); [apply wp_ret, Hpl; try done; by apply typed_result|].
  destruct (_ =? IOCTL_DOC); [apply wp_ret, Hpl; try done; [unfold vfs_doc_reply; by destruct (_ <=? _)%nat|by apply doc_reply_typed]|].
  destruct (_ =? IOCTL_CONF); [apply wp_ret, Hpl; try done; [unfold vfs_doc_reply; by destruct (_ <=? _)%nat|by apply doc_reply_typed]|].
  destruct (_ =? IOCTL_HOLDS).
  { apply wp_bind, wp_gets, wp_ret, Hpl; try done. apply reply_text_typed; [done|]. destruct (_ =? _); [|done].
    apply (bool_decide_unpack _). by vm_compute. }
  destruct (_ =? IOCTL_INTR); [|apply wp_ret, Hpl; try done; by apply typed_result].
  apply wp_bind, wp_gets, wp_bind. unfold modify, wp at 1. apply wp_ret, Hpl; try done; [|by still_ok].
  apply typed_result; [done|]. by destruct (0 <? len r), (intr_fired s).
Qed.

(** What a request does: it is answered with something else than a key, or
    with the first key of the queue, or kept because there is no key. *)
Definition asked (from : Z) (r : vfs_req) (s : cons) (a : option vfs_req) (s' : cons) : Prop :=
  cons_ok s' ∧ con_alive s' = con_alive s ∧ con_sent s' = con_sent s ∧ uart_rx s' = uart_rx s ∧
  match a with
  | Some r' => req_typed r' ∧ waiter s' = waiter s ∧ waiting s' = waiting s ∧ question (from, r') = question (from, r) ∧
      match key_of r' with Some k => items s = k :: items s' | None => items s' = items s end
  | None => items s = [] ∧ items s' = [] ∧ waiter s' = from ∧ waiting s' = r ∧
      (0 <= waiter s → waiter s ∉ con_alive s)
  end.
Lemma plain_asked from r s a s' :
  plain_answer s a s' ∧ (∀ t, question (t, a) = question (t, r)) → asked from r s (Some a) s'.
Proof. intros [(? & ? & Hk & ? & ? & ? & ? & ? & ?) ?]. split_and!; try done. by rewrite Hk. Qed.
Lemma con_read_ok from r s :
  cons_ok s → req_typed r → op r = VFS_READ → 0 <= from → wp (con_read from r) (asked from r s) s.
Proof.
  intros Hok Hr Ho Hfrom. pose proof Hok as [Hring Hw Hrd Hd Hrx Hs]. unfold con_read.
  destruct (Z.eqb_spec (fd r) CON_FD_DIR) as [Hf|Hf].
  { apply wp_bind. eapply wp_mono; [by apply con_read_dir_ok|]. intros a s' ?. by apply wp_ret, plain_asked. }
  destruct (ring_get s) as [[k s1]|] eqn:E; [|by unfold ring_get in E; destruct (_ =? _)].
  apply wp_bind, (run_wp _ _ _ _ _ E). destruct (ring_get_items s k s1 Hring E) as (Hok1 & [t ->] & Hi).
  destruct (items s) as [|c l] eqn:Hit.
  - destruct Hi as [-> ->]. clear Hok1 E. cbn [Z.leb Z.compare]. apply wp_bind, wp_gets, wp_bind, wp_gets.
    destruct ((waiter s <? 0) || _) eqn:Hfree.
    + apply wp_bind. unfold modify, wp at 1. apply wp_ret. split_and!; try done; [by still_ok; split|].
      intros Hw0. apply orb_true_iff in Hfree as [?%Z.ltb_lt|Hdead%negb_true_iff]; [lia|].
      by apply bool_decide_eq_false in Hdead.
    + apply wp_ret. split_and!; try done; [by apply typed_result|]. rewrite key_of_other; [done|]. right. by right.
  - destruct Hi as (-> & Hc & Hl). destruct (Z.leb_spec 0 c); [|unfold byte_ok in *; lia].
    apply wp_ret. split_and!; try done; [by apply typed_key|]. rewrite key_of_ring; [|done..]. by rewrite Hl.
Qed.
Lemma con_request_ok doc conf from r s :
  Forall byte_ok doc → Forall byte_ok conf → cons_ok s → req_typed r → 0 <= from → wp (con_request doc conf from r) (asked from r s) s.
Proof.
  intros Hdoc Hconf Hok Hr Hfrom. pose proof Hok as [Hring Hw Hrd Hd Hrx Hs]. unfold con_request.
  assert (∀ v s', op r ≠ VFS_READ → int_ok v → cons_ok s' → items s' = items s → con_sent s' = con_sent s → waiter s' = waiter s →
    con_alive s' = con_alive s → uart_rx s' = uart_rx s → waiting s' = waiting s → asked from r s (Some (r <| result := v |>)) s') as Hpl.
  { intros v s' Ho ????????. apply plain_asked. split; [|done]. split_and!; try done; [by apply typed_result|]. apply key_of_other. by left. }
  destruct (Z.eqb_spec (op r) VFS_OPEN) as [Ho|].
  { destruct (is_dev_dir _); [|apply wp_ret, Hpl; first [done|by rewrite Ho]].
    apply wp_bind. unfold modify, wp at 1. apply wp_ret, Hpl; try done; first [by rewrite Ho|still_ok; cbn; lia]. }
  destruct (Z.eqb_spec (op r) VFS_WRITE) as [Ho|].
  { apply wp_bind. unfold con_write. apply wp_bind. destruct (putc_bytes_ok (take (Z.to_nat (len r)) (take (Z.to_nat VFS_DATA_MAX) (data r))) s) as [x Hx].
    apply (run_wp _ _ _ _ _ Hx). apply wp_ret, wp_ret, Hpl; try done; first [by rewrite Ho|apply Hr|by still_ok]. }
  destruct (Z.eqb_spec (op r) VFS_READ) as [Ho|]; [by apply con_read_ok|].
  destruct (Z.eqb_spec (op r) VFS_IOCTL) as [Ho|].
  { apply wp_bind. eapply wp_mono; [by apply con_ioctl_ok|]. intros a s' ?. by apply wp_ret, plain_asked. }
  destruct (_ =? VFS_CLOSE); by apply wp_ret, Hpl.
Qed.

(** ** Whole runs *)

(** Messages as their types admit them, from tasks. *)
Definition event_typed (e : con_event) : Prop :=
  match e with Keys l => Forall byte_ok l | Asks from r => 0 <= from ∧ req_typed r end.
Definition questions_in (es : list con_event) : list (Z * (Z * Z * list Z * Z * Z)) :=
  mbind (λ e, match e with Keys _ => [] | Asks from r => [question (from, r)] end) es.
Definition keys_in (es : list con_event) : list Z := mbind (λ e, match e with Keys l => l | Asks _ _ => [] end) es.
(** Between two turns. *)
Definition at_rest (s : cons) : Prop := cons_ok s ∧ patient s ∧ uart_rx s = [].
Definition advanced (typed : list Z) (s s' : cons) : Prop :=
  ∃ t, flow s' = flow s ++ t ∧ t `sublist_of` typed ∧ ((length (flow s) + length typed <= 255)%nat → 3 ∉ typed → t = typed).

Lemma turn_ok doc conf e s :
  Forall byte_ok doc → Forall byte_ok conf → at_rest s → event_typed e →
  wp (console_turn doc conf e) (λ _ s', at_rest s' ∧ con_alive s' ⊆ con_alive s ∧ advanced (keys_in [e]) s s' ∧ settled (questions_in [e]) s s') s.
Proof.
  intros Hdoc Hconf (Hok & Hp & Hrx) He. destruct e as [l|from r]; cbn [console_turn].
  - apply wp_bind. unfold modify, wp at 1. rewrite Hrx. cbn [app].
    set (s1 := s <| uart_rx := l |>).
    assert (cons_ok s1) as Hok1 by (destruct Hok; by still_ok).
    eapply wp_mono; [by apply con_irq_ok|]. intros _ s' (Hok' & Hp' & Ha & Hrx' & Hset & t & Hf & Hsub & Hall).
    split; [by split_and!|]. split; [done|]. split; [|exact Hset]. exists t. cbn [keys_in mbind list_bind]. rewrite app_nil_r.
    split_and!; [done|done|]. intros Hroom. apply Hall. change (items s1) with (items s).
    change (uart_rx s1) with l. unfold flow in Hroom. rewrite length_app in Hroom. lia.
  - destruct He as [Hfrom Hr]. apply wp_bind. eapply wp_mono; [by apply con_request_ok|].
    intros [r'|] s1 (Hok1 & Ha1 & Hs1 & Hrx1 & Hans).
    + destruct Hans as (Hty & Hw & Hwr & Hq & Hk).
      set (s' := s1 <| con_sent := con_sent s1 ++ [(from, r')] |>).
      change (at_rest s' ∧ con_alive s' ⊆ con_alive s ∧ advanced [] s s' ∧ settled [question (from, r)] s s').
      assert (flow s' = flow s) as Hf.
      { unfold flow, s'. rewrite answered_send. unfold answered. rewrite Hs1. destruct (key_of r'); [|by rewrite app_nil_r, <- Hk].
        rewrite Hk, <- app_assoc. done. }
      split; [|split; [cbn; by rewrite Ha1|split; [exists []; rewrite app_nil_r; split_and!; [done|apply sublist_nil_l|done]|]]].
      2: { exists []. split; [|constructor]. unfold debt, s'. cbn. rewrite Hw, Hwr, Hs1, fmap_app. cbn. rewrite Hq.
           rewrite app_nil_r, <- !app_assoc. apply Permutation_app_head, Permutation_app_comm. }
      split_and!; [|intros Hw0 Hal|cbn; by rewrite Hrx1].
      * destruct Hok1. still_ok. cbn. rewrite fmap_app. apply list.Forall_app. split; [done|by apply list.Forall_singleton].
      * cbn in Hw0, Hal. rewrite Hw in Hw0. rewrite Hw, Ha1 in Hal. specialize (Hp Hw0 Hal).
        change (items s1 = []). destruct (key_of r'); [by rewrite Hk in Hp|by rewrite Hk].
    + destruct Hans as (Hi & Hi1 & Hw & Hwr & Hdead).
      change (at_rest s1 ∧ con_alive s1 ⊆ con_alive s ∧ advanced [] s s1 ∧ settled [question (from, r)] s s1).
      split; [split_and!; [done|by intros _ _|by rewrite Hrx1]|]. split; [by rewrite Ha1|]. split.
      2: { exists (if 0 <=? waiter s then [question (waiter s, waiting s)] else []). unfold debt.
           rewrite Hs1, Hw, Hwr, Ha1, (proj2 (Z.leb_le 0 from) Hfrom). split.
           - rewrite <- !app_assoc. apply Permutation_app_head, Permutation_app_comm.
           - destruct (Z.leb_spec 0 (waiter s)); [|constructor]. apply list.Forall_singleton. by apply Hdead. }
      exists []. rewrite app_nil_r. split_and!; [|apply sublist_nil_l|done].
      unfold flow, answered. by rewrite Hs1, Hi, Hi1.
Qed.
Lemma run_ok doc conf : Forall byte_ok doc → Forall byte_ok conf → ∀ es s,
  at_rest s → Forall event_typed es →
  wp (console_server doc conf es) (λ _ s', at_rest s' ∧ con_alive s' ⊆ con_alive s ∧ advanced (keys_in es) s s' ∧ settled (questions_in es) s s') s.
Proof.
  intros Hdoc Hconf. induction es as [|e es IH]; intros s Hs He; cbn [console_server].
  - apply wp_ret. split_and!; [apply Hs..|done| |by apply settled_same]. exists []. rewrite app_nil_r. by split_and!.
  - apply list.Forall_cons in He as [He Hes]. apply wp_bind. eapply wp_mono; [by apply turn_ok|].
    intros _ s1 (Hs1 & Ha1 & (t & Ht & Hsub & Hall) & Hset1). eapply wp_mono; [by apply IH|].
    intros _ s2 (Hs2 & Ha2 & (u & Hu & Husub & Huall) & Hset2). split; [done|]. split; [by etrans|].
    change (e :: es) with ([e] ++ es). split.
    2: { unfold questions_in. rewrite bind_app. by apply (settled_trans _ _ s s1 s2). } exists (t ++ u). unfold keys_in in *. rewrite bind_app.
    split; [by rewrite Hu, Ht, app_assoc|]. split; [by apply sublist_app|].
    rewrite length_app. intros Hroom [H3 H3']%not_elem_of_app. rewrite Hall, Huall; [done| |done|lia|done].
    rewrite Ht, Hall, length_app by (done || lia). lia.
Qed.
Lemma start_at_rest alive : at_rest (cons_start alive).
Proof.
  split; [|split; [by intros ?|done]]. constructor; try done.
  - constructor; try done. by apply Forall_replicate.
  - constructor; try done; split; try done; [cbn; lia|by apply (Forall_replicate _ 512 0)].
Qed.

(** C32: whatever interrupts and requests come, the console server answers
    every turn, and the keys it has given to readers, followed by those
    waiting in its ring, are keystrokes in the order of typing, none twice;
    with at most 255 of them and no interrupt character, they are exactly
    what was typed.  They go to those who asked: the replies sent, each with
    its recipient and the request it answers, and the reader that is kept
    are together the requests that came, each once - only a reader that was
    kept and no longer lives may be missing.  A live reader is never kept
    while a key is waiting. *)
Theorem keys_reach_readers doc conf alive es :
  Forall byte_ok doc → Forall byte_ok conf → Forall event_typed es →
  wp (console_server doc conf es)
    (λ _ s', flow s' `sublist_of` keys_in es ∧
       ((length (keys_in es) <= 255)%nat → 3 ∉ keys_in es → flow s' = keys_in es) ∧
       (∃ dead, questions_in es ≡ₚ
           (question <$> con_sent s') ++ (if 0 <=? waiter s' then [question (waiter s', waiting s')] else []) ++ dead ∧
         Forall (λ q, q.1 ∉ con_alive s') dead) ∧
       patient s')
    (cons_start alive).
Proof.
  intros Hdoc Hconf He. eapply wp_mono; [apply run_ok; try done; apply start_at_rest|].
  intros _ s' ((_ & Hp & _) & _ & (t & Ht & Hsub & Hall) & dead & Hd & Fd).
  change (flow (cons_start alive)) with (@nil Z) in *. cbn [app length] in *. rewrite Ht. split_and!; [done| | |done].
  - intros. apply Hall; [lia|done].
  - exists dead. split; [|done]. by rewrite app_assoc.
Qed.
Definition a_read : vfs_req := mkReq VFS_READ 0 [] 1 0 0 (replicate 512 0).
Lemma a_read_typed : req_typed a_read.
Proof. constructor; try done; split; try done; [cbn; lia|by apply (Forall_replicate _ 512 0)]. Qed.
Definition demo_events : list con_event := [Asks 20 a_read; Keys [97; 98]; Asks 20 a_read; Keys [99]].
Lemma demo_events_typed : Forall event_typed demo_events.
Proof.
  apply list.Forall_cons. split; [split; [done|apply a_read_typed]|].
  apply list.Forall_cons. split; [by repeat constructor|].
  apply list.Forall_cons. split; [split; [done|apply a_read_typed]|].
  apply list.Forall_cons. split; [by repeat constructor|]. constructor.
Qed.
Lemma keys_reach_readers_witness :
  ∃ s', console_server [] [] demo_events (cons_start [20]) = Some ((), s') ∧ flow s' = [97; 98; 99] ∧ answered s' = [97; 98] ∧
    questions_in demo_events ≡ₚ question <$> con_sent s'.
Proof.
  pose proof (keys_reach_readers [] [] [20] demo_events (Forall_nil_2 _) (Forall_nil_2 _) demo_events_typed) as H.
  apply wp_run in H as ([] & s' & Hrun & _ & Hall & (dead & Hd & _) & _). exists s'. split; [exact Hrun|]. split.
  - apply Hall; [vm_compute; lia|by apply (bool_decide_unpack _)].
  - vm_compute in Hrun. injection Hrun as <-. split; [reflexivity|].
    assert (dead = []) as ->; [|by rewrite Hd, !app_nil_r].
    apply Permutation_length in Hd. destruct dead; [done|]. cbn in Hd. lia.
Defined.

(** C33: the console server speaks the interface well typed: whatever well
    typed messages and bytes from the line it gets, every reply is a request
    of its C type, with a path, 512 bytes of data and numbers in their
    widths, and its ring stays one. *)
Theorem console_replies_typed doc conf alive es :
  Forall byte_ok doc → Forall byte_ok conf → Forall event_typed es →
  wp (console_server doc conf es) (λ _ s', Forall req_typed (con_sent s').*2 ∧ ring_ok s') (cons_start alive).
Proof.
  intros Hdoc Hconf He. eapply wp_mono; [apply run_ok; try done; apply start_at_rest|].
  intros _ s' ((Hok & _) & _). split; apply Hok.
Qed.
Lemma console_replies_typed_witness :
  wp (console_server [] [] demo_events) (λ _ s', Forall req_typed (con_sent s').*2 ∧ ring_ok s') (cons_start [20]).
Proof. apply (console_replies_typed [] [] [20] demo_events (Forall_nil_2 _) (Forall_nil_2 _) demo_events_typed). Defined.

(** ** Where the code does not do what it says *)

Definition dir_open : vfs_req := mkReq VFS_OPEN 0 (str "/dev") 0 0 0 (replicate 512 0).
Definition dir_read (n : Z) : vfs_req := mkReq VFS_READ CON_FD_DIR [] n 0 0 (replicate 512 0).
Definition texts (es : list con_event) : option (list (Z * list Z)) :=
  match console_server [] [] es (cons_start [20; 21]) with
  | Some (_, s) => Some ((λ p, (p.1, take (Z.to_nat (result p.2)) (data p.2))) <$> filter (λ p, op p.2 = VFS_READ) (con_sent s))
  | None => None
  end.
(** There is one position in the listing of /dev, not one per reader: when
    task 21 opens and reads it, the rest of it is lost to task 20. *)
Theorem directory_position_is_shared :
  texts [Asks 20 dir_open; Asks 20 (dir_read 4); Asks 21 dir_open; Asks 21 (dir_read 12); Asks 20 (dir_read 12)] =
  Some [(20, str "- 0 "); (21, con_dir); (20, [])].
Proof. vm_compute. reflexivity. Qed.
(** A read of no bytes is answered with one, which the client library copies
    into the empty buffer. *)
Theorem empty_read_gets_a_key :
  match console_server [] [] [Keys [97]; Asks 20 (a_read <| len := 0 |>)] (cons_start [20]) with
  | Some (_, s) => (λ p, (p.1, result p.2)) <$> con_sent s = [(20, 1)]
  | None => False
  end.
Proof. vm_compute. reflexivity. Qed.
