(* ===== verification/Sh.v ===== *)
(** * The shells (src/src/sh.c, srv_rsh.c)

    A line is cut into words in place, the first names a program or a
    builtin, and a program is started and waited for.  sh.c does it on the
    console, srv_rsh.c for each telnet connection.  A store past the end of
    a buffer is a fault. *)
From stdpp Require Import base list numbers option.
From S2P Require Import Prelude Mem Req Client Loader.
Local Open Scope Z_scope.

Definition LINEMAX : Z := 128.
Definition VFS_PATH_MAX : Z := 128.
Definition MREPL : Z := 0.
Definition MBEFORE : Z := 1.
Definition MAFTER : Z := 2.
Definition BENCH_TASK_ID : Z := 14.

(** ** Words

    The line is [d ++ r], up to its NUL, and the pointer [s] stands between
    the two. *)

(** [while ( *s == ' ') *s++ = 0;] *)
Fixpoint blanks_off (d r : list Z) : list Z * list Z :=
  match r with
  | c :: r' => if c =? 32 then blanks_off (d ++ [0]) r' else (d, r)
  | [] => (d, [])
  end.
(** [while ( *s && *s != stop) s++;] *)
Fixpoint to_char (stop : Z) (d r : list Z) : list Z * list Z :=
  match r with
  | c :: r' => if c =? stop then (d, r) else to_char stop (d ++ [c]) r'
  | [] => (d, [])
  end.
Fixpoint split (max : nat) (d r : list Z) (out : list nat) : list Z * list nat :=
  match max with
  | O => (d ++ r, out)
  | S max' =>
      match r with
      | [] => (d, out)
      | _ =>
          let '(d, r) := blanks_off d r in
          match r with
          | [] => (d, out)
          | c :: r' =>
              if c =? 34 then
                let '(e, r) := to_char 34 (d ++ [0]) r' in
                match r with
                | [] => split max' e [] (out ++ [S (length d)])
                | _ :: r => split max' (e ++ [0]) r (out ++ [S (length d)])
                end
              else
                let '(e, r) := to_char 32 d r in
                split max' e r (out ++ [length d])
          end
      end
  end.
(** The words [argv] points to, after a line has been split. *)
Definition word_at (buf : list Z) (o : nat) : list Z := cstr (drop o buf).
Definition argv_of (line : list Z) : list (list Z) :=
  let '(buf, out) := split 8 [] line [] in word_at buf <$> out.

Fixpoint strip_eol (l : list Z) : list Z :=
  match l with
  | [] => []
  | c :: l' => match strip_eol l' with [] => if (c =? 10) || (c =? 13) then [] else [c] | t => c :: t end
  end.

(** What is put in a buffer while its index is below a bound. *)
Definition put_while (bound : Z) (o s : list Z) : list Z := o ++ take (Z.to_nat bound - length o) s.
Definition find_program (word : list Z) (cap : Z) : list Z :=
  let has_slash := bool_decide (47 ∈ word) in
  let o := if has_slash then [] else put_while (cap - 6) [] (str "/BIN/") in
  let o := put_while (cap - 5) o word in
  if has_slash then o else put_while (cap - 1) o (str ".ELF").

(** What the builtin [write] sends: the words, a space between two. *)
Fixpoint message (first : bool) (ws : list (list Z)) (m : list Z) : list Z :=
  match ws with
  | [] => m
  | w :: ws' => message false ws' (put_while (LINEMAX - 1) (if first then m else m ++ [32]) w)
  end.

(** ** Control files *)

Fixpoint skip_gap (t : list Z) : list Z := match t with 32 :: t' => skip_gap t' | _ => t end.
Definition slot_of (t : list Z) : Z :=
  match t with
  | 111 :: 107 :: t' =>
      let t' := skip_gap t' in
      if is_digit (hd 0 t') then (digits i32 t' 0).1 else -1
  | _ => -1
  end.

(** What a shell asks of the kernel besides. *)
Class Shelled (W : Type) := {
  sys_wait : Z → prog W Z;
  sys_nsclone : prog W Z;
  sys_bind : list Z → list Z → Z → prog W Z;
  sys_mount : list Z → Z → Z → prog W Z;
  sys_unmount : list Z → prog W Z;
  sys_wake : Z → prog W Z;
  sys_thread : Z → list Z → prog W Z }.

Section shell.
Context {W : Type} `{World W} `{Builder W} `{Shelled W}.
Context (junk : vfs_req) (stack : list Z) (fuel : nat).

Definition uputs (s : list Z) : prog W () := putc_all s.
(** The answer, [None] for -1. *)
Definition ctl_write (path cmd : list Z) (cap : Z) : prog W (option (list Z)) :=
  let* f := vfs_open junk path in
  if f <? 0 then pret None
  else
    let* k := vfs_write junk f cmd in
    if k <? 0 then let* _ := vfs_close junk f in pret None
    else
      let* (n, d) := vfs_read junk f (cap - 1) in
      let* _ := vfs_close junk f in
      if n <=? 0 then pret None else if cap - 1 <? n then diverge else pret (Some (cstr d)).

(** ** Running a program *)

(** [say] prints, [before] and [behind] stand around the name that was not found. *)
Definition run_command (say : list Z → prog W ()) (before behind : list Z) (con : Z) (argv : list (list Z)) : prog W () :=
  let background := (1 <? length argv)%nat && bool_decide (list.last argv = Some (str "&")) in
  let argv := if background then removelast argv else argv in
  let* tid := spawn junk stack fuel (find_program (hd [] argv) VFS_PATH_MAX) argv in
  if tid <? 0 then
    let* _ := say before in let* _ := say (hd [] argv) in say behind
  else if background then
    let* _ := say (str "[") in let* _ := say (uutoa tid) in say (str "]" ++ [10])
  else
    let* _ := vfs_ioctl_arg junk con IOCTL_INTR tid in
    let* _ := sys_wait tid in
    let* _ := vfs_ioctl_arg junk con IOCTL_INTR 0 in pret ().

(** ** The shell on the console *)

Definition sh_write (argv : list (list Z)) : prog W () :=
  if (length argv <? 3)%nat then uputs (str "usage: write <path> <text...>" ++ [10])
  else
    let msg := message true (drop 2 argv) [] in
    if LINEMAX <=? Z.of_nat (length msg) then diverge
    else
      let* f := vfs_open junk (nth 1 argv []) in
      if f <? 0 then
        let* _ := uputs (str "write: cannot open ") in let* _ := uputs (nth 1 argv []) in uputs [10]
      else
        let* k := vfs_write junk f msg in
        let* _ := (if k <? 0 then uputs (str "write: refused" ++ [10]) else pret ()) in
        let* (n, d) := vfs_read junk f VFS_DATA_MAX in
        let* _ := (if 0 <? n then uputs (cstr d) else pret ()) in
        let* _ := vfs_close junk f in pret ().
(** The proxy is started and mounted; its number, or -1 or -2. *)
Definition import_at (argv : list (list Z)) : prog W Z :=
  let* tid := spawn junk stack fuel (str "/BIN/IMPORT.ELF") (str "/BIN/IMPORT.ELF" :: take 3 (drop 1 argv)) in
  if tid <? 0 then pret (-1)
  else let* k := sys_mount (nth 3 argv []) tid MREPL in pret (if k <? 0 then -2 else tid).
Definition sh_import (argv : list (list Z)) : prog W () :=
  if (length argv <? 4)%nat then uputs (str "usage: import <a.b.c.d> <port> <prefix>" ++ [10])
  else
    let* x := import_at argv in
    if x =? -1 then uputs (str "import: cannot run /BIN/IMPORT.ELF" ++ [10])
    else if x =? -2 then uputs (str "import: no room in the mount table" ++ [10])
    else uputs (str "mounted" ++ [10]).
Definition sh_command (con : Z) (argv : list (list Z)) : prog W () :=
  match argv with
  | [] => pret ()
  | cmd :: _ =>
      if bool_decide (cmd = str "bench") then let* _ := sys_wake BENCH_TASK_ID in pret ()
      else if bool_decide (cmd = str "write") then sh_write argv
      else if bool_decide (cmd = str "import") then sh_import argv
      else run_command uputs (str "sh: no such command: ") [10] con argv
  end.
(** One prompt. *)
Definition sh_turn (con : Z) : prog W () :=
  let* _ := uputs ([10] ++ str "rvos$ ") in
  let* (n, d) := vfs_read junk con (LINEMAX - 1) in
  if LINEMAX - 1 <? n then diverge
  else
    match strip_eol (if n <? 0 then [] else d) with
    | [] => pret ()
    | l => sh_command con (argv_of (cstr l))
    end.
(** The descriptor of the console: of a terminal around the serial line when
    there is one. *)
Definition sh_console : prog W Z :=
  let* a := ctl_write (str "/tty/ctl") (str "new /dev/rawcons") 64 in
  let* con :=
    (match a with
     | Some t =>
         if 0 <=? slot_of t then
           let p := str "/tty/" ++ uutoa (slot_of t) in
           let* _ := sys_nsclone in
           let* f := vfs_open junk p in
           let* _ := (if 0 <=? f then let* _ := sys_bind p (str "/dev/console") MREPL in pret () else pret ()) in pret f
         else pret (-1)
     | None => pret (-1)
     end) in
  if con <? 0 then vfs_open junk (str "/dev/console") else pret con.
Fixpoint sh_turns (n : nat) (con : Z) : prog W () :=
  match n with O => pret () | S n' => let* _ := sh_turn con in sh_turns n' con end.
(** The shell for its first [n] prompts. *)
Definition sh_main (n : nat) : prog W () :=
  let* con := sh_console in
  if con <? 0 then uputs (str "sh: no console" ++ [10])
  else
    let* _ := uputs ([10] ++ str "--- sh (U-mode) ----------------------------------------" ++ [10]) in
    let* _ := uputs (str "commands live in /BIN; try `ls`, `cat /README.TXT`, `free`" ++ [10]) in
    sh_turns n con.

(** ** The shell on a connection *)

Definition wr (conn : Z) (d : list Z) : prog W bool := say_flush junk fuel conn d.
Fixpoint puts_loop (conn : Z) (s buf : list Z) : prog W bool :=
  match s with
  | [] => if (length buf =? 0)%nat then pret true else wr conn buf
  | c :: s' =>
      let full := 126 <? Z.of_nat (length buf) in
      let* ok := (if full then wr conn buf else pret true) in
      if negb ok then pret false
      else puts_loop conn s' ((if full then [] else buf) ++ (if c =? 10 then [13] else []) ++ [c])
  end.
(** [false] when the connection is gone. *)
Definition puts_conn (conn : Z) (s : list Z) : prog W bool := puts_loop conn s [].
Definition tell (conn : Z) (s : list Z) : prog W () := let* _ := puts_conn conn s in pret ().
Definition put_num (conn v : Z) : prog W () := tell conn (uutoa v).
(** [None] when the caller hung up. *)
Definition readline (conn cap : Z) : prog W (option (list Z)) :=
  let* (n, d) := vfs_read junk conn (cap - 1) in
  if n <=? 0 then pret None else if cap - 1 <? n then diverge else pret (Some (strip_eol d)).
Fixpoint echo_words (conn : Z) (first : bool) (ws : list (list Z)) : prog W () :=
  match ws with
  | [] => tell conn [10]
  | w :: ws' => let* _ := (if first then pret () else tell conn [32]) in let* _ := tell conn w in echo_words conn false ws'
  end.
(** bind and mount: the flags of the second word, and where the names start. *)
Definition bind_flags (argv : list (list Z)) : Z * nat :=
  let w := nth 1 argv [] in
  if bool_decide (w = str "-a") then (MAFTER, 2%nat) else if bool_decide (w = str "-b") then (MBEFORE, 2%nat) else (MREPL, 1%nat).
Definition do_bind (conn : Z) (argv : list (list Z)) : prog W () :=
  let '(f, a) := bind_flags argv in
  let mnt := bool_decide (hd [] argv = str "mount") in
  if (length argv <? a + 2)%nat then
    tell conn ((if mnt then str "usage: mount [-a|-b] <prefix> <task>" else str "usage: bind [-a|-b] <old> <new>") ++ [10])
  else if mnt then
    let* k := sys_mount (nth a argv []) (digits i32 (nth (S a) argv []) 0).1 f in
    if k <? 0 then tell conn (str "mount: no room in the mount table" ++ [10]) else pret ()
  else
    let* k := sys_bind (nth a argv []) (nth (S a) argv []) f in
    if k <? 0 then tell conn (str "bind: no room in the mount table" ++ [10]) else pret ().
Definition do_unmount (conn : Z) (argv : list (list Z)) : prog W () :=
  if (length argv <? 2)%nat then tell conn (str "usage: unmount <name>" ++ [10])
  else
    let* k := sys_unmount (nth 1 argv []) in
    if k <? 0 then tell conn (str "unmount: nothing bound there" ++ [10]) else pret ().
Definition do_import (conn : Z) (argv : list (list Z)) : prog W () :=
  if (length argv <? 4)%nat then tell conn (str "usage: import <a.b.c.d> <port> <prefix>" ++ [10])
  else
    let* x := import_at argv in
    if x =? -1 then tell conn (str "import: cannot run /BIN/IMPORT.ELF" ++ [10])
    else if x =? -2 then tell conn (str "import: no room in the mount table" ++ [10])
    else let* _ := tell conn (str "mounted, task ") in let* _ := put_num conn x in tell conn [10].
(** One command; [false] when the session is over.  [help] is the text of the help. *)
Definition rsh_command (help : list Z) (conn : Z) (argv : list (list Z)) : prog W bool :=
  match argv with
  | [] => pret true
  | cmd :: _ =>
      if bool_decide (cmd = str "exit") || bool_decide (cmd = str "quit") then let* _ := tell conn (str "goodbye" ++ [10]) in pret false
      else
        let* _ :=
          (if bool_decide (cmd = str "help") then tell conn help
           else if bool_decide (cmd = str "echo") then echo_words conn true (drop 1 argv)
           else if bool_decide (cmd = str "bind") || bool_decide (cmd = str "mount") then do_bind conn argv
           else if bool_decide (cmd = str "unmount") then do_unmount conn argv
           else if bool_decide (cmd = str "import") then do_import conn argv
           else run_command (tell conn) (str "rsh: no such command: ") (str "  (try `help`)" ++ [10]) conn argv) in
        pret true
  end.
Fixpoint session_loop (n : nat) (help : list Z) (conn : Z) : prog W () :=
  match n with
  | O => diverge
  | S n' =>
      let* ok := puts_conn conn ([10] ++ str "rvos# ") in
      if negb ok then pret ()
      else
        let* l := readline conn LINEMAX in
        match l with
        | None => pret ()
        | Some l => let* go := rsh_command help conn (argv_of (cstr l)) in if go : bool then session_loop n' help conn else pret ()
        end
  end.
Definition session (help : list Z) (conn slot : Z) : prog W () :=
  let* _ := tell conn ([10] ++ str "rvos — you are on the guest, over its own TCP stack." ++ [10] ++ str "type `help`. connection ") in
  let* _ := put_num conn slot in
  let* _ := tell conn [10] in
  session_loop fuel help conn.
(** A session, from the slot and the path of its connection to the exit of its thread. *)
Definition session_thread (help : list Z) (slot : Z) (path : list Z) : prog W () :=
  let* a := ctl_write (str "/tty/ctl") (put_while 23 (str "new ") path) 64 in
  match a with
  | None => pret ()
  | Some t =>
      if slot_of t <? 0 then pret ()
      else
        let n := slot_of t in
        let p := str "/tty/" ++ uutoa n in
        let* conn := vfs_open junk p in
        if conn <? 0 then pret ()
        else
          let* _ := sys_nsclone in
          let* _ := sys_bind p (str "/dev/console") MREPL in
          let* _ := session help conn slot in
          let* _ := vfs_close junk conn in
          let* _ := ctl_write (str "/tty/ctl") (str "close " ++ uutoa n) 64 in
          uputs (str "  [rsh] they logged out" ++ [10])
  end.
(** The sizes of a session and of its stack. *)
Definition SESSION_SIZE : Z := 280.
Definition SESSION_STACK : Z := 16384.
Fixpoint accept_loop (n : nat) (lslot : Z) : prog W () :=
  match n with
  | O => diverge
  | S n' =>
      let* a := ctl_write (str "/net/ctl") (str "accept " ++ uutoa lslot) 64 in
      match a with
      | None => uputs (str "  [rsh] stopping" ++ [10])
      | Some t =>
          if slot_of t <? 0 then uputs (str "  [rsh] stopping" ++ [10])
          else
            let path := str "/net/tcp/" ++ uutoa (slot_of t) in
            let* s := heap_gives SESSION_SIZE in
            let* k := (if s : bool then heap_gives SESSION_STACK else pret false) in
            if negb k then let* _ := uputs (str "  [rsh] no memory for a session" ++ [10]) in accept_loop n' lslot
            else
              let* tid := sys_thread (slot_of t) path in
              let* _ := uputs (if tid <? 0 then str "  [rsh] no task slot for a session" ++ [10] else str "  [rsh] someone logged in" ++ [10]) in
              accept_loop n' lslot
      end
  end.
Definition rsh_main : prog W () :=
  let* a := ctl_write (str "/net/ctl") (str "listen 23") 64 in
  match a with
  | None => uputs (str "  [rsh] could not take port 23" ++ [10])
  | Some t =>
      if slot_of t <? 0 then uputs (str "  [rsh] could not take port 23" ++ [10])
      else
        let* _ := sys_nsclone in
        let* _ := uputs (str "  [rsh] a shell is listening on port 23" ++ [10]) in
        accept_loop fuel (slot_of t)
  end.
End shell.

(** ** Lines and words (src/src/sh.c, srv_rsh.c)

    What is typed as words, quoted or not, is read as those words; and what
    the builtin write makes of them fits its buffer. *)

(** ** How words are typed *)

(** Blanks in front, whether it is quoted, and the word. *)
Record typed := mkWord { w_gap : nat; w_quoted : bool; w_text : list Z }.
Definition render1 (w : typed) : list Z :=
  replicate (w_gap w) 32 ++ (if w_quoted w then 34 :: w_text w ++ [34] else w_text w).
Definition render (ws : list typed) : list Z := concat (render1 <$> ws).
Definition word_ok (w : typed) : Prop :=
  (0 ∉ w_text w) ∧
  (if w_quoted w then (34 ∉ w_text w) else ((32 ∉ w_text w) ∧ w_text w ≠ [] ∧ head (w_text w) ≠ Some 34)).
(** All but the first word have a blank in front. *)
Definition spaced (ws : list typed) : Prop := Forall (λ w, (0 < w_gap w)%nat) (tail ws).

Lemma blanks_off_app k : ∀ d r, head r ≠ Some 32 → blanks_off d (replicate k 32 ++ r) = (d ++ replicate k 0, r).
Proof.
  induction k as [|k IH]; intros d r Hr; cbn.
  - rewrite app_nil_r. destruct r as [|c r]; [done|]. cbn. by destruct (Z.eqb_spec c 32) as [->|].
  - rewrite IH by done. by rewrite <- app_assoc.
Qed.
Lemma to_char_app stop w : ∀ d r, stop ∉ w → r = [] ∨ head r = Some stop → to_char stop d (w ++ r) = (d ++ w, r).
Proof.
  induction w as [|c w IH]; intros d r Hw Hr; cbn.
  - rewrite app_nil_r. destruct r as [|x r]; [done|]. destruct Hr as [|[= ->]]; [done|]. cbn. by rewrite Z.eqb_refl.
  - apply not_elem_of_cons in Hw as [Hc Hw]. apply not_eq_sym, Z.eqb_neq in Hc. rewrite Hc, IH by done. by rewrite <- app_assoc.
Qed.
(** Both loops in general: what they pass over. *)
Lemma blanks_off_split d r : ∃ k r', r = replicate k 32 ++ r' ∧ head r' ≠ Some 32 ∧ blanks_off d r = (d ++ replicate k 0, r').
Proof.
  revert d. induction r as [|c r IH]; intros d; cbn.
  - exists 0%nat, []. cbn. rewrite app_nil_r. by split_and!.
  - destruct (Z.eqb_spec c 32) as [->|Hc].
    + destruct (IH (d ++ [0])) as (k & r' & -> & Hr & Heq). exists (S k), r'. split; [done|]. split; [done|].
      rewrite Heq, <- app_assoc. done.
    + exists 0%nat, (c :: r). rewrite app_nil_r. split_and!; [done|intros [= ?]; done|done].
Qed.
Lemma to_char_split stop d r : ∃ w r', r = w ++ r' ∧ (stop ∉ w) ∧ (r' = [] ∨ head r' = Some stop) ∧ to_char stop d r = (d ++ w, r').
Proof.
  revert d. induction r as [|c r IH]; intros d; cbn.
  - exists [], []. cbn [app]. rewrite app_nil_r. split; [done|]. split; [apply not_elem_of_nil|]. split; [by left|done].
  - destruct (Z.eqb_spec c stop) as [->|Hc].
    + exists [], (stop :: r). cbn [app]. rewrite app_nil_r. split; [done|]. split; [apply not_elem_of_nil|]. split; [by right|done].
    + destruct (IH (d ++ [c])) as (w & r' & -> & Hw & Hr & Heq). exists (c :: w), r'.
      split; [done|]. split; [apply not_elem_of_cons; by split|]. split; [done|]. rewrite Heq, <- app_assoc. done.
Qed.
Lemma cstr_until w r : 0 ∉ w → r = [] ∨ head r = Some 0 → cstr (w ++ r) = w.
Proof.
  intros Hw Hr. induction w as [|c w IH]; cbn.
  - destruct r as [|x r]; [done|]. destruct Hr as [|[= ->]]; done.
  - apply not_elem_of_cons in Hw as [Hc Hw]. destruct (Z.eqb_spec c 0); [by subst|]. by rewrite IH.
Qed.
Lemma word_at_app d w r : 0 ∉ w → r = [] ∨ head r = Some 0 → word_at ((d ++ w) ++ r) (length d) = w.
Proof. intros. unfold word_at. rewrite <- app_assoc, drop_app_length. by apply cstr_until. Qed.

(** One more word of a line: the pointer to it, and the line behind it. *)
Lemma split_quoted max d k w r out :
  34 ∉ w → split (S max) d (replicate k 32 ++ 34 :: w ++ 34 :: r) out =
  split max (((d ++ replicate k 0) ++ [0] ++ w) ++ [0]) r (out ++ [S (length (d ++ replicate k 0))]).
Proof.
  intros Hw. cbn [split]. rewrite blanks_off_app by done. rewrite to_char_app by (done || by right).
  destruct (replicate k 32 ++ 34 :: _) eqn:E; [by destruct k|]. cbn [Z.eqb Pos.eqb]. by rewrite <- (app_assoc _ [0] w).
Qed.
Lemma split_nil max d out : split max d [] out = (d, out).
Proof. destruct max; cbn; [by rewrite app_nil_r|done]. Qed.
Lemma split_unclosed max d k w out :
  34 ∉ w → split (S max) d (replicate k 32 ++ 34 :: w) out =
  ((d ++ replicate k 0) ++ [0] ++ w, out ++ [S (length (d ++ replicate k 0))]).
Proof.
  intros Hw. cbn [split]. rewrite blanks_off_app by done. destruct (replicate k 32 ++ 34 :: _) eqn:E; [by destruct k|]. cbn [Z.eqb Pos.eqb].
  rewrite <- (app_nil_r w) at 1. rewrite to_char_app by (done || by left). rewrite split_nil. by rewrite <- (app_assoc _ [0] w).
Qed.
Lemma split_plain max d k w r out :
  32 ∉ w → w ≠ [] → head w ≠ Some 34 → r = [] ∨ head r = Some 32 →
  split (S max) d (replicate k 32 ++ w ++ r) out = split max ((d ++ replicate k 0) ++ w) r (out ++ [length (d ++ replicate k 0)]).
Proof.
  intros Hw Hne Hq Hr. destruct w as [|c w]; [done|]. cbn [split app].
  assert (c ≠ 32) as Hc by (apply not_elem_of_cons in Hw as [? _]; congruence).
  assert (c ≠ 34) as Hc4 by (intros ->; by apply Hq). rewrite blanks_off_app by (intros [= ?]; done).
  destruct (replicate k 32 ++ c :: _) eqn:E; [by destruct k|]. apply Z.eqb_neq in Hc4. rewrite Hc4.
  change (c :: w ++ r) with ((c :: w) ++ r). by rewrite to_char_app.
Qed.

Lemma render_head w ws : (0 < w_gap w)%nat → head (render (w :: ws)) = Some 32.
Proof. unfold render. cbn. unfold render1. destruct (w_gap w); [lia|done]. Qed.
(** The text behind a pointer after the whole line has been split: [b] is
    what became of the part that was still to be split. *)
Lemma split_words ws : ∀ max d out,
  (length ws <= max)%nat → Forall word_ok ws → spaced ws →
  ∃ b offs, split max d (render ws) out = (d ++ b, out ++ offs) ∧
    word_at (d ++ b) <$> offs = w_text <$> ws ∧ (head (render ws) = Some 32 ∨ ws = [] → b = [] ∨ head b = Some 0).
Proof.
  induction ws as [|[k q w] ws IH]; intros max d out Hmax Hok Hsp.
  - exists [], []. rewrite !app_nil_r. split_and!; [by destruct max; cbn; rewrite ?app_nil_r|done|by left].
  - destruct max as [|max]; [cbn in Hmax; lia|]. apply list.Forall_cons in Hok as [[Hw0 Hwq] Hok]. cbn in Hw0, Hwq.
    assert (spaced ws) as Hsp' by (unfold spaced in *; cbn in Hsp; destruct ws; [done|]; by apply list.Forall_cons in Hsp as [_ ?]).
    assert (ws = [] ∨ head (render ws) = Some 32) as Hnext.
    { destruct ws as [|v ws]; [by left|right]. apply render_head. unfold spaced in Hsp. cbn in Hsp. by apply list.Forall_cons in Hsp as [? _]. }
    change (render (mkWord k q w :: ws)) with (render1 (mkWord k q w) ++ render ws). unfold render1. cbn [w_gap w_quoted w_text].
    rewrite <- app_assoc. destruct q.
    + cbn [app]. rewrite <- app_assoc. cbn [app]. rewrite split_quoted by done. set (d0 := d ++ replicate k 0).
      destruct (IH max ((d0 ++ [0] ++ w) ++ [0]) (out ++ [S (length d0)]) ltac:(cbn in Hmax; lia) Hok Hsp') as (b & offs & Heq & Hwords & _).
      exists (replicate k 0 ++ [0] ++ w ++ [0] ++ b), (S (length d0) :: offs). rewrite Heq.
      assert ((((d0 ++ [0] ++ w) ++ [0]) ++ b) = d ++ replicate k 0 ++ [0] ++ w ++ [0] ++ b) as Hbuf.
      { unfold d0. by rewrite <- !app_assoc. }
      rewrite Hbuf, <- app_assoc in *. split; [done|]. split; [|intros _; right; by destruct k].
      cbn [fmap list_fmap w_text]. f_equal; [|done].
      replace (S (length d0)) with (length (d0 ++ [0])) by (rewrite length_app; cbn; lia).
      replace (d ++ replicate k 0 ++ [0] ++ w ++ [0] ++ b) with (((d0 ++ [0]) ++ w) ++ 0 :: b) by (unfold d0; by rewrite <- !app_assoc).
      apply word_at_app; [done|by right].
    + destruct Hwq as (H32 & Hne & H34). rewrite split_plain; [|done..|].
      2: { destruct Hnext as [->|]; [by left|by right]. }
      set (d0 := d ++ replicate k 0).
      destruct (IH max (d0 ++ w) (out ++ [length d0]) ltac:(cbn in Hmax; lia) Hok Hsp') as (b & offs & Heq & Hwords & Hb).
      exists (replicate k 0 ++ w ++ b), (length d0 :: offs). rewrite Heq.
      assert ((d0 ++ w) ++ b = d ++ replicate k 0 ++ w ++ b) as Hbuf by (unfold d0; by rewrite <- !app_assoc).
      rewrite <- (app_assoc out), <- Hbuf. split; [done|]. split.
      * cbn [fmap list_fmap w_text]. f_equal; [|done]. apply word_at_app; [done|]. apply Hb. tauto.
      * intros [Hh|]; [|done]. right. destruct k as [|k]; [|done]. destruct w as [|c w]; [done|]. cbn in Hh.
        injection Hh as ->. by apply not_elem_of_cons in H32 as [? _].
Qed.

(** C34: what is typed at a shell's prompt is what a program gets: up to
    eight words, bare or in double quotes with any blanks in them, are split
    in place into exactly those words. *)
Theorem words_round_trip ws :
  (length ws <= 8)%nat → Forall word_ok ws → spaced ws → argv_of (render ws) = w_text <$> ws.
Proof.
  intros Hn Hok Hsp. unfold argv_of. destruct (split_words ws 8 [] [] Hn Hok Hsp) as (b & offs & -> & Hw & _). exact Hw.
Qed.
Lemma words_round_trip_witness :
  argv_of (str "cat  " ++ [34] ++ str "a rather long name.txt" ++ [34] ++ str " x") = [str "cat"; str "a rather long name.txt"; str "x"].
Proof.
  apply (words_round_trip [mkWord 0 false (str "cat"); mkWord 2 true (str "a rather long name.txt"); mkWord 1 false (str "x")]).
  - cbn. lia.
  - repeat constructor; cbn; try done; by apply (bool_decide_unpack _); vm_compute.
  - repeat constructor.
Defined.

(** ** What words cost *)

Definition cost (ws : list (list Z)) : nat := foldr (λ w n, (length w + 1 + n)%nat) 0%nat ws.
Lemma cost_app l k : cost (l ++ k) = (cost l + cost k)%nat.
Proof. induction l as [|w l IH]; [done|]. cbn. fold (cost (l ++ k)). rewrite IH. unfold cost. cbn. lia. Qed.
Lemma cstr_length l : (length (cstr l) <= length l)%nat.
Proof. induction l as [|c l IH]; cbn; [lia|]. destruct (c =? 0); cbn; lia. Qed.
Lemma cstr_before (w r : list Z) : (length (cstr (w ++ 0%Z :: r)) <= length w)%nat.
Proof. induction w as [|c w IH]; cbn; [lia|]. destruct (c =? 0); cbn; lia. Qed.

(** Pointers into the part of the buffer behind [d0]. *)
Lemma cost_here d0 w b (offs : list nat) :
  cost (word_at ((d0 ++ w) ++ b) <$> (length d0 :: offs)) = (length (cstr (w ++ b)) + 1 + cost (word_at ((d0 ++ w) ++ b) <$> offs))%nat.
Proof. cbn. unfold word_at at 1. by rewrite <- app_assoc, drop_app_length. Qed.

(** The buffer keeps its size, and the words and a terminator for each fit
    in the part of the line that was split. *)
Definition splits (max : nat) (d r : list Z) (out : list nat) : Prop :=
  ∃ b offs, split max d r out = (d ++ b, out ++ offs) ∧ length b = length r ∧
    (max ≠ 0%nat → head r = Some 32 → head b = Some 0) ∧
    (cost (word_at (d ++ b) <$> offs) <= length r + 1)%nat ∧
    (head r = Some 32 ∨ r = [] → (cost (word_at (d ++ b) <$> offs) <= length r)%nat).
(** The step with the blanks taken off: [k] of them. *)
Lemma splits_blanks max d k r out b offs :
  head r ≠ Some 32 → r ≠ [] →
  split (S max) d (replicate k 32 ++ r) out = ((d ++ replicate k 0) ++ b, out ++ offs) → length b = length r →
  (cost (word_at ((d ++ replicate k 0%Z) ++ b) <$> offs) <= length r + 1)%nat →
  splits (S max) d (replicate k 32 ++ r) out.
Proof.
  intros Hh Hne Hs Hb Hc. exists (replicate k 0 ++ b), offs. rewrite Hs, app_assoc. split; [done|].
  rewrite !length_app, !length_replicate. split; [lia|].
  assert (k = 0%nat ∨ head (replicate k 0 ++ b) = Some 0) as Hk by (destruct k; [by left|by right]).
  split; [intros _ H32; destruct Hk as [->|]; done|]. split; [lia|]. intros [H32|H32].
  - destruct k; [done|]. lia.
  - destruct k; [|done]. done.
Qed.
Lemma splits_ok max : ∀ d r out, splits max d r out.
Proof.
  induction max as [|max IH]; intros d r out.
  { exists r, []. rewrite app_nil_r. cbn. split_and!; [done|done|done|lia|lia]. }
  destruct (blanks_off_split d r) as (k & r' & -> & Hh & Hoff).
  destruct r' as [|c t].
  { exists (replicate k 0), []. rewrite !app_nil_r in *. cbn [split]. destruct (replicate k 32) eqn:Ek.
    - destruct k; [|done]. rewrite app_nil_r. cbn. split_and!; [done|done|done|lia|lia].
    - rewrite Hoff. cbn [length]. rewrite length_replicate. apply (f_equal length) in Ek as Hk. rewrite length_replicate in Hk. cbn in Hk.
      split_and!; [done|done| |cbn; lia|cbn; lia]. intros _ _. destruct k; done. }
  set (d0 := d ++ replicate k 0) in *. destruct (Z.eqb_spec c 34) as [->|H34].
  - destruct (to_char_split 34 [] t) as (w & t' & -> & Hw & Ht' & _). destruct Ht' as [->|Ht'].
    + rewrite app_nil_r. apply (splits_blanks _ _ _ _ _ ([0] ++ w) [S (length d0)]); [done|done|by apply split_unclosed|done|].
      fold d0. replace (S (length d0)) with (length (d0 ++ [0])) by (rewrite length_app; cbn; lia).
      replace (d0 ++ [0] ++ w) with (((d0 ++ [0]) ++ w) ++ []) by (by rewrite app_nil_r, <- app_assoc).
      rewrite cost_here, app_nil_r. pose proof (cstr_length w). cbn. lia.
    + destruct t' as [|x t']; [done|]. injection Ht' as ->.
      destruct (IH ((d0 ++ [0] ++ w) ++ [0]) t' (out ++ [S (length d0)])) as (b & offs & Heq & Hlen & _ & Hc & _).
      apply (splits_blanks _ _ _ _ _ ([0] ++ w ++ [0] ++ b) (S (length d0) :: offs)); [done|done| | |].
      * rewrite split_quoted by done. fold d0. rewrite Heq, <- (app_assoc out). by rewrite <- !app_assoc.
      * cbn. rewrite !length_app. cbn. lia.
      * fold d0. replace (S (length d0)) with (length (d0 ++ [0])) by (rewrite length_app; cbn; lia).
        replace (d0 ++ [0] ++ w ++ [0] ++ b) with (((d0 ++ [0]) ++ w) ++ 0 :: b) by (by rewrite <- !app_assoc).
        rewrite cost_here. pose proof (cstr_before w b).
        replace ((((d0 ++ [0]) ++ w) ++ 0 :: b)) with (((d0 ++ [0] ++ w) ++ [0]) ++ b) by (by rewrite <- !app_assoc).
        cbn [length]. rewrite length_app. cbn [length]. lia.
  - destruct (to_char_split 32 [] (c :: t)) as (w & t' & Ht & Hw & Ht' & _).
    assert (w ≠ [] ∧ head w ≠ Some 34) as [Hne Hq].
    { destruct w as [|y w]; [|by injection Ht as <- _; split; [done|intros [= ->]]]. cbn in Ht. subst t'. by destruct Ht'. }
    rewrite Ht. destruct (IH (d0 ++ w) t' (out ++ [length d0])) as (b & offs & Heq & Hlen & Hb & Hc1 & Hc2).
    apply (splits_blanks _ _ _ _ _ (w ++ b) (length d0 :: offs)).
    + by rewrite <- Ht.
    + by rewrite <- Ht.
    + rewrite split_plain by done. fold d0. rewrite Heq, <- (app_assoc out). by rewrite <- !app_assoc.
    + rewrite !length_app. lia.
    + fold d0. rewrite (app_assoc d0), cost_here, !length_app. specialize (Hc2 ltac:(tauto)).
      destruct (decide (max = 0%nat)) as [->|Hm].
      * cbn [split] in Heq. injection Heq as _ Ho. rewrite <- (app_nil_r (out ++ _)) in Ho at 1. apply app_inv_head in Ho as <-.
        pose proof (cstr_length (w ++ b)). rewrite length_app in *. cbn. lia.
      * destruct Ht' as [->|Ht'].
        -- destruct b; [|done]. rewrite app_nil_r. pose proof (cstr_length w). cbn in *. rewrite app_nil_r in *. lia.
        -- specialize (Hb Hm Ht'). destruct b as [|y b]; [done|]. injection Hb as ->. pose proof (cstr_before w b). lia.
Qed.

(** The words of a line take no more room than the line. *)
Lemma argv_cost line : (cost (argv_of line) <= length line + 1)%nat.
Proof. unfold argv_of. destruct (splits_ok 8 [] line []) as (b & offs & -> & _ & _ & Hc & _). exact Hc. Qed.

(** ** The builtin write *)

(** The words with a blank between two. *)
Fixpoint joined (first : bool) (ws : list (list Z)) : list Z :=
  match ws with [] => [] | w :: ws' => (if first then [] else [32]) ++ w ++ joined false ws' end.
Lemma message_all ws : ∀ first m,
  (length m + cost ws <= 127 + (if first : bool then 1 else 0))%nat → message first ws m = m ++ joined first ws.
Proof.
  induction ws as [|w ws IH]; intros first m Hc; cbn [message joined]; [by rewrite app_nil_r|].
  cbn [cost foldr] in Hc. fold (cost ws) in Hc. unfold put_while. rewrite take_ge.
  - rewrite IH; [by destruct first; rewrite <- ?app_assoc|]. destruct first; rewrite !length_app; cbn; lia.
  - change (Z.to_nat (LINEMAX - 1)) with 127%nat. destruct first; rewrite ?length_app; cbn; lia.
Qed.
Lemma cost_cons w ws : cost (w :: ws) = (length w + 1 + cost ws)%nat.
Proof. done. Qed.
Lemma length_joined ws : ∀ first, (length (joined first ws) <= cost ws)%nat.
Proof.
  induction ws as [|w ws IH]; intros first; cbn [joined]; [cbn; lia|]. specialize (IH false).
  rewrite cost_cons. destruct first; rewrite !length_app; cbn; lia.
Qed.
Lemma cost_drop n : ∀ ws, (n <= length ws)%nat → (cost (drop n ws) + n <= cost ws)%nat.
Proof.
  induction n as [|n IH]; intros ws H; [rewrite drop_0; lia|]. destruct ws as [|w ws]; [cbn in H; lia|].
  cbn [drop]. rewrite cost_cons. specialize (IH ws). cbn in H. lia.
Qed.

(** C35: no line that the shell reads makes its builtin write overrun the
    buffer it collects the words in or cut one of them: the message is the
    words with a blank between two, and fits with room to spare. *)
Theorem write_message_fits line :
  (length line <= 127)%nat → (3 <= length (argv_of line))%nat →
  message true (drop 2 (argv_of line)) [] = joined true (drop 2 (argv_of line)) ∧
  (length (message true (drop 2 (argv_of line)) []) <= 126)%nat.
Proof.
  intros Hl Hn. pose proof (argv_cost line) as Hc. pose proof (cost_drop 2 (argv_of line) ltac:(lia)) as Hd.
  rewrite message_all by (cbn; lia). cbn [app]. split; [done|]. pose proof (length_joined (drop 2 (argv_of line)) true). lia.
Qed.
Lemma write_message_fits_witness :
  message true (drop 2 (argv_of (str "write /net/ctl connect  10.0.2.2 80"))) [] = str "connect 10.0.2.2 80".
Proof.
  destruct (write_message_fits (str "write /net/ctl connect  10.0.2.2 80")) as [-> _]; [vm_compute; lia|vm_compute; lia|].
  vm_compute. reflexivity.
Defined.

(** ** Where words are not what was typed *)

(** The eighth word is not ended when it is a bare one: it carries the rest
    of the line. *)
Theorem eighth_word_keeps_the_rest :
  argv_of (str "a b c d e f g h i j") = [str "a"; str "b"; str "c"; str "d"; str "e"; str "f"; str "g"; str "h i j"].
Proof. vm_compute. reflexivity. Qed.
(** A word glued to a quoted one is a word of its own. *)
Theorem quote_inside_a_word :
  argv_of (str "rm a" ++ [34] ++ str "b c" ++ [34]) = [str "rm"; str "a" ++ [34] ++ str "b"; str "c" ++ [34]].
Proof. vm_compute. reflexivity. Qed.
(** A name too long for the path is cut, and another program can be meant. *)
Theorem long_name_is_cut w : find_program (replicate 130 97 ++ w) VFS_PATH_MAX = find_program (replicate 130 97) VFS_PATH_MAX ∨ 47 ∈ w.
Proof.
  destruct (decide (47 ∈ w)) as [|Hw]; [by right|left]. unfold find_program.
  rewrite !bool_decide_false.
  - unfold put_while. rewrite !(take_app_le (replicate 130 97) w) by (rewrite length_replicate; vm_compute; lia). done.
  - apply (bool_decide_unpack _). by vm_compute.
  - intros [Hin|]%elem_of_app; [|done]. apply elem_of_replicate in Hin as [? _]. done.
Qed.

(** ** Connections nobody closes *)

(** A world that keeps the requests it is sent, and whose control files
    answer [text] to every read. *)
Record office := mkOffice { asked_of : list (list Z * Z); text : list Z }.
#[local] Instance office_world : World office := {
  sys_resolve := λ p n, pret (if (n =? 0)%nat then Some (16, p) else None);
  sys_call := λ _ r s,
    let t := text s in
    Some (Some (if op r =? VFS_READ then r <| data := t ++ drop (length t) (data r) |> <| result := Z.of_nat (length t) |>
                else r <| result := 1 |>), mkOffice (asked_of s ++ [(path r, op r)]) t);
  sys_mounts_text := pret [];
  sys_putchar := λ _, pret ();
  sys_rest := pret () }.
#[local] Instance office_builder : Builder office := {
  sys_newtask := λ _, pret (-1); sys_vmload := λ _ _, pret (-1); sys_start := λ _ _, pret (-1); heap_gives := λ _, pret false }.
#[local] Instance office_shell : Shelled office := {
  sys_wait := λ _, pret 0; sys_nsclone := pret 0; sys_bind := λ _ _ _, pret 0; sys_mount := λ _ _ _, pret 0;
  sys_unmount := λ _, pret 0; sys_wake := λ _, pret 0; sys_thread := λ _ _, pret 40 }.
Definition plain_req : vfs_req := mkReq 0 0 [] 0 0 0 (replicate 512 0).
(** When there is no terminal left, the thread of a session ends without a
    word to the network server: the accepted connection stays open. *)
Theorem refused_terminal_leaves_the_connection :
  option_map (λ x, asked_of x.2) (session_thread plain_req [] 10 [] 3 (str "/net/tcp/3") (mkOffice [] (str "no line free"))) =
  Some [(str "/tty/ctl", VFS_OPEN); ([], VFS_WRITE); ([], VFS_READ); ([], VFS_CLOSE)].
Proof. vm_compute. reflexivity. Qed.
