(* ===== verification/Reports.v ===== *)
(** * Kernel state as files: what /proc and /dev share (srv_proc.c, srv_dev.c)

    Both servers render a text when a file is opened and hand it out in
    pieces; both find out from the listing of a namespace which tasks are
    servers. *)
From stdpp Require Import base list numbers option.
From S2P Require Import Prelude Mem Req Client.
Local Open Scope Z_scope.

(** [struct taskinfo]. *)
Record taskinfo := mkTaskinfo
  { ti_id : Z; ti_state : Z; ti_is_current : bool; ti_name : list Z; ti_ipc : Z; ti_peer : Z; ti_msglen : Z; ti_senders : Z }.
Definition IPC_RECV : Z := 1.
Definition IPC_RECVFROM : Z := 2.
Definition IPC_SEND : Z := 3.
Definition IPC_WAIT : Z := 4.
Definition IPC_ALARM : Z := 5.
Definition DEVINFO_TREE : Z := 0.
Definition DEVINFO_NAME : Z := 1.
Definition DEVINFO_PCI : Z := 2.
Definition DEVINFO_KERNEL : Z := 3.

(** What the kernel tells such a server.  [sys_mounts who cap] is the
    listing for a task, -1 for the server itself; [sys_devinfo] is [None]
    for a negative answer. *)
Class KernelView (W : Type) := {
  sys_taskinfo : nat → prog W (option taskinfo);
  sys_mounts : Z → Z → prog W (list Z);
  sys_devinfo : Z → Z → Z → prog W (option (list Z));
  sys_meminfo : prog W (Z * Z);
  sys_pgdump : Z → Z → Z → prog W (list Z);
  sys_alive : Z → prog W bool;
  sys_kill : Z → prog W Z;
  sys_self : prog W Z;
  malloc_gives : Z → prog W bool }.

(** ** Which tasks are servers *)

(** The seven characters that say it, at the front of what is left of a
    line, with a digit behind them; [all] of them are looked at, or the
    first six only. *)
Definition arrow_here (all : bool) (l : list Z) : bool :=
  (8 <? length l)%nat && (nth 0 l 0 =? 45) && (nth 1 l 0 =? 62) && (nth 3 l 0 =? 116) && (nth 4 l 0 =? 97) &&
  (negb all || ((nth 5 l 0 =? 115) && (nth 6 l 0 =? 107))).
(** What stands behind the last of them. *)
Fixpoint behind_arrow (all : bool) (l : list Z) (found : option (list Z)) : option (list Z) :=
  match l with
  | [] => found
  | _ :: l' => behind_arrow all l' (if arrow_here all l then Some (drop 8 l) else found)
  end.
(** The task a line of the listing names, if it is about a server. *)
Definition line_task (all : bool) (l : list Z) : option Z :=
  option_map (λ t, (digits i32 t 0).1) (behind_arrow all l None).
Definition mount_lines (text : list Z) : list (list Z) := split_lines text [].
Definition already_seen (prev : list (list Z)) (id : Z) : bool :=
  existsb (λ l, bool_decide (line_task false l = Some id)) prev.
(** The task of server number [idx]: each task once, by its first line. *)
Fixpoint server_scan (prev ls : list (list Z)) (seen idx : nat) : option Z :=
  match ls with
  | [] => None
  | l :: ls' =>
      match line_task true l with
      | None => server_scan (prev ++ [l]) ls' seen idx
      | Some id =>
          if already_seen prev id then server_scan (prev ++ [l]) ls' seen idx
          else if (seen =? idx)%nat then Some id
          else server_scan (prev ++ [l]) ls' (S seen) idx
      end
  end.
Definition mounted_in (ls : list (list Z)) (id : Z) : bool :=
  existsb (λ l, bool_decide (line_task true l = Some id)) ls.

Definition has_prefix (p pre : list Z) : bool := bool_decide (take (length pre) p = pre).
Definition is_name (p name : list Z) : bool := bool_decide (p = name ∨ p = name ++ [47]).
Definition pad_to (n : nat) (t : list Z) : list Z := t ++ replicate (n - length t) 32.

(** ** Open files *)

Definition MAXFD : nat := 2.
(** [rf_data] is the rendering, all [size] bytes of it. *)
Record rfile := mkRfile { rf_used : bool; rf_owner : Z; rf_ctl : Z; rf_pos : Z; rf_data : list Z }.
Definition no_rfile : rfile := mkRfile false 0 0 0 [].
Record pub (W : Type) := mkPub { p_tab : list rfile; p_world : W }.
Arguments mkPub {W}. Arguments p_tab {W}. Arguments p_world {W}.

Section reports.
Context {W : Type} `{World W} `{KernelView W}.
Context (junk : vfs_req).

Definition ask_p {A} (m : prog W A) : prog (pub W) A := λ s,
  match m (p_world s) with Some (a, w) => Some (a, mkPub (p_tab s) w) | None => None end.
Definition get_rf (i : nat) : prog (pub W) rfile := gets (λ s, nth i (p_tab s) no_rfile).
Definition put_rf (i : nat) (f : rfile) : prog (pub W) () := modify (λ s, mkPub (<[i := f]> (p_tab s)) (p_world s)).

(** A slot whose owner is gone. *)
Fixpoint reclaim (n i : nat) : prog (pub W) (option nat) :=
  match n with
  | O => pret None
  | S n' =>
      let* f := get_rf i in
      let* live := (if rf_used f then ask_p (sys_alive (rf_owner f)) else pret true) in
      if live : bool then reclaim n' (S i)
      else let* _ := put_rf i (mkRfile false (rf_owner f) (rf_ctl f) (rf_pos f) []) in pret (Some i)
  end.
Definition rf_alloc : prog (pub W) (option nat) :=
  let* t := gets p_tab in
  match find_from (λ i, negb (rf_used (nth i t no_rfile))) 0 MAXFD with
  | Some i => pret (Some i)
  | None => reclaim MAXFD 0
  end.
(** A new rendering in slot [i]; no text is a refusal, and a text that is
    longer than its buffer has overrun it. *)
Definition rf_open (i : nat) (from ctl cap : Z) (text : option (list Z)) (r : vfs_req) : prog (pub W) vfs_req :=
  match text with
  | None => let* f := get_rf i in let* _ := put_rf i (mkRfile (rf_used f) (rf_owner f) ctl (rf_pos f) []) in pret (r <| result := -1 |>)
  | Some t =>
      if cap <? Z.of_nat (length t) then diverge
      else let* _ := put_rf i (mkRfile true from ctl 0 t) in pret (r <| result := Z.of_nat i |>)
  end.
(** The file a request means, if it means an open one. *)
Definition rf_of (r : vfs_req) : prog (pub W) (option (nat * rfile)) :=
  if (fd r <? 0) || (Z.of_nat MAXFD <=? fd r) then pret None
  else let* f := get_rf (Z.to_nat (fd r)) in pret (if rf_used f then Some (Z.to_nat (fd r), f) else None).
Definition rf_read (r : vfs_req) : prog (pub W) vfs_req :=
  let* x := rf_of r in
  match x with
  | None => pret (r <| result := -1 |>)
  | Some (i, f) =>
      let n := Z.of_nat (length (rf_data f)) - rf_pos f in
      let n := if len r <? n then len r else n in
      let n := if n <? 0 then 0 else n in
      if VFS_DATA_MAX <? n then diverge
      else
        let t := take (Z.to_nat n) (drop (Z.to_nat (rf_pos f)) (rf_data f)) in
        let* _ := put_rf i (mkRfile true (rf_owner f) (rf_ctl f) (rf_pos f + n) (rf_data f)) in
        pret (r <| data := t ++ drop (length t) (data r) |> <| result := n |>)
  end.
Definition rf_close (r : vfs_req) : prog (pub W) vfs_req :=
  if (0 <=? fd r) && (fd r <? Z.of_nat MAXFD) then
    let* f := get_rf (Z.to_nat (fd r)) in
    let* _ := put_rf (Z.to_nat (fd r)) (mkRfile false (rf_owner f) (rf_ctl f) (rf_pos f) []) in
    pret (r <| result := 0 |>)
  else pret (r <| result := 0 |>).
(** The answer to IOCTL_HOLDS: a line for each file of that task. *)
Definition holds_text (what : list Z) (who : Z) (t : list rfile) : list Z :=
  mbind (λ f, if rf_used f && (rf_owner f =? who) then what else []) t.
Definition rf_size (r : vfs_req) : prog (pub W) vfs_req :=
  let* x := rf_of r in
  pret (r <| result := match x with Some (_, f) => Z.of_nat (length (rf_data f)) | None => -1 end |>).

(** ** Asking servers *)

Definition doc_req (cmd o : Z) : vfs_req :=
  junk <| op := VFS_IOCTL |> <| fd := -1 |> <| ioctl_cmd := cmd |> <| len := o |> <| path := [] |>.
(** A description, a message at a time, up to [cap] bytes with the NUL. *)
Fixpoint fetch_loop (n : nat) (id cmd cap : Z) (o : list Z) : prog W (list Z) :=
  match n with
  | O => diverge
  | S n' =>
      let* r := vfs_call id (doc_req cmd (Z.of_nat (length o))) in
      let room := cap - Z.of_nat (length o) - 1 in
      let k := if room <? result r then room else result r in
      if (result r <=? 0) || (k <=? 0) then pret o
      else if VFS_DATA_MAX <? k then diverge
      else fetch_loop n' id cmd cap (o ++ take (Z.to_nat k) (data r))
  end.
(** The tasks, slot by slot, a text for each, while there is room. *)
Fixpoint for_tasks (n i : nat) (room : Z) (line : taskinfo → list Z) (o : list Z) : prog W (list Z) :=
  match n with
  | O => pret o
  | S n' =>
      if Z.of_nat (length o) <? room then
        let* t := sys_taskinfo i in
        for_tasks n' (S i) room line (o ++ match t with Some t => line t | None => [] end)
      else pret o
  end.
(** The first task with this number among [n] slots. *)
Fixpoint find_task (n i : nat) (id : Z) : prog W (option taskinfo) :=
  match n with
  | O => pret None
  | S n' =>
      let* t := sys_taskinfo i in
      match t with
      | Some t => if ti_id t =? id then pret (Some t) else find_task n' (S i) id
      | None => find_task n' (S i) id
      end
  end.
Definition own_mounts : prog W (list (list Z)) := let* t := sys_mounts (-1) 512 in pret (mount_lines t).
End reports.

(** ** Renderings that fit (for srv_proc.c and srv_dev.c)

    What the kernel promises such a server, and that the operations the two
    servers share keep their tables and buffers whole. *)

(** ** Texts of bounded length *)

Definition text_ok (n : nat) (t : list Z) : Prop := (length t <= n)%nat ∧ Forall byte_ok t.
Lemma text_ok_app n m a b : text_ok n a → text_ok m b → text_ok (n + m) (a ++ b).
Proof. intros [] []. split; [rewrite length_app; lia|by apply list.Forall_app]. Qed.
Lemma text_ok_le n m t : text_ok n t → (n <= m)%nat → text_ok m t.
Proof. intros [] ?. split; [lia|done]. Qed.
Lemma text_ok_nil n : text_ok n [].
Proof. split; [cbn; lia|constructor]. Qed.
Definition text_okb (n : nat) (t : list Z) : bool := (length t <=? n)%nat && forallb (λ b, (0 <=? b) && (b <? 256)) t.
(** For constant texts. *)
Lemma text_ok_by n t : text_okb n t = true → text_ok n t.
Proof.
  intros [H1 H2]%andb_true_iff. split; [by apply Nat.leb_le|]. rewrite forallb_forall in H2.
  apply list.Forall_forall. intros b Hb%list_elem_of_In%H2. unfold byte_ok. lia.
Qed.
Lemma utoa_tmp_ok room v : 0 <= v → text_ok room (utoa_tmp room v).
Proof.
  revert v. induction room as [|room IH]; intros v Hv; [apply text_ok_nil|]. cbn [utoa_tmp]. destruct (v =? 0); [apply text_ok_nil|].
  destruct (IH (v / 10)) as [? ?]; [ldiv|]. split; [cbn; lia|]. constructor; [unfold byte_ok; ldiv|done].
Qed.
Lemma uutoa_ok v : 0 <= v → text_ok 24 (uutoa v).
Proof.
  intros Hv. unfold uutoa. destruct (v =? 0); [by apply text_ok_by|]. destruct (utoa_tmp_ok 24 v Hv).
  split; [by rewrite length_rev|by apply Forall_rev].
Qed.
Lemma uutoa_u64_ok v : text_ok 24 (uutoa (u64 v)).
Proof. apply uutoa_ok, u64_range. Qed.
Lemma pad_ok n k t : text_ok n t → (n <= k)%nat → text_ok k (pad_to k t).
Proof.
  intros [Hl Hb] Hk. unfold pad_to. split; [rewrite length_app, length_replicate; lia|].
  apply list.Forall_app. split; [done|]. apply Forall_replicate. by vm_compute.
Qed.
Lemma text_ok_take n k t : text_ok n t → text_ok k (take k t).
Proof. intros [? ?]. split; [rewrite length_take; lia|by apply Forall_take]. Qed.
Lemma text_ok_cstr n t : text_ok n t → text_ok n (cstr t).
Proof.
  intros [Hl Hb]. split.
  - etrans; [|exact Hl]. clear. induction t as [|c t IH]; cbn; [lia|]. destruct (c =? 0); cbn; lia.
  - clear Hl. induction Hb as [|c t Hc _ IH]; cbn; [constructor|]. destruct (c =? 0); by constructor.
Qed.

Lemma text_ok_const t : forallb (λ b, (0 <=? b) && (b <? 256)) t = true → text_ok (length t) t.
Proof. intros H. apply text_ok_by. unfold text_okb. by rewrite Nat.leb_refl. Qed.

(** Decides [text_ok n t] for a text put together from constants, numbers
    and what [known] can do. *)
Ltac nothing := fail.
Ltac pieces known :=
  lazymatch goal with
  | |- text_ok _ (_ ++ _) => eapply text_ok_app; [pieces known|pieces known]
  | |- text_ok _ (uutoa (u64 _)) => apply uutoa_u64_ok
  | |- text_ok _ (str _) => apply text_ok_const; vm_compute; reflexivity
  | |- text_ok _ (_ :: _) => apply text_ok_const; vm_compute; reflexivity
  | |- text_ok _ [] => apply text_ok_const; reflexivity
  | |- _ => known
  end.
Ltac bounded known := eapply text_ok_le; [pieces known|cbn; lia].

(** ** What the kernel and the servers promise *)

Definition returns {S A} (m : prog S A) (P : A → Prop) : Prop := ∀ s, wp m (λ a _, P a) s.
Lemma returns_bind {S A B} (m : prog S A) (k : A → prog S B) P Q :
  returns m P → (∀ a, P a → returns (k a) Q) → returns (let* x := m in k x) Q.
Proof. intros Hm Hk s. apply wp_bind. eapply wp_mono; [apply Hm|]. intros a s' Ha. by apply Hk. Qed.
Lemma returns_ret {S A} (a : A) (P : A → Prop) : P a → returns (S := S) (pret a) P.
Proof. intros ? s. by apply wp_ret. Qed.
Lemma returns_mono {S A} (m : prog S A) (P Q : A → Prop) : returns m P → (∀ a, P a → Q a) → returns m Q.
Proof. intros Hm HPQ s. eapply wp_mono; [apply Hm|]. intros a s'. apply HPQ. Qed.

(** Requests that are answered with a text. *)
Definition asks_text (r : vfs_req) : Prop :=
  op r = VFS_IOCTL ∧ (ioctl_cmd r = IOCTL_DOC ∨ ioctl_cmd r = IOCTL_CONF ∨ ioctl_cmd r = IOCTL_HOLDS).
Definition some_ok {A} (P : A → Prop) (o : option A) : Prop := ∀ a, o = Some a → P a.
Class KernelLaws W `{World W} `{KernelView W} := {
  taskinfo_ok i : returns (sys_taskinfo i) (some_ok (λ t, text_ok 15 (ti_name t)));
  mounts_ok who cap : 512 <= cap → returns (sys_mounts who cap) (text_ok 512);
  devinfo_ok what i cap : returns (sys_devinfo what i cap) (some_ok (text_ok (Z.to_nat cap)));
  pciname_ok i : returns (sys_devinfo DEVINFO_NAME i 16) (some_ok (text_ok 15));
  pgdump_ok who va cap : returns (sys_pgdump who va cap) (text_ok 512);
  meminfo_ok : returns sys_meminfo (λ _, True);
  alive_ok t : returns (sys_alive t) (λ _, True);
  kill_ok t : returns (sys_kill t) (λ _, True);
  self_ok : returns sys_self (λ _, True);
  malloc_ok n : returns (malloc_gives n) (λ _, True);
  call_ok dst r : asks_text r → returns (sys_call dst r) (some_ok (λ r', req_typed r' ∧ result r' <= 512)) }.

(** ** The table *)

Definition rf_ok (cap : nat) (f : rfile) : Prop :=
  rf_used f = true → text_ok cap (rf_data f) ∧ 0 <= rf_pos f <= Z.of_nat (length (rf_data f)).
Definition pub_ok {W} (cap : nat) (s : pub W) : Prop := length (p_tab s) = 2%nat ∧ Forall (rf_ok cap) (p_tab s).

Section shared.
Context {W : Type} `{KernelLaws W}.
Context (junk : vfs_req).

Lemma ask_p_ok {A} (m : prog W A) P s : returns m P → wp (ask_p m) (λ a s', P a ∧ p_tab s' = p_tab s) s.
Proof.
  intros Hm. specialize (Hm (p_world s)). unfold ask_p, wp in *. by destruct (m (p_world s)) as [[a w]|].
Qed.
Lemma rf_at_ok cap (s : pub W) i : pub_ok cap s → rf_ok cap (nth i (p_tab s) no_rfile).
Proof.
  intros [_ Hs]. destruct (nth_lookup_or_length (p_tab s) i no_rfile) as [Hi|Hi].
  - by eapply (Forall_lookup_1 _ _ _ _ Hs).
  - rewrite nth_overflow by done. by intros ?.
Qed.
Lemma put_rf_ok cap i f (s : pub W) :
  pub_ok cap s → rf_ok cap f → wp (put_rf i f) (λ _ s', pub_ok cap s' ∧ p_tab s' = <[i := f]> (p_tab s)) s.
Proof. intros [Hl Hs] Hf. split; [|done]. split; cbn; [by rewrite length_insert|by apply Forall_insert]. Qed.
Lemma same_tab_ok cap (s s' : pub W) : p_tab s' = p_tab s → pub_ok cap s → pub_ok cap s'.
Proof. unfold pub_ok. by intros ->. Qed.

(** A slot that may be taken. *)
Definition slot_free (s : pub W) (j : nat) : Prop := (j < 2)%nat ∧ rf_used (nth j (p_tab s) no_rfile) = false.
Lemma reclaim_ok cap n : ∀ i s, pub_ok cap s → (i + n <= 2)%nat → wp (reclaim n i) (λ o s', pub_ok cap s' ∧ some_ok (slot_free s') o) s.
Proof.
  induction n as [|n IH]; intros i s Hs Hn; cbn [reclaim]; [apply wp_ret; split; [done|intros j [=]]|].
  apply wp_bind. unfold get_rf. apply wp_gets, wp_bind. set (f := nth i (p_tab s) no_rfile).
  eapply (wp_mono _ (λ _ s', pub_ok cap s')).
  { destruct (rf_used f); [|by apply wp_ret]. eapply wp_mono; [apply ask_p_ok, alive_ok|]. intros a s' [_ ?]. by eapply same_tab_ok. }
  intros [] s1 Hs1.
  - apply IH; [done|lia].
  - apply wp_bind. eapply wp_mono; [apply (put_rf_ok cap); [done|by intros ?]|]. intros _ s' [Hs' Ht]. apply wp_ret. split; [done|].
    intros j [= <-]. split; [lia|]. rewrite Ht. destruct Hs1 as [Hl _]. erewrite nth_lookup_Some; [|apply list_lookup_insert_eq; lia]. done.
Qed.
Lemma rf_alloc_ok cap (s : pub W) : pub_ok cap s → wp rf_alloc (λ o s', pub_ok cap s' ∧ some_ok (slot_free s') o) s.
Proof.
  intros Hs. unfold rf_alloc. apply wp_bind, wp_gets. destruct (find_from _ 0 MAXFD) as [i|] eqn:E.
  - apply wp_ret. split; [done|]. intros j [= <-]. apply find_from_Some in E as (? & Hu & _). unfold MAXFD in *.
    split; [lia|]. by apply negb_true_iff.
  - by apply (reclaim_ok cap 2).
Qed.
(** A reply of the server's own. *)
Definition good_reply (cap : nat) (r : vfs_req) (s : pub W) : Prop := pub_ok cap s ∧ req_typed r.
Lemma refuse_ok cap r v (s : pub W) : pub_ok cap s → req_typed r → int_ok v → wp (pret (r <| result := v |>)) (good_reply cap) s.
Proof. intros. apply wp_ret. split; [done|by apply typed_result]. Qed.
Lemma rf_open_ok cap capz i from ctl text r (s : pub W) :
  capz = Z.of_nat cap → pub_ok cap s → req_typed r → slot_free s i → some_ok (text_ok cap) text →
  wp (rf_open i from ctl capz text r) (good_reply cap) s.
Proof.
  intros -> Hs Hr [Hi Hu] Ht. unfold rf_open. destruct text as [t|].
  - destruct (Ht t eq_refl) as [Hl Hb]. destruct (Z.ltb_spec (Z.of_nat cap) (Z.of_nat (length t))); [lia|].
    apply wp_bind. eapply wp_mono; [apply (put_rf_ok cap); [done|]|].
    + intros _. cbn. split; [by split|lia].
    + intros _ s' [? _]. apply refuse_ok; [done|done|]. unfold int_ok. lia.
  - apply wp_bind. unfold get_rf. apply wp_gets, wp_bind. eapply wp_mono; [apply (put_rf_ok cap); [done|]|].
    + intros Hu'. cbn in Hu'. by rewrite Hu in Hu'.
    + intros _ s' [? _]. by apply refuse_ok.
Qed.
Lemma rf_of_ok cap r (s : pub W) :
  pub_ok cap s → wp (rf_of r) (λ x s', s' = s ∧ some_ok (λ p, (p.1 < 2)%nat ∧ rf_used p.2 = true ∧ rf_ok cap p.2) x) s.
Proof.
  intros Hs. unfold rf_of. destruct (_ || _) eqn:E; [apply wp_ret; split; [done|intros ? [=]]|].
  apply orb_false_iff in E as [E1 E2]. apply Z.ltb_ge in E1. apply Z.leb_gt in E2. change (Z.of_nat MAXFD) with 2 in E2. apply wp_bind. unfold get_rf. apply wp_gets. apply wp_ret.
  split; [done|]. destruct (rf_used _) eqn:Hu; intros p [= <-]. cbn. split_and!; [lia|done|by apply rf_at_ok].
Qed.
Lemma rf_read_ok cap r (s : pub W) :
  pub_ok cap s → req_typed r → len r <= 512 → wp (rf_read r) (good_reply cap) s.
Proof.
  intros Hs Hr Hlen. unfold rf_read. apply wp_bind. eapply wp_mono; [by apply (rf_of_ok cap)|].
  intros [[i f]|] s' [-> Hx]; [|by apply refuse_ok]. destruct (Hx _ eq_refl) as (Hi & Hu & Hf). cbn in *.
  destruct (Hf Hu) as [[Hl Hb] Hpos]. cbv zeta. set (n := if (_ <? 0) then 0 else _).
  assert (0 <= n <= 512 ∧ rf_pos f + n <= Z.of_nat (length (rf_data f))) as [Hn Hn2].
  { subst n. destruct (Z.ltb_spec (len r) (Z.of_nat (length (rf_data f)) - rf_pos f)).
    all: match goal with |- context [if ?a <? 0 then _ else _] => destruct (Z.ltb_spec a 0) end; lia. }
  unfold VFS_DATA_MAX. destruct (Z.ltb_spec 512 n); [lia|]. set (t := take _ _).
  assert (text_ok 512 t) as [Htl Htb] by (split; [subst t; rewrite length_take; lia|by apply Forall_take, Forall_drop]).
  apply wp_bind. eapply wp_mono; [apply (put_rf_ok cap); [done|]|].
  - intros _. cbn. split; [by split|lia].
  - intros _ s' [? _]. apply wp_ret. split; [done|]. apply typed_front; [done|done|done|unfold int_ok; lia].
Qed.
Lemma rf_close_ok cap r (s : pub W) : pub_ok cap s → req_typed r → wp (rf_close r) (good_reply cap) s.
Proof.
  intros Hs Hr. unfold rf_close. destruct (_ && _); [|by apply refuse_ok].
  apply wp_bind. unfold get_rf. apply wp_gets, wp_bind. eapply wp_mono; [apply (put_rf_ok cap); [done|by intros ?]|].
  intros _ s' [? _]. by apply refuse_ok.
Qed.
Lemma rf_size_ok cap r (s : pub W) : pub_ok cap s → Z.of_nat cap < 2 ^ 31 → req_typed r → wp (rf_size r) (good_reply cap) s.
Proof.
  intros Hs Hc Hr. unfold rf_size. apply wp_bind. eapply wp_mono; [by apply (rf_of_ok cap)|].
  intros x s' [-> Hx]. apply refuse_ok; [done|done|]. destruct x as [[i f]|]; [|by vm_compute].
  destruct (Hx _ eq_refl) as (_ & Hu & Hf). destruct (Hf Hu) as [[Hl _] _]. cbn in *. unfold int_ok. lia.
Qed.
Lemma holds_text_ok n what who t : text_ok n what → text_ok (length t * n) (holds_text what who t).
Proof.
  intros Hw. unfold holds_text. induction t as [|f t IH]; [apply text_ok_nil|]. cbn [mbind list_bind length].
  rewrite Nat.mul_succ_l, Nat.add_comm. apply text_ok_app; [|done]. destruct (_ && _); [done|apply text_ok_nil].
Qed.

(** ** Loops over tasks and servers *)

Lemma for_tasks_ok n m k room line : (∀ t, text_ok 15 (ti_name t) → text_ok m (line t)) →
  ∀ i o, text_ok k o → returns (for_tasks n i room line o) (text_ok (k + n * m)).
Proof.
  intros Hline. revert k. induction n as [|n IH]; intros k i o Ho; cbn [for_tasks].
  - apply returns_ret. eapply text_ok_le; [done|lia].
  - destruct (_ <? _); [|apply returns_ret; eapply text_ok_le; [done|lia]].
    eapply returns_bind; [apply taskinfo_ok|]. intros t Ht. cbn beta in Ht.
    replace (k + S n * m)%nat with ((k + m) + n * m)%nat by lia. apply IH. apply text_ok_app; [done|].
    destruct t as [t|]; [by apply Hline, Ht|apply text_ok_nil].
Qed.
Lemma find_task_ok n id : ∀ i, returns (find_task n i id) (some_ok (λ t, text_ok 15 (ti_name t))).
Proof.
  induction n as [|n IH]; intros i; cbn [find_task]; [by apply returns_ret|].
  eapply returns_bind; [apply taskinfo_ok|]. intros [t|] Ht; [|apply IH].
  destruct (_ =? _); [|apply IH]. by apply returns_ret.
Qed.
Lemma vfs_call_ok id cmd o :
  (cmd = IOCTL_DOC ∨ cmd = IOCTL_CONF ∨ cmd = IOCTL_HOLDS) →
  returns (vfs_call id (doc_req junk cmd o)) (λ r, result r <= 0 ∨ (req_typed r ∧ result r <= 512)).
Proof.
  intros Hc. unfold vfs_call. eapply returns_bind; [by apply call_ok|]. intros [r'|] Hr; apply returns_ret; [right; by apply Hr|left; by cbn].
Qed.
Lemma reply_piece r k : req_typed r → 0 <= k <= 512 → text_ok (Z.to_nat k) (take (Z.to_nat k) (data r)).
Proof. intros Hr Hk. destruct (t_data r Hr). split; [rewrite length_take; lia|by apply Forall_take]. Qed.
Lemma fetch_loop_ok id cmd cap capz :
  capz = Z.of_nat cap →
  (cmd = IOCTL_DOC ∨ cmd = IOCTL_CONF ∨ cmd = IOCTL_HOLDS) →
  ∀ n o, (length o < cap)%nat → (cap <= n + length o)%nat → Forall byte_ok o → returns (fetch_loop junk n id cmd capz o) (text_ok cap).
Proof.
  intros -> Hcmd. induction n as [|n IH]; intros o Ho Hn Hb; [lia|]. cbn [fetch_loop].
  eapply returns_bind; [by apply vfs_call_ok|]. intros r Hr. cbv zeta.
  set (room := Z.of_nat cap - Z.of_nat (length o) - 1). set (k := if room <? result r then room else result r).
  destruct ((result r <=? 0) || (k <=? 0)) eqn:E; [apply returns_ret; split; [lia|done]|].
  apply orb_false_iff in E as [E1 E2]. destruct Hr as [Hr|[Hty Hr]]; [lia|].
  assert (0 < k <= 512 ∧ k <= room) as [Hk Hk2] by (subst k; destruct (Z.ltb_spec room (result r)); lia).
  unfold VFS_DATA_MAX. destruct (Z.ltb_spec 512 k); [lia|].
  assert (length (take (Z.to_nat k) (data r)) = Z.to_nat k) as Hlen by (destruct (t_data r Hty); rewrite length_take; lia).
  apply IH; rewrite ?length_app, ?Hlen; [lia|lia|]. apply list.Forall_app. split; [done|]. apply Forall_take, Hty.
Qed.
Lemma own_mounts_ok : returns own_mounts (λ _, True).
Proof. unfold own_mounts. eapply returns_bind; [by apply mounts_ok|]. intros t _. by apply returns_ret. Qed.
End shared.

(** ** A board to try them on

    Two tasks, the second of them the server that asks, and no device. *)
Definition board_tasks : list taskinfo :=
  [mkTaskinfo 0 3 false (str "fs") IPC_RECV (-1) 0 0; mkTaskinfo 66 2 true (str "proc") 0 (-1) 0 1; mkTaskinfo 131 3 false (str "/BIN/FOREVER.EL") IPC_SEND 66 664 0].
Definition board_reply (r : vfs_req) : vfs_req :=
  mkReq VFS_IOCTL (-1) [] 0 0 (if len r =? 0 then 8 else 0) (str "a server" ++ replicate 504 0).
Definition board_mounts : list Z := str "/ -> task 0" ++ [10] ++ str "/proc/ -> task 66" ++ [10].
#[export] Instance board_world : World () := {
  sys_resolve := λ _ _, pret None;
  sys_call := λ _ r, pret (Some (board_reply r));
  sys_mounts_text := pret board_mounts;
  sys_putchar := λ _, pret ();
  sys_rest := pret () }.
#[export] Instance board_view : KernelView () := {
  sys_taskinfo := λ i, pret (board_tasks !! i);
  sys_mounts := λ _ _, pret board_mounts;
  sys_devinfo := λ what i _, pret (if (what =? DEVINFO_NAME) && (i =? 0) then None else Some []);
  sys_meminfo := pret (1000, 32000);
  sys_pgdump := λ _ _ _, pret (str "a walk" ++ [10]);
  sys_alive := λ t, pret (existsb (λ x, ti_id x =? t) board_tasks);
  sys_kill := λ _, pret 0;
  sys_self := pret 66;
  malloc_gives := λ _, pret true }.
#[export] Instance board_laws : KernelLaws ().
Proof.
  constructor.
  - intros i s t Ht. cbn in *. unfold board_tasks in Ht. destruct i as [|[|[|i]]]; cbn in Ht; try done; injection Ht as <-; by apply text_ok_by.
  - intros who cap _ s. by apply text_ok_by.
  - intros what i cap s t. cbn. destruct (_ && _); intros [= <-]. apply text_ok_nil.
  - intros i s t. cbn. destruct (_ =? 0); intros [= <-]. apply text_ok_nil.
  - intros who va cap s. by apply text_ok_by.
  - done.
  - done.
  - done.
  - done.
  - done.
  - intros dst r _ s r' [= <-]. unfold board_reply. split; [|cbn; destruct (_ =? 0); lia].
    constructor; try done; cbn [result]; [by destruct (len r =? 0)|split; [cbn; lia|constructor]|].
    split; [by vm_compute|]. cbn [data]. apply list.Forall_app. split; [by apply (text_ok_by 8)|by apply (Forall_replicate _ 504 0)].
Qed.
Definition open_req (p : list Z) : vfs_req := mkReq VFS_OPEN 0 p 0 0 0 (replicate 512 0).
Lemma open_req_typed p : (length p < 128)%nat → Forall char_ok p → req_typed (open_req p).
Proof. intros. constructor; try done. split; [done|by apply (Forall_replicate _ 512 0)]. Qed.
Definition empty_pub : pub () := mkPub (replicate 2 no_rfile) ().
Lemma empty_pub_ok cap : pub_ok cap empty_pub.
Proof. split; [done|]. apply Forall_replicate. by intros ?. Qed.

(** ** Beyond a message *)

(** The length of a read is bounded by what is left of the file only: a
    reader that asks for 600 bytes at once makes the server write behind the
    512 bytes of its message. *)
Theorem long_report_overruns :
  rf_read ((open_req []) <| fd := 0 |> <| len := 600 |>) (mkPub [mkRfile true 20 0 0 (replicate 600 65); no_rfile] ()) = None.
Proof. vm_compute. reflexivity. Qed.
