(* ===== verification/MountText.v ===== *)
(** * The kernel's listing of a namespace, as servers read it

    The kernel prints a namespace (vfs.c), and /proc and /dev find the
    servers in the text (srv_proc.c, srv_dev.c): they find exactly the tasks
    that are mounted, each once, in the order of the table. *)
From stdpp Require Import base list numbers option.
From S2P Require Import Prelude Mem Kernel Task Vfs Req Client Reports.
Local Open Scope Z_scope.

(** ** Numbers *)

Lemma digits_utoa_tmp room v t :
  0 <= v < 10 ^ Z.of_nat room → v < 2 ^ 31 → digits i32 (rev (utoa_tmp room v) ++ t) 0 = digits i32 t v.
Proof.
  revert v t. induction room as [|room IH]; intros v t Hv Hs.
  { change (10 ^ Z.of_nat 0) with 1 in Hv. by assert (v = 0) as -> by lia. }
  cbn [utoa_tmp]. destruct (Z.eqb_spec v 0) as [->|Hne]; [done|].
  rewrite Nat2Z.inj_succ, Z.pow_succ_r in Hv by lia. cbn [rev]. rewrite <- app_assoc, IH by ldiv. cbn [app digits].
  replace (is_digit (48 + v mod 10)) with true by (symmetry; unfold is_digit; apply andb_true_intro; split; apply Z.leb_le; ldiv).
  f_equal. rewrite i32_small by ldiv. ldiv.
Qed.
Lemma digits_utoa v : 0 <= v < 2 ^ 31 → (digits i32 (utoa v) 0).1 = v.
Proof.
  intros Hv. unfold utoa. destruct (Z.eqb_spec v 0) as [->|]; [done|].
  rewrite <- (app_nil_r (rev _)), digits_utoa_tmp; [done| |lia]. unfold TMP_SIZE. lia.
Qed.
Lemma utoa_tmp_digits room v : 0 <= v → Forall (λ c, 48 <= c <= 57) (utoa_tmp room v).
Proof.
  revert v. induction room as [|room IH]; intros v Hv; cbn; [constructor|]. destruct (v =? 0); [constructor|].
  constructor; [ldiv|]. apply IH. ldiv.
Qed.
Lemma utoa_digits v : 0 <= v → Forall (λ c, 48 <= c <= 57) (utoa v).
Proof. intros Hv. unfold utoa. destruct (v =? 0); [repeat constructor; lia|]. apply Forall_rev. by apply utoa_tmp_digits. Qed.
Lemma utoa_nonempty v : 0 <= v → utoa v ≠ [].
Proof.
  intros Hv. unfold utoa. destruct (Z.eqb_spec v 0); [done|]. change TMP_SIZE with 24%nat. cbn [utoa_tmp].
  destruct (Z.eqb_spec v 0); [done|]. cbn [rev]. by destruct (rev _).
Qed.
Lemma not_in_utoa c v : 0 <= v → c < 48 ∨ 57 < c → c ∉ utoa v.
Proof. intros Hv Hc Hin. pose proof (utoa_digits v Hv) as H. rewrite list.Forall_forall in H. specialize (H c Hin). lia. Qed.

(** ** Lines *)

Lemma split_lines_cons l : ∀ cur t, 10 ∉ l → split_lines (l ++ 10 :: t) cur = (cur ++ l) :: split_lines t [].
Proof.
  induction l as [|c l IH]; intros cur t Hl; cbn [app split_lines].
  - by rewrite app_nil_r.
  - apply not_elem_of_cons in Hl as [Hc Hl]. apply not_eq_sym, Z.eqb_neq in Hc. rewrite Hc, IH by done. by rewrite <- app_assoc.
Qed.
(** The text of whole lines. *)
Definition unlines (ls : list (list Z)) : list Z := mbind (λ l, l ++ [10]) ls.
Lemma mount_lines_unlines ls t : Forall (λ l, 10 ∉ l) ls → mount_lines (unlines ls ++ t) = ls ++ mount_lines t.
Proof.
  induction 1 as [|l ls Hl _ IH]; [done|]. unfold unlines, mount_lines in *. cbn [mbind list_bind app]. rewrite <- !app_assoc. cbn [app].
  by rewrite split_lines_cons, IH.
Qed.

(** ** One line *)

Lemma arrow_not all l : nth 0 l 0 ≠ 45 ∨ nth 1 l 0 ≠ 62 ∨ nth 3 l 0 ≠ 116 → arrow_here all l = false.
Proof.
  intros H. unfold arrow_here. destruct (Z.eqb_spec (nth 0 l 0) 45), (Z.eqb_spec (nth 1 l 0) 62), (Z.eqb_spec (nth 3 l 0) 116);
    rewrite ?andb_false_r; try done; tauto.
Qed.
Lemma no_arrow all l found : 62 ∉ l → behind_arrow all l found = found.
Proof.
  revert found. induction l as [|c l IH]; intros found Hl; [done|]. cbn [behind_arrow].
  apply not_elem_of_cons in Hl as [_ Hl]. rewrite IH by done.
  assert (arrow_here all (c :: l) = false) as ->; [|done]. unfold arrow_here.
  destruct l as [|d l]; [done|]. apply not_elem_of_cons in Hl as [Hd _]. cbn [nth]. apply not_eq_sym, Z.eqb_neq in Hd.
  rewrite Hd, !andb_false_r. done.
Qed.
Lemma behind_arrow_prefix all p r found :
  62 ∉ p → behind_arrow all (p ++ 32 :: r) found = behind_arrow all (32 :: r) found.
Proof.
  revert found. induction p as [|c p IH]; intros found Hp; [done|]. apply not_elem_of_cons in Hp as [_ Hp].
  cbn [app]. change (behind_arrow all (c :: p ++ 32 :: r) found) with
    (behind_arrow all (p ++ 32 :: r) (if arrow_here all (c :: p ++ 32 :: r) then Some (drop 8 (c :: p ++ 32 :: r)) else found)).
  rewrite IH by done. assert (arrow_here all (c :: p ++ 32 :: r) = false) as ->; [|done].
  unfold arrow_here. destruct p as [|d p]; cbn [app nth]; [by rewrite !andb_false_r|].
  apply not_elem_of_cons in Hp as [Hd _]. apply not_eq_sym, Z.eqb_neq in Hd. by rewrite Hd, !andb_false_r.
Qed.
Lemma behind_step all c l found :
  behind_arrow all (c :: l) found = behind_arrow all l (if arrow_here all (c :: l) then Some (drop 8 (c :: l)) else found).
Proof. done. Qed.
Lemma line_task_server all p id : 62 ∉ p → 0 <= id < 2 ^ 31 → line_task all (p ++ str " -> task " ++ utoa id) = Some id.
Proof.
  intros Hp Hid. unfold line_task. change (str " -> task ") with (32 :: str "-> task "). cbn [app].
  rewrite behind_arrow_prefix by done.
  assert (62 ∉ utoa id) as Hn by (apply not_in_utoa; lia).
  destruct (utoa id) as [|d ds] eqn:Hu; [by apply utoa_nonempty in Hu; [|lia]|].
  change (str "-> task ") with [45; 62; 32; 116; 97; 115; 107; 32]. cbn [app]. rewrite 3 behind_step.
  rewrite (arrow_not all (32 :: _)) by (by left).
  replace (arrow_here all (45 :: _)) with true by (by destruct all).
  rewrite (arrow_not all (62 :: _)) by (by left).
  cbn [drop]. rewrite no_arrow.
  - cbn [option_map]. rewrite <- Hu. by rewrite digits_utoa.
  - repeat (apply not_elem_of_cons; split; [done|]). done.
Qed.
Lemma line_task_bind all p t : 62 ∉ p → 62 ∉ t → head t = Some SLASH → line_task all (p ++ str " -> " ++ t) = None.
Proof.
  intros Hp Ht Hh. unfold line_task. change (str " -> ") with (32 :: str "-> "). cbn [app]. rewrite behind_arrow_prefix by done.
  change (str "-> ") with [45; 62; 32]. cbn [app]. rewrite 3 behind_step.
  rewrite (arrow_not all (32 :: _)) by (by left).
  destruct t as [|c t]; [done|]. injection Hh as ->.
  rewrite (arrow_not all (45 :: _)) by (by right; right).
  rewrite (arrow_not all (62 :: _)) by (by left).
  rewrite no_arrow; [done|]. by apply not_elem_of_cons.
Qed.

(** ** The whole listing *)

(** Names as they are in use: no newline and no '>', and a bind to an
    absolute name. *)
Definition clean (l : list Z) : Prop := (10 ∉ l) ∧ (62 ∉ l).
Definition mount_clean (m : mount) : Prop :=
  clean (prefix m) ∧
  match kind m with MNT_SERVER => 0 <= server m < 2 ^ 31 | MNT_BIND => clean (target m) ∧ head (target m) = Some SLASH end.
(** The line of an entry without its newline, and the server of it. *)
Definition entry_line (m : mount) : list Z :=
  match kind m with MNT_BIND => prefix m ++ str " -> " ++ target m | MNT_SERVER => prefix m ++ str " -> task " ++ utoa (server m) end.
Definition entry_task (m : mount) : option Z := match kind m with MNT_BIND => None | MNT_SERVER => Some (server m) end.

Lemma mount_line_entry m : mount_clean m → mount_line m = entry_line m ++ [10].
Proof.
  intros [_ H]. unfold mount_line, entry_line. destruct (kind m); rewrite <- ?app_assoc; [|done].
  rewrite u64_small by lia. done.
Qed.
Lemma line_task_entry all m : mount_clean m → line_task all (entry_line m) = entry_task m.
Proof.
  intros [[_ Hp] H]. unfold entry_line, entry_task. destruct (kind m).
  - by apply line_task_server.
  - destruct H as [[_ Ht] Hh]. by apply line_task_bind.
Qed.
Lemma entry_line_whole m : mount_clean m → 10 ∉ entry_line m.
Proof.
  intros [[Hp _] H]. unfold entry_line. destruct (kind m); rewrite !not_elem_of_app.
  - split_and!; [done|by apply (bool_decide_unpack _); vm_compute|apply not_in_utoa; lia].
  - destruct H as [[Ht _] _]. split_and!; [done|by apply (bool_decide_unpack _); vm_compute|done].
Qed.

(** Each element once, by its first occurrence. *)
Fixpoint firsts (seen l : list Z) : list Z :=
  match l with
  | [] => []
  | x :: l' => if bool_decide (x ∈ seen) then firsts (seen ++ [x]) l' else x :: firsts (seen ++ [x]) l'
  end.
Lemma firsts_seen l : ∀ s s', (∀ x, x ∈ s ↔ x ∈ s') → firsts s l = firsts s' l.
Proof.
  induction l as [|x l IH]; intros s s' Hs; [done|]. cbn [firsts].
  rewrite (IH (s ++ [x]) (s' ++ [x])) by (intros y; rewrite !elem_of_app, Hs; done).
  by rewrite (bool_decide_ext (x ∈ s) (x ∈ s') (Hs x)).
Qed.
(** A line that both searches read alike, and the task it names. *)
Definition reads (l : list Z) (o : option Z) : Prop := ∀ all, line_task all l = o.
Lemma already_seen_reads prev os id : Forall2 reads prev os → already_seen prev id = bool_decide (id ∈ omap (λ o, o) os).
Proof.
  induction 1 as [|l o prev os Hl _ IH]; [done|]. unfold already_seen in *. cbn [existsb]. rewrite IH, (Hl false).
  apply eq_true_iff_eq. rewrite orb_true_iff, !bool_decide_eq_true. destruct o as [x|]; cbn.
  - rewrite elem_of_cons. naive_solver.
  - naive_solver.
Qed.
Lemma server_scan_reads ls os : Forall2 reads ls os → ∀ prev pos seen idx,
  Forall2 reads prev pos → (seen <= idx)%nat →
  server_scan prev ls seen idx = firsts (omap (λ o, o) pos) (omap (λ o, o) os) !! (idx - seen)%nat.
Proof.
  induction 1 as [|l o ls os Hl _ IH]; intros prev pos seen idx Hp Hi; [done|]. cbn [server_scan]. rewrite (Hl true).
  assert (Forall2 reads (prev ++ [l]) (pos ++ [o])) as Hp' by (apply Forall2_app; [done|by repeat constructor]).
  destruct o as [x|]; cbn [omap list_omap].
  - rewrite (already_seen_reads prev pos x Hp). cbn [firsts].
    replace (omap (λ o : option Z, o) (pos ++ [Some x])) with (omap (λ o : option Z, o) pos ++ [x]) in * by (by rewrite omap_app).
    destruct (bool_decide _).
    + rewrite (IH _ _ _ _ Hp' Hi), omap_app. done.
    + destruct (Nat.eqb_spec seen idx) as [->|Hne]; [by rewrite Nat.sub_diag|].
      replace (idx - seen)%nat with (S (idx - S seen)) by lia. cbn [lookup list_lookup].
      rewrite (IH _ _ _ _ Hp'), omap_app by lia. done.
  - rewrite (IH _ _ _ _ Hp' Hi), omap_app. cbn. by rewrite app_nil_r.
Qed.
Lemma mounted_in_reads ls os id : Forall2 reads ls os → mounted_in ls id = bool_decide (id ∈ omap (λ o, o) os).
Proof.
  induction 1 as [|l o ls os Hl _ IH]; [done|]. unfold mounted_in in *. cbn [existsb]. rewrite IH, (Hl true).
  apply eq_true_iff_eq. rewrite orb_true_iff, !bool_decide_eq_true. destruct o as [x|]; cbn.
  - rewrite elem_of_cons. naive_solver.
  - naive_solver.
Qed.

(** A listing that fits is printed whole. *)
Definition whole_listing (n : namespace) : list Z := unlines (entry_line <$> entries n).
Lemma dump_loop_whole n c : ∀ i out,
  ns_wf n → Forall mount_clean (entries n) → (i + c = ns_n n)%nat →
  (length out + length (unlines (entry_line <$> drop i (entries n))) <= 480)%nat →
  dump_loop n 512 i c out = out ++ unlines (entry_line <$> drop i (entries n)).
Proof.
  induction c as [|c IH]; intros i out Hwf Hok Hi Hlen.
  - rewrite drop_ge by (rewrite entries_length by done; lia). cbn. by rewrite app_nil_r.
  - assert (entries n !! i = Some (mnt_at n i)) as Hm by (apply entries_mnt_at; [done|lia]).
    rewrite (drop_S _ _ _ Hm) in *. cbn [fmap list_fmap unlines mbind list_bind] in *. fold (unlines (entry_line <$> drop (S i) (entries n))) in *.
    rewrite !length_app in Hlen. cbn [dump_loop length] in *.
    destruct (Z.ltb_spec (Z.of_nat (length out)) (512 - 32)); [|lia].
    rewrite mount_line_entry by (by eapply Forall_lookup_1). rewrite IH; [by rewrite <- app_assoc|done|done|lia|].
    rewrite !length_app. cbn [length]. lia.
Qed.

(** The text of the kernel: the entries, and perhaps a line about the pool. *)
Lemma listing_text k who i p :
  task_by_id k who = Some i → ns (task_at k i) = p → p ≠ 0 →
  dump_loop (ns_at k p) 512 0 (ns_n (ns_at k p)) [] = whole_listing (ns_at k p) →
  ∃ tl, (vfs_dump_mounts_of who 512 k).1 = whole_listing (ns_at k p) ++ tl ∧ (tl = [] ∨ ∃ l, tl = l ++ [10] ∧ (10 ∉ l) ∧ (62 ∉ l)).
Proof.
  intros Hi Hp Hp0 Hd. unfold vfs_dump_mounts_of. apply Z.eqb_neq in Hp0. rewrite Hi, Hp, Hp0. cbn [negb]. rewrite Hp0, Hd.
  destruct (_ <? 512 - 40); cbn [fst]; [|exists []; rewrite app_nil_r; split; [done|by left]].
  eexists. split; [done|right]. eexists. split; [by rewrite !app_assoc|]. rewrite !not_elem_of_app.
  split; split_and!; lazymatch goal with
    | |- _ ∉ utoa _ => apply not_in_utoa; [first [apply u64_range|lia]|lia]
    | |- _ => by apply (bool_decide_unpack _); vm_compute
    end.
Qed.

(** C36: the text in which the kernel lists a namespace is read by the
    servers of /proc and /dev as what it is, when no name in the table holds
    a newline or '>', every bind leads to an absolute name and the listing
    has at most 480 bytes: a task counts as a server exactly when it is
    mounted there, and numbering the servers gives each of them once, in the
    order of the mount table.  A bind to another kind of name is taken for a
    server or hides one: [bound_name_is_a_server] and
    [bound_name_hides_a_server]. *)
Theorem servers_are_found k who i p :
  task_by_id k who = Some i → ns (task_at k i) = p → p ≠ 0 → ns_wf (ns_at k p) →
  Forall mount_clean (entries (ns_at k p)) → (length (whole_listing (ns_at k p)) <= 480)%nat →
  let ls := mount_lines (vfs_dump_mounts_of who 512 k).1 in
  let tasks := omap entry_task (entries (ns_at k p)) in
  (∀ id, mounted_in ls id = bool_decide (id ∈ tasks)) ∧ ∀ idx, server_scan [] ls 0 idx = firsts [] tasks !! idx.
Proof.
  intros Hi Hp Hp0 Hwf Hok Hfit ls tasks.
  assert (∃ os, Forall2 reads ls os ∧ omap (λ o, o) os = tasks) as (os & Hos & <-).
  2: { split; [intros id; by apply mounted_in_reads|]. intros idx.
       rewrite (server_scan_reads ls os Hos [] [] 0 idx) by (done || lia). by rewrite Nat.sub_0_r. }
  assert (dump_loop (ns_at k p) 512 0 (ns_n (ns_at k p)) [] = whole_listing (ns_at k p)) as Hd
    by (by apply dump_loop_whole).
  assert (Forall2 reads (entry_line <$> entries (ns_at k p)) (entry_task <$> entries (ns_at k p))) as Hreads.
  { clear -Hok. induction Hok as [|m ms Hm _ IH]; [constructor|]. cbn. constructor; [|done]. intros all. by apply line_task_entry. }
  assert (Forall (λ l, 10 ∉ l) (entry_line <$> entries (ns_at k p))) as Hlines.
  { apply Forall_fmap. eapply Forall_impl; [|exact Hok]. intros m Hm. by apply entry_line_whole. }
  assert (omap (λ o, o) (entry_task <$> entries (ns_at k p)) = tasks) as Ht.
  { unfold tasks. generalize (entries (ns_at k p)) as ms. induction ms as [|m ms IH]; [done|]. cbn. rewrite IH. by destruct (entry_task m). }
  destruct (listing_text k who i p Hi Hp Hp0 Hd) as (tl & Htext & Htl). unfold ls. rewrite Htext. unfold whole_listing.
  rewrite mount_lines_unlines by done. destruct Htl as [->|(l & -> & Hl1 & Hl2)].
  - exists (entry_task <$> entries (ns_at k p)). split; [|done]. cbn. by rewrite app_nil_r.
  - exists ((entry_task <$> entries (ns_at k p)) ++ [None]). rewrite omap_app, Ht. cbn [omap list_omap]. rewrite app_nil_r. split; [|done].
    apply Forall2_app; [done|].
    unfold mount_lines. rewrite split_lines_cons by done. constructor; [|constructor].
    intros all. unfold line_task. by rewrite no_arrow.
Qed.
Lemma servers_are_found_witness :
  let ls := mount_lines (vfs_dump_mounts_of 1 512 demo_vfs).1 in
  mounted_in ls 2 = true ∧ mounted_in ls 3 = false ∧ server_scan [] ls 0 1 = Some 2 ∧ server_scan [] ls 0 3 = None.
Proof.
  assert (entries (ns_at demo_vfs demo_ns_page) =
          [mkMount (str "/") MNT_SERVER 0 []; mkMount (str "/dev/") MNT_SERVER 2 []; mkMount (str "/proc/") MNT_SERVER 1 []]) as He
    by (vm_compute; reflexivity).
  destruct (servers_are_found demo_vfs 1 1 demo_ns_page) as [Hm Hs].
  - vm_compute. reflexivity.
  - vm_compute. reflexivity.
  - done.
  - split; vm_compute; lia.
  - rewrite He. repeat constructor; try (by apply (bool_decide_unpack _); vm_compute); cbn; lia.
  - unfold whole_listing. rewrite He. vm_compute. lia.
  - cbv zeta. rewrite !Hm, !Hs, He. split_and!; by vm_compute.
Defined.

(** ** Names that are taken for servers *)

(** A name bound to one that begins with "task " and a number is read as a
    server with that number, which then is sent requests. *)
Theorem bound_name_is_a_server :
  mounted_in (mount_lines (mount_line (mkMount (str "/x") MNT_BIND (-1) (str "task 7")))) 7 = true.
Proof. vm_compute. reflexivity. Qed.
(** The second search looks at two letters only: after a bind to such a name
    the server with the number 0 is no longer listed. *)
Theorem bound_name_hides_a_server :
  server_scan [] (mount_lines (mount_line (mkMount (str "/x") MNT_BIND (-1) (str "tables")) ++ mount_line (mkMount (str "/") MNT_SERVER 0 []))) 0 0 = None.
Proof. vm_compute. reflexivity. Qed.
