(* ===== verification/Devs.v ===== *)
(** * What the machine is, as files (src/src/srv_dev.c)

    The device tree and the PCI bus as the kernel renders them, and the
    servers' descriptions of themselves.  The server's own texts are
    parameters. *)
From stdpp Require Import base list numbers option.
From S2P Require Import Prelude Mem Req Client Reports.
Local Open Scope Z_scope.

Definition DEV_BUFSZ : Z := 8192.
Definition NOBODY : list Z := str "this server does not describe itself" ++ [10].
Definition dir_entry (c : Z) (name : list Z) : list Z := [c; 32; 48; 32] ++ name ++ [10].

Section dev.
Context {W : Type} `{World W} `{KernelView W}.
Context (junk : vfs_req) (stale doc conf : list Z).

(** ** The bus *)

(** The string in [char name[16]], which held [stale], once the answer is in
    it: the kernel copies no NUL. *)
Definition name_in (t : list Z) : prog W (list Z) :=
  let b := t ++ drop (length t) stale in
  if bool_decide (0 ∈ b) then pret (cstr b) else diverge.
(** [None] past the last function. *)
Definition pci_name_at (i : Z) : prog W (option (list Z)) :=
  let* x := sys_devinfo DEVINFO_NAME i 16 in
  match x with
  | Some (c :: t) => let* name := name_in (c :: t) in pret (Some name)
  | _ => pret None
  end.
Fixpoint pci_dir_loop (n : nat) (i cap : Z) (o : list Z) : prog W (list Z) :=
  match n with
  | O => pret o
  | S n' =>
      if Z.of_nat (length o) <? cap - 32 then
        let* x := pci_name_at i in
        match x with
        | Some name => pci_dir_loop n' (i + 1) cap (o ++ dir_entry 45 name)
        | None => pret o
        end
      else pret o
  end.
Definition format_pci_dir (cap : Z) : prog W (list Z) := pci_dir_loop 64 0 cap [].
Fixpoint pci_index_loop (n : nat) (i : Z) (leaf : list Z) : prog W Z :=
  match n with
  | O => pret (-1)
  | S n' =>
      let* x := pci_name_at i in
      match x with
      | Some name => if bool_decide (name = leaf) then pret i else pci_index_loop n' (i + 1) leaf
      | None => pret (-1)
      end
  end.
Definition pci_index_of (leaf : list Z) : prog W Z := pci_index_loop 64 0 leaf.

(** ** The servers *)

(** The task and the name of server number [idx]. *)
Definition server_task (idx : nat) : prog W (option (Z * list Z)) :=
  let* ls := own_mounts in
  match server_scan [] ls 0 idx with
  | None => pret None
  | Some id =>
      let* t := find_task 24 0 id in
      pret (option_map (λ t, (id, take 23 (ti_name t))) t)
  end.
Fixpoint doc_dir_loop (n i : nat) (cap : Z) (o : list Z) : prog W (list Z) :=
  match n with
  | O => pret o
  | S n' =>
      if Z.of_nat (length o) <? cap - 32 then
        let* x := server_task i in
        match x with
        | Some (_, name) => doc_dir_loop n' (S i) cap (o ++ dir_entry 45 name)
        | None => pret o
        end
      else pret o
  end.
Definition format_doc_dir (cap : Z) : prog W (list Z) := doc_dir_loop 16 0 cap (dir_entry 45 (str "kernel")).
(** The kernel's description, as much of it as fits. *)
Fixpoint kernel_doc_loop (n : nat) (cap : Z) (o : list Z) : prog W (list Z) :=
  match n with
  | O => diverge
  | S n' =>
      let* x := sys_devinfo DEVINFO_KERNEL (Z.of_nat (length o)) (cap - Z.of_nat (length o) - 1) in
      match x with Some (c :: t) => kernel_doc_loop n' cap (o ++ c :: t) | _ => pret o end
  end.
Fixpoint server_named (n i : nat) (leaf : list Z) : prog W (option Z) :=
  match n with
  | O => pret None
  | S n' =>
      let* x := server_task i in
      match x with
      | None => pret None
      | Some (t, name) => if bool_decide (name = leaf) then pret (Some t) else server_named n' (S i) leaf
      end
  end.
Definition fetch_doc (leaf : list Z) (cap : Z) : prog W (option (list Z)) :=
  if has_prefix leaf (str "kern") then let* t := kernel_doc_loop (Z.to_nat cap) cap [] in pret (Some t)
  else
    let* id := server_named 16 0 leaf in
    match id with
    | None => pret None
    | Some id =>
        let* self := sys_self in
        if id =? self then pret (Some doc)
        else
          let* t := fetch_loop junk (Z.to_nat cap) id IOCTL_DOC cap [] in
          pret (Some (match t with [] => NOBODY | _ => t end))
    end.

(** ** Requests *)

(** What a path names, [None] when it names nothing. *)
Definition dev_text (p : list Z) : prog W (option (list Z)) :=
  if is_name p (str "/doc") then let* t := format_doc_dir DEV_BUFSZ in pret (Some t)
  else if has_prefix p (str "/doc/") then fetch_doc (drop 5 p) DEV_BUFSZ
  else if is_name p (str "/dev") then pret (Some (dir_entry 45 (str "tree") ++ dir_entry 100 (str "pci")))
  else if is_name p (str "/dev/pci") then let* t := format_pci_dir DEV_BUFSZ in pret (Some t)
  else if has_prefix p (str "/dev/tree") then sys_devinfo DEVINFO_TREE 0 DEV_BUFSZ
  else if has_prefix p (str "/dev/pci/") then
    let* i := pci_index_of (drop 9 p) in
    if 0 <=? i then sys_devinfo DEVINFO_PCI i DEV_BUFSZ else pret None
  else pret None.
Definition dev_do_open (r : vfs_req) (from : Z) : prog (pub W) vfs_req :=
  let* i := rf_alloc in
  match i with
  | None => pret (r <| result := -1 |>)
  | Some i =>
      let* ok := ask_p (malloc_gives DEV_BUFSZ) in
      if negb ok then pret (r <| result := -1 |>)
      else let* t := ask_p (dev_text (path r)) in rf_open i from 0 DEV_BUFSZ t r
  end.
Definition dev_ioctl (r : vfs_req) : prog (pub W) vfs_req :=
  if ioctl_cmd r =? IOCTL_PING then pret (r <| result := 0 |>)
  else if ioctl_cmd r =? IOCTL_DOC then pret (vfs_doc_reply r doc)
  else if ioctl_cmd r =? IOCTL_CONF then pret (vfs_doc_reply r conf)
  else if ioctl_cmd r =? IOCTL_HOLDS then
    let* t := gets p_tab in pret (vfs_reply_text r (holds_text (str "a rendering of /dev" ++ [10]) (len r) t))
  else if ioctl_cmd r =? IOCTL_GETSIZE then rf_size r
  else pret (r <| result := -1 |>).
(** A message from a task, and the reply to it. *)
Definition dev_server (from : Z) (r : vfs_req) : prog (pub W) vfs_req :=
  if op r =? VFS_OPEN then dev_do_open r from
  else if op r =? VFS_READ then rf_read r
  else if op r =? VFS_IOCTL then dev_ioctl r
  else if op r =? VFS_CLOSE then rf_close r
  else pret (r <| result := -1 |>).
End dev.

(** ** /dev always answers (src/src/srv_dev.c)

    Whatever is asked of the server, it answers with a well typed reply, and
    no rendering runs over its buffer. *)

Section dev.
Context {W : Type} `{KernelLaws W}.
Context (junk : vfs_req) (stale doc conf : list Z).
(** The name buffer on the stack happens to hold a NUL. *)
Abbreviation BUF := (Z.to_nat 8192).
Context (Hstale : text_ok 16 stale) (Hnul : stale !! 15%nat = Some 0) (Hdoc : text_ok BUF doc) (Hconf : text_ok BUF conf).
Definition fits8 (o : option (list Z)) : Prop := some_ok (text_ok BUF) o.
Lemma fits8_some (m : prog W (list Z)) : returns m (text_ok BUF) → returns (let* x := m in pret (Some x)) fits8.
Proof. intros Hm. eapply returns_bind; [exact Hm|]. intros t Ht. apply returns_ret. by intros ? [= <-]. Qed.
Lemma fits8_none : returns (S := W) (pret (A := option (list Z)) None) fits8.
Proof. apply returns_ret. by intros ? [=]. Qed.
Lemma fits8_text t : text_ok BUF t → returns (S := W) (pret (Some t)) fits8.
Proof. intros Ht. apply returns_ret. by intros ? [= <-]. Qed.

Lemma pci_name_at_ok i : returns (pci_name_at stale i) (some_ok (text_ok 16)).
Proof.
  unfold pci_name_at. eapply returns_bind; [apply pciname_ok|]. intros [[|c t]|] Hx; try (apply returns_ret; by intros ? [=]).
  destruct (Hx _ eq_refl) as [Hl Hb]. unfold name_in. cbv zeta. eapply returns_bind.
  - rewrite bool_decide_true.
    + apply returns_ret. apply (text_ok_cstr 16). destruct Hstale as [Hsl Hsb]. split.
      * rewrite length_app, length_drop. lia.
      * apply list.Forall_app. split; [done|by apply Forall_drop].
    + apply elem_of_app. right. apply list_elem_of_lookup. exists (15 - length (c :: t))%nat.
      rewrite lookup_drop, <- Hnul. f_equal. lia.
  - intros name Hn. apply returns_ret. by intros ? [= <-].
Qed.
(** One more entry of a directory that has room for it. *)
Lemma entry_ok o c name :
  text_ok BUF o → byte_ok c → text_ok 23 name → (length o < BUF - 32)%nat → text_ok BUF (o ++ dir_entry c name).
Proof.
  intros [_ Ho] Hc [Hl Hb] Hlen. unfold dir_entry. split.
  - rewrite !length_app. cbn. lia.
  - apply list.Forall_app. split; [done|]. apply list.Forall_app. split; [constructor; [done|]; by apply (text_ok_by 3)|].
    apply list.Forall_app. split; [done|by apply (text_ok_by 1)].
Qed.
Lemma pci_dir_loop_ok n : ∀ i o, text_ok BUF o → returns (pci_dir_loop stale n i DEV_BUFSZ o) (text_ok BUF).
Proof.
  induction n as [|n IH]; intros i o Ho; cbn [pci_dir_loop]; [by apply returns_ret|].
  unfold DEV_BUFSZ at 1. destruct (Z.ltb_spec (Z.of_nat (length o)) (8192 - 32)); [|by apply returns_ret].
  eapply returns_bind; [apply pci_name_at_ok|]. intros [name|] Hn; [|by apply returns_ret].
  apply IH, entry_ok; [done|by vm_compute|eapply text_ok_le; [by apply Hn|lia]|lia].
Qed.
Lemma pci_index_loop_ok n leaf : ∀ i, returns (pci_index_loop stale n i leaf) (λ _, True).
Proof.
  induction n as [|n IH]; intros i; cbn [pci_index_loop]; [by apply returns_ret|].
  eapply returns_bind; [apply pci_name_at_ok|]. intros [name|] _; [|by apply returns_ret]. destruct (bool_decide _); [by apply returns_ret|apply IH].
Qed.
Lemma server_task_ok i : returns (server_task i) (some_ok (λ p, text_ok 23 p.2)).
Proof.
  unfold server_task. eapply returns_bind; [apply own_mounts_ok|]. intros ls _. destruct (server_scan _ _ _ _); [|apply returns_ret; by intros ? [=]].
  eapply returns_bind; [apply find_task_ok|]. intros [t|] Ht; apply returns_ret; [|by intros ? [=]]. intros p [= <-].
  eapply text_ok_take, Ht. done.
Qed.
Lemma doc_dir_loop_ok n : ∀ i o, text_ok BUF o → returns (doc_dir_loop n i DEV_BUFSZ o) (text_ok BUF).
Proof.
  induction n as [|n IH]; intros i o Ho; cbn [doc_dir_loop]; [by apply returns_ret|].
  unfold DEV_BUFSZ at 1. destruct (Z.ltb_spec (Z.of_nat (length o)) (8192 - 32)); [|by apply returns_ret].
  eapply returns_bind; [apply server_task_ok|]. intros [[id name]|] Hn; [|by apply returns_ret].
  apply IH, entry_ok; [done|by vm_compute|by apply (Hn _ eq_refl)|lia].
Qed.
Lemma kernel_doc_loop_ok n : ∀ o, (length o < BUF)%nat → (BUF <= n + length o)%nat → Forall byte_ok o →
  returns (kernel_doc_loop n DEV_BUFSZ o) (text_ok BUF).
Proof.
  induction n as [|n IH]; intros o Ho Hn Hb; [lia|]. cbn [kernel_doc_loop]. unfold DEV_BUFSZ at 1.
  eapply returns_bind; [apply devinfo_ok|]. intros [[|c t]|] Ht; try (apply returns_ret; split; [lia|done]).
  destruct (Ht _ eq_refl) as [Hl Hcb]. cbn [length] in Hl. apply IH; rewrite ?length_app; cbn [length]; [lia|lia|by apply list.Forall_app].
Qed.
Lemma server_named_ok n leaf : ∀ i, returns (server_named n i leaf) (λ _, True).
Proof.
  induction n as [|n IH]; intros i; cbn [server_named]; [by apply returns_ret|].
  eapply returns_bind; [apply server_task_ok|]. intros [[id name]|] _; [|by apply returns_ret]. destruct (bool_decide _); [by apply returns_ret|apply IH].
Qed.
Lemma fetch_doc_ok leaf : returns (fetch_doc junk doc leaf DEV_BUFSZ) fits8.
Proof.
  unfold fetch_doc. destruct (has_prefix _ _).
  - apply fits8_some, kernel_doc_loop_ok; [cbn [length]; lia|unfold DEV_BUFSZ; cbn [length]; lia|constructor].
  - eapply returns_bind; [apply server_named_ok|]. intros [id|] _; [|apply fits8_none].
    eapply returns_bind; [apply self_ok|]. intros self _. destruct (id =? self); [by apply fits8_text|].
    eapply returns_bind; [apply (fetch_loop_ok junk id IOCTL_DOC BUF); [by rewrite Z2Nat.id|tauto|cbn [length]; lia|unfold DEV_BUFSZ; cbn [length]; lia|constructor]|].
    intros t Ht. apply fits8_text. destruct t; [by apply text_ok_by|done].
Qed.
Lemma dev_text_ok p : returns (dev_text junk stale doc p) fits8.
Proof.
  unfold dev_text. destruct (is_name p (str "/doc")); [apply fits8_some, doc_dir_loop_ok; by apply text_ok_by|].
  destruct (has_prefix p (str "/doc/")); [apply fetch_doc_ok|].
  destruct (is_name p (str "/dev")); [apply fits8_text; by apply text_ok_by|].
  destruct (is_name p (str "/dev/pci")); [apply fits8_some, pci_dir_loop_ok, text_ok_nil|].
  destruct (has_prefix p (str "/dev/tree")); [apply (devinfo_ok DEVINFO_TREE 0 DEV_BUFSZ)|].
  destruct (has_prefix p (str "/dev/pci/")); [|apply fits8_none].
  eapply returns_bind; [apply pci_index_loop_ok|]. intros i _. destruct (0 <=? i); [apply (devinfo_ok DEVINFO_PCI i DEV_BUFSZ)|apply fits8_none].
Qed.

(** The table of open files, whole. *)
Definition dev_ok (s : pub W) : Prop := pub_ok BUF s.

(** C38: /dev answers every request for at most the 512 bytes of a message,
    when the sixteen bytes of stack in which it reads the name of a PCI
    function happen to end in a NUL: whatever the kernel and the other
    servers answer within their contracts, every loop ends, no rendering
    overruns its buffer or its reply, the reply is well typed and the table
    of open files stays whole.  Neither condition is seen to by the code: a
    longer read overruns the reply ([long_report_overruns] of Reports.v),
    and without the NUL the name is read past its buffer
    ([function_name_runs_on]). *)
Theorem dev_always_answers from r s :
  dev_ok s → req_typed r → len r <= 512 →
  wp (dev_server junk stale doc conf from r) (λ r' s', dev_ok s' ∧ req_typed r') s.
Proof.
  intros Hs Hr Hlen. change (wp (dev_server junk stale doc conf from r) (good_reply BUF) s). unfold dev_server.
  destruct (_ =? VFS_OPEN).
  { unfold dev_do_open. apply wp_bind. eapply wp_mono; [by apply (rf_alloc_ok BUF)|]. intros [i|] s1 [Hs1 Hi]; [|by apply refuse_ok].
    specialize (Hi i eq_refl). apply wp_bind. eapply wp_mono; [apply ask_p_ok, malloc_ok|]. intros ok s2 [_ Ht2].
    destruct ok; cbn [negb]; [|apply refuse_ok; [by eapply same_tab_ok|done|done]].
    apply wp_bind. eapply wp_mono; [apply ask_p_ok, dev_text_ok|]. intros x s3 [Hx Ht3].
    apply (rf_open_ok BUF); [by rewrite Z2Nat.id| |done| |done].
    - eapply same_tab_ok; [exact Ht3|]. by eapply same_tab_ok.
    - destruct Hi as [? Hu]. split; [done|]. by rewrite Ht3, Ht2. }
  destruct (_ =? VFS_READ); [by apply rf_read_ok|]. destruct (_ =? VFS_IOCTL).
  { unfold dev_ioctl. destruct (_ =? IOCTL_PING); [by apply refuse_ok|].
    destruct (_ =? IOCTL_DOC); [apply wp_ret; split; [done|]; by apply doc_reply_typed, Hdoc|].
    destruct (_ =? IOCTL_CONF); [apply wp_ret; split; [done|]; by apply doc_reply_typed, Hconf|].
    destruct (_ =? IOCTL_HOLDS).
    { apply wp_bind, wp_gets, wp_ret. split; [done|]. apply reply_text_typed; [done|]. apply (holds_text_ok 20). by apply text_ok_by. }
    destruct (_ =? IOCTL_GETSIZE); [by apply (rf_size_ok BUF)|by apply refuse_ok]. }
  destruct (_ =? VFS_CLOSE); [by apply rf_close_ok|by apply refuse_ok].
Qed.
End dev.
Lemma dev_always_answers_witness :
  ∃ r' s', dev_server (open_req []) (replicate 16 0) (str "dev") [] 20 (open_req (str "/doc/fs")) empty_pub = Some (r', s') ∧ req_typed r' ∧
    result r' = 0 ∧ rf_data (nth 0 (p_tab s') no_rfile) = str "a server".
Proof.
  pose proof (dev_always_answers (open_req []) (replicate 16 0) (str "dev") [] ltac:(by apply text_ok_by) eq_refl ltac:(by apply text_ok_by)
    (text_ok_nil _) 20 (open_req (str "/doc/fs")) empty_pub
    (empty_pub_ok _) (open_req_typed (str "/doc/fs") ltac:(vm_compute; lia) ltac:(by repeat constructor)) ltac:(cbn; lia)) as H.
  apply wp_run in H as (r' & s' & Hrun & _ & Hty). exists r', s'. split; [exact Hrun|]. split; [exact Hty|].
  vm_compute in Hrun. injection Hrun as <- <-. split; reflexivity.
Defined.

(** The kernel hands out the seven characters of a function's name without a
    NUL: what the server takes for the name goes on with whatever its stack
    holds behind them. *)
Theorem function_name_runs_on :
  (∀ s : (), name_in (replicate 12 65 ++ [0; 0; 0; 0]) (str "00:01.0") s = Some (str "00:01.0AAAAA", s)) ∧
  (∀ s : (), name_in (replicate 16 65) (str "00:01.0") s = None).
Proof. split; intros s; vm_compute; reflexivity. Qed.
