(* ===== verification/Procs.v ===== *)
(** * Kernel state as files (src/src/srv_proc.c)

    The task table, the graph of who waits for whom, namespaces and page
    tables, each rendered when it is opened, for the caller or for the task
    named in the path.  The server's own texts are parameters. *)
From stdpp Require Import base list numbers option.
From S2P Require Import Prelude Mem Riscv Req Client Reports.
Local Open Scope Z_scope.

Definition PROC_BUFSZ : Z := 4096.
Definition PROC_NTASK : nat := 24.
Definition NL : list Z := [10].

Definition state_name (s : Z) : list Z :=
  if s =? 1 then str "runnable" else if s =? 2 then str "running" else if s =? 3 then str "blocked" else str "?".
Definition ipc_words (t : taskinfo) : list Z :=
  (if ti_ipc t =? IPC_RECV then str "recv" else if ti_ipc t =? IPC_RECVFROM then str "recv from "
   else if ti_ipc t =? IPC_SEND then str "send to " else if ti_ipc t =? IPC_WAIT then str "wait for "
   else if ti_ipc t =? IPC_ALARM then str "alarm" else []) ++
  (if 0 <=? ti_peer t then uutoa (u64 (ti_peer t)) else []) ++
  (if (ti_ipc t =? IPC_SEND) && (ti_peer t <? 0) then str "?" else []) ++
  (if ti_senders t =? 0 then [] else str "   senders " ++ uutoa (u64 (ti_senders t))).
Definition task_line (t : taskinfo) : list Z :=
  uutoa (u64 (ti_id t)) ++ [32; 32] ++ pad_to 9 (state_name (ti_state t)) ++ pad_to 18 (ti_name t) ++
  (if ti_is_current t then str "(me)" else ipc_words t) ++ NL.
Definition ipc_line (t : taskinfo) : list Z :=
  uutoa (u64 (ti_id t)) ++ [32] ++ pad_to 18 (ti_name t) ++ pad_to 9 (state_name (ti_state t)) ++ ipc_words t ++
  (if (ti_ipc t =? IPC_SEND) && negb (ti_msglen t =? 0) then str "  (" ++ uutoa (u64 (ti_msglen t)) ++ str " bytes)" else []) ++ NL.
Definition dir_line (t : taskinfo) : list Z := str "d 0 " ++ uutoa (u64 (ti_id t)) ++ NL.
(** A task that holds a message out to [who]. *)
Definition sender_line (who : Z) (t : taskinfo) : list Z :=
  if (ti_ipc t =? IPC_SEND) && (ti_peer t =? who) then
    str "  <- " ++ uutoa (u64 (ti_id t)) ++ [32] ++ ti_name t ++ str " is holding out " ++ uutoa (u64 (ti_msglen t)) ++ str " bytes" ++ NL
  else [].
(** The number behind /proc/, and what follows it and a slash. *)
Definition path_task (p : list Z) : option (Z * list Z) :=
  if has_prefix p (str "/proc/") then
    let q := drop 6 p in
    if is_digit (hd 0 q) then
      let '(id, rest) := digits i32 q 0 in
      Some (id, match rest with 47 :: rest' => rest' | _ => rest end)
    else None
  else None.
Definition names (l : list (list Z)) : list Z := mbind (λ n, str "- 0 " ++ n ++ NL) l.

Section proc.
Context {W : Type} `{World W} `{KernelView W}.
Context (junk : vfs_req) (doc conf : list Z).

Definition format_tasks (cap : Z) : prog W (list Z) := for_tasks PROC_NTASK 0 (cap - 48) task_line [].
Definition format_procdir (cap : Z) : prog W (list Z) :=
  for_tasks PROC_NTASK 0 (cap - 24) dir_line (names [str "tasks"; str "mounts"; str "pagetable"; str "ipc"]).
Definition format_ipc (cap : Z) : prog W (list Z) :=
  for_tasks PROC_NTASK 0 (cap - 80) ipc_line (str "task                  state    holding out to" ++ NL).
Definition format_task_ipc (who cap : Z) : prog W (option (list Z)) :=
  let* t := find_task PROC_NTASK 0 who in
  match t with
  | None => pret None
  | Some t =>
      let w := ipc_words t in
      let* o := for_tasks PROC_NTASK 0 (cap - 48) (sender_line who)
        (str "task     " ++ uutoa (u64 (ti_id t)) ++ [32] ++ ti_name t ++ NL ++ str "state    " ++ state_name (ti_state t) ++ NL ++
         str "waiting  " ++ (match w with [] => str "nothing" | _ => w end) ++ NL ++
         str "senders  " ++ uutoa (u64 (ti_senders t)) ++ NL) in
      pret (Some o)
  end.
(** [o] with the walk of one address, and no more than the room left. *)
Definition walk_of (who va cap : Z) (o : list Z) : prog W (list Z) :=
  let* d := sys_pgdump who va (cap - Z.of_nat (length o)) in pret (o ++ d).
Definition format_pagetable (who cap : Z) : prog W (list Z) :=
  let* (free, total) := sys_meminfo in
  let* o := walk_of who (USTACK_TOP - PGSIZE) cap
    (str "task " ++ uutoa (u64 who) ++ NL ++ str "free pages " ++ uutoa (u64 free) ++ str " of " ++ uutoa (u64 total) ++ NL ++ NL ++
     str "its stack:" ++ NL) in
  let* o := walk_of who UHEAP_BASE cap (o ++ NL ++ str "its heap:" ++ NL) in
  walk_of who UART_BASE_PA cap (o ++ NL ++ str "the UART (shared):" ++ NL).

(** ** Asking the servers *)

Definition is_mounted_server (id : Z) : prog W bool := let* ls := own_mounts in pret (mounted_in ls id).
(** Every mounted server but this one, asked once about one task; [n] is the
    room that must be left. *)
Fixpoint ask_loop (self cmd about cap : Z) (prev ls : list (list Z)) (o : list Z) : prog W (list Z) :=
  match ls with
  | [] => pret o
  | l :: ls' =>
      if Z.of_nat (length o) <? cap - VFS_DATA_MAX - 32 then
        match line_task true l with
        | None => ask_loop self cmd about cap (prev ++ [l]) ls' o
        | Some id =>
            if already_seen prev id || (id =? self) then ask_loop self cmd about cap (prev ++ [l]) ls' o
            else
              let* r := vfs_call id (doc_req junk cmd about) in
              let room := cap - Z.of_nat (length o) - 1 in
              let k := if room <? result r then room else result r in
              if (result r <=? 0) || (k <=? 0) then ask_loop self cmd about cap (prev ++ [l]) ls' o
              else if VFS_DATA_MAX <? k then diverge
              else ask_loop self cmd about cap (prev ++ [l]) ls' (o ++ take (Z.to_nat k) (data r))
        end
      else pret o
  end.
Definition ask_all (cmd about cap : Z) : prog W (list Z) :=
  let* ls := own_mounts in
  let* self := sys_self in
  ask_loop self cmd about cap [] ls [].
Definition fetch_paged (id cmd cap : Z) (mine : list Z) : prog W (option (list Z)) :=
  let* self := sys_self in
  if id =? self then pret (Some mine)
  else
    let* ok := is_mounted_server id in
    if negb ok then pret None
    else
      let* t := fetch_loop junk (Z.to_nat cap) id cmd cap [] in
      pret (Some (match t with [] => str "this server does not answer that" ++ NL | _ => t end)).
Definition format_fd (who cap : Z) (t : list rfile) : prog W (list Z) :=
  let* o := ask_all IOCTL_HOLDS who cap in
  let o := foldl (λ o f, if (Z.of_nat (length o) <? cap - 32) && rf_used f && (rf_owner f =? who)
                         then o ++ str "a rendering of /proc" ++ NL else o) o t in
  pret (match o with [] => str "nothing" ++ NL | _ => o end).

(** ** Requests *)

(** A file in the directory of the task [who]; [None] when there is none. *)
Definition task_text (who : Z) (leaf : list Z) (t : list rfile) : prog W (option (list Z)) :=
  let* live := sys_alive who in
  if negb live then pret None
  else
    match leaf with
    | [] =>
        let* self := sys_self in
        let* server := (if who =? self then pret true else is_mounted_server who) in
        pret (Some (names ([str "mounts"; str "pagetable"; str "ipc"; str "ctl"; str "fd"] ++
                           if server : bool then [str "doc"; str "conf"] else [])))
    | _ =>
        if has_prefix leaf (str "doc") then fetch_paged who IOCTL_DOC PROC_BUFSZ doc
        else if has_prefix leaf (str "conf") then fetch_paged who IOCTL_CONF PROC_BUFSZ conf
        else if has_prefix leaf (str "fd") then let* x := format_fd who PROC_BUFSZ t in pret (Some x)
        else if has_prefix leaf (str "ipc") then format_task_ipc who PROC_BUFSZ
        else if has_prefix leaf (str "ctl") then pret (Some (str "kill" ++ NL))
        else if has_prefix leaf (str "mounts") then let* x := sys_mounts who PROC_BUFSZ in pret (Some x)
        else if has_prefix leaf (str "pagetable") then let* x := format_pagetable who PROC_BUFSZ in pret (Some x)
        else pret None
    end.
Definition proc_text (p : list Z) (caller : Z) (t : list rfile) : prog W (option (list Z)) :=
  let some (m : prog W (list Z)) : prog W (option (list Z)) := let* x := m in pret (Some x) in
  if is_name p (str "/proc") then some (format_procdir PROC_BUFSZ)
  else if has_prefix p (str "/proc/ipc") then some (format_ipc PROC_BUFSZ)
  else
    match path_task p with
    | Some (who, leaf) => if 0 <=? who then task_text who leaf t else pret None
    | None =>
        if has_prefix p (str "/proc/tasks") then some (format_tasks PROC_BUFSZ)
        else if has_prefix p (str "/proc/mounts") then some (sys_mounts caller PROC_BUFSZ)
        else if has_prefix p (str "/proc/pagetable") then some (format_pagetable caller PROC_BUFSZ)
        else pret None
    end.
(** The task a control file is about; 0 for every other file. *)
Definition ctl_task (p : list Z) : Z :=
  match path_task p with
  | Some (who, leaf) =>
      if (0 <=? who) && has_prefix leaf (str "ctl") then who else 0
  | None => 0
  end.
Definition proc_do_open (r : vfs_req) (caller : Z) : prog (pub W) vfs_req :=
  let* i := rf_alloc in
  match i with
  | None => pret (r <| result := -1 |>)
  | Some i =>
      let* ok := ask_p (malloc_gives PROC_BUFSZ) in
      if negb ok then pret (r <| result := -1 |>)
      else
        let* t := gets p_tab in
        let* x := ask_p (proc_text (path r) caller t) in
        rf_open i caller (match x with Some _ => ctl_task (path r) | None => 0 end) PROC_BUFSZ x r
  end.
Definition proc_write (r : vfs_req) : prog (pub W) vfs_req :=
  let* x := rf_of r in
  match x with
  | None => pret (r <| result := -1 |>)
  | Some (_, f) =>
      if rf_ctl f <=? 0 then pret (r <| result := -1 |>)
      else if has_prefix (data r) (str "kill") then
        let* k := ask_p (sys_kill (rf_ctl f)) in
        pret (r <| result := if k =? 0 then len r else -1 |>)
      else pret (r <| result := -1 |>)
  end.
Definition proc_ioctl (r : vfs_req) : prog (pub W) vfs_req :=
  if ioctl_cmd r =? IOCTL_PING then pret (r <| result := 0 |>)
  else if ioctl_cmd r =? IOCTL_DOC then pret (vfs_doc_reply r doc)
  else if ioctl_cmd r =? IOCTL_CONF then pret (vfs_doc_reply r conf)
  else if ioctl_cmd r =? IOCTL_HOLDS then
    let* t := gets p_tab in pret (vfs_reply_text r (holds_text (str "a rendering of /proc" ++ NL) (len r) t))
  else if ioctl_cmd r =? IOCTL_GETSIZE then rf_size r
  else pret (r <| result := -1 |>).
(** A message from a task, and the reply to it. *)
Definition proc_server (from : Z) (r : vfs_req) : prog (pub W) vfs_req :=
  if op r =? VFS_OPEN then proc_do_open r from
  else if op r =? VFS_WRITE then proc_write r
  else if op r =? VFS_READ then rf_read r
  else if op r =? VFS_IOCTL then proc_ioctl r
  else if op r =? VFS_CLOSE then rf_close r
  else pret (r <| result := -1 |>).
End proc.

(** ** /proc always answers (src/src/srv_proc.c)

    Whatever is asked of the server, it answers with a well typed reply, and
    no rendering runs over its buffer. *)

(** ** Lines of /proc *)

Lemma state_name_ok s : text_ok 8 (state_name s).
Proof. unfold state_name. destruct (s =? 1), (s =? 2), (s =? 3); by apply text_ok_by. Qed.
(** The parts of [ipc_words]. *)
Lemma ipc_verb_ok x :
  text_ok 10 (if x =? IPC_RECV then str "recv" else if x =? IPC_RECVFROM then str "recv from "
              else if x =? IPC_SEND then str "send to " else if x =? IPC_WAIT then str "wait for "
              else if x =? IPC_ALARM then str "alarm" else []).
Proof. by destruct (x =? IPC_RECV), (x =? IPC_RECVFROM), (x =? IPC_SEND), (x =? IPC_WAIT), (x =? IPC_ALARM); apply text_ok_by. Qed.
Lemma if_ok n m (b : bool) t u : text_ok n t → text_ok m u → text_ok (n `max` m) (if b then t else u).
Proof. intros Ht Hu. destruct b; eapply text_ok_le; eauto; lia. Qed.
Lemma ipc_words_ok t : text_ok 70 (ipc_words t).
Proof.
  unfold ipc_words. bounded ltac:(first [apply ipc_verb_ok|apply if_ok; pieces nothing]).
Qed.
Lemma or_nothing_ok t : text_ok 70 (match ipc_words t with [] => str "nothing" | _ => ipc_words t end).
Proof. pose proof (ipc_words_ok t) as Hw. destruct (ipc_words t); [by apply text_ok_by|done]. Qed.
Section lines.
Context (t : taskinfo) (Hname : text_ok 15 (ti_name t)).
Ltac known :=
  first [ apply Hname | apply ipc_words_ok | apply state_name_ok
        | apply (pad_ok 15 18); [apply Hname|lia] | apply (pad_ok 8 9); [apply state_name_ok|lia]
        | apply if_ok; pieces known ].
Lemma task_line_ok : text_ok 124 (task_line t).
Proof. unfold task_line, NL. bounded known. Qed.
Lemma ipc_line_ok : text_ok 157 (ipc_line t).
Proof. unfold ipc_line, NL. bounded known. Qed.
Lemma dir_line_ok : text_ok 29 (dir_line t).
Proof. unfold dir_line, NL. bounded known. Qed.
Lemma sender_line_ok who : text_ok 92 (sender_line who t).
Proof. unfold sender_line, NL. bounded known. Qed.
End lines.

(** ** The renderings of /proc *)

Section proc.
Context {W : Type} `{KernelLaws W}.
Context (junk : vfs_req) (doc conf : list Z) (Hdoc : text_ok 4096 doc) (Hconf : text_ok 4096 conf).
Definition fits (o : option (list Z)) : Prop := some_ok (text_ok 4096) o.
Lemma fits_some (m : prog W (list Z)) : returns m (text_ok 4096) → returns (let* x := m in pret (Some x)) fits.
Proof. intros Hm. eapply returns_bind; [exact Hm|]. intros t Ht. apply returns_ret. by intros ? [= <-]. Qed.
Lemma fits_none : returns (S := W) (pret (A := option (list Z)) None) fits.
Proof. apply returns_ret. by intros ? [=]. Qed.
Lemma fits_text t : text_ok 4096 t → returns (S := W) (pret (Some t)) fits.
Proof. intros Ht. apply returns_ret. by intros ? [= <-]. Qed.
Lemma rows_ok k m o room line :
  text_ok k o → (∀ t, text_ok 15 (ti_name t) → text_ok m (line t)) → (k + 24 * m <= 4096)%nat →
  returns (for_tasks PROC_NTASK 0 room line o) (text_ok 4096).
Proof.
  intros Ho Hline Hk. eapply returns_mono; [by apply (for_tasks_ok PROC_NTASK m k)|].
  intros t Ht. eapply text_ok_le; [exact Ht|exact Hk].
Qed.
Lemma names_ok l : forallb (λ t, text_okb 16 t) l = true → text_ok (length l * 21) (names l).
Proof.
  induction l as [|t l IH]; cbn [forallb]; [intros _; apply text_ok_nil|]. intros [Ht%text_ok_by Hl]%andb_true_iff.
  unfold names. cbn [mbind list_bind]. cbn [length]. rewrite Nat.mul_succ_l, Nat.add_comm. apply text_ok_app; [|by apply IH].
  unfold NL. bounded ltac:(apply Ht).
Qed.
Lemma format_task_ipc_ok who : returns (format_task_ipc who PROC_BUFSZ) fits.
Proof.
  unfold format_task_ipc. eapply returns_bind; [apply find_task_ok|]. intros [t|] Ht; [|apply fits_none].
  specialize (Ht t eq_refl). cbv zeta. apply fits_some.
  apply (rows_ok 250 92).
  - unfold NL. bounded ltac:(first [apply Ht|apply state_name_ok|apply or_nothing_ok]).
  - intros u Hu. by apply sender_line_ok.
  - lia.
Qed.
Lemma walk_of_ok k who va o : text_ok k o → returns (walk_of who va PROC_BUFSZ o) (text_ok (k + 512)).
Proof.
  intros Ho. unfold walk_of. eapply returns_bind; [apply pgdump_ok|]. intros d Hd. apply returns_ret. by apply text_ok_app.
Qed.
Lemma format_pagetable_ok who : returns (format_pagetable who PROC_BUFSZ) (text_ok 4096).
Proof.
  unfold format_pagetable, NL. eapply returns_bind; [apply meminfo_ok|]. intros [free total] _.
  eapply returns_bind; [apply (walk_of_ok 200); bounded nothing|]. intros o1 Ho1.
  eapply returns_bind; [apply (walk_of_ok 750); bounded ltac:(exact Ho1)|]. intros o2 Ho2.
  eapply returns_mono; [apply (walk_of_ok 1300); bounded ltac:(exact Ho2)|]. intros t Ht. eapply text_ok_le; [exact Ht|lia].
Qed.
Lemma ask_loop_ok self about ls : ∀ prev o,
  text_ok 4095 o → returns (ask_loop junk self IOCTL_HOLDS about PROC_BUFSZ prev ls o) (text_ok 4095).
Proof.
  induction ls as [|l ls IH]; intros prev o Ho; cbn [ask_loop]; [by apply returns_ret|].
  destruct (Z.ltb_spec (Z.of_nat (length o)) (PROC_BUFSZ - VFS_DATA_MAX - 32)) as [Hl|]; [|by apply returns_ret].
  destruct (line_task true l) as [id|]; [|by apply IH]. destruct (already_seen prev id || _); [by apply IH|].
  eapply returns_bind; [apply vfs_call_ok; tauto|]. intros r Hr. cbv zeta. unfold PROC_BUFSZ, VFS_DATA_MAX in *.
  set (k := if _ <? result r then _ else result r). destruct ((result r <=? 0) || (k <=? 0)) eqn:E; [by apply IH|].
  apply orb_false_iff in E as [E1%Z.leb_gt E2%Z.leb_gt]. destruct Hr as [Hr|[Hty Hr]]; [lia|].
  assert (k <= 512) by (subst k; destruct (Z.ltb_spec (4096 - Z.of_nat (length o) - 1) (result r)); lia).
  destruct (Z.ltb_spec 512 k); [lia|]. apply IH. destruct Ho as [_ Hb].
  destruct (reply_piece r k Hty ltac:(lia)) as [Hpl Hpb]. split; [rewrite length_app; lia|by apply list.Forall_app].
Qed.
Lemma format_fd_ok who t : returns (format_fd junk who PROC_BUFSZ t) (text_ok 4096).
Proof.
  unfold format_fd, ask_all. eapply returns_bind.
  - eapply returns_bind; [apply own_mounts_ok|]. intros ls _. eapply returns_bind; [apply self_ok|]. intros self _.
    apply ask_loop_ok, text_ok_nil.
  - intros o Ho. cbv zeta. apply returns_ret. set (add := λ _ _, _).
    assert (∀ t o, text_ok 4095 o → text_ok 4095 (foldl add o t)) as Hf.
    { clear. intros t. induction t as [|f t IH]; intros o Ho; [done|]. apply IH. unfold add at 1, PROC_BUFSZ.
      destruct (Z.ltb_spec (Z.of_nat (length o)) (4096 - 32)); [|done]. destruct (_ && _); [|done]. destruct Ho as [_ Hb].
      split; [rewrite length_app; unfold NL; cbn; lia|]. apply list.Forall_app. split; [done|]. apply (text_ok_by 21). by vm_compute. }
    specialize (Hf t o Ho). destruct (foldl add o t); [by apply text_ok_by|]. eapply text_ok_le; [exact Hf|lia].
Qed.
Lemma is_mounted_server_ok id : returns (is_mounted_server id) (λ _, True).
Proof. unfold is_mounted_server. eapply returns_bind; [apply own_mounts_ok|]. intros ls _. by apply returns_ret. Qed.
Lemma fetch_paged_ok who cmd mine :
  (cmd = IOCTL_DOC ∨ cmd = IOCTL_CONF) → text_ok 4096 mine → returns (fetch_paged junk who cmd PROC_BUFSZ mine) fits.
Proof.
  intros Hc Hm. unfold fetch_paged. eapply returns_bind; [apply self_ok|]. intros self _.
  destruct (who =? self); [by apply fits_text|]. eapply returns_bind; [apply is_mounted_server_ok|]. intros [] _; [|apply fits_none].
  cbn [negb]. eapply returns_bind; [apply (fetch_loop_ok junk who cmd 4096); [done|tauto|cbn [length]; lia|unfold PROC_BUFSZ; cbn [length]; lia|constructor]|].
  intros t Ht. apply fits_text. destruct t; [by apply text_ok_by|done].
Qed.
Lemma task_text_ok who leaf t : returns (task_text junk doc conf who leaf t) fits.
Proof.
  unfold task_text. eapply returns_bind; [apply alive_ok|]. intros [] _; cbn [negb]; [|apply fits_none].
  destruct leaf as [|c leaf].
  - eapply returns_bind; [apply self_ok|]. intros self _. eapply (returns_bind _ _ (λ _, True)).
    { destruct (who =? self); [by apply returns_ret|apply is_mounted_server_ok]. }
    intros [] _; apply fits_text; (eapply text_ok_le; [by apply names_ok|cbn; lia]).
  - destruct (has_prefix _ (str "doc")); [apply fetch_paged_ok; tauto|].
    destruct (has_prefix _ (str "conf")); [apply fetch_paged_ok; tauto|].
    destruct (has_prefix _ (str "fd")); [apply fits_some, format_fd_ok|].
    destruct (has_prefix _ (str "ipc")); [apply format_task_ipc_ok|].
    destruct (has_prefix _ (str "ctl")); [apply fits_text; by apply text_ok_by|].
    destruct (has_prefix _ (str "mounts")).
    { apply fits_some. eapply returns_mono; [by apply mounts_ok|]. intros x Hx. eapply text_ok_le; [exact Hx|lia]. }
    destruct (has_prefix _ (str "pagetable")); [apply fits_some, format_pagetable_ok|apply fits_none].
Qed.
Lemma proc_text_ok p caller t : returns (proc_text junk doc conf p caller t) fits.
Proof.
  unfold proc_text. cbv zeta. destruct (is_name _ _).
  { apply fits_some, (rows_ok 84 29); [by apply (names_ok [_; _; _; _])|intros u _; apply dir_line_ok|lia]. }
  destruct (has_prefix p (str "/proc/ipc")).
  { apply fits_some, (rows_ok 60 157); [unfold NL; bounded nothing|apply ipc_line_ok|lia]. }
  destruct (path_task p) as [[who leaf]|]; [destruct (0 <=? who); [apply task_text_ok|apply fits_none]|].
  destruct (has_prefix p (str "/proc/tasks")).
  { apply fits_some, (rows_ok 0 124); [apply text_ok_nil|apply task_line_ok|lia]. }
  destruct (has_prefix p (str "/proc/mounts")).
  { apply fits_some. eapply returns_mono; [by apply mounts_ok|]. intros x Hx. eapply text_ok_le; [exact Hx|lia]. }
  destruct (has_prefix p (str "/proc/pagetable")); [apply fits_some, format_pagetable_ok|apply fits_none].
Qed.
Lemma rendering_ok (s : pub W) : text_ok 21 (str "a rendering of /proc" ++ NL).
Proof. by apply text_ok_by. Qed.

(** The table of open files, whole. *)
Definition proc_ok (s : pub W) : Prop := pub_ok 4096 s.

(** C37: /proc answers every request for at most the 512 bytes of a message:
    whatever the kernel and the other servers answer within their contracts,
    every loop ends, no rendering overruns its buffer or its reply, the
    reply is well typed and the table of open files stays whole.  A longer
    read of an open file is not refused and does overrun the reply:
    [long_report_overruns] of Reports.v. *)
Theorem proc_always_answers from r s :
  proc_ok s → req_typed r → len r <= 512 →
  wp (proc_server junk doc conf from r) (λ r' s', proc_ok s' ∧ req_typed r') s.
Proof.
  intros Hs Hr Hlen. change (wp (proc_server junk doc conf from r) (good_reply 4096) s). unfold proc_server.
  destruct (_ =? VFS_OPEN).
  { unfold proc_do_open. apply wp_bind. eapply wp_mono; [by apply (rf_alloc_ok 4096)|]. intros [i|] s1 [Hs1 Hi]; [|by apply refuse_ok].
    specialize (Hi i eq_refl). apply wp_bind. eapply wp_mono; [apply ask_p_ok, malloc_ok|]. intros ok s2 [_ Ht2].
    destruct ok; cbn [negb]; [|apply refuse_ok; [by eapply same_tab_ok|done|done]].
    apply wp_bind, wp_gets, wp_bind. eapply wp_mono; [apply ask_p_ok, proc_text_ok|]. intros x s3 [Hx Ht3].
    apply (rf_open_ok 4096); [done| |done| |done].
    - eapply same_tab_ok; [exact Ht3|]. by eapply same_tab_ok.
    - destruct Hi as [? Hu]. split; [done|]. by rewrite Ht3, Ht2. }
  destruct (_ =? VFS_WRITE).
  { unfold proc_write. apply wp_bind. eapply wp_mono; [by apply (rf_of_ok 4096)|]. intros [[i f]|] s' [-> _]; [|by apply refuse_ok].
    destruct (rf_ctl f <=? 0); [by apply refuse_ok|]. destruct (has_prefix _ _); [|by apply refuse_ok].
    apply wp_bind. eapply wp_mono; [apply ask_p_ok, kill_ok|]. intros k s' [_ Ht]. apply refuse_ok; [by eapply same_tab_ok|done|].
    destruct (k =? 0); [apply Hr|by vm_compute]. }
  destruct (_ =? VFS_READ); [by apply rf_read_ok|]. destruct (_ =? VFS_IOCTL).
  { unfold proc_ioctl. destruct (_ =? IOCTL_PING); [by apply refuse_ok|].
    destruct (_ =? IOCTL_DOC); [apply wp_ret; split; [done|]; by apply doc_reply_typed, Hdoc|].
    destruct (_ =? IOCTL_CONF); [apply wp_ret; split; [done|]; by apply doc_reply_typed, Hconf|].
    destruct (_ =? IOCTL_HOLDS).
    { apply wp_bind, wp_gets, wp_ret. split; [done|]. apply reply_text_typed; [done|]. eapply holds_text_ok, rendering_ok. done. }
    destruct (_ =? IOCTL_GETSIZE); [by apply (rf_size_ok 4096)|by apply refuse_ok]. }
  destruct (_ =? VFS_CLOSE); [by apply rf_close_ok|by apply refuse_ok].
Qed.
End proc.
Lemma proc_always_answers_witness :
  ∃ r' s', proc_server (open_req []) [] [] 20 (open_req (str "/proc/66/fd")) empty_pub = Some (r', s') ∧ req_typed r' ∧
    result r' = 0 ∧ rf_data (nth 0 (p_tab s') no_rfile) = str "nothing" ++ NL.
Proof.
  pose proof (proc_always_answers (open_req []) [] [] (text_ok_nil _) (text_ok_nil _) 20 (open_req (str "/proc/66/fd")) empty_pub
    (empty_pub_ok _) (open_req_typed (str "/proc/66/fd") ltac:(vm_compute; lia) ltac:(by repeat constructor)) ltac:(cbn; lia)) as H.
  apply wp_run in H as (r' & s' & Hrun & _ & Hty). exists r', s'. split; [exact Hrun|]. split; [exact Hty|].
  vm_compute in Hrun. injection Hrun as <- <-. split; reflexivity.
Defined.
