(* ===== verification/Virtio.v ===== *)
(** * Virtio cards (src/src/virtio.h, and what srv_blk.c and srv_net.c share)

    The registers of the transport, the split virtqueue, and the interface of
    the board to its drivers.  A queue is one page that driver and card
    share; the card looks at it when a register is written and while the
    driver gives way to other tasks. *)
From stdpp Require Import base list numbers option.
From S2P Require Import Prelude Req.
Local Open Scope Z_scope.

Definition VIRTIO_MMIO_SLOTS : nat := 8.
Definition VIRTIO_MAGIC : Z := 0x000.
Definition VIRTIO_VERSION : Z := 0x004.
Definition VIRTIO_DEVICE_ID : Z := 0x008.
Definition VIRTIO_DEV_FEATURES : Z := 0x010.
Definition VIRTIO_DEV_FEAT_SEL : Z := 0x014.
Definition VIRTIO_DRV_FEATURES : Z := 0x020.
Definition VIRTIO_DRV_FEAT_SEL : Z := 0x024.
Definition VIRTIO_QUEUE_SEL : Z := 0x030.
Definition VIRTIO_QUEUE_NUM_MAX : Z := 0x034.
Definition VIRTIO_QUEUE_NUM : Z := 0x038.
Definition VIRTIO_QUEUE_READY : Z := 0x044.
Definition VIRTIO_QUEUE_NOTIFY : Z := 0x050.
Definition VIRTIO_INT_STATUS : Z := 0x060.
Definition VIRTIO_INT_ACK : Z := 0x064.
Definition VIRTIO_STATUS : Z := 0x070.
Definition VIRTIO_QUEUE_DESC_LO : Z := 0x080.
Definition VIRTIO_QUEUE_DESC_HI : Z := 0x084.
Definition VIRTIO_QUEUE_AVAIL_LO : Z := 0x090.
Definition VIRTIO_QUEUE_AVAIL_HI : Z := 0x094.
Definition VIRTIO_QUEUE_USED_LO : Z := 0x0a0.
Definition VIRTIO_QUEUE_USED_HI : Z := 0x0a4.
Definition VIRTIO_CONFIG : Z := 0x100.
Definition VIRTIO_MAGIC_VALUE : Z := 0x74726976.
Definition VIRTIO_S_ACKNOWLEDGE : Z := 1.
Definition VIRTIO_S_DRIVER : Z := 2.
Definition VIRTIO_S_DRIVER_OK : Z := 4.
Definition VIRTIO_S_FEATURES_OK : Z := 8.
Definition VIRTIO_NET_F_MAC : Z := 5.
Definition VIRTIO_F_VERSION_1 : Z := 32.
Definition VIRTIO_ID_NET : Z := 1.
Definition VQ_SIZE : Z := 8.
Definition VIRTQ_DESC_F_NEXT : Z := 1.
Definition VIRTQ_DESC_F_WRITE : Z := 2.
Definition OFF_DESC : Z := 0.
Definition OFF_AVAIL : Z := 256.
Definition OFF_USED : Z := 512.

(** ** A queue *)

Record virtq_desc := mkDesc { d_addr : Z; d_len : Z; d_flags : Z; d_next : Z }.
Definition zero_desc : virtq_desc := mkDesc 0 0 0 0.
(** The page at physical address [q_pa]: descriptors at OFF_DESC, the
    driver's ring at OFF_AVAIL, the card's ring, of identifiers and lengths,
    at OFF_USED. *)
Record virtq := mkVirtq
  { q_pa : Z; q_desc : list virtq_desc; av_idx : Z; av_ring : list Z; us_idx : Z;
    us_ring : list (Z * Z) }.
Ltac set_virtq proj :=
  setter (λ s, mkVirtq (q_pa s) (q_desc s) (av_idx s) (av_ring s) (us_idx s) (us_ring s)) proj.
#[export] Instance set_q_pa : Setter q_pa. Proof. set_virtq q_pa. Defined.
#[export] Instance set_q_desc : Setter q_desc. Proof. set_virtq q_desc. Defined.
#[export] Instance set_av_idx : Setter av_idx. Proof. set_virtq av_idx. Defined.
#[export] Instance set_av_ring : Setter av_ring. Proof. set_virtq av_ring. Defined.
#[export] Instance set_us_idx : Setter us_idx. Proof. set_virtq us_idx. Defined.
#[export] Instance set_us_ring : Setter us_ring. Proof. set_virtq us_ring. Defined.
Arguments set_q_pa _ _ /.
Arguments set_q_desc _ _ /.
Arguments set_av_idx _ _ /.
Arguments set_av_ring _ _ /.
Arguments set_us_idx _ _ /.
Arguments set_us_ring _ _ /.
(** A page as the kernel hands it out. *)
Definition zero_virtq (pa : Z) : virtq := mkVirtq pa (replicate 8 zero_desc) 0 (replicate 8 0) 0 (replicate 8 (0, 0)).
(** [avail->ring[avail->idx % VQ_SIZE] = id; avail->idx++], with the fences
    around the second. *)
Definition publish (id : Z) (q : virtq) : virtq :=
  q <| av_ring := <[Z.to_nat (av_idx q mod VQ_SIZE) := id]> (av_ring q) |> <| av_idx := u16 (av_idx q + 1) |>.
Definition put_desc (i : nat) (d : virtq_desc) (q : virtq) : virtq := q <| q_desc := <[i := d]> (q_desc q) |>.

(** ** The board

    [M] is the memory a driver shares with its card, [W] the rest: reading
    and writing a register of a transport, a page for both (its physical
    address), and giving way. *)
Class Board (M W : Type) := {
  mmio_rd : nat → Z → W → Z;
  mmio_wr : nat → Z → Z → M → W → M * W;
  dma_page : W → option Z * W;
  bus_yield : M → W → M * W }.

(** A driver: its static variables, what it shares, the board. *)
Record vst (V M W : Type) := mkVst { vars : V; shared : M; board : W }.
Arguments mkVst {V M W}. Arguments vars {V M W}. Arguments shared {V M W}. Arguments board {V M W}.

Section driver.
Context {V M W : Type} `{Board M W}.
Definition rd (dev : nat) (off : Z) : prog (vst V M W) Z := gets (λ s, mmio_rd dev off (board s)).
Definition wr (dev : nat) (off v : Z) : prog (vst V M W) () := λ s,
  let '(m, w) := mmio_wr dev off (u32 v) (shared s) (board s) in Some ((), mkVst (vars s) m w).
Definition on_vars (f : V → V) : prog (vst V M W) () := modify (λ s, mkVst (f (vars s)) (shared s) (board s)).
Definition on_shared (f : M → M) : prog (vst V M W) () := modify (λ s, mkVst (vars s) (f (shared s)) (board s)).
Definition yield : prog (vst V M W) () := λ s,
  let '(m, w) := bus_yield (shared s) (board s) in Some ((), mkVst (vars s) m w).
Definition dma_alloc : prog (vst V M W) (option Z) := λ s,
  let '(p, w) := dma_page (board s) in Some (p, mkVst (vars s) (shared s) w).

(** The first transport with a card of that kind. *)
Definition find_device (id : Z) : prog (vst V M W) (option nat) :=
  gets (λ s, find_from (λ i, (mmio_rd i VIRTIO_MAGIC (board s) =? VIRTIO_MAGIC_VALUE) &&
                             (mmio_rd i VIRTIO_DEVICE_ID (board s) =? id)) 0 VIRTIO_MMIO_SLOTS).
(** Tell the card where queue [q] is, if it can have one of this size. *)
Definition queue_at (dev : nat) (q pa : Z) : prog (vst V M W) bool :=
  let* _ := wr dev VIRTIO_QUEUE_SEL q in
  let* n := rd dev VIRTIO_QUEUE_NUM_MAX in
  if n <? VQ_SIZE then pret false
  else
    let* _ := wr dev VIRTIO_QUEUE_NUM VQ_SIZE in
    let* _ := wr dev VIRTIO_QUEUE_DESC_LO (pa + OFF_DESC) in
    let* _ := wr dev VIRTIO_QUEUE_DESC_HI (Z.shiftr (u64 (pa + OFF_DESC)) 32) in
    let* _ := wr dev VIRTIO_QUEUE_AVAIL_LO (pa + OFF_AVAIL) in
    let* _ := wr dev VIRTIO_QUEUE_AVAIL_HI (Z.shiftr (u64 (pa + OFF_AVAIL)) 32) in
    let* _ := wr dev VIRTIO_QUEUE_USED_LO (pa + OFF_USED) in
    let* _ := wr dev VIRTIO_QUEUE_USED_HI (Z.shiftr (u64 (pa + OFF_USED)) 32) in
    let* _ := wr dev VIRTIO_QUEUE_READY 1 in
    pret true.
(** Reset, and the first two steps of the handshake. *)
Definition say_hello (dev : nat) : prog (vst V M W) () :=
  let* _ := wr dev VIRTIO_STATUS 0 in
  let* _ := wr dev VIRTIO_STATUS VIRTIO_S_ACKNOWLEDGE in
  wr dev VIRTIO_STATUS (Z.lor VIRTIO_S_ACKNOWLEDGE VIRTIO_S_DRIVER).
(** Fix the features, and see whether the card accepts them. *)
Definition fix_features (dev : nat) : prog (vst V M W) bool :=
  let* _ := wr dev VIRTIO_STATUS (Z.lor (Z.lor VIRTIO_S_ACKNOWLEDGE VIRTIO_S_DRIVER) VIRTIO_S_FEATURES_OK) in
  let* st := rd dev VIRTIO_STATUS in
  pret (negb (Z.land st VIRTIO_S_FEATURES_OK =? 0)).
Definition start_card (dev : nat) : prog (vst V M W) () :=
  wr dev VIRTIO_STATUS (Z.lor (Z.lor (Z.lor VIRTIO_S_ACKNOWLEDGE VIRTIO_S_DRIVER) VIRTIO_S_FEATURES_OK) VIRTIO_S_DRIVER_OK).
End driver.


(** ** The disk driver (src/src/srv_blk.c)

    A virtio disk driven from the file server's task: one request at a time,
    a chain of header, sector and status byte, and polling until the card has
    given it back. *)

Definition VIRTIO_ID_BLOCK : Z := 2.
Definition BLK_SECSZ : Z := 512.
Definition BLK_IN : Z := 0.
Definition BLK_OUT : Z := 1.
Definition SPINS : nat := Z.to_nat 1000000.

(** The page of the request: [hdr] at 0, [data] at 64, [status] behind the
    sector. *)
Record blk_buf := mkBlkBuf
  { bf_pa : Z; h_type : Z; h_reserved : Z; h_sector : Z; bf_data : list Z; bf_status : Z }.
Ltac set_blk_buf proj :=
  setter (λ s, mkBlkBuf (bf_pa s) (h_type s) (h_reserved s) (h_sector s) (bf_data s) (bf_status s)) proj.
#[export] Instance set_bf_pa : Setter bf_pa. Proof. set_blk_buf bf_pa. Defined.
#[export] Instance set_h_type : Setter h_type. Proof. set_blk_buf h_type. Defined.
#[export] Instance set_h_reserved : Setter h_reserved. Proof. set_blk_buf h_reserved. Defined.
#[export] Instance set_h_sector : Setter h_sector. Proof. set_blk_buf h_sector. Defined.
#[export] Instance set_bf_data : Setter bf_data. Proof. set_blk_buf bf_data. Defined.
#[export] Instance set_bf_status : Setter bf_status. Proof. set_blk_buf bf_status. Defined.
Arguments set_bf_pa _ _ /.
Arguments set_h_type _ _ /.
Arguments set_h_reserved _ _ /.
Arguments set_h_sector _ _ /.
Arguments set_bf_data _ _ /.
Arguments set_bf_status _ _ /.
Definition zero_buf (pa : Z) : blk_buf := mkBlkBuf pa 0 0 0 (replicate 512 0) 0.
(** What driver and card share. *)
Record blk_mem := mkBlkMem
  { bm_q : virtq; bm_buf : blk_buf }.
Ltac set_blk_mem proj :=
  setter (λ s, mkBlkMem (bm_q s) (bm_buf s)) proj.
#[export] Instance set_bm_q : Setter bm_q. Proof. set_blk_mem bm_q. Defined.
#[export] Instance set_bm_buf : Setter bm_buf. Proof. set_blk_mem bm_buf. Defined.
Arguments set_bm_q _ _ /.
Arguments set_bm_buf _ _ /.
(** The static variables; the pointers into the two pages are the pages. *)
Record blk_vars := mkBlkVars
  { blk_dev : nat; last_used : Z; hdr_pa : Z; data_pa : Z; status_pa : Z; blk_ready : bool }.
Ltac set_blk_vars proj :=
  setter (λ s, mkBlkVars (blk_dev s) (last_used s) (hdr_pa s) (data_pa s) (status_pa s) (blk_ready
    s)) proj.
#[export] Instance set_blk_dev : Setter blk_dev. Proof. set_blk_vars blk_dev. Defined.
#[export] Instance set_last_used : Setter last_used. Proof. set_blk_vars last_used. Defined.
#[export] Instance set_hdr_pa : Setter hdr_pa. Proof. set_blk_vars hdr_pa. Defined.
#[export] Instance set_data_pa : Setter data_pa. Proof. set_blk_vars data_pa. Defined.
#[export] Instance set_status_pa : Setter status_pa. Proof. set_blk_vars status_pa. Defined.
#[export] Instance set_blk_ready : Setter blk_ready. Proof. set_blk_vars blk_ready. Defined.
Arguments set_blk_dev _ _ /.
Arguments set_last_used _ _ /.
Arguments set_hdr_pa _ _ /.
Arguments set_data_pa _ _ /.
Arguments set_status_pa _ _ /.
Arguments set_blk_ready _ _ /.

Section blk.
Context {W : Type} `{Board blk_mem W}.
Abbreviation drv := (vst blk_vars blk_mem W).
Definition on_q (f : virtq → virtq) : prog drv () := on_shared (λ m, m <| bm_q := f (bm_q m) |>).
Definition on_buf (f : blk_buf → blk_buf) : prog drv () := on_shared (λ m, m <| bm_buf := f (bm_buf m) |>).

Definition negotiate (dev : nat) : prog drv bool :=
  let* _ := say_hello dev in
  let* _ := wr dev VIRTIO_DEV_FEAT_SEL 1 in
  let* hi := rd dev VIRTIO_DEV_FEATURES in
  let* _ := wr dev VIRTIO_DRV_FEAT_SEL 0 in
  let* _ := wr dev VIRTIO_DRV_FEATURES 0 in
  let* _ := wr dev VIRTIO_DRV_FEAT_SEL 1 in
  let* _ := wr dev VIRTIO_DRV_FEATURES (Z.land hi (Z.shiftl 1 (VIRTIO_F_VERSION_1 - 32))) in
  fix_features dev.
Definition blk_init : prog drv bool :=
  let* r := gets (λ s, blk_ready (vars s)) in
  if r : bool then pret true
  else
    let* d := find_device VIRTIO_ID_BLOCK in
    match d with
    | None => pret false
    | Some dev =>
        let* _ := on_vars (λ v, v <| blk_dev := dev |>) in
        let* ok := negotiate dev in
        if negb ok then pret false
        else
          let* q := dma_alloc in
          match q with
          | None => pret false
          | Some pa =>
              let* _ := on_q (λ _, zero_virtq pa) in
              let* ok := queue_at dev 0 pa in
              if negb ok then pret false
              else
                let* b := dma_alloc in
                match b with
                | None => pret false
                | Some pb =>
                    let* _ := on_buf (λ _, zero_buf pb) in
                    let* _ := on_vars (λ v, v <| hdr_pa := pb |> <| data_pa := pb + 64 |>
                                              <| status_pa := pb + 64 + BLK_SECSZ |>) in
                    let* _ := start_card dev in
                    let* _ := on_vars (λ v, v <| blk_ready := true |>) in
                    pret true
                end
          end
    end.

(** The three descriptors of a request. *)
Definition chain_of (v : blk_vars) (type : Z) (q : virtq) : virtq :=
  put_desc 2 (mkDesc (status_pa v) 1 VIRTQ_DESC_F_WRITE 0)
    (put_desc 1 (mkDesc (data_pa v) BLK_SECSZ (Z.lor VIRTQ_DESC_F_NEXT (if type =? BLK_IN then VIRTQ_DESC_F_WRITE else 0)) 2)
      (put_desc 0 (mkDesc (hdr_pa v) 16 VIRTQ_DESC_F_NEXT 1) q)).
Fixpoint poll (n : nat) : prog drv bool :=
  match n with
  | O => pret false
  | S n' =>
      let* u := gets (λ s, us_idx (bm_q (shared s))) in
      let* l := gets (λ s, last_used (vars s)) in
      if negb (u =? l) then
        let* _ := on_vars (λ v, v <| last_used := u |>) in
        let* dev := gets (λ s, blk_dev (vars s)) in
        let* i := rd dev VIRTIO_INT_STATUS in
        let* _ := wr dev VIRTIO_INT_ACK i in
        let* st := gets (λ s, bf_status (bm_buf (shared s))) in
        pret (st =? 0)
      else let* _ := yield in poll n'
  end.
Definition transact (type lba : Z) : prog drv bool :=
  let* _ := on_buf (λ b, b <| h_type := type |> <| h_reserved := 0 |> <| h_sector := lba |> <| bf_status := 0xff |>) in
  let* v := gets vars in
  let* _ := on_q (λ q, publish 0 (chain_of v type q)) in
  let* _ := wr (blk_dev v) VIRTIO_QUEUE_NOTIFY 0 in
  poll SPINS.
(** Whether the driver is, or now gets, ready. *)
Definition blk_up : prog drv bool :=
  let* r := gets (λ s, blk_ready (vars s)) in
  if r : bool then pret true else blk_init.
Definition blk_read (lba : Z) : prog drv (option (list Z)) :=
  let* up := blk_up in
  if negb up then pret None
  else
    let* ok := transact BLK_IN lba in
    if negb ok then pret None
    else let* d := gets (λ s, bf_data (bm_buf (shared s))) in pret (Some d).
Definition blk_write (lba : Z) (buf : list Z) : prog drv bool :=
  let* up := blk_up in
  if negb up then pret false
  else
    let* _ := on_buf (λ b, b <| bf_data := take 512 buf |>) in
    transact BLK_OUT lba.
(** At power on. *)
Definition blk_start (w : W) : drv := mkVst (mkBlkVars 0 0 0 0 0 false) (mkBlkMem (zero_virtq 0) (zero_buf 0)) w.
End blk.
