(* ===== verification/BlkDisk.v ===== *)
(** * The disk driver is the disk (src/src/srv_blk.c)

    What a card promises ([BlockCard], after the virtio specification), and
    that behind any such card the driver gives the file system the [BlockDev]
    it is written for: every sequence of reads and writes has the results it
    has on the disk itself. *)
From stdpp Require Import base list numbers option gmap.
From S2P Require Import Prelude Req FatName Fat16 FatChain Virtio.
Local Open Scope Z_scope.

(** ** Cards *)

Definition desc_at (q : virtq) (i : Z) : virtq_desc := nth (Z.to_nat i) (q_desc q) zero_desc.
(** The request that was published last, if it is one: a header of 16 bytes,
    512 bytes that the card writes on a read, and a byte for the status, at
    the places where the page has them. *)
Definition request (m : blk_mem) : option (Z * Z) :=
  let q := bm_q m in
  let b := bm_buf m in
  let d0 := desc_at q (nth (Z.to_nat ((av_idx q - 1) mod VQ_SIZE)) (av_ring q) 0) in
  let d1 := desc_at q (d_next d0) in
  let d2 := desc_at q (d_next d1) in
  if bool_decide (d_addr d0 = bf_pa b ∧ d_len d0 = 16 ∧ d_flags d0 = VIRTQ_DESC_F_NEXT ∧
                  d_addr d1 = bf_pa b + 64 ∧ d_len d1 = 512 ∧
                  d_flags d1 = VIRTQ_DESC_F_NEXT + (if h_type b =? BLK_IN then VIRTQ_DESC_F_WRITE else 0) ∧
                  d_addr d2 = bf_pa b + 576 ∧ d_len d2 = 1 ∧ d_flags d2 = VIRTQ_DESC_F_WRITE)
  then Some (h_type b, h_sector b) else None.
(** What a card has written when it is done with a request. *)
Definition same_queue (q q' : virtq) : Prop :=
  q_pa q' = q_pa q ∧ q_desc q' = q_desc q ∧ av_idx q' = av_idx q ∧ av_ring q' = av_ring q ∧ us_idx q' = u16 (us_idx q + 1).
Definition carried_out {D} `{BlockDev D} (type lba : Z) (b b' : blk_buf) (d d' : D) : Prop :=
  bf_pa b' = bf_pa b ∧
  (type = BLK_IN → d' = d ∧
     match Fat16.blk_read d lba with Some x => bf_status b' = 0 ∧ bf_data b' = x | None => bf_status b' ≠ 0 end) ∧
  (type = BLK_OUT → (bf_status b' =? 0, d') = Fat16.blk_write d lba (bf_data b)).
(** [k] times the driver gives way, and finds the used index unchanged. *)
Fixpoint waits {W} `{Board blk_mem W} (k : nat) (u : Z) (m : blk_mem) (w : W) (m' : blk_mem) (w' : W) : Prop :=
  match k with
  | O => m' = m ∧ w' = w
  | S k' => us_idx (bm_q m) = u ∧ waits k' u (bus_yield m w).1 (bus_yield m w).2 m' w'
  end.

(** A card with a disk [D] behind it, in a board that can still give
    [pages] pages.  [creg]: what was last written to a register of it since
    the reset; [cseen]: how many entries of the driver's ring it has taken,
    as the index counts them. *)
Class CardView (D W : Type) := { card_slot : nat; creg : W → Z → Z; cseen : W → Z; cdisk : W → D; pages : W → nat }.
Section laws.
Context {D W : Type} `{BlockDev D} `{Board blk_mem W} `{CardView D W}.
Definition wrote (off v : Z) (w w' : W) : Prop :=
  cdisk w' = cdisk w ∧ pages w' = pages w ∧
  if (off =? VIRTIO_STATUS) && (v =? 0) then cseen w' = 0 ∧ (∀ o, creg w' o = 0)
  else cseen w' = cseen w ∧ (∀ o, creg w' o = if o =? off then v else creg w o).
Definition live (q : virtq) (w : W) : Prop :=
  creg w VIRTIO_STATUS = 15 ∧ creg w VIRTIO_QUEUE_SEL = 0 ∧ creg w VIRTIO_QUEUE_NUM = 8 ∧ creg w VIRTIO_QUEUE_READY = 1 ∧
  creg w VIRTIO_QUEUE_DESC_LO + 2 ^ 32 * creg w VIRTIO_QUEUE_DESC_HI = q_pa q + OFF_DESC ∧
  creg w VIRTIO_QUEUE_AVAIL_LO + 2 ^ 32 * creg w VIRTIO_QUEUE_AVAIL_HI = q_pa q + OFF_AVAIL ∧
  creg w VIRTIO_QUEUE_USED_LO + 2 ^ 32 * creg w VIRTIO_QUEUE_USED_HI = q_pa q + OFF_USED.
Class BlockCard := {
  card_slots : (card_slot < 8)%nat;
  card_found w i : (i <= card_slot)%nat →
    (mmio_rd i VIRTIO_MAGIC w =? VIRTIO_MAGIC_VALUE) && (mmio_rd i VIRTIO_DEVICE_ID w =? VIRTIO_ID_BLOCK) = (i =? card_slot)%nat;
  card_wr off v m w : off ≠ VIRTIO_QUEUE_NOTIFY → ∃ w', mmio_wr card_slot off v m w = (m, w') ∧ wrote off v w w';
  card_features w : creg w VIRTIO_DEV_FEAT_SEL = 1 → Z.testbit (mmio_rd card_slot VIRTIO_DEV_FEATURES w) 0 = true;
  card_status w : creg w VIRTIO_DRV_FEAT_SEL = 1 → creg w VIRTIO_DRV_FEATURES = 1 → mmio_rd card_slot VIRTIO_STATUS w = creg w VIRTIO_STATUS;
  card_queue w : 8 <= mmio_rd card_slot VIRTIO_QUEUE_NUM_MAX w;
  card_dma w : ∃ p w', dma_page w = (p, w') ∧ cdisk w' = cdisk w ∧ cseen w' = cseen w ∧ (∀ o, creg w' o = creg w o) ∧
    match p with Some pa => 0 <= pa < 2 ^ 56 ∧ pages w = S (pages w') | None => pages w = 0%nat ∧ pages w' = 0%nat end;
  card_serves m w type lba :
    live (bm_q m) w → av_idx (bm_q m) = u16 (cseen w + 1) → request m = Some (type, lba) →
    let '(m1, w1) := mmio_wr card_slot VIRTIO_QUEUE_NOTIFY 0 m w in
    ∃ k m' w', (k < SPINS)%nat ∧ waits k (us_idx (bm_q m)) m1 w1 m' w' ∧
      same_queue (bm_q m) (bm_q m') ∧ carried_out type lba (bm_buf m) (bm_buf m') (cdisk w) (cdisk w') ∧
      cseen w' = av_idx (bm_q m) ∧ (∀ o, creg w' o = creg w o) }.
End laws.
Arguments BlockCard D W {_ _ _}.

(** ** What is asked of a disk *)

Inductive blk_op := DoRead (lba : Z) | DoWrite (lba : Z) (b : list Z).
Inductive blk_res := GotRead (r : option (list Z)) | GotWrite (ok : bool).
Definition op_ok (o : blk_op) : Prop := match o with DoRead _ => True | DoWrite _ b => length b = 512%nat end.
Definition disk_step {D} `{BlockDev D} (o : blk_op) (d : D) : blk_res * D :=
  match o with
  | DoRead lba => (GotRead (Fat16.blk_read d lba), d)
  | DoWrite lba b => let '(ok, d') := Fat16.blk_write d lba b in (GotWrite ok, d')
  end.
Fixpoint disk_run {D} `{BlockDev D} (l : list blk_op) (d : D) : list blk_res * D :=
  match l with
  | [] => ([], d)
  | o :: l' => let '(r, d1) := disk_step o d in let '(rs, d2) := disk_run l' d1 in (r :: rs, d2)
  end.
Definition refusal (o : blk_op) : blk_res := match o with DoRead _ => GotRead None | DoWrite _ _ => GotWrite false end.
Section driver.
Context {W : Type} `{Board blk_mem W}.
Definition drv_step (o : blk_op) : prog (vst blk_vars blk_mem W) blk_res :=
  match o with
  | DoRead lba => let* r := Virtio.blk_read lba in pret (GotRead r)
  | DoWrite lba b => let* r := Virtio.blk_write lba b in pret (GotWrite r)
  end.
Fixpoint drv_run (l : list blk_op) : prog (vst blk_vars blk_mem W) (list blk_res) :=
  match l with
  | [] => pret []
  | o :: l' => let* r := drv_step o in let* rs := drv_run l' in pret (r :: rs)
  end.
End driver.

(** ** The driver gets the card going *)

Section proofs.
Context {D W : Type} `{BlockDev D} `{Board blk_mem W} `{!CardView D W} `{!BlockCard D W}.
Abbreviation drv := (vst blk_vars blk_mem W).

Definition drv_ok (s : drv) : Prop :=
  let q := bm_q (shared s) in
  let b := bm_buf (shared s) in
  blk_ready (vars s) = true ∧ blk_dev (vars s) = card_slot ∧ last_used (vars s) = us_idx q ∧
  0 <= us_idx q < 2 ^ 16 ∧ 0 <= av_idx q ∧ cseen (board s) = av_idx q ∧ length (q_desc q) = 8%nat ∧ length (av_ring q) = 8%nat ∧
  (hdr_pa (vars s) = bf_pa b ∧ data_pa (vars s) = bf_pa b + 64 ∧ status_pa (vars s) = bf_pa b + 576) ∧ live q (board s).

Lemma wp_wr off v (s : drv) Q :
  off ≠ VIRTIO_QUEUE_NOTIFY → (∀ w', wrote off (u32 v) (board s) w' → Q () (mkVst (vars s) (shared s) w')) → wp (wr card_slot off v) Q s.
Proof. intros Hoff HQ. unfold wp, wr. destruct (card_wr off (u32 v) (shared s) (board s) Hoff) as (w' & -> & Hw). by apply HQ. Qed.

(** Reads what was written to a register. *)
Ltac look :=
  repeat match goal with
    | H : ∀ o, creg ?w o = _ |- context [creg ?w _] => rewrite H
    | |- context [if ?a =? ?b then _ else _] => let r := eval vm_compute in (a =? b) in change (a =? b) with r; cbv iota
    end.
(** One more register. *)
Ltac poke :=
  apply wp_bind; apply wp_wr; [by vm_compute|];
  let w := fresh "w" in let Hw := fresh "Hw" in
  intros w Hw; unfold wrote in Hw; cbn [vars shared board] in Hw |- *;
  lazymatch type of Hw with context [if ?b then _ else _] => let r := eval vm_compute in b in change b with r in Hw; cbv iota in Hw end;
  destruct Hw as (? & ? & ? & ?).

Lemma land_1 x : Z.testbit x 0 = true → Z.land x 1 = 1.
Proof. intros Hx. change (Z.land x 1) with (Z.land x (2 ^ 1 - 1)). rewrite land_mask by lia. rewrite Z.bit0_odd in Hx. change (2 ^ 1) with 2. rewrite Zmod_odd. by rewrite Hx. Qed.

Lemma negotiate_ok (s : drv) :
  wp (negotiate card_slot) (λ r s', r = true ∧ vars s' = vars s ∧ shared s' = shared s ∧
    cdisk (board s') = cdisk (board s) ∧ pages (board s') = pages (board s) ∧ cseen (board s') = 0) s.
Proof.
  unfold negotiate. apply wp_bind. unfold say_hello. do 2 poke. apply wp_wr; [by vm_compute|].
  intros w1 (? & ? & Hw). change ((_ =? _) && _) with false in Hw. destruct Hw as [? ?]. cbn [vars shared board] in *.
  poke. apply wp_bind, wp_gets. cbn [board].
  assert (Z.testbit (mmio_rd card_slot VIRTIO_DEV_FEATURES w2) 0 = true) as Hf%land_1 by (apply card_features; by look).
  change (Z.shiftl 1 (VIRTIO_F_VERSION_1 - 32)) with 1. rewrite Hf.
  do 4 poke. unfold fix_features. poke. apply wp_bind, wp_gets, wp_ret. cbn [board].
  rewrite card_status by (by look). split_and!; [by look|done|done|congruence|congruence|congruence].
Qed.
Lemma addr_words a : 0 <= a < 2 ^ 57 → u32 a + 2 ^ 32 * u32 (Z.shiftr (u64 a) 32) = a.
Proof.
  intros Ha. rewrite u64_small by lia. rewrite Z.shiftr_div_pow2 by lia.
  unfold u32. rewrite (Z.mod_small (a / 2 ^ 32)) by ldiv. ldiv.
Qed.
Lemma queue_at_ok pa (s : drv) :
  0 <= pa < 2 ^ 56 →
  wp (queue_at card_slot 0 pa) (λ r s', r = true ∧ vars s' = vars s ∧ shared s' = shared s ∧
    cdisk (board s') = cdisk (board s) ∧ pages (board s') = pages (board s) ∧ cseen (board s') = cseen (board s) ∧
    ∀ q w, q_pa q = pa → cdisk w = cdisk (board s') → (∀ o, creg w o = if o =? VIRTIO_STATUS then 15 else creg (board s') o) → live q w) s.
Proof.
  intros Hpa. unfold queue_at. poke. apply wp_bind, wp_gets. cbn [board].
  match goal with |- context [mmio_rd _ VIRTIO_QUEUE_NUM_MAX ?w] => pose proof (card_queue w) as Hq end. apply Z.ltb_ge in Hq. change VQ_SIZE with 8 at 1. rewrite Hq.
  do 8 poke. apply wp_ret. cbn [vars shared board]. split_and!; try done; try congruence.
  intros q wf <- _ Hwf. unfold live. look. unfold OFF_DESC, OFF_AVAIL, OFF_USED in *.
  rewrite !addr_words by lia. done.
Qed.
Lemma find_device_ok (s : drv) Q : Q (Some card_slot) s → wp (find_device VIRTIO_ID_BLOCK) Q s.
Proof.
  intros HQ. unfold find_device. apply wp_gets. pose proof card_slots.
  erewrite find_from_is; [exact HQ|unfold VIRTIO_MMIO_SLOTS; lia|rewrite card_found by done; by apply Nat.eqb_eq|].
  intros m Hm. rewrite card_found by lia. apply Nat.eqb_neq. lia.
Qed.
Lemma dma_ok (s : drv) Q :
  (∀ p w', cdisk w' = cdisk (board s) → cseen w' = cseen (board s) → (∀ o, creg w' o = creg (board s) o) →
     match p with Some pa => 0 <= pa < 2 ^ 56 ∧ pages (board s) = S (pages w') | None => pages (board s) = 0%nat ∧ pages w' = 0%nat end →
     Q p (mkVst (vars s) (shared s) w')) → wp dma_alloc Q s.
Proof. intros HQ. unfold wp, dma_alloc. destruct (card_dma (board s)) as (p & w' & -> & ? & ? & ? & ?). by apply HQ. Qed.
(** The driver gets ready if the board has two pages left, and otherwise uses
    up what it has. *)
Definition drv_cold (s : drv) : Prop := blk_ready (vars s) = false ∧ last_used (vars s) = 0.
Lemma blk_init_ok (s : drv) :
  drv_cold s →
  wp blk_init (λ r s', cdisk (board s') = cdisk (board s) ∧
    if r then (2 <= pages (board s))%nat ∧ drv_ok s' else (pages (board s) < 2)%nat ∧ drv_cold s' ∧ pages (board s') = 0%nat) s.
Proof.
  intros [Hr Hl]. unfold blk_init. apply wp_bind, wp_gets. rewrite Hr. apply wp_bind, find_device_ok, wp_bind, wp_modify, wp_bind.
  eapply wp_mono; [apply negotiate_ok|]. cbn [vars shared board]. intros r s1 (-> & Hv1 & _ & Hd1 & Hp1 & Hs1). cbn [negb].
  apply wp_bind, dma_ok. intros [pa|] w2 Hd2 Hs2 Hr2 Hp2.
  2: { apply wp_ret. cbn [vars shared board]. unfold drv_cold. cbn [vars]. rewrite Hv1. split_and!; try done; first [congruence|lia]. }
  apply wp_bind, wp_modify, wp_bind. eapply wp_mono; [apply (queue_at_ok pa); lia|].
  cbn [vars shared board]. intros r s3 (-> & Hv3 & Hm3 & Hd3 & Hp3 & Hs3 & Hlive). cbn [negb].
  apply wp_bind, dma_ok. intros [pb|] w4 Hd4 Hs4 Hr4 Hp4.
  2: { apply wp_ret. cbn [vars shared board]. unfold drv_cold. cbn [vars]. rewrite Hv3, Hv1. split_and!; try done; first [congruence|lia]. }
  apply wp_bind, wp_modify, wp_bind, wp_modify, wp_bind. unfold start_card. apply wp_wr; [by vm_compute|].
  cbn [vars shared board]. intros w5 (Hd5 & Hp5 & Hw5). change ((_ =? _) && _) with false in Hw5. destruct Hw5 as [Hs5 Hr5].
  apply wp_bind, wp_modify, wp_ret. cbn [vars shared board]. split; [congruence|]. split; [lia|].
  unfold drv_ok. cbn [vars shared board]. rewrite Hv3, Hm3, Hv1. cbn. split_and!; try done; try lia; [unfold BLK_SECSZ; lia|].
  apply Hlive; [done|congruence|]. intros o. rewrite Hr5. change (u32 _) with 15. by rewrite Hr4.
Qed.

(** ** Requests *)

Lemma poll_ok k : ∀ n (s : drv) m' w',
  (k < n)%nat → blk_dev (vars s) = card_slot →
  waits k (last_used (vars s)) (shared s) (board s) m' w' → us_idx (bm_q m') ≠ last_used (vars s) →
  wp (poll n) (λ r s', r = (bf_status (bm_buf m') =? 0) ∧ shared s' = m' ∧
    vars s' = (vars s) <| last_used := us_idx (bm_q m') |> ∧ ∃ v, wrote VIRTIO_INT_ACK (u32 v) w' (board s')) s.
Proof.
  induction k as [|k IH]; intros [|n] s m' w' Hk Hdev Hw Hne; try lia; cbn [poll]; apply wp_bind, wp_gets, wp_bind, wp_gets.
  - destruct Hw as [-> ->]. apply Z.eqb_neq in Hne. rewrite Hne. cbn [negb]. apply wp_bind, wp_modify, wp_bind, wp_gets. cbn [vars shared board].
    change (blk_dev _) with (blk_dev (vars s)). rewrite Hdev. apply wp_bind, wp_gets. cbn [board].
    apply wp_bind, wp_wr; [by vm_compute|]. intros w2 Hw2. apply wp_bind, wp_gets, wp_ret. cbn [vars shared board].
    split_and!; try done. by eexists.
  - destruct Hw as [Hu Hw]. rewrite Hu, Z.eqb_refl. cbn [negb]. apply wp_bind. unfold wp at 1, yield.
    destruct (bus_yield (shared s) (board s)) as [m1 w1] eqn:E. cbn [fst snd] in Hw. apply (IH n (mkVst (vars s) m1 w1) m' w'); [lia|done|done|done].
Qed.
(** What the driver puts into the two pages is a request. *)
Lemma request_of (v : blk_vars) q b type lba :
  length (q_desc q) = 8%nat → length (av_ring q) = 8%nat → 0 <= av_idx q →
  hdr_pa v = bf_pa b → data_pa v = bf_pa b + 64 → status_pa v = bf_pa b + 576 → h_type b = type → h_sector b = lba →
  request (mkBlkMem (publish 0 (chain_of v type q)) b) = Some (type, lba).
Proof.
  intros Hd Hr Ha H1 H2 H3 <- <-. unfold request. cbn [bm_q bm_buf].
  assert (nth (Z.to_nat ((av_idx (publish 0 (chain_of v (h_type b) q)) - 1) mod VQ_SIZE)) (av_ring (publish 0 (chain_of v (h_type b) q))) 0 = 0) as ->.
  { unfold publish. cbn. unfold VQ_SIZE, u16. replace ((_ - 1) mod 8) with (av_idx q mod 8) by ldiv.
    apply nth_lookup_Some, list_lookup_insert_eq. rewrite Hr. ldiv. }
  destruct (q_desc q) as [|e0 [|e1 [|e2 l]]] eqn:E; try done. unfold desc_at, publish, chain_of, put_desc. cbn. rewrite E. cbn.
  rewrite bool_decide_true; [done|]. rewrite H1, H2, H3. split_and!; try done. by destruct (h_type b =? BLK_IN).
Qed.
Lemma transact_ok type lba (s : drv) :
  drv_ok s →
  wp (transact type lba) (λ r s', drv_ok s' ∧ r = (bf_status (bm_buf (shared s')) =? 0) ∧
    carried_out type lba (bm_buf (shared s)) (bm_buf (shared s')) (cdisk (board s)) (cdisk (board s'))) s.
Proof.
  intros (Hrdy & Hdev & Hlast & Hus & Hav & Hseen & Hld & Hlr & Hpas & Hlive). unfold transact.
  apply wp_bind, wp_modify, wp_bind, wp_gets, wp_bind, wp_modify, wp_bind. cbn [vars shared board].
  match goal with |- wp _ _ (mkVst _ ?m _) => set (m1 := m) end.
  assert (request m1 = Some (type, lba)) as Hreq by (apply request_of; by try apply Hpas).
  assert (av_idx (bm_q m1) = u16 (cseen (board s) + 1)) as Hidx by (by rewrite Hseen).
  pose proof (card_serves m1 (board s) type lba Hlive Hidx Hreq) as Hserve.
  rewrite Hdev. unfold wp at 1, wr. cbn [vars shared board]. change (u32 0) with 0.
  destruct (mmio_wr card_slot VIRTIO_QUEUE_NOTIFY 0 m1 (board s)) as [m2 w2].
  destruct Hserve as (k & m' & w' & Hk & Hwaits & (Hpa & Hdesc & Hai & Har & Hui) & Hdone & Hcs & Hregs).
  change (us_idx (bm_q m1)) with (us_idx (bm_q (shared s))) in Hwaits, Hui. rewrite <- Hlast in Hwaits, Hui.
  assert (us_idx (bm_q m') ≠ last_used (vars s)) as Hne by (rewrite Hui, Hlast; unfold u16; intros ?; ldiv).
  eapply wp_mono; [by apply (poll_ok k SPINS (mkVst (vars s) m2 w2) m' w')|].
  cbn [vars]. intros r s' (-> & Hsh & Hv & x & Hd & _ & Hw). change ((_ =? _) && _) with false in Hw. destruct Hw as [Hc Hr].
  rewrite Hsh, Hd. split; [|by split].
  unfold drv_ok. rewrite Hv, Hsh. cbn [vars]. cbn. rewrite Hdesc, Har, Hai, Hc, Hcs, Hui. destruct Hdone as [Hbp _]. rewrite Hbp. cbn in Hbp.
  split_and!; try done; try apply u16_range; try apply Hpas.
  - subst m1. cbn. by rewrite !length_insert.
  - subst m1. cbn. by rewrite length_insert.
  - unfold live in *. rewrite !Hr, !Hregs, Hpa. look. exact Hlive.
Qed.

(** ** Reads and writes *)

(** A driver that is ready, or that can get ready, or that never will. *)
Definition drv_state (can : bool) (s : drv) : Prop := drv_ok s ∧ can = true ∨ drv_cold s ∧ can = bool_decide (2 <= pages (board s))%nat.
Lemma blk_up_ok can (s : drv) :
  drv_state can s → wp blk_up (λ r s', r = can ∧ cdisk (board s') = cdisk (board s) ∧ if r then drv_ok s' else drv_state false s') s.
Proof.
  intros Hs. unfold blk_up. apply wp_bind, wp_gets. destruct Hs as [[Hok ->]|[Hc ->]].
  - rewrite (proj1 Hok). by apply wp_ret.
  - rewrite (proj1 Hc). eapply wp_mono; [by apply blk_init_ok|]. intros [] s' [Hd Hr]; (split; [|split; [done|]]).
    + symmetry. apply bool_decide_eq_true, Hr.
    + apply Hr.
    + symmetry. apply bool_decide_eq_false. destruct Hr. lia.
    + destruct Hr as (? & ? & ?). right. split; [done|]. symmetry. apply bool_decide_eq_false. lia.
Qed.
Lemma drv_step_ok can o (s : drv) :
  drv_state can s → op_ok o →
  wp (drv_step o) (λ r s', drv_state can s' ∧
    (r, cdisk (board s')) = if can then disk_step o (cdisk (board s)) else (refusal o, cdisk (board s))) s.
Proof.
  intros Hs Ho. destruct o as [lba|lba b]; cbn [drv_step disk_step refusal]; apply wp_bind.
  - unfold Virtio.blk_read. apply wp_bind. eapply wp_mono; [by apply (blk_up_ok can)|]. intros r s1 (-> & Hd & Hs1).
    destruct can; cbn [negb]; [|apply wp_ret, wp_ret; by rewrite Hd].
    apply wp_bind. eapply wp_mono; [by apply (transact_ok BLK_IN lba)|]. intros r s2 (Hs2 & -> & _ & Hin & _).
    destruct (Hin eq_refl) as [Hd2 Hr]. rewrite Hd in Hd2, Hr. revert Hr. destruct (Fat16.blk_read (cdisk (board s)) lba) as [x|]; intros Hr.
    + destruct Hr as [-> <-]. apply wp_bind, wp_gets, wp_ret, wp_ret. rewrite Hd2. split; [by left|done].
    + apply Z.eqb_neq in Hr. rewrite Hr. apply wp_ret, wp_ret. rewrite Hd2. split; [by left|done].
  - unfold Virtio.blk_write. apply wp_bind. eapply wp_mono; [by apply (blk_up_ok can)|]. intros r s1 (-> & Hd & Hs1).
    destruct can; cbn [negb]; [|apply wp_ret, wp_ret; by rewrite Hd].
    apply wp_bind, wp_modify. eapply wp_mono; [by apply (transact_ok BLK_OUT lba)|]. intros r s2 (Hs2 & -> & _ & _ & Hout).
    specialize (Hout eq_refl). cbn in Hout. rewrite Hd, take_ge in Hout by (cbn in Ho; lia). apply wp_ret. split; [by left|].
    by rewrite <- Hout.
Qed.
Lemma drv_run_ok can l : ∀ (s : drv),
  drv_state can s → Forall op_ok l →
  wp (drv_run l) (λ rs s', (rs, cdisk (board s')) = if can then disk_run l (cdisk (board s)) else (map refusal l, cdisk (board s))) s.
Proof.
  induction l as [|o l IH]; intros s Hs Hl; cbn [drv_run disk_run map]; [apply wp_ret; by destruct can|].
  apply Forall_cons in Hl as [Ho Hl]. apply wp_bind. eapply wp_mono; [by apply (drv_step_ok can)|]. intros r s1 [Hs1 Hr].
  apply wp_bind. eapply wp_mono; [by apply IH|]. intros rs s2 Hrs. apply wp_ret. destruct can.
  - destruct (disk_step o (cdisk (board s))) as [r' d']. injection Hr as -> <-. destruct (disk_run l _) as [rs' d'']. by injection Hrs as -> ->.
  - injection Hr as -> Hd. injection Hrs as -> ->. by rewrite Hd.
Qed.

(** C39: The disk driver is the disk: from power on, with any card that keeps
    to the virtio specification and answers each request within the million
    polls the driver waits for it, every sequence of reads and writes of
    sectors, failed ones included, has the results it has on the disk behind
    the card, and leaves that disk as it would; if the board has no two pages
    for the driver, everything is refused and the disk is not touched.  What
    a slower card does is in [late_answer_is_taken_for_the_next]. *)
Theorem disk_driver_is_the_disk l w :
  Forall op_ok l →
  wp (drv_run l) (λ rs s', (rs, cdisk (board s')) =
    if bool_decide (2 <= pages w)%nat then disk_run l (cdisk w) else (map refusal l, cdisk w)) (blk_start w).
Proof. intros Hl. apply (drv_run_ok _ l (blk_start w)); [by right|done]. Qed.
End proofs.

(** ** A card to try it on

    In the second transport, behind a network card, over a disk in memory;
    it looks at its queue when the driver gives way. *)
Record tcard := mkTcard { tc_reg : Z → Z; tc_seen : Z; tc_disk : gmap Z (list Z); tc_pages : nat; tc_bell : bool }.
Definition tc_serve (m : blk_mem) (w : tcard) : blk_mem * tcard :=
  match request m with
  | None => (m, w)
  | Some (type, lba) =>
      let q := bm_q m in
      let b := bm_buf m in
      let '(b, d) :=
        if type =? BLK_IN then
          match Fat16.blk_read (tc_disk w) lba with
          | Some x => (b <| bf_data := x |> <| bf_status := 0 |>, tc_disk w)
          | None => (b <| bf_status := 1 |>, tc_disk w)
          end
        else let '(ok, d) := Fat16.blk_write (tc_disk w) lba (bf_data b) in (b <| bf_status := if ok : bool then 0 else 1 |>, d) in
      (mkBlkMem (q <| us_ring := <[Z.to_nat (us_idx q mod VQ_SIZE) := (0, 513)]> (us_ring q) |> <| us_idx := u16 (us_idx q + 1) |>) b,
       mkTcard (tc_reg w) (av_idx q) d (tc_pages w) false)
  end.
#[export] Instance tc_board : Board blk_mem tcard := {
  mmio_rd i off w :=
    if off =? VIRTIO_MAGIC then VIRTIO_MAGIC_VALUE
    else if off =? VIRTIO_DEVICE_ID then nth i [1; 2] 0
    else if off =? VIRTIO_DEV_FEATURES then if tc_reg w VIRTIO_DEV_FEAT_SEL =? 1 then 0x101 else 0x30000000
    else if off =? VIRTIO_QUEUE_NUM_MAX then 1024
    else tc_reg w off;
  mmio_wr i off v m w :=
    if negb (i =? 1)%nat then (m, w)
    else if off =? VIRTIO_QUEUE_NOTIFY then (m, mkTcard (tc_reg w) (tc_seen w) (tc_disk w) (tc_pages w) true)
    else if (off =? VIRTIO_STATUS) && (v =? 0) then (m, mkTcard (λ _, 0) 0 (tc_disk w) (tc_pages w) false)
    else (m, mkTcard (λ o, if o =? off then v else tc_reg w o) (tc_seen w) (tc_disk w) (tc_pages w) (tc_bell w));
  dma_page w :=
    match tc_pages w with
    | O => (None, w)
    | S n => (Some (0x80200000 + 4096 * (Z.of_nat n mod 1024)), mkTcard (tc_reg w) (tc_seen w) (tc_disk w) n (tc_bell w))
    end;
  bus_yield m w := if tc_bell w then tc_serve m w else (m, w) }.
#[export] Instance tc_view : CardView (gmap Z (list Z)) tcard :=
  { card_slot := 1; creg := tc_reg; cseen := tc_seen; cdisk := tc_disk; pages := tc_pages }.
#[export] Instance tc_laws : BlockCard (gmap Z (list Z)) tcard.
Proof.
  constructor.
  - cbn. lia.
  - intros w [|[|i]] Hi; cbn in Hi; [done|done|lia].
  - intros off v m w Hoff. apply Z.eqb_neq in Hoff. unfold mmio_wr, tc_board. cbn [Nat.eqb negb card_slot tc_view]. rewrite Hoff. unfold wrote.
    destruct (_ && _); eexists; by split.
  - intros w Hw. cbn in *. by rewrite Hw.
  - done.
  - intros w. cbn. lia.
  - intros w. unfold dma_page, tc_board. destruct (tc_pages w) as [|n] eqn:E; eexists _, _; split; try done; cbn; split_and!; try done. all: ldiv.
  - intros m w type lba _ _ Hreq. cbn [mmio_wr tc_board card_slot tc_view negb Nat.eqb]. change (VIRTIO_QUEUE_NOTIFY =? VIRTIO_QUEUE_NOTIFY) with true. cbv iota.
    eexists 1%nat, _, _. split; [unfold SPINS; lia|]. split; [split; [done|split; reflexivity]|].
    cbn [bus_yield tc_board tc_bell]. unfold tc_serve. rewrite Hreq. cbn [tc_disk]. cbn [cdisk tc_view].
    unfold carried_out, BLK_IN, BLK_OUT. destruct (Z.eqb_spec type 0) as [->|Hne].
    + destruct (Fat16.blk_read (tc_disk w) lba); cbn; split_and!; done.
    + destruct (Fat16.blk_write (tc_disk w) lba (bf_data (bm_buf m))) as [[] d']; cbn; split_and!; done.
Qed.
Definition tc_start (n : nat) : tcard := mkTcard (λ _, 0) 0 ∅ n false.
Lemma disk_driver_is_the_disk_witness :
  let b := replicate 512 7 in
  wp (drv_run [DoWrite 5 b; DoRead 5; DoRead 5000]) (λ rs s', rs = [GotWrite true; GotRead (Some b); GotRead None]) (blk_start (tc_start 2)).
Proof.
  eapply wp_mono; [apply (disk_driver_is_the_disk [DoWrite 5 (replicate 512 7); DoRead 5; DoRead 5000] (tc_start 2))|].
  - by repeat constructor.
  - intros rs s'. vm_compute. by intros [= -> _].
Defined.

(** ** A card that is late

    It carries out a request only when the bell rings for the next one. *)
Record late_card := mkLate { lt_reg : Z → Z; lt_old : option Z; lt_pages : nat }.
#[export] Instance late_board : Board blk_mem late_card := {
  mmio_rd i off w :=
    if off =? VIRTIO_MAGIC then VIRTIO_MAGIC_VALUE
    else if off =? VIRTIO_DEVICE_ID then 2
    else if off =? VIRTIO_DEV_FEATURES then 1
    else if off =? VIRTIO_QUEUE_NUM_MAX then 1024
    else lt_reg w off;
  mmio_wr i off v m w :=
    if off =? VIRTIO_QUEUE_NOTIFY then
      (match lt_old w with
       | Some lba => mkBlkMem ((bm_q m) <| us_idx := us_idx (bm_q m) + 1 |>) ((bm_buf m) <| bf_data := replicate 512 lba |> <| bf_status := 0 |>)
       | None => m
       end, mkLate (lt_reg w) (Some (h_sector (bm_buf m))) (lt_pages w))
    else (m, mkLate (λ o, if o =? off then v else lt_reg w o) (lt_old w) (lt_pages w));
  dma_page w := match lt_pages w with O => (None, w) | S n => (Some (4096 * (Z.of_nat n mod 1024)), mkLate (lt_reg w) (lt_old w) n) end;
  bus_yield m w := (m, w) }.
(** After the driver has given a request up, it takes the late answer to it
    for the answer to the next: a read of sector 2 yields sector 1. *)
Theorem late_answer_is_taken_for_the_next :
  (drv_run [DoRead 1; DoRead 2] (blk_start (mkLate (λ _, 0) None 2))) ≫= (λ x, Some x.1) =
  Some [GotRead None; GotRead (Some (replicate 512 1))].
Proof. vm_compute. reflexivity. Qed.
