(* ===== verification/SrvNet.v ===== *)
(** * The driver of the network card (src/src/srv_net.c)

    Two queues, one to transmit and one to receive, and the receive loop of
    the network server.  The protocols above are an interface: an event runs
    one of their programs, and the frames it hands down are transmitted in
    order. *)
From stdpp Require Import base list numbers option.
From S2P Require Import Prelude Req Ipc Virtio.
Local Open Scope Z_scope.

Definition NTX : Z := 8.
Definition NRX : nat := 4.
(** [sizeof(struct virtio_net_hdr)]. *)
Definition NET_HDR : nat := 12.
Definition RX_LEN : Z := 2048.
Definition DRAIN : nat := Z.to_nat 65536.

(** What lies above the driver.  [p_wire] is what has been handed down since
    [p_clear]. *)
Class Protocols (N : Type) := {
  p_boot : list Z → N;
  p_clear : N → N;
  p_wire : N → list (list Z);
  p_start : prog N ();
  p_input : list Z → prog N ();
  p_timeout : prog N ();
  p_vfs : Z → vfs_req → prog N (option vfs_req) }.

(** A page of the card: its physical address and its bytes. *)
Record dbuf := mkDbuf { db_pa : Z; db_bytes : list Z }.
Definition zero_dbuf (pa : Z) : dbuf := mkDbuf pa (replicate (Z.to_nat 4096) 0).
(** [umemcpy(b + o, src, length src)]. *)
Definition fill (o : nat) (src : list Z) (b : dbuf) : dbuf :=
  mkDbuf (db_pa b) (take o (db_bytes b) ++ src ++ drop (o + length src) (db_bytes b)).
Record net_mem := mkNetMem
  { nm_tx : virtq; nm_rx : virtq; nm_txb : list dbuf; nm_rxb : list dbuf }.
Ltac set_net_mem proj :=
  setter (λ s, mkNetMem (nm_tx s) (nm_rx s) (nm_txb s) (nm_rxb s)) proj.
#[export] Instance set_nm_tx : Setter nm_tx. Proof. set_net_mem nm_tx. Defined.
#[export] Instance set_nm_rx : Setter nm_rx. Proof. set_net_mem nm_rx. Defined.
#[export] Instance set_nm_txb : Setter nm_txb. Proof. set_net_mem nm_txb. Defined.
#[export] Instance set_nm_rxb : Setter nm_rxb. Proof. set_net_mem nm_rxb. Defined.
Arguments set_nm_tx _ _ /.
Arguments set_nm_rx _ _ /.
Arguments set_nm_txb _ _ /.
Arguments set_nm_rxb _ _ /.
Definition net_mem_0 : net_mem := mkNetMem (zero_virtq 0) (zero_virtq 0) [] [].
(** The static variables, the protocols' state, and what the kernel has been
    told: interrupts acknowledged, requests answered. *)
Record net_vars (N : Type) := mkNetVars
  { net_dev : nat; tx_next : Z; rx_last : Z; net_irq : Z; card_mac : list Z; proto : N;
    irq_acks : Z; answered : list (Z * vfs_req) }.
Arguments mkNetVars {N}. Arguments net_dev {N}. Arguments tx_next {N}. Arguments rx_last {N}. Arguments net_irq {N}.
Arguments card_mac {N}. Arguments proto {N}. Arguments irq_acks {N}. Arguments answered {N}.
#[export] Instance set_net_dev {N} : Setter (@net_dev N) := λ x s, mkNetVars x (tx_next s) (rx_last s) (net_irq s) (card_mac s) (proto s) (irq_acks s) (answered s).
#[export] Instance set_tx_next {N} : Setter (@tx_next N) := λ x s, mkNetVars (net_dev s) x (rx_last s) (net_irq s) (card_mac s) (proto s) (irq_acks s) (answered s).
#[export] Instance set_rx_last {N} : Setter (@rx_last N) := λ x s, mkNetVars (net_dev s) (tx_next s) x (net_irq s) (card_mac s) (proto s) (irq_acks s) (answered s).
#[export] Instance set_net_irq {N} : Setter (@net_irq N) := λ x s, mkNetVars (net_dev s) (tx_next s) (rx_last s) x (card_mac s) (proto s) (irq_acks s) (answered s).
#[export] Instance set_card_mac {N} : Setter (@card_mac N) := λ x s, mkNetVars (net_dev s) (tx_next s) (rx_last s) (net_irq s) x (proto s) (irq_acks s) (answered s).
#[export] Instance set_proto {N} : Setter (@proto N) := λ x s, mkNetVars (net_dev s) (tx_next s) (rx_last s) (net_irq s) (card_mac s) x (irq_acks s) (answered s).
#[export] Instance set_irq_acks {N} : Setter (@irq_acks N) := λ x s, mkNetVars (net_dev s) (tx_next s) (rx_last s) (net_irq s) (card_mac s) (proto s) x (answered s).
#[export] Instance set_answered {N} : Setter (@answered N) := λ x s, mkNetVars (net_dev s) (tx_next s) (rx_last s) (net_irq s) (card_mac s) (proto s) (irq_acks s) x.
Arguments set_net_dev {N} _ _ /.
Arguments set_tx_next {N} _ _ /.
Arguments set_rx_last {N} _ _ /.
Arguments set_net_irq {N} _ _ /.
Arguments set_card_mac {N} _ _ /.
Arguments set_proto {N} _ _ /.
Arguments set_irq_acks {N} _ _ /.
Arguments set_answered {N} _ _ /.

Section net.
Context {N W : Type} `{Protocols N} `{Board net_mem W}.
Abbreviation drv := (vst (net_vars N) net_mem W).
Definition var {A} (f : net_vars N → A) : prog drv A := gets (λ s, f (vars s)).
Definition mem_of {A} (f : net_mem → A) : prog drv A := gets (λ s, f (shared s)).

(** ** Frames *)

(** Into the next buffer, whose last frame is taken to have gone. *)
Definition transmit (f : list Z) : prog drv () :=
  let* n := var tx_next in
  let i := Z.to_nat (n mod NTX) in
  let* _ := on_vars (λ v, v <| tx_next := u16 (n + 1) |>) in
  if 4096 <? Z.of_nat (NET_HDR + length f) then diverge
  else
    let* _ := on_shared (λ m, m <| nm_txb := alter (λ b, fill NET_HDR f (fill 0 (replicate NET_HDR 0) b)) i (nm_txb m) |>) in
    let* pa := mem_of (λ m, db_pa (nth i (nm_txb m) (zero_dbuf 0))) in
    let* _ := on_shared (λ m, m <| nm_tx := publish (Z.of_nat i) (put_desc i (mkDesc pa (Z.of_nat (NET_HDR + length f)) 0 0) (nm_tx m)) |>) in
    let* dev := var net_dev in
    wr dev VIRTIO_QUEUE_NOTIFY 1.
Fixpoint transmit_all (l : list (list Z)) : prog drv () :=
  match l with
  | [] => pret ()
  | f :: l' => let* _ := transmit f in transmit_all l'
  end.
(** Run a program of the protocols, and transmit what it hands down. *)
Definition up {A} (m : prog N A) : prog drv A :=
  let* n := var proto in
  match m (p_clear n) with
  | None => diverge
  | Some (a, n') =>
      let* _ := on_vars (λ v, v <| proto := n' |>) in
      let* _ := transmit_all (p_wire n') in
      pret a
  end.
Definition rx_recycle (id : Z) : prog drv () :=
  let* _ := on_shared (λ m, m <| nm_rx := publish id (nm_rx m) |>) in
  let* dev := var net_dev in
  wr dev VIRTIO_QUEUE_NOTIFY 0.
Fixpoint drain_rx (n : nat) : prog drv () :=
  match n with
  | O => diverge
  | S n' =>
      let* u := mem_of (λ m, us_idx (nm_rx m)) in
      let* l := var rx_last in
      if u =? l then pret ()
      else
        let* e := mem_of (λ m, nth (Z.to_nat (l mod VQ_SIZE)) (us_ring (nm_rx m)) (0, 0)) in
        let id := u16 e.1 in
        let len := i32 e.2 - Z.of_nat NET_HDR in
        let* _ := on_vars (λ v, v <| rx_last := u16 (l + 1) |>) in
        let* b := mem_of (λ m, nm_rxb m !! Z.to_nat id) in
        match b with
        | None => diverge
        | Some b =>
            let* _ := up (p_input (take (Z.to_nat len) (drop NET_HDR (db_bytes b)))) in
            let* _ := rx_recycle id in
            drain_rx n'
        end
  end.

(** ** Setting the card up *)

Fixpoint read_mac (dev n : nat) (i : Z) : prog drv (list Z) :=
  match n with
  | O => pret []
  | S n' => let* c := rd dev (VIRTIO_CONFIG + i) in let* l := read_mac dev n' (i + 1) in pret (u8 c :: l)
  end.
Definition negotiate (dev : nat) : prog drv bool :=
  let* _ := say_hello dev in
  let* _ := wr dev VIRTIO_DEV_FEAT_SEL 0 in
  let* lo := rd dev VIRTIO_DEV_FEATURES in
  let* _ := wr dev VIRTIO_DEV_FEAT_SEL 1 in
  let* hi := rd dev VIRTIO_DEV_FEATURES in
  let want_lo := Z.land lo (Z.shiftl 1 VIRTIO_NET_F_MAC) in
  let want_hi := Z.land hi (Z.shiftl 1 (VIRTIO_F_VERSION_1 - 32)) in
  let* _ := wr dev VIRTIO_DRV_FEAT_SEL 0 in
  let* _ := wr dev VIRTIO_DRV_FEATURES want_lo in
  let* _ := wr dev VIRTIO_DRV_FEAT_SEL 1 in
  let* _ := wr dev VIRTIO_DRV_FEATURES want_hi in
  let* ok := fix_features dev in
  if negb ok then pret false
  else if want_lo =? 0 then pret true
  else
    let* mac := read_mac dev 6 0 in
    let* _ := on_vars (λ v, v <| card_mac := mac |>) in
    pret true.
(** A page for queue [q]; [put] stores it. *)
Definition setup_queue (dev : nat) (q : Z) (put : virtq → net_mem → net_mem) : prog drv bool :=
  let* p := dma_alloc in
  match p with
  | None => pret false
  | Some pa => let* _ := on_shared (put (zero_virtq pa)) in queue_at dev q pa
  end.
(** The receive buffers, each with its descriptor. *)
Fixpoint rx_pages (n i : nat) : prog drv bool :=
  match n with
  | O => pret true
  | S n' =>
      let* p := dma_alloc in
      match p with
      | None => pret false
      | Some pa =>
          let* _ := on_shared (λ m, m <| nm_rxb := nm_rxb m ++ [zero_dbuf pa] |>
                                      <| nm_rx := put_desc i (mkDesc pa RX_LEN VIRTQ_DESC_F_WRITE 0) (nm_rx m) |>) in
          let* _ := on_shared (λ m, m <| nm_rx := (nm_rx m) <| av_ring := <[i := Z.of_nat i]> (av_ring (nm_rx m)) |> |>) in
          rx_pages n' (S i)
      end
  end.
Definition setup_rx (dev : nat) : prog drv bool :=
  let* ok := rx_pages NRX 0 in
  if negb ok then pret false
  else
    let* _ := on_shared (λ m, m <| nm_rx := (nm_rx m) <| av_idx := Z.of_nat NRX |> |>) in
    let* _ := wr dev VIRTIO_QUEUE_NOTIFY 0 in
    pret true.
Fixpoint tx_pages (n : nat) : prog drv bool :=
  match n with
  | O => pret true
  | S n' =>
      let* p := dma_alloc in
      match p with
      | None => pret false
      | Some pa => let* _ := on_shared (λ m, m <| nm_txb := nm_txb m ++ [zero_dbuf pa] |>) in tx_pages n'
      end
  end.
(** [false] when the server gives up and exits. *)
Definition net_setup : prog drv bool :=
  let* d := find_device VIRTIO_ID_NET in
  match d with
  | None => pret false
  | Some dev =>
      let* _ := on_vars (λ v, v <| net_dev := dev |> <| net_irq := Z.of_nat dev + 1 |>) in
      let* ok := negotiate dev in
      if negb ok then pret false
      else
        let* ok := setup_queue dev 1 (λ q m, m <| nm_tx := q |>) in
        if negb ok then pret false
        else
          let* ok := setup_queue dev 0 (λ q m, m <| nm_rx := q |>) in
          if negb ok then pret false
          else
            let* ok := setup_rx dev in
            if negb ok then pret false
            else
              let* ok := tx_pages (Z.to_nat NTX) in
              if negb ok then pret false
              else
                let* _ := start_card dev in
                let* mac := var card_mac in
                let* _ := on_vars (λ v, v <| proto := p_boot mac |>) in
                let* _ := up p_start in
                pret true
  end.

(** ** The receive loop *)

(** One message: from the card, the clock, or a program. *)
Definition net_turn (from : Z) (r : vfs_req) : prog drv () :=
  if from =? IRQ_SENDER then
    let* dev := var net_dev in
    let* i := rd dev VIRTIO_INT_STATUS in
    let* _ := wr dev VIRTIO_INT_ACK i in
    let* _ := drain_rx DRAIN in
    on_vars (λ v, v <| irq_acks := irq_acks v + 1 |>)
  else if from =? TIMER_SENDER then up p_timeout
  else
    let* x := up (p_vfs from r) in
    match x with
    | Some r' => on_vars (λ v, v <| answered := answered v ++ [(from, r')] |>)
    | None => pret ()
    end.
(** The server before it has set anything up. *)
Definition net_off (n : N) (w : W) : drv := mkVst (mkNetVars 0 0 0 0 (replicate 6 0) n 0 []) net_mem_0 w.
End net.
