(* ===== verification/NetCard.v ===== *)
(** * The network driver and its card (src/src/srv_net.c)

    A card after the virtio specification, that takes frames to send when it
    likes but never leaves more than [nc_lag] behind, and that fills a
    buffer when a frame comes in.  Driver, queues and card together are the
    protocols on a wire: the card sends what the protocols hand down, and
    the protocols get what the card has taken in, in order and once. *)
From stdpp Require Import base list numbers option.
From S2P Require Import Prelude Ipc Req NetWire NetState Net NetTcp NetCtl NetDemo NetInv Virtio SrvNet.
Local Open Scope Z_scope.

(** ** The card *)

Record ncard := mkNcard
  { nc_reg : list (Z * Z * Z); nc_qreg : list (Z * Z * Z); nc_tx : Z; nc_rx : Z; nc_out : list (list Z); nc_lag : nat; nc_pages : nat }.
Definition queue_reg (off : Z) : bool := (VIRTIO_QUEUE_NUM <=? off) && (off <=? VIRTIO_QUEUE_READY) || (VIRTIO_QUEUE_DESC_LO <=? off) && (off <=? VIRTIO_QUEUE_USED_HI).
(** The registers, the last written first; those of a queue are banked by
    QUEUE_SEL. *)
Fixpoint last_value (l : list (Z * Z * Z)) (sel off : Z) : Z :=
  match l with [] => 0 | (s, o, v) :: l' => if (s =? sel) && (o =? off) then v else last_value l' sel off end.
Definition reg_of (w : ncard) (off : Z) : Z := last_value (nc_reg w) 0 off.
Definition qreg_of (w : ncard) (sel off : Z) : Z := last_value (nc_qreg w) sel off.
(** The card knows queue [sel] to be in that page. *)
Definition knows (w : ncard) (sel : Z) (q : virtq) : bool :=
  let r := qreg_of w sel in
  bool_decide (reg_of w VIRTIO_STATUS = 15 ∧ r VIRTIO_QUEUE_READY = 1 ∧ r VIRTIO_QUEUE_NUM = 8 ∧
               r VIRTIO_QUEUE_DESC_LO + 2 ^ 32 * r VIRTIO_QUEUE_DESC_HI = q_pa q + OFF_DESC ∧
               r VIRTIO_QUEUE_AVAIL_LO + 2 ^ 32 * r VIRTIO_QUEUE_AVAIL_HI = q_pa q + OFF_AVAIL ∧
               r VIRTIO_QUEUE_USED_LO + 2 ^ 32 * r VIRTIO_QUEUE_USED_HI = q_pa q + OFF_USED).
Definition buf_at (pa : Z) (l : list dbuf) : option nat := fst <$> list_find (λ b, db_pa b = pa) l.
(** The descriptor that entry [n] of the driver's ring names. *)
Definition entry_at (q : virtq) (n : Z) : Z * virtq_desc :=
  let id := nth (Z.to_nat (n mod VQ_SIZE)) (av_ring q) 0 in (id, nth (Z.to_nat id) (q_desc q) zero_desc).
Definition use (id len : Z) (q : virtq) : virtq :=
  q <| us_ring := <[Z.to_nat (us_idx q mod VQ_SIZE) := (id, len)]> (us_ring q) |> <| us_idx := u16 (us_idx q + 1) |>.
Definition send_one (m : net_mem) (w : ncard) : net_mem * ncard :=
  let q := nm_tx m in
  if negb (knows w 1 q) || (nc_tx w =? av_idx q) then (m, w)
  else
    let '(id, d) := entry_at q (nc_tx w) in
    match buf_at (d_addr d) (nm_txb m) with
    | None => (m, w)
    | Some i =>
        (m <| nm_tx := use id 0 q |>,
         mkNcard (nc_reg w) (nc_qreg w) (u16 (nc_tx w + 1)) (nc_rx w)
           (nc_out w ++ [take (Z.to_nat (d_len d)) (db_bytes (nth i (nm_txb m) (zero_dbuf 0)))]) (nc_lag w) (nc_pages w))
    end.
Fixpoint send_some (n : nat) (m : net_mem) (w : ncard) : net_mem * ncard :=
  match n with O => (m, w) | S n' => let '(m', w') := send_one m w in send_some n' m' w' end.
(** The bell: now at most [nc_lag] frames are left. *)
Definition bell (m : net_mem) (w : ncard) : net_mem * ncard :=
  send_some (Z.to_nat (u16 (av_idx (nm_tx m) - nc_tx w)) - nc_lag w) m w.
(** A frame from outside, which is lost if no buffer is there for it. *)
Definition card_gets (f : list Z) (m : net_mem) (w : ncard) : net_mem * ncard :=
  let q := nm_rx m in
  if negb (knows w 0 q) || (nc_rx w =? av_idx q) then (m, w)
  else
    let '(id, d) := entry_at q (nc_rx w) in
    match buf_at (d_addr d) (nm_rxb m) with
    | None => (m, w)
    | Some i =>
        if negb (d_flags d =? VIRTQ_DESC_F_WRITE) || (d_len d <? Z.of_nat (NET_HDR + length f)) then (m, w)
        else
          (m <| nm_rxb := alter (fill 0 (replicate NET_HDR 0 ++ f)) i (nm_rxb m) |> <| nm_rx := use id (Z.of_nat (NET_HDR + length f)) q |>,
           mkNcard (nc_reg w) (nc_qreg w) (nc_tx w) (u16 (nc_rx w + 1)) (nc_out w) (nc_lag w) (nc_pages w))
    end.
(** In the first transport; its address is 52:54:00:12:34:56. *)
#[export] Instance ncard_board : Board net_mem ncard := {
  mmio_rd i off w :=
    if off =? VIRTIO_MAGIC then VIRTIO_MAGIC_VALUE
    else if off =? VIRTIO_DEVICE_ID then nth i [1; 2] 0
    else if off =? VIRTIO_DEV_FEATURES then if reg_of w VIRTIO_DEV_FEAT_SEL =? 1 then 0x101 else 0x30000020
    else if off =? VIRTIO_QUEUE_NUM_MAX then 1024
    else if VIRTIO_CONFIG <=? off then nth (Z.to_nat (off - VIRTIO_CONFIG)) [82; 84; 0; 18; 52; 86] 0
    else reg_of w off;
  mmio_wr i off v m w :=
    if negb (i =? 0)%nat then (m, w)
    else if off =? VIRTIO_QUEUE_NOTIFY then if v =? 1 then bell m w else (m, w)
    else if (off =? VIRTIO_STATUS) && (v =? 0) then (m, mkNcard [] [] 0 0 (nc_out w) (nc_lag w) (nc_pages w))
    else if queue_reg off then
      let sel := reg_of w VIRTIO_QUEUE_SEL in
      (m, mkNcard (nc_reg w) ((sel, off, v) :: nc_qreg w) (nc_tx w) (nc_rx w) (nc_out w) (nc_lag w) (nc_pages w))
    else (m, mkNcard ((0, off, v) :: nc_reg w) (nc_qreg w) (nc_tx w) (nc_rx w) (nc_out w) (nc_lag w) (nc_pages w));
  dma_page w :=
    match nc_pages w with
    | O => (None, w)
    | S n => (Some (0x80200000 + 4096 * (Z.of_nat n mod 1024)), mkNcard (nc_reg w) (nc_qreg w) (nc_tx w) (nc_rx w) (nc_out w) (nc_lag w) n)
    end;
  bus_yield m w := (m, w) }.
Definition card_off (lag pages : nat) : ncard := mkNcard [] [] 0 0 [] lag pages.

(** ** What is specified *)

(** The protocols, the frames that wait for them, those they have handed
    down, the requests answered. *)
Record on_wire (N : Type) := mkOnWire { ow_n : N; ow_wait : list (list Z); ow_out : list (list Z); ow_said : list (Z * vfs_req) }.
Arguments mkOnWire {N}. Arguments ow_n {N}. Arguments ow_wait {N}. Arguments ow_out {N}. Arguments ow_said {N}.
Inductive nic_ev := CardGets (f : list Z) | CardSends (k : nat) | Turn (from : Z) (r : vfs_req).
Section spec.
Context {N : Type} `{Protocols N}.
Definition spec_up {A} (m : prog N A) : prog (on_wire N) A := λ σ,
  match m (p_clear (ow_n σ)) with
  | Some (a, n') => Some (a, mkOnWire n' (ow_wait σ) (ow_out σ ++ p_wire n') (ow_said σ))
  | None => None
  end.
Fixpoint spec_drain (ws : list (list Z)) : prog (on_wire N) () :=
  match ws with
  | [] => pret ()
  | f :: ws' =>
      let* _ := spec_up (p_input f) in
      let* _ := modify (λ σ, mkOnWire (ow_n σ) ws' (ow_out σ) (ow_said σ)) in
      spec_drain ws'
  end.
Definition spec_ev (e : nic_ev) : prog (on_wire N) () :=
  match e with
  | CardGets f => modify (λ σ, mkOnWire (ow_n σ) (take 4 (ow_wait σ ++ [f])) (ow_out σ) (ow_said σ))
  | CardSends _ => pret ()
  | Turn from r =>
      if from =? IRQ_SENDER then let* ws := gets ow_wait in spec_drain ws
      else if from =? TIMER_SENDER then spec_up p_timeout
      else
        let* x := spec_up (p_vfs from r) in
        match x with
        | Some r' => modify (λ σ, mkOnWire (ow_n σ) (ow_wait σ) (ow_out σ) (ow_said σ ++ [(from, r')]))
        | None => pret ()
        end
  end.
Fixpoint spec_run (l : list nic_ev) : prog (on_wire N) () :=
  match l with [] => pret () | e :: l' => let* _ := spec_ev e in spec_run l' end.
Definition spec_start : prog (on_wire N) () := spec_up p_start.

(** The real thing. *)
Definition nic_ev_run (e : nic_ev) : prog (vst (net_vars N) net_mem ncard) () :=
  match e with
  | CardGets f => λ s, let '(m, w) := card_gets f (shared s) (board s) in Some ((), mkVst (vars s) m w)
  | CardSends k => λ s, let '(m, w) := send_some k (shared s) (board s) in Some ((), mkVst (vars s) m w)
  | Turn from r => net_turn from r
  end.
Fixpoint nic_run (l : list nic_ev) : prog (vst (net_vars N) net_mem ncard) () :=
  match l with [] => pret () | e :: l' => let* _ := nic_ev_run e in nic_run l' end.
End spec.
(** Frames that fit a receive buffer. *)
Definition ev_ok (e : nic_ev) : Prop := match e with CardGets f => (length f <= 2036)%nat ∧ Forall byte_ok f | _ => True end.
(** What the protocols promise the driver: the frames fit a buffer. *)
Class ProtocolLaws N `{Protocols N} := {
  p_ok : N → Prop;
  p_boot_ok mac : length mac = 6%nat → p_ok (p_boot mac);
  p_clear_ok n : p_ok n → p_ok (p_clear n);
  p_start_ok n n' : p_ok n → p_start n = Some ((), n') → p_ok n';
  p_input_ok f n n' : Forall byte_ok f → p_ok n → p_input f n = Some ((), n') → p_ok n';
  p_timeout_ok n n' : p_ok n → p_timeout n = Some ((), n') → p_ok n';
  p_vfs_ok from r n x n' : p_ok n → p_vfs from r n = Some (x, n') → p_ok n';
  p_fits n : p_ok n → Forall (λ f, (length f <= Z.to_nat 4084)%nat) (p_wire n) }.

(** ** Indices *)

Lemma ring_slot k : Z.to_nat (u16 (Z.of_nat k) mod VQ_SIZE) = (k mod 8)%nat.
Proof.
  unfold u16, VQ_SIZE. replace (Z.of_nat k mod 2 ^ 16 mod 8) with (Z.of_nat k mod 8) by ldiv.
  change 8 with (Z.of_nat 8). by rewrite <- Nat2Z.inj_mod, Nat2Z.id.
Qed.
Lemma index_S k : u16 (u16 (Z.of_nat k) + 1) = u16 (Z.of_nat (S k)).
Proof. unfold u16. rewrite Zplus_mod_idemp_l. f_equal. lia. Qed.
Lemma index_ne a b : (a < b)%nat → (b - a < 100)%nat → (u16 (Z.of_nat a) =? u16 (Z.of_nat b)) = false.
Proof. intros. apply Z.eqb_neq. unfold u16. intros E. assert ((Z.of_nat b - Z.of_nat a) mod 2 ^ 16 = 0) as Hd by (rewrite Zminus_mod, E, Z.sub_diag; done). rewrite Z.mod_small in Hd; lia. Qed.
Lemma index_sub a b : (b <= a)%nat → (a - b < 100)%nat → u16 (u16 (Z.of_nat a) - u16 (Z.of_nat b)) = Z.of_nat (a - b).
Proof. intros. unfold u16. rewrite <- Zminus_mod, Z.mod_small by lia. lia. Qed.
Lemma mod_apart n a b : (n ≠ 0)%nat → (a < b)%nat → (b - a < n)%nat → (a mod n ≠ b mod n)%nat.
Proof.
  intros Hn Hab Hd E. pose proof (Nat.div_mod_eq a n). pose proof (Nat.div_mod_eq b n).
  assert ((b / n - a / n) * n = b - a)%nat by nia. destruct (b / n - a / n)%nat eqn:?; nia.
Qed.
Lemma nth_some {A} (l : list A) i d x : l !! i = Some x → nth i l d = x.
Proof. apply nth_lookup_Some. Qed.
Lemma buf_at_lookup l i b : NoDup (db_pa <$> l) → l !! i = Some b → buf_at (db_pa b) l = Some i.
Proof.
  intros Hn Hi. unfold buf_at. erewrite (proj2 (list_find_Some _ _ i b)); [done|]. split_and!; [done|done|].
  intros j y Hj Hlt Hy. assert (j = i); [|lia]. eapply (NoDup_lookup _ _ _ (db_pa b) Hn); rewrite list_lookup_fmap; [by rewrite Hj, <- Hy|by rewrite Hi].
Qed.
Lemma length_fill o src b : (o + length src <= length (db_bytes b))%nat → length (db_bytes (fill o src b)) = length (db_bytes b).
Proof. intros. cbn. rewrite !length_app, length_take, length_drop. lia. Qed.

(** ** The queue of frames to send *)

(** Reads the fields of updated structures, and nothing else. *)
Ltac fields :=
  unfold publish, put_desc;
  cbn [set_field set_nm_tx set_nm_txb set_nm_rx set_nm_rxb set_tx_next set_rx_last set_proto set_irq_acks set_answered set_av_ring set_av_idx
       set_q_desc set_us_ring set_us_idx nm_tx nm_txb nm_rx nm_rxb q_pa q_desc av_idx av_ring us_idx us_ring vars shared board net_dev tx_next
       rx_last net_irq card_mac proto irq_acks answered nc_reg nc_qreg nc_tx nc_rx nc_out nc_lag nc_pages].
Definition hdr : list Z := replicate NET_HDR 0.
Lemma db_pa_alter (g : dbuf → dbuf) (i : nat) (l : list dbuf) : (∀ b, db_pa (g b) = db_pa b) → db_pa <$> alter g i l = db_pa <$> l.
Proof.
  intros Hg. apply list_eq. intros j. rewrite !list_lookup_fmap. destruct (decide (i = j)) as [->|Hne].
  - rewrite list_lookup_alter_eq. destruct (l !! j) as [b|]; cbn; [by rewrite Hg|done].
  - by rewrite list_lookup_alter_ne.
Qed.
Lemma take_fill f b : take (NET_HDR + length f) (db_bytes (fill NET_HDR f (fill 0 hdr b))) = hdr ++ f.
Proof.
  unfold fill. cbn [db_bytes db_pa]. change (take 0 (db_bytes b)) with (@nil Z). rewrite app_nil_l, (take_app_length' hdr _ NET_HDR) by done.
  rewrite app_assoc. by rewrite take_app_length' by (by rewrite length_app).
Qed.
Lemma pbind_none {S A B} (m : prog S A) (k : A → prog S B) s : m s = None → pbind m k s = None.
Proof. unfold pbind. by intros ->. Qed.
Section proofs.
Context {N : Type} `{ProtocolLaws N}.
Abbreviation drv := (vst (net_vars N) net_mem ncard).
Abbreviation PAGE := (Z.to_nat 4096).

(** [F]: the frames transmitted; the card has sent [C] of them. *)
Definition tx_ok (F : list (list Z)) (C : nat) (s : drv) : Prop :=
  let q := nm_tx (shared s) in
  let bs := nm_txb (shared s) in
  (C <= length F)%nat ∧ tx_next (vars s) = u16 (Z.of_nat (length F)) ∧ av_idx q = u16 (Z.of_nat (length F)) ∧ nc_tx (board s) = u16 (Z.of_nat C) ∧
  nc_out (board s) = map (app hdr) (take C F) ∧ length (q_desc q) = 8%nat ∧ length (av_ring q) = 8%nat ∧ length bs = 8%nat ∧
  NoDup (db_pa <$> bs) ∧ Forall (λ b, length (db_bytes b) = PAGE) bs ∧ knows (board s) 1 q = true ∧
  ∀ k f, (C <= k)%nat → F !! k = Some f → ∃ b, bs !! (k mod 8)%nat = Some b ∧ take (NET_HDR + length f) (db_bytes b) = hdr ++ f ∧
    q_desc q !! (k mod 8)%nat = Some (mkDesc (db_pa b) (Z.of_nat (NET_HDR + length f)) 0 0) ∧ av_ring q !! (k mod 8)%nat = Some (Z.of_nat (k mod 8)).
(** Nothing of the receiving side has changed. *)
Definition keeps_rx (s s' : drv) : Prop :=
  nm_rx (shared s') = nm_rx (shared s) ∧ nm_rxb (shared s') = nm_rxb (shared s) ∧ rx_last (vars s') = rx_last (vars s) ∧
  net_dev (vars s') = net_dev (vars s) ∧ nc_rx (board s') = nc_rx (board s) ∧ reg_of (board s') VIRTIO_STATUS = reg_of (board s) VIRTIO_STATUS ∧
  nc_qreg (board s') = nc_qreg (board s) ∧ nc_lag (board s') = nc_lag (board s).
Lemma keeps_rx_trans s1 s2 s3 : keeps_rx s1 s2 → keeps_rx s2 s3 → keeps_rx s1 s3.
Proof. unfold keeps_rx. intros (-> & -> & -> & -> & -> & -> & -> & ->). by intros (-> & -> & -> & -> & -> & -> & -> & ->). Qed.

Lemma send_one_ok F C (s : drv) :
  tx_ok F C s → (C < length F)%nat → (length F - C <= 8)%nat →
  let '(m, w) := send_one (shared s) (board s) in tx_ok F (S C) (mkVst (vars s) m w) ∧ keeps_rx s (mkVst (vars s) m w).
Proof.
  intros (HC & Hnx & Hav & Htx & Hout & Hd & Hr & Hb & Hnd & Hby & Hk & HF) HlC Hl8. unfold send_one. rewrite Hk, Htx, Hav, index_ne by lia. cbn [negb orb].
  destruct (lookup_lt_is_Some_2 F C HlC) as [f Hf]. destruct (HF C f ltac:(done) Hf) as (b & Hbi & Htake & Hdi & Hri).
  unfold entry_at. rewrite ring_slot, (nth_some _ _ _ _ Hri), Nat2Z.id, (nth_some _ _ _ _ Hdi). cbn [d_addr d_len].
  rewrite (buf_at_lookup _ _ _ Hnd Hbi), Nat2Z.id, (nth_some _ _ _ _ Hbi), Htake. split; [|by split_and!].
  unfold tx_ok. cbn [shared vars board nm_tx nm_txb nc_tx nc_out]. cbn. split_and!; try done.
  - apply index_S.
  - rewrite Hout, (take_S_r _ _ _ Hf), map_app. done.
  - intros k g Hk' Hg. apply HF; [lia|done].
Qed.
Lemma send_some_ok n : ∀ F C (s : drv),
  tx_ok F C s → (length F - C <= 8)%nat →
  let '(m, w) := send_some n (shared s) (board s) in
  ∃ C', (C <= C')%nat ∧ (length F - C' <= length F - C - n)%nat ∧ tx_ok F C' (mkVst (vars s) m w) ∧ keeps_rx s (mkVst (vars s) m w).
Proof.
  induction n as [|n IH]; intros F C s Hs Hl; cbn [send_some].
  - exists C. split_and!; [lia|lia|by destruct s|by destruct s].
  - destruct (decide (C < length F)%nat) as [HC|HC].
    + pose proof (send_one_ok F C s Hs HC Hl) as H1. destruct (send_one (shared s) (board s)) as [m1 w1]. destruct H1 as [H1 Hk1].
      specialize (IH F (S C) _ H1 ltac:(lia)). cbn [shared board vars] in IH. destruct (send_some n m1 w1) as [m2 w2].
      destruct IH as (C' & ? & ? & ? & Hk2). exists C'. split_and!; [lia|lia|done|]. by eapply keeps_rx_trans.
    + assert (send_one (shared s) (board s) = (shared s, board s)) as ->.
      { unfold send_one. destruct Hs as (HCl & _ & Hav & Htx & _). rewrite Htx, Hav. replace C with (length F) by lia. rewrite Z.eqb_refl. by rewrite orb_true_r. }
      specialize (IH F C s Hs Hl). destruct (send_some n _ _) as [m2 w2]. destruct IH as (C' & ? & ? & ? & ?). exists C'. split_and!; try done; lia.
Qed.
Lemma wp_bell (s : drv) Q :
  net_dev (vars s) = 0%nat → (let '(m, w) := bell (shared s) (board s) in Q () (mkVst (vars s) m w)) → wp (wr (net_dev (vars s)) VIRTIO_QUEUE_NOTIFY 1) Q s.
Proof. intros -> HQ. unfold wp, wr. cbn [mmio_wr ncard_board Nat.eqb negb]. change (VIRTIO_QUEUE_NOTIFY =? VIRTIO_QUEUE_NOTIFY) with true. change (u32 1 =? 1) with true. cbv iota. by destruct (bell _ _). Qed.
Lemma transmit_ok F C f (s : drv) :
  tx_ok F C s → (length F - C <= 7)%nat → (length f <= Z.to_nat 4084)%nat → net_dev (vars s) = 0%nat →
  wp (transmit f) (λ _ s', (∃ C', tx_ok (F ++ [f]) C' s' ∧ (length (F ++ [f]) - C' <= nc_lag (board s))%nat) ∧ keeps_rx s s' ∧
    proto (vars s') = proto (vars s) ∧ answered (vars s') = answered (vars s)) s.
Proof.
  intros (HC & Hnx & Hav & Htx & Hout & Hd & Hr & Hb & Hnd & Hby & Hk & HF) Hl Hf Hdev. unfold transmit.
  apply wp_bind, wp_gets, wp_bind, wp_modify. rewrite Hnx, ring_slot. set (i := (length F mod 8)%nat).
  destruct (Z.ltb_spec 4096 (Z.of_nat (NET_HDR + length f))) as [|_]; [unfold NET_HDR in *; lia|].
  apply wp_bind, wp_modify, wp_bind, wp_gets, wp_bind, wp_modify, wp_bind, wp_gets. cbn [vars shared board].
  assert (i < 8)%nat as Hi by (apply Nat.mod_upper_bound; lia).
  match goal with |- wp _ _ ?t => set (s1 := t) end.
  assert (tx_ok (F ++ [f]) C s1) as H1.
  { subst s1. unfold tx_ok. fields. rewrite !length_insert, length_alter, Hd, Hr, Hav, ring_slot, index_S, length_app. cbn [length].
    replace (length F + 1)%nat with (S (length F)) by lia. fold i. split_and!; try done; [lia|by rewrite take_app_le| | |].
    - by rewrite db_pa_alter.
    - apply Forall_alter; [done|]. intros b Hbi Hbl. unfold NET_HDR in *.
      assert (length (db_bytes (fill 0 (replicate 12 0) b)) = PAGE) as Hb0 by (rewrite length_fill; [done|rewrite length_replicate; lia]).
      rewrite length_fill; [exact Hb0|]. etrans; [|apply Nat.eq_le_incl; symmetry; exact Hb0]. lia.
    - intros k g Hk' Hg. apply lookup_app_Some in Hg as [Hg|[Hge Hg]].
      + assert (k mod 8 ≠ i)%nat as Hne by (apply lookup_lt_Some in Hg; apply mod_apart; lia).
        destruct (HF k g Hk' Hg) as (b & ? & ? & ? & ?). exists b. by rewrite list_lookup_alter_ne, !list_lookup_insert_ne.
      + assert (k = length F) as -> by (apply list_lookup_singleton_Some in Hg; lia). apply list_lookup_singleton_Some in Hg as [_ <-]. fold i.
        rewrite list_lookup_alter_eq, !list_lookup_insert_eq by lia. destruct (lookup_lt_is_Some_2 (nm_txb (shared s)) i ltac:(lia)) as [b Hbi].
        rewrite Hbi. cbn [fmap option_fmap option_map]. eexists. split; [done|]. split; [|split; [|done]].
        * apply take_fill.
        * erewrite nth_some; [done|]. by rewrite list_lookup_alter_eq, Hbi. }
  apply (wp_bell s1); [exact Hdev|]. unfold bell. destruct H1 as (HC1 & Hrest). pose proof Hrest as (_ & Hav1 & Htx1 & _).
  rewrite Hav1, Htx1, index_sub, Nat2Z.id by (rewrite ?length_app in *; cbn [length] in *; lia).
  match goal with |- context [send_some ?n _ _] => pose proof (send_some_ok n (F ++ [f]) C s1 (conj HC1 Hrest)) as Hsend; destruct (send_some n _ _) as [m2 w2] end.
  destruct Hsend as (C' & HCC & Hlag & Htx' & Hkeep); [rewrite length_app; cbn [length]; lia|]. split_and!; [|exact Hkeep|done|done].
  exists C'. split; [done|]. change (nc_lag (board s1)) with (nc_lag (board s)) in Hlag. lia.
Qed.
Lemma transmit_all_ok l : ∀ F C (s : drv),
  tx_ok F C s → (length F - C <= nc_lag (board s))%nat → (nc_lag (board s) <= 7)%nat → Forall (λ f, (length f <= Z.to_nat 4084)%nat) l → net_dev (vars s) = 0%nat →
  wp (transmit_all l) (λ _ s', (∃ C', tx_ok (F ++ l) C' s' ∧ (length (F ++ l) - C' <= nc_lag (board s))%nat) ∧ keeps_rx s s' ∧
    proto (vars s') = proto (vars s) ∧ answered (vars s') = answered (vars s)) s.
Proof.
  induction l as [|f l IH]; intros F C s Hs Hl Hlag Hf Hdev; cbn [transmit_all].
  - apply wp_ret. rewrite app_nil_r. split; [by exists C|done].
  - apply list.Forall_cons in Hf as [Hf Hfs]. apply wp_bind. eapply wp_mono; [apply (transmit_ok F C f s Hs); [lia|done|done]|].
    intros _ s1 ((C1 & Hs1 & Hl1) & Hk1 & Hp1 & Ha1). pose proof Hk1 as (_ & _ & _ & Hd1 & _ & _ & _ & Hg1).
    eapply wp_mono; [apply (IH (F ++ [f]) C1 s1 Hs1); [by rewrite Hg1|by rewrite Hg1|done|by rewrite Hd1]|].
    intros _ s2 ((C2 & Hs2 & Hl2) & Hk2 & Hp2 & Ha2). rewrite <- app_assoc in Hs2, Hl2. cbn [app] in Hs2, Hl2. rewrite Hg1 in Hl2. split; [by exists C2|].
    split; [by eapply keeps_rx_trans|]. split; congruence.
Qed.

(** ** The protocols' side *)

Definition tx_side (σ : on_wire N) (s : drv) : Prop :=
  net_dev (vars s) = 0%nat ∧ (nc_lag (board s) <= 7)%nat ∧ proto (vars s) = ow_n σ ∧ answered (vars s) = ow_said σ ∧ p_ok (ow_n σ) ∧
  ∃ C, tx_ok (ow_out σ) C s ∧ (length (ow_out σ) - C <= nc_lag (board s))%nat.
Lemma tx_side_wait n ws ws' out said s : tx_side (mkOnWire n ws out said) s → tx_side (mkOnWire n ws' out said) s.
Proof. done. Qed.
Lemma up_ok {A} (m : prog N A) a σ σ' (s : drv) :
  (∀ n n' a, p_ok n → m n = Some (a, n') → p_ok n') →
  tx_side σ s → spec_up m σ = Some (a, σ') → wp (up m) (λ x s', x = a ∧ tx_side σ' s' ∧ keeps_rx s s') s.
Proof.
  intros Hm (Hdev & Hlag & Hp & Ha & Hok & C & Htx & Hl) Hspec. unfold spec_up in Hspec. unfold up. apply wp_bind, wp_gets. rewrite Hp.
  destruct (m (p_clear (ow_n σ))) as [[x n']|] eqn:E; [|done]. injection Hspec as -> <-.
  assert (p_ok n') as Hok' by (eapply Hm; [by apply p_clear_ok|exact E]).
  apply wp_bind, wp_modify, wp_bind. match goal with |- wp _ _ ?t => eapply (wp_mono _ _ _ t); [exact (transmit_all_ok _ (ow_out σ) C t Htx Hl Hlag (p_fits _ Hok') Hdev)|] end.
  intros _ s' (Hs' & Hk & Hp' & Ha'). apply wp_ret. split; [done|]. split; [|exact Hk]. destruct Hk as (_ & _ & _ & Hd & _ & _ & _ & Hg). cbn [board vars] in *.
  unfold tx_side. cbn [ow_n ow_out ow_said]. rewrite Hd, Hg, Hp', Ha'. by split_and!.
Qed.

(** ** The queue of frames that came in *)

(** The buffers go round: entry [k] of the card's work is buffer [k mod 4].
    The driver has taken [L] frames, and [ws] wait for it. *)
Definition rx_ok (ws : list (list Z)) (L : nat) (s : drv) : Prop :=
  let q := nm_rx (shared s) in
  let bs := nm_rxb (shared s) in
  rx_last (vars s) = u16 (Z.of_nat L) ∧ av_idx q = u16 (Z.of_nat (L + 4)) ∧ us_idx q = u16 (Z.of_nat (L + length ws)) ∧
  nc_rx (board s) = u16 (Z.of_nat (L + length ws)) ∧ (length ws <= 4)%nat ∧ length (av_ring q) = 8%nat ∧ length (us_ring q) = 8%nat ∧
  length bs = 4%nat ∧ NoDup (db_pa <$> bs) ∧ Forall (λ b, length (db_bytes b) = PAGE) bs ∧ knows (board s) 0 q = true ∧
  (∀ i b, bs !! i = Some b → q_desc q !! i = Some (mkDesc (db_pa b) RX_LEN VIRTQ_DESC_F_WRITE 0)) ∧
  (∀ k, (L <= k < L + 4)%nat → av_ring q !! (k mod 8)%nat = Some (Z.of_nat (k mod 4))) ∧
  (∀ j f, ws !! j = Some f → (length f <= 2036)%nat ∧ Forall byte_ok f ∧
     us_ring q !! ((L + j) mod 8)%nat = Some (Z.of_nat ((L + j) mod 4), Z.of_nat (NET_HDR + length f)) ∧
     ∃ b, bs !! ((L + j) mod 4)%nat = Some b ∧ take (length f) (drop NET_HDR (db_bytes b)) = f).
(** Nothing of the sending side has changed. *)
Definition keeps_tx (s s' : drv) : Prop :=
  nm_tx (shared s') = nm_tx (shared s) ∧ nm_txb (shared s') = nm_txb (shared s) ∧ tx_next (vars s') = tx_next (vars s) ∧
  net_dev (vars s') = net_dev (vars s) ∧ nc_tx (board s') = nc_tx (board s) ∧ nc_out (board s') = nc_out (board s) ∧
  reg_of (board s') VIRTIO_STATUS = reg_of (board s) VIRTIO_STATUS ∧ nc_qreg (board s') = nc_qreg (board s) ∧ nc_lag (board s') = nc_lag (board s) ∧
  proto (vars s') = proto (vars s) ∧ answered (vars s') = answered (vars s).
Lemma tx_side_keeps σ s s' : keeps_tx s s' → tx_side σ s → tx_side σ s'.
Proof. intros (H1 & H2 & H3 & H4 & H5 & H6 & H7 & H8 & H9 & H10 & H11). unfold tx_side, tx_ok, knows, qreg_of. by rewrite H1, H2, H3, H4, H5, H6, H7, H8, H9, H10, H11. Qed.
Lemma rx_ok_keeps ws L s s' : keeps_rx s s' → rx_ok ws L s → rx_ok ws L s'.
Proof. intros (H1 & H2 & H3 & H4 & H5 & H6 & H7 & H8). unfold rx_ok, knows, qreg_of. by rewrite H1, H2, H3, H5, H6, H7. Qed.

Lemma take_drop_fill f b : take (length f) (drop NET_HDR (db_bytes (fill 0 (hdr ++ f) b))) = f.
Proof.
  unfold fill. cbn [db_bytes]. change (take 0 (db_bytes b)) with (@nil Z). rewrite app_nil_l, <- app_assoc, (drop_app_length' hdr) by done.
  by apply take_app_length'.
Qed.
Lemma card_gets_ok f ws L (s : drv) :
  rx_ok ws L s → (length f <= 2036)%nat → Forall byte_ok f →
  let '(m, w) := card_gets f (shared s) (board s) in rx_ok (take 4 (ws ++ [f])) L (mkVst (vars s) m w) ∧ keeps_tx s (mkVst (vars s) m w).
Proof.
  intros Hrx Hf Hfb. pose proof Hrx as (Hl & Hav & Hus & Hrx' & Hws & Hr & Hu & Hb & Hnd & Hby & Hk & Hdesc & Hring & Hwait).
  unfold card_gets. rewrite Hk, Hrx', Hav. cbn [negb orb]. destruct (decide (length ws = 4)%nat) as [E|E].
  { rewrite E, Z.eqb_refl. rewrite take_app_length' by done. destruct s. by split; [|split_and!]. }
  rewrite index_ne by lia. rewrite take_ge by (rewrite length_app; cbn [length]; lia).
  set (k := (L + length ws)%nat). set (i := (k mod 4)%nat). assert (i < 4)%nat as Hi by (apply Nat.mod_upper_bound; lia).
  destruct (lookup_lt_is_Some_2 (nm_rxb (shared s)) i ltac:(lia)) as [b Hbi].
  unfold entry_at. rewrite ring_slot, (nth_some _ _ _ _ (Hring k ltac:(lia))), Nat2Z.id, (nth_some _ _ _ _ (Hdesc i b Hbi)). cbn [d_addr d_len d_flags].
  rewrite (buf_at_lookup _ _ _ Hnd Hbi). change (VIRTQ_DESC_F_WRITE =? VIRTQ_DESC_F_WRITE) with true. cbn [negb orb].
  destruct (Z.ltb_spec RX_LEN (Z.of_nat (NET_HDR + length f))); [unfold RX_LEN, NET_HDR in *; lia|].
  split; [|by split_and!]. unfold rx_ok, use. fields. rewrite Hus, ring_slot, !index_S, length_app, !length_insert, length_alter. cbn [length].
  replace (L + (length ws + 1))%nat with (S (L + length ws)) by lia. fold k. split_and!; try done; [lia|by rewrite db_pa_alter| | |].
  - apply Forall_alter; [done|]. intros b' _ Hbl. rewrite length_fill; [done|]. rewrite length_app, length_replicate. unfold NET_HDR. lia.
  - intros j b' Hj. destruct (decide (i = j)) as [<-|Hne].
    + rewrite list_lookup_alter_eq, Hbi in Hj. injection Hj as <-. cbn [fill db_pa]. by apply Hdesc.
    + rewrite list_lookup_alter_ne in Hj by done. by apply Hdesc.
  - intros j g Hg. apply lookup_app_Some in Hg as [Hg|[Hge Hg]].
    + destruct (Hwait j g Hg) as (? & ? & Hur & b' & Hb' & Htk). apply lookup_lt_Some in Hg.
      assert ((L + j) mod 8 ≠ k mod 8)%nat by (apply mod_apart; lia). assert ((L + j) mod 4 ≠ i)%nat by (apply mod_apart; lia).
      rewrite list_lookup_insert_ne, list_lookup_alter_ne by done. split_and!; try done. by exists b'.
    + apply list_lookup_singleton_Some in Hg as [Hj <-]. assert (j = length ws) as -> by lia. fold k. fold i.
      rewrite list_lookup_insert_eq, list_lookup_alter_eq, Hbi by (rewrite Hu; apply Nat.mod_upper_bound; lia).
      split_and!; try done. eexists. split; [done|]. apply take_drop_fill.
Qed.

(** ** The receive loop *)

Definition linked (σ : on_wire N) (s : drv) : Prop := tx_side σ s ∧ ∃ L, rx_ok (ow_wait σ) L s.

Lemma recycle_ok ws L (s : drv) f :
  net_dev (vars s) = 0%nat → rx_ok (f :: ws) L (mkVst ((vars s) <| rx_last := u16 (Z.of_nat L) |>) (shared s) (board s)) → rx_last (vars s) = u16 (Z.of_nat (S L)) →
  wp (rx_recycle (Z.of_nat (L mod 4))) (λ _ s', rx_ok ws (S L) s' ∧ keeps_tx s s') s.
Proof.
  intros Hdev (_ & Hav & Hus & Hrx & Hws & Hr & Hu & Hb & Hnd & Hby & Hk & Hdesc & Hring & Hwait) Hlast.
  unfold rx_recycle. apply wp_bind, wp_modify, wp_bind, wp_gets. cbn [vars]. rewrite Hdev. unfold wp, wr.
  cbn [mmio_wr ncard_board Nat.eqb negb]. change (VIRTIO_QUEUE_NOTIFY =? VIRTIO_QUEUE_NOTIFY) with true. change (u32 0 =? 1) with false. cbv iota.
  split; [|by split_and!]. unfold rx_ok. revert Hav Hus Hrx Hws Hr Hu Hb Hnd Hby Hk Hdesc Hring Hwait. fields. cbn [length]. intros.
  rewrite Hav, index_S, ring_slot, length_insert. replace (S L + length ws)%nat with (L + S (length ws))%nat by lia.
  split_and!; try done; [lia| |].
  - intros k Hk'. destruct (decide (k = L + 4)%nat) as [->|Hne].
    + rewrite list_lookup_insert_eq by (rewrite Hr; apply Nat.mod_upper_bound; lia). do 2 f_equal. replace (L + 4)%nat with (L + 1 * 4)%nat by lia. by rewrite Nat.Div0.mod_add.
    + rewrite list_lookup_insert_ne by (apply not_eq_sym, mod_apart; lia). apply Hring. lia.
  - intros j g Hg. replace (S L + j)%nat with (L + S j)%nat by lia. by apply (Hwait (S j)).
Qed.
Lemma drain_ok ws : ∀ n σ σ' (s : drv),
  ow_wait σ = ws → linked σ s → (length ws < n)%nat → spec_drain ws σ = Some ((), σ') → wp (drain_rx n) (λ _ s', linked σ' s') s.
Proof.
  induction ws as [|f ws IH]; intros [|n] σ σ' s Hw [Htx [L Hrx]] Hn Hspec; cbn [length] in Hn; try lia; rewrite Hw in Hrx; cbn [drain_rx].
  all: pose proof Hrx as (Hl & Hav & Hus & Hrx' & Hws & Hr & Hu & Hb & Hnd & Hby & Hk & Hdesc & Hring & Hwait).
  all: apply wp_bind, wp_gets, wp_bind, wp_gets; rewrite Hus, Hl.
  - replace (L + length [])%nat with L by (cbn; lia). rewrite Z.eqb_refl. injection Hspec as <-. apply wp_ret. split; [done|]. exists L. by rewrite Hw.
  - rewrite Z.eqb_sym, index_ne by (cbn [length] in *; lia). apply wp_bind, wp_gets. rewrite ring_slot.
    destruct (Hwait 0%nat f eq_refl) as (Hf & Hfb & Hur & b & Hbi & Htake). rewrite Nat.add_0_r in Hur, Hbi. rewrite (nth_some _ _ _ _ Hur). cbn [fst snd].
    assert (L mod 4 < 4)%nat as HL4 by (apply Nat.mod_upper_bound; lia).
    rewrite (u16_small (Z.of_nat (L mod 4))) by lia. rewrite i32_small by (unfold NET_HDR; lia).
    replace (Z.of_nat (NET_HDR + length f) - Z.of_nat NET_HDR) with (Z.of_nat (length f)) by lia.
    apply wp_bind, wp_modify, wp_bind, wp_gets. fields. rewrite !Nat2Z.id, Hbi, Htake.
    cbn [spec_drain] in Hspec. destruct (spec_up (p_input f) σ) as [[[] σ1]|] eqn:Hup; [|by rewrite (pbind_none _ _ _ Hup) in Hspec].
    rewrite (pbind_eq _ _ _ _ _ Hup) in Hspec. match goal with |- wp _ _ ?t => set (s1 := t) end.
    apply wp_bind. eapply wp_mono; [apply (up_ok (p_input f) () σ σ1 s1); [|exact Htx|exact Hup]|].
    { intros n0 n' [] H1 H2. by eapply p_input_ok. }
    intros _ s2 (_ & Htx2 & Hk2). apply wp_bind.
    eapply wp_mono; [apply (recycle_ok ws L s2 f); [by apply Htx2| |]|].
    + eapply rx_ok_keeps; [|exact Hrx]. destruct Hk2 as (? & ? & ? & ? & ? & ? & ? & ?). subst s1. cbn [shared vars board] in *. by split_and!.
    + destruct Hk2 as (_ & _ & Hr2 & _). rewrite Hr2. apply index_S.
    + intros _ s3 [Hrx3 Hk3]. eapply (IH n (mkOnWire (ow_n σ1) ws (ow_out σ1) (ow_said σ1))); [done| |lia|exact Hspec].
      split; [|by exists (S L)]. destruct σ1 as [n1 w1 o1 a1]. by eapply tx_side_keeps.
Qed.
Lemma linked_same σ (s s' : drv) : keeps_rx s s' → keeps_tx s s' → linked σ s → linked σ s'.
Proof. intros Hr Ht [Htx [L Hrx]]. split; [by eapply tx_side_keeps|]. exists L. by eapply rx_ok_keeps. Qed.
Lemma linked_up {A} (m : prog N A) a σ σ' (s : drv) :
  (∀ n n' a, p_ok n → m n = Some (a, n') → p_ok n') →
  linked σ s → spec_up m σ = Some (a, σ') → wp (up m) (λ x s', x = a ∧ linked σ' s') s.
Proof.
  intros Hm [Htx [L Hrx]] Hspec. eapply wp_mono; [by eapply up_ok|]. intros x s' (-> & Htx' & Hk). split; [done|]. split; [done|].
  exists L. unfold spec_up in Hspec. destruct (m _) as [[y n']|]; [|done]. injection Hspec as _ <-. by eapply rx_ok_keeps.
Qed.
Lemma net_ev_ok e σ σ' (s : drv) :
  ev_ok e → linked σ s → spec_ev e σ = Some ((), σ') → wp (nic_ev_run e) (λ _ s', linked σ' s') s.
Proof.
  intros He Hs Hspec. destruct e as [f|k|from r]; cbn [nic_ev_run spec_ev] in *.
  - injection Hspec as <-. destruct He as [Hf Hfb]. destruct Hs as [Htx [L Hrx]]. unfold wp.
    pose proof (card_gets_ok f _ L s Hrx Hf Hfb) as Hg. destruct (card_gets f _ _) as [m w]. destruct Hg as [Hg Hk]. split; [|by exists L].
    destruct σ. by eapply tx_side_keeps.
  - injection Hspec as <-. destruct Hs as [(Hdev & Hlag & Hp & Ha & Hok & C & Htx & Hl) [L Hrx]]. unfold wp.
    pose proof (send_some_ok k _ C s Htx ltac:(lia)) as Hs. destruct (send_some k _ _) as [m w]. destruct Hs as (C' & HC & HC' & Htx' & Hk).
    split; [|exists L; by eapply rx_ok_keeps]. destruct Hk as (_ & _ & _ & _ & _ & _ & _ & Hlg). split_and!; try done; cbn [board vars] in *; [by rewrite Hlg|].
    exists C'. split; [done|]. cbn [board]. rewrite Hlg. lia.
  - unfold net_turn. destruct (from =? IRQ_SENDER).
    { cbn [pbind gets] in Hspec. change (spec_drain (ow_wait σ) σ = Some ((), σ')) in Hspec.
      apply wp_bind, wp_gets, wp_bind, wp_gets, wp_bind. destruct Hs as [Htx [L Hrx]]. rewrite (proj1 Htx). unfold wp at 1, wr. cbn [mmio_wr ncard_board Nat.eqb negb].
      change (VIRTIO_INT_ACK =? VIRTIO_QUEUE_NOTIFY) with false. change (VIRTIO_INT_ACK =? VIRTIO_STATUS) with false. change (queue_reg VIRTIO_INT_ACK) with false. cbn [andb].
      match goal with |- wp _ _ ?t => assert (linked σ t) as Hs by (apply (linked_same σ s t); [by split_and!|by split_and!|split; [done|by exists L]]) end.
      apply wp_bind. eapply wp_mono; [apply (drain_ok (ow_wait σ) DRAIN σ σ' _ eq_refl Hs); [|done]|].
      - unfold DRAIN. destruct Hrx as (_ & _ & _ & _ & Hw & _). lia.
      - intros [] s2 Hs2. apply wp_modify. eapply linked_same; [| |exact Hs2]; by split_and!. }
    destruct (from =? TIMER_SENDER).
    { eapply wp_mono; [eapply linked_up; [|exact Hs|exact Hspec]|by intros [] s' [_ ?]]. intros n n' []. apply p_timeout_ok. }
    destruct (spec_up (p_vfs from r) σ) as [[x σ1]|] eqn:Hup; [|by rewrite (pbind_none _ _ _ Hup) in Hspec].
    rewrite (pbind_eq _ _ _ _ _ Hup) in Hspec. apply wp_bind. eapply wp_mono; [eapply linked_up; [|exact Hs|exact Hup]|].
    { intros n n' y. apply p_vfs_ok. }
    intros y s1 [-> [Htx [L Hrx]]]. destruct x as [r'|]; injection Hspec as <-; [|apply wp_ret; split; [done|by exists L]].
    apply wp_modify. split; [|exists L; eapply rx_ok_keeps; [|exact Hrx]; by split_and!].
    destruct Htx as (? & ? & ? & Ha & ? & C & ? & ?). split_and!; try done; [cbn; by rewrite Ha|]. by exists C.
Qed.
Lemma nic_run_ok l : ∀ σ σ' (s : drv),
  Forall ev_ok l → linked σ s → spec_run l σ = Some ((), σ') → wp (nic_run l) (λ _ s', linked σ' s') s.
Proof.
  induction l as [|e l IH]; intros σ σ' s Hl Hs Hspec; cbn [nic_run spec_run] in *.
  - injection Hspec as <-. by apply wp_ret.
  - apply list.Forall_cons in Hl as [He Hl]. destruct (spec_ev e σ) as [[[] σ1]|] eqn:E; [|by rewrite (pbind_none _ _ _ E) in Hspec].
    rewrite (pbind_eq _ _ _ _ _ E) in Hspec. apply wp_bind. eapply wp_mono; [by eapply net_ev_ok|]. intros [] s1 Hs1. by eapply IH.
Qed.

(** ** From power on *)

Definition card_mac_0 : list Z := [82; 84; 0; 18; 52; 86].
Ltac setup_step := erewrite pbind_eq; [|cbv -[zero_dbuf]; reflexivity]; cbn [negb].
Lemma net_setup_state n0 lag :
  ∃ s0 : drv, net_setup (net_off n0 (card_off lag 14)) = (let* _ := up p_start in pret true) s0 ∧
    ((lag <= 7)%nat → linked (mkOnWire (p_boot card_mac_0) [] [] []) s0).
Proof.
  eexists. split.
  { unfold net_setup. setup_step. erewrite pbind_eq; [|reflexivity]. do 7 setup_step.
    erewrite pbind_eq; [|reflexivity]. reflexivity. }
  intros Hlag. split.
  - split_and!; try done; [by apply p_boot_ok|]. exists 0%nat. split; [|cbn; lia]. split_and!; try done.
    + apply (bool_decide_unpack _). vm_compute. exact I.
    + repeat constructor; unfold zero_dbuf; cbn [db_bytes]; apply length_replicate.
  - exists 0%nat. split_and!; try done.
    + cbn. lia.
    + apply (bool_decide_unpack _). vm_compute. exact I.
    + repeat constructor; unfold zero_dbuf; cbn [db_bytes]; apply length_replicate.
    + intros i b Hi. do 4 (destruct i as [|i]; [injection Hi as <-; reflexivity|]). done.
    + intros k Hk. do 4 (destruct k as [|k]; [reflexivity|]). lia.
Qed.

(** C40: The network driver is a wire between the protocols and the card: from
    power on, whatever frames come in and whenever interrupts, timeouts and
    requests of programs arrive, with a card that never leaves more than
    seven frames behind, the server behaves as the protocols alone would:
    they get the frames the card has taken in, in order and once, every
    answer is the protocols' answer, and the card has sent the frames they
    handed down, in order, but for the last seven at most. *)
Theorem driver_is_a_wire lag n0 l σ :
  (lag <= 7)%nat → Forall ev_ok l →
  (let* _ := spec_start in spec_run l) (mkOnWire (p_boot card_mac_0) [] [] []) = Some ((), σ) →
  wp (let* ok := net_setup in if ok : bool then nic_run l else diverge)
    (λ _ s, proto (vars s) = ow_n σ ∧ answered (vars s) = ow_said σ ∧
       ∃ rest, map (app hdr) (ow_out σ) = nc_out (board s) ++ rest ∧ (length rest <= 7)%nat)
    (net_off n0 (card_off lag 14)).
Proof.
  intros Hlag Hl Hspec.
  destruct (spec_start (mkOnWire (p_boot card_mac_0) [] [] [])) as [[[] σ1]|] eqn:Hst; [|exfalso; rewrite (pbind_none _ _ _ Hst) in Hspec; discriminate Hspec].
  rewrite (pbind_eq _ _ _ _ _ Hst) in Hspec. apply wp_bind. apply (wp_mono _ (λ ok s, ok = true ∧ linked σ1 s)).
  - destruct (net_setup_state n0 lag) as (s0 & Hset & Hs0). specialize (Hs0 Hlag). unfold wp at 1. rewrite Hset. clear Hset.
    apply wp_bind. eapply wp_mono; [eapply linked_up; [|exact Hs0|exact Hst]|]; [intros n n' []; apply p_start_ok|].
    intros [] s1 [_ Hs1]. by apply wp_ret.
  - intros ok s1 [-> Hs1]. eapply wp_mono; [by eapply nic_run_ok|]. intros [] s [(_ & H7 & Hp & Ha & _ & C & Htx & HC) _].
    split_and!; [done|done|]. destruct Htx as (_ & _ & _ & _ & Hout & _). exists (map (app hdr) (drop C (ow_out σ))).
    split; [by rewrite Hout, <- map_app, take_drop|]. rewrite length_map, length_drop. lia.
Qed.
End proofs.

(** ** The network server on its card (srv_net.c over net_ip.c)

    The protocols of net_ip.c are what the driver needs: the invariant of
    NetInv.v says that their frames fit.  And what becomes of a card that
    falls behind. *)

Section stack.
Context (doc conf : list Z).
Definition net_protocols : Protocols net := {|
  p_boot mac := net_boot mac [10; 0; 2; 15] 0;
  p_clear n := n <| wire := [] |>;
  p_wire := wire;
  p_start := net_start;
  p_input := net_input;
  p_timeout := net_timeout;
  p_vfs := net_vfs doc conf |}.
#[local] Existing Instance net_protocols.
Lemma net_protocol_laws : ProtocolLaws net.
Proof.
  refine {| p_ok := net_inv |}.
  - intros mac Hmac. by apply boot_inv.
  - intros n []. by split.
  - intros n n' Hn E. exact (keeps_step _ _ _ _ kept_net_start Hn E).
  - intros f n n' Hf Hn E. exact (keeps_step _ _ _ _ (kept_net_input f Hf) Hn E).
  - intros n n' Hn E. exact (keeps_step _ _ _ _ kept_timeout Hn E).
  - intros from r n x n' Hn E. exact (keeps_step _ _ _ _ (kept_net_vfs doc conf from r) Hn E).
  - intros n [_ _ _ _ _ _ _ _ Hw]. eapply Forall_impl; [|exact Hw]. cbv beta. unfold OUT_MAX. intros f Hf. lia.
Qed.
End stack.

(** ** A card that falls behind *)

(** Nothing above the driver. *)
#[export] Instance no_protocols : Protocols () :=
  {| p_boot _ := (); p_clear n := n; p_wire _ := []; p_start := pret (); p_input _ := pret (); p_timeout := pret (); p_vfs _ _ := pret None |}.
(** The driver never looks whether a transmit buffer has been sent: with nine
    frames under way the first is overwritten by the ninth, which is sent
    twice. *)
Theorem ninth_frame_overwrites_the_first :
  ((let* _ := net_setup in
    let* _ := transmit_all (map (λ k, [k]) [1; 2; 3; 4; 5; 6; 7; 8; 9]) in
    let* _ := nic_ev_run (CardSends 9) in
    gets (λ s, nc_out (board s))) (net_off () (card_off 9 14))) ≫= (λ x, Some x.1) =
  Some (map (λ k, hdr ++ [k]) [9; 2; 3; 4; 5; 6; 7; 8; 9]).
Proof. vm_compute. reflexivity. Qed.

(** The gateway answers the server's first question, and the server calls. *)
#[local] Instance quiet_stack : Protocols net := net_protocols [] [].
#[local] Instance quiet_laws : ProtocolLaws net := net_protocol_laws [] [].
Definition first_frames : list nic_ev := [CardGets arp_answer; Turn IRQ_SENDER (mkReq 0 0 [] 0 0 0 []); CardSends 1].
Lemma driver_is_a_wire_witness :
  ∃ σ, (let* _ := spec_start in spec_run first_frames) (mkOnWire (p_boot card_mac_0) [] [] []) = Some ((), σ) ∧
    map length (ow_out σ) = [42; 42; 67]%nat ∧
    wp (let* ok := net_setup in if ok : bool then nic_run first_frames else diverge)
      (λ _ s, ∃ rest, map (app hdr) (ow_out σ) = nc_out (board s) ++ rest ∧ (length rest <= 7)%nat)
      (net_off (p_boot card_mac_0) (card_off 7 14)).
Proof.
  assert (∃ σ, (let* _ := spec_start in spec_run first_frames) (mkOnWire (p_boot card_mac_0) [] [] []) = Some ((), σ) ∧
    map length (ow_out σ) = [42; 42; 67]%nat) as (σ & H1 & H2) by (eexists; split; [vm_compute; reflexivity|reflexivity]).
  exists σ. split; [exact H1|]. split; [exact H2|].
  eapply wp_mono; [apply (driver_is_a_wire 7 (p_boot card_mac_0) first_frames σ); [lia| |exact H1]|].
  - constructor; [split; [vm_compute; lia|]|repeat constructor]. apply (bool_decide_unpack _). vm_compute. exact I.
  - intros _ s (_ & _ & H). exact H.
Defined.
