(* ===== verification/Utils.v ===== *)
(** * Programs that measure and serve (src/prog: ps, free, ping, netd, get)

    Each program is what its [_start] does with the arguments after its name,
    up to [sys_exit]. *)
From stdpp Require Import base list numbers option.
From S2P Require Import Prelude Mem FsProto Req Client Progs Export Import.
Local Open Scope Z_scope.

(** The clock, in ticks of 100 ns, and the pages: free and in all. *)
Class Gauges (W : Type) := { pticks : prog W Z; pages_of : prog W (Z * Z) }.
Definition DEFAULT_COUNT : Z := 1000.

(** netd's buffers: two digits of a slot at most. *)
Definition two_digits (slot : Z) : list Z := (if 10 <=? slot then [u8 (48 + slot / 10)] else []) ++ [48 + slot mod 10].
Definition conn_path (slot : Z) : list Z := str "/net/tcp/" ++ two_digits slot.
Fixpoint strip_end (l : list Z) : list Z :=
  match l with
  | [] => []
  | c :: l' => match strip_end l' with [] => if (c =? 10) || (c =? 13) then [] else [c] | t => c :: t end
  end.
(** [append] into a buffer of that size. *)
Definition in_buffer {S} (cap : Z) (t : list Z) : prog S (list Z) := if cap <=? Z.of_nat (length t) then diverge else pret t.

Section utils.
Context {W : Type} `{World W} `{Gauges W}.
Context (junk : vfs_req) (stack : list Z) (fuel : nat).
Abbreviation say := (vfs_say junk fuel).
Abbreviation complain := (err junk fuel).
Abbreviation number := (sayn junk fuel).

(** [err] with no path. *)
Definition complain_only (who what : list Z) : prog (client W) () :=
  let* _ := say who in let* _ := say (str ": ") in let* _ := say what in say [10].
Definition ps : prog (client W) () :=
  let* f := calls (vfs_open junk (str "/proc/tasks")) in
  if f <? 0 then complain_only (str "ps") (str "no /proc/tasks")
  else
    let* _ := each_chunk junk fuel f (λ _ d, say (cstr d)) () in
    let* _ := calls (vfs_close junk f) in pret ().
Definition free : prog (client W) () :=
  let* (avail, total) := calls pages_of in
  let* _ := say (str "free ") in
  let* _ := number (u64 avail) in
  let* _ := say (str " of ") in
  let* _ := number (u64 total) in
  let* _ := say (str " pages (") in
  let* _ := number (u64 (u64 avail * 4)) in
  say (str " KiB free)" ++ [10]).

(** ** ping *)

Definition report (what : list Z) (ticks count : Z) : prog (client W) () :=
  let* _ := say what in
  let* _ := say (str ": ") in
  let ns := u64 (ticks * 100) / u64 count in
  let* _ := number (ns / 1000) in
  let* _ := say (str ".") in
  let frac := ns mod 1000 / 10 in
  let* _ := (if frac <? 10 then say (str "0") else pret ()) in
  let* _ := number frac in
  let* _ := say (str " us per round trip  (") in
  let* _ := number (u64 count) in
  let* _ := say (str " of them in ") in
  let* _ := number (ticks / 10000) in
  say (str " ms)" ++ [10]).
(** [n] pings; whether all of them were answered. *)
Fixpoint pings (n : nat) (path : list Z) : prog W bool :=
  match n with
  | O => pret true
  | S n' => let* r := vfs_ioctl_path junk path IOCTL_PING in if r <? 0 then pret false else pings n' path
  end.
Fixpoint opens (n : nat) (path : list Z) : prog W bool :=
  match n with
  | O => pret true
  | S n' => let* f := vfs_open junk path in if f <? 0 then pret false else let* _ := vfs_close junk f in opens n' path
  end.
Definition ping_count (args : list (list Z)) : Z :=
  match args with
  | _ :: c :: _ => let n := (digits i32 c 0).1 in if n <? 1 then 1 else n
  | _ => DEFAULT_COUNT
  end.
Definition ping (args : list (list Z)) : prog (client W) () :=
  let path := match args with p :: _ => p | [] => str "/" end in
  let count := ping_count args in
  let* r := calls (vfs_ioctl_path junk path IOCTL_PING) in
  if r <? 0 then complain (str "ping") (str "no answer from") path
  else
    let* _ := say (str "ping ") in let* _ := say path in let* _ := say [10] in
    let* t0 := calls pticks in
    let* ok := calls (pings (Z.to_nat count) path) in
    if negb ok then complain (str "ping") (str "stopped answering:") path
    else
      let* t1 := calls pticks in
      let* _ := report (str "  ioctl") (u64 (t1 - t0)) count in
      let* t0 := calls pticks in
      let* ok := calls (opens (Z.to_nat count) path) in
      let* t1 := calls pticks in
      if ok : bool then report (str "  open+close") (u64 (t1 - t0)) count
      else say (str "  open+close: that name cannot be opened" ++ [10]).

(** ** netd *)

(** Everything that is read from the connection is written to it. *)
Definition echo_back (f : Z) : prog (client W) () :=
  each_chunk junk fuel f (λ _ d, let* _ := calls (vfs_write junk f d) in pret ()) ().
Fixpoint netd_loop (n : nat) (lslot : Z) : prog (client W) () :=
  match n with
  | O => diverge
  | S n' =>
      let* a := calls (ctl junk (str "accept " ++ two_digits lslot) 64) in
      match a ≫= slot_of with
      | None => say (str "  [netd] stopping" ++ [10])
      | Some slot =>
          let* f := calls (vfs_open junk (conn_path slot)) in
          if f <? 0 then netd_loop n' lslot
          else
            let* _ := say (str "  [netd] a caller, on ") in let* _ := say (conn_path slot) in let* _ := say [10] in
            let* _ := calls (vfs_write junk f (str "rvos: netd here. type something and I will send it back." ++ [10])) in
            let* _ := echo_back f in
            let* _ := say (str "  [netd] caller hung up" ++ [10]) in
            let* _ := calls (vfs_close junk f) in
            netd_loop n' lslot
      end
  end.
Definition netd : prog (client W) () :=
  let* a := calls (ctl junk (str "listen 7") 64) in
  match a with
  | None => say (str "  [netd] /net/ctl refused to listen" ++ [10])
  | Some t =>
      match slot_of t with
      | None => let* _ := say (str "  [netd] listen: ") in say t
      | Some lslot =>
          let* _ := say (str "  [netd] listening on port 7; try nc localhost 5555 from the host" ++ [10]) in
          netd_loop fuel lslot
      end
  end.

(** ** get *)

(** One command, one answer without the end of its line. *)
Definition get_ctl (cmd : list Z) : prog W (option (list Z)) :=
  let* f := vfs_open junk (str "/net/ctl") in
  if f <? 0 then pret None
  else
    let* k := vfs_write junk f cmd in
    if k <? 0 then let* _ := vfs_close junk f in pret None
    else
      let* (n, d) := vfs_read junk f 79 in
      let* _ := vfs_close junk f in
      pret (if n <=? 0 then None else Some (cstr (strip_end d))).
(** Say the answer, the last one there was, or what the stack held. *)
Definition get_fails (answer : list Z) : prog (client W) () :=
  let* _ := say (str "  [get] ") in let* _ := say answer in say [10].
Definition get_reply (f : Z) : prog (client W) () :=
  let* total := each_chunk junk fuel f (λ total d, let* _ := say (cstr d) in pret (i32 (total + Z.of_nat (length d)))) 0 in
  let* _ := calls (vfs_close junk f) in
  let* _ := say ([10] ++ str "  [get] ") in
  let* _ := (if total <? 0 then diverge else number total) in
  say (str " bytes" ++ [10]).
Definition get_page (host path addr : list Z) (answer : list Z) : prog (client W) () :=
  let* cmd := in_buffer 128 (str "connect " ++ addr ++ str " 80") in
  let* a := calls (get_ctl cmd) in
  let answer := match a with Some t => t | None => answer end in
  match a ≫= ok_value with
  | None => get_fails answer
  | Some v =>
      let* conn := in_buffer 24 (str "/net/tcp/" ++ digit_run v) in
      let* f := calls (vfs_open junk conn) in
      if f <? 0 then say (str "  [get] cannot open the connection" ++ [10])
      else
        let* cmd := in_buffer 128 (str "GET " ++ path ++ str " HTTP/1.0" ++ [13; 10] ++ str "Host: " ++ host ++ [13; 10] ++
                                   str "Connection: close" ++ [13; 10; 13; 10]) in
        let* _ := calls (vfs_write junk f cmd) in
        let* _ := say (str "  [get] request sent; reading the reply" ++ [10; 10]) in
        get_reply f
  end.
Definition get (args : list (list Z)) : prog (client W) () :=
  let host := match args with h :: _ => h | [] => str "example.com" end in
  let path := match args with _ :: p :: _ => p | _ => str "/" end in
  let* _ := say (str "  [get] resolving ") in let* _ := say host in let* _ := say [10] in
  let* cmd := in_buffer 128 (str "resolve " ++ host) in
  let* a := calls (get_ctl cmd) in
  let answer := match a with Some t => t | None => stack end in
  match a ≫= ok_value with
  | None => get_fails answer
  | Some v =>
      let addr := take 23 v in
      let* _ := say (str "  [get] ") in let* _ := say host in let* _ := say (str " is ") in let* _ := say addr in let* _ := say [10] in
      get_page host path addr answer
  end.
End utils.

(** ** What goes wrong *)

(** A connection that takes one byte of each write: what is still to come in,
    and what was taken. *)
Record slow := mkSlow { sl_in : list (list Z); sl_out : list Z }.
#[local] Instance slow_world : World slow := {
  sys_resolve := λ p n, pret (match n with O => Some (5, p) | _ => None end);
  sys_call := λ _ r s,
    if op r =? VFS_READ then
      let d := hd [] (sl_in s) in
      Some (Some (r <| data := d ++ replicate (512 - length d) 0 |> <| result := Z.of_nat (length d) |>), mkSlow (tl (sl_in s)) (sl_out s))
    else if op r =? VFS_WRITE then Some (Some (r <| result := 1 |>), mkSlow (sl_in s) (sl_out s ++ take 1 (data r)))
    else Some (Some (r <| result := 0 |>), s);
  sys_mounts_text := pret [];
  sys_putchar := λ _, pret ();
  sys_rest := pret () }.
#[local] Instance slow_gauges : Gauges slow := { pticks := pret 0; pages_of := pret (10, 20) }.
Definition blank_req : vfs_req := mkReq 0 0 [] 0 0 0 (replicate 512 0).
(** netd does not look how much of an answer was taken: the rest is lost. *)
Theorem netd_loses_what_is_not_taken :
  (λ x, sl_out (world x.2)) <$> echo_back blank_req 4 327680 (mkClient 0 (mkSlow [str "abc"; str "de"] [])) = Some (str "ad").
Proof. vm_compute. reflexivity. Qed.
(** netd writes a slot with two digits, and the network has 128 of them. *)
Theorem netd_misses_slot_100 : conn_path 100 = str "/net/tcp/:0".
Proof. vm_compute. reflexivity. Qed.
(** get builds its commands in 128 bytes without looking at the length of the
    name it is given. *)
Theorem get_overruns_its_command :
  bool_decide (is_Some (get blank_req [] 200 [replicate 119 97] (mkClient 0 (mkSlow [] [])))) = true ∧
  get blank_req [] 200 [replicate 120 97] (mkClient 0 (mkSlow [] [])) = None.
Proof. vm_compute. by split. Qed.
