(* ===== verification/Editor.v ===== *)
(** * The text editor (the viewer and editor of src/prog/mc.c)

    The whole file in one buffer, an index of where its lines start, and a
    cursor that is an offset into it.  An edit moves the bytes behind it and
    builds the index again. *)
From stdpp Require Import base list numbers option.
From S2P Require Import Prelude Req Client Curses.
Local Open Scope Z_scope.

(** The static variables.  [ed_buf] has [ed_cap] bytes, of which the text is
    the first [ed_len]; [ed_ls] is its first [ed_nl] entries, out of room for
    [ed_lcap].  [ed_oom] is what the next calls of realloc come to, and [[]]
    when all succeed. *)
Record ed_state := mkEd
  { ed_buf : list Z; ed_len : Z; ed_ls : list Z; ed_lcap : Z; ed_pos : Z; ed_top : Z;
    ed_hoff : Z; ed_dirty : bool; ed_oom : list bool }.
Ltac set_ed_state proj :=
  setter (λ s, mkEd (ed_buf s) (ed_len s) (ed_ls s) (ed_lcap s) (ed_pos s) (ed_top s) (ed_hoff s)
    (ed_dirty s) (ed_oom s)) proj.
#[export] Instance set_ed_buf : Setter ed_buf. Proof. set_ed_state ed_buf. Defined.
#[export] Instance set_ed_len : Setter ed_len. Proof. set_ed_state ed_len. Defined.
#[export] Instance set_ed_ls : Setter ed_ls. Proof. set_ed_state ed_ls. Defined.
#[export] Instance set_ed_lcap : Setter ed_lcap. Proof. set_ed_state ed_lcap. Defined.
#[export] Instance set_ed_pos : Setter ed_pos. Proof. set_ed_state ed_pos. Defined.
#[export] Instance set_ed_top : Setter ed_top. Proof. set_ed_state ed_top. Defined.
#[export] Instance set_ed_hoff : Setter ed_hoff. Proof. set_ed_state ed_hoff. Defined.
#[export] Instance set_ed_dirty : Setter ed_dirty. Proof. set_ed_state ed_dirty. Defined.
#[export] Instance set_ed_oom : Setter ed_oom. Proof. set_ed_state ed_oom. Defined.
Arguments set_ed_buf _ _ /.
Arguments set_ed_len _ _ /.
Arguments set_ed_ls _ _ /.
Arguments set_ed_lcap _ _ /.
Arguments set_ed_pos _ _ /.
Arguments set_ed_top _ _ /.
Arguments set_ed_hoff _ _ /.
Arguments set_ed_dirty _ _ /.
Arguments set_ed_oom _ _ /.
Definition ed_cap (e : ed_state) : Z := Z.of_nat (length (ed_buf e)).
Definition ed_nl (e : ed_state) : Z := Z.of_nat (length (ed_ls e)).
Definition ed_start (oom : list bool) : ed_state := mkEd [] 0 [] 0 0 0 0 false oom.

(** ** Room *)

Definition ED_ROUNDS : nat := 64.
Fixpoint text_cap (n : nat) (cap want : Z) : Z :=
  match n with O => cap | S n' => if cap <? want then text_cap n' (i32 (cap + (cap / 2 + 1))) want else cap end.
Fixpoint lines_cap (n : nat) (cap lines : Z) : Z :=
  match n with O => cap | S n' => if cap <? lines then lines_cap n' (i32 (cap * 2)) lines else cap end.
Definition or_first (cap first : Z) : Z := if cap =? 0 then first else cap.
(** Whether realloc gives what it is asked for. *)
Definition ed_mem : prog ed_state bool := λ e,
  match ed_oom e with [] => Some (true, e) | b :: l => Some (b, e <| ed_oom := l |>) end.

Section editor.
(** What fresh memory holds. *)
Context (stale : Z).

(** [false] is -1. *)
Definition ed_room (want lines : Z) : prog ed_state bool :=
  let* e := gets id in
  let* ok := (if ed_cap e <? want then
    let cap := text_cap ED_ROUNDS (or_first (ed_cap e) 1024) want in
    let* ok := ed_mem in
    if ok : bool then
      let* _ := modify (λ e, e <| ed_buf := ed_buf e ++ repeat stale (Z.to_nat cap - length (ed_buf e)) |>) in pret true
    else pret false
  else pret true) in
  if negb ok then pret false
  else if ed_lcap e <? lines then
    let cap := lines_cap ED_ROUNDS (or_first (ed_lcap e) 256) lines in
    let* ok := ed_mem in
    if ok : bool then let* _ := modify (λ e, e <| ed_lcap := cap |>) in pret true else pret false
  else pret true.

(** [ed_buf\[i\]] and [ed_ls\[i\]]; outside the buffer is a fault. *)
Definition ed_byte (i : Z) : prog ed_state Z := λ e,
  if i <? 0 then None else match ed_buf e !! Z.to_nat i with Some c => Some (c, e) | None => None end.
Definition ed_put (i c : Z) : prog ed_state () := λ e,
  if (0 <=? i) && (i <? ed_cap e) then Some ((), e <| ed_buf := <[Z.to_nat i := c]> (ed_buf e) |>) else None.
Definition ed_line (l : Z) : prog ed_state Z := λ e,
  if l <? 0 then None else match ed_ls e !! Z.to_nat l with Some i => Some (i, e) | None => None end.
Definition ed_push (i : Z) : prog ed_state () := λ e,
  if ed_nl e <? ed_lcap e then Some ((), e <| ed_ls := ed_ls e ++ [i] |>) else None.

(** ** The index *)

(** The bytes from [i] on, [n] of them. *)
Fixpoint index_loop (n : nat) (i : Z) : prog ed_state () :=
  match n with
  | O => pret ()
  | S n' =>
      let* c := ed_byte i in
      if c =? 10 then
        let* nl := gets ed_nl in
        let* ok := ed_room 0 (nl + 1) in
        if negb ok then pret () else let* _ := ed_push (i + 1) in index_loop n' (i + 1)
      else index_loop n' (i + 1)
  end.
Definition ed_index : prog ed_state () :=
  let* _ := modify (λ e, e <| ed_ls := [] |>) in
  let* ok := ed_room 0 1 in
  if negb ok then pret ()
  else
    let* _ := ed_push 0 in
    let* n := gets ed_len in
    index_loop (Z.to_nat n) 0.
Definition ed_end (line : Z) : prog ed_state Z :=
  let* e := gets id in
  if line + 1 <? ed_nl e then let* i := ed_line (line + 1) in pret (i - 1) else pret (ed_len e).
Fixpoint lineof_loop (n : nat) (pos lo hi : Z) : prog ed_state Z :=
  if lo <? hi then
    match n with
    | O => diverge
    | S n' =>
        let mid := (lo + hi + 1) / 2 in
        let* i := ed_line mid in
        if i <=? pos then lineof_loop n' pos mid hi else lineof_loop n' pos lo (mid - 1)
    end
  else pret lo.
Definition ed_lineof (pos : Z) : prog ed_state Z :=
  let* nl := gets ed_nl in lineof_loop (Z.to_nat nl) pos 0 (nl - 1).

(** ** Characters *)

Definition is_tail (c : Z) : bool := Z.land c 0xc0 =? 0x80.
Definition lead_len (c : Z) : Z := if 0xf0 <=? c then 4 else if 0xe0 <=? c then 3 else if 0xc0 <=? c then 2 else 1.
Fixpoint tails (k : nat) (i : Z) : prog ed_state bool :=
  match k with
  | O => pret true
  | S k' => let* c := ed_byte i in if is_tail c then tails k' (i + 1) else pret false
  end.
Definition ulen (i : Z) : prog ed_state Z :=
  let* c := ed_byte i in
  let n := lead_len c in
  if n =? 1 then pret 1
  else
    let* len := gets ed_len in
    if len <? i + n then pret 1
    else let* ok := tails (Z.to_nat (n - 1)) (i + 1) in pret (if ok : bool then n else 1).
Fixpoint uval_loop (k : nat) (i v : Z) : prog ed_state Z :=
  match k with
  | O => pret v
  | S k' => let* c := ed_byte i in uval_loop k' (i + 1) (u32 (Z.lor (Z.shiftl v 6) (Z.land c 0x3f)))
  end.
Definition uval (i n : Z) : prog ed_state Z :=
  let* c := ed_byte i in
  if n =? 1 then pret c else uval_loop (Z.to_nat (n - 1)) (i + 1) (Z.land c (Z.shiftr 0xff (n + 1))).
Definition ed_next (pos : Z) : prog ed_state Z :=
  let* len := gets ed_len in
  if len <=? pos then pret len else let* n := ulen pos in pret (if len <? pos + n then len else pos + n).
Fixpoint prev_loop (n : nat) (pos : Z) : prog ed_state Z :=
  if 0 <? pos then
    match n with
    | O => diverge
    | S n' => let* c := ed_byte pos in if is_tail c then prev_loop n' (pos - 1) else pret pos
    end
  else pret pos.
Definition ed_prev (pos : Z) : prog ed_state Z := if pos <=? 0 then pret 0 else prev_loop (Z.to_nat pos) (pos - 1).

(** ** Columns *)

(** [for (i = ed_ls\[line\]; i < pos && i < ed_end(line); ...)]: [tab] tells a
    tab apart, [n] is what is counted. *)
Fixpoint cols_loop (k : nat) (line pos i n : Z) (tab : bool) : prog ed_state Z :=
  let* e := ed_end line in
  if (i <? pos) && (i <? e) then
    match k with
    | O => diverge
    | S k' =>
        let* c := (if tab then ed_byte i else pret 0) in
        if c =? 9 then cols_loop k' line pos (i + 1) ((n / 8 + 1) * 8) tab
        else let* i' := ed_next i in cols_loop k' line pos i' (n + 1) tab
    end
  else pret n.
Definition ed_chars (line pos : Z) : prog ed_state Z :=
  let* i := ed_line line in let* len := gets ed_len in cols_loop (Z.to_nat len) line pos i 0 false.
Definition ed_scol (line pos : Z) : prog ed_state Z :=
  let* i := ed_line line in let* len := gets ed_len in cols_loop (Z.to_nat len) line pos i 0 true.
Fixpoint at_loop (chars : nat) (i e : Z) : prog ed_state Z :=
  match chars with
  | O => pret i
  | S n => if i <? e then let* i' := ed_next i in at_loop n i' e else pret i
  end.
Definition ed_at (line chars : Z) : prog ed_state Z :=
  let* i := ed_line line in let* e := ed_end line in at_loop (Z.to_nat chars) i e.

(** ** Changing the text *)

(** [for (i = ...; k times; i--) ed_buf\[i + n\] = ed_buf\[i\];] and upwards. *)
Fixpoint move_up (k : nat) (i n : Z) : prog ed_state () :=
  match k with O => pret () | S k' => let* c := ed_byte i in let* _ := ed_put (i + n) c in move_up k' (i - 1) n end.
Fixpoint move_down (k : nat) (i n : Z) : prog ed_state () :=
  match k with O => pret () | S k' => let* c := ed_byte (i + n) in let* _ := ed_put i c in move_down k' (i + 1) n end.
Fixpoint put_all (i : Z) (s : list Z) : prog ed_state () :=
  match s with [] => pret () | c :: s' => let* _ := ed_put i c in put_all (i + 1) s' end.
Definition ed_insert (s : list Z) : prog ed_state bool :=
  let n := Z.of_nat (length s) in
  let* e := gets id in
  let* ok := ed_room (i32 (ed_len e + n)) 0 in
  if negb ok then pret false
  else
    let* _ := move_up (Z.to_nat (ed_len e - ed_pos e)) (ed_len e - 1) n in
    let* _ := put_all (ed_pos e) s in
    let* _ := modify (λ e, e <| ed_len := ed_len e + n |> <| ed_pos := ed_pos e + n |> <| ed_dirty := true |>) in
    let* _ := ed_index in pret true.
Definition ed_remove (at_ n : Z) : prog ed_state () :=
  let* e := gets id in
  if (at_ <? 0) || (n <=? 0) || (ed_len e <? at_ + n) then pret ()
  else
    let* _ := move_down (Z.to_nat (ed_len e - n - at_)) at_ n in
    let* _ := modify (λ e, let len := ed_len e - n in
      e <| ed_len := len |> <| ed_pos := if len <? ed_pos e then len else ed_pos e |> <| ed_dirty := true |>) in
    ed_index.

(** ** Searching *)

Fixpoint match_here (i : Z) (needle : list Z) : prog ed_state bool :=
  match needle with
  | [] => pret true
  | c :: needle' => let* b := ed_byte i in if b =? c then match_here (i + 1) needle' else pret false
  end.
(** [None] is -1. *)
Fixpoint find_loop (n : nat) (i : Z) (needle : list Z) : prog ed_state (option Z) :=
  let* len := gets ed_len in
  if i + Z.of_nat (length needle) <=? len then
    match n with
    | O => diverge
    | S n' => let* ok := match_here i needle in if ok : bool then pret (Some i) else find_loop n' (i + 1) needle
    end
  else pret None.
Definition ed_find (needle : list Z) (from : Z) : prog ed_state (option Z) :=
  if (length needle =? 0)%nat then pret None
  else let* len := gets ed_len in find_loop (S (Z.to_nat len)) from needle.

(** ** The window on the text *)

Definition ed_follow (h COLS : Z) (follow_col : bool) : prog ed_state () :=
  let* e := gets id in
  let* line := ed_lineof (ed_pos e) in
  let top := if line <? ed_top e then line else ed_top e in
  let top := if top + h <=? line then line - h + 1 else top in
  let top := if top <? 0 then 0 else top in
  let* _ := modify (λ e, e <| ed_top := top |>) in
  if negb follow_col then pret ()
  else
    let* col := ed_scol line (ed_pos e) in
    let hoff := if col <? ed_hoff e then col else ed_hoff e in
    let hoff := if hoff + COLS <=? col then col - COLS + 1 else hoff in
    modify (λ e, e <| ed_hoff := hoff |>).

(** ** Keys *)

Definition KEY_BACKSPACE : Z := 263.
Definition KEY_ENTER : Z := 343.
Definition ed_goto (line col : Z) : prog ed_state () :=
  let* p := ed_at line col in modify (λ e, e <| ed_pos := p |>).
(** The keys that move; [false] when [k] is none of them.  [h] is how many
    lines of text are on the screen. *)
Definition ed_motion (h : Z) (writable : bool) (k : Z) : prog ed_state bool :=
  let* e := gets id in
  let pos := ed_pos e in
  let* line := ed_lineof pos in
  if k =? KEY_UP then
    let* _ := (if 0 <? line then let* c := ed_chars line pos in ed_goto (line - 1) c else pret ()) in pret true
  else if k =? KEY_DOWN then
    let* _ := (if line + 1 <? ed_nl e then let* c := ed_chars line pos in ed_goto (line + 1) c else pret ()) in pret true
  else if k =? KEY_LEFT then
    let* _ := (if writable then let* p := ed_prev pos in modify (λ e, e <| ed_pos := p |>)
               else modify (λ e, e <| ed_hoff := Z.max 0 (ed_hoff e - 8) |>)) in pret true
  else if k =? KEY_RIGHT then
    let* _ := (if writable then let* p := ed_next pos in modify (λ e, e <| ed_pos := p |>)
               else modify (λ e, e <| ed_hoff := ed_hoff e + 8 |>)) in pret true
  else if k =? KEY_HOME then let* p := ed_line line in let* _ := modify (λ e, e <| ed_pos := p |>) in pret true
  else if k =? KEY_END then let* p := ed_end line in let* _ := modify (λ e, e <| ed_pos := p |>) in pret true
  else if k =? KEY_PPAGE then
    let* col := ed_chars line pos in
    let* _ := ed_goto (if line - h <? 0 then 0 else line - h) col in
    let* _ := modify (λ e, e <| ed_top := Z.max 0 (ed_top e - h) |>) in pret true
  else if k =? KEY_NPAGE then
    let* col := ed_chars line pos in
    let* _ := ed_goto (if ed_nl e <=? line + h then ed_nl e - 1 else line + h) col in
    let* _ := modify (λ e, e <| ed_top := if ed_nl e - 1 <? ed_top e + h then ed_nl e - 1 else ed_top e + h |>) in pret true
  else pret false.
(** The keys that change the text; [false] when there is no room for a
    character. *)
Definition ed_type (k : Z) : prog ed_state bool :=
  let* e := gets id in
  if (k =? 13) || (k =? 10) || (k =? KEY_ENTER) then let* _ := ed_insert [10] in pret true
  else if (k =? 8) || (k =? 127) || (k =? KEY_BACKSPACE) then
    if 0 <? ed_pos e then
      let* p := ed_prev (ed_pos e) in
      let* _ := modify (λ e, e <| ed_pos := p |>) in
      let* _ := ed_remove p (ed_pos e - p) in pret true
    else pret true
  else if k =? KEY_DC then
    if ed_pos e <? ed_len e then let* p := ed_next (ed_pos e) in let* _ := ed_remove (ed_pos e) (p - ed_pos e) in pret true
    else pret true
  else if k =? 9 then let* _ := ed_insert [9] in pret true
  else if (32 <=? k) && (k <? 256) then ed_insert [k]
  else pret true.
(** The loop of edit_file for the keys of an open editor: the window follows
    the cursor, and the key moves, types, or ends it.  Saving (F2) and
    searching (F7), which ask for a file and for a pattern, are left out. *)
Fixpoint ed_keys (h COLS : Z) (ks : list Z) : prog ed_state () :=
  let* _ := ed_follow h COLS true in
  match ks with
  | [] => pret ()
  | k :: ks' =>
      if (k =? ERR) || (k =? KEY_F 10) then pret ()
      else if (k =? KEY_F 2) || (k =? KEY_F 7) then diverge
      else
        let* moved := ed_motion h true k in
        let* _ := (if moved : bool then pret true else ed_type k) in
        ed_keys h COLS ks'
  end.
End editor.

(** ** Files *)

(** The editor's variables and the world behind it. *)
Record editing (W : Type) := mkEditing { ed : ed_state; behind : W }.
Arguments mkEditing {W}. Arguments ed {W}. Arguments behind {W}.
Definition on_ed {W A} (m : prog ed_state A) : prog (editing W) A := λ s,
  match m (ed s) with Some (a, e) => Some (a, mkEditing e (behind s)) | None => None end.
Definition outward {W A} (m : prog W A) : prog (editing W) A := λ s,
  match m (behind s) with Some (a, w) => Some (a, mkEditing (ed s) w) | None => None end.

Section files.
Context {W : Type} `{World W}.
Context (stale : Z) (junk : vfs_req) (fuel : nat).

(** [d] behind the text, over what the buffer had there. *)
Definition ed_append (k : Z) (d : list Z) : prog ed_state () := λ e,
  let n := Z.to_nat (ed_len e) in
  if (length (ed_buf e) <? n + length d)%nat then None
  else Some ((), e <| ed_buf := take n (ed_buf e) ++ d ++ drop (n + length d) (ed_buf e) |> <| ed_len := ed_len e + k |>).
Fixpoint load_loop (n : nat) (f : Z) : prog (editing W) () :=
  match n with
  | O => diverge
  | S n' =>
      let* len := on_ed (gets ed_len) in
      let* ok := on_ed (ed_room stale (len + 4096) 0) in
      if negb ok then pret ()
      else
        let* cap := on_ed (gets ed_cap) in
        let* (k, d) := outward (vfs_read junk f (cap - len)) in
        if k <=? 0 then pret () else let* _ := on_ed (ed_append k d) in load_loop n' f
  end.
Definition ed_load (path : list Z) : prog (editing W) Z :=
  let* _ := on_ed (modify (λ e, e <| ed_len := 0 |> <| ed_pos := 0 |> <| ed_top := 0 |> <| ed_hoff := 0 |> <| ed_dirty := false |>)) in
  let* f := outward (vfs_open junk path) in
  if f <? 0 then pret (-1)
  else
    let* _ := load_loop fuel f in
    let* _ := outward (vfs_close junk f) in
    let* _ := on_ed (ed_index stale) in
    pret 0.
(** [false] when a write failed. *)
Fixpoint save_loop (n : nat) (f off : Z) : prog (editing W) bool :=
  let* e := on_ed (gets id) in
  if off <? ed_len e then
    match n with
    | O => diverge
    | S n' =>
        let k := if VFS_DATA_MAX <? ed_len e - off then VFS_DATA_MAX else ed_len e - off in
        let* k := outward (vfs_write junk f (take (Z.to_nat k) (drop (Z.to_nat off) (ed_buf e)))) in
        if k <? 0 then pret false
        else if k =? 0 then let* _ := outward sys_rest in save_loop n' f off
        else save_loop n' f (off + k)
    end
  else pret true.
Definition ed_save (path : list Z) : prog (editing W) Z :=
  let* f := outward (vfs_create junk path) in
  if f <? 0 then pret (-1)
  else
    let* ok := save_loop fuel f 0 in
    if negb ok then let* _ := outward (vfs_close junk f) in pret (-1)
    else
      let* r := outward (vfs_close junk f) in
      if r <? 0 then pret (-1)
      else let* _ := on_ed (modify (λ e, e <| ed_dirty := false |>)) in pret 0.
End files.
