(* ===== verification/EditorText.v ===== *)
(** * What the editor does to a text (src/prog/mc.c)

    A document is a text and a place in it.  The buffer, the index of lines
    and the offset of the cursor implement it: every key does to them what it
    does to the document, and the window on the text follows the cursor. *)
From stdpp Require Import base list numbers option.
From S2P Require Import Prelude Req Client Curses Editor.
Local Open Scope Z_scope.

(** ** Documents *)

(** A continuation byte of UTF-8 is 10xxxxxx, and a lead byte says by its
    size how many bytes its character has. *)
Definition follow_byte (c : Z) : bool := (c / 64) mod 4 =? 2.
Definition seq_len (c : Z) : Z := if c <? 0xc0 then 1 else if c <? 0xe0 then 2 else if c <? 0xf0 then 3 else 4.
(** Bytes of the character in front of a text: a lead byte with all its
    continuation bytes, or a single byte. *)
Definition char_len (t : list Z) : nat :=
  match t with
  | [] => 0
  | c :: t' => let n := Z.to_nat (seq_len c) in if (n <=? length t)%nat && forallb follow_byte (take (n - 1) t') then n else 1
  end.
Fixpoint chars_n (n : nat) (l : list Z) : list (list Z) :=
  match n, l with
  | S n', _ :: _ => take (char_len l) l :: chars_n n' (drop (char_len l) l)
  | _, _ => []
  end.
Definition chars (l : list Z) : list (list Z) := chars_n (length l) l.
(** How many of these characters begin before offset [p]. *)
Fixpoint begun (p : nat) (cs : list (list Z)) : nat :=
  match p, cs with O, _ | _, [] => 0 | _, c :: cs' => S (begun (p - length c) cs') end.
(** A text read backwards, without its last character: back to the byte
    before the continuation bytes. *)
Fixpoint strip_char (rb : list Z) : list Z :=
  match rb with
  | [] => []
  | c :: r => match r with [] => [] | _ => if follow_byte c then strip_char r else r end
  end.
Fixpoint lines_of (t : list Z) : list (list Z) :=
  match t with
  | [] => [[]]
  | c :: t' => if c =? 10 then [] :: lines_of t' else match lines_of t' with l :: ls => (c :: l) :: ls | [] => [] end
  end.
(** The offset at which line [l] begins. *)
Fixpoint line_begin (ls : list (list Z)) (l : nat) : nat :=
  match l, ls with S l', x :: ls' => S (length x) + line_begin ls' l' | _, _ => 0 end.
Record document := mkDoc { d_text : list Z; d_pos : nat; d_dirty : bool }.

Definition newlines (t : list Z) : nat := length (filter (λ c, c = 10) t).
Definition d_line (d : document) : nat := newlines (take (d_pos d) (d_text d)).
Definition d_lines (d : document) : list (list Z) := lines_of (d_text d).
Definition the_line (d : document) (l : nat) : list Z := nth l (d_lines d) [].
Definition d_home (d : document) : nat := line_begin (d_lines d) (d_line d).
Definition d_end (d : document) : nat := d_home d + length (the_line d (d_line d)).
(** The characters of the line before the cursor. *)
Definition d_col (d : document) : nat := begun (d_pos d - d_home d) (chars (the_line d (d_line d))).
Definition d_goto (d : document) (l col : nat) : nat :=
  line_begin (d_lines d) l + length (concat (take col (chars (the_line d l)))).
Definition d_prev (d : document) : nat := length (strip_char (rev (take (d_pos d) (d_text d)))).
Definition d_next (d : document) : nat := d_pos d + char_len (drop (d_pos d) (d_text d)).
(** Where a key takes the cursor, [None] when it is no such key. *)
Definition d_motion (h : nat) (writable : bool) (k : Z) (d : document) : option nat :=
  let l := d_line d in
  let n := length (d_lines d) in
  if k =? KEY_UP then Some (if (l =? 0)%nat then d_pos d else d_goto d (l - 1) (d_col d))
  else if k =? KEY_DOWN then Some (if (S l <? n)%nat then d_goto d (S l) (d_col d) else d_pos d)
  else if k =? KEY_LEFT then Some (if writable then d_prev d else d_pos d)
  else if k =? KEY_RIGHT then Some (if writable then d_next d else d_pos d)
  else if k =? KEY_HOME then Some (d_home d)
  else if k =? KEY_END then Some (d_end d)
  else if k =? KEY_PPAGE then Some (d_goto d (l - h) (d_col d))
  else if k =? KEY_NPAGE then Some (d_goto d (Nat.min (l + h) (n - 1)) (d_col d))
  else None.
Definition d_insert (s : list Z) (d : document) : document :=
  mkDoc (take (d_pos d) (d_text d) ++ s ++ drop (d_pos d) (d_text d)) (d_pos d + length s) true.
(** What is between two offsets goes, and the cursor is there. *)
Definition d_cut (a b : nat) (d : document) : document := mkDoc (take a (d_text d) ++ drop b (d_text d)) a true.
Definition d_type (k : Z) (d : document) : document :=
  if (k =? 13) || (k =? 10) || (k =? KEY_ENTER) then d_insert [10] d
  else if (k =? 8) || (k =? 127) || (k =? KEY_BACKSPACE) then if (d_pos d =? 0)%nat then d else d_cut (d_prev d) (d_pos d) d
  else if k =? KEY_DC then if (d_pos d <? length (d_text d))%nat then d_cut (d_pos d) (d_next d) d else d
  else if k =? 9 then d_insert [9] d
  else if (32 <=? k) && (k <? 256) then d_insert [k] d
  else d.
Definition d_key (h : nat) (d : document) (k : Z) : document :=
  match d_motion h true k d with Some p => mkDoc (d_text d) p (d_dirty d) | None => d_type k d end.

(** ** Lists *)

Lemma follow_byte_is c : is_tail c = follow_byte c.
Proof.
  unfold is_tail, follow_byte. change 0x80 with (Z.shiftl 2 6).
  replace (Z.land c 0xc0) with (Z.shiftl (Z.land (Z.shiftr c 6) (2 ^ 2 - 1)) 6).
  - rewrite land_mask, Z.shiftr_div_pow2, !Z.shiftl_mul_pow2 by lia. change (2 ^ 6) with 64. change (2 ^ 2) with 4.
    destruct (Z.eqb_spec ((c / 64) mod 4) 2), (Z.eqb_spec ((c / 64) mod 4 * 64) (2 * 64)); lia || done.
  - change 0xc0 with (Z.shiftl (2 ^ 2 - 1) 6). apply Z.bits_inj'. intros k Hk.
    rewrite Z.shiftl_spec, !Z.land_spec, Z.shiftl_spec by done.
    destruct (decide (6 ≤ k)); [|rewrite !(Z.testbit_neg_r _ (k - 6)) by lia; by destruct (Z.testbit c k)].
    rewrite Z.shiftr_spec by lia. do 2 f_equal. lia.
Qed.
Lemma seq_len_is c : lead_len c = seq_len c.
Proof. unfold lead_len, seq_len. split_ifs; lia. Qed.
Lemma seq_len_range c : 1 ≤ seq_len c ≤ 4.
Proof. unfold seq_len. split_ifs; lia. Qed.
Lemma char_len_pos t : t ≠ [] → (1 ≤ char_len t ≤ length t)%nat.
Proof.
  destruct t as [|c t]; [done|]. intros _. cbn [char_len]. pose proof (seq_len_range c).
  destruct (Nat.leb_spec (Z.to_nat (seq_len c)) (length (c :: t))); cbn [andb]; [|cbn [length]; lia].
  destruct (forallb _ _); cbn [length] in *; lia.
Qed.
Lemma chars_step l : l ≠ [] → chars l = take (char_len l) l :: chars (drop (char_len l) l).
Proof.
  assert (∀ n m l, (length l ≤ n)%nat → (length l ≤ m)%nat → chars_n n l = chars_n m l) as He.
  { induction n as [|n IH]; intros [|m] l0 Hn Hm; destruct l0 as [|c l0]; try done; cbn [length] in *; try lia.
    cbn [chars_n]. f_equal. pose proof (char_len_pos (c :: l0) ltac:(done)) as Hc.
    assert (length (drop (char_len (c :: l0)) (c :: l0)) ≤ length l0)%nat by (rewrite length_drop; cbn [length] in *; lia). apply IH; lia. }
  intros Hl. unfold chars. destruct l as [|c l]; [done|]. cbn [length chars_n]. f_equal. pose proof (char_len_pos (c :: l) ltac:(done)) as Hc.
  assert (length (drop (char_len (c :: l)) (c :: l)) ≤ length l)%nat by (rewrite length_drop; cbn [length] in *; lia). by apply He.
Qed.
(** A newline or the end of the text is no part of a character. *)
Lemma char_len_local l rest : l ≠ [] → (rest = [] ∨ hd 0 rest = 10) → char_len (l ++ rest) = char_len l.
Proof.
  intros Hl Hr. destruct l as [|c l]; [done|]. cbn [app char_len]. set (n := Z.to_nat (seq_len c)).
  destruct Hr as [->|Hr]; [by rewrite app_nil_r|]. cbn [length]. rewrite length_app.
  destruct (Nat.leb_spec n (S (length l))) as [Hn|Hn].
  - rewrite (proj2 (Nat.leb_le n _)) by lia. cbn [andb]. by rewrite take_app_le by lia.
  - cbn [andb]. destruct (Nat.leb_spec n (S (length l + length rest))) as [Hm|Hm]; [|done]. cbn [andb].
    destruct rest as [|b rest]; [cbn in Hm; lia|]. cbn in Hr. subst b. rewrite take_app_ge by lia.
    destruct (n - 1 - length l)%nat eqn:E; [lia|]. cbn [take]. rewrite forallb_app. cbn [forallb]. change (follow_byte 10) with false.
    by rewrite andb_false_r.
Qed.
Lemma lines_of_cons t : ∃ l ls, lines_of t = l :: ls.
Proof. induction t as [|c t (l & ls & IH)]; [by exists [], []|]. cbn [lines_of]. destruct (c =? 10); [by eexists _, _|]. rewrite IH. by eexists _, _. Qed.
Lemma line_begin_cons x ls l : line_begin (x :: ls) (S l) = (S (length x) + line_begin ls l)%nat.
Proof. done. Qed.
(** The text from the start of a line on. *)
Lemma line_at t l :
  (l < length (lines_of t))%nat →
  ∃ rest, drop (line_begin (lines_of t) l) t = nth l (lines_of t) [] ++ rest ∧
    (line_begin (lines_of t) l + length (nth l (lines_of t) []) + length rest = length t)%nat ∧
    if decide (S l = length (lines_of t)) then rest = []
    else hd 0 rest = 10 ∧ line_begin (lines_of t) (S l) = (line_begin (lines_of t) l + S (length (nth l (lines_of t) [])))%nat.
Proof.
  revert l. induction t as [|c t IH]; intros l Hl.
  { cbn in *. destruct l; [|lia]. exists []. split_and!; done. }
  cbn [lines_of] in *. destruct (c =? 10) eqn:Ec.
  - apply Z.eqb_eq in Ec as ->. destruct l as [|l].
    + exists (10 :: t). cbn [line_begin nth drop app length]. split_and!; [done|lia|].
      destruct (lines_of_cons t) as (l0 & ls & ->). cbn [length]. rewrite decide_False by lia. split; [done|]. cbn. done.
    + cbn [length] in Hl. destruct (IH l ltac:(lia)) as (rest & H1 & H2 & H3). exists rest. rewrite line_begin_cons. cbn [length nth] in *.
      split_and!; [done|lia|]. destruct (decide (S l = _)) as [E|E].
      * rewrite decide_True by lia. done.
      * rewrite decide_False by lia. destruct H3 as [H3 H4]. split; [done|]. rewrite line_begin_cons. cbn [length]. lia.
  - destruct (lines_of_cons t) as (l0 & ls & E). rewrite E in *. destruct l as [|l].
    + destruct (IH 0%nat ltac:(cbn; lia)) as (rest & H1 & H2 & H3). exists rest. cbn [line_begin nth drop app length] in *.
      split_and!; [by rewrite <- H1|lia|]. destruct (decide _); [done|]. destruct H3 as [H3 H4]. split; [done|]. lia.
    + destruct (IH (S l) Hl) as (rest & H1 & H2 & H3). exists rest. cbn [length nth] in *.
      rewrite line_begin_cons in H1, H2 |- *. cbn [length] in *. split_and!; [done|lia|].
      destruct (decide _); [done|]. destruct H3 as [H3 H4]. split; [done|]. cbn [line_begin length] in *. lia.
Qed.
Lemma line_begin_mono ls a b : (a ≤ b)%nat → (line_begin ls a ≤ line_begin ls b)%nat.
Proof.
  revert a b. induction ls as [|x ls IH]; intros [|a] [|b] Hab; cbn [line_begin]; try lia. specialize (IH a b). lia.
Qed.
Lemma newlines_cons c t : newlines (c :: t) = ((if (c =? 10)%Z then 1 else 0) + newlines t)%nat.
Proof. unfold newlines. rewrite filter_cons. destruct (Z.eqb_spec c 10); case_decide; done. Qed.
(** The line a place is on. *)
Lemma line_of_pos t p :
  (p ≤ length t)%nat →
  let l := newlines (take p t) in
  (l < length (lines_of t))%nat ∧ (line_begin (lines_of t) l ≤ p ≤ line_begin (lines_of t) l + length (nth l (lines_of t) []))%nat.
Proof.
  revert p. induction t as [|c t IH]; intros p Hp; cbn [length] in *.
  { destruct p; [|lia]. cbn. lia. }
  destruct p as [|p].
  - cbn [take]. change (newlines []) with 0%nat. destruct (lines_of_cons (c :: t)) as (l0 & ls & ->). cbn. lia.
  - cbn [take]. rewrite newlines_cons. destruct (IH p ltac:(lia)) as (H1 & H2). cbn [lines_of]. destruct (c =? 10).
    + cbn [Nat.add length nth] in *. rewrite line_begin_cons. cbn [length]. lia.
    + cbn [Nat.add]. destruct (lines_of_cons t) as (l0 & ls & E). rewrite E in *. cbn [length] in *. split; [done|].
      destruct (newlines (take p t)) as [|l]; cbn [line_begin nth length] in *; lia.
Qed.

(** ** The buffer holds the document *)

(** The offsets behind the newlines of a text that begins at [i]. *)
Fixpoint behind_newlines (i : Z) (t : list Z) : list Z :=
  match t with [] => [] | c :: t' => if c =? 10 then (i + 1) :: behind_newlines (i + 1) t' else behind_newlines (i + 1) t' end.
Definition starts_of (t : list Z) : list Z := 0 :: behind_newlines 0 t.
Lemma behind_newlines_lookup i t l :
  behind_newlines i t !! l = if (S l <? length (lines_of t))%nat then Some (i + Z.of_nat (line_begin (lines_of t) (S l))) else None.
Proof.
  revert i l. induction t as [|c t IH]; intros i l; cbn [behind_newlines lines_of]; [done|]. destruct (c =? 10).
  - destruct (lines_of_cons t) as (l0 & ls & E). rewrite E in *. rewrite line_begin_cons. cbn [length].
    destruct l as [|l]; cbn [lookup list_lookup]; [done|]. change (list_lookup l (behind_newlines (i + 1) t)) with (behind_newlines (i + 1) t !! l).
    rewrite IH. cbn [length]. change (S (S l) <? S (S (length ls)))%nat with (S l <? S (length ls))%nat. case_match; [|done]. f_equal. lia.
  - destruct (lines_of_cons t) as (l0 & ls & E). rewrite E in *. rewrite IH. cbn [length]. case_match; [|done]. cbn [line_begin length]. f_equal. lia.
Qed.
Lemma starts_of_lookup t l : (l < length (lines_of t))%nat → starts_of t !! l = Some (Z.of_nat (line_begin (lines_of t) l)).
Proof.
  destruct l as [|l]; intros Hl; [by destruct (lines_of t)|]. unfold starts_of. cbn [lookup list_lookup].
  change (behind_newlines 0 t !! l = Some (Z.of_nat (line_begin (lines_of t) (S l)))).
  by rewrite behind_newlines_lookup, (proj2 (Nat.ltb_lt _ _)).
Qed.
Lemma behind_newlines_length i t : length (behind_newlines i t) = (length (lines_of t) - 1)%nat.
Proof.
  revert i. induction t as [|c t IH]; intros i; [done|]. cbn [behind_newlines lines_of]. destruct (lines_of_cons t) as (l0 & ls & E).
  destruct (c =? 10); cbn [length]; rewrite IH, E; cbn [length]; lia.
Qed.
Lemma starts_of_length t : length (starts_of t) = length (lines_of t).
Proof. unfold starts_of. cbn [length]. rewrite behind_newlines_length. destruct (lines_of_cons t) as (l0 & ls & E). rewrite E. cbn [length]. lia. Qed.

(** Columns on the screen: a tab goes to the next multiple of eight. *)
Definition col_step (tab : bool) (n : Z) (c : list Z) : Z := if tab && (hd 0 c =? 9) then (n / 8 + 1) * 8 else n + 1.
Definition columns (tab : bool) (p : nat) (cs : list (list Z)) (n : Z) : Z := foldl (col_step tab) n (take (begun p cs) cs).
Lemma columns_done tab p cs n : p = 0%nat ∨ cs = [] → columns tab p cs n = n.
Proof. unfold columns. intros [->| ->]; [by destruct cs|by destruct p]. Qed.
Lemma columns_step tab p c cs n : (0 < p)%nat → columns tab p (c :: cs) n = columns tab (p - length c) cs (col_step tab n c).
Proof. intros Hp. destruct p as [|p]; [lia|]. done. Qed.
Lemma columns_chars p cs n : columns false p cs n = n + Z.of_nat (begun p cs).
Proof.
  revert p n. induction cs as [|c cs IH]; intros p n; [rewrite columns_done by auto; destruct p; cbn; lia|].
  destruct p as [|p]; [rewrite columns_done by auto; cbn; lia|]. rewrite columns_step, IH by lia. cbn [begun]. unfold col_step. cbn [andb]. lia.
Qed.
Lemma columns_nonneg tab p cs n : 0 ≤ n → 0 ≤ columns tab p cs n.
Proof.
  revert p n. induction cs as [|c cs IH]; intros p n Hn; [by rewrite columns_done by auto|].
  destruct p as [|p]; [by rewrite columns_done by auto|]. rewrite columns_step by lia. apply IH. unfold col_step. split_ifs; ldiv.
Qed.

Record text_in (t : list Z) (e : ed_state) : Prop := {
  ti_text : t `prefix_of` ed_buf e; ti_len : ed_len e = Z.of_nat (length t); ti_ls : ed_ls e = starts_of t }.
(** Reading leaves everything as it is. *)
Definition reads {A} (m : prog ed_state A) (v : A) (e : ed_state) : Prop := m e = Some (v, e).

Section reading.
Context (t : list Z) (e : ed_state) (Ht : text_in t e).

Lemma ed_nl_is : ed_nl e = Z.of_nat (length (lines_of t)).
Proof. unfold ed_nl. by rewrite (ti_ls _ _ Ht), starts_of_length. Qed.
Lemma byte_reads i c : t !! i = Some c → reads (ed_byte (Z.of_nat i)) c e.
Proof.
  intros Hi. unfold reads, ed_byte. rewrite (proj2 (Z.ltb_ge _ _)), Nat2Z.id by lia. by rewrite (prefix_lookup_Some _ _ _ _ Hi (ti_text _ _ Ht)).
Qed.
Lemma line_reads l : (l < length (lines_of t))%nat → reads (ed_line (Z.of_nat l)) (Z.of_nat (line_begin (lines_of t) l)) e.
Proof.
  intros Hl. unfold reads, ed_line. rewrite (proj2 (Z.ltb_ge _ _)), Nat2Z.id, (ti_ls _ _ Ht) by lia. by rewrite starts_of_lookup.
Qed.
Lemma end_reads l :
  (l < length (lines_of t))%nat → reads (ed_end (Z.of_nat l)) (Z.of_nat (line_begin (lines_of t) l + length (nth l (lines_of t) []))) e.
Proof.
  intros Hl. unfold reads, ed_end. rewrite (pbind_eq _ _ _ e e) by done. rewrite ed_nl_is.
  destruct (line_at t l Hl) as (rest & _ & H2 & H3). destruct (decide _) as [E|E].
  - rewrite (proj2 (Z.ltb_ge _ _)) by lia. unfold pret. rewrite (ti_len _ _ Ht). subst rest. cbn in H2. do 2 f_equal. lia.
  - rewrite (proj2 (Z.ltb_lt _ _)) by lia. replace (Z.of_nat l + 1) with (Z.of_nat (S l)) by lia.
    rewrite (pbind_eq _ _ _ _ _ (line_reads (S l) ltac:(lia))). unfold pret. do 2 f_equal. lia.
Qed.
Lemma lineof_loop_reads l p n lo hi :
  (l < length (lines_of t))%nat → (line_begin (lines_of t) l ≤ p ≤ line_begin (lines_of t) l + length (nth l (lines_of t) []))%nat →
  0 ≤ lo ≤ Z.of_nat l → Z.of_nat l ≤ hi < Z.of_nat (length (lines_of t)) → hi - lo ≤ Z.of_nat n →
  reads (lineof_loop n (Z.of_nat p) lo hi) (Z.of_nat l) e.
Proof.
  intros Hl Hp. revert lo hi. induction n as [|n IH]; intros lo hi Hlo Hhi Hn; unfold reads; cbn [lineof_loop];
    (destruct (Z.ltb_spec lo hi); [|unfold pret; do 2 f_equal; lia]); [lia|].
  set (mid := (lo + hi + 1) / 2). assert (lo < mid ≤ hi) as Hm by (unfold mid; ldiv).
  replace mid with (Z.of_nat (Z.to_nat mid)) at 1 by lia. rewrite (pbind_eq _ _ _ _ _ (line_reads (Z.to_nat mid) ltac:(lia))).
  destruct (Z.leb_spec (Z.of_nat (line_begin (lines_of t) (Z.to_nat mid))) (Z.of_nat p)) as [Hle|Hgt].
  - apply IH; [|lia|unfold mid; ldiv]. split; [lia|]. destruct (Z.le_gt_cases mid (Z.of_nat l)) as [|Hgt]; [done|].
    destruct (line_at t l Hl) as (rest & _ & _ & H3). rewrite decide_False in H3 by lia. destruct H3 as [_ H3].
    pose proof (line_begin_mono (lines_of t) (S l) (Z.to_nat mid) ltac:(lia)). lia.
  - apply IH; [lia| |unfold mid; ldiv]. split; [|lia]. destruct (Z.le_gt_cases mid (Z.of_nat l)) as [Hm2|]; [|lia].
    pose proof (line_begin_mono (lines_of t) (Z.to_nat mid) l ltac:(lia)). lia.
Qed.
Lemma lineof_reads p : (p ≤ length t)%nat → reads (ed_lineof (Z.of_nat p)) (Z.of_nat (newlines (take p t))) e.
Proof.
  intros Hp. destruct (line_of_pos t p Hp) as [H1 H2]. unfold reads, ed_lineof. rewrite (pbind_eq _ _ _ (ed_nl e) e) by done.
  rewrite ed_nl_is. apply lineof_loop_reads; lia || done.
Qed.
Lemma tails_reads k i : (i + k ≤ length t)%nat → reads (tails k (Z.of_nat i)) (forallb follow_byte (take k (drop i t))) e.
Proof.
  revert i. induction k as [|k IH]; intros i Hi; unfold reads; cbn [tails]; [done|].
  destruct (lookup_lt_is_Some_2 t i ltac:(lia)) as [c Hc]. rewrite (pbind_eq _ _ _ _ _ (byte_reads i c Hc)).
  rewrite (drop_S _ _ _ Hc), follow_byte_is. cbn [take forallb]. destruct (follow_byte c); [|done]. replace (Z.of_nat i + 1) with (Z.of_nat (S i)) by lia.
  by rewrite (IH (S i)) by lia.
Qed.
Lemma ulen_reads i : (i < length t)%nat → reads (ulen (Z.of_nat i)) (Z.of_nat (char_len (drop i t))) e.
Proof.
  intros Hi. destruct (lookup_lt_is_Some_2 t i Hi) as [c Hc]. unfold reads, ulen. rewrite (pbind_eq _ _ _ _ _ (byte_reads i c Hc)).
  rewrite (drop_S _ _ _ Hc), seq_len_is. cbn [char_len length]. rewrite length_drop. pose proof (seq_len_range c).
  destruct (Z.eqb_spec (seq_len c) 1) as [->|Hn].
  { change (Z.to_nat 1) with 1%nat. cbn [Nat.leb Nat.sub take forallb]. done. }
  rewrite (pbind_eq _ _ _ (ed_len e) e) by done. rewrite (ti_len _ _ Ht).
  destruct (Z.ltb_spec (Z.of_nat (length t)) (Z.of_nat i + seq_len c)).
  { rewrite (proj2 (Nat.leb_gt _ _)) by lia. done. }
  rewrite (proj2 (Nat.leb_le _ _)) by lia. cbn [andb]. replace (Z.of_nat i + 1) with (Z.of_nat (S i)) by lia.
  replace (Z.to_nat (seq_len c - 1)) with (Z.to_nat (seq_len c) - 1)%nat by lia.
  rewrite (pbind_eq _ _ _ _ _ (tails_reads (Z.to_nat (seq_len c) - 1) (S i) ltac:(lia))).
  destruct (forallb _ _); unfold pret; do 2 f_equal; lia.
Qed.
Lemma next_reads p : (p ≤ length t)%nat → reads (ed_next (Z.of_nat p)) (Z.of_nat (p + char_len (drop p t))) e.
Proof.
  intros Hp. unfold reads, ed_next. rewrite (pbind_eq _ _ _ (ed_len e) e) by done. rewrite (ti_len _ _ Ht).
  destruct (Z.leb_spec (Z.of_nat (length t)) (Z.of_nat p)).
  { rewrite drop_ge by lia. cbn [char_len]. unfold pret. do 2 f_equal. lia. }
  rewrite (pbind_eq _ _ _ _ _ (ulen_reads p ltac:(lia))). pose proof (char_len_pos (drop p t)) as Hc. rewrite length_drop in Hc.
  assert (drop p t ≠ []) as Hne by (intros E%(f_equal length); rewrite length_drop in E; cbn in E; lia). specialize (Hc Hne).
  rewrite (proj2 (Z.ltb_ge _ _)) by lia. unfold pret. do 2 f_equal. lia.
Qed.
Lemma prev_loop_reads q n : (q < length t)%nat → (q ≤ n)%nat → reads (prev_loop n (Z.of_nat q)) (Z.of_nat (length (strip_char (rev (take (S q) t))))) e.
Proof.
  revert n. induction q as [|q IH]; intros n Hq Hn; unfold reads.
  - destruct t as [|c t']; [cbn in Hq; lia|]. destruct n; done.
  - destruct n as [|n]; [lia|]. cbn [prev_loop]. rewrite (proj2 (Z.ltb_lt _ _)) by lia.
    destruct (lookup_lt_is_Some_2 t (S q) Hq) as [c Hc]. rewrite (pbind_eq _ _ _ _ _ (byte_reads _ c Hc)).
    rewrite (take_S_r _ _ _ Hc), rev_app_distr. cbn [rev app]. destruct (lookup_lt_is_Some_2 t q ltac:(lia)) as [d Hd].
    assert (rev (take (S q) t) = d :: rev (take q t)) as E by (rewrite (take_S_r _ _ _ Hd), rev_app_distr; done).
    rewrite follow_byte_is. cbn [strip_char]. rewrite E. cbn iota. destruct (follow_byte c).
    + replace (Z.of_nat (S q) - 1) with (Z.of_nat q) by lia. rewrite <- E. apply IH; lia.
    + unfold pret. cbn [length]. rewrite length_rev, length_take. do 2 f_equal. lia.
Qed.
Lemma prev_reads p : (p ≤ length t)%nat → reads (ed_prev (Z.of_nat p)) (Z.of_nat (length (strip_char (rev (take p t))))) e.
Proof.
  intros Hp. unfold reads, ed_prev. destruct p as [|p]; [done|]. rewrite (proj2 (Z.leb_gt _ _)) by lia.
  replace (Z.of_nat (S p) - 1) with (Z.of_nat p) by lia. apply prev_loop_reads; lia.
Qed.

(** Along one line. *)
Section line.
Context (l : nat) (Hl : (l < length (lines_of t))%nat).
Abbreviation L := (nth l (lines_of t) []).
Abbreviation b := (line_begin (lines_of t) l).
Lemma line_in_text j : (j < length L)%nat → t !! (b + j)%nat = L !! j ∧ char_len (drop (b + j) t) = char_len (drop j L) ∧ (b + length L ≤ length t)%nat.
Proof.
  intros Hj. destruct (line_at t l Hl) as (rest & H1 & H2 & H3). split_and!; [| |lia].
  - rewrite <- lookup_drop, H1, lookup_app_l by done. done.
  - rewrite <- drop_drop, H1, drop_app_le by lia. apply char_len_local.
    + intros E%(f_equal length). rewrite length_drop in E. cbn in E. lia.
    + destruct (decide _); [by left|right; apply H3].
Qed.
Lemma drop_nonempty j : (j < length L)%nat → drop j L ≠ [].
Proof. intros Hj E%(f_equal length). rewrite length_drop in E. cbn in E. lia. Qed.
Lemma next_on_line j : (j < length L)%nat → reads (ed_next (Z.of_nat (b + j))) (Z.of_nat (b + (j + char_len (drop j L)))) e.
Proof.
  intros Hj. destruct (line_in_text j Hj) as (_ & <- & Hb). unfold reads. rewrite (next_reads (b + j)) by lia. do 2 f_equal. lia.
Qed.
Lemma chars_on_line j : (j < length L)%nat →
  chars (drop j L) = take (char_len (drop j L)) (drop j L) :: chars (drop (j + char_len (drop j L)) L) ∧
  (1 ≤ char_len (drop j L) ≤ length L - j)%nat.
Proof.
  intros Hj. pose proof (drop_nonempty j Hj) as Hne. rewrite chars_step, drop_drop at 1 by done.
  pose proof (char_len_pos _ Hne) as Hc. rewrite length_drop in Hc. done.
Qed.
Lemma cols_reads tab p j k n :
  (j ≤ length L)%nat → (length L - j ≤ k)%nat →
  reads (cols_loop k (Z.of_nat l) (Z.of_nat p) (Z.of_nat (b + j)) n tab) (columns tab (p - (b + j)) (chars (drop j L)) n) e.
Proof.
  revert j n. induction k as [|k IH]; intros j n Hj Hk; unfold reads; cbn [cols_loop]; rewrite (pbind_eq _ _ _ _ _ (end_reads l Hl)).
  { rewrite (proj2 (Z.ltb_ge _ (Z.of_nat (b + length L)))), andb_false_r by lia. rewrite columns_done; [done|]. right. by rewrite drop_ge by lia. }
  destruct (Z.ltb_spec (Z.of_nat (b + j)) (Z.of_nat (b + length L))) as [Hlt|Hge].
  2:{ rewrite andb_false_r. rewrite columns_done; [done|]. right. by rewrite drop_ge by lia. }
  destruct (Z.ltb_spec (Z.of_nat (b + j)) (Z.of_nat p)) as [Hp|Hp]; cbn [andb]; [|rewrite columns_done; [done|lia]].
  assert (j < length L)%nat as Hj' by lia. destruct (chars_on_line j Hj') as [E Hc].
  destruct (lookup_lt_is_Some_2 L j Hj') as [x Hx]. destruct (line_in_text j Hj') as (Hxt & _ & _). rewrite Hx in Hxt.
  rewrite (pbind_eq _ _ _ (if tab then x else 0) e) by (destruct tab; [by apply byte_reads|done]).
  rewrite E, columns_step by lia. unfold col_step at 1.
  assert (hd 0 (take (char_len (drop j L)) (drop j L)) = x) as Eh.
  { rewrite (drop_S _ _ _ Hx). rewrite (drop_S _ _ _ Hx) in Hc. destruct (char_len (x :: drop (S j) L)); [lia|done]. }
  rewrite Eh, length_take, length_drop, Nat.min_l by lia.
  destruct (Z.eqb_spec (if tab then x else 0) 9) as [E9|E9].
  - destruct tab; [|done]. clear Eh. subst x. change (true && (9 =? 9)) with true. cbn iota.
    assert (char_len (drop j L) = 1%nat) as -> by (rewrite (drop_S _ _ _ Hx); reflexivity).
    replace (Z.of_nat (b + j) + 1) with (Z.of_nat (b + (j + 1))) by lia. unfold reads in IH. rewrite IH by lia. do 3 f_equal. lia.
  - rewrite (pbind_eq _ _ _ _ _ (next_on_line j Hj')). unfold reads in IH. rewrite IH by lia.
    replace (tab && (x =? 9)) with false by (destruct tab; [symmetry; by apply Z.eqb_neq|done]). do 3 f_equal. lia.
Qed.
Lemma at_reads n j :
  (j ≤ length L)%nat →
  reads (at_loop n (Z.of_nat (b + j)) (Z.of_nat (b + length L))) (Z.of_nat (b + (j + length (concat (take n (chars (drop j L))))))) e.
Proof.
  revert j. induction n as [|n IH]; intros j Hj; unfold reads; cbn [at_loop]; [rewrite take_0; unfold pret; do 2 f_equal; cbn [concat length]; lia|].
  destruct (Z.ltb_spec (Z.of_nat (b + j)) (Z.of_nat (b + length L))) as [Hlt|Hge].
  2:{ rewrite drop_ge by lia. change (chars []) with (@nil (list Z)). rewrite take_nil. cbn [concat length]. unfold pret. do 2 f_equal. lia. }
  destruct (chars_on_line j ltac:(lia)) as [E Hc]. rewrite (pbind_eq _ _ _ _ _ (next_on_line j ltac:(lia))), E. unfold reads in IH. rewrite IH by lia.
  cbn [take concat]. rewrite length_app, length_take, length_drop, Nat.min_l by lia. do 2 f_equal. lia.
Qed.
Lemma col_reads tab p :
  reads (let* i := ed_line (Z.of_nat l) in let* len := gets ed_len in cols_loop (Z.to_nat len) (Z.of_nat l) (Z.of_nat p) i 0 tab)
    (columns tab (p - b) (chars L) 0) e.
Proof.
  unfold reads. rewrite (pbind_eq _ _ _ _ _ (line_reads l Hl)), (pbind_eq _ _ _ (ed_len e) e) by done. rewrite (ti_len _ _ Ht), Nat2Z.id.
  destruct (line_at t l Hl) as (rest & _ & H2 & _).
  replace (Z.of_nat b) with (Z.of_nat (b + 0)) by lia. rewrite (cols_reads tab p 0) by lia. rewrite drop_0, Nat.add_0_r. done.
Qed.
Lemma chars_reads p : reads (ed_chars (Z.of_nat l) (Z.of_nat p)) (Z.of_nat (begun (p - b) (chars L))) e.
Proof. unfold reads, ed_chars. rewrite col_reads, columns_chars. done. Qed.
Lemma scol_reads p : reads (ed_scol (Z.of_nat l) (Z.of_nat p)) (columns true (p - b) (chars L) 0) e.
Proof. apply col_reads. Qed.
Lemma at_line_reads n : reads (ed_at (Z.of_nat l) (Z.of_nat n)) (Z.of_nat (b + length (concat (take n (chars L))))) e.
Proof.
  unfold reads, ed_at. rewrite (pbind_eq _ _ _ _ _ (line_reads l Hl)), (pbind_eq _ _ _ _ _ (end_reads l Hl)), Nat2Z.id.
  replace (Z.of_nat b) with (Z.of_nat (b + 0)) by lia. rewrite (at_reads n 0) by lia. rewrite drop_0. done.
Qed.
End line.
End reading.

(** ** Room and the index *)

Lemma text_cap_bounds k cap want :
  0 < cap < 2 ^ 31 → want ≤ 2 ^ 30 → want ≤ cap * 2 ^ Z.of_nat k →
  want ≤ text_cap (2 * k) cap want ∧ cap ≤ text_cap (2 * k) cap want < 2 ^ 31.
Proof.
  assert (∀ n c, want ≤ c → text_cap n c want = c) as Hd.
  { intros [|n] c Hc; [done|]. cbn [text_cap]. by rewrite (proj2 (Z.ltb_ge _ _)). }
  assert (∀ n c, 0 < c < 2 ^ 30 → c < want → text_cap (S n) c want = text_cap n (c + (c / 2 + 1)) want) as Hs.
  { intros n c H1 H2. cbn [text_cap]. rewrite (proj2 (Z.ltb_lt _ _)) by done. f_equal. apply i32_small. ldiv. }
  revert cap. induction k as [|k IH]; intros cap Hc Hw Hk.
  { change (2 ^ Z.of_nat 0) with 1 in Hk. rewrite Hd by lia. lia. }
  destruct (Z.le_gt_cases want cap); [rewrite Hd by done; lia|].
  replace (2 * S k)%nat with (S (S (2 * k))) by lia. rewrite Hs by lia. set (c1 := cap + (cap / 2 + 1)).
  assert (cap < c1 < 2 ^ 31 ∧ 3 * cap ≤ 2 * c1) as [H1 H2] by (unfold c1; ldiv).
  destruct (Z.le_gt_cases want c1); [rewrite Hd by done; lia|]. rewrite Hs by lia. set (c2 := c1 + (c1 / 2 + 1)).
  assert (c1 < c2 < 2 ^ 31 ∧ 2 * cap ≤ c2) as [H3 H4] by (unfold c2; clearbody c1; ldiv).
  assert (want ≤ c2 * 2 ^ Z.of_nat k) as Hk2 by (rewrite Nat2Z.inj_succ, Z.pow_succ_r in Hk by lia; nia).
  destruct (IH c2 ltac:(lia) Hw Hk2). lia.
Qed.
Lemma lines_cap_bounds k cap lines :
  0 < cap < 2 ^ 31 → lines ≤ 2 ^ 30 → lines ≤ cap * 2 ^ Z.of_nat k → lines ≤ lines_cap k cap lines ∧ cap ≤ lines_cap k cap lines < 2 ^ 31.
Proof.
  revert cap. induction k as [|k IH]; intros cap Hc Hw Hk.
  { change (2 ^ Z.of_nat 0) with 1 in Hk. cbn [lines_cap]. lia. }
  cbn [lines_cap]. destruct (Z.ltb_spec cap lines) as [Hlt|]; [|lia]. rewrite i32_small by lia.
  rewrite Nat2Z.inj_succ, Z.pow_succ_r in Hk by lia. destruct (IH (cap * 2) ltac:(lia) Hw ltac:(nia)). lia.
Qed.

(** Memory is given, and no capacity is out of range. *)
Record roomy (e : ed_state) : Prop := {
  ro_oom : ed_oom e = []; ro_cap : ed_cap e < 2 ^ 31; ro_lcap : 0 ≤ ed_lcap e < 2 ^ 31; ro_nl : ed_nl e ≤ ed_lcap e }.
Section changing.
Context (stale : Z).

Lemma room_text e want :
  roomy e → want ≤ 2 ^ 30 →
  ∃ more, ed_room stale want 0 e = Some (true, e <| ed_buf := ed_buf e ++ more |>) ∧ want ≤ ed_cap e + Z.of_nat (length more) < 2 ^ 31.
Proof.
  intros R Hw. unfold ed_room. rewrite (pbind_eq _ _ _ e e) by done. destruct (Z.ltb_spec (ed_cap e) want) as [Hlt|Hge].
  - set (c0 := or_first (ed_cap e) 1024). assert (0 < c0 < 2 ^ 31 ∧ ed_cap e ≤ c0) as [H1 H2].
    { pose proof (ro_cap _ R). unfold c0, or_first, ed_cap in *. case_match; lia. }
    pose proof (text_cap_bounds 32 c0 want H1 Hw ltac:(lia)) as H3. change (2 * 32)%nat with ED_ROUNDS in H3.
    set (cap := text_cap ED_ROUNDS c0 want) in *. clearbody cap. unfold ed_mem, pbind, modify, pret. rewrite (ro_oom _ R). cbn [negb].
    pose proof (ro_lcap _ R). cbn [ed_lcap set_field set_ed_buf]. rewrite (proj2 (Z.ltb_ge _ 0)) by (cbn; lia).
    eexists. split; [reflexivity|]. rewrite repeat_length. unfold ed_cap in *. lia.
  - exists []. rewrite (pbind_eq _ _ _ true e) by done. cbn [negb]. pose proof (ro_lcap _ R).
    rewrite (proj2 (Z.ltb_ge _ 0)) by lia. cbn. rewrite app_nil_r. split; [by destruct e|]. pose proof (ro_cap _ R). lia.
Qed.
Lemma room_lines e lines :
  roomy e → lines ≤ 2 ^ 30 →
  ∃ c, ed_room stale 0 lines e = Some (true, e <| ed_lcap := c |>) ∧ lines ≤ c < 2 ^ 31 ∧ ed_lcap e ≤ c.
Proof.
  intros R Hw. unfold ed_room. rewrite (pbind_eq _ _ _ e e) by done. rewrite (proj2 (Z.ltb_ge (ed_cap e) 0)) by (unfold ed_cap; lia).
  rewrite (pbind_eq _ _ _ true e) by done. cbn [negb]. pose proof (ro_lcap _ R) as Hc.
  destruct (Z.ltb_spec (ed_lcap e) lines) as [Hlt|Hge].
  - set (c0 := or_first (ed_lcap e) 256). assert (0 < c0 < 2 ^ 31 ∧ ed_lcap e ≤ c0) as [H1 H2] by (unfold c0, or_first; case_match; lia).
    pose proof (lines_cap_bounds ED_ROUNDS c0 lines H1 Hw ltac:(unfold ED_ROUNDS; lia)) as H3.
    set (cap := lines_cap ED_ROUNDS c0 lines) in *. clearbody cap. unfold ed_mem, pbind, modify, pret. rewrite (ro_oom _ R).
    exists cap. split; [done|]. lia.
  - exists (ed_lcap e). split; [|lia]. by destruct e.
Qed.
Lemma index_loop_ok rest : ∀ done e,
  (done ++ rest) `prefix_of` ed_buf e → roomy e → ed_nl e + Z.of_nat (length rest) ≤ 2 ^ 30 →
  ∃ c, let e' := e <| ed_ls := ed_ls e ++ behind_newlines (Z.of_nat (length done)) rest |> <| ed_lcap := c |> in
    index_loop stale (length rest) (Z.of_nat (length done)) e = Some ((), e') ∧ roomy e'.
Proof.
  induction rest as [|x rest IH]; intros done e Hp R Hn.
  { exists (ed_lcap e). cbn. rewrite app_nil_r. destruct e. done. }
  cbn [length index_loop behind_newlines].
  assert (ed_buf e !! length done = Some x) as Hx by (eapply prefix_lookup_Some; [by rewrite list_lookup_middle|exact Hp]).
  rewrite (pbind_eq _ _ _ x e) by (unfold ed_byte; rewrite (proj2 (Z.ltb_ge _ _)), Nat2Z.id, Hx by lia; done).
  rewrite (cons_middle x), app_assoc in Hp.
  replace (Z.of_nat (length done) + 1) with (Z.of_nat (length (done ++ [x]))) by (rewrite length_app; cbn [length]; lia).
  destruct (x =? 10).
  - rewrite (pbind_eq _ _ _ (ed_nl e) e) by done. cbn [length] in Hn.
    destruct (room_lines e (ed_nl e + 1) R ltac:(lia)) as (c & Hr & Hc1 & Hc2). rewrite (pbind_eq _ _ _ _ _ Hr). cbn [negb].
    set (e1 := e <| ed_lcap := c |> <| ed_ls := ed_ls e ++ [Z.of_nat (length (done ++ [x]))] |>).
    rewrite (pbind_eq _ _ _ () e1).
    2:{ unfold ed_push. cbn [ed_lcap set_field set_ed_lcap]. unfold ed_nl in *. cbn. rewrite (proj2 (Z.ltb_lt _ _)) by lia. done. }
    pose proof (ro_lcap _ R). destruct (IH (done ++ [x]) e1 Hp) as (c' & H1 & H2).
    + constructor; cbn; try apply R; [lia|]. unfold e1, ed_nl in *. cbn. rewrite length_app. cbn [length]. lia.
    + unfold e1, ed_nl in *. cbn. rewrite length_app. cbn [length]. lia.
    + exists c'. unfold e1 in H1, H2. cbn in H1, H2 |- *. rewrite <- app_assoc in H1, H2. done.
  - destruct (IH (done ++ [x]) e Hp R ltac:(cbn [length] in Hn; lia)) as (c' & H1 & H2). by exists c'.
Qed.
Lemma index_ok t e :
  t `prefix_of` ed_buf e → ed_len e = Z.of_nat (length t) → Z.of_nat (length t) < 2 ^ 30 → roomy e →
  ∃ c, let e' := e <| ed_ls := starts_of t |> <| ed_lcap := c |> in ed_index stale e = Some ((), e') ∧ roomy e'.
Proof.
  intros Hp Hl Hs R. unfold ed_index. set (e0 := e <| ed_ls := [] |>). rewrite (pbind_eq _ _ _ () e0) by done.
  assert (roomy e0) as R0. { constructor; try apply R. }
  destruct (room_lines e0 1 R0 ltac:(lia)) as (c & Hr & Hc1 & Hc2). rewrite (pbind_eq _ _ _ _ _ Hr). cbn [negb].
  set (e1 := e0 <| ed_lcap := c |> <| ed_ls := [0] |>). rewrite (pbind_eq _ _ _ () e1).
  2:{ unfold ed_push. unfold ed_nl, e0. cbn. rewrite (proj2 (Z.ltb_lt _ _)) by lia. done. }
  rewrite (pbind_eq _ _ _ (ed_len e) e1) by done. rewrite Hl, Nat2Z.id.
  destruct (index_loop_ok t [] e1 Hp) as (c' & H1 & H2).
  - constructor; cbn; try apply R; unfold ed_nl; cbn; lia.
  - unfold ed_nl. cbn. lia.
  - exists c'. done.
Qed.

(** ** Moving bytes *)

Definition with_buf (l : list Z) (e : ed_state) : ed_state := e <| ed_buf := l |>.
Lemma put_ok i c e : (i < length (ed_buf e))%nat → ed_put (Z.of_nat i) c e = Some ((), with_buf (<[i := c]> (ed_buf e)) e).
Proof.
  intros Hi. unfold ed_put, ed_cap. rewrite (proj2 (Z.leb_le _ _)), (proj2 (Z.ltb_lt _ _)), Nat2Z.id by lia. done.
Qed.
Lemma get_ok i c e : ed_buf e !! i = Some c → ed_byte (Z.of_nat i) e = Some (c, e).
Proof. intros Hi. unfold ed_byte. by rewrite (proj2 (Z.ltb_ge _ _)), Nat2Z.id, Hi by lia. Qed.
Lemma move_up_ok n m : ∀ a e,
  (0 < n)%nat → (a + m + n ≤ length (ed_buf e))%nat →
  move_up m (Z.of_nat (a + m) - 1) (Z.of_nat n) e =
    Some ((), with_buf (take (a + n) (ed_buf e) ++ take m (drop a (ed_buf e)) ++ drop (a + m + n) (ed_buf e)) e).
Proof.
  induction m as [|m IH]; intros a e Hn Hl; cbn [move_up].
  { rewrite Nat.add_0_r, take_0, app_nil_l, take_drop. by destruct e. }
  replace (Z.of_nat (a + S m) - 1) with (Z.of_nat (a + m)) by lia.
  destruct (lookup_lt_is_Some_2 (ed_buf e) (a + m) ltac:(lia)) as [c Hc]. rewrite (pbind_eq _ _ _ _ _ (get_ok _ _ _ Hc)).
  replace (Z.of_nat (a + m) + Z.of_nat n) with (Z.of_nat (a + m + n)) by lia. rewrite (pbind_eq _ _ _ _ _ (put_ok (a + m + n) c e ltac:(lia))).
  set (b1 := <[(a + m + n)%nat := c]> (ed_buf e)). rewrite (IH a (with_buf b1 e) Hn) by (cbn; unfold b1; rewrite length_insert; lia).
  do 2 f_equal. unfold with_buf. cbn [set_field set_ed_buf ed_buf]. f_equal. rewrite (take_S_r _ m c) by (by rewrite lookup_drop).
  rewrite <- app_assoc. unfold b1. f_equal; [by rewrite take_insert_ge by lia|]. f_equal.
  - apply list_eq. intros k. destruct (Nat.lt_ge_cases k m).
    + rewrite !lookup_take_lt, !lookup_drop by lia. apply list_lookup_insert_ne. lia.
    + rewrite !lookup_take_ge by lia. done.
  - rewrite (drop_S _ c) by (rewrite list_lookup_insert_eq by lia; done). cbn [app]. f_equal.
    replace (a + S m + n)%nat with (S (a + m + n)) by lia. apply drop_insert_lt. lia.
Qed.
Lemma move_down_ok n m : ∀ a e,
  (0 < n)%nat → (a + m + n ≤ length (ed_buf e))%nat →
  move_down m (Z.of_nat a) (Z.of_nat n) e =
    Some ((), with_buf (take a (ed_buf e) ++ take m (drop (a + n) (ed_buf e)) ++ drop (a + m) (ed_buf e)) e).
Proof.
  induction m as [|m IH]; intros a e Hn Hl; cbn [move_down].
  { rewrite Nat.add_0_r, take_0, app_nil_l, take_drop. by destruct e. }
  replace (Z.of_nat a + Z.of_nat n) with (Z.of_nat (a + n)) by lia.
  destruct (lookup_lt_is_Some_2 (ed_buf e) (a + n) ltac:(lia)) as [c Hc]. rewrite (pbind_eq _ _ _ _ _ (get_ok _ _ _ Hc)).
  rewrite (pbind_eq _ _ _ _ _ (put_ok a c e ltac:(lia))). set (b1 := <[a := c]> (ed_buf e)).
  replace (Z.of_nat a + 1) with (Z.of_nat (S a)) by lia.
  assert (length b1 = length (ed_buf e)) as Eb by apply length_insert.
  rewrite (IH (S a) (with_buf b1 e) Hn) by (cbn; lia). do 2 f_equal. unfold with_buf. cbn [set_field set_ed_buf ed_buf]. f_equal.
  rewrite (take_S_r b1 a c) by (apply list_lookup_insert_eq; lia). unfold b1. rewrite take_insert_ge by lia.
  rewrite <- app_assoc. cbn [app]. f_equal. rewrite (drop_S (ed_buf e) c (a + n)) by done. cbn [take app]. f_equal.
  rewrite !drop_insert_lt by lia. do 2 f_equal; lia.
Qed.
Lemma put_all_ok s : ∀ i e,
  (i + length s ≤ length (ed_buf e))%nat →
  put_all (Z.of_nat i) s e = Some ((), with_buf (take i (ed_buf e) ++ s ++ drop (i + length s) (ed_buf e)) e).
Proof.
  induction s as [|c s IH]; intros i e Hl; cbn [put_all length] in *.
  { rewrite Nat.add_0_r, app_nil_l, take_drop. by destruct e. }
  rewrite (pbind_eq _ _ _ _ _ (put_ok i c e ltac:(lia))). set (b1 := <[i := c]> (ed_buf e)).
  assert (length b1 = length (ed_buf e)) as Eb by apply length_insert.
  replace (Z.of_nat i + 1) with (Z.of_nat (S i)) by lia. rewrite (IH (S i) (with_buf b1 e)) by (cbn; lia).
  do 2 f_equal. unfold with_buf. cbn [set_field set_ed_buf ed_buf]. f_equal.
  rewrite (take_S_r b1 i c) by (apply list_lookup_insert_eq; lia). unfold b1. rewrite take_insert_ge by lia.
  rewrite <- app_assoc. cbn [app]. do 2 f_equal. rewrite drop_insert_lt by lia. f_equal. f_equal. lia.
Qed.

(** ** Keys *)

(** The variables hold document [d]. *)
Record holds (d : document) (e : ed_state) : Prop := {
  ho_in : text_in (d_text d) e; ho_room : roomy e; ho_pos : ed_pos e = Z.of_nat (d_pos d);
  ho_at : (d_pos d ≤ length (d_text d))%nat; ho_dirty : ed_dirty e = d_dirty d }.
Lemma holds_at d e p :
  holds d e → (p ≤ length (d_text d))%nat → holds (mkDoc (d_text d) p (d_dirty d)) (e <| ed_pos := Z.of_nat p |>).
Proof. intros [[] [] ? ? ?] Hp. by constructor. Qed.
(** The index is built over a changed buffer. *)
Lemma rebuilt t p e :
  t `prefix_of` ed_buf e → ed_len e = Z.of_nat (length t) → Z.of_nat (length t) < 2 ^ 30 → roomy e →
  ed_pos e = Z.of_nat p → (p ≤ length t)%nat → ed_dirty e = true →
  ∃ e', ed_index stale e = Some ((), e') ∧ holds (mkDoc t p true) e'.
Proof.
  intros Ht Hl Hs R Hp Hpt Hd. destruct (index_ok t e Ht Hl Hs R) as (c & E & R'). eexists. split; [exact E|]. by constructor.
Qed.
Lemma insert_ok d e s :
  holds d e → s ≠ [] → Z.of_nat (length (d_text d) + length s) < 2 ^ 30 →
  ∃ e', ed_insert stale s e = Some (true, e') ∧ holds (d_insert s d) e'.
Proof.
  intros H Hs Hl. destruct d as [t p dirty]. cbn [d_text d_pos] in *. pose proof (ho_at _ _ H) as Hp. cbn in Hp.
  assert (0 < length s)%nat as Hs0 by (destruct s; [done|cbn; lia]).
  unfold ed_insert. cbv zeta. rewrite (pbind_eq _ _ _ e e) by done. rewrite (ti_len _ _ (ho_in _ _ H)), (ho_pos _ _ H), i32_small by (cbn; lia). cbn [d_text d_pos].
  destruct (room_text e (Z.of_nat (length t) + Z.of_nat (length s)) (ho_room _ _ H) ltac:(lia)) as (more & Hr & Hm).
  rewrite (pbind_eq _ _ _ _ _ Hr). cbn [negb]. set (e1 := e <| ed_buf := ed_buf e ++ more |>).
  destruct (ti_text _ _ (ho_in _ _ H)) as [r Hb]. cbn [d_text] in Hb. unfold ed_cap in Hm.
  assert (ed_buf e1 = t ++ r ++ more) as Hb1 by (unfold e1; cbn; by rewrite Hb, app_assoc).
  assert (length t + length s ≤ length (t ++ r ++ more))%nat as Hlen by (rewrite app_assoc, <- Hb, length_app; lia).
  assert (length (t ++ r ++ more) = length (ed_buf e) + length more)%nat as Htot by (rewrite app_assoc, <- Hb; apply length_app).
  replace (Z.to_nat (Z.of_nat (length t) - Z.of_nat p)) with (length t - p)%nat by lia.
  replace (Z.of_nat (length t) - 1) with (Z.of_nat (p + (length t - p)) - 1) by lia.
  rewrite (pbind_eq _ _ _ _ _ (move_up_ok (length s) (length t - p) p e1 Hs0 ltac:(rewrite Hb1; lia))).
  set (b2 := _ ++ _ ++ _). set (e2 := with_buf b2 e1).
  assert (take p b2 = take p t ∧ drop (p + length s) b2 = drop p t ++ drop (length t + length s) (t ++ r ++ more) ∧ length b2 = length (t ++ r ++ more)) as (B1 & B2 & B3).
  { unfold b2. rewrite Hb1. replace (p + (length t - p))%nat with (length t) by lia.
    rewrite (drop_app_le t (r ++ more) p) by lia. rewrite (take_app_le (drop p t)) by (rewrite length_drop; lia).
    rewrite (take_ge (drop p t)) by (rewrite length_drop; lia). split_and!.
    - rewrite take_app_le by (rewrite length_take; lia). rewrite take_take, Nat.min_l by lia. by rewrite take_app_le by lia.
    - rewrite drop_app_length' by (rewrite length_take; lia). done.
    - rewrite !length_app, length_take, !length_drop, !length_app in *. lia. }
  rewrite (pbind_eq _ _ _ _ _ (put_all_ok s p e2 ltac:(unfold e2; cbn; lia))). cbn [ed_buf e2 with_buf set_field set_ed_buf].
  rewrite B1, B2. set (e3 := with_buf _ e2).
  set (e4 := e3 <| ed_len := ed_len e3 + Z.of_nat (length s) |> <| ed_pos := ed_pos e3 + Z.of_nat (length s) |> <| ed_dirty := true |>).
  rewrite (pbind_eq _ _ _ () e4) by done.
  destruct (rebuilt (take p t ++ s ++ drop p t) (p + length s) e4) as (e' & E & H').
  - unfold e4, e3. cbn. rewrite !app_assoc. apply prefix_app_r. done.
  - unfold e4, e3, e2, e1. cbn. rewrite (ti_len _ _ (ho_in _ _ H)), !length_app, length_take, length_drop. cbn. lia.
  - rewrite !length_app, length_take, length_drop. lia.
  - constructor; try apply (ho_room _ _ H). unfold ed_cap, e4, e3. cbn. rewrite !length_app, length_take, !length_drop, Htot. lia.
  - unfold e4, e3, e2, e1. cbn. rewrite (ho_pos _ _ H). cbn. lia.
  - rewrite !length_app, length_take, length_drop. lia.
  - done.
  - exists e'. rewrite (pbind_eq _ _ _ _ _ E). done.
Qed.
Lemma remove_ok t p n e :
  text_in t e → roomy e → ed_pos e = Z.of_nat p → (0 < n)%nat → (p + n ≤ length t)%nat → Z.of_nat (length t) < 2 ^ 30 →
  ∃ e', ed_remove stale (Z.of_nat p) (Z.of_nat n) e = Some ((), e') ∧ holds (mkDoc (take p t ++ drop (p + n) t) p true) e'.
Proof.
  intros H R Hp Hn Hl Hs. unfold ed_remove. rewrite (pbind_eq _ _ _ e e) by done. rewrite (ti_len _ _ H).
  rewrite (proj2 (Z.ltb_ge _ 0)), (proj2 (Z.leb_gt _ 0)), (proj2 (Z.ltb_ge _ _)) by lia. cbn [orb].
  destruct (ti_text _ _ H) as [r Hb].
  replace (Z.to_nat (Z.of_nat (length t) - Z.of_nat n - Z.of_nat p)) with (length t - n - p)%nat by lia.
  rewrite (pbind_eq _ _ _ _ _ (move_down_ok n (length t - n - p) p e Hn ltac:(rewrite Hb, length_app; lia))).
  set (b2 := _ ++ _ ++ _).
  assert (b2 = (take p t ++ drop (p + n) t) ++ drop (length t - n) (t ++ r)) as B.
  { unfold b2. rewrite Hb, (take_app_le t), (drop_app_le t r (p + n)), (take_app_le (drop (p + n) t)) by (rewrite ?length_drop; lia).
    rewrite (take_ge (drop (p + n) t)) by (rewrite length_drop; lia). rewrite <- app_assoc. do 3 f_equal. lia. }
  set (e4 := with_buf b2 e <| ed_len := Z.of_nat (length t) - Z.of_nat n |> <| ed_pos := Z.of_nat p |> <| ed_dirty := true |>).
  rewrite (pbind_eq _ _ _ () e4).
  2:{ unfold modify, e4. cbn. rewrite (ti_len _ _ H), Hp, (proj2 (Z.ltb_ge _ _)) by lia. done. }
  apply rebuilt.
  - unfold e4. cbn. rewrite B. by apply prefix_app_r.
  - unfold e4. cbn. rewrite length_app, length_take, length_drop. lia.
  - rewrite length_app, length_take, length_drop. lia.
  - constructor; try apply R. unfold ed_cap, e4. cbn. rewrite B, !length_app, length_take, !length_drop, length_app.
    pose proof (ro_cap _ R) as Hc. unfold ed_cap in Hc. rewrite Hb, length_app in Hc. lia.
  - done.
  - rewrite length_app, length_take, length_drop. lia.
  - done.
Qed.

(** ** The cursor *)

Lemma concat_chars_le n l : (length (concat (take n (chars l))) ≤ length l)%nat.
Proof.
  revert l. induction n as [|n IH]; intros l; [rewrite take_0; apply Nat.le_0_l|]. destruct l as [|c l]; [done|].
  rewrite chars_step by done. cbn [take concat]. rewrite length_app. specialize (IH (drop (char_len (c :: l)) (c :: l))).
  rewrite length_take. rewrite length_drop in IH. lia.
Qed.
Lemma strip_char_le rb : (length (strip_char rb) ≤ length rb - 1)%nat.
Proof. induction rb as [|c [|c' r] IH]; cbn [strip_char length] in *; [lia..|]. destruct (follow_byte c); cbn [length] in *; lia. Qed.
Lemma goto_in_text d l col : (l < length (d_lines d))%nat → (d_goto d l col ≤ length (d_text d))%nat.
Proof.
  intros Hl. destruct (line_at (d_text d) l Hl) as (rest & _ & H2 & _). unfold d_goto, the_line, d_lines in *.
  pose proof (concat_chars_le col (nth l (lines_of (d_text d)) [])). lia.
Qed.
Lemma prev_le d : (d_prev d ≤ d_pos d - 1)%nat.
Proof.
  unfold d_prev. pose proof (strip_char_le (rev (take (d_pos d) (d_text d)))) as H. rewrite length_rev, length_take in H. lia.
Qed.
Lemma next_le d : (d_pos d ≤ length (d_text d))%nat → (d_next d ≤ length (d_text d))%nat.
Proof.
  intros Hp. unfold d_next. destruct (drop (d_pos d) (d_text d)) as [|c t] eqn:E; [cbn; lia|].
  pose proof (char_len_pos (c :: t) ltac:(done)) as Hc. rewrite <- E, length_drop in Hc. rewrite <- E. lia.
Qed.

Section cursor.
Context (d : document) (e : ed_state) (H : holds d e).
Lemma line_is : reads (ed_lineof (ed_pos e)) (Z.of_nat (d_line d)) e.
Proof. unfold reads. rewrite (ho_pos _ _ H). apply (lineof_reads _ _ (ho_in _ _ H)), H. Qed.
Lemma line_bound : (d_line d < length (d_lines d))%nat ∧ (d_home d ≤ d_pos d ≤ d_end d)%nat.
Proof. exact (line_of_pos (d_text d) (d_pos d) (ho_at _ _ H)). Qed.
Lemma col_is : reads (ed_chars (Z.of_nat (d_line d)) (ed_pos e)) (Z.of_nat (d_col d)) e.
Proof. unfold reads. rewrite (ho_pos _ _ H). apply (chars_reads _ _ (ho_in _ _ H)), line_bound. Qed.
Lemma ed_goto_ok l col :
  (l < length (d_lines d))%nat →
  ed_goto (Z.of_nat l) (Z.of_nat col) e = Some ((), e <| ed_pos := Z.of_nat (d_goto d l col) |>) ∧
  holds (mkDoc (d_text d) (d_goto d l col) (d_dirty d)) (e <| ed_pos := Z.of_nat (d_goto d l col) |>).
Proof.
  intros Hl. split; [|by apply holds_at, goto_in_text]. unfold ed_goto.
  by rewrite (pbind_eq _ _ _ _ _ (at_line_reads _ _ (ho_in _ _ H) l Hl col)).
Qed.
End cursor.
(** Only what the window shows differs. *)
Lemma holds_scrolled d e top hoff : holds d e → holds d (e <| ed_top := top |> <| ed_hoff := hoff |>).
Proof. intros [[] [] ? ? ?]. by constructor. Qed.
Lemma holds_top d e top : holds d e → holds d (e <| ed_top := top |>).
Proof. intros [[] [] ? ? ?]. by constructor. Qed.
Lemma holds_hoff d e hoff : holds d e → holds d (e <| ed_hoff := hoff |>).
Proof. intros [[] [] ? ? ?]. by constructor. Qed.
Lemma holds_same d e : holds d e → holds (mkDoc (d_text d) (d_pos d) (d_dirty d)) e.
Proof. by destruct d. Qed.
(** A key that moves. *)
Lemma motion_ok d e h writable k :
  holds d e →
  ∃ e', ed_motion (Z.of_nat h) writable k e = Some (bool_decide (is_Some (d_motion h writable k d)), e') ∧
    holds (mkDoc (d_text d) (default (d_pos d) (d_motion h writable k d)) (d_dirty d)) e' ∧
    (d_motion h writable k d = None → e' = e).
Proof.
  intros H. unfold ed_motion, d_motion. rewrite (pbind_eq _ _ _ e e), (pbind_eq _ _ _ _ _ (line_is d e H)) by done.
  destruct (line_bound d e H) as [Hl Hp]. pose proof (ed_nl_is _ _ (ho_in _ _ H)) as Hn. change (lines_of (d_text d)) with (d_lines d) in Hn.
  pose proof (col_is d e H) as Hc.
  destruct (k =? KEY_UP). 2:destruct (k =? KEY_DOWN). 3:destruct (k =? KEY_LEFT). 4:destruct (k =? KEY_RIGHT).
  5:destruct (k =? KEY_HOME). 6:destruct (k =? KEY_END). 7:destruct (k =? KEY_PPAGE). 8:destruct (k =? KEY_NPAGE).
  - cbn [default]. destruct (Nat.eqb_spec (d_line d) 0) as [E|E].
    + rewrite (proj2 (Z.ltb_ge _ _)) by lia. exists e. split; [done|]. split; [by apply holds_same|done].
    + rewrite (proj2 (Z.ltb_lt _ _)) by lia. replace (Z.of_nat (d_line d) - 1) with (Z.of_nat (d_line d - 1)) by lia.
      destruct (ed_goto_ok d e H (d_line d - 1) (d_col d) ltac:(lia)) as [G1 G2].
      rewrite (pbind_eq _ _ _ () (e <| ed_pos := Z.of_nat (d_goto d (d_line d - 1) (d_col d)) |>)) by by rewrite (pbind_eq _ _ _ _ _ Hc).
      eexists. split; [done|]. split; [exact G2|done].
  - cbn [default]. rewrite Hn. destruct (Nat.ltb_spec (S (d_line d)) (length (d_lines d))) as [E|E].
    + rewrite (proj2 (Z.ltb_lt _ _)) by lia. replace (Z.of_nat (d_line d) + 1) with (Z.of_nat (S (d_line d))) by lia.
      destruct (ed_goto_ok d e H (S (d_line d)) (d_col d) ltac:(lia)) as [G1 G2].
      rewrite (pbind_eq _ _ _ () (e <| ed_pos := Z.of_nat (d_goto d (S (d_line d)) (d_col d)) |>)) by by rewrite (pbind_eq _ _ _ _ _ Hc).
      eexists. split; [done|]. split; [exact G2|done].
    + rewrite (proj2 (Z.ltb_ge _ _)) by lia. exists e. split; [done|]. split; [by apply holds_same|done].
  - destruct writable; cbn [default].
    + pose proof (prev_reads _ _ (ho_in _ _ H) (d_pos d) (ho_at _ _ H)) as Hr. rewrite (ho_pos _ _ H).
      eexists. split; [by rewrite <- pbind_assoc, (pbind_eq _ _ _ _ _ Hr)|]. split; [|done]. apply holds_at; [done|].
      pose proof (prev_le d) as Hle. pose proof (ho_at _ _ H). unfold d_prev in Hle. lia.
    + eexists. split; [done|]. split; [|done]. by apply holds_hoff, holds_same.
  - destruct writable; cbn [default].
    + pose proof (next_reads _ _ (ho_in _ _ H) (d_pos d) (ho_at _ _ H)) as Hr. rewrite (ho_pos _ _ H).
      eexists. split; [by rewrite <- pbind_assoc, (pbind_eq _ _ _ _ _ Hr)|]. split; [|done]. apply holds_at; [done|]. apply next_le, H.
    + eexists. split; [done|]. split; [|done]. by apply holds_hoff, holds_same.
  - cbn [default]. eexists. split; [by rewrite (pbind_eq _ _ _ _ _ (line_reads _ _ (ho_in _ _ H) _ Hl))|]. split; [|done].
    apply holds_at; [done|]. pose proof (ho_at _ _ H). unfold d_home, d_lines in *. lia.
  - cbn [default]. eexists. split; [by rewrite (pbind_eq _ _ _ _ _ (end_reads _ _ (ho_in _ _ H) _ Hl))|]. split; [|done].
    apply holds_at; [done|]. destruct (line_at (d_text d) (d_line d) Hl) as (rest & _ & H2 & _). unfold d_end, d_home, the_line, d_lines. lia.
  - cbn [default]. rewrite (pbind_eq _ _ _ _ _ Hc).
    replace (if Z.of_nat (d_line d) - Z.of_nat h <? 0 then 0 else Z.of_nat (d_line d) - Z.of_nat h) with (Z.of_nat (d_line d - h))
      by (destruct (Z.ltb_spec (Z.of_nat (d_line d) - Z.of_nat h) 0); lia).
    destruct (ed_goto_ok d e H (d_line d - h) (d_col d) ltac:(lia)) as [G1 G2]. rewrite (pbind_eq _ _ _ _ _ G1).
    eexists. split; [done|]. split; [by apply holds_top|done].
  - cbn [default]. rewrite (pbind_eq _ _ _ _ _ Hc), Hn.
    replace (if Z.of_nat (length (d_lines d)) <=? Z.of_nat (d_line d) + Z.of_nat h then Z.of_nat (length (d_lines d)) - 1 else Z.of_nat (d_line d) + Z.of_nat h)
      with (Z.of_nat (Nat.min (d_line d + h) (length (d_lines d) - 1))) by (destruct (Z.leb_spec (Z.of_nat (length (d_lines d))) (Z.of_nat (d_line d) + Z.of_nat h)); lia).
    destruct (ed_goto_ok d e H (Nat.min (d_line d + h) (length (d_lines d) - 1)) (d_col d) ltac:(lia)) as [G1 G2]. rewrite (pbind_eq _ _ _ _ _ G1).
    eexists. split; [done|]. split; [by apply holds_top|done].
  - exists e. split; [done|]. split; [by apply holds_same|done].
Qed.
Lemma type_ok d e k :
  holds d e → Z.of_nat (length (d_text d)) + 1 < 2 ^ 30 →
  ∃ e', ed_type stale k e = Some (true, e') ∧ holds (d_type k d) e'.
Proof.
  intros H Hs. unfold ed_type, d_type. rewrite (pbind_eq _ _ _ e e) by done. pose proof (ho_at _ _ H) as Hp.
  assert (∀ c, ∃ e', ed_insert stale [c] e = Some (true, e') ∧ holds (d_insert [c] d) e') as Hins.
  { intros c. apply insert_ok; [done|done|]. cbn [length]. lia. }
  destruct ((k =? 13) || (k =? 10) || (k =? KEY_ENTER)).
  { destruct (Hins 10) as (e' & E & H'). exists e'. by rewrite (pbind_eq _ _ _ _ _ E). }
  destruct ((k =? 8) || (k =? 127) || (k =? KEY_BACKSPACE)).
  { rewrite (ho_pos _ _ H). destruct (Nat.eqb_spec (d_pos d) 0) as [E0|E0].
    { rewrite (proj2 (Z.ltb_ge _ _)) by lia. by exists e. }
    rewrite (proj2 (Z.ltb_lt _ _)) by lia. pose proof (prev_le d) as Hle.
    rewrite (pbind_eq _ _ _ _ _ (prev_reads _ _ (ho_in _ _ H) (d_pos d) Hp)). change (length (strip_char _)) with (d_prev d).
    set (e1 := e <| ed_pos := Z.of_nat (d_prev d) |>). rewrite (pbind_eq _ _ _ () e1) by done.
    pose proof (holds_at d e (d_prev d) H ltac:(lia)) as H1. fold e1 in H1.
    destruct (remove_ok (d_text d) (d_prev d) (d_pos d - d_prev d) e1 (ho_in _ _ H1) (ho_room _ _ H1) eq_refl) as (e' & E & H'); [lia..|].
    replace (Z.of_nat (d_pos d - d_prev d)) with (Z.of_nat (d_pos d) - Z.of_nat (d_prev d)) in E by lia. rewrite (pbind_eq _ _ _ _ _ E).
    exists e'. split; [done|]. unfold d_cut. replace (d_prev d + (d_pos d - d_prev d))%nat with (d_pos d) in H' by lia. exact H'. }
  destruct (k =? KEY_DC).
  { rewrite (ho_pos _ _ H), (ti_len _ _ (ho_in _ _ H)). destruct (Nat.ltb_spec (d_pos d) (length (d_text d))) as [Hlt|Hge].
    2:{ rewrite (proj2 (Z.ltb_ge _ _)) by lia. by exists e. }
    rewrite (proj2 (Z.ltb_lt _ _)) by lia. rewrite (pbind_eq _ _ _ _ _ (next_reads _ _ (ho_in _ _ H) (d_pos d) Hp)).
    pose proof (next_le d Hp) as Hn. unfold d_next in *. set (n := char_len _) in *.
    assert (0 < n)%nat as Hn0. { unfold n. destruct (drop (d_pos d) (d_text d)) as [|c t] eqn:E; [apply (f_equal length) in E; rewrite length_drop in E; cbn in E; lia|]. pose proof (char_len_pos (c :: t) ltac:(done)). lia. }
    destruct (remove_ok (d_text d) (d_pos d) n e (ho_in _ _ H) (ho_room _ _ H) (ho_pos _ _ H) Hn0 Hn ltac:(lia)) as (e' & E & H').
    replace (Z.of_nat n) with (Z.of_nat (d_pos d + n) - Z.of_nat (d_pos d)) in E by lia. rewrite (pbind_eq _ _ _ _ _ E). by exists e'. }
  destruct (k =? 9).
  { destruct (Hins 9) as (e' & E & H'). exists e'. by rewrite (pbind_eq _ _ _ _ _ E). }
  destruct ((32 <=? k) && (k <? 256)); [apply Hins|by exists e].
Qed.

(** ** The window *)

(** The column of the cursor on the screen. *)
Definition d_scol (d : document) : Z := columns true (d_pos d - d_home d) (chars (the_line d (d_line d))) 0.
(** The cursor is among [h] lines and [w] columns of what is shown. *)
Definition cursor_shown (h w : Z) (d : document) (e : ed_state) : Prop :=
  0 ≤ ed_top e ≤ Z.of_nat (d_line d) ∧ Z.of_nat (d_line d) < ed_top e + h ∧ ed_hoff e ≤ d_scol d < ed_hoff e + w.
Lemma follow_ok d e h w :
  holds d e → 0 < h → 0 < w → ∃ e', ed_follow h w true e = Some ((), e') ∧ holds d e' ∧ cursor_shown h w d e'.
Proof.
  intros H Hh Hw. unfold ed_follow. rewrite (pbind_eq _ _ _ e e), (pbind_eq _ _ _ _ _ (line_is d e H)) by done.
  set (top1 := if Z.of_nat (d_line d) <? ed_top e then _ else _). set (top2 := if top1 + h <=? _ then _ else _). set (top := if top2 <? 0 then 0 else top2).
  assert (0 ≤ top ≤ Z.of_nat (d_line d) ∧ Z.of_nat (d_line d) < top + h) as [Htop1 Htop2].
  { assert (top1 ≤ Z.of_nat (d_line d)) as T1 by (unfold top1; split_ifs; lia). clearbody top1.
    assert (top2 ≤ Z.of_nat (d_line d) ∧ Z.of_nat (d_line d) < top2 + h) as T2 by (unfold top2; split_ifs; lia). clearbody top2. unfold top. split_ifs; lia. }
  clearbody top. clear top2 top1.
  set (e1 := e <| ed_top := top |>). rewrite (pbind_eq _ _ _ () e1) by done. cbn [negb].
  pose proof (holds_top d e top H) as H1. fold e1 in H1. destruct (line_bound d e1 H1) as [Hl _]. rewrite (ho_pos _ _ H).
  rewrite (pbind_eq _ _ _ _ _ (scol_reads _ _ (ho_in _ _ H1) _ Hl (d_pos d))). fold (d_scol d).
  change (columns true (d_pos d - line_begin (lines_of (d_text d)) (d_line d)) (chars (nth (d_line d) (lines_of (d_text d)) [])) 0) with (d_scol d).
  eexists. split; [reflexivity|]. split; [by apply holds_hoff|]. unfold cursor_shown. cbn. split_and!; [lia|lia|done|..]; split_ifs; lia.
Qed.

(** ** A session *)

(** The keys that edit: not those that leave, save or search. *)
Definition edit_key (k : Z) : Prop := k ≠ ERR ∧ k ≠ KEY_F 10 ∧ k ≠ KEY_F 2 ∧ k ≠ KEY_F 7.
Lemma d_type_length k d : (length (d_text (d_type k d)) ≤ S (length (d_text d)))%nat.
Proof.
  unfold d_type, d_insert, d_cut. pose proof (prev_le d). unfold d_next.
  split_ifs; cbn [d_text]; rewrite ?length_app, ?length_take, ?length_drop; cbn [length]; lia.
Qed.
Lemma key_ok d e h k :
  holds d e → Z.of_nat (length (d_text d)) + 1 < 2 ^ 30 →
  ∃ e', (let* moved := ed_motion (Z.of_nat h) true k in (if moved : bool then pret true else ed_type stale k)) e = Some (true, e') ∧
    holds (d_key h d k) e' ∧ (length (d_text (d_key h d k)) ≤ S (length (d_text d)))%nat.
Proof.
  intros H Hs. destruct (motion_ok d e h true k H) as (e1 & E & H1 & Hsame). rewrite (pbind_eq _ _ _ _ _ E). unfold d_key.
  destruct (d_motion h true k d) as [p|].
  - rewrite bool_decide_true by done. exists e1. split; [done|]. split; [done|]. cbn. lia.
  - rewrite bool_decide_false by by intros []. rewrite (Hsame eq_refl). destruct (type_ok d e k H Hs) as (e' & E' & H').
    exists e'. split; [done|]. split; [done|]. apply d_type_length.
Qed.
Lemma keys_ok h w ks : ∀ d e,
  holds d e → 0 < Z.of_nat h → 0 < w → Z.of_nat (length (d_text d) + length ks) < 2 ^ 30 → Forall edit_key ks →
  ∃ e', ed_keys stale (Z.of_nat h) w ks e = Some ((), e') ∧ holds (foldl (d_key h) d ks) e' ∧ cursor_shown (Z.of_nat h) w (foldl (d_key h) d ks) e'.
Proof.
  induction ks as [|k ks IH]; intros d e H Hh Hw Hs Hks; cbn [ed_keys foldl length] in *; destruct (follow_ok d e (Z.of_nat h) w H Hh Hw) as (e1 & E1 & H1 & S1);
    rewrite (pbind_eq _ _ _ _ _ E1).
  - by exists e1.
  - apply list.Forall_cons in Hks as [(K1 & K2 & K3 & K4) Hks].
    rewrite (proj2 (Z.eqb_neq _ _) K1), (proj2 (Z.eqb_neq _ _) K2), (proj2 (Z.eqb_neq _ _) K3), (proj2 (Z.eqb_neq _ _) K4). cbn [orb].
    destruct (key_ok d e1 h k H1 ltac:(lia)) as (e2 & E2 & H2 & L2). rewrite pbind_assoc, (pbind_eq _ _ _ _ _ E2).
    apply IH; [done..|lia|done].
Qed.
(** A file just loaded: the index is built and the cursor at its start. *)
Lemma loaded_ok t buf lcap top hoff dirty :
  t `prefix_of` buf → Z.of_nat (length t) < 2 ^ 30 → Z.of_nat (length buf) < 2 ^ 31 → 0 ≤ lcap < 2 ^ 31 →
  ∃ e', ed_index stale (mkEd buf (Z.of_nat (length t)) [] lcap 0 top hoff dirty []) = Some ((), e') ∧ holds (mkDoc t 0 dirty) e'.
Proof.
  intros Hp Hs Hb Hl. destruct (index_ok t (mkEd buf (Z.of_nat (length t)) [] lcap 0 top hoff dirty [])) as (c & E & R); [done..| |].
  { constructor; cbn [ed_oom ed_lcap]; unfold ed_cap, ed_nl; cbn [ed_buf ed_ls length]; lia || done. }
  eexists. split; [exact E|]. constructor; cbn; try done; lia.
Qed.

(** C4: the editor is an editor.  From a text in its buffer, whatever the
    buffer holds behind it, and as long as memory can be had and the text
    stays below a gigabyte, every sequence of keys - moving by characters,
    lines, pages and to the ends of lines, typing, Enter, Tab, Backspace and
    Delete; not those that leave, save or search - is handled without a
    fault, and leaves in the buffer the text, at the cursor the place and as
    its mark of change what it leaves of the plain document; the index
    holds where each line of it begins, and after it the cursor is within
    the lines and columns on the screen. *)
Theorem editor_is_an_editor t buf lcap top hoff h w ks :
  t `prefix_of` buf → Z.of_nat (length t + length ks) < 2 ^ 30 → Z.of_nat (length buf) < 2 ^ 31 → 0 ≤ lcap < 2 ^ 31 →
  (0 < h)%nat → 0 < w → Forall edit_key ks →
  let d := foldl (d_key h) (mkDoc t 0 false) ks in
  ∃ e', (let* _ := ed_index stale in ed_keys stale (Z.of_nat h) w ks)
          (mkEd buf (Z.of_nat (length t)) [] lcap 0 top hoff false []) = Some ((), e') ∧
    take (Z.to_nat (ed_len e')) (ed_buf e') = d_text d ∧ ed_pos e' = Z.of_nat (d_pos d) ∧ ed_dirty e' = d_dirty d ∧
    ed_ls e' = (λ l, Z.of_nat (line_begin (d_lines d) l)) <$> seq 0 (length (d_lines d)) ∧
    cursor_shown (Z.of_nat h) w d e'.
Proof.
  intros Hp Hs Hb Hl Hh Hw Hks. cbn zeta.
  destruct (loaded_ok t buf lcap top hoff false Hp ltac:(lia) Hb Hl) as (e1 & E1 & H1). rewrite (pbind_eq _ _ _ _ _ E1).
  destruct (keys_ok h w ks (mkDoc t 0 false) e1 H1 ltac:(lia) Hw Hs Hks) as (e2 & E2 & H2 & S2).
  revert H2 S2. generalize (foldl (d_key h) (mkDoc t 0 false) ks) as d. intros d H2 S2.
  exists e2. split; [exact E2|]. pose proof (ho_in _ _ H2) as [T1 T2 T3].
  split_and!; [|apply H2|apply H2| |apply S2..].
  - destruct T1 as [r ->]. by rewrite T2, Nat2Z.id, take_app_length.
  - rewrite T3. apply list_eq. intros l. destruct (decide (l < length (lines_of (d_text d)))%nat) as [Hlt|Hge].
    + rewrite starts_of_lookup by done. rewrite list_lookup_fmap, lookup_seq_lt by done. done.
    + rewrite !lookup_ge_None_2; [done| |by rewrite starts_of_length; lia]. rewrite length_fmap, length_seq. unfold d_lines. lia.
Qed.
End changing.

(** Two lines, of which the second begins with a character of two bytes:
    down, behind that character, Backspace, "x", up. *)
Definition demo_keys : list Z := [KEY_DOWN; KEY_RIGHT; KEY_BACKSPACE; 120; KEY_UP].
Lemma editor_is_an_editor_witness :
  ∃ e', (let* _ := ed_index 170 in ed_keys 170 22 80 demo_keys)
          (mkEd ([97; 98; 10; 0xc3; 0xa9; 99] ++ repeat 170 100) 6 [] 256 0 0 0 false []) = Some ((), e') ∧
    take (Z.to_nat (ed_len e')) (ed_buf e') = [97; 98; 10; 120; 99] ∧ ed_pos e' = 1 ∧ ed_dirty e' = true ∧ ed_ls e' = [0; 3].
Proof.
  destruct (editor_is_an_editor 170 [97; 98; 10; 0xc3; 0xa9; 99] ([97; 98; 10; 0xc3; 0xa9; 99] ++ repeat 170 100) 256 0 0 22 80 demo_keys)
    as (e' & E & H1 & H2 & H3 & H4 & _); [by eexists|vm_compute; done|vm_compute; done|lia|lia|lia| |].
  { repeat (apply list.Forall_cons; split; [split_and!; done|]). constructor. }
  exists e'. split; [exact E|]. split; [exact H1|]. split; [exact H2|]. split; [exact H3|exact H4].
Defined.

(** Going forward, three stray continuation bytes are three characters;
    going back they are one, and Backspace takes all of them. *)
Theorem backspace_takes_three :
  length (chars [0x80; 0x80; 0x80]) = 3%nat ∧
  match (let* _ := ed_index 170 in ed_keys 170 22 80 [KEY_END; KEY_BACKSPACE])
      (mkEd [0x80; 0x80; 0x80] 3 [] 256 0 0 0 false []) with
  | Some (_, e) => ed_len e = 0
  | None => False
  end.
Proof. vm_compute. done. Qed.
