(* ===== verification/EditorFile.v ===== *)
(** * The editor's files (ed_load and ed_save of src/prog/mc.c)

    The editor over the client library over the file server over any driver:
    what is saved is what is loaded.  And the cases in which it is not. *)
From stdpp Require Import base list numbers option.
From S2P Require Import Prelude Req FatName Fat16 Client Fs FsClient Curses Editor EditorText.
Local Open Scope Z_scope.

Section world.
Context {D : Type} `{FileSystem D}.
Context (stale0 : Z) (fs_doc fs_conf : list Z) (stale : Z) (junk : vfs_req) (fuel : nat) (srv me : Z).
Context (Hsrv : 0 ≤ srv < 2 ^ 15).
#[local] Instance editor_world : World (fs D) := fs_world stale0 fs_doc fs_conf srv me.
Abbreviation descr i := (fd_pack srv (Z.of_nat i)).

Lemma outward_eq {A} (m : prog (fs D) A) e s a s' : m s = Some (a, s') → outward m (mkEditing e s) = Some (a, mkEditing e s').
Proof. intros E. unfold outward. cbn. by rewrite E. Qed.
Lemma on_ed_eq {A} (m : prog ed_state A) e (s : fs D) a e' : m e = Some (a, e') → on_ed m (mkEditing e s) = Some (a, mkEditing e' s).
Proof. intros E. unfold on_ed. cbn. by rewrite E. Qed.

Lemma frame_trans i (a b c : fs D) : frame i i a b → frame i i b c → frame i i a c.
Proof.
  intros (A1 & A2 & A3 & A4 & A5) (B1 & B2 & B3 & B4 & B5). unfold frame. rewrite B1, B2, B3, B4. repeat split; try done.
  intros k Hk Hk'. by rewrite B5, A5.
Qed.

(** ** Saving *)

(** What has been written of [t] is in the open file; the rest follows. *)
Lemma save_loop_ok i name t e n : ∀ off s,
  t `prefix_of` ed_buf e → ed_len e = Z.of_nat (length t) → Z.of_nat (length t) < 2 ^ 31 → name ≠ [] →
  open_on i name (take off t) (length (take off t)) true s → (off ≤ length t)%nat → cap_ok i s → (length t - off ≤ n)%nat →
  ∃ s', save_loop junk n (descr i) (Z.of_nat off) (mkEditing e s) = Some (true, mkEditing e s') ∧
    open_on i name t (length t) true s' ∧ frame i i s s'.
Proof.
  induction n as [|n IH]; intros off s Ht Hl Hs Hn O Hoff Hc Hk; cbn [save_loop];
    rewrite (pbind_eq _ _ _ e (mkEditing e s)) by done; rewrite Hl.
  - rewrite (proj2 (Z.ltb_ge _ _)) by lia. exists s. rewrite take_ge in O by lia. split_and!; [done|done|apply frame_refl].
  - destruct (Z.ltb_spec (Z.of_nat off) (Z.of_nat (length t))) as [Hlt|Hge].
    2:{ exists s. rewrite take_ge in O by lia. split_and!; [done|done|apply frame_refl]. }
    set (k := if VFS_DATA_MAX <? _ then _ else _).
    assert (0 < k ≤ VFS_DATA_MAX ∧ k ≤ Z.of_nat (length t) - Z.of_nat off) as [Hk1 Hk2] by (unfold k; case_match; unfold VFS_DATA_MAX in *; lia).
    rewrite Nat2Z.id. destruct Ht as [r Hr]. rewrite Hr, drop_app_le, take_app_le by (rewrite ?length_drop; lia).
    set (d := take (Z.to_nat k) (drop off t)).
    assert (length d = Z.to_nat k) as Hd by (unfold d; rewrite length_take, length_drop; lia).
    destruct (write_chunk stale0 fs_doc fs_conf junk srv me Hsrv i name (take off t) true d s O Hn) as (f' & Hw & O' & Hc').
    { intros E. rewrite E in Hd. cbn in Hd. lia. } { lia. } { rewrite length_take. lia. } { exact Hc. }
    rewrite (pbind_eq _ _ _ _ _ (outward_eq _ e _ _ _ Hw)), Hd, Z2Nat.id by lia.
    rewrite (proj2 (Z.ltb_ge _ 0)), (proj2 (Z.eqb_neq _ 0)) by lia. set (s1 := with_tab _ s) in *.
    assert (take off t ++ d = take (off + Z.to_nat k) t) as Ed by (unfold d; apply take_take_drop).
    rewrite Ed in O'. replace (Z.of_nat off + k) with (Z.of_nat (off + Z.to_nat k)) by lia.
    destruct (IH (off + Z.to_nat k)%nat s1) as (s' & E & O2 & F); try done; [by exists r|lia| |lia|].
    { unfold cap_ok, s1. cbn. rewrite nth_insert_same; [done|apply O|apply O]. }
    exists s'. split; [exact E|]. split; [done|]. eapply frame_trans; [|exact F]. apply (frame_put srv Hsrv); [apply frame_refl|by left].
Qed.
Lemma save_ok i t path x d' e s :
  t `prefix_of` ed_buf e → ed_len e = Z.of_nat (length t) → Z.of_nat (length t) < 2 ^ 31 → (length t ≤ fuel)%nat →
  path ≠ [] → (length path ≤ VFS_NAME_MAX)%nat → next_free i s → fs_oom s = [] → drv_write path t (driver s) = Some (x, d') →
  ∃ s', ed_save junk fuel path (mkEditing e s) = Some (0, mkEditing (e <| ed_dirty := false |>) s') ∧
    driver s' = d' ∧ next_free i s' ∧ fs_oom s' = [].
Proof.
  intros Ht Hl Hs Hfuel Hp Hpl Hf Hm Hw. unfold ed_save.
  destruct (create_file_ok stale0 fs_doc fs_conf junk srv me i path s Hf Hm) as [Hc O]. set (s1 := with_tab _ s) in *.
  rewrite (take_ge path) in O by lia. pose proof Hf as (Hi & Hlen & _).
  destruct (pack_task srv Hsrv (Z.of_nat i)) as (_ & _ & Hpos); [unfold FS_MAXFD in *; lia|].
  rewrite (pbind_eq _ _ _ _ _ (outward_eq _ e _ _ _ Hc)), (proj2 (Z.ltb_ge _ 0)) by lia.
  destruct (save_loop_ok i path t e fuel 0 s1 Ht Hl Hs Hp) as (s2 & E & O2 & (F1 & F2 & F3 & F4 & F5)); [by rewrite take_0|lia| |lia|].
  { unfold cap_ok, s1. cbn. by rewrite nth_insert_same. }
  change (Z.of_nat 0) with 0 in E. rewrite (pbind_eq _ _ _ _ _ E). cbn [negb].
  destruct (close_ok stale0 fs_doc fs_conf junk srv me Hsrv i path t (length t) true s2 d' O2) as (f & Hcl & Hfu).
  { exists x. by rewrite F1. }
  rewrite (pbind_eq _ _ _ _ _ (outward_eq _ e _ _ _ Hcl)). rewrite (proj2 (Z.ltb_ge 0 0)) by lia.
  eexists. split; [reflexivity|]. pose proof (oo_tab _ _ _ _ _ _ O2) as Ht2. split_and!; [done| |cbn; by rewrite F2].
  unfold next_free. cbn. rewrite length_insert, nth_insert_same by done. split_and!; [done|done|done|].
  intros k Hk. rewrite nth_insert_other by lia. destruct Hf as (_ & _ & _ & Hused). rewrite <- (Hused k Hk).
  rewrite !nth_lookup, (F5 k) by lia. unfold s1. cbn. by rewrite list_lookup_insert_ne by lia.
Qed.

(** ** Loading *)

(** The editor's text is what has been read so far. *)
Record loading (t : list Z) (pos : nat) (e : ed_state) : Prop := {
  lo_text : take pos t `prefix_of` ed_buf e; lo_len : ed_len e = Z.of_nat pos; lo_room : roomy e;
  lo_pos : ed_pos e = 0; lo_dirty : ed_dirty e = false }.
Lemma append_ok t pos k e :
  loading t pos e → (pos + k ≤ length t)%nat → Z.of_nat (pos + k) ≤ ed_cap e →
  ∃ e', ed_append (Z.of_nat k) (take k (drop pos t)) e = Some ((), e') ∧ loading t (pos + k) e'.
Proof.
  intros [Ht Hl R Hp Hd] Hk Hc. unfold ed_append, ed_cap in *. rewrite Hl, Nat2Z.id.
  assert (length (take k (drop pos t)) = k) as Hlk by (rewrite length_take, length_drop; lia). rewrite Hlk.
  rewrite (proj2 (Nat.ltb_ge _ _)) by lia. eexists. split; [reflexivity|]. destruct Ht as [r Hr].
  assert (take pos (ed_buf e) = take pos t) as Etk.
  { rewrite Hr, take_app_le by (rewrite length_take; lia). rewrite take_take. f_equal. lia. }
  constructor; cbn; try done.
  - rewrite Etk, app_assoc, take_take_drop. by apply prefix_app_r.
  - lia.
  - constructor; try apply R. unfold ed_cap. cbn. rewrite !length_app, Hlk, length_take, length_drop.
    pose proof (ro_cap _ R) as Hcap. unfold ed_cap in Hcap. lia.
Qed.
Lemma load_loop_ok i name t n : ∀ pos e s,
  open_on i name t pos false s → loading t pos e → Z.of_nat (length t) + 4096 ≤ 2 ^ 30 → (length t - pos < n)%nat →
  ∃ e' s', load_loop stale junk n (descr i) (mkEditing e s) = Some ((), mkEditing e' s') ∧
    loading t (length t) e' ∧ open_on i name t (length t) false s' ∧ frame i i s s'.
Proof.
  induction n as [|n IH]; intros pos e s O L Hs Hn; [lia|]. cbn [load_loop]. destruct (oo_pos _ _ _ _ _ _ O) as [_ Hple].
  rewrite (pbind_eq _ _ _ (ed_len e) (mkEditing e s)) by done. rewrite (lo_len _ _ _ L).
  destruct (room_text stale e (Z.of_nat pos + 4096) (lo_room _ _ _ L) ltac:(lia)) as (more & Hr & Hm).
  rewrite (pbind_eq _ _ _ _ _ (on_ed_eq _ _ s _ _ Hr)). cbn [negb]. set (e1 := e <| ed_buf := ed_buf e ++ more |>).
  assert (ed_cap e1 = ed_cap e + Z.of_nat (length more)) as Ecap by (unfold ed_cap, e1; cbn; rewrite length_app; lia).
  assert (loading t pos e1) as L1.
  { destruct L as [Ht Hl R Hp Hd]. constructor; try done; [by apply prefix_app_r|]. constructor; try apply R. lia. }
  rewrite (pbind_eq _ _ _ (ed_cap e1) (mkEditing e1 s)) by done.
  pose proof (read_chunk stale0 fs_doc fs_conf junk srv me Hsrv i name t pos false s O ltac:(lia)) as Hrd. cbv zeta in Hrd.
  set (d := take (Z.to_nat VFS_DATA_MAX) (drop pos t)) in *. set (s1 := with_tab _ s) in Hrd.
  assert (length d = Nat.min 512 (length t - pos)) as Hd by (unfold d, VFS_DATA_MAX; rewrite length_take, length_drop; lia).
  assert (vfs_read junk (descr i) (ed_cap e1 - Z.of_nat pos) s = Some ((Z.of_nat (length d), d), s1)) as Hrd'.
  { rewrite <- Hrd. unfold vfs_read. rewrite Z.ltb_irrefl, (proj2 (Z.ltb_lt _ _)) by (unfold VFS_DATA_MAX; lia). done. }
  rewrite (pbind_eq _ _ _ _ _ (outward_eq _ e1 _ _ _ Hrd')).
  assert (open_on i name t (pos + length d) false s1) as O1 by (eapply open_on_put; try apply O; cbn; lia || done).
  assert (frame i i s s1) as F1 by (apply (frame_put srv Hsrv); [apply frame_refl|by left]).
  destruct (Nat.eq_dec pos (length t)) as [->|Hpos].
  - rewrite (proj2 (Z.leb_le _ 0)) by lia. exists e1, s1. split_and!; try done. replace (length t + length d)%nat with (length t) in O1 by lia. exact O1.
  - rewrite (proj2 (Z.leb_gt _ 0)) by lia. assert (d = take (length d) (drop pos t)) as Ed.
    { unfold d. rewrite length_take, <- take_take. by rewrite firstn_all. }
    destruct (append_ok t pos (length d) e1 L1) as (e2 & E2 & L2); [lia|lia|]. rewrite <- Ed in E2.
    rewrite (pbind_eq _ _ _ _ _ (on_ed_eq _ _ s1 _ _ E2)).
    destruct (IH (pos + length d)%nat e2 s1 O1 L2 Hs ltac:(lia)) as (e' & s' & E & L' & O' & F'). exists e', s'. split; [done|]. split; [done|]. split; [done|]. by eapply frame_trans.
Qed.
Lemma load_ok i t path d' e s :
  roomy e → Z.of_nat (length t) + 4096 ≤ 2 ^ 30 → (length t < fuel)%nat → next_free i s → fs_oom s = [] → drv_gives path t (driver s) d' →
  ∃ e' s', ed_load stale junk fuel path (mkEditing e s) = Some (0, mkEditing e' s') ∧ holds (mkDoc t 0 false) e' ∧ driver s' = d'.
Proof.
  intros R Hs Hfuel Hf Hm Hg. unfold ed_load.
  set (e0 := e <| ed_len := 0 |> <| ed_pos := 0 |> <| ed_top := 0 |> <| ed_hoff := 0 |> <| ed_dirty := false |>).
  rewrite (pbind_eq _ _ _ () (mkEditing e0 s)) by done.
  destruct (open_file_ok stale0 fs_doc fs_conf junk srv me Hsrv i path t s d' Hf Hm Hg ltac:(lia)) as (f & Ho & _ & _ & O). set (s1 := with_driver _ _) in *.
  destruct Hf as (Hi & Hlen & _). destruct (pack_task srv Hsrv (Z.of_nat i)) as (_ & _ & Hpos); [unfold FS_MAXFD in *; lia|].
  rewrite (pbind_eq _ _ _ _ _ (outward_eq _ e0 _ _ _ Ho)), (proj2 (Z.ltb_ge _ 0)) by lia.
  destruct (load_loop_ok i _ t fuel 0 e0 s1 O) as (e1 & s2 & E1 & L & O2 & F); [|done|lia|].
  { constructor; try done; [by rewrite take_0; exists (ed_buf e0)|]. destruct R. by constructor. }
  rewrite (pbind_eq _ _ _ _ _ E1).
  destruct (close_ok stale0 fs_doc fs_conf junk srv me Hsrv i _ t _ false s2 (driver s2) O2 eq_refl) as (f2 & Hcl & _).
  rewrite (pbind_eq _ _ _ _ _ (outward_eq _ e1 _ _ _ Hcl)). destruct L as [Ht Hl R1 Hp Hd]. rewrite firstn_all in Ht.
  destruct (index_ok stale t e1 Ht Hl ltac:(lia) R1) as (c & E & R2). rewrite (pbind_eq _ _ _ _ _ (on_ed_eq _ _ _ _ _ E)).
  eexists _, _. split; [reflexivity|]. split; [|by destruct F]. constructor; cbn; try done; lia.
Qed.
(** What is saved is what is loaded.  Whatever document the editor
    holds, saving it hands its text to the driver once and whole, as the
    file's content, and the document is clean; and when the driver gives
    back for that name what it was handed, loading the file makes the editor
    hold that text from its beginning. *)
Theorem saved_is_loaded i d path x d1 d2 e s :
  holds d e → Z.of_nat (length (d_text d)) + 4096 ≤ 2 ^ 30 → (length (d_text d) < fuel)%nat →
  path ≠ [] → (length path ≤ VFS_NAME_MAX)%nat → next_free i s → fs_oom s = [] →
  drv_write path (d_text d) (driver s) = Some (x, d1) → drv_gives path (d_text d) d1 d2 →
  ∃ s1 e2 s2, ed_save junk fuel path (mkEditing e s) = Some (0, mkEditing (e <| ed_dirty := false |>) s1) ∧ driver s1 = d1 ∧
    ed_load stale junk fuel path (mkEditing (e <| ed_dirty := false |>) s1) = Some (0, mkEditing e2 s2) ∧
    holds (mkDoc (d_text d) 0 false) e2 ∧ driver s2 = d2.
Proof.
  intros Hd Hs Hfuel Hp Hpl Hf Hm Hw Hg. pose proof (ho_in _ _ Hd) as [Ht Hl _].
  destruct (save_ok i (d_text d) path x d1 e s Ht Hl ltac:(lia) ltac:(lia) Hp Hpl Hf Hm Hw) as (s1 & E1 & D1 & F1 & M1).
  subst d1. destruct (load_ok i (d_text d) path d2 (e <| ed_dirty := false |>) s1) as (e2 & s2 & E2 & H2 & D2); try done.
  { destruct (ho_room _ _ Hd). by constructor. }
  by exists s1, e2, s2.
Qed.
End world.
#[local] Existing Instance disk_driver.
Definition note : list Z := str "one" ++ [10] ++ str "two".
Lemma saved_is_loaded_witness :
  ∃ e, holds (mkDoc note 5 true) e ∧
  ∃ s1 e2 s2, ed_save (H := editor_world 170 [] [] 4 5) demo_junk 8 (str "/n") (mkEditing e (demo_fs [] false)) =
      Some (0, mkEditing (e <| ed_dirty := false |>) s1) ∧ driver s1 = mkDisk [(str "/n", note)] false ∧
    ed_load (H := editor_world 170 [] [] 4 5) 170 demo_junk 8 (str "/n") (mkEditing (e <| ed_dirty := false |>) s1) = Some (0, mkEditing e2 s2) ∧
    holds (mkDoc note 0 false) e2 ∧ driver s2 = mkDisk [(str "/n", note)] false.
Proof.
  set (e := mkEd note 7 (starts_of note) 256 5 0 0 true []).
  assert (holds (mkDoc note 5 true) e) as H.
  { constructor; try done. vm_compute. lia. }
  exists e. split; [exact H|].
  apply (saved_is_loaded 170 [] [] 170 demo_junk 8 4 5 ltac:(lia) 0 (mkDoc note 5 true) (str "/n") 7 (mkDisk [(str "/n", note)] false) _ e (demo_fs [] false) H).
  - vm_compute. discriminate.
  - vm_compute. lia.
  - done.
  - vm_compute. lia.
  - split_and!; [unfold FS_MAXFD; lia|done|done|intros; lia].
  - done.
  - vm_compute. reflexivity.
  - exists (mkDisk [(str "/n", note)] false), (mkDisk [(str "/n", note)] false). vm_compute. done.
Defined.

(** ** Where a file is lost *)

Definition save_on (full : bool) (e : ed_state) : option (Z * bool * list (list Z * list Z)) :=
  match ed_save (H := editor_world 170 [] [] 4 5) demo_junk 8 (str "/n") (mkEditing e (demo_fs [] full)) with
  | Some (r, s) => Some (r, ed_dirty (ed s), files (driver (behind s)))
  | None => None
  end.
(** On a disk that is full the editor says that it has saved, forgets that
    there was a change, and nothing is on the disk. *)
Theorem saved_to_a_full_disk : save_on true (mkEd note 7 (starts_of note) 256 5 0 0 true []) = Some (0, false, []).
Proof. vm_compute. reflexivity. Qed.
(** A file that memory runs out for is loaded as far as it came and can be
    saved: what did not fit is gone. *)
Theorem half_a_file_is_saved :
  match (let* r := ed_load (H := editor_world 170 [] [] 4 5) 170 demo_junk 20 (str "/n") in
         let* r' := ed_save (H := editor_world 170 [] [] 4 5) demo_junk 20 (str "/n") in pret (r, r'))
      (mkEditing (ed_start [true; false; true]) (demo_fs [(str "/n", repeat 65 (Z.to_nat 4500))] false)) with
  | Some ((r, r'), s) => r = 0 ∧ r' = 0 ∧ length <$> on_disk (str "/n") (driver (behind s)) = Some (Z.to_nat 1536)
  | None => False
  end.
Proof. vm_compute. done. Qed.
